(* ===== verification/_CoqProject ===== *)
-Q . S2P
Prelude.v
Text.v
Identity.v
Model.v
Samples.v
Reducer.v
Scheduler.v
Mailbox.v
Actor.v
Journal.v
Admission.v
AdmissionIndex.v
Authority.v
Delivery.v
Retirement.v
DataPlane.v
CstpCodec.v
Mux.v
Auth.v
Connector.v
Http.v
WebVpn.v
WebVpnLogin.v
Offer.v
Session.v
Host.v
Helper.v
PacketAdapter.v
Wire.v
EventBus.v
NativeError.v
WinJournal.v
Utf16.v
SystemProxy.v
Registry.v
ProxyFamily.v
Pac.v
ProxyExec.v
ProxyJournal.v
IpHelper.v
Routes.v
NetSettings.v
RouteOwner.v
ApplyTunnel.v
WinTeardown.v
Adapters.v
ConfigStore.v
Config.v
VgdcDns.v
DarwinConfig.v
Channel.v
EngineStatus.v
EngineLog.v
EngineProbe.v
EnginePlane.v
EngineService.v
EngineRuntime.v
EngineRuntimeSafe.v
EngineRuntimeLoss.v
EngineRuntimeEnd.v
EngineRuntimeNet.v
EngineOwner.v
EngineControl.v
EngineControlSafe.v
EngineControlSys.v
EngineControlInv.v
EngineControlTrue.v
EngineControlEnds.v
EngineControlLive.v
EngineControlRun.v
