(* ===== verification/Prelude.v ===== *)
(** * Verification of the EXV VPN core

    EXV is a VPN client: a host process, a privileged helper and platform code for
    Windows and macOS share the crates under [src/src/common/rust/crates/exv-vpn-*],
    which hold the logic that is independent of the platform. This library models those
    crates and proves what makes them correct. A path [crate/file.rs] below, and in the
    comment above each definition, means
    [src/src/common/rust/crates/exv-vpn-<crate>/src/file.rs], and for a crate [win32-x]
    [src/src/platform/win32/rust/crates/exv-vpn-win32-x/src/file.rs], for a crate [darwin-x]
    likewise under [src/src/platform/darwin]; the comment gives the lines the definition
    translates and the name of the Rust item.

    ** The program

    - _domain_: identities, errors and limits; the runtime states; the pure reducer that
      turns a command in a state into the next state, effects to start, answers to
      operations and events.
    - _runtime_: the actor that owns a runtime state, drains its mailboxes through the
      reducer and settles the completions of the effects it started.
    - _resource_: the recovery journal and its records, the admission sequencer, peer
      capabilities, the delivery of ownership tokens, and the retirement saga.
    - _data-plane_: the packet budget, the pump, the attach guard, the teardown barrier.
    - _cstp_: the tunnel protocol: the TLS connector, the WebVPN login over HTTP, the
      CONNECT that negotiates a tunnel offer, the session's read and write tasks, the
      frame codec, multiplexer and authentication engine.
    - _wire_: strict conversions of protocol messages to domain values.
    - _host_, _helper_, _local-rpc_: the compositions of these parts in the two processes,
      the event bus of the host and the binding of kernel requests to operations.
    - _win32-resource_, _win32-engine_: what the Windows platform keeps on disk, in the
      registry and in the network settings of the machine: the durable journal and the
      recovery from it, the system proxy settings, routes, addresses, MTU and name servers
      a connection changes and undoes, and the ordered teardown; the resolution of the
      gateway past a proxy program; the threads that move packets between the adapter and
      the session, with their probe and keepalives; the status and log streams; the
      runtime that assembles, hands over and takes down connections; the control service
      through which its owner acts, with the owner's lease and heartbeat; and the service
      the engine runs as, with the batch of steps an elevated helper runs.
    - _win32-config_, _darwin-core_: the configuration of the two platforms, its file, its
      key and the sealed password.

    The runtime calls the reducer; the saga calls the record codec; the host, helper and
    packet adapter call the barrier, the budget, the capability and the saga. A session
    dials through the connector, logs in with the cookie of the WebVPN login, reads an
    offer and then decodes frames; a kernel request goes through the wire conversions and
    the capability.

    ** The files

    - [Prelude]: the [result] type and its monad, machine-width arithmetic, byte arrays
      and big-endian encodings, list and option lemmas, tactics, the hint database.
    - [Identity]: domain/identity.rs, error.rs, limits.rs. [Model]: domain/model.rs and
      the data of domain/ports.rs. [Samples]: concrete values for the examples.
    - [Reducer]: domain/reducer.rs. [Scheduler]: runtime/effect.rs. [Mailbox]:
      runtime/mailbox.rs, snapshot.rs and the stop latch of handle.rs. [Actor]:
      runtime/actor.rs.
    - [Journal], [Admission], [AdmissionIndex], [Authority], [Delivery], [Retirement]:
      resource/journal.rs, admission.rs, operation.rs, authority.rs, delivery.rs,
      retirement.rs.
    - [DataPlane]: data-plane/budget.rs, attachment.rs, pump.rs, teardown.rs.
    - [CstpCodec], [Mux], [Auth]: cstp/codec.rs, mux.rs, auth.rs. [Connector]:
      cstp/connector.rs.
    - [Text]: what the parsers use of Rust's strings (UTF-8, find, split, trim, lines,
      replace, numbers, dotted addresses), with loops by a decreasing measure.
    - [Http], [WebVpn], [WebVpnLogin]: cstp/webvpn.rs, as the response reader, the parsers
      and builders of forms, XML and requests, and the login itself.
    - [Offer], [Session]: cstp/session.rs, as the parsing of the offer with the redaction
      of diagnostics, and opening a session with its read and write task.
    - [Host]: host/composition.rs. [Helper]: helper/composition.rs. [PacketAdapter]:
      local-rpc/packet.rs.
    - [Wire]: wire/convert.rs and redact.rs with the messages of [proto/exv/v1/common.proto]
      they read, and local-rpc/kernel.rs. [EventBus]: host/event_bus.rs.
    - [NativeError], [WinJournal]: win32-resource/native_error.rs, journal_store.rs,
      journal_projection.rs, native_observation.rs, recovery.rs.
    - [Utf16]: UTF-16 and lists of entries in a text. [SystemProxy], [Registry]:
      win32-resource/system_proxy.rs and system_proxy_override.rs, as the meaning of the
      settings and their access in the registry. [ProxyFamily], [Pac], [ProxyExec]:
      win32-resource/system_proxy_family.rs, system_proxy_pac.rs, system_proxy_family_exec.rs.
      [ProxyJournal]: win32-engine/system_proxy_journal.rs and the system proxy part of
      win32-engine/platform_tunnel.rs.
    - [IpHelper]: the rows and calls of the IP Helper interface the code uses, the laws it
      relies on, and a simulated network that has them. [Routes]: win32-resource/routes.rs.
      [NetSettings]: ip_helper_types.rs, ip_address.rs, mtu.rs, dns.rs, dns_types.rs.
      [RouteOwner]: RouteOwner of win32-engine/platform_tunnel.rs. [ApplyTunnel]:
      win32-resource/apply_tunnel.rs and aggregate.rs. [WinTeardown]: inventory.rs,
      cleanup_proof.rs, teardown.rs.
    - [Adapters]: the network cards of win32-resource/vgdc_dns.rs, and proxy_tun.rs.
      [VgdcDns]: the rest of vgdc_dns.rs, and win32-engine/vgdc_connect.rs.
    - [ConfigStore]: the directory of the configuration as a monad over its states, the
      replacement of files, key and password, of both platforms. [Config]: the crate
      win32-config. [DarwinConfig]: darwin-core/config.rs and config_hygiene.rs.
    - [Channel]: a bounded channel as its queue and what was taken from it.
      [EngineStatus]: win32-engine/stats.rs and status.rs. [EngineLog]: log_sink.rs.
      [EngineProbe], [EnginePlane]: data_plane.rs, as the probe, the keepalives and the
      diagnostics, and as the two threads, their guard and their owner. [EngineService]:
      service.rs, service_batch.rs and wintun_dependency.rs, over the replies of the
      service manager.
    - [EngineRuntime]: win32-engine/tunnel_runtime.rs, as a transition system over its
      threads, on the class [TunnelPlatform] of the network settings and its laws
      [TunnelPlatformLaws]. [EngineRuntimeSafe], [EngineRuntimeLoss], [EngineRuntimeEnd]:
      its invariants, its losses and announcements, its termination and progress.
      [EngineRuntimeNet]: the adapter's owner of platform_tunnel.rs, the instance of the
      class that [RouteOwner] gives, and runs on the simulated network.
    - [EngineOwner]: win32-engine/token_slot.rs, owner_lease.rs, mutation_ingress.rs,
      heartbeat.rs and secret_payload.rs. [EngineControl]: win32-engine/grpc_server.rs, each
      request and each message of the owner's stream as a function of the endpoint's state;
      [EngineControlSafe]: what they preserve. [EngineControlSys]: the endpoint over
      [EngineRuntime], with the tasks of its requests and the end of the process, as one
      transition system: a step is one stretch in which a request holds the endpoint's
      lock, one call of the runtime or one step of it. [EngineControlInv]: its invariants;
      [EngineControlTrue], [EngineControlEnds], [EngineControlLive]: who acts and owns, how
      operations end, and that they do; [EngineControlRun]: runs on the simulated network.

    ** How code becomes definitions

    A struct is a [Record] (constructor [MkX]), an enum an [Inductive], a newtype a
    record of one field [X_0]. A method on [&mut self] takes the value and returns it
    with its result; [Result<A, E>] is [result E A] and an early return is the error
    value together with the state reached so far. Unsigned integers are [N], with
    [add64], [sub64] and [sat_sub] where the code wraps or saturates; byte arrays carry
    their length. Durations are nanoseconds. A [HashMap] is a [gmap], a [Vec] or
    [VecDeque] a list. A mutex makes a method one atomic step, so interleavings are
    sequences of method calls; the properties quantify over all of them, as lists of
    operations or as the reachable states of a step relation.

    Code outside the repository is a parameter: SHA-256, the random source of fresh
    identities, the text of JSON and of UUIDs, the zeroizing of a buffer, the derived
    serialization of plain enums (the class [Serde]), the TLS library and the sockets with
    the bytes and failures they answer, the clock, the broadcast channel (the class
    [Broadcast]), the Windows registry (the class [Win32Registry] with its laws
    [RegistryLaws]), the IP Helper interface (the classes [IpHelper] and [NetView] with
    the laws [IpHelperLaws]), AES-GCM and base64 (the classes [Aead] and [Base64]). Properties that need something of it say so as a hypothesis
    and have a witness with a concrete function. The record
    codec is the class [RecordCodec]: the saga is proved against it, and
    [Retirement.begin_over_json] discharges it with the codec of [Admission].

    ** What is proved

    - Reducer: every step simulates the abstract life cycle of a session; every state
      stays well formed; at most one connect is in progress and each is answered; an
      identical resubmission changes nothing; stop starts exactly one teardown; a queued
      connect is never lost silently.
    - Actor: an effect identity is settled at most once and never both in flight and
      settled; a late handle is cleaned exactly once; pumping drains both mailboxes;
      reachable states are well formed; losing the host starts a teardown.
    - Scheduler and mailboxes: every scheduled effect produces a completion for its own
      fence; the mailbox is bounded and first-in first-out; observers see the latest
      snapshot.
    - Journal: appending and recovering is the identity; after a torn write the intact
      prefix is recovered and nothing else; what decodes re-encodes to the bytes read;
      equal chain heads mean equal journals, unless the hash collides.
    - Admission: records round-trip; watermarks are unique; admitting again is idempotent;
      a closed operation is never admitted.
    - Authority, delivery, retirement: a capability authorizes exactly what it was bound
      for; a connection sees at most one token; the saga follows its protocol and can
      always be completed; an observation passes exactly on the complete inventory.
    - Data plane: bytes in flight stay within the budget; a batch is charged wholly or not
      at all; the pump alternates fairly; the barrier releases exactly once.
    - CSTP: streams of well-formed frames, and no others, decode back whatever the
      chunking; the decoder's verdict is characterized exactly; the multiplexer keeps its
      bounds and its order, starves no producer and flushes at end of file; late handles
      are linear; authentication is established only after every prompt was answered, each
      challenge once.
    - Connecting and logging in: a connection is handed out only after every guard of its
      policy; a response is read the same however the network cuts it, within its limits;
      replies, form bodies and requests carry exactly their fields and read back; a login
      succeeds only on the last response read, and the credentials travel only in the
      documented requests.
    - Session: both header styles of an offer read back to the offer, exactly the
      well-formed offers are accepted, the netmask loop is the inverse of the mask;
      redacted diagnostics hold no secret; frames are delivered in order and unchanged for
      every cut of the stream, and every end of a task is reported once and last.
    - Wire and kernel adapter: the conversions accept exactly the strict encodings of
      valid values; each rejection has its cause; the bound identity is the verified
      peer's whatever the message claims.
    - Event bus: ticks increase strictly under every interleaving; a subscriber ends at
      the latest event however far it lags, as long as nothing is sent between its read
      and its attaching.
    - Compositions: after a disconnect the host admits no connection until both sides
      joined the barrier and admission was reopened; the helper releases ownership exactly
      when both sides joined and the saga retired, and admits frames exactly for the
      ownership held while attached and not retiring; the adapter attaches once.
    - Windows journal and recovery: recovery cleans only what is provably its own, and
      after a crash during an append decides as if the append had not happened, or
      reports the record that was cut inside its payload as corruption.
    - Windows system proxy: merging keeps every exemption and adds the new ones once; a
      wildcard matches exactly the addresses of its network; the journal record decodes
      exactly from its encoding; settings somebody else changed are left alone. With a
      journal that has no torn tail, the record of a change is on disk before the change
      is made, whatever fails, and a restart restores the settings; no answer of the file
      system makes the journal panic.
    - Windows network settings: connecting and disconnecting gives the machine its routes,
      addresses, MTU and name servers back; a failed connection keeps every route it left
      behind owned; nothing of another program is removed; both always answer. The
      teardown ends the session exactly once, after its workers and before the adapter,
      and signs a proof only after all of it succeeded.
    - Gateway resolution: the engine never dials an address a proxy program invented; the
      reply of a name server is read as its addresses, and no reply makes the reader
      panic; what is sent carries the host name and nothing else of it.
    - Configuration: in every state the directory passes through, the file holds the whole
      old or the whole new settings, and the new ones are what the items sent say; startup
      repair settles after one pass; the settings shown can be set back; a stored password
      belongs to its account.
    - Windows engine: traffic recorded by several threads is never lost and a subscriber
      of the status or of the log misses nothing silently; a ping is a valid packet whose
      answer is told apart, and keepalives are paced; a lost session is claimed once,
      announced and recorded as failed for the operation it belongs to, and stopping ends
      both threads; stopping and removing the service are bounded and in order, and a
      batch stops at its first failure.
    - Windows engine runtime: however its threads interleave, what is said of a connection
      is true when it is said, and a cancellation or the start of a disconnect silences
      the assembly there is; a late sweeper spares a newer connection; between two calls
      the runtime takes boundedly many steps and comes to rest with its lock free. As long
      as no thread panicked with the lock, no loss stays unswept, and the routes on the
      machine are the ones it holds for removal, if the system keeps routes as they are
      made.
    - Windows engine control: only the verified peer that owns the engine can change the
      endpoint or, under its lease, connect or stop by a request; any verified peer may
      ask a service to end, and an unverified one changes nothing; a lease is the owner's
      and of the current version, and ends with the ownership; a connection is recorded as
      a success only while its tunnel is in place and alive, and a stop lets none succeed
      until the next is started; every request takes a bounded number of steps and is
      stuck only while the runtime has not come to rest; a silent owner is noticed in
      bounded time.

    Deviations of the code from its documentation are recorded as [Example]s beside the
    component they concern.

    ** Fuel and bounds

    The fuelled definitions are the two drain loops of the actor, the decoding loops of
    the journal and of the frame stream, and the drawing of a fresh interaction id. The
    fuel of the loops is the length of the queue or of the buffer; each iteration consumes
    an item or at least a header, and [Actor.pump_drains], [Journal.journal_decode_sound]
    and [CstpCodec.stream_roundtrip] are stated of the result with that fuel. A fresh id is
    found with one draw more than there are ids issued ([Auth.respond_progress]), as long
    as the source draws distinct ones. The engine runtime runs over lists of steps, whose
    length [EngineRuntimeEnd.work] bounds, and so does the engine, whose tasks are bounded by
    [EngineControlLive.task_rank]. The loops over text and over a byte stream are
    [Text.loop], whose body is given with a measure it decreases ([Text.loop_eq] is the
    unfolding without fuel); the stream of a connection is the finite list of its reads:
    past it a response reader sees the end of the stream, and a session task waits, which
    is the value [None]. Hypotheses
    bounding counters by the machine width appear where the code would wrap.

    ** Not modelled

    The other port implementations and the services of the platform crates, the desktop
    applications and the installer are I/O against operating-system interfaces. The async
    waiting of runtime/handle.rs is the scheduler's, and so is the race in which the read
    and the write task of a session cancel each other. Debug redaction is presentation.
    Of the engine runtime, the diagnostics and log output are left out, as is the fake
    runtime of the tests; other programs do not change the machine while it runs, a
    property [RouteOwner] has without that restriction for a single disconnect. Of the
    control service, the message codec, the hashes, the identifiers drawn and the clock are
    parameters, log output and the requests that start a stream of samples or log lines
    are left to [EngineStatus] and [EngineLog]; the pipe under it (grpc_transport.rs), the
    command line (main.rs), the recovery at start (composition.rs, shutdown.rs) and the
    relay of packets (packet_relay.rs) are not modelled.

    A development that goes on would take the control service of the Windows host and of
    the macOS core next, which forward what the engine answers to the desktop application,
    and the recovery of the engine at its start. *)

From Stdlib Require Import NArith ZArith Strings.Byte Lia.
From stdpp Require Export base gmap countable strings decidable list.

(** ** Scopes and notations *)

Declare Scope exv_scope.
Delimit Scope exv_scope with exv.

(** ** Hint database and tactics of the development *)

Create HintDb exv discriminated.

(** Split every boolean connective of the hypotheses and close trivial goals. *)
Ltac bool_hyps :=
  repeat match goal with
  | H : (_ && _)%bool = true |- _ => apply andb_true_iff in H; destruct H
  | H : (_ || _)%bool = false |- _ => apply orb_false_iff in H; destruct H
  | H : negb _ = true |- _ => apply negb_true_iff in H
  | H : negb _ = false |- _ => apply negb_false_iff in H
  | H : bool_decide _ = true |- _ => apply bool_decide_eq_true in H
  | H : bool_decide _ = false |- _ => apply bool_decide_eq_false in H
  | H : N.ltb _ _ = true |- _ => apply N.ltb_lt in H
  | H : N.ltb _ _ = false |- _ => apply N.ltb_ge in H
  | H : N.leb _ _ = true |- _ => apply N.leb_le in H
  | H : N.leb _ _ = false |- _ => apply N.leb_gt in H
  | H : N.eqb _ _ = true |- _ => apply N.eqb_eq in H
  | H : N.eqb _ _ = false |- _ => apply N.eqb_neq in H
  | H : Nat.ltb _ _ = true |- _ => apply Nat.ltb_lt in H
  | H : Nat.ltb _ _ = false |- _ => apply Nat.ltb_ge in H
  | H : Nat.leb _ _ = true |- _ => apply Nat.leb_le in H
  | H : Nat.leb _ _ = false |- _ => apply Nat.leb_gt in H
  | H : Nat.eqb _ _ = true |- _ => apply Nat.eqb_eq in H
  | H : Nat.eqb _ _ = false |- _ => apply Nat.eqb_neq in H
  end.

(** Case analysis on every match of the context and of the goal, with the
    equations simplified on the way. *)
Ltac break := repeat (case_match || simplify_eq/=).

(** Evaluate the option and result monads, and nothing else. *)
Ltac opt_simpl :=
  cbn [mbind option_bind mret option_ret fmap option_fmap option_map negb orb andb fst snd].

(** The finisher of the routine branches. *)
Ltac crush := break; bool_hyps; simplify_eq/=; eauto with exv; try lia; try done.

(** ** The [Result] type *)

(** Rust's [Result<A, E>], with the error first so that [result E] is the monad
    in which [?] sequences. *)
Inductive result (E A : Type) : Type :=
  | Ok (a : A)
  | Err (e : E).
Arguments Ok {E A} a.
Arguments Err {E A} e.

#[export] Instance result_ret E : MRet (result E) := λ A a, Ok a.
#[export] Instance result_bind E : MBind (result E) := λ A B f r,
  match r with Ok a => f a | Err e => Err e end.
#[export] Instance result_fmap E : FMap (result E) := λ A B f r,
  match r with Ok a => Ok (f a) | Err e => Err e end.

#[export] Instance result_eq_dec `{EqDecision E, EqDecision A} : EqDecision (result E A).
Proof. solve_decision. Defined.

(** [Option::ok_or] and [Result::map_err]. *)
Definition ok_or {E A} (o : option A) (e : E) : result E A :=
  match o with Some a => Ok a | None => Err e end.
Definition map_err {E F A} (f : E → F) (r : result E A) : result F A :=
  match r with Ok a => Ok a | Err e => Err (f e) end.
Definition is_ok {E A} (r : result E A) : bool :=
  match r with Ok _ => true | Err _ => false end.

Lemma bind_Ok {E A B} (f : A → result E B) r b :
  (r ≫= f) = Ok b ↔ ∃ a, r = Ok a ∧ f a = Ok b.
Proof. destruct r as [a|e]; split; [eauto|by intros (? & [= ->] & ?)|done|by intros (? & ? & _)]. Qed.

Lemma ok_or_Ok {E A} (o : option A) (e : E) a : ok_or o e = Ok a ↔ o = Some a.
Proof. destruct o; naive_solver. Qed.

(** ** Bytes and byte strings *)

(** [u8] is the standard library's [byte]; its value as a number. *)
#[export] Instance byte_eq_dec' : EqDecision byte := Byte.byte_eq_dec.
#[export] Instance byte_countable : Countable byte :=
  inj_countable Byte.to_N Byte.of_N Byte.of_to_N.

Definition byte_val (b : byte) : N := Byte.to_N b.

(** [z as u8]: truncation to the low eight bits. *)
Definition byte_of_N (z : N) : byte :=
  match Byte.of_N (z mod 256) with Some b => b | None => x00 end.

Lemma byte_val_lt b : (byte_val b < 256)%N.
Proof. unfold byte_val. pose proof (Byte.to_N_bounded b). lia. Qed.

Lemma byte_of_N_val b : byte_of_N (byte_val b) = b.
Proof.
  unfold byte_of_N. rewrite N.mod_small by apply byte_val_lt.
  unfold byte_val. by rewrite Byte.of_to_N.
Qed.

Lemma byte_val_of_N z : byte_val (byte_of_N z) = (z mod 256)%N.
Proof.
  unfold byte_of_N, byte_val.
  destruct (Byte.of_N (z mod 256)) as [b|] eqn:E; [by apply Byte.to_of_N|].
  apply Byte.of_N_None_iff in E.
  pose proof (N.mod_upper_bound z 256). lia.
Qed.

Lemma byte_val_inj b1 b2 : byte_val b1 = byte_val b2 → b1 = b2.
Proof. intros E. by rewrite <-(byte_of_N_val b1), E, byte_of_N_val. Qed.

(** [to_be_bytes] and [from_be_bytes] of an [n]-byte unsigned integer. *)
Fixpoint be_bytes (n : nat) (z : N) : list byte :=
  match n with
  | O => []
  | S n => be_bytes n (z / 256) ++ [byte_of_N z]
  end.

Definition be_val (l : list byte) : N :=
  foldl (λ acc b, (acc * 256 + byte_val b)%N) 0%N l.

Definition le_bytes (n : nat) (z : N) : list byte := reverse (be_bytes n z).

Lemma length_be_bytes n z : length (be_bytes n z) = n.
Proof. revert z; induction n; intros z; simpl; [done|]. rewrite length_app, IHn. simpl. lia. Qed.

Lemma be_val_snoc l b : be_val (l ++ [b]) = (be_val l * 256 + byte_val b)%N.
Proof. unfold be_val. by rewrite foldl_app. Qed.

Lemma be_val_be_bytes n z : (z < 256 ^ N.of_nat n)%N → be_val (be_bytes n z) = z.
Proof.
  revert z; induction n as [|n IH]; intros z Hz.
  - change (256 ^ N.of_nat 0)%N with 1%N in Hz. unfold be_val; simpl. lia.
  - rewrite Nat2N.inj_succ, N.pow_succ_r' in Hz.
    simpl. rewrite be_val_snoc, byte_val_of_N, IH.
    + pose proof (N.div_mod z 256). lia.
    + apply N.Div0.div_lt_upper_bound; lia.
Qed.

Lemma be_bytes_be_val l : be_bytes (length l) (be_val l) = l.
Proof.
  induction l as [|b l IH] using rev_ind; [done|].
  rewrite length_app; simpl. rewrite Nat.add_1_r. simpl.
  rewrite be_val_snoc. f_equal.
  - etransitivity; [|exact IH]. f_equal.
    rewrite N.div_add_l by lia.
    rewrite (N.div_small (byte_val b)) by apply byte_val_lt. lia.
  - f_equal. apply byte_val_inj. rewrite byte_val_of_N.
    rewrite N.add_comm, N.Div0.mod_add. apply N.mod_small, byte_val_lt.
Qed.

Lemma be_val_lt l : (be_val l < 256 ^ N.of_nat (length l))%N.
Proof.
  induction l as [|b l IH] using rev_ind; [done|].
  rewrite be_val_snoc, length_app, Nat.add_1_r, Nat2N.inj_succ, N.pow_succ_r'.
  pose proof (byte_val_lt b). lia.
Qed.

#[global] Arguments be_bytes : simpl never.
#[global] Arguments be_val : simpl never.

(** ** Fixed-size byte arrays *)

(** [[u8; n]]: a byte list of exactly [n] bytes. The length is a boolean
    equation, so two arrays with the same bytes are equal. *)
Record array (n : nat) := Array {
  arr_bytes : list byte;
  arr_len : Is_true (Nat.eqb (length arr_bytes) n);
}.
Arguments Array {n} _ _.
Arguments arr_bytes {n} _.

Lemma array_ext {n} (a b : array n) : arr_bytes a = arr_bytes b → a = b.
Proof. destruct a, b; simpl; intros ->. f_equal. apply proof_irrel. Qed.

Lemma length_arr_bytes {n} (a : array n) : length (arr_bytes a) = n.
Proof. destruct a as [l H]; simpl. by apply Is_true_eq_true, Nat.eqb_eq in H. Qed.

#[export] Instance array_eq_dec n : EqDecision (array n).
Proof.
  refine (λ a b, cast_if (decide (arr_bytes a = arr_bytes b)));
    [by apply array_ext|congruence].
Defined.

(** [<[u8; n]>::try_from(slice)]: succeeds exactly on slices of length [n]. *)
Definition to_array (n : nat) (l : list byte) : option (array n) :=
  (if Nat.eqb (length l) n as b return (Is_true b → array n) → option (array n)
   then λ k, Some (k I) else λ _, None) (Array l).

#[export] Instance array_countable n : Countable (array n).
Proof.
  refine (inj_countable arr_bytes (to_array n) _).
  intros [l H]. unfold to_array; simpl. revert H.
  generalize (@Array n l). destruct (Nat.eqb (length l) n); simpl; [|done].
  intros a []. done.
Defined.

Lemma to_array_arr_bytes {n} (a : array n) : to_array n (arr_bytes a) = Some a.
Proof.
  destruct a as [l H]. unfold to_array; simpl. revert H.
  generalize (@Array n l). destruct (Nat.eqb (length l) n); simpl; [|done].
  intros a []. done.
Qed.

Lemma to_array_length n l :
  length l = n → ∃ a : array n, to_array n l = Some a ∧ arr_bytes a = l.
Proof.
  intros Hl. assert (H : Is_true (Nat.eqb (length l) n)) by by rewrite Hl, Nat.eqb_refl.
  exists (Array l H). split; [exact (to_array_arr_bytes (Array l H))|done].
Qed.

Lemma to_array_Some n l a : to_array n l = Some a ↔ arr_bytes a = l.
Proof.
  split; [|intros <-; apply to_array_arr_bytes].
  destruct (decide (length l = n)) as [Hl|Hl].
  - destruct (to_array_length n l Hl) as (a' & -> & ?). naive_solver.
  - unfold to_array. generalize (@Array n l). apply Nat.eqb_neq in Hl. by rewrite Hl.
Qed.

Lemma to_array_None n l : to_array n l = None ↔ length l ≠ n.
Proof.
  destruct (to_array n l) as [a|] eqn:E.
  - apply to_array_Some in E as <-. rewrite length_arr_bytes. naive_solver.
  - split; [|done]. intros _ Hl.
    destruct (to_array_length n l Hl) as (a' & ? & _). congruence.
Qed.

(** [[b; n]]: the array filled with one byte. *)
Fixpoint fill_ok (n : nat) (b : byte) : Is_true (Nat.eqb (length (replicate n b)) n) :=
  match n with O => I | S n => fill_ok n b end.
Definition array_fill (n : nat) (b : byte) : array n := Array (replicate n b) (fill_ok n b).

(** ** Slices *)

(** [&l[a..b]]: [None] is the panic of an out-of-range index. *)
Definition slice {A} (l : list A) (a b : nat) : option (list A) :=
  if (a <=? b) && (b <=? length l) then Some (take (b - a) (drop a l)) else None.

Lemma slice_Some {A} (l m : list A) a b :
  slice l a b = Some m ↔ a ≤ b ∧ b ≤ length l ∧ m = take (b - a) (drop a l).
Proof.
  unfold slice. destruct (Nat.leb_spec a b), (Nat.leb_spec b (length l)); simpl; naive_solver lia.
Qed.

Lemma length_slice {A} (l m : list A) a b : slice l a b = Some m → length m = b - a.
Proof. intros (? & ? & ->)%slice_Some. rewrite length_take, length_drop. lia. Qed.

Lemma slice_ex {A} (l : list A) a b :
  a ≤ b → b ≤ length l → ∃ m, slice l a b = Some m ∧ length m = b - a.
Proof.
  intros Ha Hb. assert (H : slice l a b = Some (take (b - a) (drop a l))) by by apply slice_Some.
  eexists. split; [exact H|]. by eapply length_slice.
Qed.

Lemma slice_split {A} (l m : list A) a b :
  slice l a b = Some m ↔ ∃ pre post, l = pre ++ m ++ post ∧ a = length pre ∧ b = a + length m.
Proof.
  rewrite slice_Some. split.
  - intros (? & ? & ->). exists (take a l), (drop b l).
    rewrite !length_take, length_drop. split_and!; [|lia..].
    rewrite <-(take_drop a l) at 1. f_equal.
    rewrite <-(take_drop (b - a) (drop a l)) at 1. rewrite drop_drop. f_equal. f_equal. lia.
  - intros (pre & post & -> & -> & ->). rewrite !length_app. split_and!; [lia..|].
    rewrite drop_app_length. replace (_ + _ - _) with (length m) by lia.
    by rewrite take_app_length.
Qed.

(** Adjacent slices concatenate. *)
Lemma slice_join {A} (l m1 m2 : list A) a b c :
  slice l a b = Some m1 → slice l b c = Some m2 → slice l a c = Some (m1 ++ m2).
Proof.
  rewrite !slice_split. intros (p1 & q1 & -> & -> & ->) (p2 & q2 & E & Hp & ->).
  assert (p2 = p1 ++ m1) as ->.
  { apply (f_equal (take (length p2))) in E. rewrite take_app_length, app_assoc in E.
    rewrite <-Hp, <-length_app, take_app_length in E. done. }
  rewrite <-app_assoc in E. apply app_inv_head, app_inv_head in E as ->.
  exists p1, q2. rewrite length_app, <-app_assoc. split_and!; [done..|lia].
Qed.

(** A slice inside a known slice. *)
Lemma slice_sub {A} (l m n : list A) a b c d :
  slice l a b = Some m → slice m c d = Some n → slice l (a + c) (a + d) = Some n.
Proof.
  rewrite !slice_split. intros (p1 & q1 & -> & -> & ->) (p2 & q2 & -> & -> & ->).
  exists (p1 ++ p2), (q2 ++ q1). rewrite !length_app, !app_assoc. split_and!; [done|lia..].
Qed.

Lemma slice_app {A} (pre m post : list A) a b :
  a = length pre → b = a + length m → slice (pre ++ m ++ post) a b = Some m.
Proof. intros -> ->. apply slice_split. eauto. Qed.

Lemma slice_app_tail {A} (pre m : list A) a b :
  a = length pre → b = a + length m → slice (pre ++ m) a b = Some m.
Proof. intros. rewrite <-(app_nil_r m) at 1. by apply slice_app. Qed.

(** ** Machine integers *)

(** [u64] and, on the 64-bit targets of the program, [usize]: natural numbers
    below [2^64] with wrap-around written out where the code adds. *)
Definition two64 : N := 2 ^ 64.
Definition in_u64 (n : N) : Prop := (n < two64)%N.
Definition wrap64 (n : N) : N := (n mod two64)%N.
Definition add64 (a b : N) : N := wrap64 (a + b).
(** [saturating_sub] is truncated subtraction. *)
Definition sat_sub (a b : N) : N := (a - b)%N.

Lemma wrap64_small n : in_u64 n → wrap64 n = n.
Proof. apply N.mod_small. Qed.

Lemma wrap64_lt n : in_u64 (wrap64 n).
Proof. apply N.mod_upper_bound. done. Qed.

Lemma add64_small a b : in_u64 (a + b) → add64 a b = (a + b)%N.
Proof. apply wrap64_small. Qed.

(** [a - b] on [u64], with the wrap-around of an underflow. *)
Definition sub64 (a b : N) : N := wrap64 (a + two64 - b).

Lemma sub64_small a b : in_u64 a → (b ≤ a)%N → sub64 a b = (a - b)%N.
Proof.
  unfold sub64, wrap64, in_u64. intros Ha Hb.
  replace (a + two64 - b)%N with (a - b + 1 * two64)%N by lia.
  rewrite N.Div0.mod_add. apply N.mod_small. lia.
Qed.

(** Putting a byte below a number shifted by eight bits is an addition. *)
Lemma lor_shiftl_8 a b : (b < 256)%N → N.lor (N.shiftl a 8) b = (a * 256 + b)%N.
Proof.
  intros Hb. assert (Hd : N.land (N.shiftl a 8) b = 0%N).
  { apply N.bits_inj. intros i. rewrite N.land_spec, N.bits_0.
    destruct (N.lt_ge_cases i 8) as [Hi|Hi]; [by rewrite N.shiftl_spec_low|].
    rewrite <-(N.mod_small b (2 ^ 8)) by done. rewrite N.mod_pow2_bits_high by done.
    apply andb_false_r. }
  rewrite <-N.lxor_lor, <-N.add_nocarry_lxor by done. by rewrite N.shiftl_mul_pow2.
Qed.

#[export] Hint Resolve wrap64_lt : exv.
Create Rewrite HintDb exv.
#[export] Hint Rewrite length_be_bytes @length_arr_bytes : exv.
