(* ===== verification/Text.v ===== *)
(** * Text

    What the program uses of Rust's strings: a [str] is its list of characters, a
    character is its code point. UTF-8 is written out, so that a text and the bytes that
    carry it are different things; so are the white space, case and number parsing of
    the standard library. A [while] loop over a string is [loop], which unfolds one
    iteration at a time as long as each iteration makes its measure smaller. *)

From Stdlib Require Import NArith Strings.Ascii Strings.Byte Lia.
From S2P Require Import Prelude.

(** ** Loops *)

(** At most [fuel] iterations of a loop body, which either goes on or returns. *)
Fixpoint iterate {S R} (fuel : nat) (body : S → S + R) (s : S) : option R :=
  match fuel with
  | O => None
  | S fuel => match body s with inl s => iterate fuel body s | inr r => Some r end
  end.

(** [while] with a measure that bounds the number of iterations; [d] is never returned
    when the measure decreases. *)
Definition loop {S R} (μ : S → nat) (d : R) (body : S → S + R) (s : S) : R :=
  default d (iterate (1 + μ s) body s).

Section loop.
Context {S R : Type} (μ : S → nat) (d : R) (body : S → S + R).
Hypothesis decreases : ∀ s s', body s = inl s' → μ s' < μ s.

Lemma iterate_enough n : ∀ m s, μ s < n → μ s < m → iterate n body s = iterate m body s.
Proof.
  induction n as [|n IH]; intros m s Hn Hm; [lia|]. destruct m as [|m]; [lia|]. simpl.
  destruct (body s) as [s'|r] eqn:E; [|done]. apply decreases in E. apply IH; lia.
Qed.

Lemma loop_eq s : loop μ d body s = match body s with inl s' => loop μ d body s' | inr r => r end.
Proof.
  unfold loop at 1. change (iterate (1 + μ s) body s)
    with (match body s with inl s' => iterate (μ s) body s' | inr r => Some r end).
  destruct (body s) as [s'|r] eqn:E; [|done].
  apply decreases in E. unfold loop. f_equal. apply iterate_enough; lia.
Qed.

(** Induction over the iterations. *)
Lemma loop_ind (P : S → R → Prop) :
  (∀ s, match body s with inl s' => ∀ r, P s' r → P s r | inr r => P s r end) →
  ∀ s, P s (loop μ d body s).
Proof.
  intros H s. remember (μ s) as n eqn:Hn. revert s Hn.
  induction (lt_wf n) as [n _ IH]. intros s ->. specialize (H s).
  rewrite loop_eq. destruct (body s) as [s'|r] eqn:E; [|done].
  apply H. eapply IH; [|done]. by apply decreases.
Qed.
End loop.

(** ** Characters *)

Abbreviation str := (list N).

(** The characters of an ASCII literal; in [qlit] a backquote stands for a double
    quote. *)
Definition lit (s : string) : str := N_of_ascii <$> String.list_ascii_of_string s.
Definition qlit (s : string) : str := (λ c, if (c =? 96)%N then 34%N else c) <$> lit s.
Definition CR : N := 13.
Definition LF : N := 10.
Definition QUOTE : N := 34.
Definition crlf : str := [CR; LF].

(** The Unicode scalar values. *)
Definition is_scalar (c : N) : bool := ((c <? 0xD800) || ((0xE000 <=? c) && (c <? 0x110000)))%N.
Definition str_ok (s : str) : Prop := Forall (λ c, is_scalar c = true) s.

Definition in_range (lo hi c : N) : bool := ((lo <=? c) && (c <=? hi))%N.

Definition is_ascii_digit (c : N) : bool := in_range 48 57 c.
Definition is_ascii_uppercase (c : N) : bool := in_range 65 90 c.
Definition is_ascii_lowercase (c : N) : bool := in_range 97 122 c.
Definition is_ascii_alphanumeric (c : N) : bool :=
  is_ascii_digit c || is_ascii_uppercase c || is_ascii_lowercase c.
(** [u8::is_ascii_whitespace]. *)
Definition is_ascii_whitespace (c : N) : bool :=
  ((c =? 32) || (c =? 9) || (c =? 10) || (c =? 12) || (c =? 13))%N.
(** [char::is_whitespace]: the Unicode property White_Space. *)
Definition is_whitespace (c : N) : bool :=
  (in_range 9 13 c || (c =? 32) || (c =? 133) || (c =? 160) || (c =? 5760)
   || in_range 8192 8202 c || (c =? 8232) || (c =? 8233) || (c =? 8239) || (c =? 8287)
   || (c =? 12288))%N.
(** [char::is_control]: the general category Cc. *)
Definition is_control (c : N) : bool := in_range 0 31 c || in_range 127 159 c.

Definition char_lower (c : N) : N := if is_ascii_uppercase c then (c + 32)%N else c.
Definition char_upper (c : N) : N := if is_ascii_lowercase c then (c - 32)%N else c.
Definition to_ascii_lowercase (s : str) : str := char_lower <$> s.
Definition to_ascii_uppercase (s : str) : str := char_upper <$> s.
Definition eq_ignore_ascii_case (a b : str) : bool :=
  bool_decide (to_ascii_lowercase a = to_ascii_lowercase b).

(** ** UTF-8 *)

Definition utf8_char (c : N) : list byte :=
  (if c <? 0x80 then [byte_of_N c]
   else if c <? 0x800 then [byte_of_N (0xC0 + c / 64); byte_of_N (0x80 + c mod 64)]
   else if c <? 0x10000 then
     [byte_of_N (0xE0 + c / 4096); byte_of_N (0x80 + (c / 64) mod 64); byte_of_N (0x80 + c mod 64)]
   else
     [byte_of_N (0xF0 + c / 262144); byte_of_N (0x80 + (c / 4096) mod 64);
      byte_of_N (0x80 + (c / 64) mod 64); byte_of_N (0x80 + c mod 64)])%N.

(** [str::as_bytes], [String::into_bytes]. *)
Definition utf8 (s : str) : list byte := s ≫= utf8_char.

(** What a leading byte announces: its payload bits, the range allowed for the first
    continuation byte, and the number of continuation bytes; [None] for a byte that
    starts no sequence. *)
Definition utf8_lead (b : N) : option (N * (N * N) * nat) :=
  (if in_range 0xC2 0xDF b then Some (b - 0xC0, (0x80, 0xBF), 1%nat)
   else if b =? 0xE0 then Some (0, (0xA0, 0xBF), 2%nat)
   else if b =? 0xED then Some (b - 0xE0, (0x80, 0x9F), 2%nat)
   else if in_range 0xE1 0xEF b then Some (b - 0xE0, (0x80, 0xBF), 2%nat)
   else if b =? 0xF0 then Some (0, (0x90, 0xBF), 3%nat)
   else if in_range 0xF1 0xF3 b then Some (b - 0xF0, (0x80, 0xBF), 3%nat)
   else if b =? 0xF4 then Some (4, (0x80, 0x8F), 3%nat)
   else None)%N.

Definition REPLACEMENT : N := 0xFFFD.

(** [String::from_utf8_lossy], as one pass over the bytes. [acc] is the sequence being
    read, if any: the bits collected, the range of the next byte and how many bytes
    are missing. A sequence broken off is replaced by one U+FFFD, and the byte that
    broke it is read afresh. *)
Fixpoint lossy_from (acc : option (N * (N * N) * nat)) (l : list byte) : str :=
  match l with
  | [] => match acc with None => [] | Some _ => [REPLACEMENT] end
  | b :: l =>
      let v := byte_val b in
      let fresh (pre : str) :=
        pre ++ if (v <? 0x80)%N then v :: lossy_from None l
               else match utf8_lead v with
                    | Some st => lossy_from (Some st) l
                    | None => REPLACEMENT :: lossy_from None l
                    end in
      match acc with
      | None => fresh []
      | Some (bits, (lo, hi), missing) =>
          if in_range lo hi v then
            let bits := (bits * 64 + (v - 0x80))%N in
            match missing with
            | S (S n) => lossy_from (Some (bits, (0x80, 0xBF)%N, S n)) l
            | _ => bits :: lossy_from None l
            end
          else fresh [REPLACEMENT]
      end
  end.
Definition from_utf8_lossy (l : list byte) : str := lossy_from None l.

(** [str::from_utf8]: the bytes are the encoding of the text they decode to. *)
Definition from_utf8 (l : list byte) : option str :=
  let s := from_utf8_lossy l in if bool_decide (utf8 s = l) then Some s else None.

(** ** Searching *)

Fixpoint starts_with (p s : str) : bool :=
  match p, s with
  | [], _ => true
  | c :: p, d :: s => (c =? d)%N && starts_with p s
  | _ :: _, [] => false
  end.
Definition strip_prefix (p s : str) : option str :=
  if starts_with p s then Some (drop (length p) s) else None.

(** [str::find] of a string and of a predicate on characters. *)
Fixpoint find (p s : str) : option nat :=
  if starts_with p s then Some O
  else match s with [] => None | _ :: s => S <$> find p s end.
Fixpoint find_if (f : N → bool) (s : str) : option nat :=
  match s with
  | [] => None
  | c :: s => if f c then Some O else S <$> find_if f s
  end.
Definition find_char (c : N) : str → option nat := find_if (λ d, (d =? c)%N).
Definition contains (p s : str) : bool := bool_decide (is_Some (find p s)).

(** [s.split_once(c)], [s.split(c).next()] and [s.split(p).next()]. *)
Definition split_once (c : N) (s : str) : option (str * str) :=
  (λ i, (take i s, drop (S i) s)) <$> find_char c s.
Definition before_if (f : N → bool) (s : str) : str :=
  match find_if f s with Some i => take i s | None => s end.
Definition before (p s : str) : str :=
  match find p s with Some i => take i s | None => s end.

(** [s.split(p)] for a nonempty pattern. *)
Definition split_body (p : str) (st : list str * str) : (list str * str) + list str :=
  let '(out, rest) := st in
  match find p rest with
  | Some i => inl (out ++ [take i rest], drop (i + length p) rest)
  | None => inr (out ++ [rest])
  end.
Definition split_str (p s : str) : list str :=
  loop (λ st, length st.2) [] (split_body p) ([], s).

(** [s.replace(from, to)] for a nonempty [from]: the leftmost occurrences, one after the
    other. *)
Definition replace_body (from to : str) (st : str * str) : (str * str) + str :=
  let '(out, rest) := st in
  match find from rest with
  | Some i => inl (out ++ take i rest ++ to, drop (i + length from) rest)
  | None => inr (out ++ rest)
  end.
Definition replace (from to s : str) : str :=
  loop (λ st, length st.2) [] (replace_body from to) ([], s).

(** ** White space and lines *)

Fixpoint trim_start (s : str) : str :=
  match s with
  | c :: s' => if is_whitespace c then trim_start s' else s
  | [] => []
  end.
Definition trim_end (s : str) : str := reverse (trim_start (reverse s)).
Definition trim (s : str) : str := trim_end (trim_start s).

(** [split_whitespace]: the maximal runs of other characters; [cur] is the run being
    read, reversed. *)
Fixpoint words_from (cur s : str) : list str :=
  match s with
  | [] => match cur with [] => [] | _ => [reverse cur] end
  | c :: s =>
      if is_whitespace c
      then match cur with [] => words_from [] s | _ => reverse cur :: words_from [] s end
      else words_from (c :: cur) s
  end.
Definition split_whitespace (s : str) : list str := words_from [] s.

(** [str::lines]: the lines ended by LF, without it and without a CR before it, and the
    rest when it is not empty; [cur] is the line being read, reversed. *)
Definition strip_cr (rev_line : str) : str :=
  match rev_line with c :: l => if (c =? CR)%N then reverse l else reverse rev_line | [] => [] end.
Fixpoint lines_from (cur s : str) : list str :=
  match s with
  | [] => match cur with [] => [] | _ => [reverse cur] end
  | c :: s => if (c =? LF)%N then strip_cr cur :: lines_from [] s else lines_from (c :: cur) s
  end.
Definition lines (s : str) : list str := lines_from [] s.

(** ** Numbers *)

(** The value of a digit in a radix of at most 16. *)
Definition digit_val (radix c : N) : option N :=
  let v := if is_ascii_digit c then Some (c - 48)%N
           else if in_range 97 102 c then Some (c - 87)%N
           else if in_range 65 70 c then Some (c - 55)%N
           else None in
  v ← v; if (v <? radix)%N then Some v else None.

(** The digits from the left, failing above [max]. *)
Fixpoint parse_digits (radix max acc : N) (s : str) : option N :=
  match s with
  | [] => Some acc
  | c :: s =>
      v ← digit_val radix c;
      let acc := (acc * radix + v)%N in
      if (max <? acc)%N then None else parse_digits radix max acc s
  end.
(** [from_str_radix] of an unsigned type with the given maximum: an optional plus sign
    and at least one digit. *)
Definition parse_uint (radix max : N) (s : str) : option N :=
  match s with
  | [] => None
  | c :: s' =>
      if (c =? 43)%N then match s' with [] => None | _ => parse_digits radix max 0 s' end
      else parse_digits radix max 0 s
  end.
Definition parse_u8 : str → option N := parse_uint 10 255.
Definition parse_u16 : str → option N := parse_uint 10 65535.
Definition parse_usize : str → option N := parse_uint 10 (two64 - 1).
Definition parse_usize_hex : str → option N := parse_uint 16 (two64 - 1).

(** Decimal printing. *)
Fixpoint dec_digits (fuel : nat) (n : N) : str :=
  match fuel with
  | O => []
  | S fuel => (if (n <? 10)%N then [] else dec_digits fuel (n / 10)) ++ [(48 + n mod 10)%N]
  end.
Definition to_dec (n : N) : str := dec_digits (S (N.to_nat (N.log2 n))) n.

(** [Ipv4Addr]: its four octets, and the textual form: four decimal octets of at most
    three digits, with no superfluous zero in front. *)
Record Ipv4Addr := MkIpv4Addr { ip_a : byte; ip_b : byte; ip_c : byte; ip_d : byte }.
#[export] Instance Ipv4Addr_eq_dec : EqDecision Ipv4Addr. Proof. solve_decision. Defined.
Definition octets (a : Ipv4Addr) : list byte := [ip_a a; ip_b a; ip_c a; ip_d a].

Definition parse_octet (s : str) : option byte :=
  match s with
  | [] => None
  | c :: s' =>
      if (c =? 48)%N && negb (bool_decide (s' = [])) then None
      else if 3 <? length s then None
      else if forallb is_ascii_digit s then byte_of_N <$> parse_digits 10 255 0 s
      else None
  end.
Definition parse_ipv4 (s : str) : option Ipv4Addr :=
  match split_str [46%N] s with
  | [a; b; c; d] =>
      a ← parse_octet a; b ← parse_octet b; c ← parse_octet c; d ← parse_octet d;
      Some (MkIpv4Addr a b c d)
  | _ => None
  end.
Definition show_ipv4 (a : Ipv4Addr) : str :=
  to_dec (byte_val (ip_a a)) ++ [46%N] ++ to_dec (byte_val (ip_b a)) ++ [46%N]
  ++ to_dec (byte_val (ip_c a)) ++ [46%N] ++ to_dec (byte_val (ip_d a)).

(** ** Lemmas on searching *)

Lemma in_range_spec lo hi c : in_range lo hi c = true ↔ (lo ≤ c ≤ hi)%N.
Proof. unfold in_range. rewrite andb_true_iff, !N.leb_le. done. Qed.
Lemma in_range_false lo hi c : in_range lo hi c = false ↔ (c < lo ∨ hi < c)%N.
Proof. unfold in_range. rewrite andb_false_iff, !N.leb_gt. done. Qed.

Lemma starts_with_spec p s : starts_with p s = true ↔ ∃ t, s = p ++ t.
Proof.
  revert s. induction p as [|c p IH]; intros s; simpl; [split; eauto|].
  destruct s as [|d s]; [split; [done|by intros [? [=]]]|].
  rewrite andb_true_iff, N.eqb_eq, IH. split; [intros [-> [t ->]]; eauto|].
  intros [t [= -> ->]]. eauto.
Qed.

Lemma starts_with_app p t : starts_with p (p ++ t) = true.
Proof. apply starts_with_spec. eauto. Qed.

Lemma strip_prefix_app p t : strip_prefix p (p ++ t) = Some t.
Proof. unfold strip_prefix. by rewrite starts_with_app, drop_app_length. Qed.

(** An occurrence is found at the leftmost position. *)
Lemma find_Some p s i :
  find p s = Some i ↔
  starts_with p (drop i s) = true ∧ i ≤ length s ∧ ∀ j, j < i → starts_with p (drop j s) = false.
Proof.
  revert i. induction s as [|c s IH]; intros i.
  - unfold find. destruct (starts_with p []) eqn:E.
    + split; [intros [= <-]; split_and!; [done|simpl; lia|intros; lia]|].
      intros (_ & Hi & _). simpl in Hi. f_equal. lia.
    + split; [done|]. intros (H & _). destruct i; simpl in H; congruence.
  - change (find p (c :: s)) with (if starts_with p (c :: s) then Some 0 else S <$> find p s).
    destruct (starts_with p (c :: s)) eqn:E.
    + split; [intros [= <-]; split_and!; [done|simpl; lia|intros; lia]|].
      intros (_ & _ & Hm). destruct i as [|i]; [done|].
      specialize (Hm 0 ltac:(lia)). cbn [drop] in Hm. congruence.
    + destruct i as [|i].
      { split; [by destruct (find p s)|]. intros (H & _). cbn [drop] in H. congruence. }
      rewrite fmap_Some. split.
      * intros (j & Hj%IH & [= ->]). destruct Hj as (H1 & H2 & H3). split_and!; [done|simpl; lia|].
        intros [|j'] Hlt; [done|]. apply H3. lia.
      * intros (H1 & H2 & H3). exists i. split; [|done]. apply IH. simpl in H1, H2.
        split_and!; [done|lia|]. intros j Hj. apply (H3 (S j)). lia.
Qed.

Lemma find_split p s i : find p s = Some i → s = take i s ++ p ++ drop (i + length p) s ∧ i + length p ≤ length s.
Proof.
  intros (H & Hi & _)%find_Some. apply starts_with_spec in H as [t H].
  assert (E : s = take i s ++ p ++ t) by (rewrite <-H; symmetry; apply take_drop).
  assert (Hd : drop (i + length p) s = t).
  { rewrite <-drop_drop, H. apply drop_app_length. }
  rewrite Hd. split; [done|]. apply (f_equal length) in E. rewrite !length_app, length_take in E. lia.
Qed.

Lemma find_bound p s i : find p s = Some i → i + length p ≤ length s.
Proof. intros H. apply (proj2 (find_split _ _ _ H)). Qed.

Lemma find_None p s : find p s = None ↔ ∀ j, starts_with p (drop j s) = false.
Proof.
  split.
  - intros H j. destruct (starts_with p (drop j s)) eqn:E; [|done]. exfalso.
    revert j E. induction s as [|c s IH]; intros j E.
    + rewrite drop_nil in E. unfold find in H. by rewrite E in H.
    + simpl in H. destruct (starts_with p (c :: s)) eqn:E'; [done|].
      destruct j as [|j]; [cbn [drop] in E; congruence|].
      apply (IH (proj1 (fmap_None _ _) H) j E).
  - intros H. destruct (find p s) as [i|] eqn:E; [|done].
    apply find_Some in E as [E _]. by rewrite H in E.
Qed.

(** The first occurrence after a prefix in which the pattern cannot start. *)
Lemma find_app_first p pre post :
  (∀ j, j < length pre → starts_with p (drop j (pre ++ p ++ post)) = false) →
  find p (pre ++ p ++ post) = Some (length pre).
Proof.
  intros H. apply find_Some. split_and!; [|rewrite length_app; lia|done].
  rewrite drop_app_length. apply starts_with_app.
Qed.

(** A pattern whose first character does not occur in the prefix. *)
Lemma starts_with_head c p s : starts_with (c :: p) s = true → ∃ t, s = c :: t.
Proof. destruct s as [|d s]; simpl; [done|]. intros [->%N.eqb_eq _]%andb_true_iff. eauto. Qed.

Lemma find_fresh_prefix c p pre s :
  c ∉ pre → find (c :: p) (pre ++ s) = (λ i, length pre + i) <$> find (c :: p) s.
Proof.
  induction pre as [|d pre IH]; intros Hc; [simpl; by destruct (find _ s)|].
  apply not_elem_of_cons in Hc as [Hd Hc]. cbn [app find].
  destruct (starts_with (c :: p) (d :: pre ++ s)) eqn:E.
  { apply starts_with_head in E as [t [= -> _]]. done. }
  rewrite IH by done. destruct (find _ s); done.
Qed.

Lemma find_fresh c p s : c ∉ s → find (c :: p) s = None.
Proof. intros Hc. rewrite <-(app_nil_r s), find_fresh_prefix by done. done. Qed.

Lemma find_if_app f pre c post :
  Forall (λ d, f d = false) pre → f c = true → find_if f (pre ++ c :: post) = Some (length pre).
Proof. induction 1 as [|d pre Hd _ IH]; intros Hc; simpl; [by rewrite Hc|]. by rewrite Hd, IH. Qed.

Lemma find_if_None f s : find_if f s = None ↔ Forall (λ d, f d = false) s.
Proof.
  induction s as [|c s IH]; simpl; [split; [constructor|done]|].
  rewrite Forall_cons, <-IH. destruct (f c); [naive_solver|]. destruct (find_if f s); naive_solver.
Qed.

Lemma find_if_Some f s i :
  find_if f s = Some i → ∃ c, s = take i s ++ c :: drop (S i) s ∧ f c = true ∧ Forall (λ d, f d = false) (take i s).
Proof.
  revert i. induction s as [|d s IH]; intros i; simpl; [done|].
  destruct (f d) eqn:E; [intros [= <-]; eauto|].
  rewrite fmap_Some. intros (j & Hj & ->). destruct (IH _ Hj) as (c & Hs & Hc & Hf).
  exists c. simpl. split_and!; [by f_equal|done|by constructor].
Qed.

Lemma fresh_not_char c s : c ∉ s → Forall (λ d, (d =? c)%N = false) s.
Proof. intros H. apply Forall_forall. intros d Hd. apply N.eqb_neq. by intros ->. Qed.

Lemma split_once_app c pre post : c ∉ pre → split_once c (pre ++ c :: post) = Some (pre, post).
Proof.
  intros H. unfold split_once, find_char.
  rewrite find_if_app by (by apply fresh_not_char || apply N.eqb_refl). simpl.
  rewrite take_app_length. by rewrite <-Nat.add_1_r, <-drop_drop, drop_app_length.
Qed.

Lemma split_once_None c s : split_once c s = None ↔ c ∉ s.
Proof.
  unfold split_once, find_char. rewrite fmap_None, find_if_None, Forall_forall. split.
  - intros H Hc. specialize (H c Hc). by rewrite N.eqb_refl in H.
  - intros H d Hd. apply N.eqb_neq. by intros ->.
Qed.
Lemma split_once_Some c s a b : split_once c s = Some (a, b) → s = a ++ c :: b ∧ c ∉ a.
Proof.
  unfold split_once. intros (i & Hi & [= -> ->])%fmap_Some. apply find_if_Some in Hi as (d & Hd & Ht & Hn).
  apply N.eqb_eq in Ht as ->. split; [exact Hd|].
  intros Hin. rewrite Forall_forall in Hn. specialize (Hn c Hin). by rewrite N.eqb_refl in Hn.
Qed.

Lemma contains_true p s : contains p s = true ↔ ∃ pre post, s = pre ++ p ++ post.
Proof.
  unfold contains. rewrite bool_decide_eq_true. split.
  - intros [i Hi]. apply find_split in Hi as [E _]. eauto.
  - intros (pre & post & ->). destruct (find p (pre ++ p ++ post)) eqn:E; [eauto|]. exfalso.
    apply find_None with (j := length pre) in E. by rewrite drop_app_length, starts_with_app in E.
Qed.

Lemma not_contains_find p s : contains p s = false → find p s = None.
Proof. unfold contains. rewrite bool_decide_eq_false. destruct (find p s); [|done]. intros []. eauto. Qed.

(** ** Lemmas on splitting and replacing *)

Lemma split_decreases p : p ≠ [] → ∀ st st', split_body p st = inl st' → length st'.2 < length st.2.
Proof.
  intros Hp [out rest] st'. unfold split_body. destruct (find p rest) as [i|] eqn:E; [|done].
  intros [= <-]. simpl. apply find_bound in E. rewrite length_drop. destruct p; [done|]. simpl in *. lia.
Qed.
Lemma replace_decreases p q : p ≠ [] → ∀ st st', replace_body p q st = inl st' → length st'.2 < length st.2.
Proof.
  intros Hp [out rest] st'. unfold replace_body. destruct (find p rest) as [i|] eqn:E; [|done].
  intros [= <-]. simpl. apply find_bound in E. rewrite length_drop. destruct p; [done|]. simpl in *. lia.
Qed.

Lemma split_out p : p ≠ [] → ∀ out s,
  loop (λ st : list str * str, length st.2) [] (split_body p) (out, s) = out ++ split_str p s.
Proof.
  intros Hp out s. unfold split_str.
  remember (length s) as n eqn:Hn. revert out s Hn. induction (lt_wf n) as [n _ IH]. intros out s ->.
  rewrite !(loop_eq _ _ _ (split_decreases p Hp) (_, s)). simpl.
  destruct (find p s) as [i|] eqn:E; [|done].
  assert (Hl : length (drop (i + length p) s) < length s).
  { apply find_bound in E. rewrite length_drop. destruct p; [done|]. simpl in *. lia. }
  rewrite (IH _ Hl (out ++ _)) by done. rewrite (IH _ Hl [take i s]) by done. by rewrite app_assoc.
Qed.

Lemma split_str_eq p s : p ≠ [] →
  split_str p s = match find p s with
                  | Some i => take i s :: split_str p (drop (i + length p) s)
                  | None => [s]
                  end.
Proof.
  intros Hp. unfold split_str at 1. rewrite (loop_eq _ _ _ (split_decreases p Hp)). simpl.
  destruct (find p s); [|done]. by rewrite split_out.
Qed.

Lemma replace_out p q : p ≠ [] → ∀ out s,
  loop (λ st : str * str, length st.2) [] (replace_body p q) (out, s) = out ++ replace p q s.
Proof.
  intros Hp out s. unfold replace.
  remember (length s) as n eqn:Hn. revert out s Hn. induction (lt_wf n) as [n _ IH]. intros out s ->.
  rewrite !(loop_eq _ _ _ (replace_decreases p q Hp) (_, s)). simpl.
  destruct (find p s) as [i|] eqn:E; [|done].
  assert (Hl : length (drop (i + length p) s) < length s).
  { apply find_bound in E. rewrite length_drop. destruct p; [done|]. simpl in *. lia. }
  rewrite (IH _ Hl (out ++ _)) by done. rewrite (IH _ Hl (take i s ++ _)) by done. by rewrite !app_assoc.
Qed.

Lemma replace_eq p q s : p ≠ [] →
  replace p q s = match find p s with
                  | Some i => take i s ++ q ++ replace p q (drop (i + length p) s)
                  | None => s
                  end.
Proof.
  intros Hp. unfold replace at 1. rewrite (loop_eq _ _ _ (replace_decreases p q Hp)). simpl.
  destruct (find p s); [|done]. by rewrite replace_out, app_assoc.
Qed.

(** Character by character: a pattern is replaced where it starts, and any other
    character is kept. *)
Lemma replace_here p q s : p ≠ [] → replace p q (p ++ s) = q ++ replace p q s.
Proof.
  intros Hp. rewrite replace_eq by done.
  assert (E : find p (p ++ s) = Some 0).
  { apply find_Some. split_and!; [apply starts_with_app|lia|lia]. }
  rewrite E. simpl. by rewrite drop_app_length.
Qed.
Lemma replace_skip p q c s : p ≠ [] → starts_with p (c :: s) = false → replace p q (c :: s) = c :: replace p q s.
Proof.
  intros Hp Hs. rewrite !replace_eq by done. simpl. rewrite Hs.
  destruct (find p s) as [i|]; done.
Qed.
Lemma replace_nil p q : p ≠ [] → replace p q [] = [].
Proof. intros Hp. rewrite replace_eq by done. destruct p; done. Qed.

(** Joining with a separator that does not occur in the parts, and splitting again. *)
Fixpoint join (sep : str) (l : list str) : str :=
  match l with
  | [] => []
  | [s] => s
  | s :: l => s ++ sep ++ join sep l
  end.

Lemma split_join c l : l ≠ [] → Forall (λ s, c ∉ s) l → split_str [c] (join [c] l) = l.
Proof.
  intros Hl H. induction H as [|s l Hs Hf IH]; [done|]. destruct l as [|t l].
  - simpl. rewrite split_str_eq by done. by rewrite find_fresh.
  - change (join [c] (s :: t :: l)) with (s ++ [c] ++ join [c] (t :: l)).
    rewrite split_str_eq by done.
    rewrite find_fresh_prefix by done. simpl find. rewrite N.eqb_refl. simpl.
    rewrite Nat.add_0_r, take_app_length, <-drop_drop, drop_app_length. simpl drop. f_equal. by apply IH.
Qed.

(** ** Lemmas on UTF-8 *)

Lemma byte_of_small n : (n < 256)%N → byte_val (byte_of_N n) = n.
Proof. intros. rewrite byte_val_of_N. by apply N.mod_small. Qed.

(** One continuation byte is taken in. *)
Lemma lossy_continue bits lo hi n v l :
  (v < 256)%N → in_range lo hi v = true →
  lossy_from (Some (bits, (lo, hi), S (S n))) (byte_of_N v :: l)
  = lossy_from (Some ((bits * 64 + (v - 0x80))%N, (0x80, 0xBF)%N, S n)) l.
Proof. intros Hv H. simpl. rewrite byte_of_small by done. by rewrite H. Qed.
Lemma lossy_last bits lo hi v l :
  (v < 256)%N → in_range lo hi v = true →
  lossy_from (Some (bits, (lo, hi), 1)) (byte_of_N v :: l)
  = (bits * 64 + (v - 0x80))%N :: lossy_from None l.
Proof. intros Hv H. simpl. rewrite byte_of_small by done. by rewrite H. Qed.
Lemma lossy_lead v st l :
  (0x80 ≤ v < 256)%N → utf8_lead v = Some st →
  lossy_from None (byte_of_N v :: l) = lossy_from (Some st) l.
Proof.
  intros Hv H. simpl. rewrite byte_of_small by lia.
  destruct (N.ltb_spec v 0x80); [lia|]. by rewrite H.
Qed.

(** The leading bytes of the three long forms. *)
Lemma utf8_lead2 v : (2 ≤ v < 32)%N → utf8_lead (0xC0 + v) = Some (v, (0x80, 0xBF)%N, 1).
Proof.
  intros Hv. unfold utf8_lead.
  rewrite (proj2 (in_range_spec 0xC2 0xDF (0xC0 + v))) by lia. do 3 f_equal; lia.
Qed.
Lemma utf8_lead3 v : (v < 16)%N → ∃ lo hi, utf8_lead (0xE0 + v) = Some (v, (lo, hi), 2) ∧
  ∀ c, (c < 64)%N → (v = 0 → 32 ≤ c)%N → (v = 13 → c < 32)%N → in_range lo hi (0x80 + c) = true.
Proof.
  intros Hv. unfold utf8_lead.
  rewrite (proj2 (in_range_false 0xC2 0xDF (0xE0 + v))) by lia.
  destruct (N.eqb_spec (0xE0 + v) 0xE0).
  { assert (v = 0%N) as -> by lia. eexists _, _; split; [done|]. intros. apply in_range_spec. lia. }
  destruct (N.eqb_spec (0xE0 + v) 0xED).
  { assert (v = 13%N) as -> by lia. eexists _, _; split; [done|]. intros. apply in_range_spec. lia. }
  rewrite (proj2 (in_range_spec 0xE1 0xEF (0xE0 + v))) by lia.
  eexists _, _; split; [do 3 f_equal; lia|]. intros. apply in_range_spec. lia.
Qed.
Lemma utf8_lead4 v : (v < 5)%N → ∃ lo hi, utf8_lead (0xF0 + v) = Some (v, (lo, hi), 3) ∧
  ∀ c, (c < 64)%N → (v = 0 → 16 ≤ c)%N → (v = 4 → c < 16)%N → in_range lo hi (0x80 + c) = true.
Proof.
  intros Hv. unfold utf8_lead.
  rewrite (proj2 (in_range_false 0xC2 0xDF (0xF0 + v))) by lia.
  destruct (N.eqb_spec (0xF0 + v) 0xE0); [lia|]. destruct (N.eqb_spec (0xF0 + v) 0xED); [lia|].
  rewrite (proj2 (in_range_false 0xE1 0xEF (0xF0 + v))) by lia.
  destruct (N.eqb_spec (0xF0 + v) 0xF0).
  { assert (v = 0%N) as -> by lia. eexists _, _; split; [done|]. intros. apply in_range_spec. lia. }
  destruct (decide (v = 4%N)) as [->|].
  { eexists _, _; split; [done|]. intros. apply in_range_spec. lia. }
  rewrite (proj2 (in_range_spec 0xF1 0xF3 (0xF0 + v))) by lia.
  eexists _, _; split; [do 3 f_equal; lia|]. intros. apply in_range_spec. lia.
Qed.

(** A subterm as an unknown of the arithmetic. *)
Ltac opaque t := let q := fresh "q" in let E := fresh in remember t as q eqn:E; clear E.

Lemma lossy_char c l : is_scalar c = true → lossy_from None (utf8_char c ++ l) = c :: lossy_from None l.
Proof.
  unfold is_scalar. rewrite orb_true_iff, andb_true_iff, !N.ltb_lt, N.leb_le. intros Hc.
  unfold utf8_char. destruct (N.ltb_spec c 0x80) as [H1|H1].
  { simpl. rewrite byte_of_small by lia. by rewrite (proj2 (N.ltb_lt _ _) H1). }
  pose proof (N.mod_lt c 64 ltac:(done)). pose proof (N.mod_lt (c / 64) 64 ltac:(done)).
  pose proof (N.mod_lt (c / 4096) 64 ltac:(done)).
  pose proof (N.div_mod c 64 ltac:(done)) as E1. pose proof (N.div_mod (c / 64) 64 ltac:(done)) as E2.
  pose proof (N.div_mod (c / 4096) 64 ltac:(done)) as E3.
  rewrite N.Div0.div_div in E2, E3. change (64 * 64)%N with 4096%N in E2.
  change (4096 * 64)%N with 262144%N in E3.
  opaque (c mod 64)%N. opaque ((c / 64) mod 64)%N. opaque ((c / 4096) mod 64)%N.
  remember (c / 262144)%N as q4 eqn:Q; clear Q. remember (c / 4096)%N as q3 eqn:Q; clear Q.
  opaque (c / 64)%N.
  destruct (N.ltb_spec c 0x800) as [K|K]; [|destruct (N.ltb_spec c 0x10000) as [K2|K2]]; simpl app.
  - erewrite lossy_lead by (lia || (apply utf8_lead2; lia)).
    rewrite lossy_last by (lia || (apply in_range_spec; lia)). f_equal. lia.
  - destruct (utf8_lead3 q3) as (lo & hi & Hl & Hr); [lia|].
    erewrite lossy_lead by (lia || exact Hl).
    rewrite lossy_continue by (lia || (apply Hr; lia)).
    rewrite lossy_last by (lia || (apply in_range_spec; lia)). f_equal. lia.
  - destruct (utf8_lead4 q4) as (lo & hi & Hl & Hr); [lia|].
    erewrite lossy_lead by (lia || exact Hl).
    rewrite lossy_continue by (lia || (apply Hr; lia)).
    rewrite lossy_continue by (lia || (apply in_range_spec; lia)).
    rewrite lossy_last by (lia || (apply in_range_spec; lia)). f_equal. lia.
Qed.

(** Decoding an encoded text gives the text back. *)
Lemma from_utf8_lossy_utf8 s : str_ok s → from_utf8_lossy (utf8 s) = s.
Proof.
  unfold from_utf8_lossy, utf8. induction 1 as [|c s Hc Hs IH]; [done|].
  cbn [mbind list_bind]. rewrite lossy_char by done. by rewrite IH.
Qed.
Lemma from_utf8_utf8 s : str_ok s → from_utf8 (utf8 s) = Some s.
Proof. intros H. unfold from_utf8. rewrite from_utf8_lossy_utf8 by done. by rewrite bool_decide_true. Qed.
Lemma utf8_app a b : utf8 (a ++ b) = utf8 a ++ utf8 b.
Proof. unfold utf8. apply bind_app. Qed.
Lemma utf8_ascii s : Forall (λ c, (c < 128)%N) s → byte_val <$> utf8 s = s.
Proof.
  unfold utf8. induction 1 as [|c s Hc _ IH]; [done|]. cbn [mbind list_bind]. rewrite fmap_app, IH.
  unfold utf8_char. rewrite (proj2 (N.ltb_lt _ _)) by done. simpl. by rewrite byte_of_small by lia.
Qed.

(** ** Lemmas on numbers *)

Lemma parse_digits_app radix max acc s t :
  parse_digits radix max acc (s ++ t) = (v ← parse_digits radix max acc s; parse_digits radix max v t).
Proof.
  revert acc. induction s as [|c s IH]; intros acc; [done|]. cbn [app parse_digits].
  destruct (digit_val radix c); simpl; [|done]. case_match; [done|]. apply IH.
Qed.
Lemma digit_val_dec d : (d < 10)%N → digit_val 10 (48 + d) = Some d.
Proof.
  intros. unfold digit_val, is_ascii_digit. rewrite (proj2 (in_range_spec _ _ _)) by lia. simpl.
  replace (48 + d - 48)%N with d by lia. destruct (N.ltb_spec d 10); [done|lia].
Qed.
Lemma parse_dec_digits max fuel n :
  (n < 2 ^ N.of_nat fuel)%N → (n ≤ max)%N → parse_digits 10 max 0 (dec_digits fuel n) = Some n.
Proof.
  revert n. induction fuel as [|fuel IH]; intros n Hf Hm; [simpl in *; f_equal; lia|].
  cbn [dec_digits]. rewrite parse_digits_app.
  pose proof (N.mod_lt n 10 ltac:(done)). pose proof (N.div_mod n 10 ltac:(done)).
  set (pre := if (n <? 10)%N then _ else _).
  assert (E : parse_digits 10 max 0 pre = Some (n / 10)%N).
  { subst pre. destruct (N.ltb_spec n 10); [simpl; by rewrite N.div_small|].
    rewrite Nat2N.inj_succ, N.pow_succ_r' in Hf. opaque (n mod 10)%N. opaque (n / 10)%N.
    apply IH; lia. }
  rewrite E. cbn [mbind option_bind parse_digits]. rewrite digit_val_dec by done. cbn [mbind option_bind].
  replace (n / 10 * 10 + n mod 10)%N with n by lia.
  destruct (N.ltb_spec max n); [lia|done].
Qed.
Lemma to_dec_fuel n : (n < 2 ^ N.of_nat (S (N.to_nat (N.log2 n))))%N.
Proof.
  rewrite Nat2N.inj_succ, N2Nat.id. destruct n as [|p]; [done|]. apply N.log2_spec. lia.
Qed.
Lemma to_dec_digits n : Forall (λ c, is_ascii_digit c = true) (to_dec n).
Proof.
  unfold to_dec. generalize (S (N.to_nat (N.log2 n))). intros fuel. revert n.
  induction fuel as [|fuel IH]; intros n; [constructor|]. cbn [dec_digits].
  apply Forall_app. split; [case_match; [constructor|apply IH]|].
  pose proof (N.mod_lt n 10 ltac:(done)). opaque (n mod 10)%N.
  constructor; [apply in_range_spec; lia|constructor].
Qed.
Lemma to_dec_nonempty n : to_dec n ≠ [].
Proof. unfold to_dec. cbn [dec_digits]. by intros []%app_eq_nil. Qed.

(** Printing and parsing a number. *)
Lemma parse_uint_to_dec max n : (n ≤ max)%N → parse_uint 10 max (to_dec n) = Some n.
Proof.
  intros Hm. pose proof (to_dec_digits n) as Hd. pose proof (to_dec_nonempty n) as Hn.
  pose proof (parse_dec_digits max _ n (to_dec_fuel n) Hm) as Hp. fold (to_dec n) in Hp.
  destruct (to_dec n) as [|c s] eqn:E; [done|]. unfold parse_uint.
  apply Forall_cons in Hd as [Hc _]. apply in_range_spec in Hc.
  destruct (N.eqb_spec c 43); [lia|done].
Qed.
(** A parsed number is within its type. *)
Lemma parse_digits_bound radix max s : ∀ acc n, (acc ≤ max)%N → parse_digits radix max acc s = Some n → (n ≤ max)%N.
Proof.
  induction s as [|c s IH]; intros acc n Ha; simpl; [by intros [= <-]|].
  destruct (digit_val radix c); simpl; [|done]. destruct (N.ltb_spec max (acc * radix + n0)); [done|]. by apply IH.
Qed.
Lemma parse_uint_bound radix max s n : parse_uint radix max s = Some n → (n ≤ max)%N.
Proof.
  unfold parse_uint. destruct s as [|c s]; [done|].
  destruct (c =? 43)%N; [destruct s; [done|]|]; apply parse_digits_bound; lia.
Qed.
(** Dots separate the octets of an address. *)
Lemma to_dec_no_char c n : is_ascii_digit c = false → c ∉ to_dec n.
Proof.
  intros Hc Hin. pose proof (to_dec_digits n) as H. rewrite Forall_forall in H.
  apply H in Hin. simpl in Hin. congruence.
Qed.
Lemma parse_octet_to_dec b : parse_octet (to_dec (byte_val b)) = Some b.
Proof. destruct b; vm_compute; reflexivity. Qed.
Lemma parse_show_ipv4 a : parse_ipv4 (show_ipv4 a) = Some a.
Proof.
  unfold parse_ipv4, show_ipv4.
  pose proof (λ b, to_dec_no_char 46 (byte_val b) eq_refl) as H.
  pose proof (split_join 46 [to_dec (byte_val (ip_a a)); to_dec (byte_val (ip_b a));
    to_dec (byte_val (ip_c a)); to_dec (byte_val (ip_d a))]) as E. simpl in E. simpl.
  rewrite E; [|done|repeat constructor; apply H].
  rewrite !parse_octet_to_dec. by destruct a.
Qed.

(** ** What follows an occurrence *)

(** The text from the first occurrence of a pattern on. *)
Fixpoint from (p s : str) : option str :=
  if starts_with p s then Some s else match s with [] => None | _ :: s => from p s end.

Lemma from_find p s : from p s = (λ i, drop i s) <$> find p s.
Proof.
  induction s as [|c s IH]; [simpl; by destruct (starts_with p [])|].
  cbn [from find]. destruct (starts_with p (c :: s)); [done|]. rewrite IH. by destruct (find p s).
Qed.
Lemma from_fresh c p pre s : c ∉ pre → from (c :: p) (pre ++ s) = from (c :: p) s.
Proof.
  intros H. rewrite !from_find, find_fresh_prefix by done. destruct (find (c :: p) s) as [i|]; [|done]. simpl.
  by rewrite <-drop_drop, drop_app_length.
Qed.
Lemma from_here p s : from p (p ++ s) = Some (p ++ s).
Proof. rewrite from_find. destruct p as [|c p]; [by destruct s|]. cbn [app find]. by rewrite app_comm_cons, starts_with_app. Qed.

(** A text without the pattern, and then a character that is not in the pattern. *)
Lemma from_separated p pre c s : p ≠ [] → c ∉ p → find p pre = None → from p (pre ++ c :: s) = from p (c :: s).
Proof.
  intros Hp Hc. induction pre as [|d pre IH]; [done|]. cbn [app from find].
  destruct (starts_with p (d :: pre)) eqn:E; [done|]. intros H%fmap_None.
  destruct (starts_with p (d :: pre ++ c :: s)) eqn:E'; [|by apply IH]. exfalso.
  change (d :: pre ++ c :: s) with ((d :: pre) ++ c :: s) in E'.
  apply starts_with_spec in E' as [t Ht].
  destruct (decide (length p ≤ length (d :: pre))) as [Hl|Hl].
  - apply not_true_iff_false in E. apply E. apply (f_equal (take (length p))) in Ht.
    rewrite take_app_length, take_app_le in Ht by done.
    rewrite <-(take_drop (length p) (d :: pre)), Ht. apply starts_with_app.
  - apply Hc. assert (H' : ((d :: pre) ++ c :: s) !! length (d :: pre) = Some c).
    { rewrite lookup_app_r by done. by rewrite Nat.sub_diag. }
    rewrite Ht, lookup_app_l in H' by lia. by apply list_elem_of_lookup_2 in H'.
Qed.

(** ** Lemmas on white space *)

Lemma trim_end_snoc s c : trim_end (s ++ [c]) = if is_whitespace c then trim_end s else s ++ [c].
Proof.
  unfold trim_end. rewrite reverse_app. cbn [reverse app]. simpl.
  destruct (is_whitespace c); [done|]. simpl. by rewrite reverse_cons, reverse_involutive.
Qed.
Lemma trim_end_nil : trim_end [] = [].
Proof. done. Qed.

(** A text that neither starts nor ends with white space. *)
Definition tight (s : str) : Prop :=
  match s with [] => True | c :: _ => is_whitespace c = false end ∧
  match last s with Some c => is_whitespace c = false | None => True end.
Lemma trim_tight s : tight s → trim s = s.
Proof.
  intros [H1 H2]. unfold trim. assert (trim_start s = s) as ->.
  { destruct s as [|c s]; [done|]. simpl. by rewrite H1. }
  destruct s as [|c s _] using rev_ind; [done|]. rewrite last_snoc in H2. by rewrite trim_end_snoc, H2.
Qed.

(** The pattern does not start in [a], whatever comes after [a]: at each position some
    character differs. *)
Fixpoint clash (p a : str) : bool :=
  match p, a with
  | c :: p, d :: a => negb (c =? d)%N || clash p a
  | _, _ => false
  end.
Fixpoint avoids (p a : str) : bool :=
  match a with [] => true | _ :: a' => clash p a && avoids p a' end.

Lemma clash_spec p a s : clash p a = true → starts_with p (a ++ s) = false.
Proof.
  revert a. induction p as [|c p IH]; intros [|d a]; simpl; try done.
  destruct (c =? d)%N; simpl; [apply IH|done].
Qed.
Lemma find_avoids p a s : avoids p a = true → find p (a ++ s) = (λ i, length a + i) <$> find p s.
Proof.
  induction a as [|d a IH]; [simpl; by destruct (find p s)|]. cbn [avoids].
  intros [H1 H2]%andb_true_iff. apply (clash_spec _ _ s) in H1. cbn [app find] in *. rewrite H1, IH by done.
  by destruct (find p s).
Qed.
Lemma from_avoids p a s : avoids p a = true → from p (a ++ s) = from p s.
Proof.
  intros H. rewrite !from_find, find_avoids by done. destruct (find p s); [|done]. simpl.
  by rewrite <-drop_drop, drop_app_length.
Qed.

(** ** Lemmas on lines *)

Lemma lines_from_line cur l s : LF ∉ l → lines_from cur (l ++ LF :: s) = strip_cr (reverse l ++ cur) :: lines s.
Proof.
  revert cur. induction l as [|c l IH]; intros cur Hl; cbn [app lines_from].
  - by rewrite N.eqb_refl.
  - apply not_elem_of_cons in Hl as [Hc Hl]. rewrite (proj2 (N.eqb_neq c LF)) by done.
    rewrite IH by done. by rewrite reverse_cons, <-app_assoc.
Qed.
(** A line ended by CR LF. *)
Lemma lines_line l s : LF ∉ l → lines (l ++ crlf ++ s) = l :: lines s.
Proof.
  intros Hl. unfold lines at 1. change (l ++ crlf ++ s) with (l ++ ([CR] ++ LF :: s)). rewrite app_assoc.
  rewrite lines_from_line.
  - rewrite reverse_app, app_nil_r. change (reverse [CR]) with [CR]. cbn [app strip_cr].
    rewrite N.eqb_refl. by rewrite reverse_involutive.
  - rewrite elem_of_app. intros [?|?]; [done|]. by apply list_elem_of_singleton in H.
Qed.
Lemma trim_lead c s : is_whitespace c = true → trim (c :: s) = trim s.
Proof. intros H. unfold trim. simpl. by rewrite H. Qed.

(** ** Patterns that do not occur *)

Lemma starts_with_app_l p s t : starts_with p s = true → starts_with p (s ++ t) = true.
Proof. intros [u ->]%starts_with_spec. apply starts_with_spec. exists (u ++ t). by rewrite app_assoc. Qed.
Lemma find_None_infix p a w b : find p (a ++ w ++ b) = None → find p w = None.
Proof.
  rewrite !find_None. intros H j. specialize (H (length a + j)).
  rewrite <-drop_drop, drop_app_length in H.
  destruct (decide (j ≤ length w)).
  - rewrite drop_app_le in H by done. destruct (starts_with p (drop j w)) eqn:E; [|done].
    by rewrite (starts_with_app_l _ _ b E) in H.
  - rewrite drop_ge by lia. destruct p as [|c p]; [|done]. by simpl in H.
Qed.
Lemma find_None_separated p a c b : p ≠ [] → c ∉ p → find p a = None → find p b = None → find p (a ++ c :: b) = None.
Proof.
  intros Hp Hc Ha Hb.
  assert (H : from p (a ++ c :: b) = None).
  { rewrite from_separated by done. cbn [from]. destruct p as [|d p]; [done|]. apply not_elem_of_cons in Hc as [Hc _].
    cbn [starts_with]. rewrite (proj2 (N.eqb_neq d c)) by done. cbn [andb]. rewrite from_find. by rewrite Hb. }
  rewrite from_find in H. by destruct (find p (a ++ c :: b)).
Qed.
Lemma find_None_join p c l : p ≠ [] → c ∉ p → Forall (λ s, find p s = None) l → find p (join [c] l) = None.
Proof.
  intros Hp Hc H. induction H as [|s l Hs Hl IH]; [by destruct p|]. destruct l as [|t l]; [done|].
  change (join [c] (s :: t :: l)) with (s ++ c :: join [c] (t :: l)). by apply find_None_separated.
Qed.

(** A word of a text is a part of the text. *)
Lemma words_from_infix s : ∀ cur w, w ∈ words_from cur s → ∃ a b, reverse cur ++ s = a ++ w ++ b.
Proof.
  induction s as [|c s IH]; intros cur w; cbn [words_from].
  - destruct cur as [|d cur]; [by intros ?%elem_of_nil|]. intros ->%list_elem_of_singleton. exists [], []. by rewrite app_nil_r.
  - destruct (is_whitespace c).
    + assert (H : w ∈ words_from [] s → ∃ a b, reverse cur ++ c :: s = a ++ w ++ b).
      { intros (a & b & E)%IH. exists (reverse cur ++ c :: a), b. simpl in E. by rewrite E, <-app_assoc. }
      destruct cur as [|d cur]; [done|]. intros [->|?]%elem_of_cons; [|by apply H]. by exists [], (c :: s).
    + intros (a & b & E)%IH. exists a, b. rewrite reverse_cons, <-app_assoc in E. done.
Qed.
Lemma split_whitespace_infix s w : w ∈ split_whitespace s → ∃ a b, s = a ++ w ++ b.
Proof. apply (words_from_infix s []). Qed.

(** ** Lemmas on words *)

Definition is_word (w : str) : Prop := w ≠ [] ∧ Forall (λ c, is_whitespace c = false) w.

Lemma words_from_word cur w s :
  Forall (λ c, is_whitespace c = false) w → words_from cur (w ++ s) = words_from (reverse w ++ cur) s.
Proof.
  intros H. revert cur. induction H as [|c w Hc _ IH]; intros cur; [done|]. cbn [app words_from].
  rewrite Hc, IH, reverse_cons, <-app_assoc. done.
Qed.
(** Words joined by a space are split again. *)
Lemma split_whitespace_join ws : Forall is_word ws → split_whitespace (join [32%N] ws) = ws.
Proof.
  unfold split_whitespace. induction 1 as [|w ws [Hne Hw] Hws IH]; [done|].
  assert (Hrev : ∀ x, match reverse w with [] => x | _ => [w] end = [w]).
  { intros x. destruct (reverse w) eqn:E; [|done]. apply (f_equal reverse) in E. rewrite reverse_involutive in E. done. }
  destruct ws as [|v ws].
  - simpl join. rewrite <-(app_nil_r w) at 1. rewrite words_from_word by done. rewrite app_nil_r. cbn [words_from].
    rewrite reverse_involutive. apply Hrev.
  - change (join [32%N] (w :: v :: ws)) with (w ++ 32%N :: join [32%N] (v :: ws)).
    rewrite words_from_word by done. rewrite app_nil_r. cbn [words_from]. change (is_whitespace 32) with true. cbn iota.
    rewrite IH. rewrite reverse_involutive. destruct (reverse w) eqn:E; [|done].
    apply (f_equal reverse) in E. rewrite reverse_involutive in E. done.
Qed.

Lemma word_tight w : Forall (λ c, is_whitespace c = false) w → tight w.
Proof.
  intros H. split; [by destruct H|]. destruct (last w) as [c|] eqn:E; [|done].
  rewrite Forall_forall in H. apply H. rewrite last_lookup in E. by eapply list_elem_of_lookup_2.
Qed.
Lemma join_tight ws : Forall is_word ws → tight (join [32%N] ws).
Proof.
  induction 1 as [|w ws [Hne Hw] Hws IH]; [done|]. pose proof (word_tight w Hw) as [H1 H2].
  destruct ws as [|v ws]; [done|]. change (join [32%N] (w :: v :: ws)) with (w ++ 32%N :: join [32%N] (v :: ws)).
  destruct w as [|c w]; [done|]. split; [exact H1|].
  assert (Hj : join [32%N] (v :: ws) ≠ []).
  { apply Forall_cons in Hws as [[Hv _] _]. destruct ws; simpl; [done|]. by destruct v. }
  destruct IH as [_ IH]. destruct (join [32%N] (v :: ws)) as [|d j]; [done|].
  rewrite last_app. change (last (32%N :: d :: j)) with (last (d :: j)).
  destruct (last (d :: j)) eqn:E; [done|]. by apply last_None in E.
Qed.

(** Digits, dots and slashes: no letter, so no case, and no white space but spaces. *)
Definition numeric (s : str) : Prop := Forall (λ c, (33 ≤ c < 58)%N) s.
Lemma to_dec_numeric n : numeric (to_dec n).
Proof. eapply Forall_impl; [apply to_dec_digits|]. intros c H%in_range_spec. lia. Qed.
Lemma show_ipv4_numeric a : numeric (show_ipv4 a).
Proof.
  unfold show_ipv4, numeric. rewrite !Forall_app. split_and!; try apply to_dec_numeric; by apply Forall_singleton.
Qed.
Lemma numeric_word s : numeric s → Forall (λ c, is_whitespace c = false) s.
Proof.
  intros H. eapply Forall_impl; [exact H|]. cbv beta. intros c Hc. unfold is_whitespace.
  rewrite !(proj2 (in_range_false _ _ _)) by lia.
  repeat match goal with |- context [(c =? ?k)%N] => rewrite (proj2 (N.eqb_neq c k)) by lia end. done.
Qed.
Lemma show_ipv4_word a : is_word (show_ipv4 a).
Proof.
  split; [|apply numeric_word, show_ipv4_numeric]. unfold show_ipv4. intros []%app_eq_nil. by eapply to_dec_nonempty.
Qed.

(** Lines written one after the other are read back. *)
Lemma lines_lines ls : Forall (λ l, LF ∉ l) ls → lines (ls ≫= λ l, l ++ crlf) = ls.
Proof.
  induction 1 as [|l ls Hl _ IH]; [done|]. cbn [mbind list_bind]. rewrite <-app_assoc, lines_line by done. by rewrite IH.
Qed.
