(* ===== verification/Identity.v ===== *)
(** * Identities, errors and limits

    The value types every other component is built from: the identifiers and
    digests of [identity.rs] with their validating constructors, the typed error
    of [error.rs], and the limits of [limits.rs].

    A [Uuid] is its sixteen bytes and a digest its thirty-two; [u64] newtypes
    hold an [N]. The hash behind [canonical_lookup_digest] (the standard
    library's [DefaultHasher], whose algorithm is documented as unspecified) is
    the section variable [hash64]. *)

From Stdlib Require Import NArith Strings.Byte Lia.
From S2P Require Import Prelude.

(** ** Identifiers *)

Abbreviation Uuid := (array 16).
Abbreviation Digest := (array 32).

Definition Uuid_nil : Uuid := array_fill 16 x00.
Definition Uuid_is_nil (u : Uuid) : bool := bool_decide (u = Uuid_nil).

(** domain/identity.rs:5-6 [RuntimeEpoch] *)
Record RuntimeEpoch := MkRuntimeEpoch { RuntimeEpoch_0 : Uuid }.
(** domain/identity.rs:8-9 [AttemptId] *)
Record AttemptId := MkAttemptId { AttemptId_0 : Uuid }.
(** domain/identity.rs:11-12 [OperationId] *)
Record OperationId := MkOperationId { OperationId_0 : Uuid }.
(** domain/identity.rs:14-15 [EffectId] *)
Record EffectId := MkEffectId { EffectId_0 : Uuid }.
(** domain/identity.rs:17-18 [InteractionId] *)
Record InteractionId := MkInteractionId { InteractionId_0 : Uuid }.
(** domain/identity.rs:20-21 [RetirementOperationId] *)
Record RetirementOperationId := MkRetirementOperationId { RetirementOperationId_0 : Uuid }.
(** domain/identity.rs:23-24 [RecoveryId] *)
Record RecoveryId := MkRecoveryId { RecoveryId_0 : Uuid }.
(** domain/identity.rs:26-27 [OwnerLeaseId] *)
Record OwnerLeaseId := MkOwnerLeaseId { OwnerLeaseId_0 : Uuid }.
(** domain/identity.rs:29-30 [OwnershipVersion] *)
Record OwnershipVersion := MkOwnershipVersion { OwnershipVersion_0 : N }.
(** domain/identity.rs:32-33 [PrincipalDigest] *)
Record PrincipalDigest := MkPrincipalDigest { PrincipalDigest_0 : Digest }.
(** domain/identity.rs:35-36 [RequestDigest] *)
Record RequestDigest := MkRequestDigest { RequestDigest_0 : Digest }.
(** domain/identity.rs:38-39 [OperationLookupKeyDigest] *)
Record OperationLookupKeyDigest := MkOperationLookupKeyDigest { OperationLookupKeyDigest_0 : Digest }.
(** domain/identity.rs:41-42 [ConnectionBindingDigest] *)
Record ConnectionBindingDigest := MkConnectionBindingDigest { ConnectionBindingDigest_0 : Digest }.
(** domain/identity.rs:44-45 [TokenDigest] *)
Record TokenDigest := MkTokenDigest { TokenDigest_0 : Digest }.
(** domain/identity.rs:47-48 [InventoryDigest] *)
Record InventoryDigest := MkInventoryDigest { InventoryDigest_0 : Digest }.
(** domain/identity.rs:50-51 [EvidenceDigest] *)
Record EvidenceDigest := MkEvidenceDigest { EvidenceDigest_0 : Digest }.
(** domain/identity.rs:53-54 [ResourceIdentityDigest] *)
Record ResourceIdentityDigest := MkResourceIdentityDigest { ResourceIdentityDigest_0 : Digest }.

(** domain/identity.rs:56-66 [OperationMethod] *)
Inductive OperationMethod :=
  | Method_Connect | Method_RespondInteraction | Method_Stop | Method_Reconcile
  | Method_AcquireLease | Method_ApplyTunnel | Method_StopTunnel | Method_ReleaseLease.

(** domain/identity.rs:68-74 [OperationLookupKey] *)
Record OperationLookupKey := MkOperationLookupKey {
  olk_principal_digest : PrincipalDigest;
  olk_method : OperationMethod;
  olk_runtime_epoch : RuntimeEpoch;
  olk_operation_id : OperationId;
}.

#[export] Instance RuntimeEpoch_eq_dec : EqDecision RuntimeEpoch. Proof. solve_decision. Defined.
#[export] Instance AttemptId_eq_dec : EqDecision AttemptId. Proof. solve_decision. Defined.
#[export] Instance OperationId_eq_dec : EqDecision OperationId. Proof. solve_decision. Defined.
#[export] Instance EffectId_eq_dec : EqDecision EffectId. Proof. solve_decision. Defined.
#[export] Instance InteractionId_eq_dec : EqDecision InteractionId. Proof. solve_decision. Defined.
#[export] Instance RetirementOperationId_eq_dec : EqDecision RetirementOperationId.
Proof. solve_decision. Defined.
#[export] Instance RecoveryId_eq_dec : EqDecision RecoveryId. Proof. solve_decision. Defined.
#[export] Instance OwnerLeaseId_eq_dec : EqDecision OwnerLeaseId. Proof. solve_decision. Defined.
#[export] Instance OwnershipVersion_eq_dec : EqDecision OwnershipVersion. Proof. solve_decision. Defined.
#[export] Instance PrincipalDigest_eq_dec : EqDecision PrincipalDigest. Proof. solve_decision. Defined.
#[export] Instance RequestDigest_eq_dec : EqDecision RequestDigest. Proof. solve_decision. Defined.
#[export] Instance OperationLookupKeyDigest_eq_dec : EqDecision OperationLookupKeyDigest.
Proof. solve_decision. Defined.
#[export] Instance ConnectionBindingDigest_eq_dec : EqDecision ConnectionBindingDigest.
Proof. solve_decision. Defined.
#[export] Instance TokenDigest_eq_dec : EqDecision TokenDigest. Proof. solve_decision. Defined.
#[export] Instance InventoryDigest_eq_dec : EqDecision InventoryDigest. Proof. solve_decision. Defined.
#[export] Instance EvidenceDigest_eq_dec : EqDecision EvidenceDigest. Proof. solve_decision. Defined.
#[export] Instance ResourceIdentityDigest_eq_dec : EqDecision ResourceIdentityDigest.
Proof. solve_decision. Defined.
#[export] Instance OperationMethod_eq_dec : EqDecision OperationMethod. Proof. solve_decision. Defined.
#[export] Instance OperationLookupKey_eq_dec : EqDecision OperationLookupKey. Proof. solve_decision. Defined.

#[export] Instance OperationLookupKeyDigest_countable : Countable OperationLookupKeyDigest.
Proof.
  refine (inj_countable' OperationLookupKeyDigest_0 MkOperationLookupKeyDigest _).
  by intros [].
Defined.
#[export] Instance ConnectionBindingDigest_countable : Countable ConnectionBindingDigest.
Proof.
  refine (inj_countable' ConnectionBindingDigest_0 MkConnectionBindingDigest _).
  by intros [].
Defined.
#[export] Instance InteractionId_countable : Countable InteractionId.
Proof. refine (inj_countable' InteractionId_0 MkInteractionId _). by intros []. Defined.

(** ** Validating constructors *)

(** domain/identity.rs:78-80 [ERR_DIGEST_LENGTH, ERR_NIL_UUID, ERR_ZERO_VERSION] *)
Definition ERR_NIL_UUID : string := "identifier: nil uuid".
Definition ERR_DIGEST_LENGTH : string := "digest: wrong length".
Definition ERR_ZERO_VERSION : string := "ownership version: zero".

(** domain/identity.rs:82-100 [digest_try_from!]: every 32-byte array is a digest. *)
Definition digest_try_from {T} (mk : Digest → T) (bytes : Digest) : result string T :=
  Ok (mk bytes).

(** domain/identity.rs:102-108 [TryFrom<[u8; 31]> for PrincipalDigest]: a
    wrong-length digest input is rejected. *)
Definition PrincipalDigest_try_from_31 (_ : array 31) : result string PrincipalDigest :=
  Err ERR_DIGEST_LENGTH.

(** domain/identity.rs:128-149 [uuid_try_from!]: the nil uuid is rejected. *)
Definition uuid_try_from {T} (mk : Uuid → T) (u : Uuid) : result string T :=
  if Uuid_is_nil u then Err ERR_NIL_UUID else Ok (mk u).

(** domain/identity.rs:128-149 [uuid_try_from!]: its instances. *)
Definition RuntimeEpoch_try_from := uuid_try_from MkRuntimeEpoch.
Definition AttemptId_try_from := uuid_try_from MkAttemptId.
Definition OperationId_try_from := uuid_try_from MkOperationId.
Definition EffectId_try_from := uuid_try_from MkEffectId.
Definition InteractionId_try_from := uuid_try_from MkInteractionId.
Definition RetirementOperationId_try_from := uuid_try_from MkRetirementOperationId.
Definition RecoveryId_try_from := uuid_try_from MkRecoveryId.
Definition OwnerLeaseId_try_from := uuid_try_from MkOwnerLeaseId.

(** domain/identity.rs:151-159 [TryFrom<u64> for OwnershipVersion] *)
Definition OwnershipVersion_try_from (value : N) : result string OwnershipVersion :=
  if (value =? 0)%N then Err ERR_ZERO_VERSION else Ok (MkOwnershipVersion value).

(** domain/identity.rs:161-178 [TryFrom<(PrincipalDigest, OperationMethod, RuntimeEpoch, OperationId)> for OperationLookupKey] *)
Definition OperationLookupKey_try_from (principal_digest : PrincipalDigest)
    (method : OperationMethod) (runtime_epoch : RuntimeEpoch) (operation_id : OperationId) :
    result string OperationLookupKey :=
  Ok (MkOperationLookupKey principal_digest method runtime_epoch operation_id).

(** domain/identity.rs:187-191 [ResourceIdentityDigest::is_nil] *)
Definition ResourceIdentityDigest_is_nil (d : ResourceIdentityDigest) : bool :=
  bool_decide (ResourceIdentityDigest_0 d = array_fill 32 x00).

(** domain/identity.rs:193-197 [InventoryDigest::is_nil] *)
Definition InventoryDigest_is_nil (d : InventoryDigest) : bool :=
  bool_decide (InventoryDigest_0 d = array_fill 32 x00).

(** domain/identity.rs:199-203 [EvidenceDigest::is_nil] *)
Definition EvidenceDigest_is_nil (d : EvidenceDigest) : bool :=
  bool_decide (EvidenceDigest_0 d = array_fill 32 x00).

(** domain/identity.rs:205-216 [method_byte] *)
Definition method_byte (method : OperationMethod) : byte :=
  match method with
  | Method_Connect => x00
  | Method_RespondInteraction => x01
  | Method_Stop => x02
  | Method_Reconcile => x03
  | Method_AcquireLease => x04
  | Method_ApplyTunnel => x05
  | Method_StopTunnel => x06
  | Method_ReleaseLease => x07
  end.

(** ** The canonical lookup digest *)

(** The bytes hashed by [canonical_lookup_digest]: principal, method byte and
    epoch, 49 bytes in all. *)
(** domain/identity.rs:224-227 [canonical_lookup_digest] *)
Definition lookup_preimage (key : OperationLookupKey) : list byte :=
  arr_bytes (PrincipalDigest_0 (olk_principal_digest key))
  ++ [method_byte (olk_method key)]
  ++ arr_bytes (RuntimeEpoch_0 (olk_runtime_epoch key)).

Section lookup_digest.
(** The value [finish] returns on a fresh [DefaultHasher] that was fed the
    [u64] chunk index and then the byte vector. *)
Variable hash64 : N → list byte → N.

(** domain/identity.rs:218-238 [canonical_lookup_digest] *)
Definition canonical_lookup_digest (key : OperationLookupKey) : OperationLookupKeyDigest :=
  let bytes := lookup_preimage key in
  let out := i ← [0; 1; 2; 3]%N; le_bytes 8 (hash64 i bytes) in
  MkOperationLookupKeyDigest (default (array_fill 32 x00) (to_array 32 out)).
End lookup_digest.

(** ** Errors *)

(** domain/error.rs:8-29 [ErrorCode] *)
Inductive ErrorCode :=
  | InvalidInput | IdempotencyConflict | ConnectInProgress | SessionBusy
  | ReconnectAlreadyQueued | Code_CancelledBeforeStart | AuthorityAlreadyHeld
  | OwnershipAcquisitionPending | ObservedConflict | JournalCorrupt
  | DataPlaneBackpressure | PacketLeaseAlreadyAttached | Code_EffectUnknown
  | Code_ObservationFailed | Unauthorized | DeadlineExceeded
  | ActiveAttemptCannotReconcile | ActiveSessionCannotReconcile
  | PlatformDependencyUnavailable.

(** domain/error.rs:31-48 [ErrorStage] *)
Inductive ErrorStage :=
  | Stage_Ingress | Stage_Admission | Stage_ObservingOwnedState
  | Stage_AcquiringPlatformLease | Stage_ConnectingControl | Stage_AwaitingInteraction
  | Stage_NegotiatingTunnel | Stage_ApplyingPlatformTunnel | Stage_AttachingPacketBoundary
  | Stage_StartingDataPlane | Stage_ProtocolSession | Stage_DataPlane | Stage_Teardown
  | Stage_Recovery | Stage_Journal.

(** domain/error.rs:50-56 [EffectCertainty] *)
Inductive EffectCertainty := NoEffect | Applied | Partial | Certainty_Unknown.

(** domain/error.rs:58-65 [RetryAdvice] *)
Inductive RetryAdvice :=
  | DoNotRetry | RetrySameOperation | UseNewOperation | Advice_Reconcile | RestartProcess.

(** domain/error.rs:67-82 [ErrorSubject] *)
Inductive ErrorSubject :=
  | Subject_External (key : OperationLookupKey)
  | Subject_Attempt (runtime_epoch : RuntimeEpoch) (attempt_id : AttemptId)
  | Subject_Effect (runtime_epoch : RuntimeEpoch) (attempt_id : AttemptId) (effect_id : EffectId)
  | Subject_Retirement (id : RetirementOperationId)
  | Subject_Recovery (id : RecoveryId)
  | Subject_Runtime (runtime_epoch : RuntimeEpoch).

(** domain/error.rs:84-99 [ResourceKind] *)
Inductive ResourceKind :=
  | Kind_Runtime | Kind_ProtocolSession | Kind_PlatformOwnership | Kind_PacketDevice
  | Kind_NetworkAddress | Kind_Mtu | Kind_RouteSet | Kind_Dns | Kind_ControlBypass
  | Kind_NetworkSettings | Kind_PacketLease | Kind_Journal | Kind_CleanupProof.

(** domain/error.rs:101-105 [OpaqueResourceRef] *)
Record OpaqueResourceRef := MkOpaqueResourceRef {
  orr_kind : ResourceKind;
  orr_identity_digest : ResourceIdentityDigest;
}.

(** domain/error.rs:107-117 [NativeErrorCategory] *)
Inductive NativeErrorCategory :=
  | Cat_Permission | Cat_Transport | Cat_Protocol | Cat_Resource | Cat_Storage
  | Cat_Observation | Cat_Unsupported | Cat_Unknown.

(** domain/error.rs:119-129 [NativeErrorNamespace] *)
Inductive NativeErrorNamespace :=
  | Ns_Win32 | Ns_HResult | Ns_NtStatus | Ns_PosixErrno | Ns_AppleOsStatus
  | Ns_AppleMach | Ns_AppleNetworkExtension | Ns_Unknown.

(** domain/error.rs:131-132 [NativeErrorCode] *)
Record NativeErrorCode := MkNativeErrorCode { NativeErrorCode_0 : Z }.

(** domain/error.rs:134-139 [RedactedNativeError] *)
Record RedactedNativeError := MkRedactedNativeError {
  rne_category : NativeErrorCategory;
  rne_namespace : NativeErrorNamespace;
  rne_code : NativeErrorCode;
}.

(** domain/error.rs:141-150 [VpnError] *)
Record VpnError := MkVpnError {
  err_code : ErrorCode;
  err_stage : ErrorStage;
  err_certainty : EffectCertainty;
  err_retry : RetryAdvice;
  err_subject : ErrorSubject;
  err_resource : option OpaqueResourceRef;
  err_native : option RedactedNativeError;
}.

#[export] Instance ErrorCode_eq_dec : EqDecision ErrorCode. Proof. solve_decision. Defined.
#[export] Instance ErrorStage_eq_dec : EqDecision ErrorStage. Proof. solve_decision. Defined.
#[export] Instance EffectCertainty_eq_dec : EqDecision EffectCertainty. Proof. solve_decision. Defined.
#[export] Instance RetryAdvice_eq_dec : EqDecision RetryAdvice. Proof. solve_decision. Defined.
#[export] Instance ErrorSubject_eq_dec : EqDecision ErrorSubject. Proof. solve_decision. Defined.
#[export] Instance ResourceKind_eq_dec : EqDecision ResourceKind. Proof. solve_decision. Defined.
#[export] Instance OpaqueResourceRef_eq_dec : EqDecision OpaqueResourceRef. Proof. solve_decision. Defined.
#[export] Instance NativeErrorCategory_eq_dec : EqDecision NativeErrorCategory.
Proof. solve_decision. Defined.
#[export] Instance NativeErrorNamespace_eq_dec : EqDecision NativeErrorNamespace.
Proof. solve_decision. Defined.
#[export] Instance NativeErrorCode_eq_dec : EqDecision NativeErrorCode. Proof. solve_decision. Defined.
#[export] Instance RedactedNativeError_eq_dec : EqDecision RedactedNativeError.
Proof. solve_decision. Defined.
#[export] Instance VpnError_eq_dec : EqDecision VpnError. Proof. solve_decision. Defined.

(** domain/error.rs:156-169 [TryFrom<(ResourceKind, ResourceIdentityDigest)> for OpaqueResourceRef] *)
Definition OpaqueResourceRef_try_from (kind : ResourceKind) (d : ResourceIdentityDigest) :
    result string OpaqueResourceRef :=
  if ResourceIdentityDigest_is_nil d
  then Err "opaque resource ref: nil identity"
  else Ok (MkOpaqueResourceRef kind d).

(** domain/error.rs:171-182 [TryFrom<(NativeErrorCategory, NativeErrorNamespace, NativeErrorCode)> for RedactedNativeError] *)
Definition RedactedNativeError_try_from (category : NativeErrorCategory)
    (ns : NativeErrorNamespace) (code : NativeErrorCode) : result string RedactedNativeError :=
  Ok (MkRedactedNativeError category ns code).

(** domain/error.rs:184-217 [TryFrom<(ErrorCode, ErrorStage, EffectCertainty, RetryAdvice, ErrorSubject, Option<OpaqueResourceRef>, Option<RedactedNativeError>)> for VpnError] *)
Definition VpnError_try_from (code : ErrorCode) (stage : ErrorStage)
    (certainty : EffectCertainty) (retry : RetryAdvice) (subject : ErrorSubject)
    (resource : option OpaqueResourceRef) (native : option RedactedNativeError) :
    result string VpnError :=
  Ok (MkVpnError code stage certainty retry subject resource native).

(** ** Limits *)

(** Durations are counted in nanoseconds. *)
(** domain/limits.rs:7-23 [MvpLimits] *)
Record MvpLimits := MkMvpLimits {
  normal_mailbox_messages : nat;
  completion_mailbox_messages : nat;
  stop_waiters_limit : N;
  snapshot_receivers : nat;
  packet_queue_messages : N;
  packet_queue_bytes : N;
  max_packet_batch_packets : N;
  max_packet_batch_bytes : N;
  max_control_message_bytes : N;
  max_packet_message_bytes : N;
  normal_cleanup_budget : N;
  queued_connect_budget : N;
  owner_lease_ttl : N;
  packet_loss_cleanup_grace : N;
}.

(** domain/limits.rs:25-52 [validate_limits]; the uuid that names the error's
    runtime epoch is drawn by the caller. *)
Definition validate_limits (fresh : Uuid) (limits : MvpLimits) : result VpnError unit :=
  let invalid := MkVpnError InvalidInput Stage_Admission NoEffect DoNotRetry
                   (Subject_Runtime (MkRuntimeEpoch fresh)) None None in
  if (normal_cleanup_budget limits =? 0)%N
     || (queued_connect_budget limits =? 0)%N
     || (owner_lease_ttl limits =? 0)%N
     || (packet_loss_cleanup_grace limits =? 0)%N
  then Err invalid
  else if (queued_connect_budget limits <? normal_cleanup_budget limits)%N
  then Err invalid
  else Ok tt.

(** ** Lemmas *)

Lemma uuid_try_from_Ok {T} (mk : Uuid → T) u : u ≠ Uuid_nil → uuid_try_from mk u = Ok (mk u).
Proof. intros. unfold uuid_try_from, Uuid_is_nil. by rewrite bool_decide_eq_false_2. Qed.

Lemma OwnershipVersion_try_from_Ok v : v ≠ 0%N → OwnershipVersion_try_from v = Ok (MkOwnershipVersion v).
Proof. intros. unfold OwnershipVersion_try_from. by rewrite (proj2 (N.eqb_neq _ _)). Qed.

Lemma method_byte_inj m1 m2 : method_byte m1 = method_byte m2 → m1 = m2.
Proof. by destruct m1, m2. Qed.

(** The preimage determines, and is determined by, the principal, the method and
    the epoch: the operation id never enters the digest. *)
Lemma lookup_preimage_eq k1 k2 :
  lookup_preimage k1 = lookup_preimage k2 ↔
  olk_principal_digest k1 = olk_principal_digest k2 ∧
  olk_method k1 = olk_method k2 ∧
  olk_runtime_epoch k1 = olk_runtime_epoch k2.
Proof.
  destruct k1 as [[p1] m1 [e1] o1], k2 as [[p2] m2 [e2] o2].
  unfold lookup_preimage; simpl. split; [|by intros ([= ->] & -> & [= ->])].
  intros H. apply app_inj_1 in H as [Hp [= Hm He]];
    [|by rewrite !length_arr_bytes].
  apply array_ext in Hp, He. apply method_byte_inj in Hm. by subst.
Qed.

Lemma canonical_lookup_digest_bytes hash64 key :
  arr_bytes (OperationLookupKeyDigest_0 (canonical_lookup_digest hash64 key)) =
  (i ← [0; 1; 2; 3]%N; le_bytes 8 (hash64 i (lookup_preimage key))).
Proof.
  unfold canonical_lookup_digest; cbn [OperationLookupKeyDigest_0].
  set (out := [0%N; 1%N; 2%N; 3%N] ≫= _).
  assert (Hl : length out = 32).
  { assert (Hf : ∀ f : N → list byte, (∀ i, length (f i) = 8) →
      length ([0%N; 1%N; 2%N; 3%N] ≫= f) = 32).
    { intros f Hf. cbn. by rewrite !length_app, !Hf. }
    apply Hf. intros i. unfold le_bytes. by rewrite length_reverse, length_be_bytes. }
  destruct (to_array_length 32 out Hl) as (a & -> & Ha). done.
Qed.
