(* ===== verification/Model.v ===== *)
(** * Runtime model and ports

    The data the reducer works on: intents, attempts, prompts, proofs, recovery
    contexts and the eight-state [RuntimeState] of [model.rs], with the
    validating constructors, and the port requests, fences and receipts of
    [ports.rs]. *)

From Stdlib Require Import NArith Strings.Byte Lia.
From S2P Require Import Prelude Identity.

(** ** Port scalars *)

(** domain/ports.rs:21-22 [AuthorityEpoch] *)
Record AuthorityEpoch := MkAuthorityEpoch { AuthorityEpoch_0 : N }.
(** domain/ports.rs:24-25 [PlatformAuthorityInstanceId] *)
Record PlatformAuthorityInstanceId := MkPlatformAuthorityInstanceId { PlatformAuthorityInstanceId_0 : Uuid }.
(** domain/ports.rs:27-28 [AdmissionWatermark] *)
Record AdmissionWatermark := MkAdmissionWatermark { AdmissionWatermark_0 : N }.
(** domain/ports.rs:30-31 [JournalRevision] *)
Record JournalRevision := MkJournalRevision { JournalRevision_0 : N }.
(** domain/ports.rs:33-34 [MonotonicTick] *)
Record MonotonicTick := MkMonotonicTick { MonotonicTick_0 : N }.
(** domain/ports.rs:36-37 [CanonicalInputDigest] *)
Record CanonicalInputDigest := MkCanonicalInputDigest { CanonicalInputDigest_0 : Digest }.
(** domain/ports.rs:39-40 [CleanupTriggerDigest] *)
Record CleanupTriggerDigest := MkCleanupTriggerDigest { CleanupTriggerDigest_0 : Digest }.
(** domain/ports.rs:42-43 [ExternalOperationDigest] *)
Record ExternalOperationDigest := MkExternalOperationDigest { ExternalOperationDigest_0 : Digest }.
(** domain/ports.rs:45-46 [JournalRootDigest] *)
Record JournalRootDigest := MkJournalRootDigest { JournalRootDigest_0 : Digest }.
(** domain/ports.rs:48-49 [TunnelIntentRef] *)
Record TunnelIntentRef := MkTunnelIntentRef { TunnelIntentRef_0 : ResourceIdentityDigest }.

#[export] Instance AuthorityEpoch_eq_dec : EqDecision AuthorityEpoch. Proof. solve_decision. Defined.
#[export] Instance PlatformAuthorityInstanceId_eq_dec : EqDecision PlatformAuthorityInstanceId.
Proof. solve_decision. Defined.
#[export] Instance AdmissionWatermark_eq_dec : EqDecision AdmissionWatermark. Proof. solve_decision. Defined.
#[export] Instance JournalRevision_eq_dec : EqDecision JournalRevision. Proof. solve_decision. Defined.
#[export] Instance MonotonicTick_eq_dec : EqDecision MonotonicTick. Proof. solve_decision. Defined.
#[export] Instance CanonicalInputDigest_eq_dec : EqDecision CanonicalInputDigest. Proof. solve_decision. Defined.
#[export] Instance CleanupTriggerDigest_eq_dec : EqDecision CleanupTriggerDigest. Proof. solve_decision. Defined.
#[export] Instance ExternalOperationDigest_eq_dec : EqDecision ExternalOperationDigest. Proof. solve_decision. Defined.
#[export] Instance JournalRootDigest_eq_dec : EqDecision JournalRootDigest. Proof. solve_decision. Defined.
#[export] Instance TunnelIntentRef_eq_dec : EqDecision TunnelIntentRef. Proof. solve_decision. Defined.

(** domain/ports.rs:51-57 [AuthorityFence] *)
Record AuthorityFence := MkAuthorityFence {
  af_authority_epoch : AuthorityEpoch;
  af_platform_authority_instance_id : PlatformAuthorityInstanceId;
  af_admission_watermark : AdmissionWatermark;
  af_journal_revision : JournalRevision;
}.
#[export] Instance AuthorityFence_eq_dec : EqDecision AuthorityFence. Proof. solve_decision. Defined.

(** domain/ports.rs:59-63 [JournalOperationIdentity] *)
Inductive JournalOperationIdentity :=
  | JOI_External (key : OperationLookupKey)
  | JOI_Retirement (id : RetirementOperationId).
#[export] Instance JournalOperationIdentity_eq_dec : EqDecision JournalOperationIdentity.
Proof. solve_decision. Defined.

(** domain/ports.rs:65-73 [MutationReceipt] *)
Record MutationReceipt := MkMutationReceipt {
  mr_journal_operation_identity : JournalOperationIdentity;
  mr_canonical_input_digest : CanonicalInputDigest;
  mr_effect_id : EffectId;
  mr_authority_fence : AuthorityFence;
  mr_ownership_version : OwnershipVersion;
  mr_certainty : EffectCertainty;
}.
#[export] Instance MutationReceipt_eq_dec : EqDecision MutationReceipt. Proof. solve_decision. Defined.

(** domain/ports.rs:75-79 [VersionedPlatformEvidence] *)
Record VersionedPlatformEvidence := MkVersionedPlatformEvidence {
  vpe_kind_version : N;
  vpe_digest : EvidenceDigest;
}.
#[export] Instance VersionedPlatformEvidence_eq_dec : EqDecision VersionedPlatformEvidence.
Proof. solve_decision. Defined.

(** [std::net::Ipv4Addr]: its four octets. *)
Abbreviation Ipv4Addr := (array 4).

(** domain/ports.rs:81-85 [Ipv4Route] *)
Record Ipv4Route := MkIpv4Route { route_network : Ipv4Addr; route_prefix_len : N }.
#[export] Instance Ipv4Route_eq_dec : EqDecision Ipv4Route. Proof. solve_decision. Defined.

(** domain/ports.rs:87-96 [TunnelPlan] *)
Record TunnelPlan := MkTunnelPlan {
  plan_ipv4_address : Ipv4Addr;
  plan_ipv4_prefix_len : N;
  plan_mtu : N;
  plan_ipv4_routes : list Ipv4Route;
  plan_dns_servers : list Ipv4Addr;
  plan_control_bypass : list Ipv4Addr;
  plan_opaque_intent : TunnelIntentRef;
}.
#[export] Instance TunnelPlan_eq_dec : EqDecision TunnelPlan. Proof. solve_decision. Defined.

(** ** Intents, attempts and proofs *)

(** domain/model.rs:13-23 [ConnectPhase] *)
Inductive ConnectPhase :=
  | ObservingOwnedState | AcquiringPlatformLease | ConnectingControl
  | Phase_AwaitingInteraction | NegotiatingTunnel | ApplyingPlatformTunnel
  | AttachingPacketBoundary | StartingDataPlane.
#[export] Instance ConnectPhase_eq_dec : EqDecision ConnectPhase. Proof. solve_decision. Defined.

(** domain/model.rs:25-26 [PromptDeadline] *)
Record PromptDeadline := MkPromptDeadline { PromptDeadline_0 : N }.
(** domain/model.rs:28-29 [ConnectionProfileRef] *)
Record ConnectionProfileRef := MkConnectionProfileRef { ConnectionProfileRef_0 : ResourceIdentityDigest }.
#[export] Instance PromptDeadline_eq_dec : EqDecision PromptDeadline. Proof. solve_decision. Defined.
#[export] Instance ConnectionProfileRef_eq_dec : EqDecision ConnectionProfileRef. Proof. solve_decision. Defined.

(** domain/model.rs:31-36 [ConnectIntent] *)
Record ConnectIntent := MkConnectIntent {
  ci_lookup_key : OperationLookupKey;
  ci_request_digest : RequestDigest;
  ci_profile : ConnectionProfileRef;
}.
#[export] Instance ConnectIntent_eq_dec : EqDecision ConnectIntent. Proof. solve_decision. Defined.

(** domain/model.rs:38-43 [Attempt] *)
Record Attempt := MkAttempt {
  at_runtime_epoch : RuntimeEpoch;
  at_attempt_id : AttemptId;
  at_intent : ConnectIntent;
}.
#[export] Instance Attempt_eq_dec : EqDecision Attempt. Proof. solve_decision. Defined.

(** domain/model.rs:45-49 [StopIntent] *)
Record StopIntent := MkStopIntent {
  si_lookup_key : OperationLookupKey;
  si_request_digest : RequestDigest;
}.
#[export] Instance StopIntent_eq_dec : EqDecision StopIntent. Proof. solve_decision. Defined.

(** domain/model.rs:51-57 [InteractionPrompt] *)
Record InteractionPrompt := MkInteractionPrompt {
  ip_interaction_id : InteractionId;
  ip_runtime_epoch : RuntimeEpoch;
  ip_attempt_id : AttemptId;
  ip_deadline : PromptDeadline;
}.
#[export] Instance InteractionPrompt_eq_dec : EqDecision InteractionPrompt. Proof. solve_decision. Defined.

(** domain/model.rs:59-60 [ProtocolSessionRef] *)
Record ProtocolSessionRef := MkProtocolSessionRef { ProtocolSessionRef_0 : ResourceIdentityDigest }.
#[export] Instance ProtocolSessionRef_eq_dec : EqDecision ProtocolSessionRef. Proof. solve_decision. Defined.

(** domain/model.rs:62-67 [PlatformOwnershipRef] *)
Record PlatformOwnershipRef := MkPlatformOwnershipRef {
  por_identity_digest : ResourceIdentityDigest;
  por_ownership_version : OwnershipVersion;
  por_token_digest : TokenDigest;
}.
#[export] Instance PlatformOwnershipRef_eq_dec : EqDecision PlatformOwnershipRef. Proof. solve_decision. Defined.

(** domain/model.rs:69-70 [PacketLeaseRef] *)
Record PacketLeaseRef := MkPacketLeaseRef { PacketLeaseRef_0 : ResourceIdentityDigest }.
#[export] Instance PacketLeaseRef_eq_dec : EqDecision PacketLeaseRef. Proof. solve_decision. Defined.

(** domain/model.rs:72-76 [CleanupProofRef] *)
Record CleanupProofRef := MkCleanupProofRef {
  cpr_canonical_inventory_digest : InventoryDigest;
  cpr_platform_evidence_digest : EvidenceDigest;
}.
#[export] Instance CleanupProofRef_eq_dec : EqDecision CleanupProofRef. Proof. solve_decision. Defined.

(** domain/model.rs:78-82 [PlatformReadyProof] *)
Record PlatformReadyProof := MkPlatformReadyProof {
  prp_platform_ownership : PlatformOwnershipRef;
  prp_evidence_digest : EvidenceDigest;
}.
#[export] Instance PlatformReadyProof_eq_dec : EqDecision PlatformReadyProof. Proof. solve_decision. Defined.

(** domain/model.rs:84-90 [DataRunningProof] *)
Record DataRunningProof := MkDataRunningProof {
  drp_protocol_session : ProtocolSessionRef;
  drp_platform_ownership : PlatformOwnershipRef;
  drp_packet_lease : PacketLeaseRef;
  drp_evidence_digest : EvidenceDigest;
}.
#[export] Instance DataRunningProof_eq_dec : EqDecision DataRunningProof. Proof. solve_decision. Defined.

(** domain/model.rs:92-98 [ConnectedSession] *)
Record ConnectedSession := MkConnectedSession {
  cs_attempt : Attempt;
  cs_protocol_session : ProtocolSessionRef;
  cs_platform_ownership : PlatformOwnershipRef;
  cs_packet_lease : PacketLeaseRef;
}.
#[export] Instance ConnectedSession_eq_dec : EqDecision ConnectedSession. Proof. solve_decision. Defined.

(** domain/model.rs:100-117 [RecoveryContext] *)
Inductive RecoveryContext :=
  | Ctx_Startup (runtime_epoch : RuntimeEpoch) (recovery_id : RecoveryId)
  | Ctx_AttemptTeardown (attempt : Attempt)
  | Ctx_OwnerLost (owner_lease_id : OwnerLeaseId) (attempt : Attempt)
  | Ctx_PacketBoundaryLost (attempt : Attempt) (packet_lease : PacketLeaseRef).
#[export] Instance RecoveryContext_eq_dec : EqDecision RecoveryContext. Proof. solve_decision. Defined.

(** domain/model.rs:119-127 [RecoveryObligation] *)
Record RecoveryObligation := MkRecoveryObligation {
  ro_owner_runtime_epoch : RuntimeEpoch;
  ro_retirement_operation_id : option RetirementOperationId;
  ro_blocking_error : VpnError;
  ro_platform_ownership : option PlatformOwnershipRef;
  ro_packet_lease : option PacketLeaseRef;
  ro_canonical_inventory_digest : InventoryDigest;
}.
#[export] Instance RecoveryObligation_eq_dec : EqDecision RecoveryObligation. Proof. solve_decision. Defined.

(** domain/model.rs:129-163 [RuntimeState] *)
Inductive RuntimeState :=
  | Idle (last_cleanup : option CleanupProofRef)
  | Connecting (attempt : Attempt) (phase : ConnectPhase)
  | AwaitingInteraction (attempt : Attempt) (prompt : InteractionPrompt)
  | Connected (session : ConnectedSession)
  | Stopping (attempt : Attempt) (stop : StopIntent) (queued_connect : option ConnectIntent)
  | Reconciling (context : RecoveryContext) (obligation : RecoveryObligation)
  | FailedClean (last_error : VpnError) (proof : CleanupProofRef)
  | FailedDirty (last_error : VpnError) (context : RecoveryContext) (obligation : RecoveryObligation).
#[export] Instance RuntimeState_eq_dec : EqDecision RuntimeState. Proof. solve_decision. Defined.

(** ** Fences and port requests *)

(** domain/ports.rs:98-103 [AttemptEffectFence] *)
Record AttemptEffectFence := MkAttemptEffectFence {
  aef_runtime_epoch : RuntimeEpoch;
  aef_attempt_id : AttemptId;
  aef_effect_id : EffectId;
}.
#[export] Instance AttemptEffectFence_eq_dec : EqDecision AttemptEffectFence. Proof. solve_decision. Defined.

(** domain/ports.rs:105-109 [OwnedAttemptEffectFence] *)
Record OwnedAttemptEffectFence := MkOwnedAttemptEffectFence {
  oaf_attempt_effect : AttemptEffectFence;
  oaf_platform_ownership : PlatformOwnershipRef;
}.
#[export] Instance OwnedAttemptEffectFence_eq_dec : EqDecision OwnedAttemptEffectFence.
Proof. solve_decision. Defined.

(** domain/ports.rs:111-116 [InteractionEffectFence] *)
Record InteractionEffectFence := MkInteractionEffectFence {
  ief_attempt_effect : AttemptEffectFence;
  ief_interaction_id : InteractionId;
  ief_deadline : PromptDeadline;
}.
#[export] Instance InteractionEffectFence_eq_dec : EqDecision InteractionEffectFence.
Proof. solve_decision. Defined.

(** domain/ports.rs:118-127 [PacketStopFence] *)
Inductive PacketStopFence :=
  | PSF_Active (fence : OwnedAttemptEffectFence)
  | PSF_Recovery (runtime_epoch : RuntimeEpoch) (recovery_id : RecoveryId)
      (retirement_operation_id : RetirementOperationId) (platform_ownership : PlatformOwnershipRef).
#[export] Instance PacketStopFence_eq_dec : EqDecision PacketStopFence. Proof. solve_decision. Defined.

(** domain/ports.rs:129-142 [CleanupTrigger] *)
Inductive CleanupTrigger :=
  | Trigger_ExternalStop (lookup_key : OperationLookupKey) (request_digest : RequestDigest)
  | Trigger_ExternalReconcile (lookup_key : OperationLookupKey) (request_digest : RequestDigest)
  | Trigger_OwnerLost (id : OwnerLeaseId)
  | Trigger_PacketBoundaryLost (lease : PacketLeaseRef)
  | Trigger_StartupRecovery (id : RecoveryId).
#[export] Instance CleanupTrigger_eq_dec : EqDecision CleanupTrigger. Proof. solve_decision. Defined.

(** domain/ports.rs:144-158 [CleanProof] *)
Record CleanProof := MkCleanProof {
  cp_runtime_epoch : RuntimeEpoch;
  cp_platform_authority_instance : PlatformAuthorityInstanceId;
  cp_prior_ownership_version : OwnershipVersion;
  cp_prior_token_digest : option TokenDigest;
  cp_retirement_operation_id : RetirementOperationId;
  cp_cleanup_trigger_digest : CleanupTriggerDigest;
  cp_external_trigger_digest : option ExternalOperationDigest;
  cp_canonical_obligation_inventory_digest : InventoryDigest;
  cp_journal_root_or_projection_digest : JournalRootDigest;
  cp_journal_revision : JournalRevision;
  cp_platform_evidence : VersionedPlatformEvidence;
  cp_unresolved_obligation_count : N;
}.
#[export] Instance CleanProof_eq_dec : EqDecision CleanProof. Proof. solve_decision. Defined.

(** domain/ports.rs:160-166 [CleanupOutcome] *)
Inductive CleanupOutcome :=
  | ProvenClean (proof : CleanProof)
  | StillOwned (obligation : RecoveryObligation)
  | Cleanup_EffectUnknown (obligation : RecoveryObligation)
  | Cleanup_ObservationFailed (obligation : RecoveryObligation).
#[export] Instance CleanupOutcome_eq_dec : EqDecision CleanupOutcome. Proof. solve_decision. Defined.

(** domain/ports.rs:168-177 [OwnedStateObservation] *)
Inductive OwnedStateObservation :=
  | NoOwnedState (authority : AuthorityFence)
  | OSO_Owned (authority : AuthorityFence) (cleanup : CleanupOutcome).
#[export] Instance OwnedStateObservation_eq_dec : EqDecision OwnedStateObservation.
Proof. solve_decision. Defined.

(** domain/ports.rs:179-188 [OperationTerminal] *)
Inductive OperationTerminal :=
  | Terminal_Succeeded (receipt : MutationReceipt)
  | Terminal_Failed (receipt : MutationReceipt) (error : VpnError).
#[export] Instance OperationTerminal_eq_dec : EqDecision OperationTerminal. Proof. solve_decision. Defined.

(** domain/ports.rs:190-194 [RejectionReason] *)
Record RejectionReason := MkRejectionReason {
  rr_error : VpnError;
  rr_authority_fence : AuthorityFence;
}.
#[export] Instance RejectionReason_eq_dec : EqDecision RejectionReason. Proof. solve_decision. Defined.

(** domain/ports.rs:196-209 [OperationState] *)
Inductive OperationState :=
  | OpState_Pending
  | OpState_Terminal (t : OperationTerminal)
  | OpState_RejectedNoEffect (reason : RejectionReason)
  | OpState_AbsentNoEffect (lookup_key_digest : OperationLookupKeyDigest)
      (authority_epoch : AuthorityEpoch) (admission_watermark : AdmissionWatermark)
  | OpState_Unknown.
#[export] Instance OperationState_eq_dec : EqDecision OperationState. Proof. solve_decision. Defined.

(** domain/ports.rs:211-215 [ObserveOwnedStateRequest] *)
Record ObserveOwnedStateRequest := MkObserveOwnedStateRequest {
  oos_runtime_epoch : RuntimeEpoch;
  oos_recovery_id : RecoveryId;
}.
#[export] Instance ObserveOwnedStateRequest_eq_dec : EqDecision ObserveOwnedStateRequest.
Proof. solve_decision. Defined.

(** domain/ports.rs:217-224 [AcquireOwnershipRequest] *)
Record AcquireOwnershipRequest := MkAcquireOwnershipRequest {
  aor_lookup_key : OperationLookupKey;
  aor_request_digest : RequestDigest;
  aor_fence : AttemptEffectFence;
  aor_owner_lease_id : OwnerLeaseId;
  aor_previous_cleanup_ref : option CleanupProofRef;
}.
#[export] Instance AcquireOwnershipRequest_eq_dec : EqDecision AcquireOwnershipRequest.
Proof. solve_decision. Defined.

(** domain/ports.rs:232-238 [ApplyTunnelRequest] *)
Record ApplyTunnelRequest := MkApplyTunnelRequest {
  atr_lookup_key : OperationLookupKey;
  atr_request_digest : RequestDigest;
  atr_fence : OwnedAttemptEffectFence;
  atr_tunnel_plan : TunnelPlan;
}.
#[export] Instance ApplyTunnelRequest_eq_dec : EqDecision ApplyTunnelRequest. Proof. solve_decision. Defined.

(** domain/ports.rs:240-245 [PlatformApplied] *)
Record PlatformApplied := MkPlatformApplied {
  pa_platform_ready : PlatformReadyProof;
  pa_packet_lease : PacketLeaseRef;
  pa_receipt : MutationReceipt;
}.
#[export] Instance PlatformApplied_eq_dec : EqDecision PlatformApplied. Proof. solve_decision. Defined.

(** domain/ports.rs:247-253 [BeginStopRequest] *)
Record BeginStopRequest := MkBeginStopRequest {
  bsr_trigger : CleanupTrigger;
  bsr_origin_subject : ErrorSubject;
  bsr_runtime_epoch : RuntimeEpoch;
  bsr_platform_ownership : PlatformOwnershipRef;
}.
#[export] Instance BeginStopRequest_eq_dec : EqDecision BeginStopRequest. Proof. solve_decision. Defined.

(** domain/ports.rs:255-261 [BeginRecoveryStopRequest] *)
Record BeginRecoveryStopRequest := MkBeginRecoveryStopRequest {
  brs_context : RecoveryContext;
  brs_trigger : CleanupTrigger;
  brs_origin_subject : ErrorSubject;
  brs_platform_ownership : PlatformOwnershipRef;
}.
#[export] Instance BeginRecoveryStopRequest_eq_dec : EqDecision BeginRecoveryStopRequest.
Proof. solve_decision. Defined.

(** domain/ports.rs:263-271 [RetirementStarted] *)
Record RetirementStarted := MkRetirementStarted {
  rs_trigger : CleanupTrigger;
  rs_origin_subject : ErrorSubject;
  rs_retirement_operation_id : RetirementOperationId;
  rs_prior_platform_ownership : PlatformOwnershipRef;
  rs_canonical_inventory_digest : InventoryDigest;
  rs_journal_revision : JournalRevision;
}.
#[export] Instance RetirementStarted_eq_dec : EqDecision RetirementStarted. Proof. solve_decision. Defined.

(** domain/ports.rs:273-278 [ReconcileRequest] *)
Record ReconcileRequest := MkReconcileRequest {
  rcr_context : RecoveryContext;
  rcr_retirement_operation_id : RetirementOperationId;
  rcr_obligation : RecoveryObligation;
}.
#[export] Instance ReconcileRequest_eq_dec : EqDecision ReconcileRequest. Proof. solve_decision. Defined.

(** domain/ports.rs:280-284 [ReleaseOwnershipRequest] *)
Record ReleaseOwnershipRequest := MkReleaseOwnershipRequest {
  ror_retirement_operation_id : RetirementOperationId;
  ror_proof : CleanProof;
}.
#[export] Instance ReleaseOwnershipRequest_eq_dec : EqDecision ReleaseOwnershipRequest.
Proof. solve_decision. Defined.

(** domain/ports.rs:286-289 [OwnershipRetired] *)
Record OwnershipRetired := MkOwnershipRetired { or_next_ownership_version : OwnershipVersion }.
#[export] Instance OwnershipRetired_eq_dec : EqDecision OwnershipRetired. Proof. solve_decision. Defined.

(** domain/ports.rs:291-295 [GetOperationRequest] *)
Record GetOperationRequest := MkGetOperationRequest {
  gor_lookup_key : OperationLookupKey;
  gor_request_digest : RequestDigest;
}.
#[export] Instance GetOperationRequest_eq_dec : EqDecision GetOperationRequest. Proof. solve_decision. Defined.

(** domain/ports.rs:306-310 [ProtocolTerminal] *)
Inductive ProtocolTerminal := Protocol_Terminated | Protocol_NotTerminated (error : VpnError).
(** domain/ports.rs:317-321 [PacketTerminal] *)
Inductive PacketTerminal := Packet_Terminated | Packet_NotTerminated (error : VpnError).
#[export] Instance ProtocolTerminal_eq_dec : EqDecision ProtocolTerminal. Proof. solve_decision. Defined.
#[export] Instance PacketTerminal_eq_dec : EqDecision PacketTerminal. Proof. solve_decision. Defined.

(** ** Constructors of [model.rs] and [ports.rs] *)

(** domain/ports.rs:381-393 [MonotonicTick::exceeded_by] *)
Definition MonotonicTick_exceeded_by (self later : MonotonicTick) : bool :=
  (MonotonicTick_0 self <? MonotonicTick_0 later)%N.

(** domain/ports.rs:402-410 [TryFrom<Uuid> for PlatformAuthorityInstanceId] *)
Definition PlatformAuthorityInstanceId_try_from (u : Uuid) :
    result string PlatformAuthorityInstanceId :=
  if Uuid_is_nil u then Err "platform authority instance: nil uuid"
  else Ok (MkPlatformAuthorityInstanceId u).

(** domain/ports.rs:374-379 [TryFrom<u64> for MonotonicTick] *)
Definition MonotonicTick_try_from (value : N) : result string MonotonicTick :=
  Ok (MkMonotonicTick value).
(** domain/ports.rs:395-400 [TryFrom<u64> for AuthorityEpoch] *)
Definition AuthorityEpoch_try_from (value : N) : result string AuthorityEpoch :=
  Ok (MkAuthorityEpoch value).
(** domain/ports.rs:412-417 [TryFrom<u64> for AdmissionWatermark] *)
Definition AdmissionWatermark_try_from (value : N) : result string AdmissionWatermark :=
  Ok (MkAdmissionWatermark value).
(** domain/ports.rs:419-424 [TryFrom<u64> for JournalRevision] *)
Definition JournalRevision_try_from (value : N) : result string JournalRevision :=
  Ok (MkJournalRevision value).

(** domain/ports.rs:442-450 [TryFrom<ResourceIdentityDigest> for TunnelIntentRef] *)
Definition TunnelIntentRef_try_from (d : ResourceIdentityDigest) : result string TunnelIntentRef :=
  if ResourceIdentityDigest_is_nil d then Err "tunnel intent ref: nil identity"
  else Ok (MkTunnelIntentRef d).

(** domain/ports.rs:452-499 [TryFrom<(Ipv4Addr, u8, u16, Vec<Ipv4Route>, Vec<Ipv4Addr>, Vec<Ipv4Addr>, TunnelIntentRef)> for TunnelPlan] *)
Definition TunnelPlan_try_from (ipv4_address : Ipv4Addr) (ipv4_prefix_len mtu : N)
    (ipv4_routes : list Ipv4Route) (dns_servers control_bypass : list Ipv4Addr)
    (opaque_intent : TunnelIntentRef) : result string TunnelPlan :=
  if (32 <? ipv4_prefix_len)%N then Err "tunnel plan: ipv4 prefix over 32"
  else if (mtu <? 576)%N then Err "tunnel plan: mtu below minimum"
  else Ok (MkTunnelPlan ipv4_address ipv4_prefix_len mtu ipv4_routes dns_servers
             control_bypass opaque_intent).

(** One second, in nanoseconds. *)
Definition secs (n : N) : N := (n * 1000000000)%N.

(** domain/model.rs:167-183 [TryFrom<(MonotonicTick, Duration)> for PromptDeadline] *)
Definition PromptDeadline_try_from (tick : MonotonicTick) (budget : N) :
    result string PromptDeadline :=
  if (budget =? 0)%N then Err "prompt deadline: zero budget"
  else if (secs 300 <? budget)%N then Err "prompt deadline: budget over ceiling"
  else
    let nanos := wrap64 budget in
    let deadline := (MonotonicTick_0 tick + nanos)%N in
    if (deadline <? two64)%N then Ok (MkPromptDeadline deadline)
    else Err "prompt deadline: tick overflow".

(** domain/model.rs:185-193 [TryFrom<ResourceIdentityDigest> for ProtocolSessionRef] *)
Definition ProtocolSessionRef_try_from (d : ResourceIdentityDigest) : result string ProtocolSessionRef :=
  if ResourceIdentityDigest_is_nil d then Err "protocol session ref: nil identity"
  else Ok (MkProtocolSessionRef d).

(** domain/model.rs:195-203 [TryFrom<ResourceIdentityDigest> for PacketLeaseRef] *)
Definition PacketLeaseRef_try_from (d : ResourceIdentityDigest) : result string PacketLeaseRef :=
  if ResourceIdentityDigest_is_nil d then Err "packet lease ref: nil identity"
  else Ok (MkPacketLeaseRef d).

(** domain/model.rs:205-223 [TryFrom<(ResourceIdentityDigest, OwnershipVersion, TokenDigest)> for PlatformOwnershipRef] *)
Definition PlatformOwnershipRef_try_from (d : ResourceIdentityDigest)
    (ownership_version : OwnershipVersion) (token_digest : TokenDigest) :
    result string PlatformOwnershipRef :=
  if ResourceIdentityDigest_is_nil d then Err "platform ownership ref: nil identity"
  else Ok (MkPlatformOwnershipRef d ownership_version token_digest).

(** domain/model.rs:225-238 [TryFrom<(InventoryDigest, EvidenceDigest)> for CleanupProofRef] *)
Definition CleanupProofRef_try_from (inventory : InventoryDigest) (evidence : EvidenceDigest) :
    result string CleanupProofRef :=
  if InventoryDigest_is_nil inventory then Err "cleanup proof: unresolved obligations"
  else Ok (MkCleanupProofRef inventory evidence).

(** domain/model.rs:240-253 [TryFrom<(PlatformOwnershipRef, EvidenceDigest)> for PlatformReadyProof] *)
Definition PlatformReadyProof_try_from (po : PlatformOwnershipRef) (evidence : EvidenceDigest) :
    result string PlatformReadyProof :=
  if EvidenceDigest_is_nil evidence then Err "platform ready proof: nil evidence"
  else Ok (MkPlatformReadyProof po evidence).

(** domain/model.rs:255-282 [TryFrom<(ProtocolSessionRef, PlatformOwnershipRef, PacketLeaseRef, EvidenceDigest)> for DataRunningProof] *)
Definition DataRunningProof_try_from (ps : ProtocolSessionRef) (po : PlatformOwnershipRef)
    (pl : PacketLeaseRef) (evidence : EvidenceDigest) : result string DataRunningProof :=
  if EvidenceDigest_is_nil evidence then Err "data running proof: nil evidence"
  else Ok (MkDataRunningProof ps po pl evidence).

(** domain/model.rs:323-342 [TryFrom<(RetirementOperationId, RecoveryObligation)> for ReconcileRequest];
    [fresh] is the uuid drawn for the startup recovery id. *)
Definition ReconcileRequest_try_from (fresh : Uuid) (id : RetirementOperationId)
    (obligation : RecoveryObligation) : result string ReconcileRequest :=
  if bool_decide (ro_retirement_operation_id obligation ≠ Some id)
  then Err "reconcile: retirement id mismatch"
  else Ok (MkReconcileRequest
             (Ctx_Startup (ro_owner_runtime_epoch obligation) (MkRecoveryId fresh))
             id obligation).

(** domain/model.rs:346-354 [TryFrom<ResourceIdentityDigest> for ConnectionProfileRef] *)
Definition ConnectionProfileRef_try_from (d : ResourceIdentityDigest) :
    result string ConnectionProfileRef :=
  if ResourceIdentityDigest_is_nil d then Err "connection profile ref: nil identity"
  else Ok (MkConnectionProfileRef d).

(** domain/model.rs:377-379 [ConnectIntent::runtime_epoch] *)
Definition ConnectIntent_runtime_epoch (intent : ConnectIntent) : RuntimeEpoch :=
  olk_runtime_epoch (ci_lookup_key intent).

(** domain/model.rs:486-491 [RecoveryContext::startup] *)
Definition RecoveryContext_startup (epoch : RuntimeEpoch) (id : RecoveryId) : RecoveryContext :=
  Ctx_Startup epoch id.

(** domain/model.rs:512-530 [RecoveryObligation::new] *)
Definition RecoveryObligation_new (epoch : RuntimeEpoch) (rid : option RetirementOperationId)
    (blocking_error : VpnError) (po : option PlatformOwnershipRef) (pl : option PacketLeaseRef)
    (inventory : InventoryDigest) : RecoveryObligation :=
  MkRecoveryObligation epoch rid blocking_error po pl inventory.

(** domain/model.rs:533-535 [RuntimeState::idle] *)
Definition RuntimeState_idle : RuntimeState := Idle None.

(** domain/model.rs:549-559 [RuntimeState::stopping] *)
Definition RuntimeState_stopping (attempt : Attempt) (stop : StopIntent)
    (queued_connect : option ConnectIntent) : RuntimeState :=
  Stopping attempt stop queued_connect.

(** domain/model.rs:561-566 [RuntimeState::reconciling] *)
Definition RuntimeState_reconciling (context : RecoveryContext)
    (obligation : RecoveryObligation) : RuntimeState :=
  Reconciling context obligation.

(** ** Lemmas *)

Lemma PromptDeadline_try_from_Ok tick budget d :
  PromptDeadline_try_from tick budget = Ok d ↔
  (0 < budget ≤ secs 300)%N ∧ (MonotonicTick_0 tick + budget < two64)%N ∧
  PromptDeadline_0 d = (MonotonicTick_0 tick + budget)%N.
Proof.
  unfold PromptDeadline_try_from.
  destruct (N.eqb_spec budget 0) as [->|?]; [split; [done|lia]|].
  destruct (N.ltb_spec (secs 300) budget) as [?|Hb]; [split; [done|lia]|].
  assert (Hw : wrap64 budget = budget).
  { apply wrap64_small. unfold in_u64. eapply N.le_lt_trans; [exact Hb|done]. }
  rewrite Hw. destruct (N.ltb_spec (MonotonicTick_0 tick + budget) two64).
  - split; [intros [= <-]; simpl; lia|]. intros (_ & _ & E). destruct d; simpl in E. by subst.
  - split; [done|lia].
Qed.
