(* ===== verification/Samples.v ===== *)
(** * Concrete values

    Small closed values of the domain types, on which the witnesses of the other
    files evaluate the definitions. *)

From Stdlib Require Import NArith Strings.Byte.
From S2P Require Import Prelude Identity Model.

Definition uu (b : byte) : Uuid := array_fill 16 b.
Definition dg (b : byte) : Digest := array_fill 32 b.

Definition sample_epoch : RuntimeEpoch := MkRuntimeEpoch (uu x01).
Definition sample_key (m : OperationMethod) (op : byte) : OperationLookupKey :=
  MkOperationLookupKey (MkPrincipalDigest (dg x09)) m sample_epoch (MkOperationId (uu op)).
Definition sample_digest (b : byte) : RequestDigest := MkRequestDigest (dg b).
Definition sample_rid (b : byte) : ResourceIdentityDigest := MkResourceIdentityDigest (dg b).
Definition sample_intent (op : byte) : ConnectIntent :=
  MkConnectIntent (sample_key Method_Connect op) (sample_digest op)
    (MkConnectionProfileRef (sample_rid x03)).
Definition sample_stop : StopIntent :=
  MkStopIntent (sample_key Method_Stop x22) (sample_digest x22).
Definition sample_attempt : Attempt :=
  MkAttempt sample_epoch (MkAttemptId (uu x04)) (sample_intent x11).
Definition sample_version (n : N) : OwnershipVersion := MkOwnershipVersion n.
Definition sample_ownership : PlatformOwnershipRef :=
  MkPlatformOwnershipRef (sample_rid x05) (sample_version 1) (MkTokenDigest (dg x06)).
Definition sample_session : ConnectedSession :=
  MkConnectedSession sample_attempt (MkProtocolSessionRef (sample_rid x07)) sample_ownership
    (MkPacketLeaseRef (sample_rid x08)).
Definition sample_authority : AuthorityFence :=
  MkAuthorityFence (MkAuthorityEpoch 1) (MkPlatformAuthorityInstanceId (uu x0a))
    (MkAdmissionWatermark 0) (MkJournalRevision 0).
Definition sample_limits : MvpLimits :=
  MkMvpLimits 4 4 8 4 64 1024 16 512 4096 4096 10 20 30 40.
