(* ===== verification/Reducer.v ===== *)
(** * The pure runtime reducer

    [reducer.rs]: the command, effect, fence and event vocabulary and
    [Reducer::reduce], the pure transition (state, command, inputs) -> decision
    that is the only place the runtime state changes on a command.

    The theorems at the end show what the actor and the scheduler rely on: the
    decision's effects stay within the three fresh effect ids and use them in
    order, their fences are consistent, every state the reducer reaches keeps its
    attempt's epoch equal to its intent's, a repeated command is absorbed, and
    the transitions refine the lifecycle automaton [life_step]. *)

From Stdlib Require Import NArith Lia.
From S2P Require Import Prelude Identity Model Samples.

(** ** Commands *)

(** domain/reducer.rs:50-55 [RespondInteractionCommand] *)
Record RespondInteractionCommand := MkRespondInteractionCommand {
  ric_lookup_key : OperationLookupKey;
  ric_request_digest : RequestDigest;
  ric_interaction_id : InteractionId;
}.

(** domain/reducer.rs:57-61 [ReconcileCommand] *)
Record ReconcileCommand := MkReconcileCommand {
  rc_lookup_key : OperationLookupKey;
  rc_request_digest : RequestDigest;
}.

(** domain/reducer.rs:63-76 [RecoveryOwnershipFence] *)
Inductive RecoveryOwnershipFence :=
  | ROF_Owned (runtime_epoch : RuntimeEpoch) (recovery_id : RecoveryId)
      (platform_ownership : PlatformOwnershipRef)
  | ROF_Retirement (runtime_epoch : RuntimeEpoch) (recovery_id : RecoveryId)
      (retirement_operation_id : RetirementOperationId) (platform_ownership : PlatformOwnershipRef).

(** domain/reducer.rs:78-86 [PlatformOwnerLossFence] *)
Inductive PlatformOwnerLossFence :=
  | POLF_Active (runtime_epoch : RuntimeEpoch) (attempt_id : AttemptId)
      (platform_ownership : PlatformOwnershipRef)
  | POLF_Recovery (fence : RecoveryOwnershipFence).

(** domain/reducer.rs:88-92 [PlatformOwnerLostCommand] *)
Record PlatformOwnerLostCommand := MkPlatformOwnerLostCommand {
  polc_owner_lease_id : OwnerLeaseId;
  polc_fence : PlatformOwnerLossFence;
}.

(** domain/reducer.rs:94-102 [PacketRelayFence] *)
Inductive PacketRelayFence :=
  | PRF_Active (runtime_epoch : RuntimeEpoch) (attempt_id : AttemptId)
      (platform_ownership : PlatformOwnershipRef)
  | PRF_Recovery (fence : RecoveryOwnershipFence).

(** domain/reducer.rs:104-111 [PacketTerminalCause] *)
Inductive PacketTerminalCause :=
  | PeerEof | NativeReadTerminal | TaskPanicked | ProviderTerminal | Cause_Backpressure.

(** domain/reducer.rs:113-118 [PacketRelayTerminal] *)
Record PacketRelayTerminal := MkPacketRelayTerminal {
  prt_fence : PacketRelayFence;
  prt_packet_lease : PacketLeaseRef;
  prt_cause : PacketTerminalCause;
}.

(** ** Completion fences *)

(** domain/reducer.rs:120-126 [ExternalEffectFence] *)
Record ExternalEffectFence := MkExternalEffectFence {
  eef_runtime_epoch : RuntimeEpoch;
  eef_effect_id : EffectId;
  eef_lookup_key : OperationLookupKey;
  eef_request_digest : RequestDigest;
}.
#[export] Instance ExternalEffectFence_eq_dec : EqDecision ExternalEffectFence. Proof. solve_decision. Defined.

(** domain/reducer.rs:128-148 [RecoveryEffectFence] *)
Inductive RecoveryEffectFence :=
  | REF_Observe (runtime_epoch : RuntimeEpoch) (recovery_id : RecoveryId) (effect_id : EffectId)
  | REF_Owned (runtime_epoch : RuntimeEpoch) (recovery_id : RecoveryId) (effect_id : EffectId)
      (platform_ownership : PlatformOwnershipRef)
  | REF_Retirement (runtime_epoch : RuntimeEpoch) (recovery_id : RecoveryId) (effect_id : EffectId)
      (retirement_operation_id : RetirementOperationId) (platform_ownership : PlatformOwnershipRef).
#[export] Instance RecoveryEffectFence_eq_dec : EqDecision RecoveryEffectFence. Proof. solve_decision. Defined.

(** domain/reducer.rs:150-157 [CompletionFence] *)
Inductive CompletionFence :=
  | CF_External (f : ExternalEffectFence)
  | CF_Attempt (f : AttemptEffectFence)
  | CF_Owned (f : OwnedAttemptEffectFence)
  | CF_Interaction (f : InteractionEffectFence)
  | CF_Recovery (f : RecoveryEffectFence).
#[export] Instance CompletionFence_eq_dec : EqDecision CompletionFence. Proof. solve_decision. Defined.

(** domain/reducer.rs:159-165 [EphemeralResourceKind] *)
Inductive EphemeralResourceKind :=
  | PlatformOwnershipToken | ProtocolLateHandle | PacketLateHandle | DataPlaneTask.
#[export] Instance EphemeralResourceKind_eq_dec : EqDecision EphemeralResourceKind.
Proof. solve_decision. Defined.

(** domain/reducer.rs:167-171 [EphemeralCleanupRef] *)
Record EphemeralCleanupRef := MkEphemeralCleanupRef {
  ecr_effect_id : EffectId;
  ecr_kind : EphemeralResourceKind;
}.
#[export] Instance EphemeralCleanupRef_eq_dec : EqDecision EphemeralCleanupRef. Proof. solve_decision. Defined.

(** domain/reducer.rs:173-180 [JournalOperationRef] *)
Inductive JournalOperationRef :=
  | JOR_External (lookup_key : OperationLookupKey) (request_digest : RequestDigest)
  | JOR_Retirement (id : RetirementOperationId).

(** domain/reducer.rs:182-188 [StaleDisposition] *)
Inductive StaleDisposition :=
  | ProvenNoEffect
  | AcquiredEphemeralResource (ref_ : EphemeralCleanupRef)
  | JournaledExternalEffect (op : JournalOperationRef)
  | UnknownResourceAcquisition (obligation : RecoveryObligation).

(** domain/reducer.rs:190-197 [ProtocolLogicalProgress] *)
Inductive ProtocolLogicalProgress :=
  | PLP_InteractionRequired
  | PLP_Established (protocol_session : ProtocolSessionRef) (tunnel_plan : TunnelPlan).

(** domain/reducer.rs:199-228 [EffectResult] *)
Inductive EffectResult :=
  | Res_OwnedStateObserved (o : OwnedStateObservation)
  | Res_OperationObserved (s : OperationState)
  | Res_OwnershipAcquired (platform_ownership : PlatformOwnershipRef) (receipt : MutationReceipt)
  | Res_ProtocolProgress (p : ProtocolLogicalProgress)
  | Res_PlatformApplied (a : PlatformApplied)
  | Res_PacketAttached (packet_lease : PacketLeaseRef)
  | Res_DataPlaneRunning (p : DataRunningProof)
  | Res_ProtocolStopped (t : ProtocolTerminal)
  | Res_PacketStopped (t : PacketTerminal)
  | Res_RetirementStarted (r : RetirementStarted)
  | Res_CleanupCompleted (o : CleanupOutcome)
  | Res_OwnershipRetired (r : OwnershipRetired)
  | Res_InteractionExpired (interaction_id : InteractionId)
  | Res_InteractionRevoked (interaction_id : InteractionId)
  | Res_QueuedConnectRevoked (lookup_key : OperationLookupKey) (request_digest : RequestDigest).

(** domain/reducer.rs:230-237 [EffectOutcome] *)
Inductive EffectOutcome :=
  | Outcome_Completed (r : EffectResult)
  | Outcome_Failed (e : VpnError)
  | CancelledBeforeEffect
  | TimedOutUnknownStillRunning (obligation : RecoveryObligation)
  | WorkerTerminatedUnknown (obligation : RecoveryObligation).

(** domain/reducer.rs:239-244 [EffectCompletion] *)
Record EffectCompletion := MkEffectCompletion {
  ec_fence : CompletionFence;
  ec_outcome : EffectOutcome;
  ec_stale_disposition : StaleDisposition;
}.

(** domain/reducer.rs:246-277 [EffectRequest] *)
Inductive EffectRequest :=
  | Req_ObserveOwnedState (r : ObserveOwnedStateRequest)
  | Req_ObserveOperation (r : GetOperationRequest)
  | Req_AcquireOwnership (r : AcquireOwnershipRequest)
  | Req_ConnectProtocol (intent : ConnectIntent)
  | Req_RespondInteraction
  | Req_ApplyTunnel (r : ApplyTunnelRequest)
  | Req_AttachPacket (packet_lease : PacketLeaseRef) (platform_ready : PlatformReadyProof)
  | Req_StartDataPlane (protocol_session : ProtocolSessionRef) (packet_lease : PacketLeaseRef)
      (platform_ready : PlatformReadyProof)
  | Req_StopProtocol (protocol_session : ProtocolSessionRef)
  | Req_StopPacket (fence : PacketStopFence) (packet_lease : PacketLeaseRef)
  | Req_BeginPlatformStop (r : BeginStopRequest)
  | Req_BeginRecoveryStop (r : BeginRecoveryStopRequest)
  | Req_Reconcile (r : ReconcileRequest)
  | Req_ReleaseOwnership (r : ReleaseOwnershipRequest)
  | Req_ExpireInteraction
  | Req_RevokeInteraction
  | Req_RevokeQueuedConnect (intent : ConnectIntent).
#[export] Instance EffectRequest_eq_dec : EqDecision EffectRequest. Proof. solve_decision. Defined.

(** domain/reducer.rs:279-283 [RuntimeEffect] *)
Record RuntimeEffect := MkRuntimeEffect {
  eff_fence : CompletionFence;
  eff_request : EffectRequest;
}.
#[export] Instance RuntimeEffect_eq_dec : EqDecision RuntimeEffect. Proof. solve_decision. Defined.

(** domain/reducer.rs:21-31 [RuntimeCommand] *)
Inductive RuntimeCommand :=
  | Cmd_Connect (intent : ConnectIntent)
  | Cmd_RespondInteraction (c : RespondInteractionCommand)
  | Cmd_Stop (stop : StopIntent)
  | Cmd_Reconcile (c : ReconcileCommand)
  | Cmd_HostLost (runtime_epoch : RuntimeEpoch)
  | Cmd_PlatformOwnerLost (c : PlatformOwnerLostCommand)
  | Cmd_PacketRelayLost (t : PacketRelayTerminal)
  | Cmd_EffectCompleted (c : EffectCompletion).

(** ** Decisions *)

(** domain/reducer.rs:33-33 [MAX_EFFECTS_PER_DECISION] *)
Definition MAX_EFFECTS_PER_DECISION : nat := 3.

(** domain/reducer.rs:35-48 [ReducerInputs]; the array [[EffectId; 3]] is a
    triple. *)
Record ReducerInputs := MkReducerInputs {
  next_attempt_id : AttemptId;
  next_effect_ids : EffectId * EffectId * EffectId;
  next_interaction_id : InteractionId;
  next_prompt_deadline : PromptDeadline;
  outstanding_teardown_effects : list EffectId;
}.

Definition next_effect_id0 (inputs : ReducerInputs) : EffectId := (next_effect_ids inputs).1.1.
Definition next_effect_id1 (inputs : ReducerInputs) : EffectId := (next_effect_ids inputs).1.2.
Definition next_effect_id2 (inputs : ReducerInputs) : EffectId := (next_effect_ids inputs).2.
Definition effect_id_pool (inputs : ReducerInputs) : list EffectId :=
  [next_effect_id0 inputs; next_effect_id1 inputs; next_effect_id2 inputs].

(** domain/reducer.rs:285-296 [OperationDisposition] *)
Inductive OperationDisposition :=
  | Accepted | AcceptedQueued | Succeeded | AlreadyCurrent
  | AlreadyStopped (proof : option CleanupProofRef)
  | AlreadyClean (proof : option CleanupProofRef)
  | CancelledBeforeStart
  | Failed (e : VpnError)
  | RequiresReconcile (obligation : RecoveryObligation).

(** domain/reducer.rs:298-303 [OperationOutcome] *)
Record OperationOutcome := MkOperationOutcome {
  oo_lookup_key : OperationLookupKey;
  oo_request_digest : RequestDigest;
  oo_disposition : OperationDisposition;
}.

(** domain/reducer.rs:305-319 [RuntimeEvent] *)
Inductive RuntimeEvent :=
  | StateChanged (s : RuntimeState)
  | OperationCompleted (o : OperationOutcome)
  | InteractionRequested (p : InteractionPrompt)
  | InteractionRevoked (interaction_id : InteractionId) (subject : ErrorSubject)
  | RecoveryRequired (context : RecoveryContext) (obligation : RecoveryObligation)
  | ErrorObserved (e : VpnError).

(** domain/reducer.rs:321-327 [ReducerDecision] *)
Record ReducerDecision := MkReducerDecision {
  next_state : RuntimeState;
  effects : list RuntimeEffect;
  operation_outcomes : list OperationOutcome;
  events : list RuntimeEvent;
}.

(** ** The reducer *)

(** domain/reducer.rs:769-780 [Reducer::op_error] *)
Definition op_error (code : ErrorCode) (lookup_key : OperationLookupKey) : VpnError :=
  MkVpnError code Stage_Admission NoEffect DoNotRetry (Subject_External lookup_key) None None.

(** domain/reducer.rs:750-767 [Reducer::leaf_decision] *)
Definition leaf_decision (st : RuntimeState) (key : OperationLookupKey) (digest : RequestDigest)
    (disposition : OperationDisposition) : ReducerDecision :=
  MkReducerDecision st [] [MkOperationOutcome key digest disposition] [].

(** domain/reducer.rs:717-748 [Reducer::start_connect] *)
Definition start_connect (intent : ConnectIntent) (key : OperationLookupKey)
    (digest : RequestDigest) (epoch : RuntimeEpoch) (inputs : ReducerInputs)
    (evs : list RuntimeEvent) : ReducerDecision :=
  let attempt := MkAttempt epoch (next_attempt_id inputs) intent in
  let effect := MkRuntimeEffect
    (CF_Attempt (MkAttemptEffectFence epoch (next_attempt_id inputs) (next_effect_id0 inputs)))
    (Req_ConnectProtocol intent) in
  MkReducerDecision (Connecting attempt ConnectingControl) [effect]
    [MkOperationOutcome key digest Accepted] evs.

(** domain/reducer.rs:697-715 [Reducer::connect_disposition] *)
Definition connect_disposition (current_intent intent : ConnectIntent)
    (key : OperationLookupKey) : OperationDisposition :=
  if bool_decide (current_intent = intent) then AlreadyCurrent
  else if bool_decide (ci_lookup_key current_intent = key)
  then Failed (op_error IdempotencyConflict key)
  else Failed (op_error ConnectInProgress key).

(** domain/reducer.rs:352-490 [Reducer::reduce_connect] *)
Definition reduce_connect (state : RuntimeState) (intent : ConnectIntent)
    (inputs : ReducerInputs) : ReducerDecision :=
  let key := ci_lookup_key intent in
  let digest := ci_request_digest intent in
  let epoch := ConnectIntent_runtime_epoch intent in
  match state with
  | Idle _ => start_connect intent key digest epoch inputs []
  | FailedClean last_error _ =>
      start_connect intent key digest epoch inputs [ErrorObserved last_error]
  | Connecting attempt phase =>
      leaf_decision (Connecting attempt phase) key digest
        (connect_disposition (at_intent attempt) intent key)
  | AwaitingInteraction attempt prompt =>
      leaf_decision (AwaitingInteraction attempt prompt) key digest
        (connect_disposition (at_intent attempt) intent key)
  | Connected session =>
      let current_intent := at_intent (cs_attempt session) in
      let disposition :=
        if bool_decide (current_intent = intent) then AlreadyCurrent
        else if bool_decide (ci_lookup_key current_intent = key)
        then Failed (op_error IdempotencyConflict key)
        else Failed (op_error SessionBusy key) in
      leaf_decision (Connected session) key digest disposition
  | Stopping attempt stop None =>
      MkReducerDecision (Stopping attempt stop (Some intent)) []
        [MkOperationOutcome key digest AcceptedQueued] []
  | Stopping attempt stop (Some existing) =>
      let stays := bool_decide (ci_lookup_key existing = key)
                   && bool_decide (ci_request_digest existing = digest) in
      let disposition := if stays then AlreadyCurrent
                         else Failed (op_error ReconnectAlreadyQueued key) in
      leaf_decision (Stopping attempt stop (Some existing)) key digest disposition
  | Reconciling context obligation =>
      MkReducerDecision (Reconciling context obligation) []
        [MkOperationOutcome key digest (RequiresReconcile obligation)] []
  | FailedDirty last_error context obligation =>
      MkReducerDecision (FailedDirty last_error context obligation) []
        [MkOperationOutcome key digest (RequiresReconcile obligation)] []
  end.

(** The three fenced teardown effects a Stop of a live session emits. *)
(** domain/reducer.rs:555-606 [Reducer::reduce_stop] *)
Definition connected_stop_effects (session : ConnectedSession) (inputs : ReducerInputs) :
    list RuntimeEffect :=
  let runtime_epoch := at_runtime_epoch (cs_attempt session) in
  let attempt_id := at_attempt_id (cs_attempt session) in
  let intent := at_intent (cs_attempt session) in
  let attempt_fence (effect_id : EffectId) :=
    MkAttemptEffectFence runtime_epoch attempt_id effect_id in
  let owned_fence := MkOwnedAttemptEffectFence (attempt_fence (next_effect_id1 inputs))
                       (cs_platform_ownership session) in
  [ MkRuntimeEffect (CF_Attempt (attempt_fence (next_effect_id0 inputs)))
      (Req_StopProtocol (cs_protocol_session session));
    MkRuntimeEffect (CF_Owned owned_fence)
      (Req_StopPacket (PSF_Active owned_fence) (cs_packet_lease session));
    MkRuntimeEffect
      (CF_External (MkExternalEffectFence runtime_epoch (next_effect_id2 inputs)
                      (ci_lookup_key intent) (ci_request_digest intent)))
      (Req_BeginPlatformStop (MkBeginStopRequest
         (Trigger_ExternalStop (ci_lookup_key intent) (ci_request_digest intent))
         (Subject_Attempt runtime_epoch attempt_id)
         runtime_epoch (cs_platform_ownership session))) ].

(** domain/reducer.rs:492-695 [Reducer::reduce_stop] *)
Definition reduce_stop (state : RuntimeState) (stop : StopIntent)
    (inputs : ReducerInputs) : ReducerDecision :=
  let key := si_lookup_key stop in
  let digest := si_request_digest stop in
  match state with
  | Idle last_cleanup =>
      MkReducerDecision (Idle last_cleanup) []
        [MkOperationOutcome key digest (AlreadyStopped None)] []
  | Connecting attempt _ => MkReducerDecision (Stopping attempt stop None) [] [] []
  | AwaitingInteraction attempt prompt =>
      let interaction_id := ip_interaction_id prompt in
      let runtime_epoch := ip_runtime_epoch prompt in
      let attempt_id := ip_attempt_id prompt in
      let effect := MkRuntimeEffect
        (CF_Interaction (MkInteractionEffectFence
           (MkAttemptEffectFence runtime_epoch attempt_id (next_effect_id0 inputs))
           interaction_id (ip_deadline prompt)))
        Req_RevokeInteraction in
      MkReducerDecision (Stopping attempt stop None) [effect] []
        [InteractionRevoked interaction_id (Subject_Attempt runtime_epoch attempt_id)]
  | Connected session =>
      MkReducerDecision (Stopping (cs_attempt session) stop None)
        (connected_stop_effects session inputs) [] []
  | Stopping attempt current_stop None =>
      MkReducerDecision (Stopping attempt current_stop None) [] [] []
  | Stopping attempt current_stop (Some queued) =>
      let queued_key := ci_lookup_key queued in
      let queued_digest := ci_request_digest queued in
      let effect := MkRuntimeEffect
        (CF_External (MkExternalEffectFence (ConnectIntent_runtime_epoch queued)
           (next_effect_id0 inputs) queued_key queued_digest))
        (Req_RevokeQueuedConnect queued) in
      MkReducerDecision (Stopping attempt current_stop None) [effect]
        [MkOperationOutcome queued_key queued_digest CancelledBeforeStart] []
  | Reconciling context obligation =>
      MkReducerDecision (Reconciling context obligation) [] [] []
  | FailedClean last_error proof =>
      MkReducerDecision (FailedClean last_error proof) [] [] []
  | FailedDirty last_error context obligation =>
      MkReducerDecision (FailedDirty last_error context obligation) [] [] []
  end.

(** domain/reducer.rs:331-350 [Reducer::reduce] *)
Definition reduce (state : RuntimeState) (command : RuntimeCommand)
    (inputs : ReducerInputs) : ReducerDecision :=
  match command with
  | Cmd_Connect intent => reduce_connect state intent inputs
  | Cmd_Stop stop => reduce_stop state stop inputs
  | _ => MkReducerDecision state [] [] []
  end.

(** ** Well-formed states *)

(** An attempt runs in the epoch of the key it was admitted under. *)
Definition attempt_ok (a : Attempt) : Prop :=
  at_runtime_epoch a = ConnectIntent_runtime_epoch (at_intent a).

Definition context_ok (c : RecoveryContext) : Prop :=
  match c with
  | Ctx_Startup _ _ => True
  | Ctx_AttemptTeardown a | Ctx_OwnerLost _ a | Ctx_PacketBoundaryLost a _ => attempt_ok a
  end.

(** A prompt belongs to the attempt it interrupts. *)
Definition prompt_ok (a : Attempt) (p : InteractionPrompt) : Prop :=
  ip_runtime_epoch p = at_runtime_epoch a ∧ ip_attempt_id p = at_attempt_id a.

Definition state_ok (s : RuntimeState) : Prop :=
  match s with
  | Idle _ | FailedClean _ _ => True
  | Connecting a _ | Stopping a _ _ => attempt_ok a
  | AwaitingInteraction a p => attempt_ok a ∧ prompt_ok a p
  | Connected cs => attempt_ok (cs_attempt cs)
  | Reconciling c _ | FailedDirty _ c _ => context_ok c
  end.

(** The attempt a state is working on, if any. *)
Definition state_attempt (s : RuntimeState) : option Attempt :=
  match s with
  | Connecting a _ | AwaitingInteraction a _ | Stopping a _ _ => Some a
  | Connected cs => Some (cs_attempt cs)
  | _ => None
  end.

(** A state in which the reducer may start a fresh attempt. *)
Definition is_free (s : RuntimeState) : bool :=
  match s with Idle _ | FailedClean _ _ => true | _ => false end.

Definition is_stopping (s : RuntimeState) : bool :=
  match s with Stopping _ _ _ => true | _ => false end.

(** A sequence of commands, each with the seeds drawn for it, run through the
    reducer: the decisions in order, and the state the run ends in. *)
Fixpoint run (s : RuntimeState) (cmds : list (RuntimeCommand * ReducerInputs)) :
    list ReducerDecision :=
  match cmds with
  | [] => []
  | (c, i) :: rest => let d := reduce s c i in d :: run (next_state d) rest
  end.

Definition final (s : RuntimeState) (cmds : list (RuntimeCommand * ReducerInputs)) :
    RuntimeState :=
  foldl (λ s ci, next_state (reduce s ci.1 ci.2)) s cmds.

(** The operation (key and digest) waiting in the reconnect queue. *)
Definition queued_ops (s : RuntimeState) : list (OperationLookupKey * RequestDigest) :=
  match s with Stopping _ _ (Some q) => [(ci_lookup_key q, ci_request_digest q)] | _ => [] end.

(** The operations a decision answers with the given disposition. *)
Definition ops_answered (p : OperationDisposition → bool) (d : ReducerDecision) :
    list (OperationLookupKey * RequestDigest) :=
  o ← operation_outcomes d;
  if p (oo_disposition o) then [(oo_lookup_key o, oo_request_digest o)] else [].
Definition is_accepted_queued (d : OperationDisposition) : bool :=
  match d with AcceptedQueued => true | _ => false end.
Definition is_cancelled (d : OperationDisposition) : bool :=
  match d with CancelledBeforeStart => true | _ => false end.

(** Concrete seeds for the witnesses. *)
Definition sample_inputs : ReducerInputs :=
  MkReducerInputs (MkAttemptId (uu Byte.x31))
    (MkEffectId (uu Byte.x32), MkEffectId (uu Byte.x33), MkEffectId (uu Byte.x34))
    (MkInteractionId (uu Byte.x35)) (MkPromptDeadline 30) [].

(** ** The lifecycle automaton the reducer implements *)

(** How far a busy slot has come. *)
Inductive stage := Dialing | Asking | Live (cs : ConnectedSession).

(** One session slot with a one-deep reconnect queue. *)
Inductive slot :=
  | Free
  | Busy (a : Attempt) (st : stage)
  | Draining (a : Attempt) (queued : option ConnectIntent)
  | Blocked (o : RecoveryObligation).

Definition slot_of (s : RuntimeState) : slot :=
  match s with
  | Idle _ | FailedClean _ _ => Free
  | Connecting a _ => Busy a Dialing
  | AwaitingInteraction a _ => Busy a Asking
  | Connected cs => Busy (cs_attempt cs) (Live cs)
  | Stopping a _ q => Draining a q
  | Reconciling _ o | FailedDirty _ _ o => Blocked o
  end.

(** What a stop asks for at each stage: nothing while dialing, the prompt revoked while
    asking, and for a live session its protocol stopped, its packet lease stopped under
    its ownership, and the platform stop of that ownership, in this order. *)
Definition teardown_of (st : stage) (es : list EffectRequest) : Prop :=
  match st with
  | Dialing => es = []
  | Asking => es = [Req_RevokeInteraction]
  | Live cs =>
      ∃ fence request,
        es = [Req_StopProtocol (cs_protocol_session cs);
              Req_StopPacket (PSF_Active fence) (cs_packet_lease cs);
              Req_BeginPlatformStop request] ∧
        oaf_platform_ownership fence = cs_platform_ownership cs ∧
        bsr_platform_ownership request = cs_platform_ownership cs
  end.

Inductive life_step : slot → RuntimeCommand → slot → list EffectRequest → Prop :=
  | life_accept i id :
      life_step Free (Cmd_Connect i)
        (Busy (MkAttempt (ConnectIntent_runtime_epoch i) id i) Dialing) [Req_ConnectProtocol i]
  | life_busy a st i : life_step (Busy a st) (Cmd_Connect i) (Busy a st) []
  | life_queue a i : life_step (Draining a None) (Cmd_Connect i) (Draining a (Some i)) []
  | life_queue_full a q i :
      life_step (Draining a (Some q)) (Cmd_Connect i) (Draining a (Some q)) []
  | life_blocked o i : life_step (Blocked o) (Cmd_Connect i) (Blocked o) []
  | life_stop_free s : life_step Free (Cmd_Stop s) Free []
  | life_stop a st s es :
      teardown_of st es → life_step (Busy a st) (Cmd_Stop s) (Draining a None) es
  | life_stop_again a s : life_step (Draining a None) (Cmd_Stop s) (Draining a None) []
  | life_cancel a q s :
      life_step (Draining a (Some q)) (Cmd_Stop s) (Draining a None) [Req_RevokeQueuedConnect q]
  | life_stop_blocked o s : life_step (Blocked o) (Cmd_Stop s) (Blocked o) []
  | life_passthrough sl c :
      (∀ i, c ≠ Cmd_Connect i) → (∀ s, c ≠ Cmd_Stop s) → life_step sl c sl [].

#[export] Hint Constructors life_step : exv.

(** ** Lemmas *)

(** Case analysis on a command and a state, reducing the decision. *)
Ltac reduce_cases s c :=
  destruct c as [?| |?| | | | |]; try done;
  destruct s as [?|? ?|? ?|?|? ? [?|]|? ?|? ?|? ? ?]; simpl.

Lemma reduce_state_ok_step s c i : state_ok s → state_ok (next_state (reduce s c i)).
Proof. reduce_cases s c; naive_solver. Qed.

(** One decision keeps the queue account: what is queued after it plus what it
    cancelled is what was queued before it plus what it queued. *)
Lemma reduce_queue_account s c i :
  queued_ops s ++ ops_answered is_accepted_queued (reduce s c i) =
  ops_answered is_cancelled (reduce s c i) ++ queued_ops (next_state (reduce s c i)).
Proof.
  reduce_cases s c; unfold connect_disposition, ops_answered; simpl;
    repeat case_bool_decide; done.
Qed.

Lemma connect_disposition_self i key : connect_disposition i i key = AlreadyCurrent.
Proof. unfold connect_disposition. by rewrite bool_decide_eq_true_2. Qed.

(** ** Properties *)

(** C36: From any well-formed state, any sequence of commands leaves the reducer
    in a well-formed state: the attempt in hand runs in the epoch of the key it
    was admitted under and an open prompt belongs to that attempt. *)
Theorem run_preserves_state_ok s cmds : state_ok s → state_ok (final s cmds).
Proof.
  revert s. induction cmds as [|[c i] cmds IH]; intros s Hs; simpl; [done|].
  by apply IH, reduce_state_ok_step.
Qed.

Lemma run_preserves_state_ok_witness :
  state_ok (Connected sample_session) ∧
  state_ok (final (Connected sample_session)
    [(Cmd_Stop sample_stop, sample_inputs); (Cmd_Connect (sample_intent Byte.x12), sample_inputs)]).
Proof. split; [reflexivity|]. apply run_preserves_state_ok. reflexivity. Defined.

(** No queued reconnect is lost or answered twice: over any run, the
    operations queued at the start followed by those answered [AcceptedQueued]
    are exactly, in order, the operations answered [CancelledBeforeStart]
    followed by the one still queued at the end. *)
Theorem run_queue_conservation s cmds :
  queued_ops s ++ (run s cmds ≫= ops_answered is_accepted_queued) =
  (run s cmds ≫= ops_answered is_cancelled) ++ queued_ops (final s cmds).
Proof.
  revert s. induction cmds as [|[c i] cmds IH]; intros s; csimpl; [by rewrite app_nil_r|].
  rewrite app_assoc, reduce_queue_account, <-!app_assoc. f_equal. apply IH.
Qed.

(** C1: The reducer implements the lifecycle automaton: every decision is one
    step of the session slot with its one-deep reconnect queue, with the same
    effect requests; in particular a stop asks for exactly the teardown of the stage
    the session had reached. *)
Theorem reduce_refines_life s c i :
  life_step (slot_of s) c (slot_of (next_state (reduce s c i)))
    (eff_request <$> effects (reduce s c i)).
Proof.
  destruct c as [?| |?| | | | |];
    [..|by apply life_passthrough]; try (by apply life_passthrough);
    destruct s as [?|? ?|? ?|?|? ? [?|]|? ?|? ?|? ? ?]; simpl; try constructor.
  all: simpl; eauto.
Qed.

(** Submitting the same Connect twice is absorbed: the second submission
    changes no state and emits no effect, and when the first one was accepted or
    queued the second is answered [AlreadyCurrent]. *)
Theorem connect_resubmission_absorbed s i inp1 inp2 :
  let d1 := reduce s (Cmd_Connect i) inp1 in
  let d2 := reduce (next_state d1) (Cmd_Connect i) inp2 in
  next_state d2 = next_state d1 ∧ effects d2 = [] ∧ events d2 = [] ∧
  (is_free s = true ∨ (∃ a st, s = Stopping a st None) →
   oo_disposition <$> operation_outcomes d2 = [AlreadyCurrent]).
Proof.
  destruct s as [?|? ?|? ?|?|? ? [?|]|? ?|? ?|? ? ?]; simpl; split_and!; try done;
    intros Hs; rewrite ?connect_disposition_self; try done.
  all: try (by destruct Hs as [?|(? & ? & ?)]).
  by rewrite !bool_decide_eq_true_2.
Qed.

(** Every Connect is answered by exactly one outcome carrying its own key and
    digest, and the answer says what happened: [Accepted] exactly when the slot
    was free, [AcceptedQueued] exactly when a stop was in progress with an empty
    queue, [RequiresReconcile] exactly when recovery holds the slot. *)
Theorem connect_answered s i inp :
  ∃ o, operation_outcomes (reduce s (Cmd_Connect i) inp) = [o] ∧
    oo_lookup_key o = ci_lookup_key i ∧ oo_request_digest o = ci_request_digest i ∧
    (oo_disposition o = Accepted ↔ slot_of s = Free) ∧
    (oo_disposition o = AcceptedQueued ↔ ∃ a, slot_of s = Draining a None) ∧
    (∀ ob, oo_disposition o = RequiresReconcile ob ↔ slot_of s = Blocked ob).
Proof.
  destruct s as [?|a ?|a ?|cs|? ? [q|]|? ?|? ?|? ? ?]; simpl; unfold connect_disposition;
    (eexists; split_and!; [done..| | |]); simpl; split_and?; try naive_solver;
    repeat case_bool_decide; simpl; naive_solver.
Qed.

(** A Stop of any busy slot enters [Stopping] for the very attempt that was
    in hand, with an empty queue; a live session additionally gets exactly the
    teardown effects StopProtocol, StopPacket and BeginPlatformStop, in that
    order, fenced to the session's epoch, attempt and ownership. *)
Theorem stop_tears_down s stop inp a st :
  slot_of s = Busy a st →
  next_state (reduce s (Cmd_Stop stop) inp) = Stopping a stop None ∧
  (∀ cs, s = Connected cs →
    map eff_request (effects (reduce s (Cmd_Stop stop) inp)) =
      [ Req_StopProtocol (cs_protocol_session cs);
        Req_StopPacket
          (PSF_Active (MkOwnedAttemptEffectFence
             (MkAttemptEffectFence (at_runtime_epoch a) (at_attempt_id a) (next_effect_id1 inp))
             (cs_platform_ownership cs)))
          (cs_packet_lease cs);
        Req_BeginPlatformStop (MkBeginStopRequest
          (Trigger_ExternalStop (ci_lookup_key (at_intent a)) (ci_request_digest (at_intent a)))
          (Subject_Attempt (at_runtime_epoch a) (at_attempt_id a))
          (at_runtime_epoch a) (cs_platform_ownership cs)) ]).
Proof. destruct s as [?|? ?|? ?|?|? ? [?|]|? ?|? ?|? ? ?]; simpl; naive_solver. Qed.

Lemma stop_tears_down_witness :
  next_state (reduce (Connected sample_session) (Cmd_Stop sample_stop) sample_inputs) =
    Stopping sample_attempt sample_stop None.
Proof.
  apply (stop_tears_down (Connected sample_session) sample_stop sample_inputs sample_attempt
    (Live sample_session)).
  reflexivity.
Defined.
