(* ===== verification/Scheduler.v ===== *)
(** * The fenced effect scheduler

    [effect.rs]: the check that the outer completion fence of an effect and the
    fence embedded in its request name the same effect, and
    [FencedEffectScheduler::schedule], which drops an inconsistent effect and
    otherwise reports it back through the completion sink; the accessors
    [fence_epoch] and [fence_effect_id] of [actor.rs].

    The theorems show that the scheduler's fail-closed branch is never taken on
    what the reducer emits, and that the reducer's fences are fresh. *)

From Stdlib Require Import NArith Lia.
From S2P Require Import Prelude Identity Model Samples Reducer.

(** runtime/actor.rs:399-412 [fence_epoch] *)
Definition fence_epoch (fence : CompletionFence) : RuntimeEpoch :=
  match fence with
  | CF_External f => eef_runtime_epoch f
  | CF_Attempt f => aef_runtime_epoch f
  | CF_Owned f => aef_runtime_epoch (oaf_attempt_effect f)
  | CF_Interaction f => aef_runtime_epoch (ief_attempt_effect f)
  | CF_Recovery f =>
      match f with
      | REF_Observe e _ _ => e
      | REF_Owned e _ _ _ => e
      | REF_Retirement e _ _ _ _ => e
      end
  end.

(** runtime/effect.rs:63-75 [fence_effect_id] *)
Definition fence_effect_id (fence : CompletionFence) : EffectId :=
  match fence with
  | CF_External f => eef_effect_id f
  | CF_Attempt f => aef_effect_id f
  | CF_Owned f => aef_effect_id (oaf_attempt_effect f)
  | CF_Interaction f => aef_effect_id (ief_attempt_effect f)
  | CF_Recovery f =>
      match f with
      | REF_Observe _ _ e => e
      | REF_Owned _ _ e _ => e
      | REF_Retirement _ _ e _ _ => e
      end
  end.

(** runtime/effect.rs:77-88 [inner_effect_id] *)
Definition inner_effect_id (request : EffectRequest) : option EffectId :=
  match request with
  | Req_AcquireOwnership r => Some (aef_effect_id (aor_fence r))
  | Req_ApplyTunnel r => Some (aef_effect_id (oaf_attempt_effect (atr_fence r)))
  | Req_StopPacket fence _ =>
      match fence with
      | PSF_Active f => Some (aef_effect_id (oaf_attempt_effect f))
      | PSF_Recovery _ _ _ _ => None
      end
  | _ => None
  end.

(** runtime/effect.rs:54-61 [fence_is_consistent] *)
Definition fence_is_consistent (effect : RuntimeEffect) : bool :=
  match inner_effect_id (eff_request effect) with
  | None => true
  | Some inner => bool_decide (fence_effect_id (eff_fence effect) = inner)
  end.

(** runtime/effect.rs:35-51 [FencedEffectScheduler::schedule]: what the spawned
    task hands to the sink, [None] when the effect is dropped. *)
Definition schedule (effect : RuntimeEffect) : option EffectCompletion :=
  if negb (fence_is_consistent effect) then None
  else Some (MkEffectCompletion (eff_fence effect) CancelledBeforeEffect ProvenNoEffect).

(** ** Properties *)

(** The effect ids of a decision are the leading ids of the pool, in order. *)
Lemma reduce_effect_ids s c i :
  (fence_effect_id ∘ eff_fence) <$> effects (reduce s c i) =
  take (length (effects (reduce s c i))) (effect_id_pool i).
Proof. reduce_cases s c; done. Qed.

Lemma reduce_effect_count s c i :
  length (effects (reduce s c i)) ≤ MAX_EFFECTS_PER_DECISION.
Proof. reduce_cases s c; unfold MAX_EFFECTS_PER_DECISION; lia. Qed.

Lemma reduce_consistent s c i e :
  e ∈ effects (reduce s c i) → fence_is_consistent e = true.
Proof.
  reduce_cases s c; unfold fence_is_consistent; simpl; intros He;
    repeat (apply elem_of_cons in He as [->|He]; simpl);
    rewrite ?bool_decide_eq_true_2 by done; try done; by apply elem_of_nil in He.
Qed.

(** A decision never needs more effect ids than it was given, and it uses them
    in order: the fences of its effects carry the first ids of the pool, each
    once; so with three distinct seeds the effects have distinct fences. *)
Theorem reduce_uses_fresh_ids s c i :
  length (effects (reduce s c i)) ≤ MAX_EFFECTS_PER_DECISION ∧
  (fence_effect_id ∘ eff_fence) <$> effects (reduce s c i) =
    take (length (effects (reduce s c i))) (effect_id_pool i) ∧
  (NoDup (effect_id_pool i) → NoDup (eff_fence <$> effects (reduce s c i))).
Proof.
  split_and!; [apply reduce_effect_count|apply reduce_effect_ids|]. intros Hnd.
  apply (NoDup_fmap_1 fence_effect_id).
  rewrite <-list_fmap_compose, reduce_effect_ids.
  eapply sublist_NoDup; [done|apply sublist_take].
Qed.

(** The scheduler never drops an effect of the reducer: every effect of every
    decision passes the fence check, and what comes back to the actor carries
    exactly that effect's fence. *)
Theorem scheduler_never_drops s c i e :
  e ∈ effects (reduce s c i) →
  ∃ comp, schedule e = Some comp ∧ ec_fence comp = eff_fence e.
Proof.
  intros He. unfold schedule. rewrite (reduce_consistent _ _ _ _ He). simpl. eauto.
Qed.

Lemma scheduler_never_drops_witness :
  ∃ e, e ∈ effects (reduce (Connected sample_session) (Cmd_Stop sample_stop) sample_inputs) ∧
    ∃ comp, schedule e = Some comp ∧ ec_fence comp = eff_fence e.
Proof.
  eexists. split; [right; left|].
  apply (scheduler_never_drops (Connected sample_session) (Cmd_Stop sample_stop) sample_inputs).
  right. left.
Defined.
