(* ===== verification/Mailbox.v ===== *)
(** * Mailboxes, snapshots and the stop latch

    [mailbox.rs]: the bounded FIFO mailbox with its rejecting and its
    drop-oldest send; [snapshot.rs]: the latest-wins observer built on it;
    [handle.rs]: the single-slot stop latch with its waiter budget.

    A [VecDeque] is a list whose head is the front; operations that mutate
    return the new value beside their result. *)

From Stdlib Require Import NArith Lia.
From S2P Require Import Prelude Identity Model Samples.

(** ** The bounded mailbox *)

(** runtime/mailbox.rs:8-16 [BoundedMailbox] *)
Record BoundedMailbox (T : Type) := MkBoundedMailbox {
  mb_capacity : nat;
  mb_items : list T;
}.
Arguments MkBoundedMailbox {T} _ _.
Arguments mb_capacity {T} _.
Arguments mb_items {T} _.

Section mailbox.
Context {T : Type}.
Implicit Types (m : BoundedMailbox T) (x : T).

(** runtime/mailbox.rs:19-24 [BoundedMailbox::new] *)
Definition mailbox_new (capacity : nat) : BoundedMailbox T := MkBoundedMailbox capacity [].

(** runtime/mailbox.rs:26-32 [BoundedMailbox::try_send]; the error is the
    rejected message ([MailboxFull]). *)
Definition try_send m (item : T) : BoundedMailbox T * result T unit :=
  if mb_capacity m <=? length (mb_items m) then (m, Err item)
  else (MkBoundedMailbox (mb_capacity m) (mb_items m ++ [item]), Ok tt).

(** runtime/mailbox.rs:34-42 [BoundedMailbox::try_send_drop_oldest] *)
Definition try_send_drop_oldest m (item : T) : BoundedMailbox T * option T :=
  if mb_capacity m <=? length (mb_items m) then
    (MkBoundedMailbox (mb_capacity m) (tail (mb_items m) ++ [item]), head (mb_items m))
  else (MkBoundedMailbox (mb_capacity m) (mb_items m ++ [item]), None).

(** runtime/mailbox.rs:44-46 [BoundedMailbox::try_recv] *)
Definition try_recv m : BoundedMailbox T * option T :=
  (MkBoundedMailbox (mb_capacity m) (tail (mb_items m)), head (mb_items m)).

(** runtime/mailbox.rs:48-50 [BoundedMailbox::len] *)
Definition mailbox_len m : nat := length (mb_items m).
(** runtime/mailbox.rs:52-54 [BoundedMailbox::is_empty] *)
Definition mailbox_is_empty m : bool := length (mb_items m) =? 0.
(** runtime/mailbox.rs:56-58 [BoundedMailbox::is_full] *)
Definition mailbox_is_full m : bool := mb_capacity m <=? length (mb_items m).

(** ** Sequences of mailbox operations *)

Inductive mailbox_op := Send (x : T) | SendDropOldest (x : T) | Recv.

(** One operation: the new mailbox, what it accepted and what left it. *)
Definition mailbox_step m (op : mailbox_op) : BoundedMailbox T * (list T * list T) :=
  match op with
  | Send x => let '(m', r) := try_send m x in (m', (if is_ok r then [x] else [], []))
  | SendDropOldest x => let '(m', d) := try_send_drop_oldest m x in (m', ([x], option_list d))
  | Recv => let '(m', r) := try_recv m in (m', ([], option_list r))
  end.

Fixpoint mailbox_run m (ops : list mailbox_op) : BoundedMailbox T * (list T * list T) :=
  match ops with
  | [] => (m, ([], []))
  | op :: ops =>
      let '(m1, (a1, r1)) := mailbox_step m op in
      let '(m2, (a2, r2)) := mailbox_run m1 ops in
      (m2, (a1 ++ a2, r1 ++ r2))
  end.

Lemma tail_length (l : list T) : length (tail l) = length l - 1.
Proof. destruct l; simpl; lia. Qed.

Lemma head_tail (l : list T) : option_list (head l) ++ tail l = l.
Proof. by destruct l. Qed.

Lemma mailbox_step_fifo m op m' acc rem :
  mailbox_step m op = (m', (acc, rem)) →
  mb_items m ++ acc = rem ++ mb_items m' ∧ mb_capacity m' = mb_capacity m ∧
  length (mb_items m') ≤ Nat.max (length (mb_items m)) (Nat.max 1 (mb_capacity m)).
Proof.
  destruct op as [x|x|]; unfold mailbox_step, try_send, try_send_drop_oldest, try_recv.
  - destruct (Nat.leb_spec (mb_capacity m) (length (mb_items m)));
      intros [= <- <- <-]; simpl; rewrite ?app_nil_r, ?length_app; simpl; split_and!; auto; lia.
  - destruct (Nat.leb_spec (mb_capacity m) (length (mb_items m)));
      intros [= <- <- <-]; simpl; rewrite ?length_app; simpl; split_and!; try done; try lia.
    + by rewrite app_assoc, head_tail.
    + rewrite tail_length. lia.
  - intros [= <- <- <-]; simpl. rewrite app_nil_r, head_tail, tail_length. split_and!; auto; lia.
Qed.

Lemma mailbox_run_fifo m ops m' acc rem :
  mailbox_run m ops = (m', (acc, rem)) →
  mb_items m ++ acc = rem ++ mb_items m' ∧ mb_capacity m' = mb_capacity m ∧
  length (mb_items m') ≤ Nat.max (length (mb_items m)) (Nat.max 1 (mb_capacity m)).
Proof.
  revert m acc rem. induction ops as [|op ops IH]; intros m acc rem; simpl.
  { intros [= <- <- <-]. rewrite app_nil_r. split_and!; auto; lia. }
  destruct (mailbox_step m op) as [m1 [a1 r1]] eqn:E1.
  destruct (mailbox_run m1 ops) as [m2 [a2 r2]] eqn:E2. intros [= <- <- <-].
  destruct (mailbox_step_fifo _ _ _ _ _ E1) as (F1 & C1 & L1).
  destruct (IH _ _ _ E2) as (F2 & C2 & L2). split_and!; [|congruence|rewrite C1 in L2; lia].
  by rewrite app_assoc, F1, <-!app_assoc, F2.
Qed.
End mailbox.
Arguments mailbox_op : clear implicits.

(** ** The snapshot observer *)

(** runtime/snapshot.rs:6-10 [SnapshotObserver] *)
Record SnapshotObserver := MkSnapshotObserver { so_revisions : BoundedMailbox RuntimeState }.

(** runtime/snapshot.rs:13-18 [SnapshotObserver::new] *)
Definition SnapshotObserver_new (capacity : nat) : SnapshotObserver :=
  MkSnapshotObserver (mailbox_new capacity).

(** runtime/snapshot.rs:20-23 [SnapshotObserver::publish] *)
Definition publish (o : SnapshotObserver) (state : RuntimeState) : SnapshotObserver :=
  MkSnapshotObserver (try_send_drop_oldest (so_revisions o) state).1.

(** runtime/snapshot.rs:25-28 [SnapshotObserver::observe] *)
Definition observe (o : SnapshotObserver) : SnapshotObserver * option RuntimeState :=
  let '(m, r) := try_recv (so_revisions o) in (MkSnapshotObserver m, r).

(** Observing until the buffer is empty. *)
Fixpoint observe_all (fuel : nat) (o : SnapshotObserver) : list RuntimeState :=
  match fuel with
  | O => []
  | S fuel => match observe o with (o', Some s) => s :: observe_all fuel o' | (_, None) => [] end
  end.

Lemma observe_all_items fuel o :
  length (mb_items (so_revisions o)) ≤ fuel → observe_all fuel o = mb_items (so_revisions o).
Proof.
  revert o. induction fuel as [|fuel IH]; intros [[c [|s l]]] H; simpl in *; try done; [lia|].
  f_equal. apply (IH (MkSnapshotObserver (MkBoundedMailbox c l))). simpl. lia.
Qed.

Lemma publish_items c o s :
  mb_capacity (so_revisions o) = c → 1 ≤ c → length (mb_items (so_revisions o)) ≤ c →
  let l := mb_items (so_revisions o) ++ [s] in
  mb_items (so_revisions (publish o s)) = drop (length l - c) l ∧
  mb_capacity (so_revisions (publish o s)) = c ∧
  length (mb_items (so_revisions (publish o s))) ≤ c.
Proof.
  intros <- Hc Hl l. unfold l, publish, try_send_drop_oldest.
  destruct (Nat.leb_spec (mb_capacity (so_revisions o)) (length (mb_items (so_revisions o))));
    simpl; rewrite ?length_app; simpl.
  - replace (length (mb_items (so_revisions o)) + 1 - mb_capacity (so_revisions o)) with 1 by lia.
    destruct (mb_items (so_revisions o)) as [|y l']; simpl in *; [lia|].
    split_and!; auto; lia.
  - replace (length (mb_items (so_revisions o)) + 1 - mb_capacity (so_revisions o)) with 0 by lia.
    simpl. split_and!; auto; lia.
Qed.

Lemma publish_all c o ss :
  mb_capacity (so_revisions o) = c → 1 ≤ c → length (mb_items (so_revisions o)) ≤ c →
  let l := mb_items (so_revisions o) ++ ss in
  mb_items (so_revisions (foldl publish o ss)) = drop (length l - c) l.
Proof.
  revert o. induction ss as [|s ss IH]; intros o Hc H1 Hl; simpl.
  { rewrite app_nil_r. by replace (length _ - c) with 0 by lia. }
  destruct (publish_items c o s Hc H1 Hl) as (Hi & Hc' & Hl').
  rewrite IH by done. rewrite Hi.
  set (k := mb_items (so_revisions o)) in *.
  rewrite (cons_middle s k ss), app_assoc.
  assert (length (k ++ [s]) - c ≤ length (k ++ [s])) by lia.
  rewrite <-(drop_app_le (k ++ [s]) ss) by lia. rewrite drop_drop. f_equal.
  rewrite length_drop, !length_app in *. simpl in *. lia.
Qed.

(** ** The stop latch *)

(** runtime/handle.rs:12-24 [StopLatch] *)
Record StopLatch := MkStopLatch {
  sl_stop_waiters : N;
  sl_waiters : N;
  sl_rpc_waiters : N;
  sl_latched : option AttemptId;
  sl_coalesced : N;
}.

(** runtime/handle.rs:9-10 [DEFAULT_STOP_WAITERS] *)
Definition DEFAULT_STOP_WAITERS : N := 8.

(** runtime/handle.rs:27-35 [StopLatch::new] *)
Definition StopLatch_new : StopLatch := MkStopLatch DEFAULT_STOP_WAITERS 0 0 None 0.

(** runtime/handle.rs:37-41 [StopLatch::with_limits] *)
Definition StopLatch_with_limits (limits : MvpLimits) : StopLatch :=
  MkStopLatch (stop_waiters_limit limits) 0 0 None 0.

(** runtime/handle.rs:43-51 [StopLatch::latch_stop] *)
Definition latch_stop (l : StopLatch) (attempt : AttemptId) : StopLatch * AttemptId :=
  (MkStopLatch (sl_stop_waiters l) (sl_waiters l) (sl_rpc_waiters l)
     (match sl_latched l with None => Some attempt | Some a => Some a end)
     (add64 (sl_coalesced l) 1),
   attempt).

(** runtime/handle.rs:57-60 [StopLatch::token_count] *)
Definition token_count (l : StopLatch) : N :=
  match sl_latched l with Some _ => 1 | None => 0 end.

(** runtime/handle.rs:67-73 [StopLatch::try_add_waiter] *)
Definition try_add_waiter (l : StopLatch) : StopLatch * result unit unit :=
  if (sl_stop_waiters l <=? sl_waiters l)%N then (l, Err tt)
  else (MkStopLatch (sl_stop_waiters l) (add64 (sl_waiters l) 1) (sl_rpc_waiters l)
          (sl_latched l) (sl_coalesced l), Ok tt).

(** runtime/handle.rs:75-77 [StopLatch::register_rpc_waiter] *)
Definition register_rpc_waiter (l : StopLatch) : StopLatch :=
  MkStopLatch (sl_stop_waiters l) (sl_waiters l) (add64 (sl_rpc_waiters l) 1)
    (sl_latched l) (sl_coalesced l).

(** runtime/handle.rs:79-82 [StopLatch::rpc_waiter_drop] *)
Definition rpc_waiter_drop (l : StopLatch) : StopLatch :=
  MkStopLatch (sl_stop_waiters l) (sl_waiters l) (sat_sub (sl_rpc_waiters l) 1)
    (sl_latched l) (sl_coalesced l).

Inductive latch_op := LatchStop (a : AttemptId) | AddWaiter | RegisterRpc | DropRpc.

Definition latch_step (l : StopLatch) (op : latch_op) : StopLatch :=
  match op with
  | LatchStop a => (latch_stop l a).1
  | AddWaiter => (try_add_waiter l).1
  | RegisterRpc => register_rpc_waiter l
  | DropRpc => rpc_waiter_drop l
  end.

(** The attempts latched by a sequence of operations, in order. *)
Definition latched_attempts (ops : list latch_op) : list AttemptId :=
  op ← ops; match op with LatchStop a => [a] | _ => [] end.

Definition latch_ok (l : StopLatch) : Prop :=
  in_u64 (sl_stop_waiters l) ∧ (sl_waiters l ≤ sl_stop_waiters l)%N.

Lemma latch_step_ok l op : latch_ok l → latch_ok (latch_step l op).
Proof.
  unfold latch_ok. destruct op; simpl; try done.
  unfold try_add_waiter. destruct (N.leb_spec (sl_stop_waiters l) (sl_waiters l)); simpl; [done|].
  intros [Hu Hle]. split; [done|]. rewrite add64_small; unfold in_u64 in *; lia.
Qed.

Lemma latch_run l ops :
  let l' := foldl latch_step l ops in
  sl_latched l' = match sl_latched l with Some a => Some a | None => head (latched_attempts ops) end ∧
  wrap64 (sl_coalesced l') = wrap64 (sl_coalesced l + N.of_nat (length (latched_attempts ops))).
Proof.
  revert l. induction ops as [|op ops IH]; intros l; csimpl.
  { by rewrite N.add_0_r; destruct (sl_latched l). }
  destruct (IH (latch_step l op)) as [H1 H2]. rewrite H1, H2.
  destruct op; simpl; [|destruct (try_add_waiter l) eqn:E..| |]; try done.
  - split; [by destruct (sl_latched l)|]. unfold add64, wrap64.
    rewrite N.Div0.add_mod_idemp_l. f_equal. lia.
  - unfold try_add_waiter in E. by case_match; simplify_eq/=.
Qed.

(** ** Properties *)

(** The mailbox is a bounded FIFO under every interleaving of its operations:
    from an empty mailbox, the messages accepted are exactly, in order, the
    messages that left it (received or dropped as oldest) followed by those still
    buffered, and the buffer never exceeds the capacity (one slot for capacity 0). *)
Theorem mailbox_bounded_fifo {T} capacity (ops : list (mailbox_op T)) m acc rem :
  mailbox_run (mailbox_new capacity) ops = (m, (acc, rem)) →
  acc = rem ++ mb_items m ∧ length (mb_items m) ≤ Nat.max 1 capacity.
Proof. intros H. destruct (mailbox_run_fifo _ _ _ _ _ H) as (? & _ & ?). simpl in *. auto with lia. Qed.

Lemma mailbox_bounded_fifo_witness :
  ∃ m, mailbox_run (mailbox_new 2) [Send 1; Send 2; Send 3; SendDropOldest 4; Recv] =
         (m, ([1; 2; 4], [1; 2])) ∧ [1; 2; 4] = [1; 2] ++ mb_items m.
Proof.
  eexists. split; [reflexivity|].
  exact (proj1 (mailbox_bounded_fifo 2 [Send 1; Send 2; Send 3; SendDropOldest 4; Recv]
                  _ _ _ eq_refl)).
Defined.

(** Publishing is latest-wins: an observer of capacity [c >= 1] that was
    published the states [ss] and is then drained shows exactly the last [c] of
    them, oldest first. *)
Theorem observer_latest_wins c ss :
  1 ≤ c →
  observe_all c (foldl publish (SnapshotObserver_new c) ss) = drop (length ss - c) ss.
Proof.
  intros Hc.
  pose proof (publish_all c (SnapshotObserver_new c) ss eq_refl Hc (Nat.le_0_l _)) as E.
  simpl in E. rewrite observe_all_items; [done|]. rewrite E, length_drop. lia.
Qed.

Lemma observer_latest_wins_witness :
  observe_all 2 (foldl publish (SnapshotObserver_new 2)
    [Idle None; Connected sample_session; Connecting sample_attempt ConnectingControl]) =
  [Connected sample_session; Connecting sample_attempt ConnectingControl].
Proof.
  exact (observer_latest_wins 2
    [Idle None; Connected sample_session; Connecting sample_attempt ConnectingControl]
    (le_S _ _ (le_n 1))).
Defined.

(** The stop latch is single-slot: after any sequence of operations the token
    names the first attempt that was ever latched (RPC waiters coming and going
    never latch one), every latch call is counted, and the number of stop waiters
    stays within the limit. *)
Theorem stop_latch_single_slot limits ops :
  in_u64 (stop_waiters_limit limits) →
  let l := foldl latch_step (StopLatch_with_limits limits) ops in
  sl_latched l = head (latched_attempts ops) ∧ (token_count l ≤ 1)%N ∧
  wrap64 (sl_coalesced l) = wrap64 (N.of_nat (length (latched_attempts ops))) ∧
  (sl_waiters l ≤ stop_waiters_limit limits)%N.
Proof.
  intros Hl l. destruct (latch_run (StopLatch_with_limits limits) ops) as [H1 H2].
  split_and!; [done|unfold token_count; by destruct (sl_latched l)|done|].
  assert (Hok : latch_ok l ∧ sl_stop_waiters l = stop_waiters_limit limits).
  { unfold l. clear -Hl.
    assert (Hg : ∀ l0, latch_ok l0 ∧ sl_stop_waiters l0 = stop_waiters_limit limits →
      latch_ok (foldl latch_step l0 ops) ∧
      sl_stop_waiters (foldl latch_step l0 ops) = stop_waiters_limit limits).
    { induction ops as [|op ops IH]; intros l0 [Ho He]; simpl; [done|]. apply IH.
      split; [by apply latch_step_ok|]. rewrite <-He. destruct op; simpl; try done.
      unfold try_add_waiter. by case_match. }
    apply Hg. split; [|done]. split; [done|]. apply N.le_0_l. }
  destruct Hok as [[_ Hw] <-]. exact Hw.
Qed.

Lemma stop_latch_single_slot_witness :
  in_u64 (stop_waiters_limit sample_limits) ∧
  sl_latched (foldl latch_step (StopLatch_with_limits sample_limits)
    [RegisterRpc; DropRpc; LatchStop (MkAttemptId (uu Byte.x01)); AddWaiter;
     LatchStop (MkAttemptId (uu Byte.x02))]) = Some (MkAttemptId (uu Byte.x01)).
Proof.
  split; [reflexivity|].
  apply (stop_latch_single_slot sample_limits
    [RegisterRpc; DropRpc; LatchStop (MkAttemptId (uu Byte.x01)); AddWaiter;
     LatchStop (MkAttemptId (uu Byte.x02))]).
  reflexivity.
Defined.
