(* ===== verification/Actor.v ===== *)
(** * The single-writer runtime actor

    [actor.rs]: the actor that drains the two bounded inboxes, runs the reducer,
    tracks the fenced effects in flight, fences completions by epoch, converges
    stale completions and consumes late handles.

    The mutex makes every public method one atomic step, so an execution is a
    sequence of the steps of [actor_step]. [Uuid::new_v4] is the section variable
    [entropy], the uuid returned by the n-th draw; the record carries the number
    of draws, and as observations the effects handed to the scheduler
    ([ac_scheduled]), the cleanups that were invoked ([ac_cleaned]) and the fences
    of the completions that were settled as current ([ac_settled]). A late-cleanup
    closure is represented by whether it is still held. *)

From Stdlib Require Import NArith Strings.Byte Lia.
From S2P Require Import Prelude Identity Model Samples Reducer Scheduler Mailbox.

(** runtime/actor.rs:33-37 [LateHandleEntry] *)
Record LateHandleEntry := MkLateHandleEntry {
  lh_ref : EphemeralCleanupRef;
  lh_cleanup : bool;
  lh_consumed : bool;
}.

(** runtime/actor.rs:39-49 [ActorInner] *)
Record Actor := MkActor {
  ac_state : RuntimeState;
  ac_commands : BoundedMailbox RuntimeCommand;
  ac_completions : BoundedMailbox EffectCompletion;
  ac_inflight : list RuntimeEffect;
  ac_current_epoch : option RuntimeEpoch;
  ac_late_handles : list LateHandleEntry;
  ac_drawn : nat;
  ac_scheduled : list RuntimeEffect;
  ac_cleaned : list EphemeralCleanupRef;
  ac_settled : list CompletionFence;
}.

(** Field updates. *)
Definition set_state (s : RuntimeState) (a : Actor) : Actor :=
  MkActor s (ac_commands a) (ac_completions a) (ac_inflight a) (ac_current_epoch a)
    (ac_late_handles a) (ac_drawn a) (ac_scheduled a) (ac_cleaned a) (ac_settled a).
Definition set_commands (m : BoundedMailbox RuntimeCommand) (a : Actor) : Actor :=
  MkActor (ac_state a) m (ac_completions a) (ac_inflight a) (ac_current_epoch a)
    (ac_late_handles a) (ac_drawn a) (ac_scheduled a) (ac_cleaned a) (ac_settled a).
Definition set_completions (m : BoundedMailbox EffectCompletion) (a : Actor) : Actor :=
  MkActor (ac_state a) (ac_commands a) m (ac_inflight a) (ac_current_epoch a)
    (ac_late_handles a) (ac_drawn a) (ac_scheduled a) (ac_cleaned a) (ac_settled a).
Definition set_epoch (e : option RuntimeEpoch) (a : Actor) : Actor :=
  MkActor (ac_state a) (ac_commands a) (ac_completions a) (ac_inflight a) e
    (ac_late_handles a) (ac_drawn a) (ac_scheduled a) (ac_cleaned a) (ac_settled a).
Definition set_drawn (n : nat) (a : Actor) : Actor :=
  MkActor (ac_state a) (ac_commands a) (ac_completions a) (ac_inflight a) (ac_current_epoch a)
    (ac_late_handles a) n (ac_scheduled a) (ac_cleaned a) (ac_settled a).
Definition set_late (l : list LateHandleEntry) (cleaned : list EphemeralCleanupRef) (a : Actor) : Actor :=
  MkActor (ac_state a) (ac_commands a) (ac_completions a) (ac_inflight a) (ac_current_epoch a)
    l (ac_drawn a) (ac_scheduled a) (ac_cleaned a ++ cleaned) (ac_settled a).
(** runtime/actor.rs:313-323 [RuntimeActor::commit_effects]: one effect recorded as in
    flight and handed to the scheduler. *)
Definition push_effect (e : RuntimeEffect) (a : Actor) : Actor :=
  MkActor (ac_state a) (ac_commands a) (ac_completions a) (ac_inflight a ++ [e])
    (ac_current_epoch a) (ac_late_handles a) (ac_drawn a) (ac_scheduled a ++ [e])
    (ac_cleaned a) (ac_settled a).
(** runtime/actor.rs:185-208 [RuntimeActor::handle_completion]: the removal of the
    in-flight effect at an index. *)
Definition consume_inflight (i : nat) (f : CompletionFence) (a : Actor) : Actor :=
  MkActor (ac_state a) (ac_commands a) (ac_completions a) (delete i (ac_inflight a))
    (ac_current_epoch a) (ac_late_handles a) (ac_drawn a) (ac_scheduled a) (ac_cleaned a)
    (ac_settled a ++ [f]).

(** runtime/actor.rs:68-86 [RuntimeActor::from_state] *)
Definition actor_from_state (limits : MvpLimits) (initial : RuntimeState) : Actor :=
  MkActor initial (mailbox_new (normal_mailbox_messages limits))
    (mailbox_new (completion_mailbox_messages limits)) [] None [] 0 [] [] [].

(** runtime/actor.rs:63-66 [RuntimeActor::new] *)
Definition actor_new (limits : MvpLimits) : Actor := actor_from_state limits RuntimeState_idle.

(** runtime/actor.rs:88-92 [RuntimeActor::submit] *)
Definition submit (command : RuntimeCommand) (a : Actor) : Actor :=
  set_commands (try_send (ac_commands a) command).1 a.

(** runtime/actor.rs:94-98 [RuntimeActor::complete_effect] *)
Definition complete_effect (completion : EffectCompletion) (a : Actor) : Actor :=
  set_completions (try_send (ac_completions a) completion).1 a.

(** runtime/actor.rs:143-151 [RuntimeActor::register_late_handle] *)
Definition register_late_handle (ref_ : EphemeralCleanupRef) (a : Actor) : Actor :=
  set_late (ac_late_handles a ++ [MkLateHandleEntry ref_ true false]) [] a.

(** runtime/actor.rs:153-160 [RuntimeActor::late_handle_consumed] *)
Definition late_handle_consumed (ref_ : EphemeralCleanupRef) (a : Actor) : bool :=
  existsb (λ e, bool_decide (lh_ref e = ref_) && lh_consumed e) (ac_late_handles a).

(** runtime/actor.rs:311-323 [RuntimeActor::commit_effects] *)
Definition commit_effect (a : Actor) (effect : RuntimeEffect) : Actor :=
  let a := match ac_current_epoch a with
           | None => set_epoch (Some (fence_epoch (eff_fence effect))) a
           | Some _ => a
           end in
  push_effect effect a.
Definition commit_effects (effects : list RuntimeEffect) (a : Actor) : Actor :=
  foldl commit_effect a effects.
#[global] Arguments commit_effects : simpl never.

(** runtime/actor.rs:249-260 [RuntimeActor::consume_late_handle]: the first entry with the
    given ref is consumed, if it was not already; the result tells whether its closure
    ran. *)
Fixpoint consume_first (ref_ : EphemeralCleanupRef) (l : list LateHandleEntry) :
    list LateHandleEntry * bool :=
  match l with
  | [] => ([], false)
  | e :: l =>
      if bool_decide (lh_ref e = ref_) then
        if lh_consumed e then (e :: l, false)
        else (MkLateHandleEntry (lh_ref e) false true :: l, lh_cleanup e)
      else let '(l', ran) := consume_first ref_ l in (e :: l', ran)
  end.

(** runtime/actor.rs:249-260 [RuntimeActor::consume_late_handle] *)
Definition consume_late_handle (ref_ : EphemeralCleanupRef) (a : Actor) : Actor :=
  let '(l, ran) := consume_first ref_ (ac_late_handles a) in
  set_late l (if ran : bool then [ref_] else []) a.

Section actor.
(** The uuid returned by the n-th call of [Uuid::new_v4]. *)
Variable entropy : nat → Uuid.

(** runtime/actor.rs:374-396 [RuntimeActor::fresh_epoch] and the other fresh identities:
    one draw. *)
Definition fresh_uuid (a : Actor) : Uuid * Actor :=
  (entropy (ac_drawn a), set_drawn (S (ac_drawn a)) a).

(** runtime/actor.rs:327-347 [RuntimeActor::fresh_inputs]: the deadline seed, tick 0 plus thirty seconds. *)
Definition seed_deadline : PromptDeadline := MkPromptDeadline (secs 30).

(** runtime/actor.rs:325-347 [RuntimeActor::fresh_inputs] *)
Definition fresh_inputs (outstanding : list EffectId) (a : Actor) : ReducerInputs * Actor :=
  let '(e0, a) := fresh_uuid a in
  let '(e1, a) := fresh_uuid a in
  let '(e2, a) := fresh_uuid a in
  let '(att, a) := fresh_uuid a in
  let '(inter, a) := fresh_uuid a in
  (MkReducerInputs (MkAttemptId att) (MkEffectId e0, MkEffectId e1, MkEffectId e2)
     (MkInteractionId inter) seed_deadline outstanding, a).

(** runtime/actor.rs:361-372 [RuntimeActor::blocker_error] *)
Definition blocker_error (epoch : RuntimeEpoch) : VpnError :=
  MkVpnError Code_EffectUnknown Stage_Recovery Certainty_Unknown Advice_Reconcile
    (Subject_Runtime epoch) None None.

(** runtime/actor.rs:349-359 [RuntimeActor::recovery_obligation] *)
Definition recovery_obligation (a : Actor) : RecoveryObligation * Actor :=
  let '(u, a) := fresh_uuid a in
  let epoch := MkRuntimeEpoch u in
  (RecoveryObligation_new epoch None (blocker_error epoch) None None
     (MkInventoryDigest (array_fill 32 x05)), a).

(** runtime/actor.rs:262-270 [RuntimeActor::enter_reconciling] *)
Definition enter_reconciling (obligation : RecoveryObligation) (a : Actor) : Actor :=
  let '(epoch, a) := match ac_current_epoch a with
                     | Some e => (e, a)
                     | None => let '(u, a) := fresh_uuid a in (MkRuntimeEpoch u, a)
                     end in
  let '(rid, a) := fresh_uuid a in
  set_state (RuntimeState_reconciling (RecoveryContext_startup epoch (MkRecoveryId rid)) obligation) a.

(** runtime/actor.rs:272-309 [RuntimeActor::begin_host_lost_teardown] *)
Definition begin_host_lost_teardown (epoch : RuntimeEpoch) (a : Actor) : Actor :=
  let '(att, a) := fresh_uuid a in
  let '(eff, a) := fresh_uuid a in
  let attempt_id := MkAttemptId att in
  let effect_id := MkEffectId eff in
  let principal := MkPrincipalDigest (array_fill 32 x01) in
  let '(op, a) := fresh_uuid a in
  let lookup_key := MkOperationLookupKey principal Method_Connect epoch (MkOperationId op) in
  let request_digest := MkRequestDigest (array_fill 32 x02) in
  let profile := MkConnectionProfileRef (MkResourceIdentityDigest (array_fill 32 x03)) in
  let intent := MkConnectIntent lookup_key request_digest profile in
  let attempt := MkAttempt epoch attempt_id intent in
  let stop := MkStopIntent lookup_key request_digest in
  let a := set_state (RuntimeState_stopping attempt stop None) a in
  let protocol_session := MkProtocolSessionRef (MkResourceIdentityDigest (array_fill 32 x0b)) in
  let effect := MkRuntimeEffect
    (CF_Attempt (MkAttemptEffectFence epoch attempt_id effect_id))
    (Req_StopProtocol protocol_session) in
  commit_effects [effect] a.

(** runtime/actor.rs:164-222 [RuntimeActor::handle_command]: run the reducer on a command
    and commit its effects (the write path shared by commands and current completions). *)
Definition reduce_and_commit (command : RuntimeCommand) (outstanding : list EffectId)
    (a : Actor) : Actor :=
  let '(inputs, a) := fresh_inputs outstanding a in
  let decision := reduce (ac_state a) command inputs in
  commit_effects (effects decision) (set_state (next_state decision) a).

(** runtime/actor.rs:164-181 [RuntimeActor::handle_command] *)
Definition handle_command (command : RuntimeCommand) (a : Actor) : Actor :=
  match command with
  | Cmd_HostLost runtime_epoch =>
      begin_host_lost_teardown runtime_epoch (set_epoch (Some runtime_epoch) a)
  | _ =>
      let outstanding := match command with
                         | Cmd_EffectCompleted c => [fence_effect_id (ec_fence c)]
                         | _ => []
                         end in
      reduce_and_commit command outstanding a
  end.

(** runtime/actor.rs:210-222 [RuntimeActor::settle_current] *)
Definition settle_current (completion : EffectCompletion) (a : Actor) : Actor :=
  reduce_and_commit (Cmd_EffectCompleted completion)
    [fence_effect_id (ec_fence completion)] a.

(** runtime/actor.rs:224-247 [RuntimeActor::apply_stale] *)
Definition apply_stale (disposition : StaleDisposition) (a : Actor) : Actor :=
  match disposition with
  | ProvenNoEffect => a
  | AcquiredEphemeralResource ref_ =>
      let a := consume_late_handle ref_ a in
      if bool_decide (ecr_kind ref_ = PacketLateHandle) then
        let '(o, a) := recovery_obligation a in enter_reconciling o a
      else a
  | JournaledExternalEffect _ =>
      let '(o, a) := recovery_obligation a in enter_reconciling o a
  | UnknownResourceAcquisition obligation => enter_reconciling obligation a
  end.

(** runtime/actor.rs:185-208 [RuntimeActor::handle_completion]: index of the first in-
    flight effect with the given fence. *)
Definition position (f : CompletionFence) (l : list RuntimeEffect) : option nat :=
  fst <$> list_find (λ e, eff_fence e = f) l.

(** runtime/actor.rs:185-208 [RuntimeActor::handle_completion] *)
Definition handle_completion (completion : EffectCompletion) (a : Actor) : Actor :=
  let rejected := match ac_current_epoch a with
                  | Some current => negb (bool_decide (fence_epoch (ec_fence completion) = current))
                  | None => false
                  end in
  if rejected then a
  else match position (ec_fence completion) (ac_inflight a) with
       | Some idx => settle_current completion (consume_inflight idx (ec_fence completion) a)
       | None => apply_stale (ec_stale_disposition completion) a
       end.

(** runtime/actor.rs:100-111 [RuntimeActor::pump]: the first loop. *)
Fixpoint drain_commands (fuel : nat) (a : Actor) : Actor :=
  match fuel with
  | O => a
  | S fuel =>
      match try_recv (ac_commands a) with
      | (m, Some c) => drain_commands fuel (handle_command c (set_commands m a))
      | (_, None) => a
      end
  end.
(** runtime/actor.rs:100-111 [RuntimeActor::pump]: the second loop. *)
Fixpoint drain_completions (fuel : nat) (a : Actor) : Actor :=
  match fuel with
  | O => a
  | S fuel =>
      match try_recv (ac_completions a) with
      | (m, Some c) => drain_completions fuel (handle_completion c (set_completions m a))
      | (_, None) => a
      end
  end.

(** runtime/actor.rs:100-111 [RuntimeActor::pump]; the fuel is the number of
    messages waiting, which [pump_drains] shows to be enough. *)
Definition pump (a : Actor) : Actor :=
  let a := drain_commands (length (mb_items (ac_commands a))) a in
  drain_completions (length (mb_items (ac_completions a))) a.

(** ** Executions *)

Inductive actor_step : Actor → Actor → Prop :=
  | step_submit c a : actor_step a (submit c a)
  | step_complete c a : actor_step a (complete_effect c a)
  | step_register r a : actor_step a (register_late_handle r a)
  | step_pump a : actor_step a (pump a).

(** The seeds of the d-th draw. *)
Definition seeds (d : nat) (outstanding : list EffectId) : ReducerInputs :=
  MkReducerInputs (MkAttemptId (entropy (3 + d)))
    (MkEffectId (entropy d), MkEffectId (entropy (1 + d)), MkEffectId (entropy (2 + d)))
    (MkInteractionId (entropy (4 + d))) seed_deadline outstanding.

Definition actor_reachable (limits : MvpLimits) (initial : RuntimeState) (a : Actor) : Prop :=
  rtc actor_step (actor_from_state limits initial) a.

(** ** Equations of the handlers *)

Lemma commit_effects_eq es a :
  commit_effects es a =
  MkActor (ac_state a) (ac_commands a) (ac_completions a) (ac_inflight a ++ es)
    (match ac_current_epoch a with
     | Some e => Some e
     | None => fence_epoch ∘ eff_fence <$> head es
     end)
    (ac_late_handles a) (ac_drawn a) (ac_scheduled a ++ es) (ac_cleaned a) (ac_settled a).
Proof.
  revert a. induction es as [|e es IH]; intros a; unfold commit_effects; simpl.
  { destruct a as [????[]]; simpl; by rewrite !app_nil_r. }
  unfold commit_effects in IH. rewrite IH.
  unfold commit_effect. destruct (ac_current_epoch a) eqn:E; simpl;
    rewrite ?E, <-!app_assoc; done.
Qed.

Lemma reduce_and_commit_eq c out a :
  reduce_and_commit c out a =
  let d := reduce (ac_state a) c (seeds (ac_drawn a) out) in
  commit_effects (effects d) (set_state (next_state d) (set_drawn (5 + ac_drawn a) a)).
Proof. done. Qed.

(** An invariant of the handlers and of the inbox updates holds in every
    reachable state. *)
Lemma actor_invariant (P : Actor → Prop) limits initial a :
  (∀ c a, P a → P (handle_command c a)) →
  (∀ c a, P a → P (handle_completion c a)) →
  (∀ m a, P a → P (set_commands m a)) →
  (∀ m a, P a → P (set_completions m a)) →
  (∀ r a, P a → P (register_late_handle r a)) →
  P (actor_from_state limits initial) →
  actor_reachable limits initial a → P a.
Proof.
  intros Hc Hd Hm1 Hm2 Hr H0 Hreach. unfold actor_reachable in Hreach.
  remember (actor_from_state limits initial) as a0 eqn:E. clear E.
  assert (Hdc : ∀ n a, P a → P (drain_commands n a)).
  { induction n as [|n IH]; intros b Hb; simpl; [done|].
    destruct (head (mb_items (ac_commands b))); auto. }
  assert (Hdd : ∀ n a, P a → P (drain_completions n a)).
  { induction n as [|n IH]; intros b Hb; simpl; [done|].
    destruct (head (mb_items (ac_completions b))); auto. }
  induction Hreach as [|b b1 b2 Hst _ IH]; [done|]. apply IH. clear IH.
  destruct Hst; unfold submit, complete_effect, pump; auto.
Qed.

(** ** Invariants *)

(** Every scheduled effect is in flight or settled, and the effect ids are
    distinct draws: [ks] lists their indices. *)
Definition effect_ids (a : Actor) : list EffectId :=
  fence_effect_id ∘ eff_fence <$> ac_scheduled a.
Definition drawn_id (k : nat) : EffectId := MkEffectId (entropy k).
Definition effects_ok (a : Actor) : Prop :=
  (eff_fence <$> ac_scheduled a) ≡ₚ (eff_fence <$> ac_inflight a) ++ ac_settled a ∧
  ∃ ks, NoDup ks ∧ Forall (λ k, k < ac_drawn a) ks ∧ effect_ids a = drawn_id <$> ks.

(** A late handle still holds its closure exactly when it is not consumed, and
    the closures that ran are those of the consumed handles. *)
Definition late_ok (a : Actor) : Prop :=
  Forall (λ e, lh_cleanup e = negb (lh_consumed e)) (ac_late_handles a) ∧
  ac_cleaned a ≡ₚ lh_ref <$> filter lh_consumed (ac_late_handles a).

(** Committing effects whose ids are fresh draws keeps the account. *)
Lemma effects_ok_commit es a n ks :
  effects_ok a → ac_drawn a ≤ n →
  fence_effect_id ∘ eff_fence <$> es = drawn_id <$> ks →
  NoDup ks → Forall (λ k, ac_drawn a ≤ k < n) ks →
  ∀ s, effects_ok (commit_effects es (set_state s (set_drawn n a))).
Proof.
  intros (Hp & ks0 & Hnd0 & Hlt0 & Hids0) Hle Hids Hnd Hlt s.
  rewrite commit_effects_eq. split; simpl.
  { rewrite !fmap_app, Hp, <-!app_assoc. f_equiv. apply Permutation_app_comm. }
  exists (ks0 ++ ks). rewrite Forall_forall in Hlt, Hlt0. split_and!.
  - apply NoDup_app. split_and!; [done| |done].
    intros k Hk1 Hk2. specialize (Hlt0 k Hk1). specialize (Hlt k Hk2). lia.
  - apply Forall_app. rewrite !Forall_forall.
    split; intros k Hk; [specialize (Hlt0 k Hk)|specialize (Hlt k Hk)]; simpl; lia.
  - unfold effect_ids in *; simpl. by rewrite !fmap_app, Hids0, Hids.
Qed.

Lemma reduce_and_commit_effects_ok c out a :
  effects_ok a → effects_ok (reduce_and_commit c out a).
Proof.
  intros Ha. rewrite reduce_and_commit_eq. cbv zeta.
  set (i := seeds (ac_drawn a) out). set (d := reduce (ac_state a) c i).
  apply (effects_ok_commit _ _ _ (take (length (effects d)) (seq (ac_drawn a) 3)));
    [done|lia| | |].
  - rewrite fmap_take. apply (reduce_effect_ids (ac_state a) c i).
  - eapply sublist_NoDup; [apply NoDup_seq|apply sublist_take].
  - apply Forall_take, Forall_seq. lia.
Qed.

Lemma position_consume f l i :
  position f l = Some i →
  (eff_fence <$> l) ≡ₚ f :: (eff_fence <$> delete i l).
Proof.
  unfold position. destruct (list_find _ l) as [[j e]|] eqn:E; [|done]. intros [= <-].
  apply list_find_Some in E as (Hl & <- & _).
  rewrite (delete_Permutation l j e Hl) at 1. done.
Qed.

Lemma consume_inflight_effects_ok f i a :
  position f (ac_inflight a) = Some i → effects_ok a → effects_ok (consume_inflight i f a).
Proof.
  intros Hpos (Hp & Hks). split; [simpl|done].
  rewrite Hp, (position_consume _ _ _ Hpos). simpl.
  rewrite app_assoc. by rewrite <-Permutation_cons_append.
Qed.

(** Only the effect bookkeeping and the number of draws matter for the account. *)
Lemma effects_ok_frame a b :
  effects_ok a → ac_scheduled b = ac_scheduled a → ac_inflight b = ac_inflight a →
  ac_settled b = ac_settled a → ac_drawn a ≤ ac_drawn b → effects_ok b.
Proof.
  intros (Hp & ks & Hn & Hd & Hids) Es Ei Et Hle.
  unfold effects_ok, effect_ids in *. rewrite Es, Ei, Et.
  split; [done|]. exists ks. split_and!; [done| |done].
  eapply Forall_impl; [exact Hd|]. simpl. lia.
Qed.

Lemma enter_reconciling_frame o a :
  let b := enter_reconciling o a in
  ac_scheduled b = ac_scheduled a ∧ ac_inflight b = ac_inflight a ∧
  ac_settled b = ac_settled a ∧ ac_drawn a ≤ ac_drawn b ∧
  ac_late_handles b = ac_late_handles a ∧ ac_cleaned b = ac_cleaned a.
Proof. unfold enter_reconciling. destruct (ac_current_epoch a); simpl; split_and!; done || lia. Qed.

(** A stale completion changes no effect bookkeeping. *)
Lemma apply_stale_frame d a :
  let b := apply_stale d a in
  ac_scheduled b = ac_scheduled a ∧ ac_inflight b = ac_inflight a ∧
  ac_settled b = ac_settled a ∧ ac_drawn a ≤ ac_drawn b.
Proof.
  destruct d as [|r|j|o]; simpl; [split_and!; done| | |].
  - unfold consume_late_handle. destruct (consume_first r (ac_late_handles a)) as [l ran].
    case_bool_decide; [|split_and!; done]. simpl.
    match goal with |- context [enter_reconciling ?o ?b] =>
      destruct (enter_reconciling_frame o b) as (? & ? & ? & ? & _) end; simpl in *.
    split_and!; done || lia.
  - match goal with |- context [enter_reconciling ?o ?b] =>
      destruct (enter_reconciling_frame o b) as (? & ? & ? & ? & _) end; simpl in *.
    split_and!; done || lia.
  - destruct (enter_reconciling_frame o a) as (? & ? & ? & ? & _). split_and!; done || lia.
Qed.

Lemma handle_completion_effects_ok c a :
  effects_ok a → effects_ok (handle_completion c a).
Proof.
  intros Ha. unfold handle_completion. case_match; [done|].
  destruct (position _ _) as [i|] eqn:Hpos.
  - apply reduce_and_commit_effects_ok. by apply consume_inflight_effects_ok.
  - destruct (apply_stale_frame (ec_stale_disposition c) a) as (? & ? & ? & ?).
    by apply (effects_ok_frame a).
Qed.

Lemma handle_command_effects_ok c a :
  effects_ok a → effects_ok (handle_command c a).
Proof.
  intros Ha. destruct c; try by apply reduce_and_commit_effects_ok.
  simpl. unfold begin_host_lost_teardown; simpl.
  match goal with |- effects_ok (commit_effects ?es (set_state ?s ?b)) =>
    apply (effects_ok_commit es (set_epoch (Some runtime_epoch) a) (3 + ac_drawn a)
             [1 + ac_drawn a]) end.
  - by apply (effects_ok_frame a).
  - simpl; lia.
  - done.
  - apply NoDup_singleton.
  - apply Forall_singleton. simpl. lia.
Qed.

Lemma consume_first_spec r l :
  Forall (λ e, lh_cleanup e = negb (lh_consumed e)) l →
  Forall (λ e, lh_cleanup e = negb (lh_consumed e)) (consume_first r l).1 ∧
  (lh_ref <$> (consume_first r l).1) = lh_ref <$> l ∧
  lh_ref <$> filter lh_consumed (consume_first r l).1 ≡ₚ
    (lh_ref <$> filter lh_consumed l) ++ (if (consume_first r l).2 then [r] else []).
Proof.
  induction l as [|e l IH]; intros Hl; [done|].
  apply Forall_cons in Hl as [He Hl]. destruct (IH Hl) as (IH1 & IH2 & IH3). simpl.
  case_bool_decide as Hr; [destruct (lh_consumed e) eqn:Hc|].
  - split_and!; [constructor; [by rewrite He, Hc|done]|done|by rewrite app_nil_r].
  - rewrite He. split_and!; [by constructor|done|].
    rewrite !filter_cons, Hc; simpl. rewrite ?decide_True, ?decide_False by done.
    csimpl. rewrite Hr. apply Permutation_cons_append.
  - destruct (consume_first r l) as [l' ran]. simpl in *.
    split_and!; [by constructor|exact (f_equal (cons (lh_ref e)) IH2)|].
    rewrite !filter_cons. destruct (lh_consumed e); csimpl; [by rewrite IH3|done].
Qed.

Lemma late_ok_frame a b :
  late_ok a → ac_late_handles b = ac_late_handles a → ac_cleaned b = ac_cleaned a → late_ok b.
Proof. unfold late_ok. by intros ? -> ->. Qed.

Lemma consume_late_handle_ok r a : late_ok a → late_ok (consume_late_handle r a).
Proof.
  intros [Hf Hp]. destruct (consume_first_spec r _ Hf) as (H1 & _ & H3).
  unfold consume_late_handle. destruct (consume_first r _) as [l ran].
  split; simpl; [done|]. by rewrite H3, Hp.
Qed.

Lemma enter_reconciling_late_ok o n a :
  late_ok a → late_ok (enter_reconciling o (set_drawn n a)).
Proof.
  intros Ha. destruct (enter_reconciling_frame o (set_drawn n a)) as (_ & _ & _ & _ & El & Ec).
  by apply (late_ok_frame a).
Qed.

Lemma apply_stale_late_ok d a : late_ok a → late_ok (apply_stale d a).
Proof.
  intros Ha. destruct d as [|r|j|o]; simpl; [done| | |].
  - pose proof (consume_late_handle_ok r a Ha) as Hc. case_bool_decide; [|done].
    by apply enter_reconciling_late_ok.
  - by apply enter_reconciling_late_ok.
  - apply (late_ok_frame _ _ (enter_reconciling_late_ok o (ac_drawn a) a Ha)); by destruct a.
Qed.

Lemma reduce_and_commit_late_ok c out a : late_ok a → late_ok (reduce_and_commit c out a).
Proof.
  intros Ha. rewrite reduce_and_commit_eq. cbv zeta. rewrite commit_effects_eq.
  by apply (late_ok_frame a).
Qed.

Lemma handle_completion_late_ok c a : late_ok a → late_ok (handle_completion c a).
Proof.
  intros Ha. unfold handle_completion. case_match; [done|].
  destruct (position _ _); [|by apply apply_stale_late_ok].
  apply reduce_and_commit_late_ok. by apply (late_ok_frame a).
Qed.

Lemma handle_command_late_ok c a : late_ok a → late_ok (handle_command c a).
Proof.
  intros Ha. destruct c; try by apply reduce_and_commit_late_ok.
  simpl. unfold begin_host_lost_teardown; simpl. rewrite commit_effects_eq.
  by apply (late_ok_frame a).
Qed.

Lemma register_late_ok r a : late_ok a → late_ok (register_late_handle r a).
Proof.
  intros [Hf Hp]. split; simpl.
  - apply Forall_app. split; [done|]. by apply Forall_singleton.
  - rewrite list.filter_app, fmap_app, app_nil_r. simpl. by rewrite Hp, app_nil_r.
Qed.

(** ** Draining *)

Lemma handle_command_inbox c a :
  ac_commands (handle_command c a) = ac_commands a ∧
  ac_completions (handle_command c a) = ac_completions a.
Proof.
  destruct c; simpl; unfold reduce_and_commit, begin_host_lost_teardown; simpl;
    by rewrite ?commit_effects_eq.
Qed.

Lemma enter_reconciling_inbox o a :
  ac_commands (enter_reconciling o a) = ac_commands a ∧
  ac_completions (enter_reconciling o a) = ac_completions a.
Proof. unfold enter_reconciling. by destruct (ac_current_epoch a). Qed.

Lemma handle_completion_inbox c a :
  ac_commands (handle_completion c a) = ac_commands a ∧
  ac_completions (handle_completion c a) = ac_completions a.
Proof.
  unfold handle_completion. case_match; [done|].
  destruct (position _ _).
  { unfold settle_current, reduce_and_commit; simpl. by rewrite ?commit_effects_eq. }
  destruct (ec_stale_disposition c) as [|r|j|o]; simpl; [done| | |].
  - unfold consume_late_handle. destruct (consume_first _ _) as [l ran].
    case_bool_decide; [|done].
    match goal with |- context [enter_reconciling ?o ?b] =>
      destruct (enter_reconciling_inbox o b) as [-> ->] end. done.
  - match goal with |- context [enter_reconciling ?o ?b] =>
      destruct (enter_reconciling_inbox o b) as [-> ->] end. done.
  - apply enter_reconciling_inbox.
Qed.

Lemma drain_commands_empties n a :
  length (mb_items (ac_commands a)) ≤ n →
  mb_items (ac_commands (drain_commands n a)) = [] ∧
  ac_completions (drain_commands n a) = ac_completions a.
Proof.
  revert a. induction n as [|n IH]; intros a Hn; simpl.
  { split; [|done]. apply length_zero_iff_nil. lia. }
  destruct (mb_items (ac_commands a)) as [|c l] eqn:E; simpl; [done|].
  match goal with |- context [handle_command c ?b] =>
    destruct (handle_command_inbox c b) as [H1 H2];
    destruct (IH (handle_command c b)) as [IH1 IH2] end.
  { rewrite H1. simpl in *. rewrite ?E; simpl. lia. }
  by rewrite IH2, H2.
Qed.

Lemma drain_completions_empties n a :
  length (mb_items (ac_completions a)) ≤ n →
  mb_items (ac_completions (drain_completions n a)) = [] ∧
  ac_commands (drain_completions n a) = ac_commands a.
Proof.
  revert a. induction n as [|n IH]; intros a Hn; simpl.
  { split; [|done]. apply length_zero_iff_nil. lia. }
  destruct (mb_items (ac_completions a)) as [|c l] eqn:E; simpl; [done|].
  match goal with |- context [handle_completion c ?b] =>
    destruct (handle_completion_inbox c b) as [H1 H2];
    destruct (IH (handle_completion c b)) as [IH1 IH2] end.
  { rewrite H2. simpl in *. rewrite ?E; simpl. lia. }
  by rewrite IH2, H1.
Qed.

(** ** Reachable states *)

Lemma reachable_effects_ok limits s0 a : actor_reachable limits s0 a → effects_ok a.
Proof.
  apply actor_invariant; eauto using handle_command_effects_ok, handle_completion_effects_ok.
  split; [done|]. exists []. split_and!; [constructor..|done].
Qed.

Lemma reachable_late_ok limits s0 a : actor_reachable limits s0 a → late_ok a.
Proof.
  apply actor_invariant;
    eauto using handle_command_late_ok, handle_completion_late_ok, register_late_ok.
  by split; [constructor|].
Qed.

Lemma enter_reconciling_state_ok o a : state_ok (ac_state (enter_reconciling o a)).
Proof. unfold enter_reconciling. by destruct (ac_current_epoch a). Qed.

Lemma handle_command_state_ok c a : state_ok (ac_state a) → state_ok (ac_state (handle_command c a)).
Proof.
  intros Ha. unfold handle_command.
  destruct c; try (rewrite reduce_and_commit_eq; cbv zeta; rewrite commit_effects_eq;
    by apply (reduce_state_ok_step (ac_state a))).
  unfold begin_host_lost_teardown; simpl. by rewrite ?commit_effects_eq.
Qed.

Lemma handle_completion_state_ok c a :
  state_ok (ac_state a) → state_ok (ac_state (handle_completion c a)).
Proof.
  intros Ha. unfold handle_completion. case_match; [done|].
  destruct (position _ _) as [i|].
  { unfold settle_current. rewrite reduce_and_commit_eq. cbv zeta. rewrite commit_effects_eq.
    by apply (reduce_state_ok_step (ac_state a)). }
  destruct (ec_stale_disposition c) as [|r|j|o]; simpl; [done| |apply enter_reconciling_state_ok..].
  case_bool_decide; [apply enter_reconciling_state_ok|].
  unfold consume_late_handle. by destruct (consume_first _ _).
Qed.

(** ** Properties *)


(** In every execution, the cleanup closure of a late handle runs exactly
    when the handle is consumed, once per registration: the closures that ran
    are those of the consumed handles, a handle holds its closure as long as it
    is not consumed, and [late_handle_consumed] answers whether it ran. *)
Theorem late_cleanup_exactly_once limits s0 a :
  actor_reachable limits s0 a →
  ac_cleaned a ≡ₚ lh_ref <$> filter lh_consumed (ac_late_handles a) ∧
  (∀ e, e ∈ ac_late_handles a → lh_cleanup e = negb (lh_consumed e)) ∧
  (∀ r, late_handle_consumed r a = true ↔ r ∈ ac_cleaned a).
Proof.
  intros [Hf Hp]%reachable_late_ok. split_and!; [done|by apply Forall_forall|].
  intros r. rewrite Hp, list_elem_of_fmap. unfold late_handle_consumed.
  rewrite existsb_exists. split.
  - intros (e & He%list_elem_of_In & Hb). bool_hyps. exists e. split; [done|].
    apply list_elem_of_filter. split; [by apply Is_true_eq_left|done].
  - intros (e & -> & [Hc He]%list_elem_of_filter). exists e.
    split; [by apply list_elem_of_In|].
    rewrite bool_decide_eq_true_2 by done. by apply Is_true_eq_true.
Qed.

(** [pump] empties both inboxes, whatever they held: every accepted command
    and completion is handled, and the two loops end. *)
Theorem pump_drains a :
  mb_items (ac_commands (pump a)) = [] ∧ mb_items (ac_completions (pump a)) = [].
Proof.
  unfold pump. destruct (drain_commands_empties _ a (le_n _)) as [H1 H2].
  destruct (drain_completions_empties _ (drain_commands (length (mb_items (ac_commands a))) a)
              (le_n _)) as [H3 H4].
  by rewrite H4.
Qed.

(** The actor never leaves the well-formed states: from a well-formed
    initial state, no sequence of submissions, completions, late handles and
    pumps reaches a state whose attempt runs in a foreign epoch. *)
Theorem actor_state_ok limits s0 a :
  state_ok s0 → actor_reachable limits s0 a → state_ok (ac_state a).
Proof.
  intros H0. apply (actor_invariant (λ a, state_ok (ac_state a)));
    auto using handle_command_state_ok, handle_completion_state_ok.
Qed.

(** Losing the host tears the runtime down whatever it was doing: the state
    becomes [Stopping] an attempt of the named epoch with an empty queue,
    exactly one effect, a [StopProtocol] fenced to that epoch and attempt, is
    scheduled and in flight, and from then on a completion of any other epoch
    is discarded without a trace. *)
Theorem host_lost_tears_down e a :
  let b := handle_command (Cmd_HostLost e) a in
  (∃ att stop eff sess,
     ac_state b = Stopping att stop None ∧ at_runtime_epoch att = e ∧ attempt_ok att ∧
     eff = MkRuntimeEffect (CF_Attempt (MkAttemptEffectFence e (at_attempt_id att)
             (drawn_id (1 + ac_drawn a)))) (Req_StopProtocol sess) ∧
     ac_scheduled b = ac_scheduled a ++ [eff] ∧ ac_inflight b = ac_inflight a ++ [eff]) ∧
  ac_current_epoch b = Some e ∧
  ∀ c, fence_epoch (ec_fence c) ≠ e → handle_completion c b = b.
Proof.
  simpl. unfold begin_host_lost_teardown; simpl. rewrite commit_effects_eq; simpl.
  split_and!; [|done|].
  - do 4 eexists. split_and!; reflexivity.
  - intros c Hc. unfold handle_completion; simpl. by rewrite bool_decide_eq_false_2.
Qed.
End actor.

(** ** Concrete executions *)

(** Distinct uuids for the first 2^16 draws. *)
Definition counter_uuid (n : nat) : Uuid :=
  default (uu x00) (to_array 16 (be_bytes 16 (N.of_nat n))).

Lemma counter_uuid_bytes n : arr_bytes (counter_uuid n) = be_bytes 16 (N.of_nat n).
Proof.
  unfold counter_uuid.
  destruct (to_array_length 16 (be_bytes 16 (N.of_nat n)) (length_be_bytes _ _)) as (u & -> & <-).
  done.
Qed.

Lemma counter_uuid_inj i j :
  (N.of_nat i < 2 ^ 16)%N → (N.of_nat j < 2 ^ 16)%N → counter_uuid i = counter_uuid j → i = j.
Proof.
  intros Hi Hj E%(f_equal (λ u, be_val (arr_bytes u))). revert E.
  rewrite !counter_uuid_bytes, !be_val_be_bytes; [lia|..];
    (eapply N.lt_trans; [eassumption|done]).
Qed.

(** A connect is submitted and pumped, the host is lost, and the stop of the lost
    host completes. *)
Definition host_lost_run : Actor :=
  let a := pump counter_uuid (submit (Cmd_Connect (sample_intent x11)) (actor_new sample_limits)) in
  let a := pump counter_uuid (submit (Cmd_HostLost sample_epoch) a) in
  pump counter_uuid (complete_effect (MkEffectCompletion
    (CF_Attempt (MkAttemptEffectFence sample_epoch (MkAttemptId (counter_uuid 5))
       (MkEffectId (counter_uuid 6)))) CancelledBeforeEffect ProvenNoEffect) a).

Lemma host_lost_run_reachable :
  actor_reachable counter_uuid sample_limits RuntimeState_idle host_lost_run.
Proof.
  unfold host_lost_run. repeat (eapply rtc_r; [|constructor]). apply rtc_refl.
Qed.


Lemma actor_state_ok_witness : state_ok (ac_state host_lost_run).
Proof.
  apply (actor_state_ok counter_uuid sample_limits RuntimeState_idle host_lost_run);
    [exact I|exact host_lost_run_reachable].
Defined.

(** A late packet handle arrives after its effect was given up. *)
Definition late_handle_run : Actor :=
  let r := MkEphemeralCleanupRef (MkEffectId (uu x05)) PacketLateHandle in
  let a := register_late_handle r (actor_new sample_limits) in
  let c := MkEffectCompletion
    (CF_Attempt (MkAttemptEffectFence sample_epoch (MkAttemptId (uu x04)) (MkEffectId (uu x05))))
    CancelledBeforeEffect (AcquiredEphemeralResource r) in
  pump counter_uuid (complete_effect c (complete_effect c a)).

Lemma late_handle_run_reachable :
  actor_reachable counter_uuid sample_limits RuntimeState_idle late_handle_run.
Proof.
  unfold late_handle_run. repeat (eapply rtc_r; [|constructor]). apply rtc_refl.
Qed.

Lemma late_cleanup_exactly_once_witness :
  length (ac_cleaned late_handle_run) = 1 ∧
  ac_cleaned late_handle_run ≡ₚ lh_ref <$> filter lh_consumed (ac_late_handles late_handle_run).
Proof.
  split; [vm_compute; reflexivity|].
  apply (late_cleanup_exactly_once counter_uuid sample_limits RuntimeState_idle late_handle_run).
  exact late_handle_run_reachable.
Defined.
