(* ===== verification/Journal.v ===== *)
(** * The append-only journal

    [journal.rs] of the resource crate: the frame codec of the recovery journal
    and the verification of its digest chain.

    [Sha256] is the section variable [sha256]; hashing by several [update] calls
    is hashing the concatenation. A slice index out of range is a panic, the
    [None] of [decode_frame] and [decode]; the loop of [decode] runs with one unit
    of fuel per byte, and every frame is at least 77 bytes long.

    The theorems: decoding inverts encoding; a write cut short at any byte loses
    only the record being written; what is recovered is byte for byte a prefix of
    the file and every record of it carries a valid digest; and two verified
    chains that end in the same digest hold the same payloads unless the hash has
    a collision. *)

From Stdlib Require Import NArith Strings.Byte Lia.
From S2P Require Import Prelude Identity Samples.

(** resource/journal.rs:10-11 [JOURNAL_VERSION] *)
Definition JOURNAL_VERSION : byte := x01.
(** resource/journal.rs:13-14 [MAX_PAYLOAD_LEN] *)
Definition MAX_PAYLOAD_LEN : N := N.shiftl 1 20.

(** resource/journal.rs:16-22 [JournalRecord] *)
Record JournalRecord := MkJournalRecord {
  jr_sequence : N;
  jr_payload : list byte;
  jr_previous_digest : array 32;
  jr_digest : array 32;
}.

(** resource/journal.rs:69-86 [DecodeOutcome] *)
Inductive DecodeOutcome :=
  | Clean (records : list JournalRecord)
  | TornTail (records : list JournalRecord)
  | Corrupt (recovered : list JournalRecord) (offset : nat).

(** resource/journal.rs:172-178 [ChainError] *)
Inductive ChainError :=
  | SequenceGap (index : nat) (expected found : N)
  | DigestMismatch (index : nat).

(** resource/journal.rs:88-170 [decode]: what the body of the decoding loop does with the
    frame at the offset: return one of the two failures, or push a record and continue
    after the frame. *)
Inductive FrameStep :=
  | FrameTorn
  | FrameCorrupt
  | FrameRecord (r : JournalRecord) (next_offset : nat).

(** resource/journal.rs:47-67 [encode] *)
Definition encode (record : JournalRecord) : list byte :=
  [JOURNAL_VERSION] ++ be_bytes 8 (jr_sequence record) ++
  be_bytes 4 (N.of_nat (length (jr_payload record))) ++
  arr_bytes (jr_previous_digest record) ++ jr_payload record ++ arr_bytes (jr_digest record).

Section journal.
Variable sha256 : list byte → array 32.

(** resource/journal.rs:36-45 [record_digest]: the hashed message. *)
Definition digest_message (sequence : N) (previous_digest : array 32) (payload : list byte) :
    list byte :=
  [JOURNAL_VERSION] ++ be_bytes 8 sequence ++ be_bytes 4 (N.of_nat (length payload)) ++
  arr_bytes previous_digest ++ payload.

(** resource/journal.rs:36-45 [record_digest] *)
Definition record_digest (sequence : N) (previous_digest : array 32) (payload : list byte) :
    array 32 :=
  sha256 (digest_message sequence previous_digest payload).

(** resource/journal.rs:24-34 [JournalRecord::new] *)
Definition JournalRecord_new (sequence : N) (previous_digest : array 32) (payload : list byte) :
    JournalRecord :=
  MkJournalRecord sequence payload previous_digest
    (record_digest sequence previous_digest payload).

(** resource/journal.rs:99-166 [decode] *)
Definition decode_frame (bytes : list byte) (offset : nat) : option FrameStep :=
  let remaining := length bytes - offset in
  if remaining <? 45 then Some FrameTorn
  else
    version ← bytes !! offset;
    sequence ← be_val <$> slice bytes (offset + 1) (offset + 9);
    payload_len ← be_val <$> slice bytes (offset + 9) (offset + 13);
    previous_digest ← slice bytes (offset + 13) (offset + 45) ≫= to_array 32;
    if negb (bool_decide (version = JOURNAL_VERSION)) then Some FrameCorrupt
    else if (MAX_PAYLOAD_LEN <? payload_len)%N then Some FrameCorrupt
    else
      let payload_len := N.to_nat payload_len in
      let remaining_after_header := remaining - 45 in
      if remaining_after_header <? payload_len then Some FrameCorrupt
      else
        let payload_end := offset + 45 + payload_len in
        let remaining_after_payload := length bytes - payload_end in
        if remaining_after_payload <? 32 then Some FrameTorn
        else
          payload ← slice bytes (offset + 45) payload_end;
          stored_digest ← slice bytes payload_end (payload_end + 32) ≫= to_array 32;
          let computed := record_digest sequence previous_digest payload in
          if negb (bool_decide (computed = stored_digest)) then Some FrameCorrupt
          else Some (FrameRecord (MkJournalRecord sequence payload previous_digest stored_digest)
                       (payload_end + 32)).

(** resource/journal.rs:88-170 [decode]: the loop over the frames. *)
Fixpoint decode_loop (fuel : nat) (bytes : list byte) (records : list JournalRecord)
    (offset : nat) : option DecodeOutcome :=
  match fuel with
  | O => None
  | S fuel =>
      if offset <? length bytes then
        step ← decode_frame bytes offset;
        match step with
        | FrameTorn => Some (TornTail records)
        | FrameCorrupt => Some (Corrupt records offset)
        | FrameRecord r next => decode_loop fuel bytes (records ++ [r]) next
        end
      else Some (Clean records)
  end.

(** resource/journal.rs:88-170 [decode] *)
Definition decode (bytes : list byte) : option DecodeOutcome :=
  decode_loop (S (length bytes)) bytes [] 0.

(** resource/journal.rs:180-219 [verify_chain]: the iteration of the checking loop at
    index [i], given the previous record. *)
Definition verify_link (i : nat) (prev r : JournalRecord) : result ChainError () :=
  let expected := wrap64 (N.of_nat i) in
  if negb (bool_decide (jr_sequence r = expected)) then
    Err (SequenceGap i expected (jr_sequence r))
  else if negb (bool_decide (jr_previous_digest r = jr_digest prev)) ||
          negb (bool_decide (jr_digest r =
            record_digest (jr_sequence r) (jr_previous_digest r) (jr_payload r))) then
    Err (DigestMismatch i)
  else Ok ().
Fixpoint verify_links (i : nat) (prev : JournalRecord) (rs : list JournalRecord) :
    result ChainError () :=
  match rs with
  | [] => Ok ()
  | r :: rs => _ ← verify_link i prev r; verify_links (S i) r rs
  end.

(** resource/journal.rs:180-219 [verify_chain] *)
Definition verify_chain (records : list JournalRecord) : result ChainError () :=
  match records with
  | [] => Ok ()
  | r0 :: rs =>
      let zero := array_fill 32 x00 in
      if negb (bool_decide (jr_previous_digest r0 = zero)) ||
         negb (bool_decide (jr_digest r0 = record_digest 0 zero (jr_payload r0))) then
        Err (DigestMismatch 0)
      else verify_links 1 r0 rs
  end.

(** A record that may be written: its fields fit their widths and its digest is
    the digest of its fields. *)
Definition record_ok (r : JournalRecord) : Prop :=
  in_u64 (jr_sequence r) ∧ (N.of_nat (length (jr_payload r)) ≤ MAX_PAYLOAD_LEN)%N ∧
  jr_digest r = record_digest (jr_sequence r) (jr_previous_digest r) (jr_payload r).

Definition encode_all (rs : list JournalRecord) : list byte := rs ≫= encode.

(** The journal written by appending the payloads in order. *)
Fixpoint append_all (seq : N) (prev : array 32) (payloads : list (list byte)) :
    list JournalRecord :=
  match payloads with
  | [] => []
  | p :: ps => let r := JournalRecord_new seq prev p in
               r :: append_all (seq + 1) (jr_digest r) ps
  end.

(** The records of an outcome. *)
Definition outcome_records (o : DecodeOutcome) : list JournalRecord :=
  match o with Clean rs | TornTail rs | Corrupt rs _ => rs end.

(** ** One frame *)

Definition header (r : JournalRecord) : list byte :=
  [JOURNAL_VERSION] ++ be_bytes 8 (jr_sequence r) ++
  be_bytes 4 (N.of_nat (length (jr_payload r))) ++ arr_bytes (jr_previous_digest r).

Lemma length_header r : length (header r) = 45.
Proof. unfold header. by rewrite !length_app, !length_be_bytes, length_arr_bytes. Qed.

Lemma encode_header r : encode r = header r ++ jr_payload r ++ arr_bytes (jr_digest r).
Proof. unfold encode, header. by rewrite <-!app_assoc. Qed.

Lemma length_encode r : length (encode r) = 77 + length (jr_payload r).
Proof. rewrite encode_header, !length_app, length_header, length_arr_bytes. lia. Qed.

(** The header is read back field by field. *)
Lemma read_header bytes off r :
  slice bytes off (off + 45) = Some (header r) →
  in_u64 (jr_sequence r) → (N.of_nat (length (jr_payload r)) ≤ MAX_PAYLOAD_LEN)%N →
  bytes !! off = Some JOURNAL_VERSION ∧
  be_val <$> slice bytes (off + 1) (off + 9) = Some (jr_sequence r) ∧
  be_val <$> slice bytes (off + 9) (off + 13) = Some (N.of_nat (length (jr_payload r))) ∧
  slice bytes (off + 13) (off + 45) ≫= to_array 32 = Some (jr_previous_digest r).
Proof.
  intros Hs Hseq Hlen. split_and!.
  - apply slice_split in Hs as (pre & post & -> & -> & _). by apply list_lookup_middle.
  - erewrite slice_sub; [|exact Hs|].
    2: { unfold header. apply slice_app; [done|]. by rewrite length_be_bytes. }
    simpl. by rewrite be_val_be_bytes.
  - erewrite slice_sub; [|exact Hs|].
    2: { unfold header. rewrite (app_assoc _ (be_bytes 8 _)).
         apply slice_app; rewrite ?length_app, ?length_be_bytes; done. }
    simpl. rewrite be_val_be_bytes; [done|]. eapply N.le_lt_trans; [exact Hlen|done].
  - erewrite slice_sub; [|exact Hs|].
    2: { unfold header. rewrite !app_assoc. apply slice_app_tail; rewrite ?length_app, ?length_be_bytes, ?length_arr_bytes; done. }
    apply to_array_arr_bytes.
Qed.

(** What [decode_frame] does once the header of [r] is present. *)
Lemma decode_frame_header bytes off r :
  slice bytes off (off + 45) = Some (header r) →
  in_u64 (jr_sequence r) → (N.of_nat (length (jr_payload r)) ≤ MAX_PAYLOAD_LEN)%N →
  decode_frame bytes off =
    let payload_end := off + 45 + length (jr_payload r) in
    if length bytes <? payload_end then Some FrameCorrupt
    else if length bytes <? payload_end + 32 then Some FrameTorn
    else
      payload ← slice bytes (off + 45) payload_end;
      stored ← slice bytes payload_end (payload_end + 32) ≫= to_array 32;
      if negb (bool_decide (record_digest (jr_sequence r) (jr_previous_digest r) payload = stored))
      then Some FrameCorrupt
      else Some (FrameRecord (MkJournalRecord (jr_sequence r) payload (jr_previous_digest r) stored)
                   (payload_end + 32)).
Proof.
  intros Hs Hseq Hlen. destruct (read_header bytes off r Hs Hseq Hlen) as (H1 & H2 & H3 & H4).
  assert (off + 45 ≤ length bytes) by by apply slice_Some in Hs as (_ & ? & _).
  unfold decode_frame. destruct (Nat.ltb_spec (length bytes - off) 45) as [|_]; [lia|].
  rewrite H1, H2, H3, H4. simpl. rewrite Nat2N.id.
  destruct (N.ltb_spec MAX_PAYLOAD_LEN (N.of_nat (length (jr_payload r)))) as [|_]; [lia|].
  set (n := length (jr_payload r)).
  destruct (Nat.ltb_spec (length bytes - off - 45) n), (Nat.ltb_spec (length bytes) (off + 45 + n));
    try lia; [done|].
  destruct (Nat.ltb_spec (length bytes - (off + 45 + n)) 32),
    (Nat.ltb_spec (length bytes) (off + 45 + n + 32)); done || lia.
Qed.

Lemma decode_frame_encode bytes off r :
  record_ok r → slice bytes off (off + length (encode r)) = Some (encode r) →
  decode_frame bytes off = Some (FrameRecord r (off + length (encode r))).
Proof.
  intros (Hseq & Hlen & Hdig) Hs.
  assert (Hh : slice bytes off (off + 45) = Some (header r)).
  { rewrite <-(Nat.add_0_r off) at 1. eapply slice_sub; [exact Hs|].
    rewrite encode_header. apply (slice_app []); [done|by rewrite length_header]. }
  assert (Hp : slice bytes (off + 45) (off + 45 + length (jr_payload r)) = Some (jr_payload r)).
  { rewrite <-Nat.add_assoc. eapply slice_sub; [exact Hs|]. rewrite encode_header.
    apply slice_app; by rewrite ?length_header. }
  assert (Hd : slice bytes (off + 45 + length (jr_payload r))
                (off + 45 + length (jr_payload r) + 32) = Some (arr_bytes (jr_digest r))).
  { rewrite <-!Nat.add_assoc. eapply slice_sub; [exact Hs|]. rewrite encode_header, app_assoc.
    apply slice_app_tail; rewrite ?length_app, ?length_header, ?length_arr_bytes; lia. }
  rewrite (decode_frame_header bytes off r Hh Hseq Hlen). cbv zeta.
  pose proof Hd as (_ & Hle & _)%slice_Some.
  destruct (Nat.ltb_spec (length bytes) (off + 45 + length (jr_payload r))) as [|_]; [lia|].
  destruct (Nat.ltb_spec (length bytes) (off + 45 + length (jr_payload r) + 32)) as [|_]; [lia|].
  rewrite Hp, Hd, length_encode. simpl. rewrite to_array_arr_bytes. simpl.
  rewrite <-Hdig, bool_decide_eq_true_2 by done. simpl.
  destruct r; simpl. f_equal. f_equal. lia.
Qed.

(** Decoding a frame never panics, and a decoded record is exactly the bytes of
    its frame. *)
Lemma decode_frame_sound bytes off :
  off ≤ length bytes →
  ∃ step, decode_frame bytes off = Some step ∧
    ∀ r next, step = FrameRecord r next →
      record_ok r ∧ next = off + length (encode r) ∧
      slice bytes off next = Some (encode r).
Proof.
  intros Hoff. unfold decode_frame.
  destruct (Nat.ltb_spec (length bytes - off) 45) as [|Hrem]; [by eexists|].
  destruct (lookup_lt_is_Some_2 bytes off) as [v Hv]; [lia|].
  destruct (slice_ex bytes (off + 1) (off + 9)) as (sq & Hsq & Lsq); [lia..|].
  destruct (slice_ex bytes (off + 9) (off + 13)) as (ln & Hln & Lln); [lia..|].
  destruct (slice_ex bytes (off + 13) (off + 45)) as (pd & Hpd & Lpd); [lia..|].
  destruct (to_array_length 32 pd) as (pa & Hpa & Epa); [lia|].
  rewrite Hv, Hsq, Hln, Hpd. opt_simpl. rewrite Hpa. opt_simpl.
  case_bool_decide as Hver; opt_simpl; [subst v|by eexists].
  destruct (N.ltb_spec MAX_PAYLOAD_LEN (be_val ln)) as [|Hmax]; [by eexists|].
  destruct (Nat.ltb_spec (length bytes - off - 45) (N.to_nat (be_val ln))) as [|Hr1]; [by eexists|].
  destruct (Nat.ltb_spec (length bytes - (off + 45 + N.to_nat (be_val ln))) 32) as [|Hr2];
    [by eexists|].
  set (n := N.to_nat (be_val ln)) in *.
  destruct (slice_ex bytes (off + 45) (off + 45 + n)) as (pl & Hpl & Lpl); [lia..|].
  destruct (slice_ex bytes (off + 45 + n) (off + 45 + n + 32)) as (dg & Hdg & Ldg); [lia..|].
  destruct (to_array_length 32 dg) as (da & Hda & Eda); [lia|].
  rewrite Hpl, Hdg. opt_simpl. rewrite Hda. opt_simpl.
  case_bool_decide as Hd; opt_simpl; [|by eexists].
  eexists. split; [done|]. intros r next [= <- <-].
  assert (El : N.of_nat (length pl) = be_val ln) by (rewrite Lpl; lia).
  assert (Hval : ∀ m, length m = 8 → in_u64 (be_val m)).
  { intros m Hm. pose proof (be_val_lt m) as Hb. rewrite Hm in Hb. exact Hb. }
  split_and!.
  - unfold record_ok; simpl. split_and!; [apply Hval; lia|by rewrite El|done].
  - rewrite length_encode; simpl. lia.
  - unfold encode; cbn [jr_sequence jr_payload jr_previous_digest jr_digest]. rewrite El.
    replace (be_bytes 8 (be_val sq)) with sq
      by (rewrite <-(be_bytes_be_val sq) at 1; f_equal; lia).
    replace (be_bytes 4 (be_val ln)) with ln
      by (rewrite <-(be_bytes_be_val ln) at 1; f_equal; lia).
    rewrite Epa, Eda.
    assert (H0 : slice bytes off (off + 1) = Some [JOURNAL_VERSION]).
    { apply slice_Some. split_and!; [lia..|].
      rewrite (drop_S _ _ _ Hv). by replace (off + 1 - off) with 1 by lia. }
    repeat (eapply slice_join; [eassumption|]). eassumption.
Qed.

(** ** The loop *)

Lemma decode_loop_record fuel bytes recs off r :
  record_ok r → slice bytes off (off + length (encode r)) = Some (encode r) →
  decode_loop (S fuel) bytes recs off =
  decode_loop fuel bytes (recs ++ [r]) (off + length (encode r)).
Proof.
  intros Hr Hs. pose proof Hs as (_ & Hle & _)%slice_Some. rewrite length_encode in Hle.
  cbn [decode_loop]. destruct (Nat.ltb_spec off (length bytes)) as [_|]; [|lia].
  by rewrite (decode_frame_encode _ _ _ Hr Hs).
Qed.

(** The loop reads the valid records that lie at the offset, whatever follows. *)
Lemma decode_loop_encode_all rs : ∀ fuel pre post recs,
  Forall record_ok rs →
  decode_loop (length rs + fuel) (pre ++ encode_all rs ++ post) recs (length pre) =
  decode_loop fuel (pre ++ encode_all rs ++ post) (recs ++ rs) (length (pre ++ encode_all rs)).
Proof.
  unfold encode_all.
  induction rs as [|r rs IH]; intros fuel pre post recs Hok.
  { simpl. by rewrite !app_nil_r. }
  apply Forall_cons in Hok as [Hr Hok]. cbn [mbind list_bind length].
  rewrite Nat.add_succ_l, (decode_loop_record _ _ _ _ r Hr).
  2: { rewrite <-app_assoc. by apply slice_app. }
  rewrite <-length_app, <-(app_assoc (encode r)), app_assoc, IH by done.
  by rewrite <-!app_assoc.
Qed.

Lemma length_encode_all rs : length rs ≤ length (encode_all rs).
Proof.
  unfold encode_all. induction rs as [|r rs IH]; [done|].
  cbn [mbind list_bind length]. rewrite length_app, length_encode. simpl in *. lia.
Qed.

Lemma decode_encode_all rs post :
  Forall record_ok rs →
  ∃ fuel, fuel = S (length (encode_all rs ++ post)) - length rs ∧ 0 < fuel ∧
  decode (encode_all rs ++ post) =
  decode_loop fuel (encode_all rs ++ post) rs (length (encode_all rs)).
Proof.
  intros Hok. eexists. split; [done|]. unfold decode. pose proof (length_encode_all rs).
  set (n := S (length (encode_all rs ++ post))).
  assert (length rs < n) by (unfold n; rewrite length_app; lia). split; [lia|].
  etransitivity; [|exact (decode_loop_encode_all rs (n - length rs) [] post [] Hok)].
  by replace (length rs + (n - length rs)) with n by lia.
Qed.

Lemma decode_loop_sound fuel : ∀ bytes pre_recs off,
  length bytes < off + fuel → off ≤ length bytes →
  take off bytes = encode_all pre_recs → Forall record_ok pre_recs →
  ∃ o, decode_loop fuel bytes pre_recs off = Some o ∧
    Forall record_ok (outcome_records o) ∧
    match o with
    | Clean rs => bytes = encode_all rs
    | TornTail rs => ∃ rest, bytes = encode_all rs ++ rest ∧ rest ≠ []
    | Corrupt rs offset =>
        ∃ rest, bytes = encode_all rs ++ rest ∧ rest ≠ [] ∧ offset = length (encode_all rs)
    end.
Proof.
  induction fuel as [|fuel IH]; intros bytes recs off Hfuel Hoff Htake Hok; [lia|].
  cbn [decode_loop]. destruct (Nat.ltb_spec off (length bytes)) as [Hlt|Hge].
  2: { eexists. split; [done|]. split; [done|]. by rewrite <-Htake, take_ge. }
  destruct (decode_frame_sound bytes off Hoff) as (step & -> & Hstep). cbn.
  assert (Hrest : ∃ rest, bytes = encode_all recs ++ rest ∧ rest ≠ [] ∧ off = length (encode_all recs)).
  { exists (drop off bytes). rewrite <-Htake, take_drop, length_take. split_and!; [done| |lia].
    intros E%(f_equal length). rewrite length_drop in E. simpl in E. lia. }
  destruct step as [| |r next]; [naive_solver..|].
  destruct (Hstep r next eq_refl) as (Hr & -> & Hs).
  pose proof Hs as (_ & Hle & _)%slice_Some. apply IH; [|done| |].
  - rewrite length_encode. lia.
  - apply slice_split in Hs as (pre & post & -> & -> & _).
    rewrite take_app_length in Htake. subst pre.
    rewrite <-length_app, app_assoc, take_app_length.
    unfold encode_all. by rewrite bind_app; simpl; rewrite app_nil_r.
  - apply Forall_app. split; [done|by apply Forall_singleton].
Qed.

(** ** The digest chain *)

(** The digest the next record links to. *)
Definition last_digest (rs : list JournalRecord) : array 32 :=
  match last rs with Some r => jr_digest r | None => array_fill 32 x00 end.

(** The messages hashed for a chain, by position. *)
Definition chain_messages (rs : list JournalRecord) : list (list byte) :=
  imap (λ i r, digest_message (N.of_nat i) (jr_previous_digest r) (jr_payload r)) rs.

Lemma digest_message_inj s1 s2 p1 p2 m1 m2 :
  in_u64 s1 → in_u64 s2 → digest_message s1 p1 m1 = digest_message s2 p2 m2 →
  s1 = s2 ∧ p1 = p2 ∧ m1 = m2.
Proof.
  intros H1 H2 E. unfold digest_message in E.
  apply app_inj_1 in E as [_ E]; [|done].
  apply app_inj_1 in E as [Es E]; [|by rewrite !length_be_bytes].
  apply app_inj_1 in E as [_ E]; [|by rewrite !length_be_bytes].
  apply app_inj_1 in E as [Ep Em]; [|by rewrite !length_arr_bytes].
  split_and!; [|by apply array_ext|done].
  apply (f_equal be_val) in Es. by rewrite !be_val_be_bytes in Es by done.
Qed.

Lemma verify_link_Ok i prev r :
  verify_link i prev r = Ok () ↔
  jr_sequence r = wrap64 (N.of_nat i) ∧ jr_previous_digest r = jr_digest prev ∧
  jr_digest r = record_digest (jr_sequence r) (jr_previous_digest r) (jr_payload r).
Proof. unfold verify_link. repeat case_bool_decide; simpl; naive_solver. Qed.

Lemma verify_links_snoc rs : ∀ i prev r,
  verify_links i prev (rs ++ [r]) = Ok () ↔
  verify_links i prev rs = Ok () ∧ verify_link (i + length rs) (default prev (last rs)) r = Ok ().
Proof.
  induction rs as [|r0 rs IH]; intros i prev r; cbn [app verify_links length].
  - rewrite Nat.add_0_r. simpl. destruct (verify_link i prev r) as [[]|]; naive_solver.
  - destruct (verify_link i prev r0) as [[]|]; [|naive_solver]. simpl.
    rewrite IH, Nat.add_succ_r. simpl.
    assert (default r0 (last rs) = default prev (last (r0 :: rs))) as ->; [|done].
    rewrite last_cons. by destruct (last rs).
Qed.

Lemma verify_chain_snoc l r :
  in_u64 (N.of_nat (length l)) →
  verify_chain (l ++ [r]) = Ok () ↔
  verify_chain l = Ok () ∧ jr_previous_digest r = last_digest l ∧
  jr_digest r = record_digest (N.of_nat (length l)) (last_digest l) (jr_payload r) ∧
  (l ≠ [] → jr_sequence r = N.of_nat (length l)).
Proof.
  intros Hlen. destruct l as [|r0 l].
  { unfold last_digest; simpl. repeat case_bool_decide; simpl; naive_solver. }
  cbn [app verify_chain]. destruct (negb _ || negb _); [naive_solver|].
  rewrite verify_links_snoc, verify_link_Ok. cbn [Nat.add]. change (S (length l)) with (length (r0 :: l)).
  rewrite (wrap64_small _ Hlen). unfold last_digest. rewrite last_cons.
  assert (Ed : match last l with Some y => Some y | None => Some r0 end =
               Some (default r0 (last l))) by by destruct (last l).
  rewrite Ed. split.
  - intros (? & E1 & E2 & E3). rewrite E1, E2 in E3. auto.
  - intros (? & E2 & E3 & E1). rewrite (E1 ltac:(done)), E2. auto.
Qed.

Lemma last_digest_snoc l r : last_digest (l ++ [r]) = jr_digest r.
Proof. unfold last_digest. by rewrite last_snoc. Qed.

Lemma chain_messages_snoc l r :
  chain_messages (l ++ [r]) =
  chain_messages l ++ [digest_message (N.of_nat (length l)) (jr_previous_digest r) (jr_payload r)].
Proof. unfold chain_messages. rewrite imap_app. simpl. by rewrite Nat.add_0_r. Qed.

Lemma append_all_snoc ps p : ∀ seq prev,
  append_all seq prev (ps ++ [p]) =
  append_all seq prev ps ++
    [JournalRecord_new (seq + N.of_nat (length ps))
       (default prev (jr_digest <$> last (append_all seq prev ps))) p].
Proof.
  induction ps as [|q ps IH]; intros seq prev; cbn [app append_all].
  { simpl. by rewrite N.add_0_r. }
  rewrite IH. cbn [app]. f_equal. f_equal. f_equal. f_equal; [cbn [length]; lia|].
  rewrite last_cons. destruct (last (append_all _ _ ps)); done.
Qed.

Lemma length_append_all ps : ∀ seq prev, length (append_all seq prev ps) = length ps.
Proof. induction ps as [|p ps IH]; intros; simpl; auto. Qed.

Lemma append_all_verifies ps :
  in_u64 (N.of_nat (length ps)) →
  verify_chain (append_all 0 (array_fill 32 x00) ps) = Ok ().
Proof.
  induction ps as [|p ps IH] using rev_ind; intros Hlen; [done|].
  rewrite length_app in Hlen; simpl in Hlen.
  assert (in_u64 (N.of_nat (length ps))) by (unfold in_u64 in *; lia).
  rewrite append_all_snoc, verify_chain_snoc; rewrite length_append_all; [|done].
  split; [by apply IH|]. simpl. unfold last_digest.
  destruct (last (append_all 0 (array_fill 32 x00) ps)); done.
Qed.

Lemma append_all_records_ok ps : ∀ seq prev,
  in_u64 (seq + N.of_nat (length ps)) →
  Forall (λ p, (N.of_nat (length p) ≤ MAX_PAYLOAD_LEN)%N) ps →
  Forall record_ok (append_all seq prev ps).
Proof.
  induction ps as [|p ps IH]; intros seq prev Hseq Hps; simpl; [constructor|].
  apply Forall_cons in Hps as [Hp Hps]. unfold in_u64 in *. cbn [length] in Hseq. constructor.
  - unfold record_ok, in_u64; simpl. split_and!; [lia|done|done].
  - apply IH; [lia|done].
Qed.

(** The outcome of a write cut after [k] bytes of the frame of [r]. *)
Definition torn_outcome (rs : list JournalRecord) (r : JournalRecord) (k : nat) : DecodeOutcome :=
  if k =? 0 then Clean rs
  else if k <? 45 then TornTail rs
  else if k <? 45 + length (jr_payload r) then Corrupt rs (length (encode_all rs))
  else TornTail rs.

Lemma decode_frame_torn pre r k :
  record_ok r → 0 < k → k < length (encode r) →
  decode_frame (pre ++ take k (encode r)) (length pre) =
  Some (if (45 <=? k) && (k <? 45 + length (jr_payload r)) then FrameCorrupt else FrameTorn).
Proof.
  intros (Hseq & Hlen & _) Hk0 Hk.
  assert (Hl : length (pre ++ take k (encode r)) = length pre + k)
    by (rewrite length_app, length_take; lia).
  destruct (Nat.leb_spec 45 k) as [Hge|Hlt].
  2: { unfold decode_frame. rewrite Hl.
       by destruct (Nat.ltb_spec (length pre + k - length pre) 45) as [_|]; [|lia]. }
  assert (Hh : slice (pre ++ take k (encode r)) (length pre) (length pre + 45) = Some (header r)).
  { apply slice_split. exists pre, (drop 45 (take k (encode r))). rewrite length_header.
       split_and!; [|done|done]. f_equal.
       rewrite <-(take_drop 45 (take k (encode r))) at 1. f_equal.
       rewrite take_take, Nat.min_l by lia. rewrite encode_header.
       rewrite <-(length_header r). apply take_app_length. }
  rewrite (decode_frame_header _ _ r Hh Hseq Hlen), Hl. cbv zeta.
  rewrite length_encode in Hk. opt_simpl.
  destruct (Nat.ltb_spec (length pre + k) (length pre + 45 + length (jr_payload r))),
    (Nat.ltb_spec k (45 + length (jr_payload r))); try lia; [done|].
  by destruct (Nat.ltb_spec (length pre + k) (length pre + 45 + length (jr_payload r) + 32)) as [_|];
    [|lia].
Qed.

Lemma decode_torn_write rs r k :
  Forall record_ok rs → record_ok r → k < length (encode r) →
  decode (encode_all rs ++ take k (encode r)) = Some (torn_outcome rs r k) ∧
  outcome_records (torn_outcome rs r k) = rs.
Proof.
  intros Hrs Hr Hk. split; [|unfold torn_outcome; by repeat case_match].
  destruct (decode_encode_all rs (take k (encode r)) Hrs) as (fuel & _ & Hf & ->).
  destruct fuel as [|fuel]; [lia|]. cbn [decode_loop]. unfold torn_outcome.
  rewrite length_app, length_take. destruct (Nat.eqb_spec k 0) as [->|Hk0].
  { by destruct (Nat.ltb_spec (length (encode_all rs)) (length (encode_all rs) + 0 `min` length (encode r))); [lia|]. }
  destruct (Nat.ltb_spec (length (encode_all rs)) (length (encode_all rs) + k `min` length (encode r)));
    [|lia].
  rewrite decode_frame_torn by (done || lia).
  destruct (Nat.leb_spec 45 k), (Nat.ltb_spec k 45); try lia; simpl; [|done].
  by destruct (k <? S _).
Qed.

(** Whole frames decode without remainder. *)
Lemma decode_clean rs : Forall record_ok rs → decode (encode_all rs) = Some (Clean rs).
Proof.
  intros Hok. destruct (decode_encode_all rs [] Hok) as (fuel & _ & Hf & E). rewrite app_nil_r in E.
  rewrite E. destruct fuel; [lia|]. cbn [decode_loop].
  by destruct (Nat.ltb_spec (length (encode_all rs)) (length (encode_all rs))); [lia|].
Qed.

(** ** Properties *)

(** Appending payloads and reading the file back gives the journal: the
    records built by [JournalRecord::new] one after the other, each linked to the
    digest of the one before, are decoded from their concatenated frames without
    loss, and their chain verifies. *)
Theorem journal_append_recover payloads :
  in_u64 (N.of_nat (length payloads)) →
  Forall (λ p, (N.of_nat (length p) ≤ MAX_PAYLOAD_LEN)%N) payloads →
  let rs := append_all 0 (array_fill 32 x00) payloads in
  jr_payload <$> rs = payloads ∧
  decode (encode_all rs) = Some (Clean rs) ∧ verify_chain rs = Ok ().
Proof.
  intros Hlen Hps rs. split_and!; [|..|by apply append_all_verifies].
  - unfold rs. clear. generalize 0%N (array_fill 32 x00).
    induction payloads as [|p ps IH]; intros seq prev; [done|]. csimpl. by rewrite IH.
  - by apply decode_clean, append_all_records_ok.
Qed.


(** Decoding is total and never invents or skips a record: on any bytes it
    returns an outcome without panicking, every record of it has fields in range
    and a digest that verifies, and re-encoding the records gives back exactly the
    leading bytes of the file, all of them when the outcome is [Clean], up to the
    reported offset when it is [Corrupt]. *)
Theorem journal_decode_sound bytes :
  ∃ o, decode bytes = Some o ∧ Forall record_ok (outcome_records o) ∧
    match o with
    | Clean rs => bytes = encode_all rs
    | TornTail rs => ∃ rest, bytes = encode_all rs ++ rest ∧ rest ≠ []
    | Corrupt rs offset =>
        ∃ rest, bytes = encode_all rs ++ rest ∧ rest ≠ [] ∧ offset = length (encode_all rs)
    end.
Proof. apply decode_loop_sound; simpl; [lia|lia|done|constructor]. Qed.

(** The chain commits to the whole journal: two journals that both verify and
    end in the same digest have the same length and the same payloads and links,
    provided the hash does not collide on the messages of the two journals. *)
Theorem journal_chain_commits rs1 rs2 :
  verify_chain rs1 = Ok () → verify_chain rs2 = Ok () →
  in_u64 (N.of_nat (length rs1)) → in_u64 (N.of_nat (length rs2)) →
  rs1 ≠ [] → rs2 ≠ [] → last_digest rs1 = last_digest rs2 →
  (∀ x y, x ∈ chain_messages rs1 → y ∈ chain_messages rs2 → sha256 x = sha256 y → x = y) →
  (λ r, (jr_payload r, jr_previous_digest r, jr_digest r)) <$> rs1 =
  (λ r, (jr_payload r, jr_previous_digest r, jr_digest r)) <$> rs2.
Proof.
  revert rs2. induction rs1 as [|r1 l1 IH] using rev_ind; [done|].
  intros rs2. destruct rs2 as [|r2 l2 _] using rev_ind; [done|].
  intros Hv1 Hv2 Hl1 Hl2 _ _. rewrite !last_digest_snoc, !chain_messages_snoc. intros Hd Hinj.
  rewrite length_app in Hl1, Hl2; simpl in Hl1, Hl2. unfold in_u64 in *.
  apply verify_chain_snoc in Hv1 as (Hv1 & Hp1 & Hd1 & _); [|unfold in_u64; lia].
  apply verify_chain_snoc in Hv2 as (Hv2 & Hp2 & Hd2 & _); [|unfold in_u64; lia].
  assert (E := Hd). rewrite Hd1, Hd2, <-Hp1, <-Hp2 in E.
  apply Hinj, digest_message_inj in E as (En & Ep & Em);
    [..|set_solver|set_solver]; [|unfold in_u64; lia..].
  rewrite !fmap_app. f_equal; [|csimpl; by rewrite Ep, Em, Hd].
  assert (El : length l1 = length l2) by lia.
  destruct (decide (l1 = [])) as [->|Hne]; [by destruct l2|].
  apply IH; try done; try lia.
  - intros ->. by destruct l1.
  - congruence.
  - intros x y Hx Hy. apply Hinj; set_solver.
Qed.
End journal.

(** ** Concrete journals *)

(** A stand-in hash: the message as a numeral in base 257, modulo 2^256. *)
Definition toy_sha256 (l : list byte) : array 32 :=
  default (array_fill 32 x00)
    (to_array 32 (be_bytes 32 (foldl (λ a b, a * 257 + byte_val b + 1)%N 0%N l))).

Definition sample_journal : list JournalRecord :=
  append_all toy_sha256 0 (array_fill 32 x00) [[x61; x62]; []; [x63]].

Lemma sample_journal_ok : Forall (record_ok toy_sha256) sample_journal.
Proof. apply append_all_records_ok; [done|]. repeat constructor; done. Qed.

Lemma journal_append_recover_witness :
  decode toy_sha256 (encode_all sample_journal) = Some (Clean sample_journal).
Proof.
  apply (journal_append_recover toy_sha256 [[x61; x62]; []; [x63]]);
    [reflexivity|repeat constructor; vm_compute; discriminate].
Defined.


(** The same journal with another number on its first record: [verify_chain]
    hashes that record with sequence 0 whatever number it carries. *)
Definition renumbered_journal : list JournalRecord :=
  match sample_journal with
  | r :: rs => MkJournalRecord 7 (jr_payload r) (jr_previous_digest r) (jr_digest r) :: rs
  | [] => []
  end.

Lemma journal_chain_commits_witness :
  (λ r, (jr_payload r, jr_previous_digest r, jr_digest r)) <$> sample_journal =
  (λ r, (jr_payload r, jr_previous_digest r, jr_digest r)) <$> renumbered_journal.
Proof.
  apply (journal_chain_commits toy_sha256); try (vm_compute; (reflexivity || discriminate)).
  change (chain_messages renumbered_journal) with (chain_messages sample_journal).
  intros x y Hx Hy.
  assert (Hm : NoDup (toy_sha256 <$> chain_messages sample_journal))
    by (refine (bool_decide_unpack _ _); vm_compute; exact I).
  apply list_elem_of_lookup in Hx as [i Hi], Hy as [j Hj]. intros E.
  assert (i = j) as ->; [|congruence].
  eapply NoDup_lookup; [exact Hm|rewrite list_lookup_fmap, Hi; reflexivity|].
  rewrite list_lookup_fmap, Hj, E. reflexivity.
Defined.

(** The chain check accepts a first record that is not numbered 0. *)
Example verify_chain_ignores_first_sequence :
  verify_chain toy_sha256 renumbered_journal = Ok () ∧
  (jr_sequence <$> head renumbered_journal) = Some 7%N.
Proof. split; vm_compute; reflexivity. Qed.
