(* ===== verification/Admission.v ===== *)
(** * Admission records and their codec

    [admission.rs] of the resource crate: the durable admission records, and
    [encode_record]/[decode_record], which carry them through the payload of the
    journal as one version byte and a JSON text.

    The JSON text and the text of a uuid are other crates' ([serde_json], [uuid]):
    they are the section variables [to_vec], [from_slice], [uuid_str] and
    [parse_str]. A type that derives both [Serialize] and [Deserialize] is an
    instance of the class [Serde], whose law is the round trip serde documents; for
    the types that derive [Serialize] only, the [ser_*] functions write out the
    derived representation (a struct is an object keyed by its field names, an enum
    is externally tagged, a newtype is its content), and the [re_*] functions are the
    hand-written decoders of the source. *)

From Stdlib Require Import NArith ZArith Strings.Byte Lia.
From S2P Require Import Prelude Identity Model Samples Journal.

#[local] Set Warnings "-register-all".

(** ** Records *)

(** resource/admission.rs:30-37 [MutationKind] *)
Inductive MutationKind :=
  | MK_External (method : OperationMethod)
  | MK_Retirement.

(** resource/admission.rs:39-46 [AuthorizationSubject] *)
Inductive AuthorizationSubject :=
  | LiveOwnershipTokenDigest (digest : TokenDigest)
  | RecoveryAuthority (id : RetirementOperationId).

(** resource/admission.rs:48-50 [AppliedFingerprint] *)
Record AppliedFingerprint := MkAppliedFingerprint { AppliedFingerprint_0 : Digest }.
(** resource/admission.rs:59-61 [ObligationSeed] *)
Record ObligationSeed := MkObligationSeed { ObligationSeed_0 : Digest }.

(** resource/admission.rs:70-87 [MutationAdmitted] *)
Record MutationAdmitted := MkMutationAdmitted {
  ma_mutation_kind : MutationKind;
  ma_journal_operation_identity : JournalOperationIdentity;
  ma_effect_id : EffectId;
  ma_canonical_input_digest : CanonicalInputDigest;
  ma_initiator_identity_digest : PrincipalDigest;
  ma_authority_epoch : AuthorityEpoch;
  ma_platform_authority_instance_id : PlatformAuthorityInstanceId;
  ma_admission_watermark : AdmissionWatermark;
  ma_ownership_version : OwnershipVersion;
  ma_authorization_subject : AuthorizationSubject;
  ma_resource_identity : ResourceIdentityDigest;
  ma_precondition_fingerprint : AppliedFingerprint;
  ma_desired_applied_fingerprint : AppliedFingerprint;
  ma_canonical_obligation_seed : ObligationSeed;
}.

(** resource/admission.rs:89-97 [OperationRejected] *)
Record OperationRejected := MkOperationRejected {
  or_lookup_key : OperationLookupKey;
  or_request_digest : RequestDigest;
  or_authority_epoch : AuthorityEpoch;
  or_rejection_reason : RejectionReason;
  or_admission_watermark : AdmissionWatermark;
}.

(** resource/admission.rs:99-106 [OperationAbsentFence] *)
Record OperationAbsentFence := MkOperationAbsentFence {
  oaf_lookup_key : OperationLookupKey;
  oaf_request_digest : RequestDigest;
  oaf_authority_epoch : AuthorityEpoch;
  oaf_admission_watermark : AdmissionWatermark;
}.

(** resource/admission.rs:108-114 [AdmissionRecord] *)
Inductive AdmissionRecord :=
  | AR_Admitted (r : MutationAdmitted)
  | AR_Rejected (r : OperationRejected)
  | AR_AbsentFence (r : OperationAbsentFence).

(** resource/admission.rs:116-123 [AdmissionCodecError] *)
Inductive AdmissionCodecError := UnsupportedVersion | CodecCorrupt.

(** resource/admission.rs:125-126 [ADMISSION_RECORD_VERSION] *)
Definition ADMISSION_RECORD_VERSION : byte := x01.

#[export] Instance MutationKind_eq_dec : EqDecision MutationKind. Proof. solve_decision. Defined.
#[export] Instance AuthorizationSubject_eq_dec : EqDecision AuthorizationSubject. Proof. solve_decision. Defined.
#[export] Instance AppliedFingerprint_eq_dec : EqDecision AppliedFingerprint. Proof. solve_decision. Defined.
#[export] Instance ObligationSeed_eq_dec : EqDecision ObligationSeed. Proof. solve_decision. Defined.
#[export] Instance MutationAdmitted_eq_dec : EqDecision MutationAdmitted. Proof. solve_decision. Defined.
#[export] Instance OperationRejected_eq_dec : EqDecision OperationRejected. Proof. solve_decision. Defined.
#[export] Instance OperationAbsentFence_eq_dec : EqDecision OperationAbsentFence. Proof. solve_decision. Defined.
#[export] Instance AdmissionRecord_eq_dec : EqDecision AdmissionRecord. Proof. solve_decision. Defined.
#[export] Instance AdmissionCodecError_eq_dec : EqDecision AdmissionCodecError. Proof. solve_decision. Defined.

(** ** JSON values *)

(** [serde_json::Value]; a number is an unsigned, a negative or a float number. *)
Inductive Value :=
  | V_Null
  | V_Bool (b : bool)
  | V_U64 (n : N)
  | V_I64 (z : Z)
  | V_F64 (bits : N)
  | V_String (s : string)
  | V_Array (items : list Value)
  | V_Object (members : gmap string Value).

(** [Value::as_u64], [as_array], [as_str], [as_object] and [get]. *)
Definition as_u64 (v : Value) : option N := match v with V_U64 n => Some n | _ => None end.
Definition as_array (v : Value) : option (list Value) :=
  match v with V_Array l => Some l | _ => None end.
Definition as_str (v : Value) : option string := match v with V_String s => Some s | _ => None end.
Definition as_object (v : Value) : option (gmap string Value) :=
  match v with V_Object m => Some m | _ => None end.
Definition get (v : Value) (key : string) : option Value := as_object v ≫= lookup key.

(** An object from its members. *)
Definition obj (l : list (string * Value)) : Value := V_Object (list_to_map l).
Fixpoint member (key : string) (l : list (string * Value)) : option Value :=
  match l with
  | [] => None
  | (k, v) :: l => if String.eqb key k then Some v else member key l
  end.

Lemma list_to_map_member (l : list (string * Value)) key :
  (list_to_map l : gmap string Value) !! key = member key l.
Proof.
  induction l as [|[k v] l IH]; [apply lookup_empty|]. cbn [list_to_map member].
  destruct (String.eqb_spec key k) as [->|Hne]; simpl.
  - by rewrite lookup_insert_eq.
  - by rewrite lookup_insert_ne.
Qed.

Lemma get_obj l key : get (obj l) key = member key l.
Proof. apply list_to_map_member. Qed.

(** A type that derives both [Serialize] and [Deserialize]. *)
Class Serde (A : Type) := {
  to_value : A → Value;
  from_value : Value → option A;
  from_to_value : ∀ a, from_value (to_value a) = Some a;
}.

Definition corrupt {A} (o : option A) : result AdmissionCodecError A := ok_or o CodecCorrupt.
Definition corrupt_err {E A} (r : result E A) : result AdmissionCodecError A :=
  map_err (λ _, CodecCorrupt) r.

(** ** Value primitives *)

(** resource/admission.rs:173-175 [v_u64] *)
Definition v_u64 (v : Value) : result AdmissionCodecError N := corrupt (as_u64 v).

(** The loop over the 32 slots and the items: it ends with the shorter of the two
    and stops at the first item that is not an unsigned number. *)
Fixpoint fill_slots (slots : list byte) (items : list Value) : result AdmissionCodecError (list byte) :=
  match slots, items with
  | _ :: slots, item :: items =>
      n ← corrupt (as_u64 item);
      rest ← fill_slots slots items;
      Ok (byte_of_N n :: rest)
  | _, _ => Ok slots
  end.

(** resource/admission.rs:177-184 [v_u8arr32] *)
Definition v_u8arr32 (v : Value) : result AdmissionCodecError Digest :=
  arr ← corrupt (as_array v);
  out ← fill_slots (replicate 32 x00) arr;
  corrupt (to_array 32 out).

(** resource/admission.rs:191-199 [v_opt] *)
Definition v_opt (v : Value) (key : string) : result AdmissionCodecError (option Value) :=
  match get v key with
  | Some V_Null | None => Ok None
  | Some val => Ok (Some val)
  end.

(** [v.get(key).ok_or(Corrupt)?] and [serde_json::from_value(..).map_err(..)?]. *)
Definition field (v : Value) (key : string) : result AdmissionCodecError Value := corrupt (get v key).
Definition de {A} `{Serde A} (v : Value) : result AdmissionCodecError A := corrupt (from_value v).

(** resource/admission.rs:203-205 [re_authority_epoch] *)
Definition re_authority_epoch (v : Value) : result AdmissionCodecError AuthorityEpoch :=
  n ← v_u64 v; corrupt_err (AuthorityEpoch_try_from n).
(** resource/admission.rs:213-215 [re_admission_watermark] *)
Definition re_admission_watermark (v : Value) : result AdmissionCodecError AdmissionWatermark :=
  n ← v_u64 v; corrupt_err (AdmissionWatermark_try_from n).
(** resource/admission.rs:217-219 [re_journal_revision] *)
Definition re_journal_revision (v : Value) : result AdmissionCodecError JournalRevision :=
  n ← v_u64 v; corrupt_err (JournalRevision_try_from n).
(** resource/admission.rs:221-223 [re_ownership_version] *)
Definition re_ownership_version (v : Value) : result AdmissionCodecError OwnershipVersion :=
  n ← v_u64 v; corrupt_err (OwnershipVersion_try_from n).
(** resource/admission.rs:225-227 [re_digest] *)
Definition re_digest {T} (mk : Digest → T) (v : Value) : result AdmissionCodecError T :=
  d ← v_u8arr32 v; corrupt_err (digest_try_from mk d).

Section codec.
Variable uuid_str : Uuid → string.
Variable parse_str : string → option Uuid.
Variable to_vec : Value → list byte.
Variable from_slice : list byte → option Value.
Context `{!Serde OperationMethod, !Serde MutationKind, !Serde ResourceKind,
  !Serde NativeErrorCategory, !Serde NativeErrorNamespace, !Serde NativeErrorCode,
  !Serde ErrorCode, !Serde ErrorStage, !Serde EffectCertainty, !Serde RetryAdvice,
  !Serde AppliedFingerprint, !Serde ObligationSeed}.

(** resource/admission.rs:186-189 [v_uuid] *)
Definition v_uuid (v : Value) : result AdmissionCodecError Uuid :=
  s ← corrupt (as_str v); corrupt (parse_str s).

(** resource/admission.rs:207-211 [re_platform_instance] *)
Definition re_platform_instance (v : Value) : result AdmissionCodecError PlatformAuthorityInstanceId :=
  u ← v_uuid v; corrupt_err (PlatformAuthorityInstanceId_try_from u).
(** resource/admission.rs:229-231 [re_effect_id] *)
Definition re_effect_id (v : Value) : result AdmissionCodecError EffectId :=
  u ← v_uuid v; corrupt_err (EffectId_try_from u).
(** resource/admission.rs:233-235 [re_retirement_id] *)
Definition re_retirement_id (v : Value) : result AdmissionCodecError RetirementOperationId :=
  u ← v_uuid v; corrupt_err (RetirementOperationId_try_from u).
(** resource/admission.rs:237-239 [re_runtime_epoch] *)
Definition re_runtime_epoch (v : Value) : result AdmissionCodecError RuntimeEpoch :=
  u ← v_uuid v; corrupt_err (RuntimeEpoch_try_from u).
(** resource/admission.rs:241-243 [re_operation_id] *)
Definition re_operation_id (v : Value) : result AdmissionCodecError OperationId :=
  u ← v_uuid v; corrupt_err (OperationId_try_from u).
(** resource/admission.rs:245-247 [re_attempt_id] *)
Definition re_attempt_id (v : Value) : result AdmissionCodecError AttemptId :=
  u ← v_uuid v; corrupt_err (AttemptId_try_from u).
(** resource/admission.rs:249-251 [re_recovery_id] *)
Definition re_recovery_id (v : Value) : result AdmissionCodecError RecoveryId :=
  u ← v_uuid v; corrupt_err (RecoveryId_try_from u).

(** resource/admission.rs:253-272 [re_operation_lookup_key] *)
Definition re_operation_lookup_key (v : Value) : result AdmissionCodecError OperationLookupKey :=
  pd ← field v "principal_digest";
  principal_digest ← re_digest MkPrincipalDigest pd;
  m ← field v "method";
  method ← de m;
  re ← field v "runtime_epoch";
  runtime_epoch ← re_runtime_epoch re;
  oi ← field v "operation_id";
  operation_id ← re_operation_id oi;
  corrupt_err (OperationLookupKey_try_from principal_digest method runtime_epoch operation_id).

(** resource/admission.rs:274-285 [re_journal_op_identity] *)
Definition re_journal_op_identity (v : Value) : result AdmissionCodecError JournalOperationIdentity :=
  o ← corrupt (as_object v);
  match o !! "External" with
  | Some ext => JOI_External <$> re_operation_lookup_key ext
  | None =>
      match o !! "Retirement" with
      | Some ret => JOI_Retirement <$> re_retirement_id ret
      | None => Err CodecCorrupt
      end
  end.

(** resource/admission.rs:287-302 [re_opaque_resource_ref] *)
Definition re_opaque_resource_ref (v : Value) : result AdmissionCodecError OpaqueResourceRef :=
  k ← field v "kind";
  kind ← de k;
  id ← field v "identity_digest";
  identity_digest ← re_digest MkResourceIdentityDigest id;
  corrupt_err (OpaqueResourceRef_try_from kind identity_digest).

(** resource/admission.rs:304-325 [re_redacted_native_error] *)
Definition re_redacted_native_error (v : Value) : result AdmissionCodecError RedactedNativeError :=
  ca ← field v "category";
  category ← de ca;
  ns ← field v "namespace";
  namespace ← de ns;
  co ← field v "code";
  code ← de co;
  corrupt_err (RedactedNativeError_try_from category namespace code).

(** resource/admission.rs:327-362 [re_error_subject] *)
Definition re_error_subject (v : Value) : result AdmissionCodecError ErrorSubject :=
  o ← corrupt (as_object v);
  match o !! "External" with
  | Some ext => Subject_External <$> re_operation_lookup_key ext
  | None =>
  match o !! "Attempt" with
  | Some attempt =>
      ao ← corrupt (as_object attempt);
      e ← corrupt (ao !! "runtime_epoch");
      runtime_epoch ← re_runtime_epoch e;
      a ← corrupt (ao !! "attempt_id");
      attempt_id ← re_attempt_id a;
      Ok (Subject_Attempt runtime_epoch attempt_id)
  | None =>
  match o !! "Effect" with
  | Some effect =>
      eo ← corrupt (as_object effect);
      e ← corrupt (eo !! "runtime_epoch");
      runtime_epoch ← re_runtime_epoch e;
      a ← corrupt (eo !! "attempt_id");
      attempt_id ← re_attempt_id a;
      f ← corrupt (eo !! "effect_id");
      effect_id ← re_effect_id f;
      Ok (Subject_Effect runtime_epoch attempt_id effect_id)
  | None =>
  match o !! "Retirement" with
  | Some ret => Subject_Retirement <$> re_retirement_id ret
  | None =>
  match o !! "Recovery" with
  | Some rec => Subject_Recovery <$> re_recovery_id rec
  | None =>
  match o !! "Runtime" with
  | Some runtime => Subject_Runtime <$> re_runtime_epoch runtime
  | None => Err CodecCorrupt
  end end end end end end.

(** resource/admission.rs:364-394 [re_vpn_error] *)
Definition re_vpn_error (v : Value) : result AdmissionCodecError VpnError :=
  c ← field v "code"; code ← de c;
  st ← field v "stage"; stage ← de st;
  ce ← field v "certainty"; certainty ← de ce;
  rt ← field v "retry"; retry ← de rt;
  su ← field v "subject"; subject ← re_error_subject su;
  r ← v_opt v "resource";
  resource ← match r with
             | Some r => Some <$> re_opaque_resource_ref r
             | None => Ok None
             end;
  n ← v_opt v "native";
  native ← match n with
           | Some n => Some <$> re_redacted_native_error n
           | None => Ok None
           end;
  corrupt_err (VpnError_try_from code stage certainty retry subject resource native).

(** resource/admission.rs:396-415 [re_authority_fence] *)
Definition re_authority_fence (v : Value) : result AdmissionCodecError AuthorityFence :=
  e ← field v "authority_epoch"; authority_epoch ← re_authority_epoch e;
  p ← field v "platform_authority_instance_id"; instance ← re_platform_instance p;
  w ← field v "admission_watermark"; watermark ← re_admission_watermark w;
  j ← field v "journal_revision"; revision ← re_journal_revision j;
  Ok (MkAuthorityFence authority_epoch instance watermark revision).

(** resource/admission.rs:417-425 [re_rejection_reason] *)
Definition re_rejection_reason (v : Value) : result AdmissionCodecError RejectionReason :=
  e ← field v "error"; error ← re_vpn_error e;
  f ← field v "authority_fence"; authority_fence ← re_authority_fence f;
  Ok (MkRejectionReason error authority_fence).

(** resource/admission.rs:427-440 [re_authorization_subject] *)
Definition re_authorization_subject (v : Value) : result AdmissionCodecError AuthorizationSubject :=
  o ← corrupt (as_object v);
  match o !! "LiveOwnershipTokenDigest" with
  | Some t => LiveOwnershipTokenDigest <$> re_digest MkTokenDigest t
  | None =>
      match o !! "RecoveryAuthority" with
      | Some r => RecoveryAuthority <$> re_retirement_id r
      | None => Err CodecCorrupt
      end
  end.

(** resource/admission.rs:442-506 [re_mutation_admitted] *)
Definition re_mutation_admitted (v : Value) : result AdmissionCodecError MutationAdmitted :=
  x ← field v "mutation_kind"; mutation_kind ← de x;
  x ← field v "journal_operation_identity"; identity ← re_journal_op_identity x;
  x ← field v "effect_id"; effect_id ← re_effect_id x;
  x ← field v "canonical_input_digest"; input_digest ← re_digest MkCanonicalInputDigest x;
  x ← field v "initiator_identity_digest"; initiator ← re_digest MkPrincipalDigest x;
  x ← field v "authority_epoch"; authority_epoch ← re_authority_epoch x;
  x ← field v "platform_authority_instance_id"; instance ← re_platform_instance x;
  x ← field v "admission_watermark"; watermark ← re_admission_watermark x;
  x ← field v "ownership_version"; version ← re_ownership_version x;
  x ← field v "authorization_subject"; subject ← re_authorization_subject x;
  x ← field v "resource_identity"; resource ← re_digest MkResourceIdentityDigest x;
  x ← field v "precondition_fingerprint"; precondition ← de x;
  x ← field v "desired_applied_fingerprint"; desired ← de x;
  x ← field v "canonical_obligation_seed"; seed ← de x;
  Ok (MkMutationAdmitted mutation_kind identity effect_id input_digest initiator
        authority_epoch instance watermark version subject resource precondition desired seed).

(** resource/admission.rs:508-530 [re_operation_rejected] *)
Definition re_operation_rejected (v : Value) : result AdmissionCodecError OperationRejected :=
  x ← field v "lookup_key"; key ← re_operation_lookup_key x;
  x ← field v "request_digest"; digest ← re_digest MkRequestDigest x;
  x ← field v "authority_epoch"; authority_epoch ← re_authority_epoch x;
  x ← field v "rejection_reason"; reason ← re_rejection_reason x;
  x ← field v "admission_watermark"; watermark ← re_admission_watermark x;
  Ok (MkOperationRejected key digest authority_epoch reason watermark).

(** resource/admission.rs:532-552 [re_operation_absent_fence] *)
Definition re_operation_absent_fence (v : Value) : result AdmissionCodecError OperationAbsentFence :=
  x ← field v "lookup_key"; key ← re_operation_lookup_key x;
  x ← field v "request_digest"; digest ← re_digest MkRequestDigest x;
  x ← field v "authority_epoch"; authority_epoch ← re_authority_epoch x;
  x ← field v "admission_watermark"; watermark ← re_admission_watermark x;
  Ok (MkOperationAbsentFence key digest authority_epoch watermark).

(** ** The derived representation *)

Definition ser_uuid (u : Uuid) : Value := V_String (uuid_str u).
Definition ser_digest (d : Digest) : Value := V_Array (V_U64 ∘ byte_val <$> arr_bytes d).

Definition ser_operation_lookup_key (k : OperationLookupKey) : Value :=
  obj [("principal_digest", ser_digest (PrincipalDigest_0 (olk_principal_digest k)));
       ("method", to_value (olk_method k));
       ("runtime_epoch", ser_uuid (RuntimeEpoch_0 (olk_runtime_epoch k)));
       ("operation_id", ser_uuid (OperationId_0 (olk_operation_id k)))].

Definition ser_journal_op_identity (i : JournalOperationIdentity) : Value :=
  match i with
  | JOI_External k => obj [("External", ser_operation_lookup_key k)]
  | JOI_Retirement r => obj [("Retirement", ser_uuid (RetirementOperationId_0 r))]
  end.

Definition ser_opaque_resource_ref (r : OpaqueResourceRef) : Value :=
  obj [("kind", to_value (orr_kind r));
       ("identity_digest", ser_digest (ResourceIdentityDigest_0 (orr_identity_digest r)))].

Definition ser_redacted_native_error (e : RedactedNativeError) : Value :=
  obj [("category", to_value (rne_category e)); ("namespace", to_value (rne_namespace e));
       ("code", to_value (rne_code e))].

Definition ser_error_subject (s : ErrorSubject) : Value :=
  match s with
  | Subject_External k => obj [("External", ser_operation_lookup_key k)]
  | Subject_Attempt e a =>
      obj [("Attempt", obj [("runtime_epoch", ser_uuid (RuntimeEpoch_0 e));
                            ("attempt_id", ser_uuid (AttemptId_0 a))])]
  | Subject_Effect e a f =>
      obj [("Effect", obj [("runtime_epoch", ser_uuid (RuntimeEpoch_0 e));
                           ("attempt_id", ser_uuid (AttemptId_0 a));
                           ("effect_id", ser_uuid (EffectId_0 f))])]
  | Subject_Retirement r => obj [("Retirement", ser_uuid (RetirementOperationId_0 r))]
  | Subject_Recovery r => obj [("Recovery", ser_uuid (RecoveryId_0 r))]
  | Subject_Runtime e => obj [("Runtime", ser_uuid (RuntimeEpoch_0 e))]
  end.

Definition ser_option {A} (f : A → Value) (o : option A) : Value :=
  match o with Some a => f a | None => V_Null end.

Definition ser_vpn_error (e : VpnError) : Value :=
  obj [("code", to_value (err_code e)); ("stage", to_value (err_stage e));
       ("certainty", to_value (err_certainty e)); ("retry", to_value (err_retry e));
       ("subject", ser_error_subject (err_subject e));
       ("resource", ser_option ser_opaque_resource_ref (err_resource e));
       ("native", ser_option ser_redacted_native_error (err_native e))].

Definition ser_authority_fence (f : AuthorityFence) : Value :=
  obj [("authority_epoch", V_U64 (AuthorityEpoch_0 (af_authority_epoch f)));
       ("platform_authority_instance_id",
          ser_uuid (PlatformAuthorityInstanceId_0 (af_platform_authority_instance_id f)));
       ("admission_watermark", V_U64 (AdmissionWatermark_0 (af_admission_watermark f)));
       ("journal_revision", V_U64 (JournalRevision_0 (af_journal_revision f)))].

Definition ser_rejection_reason (r : RejectionReason) : Value :=
  obj [("error", ser_vpn_error (rr_error r));
       ("authority_fence", ser_authority_fence (rr_authority_fence r))].

Definition ser_authorization_subject (s : AuthorizationSubject) : Value :=
  match s with
  | LiveOwnershipTokenDigest d => obj [("LiveOwnershipTokenDigest", ser_digest (TokenDigest_0 d))]
  | RecoveryAuthority r => obj [("RecoveryAuthority", ser_uuid (RetirementOperationId_0 r))]
  end.

Definition ser_mutation_admitted (r : MutationAdmitted) : Value :=
  obj [("mutation_kind", to_value (ma_mutation_kind r));
       ("journal_operation_identity", ser_journal_op_identity (ma_journal_operation_identity r));
       ("effect_id", ser_uuid (EffectId_0 (ma_effect_id r)));
       ("canonical_input_digest", ser_digest (CanonicalInputDigest_0 (ma_canonical_input_digest r)));
       ("initiator_identity_digest", ser_digest (PrincipalDigest_0 (ma_initiator_identity_digest r)));
       ("authority_epoch", V_U64 (AuthorityEpoch_0 (ma_authority_epoch r)));
       ("platform_authority_instance_id",
          ser_uuid (PlatformAuthorityInstanceId_0 (ma_platform_authority_instance_id r)));
       ("admission_watermark", V_U64 (AdmissionWatermark_0 (ma_admission_watermark r)));
       ("ownership_version", V_U64 (OwnershipVersion_0 (ma_ownership_version r)));
       ("authorization_subject", ser_authorization_subject (ma_authorization_subject r));
       ("resource_identity", ser_digest (ResourceIdentityDigest_0 (ma_resource_identity r)));
       ("precondition_fingerprint", to_value (ma_precondition_fingerprint r));
       ("desired_applied_fingerprint", to_value (ma_desired_applied_fingerprint r));
       ("canonical_obligation_seed", to_value (ma_canonical_obligation_seed r))].

Definition ser_operation_rejected (r : OperationRejected) : Value :=
  obj [("lookup_key", ser_operation_lookup_key (or_lookup_key r));
       ("request_digest", ser_digest (RequestDigest_0 (or_request_digest r)));
       ("authority_epoch", V_U64 (AuthorityEpoch_0 (or_authority_epoch r)));
       ("rejection_reason", ser_rejection_reason (or_rejection_reason r));
       ("admission_watermark", V_U64 (AdmissionWatermark_0 (or_admission_watermark r)))].

Definition ser_operation_absent_fence (r : OperationAbsentFence) : Value :=
  obj [("lookup_key", ser_operation_lookup_key (oaf_lookup_key r));
       ("request_digest", ser_digest (RequestDigest_0 (oaf_request_digest r)));
       ("authority_epoch", V_U64 (AuthorityEpoch_0 (oaf_authority_epoch r)));
       ("admission_watermark", V_U64 (AdmissionWatermark_0 (oaf_admission_watermark r)))].

Definition ser_record (r : AdmissionRecord) : Value :=
  match r with
  | AR_Admitted r => obj [("Admitted", ser_mutation_admitted r)]
  | AR_Rejected r => obj [("Rejected", ser_operation_rejected r)]
  | AR_AbsentFence r => obj [("AbsentFence", ser_operation_absent_fence r)]
  end.

(** ** The codec *)

(** resource/admission.rs:128-141 [encode_record] *)
Definition encode_record (record : AdmissionRecord) : list byte :=
  ADMISSION_RECORD_VERSION :: to_vec (ser_record record).

(** resource/admission.rs:143-169 [decode_record] *)
Definition decode_record (payload : list byte) : result AdmissionCodecError AdmissionRecord :=
  match payload with
  | [] => Err CodecCorrupt
  | version :: rest =>
      if negb (bool_decide (version = ADMISSION_RECORD_VERSION)) then Err UnsupportedVersion
      else
        v ← corrupt (from_slice rest);
        o ← corrupt (as_object v);
        match o !! "Admitted" with
        | Some x => AR_Admitted <$> re_mutation_admitted x
        | None =>
        match o !! "Rejected" with
        | Some x => AR_Rejected <$> re_operation_rejected x
        | None =>
        match o !! "AbsentFence" with
        | Some x => AR_AbsentFence <$> re_operation_absent_fence x
        | None => Err CodecCorrupt
        end end end
  end.

(** ** Well-formed records: what the validating constructors accept *)

Definition key_ok (k : OperationLookupKey) : Prop :=
  RuntimeEpoch_0 (olk_runtime_epoch k) ≠ Uuid_nil ∧ OperationId_0 (olk_operation_id k) ≠ Uuid_nil.
Definition identity_ok (i : JournalOperationIdentity) : Prop :=
  match i with
  | JOI_External k => key_ok k
  | JOI_Retirement r => RetirementOperationId_0 r ≠ Uuid_nil
  end.
Definition subject_ok (s : ErrorSubject) : Prop :=
  match s with
  | Subject_External k => key_ok k
  | Subject_Attempt e a => RuntimeEpoch_0 e ≠ Uuid_nil ∧ AttemptId_0 a ≠ Uuid_nil
  | Subject_Effect e a f =>
      RuntimeEpoch_0 e ≠ Uuid_nil ∧ AttemptId_0 a ≠ Uuid_nil ∧ EffectId_0 f ≠ Uuid_nil
  | Subject_Retirement r => RetirementOperationId_0 r ≠ Uuid_nil
  | Subject_Recovery r => RecoveryId_0 r ≠ Uuid_nil
  | Subject_Runtime e => RuntimeEpoch_0 e ≠ Uuid_nil
  end.
Definition error_ok (e : VpnError) : Prop :=
  subject_ok (err_subject e) ∧
  match err_resource e with
  | Some r => ResourceIdentityDigest_is_nil (orr_identity_digest r) = false
  | None => True
  end.
Definition authorization_ok (s : AuthorizationSubject) : Prop :=
  match s with
  | LiveOwnershipTokenDigest _ => True
  | RecoveryAuthority r => RetirementOperationId_0 r ≠ Uuid_nil
  end.
Definition admission_record_ok (r : AdmissionRecord) : Prop :=
  match r with
  | AR_Admitted r =>
      identity_ok (ma_journal_operation_identity r) ∧ EffectId_0 (ma_effect_id r) ≠ Uuid_nil ∧
      PlatformAuthorityInstanceId_0 (ma_platform_authority_instance_id r) ≠ Uuid_nil ∧
      OwnershipVersion_0 (ma_ownership_version r) ≠ 0%N ∧
      authorization_ok (ma_authorization_subject r)
  | AR_Rejected r =>
      key_ok (or_lookup_key r) ∧ error_ok (rr_error (or_rejection_reason r)) ∧
      PlatformAuthorityInstanceId_0
        (af_platform_authority_instance_id (rr_authority_fence (or_rejection_reason r))) ≠ Uuid_nil
  | AR_AbsentFence r => key_ok (oaf_lookup_key r)
  end.

(** ** The round trip *)

Lemma field_obj l key : field (obj l) key = corrupt (member key l).
Proof. unfold field. by rewrite get_obj. Qed.

Lemma fill_slots_digest bytes : ∀ slots,
  length slots = length bytes → fill_slots slots (V_U64 ∘ byte_val <$> bytes) = Ok bytes.
Proof.
  induction bytes as [|b bytes IH]; intros [|s slots] Hl; simplify_eq/=; [done|].
  rewrite IH by done. cbn. by rewrite byte_of_N_val.
Qed.

Lemma re_digest_ser {T} (mk : Digest → T) d : re_digest mk (ser_digest d) = Ok (mk d).
Proof.
  unfold re_digest, v_u8arr32, ser_digest. cbn [as_array corrupt ok_or mbind result_bind].
  rewrite fill_slots_digest by by rewrite length_arr_bytes.
  cbn [mbind result_bind]. by rewrite to_array_arr_bytes.
Qed.

Lemma de_to_value {A} `{Serde A} (a : A) : de (to_value a) = Ok a.
Proof. unfold de. by rewrite from_to_value. Qed.

Context (parse_uuid_str : ∀ u, parse_str (uuid_str u) = Some u).

Lemma v_uuid_ser u : v_uuid (ser_uuid u) = Ok u.
Proof. unfold v_uuid, ser_uuid. cbn. by rewrite parse_uuid_str. Qed.

Lemma uuid_seam_ser {T} (mk : Uuid → T) u :
  u ≠ Uuid_nil → (u' ← v_uuid (ser_uuid u); corrupt_err (uuid_try_from mk u')) = Ok (mk u).
Proof. intros. rewrite v_uuid_ser. cbn. by rewrite uuid_try_from_Ok. Qed.

Lemma re_platform_instance_ser i :
  PlatformAuthorityInstanceId_0 i ≠ Uuid_nil →
  re_platform_instance (ser_uuid (PlatformAuthorityInstanceId_0 i)) = Ok i.
Proof.
  intros. unfold re_platform_instance. rewrite v_uuid_ser. cbn.
  unfold PlatformAuthorityInstanceId_try_from, Uuid_is_nil.
  rewrite bool_decide_eq_false_2 by done. by destruct i.
Qed.

Lemma re_ownership_version_ser v :
  OwnershipVersion_0 v ≠ 0%N → re_ownership_version (V_U64 (OwnershipVersion_0 v)) = Ok v.
Proof.
  intros. unfold re_ownership_version. cbn. rewrite OwnershipVersion_try_from_Ok by done.
  by destruct v.
Qed.

Ltac json_step :=
  first
    [ rewrite field_obj | rewrite list_to_map_member | rewrite get_obj | rewrite re_digest_ser
    | rewrite de_to_value | rewrite uuid_seam_ser by (done || tauto) ];
  cbn [member String.eqb Ascii.eqb Bool.eqb corrupt ok_or corrupt_err map_err mbind result_bind
       fmap result_fmap as_object obj as_u64].
Ltac json := cbn [as_object obj corrupt ok_or mbind result_bind]; repeat json_step.
Ltac uuid_seam :=
  unfold re_effect_id, re_retirement_id, re_runtime_epoch, re_operation_id, re_attempt_id,
    re_recovery_id, EffectId_try_from, RetirementOperationId_try_from, RuntimeEpoch_try_from,
    OperationId_try_from, AttemptId_try_from, RecoveryId_try_from.

Lemma re_operation_lookup_key_ser k :
  key_ok k → re_operation_lookup_key (ser_operation_lookup_key k) = Ok k.
Proof.
  destruct k as [[p] m [e] [o]]. intros [He Ho]. simpl in *.
  unfold re_operation_lookup_key, ser_operation_lookup_key. uuid_seam. json. done.
Qed.

Lemma re_journal_op_identity_ser i :
  identity_ok i → re_journal_op_identity (ser_journal_op_identity i) = Ok i.
Proof.
  destruct i as [k|[r]]; intros Hok; unfold re_journal_op_identity, ser_journal_op_identity;
    uuid_seam; json; [by rewrite re_operation_lookup_key_ser|done].
Qed.

Lemma re_error_subject_ser s : subject_ok s → re_error_subject (ser_error_subject s) = Ok s.
Proof.
  destruct s as [k|[e] [a]|[e] [a] [f]|[r]|[r]|[e]]; intros Hok; simpl in Hok;
    unfold re_error_subject, ser_error_subject; uuid_seam; json; try done.
  by rewrite re_operation_lookup_key_ser.
Qed.

Lemma re_opaque_resource_ref_ser r :
  ResourceIdentityDigest_is_nil (orr_identity_digest r) = false →
  re_opaque_resource_ref (ser_opaque_resource_ref r) = Ok r.
Proof.
  destruct r as [k [d]]. intros Hnil. simpl in Hnil.
  unfold re_opaque_resource_ref, ser_opaque_resource_ref. json.
  cbn [orr_kind orr_identity_digest ResourceIdentityDigest_0].
  unfold OpaqueResourceRef_try_from. by rewrite Hnil.
Qed.

Lemma re_redacted_native_error_ser e :
  re_redacted_native_error (ser_redacted_native_error e) = Ok e.
Proof. destruct e. unfold re_redacted_native_error, ser_redacted_native_error. json. done. Qed.

Lemma re_vpn_error_ser e : error_ok e → re_vpn_error (ser_vpn_error e) = Ok e.
Proof.
  destruct e as [c st ce rt su r n]. intros [Hs Hr]. simpl in *.
  unfold re_vpn_error, ser_vpn_error. json. rewrite re_error_subject_ser by done.
  cbn [mbind result_bind]. unfold v_opt. json.
  destruct r as [r|]; cbn [ser_option err_resource];
    [rewrite (eq_refl : ser_opaque_resource_ref r = obj _) at 1; cbn [obj]|];
    cbn [mbind result_bind];
    [rewrite re_opaque_resource_ref_ser by done|];
    cbn [fmap result_fmap mbind result_bind];
    destruct n as [n|]; cbn [ser_option err_native mbind result_bind]; try done;
    unfold ser_redacted_native_error at 1; cbn [obj mbind result_bind];
    by rewrite re_redacted_native_error_ser.
Qed.

Lemma re_authority_fence_ser f :
  PlatformAuthorityInstanceId_0 (af_platform_authority_instance_id f) ≠ Uuid_nil →
  re_authority_fence (ser_authority_fence f) = Ok f.
Proof.
  destruct f as [[e] i [w] [j]]. intros Hi. simpl in Hi.
  unfold re_authority_fence, ser_authority_fence. json.
  rewrite re_platform_instance_ser by done. cbn [mbind result_bind]. json. done.
Qed.

Lemma re_authorization_subject_ser s :
  authorization_ok s → re_authorization_subject (ser_authorization_subject s) = Ok s.
Proof.
  destruct s as [[d]|[r]]; intros Hok; simpl in Hok;
    unfold re_authorization_subject, ser_authorization_subject; uuid_seam; json; done.
Qed.

Lemma re_mutation_admitted_ser r :
  admission_record_ok (AR_Admitted r) → re_mutation_admitted (ser_mutation_admitted r) = Ok r.
Proof.
  destruct r as [mk id [f] [ci] [pi] [ae] inst [w] v su [ri] pf df sd].
  intros (Hid & Hf & Hi & Hv & Hsu). simpl in *.
  unfold re_mutation_admitted, ser_mutation_admitted. uuid_seam. json.
  rewrite re_journal_op_identity_ser by done. cbn [mbind result_bind]. json.
  rewrite re_platform_instance_ser by done. cbn [mbind result_bind]. json.
  cbn [ma_ownership_version]. rewrite re_ownership_version_ser by done. cbn [mbind result_bind]. json.
  rewrite re_authorization_subject_ser by done. cbn [mbind result_bind]. json. done.
Qed.

Lemma re_operation_rejected_ser r :
  admission_record_ok (AR_Rejected r) → re_operation_rejected (ser_operation_rejected r) = Ok r.
Proof.
  destruct r as [k [d] [ae] [e f] [w]]. intros (Hk & He & Hi). simpl in *.
  unfold re_operation_rejected, ser_operation_rejected. json.
  rewrite re_operation_lookup_key_ser by done. cbn [mbind result_bind]. json.
  unfold re_rejection_reason, ser_rejection_reason. json.
  rewrite re_vpn_error_ser by done. cbn [mbind result_bind]. json.
  rewrite re_authority_fence_ser by done. cbn [mbind result_bind]. json. done.
Qed.

Lemma re_operation_absent_fence_ser r :
  admission_record_ok (AR_AbsentFence r) →
  re_operation_absent_fence (ser_operation_absent_fence r) = Ok r.
Proof.
  destruct r as [k [d] [ae] [w]]. intros Hk. simpl in *.
  unfold re_operation_absent_fence, ser_operation_absent_fence. json.
  rewrite re_operation_lookup_key_ser by done. cbn [mbind result_bind]. json. done.
Qed.

Lemma decode_encode_record r :
  admission_record_ok r →
  from_slice (to_vec (ser_record r)) = Some (ser_record r) →
  decode_record (encode_record r) = Ok r.
Proof.
  intros Hok Hjson. unfold decode_record, encode_record.
  rewrite bool_decide_eq_true_2 by done. opt_simpl. rewrite Hjson.
  destruct r as [r|r|r]; cbn [ser_record]; json;
    [rewrite re_mutation_admitted_ser|rewrite re_operation_rejected_ser
    |rewrite re_operation_absent_fence_ser]; done.
Qed.

(** Every admission record that the validating constructors can build survives
    the codec: decoding what [encode_record] wrote gives the record back, for all
    three kinds of record and every form of their fields, wherever the JSON text
    of the record parses back to its value. *)
Theorem admission_record_roundtrip r :
  admission_record_ok r →
  from_slice (to_vec (ser_record r)) = Some (ser_record r) →
  decode_record (encode_record r) = Ok r.
Proof. apply decode_encode_record. Qed.

(** A record written by one build and read by another: a payload whose version
    byte is not the supported one is refused before its JSON is looked at, an
    empty payload is corrupt. *)
Lemma decode_record_version version rest :
  version ≠ ADMISSION_RECORD_VERSION → decode_record (version :: rest) = Err UnsupportedVersion.
Proof. intros. unfold decode_record. by rewrite bool_decide_eq_false_2. Qed.
End codec.

(** ** The codec as an interface *)

(** What the clients of the codec use of it. *)
Class RecordCodec := {
  codec_encode : AdmissionRecord → list byte;
  codec_decode : list byte → result AdmissionCodecError AdmissionRecord;
}.

(** A record the codec reproduces. *)
Definition codec_faithful `{RecordCodec} (r : AdmissionRecord) : Prop :=
  codec_decode (codec_encode r) = Ok r.

(** ** Concrete records *)

(** A fieldless enum is the name of its variant. *)
Definition enum_value {A} `{EqDecision A} (names : list (string * A)) (a : A) : Value :=
  match list_find (λ p, p.2 = a) names with Some (_, p) => V_String p.1 | None => V_Null end.
Definition value_enum {A} (names : list (string * A)) (v : Value) : option A :=
  match v with
  | V_String s => (λ p, p.2.2) <$> list_find (λ p, p.1 = s) names
  | _ => None
  end.

Definition method_names : list (string * OperationMethod) :=
  [("Connect", Method_Connect); ("RespondInteraction", Method_RespondInteraction);
   ("Stop", Method_Stop); ("Reconcile", Method_Reconcile);
   ("AcquireLease", Method_AcquireLease); ("ApplyTunnel", Method_ApplyTunnel);
   ("StopTunnel", Method_StopTunnel); ("ReleaseLease", Method_ReleaseLease)].
#[export] Instance method_serde : Serde OperationMethod.
Proof. refine (Build_Serde _ (enum_value method_names) (value_enum method_names) _). by intros []. Defined.

Definition resource_kind_names : list (string * ResourceKind) :=
  [("Runtime", Kind_Runtime); ("ProtocolSession", Kind_ProtocolSession);
   ("PlatformOwnership", Kind_PlatformOwnership); ("PacketDevice", Kind_PacketDevice);
   ("NetworkAddress", Kind_NetworkAddress); ("Mtu", Kind_Mtu); ("RouteSet", Kind_RouteSet);
   ("Dns", Kind_Dns); ("ControlBypass", Kind_ControlBypass);
   ("NetworkSettings", Kind_NetworkSettings); ("PacketLease", Kind_PacketLease);
   ("Journal", Kind_Journal); ("CleanupProof", Kind_CleanupProof)].
#[export] Instance resource_kind_serde : Serde ResourceKind.
Proof. refine (Build_Serde _ (enum_value resource_kind_names) (value_enum resource_kind_names) _). by intros []. Defined.

Definition category_names : list (string * NativeErrorCategory) :=
  [("Permission", Cat_Permission); ("Transport", Cat_Transport); ("Protocol", Cat_Protocol);
   ("Resource", Cat_Resource); ("Storage", Cat_Storage); ("Observation", Cat_Observation);
   ("Unsupported", Cat_Unsupported); ("Unknown", Cat_Unknown)].
#[export] Instance category_serde : Serde NativeErrorCategory.
Proof. refine (Build_Serde _ (enum_value category_names) (value_enum category_names) _). by intros []. Defined.

Definition namespace_names : list (string * NativeErrorNamespace) :=
  [("Win32", Ns_Win32); ("HResult", Ns_HResult); ("NtStatus", Ns_NtStatus);
   ("PosixErrno", Ns_PosixErrno); ("AppleOsStatus", Ns_AppleOsStatus);
   ("AppleMach", Ns_AppleMach); ("AppleNetworkExtension", Ns_AppleNetworkExtension);
   ("Unknown", Ns_Unknown)].
#[export] Instance namespace_serde : Serde NativeErrorNamespace.
Proof. refine (Build_Serde _ (enum_value namespace_names) (value_enum namespace_names) _). by intros []. Defined.

Definition code_names : list (string * ErrorCode) :=
  [("InvalidInput", InvalidInput); ("IdempotencyConflict", IdempotencyConflict);
   ("ConnectInProgress", ConnectInProgress); ("SessionBusy", SessionBusy);
   ("ReconnectAlreadyQueued", ReconnectAlreadyQueued);
   ("CancelledBeforeStart", Code_CancelledBeforeStart);
   ("AuthorityAlreadyHeld", AuthorityAlreadyHeld);
   ("OwnershipAcquisitionPending", OwnershipAcquisitionPending);
   ("ObservedConflict", ObservedConflict); ("JournalCorrupt", JournalCorrupt);
   ("DataPlaneBackpressure", DataPlaneBackpressure);
   ("PacketLeaseAlreadyAttached", PacketLeaseAlreadyAttached);
   ("EffectUnknown", Code_EffectUnknown); ("ObservationFailed", Code_ObservationFailed);
   ("Unauthorized", Unauthorized); ("DeadlineExceeded", DeadlineExceeded);
   ("ActiveAttemptCannotReconcile", ActiveAttemptCannotReconcile);
   ("ActiveSessionCannotReconcile", ActiveSessionCannotReconcile);
   ("PlatformDependencyUnavailable", PlatformDependencyUnavailable)].
#[export] Instance code_serde : Serde ErrorCode.
Proof. refine (Build_Serde _ (enum_value code_names) (value_enum code_names) _). by intros []. Defined.

Definition stage_names : list (string * ErrorStage) :=
  [("Ingress", Stage_Ingress); ("Admission", Stage_Admission);
   ("ObservingOwnedState", Stage_ObservingOwnedState);
   ("AcquiringPlatformLease", Stage_AcquiringPlatformLease);
   ("ConnectingControl", Stage_ConnectingControl);
   ("AwaitingInteraction", Stage_AwaitingInteraction);
   ("NegotiatingTunnel", Stage_NegotiatingTunnel);
   ("ApplyingPlatformTunnel", Stage_ApplyingPlatformTunnel);
   ("AttachingPacketBoundary", Stage_AttachingPacketBoundary);
   ("StartingDataPlane", Stage_StartingDataPlane); ("ProtocolSession", Stage_ProtocolSession);
   ("DataPlane", Stage_DataPlane); ("Teardown", Stage_Teardown); ("Recovery", Stage_Recovery);
   ("Journal", Stage_Journal)].
#[export] Instance stage_serde : Serde ErrorStage.
Proof. refine (Build_Serde _ (enum_value stage_names) (value_enum stage_names) _). by intros []. Defined.

Definition certainty_names : list (string * EffectCertainty) :=
  [("NoEffect", NoEffect); ("Applied", Applied); ("Partial", Partial);
   ("Unknown", Certainty_Unknown)].
#[export] Instance certainty_serde : Serde EffectCertainty.
Proof. refine (Build_Serde _ (enum_value certainty_names) (value_enum certainty_names) _). by intros []. Defined.

Definition advice_names : list (string * RetryAdvice) :=
  [("DoNotRetry", DoNotRetry); ("RetrySameOperation", RetrySameOperation);
   ("UseNewOperation", UseNewOperation); ("Reconcile", Advice_Reconcile);
   ("RestartProcess", RestartProcess)].
#[export] Instance advice_serde : Serde RetryAdvice.
Proof. refine (Build_Serde _ (enum_value advice_names) (value_enum advice_names) _). by intros []. Defined.

#[export] Instance native_code_serde : Serde NativeErrorCode.
Proof. refine (Build_Serde _ (λ c, V_I64 (NativeErrorCode_0 c)) (λ v, match v with V_I64 z => Some (MkNativeErrorCode z) | _ => None end) _). by intros []. Defined.

Definition kind_value (k : MutationKind) : Value :=
  match k with
  | MK_External m => obj [("External", to_value m)]
  | MK_Retirement => V_String "Retirement"
  end.
Definition value_kind (v : Value) : option MutationKind :=
  match v with
  | V_String s => if String.eqb s "Retirement" then Some MK_Retirement else None
  | _ => get v "External" ≫= λ m, MK_External <$> from_value m
  end.
#[export] Instance kind_serde : Serde MutationKind.
Proof. refine (Build_Serde _ (kind_value) (value_kind) _). by intros [[]|]. Defined.

Definition digest_value {T} (un : T → Digest) (a : T) : Value := ser_digest (un a).
Definition value_digest {T} (mk : Digest → T) (v : Value) : option T :=
  match v_u8arr32 v with Ok d => Some (mk d) | Err _ => None end.
Lemma value_digest_value {T} (mk : Digest → T) (un : T → Digest) a :
  mk (un a) = a → value_digest mk (digest_value un a) = Some a.
Proof.
  intros Ha. pose proof (re_digest_ser mk (un a)) as H. unfold re_digest in H.
  unfold value_digest, digest_value. destruct (v_u8arr32 (ser_digest (un a))) as [d|]; [|done].
  simpl in H. congruence.
Qed.
#[export] Instance fingerprint_serde : Serde AppliedFingerprint.
Proof. refine (Build_Serde _ (digest_value AppliedFingerprint_0) (value_digest MkAppliedFingerprint) _). intros [d]. by apply value_digest_value. Defined.
#[export] Instance seed_serde : Serde ObligationSeed.
Proof. refine (Build_Serde _ (digest_value ObligationSeed_0) (value_digest MkObligationSeed) _). intros [d]. by apply value_digest_value. Defined.

(** The sixteen bytes as characters stand in for the hyphenated text. *)
Definition toy_uuid_str (u : Uuid) : string := String.string_of_list_byte (arr_bytes u).
Definition toy_parse_str (s : string) : option Uuid := to_array 16 (String.list_byte_of_string s).

Lemma toy_parse_uuid_str u : toy_parse_str (toy_uuid_str u) = Some u.
Proof.
  unfold toy_parse_str, toy_uuid_str. rewrite String.list_byte_of_string_of_list_byte.
  apply to_array_arr_bytes.
Qed.

Definition sample_rejected : AdmissionRecord :=
  AR_Rejected (MkOperationRejected (sample_key Method_Connect x11) (sample_digest x11)
    (MkAuthorityEpoch 1)
    (MkRejectionReason
       (MkVpnError SessionBusy Stage_Admission NoEffect UseNewOperation
          (Subject_Effect sample_epoch (MkAttemptId (uu x04)) (MkEffectId (uu x05)))
          (Some (MkOpaqueResourceRef Kind_RouteSet (sample_rid x06)))
          (Some (MkRedactedNativeError Cat_Transport Ns_PosixErrno (MkNativeErrorCode (-111)))))
       sample_authority)
    (MkAdmissionWatermark 3)).

Lemma admission_record_roundtrip_witness :
  let rejected := ser_record toy_uuid_str sample_rejected in
  decode_record toy_parse_str (λ _, Some rejected)
    (encode_record toy_uuid_str (λ _, [x7b; x7d]) sample_rejected) = Ok sample_rejected.
Proof.
  apply (admission_record_roundtrip toy_uuid_str toy_parse_str (λ _, [x7b; x7d])
    (λ _, Some (ser_record toy_uuid_str sample_rejected)) toy_parse_uuid_str).
  - repeat split; vm_compute; discriminate.
  - reflexivity.
Defined.

(** The digest reader takes an array of any length: a short one is padded with
    zeros, a long one is cut, and a number is cut to its low byte. *)
Example v_u8arr32_lenient :
  v_u8arr32 (V_Array []) = Ok (array_fill 32 x00) ∧
  v_u8arr32 (V_Array (replicate 40 (V_U64 257))) = Ok (array_fill 32 x01).
Proof. split; vm_compute; reflexivity. Qed.
