(* ===== verification/AdmissionIndex.v ===== *)
(** * The admission sequencer

    [operation.rs] of the resource crate: [AdmissionIndex], which admits, rejects
    and fences operations, one durable record per lookup identity, every record
    stamped from one shared watermark counter.

    The index is a finite map keyed by [canonical_lookup_digest]; each method takes
    the index and returns it with its answer. The counter is a [u64] with
    wrap-around. *)

From Stdlib Require Import NArith Strings.Byte Lia.
From S2P Require Import Prelude Identity Model Samples Admission.

(** resource/operation.rs:25-40 [MutationAdmissionInput] *)
Record MutationAdmissionInput := MkMutationAdmissionInput {
  mai_key : OperationLookupKey;
  mai_request_digest : RequestDigest;
  mai_effect_id : EffectId;
  mai_initiator_identity_digest : PrincipalDigest;
  mai_canonical_input_digest : CanonicalInputDigest;
  mai_mutation_kind : MutationKind;
  mai_ownership_version : OwnershipVersion;
  mai_authorization_subject : AuthorizationSubject;
  mai_resource_identity : ResourceIdentityDigest;
  mai_precondition_fingerprint : AppliedFingerprint;
  mai_desired_applied_fingerprint : AppliedFingerprint;
  mai_canonical_obligation_seed : ObligationSeed;
}.

(** resource/operation.rs:42-53 [AdmissionOutcome] *)
Inductive AdmissionOutcome :=
  | AO_Admitted (record : MutationAdmitted)
  | AO_RejectedNoEffect (record : OperationRejected)
  | AO_ClosedByAbsenceProof
  | AO_IdempotencyConflict.

(** resource/operation.rs:55-69 [IndexEntry] *)
Inductive IndexEntry :=
  | IE_Admitted (request_digest : RequestDigest) (record : MutationAdmitted)
  | IE_Rejected (request_digest : RequestDigest) (record : OperationRejected)
  | IE_AbsentFenced (request_digest : RequestDigest) (record : OperationAbsentFence).

(** resource/operation.rs:71-77 [AdmissionIndex] *)
Record AdmissionIndex := MkAdmissionIndex {
  ai_authority_epoch : AuthorityEpoch;
  ai_authority_instance : PlatformAuthorityInstanceId;
  ai_next_watermark : N;
  ai_entries : gmap OperationLookupKeyDigest IndexEntry;
}.

(** resource/operation.rs:80-94 [AdmissionIndex::new] *)
Definition AdmissionIndex_new (authority : AuthorityFence) : AdmissionIndex :=
  MkAdmissionIndex (af_authority_epoch authority) (af_platform_authority_instance_id authority)
    0 ∅.

(** resource/operation.rs:96-101 [AdmissionIndex::mint_watermark] *)
Definition mint_watermark (idx : AdmissionIndex) : AdmissionIndex * AdmissionWatermark :=
  (MkAdmissionIndex (ai_authority_epoch idx) (ai_authority_instance idx)
     (add64 (ai_next_watermark idx) 1) (ai_entries idx),
   MkAdmissionWatermark (ai_next_watermark idx)).

(** [self.entries.insert(digest, entry)] *)
Definition insert_entry (d : OperationLookupKeyDigest) (e : IndexEntry) (idx : AdmissionIndex) :
    AdmissionIndex :=
  MkAdmissionIndex (ai_authority_epoch idx) (ai_authority_instance idx)
    (ai_next_watermark idx) (<[d := e]> (ai_entries idx)).

(** The watermark of the record in an entry. *)
Definition entry_watermark (e : IndexEntry) : AdmissionWatermark :=
  match e with
  | IE_Admitted _ r => ma_admission_watermark r
  | IE_Rejected _ r => or_admission_watermark r
  | IE_AbsentFenced _ r => oaf_admission_watermark r
  end.

Definition is_admitted (e : IndexEntry) : bool :=
  match e with IE_Admitted _ _ => true | _ => false end.

Section index.
Variable hash64 : N → list byte → N.
#[local] Abbreviation digest_of := (canonical_lookup_digest hash64).

(** resource/operation.rs:103-168 [AdmissionIndex::admit] *)
Definition index_admit (idx : AdmissionIndex) (input : MutationAdmissionInput) :
    AdmissionIndex * AdmissionOutcome :=
  let digest := digest_of (mai_key input) in
  match ai_entries idx !! digest with
  | Some (IE_Admitted request_digest record) =>
      (idx, if bool_decide (request_digest = mai_request_digest input)
            then AO_Admitted record else AO_IdempotencyConflict)
  | Some (IE_Rejected request_digest record) =>
      (idx, if bool_decide (request_digest = mai_request_digest input)
            then AO_RejectedNoEffect record else AO_IdempotencyConflict)
  | Some (IE_AbsentFenced request_digest _) =>
      (idx, if bool_decide (request_digest = mai_request_digest input)
            then AO_ClosedByAbsenceProof else AO_IdempotencyConflict)
  | None =>
      let '(idx, watermark) := mint_watermark idx in
      let record := MkMutationAdmitted (mai_mutation_kind input) (JOI_External (mai_key input))
        (mai_effect_id input) (mai_canonical_input_digest input)
        (mai_initiator_identity_digest input) (ai_authority_epoch idx)
        (ai_authority_instance idx) watermark (mai_ownership_version input)
        (mai_authorization_subject input) (mai_resource_identity input)
        (mai_precondition_fingerprint input) (mai_desired_applied_fingerprint input)
        (mai_canonical_obligation_seed input) in
      (insert_entry digest (IE_Admitted (mai_request_digest input) record) idx,
       AO_Admitted record)
  end.

(** resource/operation.rs:170-204 [AdmissionIndex::reject] *)
Definition reject (idx : AdmissionIndex) (key : OperationLookupKey)
    (request_digest : RequestDigest) (rejection_reason : RejectionReason) :
    AdmissionIndex * OperationRejected :=
  let digest := digest_of key in
  let fresh :=
    let '(idx, watermark) := mint_watermark idx in
    let record := MkOperationRejected key request_digest (ai_authority_epoch idx)
      rejection_reason watermark in
    (insert_entry digest (IE_Rejected request_digest record) idx, record) in
  match ai_entries idx !! digest with
  | Some (IE_Rejected existing record) =>
      if bool_decide (existing = request_digest) then (idx, record) else fresh
  | _ => fresh
  end.

(** resource/operation.rs:206-236 [AdmissionIndex::establish_absence_fence] *)
Definition establish_absence_fence (idx : AdmissionIndex) (key : OperationLookupKey)
    (request_digest : RequestDigest) : AdmissionIndex * OperationAbsentFence :=
  let digest := digest_of key in
  match ai_entries idx !! digest with
  | Some (IE_AbsentFenced _ record) => (idx, record)
  | _ =>
      let '(idx, watermark) := mint_watermark idx in
      let record := MkOperationAbsentFence key request_digest (ai_authority_epoch idx) watermark in
      (insert_entry digest (IE_AbsentFenced request_digest record) idx, record)
  end.

(** resource/operation.rs:238-258 [AdmissionIndex::get_operation] *)
Definition get_operation (idx : AdmissionIndex) (key : OperationLookupKey)
    (_request_digest : RequestDigest) : OperationState :=
  match ai_entries idx !! digest_of key with
  | Some (IE_Admitted _ _) => OpState_Pending
  | Some (IE_Rejected _ record) => OpState_RejectedNoEffect (or_rejection_reason record)
  | Some (IE_AbsentFenced _ record) =>
      OpState_AbsentNoEffect (digest_of key) (oaf_authority_epoch record)
        (oaf_admission_watermark record)
  | None => OpState_Unknown
  end.

(** ** Histories *)

Inductive index_op :=
  | Op_admit (input : MutationAdmissionInput)
  | Op_reject (key : OperationLookupKey) (d : RequestDigest) (reason : RejectionReason)
  | Op_fence (key : OperationLookupKey) (d : RequestDigest).

Definition op_key (op : index_op) : OperationLookupKey :=
  match op with
  | Op_admit i => mai_key i
  | Op_reject k _ _ | Op_fence k _ => k
  end.
Definition is_admit (op : index_op) : bool :=
  match op with Op_admit _ => true | _ => false end.

Definition index_step (idx : AdmissionIndex) (op : index_op) : AdmissionIndex :=
  match op with
  | Op_admit i => (index_admit idx i).1
  | Op_reject k d r => (reject idx k d r).1
  | Op_fence k d => (establish_absence_fence idx k d).1
  end.
Definition index_run (idx : AdmissionIndex) (ops : list index_op) : AdmissionIndex :=
  foldl index_step idx ops.

(** Every step either leaves the index alone or stores one entry at the key of
    the operation, stamped with the counter, which moves on by one. *)
Lemma index_step_cases idx op :
  index_step idx op = idx ∧ is_Some (ai_entries idx !! digest_of (op_key op)) ∨
  ∃ e, entry_watermark e = MkAdmissionWatermark (ai_next_watermark idx) ∧
    is_admitted e = is_admit op ∧
    (is_admit op = true → ai_entries idx !! digest_of (op_key op) = None) ∧
    index_step idx op = MkAdmissionIndex (ai_authority_epoch idx) (ai_authority_instance idx)
      (add64 (ai_next_watermark idx) 1) (<[digest_of (op_key op) := e]> (ai_entries idx)).
Proof.
  destruct op as [i|k d r|k d]; simpl; unfold index_admit, reject, establish_absence_fence.
  - destruct (ai_entries idx !! digest_of (mai_key i)) as [[]|] eqn:E; simpl; eauto.
    right. eexists. split_and!; cycle 3; [reflexivity|done..].
  - destruct (ai_entries idx !! digest_of k) as [[]|] eqn:E; simpl; eauto;
      repeat case_bool_decide; simpl; eauto;
      right; eexists; (split_and!; cycle 3; [reflexivity|done..]).
  - destruct (ai_entries idx !! digest_of k) as [[]|] eqn:E; simpl; eauto;
      right; eexists; (split_and!; cycle 3; [reflexivity|done..]).
Qed.

(** The stored watermarks are below the counter and determine their key. *)
Definition index_ok (idx : AdmissionIndex) : Prop :=
  (∀ d e, ai_entries idx !! d = Some e →
     (AdmissionWatermark_0 (entry_watermark e) < ai_next_watermark idx)%N) ∧
  (∀ d1 d2 e1 e2, ai_entries idx !! d1 = Some e1 → ai_entries idx !! d2 = Some e2 →
     entry_watermark e1 = entry_watermark e2 → d1 = d2).

Lemma index_step_ok idx op :
  in_u64 (ai_next_watermark idx + 1) → index_ok idx →
  index_ok (index_step idx op) ∧
  (ai_next_watermark (index_step idx op) ≤ ai_next_watermark idx + 1)%N.
Proof.
  intros Hlt [Hb Hu].
  destruct (index_step_cases idx op) as [[-> _]|(e & Ee & _ & _ & ->)]; [split; [done|lia]|].
  rewrite (add64_small _ _ Hlt). unfold index_ok; simpl. split_and!; [| |lia].
  - intros d e' [[<- <-]|[_ He']]%lookup_insert_Some; [rewrite Ee; simpl; lia|].
    specialize (Hb _ _ He'). lia.
  - intros d1 d2 e1 e2 [[<- <-]|[Hn1 H1]]%lookup_insert_Some
      [[<- <-]|[Hn2 H2]]%lookup_insert_Some E; [done| | |by eapply Hu].
    + specialize (Hb _ _ H2). rewrite <-E, Ee in Hb. simpl in Hb. lia.
    + specialize (Hb _ _ H1). rewrite E, Ee in Hb. simpl in Hb. lia.
Qed.

Lemma index_run_ok ops : ∀ idx,
  in_u64 (ai_next_watermark idx + N.of_nat (length ops)) → index_ok idx →
  index_ok (index_run idx ops).
Proof.
  induction ops as [|op ops IH]; intros idx Hlt Hok; simpl; [done|].
  unfold in_u64 in *. cbn [length] in Hlt.
  destruct (index_step_ok idx op) as [Hok' Hn]; [unfold in_u64; lia|done|].
  apply IH; [lia|done].
Qed.

(** A stored entry survives the operations on other keys and the admissions. *)
Lemma index_run_keeps ops : ∀ idx d e,
  ai_entries idx !! d = Some e →
  Forall (λ op, is_admit op = true ∨ digest_of (op_key op) ≠ d) ops →
  ai_entries (index_run idx ops) !! d = Some e.
Proof.
  induction ops as [|op ops IH]; intros idx d e He Hops; simpl; [done|].
  apply Forall_cons in Hops as [Hop Hops]. apply IH; [|done].
  destruct (index_step_cases idx op) as [[-> _]|(e' & _ & _ & Ha & ->)]; [done|]. simpl.
  destruct (decide (digest_of (op_key op) = d)) as [Hd|Hd]; [|by rewrite lookup_insert_ne].
  destruct Hop as [Hop|]; [|done]. specialize (Ha Hop). congruence.
Qed.

(** An admission that was answered [Admitted] is stored under its key. *)
Lemma admit_stored idx input r :
  (index_admit idx input).2 = AO_Admitted r →
  ai_entries (index_admit idx input).1 !! digest_of (mai_key input) =
    Some (IE_Admitted (mai_request_digest input) r).
Proof.
  unfold index_admit. destruct (ai_entries idx !! _) as [[]|] eqn:E; simpl;
    repeat case_bool_decide; try done; intros [= <-]; [congruence|].
  apply lookup_insert_eq.
Qed.

(** The entry of a closed operation: a rejection or an absence fence. *)
Definition closed_at (idx : AdmissionIndex) (d : OperationLookupKeyDigest) : Prop :=
  ∃ e, ai_entries idx !! d = Some e ∧ is_admitted e = false.

Lemma index_step_closed idx op d : closed_at idx d → closed_at (index_step idx op) d.
Proof.
  intros (e & He & Ha). unfold closed_at.
  destruct (index_step_cases idx op) as [[-> _]|(e' & _ & Hi & Hn & ->)]; [eauto|]. simpl.
  destruct (decide (digest_of (op_key op) = d)) as [<-|Hk].
  - rewrite lookup_insert_eq. exists e'. split; [done|]. rewrite Hi.
    destruct (is_admit op); [|done]. specialize (Hn eq_refl). congruence.
  - rewrite lookup_insert_ne by done. eauto.
Qed.

Lemma index_run_closed ops d : ∀ idx, closed_at idx d → closed_at (index_run idx ops) d.
Proof. induction ops as [|op ops IH]; intros idx Hc; simpl; [done|]. by apply IH, index_step_closed. Qed.

Lemma reject_closes idx key d reason : closed_at (reject idx key d reason).1 (digest_of key).
Proof.
  unfold closed_at, reject. destruct (ai_entries idx !! digest_of key) as [[]|] eqn:E; simpl;
    repeat case_bool_decide; simpl; rewrite ?lookup_insert_eq; eauto.
Qed.

Lemma fence_closes idx key d : closed_at (establish_absence_fence idx key d).1 (digest_of key).
Proof.
  unfold closed_at, establish_absence_fence.
  destruct (ai_entries idx !! digest_of key) as [[]|] eqn:E; simpl; rewrite ?lookup_insert_eq; eauto.
Qed.

Lemma closed_answers idx key d input :
  closed_at idx (digest_of key) → digest_of (mai_key input) = digest_of key →
  (∀ r, (index_admit idx input).2 ≠ AO_Admitted r) ∧ get_operation idx key d ≠ OpState_Pending.
Proof.
  intros (e & He & Ha) Hd. unfold index_admit, get_operation. rewrite Hd, He.
  destruct e; try done; simpl; (split; [intros r; by case_bool_decide|done]).
Qed.

(** ** Properties *)

(** The watermarks are one total order over everything the index holds: after
    any history from a new index (shorter than the counter's range) each stored
    record, admission, rejection or fence, has a watermark below the counter, and
    no two records share one. *)
Theorem index_watermarks_unique authority ops :
  in_u64 (N.of_nat (length ops)) →
  let idx := index_run (AdmissionIndex_new authority) ops in
  (∀ d e, ai_entries idx !! d = Some e →
     (AdmissionWatermark_0 (entry_watermark e) < ai_next_watermark idx)%N) ∧
  (∀ d1 d2 e1 e2, ai_entries idx !! d1 = Some e1 → ai_entries idx !! d2 = Some e2 →
     entry_watermark e1 = entry_watermark e2 → d1 = d2).
Proof. intros Hlt. apply index_run_ok; [done|]. split; simpl; intros *; by rewrite lookup_empty. Qed.

(** Admission is idempotent over time: once an operation was admitted with a
    record, then whatever is admitted meanwhile and whatever is rejected or fenced
    under other identities, submitting it again changes nothing and returns that
    same record, and submitting another digest under its identity is refused as a
    conflict, also without a change. *)
Theorem admit_idempotent idx input r ops again :
  (index_admit idx input).2 = AO_Admitted r →
  Forall (λ op, is_admit op = true ∨ digest_of (op_key op) ≠ digest_of (mai_key input)) ops →
  digest_of (mai_key again) = digest_of (mai_key input) →
  let later := index_run (index_admit idx input).1 ops in
  index_admit later again =
    (later, if bool_decide (mai_request_digest input = mai_request_digest again)
            then AO_Admitted r else AO_IdempotencyConflict).
Proof.
  intros Hr Hops Hd later.
  pose proof (index_run_keeps ops _ _ _ (admit_stored _ _ _ Hr) Hops) as He.
  fold later in He. unfold index_admit. rewrite Hd, He. done.
Qed.

(** A closed operation is never admitted: once an operation was rejected or
    fenced as absent, no later submission under its identity is ever admitted, and
    a query never reports it pending again, whatever happens in between. *)
Theorem closed_never_admitted idx key d reason ops input :
  let closed := (reject idx key d reason).1 in
  let fenced := (establish_absence_fence idx key d).1 in
  digest_of (mai_key input) = digest_of key →
  (∀ r, (index_admit (index_run closed ops) input).2 ≠ AO_Admitted r) ∧
  (∀ r, (index_admit (index_run fenced ops) input).2 ≠ AO_Admitted r) ∧
  get_operation (index_run closed ops) key d ≠ OpState_Pending ∧
  get_operation (index_run fenced ops) key d ≠ OpState_Pending.
Proof.
  intros closed fenced Hd.
  destruct (closed_answers (index_run closed ops) key d input) as [? ?];
    [by apply index_run_closed, reject_closes|done|].
  destruct (closed_answers (index_run fenced ops) key d input) as [? ?];
    [by apply index_run_closed, fence_closes|done|].
  auto.
Qed.

(** The sequencer identifies operations by principal, method and epoch only:
    two submissions that differ in their operation id are one operation, so the
    second one gets the first one's record, or a conflict when its digest differs;
    and neither a rejection nor an absence fence keeps an admission of the same
    identity: it replaces the record and the operation is no longer pending. *)
Theorem index_identity_and_overwrite idx input r other reason :
  (index_admit idx input).2 = AO_Admitted r →
  lookup_preimage (mai_key other) = lookup_preimage (mai_key input) →
  let idx' := (index_admit idx input).1 in
  index_admit idx' other =
    (idx', if bool_decide (mai_request_digest input = mai_request_digest other)
           then AO_Admitted r else AO_IdempotencyConflict) ∧
  get_operation idx' (mai_key other) (mai_request_digest other) = OpState_Pending ∧
  get_operation (reject idx' (mai_key other) (mai_request_digest other) reason).1
    (mai_key input) (mai_request_digest input) = OpState_RejectedNoEffect reason.
Proof.
  intros Hr Hp idx'. pose proof (admit_stored _ _ _ Hr) as He. fold idx' in He.
  assert (Hd : digest_of (mai_key other) = digest_of (mai_key input))
    by (unfold canonical_lookup_digest; by rewrite Hp).
  unfold index_admit, get_operation, reject. rewrite Hd, He. simpl.
  by rewrite lookup_insert_eq.
Qed.
End index.

(** ** Concrete histories *)

(** A stand-in for [DefaultHasher]: the message as a number, offset by the index. *)
Definition toy_hash64 (i : N) (l : list byte) : N :=
  wrap64 (foldl (λ a b, a * 257 + byte_val b + 1)%N i l).

Definition sample_input (op digest : byte) : MutationAdmissionInput :=
  MkMutationAdmissionInput (sample_key Method_AcquireLease op) (sample_digest digest)
    (MkEffectId (uu x05)) (MkPrincipalDigest (dg x09)) (MkCanonicalInputDigest (dg x0a))
    (MK_External Method_AcquireLease) (sample_version 1)
    (LiveOwnershipTokenDigest (MkTokenDigest (dg x06))) (sample_rid x05)
    (MkAppliedFingerprint (dg x01)) (MkAppliedFingerprint (dg x02)) (MkObligationSeed (dg x03)).

Definition sample_reason : RejectionReason :=
  MkRejectionReason
    (MkVpnError SessionBusy Stage_Admission NoEffect UseNewOperation (Subject_Runtime sample_epoch) None None)
    sample_authority.

Definition sample_index : AdmissionIndex := AdmissionIndex_new sample_authority.

Lemma index_watermarks_unique_witness :
  let idx := index_run toy_hash64 sample_index
    [Op_admit (sample_input x11 x11); Op_reject (sample_key Method_Stop x12) (sample_digest x12) sample_reason] in
  ai_next_watermark idx = 2%N ∧
  (∀ d1 d2 e1 e2, ai_entries idx !! d1 = Some e1 → ai_entries idx !! d2 = Some e2 →
     entry_watermark e1 = entry_watermark e2 → d1 = d2).
Proof.
  split; [vm_compute; reflexivity|].
  apply (index_watermarks_unique toy_hash64 sample_authority
    [Op_admit (sample_input x11 x11); Op_reject (sample_key Method_Stop x12) (sample_digest x12) sample_reason]).
  reflexivity.
Defined.

Lemma admit_idempotent_witness :
  ∃ r, let idx := index_run toy_hash64 (index_admit toy_hash64 sample_index (sample_input x11 x11)).1
         [Op_reject (sample_key Method_Stop x12) (sample_digest x12) sample_reason] in
    index_admit toy_hash64 idx (sample_input x11 x11) =
      (idx, if bool_decide (sample_digest x11 = sample_digest x11)
            then AO_Admitted r else AO_IdempotencyConflict).
Proof.
  eexists. apply (admit_idempotent toy_hash64 sample_index (sample_input x11 x11)
    _ _ (sample_input x11 x11)).
  - reflexivity.
  - constructor; [|constructor]. right. vm_compute. discriminate.
  - reflexivity.
Defined.

Lemma closed_never_admitted_witness :
  let closed := (reject toy_hash64 sample_index (sample_key Method_AcquireLease x11)
    (sample_digest x11) sample_reason).1 in
  let later := index_run toy_hash64 closed [Op_admit (sample_input x12 x12)] in
  canonical_lookup_digest toy_hash64 (mai_key (sample_input x11 x11)) =
    canonical_lookup_digest toy_hash64 (sample_key Method_AcquireLease x11) ∧
  ∀ r, (index_admit toy_hash64 later (sample_input x11 x11)).2 ≠ AO_Admitted r.
Proof.
  split; [reflexivity|].
  apply (closed_never_admitted toy_hash64 sample_index (sample_key Method_AcquireLease x11)
           (sample_digest x11) sample_reason [Op_admit (sample_input x12 x12)] (sample_input x11 x11)).
  reflexivity.
Defined.

Lemma index_identity_and_overwrite_witness :
  let idx := (index_admit toy_hash64 sample_index (sample_input x11 x11)).1 in
  get_operation toy_hash64 idx (sample_key Method_AcquireLease x12) (sample_digest x12) =
    OpState_Pending.
Proof.
  eapply (index_identity_and_overwrite toy_hash64 sample_index (sample_input x11 x11) _
            (sample_input x12 x12) sample_reason); reflexivity.
Defined.
