(* ===== verification/Authority.v ===== *)
(** * Peer authority

    [authority.rs] of the resource crate: the verified connection binding, the peer
    context and the time-limited capability bound from it. *)

From Stdlib Require Import NArith Strings.Byte Lia.
From S2P Require Import Prelude Identity Model Samples.

(** resource/authority.rs:8-11 [ConnectionBinding] *)
Record ConnectionBinding := MkConnectionBinding { ConnectionBinding_0 : ConnectionBindingDigest }.

(** resource/authority.rs:19-25 [TryFrom<ConnectionBindingDigest> for ConnectionBinding] *)
Definition ConnectionBinding_try_from (digest : ConnectionBindingDigest) :
    result string ConnectionBinding := Ok (MkConnectionBinding digest).

(** resource/authority.rs:27-32 [VerifiedConnectionMetadata] *)
Record VerifiedConnectionMetadata := MkVerifiedConnectionMetadata {
  vcm_principal : PrincipalDigest;
  vcm_connection : ConnectionBinding;
}.

(** resource/authority.rs:41-51 [TryFrom<(PrincipalDigest, ConnectionBindingDigest)> for VerifiedConnectionMetadata] *)
Definition VerifiedConnectionMetadata_try_from (principal : PrincipalDigest)
    (connection : ConnectionBindingDigest) : result string VerifiedConnectionMetadata :=
  connection ← ConnectionBinding_try_from connection;
  Ok (MkVerifiedConnectionMetadata principal connection).

(** resource/authority.rs:53-58 [PeerContext] *)
Record PeerContext := MkPeerContext {
  pc_principal : PrincipalDigest;
  pc_connection : ConnectionBinding;
}.

(** resource/authority.rs:66-75 [TryFrom<VerifiedConnectionMetadata> for PeerContext] *)
Definition PeerContext_try_from (metadata : VerifiedConnectionMetadata) : result string PeerContext :=
  Ok (MkPeerContext (vcm_principal metadata) (vcm_connection metadata)).

(** resource/authority.rs:117-125 [PeerCapability] *)
Record PeerCapability := MkPeerCapability {
  cap_connection : ConnectionBinding;
  cap_principal : PrincipalDigest;
  cap_authority : AuthorityEpoch;
  cap_operation : OperationMethod;
  cap_expires_at : MonotonicTick;
}.

#[export] Instance ConnectionBinding_eq_dec : EqDecision ConnectionBinding. Proof. solve_decision. Defined.
#[export] Instance VerifiedConnectionMetadata_eq_dec : EqDecision VerifiedConnectionMetadata.
Proof. solve_decision. Defined.
#[export] Instance PeerContext_eq_dec : EqDecision PeerContext. Proof. solve_decision. Defined.
#[export] Instance PeerCapability_eq_dec : EqDecision PeerCapability. Proof. solve_decision. Defined.
#[export] Instance ConnectionBinding_countable : Countable ConnectionBinding.
Proof. refine (inj_countable' ConnectionBinding_0 MkConnectionBinding _). by intros []. Defined.

(** resource/authority.rs:133-155 [TryFrom<(ConnectionBinding, PrincipalDigest, AuthorityEpoch, OperationMethod, MonotonicTick)> for PeerCapability] *)
Definition PeerCapability_try_from (connection : ConnectionBinding) (principal : PrincipalDigest)
    (authority : AuthorityEpoch) (operation : OperationMethod) (expires_at : MonotonicTick) :
    result string PeerCapability :=
  Ok (MkPeerCapability connection principal authority operation expires_at).

(** resource/authority.rs:90-94 [PeerContext::verify_declared_principal] *)
Definition verify_declared_principal (p : PeerContext) (declared : PrincipalDigest) : bool :=
  bool_decide (pc_principal p = declared).

(** resource/authority.rs:96-114 [PeerContext::bind_capability] *)
Definition bind_capability (p : PeerContext) (operation : OperationMethod)
    (authority : AuthorityEpoch) (expires_at : MonotonicTick) : result string PeerCapability :=
  PeerCapability_try_from (pc_connection p) (pc_principal p) authority operation expires_at.

(** resource/authority.rs:164-168 [PeerCapability::can_forward_to] *)
Definition can_forward_to (c : PeerCapability) (other : ConnectionBinding) : bool :=
  bool_decide (cap_connection c = other).

(** resource/authority.rs:170-174 [PeerCapability::is_expired_at] *)
Definition is_expired_at (c : PeerCapability) (now : MonotonicTick) : bool :=
  MonotonicTick_exceeded_by (cap_expires_at c) now.

(** resource/authority.rs:176-191 [PeerCapability::authorizes] *)
Definition authorizes (c : PeerCapability) (principal : PrincipalDigest)
    (connection : ConnectionBinding) (operation : OperationMethod) (authority : AuthorityEpoch)
    (now : MonotonicTick) : bool :=
  bool_decide (cap_principal c = principal)
  && bool_decide (cap_connection c = connection)
  && bool_decide (cap_operation c = operation)
  && bool_decide (cap_authority c = authority)
  && negb (is_expired_at c now).

(** ** Properties *)

(** A capability bound from a peer context authorizes exactly the request it was
    bound for: the context's own principal on the context's own connection, for the
    bound operation and authority epoch, up to and including the expiry tick; it
    forwards to no other connection, and a later tick never revives it. *)
Theorem capability_scope m ctx op authority expires cap principal connection op' authority' now :
  PeerContext_try_from m = Ok ctx →
  bind_capability ctx op authority expires = Ok cap →
  (authorizes cap principal connection op' authority' now = true ↔
     principal = vcm_principal m ∧ connection = vcm_connection m ∧ op' = op ∧
     authority' = authority ∧ (MonotonicTick_0 now ≤ MonotonicTick_0 expires)%N) ∧
  (can_forward_to cap connection = true ↔ connection = vcm_connection m) ∧
  (∀ later, (MonotonicTick_0 now ≤ MonotonicTick_0 later)%N →
     authorizes cap principal connection op' authority' later = true →
     authorizes cap principal connection op' authority' now = true).
Proof.
  intros [= <-] [= <-]. unfold authorizes, can_forward_to, is_expired_at, MonotonicTick_exceeded_by.
  simpl. rewrite !andb_true_iff, !negb_true_iff, !bool_decide_eq_true, !N.ltb_ge.
  split_and!; [naive_solver..|]. intros later Hl.
  rewrite !andb_true_iff, !negb_true_iff, !bool_decide_eq_true, !N.ltb_ge. intros (? & ?).
  split; [done|lia].
Qed.

Definition sample_peer : VerifiedConnectionMetadata :=
  MkVerifiedConnectionMetadata (MkPrincipalDigest (dg x09))
    (MkConnectionBinding (MkConnectionBindingDigest (dg x0c))).

Lemma capability_scope_witness :
  ∃ cap, can_forward_to cap (vcm_connection sample_peer) = true ↔
    vcm_connection sample_peer = vcm_connection sample_peer.
Proof.
  eexists. eapply (capability_scope sample_peer _ Method_Connect (MkAuthorityEpoch 1)
    (MkMonotonicTick 10) _ (vcm_principal sample_peer) (vcm_connection sample_peer) Method_Connect
    (MkAuthorityEpoch 1) (MkMonotonicTick 10)); reflexivity.
Defined.
