(* ===== verification/Delivery.v ===== *)
(** * Ownership-token delivery

    [delivery.rs] of the resource crate: one delivery slot per connection, holding
    at most one unacknowledged ownership token, which resolves for good when the
    token is acknowledged or the connection is terminated.

    The registry is a finite map from connection bindings to slots; [HeldToken] is a
    borrow of the held token, represented by the token. The theorems are about the
    tokens a connection ever sees. *)

From Stdlib Require Import NArith Strings.Byte Lia.
From S2P Require Import Prelude Identity Model Samples Authority.

(** resource/delivery.rs:56-74 [DeliveryOutcome] *)
Inductive DeliveryOutcome :=
  | Issued (token : TokenDigest)
  | Replayed (token : TokenDigest)
  | OtherKeyHeld
  | VersionPending
  | DO_IdempotencyConflict
  | AlreadyDelivered.

(** resource/delivery.rs:76-85 [AckOutcome] *)
Inductive AckOutcome := Cleared | Mismatch | NoSlot.

(** resource/delivery.rs:87-97 [TerminateOutcome] *)
Inductive TerminateOutcome :=
  | Invalidated (token : TokenDigest) (ownership_version : OwnershipVersion)
  | NothingHeld.

(** resource/delivery.rs:99-106 [OwnershipTokenSlot] *)
Record OwnershipTokenSlot := MkOwnershipTokenSlot {
  ots_key : OperationLookupKey;
  ots_request_digest : RequestDigest;
  ots_ownership_version : OwnershipVersion;
  ots_token : TokenDigest;
}.

(** resource/delivery.rs:108-118 [ConnectionSlot] *)
Inductive ConnectionSlot :=
  | Holding (slot : OwnershipTokenSlot)
  | Resolved (key : OperationLookupKey) (ownership_version : OwnershipVersion).

(** resource/delivery.rs:120-124 [OwnershipTokenDelivery] *)
Record OwnershipTokenDelivery := MkOwnershipTokenDelivery {
  slots : gmap ConnectionBinding ConnectionSlot;
}.

(** resource/delivery.rs:126-134 [TokenDeliveryRequest] *)
Record TokenDeliveryRequest := MkTokenDeliveryRequest {
  tdr_connection : ConnectionBinding;
  tdr_key : OperationLookupKey;
  tdr_request_digest : RequestDigest;
  tdr_ownership_version : OwnershipVersion;
  tdr_candidate_token : TokenDigest;
}.

(** resource/delivery.rs:136-144 [OwnershipTokenAck] *)
Record OwnershipTokenAck := MkOwnershipTokenAck {
  ota_connection : ConnectionBinding;
  ota_key : OperationLookupKey;
  ota_request_digest : RequestDigest;
  ota_ownership_version : OwnershipVersion;
  ota_token : TokenDigest;
}.

(** resource/delivery.rs:147-153 [OwnershipTokenDelivery::new] *)
Definition delivery_new : OwnershipTokenDelivery := MkOwnershipTokenDelivery ∅.

(** resource/delivery.rs:155-211 [OwnershipTokenDelivery::deliver] *)
Definition deliver (d : OwnershipTokenDelivery) (request : TokenDeliveryRequest) :
    OwnershipTokenDelivery * DeliveryOutcome :=
  match slots d !! tdr_connection request with
  | None =>
      (MkOwnershipTokenDelivery
         (<[tdr_connection request := Holding (MkOwnershipTokenSlot (tdr_key request)
              (tdr_request_digest request) (tdr_ownership_version request)
              (tdr_candidate_token request))]> (slots d)),
       Issued (tdr_candidate_token request))
  | Some (Holding slot) =>
      (d, if negb (bool_decide (ots_ownership_version slot = tdr_ownership_version request))
          then VersionPending
          else if negb (bool_decide (ots_key slot = tdr_key request)) then OtherKeyHeld
          else if negb (bool_decide (ots_request_digest slot = tdr_request_digest request))
          then DO_IdempotencyConflict
          else Replayed (ots_token slot))
  | Some (Resolved rk rv) =>
      (d, if negb (bool_decide (rv = tdr_ownership_version request)) then VersionPending
          else if negb (bool_decide (rk = tdr_key request)) then OtherKeyHeld
          else AlreadyDelivered)
  end.

(** resource/delivery.rs:213-249 [OwnershipTokenDelivery::ack] *)
Definition ack (d : OwnershipTokenDelivery) (request : OwnershipTokenAck) :
    OwnershipTokenDelivery * AckOutcome :=
  match slots d !! ota_connection request with
  | None | Some (Resolved _ _) => (d, NoSlot)
  | Some (Holding slot) =>
      let matches := bool_decide (ots_ownership_version slot = ota_ownership_version request)
        && bool_decide (ots_key slot = ota_key request)
        && bool_decide (ots_request_digest slot = ota_request_digest request)
        && bool_decide (ots_token slot = ota_token request) in
      if matches then
        (MkOwnershipTokenDelivery
           (<[ota_connection request := Resolved (ots_key slot) (ots_ownership_version slot)]> (slots d)),
         Cleared)
      else (d, Mismatch)
  end.

(** resource/delivery.rs:251-275 [OwnershipTokenDelivery::terminate_connection] *)
Definition terminate_connection (d : OwnershipTokenDelivery) (connection : ConnectionBinding) :
    OwnershipTokenDelivery * TerminateOutcome :=
  match slots d !! connection with
  | None | Some (Resolved _ _) => (d, NothingHeld)
  | Some (Holding slot) =>
      (MkOwnershipTokenDelivery
         (<[connection := Resolved (ots_key slot) (ots_ownership_version slot)]> (slots d)),
       Invalidated (ots_token slot) (ots_ownership_version slot))
  end.

(** ** Histories *)

Inductive delivery_op :=
  | Op_deliver (r : TokenDeliveryRequest)
  | Op_ack (r : OwnershipTokenAck)
  | Op_terminate (c : ConnectionBinding).

(** A step, with the token it released and whether the token was issued by it. *)
Definition delivery_step (d : OwnershipTokenDelivery) (op : delivery_op) :
    OwnershipTokenDelivery * list (ConnectionBinding * TokenDigest * bool) :=
  match op with
  | Op_deliver r =>
      let '(d, out) := deliver d r in
      (d, match out with
          | Issued t => [(tdr_connection r, t, true)]
          | Replayed t => [(tdr_connection r, t, false)]
          | _ => []
          end)
  | Op_ack r => ((ack d r).1, [])
  | Op_terminate c => ((terminate_connection d c).1, [])
  end.

Fixpoint delivery_run (d : OwnershipTokenDelivery) (ops : list delivery_op) :
    OwnershipTokenDelivery * list (ConnectionBinding * TokenDigest * bool) :=
  match ops with
  | [] => (d, [])
  | op :: ops =>
      let '(d, out) := delivery_step d op in
      let '(d, outs) := delivery_run d ops in
      (d, out ++ outs)
  end.

(** What one connection sees: the tokens released to it, with their issue marks. *)
Definition seen_by (c : ConnectionBinding) (out : list (ConnectionBinding * TokenDigest * bool)) :
    list (TokenDigest * bool) :=
  (λ x, (x.1.2, x.2)) <$> filter (λ x, x.1.1 = c) out.

(** ** The slot of one connection as an automaton *)

Inductive slot_state := SEmpty | SHeld (t : TokenDigest) | SDone.

Definition slot_state_of (d : OwnershipTokenDelivery) (c : ConnectionBinding) : slot_state :=
  match slots d !! c with
  | None => SEmpty
  | Some (Holding s) => SHeld (ots_token s)
  | Some (Resolved _ _) => SDone
  end.

Inductive slot_step : slot_state → list (TokenDigest * bool) → slot_state → Prop :=
  | slot_issue t : slot_step SEmpty [(t, true)] (SHeld t)
  | slot_replay t : slot_step (SHeld t) [(t, false)] (SHeld t)
  | slot_resolve t : slot_step (SHeld t) [] SDone
  | slot_silent s : slot_step s [] s.
#[export] Hint Constructors slot_step : exv.

Inductive slot_steps : slot_state → list (TokenDigest * bool) → slot_state → Prop :=
  | slot_steps_nil s : slot_steps s [] s
  | slot_steps_cons s out s' outs s'' :
      slot_step s out s' → slot_steps s' outs s'' → slot_steps s (out ++ outs) s''.
#[export] Hint Constructors slot_steps : exv.

(** Every step of the registry is one step of the slot of every connection. *)
Lemma delivery_step_refines d op c :
  slot_step (slot_state_of d c) (seen_by c (delivery_step d op).2)
    (slot_state_of (delivery_step d op).1 c).
Proof.
  destruct op as [r|r|c']; simpl; unfold deliver, ack, terminate_connection, seen_by, slot_state_of.
  - destruct (decide (tdr_connection r = c)) as [<-|Hne].
    + destruct (slots d !! tdr_connection r) as [[]|] eqn:E; simpl;
        repeat case_bool_decide; simpl; rewrite ?filter_cons, ?decide_True by done;
        rewrite ?E, ?lookup_insert_eq; csimpl; eauto with exv.
    + destruct (slots d !! tdr_connection r) as [[]|] eqn:E; simpl;
        repeat case_bool_decide; simpl; rewrite ?filter_cons, ?decide_False by done;
        rewrite ?lookup_insert_ne by done; eauto with exv.
  - destruct (decide (ota_connection r = c)) as [<-|Hne];
      destruct (slots d !! ota_connection r) as [[]|] eqn:E; simpl; try rewrite E; eauto with exv;
      repeat case_bool_decide; simpl; rewrite ?E, ?lookup_insert_eq, ?lookup_insert_ne by done;
      eauto with exv.
  - destruct (decide (c' = c)) as [<-|Hne];
      destruct (slots d !! c') as [[]|] eqn:E; simpl; try rewrite E; eauto with exv;
      rewrite ?lookup_insert_eq, ?lookup_insert_ne by done; eauto with exv.
Qed.

Lemma delivery_run_slot_steps ops c : ∀ d,
  slot_steps (slot_state_of d c) (seen_by c (delivery_run d ops).2)
    (slot_state_of (delivery_run d ops).1 c).
Proof.
  induction ops as [|op ops IH]; intros d; [constructor|].
  cbn [delivery_run]. pose proof (delivery_step_refines d op c) as Hs.
  destruct (delivery_step d op) as [d1 out]. specialize (IH d1).
  destruct (delivery_run d1 ops) as [d2 outs]. simpl in *.
  unfold seen_by in *. rewrite list.filter_app, fmap_app. econstructor; eauto.
Qed.

Lemma slot_steps_done outs s : slot_steps SDone outs s → outs = [] ∧ s = SDone.
Proof.
  intros H. remember SDone as s0 eqn:E. induction H as [|? out s' outs s'' Hst _ IH]; [done|].
  subst. inversion Hst; subst. destruct (IH eq_refl) as [-> ->]. done.
Qed.

Lemma slot_steps_held t outs s : slot_steps (SHeld t) outs s → ∃ n, outs = replicate n (t, false).
Proof.
  intros H. remember (SHeld t) as s0 eqn:E. revert t E.
  induction H as [|? out s' outs s'' Hst Hs IH]; intros t E; [by exists 0|]. subst.
  inversion Hst; subst.
  - destruct (IH t eq_refl) as [n ->]. by exists (S n).
  - apply slot_steps_done in Hs as [-> _]. by exists 0.
  - by apply IH.
Qed.

Lemma slot_steps_empty outs s :
  slot_steps SEmpty outs s → outs = [] ∨ ∃ t n, outs = (t, true) :: replicate n (t, false).
Proof.
  intros H. remember SEmpty as s0 eqn:E. induction H as [|? out s' outs s'' Hst Hs IH]; [by left|].
  subst. inversion Hst; subst; [|by apply IH].
  apply slot_steps_held in Hs as [n ->]. right. eauto.
Qed.

(** ** Properties *)


(** A connection never sees two tokens: over its whole life the registry either
    releases nothing to it, or issues one token once, and everything it releases to
    it afterwards is a replay of that same token. *)
Theorem one_token_per_connection ops c :
  let seen := seen_by c (delivery_run delivery_new ops).2 in
  seen = [] ∨ ∃ t n, seen = (t, true) :: replicate n (t, false).
Proof.
  apply (slot_steps_empty _ (slot_state_of (delivery_run delivery_new ops).1 c)).
  apply (delivery_run_slot_steps ops c delivery_new).
Qed.

(** A resolved slot is final: once an acknowledgement was accepted, which takes
    the exact key, digest, version and token that were issued, or the connection was
    terminated while it held a token, no later request makes the registry release a
    token to that connection again. *)
Theorem resolved_is_final d c ops :
  (∀ r, ota_connection r = c → (ack d r).2 = Cleared →
     slots d !! c = Some (Holding (MkOwnershipTokenSlot (ota_key r) (ota_request_digest r)
                                     (ota_ownership_version r) (ota_token r))) ∧
     seen_by c (delivery_run (ack d r).1 ops).2 = []) ∧
  (∀ t v, (terminate_connection d c).2 = Invalidated t v →
     seen_by c (delivery_run (terminate_connection d c).1 ops).2 = []).
Proof.
  assert (Hdone : ∀ d', slot_state_of d' c = SDone → seen_by c (delivery_run d' ops).2 = []).
  { intros d' Hd'. pose proof (delivery_run_slot_steps ops c d') as H. rewrite Hd' in H.
    by apply slot_steps_done in H as [-> _]. }
  split.
  - intros r <-. unfold ack. destruct (slots d !! ota_connection r) as [[[k q v t]|]|] eqn:E; simpl; try done.
    repeat case_bool_decide; simpl; try done. intros _. subst. split; [done|].
    apply Hdone. unfold slot_state_of; simpl. by rewrite lookup_insert_eq.
  - intros t v. unfold terminate_connection.
    destruct (slots d !! c) as [[slot|]|] eqn:E; simpl; try done. intros _.
    apply Hdone. unfold slot_state_of; simpl. by rewrite lookup_insert_eq.
Qed.

(** A termination that finds nothing held leaves the slot empty: the connection can
    still be issued a token afterwards. *)
Example terminate_empty_then_issue :
  let c := vcm_connection sample_peer in
  let r := MkTokenDeliveryRequest c (sample_key Method_AcquireLease x11) (sample_digest x11)
             (sample_version 1) (MkTokenDigest (dg x06)) in
  (terminate_connection delivery_new c).2 = NothingHeld ∧
  (deliver (terminate_connection delivery_new c).1 r).2 = Issued (MkTokenDigest (dg x06)).
Proof. split; vm_compute; reflexivity. Qed.
