(* ===== verification/Retirement.v ===== *)
(** * The retirement saga

    [retirement.rs] of the resource crate: the ordered phases by which an ownership
    is retired, from sealing the retirement operation to the clean proof and the next
    ownership version.

    The saga uses the record codec through the interface [RecordCodec] only. A
    method takes the saga and returns it with its result; the duplicate-free set
    [seen] of the observation loop is a [gset]. *)

From Stdlib Require Import NArith Strings.Byte Lia.
From stdpp Require Import gmap fin_sets.
From S2P Require Import Prelude Identity Model Samples Admission.

(** resource/retirement.rs:35-48 [RetirementPhase] *)
Inductive RetirementPhase := Phase_Pending | Phase_Started | Phase_Observed | Phase_Proved | Phase_Retired.
#[export] Instance RetirementPhase_eq_dec : EqDecision RetirementPhase. Proof. solve_decision. Defined.

(** resource/retirement.rs:50-58 [InventoryPredicate] *)
Record InventoryPredicate := MkInventoryPredicate { inv_label : byte; inv_verified : bool }.

(** resource/retirement.rs:60-75 [ProveCleanInput] *)
Record ProveCleanInput := MkProveCleanInput {
  pci_runtime_epoch : RuntimeEpoch;
  pci_cleanup_trigger_digest : CleanupTriggerDigest;
  pci_external_trigger_digest : option ExternalOperationDigest;
  pci_journal_root_or_projection_digest : JournalRootDigest;
  pci_platform_evidence : VersionedPlatformEvidence;
  pci_prior_token_digest : option TokenDigest;
}.

(** resource/retirement.rs:89-101 [RetirementSaga] *)
Record RetirementSaga := MkRetirementSaga {
  sg_authority_epoch : AuthorityEpoch;
  sg_authority_instance : PlatformAuthorityInstanceId;
  sg_admission_watermark : AdmissionWatermark;
  sg_journal_revision : JournalRevision;
  sg_prior_ownership_version : OwnershipVersion;
  sg_retirement_operation_id : option RetirementOperationId;
  sg_expected_obligations : list byte;
  sg_canonical_inventory_digest : InventoryDigest;
  sg_next_ownership_version : option OwnershipVersion;
  sg_phase : RetirementPhase;
}.

(** resource/retirement.rs:77-87 [validate_clean_proof] *)
Definition validate_clean_proof (proof : CleanProof) : result string () :=
  if negb (cp_unresolved_obligation_count proof =? 0)%N
  then Err "clean proof: unresolved obligation count must be zero"
  else Ok ().

(** resource/retirement.rs:104-119 [RetirementSaga::new] *)
Definition RetirementSaga_new (authority : AuthorityFence) (prior_ownership_version : OwnershipVersion) :
    RetirementSaga :=
  MkRetirementSaga (af_authority_epoch authority) (af_platform_authority_instance_id authority)
    (af_admission_watermark authority) (af_journal_revision authority) prior_ownership_version
    None [] (MkInventoryDigest (array_fill 32 x00)) None Phase_Pending.

(** [self.phase = phase]. *)
Definition set_phase (phase : RetirementPhase) (s : RetirementSaga) : RetirementSaga :=
  MkRetirementSaga (sg_authority_epoch s) (sg_authority_instance s) (sg_admission_watermark s)
    (sg_journal_revision s) (sg_prior_ownership_version s) (sg_retirement_operation_id s)
    (sg_expected_obligations s) (sg_canonical_inventory_digest s) (sg_next_ownership_version s) phase.

(** [Uuid::from_u128]. *)
Definition Uuid_from_u128 (n : N) : Uuid := default Uuid_nil (to_array 16 (be_bytes 16 n)).

(** resource/retirement.rs:145-171 [RetirementSaga::begin] *)
Definition retirement_admission (s : RetirementSaga) (id : RetirementOperationId) : MutationAdmitted :=
  MkMutationAdmitted MK_Retirement (JOI_Retirement id)
    (MkEffectId (Uuid_from_u128 0xF00D000000000000))
    (MkCanonicalInputDigest (array_fill 32 x11)) (MkPrincipalDigest (array_fill 32 x99))
    (sg_authority_epoch s) (sg_authority_instance s) (sg_admission_watermark s)
    (sg_prior_ownership_version s) (RecoveryAuthority id)
    (MkResourceIdentityDigest (array_fill 32 x77)) (MkAppliedFingerprint (array_fill 32 x44))
    (MkAppliedFingerprint (array_fill 32 x55)) (MkObligationSeed (array_fill 32 x66)).

(** resource/retirement.rs:196-213 [RetirementSaga::grant_cleanup] *)
Definition grant_cleanup (s : RetirementSaga) (id : RetirementOperationId) : result string () :=
  if negb (bool_decide (sg_phase s = Phase_Started)) then Err "retirement: cleanup not started"
  else if negb (bool_decide (sg_retirement_operation_id s = Some id))
  then Err "retirement: forged parallel retirement identity"
  else Ok ().

(** resource/retirement.rs:215-243 [RetirementSaga::observe_cleanup]: the loop over the
    observed predicates. *)
Fixpoint observe_all (expected : list byte) (seen : gset byte) (observed : list InventoryPredicate) :
    result string (gset byte) :=
  match observed with
  | [] => Ok seen
  | obs :: observed =>
      if negb (inv_verified obs) then Err "retirement: unverified inventory predicate"
      else if negb (bool_decide (inv_label obs ∈ expected))
      then Err "retirement: unexpected obligation label"
      else observe_all expected ({[inv_label obs]} ∪ seen) observed
  end.

(** resource/retirement.rs:215-243 [RetirementSaga::observe_cleanup] *)
Definition observe_cleanup (s : RetirementSaga) (observed : list InventoryPredicate) :
    RetirementSaga * result string () :=
  if negb (bool_decide (sg_phase s = Phase_Started)) then (s, Err "retirement: cleanup not started")
  else
    match observe_all (sg_expected_obligations s) ∅ observed with
    | Err e => (s, Err e)
    | Ok seen =>
        if negb (size seen =? length (sg_expected_obligations s))
        then (s, Err "retirement: incomplete inventory")
        else (set_phase Phase_Observed s, Ok ())
    end.

(** resource/retirement.rs:245-277 [RetirementSaga::prove_clean] *)
Definition prove_clean (s : RetirementSaga) (input : ProveCleanInput) :
    RetirementSaga * result string CleanProof :=
  if negb (bool_decide (sg_phase s = Phase_Observed)) then (s, Err "retirement: cleanup not observed")
  else
    match sg_retirement_operation_id s with
    | None => (s, Err "retirement: no durable operation id")
    | Some id =>
        let proof := MkCleanProof (pci_runtime_epoch input) (sg_authority_instance s)
          (sg_prior_ownership_version s) (pci_prior_token_digest input) id
          (pci_cleanup_trigger_digest input) (pci_external_trigger_digest input)
          (sg_canonical_inventory_digest s) (pci_journal_root_or_projection_digest input)
          (sg_journal_revision s) (pci_platform_evidence input) 0 in
        match validate_clean_proof proof with
        | Err e => (s, Err e)
        | Ok _ => (set_phase Phase_Proved s, Ok proof)
        end
    end.

(** resource/retirement.rs:279-300 [RetirementSaga::retire_ownership] *)
Definition retire_ownership (s : RetirementSaga) (next : OwnershipVersion) :
    RetirementSaga * result string OwnershipRetired :=
  if negb (bool_decide (sg_phase s = Phase_Proved)) then (s, Err "retirement: not proved")
  else
    match sg_next_ownership_version s with
    | Some _ => (s, Err "retirement: ownership already retired")
    | None =>
        (MkRetirementSaga (sg_authority_epoch s) (sg_authority_instance s) (sg_admission_watermark s)
           (sg_journal_revision s) (sg_prior_ownership_version s) (sg_retirement_operation_id s)
           (sg_expected_obligations s) (sg_canonical_inventory_digest s) (Some next) Phase_Retired,
         Ok (MkOwnershipRetired next))
    end.

Section saga.
Context `{RecordCodec}.

(** resource/retirement.rs:121-194 [RetirementSaga::begin] *)
Definition begin (s : RetirementSaga) (id : RetirementOperationId) (_trigger : CleanupTrigger)
    (_origin_subject : ErrorSubject) (_prior : PlatformOwnershipRef)
    (expected_obligations : list byte) (canonical_inventory_digest : InventoryDigest) :
    RetirementSaga * result string () :=
  match sg_retirement_operation_id s with
  | Some _ => (s, Err "retirement: already started")
  | None =>
      let sealed := codec_encode (AR_Admitted (retirement_admission s id)) in
      match codec_decode sealed with
      | Ok (AR_Admitted recovered) =>
          if negb (bool_decide (ma_journal_operation_identity recovered = JOI_Retirement id))
          then (s, Err "retirement: journal operation identity not reproduced")
          else if negb (bool_decide (ma_authorization_subject recovered = RecoveryAuthority id))
          then (s, Err "retirement: recovery authority subject not reproduced")
          else
            (MkRetirementSaga (sg_authority_epoch s) (sg_authority_instance s)
               (sg_admission_watermark s) (sg_journal_revision s) (sg_prior_ownership_version s)
               (Some id) expected_obligations canonical_inventory_digest
               (sg_next_ownership_version s) Phase_Started,
             Ok ())
      | _ => (s, Err "retirement: admission record round-trip failed")
      end
  end.

(** ** Histories *)

Inductive saga_op :=
  | Op_begin (id : RetirementOperationId) (trigger : CleanupTrigger) (origin : ErrorSubject)
      (prior : PlatformOwnershipRef) (expected : list byte) (inventory : InventoryDigest)
  | Op_grant (id : RetirementOperationId)
  | Op_observe (observed : list InventoryPredicate)
  | Op_prove (input : ProveCleanInput)
  | Op_retire (next : OwnershipVersion).

(** What a call that succeeded did. *)
Inductive saga_event :=
  | Ev_begun (id : RetirementOperationId) (expected : list byte) (inventory : InventoryDigest)
  | Ev_granted (id : RetirementOperationId)
  | Ev_observed (observed : list InventoryPredicate)
  | Ev_proved (proof : CleanProof)
  | Ev_retired (next : OwnershipVersion).

Definition saga_step (s : RetirementSaga) (op : saga_op) : RetirementSaga * list saga_event :=
  match op with
  | Op_begin id trigger origin prior expected inventory =>
      let '(s, r) := begin s id trigger origin prior expected inventory in
      (s, if is_ok r then [Ev_begun id expected inventory] else [])
  | Op_grant id => (s, if is_ok (grant_cleanup s id) then [Ev_granted id] else [])
  | Op_observe observed =>
      let '(s, r) := observe_cleanup s observed in
      (s, if is_ok r then [Ev_observed observed] else [])
  | Op_prove input =>
      let '(s, r) := prove_clean s input in
      (s, match r with Ok p => [Ev_proved p] | Err _ => [] end)
  | Op_retire next =>
      let '(s, r) := retire_ownership s next in
      (s, if is_ok r then [Ev_retired next] else [])
  end.

Fixpoint saga_run (s : RetirementSaga) (ops : list saga_op) : RetirementSaga * list saga_event :=
  match ops with
  | [] => (s, [])
  | op :: ops =>
      let '(s, e) := saga_step s op in
      let '(s, es) := saga_run s ops in
      (s, e ++ es)
  end.

Lemma saga_run_cons s op ops :
  (saga_run s (op :: ops)).2 = (saga_step s op).2 ++ (saga_run (saga_step s op).1 ops).2.
Proof. cbn [saga_run]. destruct (saga_step s op) as [s' e]. simpl. by destruct (saga_run s' ops). Qed.

(** ** Complete inventories *)

(** Every observed predicate is verified and the labels observed are exactly the
    expected obligations, which are listed without repetition. *)
Definition complete (expected : list byte) (observed : list InventoryPredicate) : Prop :=
  Forall (λ o, inv_verified o = true) observed ∧ NoDup expected ∧
  ∀ l, l ∈ expected ↔ l ∈ inv_label <$> observed.

Lemma observe_all_Ok expected observed : ∀ seen out,
  observe_all expected seen observed = Ok out ↔
  Forall (λ o, inv_verified o = true ∧ inv_label o ∈ expected) observed ∧
  out = list_to_set (inv_label <$> observed) ∪ seen.
Proof.
  induction observed as [|o observed IH]; intros seen out; simpl.
  - split; [intros [= <-]; split; [constructor|set_solver]|intros [_ ->]; f_equal; set_solver].
  - rewrite Forall_cons. destruct (inv_verified o); simpl; [|naive_solver].
    case_bool_decide; simpl; [|naive_solver]. rewrite IH.
    assert (E : list_to_set (inv_label <$> observed) ∪ ({[inv_label o]} ∪ seen) =
      {[inv_label o]} ∪ list_to_set (inv_label <$> observed) ∪ seen) by set_solver.
    rewrite E. naive_solver.
Qed.

Lemma size_list_to_set_NoDup (l : list byte) :
  size (list_to_set l : gset byte) ≤ length l ∧
  (size (list_to_set l : gset byte) = length l → NoDup l).
Proof.
  induction l as [|b l [IH1 IH2]]; simpl; [split; [done|constructor]|].
  destruct (decide (b ∈ l)) as [Hb|Hb].
  - assert ({[b]} ∪ list_to_set l = (list_to_set l : gset byte)) as -> by set_solver. split; lia.
  - rewrite size_union by set_solver. rewrite size_singleton. split; [lia|].
    intros. constructor; [done|]. apply IH2. lia.
Qed.

Lemma observe_cleanup_Ok s observed :
  (observe_cleanup s observed).2 = Ok () ↔
  sg_phase s = Phase_Started ∧ complete (sg_expected_obligations s) observed.
Proof.
  unfold observe_cleanup. case_bool_decide as Hp; simpl; [|naive_solver].
  set (exp := sg_expected_obligations s).
  set (seen := list_to_set (inv_label <$> observed) : gset byte).
  destruct (observe_all exp ∅ observed) as [out|e] eqn:E.
  - apply observe_all_Ok in E as [Hf ->]. rewrite union_empty_r_L. fold seen.
    assert (Hsub : seen ⊆ list_to_set exp).
    { intros l. unfold seen. rewrite !elem_of_list_to_set, list_elem_of_fmap.
      intros (o & -> & Ho). rewrite Forall_forall in Hf. by apply Hf. }
    destruct (size_list_to_set_NoDup exp) as [Hle Hnd].
    pose proof (subseteq_size _ _ Hsub) as Hsz.
    destruct (Nat.eqb_spec (size seen) (length exp)) as [Heq|Hne]; simpl.
    + split; [intros _|done]. split; [done|]. split_and!; [|apply Hnd; lia|].
      { eapply Forall_impl; [exact Hf|]. naive_solver. }
      assert (Hall : seen ≡ list_to_set exp).
      { apply set_subseteq_size_equiv; [done|lia]. }
      intros l. rewrite <-(elem_of_list_to_set (C := gset byte)), <-Hall.
      unfold seen. apply elem_of_list_to_set.
    + split; [done|]. intros (_ & _ & Hn & Hl). destruct Hne.
      assert (seen = list_to_set exp) as ->.
      { apply set_eq. intros l. unfold seen. rewrite !elem_of_list_to_set. by rewrite Hl. }
      by apply size_list_to_set.
  - split; [done|]. intros (_ & Hv & _ & Hl).
    assert (observe_all exp ∅ observed = Ok (seen ∪ ∅)) as Ho; [|congruence].
    apply observe_all_Ok. split; [|done]. rewrite Forall_forall in Hv |- *.
    intros o Ho. split; [by apply Hv|]. apply Hl. apply list_elem_of_fmap. eauto.
Qed.

(** ** The lawful histories *)

Section lawful.
Context (authority : AuthorityFence) (prior : OwnershipVersion).

(** The proof carries the identities of the retirement it concludes. *)
Definition proof_binds (id : RetirementOperationId) (inventory : InventoryDigest) (p : CleanProof) :
    Prop :=
  cp_retirement_operation_id p = id ∧ cp_canonical_obligation_inventory_digest p = inventory ∧
  cp_platform_authority_instance p = af_platform_authority_instance_id authority ∧
  cp_prior_ownership_version p = prior ∧
  cp_journal_revision p = af_journal_revision authority ∧
  cp_unresolved_obligation_count p = 0%N.

Definition lawful_proved (t : list saga_event) : Prop := t = [] ∨ ∃ v, t = [Ev_retired v].
Definition lawful_observed id inventory (t : list saga_event) : Prop :=
  t = [] ∨ ∃ p t', t = Ev_proved p :: t' ∧ proof_binds id inventory p ∧ lawful_proved t'.
Definition lawful_started id expected inventory (t : list saga_event) : Prop :=
  ∃ n t', t = replicate n (Ev_granted id) ++ t' ∧
    (t' = [] ∨ ∃ obs t'', t' = Ev_observed obs :: t'' ∧ complete expected obs ∧
                          lawful_observed id inventory t'').
Definition lawful (t : list saga_event) : Prop :=
  t = [] ∨ ∃ id expected inventory t',
    t = Ev_begun id expected inventory :: t' ∧ lawful_started id expected inventory t'.

(** The saga after the retirement [id] was begun. *)
Definition saga_at id expected inventory next phase : RetirementSaga :=
  MkRetirementSaga (af_authority_epoch authority) (af_platform_authority_instance_id authority)
    (af_admission_watermark authority) (af_journal_revision authority) prior
    (Some id) expected inventory next phase.

(** One call on a started saga: it fails, or it is the call of the phase. *)
Lemma saga_step_at id exp inv next phase op :
  saga_step (saga_at id exp inv next phase) op = (saga_at id exp inv next phase, []) ∨
  match phase, op with
  | Phase_Started, Op_grant id' =>
      id' = id ∧
      saga_step (saga_at id exp inv next phase) op = (saga_at id exp inv next phase, [Ev_granted id])
  | Phase_Started, Op_observe obs =>
      complete exp obs ∧
      saga_step (saga_at id exp inv next phase) op =
        (saga_at id exp inv next Phase_Observed, [Ev_observed obs])
  | Phase_Observed, Op_prove _ =>
      ∃ p, proof_binds id inv p ∧
      saga_step (saga_at id exp inv next phase) op =
        (saga_at id exp inv next Phase_Proved, [Ev_proved p])
  | Phase_Proved, Op_retire v =>
      saga_step (saga_at id exp inv next phase) op =
        (saga_at id exp inv (Some v) Phase_Retired, [Ev_retired v])
  | _, _ => False
  end.
Proof.
  destruct op as [| id' | obs | input | v]; [by left|..].
  - unfold saga_step, grant_cleanup; simpl. destruct phase; simpl; try by left.
    case_bool_decide as Hid; simpl; [right; naive_solver|by left].
  - pose proof (observe_cleanup_Ok (saga_at id exp inv next phase) obs) as Hiff.
    unfold saga_step, observe_cleanup in *; simpl in *. destruct phase; simpl in *; try by left.
    destruct (observe_all exp ∅ obs) as [seen|]; [|by left].
    destruct (size seen =? length exp); simpl in *; [|by left].
    right. split; [by apply Hiff|done].
  - unfold saga_step, prove_clean; simpl. destruct phase; simpl; try by left.
    right. eexists. split; [|reflexivity]. by split_and!.
  - unfold saga_step, retire_ownership; simpl. destruct phase; simpl; try by left.
    destruct next; [by left|by right].
Qed.

Lemma run_retired id exp inv next ops : (saga_run (saga_at id exp inv next Phase_Retired) ops).2 = [].
Proof.
  induction ops as [|op ops IH]; [done|]. rewrite saga_run_cons.
  by destruct (saga_step_at id exp inv next Phase_Retired op) as [->|[]].
Qed.

Lemma run_proved id exp inv next ops :
  lawful_proved (saga_run (saga_at id exp inv next Phase_Proved) ops).2.
Proof.
  induction ops as [|op ops IH]; [by left|]. rewrite saga_run_cons.
  destruct (saga_step_at id exp inv next Phase_Proved op) as [->|Hop]; [done|].
  destruct op as [| | | |v]; try done. rewrite Hop. simpl. rewrite run_retired. right. eauto.
Qed.

Lemma run_observed id exp inv next ops :
  lawful_observed id inv (saga_run (saga_at id exp inv next Phase_Observed) ops).2.
Proof.
  induction ops as [|op ops IH]; [by left|]. rewrite saga_run_cons.
  destruct (saga_step_at id exp inv next Phase_Observed op) as [->|Hop]; [done|].
  destruct op as [| | |input|]; try done. destruct Hop as (p & Hp & ->).
  right. simpl. eauto using run_proved.
Qed.

Lemma run_started id exp inv next ops :
  lawful_started id exp inv (saga_run (saga_at id exp inv next Phase_Started) ops).2.
Proof.
  induction ops as [|op ops IH]; [by exists 0, []; auto|]. rewrite saga_run_cons.
  destruct (saga_step_at id exp inv next Phase_Started op) as [->|Hop]; [done|].
  destruct op as [|id'|obs| |]; try done.
  - destruct Hop as [-> ->]. destruct IH as (n & t' & Hes & Ht). exists (S n), t'. simpl.
    by rewrite Hes.
  - destruct Hop as [Hc ->]. exists 0. eexists. split; [done|]. right. simpl.
    eauto using run_observed.
Qed.

Lemma saga_step_new op :
  saga_step (RetirementSaga_new authority prior) op = (RetirementSaga_new authority prior, []) ∨
  ∃ id exp inv, saga_step (RetirementSaga_new authority prior) op =
    (saga_at id exp inv None Phase_Started, [Ev_begun id exp inv]).
Proof.
  destruct op as [id tr or pr exp inv|id|obs|input|v]; try by left.
  unfold saga_step, begin; simpl. destruct (codec_decode _) as [[r| |]|]; try by left.
  repeat case_bool_decide; simpl; [right|by left..]. do 3 eexists. reflexivity.
Qed.

Lemma run_new ops : lawful (saga_run (RetirementSaga_new authority prior) ops).2.
Proof.
  induction ops as [|op ops IH]; [by left|]. rewrite saga_run_cons.
  destruct (saga_step_new op) as [->|(id & exp & inv & ->)]; [done|].
  right. simpl. do 4 eexists. eauto using run_started.
Qed.
End lawful.

(** ** Properties *)

(** C34: Whatever calls are made in whatever order, the calls that succeed follow
    the retirement protocol: first the retirement is begun, once; then cleanup is
    granted, any number of times and only for the identity that was begun; then a
    complete inventory is observed, once; then one clean proof is issued, carrying
    the begun identity, inventory, authority instance, prior version and revision
    with no unresolved obligation; then ownership is retired, once, and nothing
    succeeds afterwards. *)
Theorem saga_follows_protocol authority prior ops :
  lawful authority prior (saga_run (RetirementSaga_new authority prior) ops).2.
Proof. apply run_new. Qed.

(** The observation succeeds exactly when cleanup was started, every predicate
    is verified, and the labels observed are exactly the expected obligations; an
    obligation listed twice makes that impossible. When it fails the saga is
    unchanged. *)
Theorem observation_complete s observed :
  ((observe_cleanup s observed).2 = Ok () ↔
     sg_phase s = Phase_Started ∧ complete (sg_expected_obligations s) observed) ∧
  (∀ e, (observe_cleanup s observed).2 = Err e → (observe_cleanup s observed).1 = s).
Proof.
  split; [apply observe_cleanup_Ok|]. intros e. unfold observe_cleanup.
  case_bool_decide; simpl; [|done]. destruct (observe_all _ _ _); simpl; [|done].
  by destruct (size _ =? _).
Qed.

(** A retirement can always be carried through: when the codec reproduces the
    sealed record and the obligations are listed without repetition, beginning,
    granting, observing every obligation, proving and retiring all succeed, and the
    saga ends retired at the chosen version. *)
Theorem saga_completes authority prior id tr org own expected inv input next :
  codec_faithful (AR_Admitted (retirement_admission (RetirementSaga_new authority prior) id)) →
  NoDup expected →
  let run := saga_run (RetirementSaga_new authority prior)
    [Op_begin id tr org own expected inv; Op_grant id;
     Op_observe ((λ l, MkInventoryPredicate l true) <$> expected); Op_prove input; Op_retire next] in
  sg_phase run.1 = Phase_Retired ∧ sg_next_ownership_version run.1 = Some next ∧
  ∃ p, run.2 = [Ev_begun id expected inv; Ev_granted id;
                Ev_observed ((λ l, MkInventoryPredicate l true) <$> expected); Ev_proved p;
                Ev_retired next].
Proof.
  intros Hc Hnd. set (obs := (λ l, MkInventoryPredicate l true) <$> expected).
  assert (Hb : saga_step (RetirementSaga_new authority prior) (Op_begin id tr org own expected inv) =
    (saga_at authority prior id expected inv None Phase_Started, [Ev_begun id expected inv])).
  { unfold saga_step, begin; simpl. rewrite Hc. simpl.
    by rewrite !bool_decide_eq_true_2 by done. }
  assert (Ho : (observe_cleanup (saga_at authority prior id expected inv None Phase_Started) obs).2 = Ok ()).
  { apply observe_cleanup_Ok. split; [done|]. unfold obs. split_and!; [|done|].
    - by apply Forall_fmap, Forall_true.
    - intros l. by rewrite <-list_fmap_compose, list_fmap_id. }
  cbn [saga_run]. rewrite Hb. simpl. unfold grant_cleanup; simpl.
  rewrite bool_decide_eq_true_2 by done. simpl. unfold observe_cleanup in *; simpl in *.
  destruct (observe_all expected ∅ obs); [|done].
  destruct (size _ =? _); [|done]. simpl. eauto.
Qed.
End saga.

(** ** The saga over the JSON codec *)

Section json.
Context (uuid_str : Uuid → string) (parse_str : string → option Uuid).
Context (to_vec : Value → list byte) (from_slice : list byte → option Value).
Context `{!Serde OperationMethod, !Serde MutationKind, !Serde ResourceKind,
  !Serde NativeErrorCategory, !Serde NativeErrorNamespace, !Serde NativeErrorCode,
  !Serde ErrorCode, !Serde ErrorStage, !Serde EffectCertainty, !Serde RetryAdvice,
  !Serde AppliedFingerprint, !Serde ObligationSeed}.

#[local] Instance json_codec : RecordCodec :=
  {| codec_encode := encode_record uuid_str to_vec;
     codec_decode := decode_record parse_str from_slice |}.

Lemma retirement_admission_ok s id :
  RetirementOperationId_0 id ≠ Uuid_nil →
  PlatformAuthorityInstanceId_0 (sg_authority_instance s) ≠ Uuid_nil →
  OwnershipVersion_0 (sg_prior_ownership_version s) ≠ 0%N →
  admission_record_ok (AR_Admitted (retirement_admission s id)).
Proof. intros. repeat split; simpl; try done. Qed.

(** The JSON codec discharges what the saga asks of it: wherever the JSON text
    of the sealed record parses back, a retirement with a non-nil identity under a
    non-nil authority instance and a positive prior version begins successfully. *)
Theorem begin_over_json s id tr org own expected inv :
  (∀ u, parse_str (uuid_str u) = Some u) →
  let sealed := ser_record uuid_str (AR_Admitted (retirement_admission s id)) in
  from_slice (to_vec sealed) = Some sealed →
  RetirementOperationId_0 id ≠ Uuid_nil →
  PlatformAuthorityInstanceId_0 (sg_authority_instance s) ≠ Uuid_nil →
  OwnershipVersion_0 (sg_prior_ownership_version s) ≠ 0%N →
  sg_retirement_operation_id s = None →
  (begin s id tr org own expected inv).2 = Ok () ∧
  sg_phase (begin s id tr org own expected inv).1 = Phase_Started.
Proof.
  intros Huuid sealed Hjson Hid Hinst Hv Hs. unfold begin. rewrite Hs.
  cbn [codec_encode codec_decode json_codec].
  rewrite (decode_encode_record uuid_str parse_str to_vec from_slice Huuid _
             (retirement_admission_ok s id Hid Hinst Hv) Hjson).
  simpl. by rewrite !bool_decide_eq_true_2 by done.
Qed.
End json.

(** ** A concrete retirement *)

Definition sample_saga : RetirementSaga := RetirementSaga_new sample_authority (sample_version 1).
Definition sample_retirement : RetirementOperationId := MkRetirementOperationId (uu x41).
Definition sample_sealed : AdmissionRecord :=
  AR_Admitted (retirement_admission sample_saga sample_retirement).
Definition sample_prove : ProveCleanInput :=
  MkProveCleanInput sample_epoch (MkCleanupTriggerDigest (dg x01)) None
    (MkJournalRootDigest (dg x02)) (MkVersionedPlatformEvidence 1 (MkEvidenceDigest (dg x03))) None.

(** A codec that holds the sealed record. *)
#[local] Instance sample_codec : RecordCodec :=
  {| codec_encode := λ _, [ADMISSION_RECORD_VERSION]; codec_decode := λ _, Ok sample_sealed |}.

Lemma saga_completes_witness :
  sg_phase (saga_run sample_saga
    [Op_begin sample_retirement (Trigger_OwnerLost (MkOwnerLeaseId (uu x42)))
       (Subject_Runtime sample_epoch) sample_ownership [x01; x02] (MkInventoryDigest (dg x04));
     Op_grant sample_retirement;
     Op_observe [MkInventoryPredicate x01 true; MkInventoryPredicate x02 true];
     Op_prove sample_prove; Op_retire (sample_version 2)]).1 = Phase_Retired.
Proof.
  apply (saga_completes sample_authority (sample_version 1) sample_retirement
    (Trigger_OwnerLost (MkOwnerLeaseId (uu x42))) (Subject_Runtime sample_epoch) sample_ownership
    [x01; x02] (MkInventoryDigest (dg x04)) sample_prove (sample_version 2)).
  - reflexivity.
  - apply (bool_decide_unpack _). reflexivity.
Defined.

Lemma begin_over_json_witness :
  let sealed := ser_record toy_uuid_str sample_sealed in
  (@begin (json_codec toy_uuid_str toy_parse_str (λ _, [x7b; x7d]) (λ _, Some sealed))
     sample_saga sample_retirement (Trigger_OwnerLost (MkOwnerLeaseId (uu x42)))
     (Subject_Runtime sample_epoch) sample_ownership [x01] (MkInventoryDigest (dg x04))).2 = Ok ().
Proof.
  apply (begin_over_json toy_uuid_str toy_parse_str (λ _, [x7b; x7d])
    (λ _, Some (ser_record toy_uuid_str sample_sealed))); try reflexivity; try discriminate.
  exact toy_parse_uuid_str.
Defined.

(** Nothing orders the versions: the next version may be the prior one. *)
Example retire_at_prior_version :
  let s := (saga_run sample_saga
    [Op_begin sample_retirement (Trigger_OwnerLost (MkOwnerLeaseId (uu x42)))
       (Subject_Runtime sample_epoch) sample_ownership [] (MkInventoryDigest (dg x04));
     Op_observe []; Op_prove sample_prove]).1 in
  (retire_ownership s (sg_prior_ownership_version s)).2 =
    Ok (MkOwnershipRetired (sg_prior_ownership_version s)).
Proof. vm_compute. reflexivity. Qed.
