(* ===== verification/DataPlane.v ===== *)
(** * The packet data plane

    The four parts of the data-plane crate: the byte budget of [budget.rs], the fair
    pump of [pump.rs], the attach guard of [attachment.rs] and the two-sided teardown
    barrier of [teardown.rs].

    A [[T; 2]] array indexed by a direction or a side is a pair with an accessor; the
    counters are [usize] with the wrap-around of the release profile. *)

From Stdlib Require Import NArith Strings.Byte Lia.
From S2P Require Import Prelude Identity Model Samples.

(** ** Budget *)

(** data-plane/budget.rs:12-17 [DataPlaneDirection] *)
Inductive DataPlaneDirection := ProtocolToPacket | PacketToProtocol.
(** data-plane/budget.rs:19-26 [AdmissionVerdict] *)
Inductive AdmissionVerdict := Verdict_Admitted | OverMaxBatch | OverBudget | Backpressure.
#[export] Instance DataPlaneDirection_eq_dec : EqDecision DataPlaneDirection. Proof. solve_decision. Defined.
#[export] Instance AdmissionVerdict_eq_dec : EqDecision AdmissionVerdict. Proof. solve_decision. Defined.

(** data-plane/budget.rs:28-30 [SUSTAINED_FULL_THRESHOLD] *)
Definition SUSTAINED_FULL_THRESHOLD : N := 3.

(** data-plane/budget.rs:142-148 [direction_index]: the slot of a direction in a
    two-element array. *)
Definition at_dir {A} (d : DataPlaneDirection) (p : A * A) : A :=
  match d with ProtocolToPacket => p.1 | PacketToProtocol => p.2 end.
Definition set_dir {A} (d : DataPlaneDirection) (a : A) (p : A * A) : A * A :=
  match d with ProtocolToPacket => (a, p.2) | PacketToProtocol => (p.1, a) end.

(** data-plane/budget.rs:32-42 [PacketBudget] *)
Record PacketBudget := MkPacketBudget {
  pb_packet_queue_messages : N;
  pb_packet_queue_bytes : N;
  pb_max_packet_batch_packets : N;
  pb_max_packet_batch_bytes : N;
  pb_in_flight_messages : N * N;
  pb_in_flight_bytes : N * N;
  pb_sustained_full : N;
}.

(** data-plane/budget.rs:150-164 [invalid_input] *)
Definition invalid_input : VpnError :=
  MkVpnError InvalidInput Stage_Admission NoEffect DoNotRetry
    (Subject_Runtime (MkRuntimeEpoch (default Uuid_nil (to_array 16 (be_bytes 16 1))))) None None.

(** data-plane/budget.rs:45-68 [PacketBudget::from_limits] *)
Definition budget_from_limits (limits : MvpLimits) : result VpnError PacketBudget :=
  if (packet_queue_messages limits =? 0)%N || (packet_queue_bytes limits =? 0)%N
     || (max_packet_batch_packets limits =? 0)%N || (max_packet_batch_bytes limits =? 0)%N
  then Err invalid_input
  else Ok (MkPacketBudget (packet_queue_messages limits) (packet_queue_bytes limits)
             (max_packet_batch_packets limits) (max_packet_batch_bytes limits) (0, 0)%N (0, 0)%N 0).

(** data-plane/budget.rs:126-131 [PacketBudget::in_flight] *)
Definition in_flight (b : PacketBudget) (d : DataPlaneDirection) : N * N :=
  (at_dir d (pb_in_flight_messages b), at_dir d (pb_in_flight_bytes b)).

(** data-plane/budget.rs:133-139 [PacketBudget::in_flight_mut]: the writes made
    through the two references. *)
Definition set_in_flight (d : DataPlaneDirection) (messages bytes : N) (b : PacketBudget) : PacketBudget :=
  MkPacketBudget (pb_packet_queue_messages b) (pb_packet_queue_bytes b)
    (pb_max_packet_batch_packets b) (pb_max_packet_batch_bytes b)
    (set_dir d messages (pb_in_flight_messages b)) (set_dir d bytes (pb_in_flight_bytes b))
    (pb_sustained_full b).

(** [self.sustained_full += 1]. *)
Definition bump_sustained (b : PacketBudget) : PacketBudget :=
  MkPacketBudget (pb_packet_queue_messages b) (pb_packet_queue_bytes b)
    (pb_max_packet_batch_packets b) (pb_max_packet_batch_bytes b)
    (pb_in_flight_messages b) (pb_in_flight_bytes b) (add64 (pb_sustained_full b) 1).

(** data-plane/budget.rs:120-124 [PacketBudget::is_sustained_full] *)
Definition is_sustained_full (b : PacketBudget) : bool :=
  (SUSTAINED_FULL_THRESHOLD <? pb_sustained_full b)%N.

(** data-plane/budget.rs:70-111 [PacketBudget::try_admit] *)
Definition try_admit (b : PacketBudget) (direction : DataPlaneDirection) (packets bytes : N) :
    PacketBudget * AdmissionVerdict :=
  if (pb_max_packet_batch_packets b <? packets)%N || (pb_max_packet_batch_bytes b <? bytes)%N
  then (b, OverMaxBatch)
  else
    let '(cur_messages, cur_bytes) := in_flight b direction in
    let would_be_messages := add64 cur_messages packets in
    let would_be_bytes := add64 cur_bytes bytes in
    let would_be_full := (pb_packet_queue_messages b <=? would_be_messages)%N
      || (pb_packet_queue_bytes b <=? would_be_bytes)%N in
    if (pb_packet_queue_messages b <? packets)%N || (pb_packet_queue_bytes b <? would_be_bytes)%N
    then
      let b := if would_be_full then bump_sustained b else b in
      (b, if is_sustained_full b then Backpressure else OverBudget)
    else
      let b := set_in_flight direction would_be_messages would_be_bytes b in
      let b := if would_be_full then bump_sustained b else b in
      (b, if is_sustained_full b then Backpressure else Verdict_Admitted).

(** data-plane/budget.rs:113-118 [PacketBudget::release] *)
Definition release (b : PacketBudget) (direction : DataPlaneDirection) (packets bytes : N) :
    PacketBudget :=
  let '(messages, bytes_ref) := in_flight b direction in
  set_in_flight direction (sat_sub messages packets) (sat_sub bytes_ref bytes) b.

(** ** Attach guard *)

(** data-plane/attachment.rs:10-15 [PacketAttachGuard] *)
Record PacketAttachGuard := MkPacketAttachGuard {
  pag_runtime_epoch : RuntimeEpoch;
  pag_attached : bool;
}.

(** data-plane/attachment.rs:53-65 [already_attached] *)
Definition already_attached (epoch : RuntimeEpoch) : VpnError :=
  MkVpnError PacketLeaseAlreadyAttached Stage_AttachingPacketBoundary NoEffect DoNotRetry
    (Subject_Runtime epoch) None None.

(** data-plane/attachment.rs:18-25 [PacketAttachGuard::new] *)
Definition attach_guard_new (runtime_epoch : RuntimeEpoch) : PacketAttachGuard :=
  MkPacketAttachGuard runtime_epoch false.

(** data-plane/attachment.rs:27-39 [PacketAttachGuard::try_attach] *)
Definition try_attach (g : PacketAttachGuard) : PacketAttachGuard * result VpnError () :=
  if pag_attached g then (g, Err (already_attached (pag_runtime_epoch g)))
  else (MkPacketAttachGuard (pag_runtime_epoch g) true, Ok ()).

(** data-plane/attachment.rs:41-44 [PacketAttachGuard::detach] *)
Definition detach (g : PacketAttachGuard) : PacketAttachGuard :=
  MkPacketAttachGuard (pag_runtime_epoch g) false.

(** data-plane/attachment.rs:46-50 [PacketAttachGuard::is_attached] *)
Definition is_attached (g : PacketAttachGuard) : bool := pag_attached g.

(** ** Pump *)

(** data-plane/pump.rs:11-16 [DirectionReadiness] *)
Record DirectionReadiness := MkDirectionReadiness { dr_has_data : bool; dr_backed_up : bool }.
(** data-plane/pump.rs:18-23 [PollDecision] *)
Inductive PollDecision := Poll (d : DataPlaneDirection) | PollIdle.
#[export] Instance PollDecision_eq_dec : EqDecision PollDecision. Proof. solve_decision. Defined.
(** data-plane/pump.rs:25-29 [PumpScheduler] *)
Record PumpScheduler := MkPumpScheduler { ps_next : DataPlaneDirection }.

(** data-plane/pump.rs:32-37 [PumpScheduler::new] *)
Definition pump_new : PumpScheduler := MkPumpScheduler ProtocolToPacket.

(** data-plane/pump.rs:79-85 [opposite] *)
Definition opposite (d : DataPlaneDirection) : DataPlaneDirection :=
  match d with
  | ProtocolToPacket => PacketToProtocol
  | PacketToProtocol => ProtocolToPacket
  end.

(** data-plane/pump.rs:39-71 [PumpScheduler::next] *)
Definition pump_next (s : PumpScheduler) (protocol_to_packet packet_to_protocol : DirectionReadiness) :
    PumpScheduler * PollDecision :=
  let preferred := ps_next s in
  let other := opposite preferred in
  let preferred_ready :=
    bool_decide (preferred = ProtocolToPacket) && dr_has_data protocol_to_packet
      && negb (dr_backed_up protocol_to_packet)
    || bool_decide (preferred = PacketToProtocol) && dr_has_data packet_to_protocol
      && negb (dr_backed_up packet_to_protocol) in
  let other_ready :=
    if bool_decide (preferred = ProtocolToPacket)
    then dr_has_data packet_to_protocol && negb (dr_backed_up packet_to_protocol)
    else dr_has_data protocol_to_packet && negb (dr_backed_up protocol_to_packet) in
  (MkPumpScheduler (opposite preferred),
   if preferred_ready then Poll preferred
   else if other_ready then Poll other
   else PollIdle).

(** ** Teardown barrier *)

(** data-plane/teardown.rs:10-17 [TeardownSide] *)
Inductive TeardownSide := ProtocolControl | PacketData.
(** data-plane/teardown.rs:19-28 [JoinOutcome] *)
Inductive JoinOutcome := Join_Pending | Join_Released | Join_Rejected.
(** data-plane/teardown.rs:30-37 [EofSignal] *)
Inductive EofSignal := PeerCancelled | PeerAlreadyCancelled.
#[export] Instance TeardownSide_eq_dec : EqDecision TeardownSide. Proof. solve_decision. Defined.
#[export] Instance JoinOutcome_eq_dec : EqDecision JoinOutcome. Proof. solve_decision. Defined.
#[export] Instance EofSignal_eq_dec : EqDecision EofSignal. Proof. solve_decision. Defined.

(** data-plane/teardown.rs:39-45 [TeardownBarrier] *)
Record TeardownBarrier := MkTeardownBarrier {
  tb_joined : bool * bool;
  tb_cancelled : bool * bool;
  tb_released : bool;
}.

(** data-plane/teardown.rs:110-116 [side_index]: the slot of a side. *)
Definition at_side {A} (s : TeardownSide) (p : A * A) : A :=
  match s with ProtocolControl => p.1 | PacketData => p.2 end.
Definition set_side {A} (s : TeardownSide) (a : A) (p : A * A) : A * A :=
  match s with ProtocolControl => (a, p.2) | PacketData => (p.1, a) end.
Definition peer (s : TeardownSide) : TeardownSide :=
  match s with ProtocolControl => PacketData | PacketData => ProtocolControl end.

(** data-plane/teardown.rs:48-55 [TeardownBarrier::new] *)
Definition barrier_new : TeardownBarrier := MkTeardownBarrier (false, false) (false, false) false.

(** data-plane/teardown.rs:57-76 [TeardownBarrier::join] *)
Definition join (b : TeardownBarrier) (side : TeardownSide) : TeardownBarrier * JoinOutcome :=
  if tb_released b then (b, Join_Rejected)
  else if at_side side (tb_joined b) then (b, Join_Rejected)
  else
    let joined := set_side side true (tb_joined b) in
    if joined.1 && joined.2
    then (MkTeardownBarrier joined (tb_cancelled b) true, Join_Released)
    else (MkTeardownBarrier joined (tb_cancelled b) (tb_released b), Join_Pending).

(** data-plane/teardown.rs:78-91 [TeardownBarrier::signal_eof] *)
Definition signal_eof (b : TeardownBarrier) (side : TeardownSide) : TeardownBarrier * EofSignal :=
  let cancelled := set_side side true (tb_cancelled b) in
  if negb (at_side (peer side) cancelled)
  then (MkTeardownBarrier (tb_joined b) (set_side (peer side) true cancelled) (tb_released b),
        PeerCancelled)
  else (MkTeardownBarrier (tb_joined b) cancelled (tb_released b), PeerAlreadyCancelled).

(** data-plane/teardown.rs:93-96 [TeardownBarrier::is_cancelled] *)
Definition is_cancelled (b : TeardownBarrier) (side : TeardownSide) : bool :=
  at_side side (tb_cancelled b).
(** data-plane/teardown.rs:98-102 [TeardownBarrier::is_fenced] *)
Definition is_fenced (b : TeardownBarrier) : bool := negb (tb_released b).
(** data-plane/teardown.rs:104-107 [TeardownBarrier::is_released] *)
Definition is_released (b : TeardownBarrier) : bool := tb_released b.

(** ** Budget histories *)

Inductive budget_op :=
  | BAdmit (d : DataPlaneDirection) (packets bytes : N)
  | BRelease (d : DataPlaneDirection) (packets bytes : N).

Definition budget_step (b : PacketBudget) (op : budget_op) : PacketBudget :=
  match op with
  | BAdmit d p n => (try_admit b d p n).1
  | BRelease d p n => release b d p n
  end.
Definition budget_run (b : PacketBudget) (ops : list budget_op) : PacketBudget :=
  foldl budget_step b ops.

(** The knobs of two budgets agree. *)
Definition same_knobs (b b' : PacketBudget) : Prop :=
  pb_packet_queue_messages b' = pb_packet_queue_messages b ∧
  pb_packet_queue_bytes b' = pb_packet_queue_bytes b ∧
  pb_max_packet_batch_packets b' = pb_max_packet_batch_packets b ∧
  pb_max_packet_batch_bytes b' = pb_max_packet_batch_bytes b.

(** The bytes in flight fit the queue, and a batch on top of a full queue does not
    overflow the counter. *)
Definition budget_ok (b : PacketBudget) : Prop :=
  in_u64 (pb_packet_queue_bytes b + pb_max_packet_batch_bytes b) ∧
  ∀ d, ((in_flight b d).2 ≤ pb_packet_queue_bytes b)%N.

Lemma at_set_dir {A} d d' (a : A) p :
  at_dir d (set_dir d' a p) = if bool_decide (d = d') then a else at_dir d p.
Proof. by destruct d, d'. Qed.

Lemma in_flight_bump b d : in_flight (bump_sustained b) d = in_flight b d.
Proof. done. Qed.

(** The two ways an admission can go: refused, with the usage untouched, or charged,
    with the usage of its direction advanced and within the queue. *)
Lemma try_admit_cases b d packets bytes :
  budget_ok b →
  let '(b', v) := try_admit b d packets bytes in
  same_knobs b b' ∧ (pb_sustained_full b' = pb_sustained_full b ∨ pb_sustained_full b' = add64 (pb_sustained_full b) 1) ∧
  ((∀ d', in_flight b' d' = in_flight b d') ∧ v ≠ Verdict_Admitted ∨
   (∀ d', d' ≠ d → in_flight b' d' = in_flight b d') ∧
   (packets ≤ pb_max_packet_batch_packets b)%N ∧ (bytes ≤ pb_max_packet_batch_bytes b)%N ∧
   in_flight b' d = (add64 (in_flight b d).1 packets, ((in_flight b d).2 + bytes)%N) ∧
   ((in_flight b d).2 + bytes ≤ pb_packet_queue_bytes b)%N ∧
   (v = Verdict_Admitted ∨ v = Backpressure)).
Proof.
  intros [Hof Hok]. specialize (Hok d). unfold try_admit.
  destruct (N.ltb_spec (pb_max_packet_batch_packets b) packets), (N.ltb_spec (pb_max_packet_batch_bytes b) bytes);
    cbn [orb]; try (split_and!; [by split_and!|by left|by left]).
  destruct (in_flight b d) as [m n] eqn:Ef. simpl in Hok.
  assert (En : add64 n bytes = (n + bytes)%N) by (apply add64_small; unfold in_u64 in *; lia).
  rewrite En. set (full := ((_ <=? _)%N || (_ <=? _)%N)%bool).
  destruct (N.ltb_spec (pb_packet_queue_messages b) packets), (N.ltb_spec (pb_packet_queue_bytes b) (n + bytes));
    cbn [orb]; destruct full; cbn [orb];
    (split_and!; [by split_and!|auto|]);
    try (left; split; [done|]; by destruct (is_sustained_full _)).
  all: right; split_and!; try done; try (by destruct (is_sustained_full _); auto).
  all: try (intros d' Hd'; unfold in_flight; cbn; rewrite !at_set_dir, !bool_decide_eq_false_2 by done; done).
  all: unfold in_flight; cbn; by rewrite !at_set_dir, !bool_decide_eq_true_2 by done.
Qed.

Lemma budget_step_ok b op : budget_ok b → budget_ok (budget_step b op) ∧ same_knobs b (budget_step b op).
Proof.
  intros Hok. destruct op as [d p n|d p n]; simpl.
  - pose proof (try_admit_cases b d p n Hok) as H. destruct (try_admit b d p n) as [b' v]. simpl.
    destruct H as ((H1 & H2 & H3 & H4) & _ & Hc). split; [|done].
    unfold budget_ok. rewrite H2, H4. split; [apply Hok|].
    intros d'. destruct Hc as [[He _]|(Hne & _ & _ & He & Hle & _)]; [rewrite He; apply Hok|].
    destruct (decide (d' = d)) as [->|Hd]; [rewrite He; exact Hle|rewrite Hne by done; apply Hok].
  - unfold release. destruct (in_flight b d) as [m k] eqn:Ef. split; [|done].
    split; [apply Hok|]. intros d'. unfold in_flight; cbn. rewrite !at_set_dir.
    pose proof (proj2 Hok d') as Hd'. unfold in_flight in Hd'; simpl in Hd'.
    case_bool_decide as Hd; [subst d'|done]. simpl.
    unfold in_flight in Ef. injection Ef as Em Ek. rewrite Ek in Hd'. unfold sat_sub. lia.
Qed.

Lemma budget_run_ok ops : ∀ b, budget_ok b → budget_ok (budget_run b ops) ∧ same_knobs b (budget_run b ops).
Proof.
  induction ops as [|op ops IH]; intros b Hok; simpl; [done|].
  destruct (budget_step_ok b op Hok) as [Hok' Hk]. destruct (IH _ Hok') as [? Hk'].
  unfold same_knobs in *. split; [done|]. intuition congruence.
Qed.

(** Once the threshold is crossed the counter stays above it. *)
Lemma sustained_step b op :
  in_u64 (pb_sustained_full b + 1) →
  (pb_sustained_full b ≤ pb_sustained_full (budget_step b op) ≤ pb_sustained_full b + 1)%N.
Proof.
  intros Hlt. destruct op as [d p n|d p n]; simpl; [|unfold release; destruct (in_flight b d); simpl; lia].
  unfold try_admit. repeat case_match; simpl; rewrite ?(add64_small _ _ Hlt); lia.
Qed.

Lemma sustained_run ops : ∀ b,
  in_u64 (pb_sustained_full b + N.of_nat (length ops)) →
  (pb_sustained_full b ≤ pb_sustained_full (budget_run b ops) ≤ pb_sustained_full b + N.of_nat (length ops))%N.
Proof.
  induction ops as [|op ops IH]; intros b Hlt; [simpl; lia|]. cbn [length] in *. unfold in_u64 in *.
  pose proof (sustained_step b op ltac:(unfold in_u64; lia)) as Hs.
  assert (Hlt' : (pb_sustained_full (budget_step b op) + N.of_nat (length ops) < two64)%N) by lia.
  specialize (IH (budget_step b op) Hlt').
  change (budget_run b (op :: ops)) with (budget_run (budget_step b op) ops). lia.
Qed.

(** ** Pump and barrier histories *)

Definition ready (r : DirectionReadiness) : bool := dr_has_data r && negb (dr_backed_up r).
(** The readiness of a direction in a round. *)
Definition dir_ready (d : DataPlaneDirection) (round : DirectionReadiness * DirectionReadiness) : bool :=
  ready (at_dir d round).

(** The decisions of consecutive rounds. *)
Fixpoint pump_rounds (s : PumpScheduler) (rounds : list (DirectionReadiness * DirectionReadiness)) :
    list PollDecision :=
  match rounds with
  | [] => []
  | r :: rounds => let '(s, d) := pump_next s r.1 r.2 in d :: pump_rounds s rounds
  end.

Lemma pump_next_spec s r :
  pump_next s r.1 r.2 =
  (MkPumpScheduler (opposite (ps_next s)),
   if dir_ready (ps_next s) r then Poll (ps_next s)
   else if dir_ready (opposite (ps_next s)) r then Poll (opposite (ps_next s))
   else PollIdle).
Proof.
  unfold pump_next, dir_ready, ready.
  destruct s as [[]], r as [[[] []] [[] []]]; reflexivity.
Qed.

Inductive barrier_op := BJoin (s : TeardownSide) | BEof (s : TeardownSide).

Definition barrier_step (b : TeardownBarrier) (op : barrier_op) : TeardownBarrier * option JoinOutcome :=
  match op with
  | BJoin s => let '(b, o) := join b s in (b, Some o)
  | BEof s => ((signal_eof b s).1, None)
  end.

(** The barrier after a history, with the outcomes of its joins. *)
Fixpoint barrier_run (b : TeardownBarrier) (ops : list barrier_op) : TeardownBarrier * list JoinOutcome :=
  match ops with
  | [] => (b, [])
  | op :: ops =>
      let '(b, o) := barrier_step b op in
      let '(b, os) := barrier_run b ops in
      (b, option_list o ++ os)
  end.

(** The barrier holds the set of the sides that joined: released is both. *)
Definition barrier_ok (b : TeardownBarrier) : Prop :=
  tb_released b = (tb_joined b).1 && (tb_joined b).2.

Definition count_released (os : list JoinOutcome) : nat := length (filter (eq Join_Released) os).

Lemma barrier_step_ok b op :
  barrier_ok b →
  barrier_ok (barrier_step b op).1 ∧
  (∀ s, at_side s (tb_joined (barrier_step b op).1) = true ↔
        at_side s (tb_joined b) = true ∨ op = BJoin s) ∧
  (∀ s, is_cancelled (barrier_step b op).1 s = true ↔ is_cancelled b s = true ∨ ∃ s', op = BEof s') ∧
  (if tb_released b then 1 else 0) + count_released (option_list (barrier_step b op).2) =
  (if tb_released (barrier_step b op).1 then 1 else 0).
Proof.
  unfold barrier_ok. destruct b as [[[] []] [[] []] rel]; simpl; intros ->;
    destruct op as [[]|[]]; cbn; (split_and!; [done|..|done]);
    intros []; split; try done; try (intros [?|?]; done); try (intros [?|[? ?]]; done); eauto.
Qed.

Lemma barrier_run_ok ops : ∀ b,
  barrier_ok b →
  let '(b', os) := barrier_run b ops in
  barrier_ok b' ∧
  (∀ s, at_side s (tb_joined b') = true ↔ at_side s (tb_joined b) = true ∨ BJoin s ∈ ops) ∧
  (∀ s, is_cancelled b' s = true ↔ is_cancelled b s = true ∨ ∃ s', BEof s' ∈ ops) ∧
  (if tb_released b then 1 else 0) + count_released os = (if tb_released b' then 1 else 0).
Proof.
  induction ops as [|op ops IH]; intros b Hb; simpl.
  { split_and!; [done|set_solver..|]. unfold count_released; simpl. lia. }
  destruct (barrier_step_ok b op Hb) as (Hb1 & Hj1 & Hc1 & Hr1).
  destruct (barrier_step b op) as [b1 o]. specialize (IH b1 Hb1). simpl in *.
  destruct (barrier_run b1 ops) as [b2 os]. destruct IH as (Hb2 & Hj2 & Hc2 & Hr2).
  split_and!; [done|..].
  - intros s. rewrite Hj2, Hj1. set_solver.
  - intros s. rewrite Hc2, Hc1. set_solver.
  - unfold count_released in *. rewrite list.filter_app, length_app. lia.
Qed.

(** ** Barrier well-formedness *)

(** A barrier records a side as joined only by joining it, and is released exactly when
    both sides are. *)
Definition barrier_wf (b : TeardownBarrier) : Prop :=
  tb_released b = true ↔ ∀ s, at_side s (tb_joined b) = true.

Lemma barrier_new_wf : barrier_wf barrier_new.
Proof. split; [done|]. intros H. by specialize (H ProtocolControl). Qed.

Lemma join_cases b s :
  barrier_wf b →
  let '(b', o) := join b s in
  barrier_wf b' ∧
  (∀ s', at_side s' (tb_joined b') = true ↔ at_side s' (tb_joined b) = true ∨ s' = s) ∧
  (o = Join_Released ↔ tb_released b' = true ∧ tb_released b = false) ∧
  (tb_released b = true → b' = b).
Proof.
  intros Hwf. unfold join. destruct (tb_released b) eqn:Hr.
  { pose proof (proj1 Hwf Hr) as Ha. split_and!; [done| |naive_solver|done]. naive_solver. }
  destruct b as [[p d] c r]; simpl in *; subst r.
  destruct s, p, d; simpl in *; (split_and!; [..|naive_solver|done]);
    try (split; [done|]; intros H; by pose proof (H ProtocolControl); pose proof (H PacketData));
    try (split; [intros _ []; done|done]);
    try (intros []; simpl; naive_solver).
  all: try (exfalso; assert (H : false = true) by (apply Hwf; intros []; done); done).
Qed.

(** A side is refused only because it had joined. *)
Lemma join_rejected b s :
  barrier_wf b → (join b s).2 = Join_Rejected → at_side s (tb_joined b) = true.
Proof.
  intros Hwf. unfold join. destruct (tb_released _) eqn:Hr; [intros _; by apply Hwf|].
  destruct (at_side s _) eqn:E; [done|]. by destruct (_ && _).
Qed.

(** ** Properties *)

(** The packet queue never holds more bytes than its budget: from a budget built
    from any accepted limits, whatever is admitted and released in whatever order, the
    bytes in flight of each direction stay within the configured queue bytes. *)
Theorem budget_bytes_bounded limits b ops :
  budget_from_limits limits = Ok b →
  in_u64 (packet_queue_bytes limits + max_packet_batch_bytes limits) →
  ∀ d, ((in_flight (budget_run b ops) d).2 ≤ packet_queue_bytes limits)%N.
Proof.
  unfold budget_from_limits. case_match; [done|]. intros [= <-] Hof d.
  destruct (budget_run_ok ops (MkPacketBudget (packet_queue_messages limits) (packet_queue_bytes limits)
    (max_packet_batch_packets limits) (max_packet_batch_bytes limits) (0, 0)%N (0, 0)%N 0))
    as [[_ Hb] (_ & Hq & _)].
  - split; [done|]. intros []; simpl; lia.
  - specialize (Hb d). by rewrite Hq in Hb.
Qed.

Definition sample_budget : PacketBudget := MkPacketBudget 64 1024 16 512 (0, 0)%N (0, 0)%N 0.

Lemma budget_bytes_bounded_witness :
  ((in_flight (budget_run sample_budget
     [BAdmit ProtocolToPacket 1 512; BAdmit ProtocolToPacket 1 512; BAdmit ProtocolToPacket 1 512])
     ProtocolToPacket).2 ≤ 1024)%N.
Proof. apply (budget_bytes_bounded sample_limits); reflexivity. Defined.

(** Every admission is all or nothing and says which: a batch is charged exactly
    when it is within the batch caps, within the queue message cap and its bytes fit
    the queue on top of what is in flight; then its direction's usage grows by exactly
    the batch, and otherwise no usage changes. [Verdict_Admitted] is only ever answered for a
    charged batch, [OverMaxBatch] and [OverBudget] only for a refused one. *)
Theorem admission_all_or_nothing b d packets bytes :
  budget_ok b →
  let '(b', v) := try_admit b d packets bytes in
  let charged := (packets <=? pb_max_packet_batch_packets b)%N && (bytes <=? pb_max_packet_batch_bytes b)%N
    && (packets <=? pb_packet_queue_messages b)%N
    && ((in_flight b d).2 + bytes <=? pb_packet_queue_bytes b)%N in
  (charged = true → in_flight b' d = (add64 (in_flight b d).1 packets, ((in_flight b d).2 + bytes)%N) ∧
     (v = Verdict_Admitted ∨ v = Backpressure)) ∧
  (charged = false → in_flight b' d = in_flight b d ∧ v ≠ Verdict_Admitted) ∧
  (∀ d', d' ≠ d → in_flight b' d' = in_flight b d') ∧
  budget_ok b'.
Proof.
  intros Hok. pose proof (budget_step_ok b (BAdmit d packets bytes) Hok) as [Hok' _]. simpl in Hok'.
  destruct Hok as [Hof Hok]. specialize (Hok d). unfold try_admit in *.
  destruct (N.ltb_spec (pb_max_packet_batch_packets b) packets), (N.leb_spec packets (pb_max_packet_batch_packets b)); try lia; cbn [orb andb] in *;
    [by split_and!|].
  destruct (N.ltb_spec (pb_max_packet_batch_bytes b) bytes), (N.leb_spec bytes (pb_max_packet_batch_bytes b)); try lia; cbn [orb andb] in *;
    [by split_and!|].
  destruct (in_flight b d) as [m n] eqn:Ef. cbn [fst snd] in *.
  assert (En : add64 n bytes = (n + bytes)%N) by (apply add64_small; unfold in_u64 in *; lia).
  rewrite En in *. set (full := ((_ <=? _)%N || (_ <=? _)%N)%bool) in *.
  destruct (N.ltb_spec (pb_packet_queue_messages b) packets), (N.leb_spec packets (pb_packet_queue_messages b)),
    (N.ltb_spec (pb_packet_queue_bytes b) (n + bytes)), (N.leb_spec (n + bytes) (pb_packet_queue_bytes b));
    try lia; cbn [orb andb] in *; destruct full; cbn [orb andb] in *;
    (split_and!; [..|exact Hok']); intros; split_and?; try done;
    try (by destruct (is_sustained_full _); auto).
  all: unfold in_flight; cbn; rewrite !at_set_dir;
    first [rewrite !bool_decide_eq_true_2 by done; done | rewrite !bool_decide_eq_false_2 by done; done].
Qed.

Lemma admission_all_or_nothing_witness :
  in_flight (try_admit sample_budget PacketToProtocol 2 300).1 PacketToProtocol = (2, 300)%N.
Proof.
  apply (admission_all_or_nothing sample_budget PacketToProtocol 2 300); [|reflexivity].
  split; [reflexivity|]. intros []; vm_compute; discriminate.
Defined.

(** Backpressure is permanent: once the sustained-full threshold has been
    crossed, no sequence of admissions and releases clears it, and every later
    admission is answered [Backpressure] or [OverMaxBatch], even on an empty queue. *)
Theorem sustained_full_permanent b ops d packets bytes :
  is_sustained_full b = true →
  in_u64 (pb_sustained_full b + N.of_nat (length ops) + 1) →
  is_sustained_full (budget_run b ops) = true ∧
  ((try_admit (budget_run b ops) d packets bytes).2 = Backpressure ∨
   (try_admit (budget_run b ops) d packets bytes).2 = OverMaxBatch).
Proof.
  unfold is_sustained_full at 1. intros Hs%N.ltb_lt Hlt. unfold in_u64 in Hlt.
  pose proof (sustained_run ops b ltac:(unfold in_u64; lia)) as Hr.
  set (b' := budget_run b ops) in *.
  assert (Hb : ∀ c, (pb_sustained_full b' ≤ pb_sustained_full c)%N → is_sustained_full c = true).
  { intros c Hc. unfold is_sustained_full. apply N.ltb_lt. lia. }
  split; [by apply Hb|].
  pose proof (sustained_step b' (BAdmit d packets bytes) ltac:(unfold in_u64; lia)) as [Hge _].
  simpl in Hge. apply Hb in Hge. revert Hge. unfold try_admit.
  repeat case_match; simpl; intros; simplify_eq; auto; congruence.
Qed.

Lemma sustained_full_permanent_witness :
  (try_admit (budget_run (MkPacketBudget 64 1024 16 512 (0, 0)%N (0, 0)%N 4) [BRelease ProtocolToPacket 64 1024])
     ProtocolToPacket 1 1).2 = Backpressure ∨
  (try_admit (budget_run (MkPacketBudget 64 1024 16 512 (0, 0)%N (0, 0)%N 4) [BRelease ProtocolToPacket 64 1024])
     ProtocolToPacket 1 1).2 = OverMaxBatch.
Proof. apply (sustained_full_permanent (MkPacketBudget 64 1024 16 512 (0, 0)%N (0, 0)%N 4)); reflexivity. Defined.

(** The message cap is per call: messages in flight may exceed it. *)
Example messages_exceed_queue_cap :
  let b := MkPacketBudget 4 1024 4 512 (0, 0)%N (0, 0)%N 0 in
  in_flight (budget_run b [BAdmit ProtocolToPacket 4 1; BAdmit ProtocolToPacket 4 1]) ProtocolToPacket =
    (8, 2)%N.
Proof. vm_compute. reflexivity. Qed.

(** The pump is work-conserving and fair: in every round it polls a direction that
    is ready, and it idles only when none is; and in any two consecutive rounds, at
    any point of any history, a direction that is ready in both is polled in one. *)
Theorem pump_fair s rounds i d r1 r2 :
  (∀ r, rounds !! i = Some r →
     match pump_rounds s rounds !! i with
     | Some (Poll p) => dir_ready p r = true
     | Some PollIdle => dir_ready ProtocolToPacket r = false ∧ dir_ready PacketToProtocol r = false
     | None => False
     end) ∧
  (rounds !! i = Some r1 → rounds !! S i = Some r2 → dir_ready d r1 = true → dir_ready d r2 = true →
   pump_rounds s rounds !! i = Some (Poll d) ∨ pump_rounds s rounds !! S i = Some (Poll d)).
Proof.
  revert s i. induction rounds as [|r rounds IH]; intros s i; [done|].
  cbn [pump_rounds]. rewrite pump_next_spec. destruct i as [|i].
  - split.
    + intros ? [= <-]. simpl. destruct s as [[]]; simpl;
        destruct (dir_ready ProtocolToPacket r) eqn:E1, (dir_ready PacketToProtocol r) eqn:E2; simpl; auto.
    + intros [= <-] H2 Hd1 Hd2. destruct rounds as [|r' rounds]; [done|].
      injection H2 as ->. cbn [pump_rounds]. rewrite pump_next_spec. simpl.
      destruct s as [[]], d; simpl; rewrite ?Hd1, ?Hd2; auto.
  - apply (IH (MkPumpScheduler (opposite (ps_next s))) i).
Qed.

(** The teardown is released exactly once and only by both sides: over any history
    of joins and end-of-file signals, the barrier is released exactly when both sides
    have joined, exactly one join is answered [Released] then and none before, and
    either side's end of file cancels both sides. *)
Theorem barrier_releases_once ops :
  let '(b, os) := barrier_run barrier_new ops in
  (is_released b = true ↔ BJoin ProtocolControl ∈ ops ∧ BJoin PacketData ∈ ops) ∧
  is_fenced b = negb (is_released b) ∧
  length (filter (eq Join_Released) os) = (if is_released b then 1 else 0) ∧
  (∀ s, is_cancelled b s = true ↔ ∃ s', BEof s' ∈ ops).
Proof.
  pose proof (barrier_run_ok ops barrier_new eq_refl) as H.
  destruct (barrier_run barrier_new ops) as [b os]. destruct H as (Hb & Hj & Hc & Hr).
  split_and!; [|done|exact Hr|].
  - unfold is_released. rewrite Hb, andb_true_iff.
    pose proof (Hj ProtocolControl) as H1. pose proof (Hj PacketData) as H2. simpl in H1, H2.
    rewrite H1, H2. naive_solver.
  - intros s. rewrite Hc. destruct s; naive_solver.
Qed.
