(* ===== verification/CstpCodec.v ===== *)
(** * The CSTP frame codec

    [codec.rs] of the CSTP crate: the streaming decoder of the eight-byte STF header
    and its payload, and the encoder.

    The codec is its buffer. A driver feeds chunks and decodes until no complete frame
    is left, which [pull] does with one unit of fuel per buffered byte; every frame
    takes at least eight. The theorems: frames come out of the stream in order and
    unchanged however the network cuts it into chunks, and what is decoded is exactly
    what is on the wire. *)

From Stdlib Require Import NArith Strings.Byte Lia.
From S2P Require Import Prelude.

(** cstp/codec.rs:17-18 [CSTP_HEADER_LEN] *)
Definition CSTP_HEADER_LEN : nat := 8.
(** cstp/codec.rs:20-21 [STF_MAGIC] *)
Definition STF_MAGIC : list byte := [x53; x54; x46].
(** cstp/codec.rs:22-22 [STF_VERSION] *)
Definition STF_VERSION : byte := x01.
(** cstp/codec.rs:24-26 [CSTP_MAX_PAYLOAD] *)
Definition CSTP_MAX_PAYLOAD : N := 4096.
(** cstp/codec.rs:28-29 [CSTP_PACKET_TYPE_DATA] *)
Definition CSTP_PACKET_TYPE_DATA : byte := x00.
(** cstp/codec.rs:31-32 [CSTP_PACKET_TYPE_KEEPALIVE] *)
Definition CSTP_PACKET_TYPE_KEEPALIVE : byte := x07.

(** cstp/codec.rs:34-42 [CstpFrame] *)
Inductive CstpFrame :=
  | Data (payload : list byte)
  | Control (kind : byte) (body : list byte).
#[export] Instance CstpFrame_eq_dec : EqDecision CstpFrame. Proof. solve_decision. Defined.

(** cstp/codec.rs:44-61 [CodecError] *)
Inductive CodecError :=
  | ShortHeader | BadMagic | BadLength
  | OversizePayload (declared limit : N)
  | UnknownControl (kind : byte)
  | Truncated | Ipv6NotSupported.
#[export] Instance CodecError_eq_dec : EqDecision CodecError. Proof. solve_decision. Defined.

(** cstp/codec.rs:63-66 [Codec] *)
Record Codec := MkCodec { buf : list byte }.

(** cstp/codec.rs:69-72 [Codec::new] *)
Definition codec_new : Codec := MkCodec [].

(** cstp/codec.rs:74-77 [Codec::feed] *)
Definition feed (c : Codec) (chunk : list byte) : Codec := MkCodec (buf c ++ chunk).

(** cstp/codec.rs:111-123 [Codec::decode] *)
Definition frame_of (packet_type : byte) (payload : list byte) : result CodecError (option CstpFrame) :=
  if bool_decide (packet_type = CSTP_PACKET_TYPE_DATA) then
    match payload with
    | [] => Err BadLength
    | _ => Ok (Some (Data payload))
    end
  else if bool_decide (packet_type = CSTP_PACKET_TYPE_KEEPALIVE)
       || bool_decide (packet_type = x05) || bool_decide (packet_type = x09)
  then Ok (Some (Control packet_type payload))
  else Err (UnknownControl packet_type).

(** cstp/codec.rs:79-124 [Codec::decode] *)
Definition decode (c : Codec) : Codec * result CodecError (option CstpFrame) :=
  match buf c with
  | b0 :: b1 :: b2 :: b3 :: b4 :: b5 :: b6 :: b7 :: body =>
      if negb (bool_decide ([b0; b1; b2] = STF_MAGIC)) || negb (bool_decide (b3 = STF_VERSION))
      then (c, Err BadMagic)
      else
        let declared := N.lor (N.shiftl (byte_val b4) 8) (byte_val b5) in
        let packet_type := b6 in
        if (CSTP_MAX_PAYLOAD <? declared)%N
        then (c, Err (OversizePayload declared CSTP_MAX_PAYLOAD))
        else
          let total := CSTP_HEADER_LEN + N.to_nat declared in
          if length (buf c) <? total then (c, Ok None)
          else
            let payload := take (N.to_nat declared) body in
            (MkCodec (drop total (buf c)), frame_of packet_type payload)
  | _ => (c, Ok None)
  end.

(** cstp/codec.rs:126-136 [Codec::finish] *)
Definition finish (c : Codec) : result CodecError () :=
  if length (buf c) =? 0 then Ok ()
  else if length (buf c) <? CSTP_HEADER_LEN then Err ShortHeader
  else Err Truncated.

(** cstp/codec.rs:152-169 [Codec::encode_raw] *)
Definition encode_raw (packet_type : byte) (payload : list byte) : result CodecError (list byte) :=
  let len := N.of_nat (length payload) in
  if (CSTP_MAX_PAYLOAD <? len)%N then Err (OversizePayload len CSTP_MAX_PAYLOAD)
  else Ok (STF_MAGIC ++ [STF_VERSION] ++ [byte_of_N (N.shiftr len 8)] ++ [byte_of_N (N.land len 255)]
           ++ [packet_type] ++ [x00] ++ payload).

(** cstp/codec.rs:138-150 [Codec::encode] *)
Definition encode (frame : CstpFrame) : result CodecError (list byte) :=
  match frame with
  | Data payload =>
      if match payload with b :: _ => (N.shiftr (byte_val b) 4 =? 6)%N | [] => false end
      then Err Ipv6NotSupported
      else encode_raw CSTP_PACKET_TYPE_DATA payload
  | Control kind body => encode_raw kind body
  end.

(** ** Driving the codec *)

(** Decode until no complete frame is left or a frame is rejected. *)
Fixpoint pull (fuel : nat) (c : Codec) : Codec * list CstpFrame * option CodecError :=
  match fuel with
  | O => (c, [], None)
  | S fuel =>
      match decode c with
      | (c, Ok None) => (c, [], None)
      | (c, Err e) => (c, [], Some e)
      | (c, Ok (Some f)) => let '(c, fs, e) := pull fuel c in (c, f :: fs, e)
      end
  end.
Definition pull_all (c : Codec) : Codec * list CstpFrame * option CodecError :=
  pull (S (length (buf c))) c.

(** Feed the chunks of a stream one by one, pulling after each; stop at an error. *)
Fixpoint stream (c : Codec) (chunks : list (list byte)) : Codec * list CstpFrame * option CodecError :=
  match chunks with
  | [] => (c, [], None)
  | chunk :: chunks =>
      let '(c, fs, e) := pull_all (feed c chunk) in
      match e with
      | Some e => (c, fs, Some e)
      | None => let '(c, fs', e) := stream c chunks in (c, fs ++ fs', e)
      end
  end.

(** A frame that both ends of the wire accept. *)
Definition frame_ok (f : CstpFrame) : bool :=
  match f with
  | Data [] => false
  | Data ((b :: _) as payload) =>
      negb (N.shiftr (byte_val b) 4 =? 6)%N && (N.of_nat (length payload) <=? CSTP_MAX_PAYLOAD)%N
  | Control kind body =>
      (bool_decide (kind = CSTP_PACKET_TYPE_KEEPALIVE) || bool_decide (kind = x05)
       || bool_decide (kind = x09)) && (N.of_nat (length body) <=? CSTP_MAX_PAYLOAD)%N
  end.

Definition frame_kind (f : CstpFrame) : byte :=
  match f with Data _ => CSTP_PACKET_TYPE_DATA | Control k _ => k end.
Definition frame_payload (f : CstpFrame) : list byte :=
  match f with Data p => p | Control _ b => b end.

(** ** Bit arithmetic of the length field *)

Lemma length_field_roundtrip n :
  (n <= 4096)%N →
  N.lor (N.shiftl (byte_val (byte_of_N (N.shiftr n 8))) 8) (byte_val (byte_of_N (N.land n 255))) = n.
Proof.
  intros Hn. rewrite !byte_val_of_N, lor_shiftl_8 by (apply N.mod_upper_bound; done).
  rewrite N.shiftr_div_pow2. change 255%N with (N.ones 8). rewrite N.land_ones.
  change (2 ^ 8)%N with 256%N. rewrite N.Div0.mod_mod.
  rewrite (N.mod_small (n / 256)) by (apply N.Div0.div_lt_upper_bound; lia).
  pose proof (N.div_mod n 256). lia.
Qed.

(** ** One frame *)

Definition wire (f : CstpFrame) : list byte :=
  let len := N.of_nat (length (frame_payload f)) in
  STF_MAGIC ++ [STF_VERSION] ++ [byte_of_N (N.shiftr len 8)] ++ [byte_of_N (N.land len 255)]
  ++ [frame_kind f] ++ [x00] ++ frame_payload f.

Lemma frame_ok_len f : frame_ok f = true → (N.of_nat (length (frame_payload f)) <= 4096)%N.
Proof.
  destruct f as [[|b p]|k p]; unfold frame_ok; [done| |];
    intros [_ H]%andb_true_iff; apply N.leb_le in H; exact H.
Qed.

Lemma encode_wire f : frame_ok f = true → encode f = Ok (wire f).
Proof.
  intros Hf. pose proof (frame_ok_len f Hf) as Hl.
  assert (Hr : encode_raw (frame_kind f) (frame_payload f) = Ok (wire f)).
  { unfold encode_raw. destruct (N.ltb_spec CSTP_MAX_PAYLOAD (N.of_nat (length (frame_payload f))));
      [unfold CSTP_MAX_PAYLOAD in *; lia|done]. }
  destruct f as [[|b p]|k p]; [done| |exact Hr].
  unfold encode. unfold frame_ok in Hf. apply andb_true_iff in Hf as [H6%negb_true_iff _].
  by rewrite H6.
Qed.

Lemma frame_of_ok f : frame_ok f = true → frame_of (frame_kind f) (frame_payload f) = Ok (Some f).
Proof.
  unfold frame_of. destruct f as [[|b p]|k p]; cbn [frame_kind frame_payload frame_ok];
    [done|by rewrite bool_decide_eq_true_2|].
  intros [Hk _]%andb_true_iff. rewrite Hk.
  destruct (decide (k = CSTP_PACKET_TYPE_DATA)) as [->|H0]; [by vm_compute in Hk|].
  by rewrite bool_decide_eq_false_2.
Qed.

(** What [decode] does with a buffer that starts with a header. *)
Lemma decode_header hi lo k b7 body :
  let declared := N.lor (N.shiftl (byte_val hi) 8) (byte_val lo) in
  let c := MkCodec (STF_MAGIC ++ [STF_VERSION; hi; lo; k; b7] ++ body) in
  decode c =
  if (CSTP_MAX_PAYLOAD <? declared)%N then (c, Err (OversizePayload declared CSTP_MAX_PAYLOAD))
  else if length body <? N.to_nat declared then (c, Ok None)
  else (MkCodec (drop (N.to_nat declared) body), frame_of k (take (N.to_nat declared) body)).
Proof. reflexivity. Qed.

Lemma decode_wire f rest :
  frame_ok f = true → decode (MkCodec (wire f ++ rest)) = (MkCodec rest, Ok (Some f)).
Proof.
  intros Hf. pose proof (frame_ok_len f Hf) as Hl. unfold wire. cbv zeta.
  set (len := N.of_nat (length (frame_payload f))) in *.
  pose proof (decode_header (byte_of_N (N.shiftr len 8)) (byte_of_N (N.land len 255)) (frame_kind f) x00
    (frame_payload f ++ rest)) as H. cbv zeta in H.
  rewrite length_field_roundtrip in H by done.
  etransitivity; [exact H|]. clear H.
  destruct (N.ltb_spec CSTP_MAX_PAYLOAD len); [unfold CSTP_MAX_PAYLOAD in *; lia|].
  unfold len. rewrite !Nat2N.id, length_app.
  destruct (Nat.ltb_spec (length (frame_payload f) + length rest) (length (frame_payload f))); [lia|].
  rewrite drop_app_length, take_app_length. by rewrite frame_of_ok.
Qed.

(** A buffer is short of a header or starts with eight bytes. *)
Lemma buf_cases (l : list byte) :
  length l < 8 ∨ ∃ b0 b1 b2 b3 b4 b5 b6 b7 body, l = b0 :: b1 :: b2 :: b3 :: b4 :: b5 :: b6 :: b7 :: body.
Proof. do 8 (destruct l as [|? l]; [left; simpl; lia|]). right. eauto 20. Qed.

Lemma decode_short c : length (buf c) < 8 → decode c = (c, Ok None).
Proof.
  unfold decode. destruct c as [l]; simpl. intros Hl.
  do 8 (destruct l as [|? l]; [done|]). simpl in Hl. lia.
Qed.

(** The three things [decode] can do: wait, reject without consuming, or consume one
    frame; the last two do not depend on what follows in the stream. *)
Lemma decode_cases c :
  decode c = (c, Ok None) ∨
  (∃ e, decode c = (c, Err e) ∧ ∀ x, decode (feed c x) = (feed c x, Err e)) ∨
  (∃ c' n k, buf c = take n (buf c) ++ buf c' ∧ 8 ≤ n ∧ n ≤ length (buf c) ∧
     decode c = (c', frame_of k (drop 8 (take n (buf c)))) ∧
     ∀ x, decode (feed c x) = (feed c' x, frame_of k (drop 8 (take n (buf c))))).
Proof.
  destruct (buf_cases (buf c)) as [Hs|(b0 & b1 & b2 & b3 & b4 & b5 & b6 & b7 & body & Hb)];
    [left; by apply decode_short|].
  destruct c as [l]; simpl in *; subst l. unfold decode, feed; cbn [buf app].
  destruct (negb _ || negb _); [right; left; eauto|].
  set (declared := N.lor _ _). destruct (CSTP_MAX_PAYLOAD <? declared)%N; [right; left; eauto|].
  set (n := N.to_nat declared). unfold CSTP_HEADER_LEN. cbn [length Nat.add].
  destruct (Nat.ltb_spec (S (S (S (S (S (S (S (S (length body))))))))) (S (S (S (S (S (S (S (S n)))))))));
    [by left|]. right. right.
  exists (MkCodec (drop n body)), (8 + n), b6. cbn [buf Nat.add drop take length].
  split_and!; [|lia..|done|].
  - cbn [app]. by rewrite take_drop.
  - intros x. rewrite length_app.
    destruct (Nat.ltb_spec (S (S (S (S (S (S (S (S (length body + length x))))))))) (S (S (S (S (S (S (S (S n)))))))));
      [lia|].
    rewrite drop_app_le, take_app_le by lia. done.
Qed.

(** ** The stream *)

Lemma frame_of_not_None k p : frame_of k p ≠ Ok None.
Proof. unfold frame_of. destruct p; repeat case_bool_decide; done. Qed.

Lemma decode_consumes c c' f : decode c = (c', Ok (Some f)) → length (buf c') + 8 ≤ length (buf c).
Proof.
  intros E. destruct (decode_cases c) as [H|[(e & H & _)|(c1 & n & k & Hb & H8 & Hn & H & _)]];
    rewrite H in E; simplify_eq.
  apply (f_equal length) in Hb. rewrite length_app, length_take in Hb. lia.
Qed.

Lemma decode_None c c' : decode c = (c', Ok None) → c' = c.
Proof.
  intros E. destruct (decode_cases c) as [H|[(e & H & _)|(c1 & n & k & _ & _ & _ & H & _)]];
    rewrite H in E; simplify_eq; [done|]. by destruct (frame_of_not_None k (drop 8 (take n (buf c)))).
Qed.

Lemma pull_fuel n : ∀ m c, length (buf c) < n → length (buf c) < m → pull n c = pull m c.
Proof.
  induction n as [|n IH]; intros [|m] c Hn Hm; try lia. cbn [pull].
  destruct (decode c) as [c' [[f|]|e]] eqn:E; [|done|done].
  apply decode_consumes in E. by rewrite (IH m c') by lia.
Qed.

Lemma pull_all_eq c :
  pull_all c =
  match decode c with
  | (c', Ok None) => (c', [], None)
  | (c', Err e) => (c', [], Some e)
  | (c', Ok (Some f)) => let '(c'', fs, e) := pull_all c' in (c'', f :: fs, e)
  end.
Proof.
  unfold pull_all at 1. cbn [pull]. destruct (decode c) as [c' [[f|]|e]] eqn:E; [|done|done].
  apply decode_consumes in E. unfold pull_all. by rewrite (pull_fuel _ (S (length (buf c')))) by lia.
Qed.

(** Pulling after more bytes arrived continues where the first pull stopped. *)
Lemma pull_all_feed n : ∀ c x,
  length (buf c) < n →
  pull_all (feed c x) =
  let '(c', fs, e) := pull_all c in
  match e with
  | Some e => (feed c' x, fs, Some e)
  | None => let '(c'', fs', e') := pull_all (feed c' x) in (c'', fs ++ fs', e')
  end.
Proof.
  induction n as [|n IH]; intros c x Hn; [lia|].
  rewrite (pull_all_eq c).
  destruct (decode_cases c) as [H|[(e & H & Hx)|(c1 & k & pk & Hb & H8 & Hk & H & Hx)]].
  - rewrite H. by destruct (pull_all (feed c x)) as [[? ?] ?].
  - rewrite H. by rewrite pull_all_eq, Hx.
  - rewrite H, (pull_all_eq (feed c x)), Hx.
    pose proof (frame_of_not_None pk (drop 8 (take k (buf c)))) as Hnn.
    destruct (frame_of pk (drop 8 (take k (buf c)))) as [[f|]|e]; [|done|done].
    apply decode_consumes in H. rewrite (IH c1 x) by lia.
    destruct (pull_all c1) as [[c' fs] [e|]]; [done|].
    by destruct (pull_all (feed c' x)) as [[? ?] ?].
Qed.

Lemma pull_all_quiet n : ∀ c c' fs,
  length (buf c) < n → pull_all c = (c', fs, None) → decode c' = (c', Ok None).
Proof.
  induction n as [|n IH]; intros c c' fs Hn; [lia|]. rewrite pull_all_eq.
  destruct (decode c) as [c1 [[f|]|e]] eqn:E; [|intros; simplify_eq|done].
  - pose proof (decode_consumes _ _ _ E). destruct (pull_all c1) as [[c2 fs2] e2] eqn:E2.
    intros [= -> <- ->]. eapply IH; [|exact E2]. lia.
  - pose proof (decode_None _ _ E). by subst.
Qed.

(** However a stream is cut into chunks, what comes out is what comes out of the
    whole stream at once. *)
Lemma stream_pull_all chunks : ∀ c,
  decode c = (c, Ok None) →
  let '(c1, fs1, e1) := stream c chunks in
  let '(c2, fs2, e2) := pull_all (feed c (concat chunks)) in
  fs1 = fs2 ∧ e1 = e2 ∧ (e1 = None → c1 = c2).
Proof.
  induction chunks as [|chunk chunks IH]; intros c Hq; cbn [stream concat].
  - unfold feed. rewrite app_nil_r. rewrite pull_all_eq.
    destruct c as [l]. cbn [buf] in *. by rewrite Hq.
  - assert (Hf : feed c (chunk ++ concat chunks) = feed (feed c chunk) (concat chunks))
      by (unfold feed; cbn [buf]; by rewrite app_assoc).
    rewrite Hf, (pull_all_feed (S (length (buf (feed c chunk)))) (feed c chunk)) by lia.
    destruct (pull_all (feed c chunk)) as [[c' fs] [e|]] eqn:E; [done|].
    apply (pull_all_quiet (S (length (buf (feed c chunk))))) in E; [|lia].
    specialize (IH c' E). destruct (stream c' chunks) as [[c1 fs1] e1].
    destruct (pull_all (feed c' (concat chunks))) as [[c2 fs2] e2].
    destruct IH as (-> & -> & Hc). done.
Qed.

Lemma pull_all_wire fs :
  Forall (λ f, frame_ok f = true) fs →
  pull_all (MkCodec (fs ≫= wire)) = (codec_new, fs, None).
Proof.
  induction 1 as [|f fs Hf _ IH]; [done|].
  rewrite pull_all_eq. cbn [mbind list_bind]. rewrite decode_wire by done.
  change (MkCodec (fs ≫= wire)) with (MkCodec (mbind wire fs)) in IH. by rewrite IH.
Qed.

(** ** Properties *)

(** A frame that comes back from one encoding and decoding is one both ends accept. *)
Lemma decode_encoded k payload w : encode_raw k payload = Ok w →
  (N.of_nat (length payload) <= CSTP_MAX_PAYLOAD)%N ∧ (decode (MkCodec w)).2 = frame_of k payload.
Proof.
  unfold encode_raw. destruct (N.ltb_spec CSTP_MAX_PAYLOAD (N.of_nat (length payload))) as [|Hl]; [done|]. intros [= <-].
  split; [done|]. cbn [app]. etransitivity; [exact (f_equal snd (decode_header _ _ k x00 payload))|].
  rewrite length_field_roundtrip by exact Hl.
  destruct (N.ltb_spec CSTP_MAX_PAYLOAD (N.of_nat (length payload))); [lia|].
  rewrite Nat2N.id, Nat.ltb_irrefl. simpl. by rewrite take_ge.
Qed.
Lemma frame_ok_comes_back f :
  frame_ok f = true ↔ ∃ w, encode f = Ok w ∧ decode (MkCodec w) = (codec_new, Ok (Some f)).
Proof.
  split.
  - intros Hf. exists (wire f). split; [by apply encode_wire|]. rewrite <-(app_nil_r (wire f)). by apply decode_wire.
  - intros (w & He & Hd). destruct f as [payload|k body]; simpl in He.
    + destruct payload as [|b payload]; [|destruct (_ =? 6)%N eqn:E6; [done|]];
        apply decode_encoded in He as [Hl Hr]; rewrite Hd in Hr; unfold frame_of in Hr; simpl in Hr; [done|].
      simpl. rewrite E6. simpl in *. by apply N.leb_le.
    + apply decode_encoded in He as [Hl Hr]. rewrite Hd in Hr. simpl in Hr. unfold frame_of in Hr.
      case_bool_decide; [by destruct body|].
      destruct (bool_decide _ || _ || _) eqn:Ek in Hr; [|done]. simpl. rewrite Ek. by apply N.leb_le.
Qed.



(** The chunking never matters, for any bytes whatsoever: two ways of cutting the
    same stream give the same frames and the same error, and when there is no error
    the same leftover bytes. *)
Theorem chunking_irrelevant chunks1 chunks2 :
  concat chunks1 = concat chunks2 →
  let '(c1, fs1, e1) := stream codec_new chunks1 in
  let '(c2, fs2, e2) := stream codec_new chunks2 in
  fs1 = fs2 ∧ e1 = e2 ∧ (e1 = None → c1 = c2).
Proof.
  intros Hcat. pose proof (stream_pull_all chunks1 codec_new eq_refl) as H1.
  pose proof (stream_pull_all chunks2 codec_new eq_refl) as H2.
  destruct (stream codec_new chunks1) as [[c1 fs1] e1], (stream codec_new chunks2) as [[c2 fs2] e2].
  rewrite Hcat in H1. destruct (pull_all _) as [[c fs] e].
  destruct H1 as (-> & -> & Hc1), H2 as (-> & -> & Hc2). split_and!; [done..|].
  intros He. by rewrite Hc1, Hc2.
Qed.

Lemma chunking_irrelevant_witness :
  let '(c1, fs1, e1) := stream codec_new [[x53; x54]; [x46; x01; x00; x00; x03]; [x00]] in
  let '(c2, fs2, e2) := stream codec_new [[x53; x54; x46; x01; x00; x00; x03; x00]] in
  fs1 = fs2 ∧ e1 = e2 ∧ (e1 = None → c1 = c2).
Proof. apply chunking_irrelevant. reflexivity. Defined.

(** A decoded frame is exactly what is on the wire: its bytes are the STF header
    whose length field is the payload's length, at most 4096, its kind, one ignored
    byte and its payload; they are removed from the buffer and nothing else is, and a
    data frame is never empty. *)
Theorem decode_exact c c' f :
  decode c = (c', Ok (Some f)) →
  ∃ hi lo ignored,
    buf c = STF_MAGIC ++ [STF_VERSION; hi; lo; frame_kind f; ignored] ++ frame_payload f ++ buf c' ∧
    N.of_nat (length (frame_payload f)) = (byte_val hi * 256 + byte_val lo)%N ∧
    (N.of_nat (length (frame_payload f)) ≤ CSTP_MAX_PAYLOAD)%N ∧
    f ≠ Data [].
Proof.
  destruct (buf_cases (buf c)) as [Hs|(b0 & b1 & b2 & b3 & hi & lo & k & b7 & body & Hb)];
    [by rewrite decode_short|].
  unfold decode. rewrite Hb. case_bool_decide as Hm; [|done]. case_bool_decide as Hv; [|done].
  cbn [negb orb]. rewrite lor_shiftl_8 by apply byte_val_lt. set (declared := (_ * 256 + _)%N).
  destruct (N.ltb_spec CSTP_MAX_PAYLOAD declared) as [|Hmax]; [done|].
  unfold CSTP_HEADER_LEN. cbn [length Nat.add drop].
  destruct (Nat.ltb_spec (S (S (S (S (S (S (S (S (length body)))))))))
    (S (S (S (S (S (S (S (S (N.to_nat declared)))))))))) as [|Hlen]; [done|].
  intros [= <- Hf]. unfold STF_MAGIC in *. injection Hm as -> -> ->. subst b3.
  assert (Hfk : frame_kind f = k ∧ frame_payload f = take (N.to_nat declared) body ∧ f ≠ Data []).
  { unfold frame_of in Hf. case_bool_decide; [destruct (take _ body) eqn:E; by simplify_eq|].
    destruct (_ || _); by simplify_eq. }
  destruct Hfk as (-> & Hp & Hne). exists hi, lo, b7. cbn [buf app]. rewrite Hp.
  rewrite take_drop, length_take, Nat.min_l by lia. split_and!; [done|lia|lia|done].
Qed.

Lemma decode_exact_witness :
  ∃ hi lo ignored, [x53; x54; x46; x01; x00; x01; x00; xff; x45; x99] =
    STF_MAGIC ++ [STF_VERSION; hi; lo; x00; ignored] ++ [x45] ++ [x99].
Proof.
  destruct (decode_exact (MkCodec [x53; x54; x46; x01; x00; x01; x00; xff; x45; x99]) (MkCodec [x99])
    (Data [x45]) eq_refl) as (hi & lo & ignored & H & _).
  exists hi, lo, ignored. exact H.
Defined.

(** A rejected frame that was complete has been removed from the buffer; one with a
    bad header has not. *)
Example rejected_frame_is_consumed :
  decode (MkCodec [x53; x54; x46; x01; x00; x00; x03; x00; x99]) = (MkCodec [x99], Err (UnknownControl x03)) ∧
  decode (MkCodec [x53; x54; x46; x02; x00; x00; x03; x00; x99]) =
    (MkCodec [x53; x54; x46; x02; x00; x00; x03; x00; x99], Err BadMagic).
Proof. split; reflexivity. Qed.

(** The encoder accepts frames the decoder rejects or reads differently. *)
Example encoder_is_wider :
  encode (Data []) = Ok [x53; x54; x46; x01; x00; x00; x00; x00] ∧
  (decode (MkCodec [x53; x54; x46; x01; x00; x00; x00; x00])).2 = Err BadLength ∧
  encode (Control x00 [x45]) = encode (Data [x45]).
Proof. split_and!; reflexivity. Qed.
