(* ===== verification/Mux.v ===== *)
(** * The priority mux and the late-cleanup vault

    [mux.rs] of the CSTP crate: the single-writer mux, with its reserved control
    queue, its byte-budgeted data queues served in turn and its terminal end of file,
    and the vault of late-cleanup handles.

    The mux is its fields, each method a state transformer. A [LateHandle] carries no
    data, so the vault's map is the set of its entry ids; the two process-wide counters
    are the arguments from which ids are drawn. *)

From Stdlib Require Import NArith Strings.Byte Lia.
From stdpp Require Import fin_sets.
From S2P Require Import Prelude Identity Model Samples.

(** ** The mux *)

(** cstp/mux.rs:31-37 [ControlKind] *)
Inductive ControlKind := Close | Dpd | Keepalive.
(** cstp/mux.rs:39-44 [DataSource] *)
Inductive DataSource := ProducerA | ProducerB.
#[export] Instance ControlKind_eq_dec : EqDecision ControlKind. Proof. solve_decision. Defined.
#[export] Instance DataSource_eq_dec : EqDecision DataSource. Proof. solve_decision. Defined.

(** cstp/mux.rs:46-53 [MuxConfig] *)
Record MuxConfig := MkMuxConfig { control_capacity : N; data_byte_budget : N }.
(** cstp/mux.rs:55-64 [MuxError] *)
Inductive MuxError := ControlQueueFull | DataBudgetExceeded | EofTerminal.
(** cstp/mux.rs:66-73 [MuxItem] *)
Inductive MuxItem :=
  | Item_Control (k : ControlKind)
  | Item_Data (s : DataSource) (payload : list byte)
  | Item_Eof.

(** cstp/mux.rs:75-86 [Mux] *)
Record Mux := MkMux {
  mx_config : MuxConfig;
  mx_control : list ControlKind;
  mx_data_a : list (list byte);
  mx_data_b : list (list byte);
  mx_next_source : DataSource;
  mx_queued_bytes : N;
  mx_inflight_bytes : N;
  mx_eof : bool;
  mx_eof_emitted : bool;
}.

(** [Vec::len] and [VecDeque::len] as a [usize]. *)
Definition len {A} (l : list A) : N := N.of_nat (length l).

(** cstp/mux.rs:89-101 [Mux::new] *)
Definition mux_new (config : MuxConfig) : Mux := MkMux config [] [] [] ProducerA 0 0 false false.

(** cstp/mux.rs:103-112 [Mux::push_control] *)
Definition push_control (m : Mux) (kind : ControlKind) : Mux * result MuxError () :=
  if mx_eof m then (m, Err EofTerminal)
  else if (control_capacity (mx_config m) <=? len (mx_control m))%N then (m, Err ControlQueueFull)
  else (MkMux (mx_config m) (mx_control m ++ [kind]) (mx_data_a m) (mx_data_b m) (mx_next_source m)
          (mx_queued_bytes m) (mx_inflight_bytes m) (mx_eof m) (mx_eof_emitted m), Ok ()).

(** cstp/mux.rs:114-128 [Mux::push_data] *)
Definition push_data (m : Mux) (source : DataSource) (payload : list byte) : Mux * result MuxError () :=
  if mx_eof m then (m, Err EofTerminal)
  else
    let new_total := add64 (add64 (mx_queued_bytes m) (mx_inflight_bytes m)) (len payload) in
    if (data_byte_budget (mx_config m) <? new_total)%N then (m, Err DataBudgetExceeded)
    else
      (MkMux (mx_config m) (mx_control m)
         (match source with ProducerA => mx_data_a m ++ [payload] | ProducerB => mx_data_a m end)
         (match source with ProducerA => mx_data_b m | ProducerB => mx_data_b m ++ [payload] end)
         (mx_next_source m) (add64 (mx_queued_bytes m) (len payload)) (mx_inflight_bytes m)
         (mx_eof m) (mx_eof_emitted m), Ok ()).

(** cstp/mux.rs:175-211 [Mux::take_next_data] *)
Definition take_next_data (m : Mux) : Mux * option (DataSource * list byte) :=
  let chosen := match mx_next_source m with
                | ProducerA =>
                    match mx_data_a m with
                    | [] => match mx_data_b m with [] => None | _ => Some ProducerB end
                    | _ => Some ProducerA
                    end
                | ProducerB =>
                    match mx_data_b m with
                    | [] => match mx_data_a m with [] => None | _ => Some ProducerA end
                    | _ => Some ProducerB
                    end
                end in
  match chosen with
  | None => (m, None)
  | Some chosen =>
      match head (match chosen with ProducerA => mx_data_a m | ProducerB => mx_data_b m end) with
      | None => (m, None)
      | Some payload =>
          (MkMux (mx_config m) (mx_control m)
             (match chosen with ProducerA => tail (mx_data_a m) | ProducerB => mx_data_a m end)
             (match chosen with ProducerA => mx_data_b m | ProducerB => tail (mx_data_b m) end)
             (match chosen with ProducerA => ProducerB | ProducerB => ProducerA end)
             (sub64 (mx_queued_bytes m) (len payload)) (add64 (mx_inflight_bytes m) (len payload))
             (mx_eof m) (mx_eof_emitted m),
           Some (chosen, payload))
      end
  end.

(** cstp/mux.rs:130-142 [Mux::next] *)
Definition next (m : Mux) : Mux * option MuxItem :=
  match mx_control m with
  | kind :: control =>
      (MkMux (mx_config m) control (mx_data_a m) (mx_data_b m) (mx_next_source m)
         (mx_queued_bytes m) (mx_inflight_bytes m) (mx_eof m) (mx_eof_emitted m),
       Some (Item_Control kind))
  | [] =>
      match take_next_data m with
      | (m, Some (source, payload)) => (m, Some (Item_Data source payload))
      | (m, None) =>
          if mx_eof m && negb (mx_eof_emitted m)
          then (MkMux (mx_config m) (mx_control m) (mx_data_a m) (mx_data_b m) (mx_next_source m)
                  (mx_queued_bytes m) (mx_inflight_bytes m) (mx_eof m) true, Some Item_Eof)
          else (m, None)
      end
  end.

(** cstp/mux.rs:144-146 [Mux::peer_read] *)
Definition peer_read (m : Mux) (consumed : N) : Mux :=
  MkMux (mx_config m) (mx_control m) (mx_data_a m) (mx_data_b m) (mx_next_source m)
    (mx_queued_bytes m) (sat_sub (mx_inflight_bytes m) consumed) (mx_eof m) (mx_eof_emitted m).

(** cstp/mux.rs:148-150 [Mux::is_backpressured] *)
Definition is_backpressured (m : Mux) : bool :=
  (data_byte_budget (mx_config m) <=? add64 (mx_queued_bytes m) (mx_inflight_bytes m))%N.

(** cstp/mux.rs:152-154 [Mux::eof] *)
Definition eof (m : Mux) : Mux :=
  MkMux (mx_config m) (mx_control m) (mx_data_a m) (mx_data_b m) (mx_next_source m)
    (mx_queued_bytes m) (mx_inflight_bytes m) true (mx_eof_emitted m).

(** cstp/mux.rs:164-166 [Mux::data_buffered_bytes] *)
Definition data_buffered_bytes (m : Mux) : N := add64 (mx_queued_bytes m) (mx_inflight_bytes m).

(** cstp/mux.rs:168-173 [Mux::is_empty] *)
Definition mux_is_empty (m : Mux) : bool :=
  match mx_control m, mx_data_a m, mx_data_b m with
  | [], [], [] => mx_eof_emitted m
  | _, _, _ => false
  end.

(** ** Histories *)

Inductive mux_op :=
  | PushControl (k : ControlKind)
  | PushData (s : DataSource) (payload : list byte)
  | Next
  | PeerRead (n : N)
  | SetEof.

(** A step, with the item it accepted and the item it emitted. *)
Definition mux_step (m : Mux) (op : mux_op) : Mux * list MuxItem * list MuxItem :=
  match op with
  | PushControl k => let '(m, r) := push_control m k in (m, if is_ok r then [Item_Control k] else [], [])
  | PushData s p => let '(m, r) := push_data m s p in (m, if is_ok r then [Item_Data s p] else [], [])
  | Next => let '(m, o) := next m in (m, [], option_list o)
  | PeerRead n => (peer_read m n, [], [])
  | SetEof => (eof m, [], [])
  end.

Fixpoint mux_run (m : Mux) (ops : list mux_op) : Mux * list MuxItem * list MuxItem :=
  match ops with
  | [] => (m, [], [])
  | op :: ops =>
      let '(m, i, o) := mux_step m op in
      let '(m, ins, outs) := mux_run m ops in
      (m, i ++ ins, o ++ outs)
  end.

(** The control items and the payloads of one producer in a list of items. *)
Definition controls (l : list MuxItem) : list ControlKind :=
  i ← l; match i with Item_Control k => [k] | _ => [] end.
Definition payloads (s : DataSource) (l : list MuxItem) : list (list byte) :=
  i ← l; match i with Item_Data s' p => if bool_decide (s' = s) then [p] else [] | _ => [] end.
Definition queue (s : DataSource) (m : Mux) : list (list byte) :=
  match s with ProducerA => mx_data_a m | ProducerB => mx_data_b m end.

(** The bytes of a queue. *)
Definition bytes_of (l : list (list byte)) : N := foldr (λ p n, len p + n)%N 0%N l.

(** The counters tell the truth and stay within the budget. *)
Definition mux_ok (m : Mux) : Prop :=
  mx_queued_bytes m = (bytes_of (mx_data_a m) + bytes_of (mx_data_b m))%N ∧
  (mx_queued_bytes m + mx_inflight_bytes m ≤ data_byte_budget (mx_config m))%N ∧
  (len (mx_control m) ≤ control_capacity (mx_config m))%N ∧
  (data_byte_budget (mx_config m) < 2 ^ 63)%N.

(** A payload is a [Vec], whose length is below 2^63. *)
Definition op_ok (op : mux_op) : Prop :=
  match op with PushData _ p => (len p < 2 ^ 63)%N | _ => True end.

Lemma bytes_of_snoc l p : bytes_of (l ++ [p]) = (bytes_of l + len p)%N.
Proof. induction l as [|q l IH]; simpl; [lia|]. unfold bytes_of in *. simpl. rewrite IH. lia. Qed.

Lemma take_next_data_cases m :
  take_next_data m = (m, None) ∧ mx_data_a m = [] ∧ mx_data_b m = [] ∨
  ∃ s p q m', queue s m = p :: q ∧ take_next_data m = (m', Some (s, p)) ∧
    (s = mx_next_source m ∨ queue (mx_next_source m) m = []) ∧
    mx_next_source m' ≠ s ∧
    queue s m' = q ∧ (∀ s', s' ≠ s → queue s' m' = queue s' m) ∧
    mx_config m' = mx_config m ∧ mx_control m' = mx_control m ∧
    mx_queued_bytes m' = sub64 (mx_queued_bytes m) (len p) ∧
    mx_inflight_bytes m' = add64 (mx_inflight_bytes m) (len p) ∧
    mx_eof m' = mx_eof m ∧ mx_eof_emitted m' = mx_eof_emitted m.
Proof.
  unfold take_next_data. destruct m as [cfg ct [|a da] [|b db] [] qb ib e ee]; simpl; [by left|by left|..];
    right;
    first [ exists ProducerA; do 3 eexists; split; [reflexivity|]; split; [reflexivity|]; simpl;
              split_and!; auto; intros []; done
          | exists ProducerB; do 3 eexists; split; [reflexivity|]; split; [reflexivity|]; simpl;
              split_and!; auto; intros []; done ].
Qed.

Lemma take_next_data_ok m m' s p :
  mux_ok m → take_next_data m = (m', Some (s, p)) → mux_ok m'.
Proof.
  intros (Hq & Hb & Hc & H63) E.
  destruct (take_next_data_cases m) as [[E' _]|(s' & p' & q & m1 & Hs & E' & _ & _ & Hq1 & Hne & Ec & Ect & Eqb & Eib & _)];
    rewrite E' in E; simplify_eq.
  assert (Hlen : bytes_of (queue s m) = (len p + bytes_of (queue s m'))%N) by by rewrite Hs.
  assert (Hsum : (bytes_of (mx_data_a m) + bytes_of (mx_data_b m) =
                  len p + (bytes_of (mx_data_a m') + bytes_of (mx_data_b m')))%N).
  { destruct s; simpl in *; [specialize (Hne ProducerB ltac:(done))|specialize (Hne ProducerA ltac:(done))];
      simpl in Hne; rewrite Hne; lia. }
  unfold mux_ok. rewrite Ec, Ect, Eqb, Eib.
  assert (2 ^ 63 < two64)%N by done.
  rewrite sub64_small, add64_small by (unfold in_u64; lia). split_and!; [lia|lia|done|done].
Qed.

Lemma mux_step_ok m op :
  mux_ok m → op_ok op → mux_ok (mux_step m op).1.1 ∧ mx_config (mux_step m op).1.1 = mx_config m.
Proof.
  intros Hok Hop. pose proof Hok as (Hq & Hb & Hc & H63). assert (2 ^ 63 < two64)%N by done.
  destruct op as [k|s p| |n|]; simpl.
  - unfold push_control. destruct (mx_eof m); [done|].
    destruct (N.leb_spec (control_capacity (mx_config m)) (len (mx_control m))); [done|]. simpl.
    split; [|done]. unfold mux_ok; simpl. unfold len in *. rewrite length_app; simpl. split_and!; [done|done|lia|done].
  - unfold push_data. simpl in Hop. assert (2 ^ 63 + 2 ^ 63 = two64)%N by done.
    destruct (mx_eof m); [done|].
    rewrite (add64_small (mx_queued_bytes m)) by (unfold in_u64; lia).
    rewrite add64_small by (unfold in_u64; lia).
    destruct (N.ltb_spec (data_byte_budget (mx_config m)) (mx_queued_bytes m + mx_inflight_bytes m + len p)); [done|].
    simpl. split; [|done]. unfold mux_ok; simpl.
    rewrite add64_small by (unfold in_u64; lia).
    split_and!; [destruct s; rewrite ?bytes_of_snoc; lia|lia|done|done].
  - unfold next. destruct (mx_control m) as [|k ct] eqn:Ec.
    + destruct (take_next_data m) as [m' [[s p]|]] eqn:E.
      * split; [by eapply take_next_data_ok|].
        destruct (take_next_data_cases m) as [[E' _]|(? & ? & ? & ? & _ & E' & _ & _ & _ & _ & Ecf & _)];
          rewrite E' in E; by simplify_eq.
      * destruct (take_next_data_cases m) as [[E' _]|(? & ? & ? & ? & _ & E' & _)]; rewrite E' in E; simplify_eq.
        destruct (mx_eof m' && negb (mx_eof_emitted m')); simpl; [|done].
        split; [|done]. unfold mux_ok in *; simpl. done.
    + split; [|done]. unfold mux_ok, len in *; simpl in *. split_and!; [done|done|lia|done].
  - split; [|done]. unfold mux_ok, peer_read, sat_sub in *; simpl. split_and!; [done|lia|done|done].
  - split; [|done]. exact Hok.
Qed.

Lemma mux_run_ok ops : ∀ m,
  mux_ok m → Forall op_ok ops →
  mux_ok (mux_run m ops).1.1 ∧ mx_config (mux_run m ops).1.1 = mx_config m.
Proof.
  induction ops as [|op ops IH]; intros m Hm Hops; [done|].
  apply Forall_cons in Hops as [Hop Hops]. destruct (mux_step_ok m op Hm Hop) as [Hm1 Hc1].
  cbn [mux_run]. destruct (mux_step m op) as [[m1 i] o]. simpl in *.
  destruct (IH m1 Hm1 Hops) as [Hm2 Hc2]. destruct (mux_run m1 ops) as [[m2 ins] outs]. simpl in *.
  split; [done|congruence].
Qed.

(** One step keeps every queue in order: what was queued, then accepted, is what was
    emitted, then is still queued. *)
Lemma mux_step_fifo m op :
  let '(m', i, o) := mux_step m op in
  mx_control m ++ controls i = controls o ++ mx_control m' ∧
  ∀ s, queue s m ++ payloads s i = payloads s o ++ queue s m'.
Proof.
  destruct op as [k|s p| |n|]; simpl.
  - unfold push_control. destruct (mx_eof m); [|destruct (_ <=? _)%N];
      (split; [|intros []]; cbn; by rewrite ?app_nil_r).
  - unfold push_data. destruct (mx_eof m); [|cbv zeta; destruct (_ <? _)%N];
      (split; [|intros []]; destruct s; cbn; by rewrite ?app_nil_r).
  - unfold next. destruct (mx_control m) as [|k ct] eqn:Ec;
      [|split; [|intros []]; cbn; by rewrite ?app_nil_r].
    destruct (take_next_data_cases m) as [(-> & _)|(s & p & q & m1 & Hs & -> & _ & _ & Hq1 & Hne & _ & Ect & _)].
    + destruct (mx_eof m && negb (mx_eof_emitted m)); cbn; rewrite ?Ec;
        (split; [|intros []]; cbn; by rewrite ?app_nil_r).
    + split; [by rewrite Ect|]. intros s'. rewrite app_nil_r. cbn.
      destruct (decide (s = s')) as [<-|Hss].
      * rewrite bool_decide_eq_true_2 by done. cbn. by rewrite Hs, Hq1.
      * rewrite bool_decide_eq_false_2 by done. cbn. by rewrite Hne.
  - split; intros; by rewrite app_nil_r.
  - split; intros; by rewrite app_nil_r.
Qed.

Lemma controls_app l1 l2 : controls (l1 ++ l2) = controls l1 ++ controls l2.
Proof. apply bind_app. Qed.
Lemma payloads_app s l1 l2 : payloads s (l1 ++ l2) = payloads s l1 ++ payloads s l2.
Proof. apply bind_app. Qed.

Lemma payloads_control s l : payloads s (Item_Control <$> l) = [].
Proof. induction l as [|k l IH]; [done|]. exact IH. Qed.

Lemma mux_run_fifo ops : ∀ m,
  let '(m', i, o) := mux_run m ops in
  mx_control m ++ controls i = controls o ++ mx_control m' ∧
  ∀ s, queue s m ++ payloads s i = payloads s o ++ queue s m'.
Proof.
  induction ops as [|op ops IH]; intros m; cbn [mux_run].
  { split; intros; by rewrite app_nil_r. }
  pose proof (mux_step_fifo m op) as H. destruct (mux_step m op) as [[m1 i1] o1].
  specialize (IH m1). destruct (mux_run m1 ops) as [[m2 i2] o2].
  destruct H as [Hc Hd], IH as [IHc IHd]. split.
  - by rewrite !controls_app, app_assoc, Hc, <-!app_assoc, IHc.
  - intros s. by rewrite !payloads_app, app_assoc, Hd, <-!app_assoc, IHd.
Qed.

(** The producers of the data items, in order. *)
Definition sources (l : list MuxItem) : list DataSource :=
  i ← l; match i with Item_Data s _ => [s] | _ => [] end.

(** A step either emits no data and keeps the turn, and what is queued stays queued;
    or it emits a payload of the producer whose turn it is, if that one has any. *)
Lemma mux_step_sources m op s :
  queue s m ≠ [] →
  let '(m', i, o) := mux_step m op in
  sources o = [] ∧ mx_next_source m' = mx_next_source m ∧ queue s m' ≠ [] ∨
  ∃ x, sources o = [x] ∧ mx_next_source m' ≠ x ∧ (mx_next_source m = s → x = s) ∧
       (x ≠ s → queue s m' ≠ []).
Proof.
  intros Hne. pose proof (mux_step_fifo m op) as Hf. destruct op as [k|s' p| |n|]; simpl in *.
  - unfold push_control in *. destruct (mx_eof m); [|destruct (_ <=? _)%N]; left; destruct s; done.
  - unfold push_data in *. destruct (mx_eof m); [|cbv zeta in *; destruct (_ <? _)%N]; left; destruct s, s'; try done;
      cbn in *; split_and!; try done; by destruct (mx_data_a m), (mx_data_b m).
  - unfold next in *. destruct (mx_control m) as [|k ct] eqn:Ec; [|left; by destruct s].
    destruct (take_next_data_cases m) as [(_ & Ha & Hb)|(x & p & q & m1 & Hs & E & Hx & Hn & Hq1 & Hne1 & _)].
    + destruct s; simpl in Hne; congruence.
    + rewrite E. right. exists x. split_and!; [done|done|..].
      * intros <-. destruct Hx as [?|Hx]; [done|congruence].
      * intros Hxs. by rewrite Hne1.
  - left. by destruct s.
  - left. by destruct s.
Qed.

(** With the turn and something queued, the next payload emitted is the producer's. *)
Lemma mux_run_first ops s : ∀ m,
  mx_next_source m = s → queue s m ≠ [] →
  ∀ x rest, sources (mux_run m ops).2 = x :: rest → x = s.
Proof.
  induction ops as [|op ops IH]; intros m Hn Hq x rest; [done|]. cbn [mux_run].
  pose proof (mux_step_sources m op s Hq) as H. destruct (mux_step m op) as [[m1 i1] o1].
  destruct (mux_run m1 ops) as [[m2 i2] o2] eqn:E. simpl. unfold sources. rewrite bind_app.
  destruct H as [(Ho & Hn1 & Hq1)|(y & Ho & _ & Hy & _)]; unfold sources in Ho; rewrite Ho; simpl.
  - intros Hx. apply (IH m1 ltac:(congruence) Hq1 x rest). by rewrite E.
  - intros [= <- _]. auto.
Qed.

Lemma mux_run_second ops s : ∀ m,
  queue s m ≠ [] → ∀ x y rest, sources (mux_run m ops).2 = x :: y :: rest → x = s ∨ y = s.
Proof.
  induction ops as [|op ops IH]; intros m Hq x y rest; [done|]. cbn [mux_run].
  pose proof (mux_step_sources m op s Hq) as H. destruct (mux_step m op) as [[m1 i1] o1].
  pose proof (mux_run_first ops s m1) as Hfirst. specialize (IH m1).
  destruct (mux_run m1 ops) as [[m2 i2] o2]. simpl in *. unfold sources at 1. rewrite bind_app.
  destruct H as [(Ho & Hn1 & Hq1)|(z & Ho & Hz & _ & Hq1)]; unfold sources in Ho; rewrite Ho; simpl.
  - intros Hx. by apply (IH Hq1 x y rest).
  - intros [= <- Hx]. destruct (decide (z = s)) as [?|Hzs]; [by left|]. right.
    apply (Hfirst ltac:(by destruct (mx_next_source m1), z, s) (Hq1 Hzs) y rest). done.
Qed.

(** The number of queued items. *)
Definition backlog (m : Mux) : nat := length (mx_control m) + length (mx_data_a m) + length (mx_data_b m).

(** [next] with a backlog emits a queued item, control first. *)
Lemma next_backlog m :
  backlog m ≠ 0 →
  ∃ m' it, next m = (m', Some it) ∧ backlog m = S (backlog m') ∧ it ≠ Item_Eof ∧
    mx_eof m' = mx_eof m ∧ mx_eof_emitted m' = mx_eof_emitted m ∧
    match mx_control m with
    | k :: ct => it = Item_Control k ∧ mx_control m' = ct
    | [] => mx_control m' = [] ∧ ∃ s p, it = Item_Data s p
    end.
Proof.
  intros Hb. unfold next, backlog in *. destruct (mx_control m) as [|k ct] eqn:Ec.
  - destruct (take_next_data_cases m) as [(_ & Ha & Hb')|(s & p & q & m1 & Hs & E & _ & _ & Hq1 & Hne1 & _ & Ect & _ & _ & He & Hee)].
    { rewrite Ha, Hb' in Hb. simpl in Hb. lia. }
    rewrite E. exists m1, (Item_Data s p). rewrite Ect, Ec. split_and!; try done; [|by eauto].
    destruct s; simpl in *;
      [specialize (Hne1 ProducerB ltac:(done))|specialize (Hne1 ProducerA ltac:(done))]; simpl in Hne1;
      rewrite Hne1, Hs, Hq1; simpl; lia.
  - eexists _, _. by split_and!.
Qed.

Lemma mux_drain n : ∀ m,
  backlog m = n → mx_eof m = true → mx_eof_emitted m = false →
  ∃ m' ds, mux_run m (replicate (S n) Next) =
      (m', [], (Item_Control <$> mx_control m) ++ ds ++ [Item_Eof]) ∧
    mux_is_empty m' = true ∧ controls ds = [] ∧ Item_Eof ∉ ds.
Proof.
  induction n as [|n IH]; intros m Hn He Hee.
  - unfold backlog in Hn. exists (MkMux (mx_config m) [] [] [] (mx_next_source m)
      (mx_queued_bytes m) (mx_inflight_bytes m) true true), [].
    destruct m as [cfg [] [] [] src qb ib e ee]; simpl in *; try lia. subst.
    split_and!; [by destruct src|done|done|set_solver].
  - destruct (next_backlog m) as (m1 & it & E & Hb & Hit & He1 & Hee1 & Hc); [lia|].
    change (replicate (S (S n)) Next) with (Next :: replicate (S n) Next).
    cbn [mux_run mux_step]. rewrite E.
    destruct (IH m1) as (m' & ds & -> & Hempty & Hds & Hnot); [lia|congruence|congruence|].
    destruct (mx_control m) as [|k ct].
    + destruct Hc as [-> (s & p & ->)]. exists m', (Item_Data s p :: ds).
      split_and!; [done|done|done|set_solver].
    + destruct Hc as [-> ->]. exists m', ds. by split_and!.
Qed.

(** ** Properties of the mux *)

(** The writer's buffers are bounded and its counters are exact: over any history
    from a new mux, the control queue never exceeds its reserved capacity, the queued
    and in-flight data never exceed the byte budget, and the queued counter is the
    number of bytes actually in the two data queues. *)
Theorem mux_bounded cfg ops :
  (data_byte_budget cfg < 2 ^ 63)%N → Forall op_ok ops →
  let m := (mux_run (mux_new cfg) ops).1.1 in
  (len (mx_control m) ≤ control_capacity cfg)%N ∧
  (data_buffered_bytes m ≤ data_byte_budget cfg)%N ∧
  mx_queued_bytes m = (bytes_of (mx_data_a m) + bytes_of (mx_data_b m))%N.
Proof.
  intros Hb Hops m. subst m. destruct (mux_run_ok ops (mux_new cfg)) as [(H1 & H2 & H3 & H4) Hc];
    [unfold mux_ok, len; simpl; split_and!; (done || lia)|done|].
  rewrite Hc in H2, H3, H4. cbn [mux_new mx_config] in *. split_and!; [done| |done].
  assert (2 ^ 63 < two64)%N by done.
  unfold data_buffered_bytes. rewrite add64_small by (unfold in_u64; lia). done.
Qed.

Lemma mux_bounded_witness :
  (data_buffered_bytes (mux_run (mux_new (MkMuxConfig 2 4))
     [PushData ProducerA [x01; x02; x03]; PushData ProducerB [x01; x02]; PushControl Close; Next; Next]).1.1 ≤ 4)%N.
Proof.
  apply (mux_bounded (MkMuxConfig 2 4)); [reflexivity|]. repeat constructor.
Defined.

(** Nothing is lost, duplicated or reordered: over any history, the control frames
    queued at the start followed by those accepted are the ones emitted followed by
    those still queued, in order, and the same holds for the payloads of each data
    producer. *)
Theorem mux_fifo m ops :
  let '(m', accepted, emitted) := mux_run m ops in
  mx_control m ++ controls accepted = controls emitted ++ mx_control m' ∧
  ∀ s, queue s m ++ payloads s accepted = payloads s emitted ++ queue s m'.
Proof. apply mux_run_fifo. Qed.

(** No producer is starved: from any state in which a producer has a payload
    queued, of any two data payloads emitted next, whatever else is pushed, read or
    closed meanwhile, one is that producer's. *)
Theorem mux_no_starvation m ops s x y rest :
  queue s m ≠ [] → sources (mux_run m ops).2 = x :: y :: rest → x = s ∨ y = s.
Proof. intros Hq. by apply mux_run_second. Qed.

Lemma mux_no_starvation_witness :
  ProducerA = ProducerB ∨ ProducerB = ProducerB.
Proof.
  apply (mux_no_starvation
    (mux_run (mux_new (MkMuxConfig 1 9))
       [PushData ProducerA [x01]; PushData ProducerA [x02]; PushData ProducerB [x03]]).1.1
    [Next; PushControl Dpd; Next; Next] ProducerB ProducerA ProducerB []);
    [discriminate|reflexivity].
Defined.

(** End of file flushes: after [eof], calling [next] once more than there are
    queued items emits the queued control frames first, then the queued data, then
    [Eof], exactly once, and leaves the mux empty. *)
Theorem mux_eof_flushes m :
  mx_eof_emitted m = false →
  ∃ m' ds, mux_run (eof m) (replicate (S (backlog m)) Next) =
      (m', [], (Item_Control <$> mx_control m) ++ ds ++ [Item_Eof]) ∧
    mux_is_empty m' = true ∧ payloads ProducerA ds = mx_data_a m ∧ payloads ProducerB ds = mx_data_b m ∧
    controls ds = [] ∧ Item_Eof ∉ ds.
Proof.
  intros He. destruct (mux_drain (backlog m) (eof m) eq_refl eq_refl He) as (m' & ds & E & Hem & Hc & Hn).
  assert (Hp : ∀ s, payloads s ds = queue s m).
  { intros s. pose proof (mux_run_fifo (replicate (S (backlog m)) Next) (eof m)) as H. rewrite E in H.
    destruct H as [_ H]. specialize (H s). rewrite !payloads_app, payloads_control in H.
    assert (Hq : queue s m' = [])
      by (unfold mux_is_empty in Hem; destruct m' as [? [] [] [] ?]; try done; by destruct s).
    rewrite Hq in H. change (payloads s [Item_Eof]) with (@nil (list byte)) in H.
    change (payloads s []) with (@nil (list byte)) in H. rewrite !app_nil_r in H. by destruct s. }
  exists m', ds. split_and!; [exact E|done|apply (Hp ProducerA)|apply (Hp ProducerB)|done|done].
Qed.

Lemma mux_eof_flushes_witness :
  ∃ m' ds, mux_run (eof (MkMux (MkMuxConfig 2 9) [Close] [[x01]] [[x02]] ProducerB 2 0 false false))
      (replicate 4 Next) = (m', [], [Item_Control Close] ++ ds ++ [Item_Eof]).
Proof.
  destruct (mux_eof_flushes (MkMux (MkMuxConfig 2 9) [Close] [[x01]] [[x02]] ProducerB 2 0 false false) eq_refl)
    as (m' & ds & E & _).
  exists m', ds. exact E.
Defined.

(** ** The late-cleanup vault *)

(** cstp/mux.rs:221-229 [LateHandle] *)
Inductive LateHandle := LateHandle_new.

(** domain/ports.rs:323-330 [ProtocolLateCleanupOutcome] *)
Inductive ProtocolLateCleanupOutcome :=
  | Terminated
  | StillLive (error : VpnError) (handle : LateHandle) (obligation : RecoveryObligation).

(** cstp/mux.rs:231-237 [LateHandleLocator] *)
Record LateHandleLocator := MkLateHandleLocator { loc_owner : N; loc_id : N }.
#[export] Instance LateHandleLocator_eq_dec : EqDecision LateHandleLocator. Proof. solve_decision. Defined.

(** cstp/mux.rs:239-245 [VaultError] *)
Inductive VaultError := WrongOwner | WrongFence | UnknownLocator.

(** cstp/mux.rs:247-250 [VaultInner] *)
Record VaultInner := MkVaultInner { vi_owner : N; vi_entries : gset N }.

(** cstp/mux.rs:315-321 [LateCleanupFuture] *)
Record LateCleanupFuture := MkLateCleanupFuture { lcf_locator : LateHandleLocator; lcf_polled : bool }.

(** cstp/mux.rs:259-266 [LateCleanupVault::new]: the argument is the owner counter. *)
Definition vault_new (next_owner : N) : VaultInner * N :=
  (MkVaultInner next_owner ∅, add64 next_owner 1).

(** cstp/mux.rs:268-274 [LateCleanupVault::register] *)
Definition register (v : VaultInner) (next_entry : N) : VaultInner * N * LateHandleLocator :=
  let owner := vi_owner v in
  let id := next_entry in
  (MkVaultInner owner ({[id]} ∪ vi_entries v), add64 next_entry 1, MkLateHandleLocator owner id).

(** cstp/mux.rs:276-288 [LateCleanupVault::take] *)
Definition vault_take (v : VaultInner) (locator : LateHandleLocator) : VaultInner * result VaultError () :=
  if negb (loc_owner locator =? vi_owner v)%N then (v, Err WrongOwner)
  else if bool_decide (loc_id locator ∈ vi_entries v)
  then (MkVaultInner (vi_owner v) (vi_entries v ∖ {[loc_id locator]}), Ok ())
  else (v, Err WrongFence).

(** cstp/mux.rs:290-293 [LateCleanupVault::contains] *)
Definition contains (v : VaultInner) (locator : LateHandleLocator) : bool :=
  (vi_owner v =? loc_owner locator)%N && bool_decide (loc_id locator ∈ vi_entries v).

(** cstp/mux.rs:303-312 [LateCleanupVault::begin_cleanup] *)
Definition begin_cleanup (locator : LateHandleLocator) : LateCleanupFuture :=
  MkLateCleanupFuture locator false.

(** cstp/mux.rs:368-380 [late_cleanup_error]: the argument is the fresh uuid. *)
Definition late_cleanup_error (u : Uuid) : VpnError :=
  MkVpnError Code_EffectUnknown Stage_Recovery Certainty_Unknown Advice_Reconcile
    (Subject_Runtime (MkRuntimeEpoch u)) None None.

(** cstp/mux.rs:329-366 [LateCleanupFuture::poll]: [None] is [Poll::Pending]; the two
    arguments are the uuids drawn for the error and for the obligation. *)
Definition poll (u1 u2 : Uuid) (v : VaultInner) (f : LateCleanupFuture) :
    VaultInner * LateCleanupFuture * option ProtocolLateCleanupOutcome :=
  if negb (lcf_polled f) then (v, MkLateCleanupFuture (lcf_locator f) true, None)
  else if negb (loc_owner (lcf_locator f) =? vi_owner v)%N then (v, f, Some Terminated)
  else
    let error := late_cleanup_error u1 in
    let id := loc_id (lcf_locator f) in
    if bool_decide (id ∈ vi_entries v)
    then (MkVaultInner (vi_owner v) ({[id]} ∪ (vi_entries v ∖ {[id]})), f,
          Some (StillLive error LateHandle_new (RecoveryObligation_new (MkRuntimeEpoch u2) None error None None
                  (MkInventoryDigest (array_fill 32 x00)))))
    else (v, f, Some Terminated).

(** Histories of one vault: registrations, takes, and polls of cleanup futures (a
    future that is dropped is one that is not polled again). *)
Inductive vault_op :=
  | VRegister
  | VTake (l : LateHandleLocator)
  | VPoll (u1 u2 : Uuid) (f : LateCleanupFuture).

(** The vault, the entry counter, the locators handed out and the locators taken. *)
Record VaultRun := MkVaultRun {
  vr_vault : VaultInner;
  vr_next : N;
  vr_registered : list LateHandleLocator;
  vr_taken : list LateHandleLocator;
}.

Definition vault_step (r : VaultRun) (op : vault_op) : VaultRun :=
  match op with
  | VRegister =>
      let '(v, n, l) := register (vr_vault r) (vr_next r) in
      MkVaultRun v n (vr_registered r ++ [l]) (vr_taken r)
  | VTake l =>
      let '(v, o) := vault_take (vr_vault r) l in
      MkVaultRun v (vr_next r) (vr_registered r) (vr_taken r ++ if is_ok o then [l] else [])
  | VPoll u1 u2 f =>
      let '(v, _, _) := poll u1 u2 (vr_vault r) f in
      MkVaultRun v (vr_next r) (vr_registered r) (vr_taken r)
  end.

Definition vault_run (r : VaultRun) (ops : list vault_op) : VaultRun := foldl vault_step r ops.

(** The account of the handles: those handed out are the live ones and the taken ones. *)
Definition vault_ok (r : VaultRun) : Prop :=
  NoDup (vr_registered r) ∧
  (∀ l, l ∈ vr_registered r → loc_owner l = vi_owner (vr_vault r) ∧ (loc_id l < vr_next r)%N) ∧
  NoDup (vr_taken r) ∧
  (∀ l, l ∈ vr_registered r ↔ contains (vr_vault r) l = true ∨ l ∈ vr_taken r) ∧
  (∀ l, contains (vr_vault r) l = true → l ∉ vr_taken r).

Lemma vault_contains v l :
  contains v l = true ↔ loc_owner l = vi_owner v ∧ loc_id l ∈ vi_entries v.
Proof. unfold contains. rewrite andb_true_iff, N.eqb_eq, bool_decide_eq_true. naive_solver. Qed.

Lemma poll_keeps_entries u1 u2 v f : (poll u1 u2 v f).1.1 = v.
Proof.
  unfold poll. destruct (lcf_polled f); [|done]. simpl. destruct (_ =? _)%N; [|done]. simpl.
  case_bool_decide as Hin; [|done]. simpl. destruct v as [o es]; simpl in *. f_equal.
  apply set_eq. intros x. destruct (decide (x = loc_id (lcf_locator f))); set_solver.
Qed.

Lemma vault_step_ok r op :
  in_u64 (vr_next r + 1) → vault_ok r →
  vault_ok (vault_step r op) ∧ (vr_next (vault_step r op) ≤ vr_next r + 1)%N ∧
  vi_owner (vr_vault (vault_step r op)) = vi_owner (vr_vault r).
Proof.
  intros Hlt (Hnd & Hreg & Hndt & Hacc & Hdis). destruct op as [|l|u1 u2 f]; simpl.
  - rewrite add64_small by done. split; [|split; [lia|done]].
    set (l0 := MkLateHandleLocator (vi_owner (vr_vault r)) (vr_next r)).
    assert (Hfresh : l0 ∉ vr_registered r) by (intros Hl; apply Hreg in Hl as [_ Hl]; simpl in Hl; lia).
    split_and!; simpl.
    + apply NoDup_app. split_and!; [done|set_solver|apply NoDup_singleton].
    + intros l [Hl| ->%list_elem_of_singleton]%elem_of_app; [|simpl; split; [done|lia]].
      apply Hreg in Hl as [? ?]. split; [done|lia].
    + done.
    + intros l. rewrite elem_of_app, list_elem_of_singleton, Hacc, !vault_contains. simpl.
      destruct l as [o i]; unfold l0; simpl. set_unfold. naive_solver.
    + intros l Hc Ht. assert (l ∈ vr_registered r) as Hl by (apply Hacc; auto).
      apply vault_contains in Hc as [Ho Hc]. simpl in *.
      apply elem_of_union in Hc as [Hc%elem_of_singleton|Hc].
      * destruct Hfresh. unfold l0. rewrite <-Ho, <-Hc. by destruct l.
      * apply (Hdis l); [by apply vault_contains|done].
  - unfold vault_take. destruct (N.eqb_spec (loc_owner l) (vi_owner (vr_vault r))) as [Ho|]; simpl;
      [case_bool_decide as Hin; simpl|]; rewrite ?app_nil_r; try (split_and!; [by split_and!|lia|done]).
    assert (Hcl : contains (vr_vault r) l = true) by by apply vault_contains.
    split; [|split; [lia|done]]. split_and!; simpl; [done|done|..].
    + apply NoDup_app. split_and!; [done|intros x Hx ->%list_elem_of_singleton; by apply (Hdis l)|apply NoDup_singleton].
    + intros x. rewrite Hacc, elem_of_app, list_elem_of_singleton, !vault_contains. simpl.
      destruct (decide (x = l)) as [->|Hx]; [naive_solver|].
      assert (loc_owner x = vi_owner (vr_vault r) → loc_id x ≠ loc_id l).
      { intros Hxo E. destruct Hx. destruct x, l; simpl in *. congruence. }
      set_unfold. naive_solver.
    + intros x [Hxo Hx]%vault_contains. simpl in *. rewrite elem_of_app, list_elem_of_singleton.
      intros [Ht| ->]; [|set_solver]. apply (Hdis x); [|done]. apply vault_contains. set_solver.
  - pose proof (poll_keeps_entries u1 u2 (vr_vault r) f) as Hp.
    destruct (poll u1 u2 (vr_vault r) f) as [[v f'] o]. simpl in *. subst v.
    split; [|split; [lia|done]]. by split_and!.
Qed.

Lemma vault_run_ok ops : ∀ r,
  in_u64 (vr_next r + N.of_nat (length ops)) → vault_ok r → vault_ok (vault_run r ops).
Proof.
  induction ops as [|op ops IH]; intros r Hlt Hok; [done|]. cbn [length] in Hlt. unfold in_u64 in *.
  destruct (vault_step_ok r op) as (Hok1 & Hn & _); [unfold in_u64; lia|done|].
  apply (IH (vault_step r op)); [lia|done].
Qed.

(** No late handle is ever lost or handed back twice: over any history of
    registrations, takes and cleanup polls (completed, pending or abandoned), every
    locator handed out is either still live in the vault or was taken, never both, and
    each is taken at most once; a take is refused unless its locator is live. *)
Theorem vault_handles_linear owner next ops :
  in_u64 (next + N.of_nat (length ops)) →
  let r := vault_run (MkVaultRun (vault_new owner).1 next [] []) ops in
  NoDup (vr_registered r) ∧ NoDup (vr_taken r) ∧
  (∀ l, l ∈ vr_registered r ↔ contains (vr_vault r) l = true ∨ l ∈ vr_taken r) ∧
  (∀ l, contains (vr_vault r) l = true → l ∉ vr_taken r) ∧
  (∀ l, (vault_take (vr_vault r) l).2 = Ok () ↔ contains (vr_vault r) l = true).
Proof.
  intros Hlt r. destruct (vault_run_ok ops (MkVaultRun (vault_new owner).1 next [] [])) as (H1 & _ & H3 & H4 & H5).
  - done.
  - split_and!; simpl; [constructor|set_solver|constructor| |]; intros l; rewrite vault_contains; set_solver.
  - split_and!; [done..|]. intros l. rewrite vault_contains. unfold vault_take.
    destruct (N.eqb_spec (loc_owner l) (vi_owner (vr_vault r))); simpl; [|naive_solver].
    case_bool_decide; naive_solver.
Qed.

Lemma vault_handles_linear_witness :
  vr_taken (vault_run (MkVaultRun (vault_new 1).1 1 [] [])
    [VRegister; VPoll (uu x01) (uu x02) (MkLateCleanupFuture (MkLateHandleLocator 1 1) true);
     VTake (MkLateHandleLocator 1 1); VTake (MkLateHandleLocator 1 1)]) = [MkLateHandleLocator 1 1] ∧
  NoDup (vr_taken (vault_run (MkVaultRun (vault_new 1).1 1 [] [])
    [VRegister; VPoll (uu x01) (uu x02) (MkLateCleanupFuture (MkLateHandleLocator 1 1) true);
     VTake (MkLateHandleLocator 1 1); VTake (MkLateHandleLocator 1 1)])).
Proof. split; [vm_compute; reflexivity|]. apply (vault_handles_linear 1 1). reflexivity. Defined.
