(* ===== verification/Auth.v ===== *)
(** * The authentication interaction

    [auth.rs] of the CSTP crate: the group, username and password prompts, each with a
    single-use interaction id and a deadline, and the password secret that is wiped
    when it is sent and when the interaction is stopped.

    A [Secret] is a buffer shared by its clones: it is a location of a heap of byte
    buffers. The clock is read by the caller of each operation, in milliseconds.
    [Uuid::new_v4] is the section variable [entropy]; [fresh_id] draws until the id was
    not issued before, with one unit of fuel more than there are issued ids, and [None]
    is the case in which it would panic or keep drawing. [zeroize] is the other crate's
    wiping of a buffer. *)

From Stdlib Require Import NArith Strings.Byte Lia.
From stdpp Require Import fin_sets.
From S2P Require Import Prelude Identity Model Samples.

(** cstp/auth.rs:23-29 [AuthPrompt] *)
Inductive AuthPrompt := Prompt_Group | Prompt_Username | Prompt_Password.
(** cstp/auth.rs:31-37 [AuthChallengeKind] *)
Inductive AuthChallengeKind := GroupUsernamePassword | Sso | HostScan.
#[export] Instance AuthPrompt_eq_dec : EqDecision AuthPrompt. Proof. solve_decision. Defined.
#[export] Instance AuthChallengeKind_eq_dec : EqDecision AuthChallengeKind. Proof. solve_decision. Defined.

(** cstp/auth.rs:39-46 [AuthChallenge] *)
Record AuthChallenge := MkAuthChallenge {
  ach_interaction_id : InteractionId;
  ach_kind : AuthChallengeKind;
  ach_prompt : AuthPrompt;
}.

(** cstp/auth.rs:78-83 [Secret]: the location of the shared buffer. *)
Record Secret := MkSecret { secret_buffer : nat }.
#[export] Instance Secret_eq_dec : EqDecision Secret. Proof. solve_decision. Defined.

(** cstp/auth.rs:48-53 [AuthResponse] *)
Record AuthResponse := MkAuthResponse { ar_interaction_id : InteractionId; ar_secret : Secret }.

(** cstp/auth.rs:55-60 [AuthProgress] *)
Inductive AuthProgress := Progress_Challenge (c : AuthChallenge) | Established.

(** cstp/auth.rs:62-70 [AuthError] *)
Inductive AuthError :=
  | Unsupported (kind : AuthChallengeKind)
  | StaleInteraction | DuplicateInteraction | ExpiredInteraction | Auth_Stopped.

(** cstp/auth.rs:112-118 [PendingPrompt] *)
Record PendingPrompt := MkPendingPrompt {
  pp_interaction_id : InteractionId;
  pp_issued_at : N;
  pp_prompt : AuthPrompt;
}.

(** cstp/auth.rs:120-128 [AuthInteraction]; the last field counts the draws. *)
Record AuthInteraction := MkAuthInteraction {
  au_budget_ms : N;
  au_issued : gset InteractionId;
  au_pending : option PendingPrompt;
  au_secret : option Secret;
  au_stopped : bool;
  au_drawn : nat;
}.

(** The heap of secret buffers. *)
Abbreviation heap := (gmap nat (list byte)).

(** cstp/auth.rs:95-98 [Secret::is_zeroed] *)
Definition is_zeroed (h : heap) (s : Secret) : bool :=
  match h !! secret_buffer s with
  | Some buffer => forallb (λ b, bool_decide (b = x00)) buffer
  | None => true
  end.

(** cstp/auth.rs:131-141 [AuthInteraction::new] *)
Definition auth_new (prompt_budget : N) : AuthInteraction :=
  MkAuthInteraction (wrap64 (prompt_budget / 1000000)) ∅ None None false 0.

(** cstp/auth.rs:216-219 [AuthInteraction::reject_unsupported] *)
Definition reject_unsupported (kind : AuthChallengeKind) : result AuthError () := Err (Unsupported kind).

Section auth.
Variable entropy : nat → Uuid.
Variable zeroize_buffer : list byte → list byte.

(** cstp/auth.rs:100-103 [Secret::zeroize] *)
Definition zeroize (h : heap) (s : Secret) : heap := alter zeroize_buffer (secret_buffer s) h.

(** cstp/auth.rs:237-245 [AuthInteraction::fresh_id] *)
Fixpoint fresh_id (fuel : nat) (issued : gset InteractionId) (drawn : nat) :
    option (InteractionId * nat) :=
  match fuel with
  | O => None
  | S fuel =>
      match InteractionId_try_from (entropy drawn) with
      | Err _ => None
      | Ok id => if bool_decide (id ∈ issued) then fresh_id fuel issued (S drawn)
                 else Some (id, S drawn)
      end
  end.

(** cstp/auth.rs:221-235 [AuthInteraction::next_prompt] *)
Definition next_prompt (now : N) (prompt : AuthPrompt) (a : AuthInteraction) :
    option (AuthInteraction * AuthChallenge) :=
  '(interaction_id, drawn) ← fresh_id (S (size (au_issued a))) (au_issued a) (au_drawn a);
  let issued_at := now in
  Some (MkAuthInteraction (au_budget_ms a) ({[interaction_id]} ∪ au_issued a)
          (Some (MkPendingPrompt interaction_id issued_at prompt)) (au_secret a) (au_stopped a) drawn,
        MkAuthChallenge interaction_id GroupUsernamePassword prompt).

(** cstp/auth.rs:143-146 [AuthInteraction::begin] *)
Definition auth_begin (now : N) (a : AuthInteraction) : option (AuthInteraction * AuthChallenge) :=
  next_prompt now Prompt_Group a.

(** [*self.pending.borrow_mut() = None]. *)
Definition clear_pending (a : AuthInteraction) : AuthInteraction :=
  MkAuthInteraction (au_budget_ms a) (au_issued a) None (au_secret a) (au_stopped a) (au_drawn a).

(** cstp/auth.rs:148-189 [AuthInteraction::respond]; [now] is read when the
    deadline is checked and [issue] when the next prompt is issued. *)
Definition respond (now issue : N) (response : AuthResponse) (a : AuthInteraction) :
    option (AuthInteraction * result AuthError AuthProgress) :=
  let id := ar_interaction_id response in
  if au_stopped a then Some (a, Err Auth_Stopped)
  else if negb (bool_decide (id ∈ au_issued a)) then Some (a, Err StaleInteraction)
  else
    match au_pending a with
    | None => Some (a, Err DuplicateInteraction)
    | Some pending =>
        if negb (bool_decide (pp_interaction_id pending = id)) then Some (a, Err DuplicateInteraction)
        else if (au_budget_ms a <? sat_sub now (pp_issued_at pending))%N
        then Some (a, Err ExpiredInteraction)
        else
          let a := clear_pending a in
          match pp_prompt pending with
          | Prompt_Group =>
              '(a, c) ← next_prompt issue Prompt_Username a; Some (a, Ok (Progress_Challenge c))
          | Prompt_Username =>
              '(a, c) ← next_prompt issue Prompt_Password a; Some (a, Ok (Progress_Challenge c))
          | Prompt_Password =>
              Some (MkAuthInteraction (au_budget_ms a) (au_issued a) (au_pending a)
                      (Some (ar_secret response)) (au_stopped a) (au_drawn a), Ok Established)
          end
    end.

(** [self.secret.take()]. *)
Definition take_secret (a : AuthInteraction) : AuthInteraction :=
  MkAuthInteraction (au_budget_ms a) (au_issued a) (au_pending a) None (au_stopped a) (au_drawn a).

(** cstp/auth.rs:191-196 [AuthInteraction::send_secret] *)
Definition send_secret (h : heap) (a : AuthInteraction) : heap * AuthInteraction :=
  match au_secret a with
  | Some secret => (zeroize h secret, take_secret a)
  | None => (h, a)
  end.

(** cstp/auth.rs:198-209 [AuthInteraction::stop] *)
Definition auth_stop (h : heap) (a : AuthInteraction) : heap * AuthInteraction * list InteractionId :=
  let revoked := match au_pending a with Some p => [pp_interaction_id p] | None => [] end in
  let h := match au_secret a with Some secret => zeroize h secret | None => h end in
  (h, MkAuthInteraction (au_budget_ms a) (au_issued a) None None true (au_drawn a), revoked).

(** ** Histories *)

Inductive auth_op :=
  | ABegin (now : N)
  | ARespond (now issue : N) (r : AuthResponse)
  | ASend
  | AStop.

Inductive auth_event :=
  | Ev_challenged (prompt : AuthPrompt) (id : InteractionId)
  | Ev_accepted (id : InteractionId)
  | Ev_established.

Definition auth_step (s : heap * AuthInteraction) (op : auth_op) :
    option (heap * AuthInteraction * list auth_event) :=
  match op with
  | ABegin now =>
      '(a, c) ← auth_begin now s.2;
      Some (s.1, a, [Ev_challenged (ach_prompt c) (ach_interaction_id c)])
  | ARespond now issue r =>
      '(a, res) ← respond now issue r s.2;
      Some (s.1, a,
        match res with
        | Ok (Progress_Challenge c) =>
            [Ev_accepted (ar_interaction_id r); Ev_challenged (ach_prompt c) (ach_interaction_id c)]
        | Ok Established => [Ev_accepted (ar_interaction_id r); Ev_established]
        | Err _ => []
        end)
  | ASend => Some (send_secret s.1 s.2, [])
  | AStop => Some ((auth_stop s.1 s.2).1, [])
  end.

Fixpoint auth_run (s : heap * AuthInteraction) (ops : list auth_op) :
    option (heap * AuthInteraction * list auth_event) :=
  match ops with
  | [] => Some (s, [])
  | op :: ops =>
      '(s, e) ← auth_step s op;
      '(s, es) ← auth_run s ops;
      Some (s, e ++ es)
  end.

(** ** Fresh ids *)

Lemma fresh_id_spec fuel issued n id n' : fresh_id fuel issued n = Some (id, n') → id ∉ issued.
Proof.
  revert n. induction fuel as [|fuel IH]; intros n; [done|]. simpl.
  destruct (InteractionId_try_from _); [|done]. case_bool_decide; [apply IH|]. by intros [= <- _].
Qed.

(** The uuids of a window of draws are distinct and not nil. *)
Definition fresh_window (n len : nat) : Prop :=
  (∀ i, n ≤ i < n + len → entropy i ≠ Uuid_nil) ∧
  (∀ i j, n ≤ i < n + len → n ≤ j < n + len → entropy i = entropy j → i = j).

Lemma fresh_id_fails fuel issued : ∀ n,
  (∀ i, n ≤ i < n + fuel → entropy i ≠ Uuid_nil) → fresh_id fuel issued n = None →
  ∀ i, n ≤ i < n + fuel → MkInteractionId (entropy i) ∈ issued.
Proof.
  induction fuel as [|fuel IH]; intros n Hnil Hf i Hi; [lia|]. simpl in Hf.
  unfold InteractionId_try_from in Hf. rewrite uuid_try_from_Ok in Hf by (apply Hnil; lia).
  case_bool_decide as Hin; [|done]. destruct (decide (i = n)) as [->|]; [done|].
  apply (IH (S n)); [intros; apply Hnil; lia|done|lia].
Qed.

(** Among more distinct ids than were issued, one is fresh: the loop returns. *)
Lemma fresh_id_total issued n :
  fresh_window n (S (size issued)) → ∃ id n', fresh_id (S (size issued)) issued n = Some (id, n').
Proof.
  intros [Hnil Hinj]. destruct (fresh_id _ issued n) as [[id n']|] eqn:E; [eauto|].
  pose proof (fresh_id_fails _ _ _ Hnil E) as Hall.
  set (ids := (λ i, MkInteractionId (entropy i)) <$> seq n (S (size issued))).
  assert (Hnd : NoDup ids).
  { apply NoDup_fmap_2_strong; [|apply NoDup_seq].
    intros i j Hi%elem_of_seq Hj%elem_of_seq [= Eij]. apply Hinj; lia || done. }
  assert (Hsub : (list_to_set ids : gset InteractionId) ⊆ issued).
  { intros x. rewrite elem_of_list_to_set. unfold ids. rewrite list_elem_of_fmap.
    intros (i & -> & Hi%elem_of_seq). apply Hall. lia. }
  apply subseteq_size in Hsub. rewrite size_list_to_set in Hsub by done.
  unfold ids in Hsub. rewrite length_fmap, length_seq in Hsub. lia.
Qed.

Lemma next_prompt_spec now prompt a a' c :
  next_prompt now prompt a = Some (a', c) →
  ∃ id drawn, id ∉ au_issued a ∧ c = MkAuthChallenge id GroupUsernamePassword prompt ∧
    a' = MkAuthInteraction (au_budget_ms a) ({[id]} ∪ au_issued a)
           (Some (MkPendingPrompt id now prompt)) (au_secret a) (au_stopped a) drawn.
Proof.
  unfold next_prompt. destruct (fresh_id _ _ _) as [[id drawn]|] eqn:E; [|done].
  simpl. intros [= <- <-]. apply fresh_id_spec in E. eauto.
Qed.

(** ** The account of a history *)

Definition challenged (tr : list auth_event) : list InteractionId :=
  e ← tr; match e with Ev_challenged _ id => [id] | _ => [] end.
Definition accepted (tr : list auth_event) : list InteractionId :=
  e ← tr; match e with Ev_accepted id => [id] | _ => [] end.

(** The events by which a prompt became pending. *)
Definition asked (prompt : AuthPrompt) (id : InteractionId) (tr : list auth_event) : Prop :=
  match prompt with
  | Prompt_Group => ∃ t, tr = t ++ [Ev_challenged Prompt_Group id]
  | Prompt_Username => ∃ t g,
      tr = t ++ [Ev_challenged Prompt_Group g; Ev_accepted g; Ev_challenged Prompt_Username id]
  | Prompt_Password => ∃ t g u,
      tr = t ++ [Ev_challenged Prompt_Group g; Ev_accepted g; Ev_challenged Prompt_Username u;
                 Ev_accepted u; Ev_challenged Prompt_Password id]
  end.

(** The three prompts were asked and answered in order, last of all. *)
Definition all_answered (tr : list auth_event) : Prop :=
  ∃ t g u p, tr = t ++ [Ev_challenged Prompt_Group g; Ev_accepted g;
                        Ev_challenged Prompt_Username u; Ev_accepted u;
                        Ev_challenged Prompt_Password p; Ev_accepted p].

Record auth_inv (tr : list auth_event) (a : AuthInteraction) : Prop := {
  inv_challenged : NoDup (challenged tr);
  inv_issued : ∀ id, id ∈ challenged tr ↔ id ∈ au_issued a;
  inv_accepted : NoDup (accepted tr);
  inv_accepted_issued : ∀ id, id ∈ accepted tr → id ∈ au_issued a;
  inv_pending : ∀ p, au_pending a = Some p →
    pp_interaction_id p ∉ accepted tr ∧ asked (pp_prompt p) (pp_interaction_id p) tr;
  inv_established : ∀ t1 t2, tr = t1 ++ Ev_established :: t2 → all_answered t1;
}.

Lemma challenged_app t1 t2 : challenged (t1 ++ t2) = challenged t1 ++ challenged t2.
Proof. apply bind_app. Qed.
Lemma accepted_app t1 t2 : accepted (t1 ++ t2) = accepted t1 ++ accepted t2.
Proof. apply bind_app. Qed.

(** Appending events other than [Ev_established] adds no establishment. *)
Lemma established_app tr es :
  (∀ t1 t2, tr = t1 ++ Ev_established :: t2 → all_answered t1) → Ev_established ∉ es →
  ∀ t1 t2, tr ++ es = t1 ++ Ev_established :: t2 → all_answered t1.
Proof.
  intros Htr Hes t1 t2 E. apply app_eq_inv in E as [(k & -> & E)|(k & -> & E)].
  - destruct k as [|e k]; simplify_eq/=; [|by eapply Htr]. destruct Hes. by left.
  - destruct Hes. rewrite E. set_solver.
Qed.

Lemma inv_next_prompt now prompt tr a a' c :
  auth_inv tr a → next_prompt now prompt a = Some (a', c) →
  let ev := Ev_challenged (ach_prompt c) (ach_interaction_id c) in
  asked prompt (ach_interaction_id c) (tr ++ [ev]) → auth_inv (tr ++ [ev]) a'.
Proof.
  intros [H1 H2 H3 H4 H5 H6] (id & drawn & Hid & -> & ->)%next_prompt_spec. simpl. intros Hask.
  constructor; rewrite ?challenged_app, ?accepted_app; simpl.
  - apply NoDup_app. split_and!; [done| |apply NoDup_singleton].
    intros x Hx ->%list_elem_of_singleton. by apply Hid, H2.
  - intros x. rewrite elem_of_app, H2, list_elem_of_singleton, elem_of_union, elem_of_singleton. naive_solver.
  - by rewrite app_nil_r.
  - intros x. rewrite app_nil_r. set_solver.
  - intros p [= <-]. simpl. rewrite app_nil_r. split; [|done]. intros Hx. by apply Hid, H4.
  - apply established_app; [done|set_solver].
Qed.

(** Accepting the pending prompt. *)
Lemma inv_accept tr a p :
  auth_inv tr a → au_pending a = Some p → pp_interaction_id p ∈ au_issued a →
  auth_inv (tr ++ [Ev_accepted (pp_interaction_id p)]) (clear_pending a).
Proof.
  intros [H1 H2 H3 H4 H5 H6] Hp Hin. destruct (H5 p Hp) as [Hna _].
  constructor; rewrite ?challenged_app, ?accepted_app; simpl; rewrite ?app_nil_r; try done.
  - apply NoDup_app. split_and!; [done| |apply NoDup_singleton].
    by intros x Hx ->%list_elem_of_singleton.
  - intros x. rewrite elem_of_app, list_elem_of_singleton. intros [Hx| ->]; auto.
  - apply established_app; [done|set_solver].
Qed.

Lemma inv_frame tr a b :
  auth_inv tr a → au_issued b = au_issued a → au_pending b = au_pending a ∨ au_pending b = None →
  auth_inv tr b.
Proof.
  intros [H1 H2 H3 H4 H5 H6] Ei Ep. constructor; rewrite ?Ei; try done.
  intros p. destruct Ep as [-> | ->]; [apply H5|done].
Qed.

(** The response to the pending prompt of a running interaction, in time. *)
Definition accepts (now : N) (a : AuthInteraction) (id : InteractionId) : Prop :=
  au_stopped a = false ∧ id ∈ au_issued a ∧
  ∃ p, au_pending a = Some p ∧ pp_interaction_id p = id ∧
       (sat_sub now (pp_issued_at p) ≤ au_budget_ms a)%N.

(** What a response does: it is refused without a trace, or accepted. *)
Lemma respond_cases now issue r a a' res :
  respond now issue r a = Some (a', res) →
  (∃ e, res = Err e ∧ a' = a) ∨
  accepts now a (ar_interaction_id r) ∧
  ∃ p, au_pending a = Some p ∧ pp_interaction_id p = ar_interaction_id r ∧
    match pp_prompt p with
    | Prompt_Group => ∃ c, next_prompt issue Prompt_Username (clear_pending a) = Some (a', c) ∧
                           res = Ok (Progress_Challenge c)
    | Prompt_Username => ∃ c, next_prompt issue Prompt_Password (clear_pending a) = Some (a', c) ∧
                              res = Ok (Progress_Challenge c)
    | Prompt_Password =>
        res = Ok Established ∧
        a' = MkAuthInteraction (au_budget_ms a) (au_issued a) None (Some (ar_secret r))
               (au_stopped a) (au_drawn a)
    end.
Proof.
  unfold respond. destruct (au_stopped a) eqn:Hst; [intros; simplify_eq; eauto|].
  case_bool_decide as Hin; simpl; [|intros; simplify_eq; eauto].
  destruct (au_pending a) as [p|] eqn:Hp; [|intros; simplify_eq; eauto].
  case_bool_decide as Hid; simpl; [|intros; simplify_eq; eauto].
  destruct (N.ltb_spec (au_budget_ms a) (sat_sub now (pp_issued_at p))) as [|Hle];
    [intros; simplify_eq; eauto|].
  intros E. right. split; [unfold accepts; eauto 10|]. exists p. split_and!; [done|done|].
  destruct (pp_prompt p); [| |simplify_eq/=; rewrite ?Hst; by split];
    destruct (next_prompt _ _ _) as [[a1 c]|]; simplify_eq/=; eauto.
Qed.

Lemma auth_step_inv tr s op s' es :
  auth_inv tr s.2 → auth_step s op = Some (s', es) → auth_inv (tr ++ es) s'.2.
Proof.
  destruct s as [h a]. intros Hinv. destruct op as [now|now issue r| |]; simpl.
  - unfold auth_begin. destruct (next_prompt now Prompt_Group a) as [[a' c]|] eqn:E; [|done].
    intros [= <- <-]. simpl. apply (inv_next_prompt now Prompt_Group tr a a' c Hinv E).
    simpl. exists tr. apply next_prompt_spec in E as (id & d & _ & -> & _). done.
  - destruct (respond now issue r a) as [[a' res]|] eqn:E; [|done]. intros [= <- <-]. simpl.
    apply respond_cases in E as [(e & -> & ->)|[(_ & Hin & _) (p & Hp & Hid & Hc)]];
      [by rewrite app_nil_r|].
    pose proof (inv_accept tr a p Hinv Hp ltac:(by rewrite Hid)) as Hacc. rewrite Hid in Hacc.
    destruct (inv_pending _ _ Hinv p Hp) as [_ Hask]. rewrite Hid in Hask.
    destruct (pp_prompt p).
    + destruct Hc as (c & E & ->). destruct Hask as (t & Ht).
      replace (tr ++ _) with ((tr ++ [Ev_accepted (ar_interaction_id r)]) ++
        [Ev_challenged (ach_prompt c) (ach_interaction_id c)]) by by rewrite <-app_assoc.
      apply (inv_next_prompt _ _ _ _ _ _ Hacc E). simpl. exists t, (ar_interaction_id r).
      apply next_prompt_spec in E as (id & d & _ & -> & _). by rewrite Ht, <-!app_assoc.
    + destruct Hc as (c & E & ->). destruct Hask as (t & g & Ht).
      replace (tr ++ _) with ((tr ++ [Ev_accepted (ar_interaction_id r)]) ++
        [Ev_challenged (ach_prompt c) (ach_interaction_id c)]) by by rewrite <-app_assoc.
      apply (inv_next_prompt _ _ _ _ _ _ Hacc E). simpl. exists t, g, (ar_interaction_id r).
      apply next_prompt_spec in E as (id & d & _ & -> & _). by rewrite Ht, <-!app_assoc.
    + destruct Hc as [-> ->]. destruct Hask as (t & g & u & Ht).
      replace (tr ++ _) with ((tr ++ [Ev_accepted (ar_interaction_id r)]) ++ [Ev_established])
        by by rewrite <-app_assoc.
      destruct Hacc as [A1 A2 A3 A4 _ A6].
      constructor; rewrite ?challenged_app, ?accepted_app in *; simpl in *; rewrite ?app_nil_r in *; try done.
      intros t1 t2 Heq. destruct t2 as [|x t2 _] using rev_ind.
      * apply app_inj_tail in Heq as [<- _]. exists t, g, u, (ar_interaction_id r).
        by rewrite Ht, <-!app_assoc.
      * rewrite app_comm_cons, app_assoc in Heq. apply app_inj_tail in Heq as [Heq _]. by apply (A6 t1 t2).
  - intros [= <- <-]. rewrite app_nil_r. unfold send_secret.
    destruct (au_secret a); simpl; [|done]. apply (inv_frame tr a); auto.
  - intros [= <- <-]. rewrite app_nil_r. simpl. apply (inv_frame tr a); auto.
Qed.

Lemma auth_run_inv ops : ∀ tr s s' es,
  auth_inv tr s.2 → auth_run s ops = Some (s', es) → auth_inv (tr ++ es) s'.2.
Proof.
  induction ops as [|op ops IH]; intros tr s s' es Hinv; cbn [auth_run].
  { intros [= <- <-]. by rewrite app_nil_r. }
  destruct (auth_step s op) as [[s1 e1]|] eqn:E1; [|done]. cbn [mbind option_bind].
  destruct (auth_run s1 ops) as [[s2 e2]|] eqn:E2; [|done]. intros [= <- <-].
  rewrite app_assoc. eapply IH; [|exact E2]. by eapply auth_step_inv.
Qed.

Lemma auth_new_inv budget : auth_inv [] (auth_new budget).
Proof. constructor; try done; try constructor; try set_solver. intros [] ?; done. Qed.

(** Once stopped, always stopped, and nothing is accepted any more. *)
Lemma auth_run_stopped ops : ∀ s s' es,
  au_stopped s.2 = true → auth_run s ops = Some (s', es) →
  au_stopped s'.2 = true ∧ accepted es = [] ∧ Ev_established ∉ es.
Proof.
  induction ops as [|op ops IH]; intros [h a] s' es Hst; cbn [auth_run].
  { intros [= <- <-]. split_and!; [done|done|set_solver]. }
  destruct (auth_step (h, a) op) as [[s1 e1]|] eqn:E1; [|done]. cbn [mbind option_bind].
  destruct (auth_run s1 ops) as [[s2 e2]|] eqn:E2; [|done]. intros [= <- <-].
  assert (H1 : au_stopped s1.2 = true ∧ accepted e1 = [] ∧ Ev_established ∉ e1).
  { simpl in Hst. destruct op as [now|now issue r| |]; simpl in E1.
    - unfold auth_begin in E1. destruct (next_prompt now Prompt_Group a) as [[a' c]|] eqn:E; simplify_eq/=.
      apply next_prompt_spec in E as (id & d & _ & -> & ->). split_and!; [done|done|set_solver].
    - unfold respond in E1. rewrite Hst in E1. simplify_eq/=. split_and!; [done|done|set_solver].
    - unfold send_secret in E1. destruct (au_secret a); simplify_eq/=; split_and!; (done || set_solver).
    - simplify_eq/=. split_and!; [done|done|set_solver]. }
  destruct H1 as (Hs1 & Ha1 & He1). destruct (IH s1 s2 e2 Hs1 E2) as (Hs2 & Ha2 & He2).
  split_and!; [done|by rewrite accepted_app, Ha1, Ha2|set_solver].
Qed.

(** ** Properties *)

(** Interaction ids are single-use: over any history of prompts, responses, sends
    and stops, no id is issued twice, no response is accepted twice for the same id,
    and only issued ids are ever accepted. *)
Theorem interaction_single_use budget h ops s' es :
  auth_run (h, auth_new budget) ops = Some (s', es) →
  NoDup (challenged es) ∧ NoDup (accepted es) ∧ (∀ id, id ∈ accepted es → id ∈ challenged es).
Proof.
  intros E. destruct (auth_run_inv ops [] (h, auth_new budget) s' es (auth_new_inv budget) E)
    as [H1 H2 H3 H4 _ _].
  split_and!; [done|done|]. intros id Hid. by apply H2, H4.
Qed.

(** Authentication takes all three answers: whenever the flow reports
    [Established], the six events just before it are the group prompt, its answer, the
    username prompt, its answer, the password prompt and its answer, with nothing in
    between. *)
Theorem established_after_all_prompts budget h ops s' es t1 t2 :
  auth_run (h, auth_new budget) ops = Some (s', es) →
  es = t1 ++ Ev_established :: t2 → all_answered t1.
Proof.
  intros E Hes. by apply (inv_established _ _
    (auth_run_inv ops [] (h, auth_new budget) s' es (auth_new_inv budget) E) t1 t2).
Qed.

(** Stopping is final and wipes: after [stop] the held secret's shared buffer is
    zero for everyone who holds a clone of it, the pending prompt's id is the one
    reported revoked, and no response is ever accepted again, even for a prompt
    issued by a later [begin]. *)
Theorem stop_is_final h a ops s' es :
  (∀ l, Forall (eq x00) (zeroize_buffer l)) →
  let '(h1, a1, revoked) := auth_stop h a in
  auth_run (h1, a1) ops = Some (s', es) →
  accepted es = [] ∧ Ev_established ∉ es ∧
  revoked = option_list (pp_interaction_id <$> au_pending a) ∧
  (∀ s, au_secret a = Some s → is_zeroed h1 s = true) ∧ au_secret a1 = None.
Proof.
  intros Hz. simpl. intros E. pose proof E as E'.
  apply auth_run_stopped in E' as (_ & Ha & He); [|done].
  split_and!; [done|done|by destruct (au_pending a)| |done].
  intros s Hs. rewrite Hs. unfold is_zeroed, zeroize. rewrite lookup_alter_eq.
  destruct (h !! secret_buffer s) as [l|]; simpl; [|done].
  apply forallb_forall. intros b Hb. apply bool_decide_eq_true.
  specialize (Hz l). rewrite Forall_forall in Hz. symmetry. apply Hz. by apply list_elem_of_In.
Qed.

(** A response is accepted exactly when it answers the pending prompt of a
    running interaction in time, and then the flow moves on: as long as the uuids
    about to be drawn are distinct and not nil, the response to the group or username
    prompt gets the next prompt, under an id never issued before, and the response to
    the password prompt establishes the session holding exactly its secret; every
    other response is an error that changes nothing. *)
Theorem respond_progress now issue r a :
  fresh_window (au_drawn a) (S (size (au_issued a))) →
  (∀ p, au_pending a = Some p → pp_interaction_id p ∈ au_issued a) →
  ∃ a' res, respond now issue r a = Some (a', res) ∧
    ((∃ e, res = Err e) ↔ ¬ accepts now a (ar_interaction_id r)) ∧
    (∀ e, res = Err e → a' = a) ∧
    (res = Ok Established → au_secret a' = Some (ar_secret r)) ∧
    (∀ c, res = Ok (Progress_Challenge c) → ach_interaction_id c ∉ au_issued a).
Proof.
  intros Hw Hpi.
  assert (Hnext : ∀ prompt, ∃ a' c, next_prompt issue prompt (clear_pending a) = Some (a', c)).
  { intros prompt. unfold next_prompt. destruct (fresh_id_total (au_issued a) (au_drawn a) Hw) as (id & n & E).
    unfold clear_pending. cbn [au_issued au_drawn]. rewrite E. simpl. eauto. }
  assert (Htot : ∃ a' res, respond now issue r a = Some (a', res)).
  { unfold respond. repeat case_match; eauto;
      [destruct (Hnext Prompt_Username) as (a' & c & ->)|destruct (Hnext Prompt_Password) as (a' & c & ->)];
      simpl; eauto. }
  destruct Htot as (a' & res & E). exists a', res. split; [done|].
  pose proof E as E'. apply respond_cases in E as [(e & -> & ->)|[Hacc (p & Hp & Hid & Hc)]].
  - split_and!; try done. split; [|eauto]. intros _ (Hs & Hi & p & Hp & Hid & Ht).
    unfold respond in E'. rewrite Hs, bool_decide_eq_true_2, Hp in E' by done. simpl in E'.
    rewrite bool_decide_eq_true_2 in E' by done. simpl in E'.
    destruct (N.ltb_spec (au_budget_ms a) (sat_sub now (pp_issued_at p))); [lia|].
    destruct (pp_prompt p); [| |done]; destruct (next_prompt _ _ _) as [[? ?]|]; done.
  - assert (Hne : ¬ ∃ e, res = Err e).
    { intros [e ->]. destruct (pp_prompt p); naive_solver. }
    split_and!.
    + split; [done|]. intros Hn. by destruct Hn.
    + intros e ->. by destruct Hne; eauto.
    + intros ->. destruct (pp_prompt p); [naive_solver..|]. by destruct Hc as [_ ->].
    + intros c ->. destruct (pp_prompt p); [| |naive_solver];
        destruct Hc as (c' & (id & d & Hid' & -> & _)%next_prompt_spec & [= ->]); done.
Qed.
End auth.

(** ** A concrete login *)

Definition byte_uuid (n : nat) : Uuid := uu (byte_of_N (N.of_nat n + 1)).
Definition nth_id (n : nat) : InteractionId := MkInteractionId (byte_uuid n).
Definition wipe (l : list byte) : list byte := replicate (length l) x00.

Definition login_ops : list auth_op :=
  [ABegin 0; ARespond 5 5 (MkAuthResponse (nth_id 0) (MkSecret 0));
   ARespond 6 6 (MkAuthResponse (nth_id 1) (MkSecret 1));
   ARespond 7 7 (MkAuthResponse (nth_id 2) (MkSecret 2)); ASend].
Definition login_heap : heap := {[ 2 := [x70; x77] ]}.
Definition login_events : list auth_event :=
  [Ev_challenged Prompt_Group (nth_id 0); Ev_accepted (nth_id 0);
   Ev_challenged Prompt_Username (nth_id 1); Ev_accepted (nth_id 1);
   Ev_challenged Prompt_Password (nth_id 2); Ev_accepted (nth_id 2); Ev_established].

Lemma login_run :
  ∃ s', auth_run byte_uuid wipe (login_heap, auth_new (secs 60)) login_ops = Some (s', login_events).
Proof. eexists. vm_compute. reflexivity. Qed.

Lemma interaction_single_use_witness : NoDup (accepted login_events).
Proof.
  destruct login_run as [s' E].
  apply (interaction_single_use byte_uuid wipe (secs 60) login_heap login_ops s' login_events E).
Defined.

Lemma established_after_all_prompts_witness : all_answered (take 6 login_events).
Proof.
  destruct login_run as [s' E].
  apply (established_after_all_prompts byte_uuid wipe (secs 60) login_heap login_ops s' login_events
    (take 6 login_events) [] E). reflexivity.
Defined.

Lemma stop_is_final_witness :
  let a := MkAuthInteraction 1000 ∅ None (Some (MkSecret 2)) false 0 in
  is_zeroed (auth_stop wipe login_heap a).1.1 (MkSecret 2) = true.
Proof.
  refine (proj1 (proj2 (proj2 (proj2 (stop_is_final byte_uuid wipe login_heap
    (MkAuthInteraction 1000 ∅ None (Some (MkSecret 2)) false 0) [] _ [] _ eq_refl)))) _ eq_refl).
  intros l. unfold wipe. by apply Forall_replicate.
Defined.

Lemma respond_progress_witness :
  ∃ a' res, respond byte_uuid 5 5 (MkAuthResponse (nth_id 0) (MkSecret 0))
    (MkAuthInteraction 1000 {[nth_id 0]} (Some (MkPendingPrompt (nth_id 0) 0 Prompt_Group)) None false 1) =
    Some (a', res).
Proof.
  destruct (respond_progress byte_uuid 5 5 (MkAuthResponse (nth_id 0) (MkSecret 0))
    (MkAuthInteraction 1000 {[nth_id 0]} (Some (MkPendingPrompt (nth_id 0) 0 Prompt_Group)) None false 1))
    as (a' & res & E & _).
  - cbn [au_issued au_drawn]. rewrite size_singleton. split.
    + intros i Hi. assert (i = 1 ∨ i = 2) as [-> | ->] by lia; vm_compute; discriminate.
    + intros i j Hi Hj. assert (i = 1 ∨ i = 2) as [-> | ->] by lia; assert (j = 1 ∨ j = 2) as [-> | ->] by lia;
        try done; intros E%(f_equal arr_bytes); vm_compute in E; discriminate.
  - intros p [= <-]. cbn [au_issued pp_interaction_id]. by apply elem_of_singleton.
  - eauto.
Defined.

(** Logging in twice before sending: the first password is replaced, not wiped. *)
Example replaced_secret_is_not_wiped :
  let h : heap := {[ 2 := [x70]; 5 := [x71] ]} in
  ∃ h' a' es, auth_run byte_uuid wipe (h, auth_new (secs 60))
    [ABegin 0; ARespond 0 0 (MkAuthResponse (nth_id 0) (MkSecret 0));
     ARespond 0 0 (MkAuthResponse (nth_id 1) (MkSecret 1));
     ARespond 0 0 (MkAuthResponse (nth_id 2) (MkSecret 2));
     ABegin 0; ARespond 0 0 (MkAuthResponse (nth_id 3) (MkSecret 3));
     ARespond 0 0 (MkAuthResponse (nth_id 4) (MkSecret 4));
     ARespond 0 0 (MkAuthResponse (nth_id 5) (MkSecret 5)); AStop] = Some (h', a', es) ∧
    is_zeroed h' (MkSecret 2) = false ∧ is_zeroed h' (MkSecret 5) = true.
Proof. do 3 eexists. vm_compute. split_and!; reflexivity. Qed.
