(* ===== verification/Connector.v ===== *)
(** * The TLS bootstrap

    [connector.rs] of the CSTP crate: the guards and the order of steps of
    [Bootstrap::connect], the handshake under a deadline, the verifier for injected roots
    and the classification of handshake errors.

    What rustls, tokio and the operating system decide is the record [World]: whether a
    verifier and a socket can be made, whether a host name is a server name, whether the
    TCP connection succeeds, and how the handshake goes: its polls, each with the reading
    of the clock before it. A [connect] returns what it did, in order, and its outcome;
    [None] is a connect that is still waiting after the polls given. *)

From Stdlib Require Import NArith Strings.Byte Lia.
From S2P Require Import Prelude Text.

(** cstp/connector.rs:20-27 [Transport] *)
Inductive Transport := SystemTcp | UserSpace.
(** cstp/connector.rs:29-36 [VerifierSource] *)
Inductive VerifierSource := Platform | InjectedRoots.

(** [rustls::RootCertStore]: the subject public keys of the anchors. *)
Abbreviation RootCertStore := (list (list byte)).

(** cstp/connector.rs:38-45 [TrustPolicy] *)
Inductive TrustPolicy := Production | TestRoots (roots : RootCertStore).
(** cstp/connector.rs:48-54 [TrustPolicy::verifier_source] *)
Definition verifier_source (t : TrustPolicy) : VerifierSource :=
  match t with Production => Platform | TestRoots _ => InjectedRoots end.

(** cstp/connector.rs:57-74 [BootstrapError] *)
Inductive BootstrapError :=
  | ConnectFailed | Ipv6EndpointsRejected | DtlsOffered | UntrustedChain | HostnameMismatch
  | HandshakeFailed | DeadlineExceeded.
#[export] Instance BootstrapError_eq_dec : EqDecision BootstrapError. Proof. solve_decision. Defined.

(** [std::net::SocketAddr]; the bytes of a version 6 address. *)
Inductive SocketAddr := V4 (ip : Ipv4Addr) (port : N) | V6 (ip : list byte) (port : N).
Definition is_ipv6 (a : SocketAddr) : bool := match a with V6 _ _ => true | V4 _ _ => false end.

(** ** Deadlines *)

(** cstp/connector.rs:114-124 [Deadline]; the clock is read by the caller. *)
Record Deadline := MkDeadline { at_millis : N }.
(** cstp/connector.rs:127-134 [Deadline::at] *)
Definition deadline_at (now after_millis : N) : Deadline := MkDeadline (add64 now after_millis).
(** cstp/connector.rs:136-138 [Deadline::is_expired] *)
Definition is_expired (d : Deadline) (now : N) : bool := (at_millis d <=? now)%N.

(** ** Handshake errors *)

(** [rustls::CertificateError] and [rustls::Error], as far as the program tells them
    apart. *)
Inductive CertificateError :=
  | NotValidForName | UnknownIssuer | BadEncoding | Cert_Other | Cert_Rest (kind : N).
Inductive TlsError := InvalidCertificate (e : CertificateError) | Tls_Rest (kind : N).
(** [std::io::Error], with the rustls error it wraps, if any. *)
Definition IoError : Type := option TlsError.

(** cstp/connector.rs:478-494 [classify_handshake_error] *)
Definition classify_handshake_error (err : IoError) : BootstrapError :=
  match err with
  | Some (InvalidCertificate NotValidForName) => HostnameMismatch
  | Some (InvalidCertificate _) => UntrustedChain
  | Some (Tls_Rest _) => HandshakeFailed
  | None => HandshakeFailed
  end.

(** One poll of the handshake: the clock read before it, and its result if it is done. *)
Definition Poll (stream : Type) : Type := N * option (result IoError stream).

(** cstp/connector.rs:454-476 [connect_with_deadline] *)
Fixpoint connect_with_deadline {stream} (polls : list (Poll stream)) (deadline : option Deadline)
    : option (result BootstrapError stream) :=
  match polls with
  | [] => None
  | (now, poll) :: polls =>
      if match deadline with Some d => is_expired d now | None => false end
      then Some (Err DeadlineExceeded)
      else match poll with
           | Some r => Some (map_err classify_handshake_error r)
           | None => connect_with_deadline polls deadline
           end
  end.

(** ** The verifier for injected roots *)

(** [bytes.get(a..b)]. *)
Definition get_range (l : list byte) (a b : nat) : option (list byte) := slice l a b.

(** cstp/connector.rs:370-390 [strip_sequence_header] *)
Definition strip_sequence_header (bytes : list byte) : option (list byte) :=
  if negb (bool_decide (bytes !! 0 = Some x30)) then None
  else
    first_len ← bytes !! 1;
    let first_len := byte_val first_len in
    if (N.land first_len 0x80 =? 0)%N then get_range bytes 2 (2 + N.to_nat first_len)
    else
      let len_bytes := N.land first_len 0x7f in
      if (len_bytes =? 0)%N || (4 <? len_bytes)%N then None
      else
        let n := N.to_nat len_bytes in
        len_bytes_slice ← get_range bytes 2 (2 + n);
        let content_len := foldl (λ acc b, N.lor (wrap64 (N.shiftl acc 8)) (byte_val b)) 0%N len_bytes_slice in
        get_range bytes (2 + n) (2 + n + N.to_nat content_len).

(** What rustls reads in a certificate. *)
Record ParsedCertificate := MkParsedCertificate {
  subject_public_key_info : list byte;
  name_valid : str → bool;
}.

(** cstp/connector.rs:329-340 [TestRootsVerifier]: the verdict of the inner verifier on a
    certificate and server name, and the anchors. *)
Record TestRootsVerifier := MkTestRootsVerifier {
  inner : list byte → str → result TlsError ();
  roots : RootCertStore;
}.

Section verifier.
(** [ParsedCertificate::try_from]. *)
Context (parse_certificate : list byte → option ParsedCertificate).

(** cstp/connector.rs:349-367 [TestRootsVerifier::end_entity_is_injected_root] *)
Definition end_entity_is_injected_root (v : TestRootsVerifier) (end_entity : list byte) : bool :=
  match parse_certificate end_entity with
  | None => false
  | Some cert =>
      match strip_sequence_header (subject_public_key_info cert) with
      | None => false
      | Some spki_content => existsb (λ anchor, bool_decide (anchor = spki_content)) (roots v)
      end
  end.

(** cstp/connector.rs:392-429 [verify_server_cert] *)
Definition verify_server_cert (v : TestRootsVerifier) (end_entity : list byte) (server_name : str)
    : result TlsError () :=
  match inner v end_entity server_name with
  | Ok verified => Ok verified
  | Err (InvalidCertificate Cert_Other) =>
      if end_entity_is_injected_root v end_entity then
        match parse_certificate end_entity with
        | None => Err (InvalidCertificate BadEncoding)
        | Some cert =>
            if name_valid cert server_name then Ok ()
            else Err (InvalidCertificate NotValidForName)
        end
      else Err (InvalidCertificate UnknownIssuer)
  | Err err => Err err
  end.

(** The certificate is accepted exactly when the strict verifier accepts it, or refused
    it only for its form and it is an injected root valid for the name. *)
Lemma verify_accepts v c name :
  verify_server_cert v c name = Ok () ↔
  inner v c name = Ok () ∨
  inner v c name = Err (InvalidCertificate Cert_Other) ∧
  ∃ cert key, parse_certificate c = Some cert ∧
    strip_sequence_header (subject_public_key_info cert) = Some key ∧ key ∈ roots v ∧
    name_valid cert name = true.
Proof.
  unfold verify_server_cert. destruct (inner v c name) as [[]|e]; [intuition|].
  destruct e as [[]|]; try (split; [done|intros [[=]|[[=] _]]]; fail).
  unfold end_entity_is_injected_root. destruct (parse_certificate c) as [cert|].
  2:{ split; [done|]. intros [[=]|[_ (? & ? & [=] & _)]]. }
  destruct (strip_sequence_header (subject_public_key_info cert)) as [key|] eqn:E.
  2:{ split; [done|]. intros [[=]|[_ (? & ? & [= <-] & ? & _)]]. congruence. }
  destruct (existsb _ (roots v)) eqn:Ex.
  - destruct (name_valid cert name) eqn:Hn; (split; [|intros [[=]|[_ (? & ? & [= <-] & ? & _ & ?)]]; congruence]);
      [|done].
    intros _. right. split; [done|]. exists cert, key. split_and!; [done..| |done].
    apply existsb_exists in Ex as (a & Ha & ->%bool_decide_eq_true). by apply list_elem_of_In.
  - split; [done|]. intros [[=]|[_ (? & k & [= <-] & Hk & Hin & _)]].
    assert (k = key) as -> by congruence. exfalso. apply not_true_iff_false in Ex. apply Ex.
    apply existsb_exists. exists key. split; [by apply list_elem_of_In|by apply bool_decide_eq_true].
Qed.
End verifier.

(** ** Connecting *)

(** cstp/connector.rs:169-185 [BootstrapConfig]; the binder is whether it succeeds, the
    resolver its answer, [None] being an error. *)
Record BootstrapConfig := MkBootstrapConfig {
  hostname : str;
  gateway_addr : SocketAddr;
  trust : TrustPolicy;
  dtls_offered : bool;
  deadline : option Deadline;
  socket_binder : option bool;
  gateway_resolver : option (str → option SocketAddr);
}.

(** What the libraries and the system answer. *)
Record World (stream : Type) := MkWorld {
  platform_verifier : bool;
  webpki_verifier : RootCertStore → bool;
  protocol_versions : bool;
  is_server_name : str → bool;
  new_socket : bool;
  tcp_connect : SocketAddr → bool;
  handshake : SocketAddr → VerifierSource → str → list (Poll stream);
}.
Arguments MkWorld {stream}.
Arguments platform_verifier {stream}. Arguments webpki_verifier {stream}.
Arguments protocol_versions {stream}. Arguments is_server_name {stream}.
Arguments new_socket {stream}. Arguments tcp_connect {stream}. Arguments handshake {stream}.

(** The visible actions of a connect. *)
Inductive Action :=
  | Resolved (host : str) | Bound | Dialled (addr : SocketAddr)
  | Handshake (source : VerifierSource) (server_name : str).

Section connect.
Context {stream : Type} (w : World stream).

(** cstp/connector.rs:244-258 [Bootstrap::connect] *)
Definition resolve_gateway (cfg : BootstrapConfig) : list Action * result BootstrapError SocketAddr :=
  match gateway_resolver cfg with
  | Some resolver =>
      ([Resolved (hostname cfg)],
       match resolver (hostname cfg) with
       | None => Err ConnectFailed
       | Some addr => if is_ipv6 addr then Err Ipv6EndpointsRejected else Ok addr
       end)
  | None => ([], Ok (gateway_addr cfg))
  end.

(** cstp/connector.rs:263-292 [Bootstrap::connect] *)
Definition client_config (t : TrustPolicy) : result BootstrapError VerifierSource :=
  let made := match t with Production => platform_verifier w | TestRoots r => webpki_verifier w r end in
  if negb made then Err HandshakeFailed
  else if negb (protocol_versions w) then Err HandshakeFailed
  else Ok (verifier_source t).

(** cstp/connector.rs:300-318 [Bootstrap::connect] *)
Definition dial (cfg : BootstrapConfig) (addr : SocketAddr) : list Action * result BootstrapError () :=
  match socket_binder cfg with
  | Some bind_ok =>
      if negb (new_socket w) then ([], Err ConnectFailed)
      else if negb bind_ok then ([Bound], Err ConnectFailed)
      else ([Bound; Dialled addr], if tcp_connect w addr then Ok () else Err ConnectFailed)
  | None => ([Dialled addr], if tcp_connect w addr then Ok () else Err ConnectFailed)
  end.

(** cstp/connector.rs:234-326 [Bootstrap::connect] *)
Definition connect (cfg : BootstrapConfig) : list Action * option (result BootstrapError stream) :=
  if dtls_offered cfg then ([], Some (Err DtlsOffered))
  else
    let '(acts, r) := resolve_gateway cfg in
    match r with
    | Err e => (acts, Some (Err e))
    | Ok addr =>
        if is_ipv6 addr then (acts, Some (Err Ipv6EndpointsRejected))
        else
          match client_config (trust cfg) with
          | Err e => (acts, Some (Err e))
          | Ok source =>
              if negb (is_server_name w (hostname cfg)) then (acts, Some (Err HandshakeFailed))
              else
                let '(acts', r) := dial cfg addr in
                match r with
                | Err e => (acts ++ acts', Some (Err e))
                | Ok _ =>
                    (acts ++ acts' ++ [Handshake source (hostname cfg)],
                     connect_with_deadline (handshake w addr source (hostname cfg)) (deadline cfg))
                end
          end
    end.
End connect.

(** ** Deadlines *)

Definition not_yet {stream} (d : Deadline) (p : Poll stream) : Prop :=
  p.2 = None ∧ is_expired d p.1 = false.

(** The outcome is the first poll that is late or done, the deadline being looked at
    first. *)
Lemma connect_with_deadline_spec {stream} (polls : list (Poll stream)) d r :
  connect_with_deadline polls (Some d) = Some r ↔
  ∃ pre now p post, polls = pre ++ (now, p) :: post ∧ Forall (not_yet d) pre ∧
    (is_expired d now = true ∧ r = Err DeadlineExceeded ∨
     is_expired d now = false ∧ ∃ out, p = Some out ∧ r = map_err classify_handshake_error out).
Proof.
  split.
  - induction polls as [|[now p] polls IH]; simpl; [done|].
    destruct (is_expired d now) eqn:E.
    { intros [= <-]. eexists [], now, p, polls. split_and!; [done|constructor|]. left. done. }
    destruct p as [out|].
    { intros [= <-]. eexists [], now, _, polls. split_and!; [done|constructor|]. right. eauto. }
    intros (pre & now' & p' & post & -> & Hf & H)%IH.
    exists ((now, None) :: pre), now', p', post. split_and!; [done| |done]. by constructor.
  - intros (pre & now & p & post & -> & Hf & H).
    induction Hf as [|[n q] pre [Hq Hn] _ IH]; simpl in *.
    + destruct H as [[-> ->]|[-> (out & -> & ->)]]; done.
    + by rewrite Hn, Hq.
Qed.

Lemma handshake_error_not_deadline e : classify_handshake_error e ≠ DeadlineExceeded.
Proof. by destruct e as [[[]|]|]. Qed.

(** A deadline is never reported before it is due, and no stream is handed out after. *)
Lemma deadline_exact {stream} (polls : list (Poll stream)) d r :
  connect_with_deadline polls (Some d) = Some r →
  ∃ now, now ∈ polls.*1 ∧ (r = Err DeadlineExceeded ↔ (at_millis d ≤ now)%N).
Proof.
  intros (pre & now & p & post & -> & _ & H)%connect_with_deadline_spec.
  exists now. split; [rewrite fmap_app; set_solver|]. unfold is_expired in H.
  destruct H as [[H%N.leb_le ->]|[H%N.leb_gt (out & _ & ->)]]; [done|].
  split; [|lia]. destruct out as [s|e]; simpl; [done|]. intros [= E]. by apply handshake_error_not_deadline in E.
Qed.

(** ** Stripping the header of a DER sequence *)

(** The DER encoding of a sequence with the shortest length, up to four length bytes. *)
Definition der_sequence (content : list byte) : list byte :=
  let n := N.of_nat (length content) in
  x30 :: (if n <? 128 then [byte_of_N n]
          else if n <? 256 then byte_of_N 0x81 :: be_bytes 1 n
          else if n <? 65536 then byte_of_N 0x82 :: be_bytes 2 n
          else if n <? 16777216 then byte_of_N 0x83 :: be_bytes 3 n
          else byte_of_N 0x84 :: be_bytes 4 n)%N ++ content.

Lemma fold_length_bytes l : length l ≤ 4 →
  foldl (λ acc b, N.lor (wrap64 (N.shiftl acc 8)) (byte_val b)) 0%N l = be_val l.
Proof.
  induction l as [|b l IH] using rev_ind; [done|]. intros Hl. rewrite length_app in Hl. simpl in Hl.
  rewrite foldl_app, be_val_snoc. cbn [foldl]. rewrite IH by lia.
  rewrite wrap64_small; [by apply lor_shiftl_8, byte_val_lt|].
  unfold in_u64. rewrite N.shiftl_mul_pow2. change (2 ^ 8)%N with 256%N. pose proof (be_val_lt l) as H. apply N.lt_le_trans with (256 ^ 3 * 256)%N; [|done].
  apply N.mul_lt_mono_pos_r; [done|]. eapply N.lt_le_trans; [exact H|].
  apply N.pow_le_mono_r; [done|]. lia.
Qed.

(** A header with the long form of the length. *)
Lemma strip_long k n content rest :
  (1 ≤ k ≤ 4)%N → (n < 256 ^ k)%N → N.to_nat n = length content →
  strip_sequence_header (x30 :: byte_of_N (0x80 + k) :: be_bytes (N.to_nat k) n ++ content ++ rest) = Some content.
Proof.
  intros Hk Hn Hc. unfold strip_sequence_header. simpl. rewrite byte_of_small by lia.
  assert (Hland : N.land (0x80 + k) 0x80 = 0x80%N ∧ N.land (0x80 + k) 0x7f = k).
  { assert (Hk' : (k = 1 ∨ k = 2 ∨ k = 3 ∨ k = 4)%N) by lia.
    destruct Hk' as [K|[K|[K|K]]]; by rewrite K. }
  destruct Hland as [-> ->].
  simpl. destruct (N.eqb_spec k 0); [lia|]. destruct (N.ltb_spec 4 k); [lia|]. simpl.
  assert (E : ∀ h, get_range (x30 :: h :: be_bytes (N.to_nat k) n ++ content ++ rest) 2 (2 + N.to_nat k)
    = Some (be_bytes (N.to_nat k) n)).
  { intros h. apply (slice_app [x30; h]); [done|]. by rewrite length_be_bytes. }
  rewrite E. cbn [mbind option_bind]. rewrite fold_length_bytes by (rewrite length_be_bytes; lia).
  rewrite be_val_be_bytes by (by rewrite N2Nat.id).
  rewrite Hc. apply (slice_app (x30 :: byte_of_N (0x80 + k) :: be_bytes (N.to_nat k) n)); [|done].
  simpl. by rewrite length_be_bytes.
Qed.

(** The content of a DER sequence is recovered, whatever follows the sequence. *)
Lemma strip_der_sequence content rest :
  (N.of_nat (length content) < 2 ^ 32)%N →
  strip_sequence_header (der_sequence content ++ rest) = Some content.
Proof.
  intros Hlt. unfold der_sequence. rewrite <-app_comm_cons, <-app_assoc.
  set (n := N.of_nat (length content)) in *.
  assert (Hn : N.to_nat n = length content) by (subst n; lia).
  destruct (N.ltb_spec n 128).
  - unfold strip_sequence_header. simpl. rewrite byte_of_small by lia.
    assert (N.land n 0x80 = 0%N) as ->.
    { apply N.bits_inj. intros i. rewrite N.land_spec, N.bits_0.
      change 0x80%N with (2 ^ 7)%N. rewrite N.pow2_bits_eqb.
      destruct (N.eqb_spec 7 i) as [<-|]; [|apply andb_false_r].
      rewrite andb_true_r. destruct n as [|p]; [done|]. apply N.bits_above_log2.
      apply N.log2_lt_pow2; lia. }
    simpl. rewrite Hn. by apply (slice_app [x30; byte_of_N n]).
  - destruct (N.ltb_spec n 256); [|destruct (N.ltb_spec n 65536); [|destruct (N.ltb_spec n 16777216)]];
      rewrite <-app_comm_cons; [apply (strip_long 1)|apply (strip_long 2)|apply (strip_long 3)|apply (strip_long 4)]; done || lia.
Qed.

(** ** Properties *)

Section guarded.
Context {stream : Type} (w : World stream).

Lemma resolve_gateway_actions cfg : ∀ a, a ∈ (resolve_gateway cfg).1 → a = Resolved (hostname cfg).
Proof. unfold resolve_gateway. destruct (gateway_resolver cfg); simpl; set_solver. Qed.

Lemma dial_actions cfg addr : ∀ a, a ∈ (dial w cfg addr).1 → a = Bound ∨ a = Dialled addr.
Proof. unfold dial. intros a. break; set_solver. Qed.

Lemma client_config_source t s : client_config w t = Ok s → s = verifier_source t.
Proof. unfold client_config. break; congruence. Qed.

(** The action of a connect never leaves the configured target. *)
Definition action_ok (cfg : BootstrapConfig) (a : Action) : Prop :=
  match a with
  | Resolved h => h = hostname cfg
  | Bound => is_Some (socket_binder cfg)
  | Dialled addr => is_ipv6 addr = false ∧
      match gateway_resolver cfg with
      | Some resolver => resolver (hostname cfg) = Some addr
      | None => addr = gateway_addr cfg
      end
  | Handshake source name => name = hostname cfg ∧ source = verifier_source (trust cfg)
  end.

Lemma resolve_gateway_addr cfg addr : (resolve_gateway cfg).2 = Ok addr →
  match gateway_resolver cfg with
  | Some resolver => resolver (hostname cfg) = Some addr
  | None => addr = gateway_addr cfg
  end.
Proof. unfold resolve_gateway. break; congruence. Qed.

Lemma connect_actions cfg : Forall (action_ok cfg) (connect w cfg).1.
Proof.
  unfold connect. destruct (dtls_offered cfg); [constructor|].
  pose proof (resolve_gateway_actions cfg) as Hr. pose proof (resolve_gateway_addr cfg) as Ha.
  destruct (resolve_gateway cfg) as [acts r]. simpl in *.
  assert (H : Forall (action_ok cfg) acts).
  { apply Forall_forall. intros a ->%Hr. done. }
  destruct r as [addr|]; [|done]. destruct (is_ipv6 addr) eqn:E6; [done|].
  destruct (client_config w (trust cfg)) as [source|] eqn:Ec; [|done].
  apply client_config_source in Ec as ->.
  destruct (is_server_name w (hostname cfg)); [|done]. simpl.
  pose proof (dial_actions cfg addr) as Hd.
  assert (Hb : Bound ∈ (dial w cfg addr).1 → is_Some (socket_binder cfg)).
  { unfold dial. destruct (socket_binder cfg); simpl; [done|]. set_solver. }
  assert (Hf : Forall (action_ok cfg) (dial w cfg addr).1).
  { apply Forall_forall. intros a Hin. destruct (Hd a Hin) as [-> | ->]; simpl; auto.
    split; [done|by apply Ha]. }
  destruct (dial w cfg addr) as [acts' [|]]; simpl in *; [|by apply Forall_app].
  rewrite !Forall_app. split_and!; [done..|]. apply Forall_singleton. done.
Qed.

(** Whatever the libraries and the system answer, a TLS bootstrap resolves, dials and
    handshakes only with its configured target: the server name is the configured host
    name and never an address, the verifier is the one the trust policy selects, and no
    IPv6 address is dialled; a configuration that offers DTLS does nothing at all. *)
Theorem connect_guarded cfg :
  Forall (action_ok cfg) (connect w cfg).1 ∧ (dtls_offered cfg = false ∨ connect w cfg = ([], Some (Err DtlsOffered))).
Proof.
  split; [apply connect_actions|]. unfold connect. destruct (dtls_offered cfg); [by right|by left].
Qed.

(** A stream is handed out only by a handshake that completed before the deadline, after
    the socket was bound when a binder is configured. *)
Lemma connect_established cfg s :
  (connect w cfg).2 = Some (Ok s) →
  ∃ addr pre, (connect w cfg).1 = pre ++ match socket_binder cfg with Some _ => [Bound] | None => [] end
      ++ [Dialled addr; Handshake (verifier_source (trust cfg)) (hostname cfg)] ∧
    ∃ now, (now, Some (Ok s)) ∈ handshake w addr (verifier_source (trust cfg)) (hostname cfg) ∧
      match deadline cfg with Some d => (now < at_millis d)%N | None => True end.
Proof.
  unfold connect. destruct (dtls_offered cfg); [done|].
  destruct (resolve_gateway cfg) as [acts [addr|]]; [|done]. destruct (is_ipv6 addr); [done|].
  destruct (client_config w (trust cfg)) as [source|] eqn:Ec; [|done].
  apply client_config_source in Ec as ->.
  destruct (is_server_name w (hostname cfg)); [|done]. simpl.
  destruct (dial w cfg addr) as [acts' [u|]] eqn:Ed; [|done]. simpl. intros H.
  assert (Hacts : acts' = match socket_binder cfg with Some _ => [Bound] | None => [] end ++ [Dialled addr]).
  { revert Ed. unfold dial. break; congruence. }
  exists addr, acts. rewrite Hacts, <-!app_assoc. split; [done|].
  induction (handshake w addr _ _) as [|[now p] polls IH]; [done|]. simpl in H.
  destruct (deadline cfg) as [d|]; simpl in *.
  - destruct (is_expired d now) eqn:E; [done|]. destruct p as [[s'|]|]; [|done|].
    + injection H as ->. exists now. split; [left|]. by apply N.leb_gt in E.
    + destruct (IH H) as (n & ? & ?). exists n. split; [by right|done].
  - destruct p as [[s'|]|]; [|done|].
    + injection H as ->. exists now. split; [left|done].
    + destruct (IH H) as (n & ? & ?). exists n. split; [by right|done].
Qed.
End guarded.

(** The deadline wraps around with the clock: a deadline that lies past the end of the
    clock's range has expired at once. *)
Example deadline_wraps :
  let now := (two64 - 1)%N in
  is_expired (deadline_at now 2) now = true ∧
  connect_with_deadline [(now, Some (Ok tt))] (Some (deadline_at now 2)) = Some (Err DeadlineExceeded).
Proof. done. Qed.
