(* ===== verification/Http.v ===== *)
(** * Reading an HTTP response

    The reader of [webvpn.rs] of the CSTP crate: the head up to the blank line, then a
    body delimited by its declared length, by its chunks or by the end of the stream;
    the status, the headers and the cookies of the head.

    A stream is what its successive reads return, and it is at its end when they are
    used up; a read of no bytes is the end as well. The loops that read recurse on it.
    The two loops of the chunk decoder consume at least a line end per iteration, so
    the bytes still to come bound them. *)

From Stdlib Require Import NArith Strings.Byte Lia.
From S2P Require Import Prelude Text Connector.

(** cstp/webvpn.rs:170-210 [LoginError] *)
Inductive LoginError :=
  | TlsFailed (e : BootstrapError)
  | HttpFailed
  | LoginRejected (detail : option str)
  | SamlRequired
  | TwoFactorRequired
  | ProtocolViolation
  | Login_DeadlineExceeded.
#[export] Instance LoginError_eq_dec : EqDecision LoginError. Proof. solve_decision. Defined.

(** ** Streams *)

(** What a read returns: bytes, an [UnexpectedEof] error, another error. *)
Inductive ReadEvent := Bytes (chunk : list byte) | UnexpectedEof | ReadFailed.
Abbreviation Stream := (list ReadEvent).

(** The bytes a stream has still to give. *)
Definition event_bytes (e : ReadEvent) : list byte := match e with Bytes c => c | _ => [] end.
Definition stream_bytes (s : Stream) : list byte := s ≫= event_bytes.

#[global] Arguments stream_bytes : simpl never.

(** A stream that gives its bytes and then ends. *)
Definition plain (s : Stream) : Prop := Forall (λ e, ∃ c, e = Bytes c ∧ c ≠ []) s.

(** [windows(n).position(|w| w == p)]. *)
Definition position (p l : list byte) : option nat := find (byte_val <$> p) (byte_val <$> l).
Definition CRLF : list byte := [x0d; x0a].

(** cstp/webvpn.rs:1972-1978 [find_header_end] *)
Definition find_header_end (bytes : list byte) : option nat :=
  (λ p, p + 4) <$> position (CRLF ++ CRLF) bytes.

(** ** The head *)

(** cstp/webvpn.rs:1980-1984 [parse_status] *)
Definition parse_status (head : str) : option N :=
  line ← lines head !! 0; status ← split_whitespace line !! 1; parse_u16 status.

(** cstp/webvpn.rs:1986-1998 [parse_headers] *)
Definition parse_header (line : str) : option (str * str) :=
  '(name, value) ← split_once 58 line; Some (to_ascii_lowercase (trim name), trim value).
Definition parse_headers (head : str) : list (str * str) := omap parse_header (drop 1 (lines head)).

(** cstp/webvpn.rs:2000-2012 [cookie_value_named] *)
Definition cookie_value_named (set_cookie name : str) : option str :=
  let first := trim (before [59%N] set_cookie) in
  '(cookie_name, value) ← split_once 61 first;
  if eq_ignore_ascii_case (trim cookie_name) name then Some (trim value) else None.

(** ** The response *)

(** cstp/webvpn.rs:1778-1787 [LoginResponse] *)
Record LoginResponse := MkLoginResponse {
  status : N;
  headers : list (str * str);
  body : list byte;
}.

(** cstp/webvpn.rs:1800-1801 [MAX_HEAD] *)
Definition MAX_HEAD : N := 16 * 1024.
Definition MAX_BODY : N := 256 * 1024.

(** The result of a reading loop and the stream left. *)
Definition Reading (A : Type) : Type := result LoginError A * Stream.

(** cstp/webvpn.rs:1883-1899 [read_more]: one read, which must give bytes. *)
Definition read_more (e : ReadEvent) (pending : list byte) : result LoginError (list byte) :=
  match e with
  | Bytes (b :: chunk) => Ok (pending ++ b :: chunk)
  | _ => Err HttpFailed
  end.

(** cstp/webvpn.rs:1806-1822 [read_login_response] *)
Fixpoint read_head (s : Stream) (buf : list byte) : Reading (nat * list byte) :=
  match find_header_end buf with
  | Some head_end => (Ok (head_end, buf), s)
  | None =>
      if (MAX_HEAD <=? N.of_nat (length buf))%N then (Err HttpFailed, s)
      else match s with
           | [] => (Err HttpFailed, [])
           | e :: s => match read_more e buf with Ok buf => read_head s buf | Err err => (Err err, s) end
           end
  end.

(** cstp/webvpn.rs:1921-1927 [decode_chunked_body]: up to the next line end. *)
Fixpoint read_line (s : Stream) (pending : list byte) : Reading (nat * list byte) :=
  match position CRLF pending with
  | Some line_end => (Ok (line_end, pending), s)
  | None =>
      match s with
      | [] => (Err HttpFailed, [])
      | e :: s => match read_more e pending with Ok p => read_line s p | Err err => (Err err, s) end
      end
  end.

(** cstp/webvpn.rs:1958-1961 [decode_chunked_body] *)
Fixpoint read_at_least (want : N) (s : Stream) (pending : list byte) : Reading (list byte) :=
  if (want <=? N.of_nat (length pending))%N then (Ok pending, s)
  else match s with
       | [] => (Err HttpFailed, [])
       | e :: s => match read_more e pending with Ok p => read_at_least want s p | Err err => (Err err, s) end
       end.

(** cstp/webvpn.rs:1928-1935 [decode_chunked_body] *)
Definition parse_chunk_size (line : list byte) : option N :=
  text ← from_utf8 line; parse_usize_hex (trim (before [59%N] text)).

(** The bytes a decoding loop can still consume. *)
Definition to_come (st : list byte * Stream) : nat := length st.1 + length (stream_bytes st.2).

(** cstp/webvpn.rs:1939-1953 [decode_chunked_body]: the trailer lines. *)
Definition trailer_body (st : list byte * Stream) : (list byte * Stream) + Reading (list byte) :=
  let '(pending, s) := st in
  match read_line s pending with
  | (Err e, s) => inr (Err e, s)
  | (Ok (trailer_end, pending), s) =>
      let pending := drop (trailer_end + 2) pending in
      if trailer_end =? 0 then inr (Ok pending, s) else inl (pending, s)
  end.
Definition read_trailers (st : list byte * Stream) : Reading (list byte) :=
  loop to_come (Err HttpFailed, []) trailer_body st.

(** cstp/webvpn.rs:1920-1967 [decode_chunked_body]: one chunk. *)
Definition chunk_body (max_body : N) (st : list byte * (list byte * Stream))
    : (list byte * (list byte * Stream)) + Reading (list byte) :=
  let '(body, (pending, s)) := st in
  match read_line s pending with
  | (Err e, s) => inr (Err e, s)
  | (Ok (line_end, pending), s) =>
      match parse_chunk_size (take line_end pending) with
      | None => inr (Err HttpFailed, s)
      | Some chunk_size =>
          let pending := drop (line_end + 2) pending in
          if (chunk_size =? 0)%N then
            match read_trailers (pending, s) with
            | (Err e, s) => inr (Err e, s)
            | (Ok _, s) => inr (Ok body, s)
            end
          else if (two64 <=? chunk_size + 2)%N then inr (Err HttpFailed, s)
          else
            match read_at_least (chunk_size + 2) s pending with
            | (Err e, s) => inr (Err e, s)
            | (Ok pending, s) =>
                let body := body ++ take (N.to_nat chunk_size) pending in
                let pending := drop (N.to_nat (chunk_size + 2)) pending in
                if (max_body <? N.of_nat (length body))%N then inr (Err HttpFailed, s)
                else inl (body, (pending, s))
            end
      end
  end.
(** cstp/webvpn.rs:1901-1970 [decode_chunked_body] *)
Definition decode_chunked_body (s : Stream) (pending : list byte) (max_body : N) : Reading (list byte) :=
  loop (λ st, to_come st.2) (Err HttpFailed, []) (chunk_body max_body) ([], (pending, s)).

(** cstp/webvpn.rs:1843-1851 [read_login_response]: a declared length. *)
Fixpoint read_declared (want : N) (s : Stream) (body : list byte) : Reading (list byte) :=
  if (want <=? N.of_nat (length body))%N then (Ok (take (N.to_nat want) body), s)
  else match s with
       | [] => (Err HttpFailed, [])
       | e :: s =>
           match read_more e body with
           | Ok body =>
               if (MAX_BODY <? N.of_nat (length body))%N then (Err HttpFailed, s)
               else read_declared want s body
           | Err err => (Err err, s)
           end
       end.

(** cstp/webvpn.rs:1855-1873 [read_login_response]: up to the close. *)
Fixpoint read_to_close (s : Stream) (body : list byte) : Reading (list byte) :=
  match s with
  | [] => (Ok body, [])
  | Bytes [] :: s => (Ok body, s)
  | Bytes chunk :: s =>
      let body := body ++ chunk in
      if (MAX_BODY <? N.of_nat (length body))%N then (Err HttpFailed, s) else read_to_close s body
  | UnexpectedEof :: s => (Ok body, s)
  | ReadFailed :: s => (Err HttpFailed, s)
  end.

(** cstp/webvpn.rs:1827-1833 [read_login_response] *)
Definition declared_length (hs : list (str * str)) : option N :=
  '(_, value) ← snd <$> list_find (λ h : str * str, h.1 = lit "content-length") hs; parse_usize value.
Definition is_chunked (hs : list (str * str)) : bool :=
  existsb (λ h : str * str, bool_decide (h.1 = lit "transfer-encoding")
             && contains (lit "chunked") (to_ascii_lowercase h.2)) hs.

(** cstp/webvpn.rs:1789-1881 [read_login_response] *)
Definition read_login_response (s : Stream) : Reading LoginResponse :=
  match read_head s [] with
  | (Err e, s) => (Err e, s)
  | (Ok (head_end, buf), s) =>
      let head := from_utf8_lossy (take head_end buf) in
      match parse_status head with
      | None => (Err HttpFailed, s)
      | Some status =>
          let hs := parse_headers head in
          let pending := drop head_end buf in
          let '(r, s) :=
            if is_chunked hs then decode_chunked_body s pending MAX_BODY
            else match declared_length hs with
                 | Some want => read_declared want s pending
                 | None => read_to_close s pending
                 end in
          (MkLoginResponse status hs <$> r, s)
      end
  end.

(** ** Lemmas on reading *)

Lemma stream_bytes_cons e s : stream_bytes (e :: s) = event_bytes e ++ stream_bytes s.
Proof. done. Qed.

Lemma fmap_byte_val_inj (l k : list byte) : byte_val <$> l = byte_val <$> k → l = k.
Proof. apply list_fmap_eq_inj. intros ?? . apply byte_val_inj. Qed.

(** An occurrence in a prefix of the bytes is the first occurrence in all of them. *)
Lemma find_app_l p s t i : find p s = Some i → find p (s ++ t) = Some i.
Proof.
  intros H. pose proof (find_bound _ _ _ H) as Hb. apply find_Some in H as (H & Hi & Hm).
  apply find_Some. split_and!; [|rewrite length_app; lia|].
  - rewrite drop_app_le by lia. apply starts_with_spec in H as [u Hu].
    rewrite Hu, <-app_assoc. apply starts_with_app.
  - intros j Hj. specialize (Hm j Hj). destruct (starts_with p (drop j (s ++ t))) eqn:E; [|done].
    exfalso. rewrite drop_app_le in E by lia. apply starts_with_spec in E as [u Hu].
    assert (Hp : p = take (length p) (drop j s)).
    { apply (f_equal (take (length p))) in Hu. rewrite take_app_length in Hu.
      rewrite take_app_le in Hu by (rewrite length_drop; lia). done. }
    apply not_true_iff_false in Hm. apply Hm. rewrite <-(take_drop (length p) (drop j s)), <-Hp.
    apply starts_with_app.
Qed.
Lemma position_app_l p l k i : position p l = Some i → position p (l ++ k) = Some i.
Proof. unfold position. rewrite fmap_app. apply find_app_l. Qed.
Lemma position_bound p l i : position p l = Some i → i + length p ≤ length l.
Proof. intros H%find_bound. by rewrite !length_fmap in H. Qed.

(** A plain stream gives its bytes one read after the other. *)
Lemma plain_cons e s : plain (e :: s) → ∃ b c, e = Bytes (b :: c) ∧ plain s.
Proof. intros [(c & -> & Hc) Hs]%Forall_cons. destruct c as [|b c]; [done|]. eauto. Qed.

Section line.
(** Reading a plain stream up to a line end finds the line end of all the bytes, and
    reads no byte too many to lose: what was read and what is left is unchanged. *)
Lemma read_line_plain s : ∀ pending i,
  plain s → position CRLF (pending ++ stream_bytes s) = Some i →
  ∃ p s', read_line s pending = (Ok (i, p), s') ∧ plain s' ∧
    p ++ stream_bytes s' = pending ++ stream_bytes s ∧ i + 2 ≤ length p.
Proof.
  induction s as [|e s IH]; intros pending i Hs Hi; simpl.
  - rewrite app_nil_r in Hi. rewrite Hi. eexists _, _. split_and!; [done..|].
    by apply position_bound in Hi.
  - destruct (position CRLF pending) as [j|] eqn:E.
    + rewrite (position_app_l _ _ _ _ E) in Hi. injection Hi as ->.
      eexists _, _. split_and!; [done..|]. by apply position_bound in E.
    + apply plain_cons in Hs as (b & c & -> & Hs). simpl.
      rewrite stream_bytes_cons in *. simpl event_bytes in *.
      destruct (IH (pending ++ b :: c) i) as (p & s' & -> & ? & Hp & ?);
        [done|by rewrite <-app_assoc|].
      eexists _, _. split_and!; [done..| |done]. by rewrite Hp, <-app_assoc.
Qed.

Lemma read_at_least_plain want s : ∀ pending,
  plain s → (want ≤ N.of_nat (length (pending ++ stream_bytes s)))%N →
  ∃ p s', read_at_least want s pending = (Ok p, s') ∧ plain s' ∧
    p ++ stream_bytes s' = pending ++ stream_bytes s ∧ (want ≤ N.of_nat (length p))%N.
Proof.
  induction s as [|e s IH]; intros pending Hs Hw.
  - rewrite app_nil_r in Hw. simpl. rewrite (proj2 (N.leb_le _ _) Hw).
    eexists _, _. done.
  - cbn [read_at_least]. destruct (N.leb_spec want (N.of_nat (length pending))) as [E|E].
    + eexists _, _. split_and!; done.
    + apply plain_cons in Hs as (b & c & -> & Hs). cbn [read_more].
      rewrite stream_bytes_cons in *. cbn [event_bytes] in *.
      destruct (IH (pending ++ b :: c)) as (p & s' & -> & ? & Hp & ?);
        [done|by rewrite <-app_assoc|].
      eexists _, _. split_and!; [done..| |done]. by rewrite Hp, <-app_assoc.
Qed.
End line.

(** Whatever happens, a line read leaves at most the bytes there were. *)
Lemma read_line_to_come s : ∀ pending i p s',
  read_line s pending = (Ok (i, p), s') →
  to_come (p, s') = to_come (pending, s) ∧ i + 2 ≤ length p.
Proof.
  unfold to_come. simpl. induction s as [|e s IH]; intros pending i p s'; simpl.
  - destruct (position CRLF pending) eqn:E; [|done]. intros [= -> -> <-].
    split; [done|by apply position_bound in E].
  - destruct (position CRLF pending) eqn:E.
    + intros [= -> -> <-]. split; [done|by apply position_bound in E].
    + destruct e as [[|b c]| |]; simpl; try done. intros H%IH.
      rewrite length_app. rewrite length_app in H. simpl in H. lia.
Qed.
Lemma read_at_least_to_come want s : ∀ pending p s',
  read_at_least want s pending = (Ok p, s') →
  to_come (p, s') = to_come (pending, s) ∧ (want ≤ N.of_nat (length p))%N.
Proof.
  unfold to_come. simpl. induction s as [|e s IH]; intros pending p s'; simpl.
  - destruct (N.leb_spec want (N.of_nat (length pending))); [|done]. intros [= -> <-]. done.
  - destruct (N.leb_spec want (N.of_nat (length pending))).
    + intros [= -> <-]. done.
    + destruct e as [[|b c]| |]; simpl; try done. intros H'%IH.
      rewrite length_app. rewrite length_app in H'. simpl in H'. lia.
Qed.

Lemma trailer_decreases st st' : trailer_body st = inl st' → to_come st' < to_come st.
Proof.
  destruct st as [pending s]. unfold trailer_body.
  destruct (read_line s pending) as [[[i p]|] s1] eqn:E; [|done].
  apply read_line_to_come in E as [E Hi]. destruct (Nat.eqb_spec i 0); [done|]. intros [= <-].
  revert E. unfold to_come. simpl. rewrite length_drop. lia.
Qed.

Lemma chunk_decreases max st st' : chunk_body max st = inl st' → to_come st'.2 < to_come st.2.
Proof.
  destruct st as [body [pending s]]. unfold chunk_body.
  destruct (read_line s pending) as [[[i p]|] s1] eqn:E; [|done].
  apply read_line_to_come in E as [E Hi].
  destruct (parse_chunk_size (take i p)) as [size|]; [|done].
  destruct (N.eqb_spec size 0); [by destruct (read_trailers _) as [[]]|].
  destruct (two64 <=? size + 2)%N; [done|].
  destruct (read_at_least (size + 2) s1 (drop (i + 2) p)) as [[q|] s2] eqn:E2; [|done].
  apply read_at_least_to_come in E2 as [E2 Hq]. destruct (max <? _)%N; [done|]. intros [= <-].
  revert E E2. unfold to_come. simpl. rewrite !length_drop. lia.
Qed.

(** ** The chunked encoding *)

(** The next line of a byte sequence. *)
Definition is_line (l : list byte) : Prop := position CRLF (l ++ CRLF) = Some (length l).
#[export] Instance is_line_dec l : Decision (is_line l). Proof. unfold is_line. apply _. Defined.

(** A chunk: its size line, possibly with an extension, and its bytes. *)
Definition chunk_ok (c : list byte * list byte) : Prop :=
  is_line c.1 ∧ parse_chunk_size c.1 = Some (N.of_nat (length c.2)) ∧ c.2 ≠ [] ∧
  (N.of_nat (length c.2) + 2 < two64)%N.
Definition last_ok (l : list byte) : Prop := is_line l ∧ parse_chunk_size l = Some 0%N.
Definition trailer_ok (l : list byte) : Prop := is_line l ∧ l ≠ [].

Definition encode_chunk (c : list byte * list byte) : list byte := c.1 ++ CRLF ++ c.2 ++ CRLF.
Definition encode_trailers (trailers : list (list byte)) : list byte :=
  (trailers ≫= λ l, l ++ CRLF) ++ CRLF.
Definition encode_chunks (chunks : list (list byte * list byte)) (last : list byte) (trailers : list (list byte))
    : list byte :=
  (chunks ≫= encode_chunk) ++ last ++ CRLF ++ encode_trailers trailers.

Lemma is_line_position l rest : is_line l → position CRLF (l ++ CRLF ++ rest) = Some (length l).
Proof. intros H. rewrite app_assoc. by apply position_app_l. Qed.

(** Reading the next line, and what is left after it. *)
Lemma read_line_of s pending l rest :
  plain s → is_line l → pending ++ stream_bytes s = l ++ CRLF ++ rest →
  ∃ p s', read_line s pending = (Ok (length l, p), s') ∧ plain s' ∧ take (length l) p = l ∧
    drop (length l + 2) p ++ stream_bytes s' = rest.
Proof.
  intros Hs Hl E.
  destruct (read_line_plain s pending (length l)) as (p & s' & Hr & Hs' & Hp & Hlen); [done| |].
  { rewrite E. by apply is_line_position. }
  rewrite E in Hp. exists p, s'. split_and!; [done|done| |].
  - apply (f_equal (take (length l))) in Hp. rewrite take_app_length in Hp.
    rewrite take_app_le in Hp by lia. done.
  - apply (f_equal (drop (length l + 2))) in Hp. rewrite drop_app_le in Hp by lia.
    rewrite Hp, <-drop_drop, drop_app_length. done.
Qed.

Lemma read_trailers_plain trailers : ∀ s pending rest,
  plain s → Forall trailer_ok trailers → pending ++ stream_bytes s = encode_trailers trailers ++ rest →
  ∃ p s', read_trailers (pending, s) = (Ok p, s').
Proof.
  induction trailers as [|l trailers IH]; intros s pending rest Hs Hf E;
    unfold read_trailers; rewrite (loop_eq _ _ _ trailer_decreases); unfold trailer_body.
  - destruct (read_line_of s pending [] rest) as (p & s' & -> & _); [done..|]. simpl. eauto.
  - apply Forall_cons in Hf as [[Hl Hn] Hf].
    destruct (read_line_of s pending l (encode_trailers trailers ++ rest)) as (p & s' & -> & Hs' & _ & Hp);
      [done|done| |].
    { rewrite E. unfold encode_trailers. simpl. by rewrite <-!app_assoc. }
    destruct l as [|b l]; [done|]. simpl. by apply (IH s' _ rest).
Qed.

Lemma decode_chunks_plain max chunks : ∀ s pending body last trailers rest,
  plain s → Forall chunk_ok chunks → last_ok last → Forall trailer_ok trailers →
  pending ++ stream_bytes s = encode_chunks chunks last trailers ++ rest →
  (N.of_nat (length body + length (chunks ≫= snd)) ≤ max)%N →
  (loop (λ st, to_come st.2) (Err HttpFailed, []) (chunk_body max) (body, (pending, s))).1
  = Ok (body ++ (chunks ≫= snd)).
Proof.
  induction chunks as [|[l data] chunks IH]; intros s pending body last trailers rest Hs Hc Hlast Ht E Hmax;
    rewrite (loop_eq _ _ _ (chunk_decreases max)); unfold chunk_body; unfold encode_chunks in E.
  - destruct Hlast as [Hl Hsize].
    destruct (read_line_of s pending last (encode_trailers trailers ++ rest)) as (p & s' & -> & Hs' & Htake & Hp);
      [done..|by rewrite E, <-!app_assoc|].
    rewrite Htake, Hsize. cbn [N.eqb].
    destruct (read_trailers_plain trailers s' _ rest Hs' Ht Hp) as (q & s'' & ->). simpl. by rewrite app_nil_r.
  - apply Forall_cons in Hc as [(Hl & Hsize & Hne & Hw) Hc]. simpl in Hl, Hsize, Hne, Hw.
    cbn [mbind list_bind] in E, Hmax. unfold encode_chunk at 1 in E. cbn [fst snd] in E, Hmax.
    rewrite <-!app_assoc in E.
    edestruct (read_line_of s pending l) as (p & s' & -> & Hs' & Htake & Hp); [done|done|exact E|].
    rewrite Htake, Hsize. destruct (N.eqb_spec (N.of_nat (length data)) 0) as [E0|_].
    { destruct data; simpl in *; [done|lia]. }
    destruct (N.leb_spec two64 (N.of_nat (length data) + 2)); [lia|].
    destruct (read_at_least_plain (N.of_nat (length data) + 2) s' (drop (length l + 2) p))
      as (q & s'' & -> & Hs'' & Hq & Hlen); [done| |].
    { rewrite Hp, !length_app. change (length CRLF) with 2. lia. }
    assert (Hd : take (N.to_nat (N.of_nat (length data))) q = data).
    { rewrite Hp in Hq. apply (f_equal (take (length data))) in Hq.
      rewrite take_app_length, take_app_le in Hq by lia. by rewrite Nat2N.id. }
    assert (Hrest : drop (N.to_nat (N.of_nat (length data) + 2)) q ++ stream_bytes s''
                    = encode_chunks chunks last trailers ++ rest).
    { rewrite Hp in Hq. replace (N.to_nat (N.of_nat (length data) + 2)) with (length data + 2) by lia.
      apply (f_equal (drop (length data + 2))) in Hq. rewrite drop_app_le in Hq by lia.
      rewrite Hq, <-drop_drop, drop_app_length. unfold encode_chunks. by rewrite <-!app_assoc. }
    rewrite Hd. rewrite !length_app in Hmax.
    destruct (N.ltb_spec max (N.of_nat (length (body ++ data)))); [rewrite length_app in *; lia|].
    rewrite (IH s'' _ (body ++ data) last trailers rest); try done; [by rewrite <-app_assoc|].
    rewrite length_app. lia.
Qed.

(** ** The whole response *)

Lemma find_header_end_app_l l k e : find_header_end l = Some e → find_header_end (l ++ k) = Some e.
Proof. unfold find_header_end. intros (i & Hi & ->)%fmap_Some. by rewrite (position_app_l _ _ _ _ Hi). Qed.
Lemma find_header_end_bound l e : find_header_end l = Some e → e ≤ length l.
Proof. unfold find_header_end. intros (i & Hi & ->)%fmap_Some. by apply position_bound in Hi. Qed.

Lemma find_prefix p s t i : find p (s ++ t) = Some i → i + length p ≤ length s → find p s = Some i.
Proof.
  intros H Hb. destruct (find p s) as [j|] eqn:E.
  - by rewrite (find_app_l _ _ _ _ E) in H.
  - exfalso. apply find_None with (j := i) in E. apply find_Some in H as (H & _ & _).
    apply not_true_iff_false in E. apply E. rewrite drop_app_le in H by lia.
    apply starts_with_spec in H as [u Hu].
    apply (f_equal (take (length p))) in Hu. rewrite take_app_length in Hu.
    rewrite take_app_le in Hu by (rewrite length_drop; lia).
    rewrite <-(take_drop (length p) (drop i s)), Hu. apply starts_with_app.
Qed.
Lemma find_header_end_prefix l k e :
  find_header_end (l ++ k) = Some e → e ≤ length l → find_header_end l = Some e.
Proof.
  unfold find_header_end, position. intros (i & Hi & ->)%fmap_Some Hb.
  rewrite (fmap_app byte_val l k) in Hi. rewrite (find_prefix _ _ _ _ Hi); [done|]. by rewrite !length_fmap.
Qed.

(** The head of a plain stream is found if it fits. *)
Lemma read_head_plain s : ∀ buf e,
  plain s → find_header_end (buf ++ stream_bytes s) = Some e → (N.of_nat e ≤ MAX_HEAD)%N →
  ∃ p s', read_head s buf = (Ok (e, p), s') ∧ plain s' ∧ p ++ stream_bytes s' = buf ++ stream_bytes s ∧
    e ≤ length p.
Proof.
  induction s as [|ev s IH]; intros buf e Hs He Hm.
  - rewrite app_nil_r in He. simpl. rewrite He. eexists _, _. split_and!; [done..|].
    by apply find_header_end_bound.
  - cbn [read_head]. destruct (find_header_end buf) as [e'|] eqn:E.
    + rewrite (find_header_end_app_l _ _ _ E) in He. injection He as ->.
      eexists _, _. split_and!; [done..|]. by apply find_header_end_bound.
    + destruct (N.leb_spec MAX_HEAD (N.of_nat (length buf))) as [K|K].
      { rewrite (find_header_end_prefix _ _ _ He) in E; [done|]. lia. }
      apply plain_cons in Hs as (b & c & -> & Hs). cbn [read_more].
      rewrite stream_bytes_cons in *. cbn [event_bytes] in *.
      destruct (IH (buf ++ b :: c) e) as (p & s' & -> & ? & Hp & ?); [done|by rewrite <-app_assoc|done|].
      eexists _, _. split_and!; [done..| |done]. by rewrite Hp, <-app_assoc.
Qed.

Lemma read_declared_plain s : ∀ body content,
  plain s → body ++ stream_bytes s = content → (N.of_nat (length content) ≤ MAX_BODY)%N →
  (read_declared (N.of_nat (length content)) s body).1 = Ok content.
Proof.
  induction s as [|e s IH]; intros body content Hs E Hm.
  - rewrite app_nil_r in E. subst. simpl. rewrite N.leb_refl, Nat2N.id, firstn_all. done.
  - cbn [read_declared]. destruct (N.leb_spec (N.of_nat (length content)) (N.of_nat (length body))) as [K|K].
    + apply plain_cons in Hs as (b & c & -> & Hs). exfalso.
      apply (f_equal length) in E. rewrite stream_bytes_cons, !length_app in E. simpl in E. lia.
    + apply plain_cons in Hs as (b & c & -> & Hs). cbn [read_more].
      rewrite stream_bytes_cons in E. cbn [event_bytes] in E.
      destruct (N.ltb_spec MAX_BODY (N.of_nat (length (body ++ b :: c)))) as [K'|K'].
      * exfalso. rewrite app_assoc in E. apply (f_equal length) in E. rewrite length_app in E. lia.
      * apply IH; [done| |done]. by rewrite <-app_assoc.
Qed.

Lemma read_to_close_plain s : ∀ body content,
  plain s → body ++ stream_bytes s = content → (N.of_nat (length content) ≤ MAX_BODY)%N →
  (read_to_close s body).1 = Ok content.
Proof.
  induction s as [|e s IH]; intros body content Hs E Hm.
  - rewrite app_nil_r in E. by subst.
  - apply plain_cons in Hs as (b & c & -> & Hs). cbn [read_to_close].
    rewrite stream_bytes_cons in E. cbn [event_bytes] in E.
    destruct (N.ltb_spec MAX_BODY (N.of_nat (length (body ++ b :: c)))) as [K'|K'].
    + exfalso. rewrite app_assoc in E. apply (f_equal length) in E. rewrite length_app in E. lia.
    + apply IH; [done| |done]. by rewrite <-app_assoc.
Qed.

(** How the headers of a response delimit its body on the wire. *)
Inductive framed (hs : list (str * str)) : list byte → list byte → Prop :=
  | framed_chunked chunks last trailers rest :
      is_chunked hs = true → Forall chunk_ok chunks → last_ok last → Forall trailer_ok trailers →
      framed hs (encode_chunks chunks last trailers ++ rest) (chunks ≫= snd)
  | framed_declared content :
      is_chunked hs = false → declared_length hs = Some (N.of_nat (length content)) →
      framed hs content content
  | framed_close content :
      is_chunked hs = false → declared_length hs = None → framed hs content content.

(** A response whose head and body are within the limits is read exactly, however the
    network cuts it into reads: the status and headers of its head and the body its
    headers delimit, be it by a declared length, by chunks with extensions and trailers,
    or by the end of the stream. *)
Theorem read_response_cut s head wire content code :
  plain s → stream_bytes s = head ++ wire →
  find_header_end head = Some (length head) → (N.of_nat (length head) ≤ MAX_HEAD)%N →
  parse_status (from_utf8_lossy head) = Some code →
  framed (parse_headers (from_utf8_lossy head)) wire content →
  (N.of_nat (length content) ≤ MAX_BODY)%N →
  (read_login_response s).1 = Ok (MkLoginResponse code (parse_headers (from_utf8_lossy head)) content).
Proof.
  intros Hs E Hend Hmax Hcode Hf Hbody. unfold read_login_response.
  destruct (read_head_plain s [] (length head)) as (p & s' & -> & Hs' & Hp & Hlen); [done| |done|].
  { simpl. rewrite E. by apply find_header_end_app_l. }
  simpl in Hp. rewrite E in Hp.
  assert (Htake : take (length head) p = head).
  { apply (f_equal (take (length head))) in Hp. by rewrite take_app_length, take_app_le in Hp by lia. }
  assert (Hdrop : drop (length head) p ++ stream_bytes s' = wire).
  { apply (f_equal (drop (length head))) in Hp. by rewrite drop_app_length, drop_app_le in Hp by lia. }
  rewrite Htake, Hcode.
  destruct Hf as [chunks last trailers rest -> Hc Hl Ht|content -> ->|content -> ->].
  - unfold decode_chunked_body.
    pose proof (decode_chunks_plain MAX_BODY chunks s' (drop (length head) p) [] last trailers rest
      Hs' Hc Hl Ht Hdrop Hbody) as Hd.
    destruct (loop _ _ _ _) as [r s2]. simpl in Hd. by rewrite Hd.
  - pose proof (read_declared_plain s' _ _ Hs' Hdrop Hbody) as Hd.
    destruct (read_declared _ _ _) as [r s2]. simpl in Hd. by rewrite Hd.
  - pose proof (read_to_close_plain s' _ _ Hs' Hdrop Hbody) as Hd.
    destruct (read_to_close _ _) as [r s2]. simpl in Hd. by rewrite Hd.
Qed.

(** A response cut in the middle of its head and of a chunk. *)
Definition sample_head : list byte :=
  utf8 (lit "HTTP/1.1 200 OK" ++ crlf ++ lit "Transfer-Encoding: chunked" ++ crlf ++ crlf).
Definition sample_chunks : list (list byte * list byte) :=
  [(utf8 (lit "3;x=1"), utf8 (lit "abc")); (utf8 (lit "a"), utf8 (lit "0123456789"))].
Definition sample_wire : list byte := encode_chunks sample_chunks (utf8 (lit "0")) [utf8 (lit "T: v")].
Definition sample_stream : Stream :=
  [Bytes (take 20 sample_head); Bytes (drop 20 sample_head ++ take 9 sample_wire); Bytes (drop 9 sample_wire)].

Lemma read_response_cut_witness :
  plain sample_stream ∧
  (read_login_response sample_stream).1
  = Ok (MkLoginResponse 200 [(lit "transfer-encoding", lit "chunked")] (utf8 (lit "abc0123456789"))).
Proof.
  assert (Hp : plain sample_stream).
  { repeat (apply Forall_cons; split; [eexists; split; [reflexivity|done]|]). by apply Forall_nil. }
  split; [exact Hp|].
  apply (read_response_cut sample_stream sample_head sample_wire);
    [exact Hp|vm_compute; reflexivity|vm_compute; reflexivity|vm_compute; discriminate|
     vm_compute; reflexivity| |vm_compute; discriminate].
  rewrite <-(app_nil_r sample_wire).
  change (utf8 (lit "abc0123456789")) with (sample_chunks ≫= snd).
  apply framed_chunked; [vm_compute; reflexivity| | |].
  - repeat (apply Forall_cons; split; [vm_compute; split_and!; (reflexivity || discriminate)|]). by apply Forall_nil.
  - vm_compute. split; reflexivity.
  - apply Forall_singleton. vm_compute. split; [reflexivity|discriminate].
Defined.

(** ** Limits and errors *)

(** A read fills a buffer of 1024 bytes. *)
Definition reads_ok (s : Stream) : Prop := Forall (λ e, length (event_bytes e) ≤ 1024) s.

Lemma read_more_length e p q : read_more e p = Ok q → length q = length p + length (event_bytes e).
Proof. destruct e as [[|b c]| |]; simpl; try done. intros [= <-]. by rewrite length_app. Qed.

Lemma read_head_length s : ∀ buf e p s',
  reads_ok s → (N.of_nat (length buf) < MAX_HEAD + 1024)%N → read_head s buf = (Ok (e, p), s') →
  (N.of_nat (length p) < MAX_HEAD + 1024)%N.
Proof.
  induction s as [|ev s IH]; intros buf e p s' Hr Hb; cbn [read_head];
    destruct (find_header_end buf); [congruence| |congruence|].
  - by destruct (MAX_HEAD <=? _)%N.
  - destruct (N.leb_spec MAX_HEAD (N.of_nat (length buf))) as [|K]; [done|].
    apply Forall_cons in Hr as [He Hr].
    destruct (read_more ev buf) as [buf'|] eqn:E; [|done]. apply read_more_length in E.
    apply IH; [done|]. lia.
Qed.

Lemma read_declared_length want s : ∀ body r s',
  (N.of_nat (length body) ≤ MAX_BODY)%N → read_declared want s body = (Ok r, s') →
  N.of_nat (length r) = want ∧ (want ≤ MAX_BODY)%N.
Proof.
  induction s as [|e s IH]; intros body r s' Hb; cbn [read_declared];
    (destruct (N.leb_spec want (N.of_nat (length body))) as [K|K];
     [intros [= <- _]; rewrite length_take; lia|]).
  - done.
  - destruct (read_more e body) as [body'|]; [|done].
    destruct (N.ltb_spec MAX_BODY (N.of_nat (length body'))); [done|]. by apply IH.
Qed.

Lemma read_to_close_length s : ∀ body r s',
  (N.of_nat (length body) ≤ MAX_BODY)%N → read_to_close s body = (Ok r, s') →
  (N.of_nat (length r) ≤ MAX_BODY)%N.
Proof.
  induction s as [|e s IH]; intros body r s' Hb; [by intros [= <- _]|].
  destruct e as [[|b c]| |]; cbn [read_to_close]; try (by intros [= <- _]).
  destruct (N.ltb_spec MAX_BODY (N.of_nat (length (body ++ b :: c)))); [done|]. by apply IH.
Qed.

Lemma decode_chunked_length max st :
  (N.of_nat (length st.1) ≤ max)%N →
  match (loop (λ st, to_come st.2) (Err HttpFailed, []) (chunk_body max) st).1 with
  | Ok body => (N.of_nat (length body) ≤ max)%N
  | Err e => e = HttpFailed
  end.
Proof.
  apply (loop_ind _ _ _ (chunk_decreases max) (λ st (r : Reading (list byte)),
    (N.of_nat (length st.1) ≤ max)%N →
    match r.1 with Ok body => (N.of_nat (length body) ≤ max)%N | Err e => e = HttpFailed end)).
  clear st. intros [body [pending s]]. unfold chunk_body at 1.
  assert (Hline : ∀ s p e s', read_line s p = (Err e, s') → e = HttpFailed).
  { clear. induction s as [|ev s IH]; intros p e s'; simpl; destruct (position CRLF p); try congruence.
    destruct ev as [[|b c]| |]; simpl; try congruence. apply IH. }
  assert (Hleast : ∀ w s p e s', read_at_least w s p = (Err e, s') → e = HttpFailed).
  { clear. induction s as [|ev s IH]; intros p e s'; simpl; destruct (_ <=? _)%N; try congruence.
    destruct ev as [[|b c]| |]; simpl; try congruence. apply IH. }
  assert (Htrail : ∀ st, match (read_trailers st).1 with Ok _ => True | Err e => e = HttpFailed end).
  { apply (loop_ind _ _ _ trailer_decreases
      (λ _ (r : Reading (list byte)), match r.1 with Ok _ => True | Err e => e = HttpFailed end)).
    intros [p s0]. unfold trailer_body at 1. destruct (read_line s0 p) as [[[i q]|] s1] eqn:E.
    - destruct (i =? 0); [done|]. auto.
    - simpl. eauto. }
  destruct (read_line s pending) as [[[i p]|] s1] eqn:E; [|simpl; eauto].
  destruct (parse_chunk_size (take i p)) as [size|]; [|done].
  destruct (size =? 0)%N.
  { specialize (Htrail (drop (i + 2) p, s1)). by destruct (read_trailers _) as [[]]. }
  destruct (two64 <=? size + 2)%N; [done|].
  destruct (read_at_least _ _ _) as [[q|] s2] eqn:E2; [|simpl; eauto].
  destruct (N.ltb_spec max (N.of_nat (length (body ++ take (N.to_nat size) q)))); [done|].
  intros r Hr _. by apply Hr.
Qed.

Lemma read_more_error e p err : read_more e p = Err err → err = HttpFailed.
Proof. destruct e as [[|b c]| |]; simpl; congruence. Qed.
Lemma read_head_error s : ∀ buf e s', read_head s buf = (Err e, s') → e = HttpFailed.
Proof.
  induction s as [|ev s IH]; intros p e s'; cbn [read_head]; destruct (find_header_end p); try congruence;
    destruct (_ <=? _)%N; try congruence.
  destruct (read_more ev p) eqn:E; [apply IH|]. apply read_more_error in E. congruence.
Qed.
Lemma read_declared_error want s : ∀ body e s', read_declared want s body = (Err e, s') → e = HttpFailed.
Proof.
  induction s as [|ev s IH]; intros p e s'; cbn [read_declared]; destruct (_ <=? _)%N; try congruence.
  destruct (read_more ev p) eqn:E; [|apply read_more_error in E; congruence].
  destruct (_ <? _)%N; [congruence|apply IH].
Qed.
Lemma read_to_close_error s : ∀ body e s', read_to_close s body = (Err e, s') → e = HttpFailed.
Proof.
  induction s as [|ev s IH]; intros p e s'; [done|].
  destruct ev as [[|b c]| |]; cbn [read_to_close]; try congruence.
  destruct (_ <? _)%N; [congruence|apply IH].
Qed.

(** Reading a response, however the network behaves, either fails with the HTTP error
    or returns a response within the limits: a body of at most 256 KiB, of exactly the
    declared length when one is declared and the response is not chunked, and a status
    that is a 16-bit number. A response that ends early is never taken for a whole one. *)
Theorem read_response_limits s r s' :
  reads_ok s → read_login_response s = (r, s') →
  match r with
  | Ok resp => (N.of_nat (length (body resp)) ≤ MAX_BODY)%N ∧ (status resp < 65536)%N ∧
      (is_chunked (headers resp) = false → ∀ n, declared_length (headers resp) = Some n →
       N.of_nat (length (body resp)) = n)
  | Err e => e = HttpFailed
  end.
Proof.
  intros Hr. unfold read_login_response.
  pose proof (read_head_length s []) as Hl. pose proof (read_head_error s []) as He.
  destruct (read_head s []) as [[[e buf]|err] s1]; [|intros [= <- _]; by apply (He err s1)].
  specialize (Hl e buf s1 Hr ltac:(done) eq_refl).
  destruct (parse_status _) as [code|] eqn:Ecode; [|by intros [= <- _]].
  assert (Hcode : (code < 65536)%N).
  { unfold parse_status in Ecode. destruct (lines _ !! 0); [|done]. simpl in Ecode.
    destruct (split_whitespace _ !! 1); [|done]. apply parse_uint_bound in Ecode. lia. }
  assert (Hp : (N.of_nat (length (drop e buf)) ≤ MAX_BODY)%N).
  { rewrite length_drop. unfold MAX_HEAD, MAX_BODY in *. lia. }
  destruct (is_chunked _) eqn:Ec; [|destruct (declared_length _) as [want|] eqn:Ed].
  - pose proof (decode_chunked_length MAX_BODY ([], (drop e buf, s1)) ltac:(done)) as Hd.
    unfold decode_chunked_body. destruct (loop _ _ _ _) as [[b|] s2]; intros [= <- <-]; simpl in *; [|done].
    split_and!; [done..|congruence].
  - pose proof (read_declared_length want s1 (drop e buf)) as Hd.
    pose proof (read_declared_error want s1 (drop e buf)) as Hde.
    destruct (read_declared _ _ _) as [[b|] s2]; intros [= <- <-]; simpl; [|eauto].
    destruct (Hd b s2 Hp eq_refl) as [H1 H2]. split_and!; [lia|done|]. intros _ n Hn. congruence.
  - pose proof (read_to_close_length s1 (drop e buf)) as Hd.
    pose proof (read_to_close_error s1 (drop e buf)) as Hde.
    destruct (read_to_close _ _) as [[b|] s2]; intros [= <- <-]; simpl; [|eauto].
    split_and!; [by eapply Hd|done|congruence].
Qed.

Lemma read_response_limits_witness :
  reads_ok sample_stream ∧
  match (read_login_response sample_stream).1 with
  | Ok resp => (N.of_nat (length (body resp)) ≤ MAX_BODY)%N
  | Err _ => False
  end.
Proof.
  assert (Hr : reads_ok sample_stream).
  { repeat (apply Forall_cons; split; [vm_compute; lia|]). by apply Forall_nil. }
  split; [exact Hr|].
  pose proof (read_response_limits sample_stream _ _ Hr (surjective_pairing _)) as H.
  assert (E : (read_login_response sample_stream).1
    = Ok (MkLoginResponse 200 [(lit "transfer-encoding", lit "chunked")] (utf8 (lit "abc0123456789"))))
    by (vm_compute; reflexivity).
  rewrite E in *. exact (proj1 H).
Defined.

(** The size limit of a chunked body is looked at only once a chunk is complete: a chunk
    above the limit is buffered to its last byte before it is refused. *)
Lemma oversize_chunk_is_buffered s line data max :
  plain s → is_line line → parse_chunk_size line = Some (N.of_nat (length data)) →
  (max < N.of_nat (length data))%N → (N.of_nat (length data) + 2 < two64)%N →
  stream_bytes s = line ++ CRLF ++ data ++ CRLF →
  ∃ s', decode_chunked_body s [] max = (Err HttpFailed, s') ∧ stream_bytes s' = [].
Proof.
  intros Hs Hl Hsize Hmax Hw E. unfold decode_chunked_body.
  rewrite (loop_eq _ _ _ (chunk_decreases max)). unfold chunk_body.
  destruct (read_line_of s [] line (data ++ CRLF)) as (p & s' & -> & Hs' & -> & Hp); [done..|].
  rewrite Hsize. destruct (N.eqb_spec (N.of_nat (length data)) 0); [lia|].
  destruct (N.leb_spec two64 (N.of_nat (length data) + 2)); [lia|].
  destruct (read_at_least_plain (N.of_nat (length data) + 2) s' (drop (length line + 2) p))
    as (q & s'' & -> & Hs'' & Hq & Hlen); [done| |].
  { rewrite Hp, length_app. change (length CRLF) with 2. lia. }
  rewrite Hp in Hq. assert (Hlq : length q + length (stream_bytes s'') = length data + 2).
  { apply (f_equal length) in Hq. by rewrite !length_app in Hq. }
  destruct (N.ltb_spec max (N.of_nat (length ([] ++ take (N.to_nat (N.of_nat (length data))) q)))) as [K|K].
  - exists s''. split; [done|]. apply nil_length_inv. lia.
  - exfalso. simpl in K. rewrite length_take in K. lia.
Qed.

(** ** Header lines *)

Lemma parse_header_field name v : 58%N ∉ name → parse_header (name ++ 58%N :: v) = Some (to_ascii_lowercase (trim name), trim v).
Proof. intros H. unfold parse_header. by rewrite split_once_app. Qed.

(** The header section of a message: lines that each name a field. *)
Definition header_text (fields : list (str * str)) : str := fields ≫= λ f, f.1 ++ lit ": " ++ f.2 ++ crlf.
Definition header_ok (f : str * str) : Prop :=
  let '(name, v) := f in (58%N ∉ name) ∧ (LF ∉ name) ∧ (LF ∉ v) ∧ tight name ∧ tight v.

(** Fields that contain no line end are read back as they were written. *)
Lemma parse_header_text first fields :
  LF ∉ first → Forall header_ok fields →
  parse_headers (first ++ crlf ++ header_text fields ++ crlf) = (λ f, (to_ascii_lowercase f.1, f.2)) <$> fields.
Proof.
  intros Hf H. unfold parse_headers. rewrite lines_line by done. cbn [drop]. rewrite drop_0.
  induction H as [|[name v] fields (Hc & Hn & Hv & Ht & Ht') _ IH]; [done|]. cbn [fst snd] in *.
  unfold header_text. cbn [mbind list_bind]. fold (header_text fields). cbn [fst snd].
  rewrite <-!app_assoc. rewrite 2!app_assoc, <-(app_assoc _ _ v).
  rewrite lines_line.
  - cbn [omap list_omap]. change (lit ": " ++ v) with (58%N :: 32%N :: v). rewrite parse_header_field by done.
    rewrite IH. rewrite trim_lead by done. rewrite !trim_tight by done. done.
  - rewrite !elem_of_app. intros [?|[?|?]]; try done. by apply (bool_decide_unpack (LF ∉ lit ": ")).
Qed.
