(* ===== verification/WebVpn.v ===== *)
(** * The texts of the WebVPN login

    The builders and the parsers of [webvpn.rs] of the CSTP crate: the logon form, the
    aggregate-auth documents, the CONNECT request. All of them search texts; a [while]
    loop over what is left of a text is [Text.loop], and each iteration goes past the
    pattern it found. Offsets into a text count characters: the code takes them only
    where a pattern was found, and the characters it looks at beside it are ASCII. *)

From Stdlib Require Import NArith Strings.Byte Lia.
From S2P Require Import Prelude Text Connector Http.

Definition GT : N := 62.
Definition SLASH : N := 47.

(** ** Attributes *)

(** cstp/webvpn.rs:1755-1757 [attr_value_ci] *)
Definition is_word_byte (c : N) : bool := is_ascii_alphanumeric c || (c =? 45)%N || (c =? 95)%N.
Definition preceded_by_word_char (lower : str) (idx : nat) : bool :=
  match idx with
  | O => false
  | S i => match lower !! i with Some c => is_word_byte c | None => false end
  end.

(** cstp/webvpn.rs:1758-1772 [attr_value_ci]: the value after the equals sign. *)
Definition attr_text (after : str) : str :=
  match strip_prefix [QUOTE] after with
  | Some value => before [QUOTE] value
  | None =>
      match strip_prefix [39%N] after with
      | Some value => before [39%N] value
      | None => before_if (λ c, is_whitespace c || (c =? GT)%N) after
      end
  end.

(** cstp/webvpn.rs:1744-1776 [attr_value_ci] *)
Definition attr_value_body (tag name lower : str) (search_from : nat) : nat + option str :=
  match find name (drop search_from lower) with
  | None => inr None
  | Some rel =>
      let idx := search_from + rel in
      if negb (preceded_by_word_char lower idx) && bool_decide (lower !! (idx + length name) = Some 61%N)
      then inr (Some (attr_text (drop (idx + length name + 1) tag)))
      else inl (idx + length name)
  end.
Definition attr_value_ci (tag name : str) : option str :=
  let lower := to_ascii_lowercase tag in
  loop (λ from, length lower - from) None (attr_value_body tag name lower) 0.

(** cstp/webvpn.rs:1693-1717 [has_attr_ci] *)
Definition ends_attr_name (c : N) : bool :=
  (c =? 61)%N || is_ascii_whitespace c || (c =? GT)%N || (c =? SLASH)%N.
Definition has_attr_body (name lower : str) (search_from : nat) : nat + bool :=
  match find name (drop search_from lower) with
  | None => inr false
  | Some rel =>
      let idx := search_from + rel in
      if negb (preceded_by_word_char lower idx)
         && match lower !! (idx + length name) with Some c => ends_attr_name c | None => false end
      then inr true
      else inl (idx + length name)
  end.
Definition has_attr_ci (tag name : str) : bool :=
  let lower := to_ascii_lowercase tag in
  loop (λ from, length lower - from) false (has_attr_body name lower) 0.

(** ** Tags *)

(** The next tag that starts with [open]: what is left from it on, the tag itself, and
    what follows [open]. [Some None] is a tag that is never closed. *)
Definition next_tag (open rest : str) : option (str * option str * str) :=
  start ← find open rest;
  let here := drop start rest in
  let tail := drop (length open) here in
  Some (here, (λ tag_len, take (length open + tag_len + 1) here) <$> find_char GT tail, tail).

(** cstp/webvpn.rs:1655-1691 [selected_option_value] *)
Definition option_body (st : str * option str) : (str * option str) + option str :=
  let '(rest, first) := st in
  match next_tag (lit "<option") rest with
  | None => inr first
  | Some (_, None, _) => inr first
  | Some (here, Some tag, tail) =>
      let value :=
        match attr_value_ci tag (lit "value") with
        | Some v => if bool_decide (trim v = []) then trim (before (lit "</option") (drop (length tag) here))
                    else trim v
        | None => trim (before (lit "</option") (drop (length tag) here))
        end in
      let first := match first with None => Some value | Some _ => first end in
      if has_attr_ci tag (lit "selected") then inr (Some value) else inl (tail, first)
  end.
Definition selected_option_value (options : str) : option str :=
  loop (λ st, length st.1) None option_body (options, None).

(** cstp/webvpn.rs:1628-1653 [parse_group_list] *)
Definition group_list_body (rest : str) : str + option str :=
  match next_tag (lit "<select") rest with
  | None => inr None
  | Some (_, None, _) => inr None
  | Some (here, Some tag, tail) =>
      if match attr_value_ci tag (lit "name") with
         | Some n => eq_ignore_ascii_case (trim n) (lit "group_list")
         | None => false
         end
      then
        let inner := drop (length tag) here in
        match find (lit "</select") inner with
        | None => inr None
        | Some close => inr (selected_option_value (take close inner))
        end
      else inl tail
  end.
Definition parse_group_list (body_text : str) : option str := loop length None group_list_body body_text.

(** ** The logon form *)

(** cstp/webvpn.rs:1545-1568 [LoginForm] *)
Record LoginForm := MkLoginForm {
  tgroup : option str;
  next : option str;
  tgcookieset : option str;
  csrf_token : option str;
  group_list : option str;
  action : option str;
}.

(** cstp/webvpn.rs:1589-1606 [parse_login_form]: the hidden fields. *)
Definition set_field (name value : str) (f : LoginForm) : LoginForm :=
  let '(MkLoginForm tg nx tgc csrf gl ac) := f in
  if bool_decide (name = lit "tgroup") then MkLoginForm (Some value) nx tgc csrf gl ac
  else if bool_decide (name = lit "next") then MkLoginForm tg (Some value) tgc csrf gl ac
  else if bool_decide (name = lit "tgcookieset") then MkLoginForm tg nx (Some value) csrf gl ac
  else if bool_decide (name = lit "csrf_token") then MkLoginForm tg nx tgc (Some value) gl ac
  else f.
Definition inputs_body (st : str * LoginForm) : (str * LoginForm) + LoginForm :=
  let '(rest, form) := st in
  match next_tag (lit "<input") rest with
  | None => inr form
  | Some (_, None, _) => inr form
  | Some (_, Some tag, tail) =>
      let form :=
        match attr_value_ci tag (lit "name") with
        | Some name => set_field (trim name) (default [] (attr_value_ci tag (lit "value"))) form
        | None => form
        end in
      inl (tail, form)
  end.
(** cstp/webvpn.rs:1607-1620 [parse_login_form]: the action. *)
Definition action_body (rest : str) : str + option str :=
  match next_tag (lit "<form") rest with
  | None => inr None
  | Some (_, None, _) => inr None
  | Some (_, Some tag, tail) =>
      match attr_value_ci tag (lit "action") with
      | Some a => inr (Some (trim a))
      | None => inl tail
      end
  end.
(** cstp/webvpn.rs:1570-1626 [parse_login_form] *)
Definition empty_form : LoginForm := MkLoginForm None None None None None None.
Definition parse_login_form (body_text : str) : LoginForm :=
  let form := loop (λ st, length st.1) empty_form inputs_body (body_text, empty_form) in
  MkLoginForm (tgroup form) (next form) (tgcookieset form) (csrf_token form)
    (parse_group_list body_text) (loop length None action_body body_text).

(** cstp/webvpn.rs:1719-1742 [resolve_form_action] *)
Definition resolve_form_action (act : str) : str :=
  match (match strip_prefix (lit "https://") act with
         | Some rest => Some rest
         | None => strip_prefix (lit "http://") act
         end) with
  | Some rest => match find_char SLASH rest with Some i => drop i rest | None => [SLASH] end
  | None => if starts_with [SLASH] act then act else SLASH :: act
  end.

(** ** The result code and the SAML steering page *)

(** cstp/webvpn.rs:2014-2042 [a0_code] *)
Definition a0_body (rest : str) : str + option str :=
  match find (lit "a0=") rest with
  | None => inr None
  | Some start =>
      let boundary_ok := negb (preceded_by_word_char rest start) in
      let digits := drop (start + 3) rest in
      let len := default (length digits) (find_if (λ c, negb (is_ascii_digit c)) digits) in
      if boundary_ok && (0 <? len) then inr (Some (take len digits)) else inl (drop len digits)
  end.
Definition a0_code (body_text : str) : option str := loop length None a0_body body_text.

(** cstp/webvpn.rs:2044-2078 [meta_refresh_steers_to_saml_acs] *)
Definition steers_to_saml (tag : str) : bool :=
  match attr_value_ci tag (lit "http-equiv") with
  | Some v =>
      eq_ignore_ascii_case (trim v) (lit "refresh")
      && (let target := to_ascii_lowercase (default [] (attr_value_ci tag (lit "content"))) in
          let acs_url := concat (drop 1 (split_str (lit "url=") target)) in
          contains (lit "+cscoe+/saml") acs_url || contains (lit "/acs") acs_url)
  | None => false
  end.
Definition meta_body (rest : str) : str + bool :=
  match next_tag (lit "<meta") rest with
  | None => inr false
  | Some (_, None, _) => inr false
  | Some (_, Some tag, tail) => if steers_to_saml tag then inr true else inl tail
  end.
Definition meta_refresh_steers_to_saml_acs (body_text : str) : bool :=
  loop length false meta_body (to_ascii_lowercase body_text).

(** ** XML text *)

(** cstp/webvpn.rs:1132-1144 [xml_escape_into] *)
Definition xml_escape_char (ch : N) : str :=
  if (ch =? 38)%N then lit "&amp;"
  else if (ch =? 60)%N then lit "&lt;"
  else if (ch =? 62)%N then lit "&gt;"
  else if (ch =? 34)%N then lit "&quot;"
  else if (ch =? 39)%N then lit "&apos;"
  else [ch].
Definition xml_escape (value : str) : str := value ≫= xml_escape_char.

(** cstp/webvpn.rs:1146-1161 [xml_unescape] *)
Definition xml_unescape (value : str) : str :=
  foldl (λ out '(from, to), replace from to out) value
    [(lit "&quot;", [34%N]); (lit "&apos;", [39%N]); (lit "&lt;", [60%N]); (lit "&gt;", [62%N]);
     (lit "&amp;", [38%N])].

(** ** Aggregate-auth documents *)

(** cstp/webvpn.rs:1254-1259 [AggregateAuthField] *)
Record AggregateAuthField := MkAggregateAuthField { field_name : str; field_text : str }.

(** cstp/webvpn.rs:1163-1186 [AggregateAuthResponse] *)
Record AggregateAuthResponse := MkAggregateAuthResponse {
  auth_id : option str;
  root_type : option str;
  has_host_scan : bool;
  opaque_xml : list str;
  fields : list AggregateAuthField;
  session_token : option str;
  session_id : option str;
  error_text : option str;
}.

(** cstp/webvpn.rs:1236-1252 [AggregateAuthType] *)
Inductive AggregateAuthType := AuthRequest | GroupSelect | Challenge | HostScan | Agg_Error | Agg_Success.
#[export] Instance AggregateAuthType_eq_dec : EqDecision AggregateAuthType. Proof. solve_decision. Defined.

(** cstp/webvpn.rs:1189-1193 [AggregateAuthResponse::has_field] *)
Definition has_field (r : AggregateAuthResponse) (name : str) : bool :=
  existsb (λ f, bool_decide (field_name f = name)) (fields r).
(** cstp/webvpn.rs:1195-1201 [AggregateAuthResponse::field_value] *)
Definition field_value (r : AggregateAuthResponse) (name : str) : option str :=
  (λ f, field_text f.2) <$> list_find (λ f, field_name f = name) (fields r).
(** cstp/webvpn.rs:1261-1269 [is_challenge_field] *)
Definition is_challenge_field (f : AggregateAuthField) : bool :=
  let name := to_ascii_lowercase (field_name f) in
  contains (lit "secondary") name || contains (lit "challenge") name
  || contains (lit "token") name || contains (lit "passcode") name.

(** cstp/webvpn.rs:1203-1233 [AggregateAuthResponse::classify] *)
Definition classify (r : AggregateAuthResponse) : AggregateAuthType :=
  if bool_decide (is_Some (session_token r)) || bool_decide (is_Some (session_id r)) then Agg_Success
  else if has_host_scan r then HostScan
  else if bool_decide (auth_id r = Some (lit "error")) || bool_decide (is_Some (error_text r)) then Agg_Error
  else if existsb is_challenge_field (fields r) then Challenge
  else
    let has_username := has_field r (lit "username") in
    let has_password := has_field r (lit "password") in
    if has_field r (lit "group_list") && negb has_username && negb has_password then GroupSelect
    else if bool_decide (auth_id r = Some (lit "success")) || bool_decide (root_type r = Some (lit "complete"))
    then Agg_Success
    else AuthRequest.

(** cstp/webvpn.rs:1313-1317 [first_tag]: the element name ends here. *)
Definition name_boundary (rest : str) : bool :=
  match rest with
  | [] => true
  | c :: _ => (c =? GT)%N || (c =? SLASH)%N || is_whitespace c
  end.

(** cstp/webvpn.rs:1305-1324 [first_tag] *)
Definition first_tag_body (open rest : str) : str + option str :=
  match find open rest with
  | None => inr None
  | Some rel =>
      let here := drop rel rest in
      if name_boundary (drop (length open) here)
      then inr ((λ tag_end, take (tag_end + 1) here) <$> find_char GT here)
      else inl (drop (length open) here)
  end.
Definition first_tag (xml name : str) : option str := loop length None (first_tag_body (60%N :: name)) xml.

(** cstp/webvpn.rs:1326-1348 [node_text] *)
Definition node_text_body (open close rest : str) : str + option str :=
  match find open rest with
  | None => inr None
  | Some rel =>
      let here := drop rel rest in
      if negb (name_boundary (drop (length open) here)) then inl (drop (length open) here)
      else inr (open_end ← find_char GT here;
                let inner := drop (open_end + 1) here in
                close_rel ← find close inner;
                Some (xml_unescape (trim (take close_rel inner))))
  end.
Definition node_text (xml name : str) : option str :=
  loop length None (node_text_body (60%N :: name) (lit "</" ++ name ++ [GT])) xml.

(** cstp/webvpn.rs:1350-1381 [input_fields] *)
Definition ends_with (c : N) (s : str) : bool := bool_decide (last s = Some c).
Definition input_body (st : str * list AggregateAuthField)
    : (str * list AggregateAuthField) + list AggregateAuthField :=
  let '(rest, out) := st in
  match find (lit "<input") rest with
  | None => inr out
  | Some rel =>
      let here := drop rel rest in
      match find_char GT here with
      | None => inr out
      | Some tag_end =>
          let tag := take (tag_end + 1) here in
          let inner := drop (tag_end + 1) here in
          match attr_value_ci tag (lit "name") with
          | None => inl (inner, out)
          | Some name =>
              let value := default [] (attr_value_ci tag (lit "value")) in
              let value :=
                if negb (ends_with SLASH (trim_end tag)) && bool_decide (value = [])
                then match find (lit "</input>") inner with
                     | Some close_rel => xml_unescape (trim (take close_rel inner))
                     | None => value
                     end
                else value in
              inl (inner, out ++ [MkAggregateAuthField (trim name) value])
          end
      end
  end.
Definition input_fields (xml : str) : list AggregateAuthField :=
  loop (λ st, length st.1) [] input_body (xml, []).

(** cstp/webvpn.rs:1383-1412 [select_fields] *)
Definition select_body (st : str * list AggregateAuthField)
    : (str * list AggregateAuthField) + list AggregateAuthField :=
  let '(rest, out) := st in
  match find (lit "<select") rest with
  | None => inr out
  | Some rel =>
      let here := drop rel rest in
      match find_char GT here with
      | None => inr out
      | Some tag_end =>
          let tag := take (tag_end + 1) here in
          let inner := drop (tag_end + 1) here in
          match find (lit "</select>") inner with
          | None => inr out
          | Some close_rel =>
              let out :=
                match attr_value_ci tag (lit "name") with
                | Some name =>
                    match selected_option_value (take close_rel inner) with
                    | Some value => out ++ [MkAggregateAuthField (trim name) value]
                    | None => out
                    end
                | None => out
                end in
              inl (drop close_rel inner, out)
          end
      end
  end.
Definition select_fields (xml : str) : list AggregateAuthField :=
  loop (λ st, length st.1) [] select_body (xml, []).

(** cstp/webvpn.rs:1414-1430 [opaque_nodes] *)
Definition opaque_body (st : str * list str) : (str * list str) + list str :=
  let '(rest, nodes) := st in
  match find (lit "<opaque") rest with
  | None => inr nodes
  | Some rel =>
      let here := drop rel rest in
      match find (lit "</opaque>") here with
      | None => inr nodes
      | Some close_rel =>
          let len := close_rel + length (lit "</opaque>") in
          inl (drop len here, nodes ++ [take len here])
      end
  end.
Definition opaque_nodes (xml : str) : list str := loop (λ st, length st.1) [] opaque_body (xml, []).

(** cstp/webvpn.rs:1271-1303 [parse_aggregate_auth_response] *)
Definition parse_aggregate_auth_response (xml : str) : option AggregateAuthResponse :=
  let trimmed := trim xml in
  if bool_decide (trimmed = []) then None
  else
    let lower := to_ascii_lowercase trimmed in
    if contains (lit "<html") lower || negb (contains (lit "<config-auth") lower) then None
    else
      Some {|
        auth_id := tag ← first_tag trimmed (lit "auth"); attr_value_ci tag (lit "id");
        root_type := tag ← first_tag trimmed (lit "config-auth"); attr_value_ci tag (lit "type");
        has_host_scan := contains (lit "<host-scan") lower;
        opaque_xml := opaque_nodes trimmed;
        fields := input_fields trimmed ++ select_fields trimmed;
        session_token := node_text trimmed (lit "session-token");
        session_id := node_text trimmed (lit "session-id");
        error_text := node_text trimmed (lit "error");
      |}.

(** ** Requests *)

(** cstp/webvpn.rs:1530-1543 [percent_encode_into] *)
Definition HEX : list byte := utf8 (lit "0123456789ABCDEF").
Definition hex_digit (n : N) : byte := default x00 (HEX !! N.to_nat n).
Definition is_unreserved (b : byte) : bool :=
  let c := byte_val b in
  is_ascii_alphanumeric c || (c =? 45)%N || (c =? 46)%N || (c =? 95)%N || (c =? 126)%N.
Definition percent_encode_byte (b : byte) : list byte :=
  if is_unreserved b then [b]
  else [x25; hex_digit (N.shiftr (byte_val b) 4); hex_digit (N.land (byte_val b) 0x0f)].
Definition percent_encode (input : list byte) : list byte := input ≫= percent_encode_byte.

(** cstp/webvpn.rs:152-154 [WebvpnCookie] *)
Record WebvpnCookie := MkWebvpnCookie { cookie_text : str }.
(** cstp/webvpn.rs:122-133 [LoginSession] *)
Record LoginSession := MkLoginSession { cookie : WebvpnCookie; saml_detected : bool }.

(** cstp/webvpn.rs:1476-1500 [build_connect_request] *)
Definition protocol_line : str :=
  qlit "X-CSTP-Protocol: `Copyright (c) 2004 Cisco Systems, Inc.`" ++ crlf.
Definition build_connect_request (host : str) (session : LoginSession) : list byte :=
  utf8 (lit "CONNECT /CSCOSSLC/tunnel HTTP/1.1" ++ crlf
        ++ lit "Host: " ++ host ++ crlf
        ++ lit "Cookie: webvpn=" ++ cookie_text (cookie session) ++ crlf
        ++ lit "X-CSTP-Version: 1" ++ crlf
        ++ lit "X-CSTP-Hostname: " ++ host ++ crlf
        ++ protocol_line ++ crlf).

(** cstp/webvpn.rs:1502-1528 [build_connect_request_with_user_agent] *)
Definition build_connect_request_with_user_agent (host : str) (session : LoginSession) (user_agent : str)
    : list byte :=
  utf8 (lit "CONNECT /CSCOSSLC/tunnel HTTP/1.1" ++ crlf
        ++ lit "Host: " ++ host ++ crlf
        ++ lit "User-Agent: " ++ user_agent ++ crlf
        ++ lit "Cookie: webvpn=" ++ cookie_text (cookie session) ++ crlf
        ++ lit "X-CSTP-Version: 1" ++ crlf
        ++ lit "X-CSTP-Hostname: " ++ host ++ crlf
        ++ protocol_line ++ crlf).

(** cstp/webvpn.rs:1059-1080 [build_aggregate_auth_init_xml] *)
Definition xml_line (s : string) : str := qlit s ++ [LF].
Definition build_aggregate_auth_init_xml (host user_agent : str) : str :=
  xml_line "<?xml version=`1.0` encoding=`UTF-8`?>"
  ++ xml_line "<config-auth client=`vpn` type=`init` aggregate-auth-version=`2`>"
  ++ qlit "  <version who=`vpn`>" ++ xml_escape user_agent ++ xml_line "</version>"
  ++ xml_line "  <device-id>exv-native</device-id>"
  ++ lit "  <group-access>https://" ++ xml_escape host ++ xml_line "/</group-access>"
  ++ xml_line "  <capabilities>"
  ++ xml_line "    <auth-method>single-sign-on-v2</auth-method>"
  ++ xml_line "  </capabilities>"
  ++ lit "</config-auth>".

(** cstp/webvpn.rs:1082-1130 [build_aggregate_auth_reply_xml] *)
Definition build_aggregate_auth_reply_xml (user_agent : str) (opaques : list str)
    (username password : list byte) (group : str) : str :=
  xml_line "<?xml version=`1.0` encoding=`UTF-8`?>"
  ++ xml_line "<config-auth client=`vpn` type=`auth-reply` aggregate-auth-version=`2`>"
  ++ qlit "  <version who=`vpn`>" ++ xml_escape user_agent ++ xml_line "</version>"
  ++ xml_line "  <device-id>exv-native</device-id>"
  ++ xml_line "  <capabilities>"
  ++ xml_line "    <auth-method>single-sign-on-v2</auth-method>"
  ++ xml_line "  </capabilities>"
  ++ (opaques ≫= λ o, lit "  " ++ o ++ [LF])
  ++ xml_line "  <auth>"
  ++ (if bool_decide (username = []) then []
      else lit "    <username>" ++ xml_escape (from_utf8_lossy username) ++ xml_line "</username>")
  ++ (if bool_decide (password = []) then []
      else lit "    <password>" ++ xml_escape (from_utf8_lossy password) ++ xml_line "</password>")
  ++ xml_line "  </auth>"
  ++ (if bool_decide (group = []) then []
      else lit "  <group-select>" ++ xml_escape group ++ xml_line "</group-select>")
  ++ lit "</config-auth>".

(** ** Escaping *)

(** The text in which only the characters of [S] are still escaped. *)
Definition escape_only (S : list N) (s : str) : str :=
  s ≫= λ c, if bool_decide (c ∈ S) then xml_escape_char c else [c].

(** A text is passed over when the pattern starts with an ampersand and does not occur. *)
Lemma replace_over p q t s :
  Forall (λ c, c ≠ 38%N) t → replace (38%N :: p) q (t ++ s) = t ++ replace (38%N :: p) q s.
Proof.
  induction 1 as [|c t Hc _ IH]; [done|]. cbn [app]. rewrite replace_skip; [by rewrite IH|done|].
  cbn [starts_with]. by rewrite (proj2 (N.eqb_neq _ _)).
Qed.

(** One replacement undoes the escape of one character. *)
Lemma replace_undoes e S p :
  e ∉ S → xml_escape_char e = 38%N :: p → e = 38%N ∨ 38%N ∈ S →
  (∀ c, c ∈ S → ∃ t, xml_escape_char c = 38%N :: t ∧ Forall (λ d, d ≠ 38%N) t ∧
     ∀ s, starts_with p (t ++ s) = false) →
  ∀ s, replace (38%N :: p) [e] (escape_only (e :: S) s) = escape_only S s.
Proof.
  intros He Hp Hamp HS. unfold escape_only. induction s as [|c s IH]; [by apply replace_nil|].
  cbn [mbind list_bind]. destruct (decide (c = e)) as [->|Hce].
  - rewrite bool_decide_true by set_solver. rewrite (bool_decide_false (e ∈ S)) by done.
    rewrite Hp, replace_here by done. cbn [app]. by f_equal.
  - destruct (decide (c ∈ S)) as [Hc|Hc].
    + rewrite !bool_decide_true by set_solver. destruct (HS c Hc) as (t & -> & Ht & Hs).
      cbn [app]. rewrite replace_skip; [|done|].
      * rewrite replace_over by done. by rewrite IH.
      * cbn [starts_with]. by rewrite N.eqb_refl, Hs.
    + rewrite !bool_decide_false by set_solver. cbn [app].
      rewrite replace_skip; [by rewrite IH|done|]. cbn [starts_with].
      rewrite (proj2 (N.eqb_neq 38 c)); [done|]. destruct Hamp as [->|Hamp]; [done|]. set_solver.
Qed.

Lemma escape_only_all s : xml_escape s = escape_only [34; 39; 60; 62; 38]%N s.
Proof.
  unfold xml_escape, escape_only. induction s as [|c s IH]; [done|]. cbn [mbind list_bind]. rewrite IH.
  case_bool_decide as H; [done|]. unfold xml_escape_char. rewrite !not_elem_of_cons in H.
  destruct H as (H1 & H2 & H3 & H4 & H5 & _). by rewrite !(proj2 (N.eqb_neq _ _)).
Qed.
Lemma escape_only_none s : escape_only [] s = s.
Proof. unfold escape_only. induction s as [|c s IH]; [done|]. cbn [mbind list_bind]. by rewrite IH. Qed.

(** The side conditions of a stage, by computation. *)
Ltac stage :=
  first [reflexivity | by left | by (right; set_solver)
        | by (rewrite ?not_elem_of_cons; split_and?; (discriminate || apply not_elem_of_nil))
        | let c := fresh "c" in let Hc := fresh in intros c Hc;
          repeat (apply elem_of_cons in Hc as [->|Hc];
            [eexists; split_and!; [reflexivity|repeat constructor; discriminate|reflexivity]|]);
          by apply elem_of_nil in Hc].

(** Unescaping an escaped text gives the text back. *)
Lemma unescape_escape s : xml_unescape (xml_escape s) = s.
Proof.
  rewrite escape_only_all. unfold xml_unescape. cbn [foldl].
  rewrite (replace_undoes 34 [39; 60; 62; 38]%N (lit "quot;")) by stage.
  rewrite (replace_undoes 39 [60; 62; 38]%N (lit "apos;")) by stage.
  rewrite (replace_undoes 60 [62; 38]%N (lit "lt;")) by stage.
  rewrite (replace_undoes 62 [38]%N (lit "gt;")) by stage.
  rewrite (replace_undoes 38 [] (lit "amp;")) by stage.
  apply escape_only_none.
Qed.

(** No markup survives escaping. *)
Definition is_markup (c : N) : bool := (c =? 60)%N || (c =? 62)%N || (c =? 34)%N || (c =? 39)%N.
Lemma escape_no_markup s : Forall (λ c, is_markup c = false) (xml_escape s).
Proof.
  unfold xml_escape. induction s as [|c s IH]; [constructor|]. cbn [mbind list_bind].
  apply Forall_app. split; [|done]. unfold xml_escape_char, is_markup.
  destruct (N.eqb_spec c 38); [by repeat constructor|]. destruct (N.eqb_spec c 60); [by repeat constructor|].
  destruct (N.eqb_spec c 62); [by repeat constructor|]. destruct (N.eqb_spec c 34); [by repeat constructor|].
  destruct (N.eqb_spec c 39); [by repeat constructor|]. apply Forall_singleton.
  by rewrite !(proj2 (N.eqb_neq _ _)).
Qed.
Lemma escape_fresh c s : is_markup c = true → c ∉ xml_escape s.
Proof.
  intros Hc Hin. pose proof (escape_no_markup s) as H. rewrite Forall_forall in H.
  apply H in Hin. congruence.
Qed.

(** ** Elements *)

Lemma drop_from_lt p s i n : p ≠ [] → find p s = Some i → length p ≤ n → length (drop n (drop i s)) < length s.
Proof. intros Hp H Hn. apply find_bound in H. rewrite !length_drop. destruct p; [done|]. simpl in *. lia. Qed.

(** The raw content of the first element of a name: [node_text] before it is trimmed and
    unescaped. *)
Definition content_body (open close rest : str) : str + option str :=
  match from open rest with
  | None => inr None
  | Some here =>
      if negb (name_boundary (drop (length open) here)) then inl (drop (length open) here)
      else inr (open_end ← find_char GT here;
                let inner := drop (open_end + 1) here in
                close_rel ← find close inner; Some (take close_rel inner))
  end.
Definition node_content (xml name : str) : option str :=
  loop length None (content_body (60%N :: name) (lit "</" ++ name ++ [GT])) xml.

Lemma from_drop_lt p s here n : p ≠ [] → from p s = Some here → length p ≤ n → length (drop n here) < length s.
Proof. intros Hp H Hn. rewrite from_find in H. apply fmap_Some in H as (i & Hi & ->). by eapply drop_from_lt. Qed.
Lemma content_decreases open close rest rest' :
  open ≠ [] → content_body open close rest = inl rest' → length rest' < length rest.
Proof.
  intros Ho. unfold content_body. destruct (from open rest) as [here|] eqn:E; [|done].
  destruct (name_boundary _); [done|]. intros [= <-]. by eapply from_drop_lt.
Qed.
Lemma node_text_content xml name : node_text xml name = (λ t, xml_unescape (trim t)) <$> node_content xml name.
Proof.
  unfold node_text, node_content.
  set (open := 60%N :: name). set (close := lit "</" ++ name ++ [GT]).
  assert (Hd : ∀ s s', node_text_body open close s = inl s' → length s' < length s).
  { intros s s'. unfold node_text_body. destruct (find open s) as [i|] eqn:E; [|done].
    destruct (name_boundary _); [done|]. intros [= <-].
    by apply (drop_from_lt open s i). }
  revert xml. apply (loop_ind _ _ _ Hd (λ xml r, r = (λ t, xml_unescape (trim t)) <$> _)).
  intros xml. rewrite (loop_eq _ _ _ (λ s s', content_decreases open close s s' ltac:(done))).
  unfold node_text_body, content_body. rewrite from_find.
  destruct (find open xml) as [i|]; [|done]. simpl. destruct (name_boundary _); simpl; [|done].
  destruct (find_char GT _); [|done]. simpl. by destruct (find close _).
Qed.

(** Where an element starts. *)
Lemma node_content_eq xml name :
  node_content xml name
  = match from (60%N :: name) xml with
    | None => None
    | Some here =>
        if negb (name_boundary (drop (length (60%N :: name)) here))
        then node_content (drop (length (60%N :: name)) here) name
        else open_end ← find_char GT here;
             let inner := drop (open_end + 1) here in
             close_rel ← find (lit "</" ++ name ++ [GT]) inner; Some (take close_rel inner)
    end.
Proof.
  unfold node_content at 1.
  rewrite (loop_eq _ _ _ (λ s s', content_decreases (60%N :: name) _ s s' ltac:(done))).
  unfold content_body. destruct (from (60%N :: name) xml) as [here|]; [|done].
  by destruct (negb (name_boundary _)).
Qed.

(** The content of an element that has no markup inside. *)
Lemma node_content_here xml name inner post :
  GT ∉ name → 60%N ∉ inner →
  from (60%N :: name) xml = Some ((60%N :: name) ++ [GT] ++ inner ++ lit "</" ++ name ++ [GT] ++ post) →
  node_content xml name = Some inner.
Proof.
  intros Hn Hi H. rewrite node_content_eq, H. rewrite drop_app_length. cbn [negb name_boundary app].
  cbv zeta. rewrite N.eqb_refl. cbn [orb negb].
  assert (Hgt : find_char GT (60%N :: name ++ GT :: inner ++ lit "</" ++ name ++ GT :: post) = Some (length (60%N :: name))).
  { apply (find_if_app _ (60%N :: name)); [|apply N.eqb_refl]. constructor; [done|by apply fresh_not_char]. }
  rewrite Hgt. cbn [mbind option_bind]. rewrite Nat.add_1_r.
  assert (Hd : drop (S (length (60%N :: name))) (60%N :: name ++ GT :: inner ++ lit "</" ++ name ++ GT :: post)
    = inner ++ lit "</" ++ name ++ GT :: post).
  { cbn [length drop]. rewrite <-Nat.add_1_r, <-drop_drop, drop_app_length. done. }
  rewrite Hd. change (lit "</" ++ name ++ [GT]) with (60%N :: (SLASH :: name ++ [GT])).
  rewrite find_fresh_prefix by done.
  assert (Hf : find (60%N :: SLASH :: name ++ [GT]) (lit "</" ++ name ++ GT :: post) = Some 0).
  { apply find_Some. split_and!; [|lia|lia]. apply starts_with_spec. exists post.
    simpl. by rewrite <-app_assoc. }
  rewrite Hf. cbn [fmap option_fmap option_map mbind option_bind]. by rewrite Nat.add_0_r, take_app_length.
Qed.

(** ** The reply document *)

Lemma from_escaped p v s : from (60%N :: p) (xml_escape v ++ s) = from (60%N :: p) s.
Proof. apply from_fresh, escape_fresh. done. Qed.

(** An element of the document is passed over by a search for another one. *)
Lemma from_opaques p os s :
  60%N :: p ≠ [] → LF ∉ (60%N :: p) → 32%N ∉ (60%N :: p) → Forall (λ o, find (60%N :: p) o = None) os →
  from (60%N :: p) ((os ≫= λ o, lit "  " ++ o ++ [LF]) ++ s) = from (60%N :: p) s.
Proof.
  intros Hp Hlf Hsp. induction 1 as [|o os Ho _ IH]; [done|]. cbn [mbind list_bind].
  rewrite <-!app_assoc. rewrite from_fresh by by apply (bool_decide_unpack _).
  cbn [app]. rewrite (from_separated _ o LF) by done.
  rewrite <-IH. apply (from_fresh 60%N p [LF]). apply not_elem_of_cons. split; [done|apply not_elem_of_nil].
Qed.

Ltac skip_to :=
  repeat first [rewrite from_escaped | rewrite from_avoids by (vm_compute; reflexivity)].

Section reply.
Context (user_agent : str) (opaques : list str) (username password : list byte) (group : str).
Let reply := build_aggregate_auth_reply_xml user_agent opaques username password group.

(** The gateway's elements do not contain an element of the reply. *)
Definition opaques_apart (name : str) : Prop := Forall (λ o, find (60%N :: name) o = None) opaques.

Lemma from_opaques_apart name s :
  LF ∉ name → 32%N ∉ name → opaques_apart name →
  from (60%N :: name) ((opaques ≫= λ o, lit "  " ++ o ++ [LF]) ++ s) = from (60%N :: name) s.
Proof. intros H1 H2 H3. by apply from_opaques; [|apply not_elem_of_cons..|]. Qed.

Lemma reply_username :
  username ≠ [] → opaques_apart (lit "username") →
  node_content reply (lit "username") = Some (xml_escape (from_utf8_lossy username)).
Proof.
  intros Hu Ho. eapply node_content_here; [by apply (bool_decide_unpack _)|by apply escape_fresh|].
  unfold reply, build_aggregate_auth_reply_xml. rewrite bool_decide_false by done. skip_to.
  rewrite from_opaques_apart by (done || by apply (bool_decide_unpack _)). skip_to.
  rewrite <-!app_assoc. change (lit "    <username>") with (lit "    " ++ 60%N :: lit "username" ++ [GT]).
  rewrite <-app_assoc, from_avoids by (vm_compute; reflexivity).
  rewrite app_comm_cons, <-app_assoc, from_here. reflexivity.
Qed.
Lemma reply_password :
  password ≠ [] → opaques_apart (lit "password") →
  node_content reply (lit "password") = Some (xml_escape (from_utf8_lossy password)).
Proof.
  intros Hu Ho. eapply node_content_here; [by apply (bool_decide_unpack _)|by apply escape_fresh|].
  unfold reply, build_aggregate_auth_reply_xml. rewrite (bool_decide_false (password = [])) by done. skip_to.
  rewrite from_opaques_apart by (done || by apply (bool_decide_unpack _)). skip_to.
  case_bool_decide; rewrite <-?app_assoc; skip_to.
  all: rewrite <-?app_assoc; change (lit "    <password>") with (lit "    " ++ 60%N :: lit "password" ++ [GT]).
  all: rewrite <-app_assoc, from_avoids by (vm_compute; reflexivity).
  all: rewrite app_comm_cons, <-app_assoc, from_here; reflexivity.
Qed.
Lemma reply_group :
  group ≠ [] → opaques_apart (lit "group-select") →
  node_content reply (lit "group-select") = Some (xml_escape group).
Proof.
  intros Hu Ho. eapply node_content_here; [by apply (bool_decide_unpack _)|by apply escape_fresh|].
  unfold reply, build_aggregate_auth_reply_xml. rewrite (bool_decide_false (group = [])) by done. skip_to.
  rewrite from_opaques_apart by (done || by apply (bool_decide_unpack _)). skip_to.
  repeat case_bool_decide; rewrite <-?app_assoc; skip_to; rewrite <-?app_assoc; skip_to.
  all: rewrite <-?app_assoc; change (lit "  <group-select>") with (lit "  " ++ 60%N :: lit "group-select" ++ [GT]).
  all: rewrite <-app_assoc, from_avoids by (vm_compute; reflexivity).
  all: rewrite app_comm_cons, <-app_assoc, from_here; reflexivity.
Qed.
End reply.

(** ** The gateway's opaque elements *)

Definition opaque_close : str := lit "</opaque>".

Lemma opaque_decreases st st' : opaque_body st = inl st' → length st'.1 < length st.1.
Proof.
  destruct st as [rest nodes]. unfold opaque_body.
  destruct (find (lit "<opaque") rest) as [rel|] eqn:E; [|done].
  destruct (find (lit "</opaque>") _) as [c|] eqn:E2; [|done]. intros [= <-]. cbn [fst].
  by apply (drop_from_lt (lit "<opaque") rest rel); [| |vm_compute length; lia].
Qed.

Lemma opaque_out nodes : ∀ rest,
  loop (λ st : str * list str, length st.1) [] opaque_body (rest, nodes) = nodes ++ opaque_nodes rest.
Proof.
  intros rest. unfold opaque_nodes. remember (length rest) as n eqn:Hn. revert nodes rest Hn.
  induction (lt_wf n) as [n _ IH]. intros nodes rest ->.
  rewrite !(loop_eq _ _ _ opaque_decreases (rest, _)).
  destruct (opaque_body (rest, nodes)) as [[r ns]|ns] eqn:E.
  - pose proof (opaque_decreases _ _ E) as Hlt. revert E. unfold opaque_body.
    destruct (find (lit "<opaque") rest) as [rel|]; [|done].
    destruct (find (lit "</opaque>") _) as [c|]; [|done]. intros [= <- <-]. cbn [fst] in Hlt.
    rewrite (IH _ Hlt) by done. rewrite (IH _ Hlt ([] ++ _)) by done. by rewrite <-app_assoc.
  - revert E. unfold opaque_body. destruct (find (lit "<opaque") rest) as [rel|]; [|intros [= <-]; by rewrite app_nil_r].
    destruct (find (lit "</opaque>") _) as [c|]; [done|]. intros [= <-]. by rewrite app_nil_r.
Qed.

Lemma opaque_nodes_eq xml :
  opaque_nodes xml
  = match from (lit "<opaque") xml with
    | None => []
    | Some here =>
        match find opaque_close here with
        | None => []
        | Some c => take (c + length opaque_close) here :: opaque_nodes (drop (c + length opaque_close) here)
        end
    end.
Proof.
  unfold opaque_nodes at 1. rewrite (loop_eq _ _ _ opaque_decreases). rewrite from_find. unfold opaque_body.
  destruct (find (lit "<opaque") xml) as [rel|]; [|done]. cbn [fmap option_fmap option_map].
  unfold opaque_close. destruct (find (lit "</opaque>") _) as [c|]; [|done]. by rewrite opaque_out.
Qed.

(** An element as the search delimits it. *)
Definition opaque_ok (o : str) : Prop :=
  starts_with (lit "<opaque") o = true ∧ find opaque_close o = Some (length o - length opaque_close) ∧
  length opaque_close ≤ length o.

Lemma opaque_nodes_ok xml : Forall opaque_ok (opaque_nodes xml).
Proof.
  remember (length xml) as n eqn:Hn. revert xml Hn. induction (lt_wf n) as [n _ IH]. intros xml ->.
  rewrite opaque_nodes_eq. destruct (from (lit "<opaque") xml) as [here|] eqn:E; [|constructor].
  destruct (find opaque_close here) as [c|] eqn:Ec; [|constructor].
  pose proof (find_bound _ _ _ Ec) as Hb. constructor.
  - unfold opaque_ok. rewrite length_take_le by done. split_and!; [|rewrite Nat.add_sub|lia].
    + rewrite from_find in E. apply fmap_Some in E as (i & (Hi & _)%find_Some & ->).
      apply starts_with_spec in Hi as [t Ht]. rewrite Ht. apply starts_with_spec.
      rewrite take_app_ge by (vm_compute length; lia). eauto.
    + apply find_prefix with (t := drop (c + length opaque_close) here); [by rewrite take_drop|].
      by rewrite length_take_le.
  - eapply IH; [|done]. eapply from_drop_lt; [|exact E|]; [done|vm_compute length; lia].
Qed.

(** The next element of a document. *)
Lemma opaque_nodes_cons o xml s :
  opaque_ok o → from (lit "<opaque") xml = Some (o ++ s) → opaque_nodes xml = o :: opaque_nodes s.
Proof.
  intros (_ & Hf & Hl) E. rewrite opaque_nodes_eq, E, (find_app_l _ _ s _ Hf).
  replace (length o - length opaque_close + length opaque_close) with (length o) by lia.
  by rewrite take_app_length, drop_app_length.
Qed.
Lemma from_opaque o s : opaque_ok o → from (lit "<opaque") (o ++ s) = Some (o ++ s).
Proof. intros ([t ->]%starts_with_spec & _). rewrite <-app_assoc. apply from_here. Qed.

Lemma opaque_nodes_from xml s : from (lit "<opaque") xml = from (lit "<opaque") s → opaque_nodes xml = opaque_nodes s.
Proof. intros E. by rewrite opaque_nodes_eq, E, <-opaque_nodes_eq. Qed.

Lemma opaque_nodes_list os s :
  Forall opaque_ok os → from (lit "<opaque") s = None →
  opaque_nodes ((os ≫= λ o, lit "  " ++ o ++ [LF]) ++ s) = os.
Proof.
  intros H Hs. induction H as [|o os Ho _ IH]; [rewrite opaque_nodes_eq; cbn [mbind list_bind app]; by rewrite Hs|].
  cbn [mbind list_bind]. rewrite <-!app_assoc. 
  rewrite (opaque_nodes_cons o _ ([LF] ++ (os ≫= λ o, lit "  " ++ o ++ [LF]) ++ s)); [|done|].
  - f_equal. etransitivity; [|exact IH]. apply opaque_nodes_from. apply (from_avoids _ [LF]). done.
  - rewrite (from_avoids _ (lit "  ")) by done. by apply from_opaque.
Qed.

Lemma reply_opaques user_agent os username password group :
  Forall opaque_ok os → opaque_nodes (build_aggregate_auth_reply_xml user_agent os username password group) = os.
Proof.
  intros H. erewrite opaque_nodes_from; [apply (opaque_nodes_list os)|]; [done| |].
  2:{ unfold build_aggregate_auth_reply_xml. change (lit "<opaque") with (60%N :: lit "opaque"). skip_to. reflexivity. }
  repeat case_bool_decide; change (lit "<opaque") with (60%N :: lit "opaque"); cbn [app];
    repeat (rewrite <-?app_assoc; progress skip_to); vm_compute; reflexivity.
Qed.

(** The reply to the gateway carries exactly what it must: the opaque elements of the
    request unchanged and in order, and the username and the password, whatever
    characters they contain, as the text of their elements; nothing in a credential can
    end its element or add another. *)
Theorem reply_roundtrip request user_agent username password group :
  username ≠ [] → password ≠ [] →
  opaques_apart (opaque_nodes request) (lit "username") → opaques_apart (opaque_nodes request) (lit "password") →
  let reply := build_aggregate_auth_reply_xml user_agent (opaque_nodes request) username password group in
  opaque_nodes reply = opaque_nodes request ∧
  xml_unescape <$> node_content reply (lit "username") = Some (from_utf8_lossy username) ∧
  xml_unescape <$> node_content reply (lit "password") = Some (from_utf8_lossy password).
Proof.
  intros Hu Hp Au Ap reply. split; [apply reply_opaques, opaque_nodes_ok|]. unfold reply.
  rewrite reply_username, reply_password by done. simpl. by rewrite !unescape_escape.
Qed.

Definition sample_request : str :=
  qlit "<config-auth type=`auth-request`><opaque is-for=`sg`><h>1</h></opaque><auth id=`main`></auth></config-auth>".
Lemma reply_roundtrip_witness :
  opaque_nodes sample_request = [qlit "<opaque is-for=`sg`><h>1</h></opaque>"] ∧
  xml_unescape <$> node_content (build_aggregate_auth_reply_xml (lit "AnyConnect") (opaque_nodes sample_request)
      (utf8 (lit "u")) (utf8 (lit "a</password><x>&lt;")) []) (lit "password")
  = Some (lit "a</password><x>&lt;").
Proof.
  assert (E : opaque_nodes sample_request = [qlit "<opaque is-for=`sg`><h>1</h></opaque>"])
    by (vm_compute; reflexivity).
  split; [exact E|].
  apply (reply_roundtrip sample_request (lit "AnyConnect") (utf8 (lit "u")) (utf8 (lit "a</password><x>&lt;")) []);
    [done|done|rewrite E; apply Forall_singleton; vm_compute; reflexivity..].
Defined.

(** ** The logon page *)

(** The first attribute of that name decides, when it is not part of a longer name. *)
Lemma attr_value_here a name v rest idx :
  find name (to_ascii_lowercase a) = Some idx → length a = idx + length name + 1 → last a = Some 61%N →
  preceded_by_word_char (to_ascii_lowercase a) idx = false → name ≠ [] → QUOTE ∉ v →
  attr_value_ci (a ++ QUOTE :: v ++ QUOTE :: rest) name = Some v.
Proof.
  intros Hf Hl Ha Hw Hne Hq. unfold attr_value_ci.
  set (tag := a ++ QUOTE :: v ++ QUOTE :: rest). set (lower := to_ascii_lowercase tag).
  assert (El : lower = to_ascii_lowercase a ++ to_ascii_lowercase (QUOTE :: v ++ QUOTE :: rest))
    by (unfold lower, tag, to_ascii_lowercase; apply fmap_app).
  assert (Hla : length (to_ascii_lowercase a) = length a) by apply length_fmap.
  assert (Hbody : attr_value_body tag name lower 0 = inr (Some v)).
  { unfold attr_value_body. rewrite drop_0, El, (find_app_l _ _ _ _ Hf). cbn [plus].
    assert (Hp : preceded_by_word_char (to_ascii_lowercase a ++ to_ascii_lowercase (QUOTE :: v ++ QUOTE :: rest)) idx = false).
    { revert Hw. unfold preceded_by_word_char. destruct idx as [|i]; [done|].
      by rewrite lookup_app_l by lia. }
    rewrite Hp, bool_decide_true.
    - cbn [negb andb]. do 2 f_equal. unfold tag. rewrite <-Hl, drop_app_length. unfold attr_text.
      change (QUOTE :: v ++ QUOTE :: rest) with ([QUOTE] ++ v ++ QUOTE :: rest).
      rewrite strip_prefix_app. unfold before. rewrite find_fresh_prefix by done. cbn [find starts_with].
      rewrite N.eqb_refl. cbn. by rewrite Nat.add_0_r, take_app_length.
    - rewrite lookup_app_l by lia. unfold to_ascii_lowercase. rewrite list_lookup_fmap.
      rewrite last_lookup in Ha. replace (idx + length name) with (pred (length a)) by lia. by rewrite Ha. }
  unfold loop. cbn [plus iterate]. by rewrite Hbody.
Qed.

(** A tag whose text after its name has no angle bracket. *)
Lemma next_tag_here open attrs rest : GT ∉ attrs →
  next_tag (60%N :: open) ((60%N :: open) ++ attrs ++ GT :: rest)
  = Some ((60%N :: open) ++ attrs ++ GT :: rest, Some ((60%N :: open) ++ attrs ++ [GT]), attrs ++ GT :: rest).
Proof.
  intros Ha. unfold next_tag. set (p := 60%N :: open).
  assert (Hf : find p (p ++ attrs ++ GT :: rest) = Some 0).
  { apply find_Some. split_and!; [apply starts_with_app|lia|lia]. }
  rewrite Hf. cbn [mbind option_bind]. rewrite drop_0, drop_app_length.
  unfold find_char. rewrite find_if_app by (by apply fresh_not_char || apply N.eqb_refl). simpl fmap.
  do 4 f_equal. rewrite <-Nat.add_assoc, take_app_add'; [|done].
  f_equal. rewrite take_app_add'; done.
Qed.
Lemma next_tag_from open s t : from open s = from open t → next_tag open s = next_tag open t.
Proof.
  rewrite !from_find. unfold next_tag. destruct (find open s), (find open t); simpl; try done. by intros [= ->].
Qed.

Lemma has_attr_here a name rest idx c :
  find name (to_ascii_lowercase a) = Some idx → to_ascii_lowercase a !! (idx + length name) = Some c →
  ends_attr_name c = true → preceded_by_word_char (to_ascii_lowercase a) idx = false →
  has_attr_ci (a ++ rest) name = true.
Proof.
  intros Hf Hl Hc Hw. unfold has_attr_ci. unfold to_ascii_lowercase. rewrite fmap_app. fold to_ascii_lowercase.
  change (fmap char_lower a) with (to_ascii_lowercase a).
  unfold loop. cbn [plus iterate]. unfold has_attr_body at 1. rewrite drop_0, (find_app_l _ _ _ _ Hf). cbn [plus].
  rewrite lookup_app_l by (by eapply lookup_lt_Some). rewrite Hl, Hc.
  assert (Hp : preceded_by_word_char (to_ascii_lowercase a ++ fmap char_lower rest) idx = false).
  { revert Hw. unfold preceded_by_word_char. destruct idx as [|i]; [done|].
    apply lookup_lt_Some in Hl. by rewrite lookup_app_l by lia. }
  by rewrite Hp.
Qed.

Lemma next_tag_lt open rest here tag tail :
  open ≠ [] → next_tag open rest = Some (here, tag, tail) → length tail < length rest.
Proof.
  intros Ho. unfold next_tag. destruct (find open rest) as [i|] eqn:E; [|done]. intros [= <- _ <-].
  by apply (drop_from_lt open rest i).
Qed.
Lemma inputs_decreases st st' : inputs_body st = inl st' → length st'.1 < length st.1.
Proof.
  destruct st as [rest form]. unfold inputs_body.
  destruct (next_tag (lit "<input") rest) as [[[here [tag|]] tail]|] eqn:E; [|done|done].
  intros [= <-]. by eapply next_tag_lt in E.
Qed.
Lemma action_decreases rest rest' : action_body rest = inl rest' → length rest' < length rest.
Proof.
  unfold action_body. destruct (next_tag (lit "<form") rest) as [[[here [tag|]] tail]|] eqn:E; [|done|done].
  destruct (attr_value_ci _ _); [done|]. intros [= <-]. by eapply next_tag_lt in E.
Qed.
Lemma group_list_decreases rest rest' : group_list_body rest = inl rest' → length rest' < length rest.
Proof.
  unfold group_list_body. destruct (next_tag (lit "<select") rest) as [[[here [tag|]] tail]|] eqn:E; [|done|done].
  destruct (match attr_value_ci tag (lit "name") with Some _ => _ | None => _ end);
    [by destruct (find _ _)|]. intros [= <-]. by eapply next_tag_lt in E.
Qed.
Lemma option_decreases st st' : option_body st = inl st' → length st'.1 < length st.1.
Proof.
  destruct st as [rest first]. unfold option_body.
  destruct (next_tag (lit "<option") rest) as [[[here [tag|]] tail]|] eqn:E; [|done|done].
  destruct (has_attr_ci _ _); [done|]. intros [= <-]. by eapply next_tag_lt in E.
Qed.

(** The fields found in what is left of a page. *)
Definition scan_inputs (rest : str) (form : LoginForm) : LoginForm :=
  loop (λ st : str * LoginForm, length st.1) empty_form inputs_body (rest, form).
Lemma scan_inputs_from s t form : from (lit "<input") s = from (lit "<input") t → scan_inputs s form = scan_inputs t form.
Proof.
  intros E. unfold scan_inputs. rewrite !(loop_eq _ _ _ inputs_decreases). unfold inputs_body.
  by rewrite (next_tag_from _ _ _ E).
Qed.

(** A value as a page can carry it between double quotes. *)
Definition value_ok (v : str) : Prop := (QUOTE ∉ v) ∧ (GT ∉ v) ∧ (60%N ∉ v).
Definition hidden (name v : str) : str :=
  qlit "<input type=`hidden` name=`" ++ name ++ qlit "` value=`" ++ v ++ [QUOTE; GT].

(** The tag of a hidden field, whose name the page fixes. *)
Definition hidden_name_ok (name : str) : Prop :=
  (QUOTE ∉ name) ∧ (GT ∉ name) ∧ (60%N ∉ name) ∧ trim name = name ∧
  let a := qlit "<input type=`hidden` name=`" ++ name ++ qlit "` value=" in
  match find (lit "value") (to_ascii_lowercase a) with
  | Some idx => length a = idx + 6 ∧ preceded_by_word_char (to_ascii_lowercase a) idx = false
  | None => False
  end.

Lemma scan_hidden name v s form :
  hidden_name_ok name → value_ok v → scan_inputs (hidden name v ++ s) form = scan_inputs s (set_field name v form).
Proof.
  intros (Nq & Ng & Nl & Nt & Na) (Vq & Vg & Vl).
  set (attrs := qlit " type=`hidden` name=`" ++ name ++ qlit "` value=`" ++ v ++ [QUOTE]).
  assert (E : hidden name v ++ s = (60%N :: lit "input") ++ attrs ++ GT :: s).
  { unfold hidden, attrs. rewrite <-!app_assoc. reflexivity. }
  assert (Hg : ∀ c, c ∉ name → c ∉ v → c ∉ qlit " type=`hidden` name=`" → c ∉ qlit "` value=`" → c ∉ [QUOTE] → c ∉ attrs).
  { intros c H1 H2 H3 H4 H5. unfold attrs. rewrite !elem_of_app. tauto. }
  rewrite E. unfold scan_inputs at 1. rewrite (loop_eq _ _ _ inputs_decreases). unfold inputs_body.
  change (lit "<input") with (60%N :: lit "input").
  rewrite next_tag_here by (apply Hg; [assumption|assumption|by apply (bool_decide_unpack _)..]).
  assert (Hn : attr_value_ci ((60%N :: lit "input") ++ attrs ++ [GT]) (lit "name") = Some name).
  { replace ((60%N :: lit "input") ++ attrs ++ [GT])
      with (qlit "<input type=`hidden` name=" ++ QUOTE :: name ++ QUOTE :: (qlit " value=`" ++ v ++ [QUOTE; GT]))
      by (unfold attrs; rewrite <-!app_assoc; reflexivity).
    apply (attr_value_here _ _ _ _ 21);
      [vm_compute; reflexivity|vm_compute; reflexivity|vm_compute; reflexivity|vm_compute; reflexivity|discriminate|assumption]. }
  assert (Hv : attr_value_ci ((60%N :: lit "input") ++ attrs ++ [GT]) (lit "value") = Some v).
  { cbv zeta in Na. set (a := qlit "<input type=`hidden` name=`" ++ name ++ qlit "` value=") in Na.
    replace ((60%N :: lit "input") ++ attrs ++ [GT]) with (a ++ QUOTE :: v ++ QUOTE :: [GT])
      by (unfold attrs, a; rewrite <-!app_assoc; reflexivity).
    destruct (find (lit "value") (to_ascii_lowercase a)) as [idx|] eqn:Ef; [|contradiction]. destruct Na as [Nlen Nw].
    apply (attr_value_here _ _ _ _ idx); [exact Ef| | |exact Nw|discriminate|assumption].
    - rewrite Nlen. change (length (lit "value")) with 5. lia.
    - unfold a. rewrite app_assoc. change (qlit "` value=") with (qlit "` value" ++ [61%N]). rewrite app_assoc. apply last_snoc. }
  rewrite Hn, Hv, Nt. cbn [default]. apply scan_inputs_from.
  change (lit "<input") with (60%N :: lit "input").
  rewrite from_fresh by (apply Hg; [assumption|assumption|by apply (bool_decide_unpack _)..]).
  change (GT :: s) with ([GT] ++ s). apply from_fresh. by apply (bool_decide_unpack _).
Qed.

(** The page the gateway serves: a form with its action, the four hidden fields and the
    group list with the group selected. *)
Definition group_options (group : str) : str :=
  qlit "<option>other</option><option selected value=`" ++ group ++ qlit "`>text</option>".
Definition group_select (group : str) : str :=
  qlit "<select name=`group_list`>" ++ group_options group ++ lit "</select></form>".
Definition hidden_fields (tg nx tgc token : str) : str :=
  hidden (lit "tgroup") tg ++ hidden (lit "next") nx ++ hidden (lit "tgcookieset") tgc ++ hidden (lit "csrf_token") token.
Definition logon_page (pre act tg nx tgc token group : str) : str :=
  pre ++ qlit "<form action=`" ++ act ++ qlit "` method=`post`>" ++ hidden_fields tg nx tgc token ++ group_select group.

Lemma from_value p v s : 60%N ∉ v → from (60%N :: p) (v ++ s) = from (60%N :: p) s.
Proof. apply from_fresh. Qed.

Ltac pass_value := rewrite from_value by assumption.
Ltac pass_text := rewrite from_avoids by (vm_compute; reflexivity).

Section page.
Context (pre act tg nx tgc token group : str).
Hypothesis Hpre : 60%N ∉ pre.
Hypothesis Hact : value_ok act.
Hypothesis Hvalues : Forall value_ok [tg; nx; tgc; token].
Hypothesis Hgroup : value_ok group ∧ tight group ∧ group ≠ [].
Let page := logon_page pre act tg nx tgc token group.

(** A search for another element passes over a hidden field. *)
Lemma from_hidden p name v s :
  avoids (60%N :: p) (lit "<input") = true → 60%N ∉ name → 60%N ∉ v →
  from (60%N :: p) (hidden name v ++ s) = from (60%N :: p) s.
Proof.
  intros Ha Hn Hv. unfold hidden. change (qlit "<input type=`hidden` name=`") with (lit "<input" ++ qlit " type=`hidden` name=`").
  rewrite <-!app_assoc, from_avoids by done. rewrite (from_value p (qlit " type=`hidden` name=`")) by by apply (bool_decide_unpack _).
  rewrite from_value by done. rewrite (from_value p (qlit "` value=`")) by by apply (bool_decide_unpack _).
  rewrite from_value by done. apply from_fresh. by apply (bool_decide_unpack _).
Qed.

Lemma hidden_names_ok : Forall hidden_name_ok [lit "tgroup"; lit "next"; lit "tgcookieset"; lit "csrf_token"].
Proof. repeat (constructor; [split_and!; [by apply (bool_decide_unpack _)..|vm_compute; reflexivity|vm_compute; by split]|]). constructor. Qed.

Lemma page_inputs :
  scan_inputs page empty_form = MkLoginForm (Some tg) (Some nx) (Some tgc) (Some token) None None.
Proof.
  destruct Hact as (_ & _ & Hal). pose proof Hgroup as [(_ & _ & Hgl) _].
  rewrite !Forall_cons in Hvalues. destruct Hvalues as (V1 & V2 & V3 & V4 & _).
  pose proof hidden_names_ok as HN. rewrite !Forall_cons in HN. destruct HN as (N1 & N2 & N3 & N4 & _).
  transitivity (scan_inputs (hidden_fields tg nx tgc token ++ group_select group) empty_form).
  { apply scan_inputs_from. unfold page, logon_page. change (lit "<input") with (60%N :: lit "input").
    pass_value. pass_text. pass_value. pass_text. reflexivity. }
  unfold hidden_fields. rewrite <-!app_assoc, !scan_hidden by assumption.
  etransitivity; [apply (scan_inputs_from _ [])|reflexivity].
  change (lit "<input") with (60%N :: lit "input"). unfold group_select, group_options. rewrite <-!app_assoc.
  pass_text. pass_text. pass_value. vm_compute. reflexivity.
Qed.

Lemma page_action : loop length None action_body page = Some (trim act).
Proof.
  destruct Hact as (Haq & Hag & Hal). rewrite (loop_eq _ _ _ action_decreases). unfold action_body.
  change (lit "<form") with (60%N :: lit "form").
  rewrite (next_tag_from _ page ((60%N :: lit "form") ++ (qlit " action=`" ++ act ++ qlit "` method=`post`")
    ++ GT :: hidden_fields tg nx tgc token ++ group_select group)).
  2:{ unfold page, logon_page. pass_value. rewrite <-!app_assoc. reflexivity. }
  rewrite next_tag_here.
  2:{ rewrite !elem_of_app. intros [H|[H|H]]; [|contradiction|]; revert H; by apply (bool_decide_unpack _). }
  replace ((60%N :: lit "form") ++ (qlit " action=`" ++ act ++ qlit "` method=`post`") ++ [GT])
    with (qlit "<form action=" ++ QUOTE :: act ++ QUOTE :: qlit " method=`post`>") by (rewrite <-!app_assoc; reflexivity).
  rewrite (attr_value_here _ _ _ _ 6); [reflexivity|vm_compute; reflexivity..|discriminate|assumption].
Qed.

Lemma group_selected : selected_option_value (group_options group) = Some group.
Proof.
  destruct Hgroup as ((Hq & Hg & Hl) & Ht & Hne). unfold selected_option_value.
  rewrite (loop_eq _ _ _ option_decreases). unfold option_body at 1.
  change (lit "<option") with (60%N :: lit "option").
  set (second := qlit "<option selected value=`" ++ group ++ qlit "`>text</option>").
  replace (group_options group) with ((60%N :: lit "option") ++ [] ++ GT :: (lit "other</option>" ++ second))
    by (unfold group_options, second; rewrite <-?app_assoc; reflexivity).
  rewrite next_tag_here by by apply (bool_decide_unpack _).
  assert (E1 : has_attr_ci ((60%N :: lit "option") ++ [] ++ [GT]) (lit "selected") = false) by (vm_compute; reflexivity).
  rewrite E1. rewrite (loop_eq _ _ _ option_decreases). unfold option_body at 1.
  change (lit "<option") with (60%N :: lit "option").
  rewrite (next_tag_from _ _ ((60%N :: lit "option") ++ (qlit " selected value=`" ++ group ++ [QUOTE]) ++ GT :: lit "text</option>")).
  2:{ change (GT :: lit "other</option>" ++ second) with (lit ">other</option>" ++ second).
      cbn [app]. pass_text. unfold second. rewrite <-!app_assoc. reflexivity. }
  rewrite next_tag_here.
  2:{ rewrite !elem_of_app. intros [H|[H|H]]; [|contradiction|]; revert H; by apply (bool_decide_unpack _). }
  set (tag := (60%N :: lit "option") ++ (qlit " selected value=`" ++ group ++ [QUOTE]) ++ [GT]).
  assert (E2 : tag = qlit "<option selected value=" ++ QUOTE :: group ++ QUOTE :: [GT])
    by (unfold tag; rewrite <-!app_assoc; reflexivity).
  assert (Hs : has_attr_ci tag (lit "selected") = true).
  { rewrite E2. apply (has_attr_here _ _ _ 8 32); vm_compute; reflexivity. }
  assert (Hv : attr_value_ci tag (lit "value") = Some group).
  { rewrite E2. apply (attr_value_here _ _ _ _ 17); [vm_compute; reflexivity..|discriminate|assumption]. }
  rewrite Hs, Hv, trim_tight by done. by rewrite bool_decide_false by done.
Qed.

Lemma page_group : parse_group_list page = Some group.
Proof.
  destruct Hact as (_ & _ & Hal). pose proof Hgroup as [(_ & _ & Hgl) _].
  rewrite !Forall_cons in Hvalues. destruct Hvalues as ((_ & _ & V1) & (_ & _ & V2) & (_ & _ & V3) & (_ & _ & V4) & _).
  unfold parse_group_list. rewrite (loop_eq _ _ _ group_list_decreases). unfold group_list_body.
  change (lit "<select") with (60%N :: lit "select").
  rewrite (next_tag_from _ page ((60%N :: lit "select") ++ qlit " name=`group_list`"
    ++ GT :: group_options group ++ lit "</select></form>")).
  2:{ unfold page, logon_page, hidden_fields. rewrite <-!app_assoc. pass_value. pass_text. pass_value. pass_text.
      rewrite !from_hidden by (assumption || (vm_compute; reflexivity) || by apply (bool_decide_unpack _)). reflexivity. }
  rewrite next_tag_here by by apply (bool_decide_unpack _).
  set (tag := (60%N :: lit "select") ++ qlit " name=`group_list`" ++ [GT]).
  assert (E1 : attr_value_ci tag (lit "name") = Some (lit "group_list")) by (vm_compute; reflexivity).
  rewrite E1. assert (E2 : eq_ignore_ascii_case (trim (lit "group_list")) (lit "group_list") = true) by (vm_compute; reflexivity).
  rewrite E2. replace ((60%N :: lit "select") ++ qlit " name=`group_list`" ++ GT :: group_options group ++ lit "</select></form>")
    with (tag ++ group_options group ++ lit "</select></form>") by (unfold tag; rewrite <-!app_assoc; reflexivity).
  rewrite drop_app_length.
  assert (E3 : find (lit "</select") (group_options group ++ lit "</select></form>") = Some (length (group_options group))).
  { unfold group_options. rewrite <-!app_assoc.
    rewrite find_avoids by (vm_compute; reflexivity). change (lit "</select") with (60%N :: lit "/select").
    rewrite find_fresh_prefix by assumption. rewrite find_avoids by (vm_compute; reflexivity).
    change (find (60%N :: lit "/select") (lit "</select></form>")) with (Some 0). cbn [fmap option_fmap option_map]. f_equal.
    rewrite !length_app, Nat.add_0_r. reflexivity. }
  rewrite E3, take_app_length. apply group_selected.
Qed.

Lemma parse_logon_page :
  parse_login_form page = MkLoginForm (Some tg) (Some nx) (Some tgc) (Some token) (Some group) (Some (trim act)).
Proof.
  unfold parse_login_form. change (loop _ empty_form inputs_body (page, empty_form)) with (scan_inputs page empty_form).
  by rewrite page_inputs, page_group, page_action.
Qed.
End page.

(** The logon page is read for what it says: with any text without a tag in front, any
    action, hidden values and group that a quoted attribute can hold, the parser returns
    exactly those values, and the selected group rather than the first. *)
Theorem parse_logon_form pre act tg nx tgc token group :
  60%N ∉ pre → value_ok act → Forall value_ok [tg; nx; tgc; token] →
  value_ok group ∧ tight group ∧ group ≠ [] →
  parse_login_form (logon_page pre act tg nx tgc token group)
  = MkLoginForm (Some tg) (Some nx) (Some tgc) (Some token) (Some group) (Some (trim act)).
Proof. apply parse_logon_page. Qed.

Lemma parse_logon_form_witness :
  value_ok (lit "/+webvpn+/index.html") ∧
  parse_login_form (logon_page (lit "text") (lit "/+webvpn+/index.html") [] [] [] (lit "7788a9") (lit "vpn-ct"))
  = MkLoginForm (Some []) (Some []) (Some []) (Some (lit "7788a9")) (Some (lit "vpn-ct")) (Some (lit "/+webvpn+/index.html")).
Proof.
  assert (H : value_ok (lit "/+webvpn+/index.html")) by (split_and!; by apply (bool_decide_unpack _)).
  split; [exact H|].
  apply (parse_logon_form (lit "text") (lit "/+webvpn+/index.html") [] [] [] (lit "7788a9") (lit "vpn-ct"));
    [by apply (bool_decide_unpack _)|exact H| |].
  - repeat (constructor; [split_and!; by apply (bool_decide_unpack _)|]). constructor.
  - split_and!; [split_and!; by apply (bool_decide_unpack _)|by split|discriminate].
Defined.

(** ** Deviations *)

(** The test for a self-closing input is made on the whole tag, which ends in its closing
    bracket: it never succeeds, and a self-closing input takes the text up to a later end
    tag as its value. *)
Lemma self_closing_test_dead t : ends_with SLASH (trim_end (t ++ [GT])) = false.
Proof. rewrite trim_end_snoc. unfold ends_with. simpl. rewrite last_snoc. done. Qed.
Example self_closing_takes_text :
  field_text <$> input_fields (qlit "<input name=`username`/><b>oops</b></input>") = [lit "<b>oops</b>"].
Proof. vm_compute. reflexivity. Qed.

(** An attribute name is also found inside the value of another attribute. *)
Example attribute_inside_value :
  attr_value_ci (qlit "<input title=`my name=x y` name=`csrf_token`>") (lit "name") = Some (lit "x").
Proof. vm_compute. reflexivity. Qed.
