(* ===== verification/WebVpnLogin.v ===== *)
(** * The WebVPN login

    The two channels of [webvpn.rs] of the CSTP crate: the aggregate-auth exchange over
    one kept connection, with one retry of the reply, and the logon form over two fresh
    connections.

    A login runs against the answers of the outside: for each dial the [World] of
    [Connector], whose stream is a connection that says what its reads return and whether
    its writes succeed. It returns the number of dials, the requests written, with the
    connection each was written to, the responses read, and its outcome; [None] is a login still waiting for
    a handshake. Wiping the buffers that held the password is not visible here. *)

From Stdlib Require Import NArith Strings.Byte Lia.
From S2P Require Import Prelude Text Connector Http WebVpn.

(** ** Effects *)

(** An established connection: what its reads will return, and whether each of its
    writes, with the flush after it, succeeds; further ones do. *)
Record Conn := MkConn { reads : Stream; writes : list bool }.
(** The dials made, the requests written and the responses read so far. *)
Record Io := MkIo { dialled : nat; wire : list (nat * list byte); inbox : list LoginResponse }.

Definition Login (A : Type) : Type := Io → Io * option (result LoginError A).
#[export] Instance login_ret : MRet Login := λ A a io, (io, Some (Ok a)).
#[export] Instance login_bind : MBind Login := λ A B f m io,
  match m io with
  | (io, Some (Ok a)) => f a io
  | (io, Some (Err e)) => (io, Some (Err e))
  | (io, None) => (io, None)
  end.
Definition fail {A} (e : LoginError) : Login A := λ io, (io, Some (Err e)).
Definition lift {A} (r : result LoginError A) : Login A := λ io, (io, Some r).
Definition ok_or_fail {A} (o : option A) (e : LoginError) : Login A := lift (ok_or o e).
(** The value or the error of a step, as a value. *)
Definition attempt {A} (m : Login A) : Login (result LoginError A) := λ io,
  match m io with
  | (io, Some r) => (io, Some (Ok r))
  | (io, None) => (io, None)
  end.

(** [write_all] and [flush] of a request. *)
Definition send (conn : nat * Conn) (request : list byte) : Login (nat * Conn) := λ io,
  let '(id, c) := conn in
  let io := MkIo (dialled io) (wire io ++ [(id, request)]) (inbox io) in
  match writes c with
  | false :: w => (io, Some (Err HttpFailed))
  | true :: w => (io, Some (Ok (id, MkConn (reads c) w)))
  | [] => (io, Some (Ok (id, c)))
  end.
Definition receive (conn : nat * Conn) : Login (LoginResponse * (nat * Conn)) := λ io,
  let '(id, c) := conn in
  let '(r, s) := read_login_response (reads c) in
  match r with
  | Ok resp => (MkIo (dialled io) (wire io) (inbox io ++ [resp]), Some (Ok (resp, (id, MkConn s (writes c)))))
  | Err e => (io, Some (Err e))
  end.

(** ** Shared pieces *)

Definition is_2xx (code : N) : bool := in_range 200 299 code.
Definition is_3xx (code : N) : bool := in_range 300 399 code.

(** cstp/webvpn.rs:229-234 [LoginError::login_rejected_with_detail] *)
Definition login_rejected_with_detail (detail : option str) : LoginError := LoginRejected detail.
(** cstp/webvpn.rs:213-227 [LoginError::a0_result] *)
Definition a0_result (e : LoginError) : option str :=
  match e with LoginRejected detail => detail | _ => None end.

(** cstp/webvpn.rs:764-769 [form_channel_login]: the first [Set-Cookie] header with the
    cookie, unless it is cleared. *)
Definition first_cookie (pick : str → option str) (hs : list (str * str)) : option str :=
  value ← head (omap (λ '(name, value), if bool_decide (name = lit "set-cookie") then pick value else None) hs);
  if bool_decide (value = []) then None else Some value.
Definition named_cookie (name : str) : list (str * str) → option str :=
  first_cookie (λ v, cookie_value_named v name).

(** cstp/webvpn.rs:1432-1440 [is_saml_location] *)
Definition is_saml_location (r : LoginResponse) : bool :=
  existsb (λ h : str * str, bool_decide (h.1 = lit "location") && contains (lit "+CSCOE+/saml") h.2) (headers r).

(** cstp/webvpn.rs:1442-1474 [session_from_aggregate] *)
Definition session_from_aggregate (response : AggregateAuthResponse) (http : LoginResponse)
    : result LoginError LoginSession :=
  let token := match session_token response with Some t => Some t | None => session_id response end in
  match token with
  | Some token => Ok (MkLoginSession (MkWebvpnCookie token) false)
  | None =>
      match first_cookie (λ v, match cookie_value_named v (lit "webvpn") with
                               | Some c => Some c
                               | None => cookie_value_named v (lit "webvpn_session")
                               end) (headers http) with
      | Some c => Ok (MkLoginSession (MkWebvpnCookie c) false)
      | None => Err (login_rejected_with_detail None)
      end
  end.

(** cstp/webvpn.rs:438-465 [default_user_agent] *)
Definition default_user_agent (os arch : str) : str :=
  let arch := if bool_decide (arch = lit "aarch64") then lit "arm64" else arch in
  (if bool_decide (os = lit "windows") then lit "AnyConnect Win_"
   else if bool_decide (os = lit "macos") then lit "AnyConnect Darwin_"
   else lit "AnyConnect Linux_") ++ arch ++ lit " 4.10.05095".

(** ** Requests *)

(** cstp/webvpn.rs:564-564 [form_channel_login] *)
Definition logon_get (host : str) : list byte :=
  utf8 (lit "GET /+CSCOE+/logon.html HTTP/1.1" ++ crlf ++ lit "Host: " ++ host ++ crlf ++ crlf).

(** cstp/webvpn.rs:642-676 [form_channel_login]: the body of the POST. *)
Definition form_body (form : LoginForm) (token : str) (username password : list byte) : list byte :=
  utf8 (lit "tgroup=") ++ percent_encode (utf8 (default [] (tgroup form)))
  ++ utf8 (lit "&next=") ++ percent_encode (utf8 (default [] (next form)))
  ++ utf8 (lit "&tgcookieset=") ++ percent_encode (utf8 (default [] (tgcookieset form)))
  ++ utf8 (lit "&csrf_token=") ++ percent_encode (utf8 token)
  ++ utf8 (lit "&username=") ++ percent_encode username
  ++ utf8 (lit "&password=") ++ percent_encode password
  ++ match group_list form with
     | Some group => utf8 (lit "&group_list=") ++ percent_encode (utf8 group)
     | None => []
     end
  ++ utf8 (lit "&Login=Logon").

(** cstp/webvpn.rs:678-693 [form_channel_login]: the POST. *)
Definition form_post_head (host act webvpnlogin token webvpnlang : str) (content_length : nat) : str :=
  lit "POST " ++ act ++ lit " HTTP/1.1" ++ crlf
  ++ lit "Host: " ++ host ++ crlf
  ++ lit "Cookie: webvpnlogin=" ++ webvpnlogin ++ lit "; CSRFtoken=" ++ token
  ++ lit "; webvpnLang=" ++ webvpnlang ++ crlf
  ++ lit "Content-Type: application/x-www-form-urlencoded" ++ crlf
  ++ lit "Content-Length: " ++ to_dec (N.of_nat content_length) ++ crlf ++ crlf.
Definition form_post (host act webvpnlogin token webvpnlang : str) (content : list byte) : list byte :=
  utf8 (form_post_head host act webvpnlogin token webvpnlang (length content)) ++ content.

(** cstp/webvpn.rs:1036-1050 [post_aggregate_auth_xml] *)
Definition aggregate_post_head (host user_agent : str) (content_length : nat) : str :=
  lit "POST / HTTP/1.1" ++ crlf
  ++ lit "Host: " ++ host ++ crlf
  ++ lit "User-Agent: " ++ user_agent ++ crlf
  ++ lit "Content-Type: application/xml; charset=utf-8" ++ crlf
  ++ lit "Accept-Encoding: identity" ++ crlf
  ++ lit "X-Transcend-Version: 1" ++ crlf
  ++ lit "X-Aggregate-Auth: 1" ++ crlf
  ++ lit "Content-Length: " ++ to_dec (N.of_nat content_length) ++ crlf
  ++ lit "Connection: keep-alive" ++ crlf ++ crlf.
Definition aggregate_post (host user_agent xml : str) : list byte :=
  utf8 (aggregate_post_head host user_agent (length (utf8 xml))) ++ utf8 xml.

(** ** Verdicts *)

(** cstp/webvpn.rs:706-781 [form_channel_login]: the verdict on the answer to the POST. *)
Definition form_verdict (response : LoginResponse) : result LoginError LoginSession :=
  if is_3xx (status response) && is_saml_location response then Err SamlRequired
  else
    let body_text := from_utf8_lossy (body response) in
    let a0 := a0_code body_text in
    if negb (is_2xx (status response)) then Err (login_rejected_with_detail a0)
    else if contains (lit "+CSCOE+/error") body_text || contains (lit "login error") body_text
    then Err (login_rejected_with_detail a0)
    else if meta_refresh_steers_to_saml_acs body_text then Err SamlRequired
    else if contains (lit "second password") body_text then Err TwoFactorRequired
    else match named_cookie (lit "webvpn") (headers response) with
         | None => Err (login_rejected_with_detail a0)
         | Some value => Ok (MkLoginSession (MkWebvpnCookie value) false)
         end.

(** cstp/webvpn.rs:845-899 [aggregate_auth_login]: what the answer to the init asks for;
    [None] is a channel that is not available. *)
Inductive InitVerdict := Unavailable | Done (s : LoginSession) | Ask (r : AggregateAuthResponse).
Definition init_verdict (response : LoginResponse) : result LoginError InitVerdict :=
  if is_3xx (status response) && is_saml_location response then Err SamlRequired
  else if (status response =? 404)%N then Ok Unavailable
  else if negb (is_2xx (status response))
  then Err (login_rejected_with_detail (Some (to_dec (status response))))
  else
    let init_text := from_utf8_lossy (body response) in
    match parse_aggregate_auth_response init_text with
    | None => if meta_refresh_steers_to_saml_acs init_text then Err SamlRequired else Ok Unavailable
    | Some auth_request =>
        match classify auth_request with
        | Agg_Success => Done <$> session_from_aggregate auth_request response
        | Agg_Error => Err (login_rejected_with_detail (error_text auth_request))
        | Challenge => Err TwoFactorRequired
        | HostScan => Err (login_rejected_with_detail (Some (lit "host-scan-required")))
        | GroupSelect | AuthRequest =>
            if negb (has_field auth_request (lit "username")) || negb (has_field auth_request (lit "password"))
            then Ok Unavailable
            else Ok (Ask auth_request)
        end
    end.

(** cstp/webvpn.rs:950-994 [aggregate_auth_login]: the verdict on the answer to the reply. *)
Definition reply_verdict (response : LoginResponse) : result LoginError LoginSession :=
  if is_3xx (status response) && is_saml_location response then Err SamlRequired
  else if negb (is_2xx (status response))
  then Err (login_rejected_with_detail (Some (to_dec (status response))))
  else
    let reply_text := from_utf8_lossy (body response) in
    if meta_refresh_steers_to_saml_acs reply_text then Err SamlRequired
    else match parse_aggregate_auth_response reply_text with
         | None => Err (login_rejected_with_detail None)
         | Some submitted =>
             match classify submitted with
             | Agg_Success => session_from_aggregate submitted response
             | Agg_Error => Err (login_rejected_with_detail (error_text submitted))
             | Challenge => Err TwoFactorRequired
             | HostScan => Err (login_rejected_with_detail (Some (lit "host-scan-required")))
             | GroupSelect | AuthRequest => Err (login_rejected_with_detail None)
             end
         end.

(** ** The login *)

Section login.
(** What each dial meets. *)
Context (worlds : nat → World Conn).
(** The configured gateway. *)
Context (host : str) (gateway : SocketAddr) (policy : TrustPolicy) (due : option Deadline) (binder : option bool).

(** cstp/webvpn.rs:996-1021 [connect_bootstrap] *)
Definition connect_bootstrap : Login (nat * Conn) := λ io,
  let cfg := MkBootstrapConfig host gateway policy false due binder None in
  let io' := MkIo (S (dialled io)) (wire io) (inbox io) in
  match (connect (worlds (dialled io)) cfg).2 with
  | None => (io', None)
  | Some (Ok conn) => (io', Some (Ok (dialled io, conn)))
  | Some (Err DeadlineExceeded) => (io', Some (Err Login_DeadlineExceeded))
  | Some (Err other) => (io', Some (Err (TlsFailed other)))
  end.

(** cstp/webvpn.rs:1023-1057 [post_aggregate_auth_xml] *)
Definition post_aggregate_auth_xml (conn : nat * Conn) (user_agent xml : str)
    : Login (LoginResponse * (nat * Conn)) :=
  conn ← send conn (aggregate_post host user_agent xml); receive conn.

(** cstp/webvpn.rs:467-781 [form_channel_login] *)
Definition form_channel_login (username password : list byte) : Login LoginSession :=
  conn ← connect_bootstrap;
  conn ← send conn (logon_get host);
  '(logon_page, _) ← receive conn;
  if negb (is_2xx (status logon_page)) then fail (login_rejected_with_detail None)
  else
    let page_text := from_utf8_lossy (body logon_page) in
    let webvpnlogin := default (lit "1") (named_cookie (lit "webvpnlogin") (headers logon_page)) in
    let webvpnlang := default (lit "en") (named_cookie (lit "webvpnLang") (headers logon_page)) in
    let form := parse_login_form page_text in
    token ← ok_or_fail (csrf_token form) ProtocolViolation;
    act ← ok_or_fail (action form) ProtocolViolation;
    conn ← connect_bootstrap;
    conn ← send conn (form_post host (resolve_form_action act) webvpnlogin token webvpnlang
                        (form_body form token username password));
    '(response, _) ← receive conn;
    lift (form_verdict response).

(** cstp/webvpn.rs:783-994 [aggregate_auth_login] *)
Definition aggregate_auth_login (username password : list byte) (user_agent : str) : Login (option LoginSession) :=
  conn ← connect_bootstrap;
  '(init_response, conn) ← post_aggregate_auth_xml conn user_agent (build_aggregate_auth_init_xml host user_agent);
  verdict ← lift (init_verdict init_response);
  match verdict with
  | Unavailable => mret None
  | Done session => mret (Some session)
  | Ask auth_request =>
      let group := default [] (field_value auth_request (lit "group_list")) in
      let reply := build_aggregate_auth_reply_xml user_agent (opaque_xml auth_request) username password group in
      first ← attempt (post_aggregate_auth_xml conn user_agent reply);
      '(reply_response, _) ←
        match first with
        | Ok r => mret r
        | Err _ => fresh ← connect_bootstrap; post_aggregate_auth_xml fresh user_agent reply
        end;
      session ← lift (reply_verdict reply_response);
      mret (Some session)
  end.

(** cstp/webvpn.rs:368-435 [WebvpnLogin::perform_login_with_socket_binder] *)
Definition perform_login_with_socket_binder (username password : list byte) (user_agent : str) : Login LoginSession :=
  r ← aggregate_auth_login username password user_agent;
  match r with
  | Some session => mret session
  | None => form_channel_login username password
  end.
End login.

(** cstp/webvpn.rs:322-366 [WebvpnLogin::perform_login_with_user_agent] *)
Definition perform_login_with_user_agent (worlds : nat → World Conn) (host : str) (gateway : SocketAddr)
    (policy : TrustPolicy) (due : option Deadline) (username password : list byte) (user_agent : str)
    : Login LoginSession :=
  perform_login_with_socket_binder worlds host gateway policy due None username password user_agent.
(** cstp/webvpn.rs:238-320 [WebvpnLogin::perform_login]; the platform is given by its
    names. *)
Definition perform_login (worlds : nat → World Conn) (os arch : str) (host : str) (gateway : SocketAddr)
    (policy : TrustPolicy) (due : option Deadline) (username password : list byte) : Login LoginSession :=
  perform_login_with_user_agent worlds host gateway policy due username password (default_user_agent os arch).

(** ** The verdict on the form *)

Lemma first_cookie_nonempty pick hs v : first_cookie pick hs = Some v → v ≠ [].
Proof. unfold first_cookie. destruct (head _); simpl; [|done]. case_bool_decide; congruence. Qed.

(** Success needs a 2xx answer without any marker of failure, and a cookie that is not
    cleared. *)
Lemma form_verdict_ok r s :
  form_verdict r = Ok s ↔
  is_2xx (status r) = true ∧
  contains (lit "+CSCOE+/error") (from_utf8_lossy (body r)) = false ∧
  contains (lit "login error") (from_utf8_lossy (body r)) = false ∧
  meta_refresh_steers_to_saml_acs (from_utf8_lossy (body r)) = false ∧
  contains (lit "second password") (from_utf8_lossy (body r)) = false ∧
  ∃ v, named_cookie (lit "webvpn") (headers r) = Some v ∧ s = MkLoginSession (MkWebvpnCookie v) false.
Proof.
  unfold form_verdict.
  assert (H3 : is_2xx (status r) = true → is_3xx (status r) = false).
  { unfold is_2xx, is_3xx. rewrite in_range_spec, in_range_false. lia. }
  destruct (is_2xx (status r)) eqn:E2; [rewrite H3 by done|]; simpl.
  - destruct (contains (lit "+CSCOE+/error") _); simpl; [split; [done|intuition congruence]|].
    destruct (contains (lit "login error") _); simpl; [split; [done|intuition congruence]|].
    destruct (meta_refresh_steers_to_saml_acs _); [split; [done|intuition congruence]|].
    destruct (contains (lit "second password") _); [split; [done|intuition congruence]|].
    destruct (named_cookie _ _) as [v|]; split; try done.
    + intros [= <-]. by eauto 10.
    + intros (_ & _ & _ & _ & _ & v' & [= <-] & ->). done.
    + by intros (_ & _ & _ & _ & _ & v' & [=] & _).
  - destruct (is_3xx _ && _); split; try done; intuition congruence.
Qed.

(** ** Reasoning about logins *)

(** What holds of the effects and the outcome of a login, one step at a time. *)
Definition yields {A} (m : Login A) (io : Io) (Q : Io → option (result LoginError A) → Prop) : Prop :=
  Q (m io).1 (m io).2.

(** The continuation of a step, with its outcome. *)
Definition carry {A B} (f : A → Login B) (Q : Io → option (result LoginError B) → Prop)
    (io : Io) (r : option (result LoginError A)) : Prop :=
  match r with
  | Some (Ok a) => yields (f a) io Q
  | Some (Err e) => Q io (Some (Err e))
  | None => Q io None
  end.

Lemma yields_bind {A B} (m : Login A) (f : A → Login B) io Q :
  yields m io (carry f Q) → yields (m ≫= f) io Q.
Proof.
  unfold yields, carry, mbind, login_bind. by destruct (m io) as [io' [[a|e]|]].
Qed.
Lemma yields_attempt {A} (m : Login A) io Q :
  yields m io (λ io r, Q io (Ok <$> r)) → yields (attempt m) io Q.
Proof. unfold yields, attempt. by destruct (m io) as [io' [r|]]. Qed.

Lemma yields_send conn req io (Q : Io → option (result LoginError (nat * Conn)) → Prop) :
  (let io' := MkIo (dialled io) (wire io ++ [(conn.1, req)]) (inbox io) in
   Q io' (Some (Err HttpFailed)) ∧ ∀ c, Q io' (Some (Ok (conn.1, c)))) →
  yields (send conn req) io Q.
Proof. intros [H1 H2]. unfold yields, send. destruct conn as [id c]. destruct (writes c) as [|[] w]; [apply H2|apply H2|exact H1]. Qed.

Lemma yields_receive conn io (Q : Io → option (result LoginError (LoginResponse * (nat * Conn))) → Prop) :
  (∀ e, Q io (Some (Err e))) →
  (∀ resp c, Q (MkIo (dialled io) (wire io) (inbox io ++ [resp])) (Some (Ok (resp, (conn.1, c))))) →
  yields (receive conn) io Q.
Proof.
  intros H1 H2. unfold yields, receive. destruct conn as [id c].
  destruct (read_login_response (reads c)) as [[resp|e] s]; [apply H2|apply H1].
Qed.

Section proofs.
Context (worlds : nat → World Conn) (host : str) (gateway : SocketAddr) (policy : TrustPolicy)
  (due : option Deadline) (binder : option bool) (username password : list byte) (user_agent : str).
Let dial_gateway := connect_bootstrap worlds host gateway policy due binder.
Let exchange := post_aggregate_auth_xml host.

Lemma yields_dial io Q :
  (let io' := MkIo (S (dialled io)) (wire io) (inbox io) in
   Q io' None ∧ (∀ e, Q io' (Some (Err e))) ∧ ∀ c, Q io' (Some (Ok (dialled io, c)))) →
  yields dial_gateway io Q.
Proof.
  intros (H1 & H2 & H3). unfold yields, dial_gateway, connect_bootstrap.
  destruct (connect _ _).2 as [[c|[]]|]; simpl; auto.
Qed.

Lemma yields_exchange conn ua xml io Q :
  (let io' := MkIo (dialled io) (wire io ++ [(conn.1, aggregate_post host ua xml)]) (inbox io) in
   (∀ e, Q io' (Some (Err e))) ∧
   ∀ resp c, Q (MkIo (dialled io') (wire io') (inbox io' ++ [resp])) (Some (Ok (resp, (conn.1, c))))) →
  yields (exchange conn ua xml) io Q.
Proof.
  intros [H1 H2]. unfold exchange, post_aggregate_auth_xml. apply yields_bind, yields_send.
  split; [apply H1|]. intros c. apply yields_receive; [apply H1|apply H2].
Qed.

(** The requests of the login. *)
Definition init_request : list byte := aggregate_post host user_agent (build_aggregate_auth_init_xml host user_agent).
Definition reply_request (os : list str) (group : str) : list byte :=
  aggregate_post host user_agent (build_aggregate_auth_reply_xml user_agent os username password group).
Definition post_request (form : LoginForm) (act jar1 token jar2 : str) : list byte :=
  form_post host act jar1 token jar2 (form_body form token username password).

(** What the two channels write, on connections numbered from [d]. *)
Inductive form_wire (d : nat) : list (nat * list byte) → Prop :=
  | form_nothing : form_wire d []
  | form_asked : form_wire d [(d, logon_get host)]
  | form_posted form act jar1 token jar2 :
      form_wire d [(d, logon_get host); (S d, post_request form act jar1 token jar2)].
Inductive aggregate_wire (d : nat) : list (nat * list byte) → Prop :=
  | agg_nothing : aggregate_wire d []
  | agg_asked : aggregate_wire d [(d, init_request)]
  | agg_replied os group : aggregate_wire d [(d, init_request); (d, reply_request os group)]
  | agg_retried os group :
      aggregate_wire d [(d, init_request); (d, reply_request os group); (S d, reply_request os group)].
Inductive login_wire (d : nat) : list (nat * list byte) → Prop :=
  | wire_aggregate l : aggregate_wire d l → login_wire d l
  | wire_fallback l : form_wire (S d) l → login_wire d ((d, init_request) :: l).

(** What makes an answer a login, in terms of what it says.

    A text says [p] if [p] stands in it somewhere. *)
Definition says (p s : str) : Prop := ∃ pre post, s = pre ++ p ++ post.
(** A header sets the cookie [name] to [v]. *)
Definition sets_cookie (name v : str) (h : str * str) : Prop :=
  h.1 = lit "set-cookie" ∧
  ∃ n w, trim (before [59%N] h.2) = n ++ [61%N] ++ w ∧ (61%N ∉ n) ∧
    to_ascii_lowercase (trim n) = to_ascii_lowercase name ∧ v = trim w.
(** The first header that sets one of the cookies [names] sets it to [v], which is not empty. *)
Definition gives_cookie (names : list str) (hs : list (str * str)) (v : str) : Prop :=
  v ≠ [] ∧ ∃ pre h post, hs = pre ++ h :: post ∧ (∃ name, name ∈ names ∧ sets_cookie name v h) ∧
    ∀ h' name' v', h' ∈ pre → name' ∈ names → ¬ sets_cookie name' v' h'.
(** The text holds an element [name], whose content reads as [v]. *)
Definition element (name v text : str) : Prop :=
  ∃ pre attrs inner post,
    text = pre ++ (60%N :: name) ++ attrs ++ [GT] ++ inner ++ lit "</" ++ name ++ [GT] ++ post ∧ v = xml_unescape (trim inner).

(** The page that answers the form. *)
Definition page_grants (resp : LoginResponse) (v : str) : Prop :=
  let text := from_utf8_lossy (body resp) in
  ¬ says (lit "+CSCOE+/error") text ∧ ¬ says (lit "login error") text ∧ ¬ says (lit "second password") text ∧
  meta_refresh_steers_to_saml_acs text = false ∧ gives_cookie [lit "webvpn"] (headers resp) v.
(** The document that answers over the other channel: one that carries a token, which may
    be empty, or one of success that sets a cookie. *)
Definition document_grants (resp : LoginResponse) (v : str) : Prop :=
  let text := trim (from_utf8_lossy (body resp)) in
  says (lit "<config-auth") (to_ascii_lowercase text) ∧ ¬ says (lit "<html") (to_ascii_lowercase text) ∧
  (element (lit "session-token") v text ∨ element (lit "session-id") v text ∨
   ¬ says (lit "<host-scan") (to_ascii_lowercase text) ∧ node_text text (lit "error") = None ∧
   ((tag ← first_tag text (lit "auth"); attr_value_ci tag (lit "id")) = Some (lit "success") ∨
    (tag ← first_tag text (lit "config-auth"); attr_value_ci tag (lit "type")) = Some (lit "complete")) ∧
   gives_cookie [lit "webvpn"; lit "webvpn_session"] (headers resp) v).
Definition granted (resp : LoginResponse) (s : LoginSession) : Prop :=
  (200 ≤ status resp ≤ 299)%N ∧
  ∃ v, s = MkLoginSession (MkWebvpnCookie v) false ∧ (page_grants resp v ∨ document_grants resp v).
Lemma says_not p s : contains p s = false → ¬ says p s.
Proof. intros Hc Hs. apply contains_true in Hs. congruence. Qed.
Lemma cookie_sets name v h : h.1 = lit "set-cookie" → cookie_value_named h.2 name = Some v ↔ sets_cookie name v h.
Proof.
  intros Hh. unfold cookie_value_named, sets_cookie, eq_ignore_ascii_case. cbv zeta. split.
  - intros ([n w] & Hs & Hv)%bind_Some. apply split_once_Some in Hs as [Hs Hn]. case_bool_decide; [|done].
    injection Hv as <-. split; [done|]. by exists n, w.
  - intros (_ & n & w & -> & Hn & Hl & ->). change ([61%N] ++ w) with (61%N :: w). rewrite split_once_app by done. simpl. by rewrite bool_decide_eq_true_2.
Qed.
Lemma first_cookie_gives names pick hs v :
  (∀ w u, pick w = Some u → ∃ name, name ∈ names ∧ cookie_value_named w name = Some u) →
  (∀ w name, pick w = None → name ∈ names → cookie_value_named w name = None) →
  first_cookie pick hs = Some v → gives_cookie names hs v.
Proof.
  intros Hs Hn Hf. split; [by eapply first_cookie_nonempty|]. unfold first_cookie in Hf.
  apply bind_Some in Hf as (u & Hu & Hf). case_bool_decide; [done|]. injection Hf as ->.
  induction hs as [|[n w] hs IH]; simpl in Hu; [done|].
  assert (Hskip : (if bool_decide (n = lit "set-cookie") then pick w else None) = None →
    ∀ name' v', name' ∈ names → ¬ sets_cookie name' v' (n, w)).
  { intros Hp name' v' Hin Hc. pose proof (proj1 Hc) as Hh. simpl in Hh. rewrite bool_decide_eq_true_2 in Hp by done.
    apply (cookie_sets name' v' (n, w) Hh) in Hc. simpl in Hc. by rewrite (Hn w name' Hp Hin) in Hc. }
  destruct (if bool_decide _ then pick w else None) as [u|] eqn:Ep.
  - simpl in Hu. injection Hu as ->. case_bool_decide as Hh; [|done]. exists [], (n, w), hs.
    destruct (Hs w v Ep) as (name & Hin & Hc). split; [done|]. split; [exists name; by rewrite <-cookie_sets|].
    by intros ? ? ? ?%elem_of_nil.
  - destruct (IH Hu) as (pre & h & post & -> & Hh & Hpre). exists ((n, w) :: pre), h, post. split; [done|]. split; [done|].
    intros h' name' v' [->|Hin]%elem_of_cons; [by apply Hskip|by apply Hpre].
Qed.
Lemma find_if_skip f a b : Forall (λ c, f c = false) a → find_if f (a ++ b) = (λ i, length a + i) <$> find_if f b.
Proof.
  induction 1 as [|c a Hc _ IH]; simpl; [by destruct (find_if f b)|]. rewrite Hc, IH. by destruct (find_if f b).
Qed.
Lemma node_text_element text name v : GT ∉ name → node_text text name = Some v → element name v text.
Proof.
  intros Hg. rewrite node_text_content. intros (inner & Hi & ->)%fmap_Some. unfold node_content in Hi.
  cut (∃ pre attrs post, text = pre ++ (60%N :: name) ++ attrs ++ [GT] ++ inner ++ lit "</" ++ name ++ [GT] ++ post).
  { intros (pre & attrs & post & ->). by exists pre, attrs, inner, post. }
  revert Hi. set (close := lit "</" ++ name ++ [GT]).
  apply (loop_ind _ _ _ (λ s s', content_decreases (60%N :: name) close s s' ltac:(done))
    (λ text r, r = Some inner → ∃ pre attrs post, text = pre ++ (60%N :: name) ++ attrs ++ [GT] ++ inner ++ lit "</" ++ name ++ [GT] ++ post)).
  clear text. intros text. unfold content_body. rewrite from_find. destruct (find (60%N :: name) text) as [i|] eqn:Ef; [|done].
  apply find_split in Ef as [Ef Hle]. set (pre := take i text) in Ef. set (rest := drop (i + length (60%N :: name)) text) in Ef.
  cbn [fmap option_fmap option_map]. assert (length pre = i) as Hpre by (unfold pre; rewrite length_take; lia).
  assert (drop i text = (60%N :: name) ++ rest) as -> by (by rewrite Ef, <-Hpre, drop_app_length).
  rewrite drop_app_length. rewrite Ef. clearbody pre rest. clear Ef Hpre Hle. destruct (name_boundary rest); cbn [negb].
  - intros (k & Hk & (j & Hj & Hin)%bind_Some)%bind_Some. cbv zeta in Hj, Hin.
    unfold find_char in Hk. rewrite find_if_skip in Hk.
    2:{ constructor; [done|]. by apply fresh_not_char. }
    apply fmap_Some in Hk as (k' & Hk & ->). apply find_if_Some in Hk as (c & Hr & Hc%N.eqb_eq & _). subst c.
    rewrite <-Nat.add_assoc, <-drop_drop, drop_app_length, Nat.add_1_r in Hj, Hin.
    injection Hin as <-. apply find_split in Hj as [Hj _].
    exists pre, (take k' rest), (drop (j + length close) (drop (S k') rest)). do 2 f_equal.
    rewrite Hr at 1. do 2 f_equal. rewrite Hj at 1. f_equal. unfold close. by rewrite <-!app_assoc.
  - intros r IH Hr. destruct (IH Hr) as (p & a & post & ->). exists (pre ++ (60%N :: name) ++ p), a, post. by rewrite <-!app_assoc.
Qed.
Lemma cookie_grants s r hs : session_from_aggregate r hs = Ok s →
  ∃ v, s = MkLoginSession (MkWebvpnCookie v) false ∧
    (session_token r = Some v ∨ session_id r = Some v ∨
     session_token r = None ∧ session_id r = None ∧ gives_cookie [lit "webvpn"; lit "webvpn_session"] (headers hs) v).
Proof.
  unfold session_from_aggregate. destruct (session_token r) as [t|]; [intros [= <-]; by eauto|].
  destruct (session_id r) as [t|]; [intros [= <-]; by eauto|].
  destruct (first_cookie _ _) as [c|] eqn:Ec; [|done]. intros [= <-]. exists c. split; [done|]. do 2 right. split_and!; [done..|].
  eapply first_cookie_gives; [..|exact Ec]; simpl.
  - intros w u. destruct (cookie_value_named w (lit "webvpn")) eqn:E; intros; simplify_eq; eexists; (split; [|eassumption]); set_solver.
  - intros w name. destruct (cookie_value_named w (lit "webvpn")) eqn:E; [done|]. intros ? Hin.
    apply elem_of_cons in Hin as [Hx|Hx%list_elem_of_singleton]; by subst name.
Qed.
(** A document of success grants the session it is made into. *)
Lemma document_granted resp doc s :
  is_2xx (status resp) = true → parse_aggregate_auth_response (from_utf8_lossy (body resp)) = Some doc →
  classify doc = Agg_Success → session_from_aggregate doc resp = Ok s → granted resp s.
Proof.
  intros H2 Hp Hc Hs. apply cookie_grants in Hs as (v & -> & Hv). split; [by apply in_range_spec|].
  exists v. split; [done|right]. unfold parse_aggregate_auth_response in Hp. unfold document_grants. cbv zeta in *.
  set (text := trim _) in *. case_bool_decide; [done|].
  destruct (contains (lit "<html") _) eqn:Eh; [done|]. destruct (contains (lit "<config-auth") _) eqn:Ea; [|done]. simpl in Hp.
  injection Hp as <-. simpl in Hv. split; [by apply contains_true|]. split; [by apply says_not|].
  destruct Hv as [Hv|[Hv|(Ht & Hi & Hg)]].
  - left. apply node_text_element; [|done]. by apply not_elem_of_cons; vm_compute; set_solver.
  - right; left. apply node_text_element; [|done]. vm_compute. set_solver.
  - do 2 right. unfold classify in Hc. simpl in Hc. rewrite Ht, Hi in Hc. simpl in Hc.
    destruct (contains (lit "<host-scan") _) eqn:Ehs; [done|].
    destruct (node_text text (lit "error")) eqn:Ee; [by rewrite orb_true_r in Hc|].
    split; [by apply says_not|]. split; [done|]. split; [|done].
    destruct (_ || _) eqn:Eor in Hc; [done|]. clear Eor. destruct (existsb _ _); [done|].
    destruct (_ && _ && _) in Hc; [done|]. destruct (_ || _) eqn:Eor in Hc; [|done].
    apply orb_true_iff in Eor as [E%bool_decide_eq_true|E%bool_decide_eq_true]; auto.
Qed.
Lemma page_granted resp s : form_verdict resp = Ok s → granted resp s.
Proof.
  intros (H2 & H3 & H4 & H5 & H6 & v & Hv & ->)%form_verdict_ok. split; [by apply in_range_spec|]. exists v. split; [done|left].
  split_and!; [by apply says_not..|done|]. eapply first_cookie_gives; [..|exact Hv]; simpl.
  - intros w u Hu. exists (lit "webvpn"). split; [set_solver|done].
  - intros w name Hn ->%list_elem_of_singleton. done.
Qed.

Definition granted_last (io : Io) (s : LoginSession) : Prop :=
  ∃ resp, last (inbox io) = Some resp ∧ granted resp s.

Lemma form_channel_wire io :
  yields (form_channel_login worlds host gateway policy due binder username password) io
    (λ io' r, (∃ l, wire io' = wire io ++ l ∧ form_wire (dialled io) l) ∧
       ∀ s, r = Some (Ok s) → granted_last io' s).
Proof.
  unfold form_channel_login.
  apply yields_bind, yields_dial. split_and!;
    [split; [exists []; rewrite app_nil_r; split; [reflexivity|apply form_nothing]|done]
    |intros; split; [exists []; rewrite app_nil_r; split; [reflexivity|apply form_nothing]|done]|].
  intros c. apply yields_bind, yields_send. split; [split; [eexists; split; [reflexivity|apply form_asked]|done]|].
  intros c1. apply yields_bind, yields_receive; [intros; split; [eexists; split; [reflexivity|apply form_asked]|done]|].
  intros page c2. unfold carry at 1. destruct (negb _); [split; [eexists; split; [reflexivity|apply form_asked]|done]|].
  unfold ok_or_fail. destruct (csrf_token _) as [token|]; [|split; [eexists; split; [reflexivity|apply form_asked]|done]].
  apply yields_bind. unfold yields at 1. cbn [lift ok_or fst snd carry]. apply yields_bind. unfold yields at 1.
  destruct (action _) as [act|]; [|split; [eexists; split; [reflexivity|apply form_asked]|done]].
  cbn [lift ok_or fst snd carry].
  apply yields_bind, yields_dial. split_and!; [split; [eexists; split; [reflexivity|apply form_asked]|done]..|].
  intros c3. apply yields_bind, yields_send. cbn [wire].
  split; [split; [eexists; rewrite <-app_assoc; split; [reflexivity|apply form_posted]|done]|].
  intros c4. apply yields_bind, yields_receive.
  { intros. split; [eexists; rewrite <-app_assoc; split; [reflexivity|apply form_posted]|done]. }
  intros resp c5. split; [eexists; cbn [carry wire lift yields fst]; rewrite <-app_assoc; split; [reflexivity|apply form_posted]|].
  intros s [= Hs]. exists resp. split; [apply last_snoc|].
  by apply page_granted.
Qed.

Lemma init_verdict_done resp s : init_verdict resp = Ok (Done s) → granted resp s.
Proof.
  unfold init_verdict. destruct (is_3xx _ && _); [done|]. destruct (_ =? 404)%N; [done|].
  destruct (is_2xx _) eqn:E2; [|done]. simpl. destruct (parse_aggregate_auth_response _) as [doc|] eqn:Ep; [|by destruct (meta_refresh_steers_to_saml_acs _)].
  destruct (classify doc) eqn:E; try done; try (by destruct (negb _ || negb _)).
  destruct (session_from_aggregate doc resp) eqn:Es; [|done]. intros [= <-]. by eapply document_granted.
Qed.
Lemma reply_verdict_ok resp s : reply_verdict resp = Ok s → granted resp s.
Proof.
  unfold reply_verdict. destruct (is_3xx _ && _); [done|]. destruct (is_2xx _) eqn:E2; [|done]. simpl.
  destruct (meta_refresh_steers_to_saml_acs _); [done|].
  destruct (parse_aggregate_auth_response _) as [doc|] eqn:Ep; [|done].
  destruct (classify doc) eqn:E; try done. intros Hs. by eapply document_granted.
Qed.

Lemma aggregate_auth_wire io :
  yields (aggregate_auth_login worlds host gateway policy due binder username password user_agent) io
    (λ io' r, (∃ l, wire io' = wire io ++ l ∧ aggregate_wire (dialled io) l) ∧
       (∀ s, r = Some (Ok (Some s)) → granted_last io' s) ∧
       (r = Some (Ok None) → wire io' = wire io ++ [(dialled io, init_request)] ∧ dialled io' = S (dialled io))).
Proof.
  unfold aggregate_auth_login.
  apply yields_bind, yields_dial. split_and!;
    [split; [exists []; rewrite app_nil_r; split; [reflexivity|apply agg_nothing]|done]
    |intros; split; [exists []; rewrite app_nil_r; split; [reflexivity|apply agg_nothing]|done]|].
  intros c. apply yields_bind, yields_exchange. split.
  { intros e. split; [eexists; split; [reflexivity|apply agg_asked]|done]. }
  intros resp c1. unfold carry. apply yields_bind. unfold yields at 1. cbn [lift fst snd].
  destruct (init_verdict resp) as [v|e] eqn:Ev;
    [|split; [eexists; split; [reflexivity|apply agg_asked]|done]]. cbn [carry].
  destruct v as [|s|doc].
  - split; [eexists; split; [reflexivity|apply agg_asked]|]. split; [done|]. done.
  - split; [eexists; split; [reflexivity|apply agg_asked]|]. split; [|done].
    intros s' [= <-]. exists resp. split; [apply last_snoc|]. by apply init_verdict_done.
  - apply yields_bind, yields_attempt, yields_exchange. cbn [wire inbox dialled].
    rewrite <-app_assoc. split.
    + intros e. cbn [fmap option_fmap option_map carry]. apply yields_bind, yields_bind, yields_dial.
      cbn [wire dialled inbox].
      split_and!; [split; [eexists; split; [reflexivity|apply agg_replied]|done]
                  |intros; split; [eexists; split; [reflexivity|apply agg_replied]|done]|].
      intros c2. apply yields_exchange. cbn [wire inbox dialled fst snd]. rewrite <-app_assoc. split.
      { intros e'. split; [eexists; split; [reflexivity|apply agg_retried]|done]. }
      intros rr c3. cbn [carry]. apply yields_bind. unfold yields at 1. cbn [lift fst snd].
      destruct (reply_verdict rr) as [s|e'] eqn:Er;
        (split; [eexists; split; [reflexivity|apply agg_retried]|]); [|done].
      split; [|done]. intros s' [= <-]. exists rr. split; [apply last_snoc|]. by apply reply_verdict_ok.
    + intros rr c3. cbn [fmap option_fmap option_map carry]. apply yields_bind.
      unfold yields at 1. cbn [mret login_ret fst snd carry]. apply yields_bind. unfold yields at 1. cbn [lift fst snd].
      destruct (reply_verdict rr) as [s|e'] eqn:Er;
        (split; [eexists; split; [reflexivity|apply agg_replied]|]); [|done].
      split; [|done]. intros s' [= <-]. exists rr. split; [apply last_snoc|]. by apply reply_verdict_ok.
Qed.
Let login := perform_login_with_socket_binder worlds host gateway policy due binder username password user_agent.

Lemma login_yields io :
  yields login io (λ io' r, (∃ l, wire io' = wire io ++ l ∧ login_wire (dialled io) l) ∧
                            ∀ s, r = Some (Ok s) → granted_last io' s).
Proof.
  unfold login, perform_login_with_socket_binder. apply yields_bind.
  pose proof (aggregate_auth_wire io) as H. unfold yields at 1.
  destruct (aggregate_auth_login _ _ _ _ _ _ _ _ _ io) as [io1 r] eqn:E. unfold yields in H. rewrite E in H.
  cbn [fst snd] in *. destruct H as ((l & Hl & Hw) & Hs & Hn).
  assert (Hagg : ∃ l, wire io1 = wire io ++ l ∧ login_wire (dialled io) l)
    by (exists l; split; [done|by apply wire_aggregate]).
  destruct r as [[[s|]|e]|]; cbn [carry]; [split; [done|] | |done..].
  - intros s' [= <-]. by apply Hs.
  - destruct (Hn eq_refl) as [Hw1 Hd]. pose proof (form_channel_wire io1) as Hf. revert Hf. unfold yields.
    rewrite Hd, Hw1. intros [(l' & Hl' & Hf) Hg]. split; [|done].
    exists ((dialled io, init_request) :: l'). rewrite Hl', <-app_assoc. split; [done|by apply wire_fallback].
Qed.

(** Whatever the gateway and the network do, a login writes at most three requests, and
    the credentials travel in one of two ways only: in the reply, on the connection that
    answered the initial request and at most once more on a fresh one; or in the body of
    one POST, on a fresh connection, after the logon page was fetched on another. *)
Theorem login_on_the_wire io :
  ∃ l, wire (login io).1 = wire io ++ l ∧ login_wire (dialled io) l.
Proof. exact (proj1 (login_yields io)). Qed.

(** C16: A login succeeds only on the strength of the last response it read. Its status is
    between 200 and 299, and the cookie of the session is what that response gives: either
    the first webvpn cookie it sets, not cleared, by a page that says neither
    +CSCOE+/error nor login error nor second password and has no meta tag that steers to
    an identity provider; or the session token, or else the session id, of a config-auth
    document, even an empty one, which [empty_token_granted] shows against the comment of
    the source; or, without either, the first session cookie set along with a document of
    success or completion that reports no error and asks for no scan. *)
Theorem login_granted io s : (login io).2 = Some (Ok s) → granted_last (login io).1 s.
Proof. apply (proj2 (login_yields io)). Qed.
End proofs.

(** ** A login over the form channel *)

Section sample.
Let gateway : SocketAddr := V4 (MkIpv4Addr x0a x00 x00 x01) 443.
Let text (s : str) : list ReadEvent := [Bytes (utf8 s)].
Let status_line (code : string) : str := lit "HTTP/1.1 " ++ lit code ++ crlf.
Let logon_page : str :=
  status_line "200 OK" ++ lit "Set-Cookie: webvpnlogin=; expires=1970" ++ crlf ++ crlf
  ++ qlit "<form action=`/+webvpn+/index.html` method=`post`><input type=`hidden` name=`tgroup` value=``>"
  ++ qlit "<input type=hidden name='csrf_token' value='7788a9'><select name=`group_list`>"
  ++ qlit "<option value=`x`>X</option><option value=`vpn-ct` selected>V</option></select></form>".
Let landing_page : str :=
  status_line "200 OK" ++ lit "Set-Cookie: webvpn=0123abcd; path=/" ++ crlf
  ++ lit "Transfer-Encoding: chunked" ++ crlf ++ crlf ++ lit "3" ++ crlf ++ lit "ok." ++ crlf ++ lit "0" ++ crlf ++ crlf.
Let answers (n : nat) : Stream :=
  match n with
  | 0 => text (status_line "404 Not Found" ++ lit "Content-Length: 0" ++ crlf ++ crlf)
  | 1 => text logon_page ++ [UnexpectedEof]
  | _ => text landing_page
  end.
Definition sample_worlds (n : nat) : World Conn :=
  MkWorld true (λ _, true) true (λ _, true) true (λ _, true) (λ _ _ _, [(0%N, Some (Ok (MkConn (answers n) [])))]).
Definition sample_login : Io * option (result LoginError LoginSession) :=
  perform_login_with_socket_binder sample_worlds (lit "vpn.example") gateway Production None None
    (utf8 (lit "user")) (utf8 (lit "p&ss")) (lit "AnyConnect Win_x86_64 4.10.05095") (MkIo 0 [] []).
End sample.

Example sample_login_ok : sample_login.2 = Some (Ok (MkLoginSession (MkWebvpnCookie (lit "0123abcd")) false)).
Proof. vm_compute. reflexivity. Qed.
Example sample_login_wire : (λ r, r.1) <$> wire sample_login.1 = [0; 1; 2].
Proof. vm_compute. reflexivity. Qed.

Lemma login_granted_witness :
  sample_login.2 = Some (Ok (MkLoginSession (MkWebvpnCookie (lit "0123abcd")) false)) ∧
  granted_last sample_login.1 (MkLoginSession (MkWebvpnCookie (lit "0123abcd")) false).
Proof.
  assert (E : sample_login.2 = Some (Ok (MkLoginSession (MkWebvpnCookie (lit "0123abcd")) false)))
    by (vm_compute; reflexivity).
  split; [exact E|]. unfold sample_login in *. apply login_granted. exact E.
Defined.

(** ** The body of the POST *)

(** Reading percent-encoded text back, and the fields of a form. *)
Definition hex_value (c : N) : N := default 0%N (digit_val 16 c).
Fixpoint percent_decode (s : str) : str :=
  match s with
  | [] => []
  | c :: rest =>
      if (c =? 37)%N
      then match rest with
           | h :: l :: rest => (hex_value h * 16 + hex_value l)%N :: percent_decode rest
           | _ => rest
           end
      else c :: percent_decode rest
  end.
Definition form_field (f : str) : str * option str :=
  match split_once 61 f with Some (name, v) => (name, Some (percent_decode v)) | None => (f, None) end.
Definition form_fields (content : list byte) : list (str * option str) :=
  form_field <$> split_str [38%N] (byte_val <$> content).

Lemma hex_pair b :
  (hex_value (byte_val (hex_digit (N.shiftr (byte_val b) 4))) * 16
   + hex_value (byte_val (hex_digit (N.land (byte_val b) 0x0f))))%N = byte_val b.
Proof. destruct b; vm_compute; reflexivity. Qed.
Lemma unreserved_not_percent b : is_unreserved b = true → (byte_val b =? 37)%N = false.
Proof. destruct b; vm_compute; congruence. Qed.
Lemma percent_decode_byte b rest :
  percent_decode ((byte_val <$> percent_encode_byte b) ++ rest) = byte_val b :: percent_decode rest.
Proof.
  unfold percent_encode_byte. destruct (is_unreserved b) eqn:E; cbn [fmap list_fmap app percent_decode].
  - by rewrite unreserved_not_percent.
  - change (byte_val x25 =? 37)%N with true. cbn iota. by rewrite hex_pair.
Qed.
Lemma percent_roundtrip l : percent_decode (byte_val <$> percent_encode l) = byte_val <$> l.
Proof.
  unfold percent_encode. induction l as [|b l IH]; [done|]. cbn [mbind list_bind].
  rewrite fmap_app, percent_decode_byte, IH. done.
Qed.

(** The characters that delimit fields never occur in an encoded text. *)
Definition is_encoded (b : byte) : bool := is_unreserved b || bool_decide (b = x25).
Lemma percent_encode_byte_alphabet b : forallb is_encoded (percent_encode_byte b) = true.
Proof. destruct b; vm_compute; reflexivity. Qed.
Lemma percent_encode_alphabet l : forallb is_encoded (percent_encode l) = true.
Proof.
  unfold percent_encode. induction l as [|b l IH]; [done|]. cbn [mbind list_bind].
  by rewrite forallb_app, percent_encode_byte_alphabet, IH.
Qed.
Lemma percent_encode_fresh c l : is_encoded (byte_of_N c) = false → c ∉ byte_val <$> percent_encode l.
Proof.
  intros Hc (b & -> & Hin)%list_elem_of_fmap. pose proof (percent_encode_alphabet l) as H.
  rewrite forallb_forall in H. apply list_elem_of_In, H in Hin. rewrite byte_of_N_val in Hc. congruence.
Qed.

(** A field [name=value] of the body. *)
Definition field_text_of (name : str) (v : list byte) : str := name ++ 61%N :: (byte_val <$> percent_encode v).
Lemma field_fresh name v : 38%N ∉ name → 38%N ∉ field_text_of name v.
Proof.
  intros Hn. unfold field_text_of. rewrite elem_of_app, elem_of_cons.
  intros [?|[?|Hin]]; [done|done|]. revert Hin. by apply percent_encode_fresh.
Qed.
Lemma form_field_of name v : 61%N ∉ name → form_field (field_text_of name v) = (name, Some (byte_val <$> v)).
Proof. intros Hn. unfold form_field, field_text_of. rewrite split_once_app by done. by rewrite percent_roundtrip. Qed.

(** The fields of the body. *)
Definition body_fields (form : LoginForm) (token : str) (username password : list byte) : list (str * list byte) :=
  [(lit "tgroup", utf8 (default [] (tgroup form))); (lit "next", utf8 (default [] (next form)));
   (lit "tgcookieset", utf8 (default [] (tgcookieset form))); (lit "csrf_token", utf8 token);
   (lit "username", username); (lit "password", password)]
  ++ match group_list form with Some g => [(lit "group_list", utf8 g)] | None => [] end
  ++ [(lit "Login", utf8 (lit "Logon"))].

Lemma form_body_join form token username password :
  byte_val <$> form_body form token username password
  = join [38%N] (uncurry field_text_of <$> body_fields form token username password).
Proof.
  unfold form_body, body_fields. rewrite !fmap_app.
  destruct (group_list form) as [g|]; rewrite ?fmap_app;
    rewrite !(utf8_ascii (lit _)) by (apply (bool_decide_unpack _); vm_compute; exact I);
    cbn [app fmap list_fmap join uncurry]; unfold field_text_of; rewrite <-?app_assoc; reflexivity.
Qed.

Lemma body_fields_names form token username password :
  Forall (λ '(name, _), (61%N ∉ name) ∧ (38%N ∉ name)) (body_fields form token username password).
Proof.
  unfold body_fields. destruct (group_list form); cbn [app];
    repeat (constructor; [split; by apply (bool_decide_unpack _)|]); constructor.
Qed.

(** The credential POST carries exactly its fields: whatever bytes the form values,
    the username and the password consist of, reading the body back as a form gives each
    field with exactly its bytes, in the order of the form, and no other field. *)
Theorem form_body_roundtrip form token username password :
  form_fields (form_body form token username password)
  = (λ f : str * list byte, (f.1, Some (byte_val <$> f.2))) <$> body_fields form token username password.
Proof.
  unfold form_fields. rewrite form_body_join.
  pose proof (body_fields_names form token username password) as H.
  rewrite split_join; [|by unfold body_fields|].
  - rewrite <-list_fmap_compose. apply Forall_fmap_ext_1. eapply Forall_impl; [exact H|].
    intros [name v] [Hn _]. by apply form_field_of.
  - apply Forall_fmap. eapply Forall_impl; [exact H|]. intros [name v] [_ Hn]. by apply field_fresh.
Qed.

(** ** The headers of the requests *)

(** A value that cannot end its header line. *)
Definition header_value (v : str) : Prop := str_ok v ∧ (LF ∉ v) ∧ tight v.

Definition connect_headers (host user_agent : str) (session : LoginSession) : list (str * str) :=
  [(lit "Host", host); (lit "User-Agent", user_agent);
   (lit "Cookie", lit "webvpn=" ++ cookie_text (cookie session)); (lit "X-CSTP-Version", lit "1");
   (lit "X-CSTP-Hostname", host);
   (lit "X-CSTP-Protocol", qlit "`Copyright (c) 2004 Cisco Systems, Inc.`")].

Lemma tight_after c p v : is_whitespace c = false → tight v → v ≠ [] → tight (c :: p ++ v).
Proof.
  intros Hc [_ Hv] Hne. split; [done|]. destruct v as [|d v _] using rev_ind; [done|].
  rewrite app_assoc, app_comm_cons, last_snoc. by rewrite last_snoc in Hv.
Qed.

Lemma connect_headers_ok host user_agent session :
  header_value host → header_value user_agent → header_value (cookie_text (cookie session)) →
  cookie_text (cookie session) ≠ [] → Forall header_ok (connect_headers host user_agent session).
Proof.
  intros (_ & Hh & Th) (_ & Hu & Tu) (_ & Hc & Tc) Hne. unfold connect_headers.
  assert (Hcl : LF ∉ lit "webvpn=" ++ cookie_text (cookie session)).
  { rewrite elem_of_app. intros [H|?]; [|done]. revert H. by apply (bool_decide_unpack _). }
  assert (Tcl : tight (lit "webvpn=" ++ cookie_text (cookie session))) by by apply (tight_after 119 (lit "ebvpn=")).
  repeat (constructor; [split_and!; try done; by apply (bool_decide_unpack _)|]). constructor.
Qed.

(** The CONNECT request opens the tunnel endpoint with exactly its headers: when the
    host, the user agent and the cookie contain no line end, reading the request back
    gives the request line and the six fields in order, the cookie verbatim, and no
    further header. *)
Theorem connect_request_headers host user_agent session :
  header_value host → header_value user_agent → header_value (cookie_text (cookie session)) →
  cookie_text (cookie session) ≠ [] →
  let head := from_utf8_lossy (build_connect_request_with_user_agent host session user_agent) in
  lines head !! 0 = Some (lit "CONNECT /CSCOSSLC/tunnel HTTP/1.1") ∧
  parse_headers head = (λ '(name, v), (to_ascii_lowercase name, v)) <$> connect_headers host user_agent session.
Proof.
  intros Hh Hu Hc Hne head.
  assert (E : head = lit "CONNECT /CSCOSSLC/tunnel HTTP/1.1" ++ crlf
                     ++ header_text (connect_headers host user_agent session) ++ crlf).
  { unfold head, build_connect_request_with_user_agent. rewrite from_utf8_lossy_utf8.
    - unfold header_text, connect_headers, protocol_line. cbn [mbind list_bind fst snd]. rewrite <-!app_assoc. reflexivity.
    - destruct Hh as [Hh _], Hu as [Hu _], Hc as [Hc _].
      unfold str_ok in *. rewrite !Forall_app. split_and!; try done; by apply (bool_decide_unpack _). }
  rewrite E. split.
  - rewrite lines_line; [done|]. by apply (bool_decide_unpack _).
  - rewrite parse_header_text; [|by apply (bool_decide_unpack _)|by apply connect_headers_ok].
    apply list_fmap_ext. by intros _ [] _.
Qed.

Lemma connect_request_headers_witness :
  header_value (lit "vpn.example") ∧
  parse_headers (from_utf8_lossy (build_connect_request_with_user_agent (lit "vpn.example")
    (MkLoginSession (MkWebvpnCookie (lit "0123abcd")) false) (lit "AnyConnect")))
  = (λ '(name, v), (to_ascii_lowercase name, v)) <$> connect_headers (lit "vpn.example") (lit "AnyConnect")
      (MkLoginSession (MkWebvpnCookie (lit "0123abcd")) false).
Proof.
  assert (H : ∀ s, forallb is_scalar s = true → bool_decide (LF ∉ s) = true → tight s → header_value s).
  { intros s H1 H2 H3. split_and!; [|by apply (bool_decide_eq_true _)|done].
    apply Forall_forall. intros c Hc. rewrite forallb_forall in H1. by apply H1, list_elem_of_In. }
  assert (H0 : header_value (lit "vpn.example")) by (apply H; [reflexivity|reflexivity|by split]).
  split; [exact H0|]. apply connect_request_headers; [exact H0|apply H; [reflexivity|reflexivity|by split]..|done].
Defined.

(** ** Deviations *)

(** A document with an empty session token is a success, and its cookie is empty. *)
Example empty_token_granted :
  let doc := qlit "<config-auth type=`complete`><session-token></session-token></config-auth>" in
  reply_verdict (MkLoginResponse 200 [] (utf8 doc)) = Ok (MkLoginSession (MkWebvpnCookie []) false).
Proof. vm_compute. reflexivity. Qed.

(** A cleared cookie hides a later one of the same name: the answer that clears the old
    session and sets the new one is refused. *)
Example cleared_cookie_hides_new_one :
  let answer := MkLoginResponse 200
    [(lit "set-cookie", lit "webvpn=; expires=Thu, 01 Jan 1970"); (lit "set-cookie", lit "webvpn=0123abcd; path=/")] [] in
  form_verdict answer = Err (LoginRejected None) ∧
  named_cookie (lit "webvpn") (drop 1 (headers answer)) = Some (lit "0123abcd").
Proof. vm_compute. split; reflexivity. Qed.
