(* ===== verification/Offer.v ===== *)
(** * The tunnel offer

    The parser of the CONNECT answer in [session.rs] of the CSTP crate, the netmask
    arithmetic, and the redaction of the texts that reach the diagnostics. *)

From Stdlib Require Import NArith Strings.Byte Lia.
From S2P Require Import Prelude Text Connector Http.

(** cstp/session.rs:33-34 [MAX_OFFER] *)
Definition MAX_OFFER : N := 16 * 1024.

(** cstp/session.rs:36-53 [TunnelOffer] *)
Record TunnelOffer := MkTunnelOffer {
  ipv4_address : Ipv4Addr;
  prefix : N;
  mtu : N;
  dns_servers : list Ipv4Addr;
  routes : list str;
}.

(** ** Netmasks *)

(** The bits of an address, from the left. *)
Definition octet_bits (b : byte) : list bool :=
  (λ bit, negb (N.land (byte_val b) (N.shiftl 1 bit) =? 0)%N) <$> [7; 6; 5; 4; 3; 2; 1; 0]%N.

(** cstp/session.rs:583-601 [netmask_to_prefix]; the state is the prefix counted so far
    and whether a zero bit was seen. *)
Fixpoint count_prefix (bits : list bool) (prefix : N) (seen_zero : bool) : option N :=
  match bits with
  | [] => Some prefix
  | true :: bits => if seen_zero then None else count_prefix bits (prefix + 1) seen_zero
  | false :: bits => count_prefix bits prefix true
  end.
Definition netmask_to_prefix (mask : Ipv4Addr) : option N :=
  count_prefix (octets mask ≫= octet_bits) 0 false.

(** ** The offer *)

(** What the lines said so far. *)
Record Offer := MkOffer {
  o_mtu : option N;
  o_address : option Ipv4Addr;
  o_netmask : option Ipv4Addr;
  o_dns : list Ipv4Addr;
  o_routes : list str;
}.

(** cstp/session.rs:507-529 [parse_offer]: the key, normalized, and the value of a line. *)
Definition split_line (line : str) : option (str * str) :=
  match split_once 58 line with
  | Some (key, value) => Some (key, trim value)
  | None =>
      idx ← find_if is_whitespace line;
      Some (trim (take idx line), trim (drop idx line))
  end.
Definition normalize_key (key : str) : str :=
  to_ascii_uppercase
    match strip_prefix (lit "X-CSTP-") key with
    | Some rest => lit "CSTP_" ++ replace [45%N] [95%N] rest
    | None => key
    end.

(** cstp/session.rs:549-558 [parse_offer]: the items of a list. *)
Definition parse_route (token : str) : option str :=
  '(net, p) ← split_once 47 token;
  _ ← parse_ipv4 net;
  p ← parse_u8 p;
  if (32 <? p)%N then None else Some token.

(** cstp/session.rs:507-567 [parse_offer]: one line; [None] rejects the offer. *)
Definition offer_line (o : Offer) (line : str) : option Offer :=
  let '(MkOffer m a n d r) := o in
  match split_line line with
  | None => Some o
  | Some (key, value) =>
      let key := normalize_key key in
      if bool_decide (key = lit "CSTP_MTU") then
        v ← parse_u16 value;
        if (v <? 68)%N then None else Some (MkOffer (Some v) a n d r)
      else if bool_decide (key = lit "CSTP_ADDRESS") then
        v ← parse_ipv4 value; Some (MkOffer m (Some v) n d r)
      else if bool_decide (key = lit "CSTP_NETMASK") then
        v ← parse_ipv4 value; Some (MkOffer m a (Some v) d r)
      else if bool_decide (key = lit "CSTP_DNS") then
        l ← mapM parse_ipv4 (split_whitespace value); Some (MkOffer m a n (d ++ l) r)
      else if bool_decide (key = lit "CSTP_SPLIT_INCLUDE") then
        l ← mapM parse_route (split_whitespace value); Some (MkOffer m a n d (r ++ l))
      else Some o
  end.
Fixpoint offer_lines (o : Offer) (ls : list str) : option Offer :=
  match ls with
  | [] => Some o
  | line :: ls => o ← offer_line o line; offer_lines o ls
  end.

(** cstp/session.rs:477-581 [parse_offer] *)
Definition empty_offer : Offer := MkOffer None None None [] [].
Definition parse_offer (head : str) : option TunnelOffer :=
  code ← parse_status head;
  if negb (in_range 200 299 code) then None
  else
    o ← offer_lines empty_offer (drop 1 (lines head));
    if contains (lit "dtls") (to_ascii_lowercase head) then None
    else
      mask ← o_netmask o;
      p ← netmask_to_prefix mask;
      a ← o_address o;
      m ← o_mtu o;
      Some (MkTunnelOffer a p m (o_dns o) (o_routes o)).

(** ** Redaction *)

(** cstp/session.rs:180-195 [redact_io_detail] *)
Definition markers : list str :=
  [lit "cookie"; lit "authorization"; lit "password"; lit "passwd"; lit "credential"; lit "token";
   lit "secret"; lit "webvpn"; lit "bearer"; lit "username"].
Definition min_option (l : list nat) : option nat :=
  match l with [] => None | n :: l => Some (foldr Nat.min n l) end.
Definition sensitive_start (text : str) : option nat :=
  min_option (omap (λ m, find m (to_ascii_lowercase text)) markers).

(** cstp/session.rs:196-209 [redact_io_detail] *)
Definition redact_word (word : str) : str :=
  if contains (lit "://") word then lit "[url redacted]"
  else if contains (lit "=") word then lit "[value redacted]"
  else word.

(** cstp/session.rs:177-214 [redact_io_detail] *)
Definition redact_io_detail (text : str) : str :=
  let start := sensitive_start text in
  let pre := take (default (length text) start) text in
  join [32%N] (redact_word <$> split_whitespace pre)
  ++ match start with Some _ => lit " [sensitive detail redacted]" | None => [] end.

(** ** Netmasks *)

Lemma count_prefix_seen bits p : count_prefix bits p true = Some p ∨ count_prefix bits p true = None.
Proof. induction bits as [|[] bits IH]; simpl; auto. Qed.
Lemma count_prefix_zeros bits p q :
  count_prefix bits p true = Some q ↔ q = p ∧ bits = replicate (length bits) false.
Proof.
  induction bits as [|[] bits IH]; simpl; [naive_solver|naive_solver|].
  rewrite IH. split; [intros [-> H]; by rewrite <-H|]. intros [-> [= H]]. done.
Qed.
Lemma count_prefix_spec bits p q :
  count_prefix bits p false = Some q ↔
  ∃ k j, q = (p + N.of_nat k)%N ∧ bits = replicate k true ++ replicate j false.
Proof.
  revert p. induction bits as [|[] bits IH]; intros p; simpl.
  - split; [intros [= <-]; exists 0, 0; split; [lia|done]|].
    intros (k & j & -> & E). symmetry in E. apply app_nil in E as [E _]. destruct k; [|done]. f_equal. lia.
  - rewrite IH. split.
    + intros (k & j & -> & ->). exists (S k), j. split; [lia|done].
    + intros (k & j & -> & E). destruct k as [|k]; [by destruct j|]. injection E as ->. exists k, j. split; [lia|done].
  - rewrite count_prefix_zeros. split.
    + intros [-> H]. exists 0, (S (length bits)). split; [lia|]. simpl. by rewrite <-H.
    + intros (k & j & -> & E). destruct k as [|k]; [|done]. destruct j as [|j]; [done|]. injection E as ->.
      rewrite length_replicate. split; [lia|done].
Qed.

(** The mask of a prefix: its first bits set and no others. *)
Definition mask_octet (n : nat) : byte := byte_of_N (256 - 2 ^ (8 - N.of_nat (Nat.min n 8))).
Definition prefix_mask (p : N) : Ipv4Addr :=
  let p := N.to_nat p in
  MkIpv4Addr (mask_octet p) (mask_octet (p - 8)) (mask_octet (p - 16)) (mask_octet (p - 24)).

(** A byte is its bits. *)
Definition octet_of_bits (l : list bool) : byte := byte_of_N (foldl (λ acc b, 2 * acc + N.b2n b)%N 0%N l).
Lemma octet_bits_inv b : octet_of_bits (octet_bits b) = b.
Proof. destruct b; vm_compute; reflexivity. Qed.
Lemma octet_bits_inj a b : octet_bits a = octet_bits b → a = b.
Proof. intros E. by rewrite <-(octet_bits_inv a), E, octet_bits_inv. Qed.
Lemma address_bits_inj a b : (octets a ≫= octet_bits) = (octets b ≫= octet_bits) → a = b.
Proof.
  destruct a as [a1 a2 a3 a4], b as [b1 b2 b3 b4]. unfold octets, octet_bits. simpl. intros E.
  assert (H : octet_bits a1 = octet_bits b1 ∧ octet_bits a2 = octet_bits b2
            ∧ octet_bits a3 = octet_bits b3 ∧ octet_bits a4 = octet_bits b4).
  { unfold octet_bits. simpl. injection E. intros. split_and!; congruence. }
  destruct H as (H1 & H2 & H3 & H4). f_equal; by apply octet_bits_inj.
Qed.
Lemma prefix_mask_bits p : (p ≤ 32)%N →
  (octets (prefix_mask p) ≫= octet_bits) = replicate (N.to_nat p) true ++ replicate (32 - N.to_nat p) false.
Proof.
  intros Hp. rewrite <-(N2Nat.id p) in Hp |- *. rewrite Nat2N.id. generalize dependent (N.to_nat p).
  intros n Hn. do 33 (destruct n as [|n]; [vm_compute; reflexivity|]). lia.
Qed.

Lemma netmask_prefix_iff mask p :
  netmask_to_prefix mask = Some p ↔ (p ≤ 32)%N ∧ mask = prefix_mask p.
Proof.
  unfold netmask_to_prefix. rewrite count_prefix_spec. split.
  - intros (k & j & -> & E).
    assert (Hl : k + j = 32).
    { apply (f_equal length) in E. rewrite length_app, !length_replicate in E. rewrite <-E. by destruct mask. }
    split; [lia|]. apply address_bits_inj. rewrite prefix_mask_bits by lia. rewrite E.
    rewrite N.add_0_l, Nat2N.id. f_equal. f_equal. lia.
  - intros [Hp ->]. exists (N.to_nat p), (32 - N.to_nat p). split; [lia|]. by apply prefix_mask_bits.
Qed.

(** The loop that counts the bits of a netmask is the inverse of the mask of a prefix:
    it accepts a mask exactly when the mask is a block of ones followed by zeros, and
    then returns the length of the block. *)
Theorem netmask_to_prefix_spec mask p :
  netmask_to_prefix mask = Some p ↔ (p ≤ 32)%N ∧ mask = prefix_mask p.
Proof. apply netmask_prefix_iff. Qed.

(** ** Redaction *)

Lemma min_option_le l n k : min_option l = Some k → n ∈ l → k ≤ n.
Proof.
  destruct l as [|m l]; [done|]. simpl. intros [= <-].
  assert (H : ∀ l m n, n ∈ m :: l → foldr Nat.min m l ≤ n).
  { clear. induction l as [|x l IH]; intros m n; simpl; [by intros ->%list_elem_of_singleton|].
    rewrite !elem_of_cons. intros [->|[->|Hn]].
    - pose proof (IH m m ltac:(left)). lia.
    - lia.
    - pose proof (IH m n ltac:(by right)). lia. }
  apply H.
Qed.
Lemma sensitive_start_le text m i :
  m ∈ markers → find m (to_ascii_lowercase text) = Some i →
  ∃ k, sensitive_start text = Some k ∧ k ≤ i.
Proof.
  intros Hm Hi. unfold sensitive_start.
  assert (Hin : i ∈ omap (λ m, find m (to_ascii_lowercase text)) markers) by (apply list_elem_of_omap; eauto).
  destruct (min_option _) as [k|] eqn:E; [exists k; split; [done|by eapply min_option_le]|].
  by destruct (omap _ _); [apply elem_of_nil in Hin|].
Qed.

(** What is kept of the text comes before every marker. *)
Lemma kept_no_marker text m :
  m ∈ markers → m ≠ [] →
  find m (to_ascii_lowercase (take (default (length text) (sensitive_start text)) text)) = None.
Proof.
  intros Hm Hne. set (k := default (length text) (sensitive_start text)).
  destruct (find m (to_ascii_lowercase (take k text))) as [j|] eqn:E; [|done]. exfalso.
  pose proof (find_bound _ _ _ E) as Hb. unfold to_ascii_lowercase in Hb. rewrite length_fmap, length_take in Hb.
  assert (E' : find m (to_ascii_lowercase text) = Some j).
  { rewrite <-(take_drop k text). unfold to_ascii_lowercase. rewrite fmap_app. by apply find_app_l. }
  destruct (sensitive_start_le text m j Hm E') as (i & Hi & Hle). subst k. rewrite Hi in Hb. simpl in Hb.
  destruct m; [done|]. simpl in Hb. lia.
Qed.

Lemma lower_join ws : to_ascii_lowercase (join [32%N] ws) = join [32%N] (to_ascii_lowercase <$> ws).
Proof.
  induction ws as [|w ws IH]; [done|]. destruct ws as [|v ws]; [done|].
  change (join [32%N] (w :: v :: ws)) with (w ++ [32%N] ++ join [32%N] (v :: ws)).
  unfold to_ascii_lowercase at 1. rewrite !fmap_app. change (fmap char_lower (join [32%N] (v :: ws))) with (to_ascii_lowercase (join [32%N] (v :: ws))).
  rewrite IH. done.
Qed.

(** A pattern without spaces that occurs in no word and in no replacement does not occur
    in the redacted text. *)
Lemma redacted_avoids p text :
  p ≠ [] → 32%N ∉ p →
  (∀ w, w ∈ split_whitespace (take (default (length text) (sensitive_start text)) text) →
     find p (to_ascii_lowercase (redact_word w)) = None) →
  find p (lit "[sensitive detail redacted]") = None →
  find p (to_ascii_lowercase (redact_io_detail text)) = None.
Proof.
  intros Hp Hs Hw Hl. unfold redact_io_detail. set (pre := take _ text) in *.
  assert (Hj : find p (to_ascii_lowercase (join [32%N] (redact_word <$> split_whitespace pre))) = None).
  { rewrite lower_join. apply find_None_join; [done|done|].
    apply Forall_forall. intros x (w & -> & (v & -> & Hin)%list_elem_of_fmap)%list_elem_of_fmap. by apply Hw. }
  destruct (sensitive_start text); [|by rewrite app_nil_r].
  change (lit " [sensitive detail redacted]") with (32%N :: lit "[sensitive detail redacted]").
  unfold to_ascii_lowercase in *. rewrite fmap_app, fmap_cons.
  apply find_None_separated; [done|done|done|]. exact Hl.
Qed.

(** Case does not matter to a pattern without letters. *)
Lemma find_lower p s : Forall (λ c, is_ascii_lowercase c = false ∧ is_ascii_uppercase c = false) p →
  find p (to_ascii_lowercase s) = find p s.
Proof.
  intros Hp.
  assert (Hs : ∀ s, starts_with p (to_ascii_lowercase s) = starts_with p s).
  { clear s. induction Hp as [|c p [Hc Hc'] _ IH]; intros s; [done|]. destruct s as [|d s]; [done|].
    unfold to_ascii_lowercase. rewrite fmap_cons. fold (to_ascii_lowercase s). cbn [starts_with]. rewrite IH. f_equal.
    unfold char_lower. destruct (is_ascii_uppercase d) eqn:Ed; [|done].
    apply in_range_spec in Ed. destruct (N.eqb_spec c d) as [->|_].
    - apply in_range_false in Hc'. lia.
    - apply N.eqb_neq. intros ->. apply in_range_false in Hc. lia. }
  induction s as [|d s IH]; [done|]. unfold to_ascii_lowercase. rewrite fmap_cons. fold (to_ascii_lowercase s).
  cbn [find]. rewrite IH. change (char_lower d :: to_ascii_lowercase s) with (to_ascii_lowercase (d :: s)). by rewrite Hs.
Qed.

(** The words of what is kept. *)
Lemma word_no_marker text m w :
  m ∈ markers → m ≠ [] → w ∈ split_whitespace (take (default (length text) (sensitive_start text)) text) →
  find m (to_ascii_lowercase w) = None.
Proof.
  intros Hm Hne (a & b & E)%split_whitespace_infix. pose proof (kept_no_marker text m Hm Hne) as H.
  rewrite E in H. unfold to_ascii_lowercase in H. rewrite !fmap_app in H. by apply find_None_infix in H.
Qed.

(** The side conditions of a literal pattern. *)
Definition pattern_ok (m : str) : bool :=
  negb (bool_decide (m = [])) && bool_decide (32%N ∉ m)
  && bool_decide (find m (lit "[sensitive detail redacted]") = None)
  && bool_decide (find m (lit "[url redacted]") = None) && bool_decide (find m (lit "[value redacted]") = None).
Lemma patterns_ok : Forall (λ m, pattern_ok m = true) (lit "://" :: lit "=" :: markers).
Proof. repeat (constructor; [vm_compute; reflexivity|]). constructor. Qed.

(** C37: A text that reaches the diagnostics after redaction contains none of the words
    that announce a credential, in any case, no URL and no name with a value. *)
Theorem redaction_removes_secrets text m :
  m ∈ lit "://" :: lit "=" :: markers → contains m (to_ascii_lowercase (redact_io_detail text)) = false.
Proof.
  intros Hm. pose proof patterns_ok as Hok. rewrite Forall_forall in Hok. specialize (Hok m Hm).
  unfold pattern_ok in Hok. bool_hyps. unfold contains. apply bool_decide_eq_false. intros [i Hi].
  rewrite redacted_avoids in Hi; [discriminate|assumption|assumption| |assumption].
  intros w Hw. unfold redact_word.
  destruct (contains (lit "://") w) eqn:Eu.
  { change (to_ascii_lowercase (lit "[url redacted]")) with (lit "[url redacted]"). assumption. }
  destruct (contains (lit "=") w) eqn:Ev.
  { change (to_ascii_lowercase (lit "[value redacted]")) with (lit "[value redacted]"). assumption. }
  apply not_contains_find in Eu, Ev.
  apply elem_of_cons in Hm as [->|[->|Hm]%elem_of_cons].
  - rewrite find_lower; [assumption|]. repeat (constructor; [by split|]). constructor.
  - rewrite find_lower; [assumption|]. repeat (constructor; [by split|]). constructor.
  - by eapply word_no_marker.
Qed.
Lemma redaction_removes_secrets_witness :
  lit "password" ∈ lit "://" :: lit "=" :: markers ∧
  contains (lit "password") (to_ascii_lowercase (redact_io_detail (lit "GET https://vpn/x failed a=b PassWord=hunter2"))) = false.
Proof.
  assert (H : lit "password" ∈ lit "://" :: lit "=" :: markers) by by apply (bool_decide_unpack _).
  split; [exact H|]. apply redaction_removes_secrets. exact H.
Defined.
Example redaction_sample :
  redact_io_detail (lit "GET https://vpn/x failed  a=b PassWord=hunter2")
  = lit "GET [url redacted] failed [value redacted] [sensitive detail redacted]".
Proof. vm_compute. reflexivity. Qed.

(** ** What offer is accepted *)

(** The name of a line's key: a header of the dialect stands for a key of the old one. *)
Definition plain_key (key : str) : str :=
  match strip_prefix (lit "X-CSTP-") key with
  | Some rest => lit "CSTP_" ++ to_ascii_uppercase (replace [45%N] [95%N] rest)
  | None => to_ascii_uppercase key
  end.
(** A line says something of a key: its name and its value stand around the first colon, or,
    if it has none, around the first blank. *)
Inductive line_says : str → str → str → Prop :=
  | says_colon k v : (58%N ∉ k) → line_says (k ++ 58%N :: v) (plain_key k) (trim v)
  | says_blank k c v : (58%N ∉ k ++ c :: v) → Forall (λ d, is_whitespace d = false) k → is_whitespace c = true →
      line_says (k ++ c :: v) (plain_key k) (trim (c :: v)).
(** The values the lines give a key, in order. *)
Inductive said (key : str) : list str → list str → Prop :=
  | said_none : said key [] []
  | said_here line ls v vs : line_says line key v → said key ls vs → said key (line :: ls) (v :: vs)
  | said_skip line ls vs : (∀ v, ¬ line_says line key v) → said key ls vs → said key (line :: ls) vs.
(** A network: an address, a slash and a prefix of at most 32. *)
Definition network_text (r : str) : Prop :=
  ∃ net p n, r = net ++ 47%N :: p ∧ (47%N ∉ net) ∧ is_Some (parse_ipv4 net) ∧ parse_u8 p = Some n ∧ (n ≤ 32)%N.

Lemma normalize_plain k : normalize_key k = plain_key k.
Proof. unfold normalize_key, plain_key. destruct (strip_prefix _ k); [|done]. unfold to_ascii_uppercase. by rewrite fmap_app. Qed.
Lemma split_line_says line k v : split_line line = Some (k, v) → line_says line (normalize_key k) v.
Proof.
  unfold split_line. rewrite normalize_plain. destruct (split_once 58 line) as [[a b]|] eqn:E.
  - intros [= <- <-]. apply split_once_Some in E as [-> Ha]. by constructor.
  - apply split_once_None in E. intros (i & Hi & [= <- <-])%bind_Some. apply find_if_Some in Hi as (c & Hs & Hc & Hf).
    assert (drop i line = c :: drop (S i) line) as Hd.
    { rewrite Hs at 1. rewrite drop_app_ge by (rewrite length_take; lia).
      apply (f_equal length) in Hs. rewrite length_app, length_take in Hs. simpl in Hs. rewrite length_drop in Hs.
      rewrite length_take. replace (i - Nat.min i (length line)) with 0 by lia. done. }
    rewrite Hd, (trim_tight (take i line)) by (by apply word_tight). rewrite Hs at 1. constructor; [by rewrite <-Hs|done|done].
Qed.
Lemma line_says_split line key v : line_says line key v → ∃ k, split_line line = Some (k, v) ∧ normalize_key k = key.
Proof.
  intros [k w Hk|k c w Hk Hw Hc]; exists k; rewrite normalize_plain; (split; [|done]); unfold split_line.
  - by rewrite split_once_app.
  - rewrite (proj2 (split_once_None 58 _)) by done. rewrite find_if_app by done. cbn [mbind option_bind].
    rewrite take_app_length, drop_app_length. by rewrite (trim_tight k) by (by apply word_tight).
Qed.

(** The values of a key, computed. *)
Definition value_in (key line : str) : option str :=
  '(k, v) ← split_line line; if bool_decide (normalize_key k = key) then Some v else None.
Definition values_in (key : str) (ls : list str) : list str := omap (value_in key) ls.
Lemma value_in_says key line v : value_in key line = Some v ↔ line_says line key v.
Proof.
  unfold value_in. split.
  - intros ([k w] & Hs & Hk)%bind_Some. case_bool_decide as E; [|done]. injection Hk as <-. subst key. by apply split_line_says.
  - intros (k & -> & <-)%line_says_split. simpl. by rewrite bool_decide_true.
Qed.
Lemma said_values key ls vs : said key ls vs ↔ vs = values_in key ls.
Proof.
  split.
  - induction 1 as [|line ls v vs Hl _ ->|line ls vs Hl _ ->]; simpl; [done|by apply value_in_says in Hl as ->|].
    destruct (value_in key line) as [v|] eqn:E; [|done]. apply value_in_says in E. by destruct (Hl v).
  - intros ->. induction ls as [|line ls IH]; simpl; [constructor|]. destruct (value_in key line) as [v|] eqn:E; simpl.
    + apply value_in_says in E. by constructor.
    + constructor; [|done]. intros v Hv%value_in_says. congruence.
Qed.

(** The last of the values, all of which must be readable. *)
Fixpoint last_read {A} (f : str → option A) (o : option A) (vs : list str) : option (option A) :=
  match vs with [] => Some o | v :: vs => x ← f v; last_read f (Some x) vs end.
Lemma last_read_iff {A} (f : str → option A) vs : ∀ o o',
  last_read f o vs = Some o' ↔ Forall (λ v, is_Some (f v)) vs ∧ o' = match last vs with Some v => f v | None => o end.
Proof.
  induction vs as [|v vs IH]; intros o o'; [simpl; split; [intros [= ->]; by split; [constructor|]|by intros [_ ->]]|].
  rewrite last_cons, Forall_cons. cbn [last_read]. destruct (f v) as [x|] eqn:E; cbn [mbind option_bind].
  - rewrite IH. destruct (last vs); rewrite ?E; naive_solver.
  - split; [done|]. by intros [[[] _] _].
Qed.
Definition read_mtu (v : str) : option N := m ← parse_u16 v; if (m <? 68)%N then None else Some m.
Lemma mapM_snoc_app {A B} (f : A → option B) l1 l2 : mapM f (l1 ++ l2) = x ← mapM f l1; y ← mapM f l2; Some (x ++ y).
Proof.
  induction l1 as [|a l1 IH]; simpl; [by destruct (mapM f l2)|]. destruct (f a); simpl; [|done]. rewrite IH.
  destruct (mapM f l1); simpl; [|done]. by destruct (mapM f l2).
Qed.

(** What the values make of an offer, key by key. *)
Definition offer_of (o : Offer) (vm va vn vd vr : list str) : option Offer :=
  m ← last_read read_mtu (o_mtu o) vm;
  a ← last_read parse_ipv4 (o_address o) va;
  n ← last_read parse_ipv4 (o_netmask o) vn;
  d ← mapM parse_ipv4 (vd ≫= split_whitespace);
  r ← mapM parse_route (vr ≫= split_whitespace);
  Some (MkOffer m a n (o_dns o ++ d) (o_routes o ++ r)).
Definition offer_fields (o : Offer) (ls : list str) : option Offer :=
  offer_of o (values_in (lit "CSTP_MTU") ls) (values_in (lit "CSTP_ADDRESS") ls) (values_in (lit "CSTP_NETMASK") ls)
    (values_in (lit "CSTP_DNS") ls) (values_in (lit "CSTP_SPLIT_INCLUDE") ls).
Lemma values_cons key line ls :
  values_in key (line :: ls) = match value_in key line with Some v => v :: values_in key ls | None => values_in key ls end.
Proof. done. Qed.
#[local] Ltac decide_keys := repeat match goal with
  | |- context [bool_decide (lit ?x = lit ?y)] =>
      first [rewrite (bool_decide_true (lit x = lit y)) by reflexivity | rewrite (bool_decide_false (lit x = lit y)) by discriminate]
  end; cbv iota.
Lemma offer_lines_fields ls : ∀ o, offer_lines o ls = offer_fields o ls.
Proof.
  induction ls as [|line ls IH]; intros [m a n d r]; [unfold offer_fields, offer_of; simpl; by rewrite !app_nil_r|].
  cbn [offer_lines]. unfold offer_line, offer_fields in *. rewrite !values_cons. unfold value_in.
  destruct (split_line line) as [[key value]|]; [|apply IH]. cbn [mbind option_bind]. revert IH.
  generalize (values_in (lit "CSTP_MTU") ls), (values_in (lit "CSTP_ADDRESS") ls), (values_in (lit "CSTP_NETMASK") ls),
    (values_in (lit "CSTP_DNS") ls), (values_in (lit "CSTP_SPLIT_INCLUDE") ls), (normalize_key key).
  intros vm va vn vd vr k IH.
  destruct (decide (k = lit "CSTP_MTU")) as [->|K1]; [decide_keys|].
  { unfold offer_of. cbn [last_read o_mtu o_address o_netmask o_dns o_routes]. unfold read_mtu.
    destruct (parse_u16 value) as [v|]; cbn [mbind option_bind]; [|done]. destruct (v <? 68)%N; cbn [mbind option_bind]; [done|]. apply IH. }
  destruct (decide (k = lit "CSTP_ADDRESS")) as [->|K2]; [decide_keys|].
  { unfold offer_of. cbn [last_read o_mtu o_address o_netmask o_dns o_routes].
    destruct (parse_ipv4 value) as [v|]; cbn [mbind option_bind]; [apply IH|]. by destruct (last_read read_mtu m vm). }
  destruct (decide (k = lit "CSTP_NETMASK")) as [->|K3]; [decide_keys|].
  { unfold offer_of. cbn [last_read o_mtu o_address o_netmask o_dns o_routes].
    destruct (parse_ipv4 value) as [v|]; cbn [mbind option_bind]; [apply IH|].
    destruct (last_read read_mtu m vm); [|done]. by destruct (last_read parse_ipv4 a va). }
  destruct (decide (k = lit "CSTP_DNS")) as [->|K4]; [decide_keys|].
  { unfold offer_of. cbn [mbind list_bind o_mtu o_address o_netmask o_dns o_routes]. rewrite mapM_snoc_app.
    destruct (mapM parse_ipv4 (split_whitespace value)) as [l|]; cbn [mbind option_bind].
    - rewrite IH. unfold offer_of. cbn [o_mtu o_address o_netmask o_dns o_routes].
      destruct (last_read read_mtu m vm); [|done]. destruct (last_read parse_ipv4 a va); [|done].
      destruct (last_read parse_ipv4 n vn); [|done]. simpl. destruct (mapM parse_ipv4 (vd ≫= split_whitespace)); [|done].
      simpl. by rewrite app_assoc.
    - destruct (last_read read_mtu m vm); [|done]. destruct (last_read parse_ipv4 a va); [|done].
      by destruct (last_read parse_ipv4 n vn). }
  destruct (decide (k = lit "CSTP_SPLIT_INCLUDE")) as [->|K5]; [decide_keys|].
  { unfold offer_of. cbn [mbind list_bind o_mtu o_address o_netmask o_dns o_routes]. rewrite mapM_snoc_app.
    destruct (mapM parse_route (split_whitespace value)) as [l|]; cbn [mbind option_bind].
    - rewrite IH. unfold offer_of. cbn [o_mtu o_address o_netmask o_dns o_routes].
      destruct (last_read read_mtu m vm); [|done]. destruct (last_read parse_ipv4 a va); [|done].
      destruct (last_read parse_ipv4 n vn); [|done]. simpl. destruct (mapM parse_ipv4 (vd ≫= split_whitespace)); [|done].
      simpl. destruct (mapM parse_route (vr ≫= split_whitespace)); [|done]. simpl. by rewrite app_assoc.
    - destruct (last_read read_mtu m vm); [|done]. destruct (last_read parse_ipv4 a va); [|done].
      destruct (last_read parse_ipv4 n vn); [|done]. simpl. by destruct (mapM parse_ipv4 (vd ≫= split_whitespace)). }
  rewrite !bool_decide_false by done. apply IH.
Qed.

Lemma parse_route_network token r : parse_route token = Some r ↔ r = token ∧ network_text token.
Proof.
  unfold parse_route, network_text. split.
  - intros ([net p] & Hs & (ip & Hip & (n & Hn & Hr)%bind_Some)%bind_Some)%bind_Some.
    destruct (N.ltb_spec 32 n); [done|]. injection Hr as <-. split; [done|]. apply split_once_Some in Hs as [-> Hnet].
    by exists net, p, n.
  - intros (-> & net & p & n & -> & Hnet & [ip Hip] & Hn & Hle). rewrite split_once_app by done. simpl. rewrite Hip. simpl. rewrite Hn. simpl.
    by destruct (N.ltb_spec 32 n); [lia|].
Qed.
Lemma mapM_routes ts rs : mapM parse_route ts = Some rs ↔ rs = ts ∧ Forall network_text ts.
Proof.
  rewrite mapM_Some. split.
  - induction 1 as [|t r ts rs [-> Ht]%parse_route_network _ [-> IH]]; [by split; [|constructor]|]. split; [done|by constructor].
  - intros [-> Hf]. induction Hf as [|t ts Ht _ IH]; constructor; [by apply parse_route_network|done].
Qed.
Lemma read_mtu_iff v : is_Some (read_mtu v) ↔ ∃ m, parse_u16 v = Some m ∧ (68 ≤ m)%N.
Proof.
  unfold read_mtu. split.
  - intros [x (m & Hm & Hx)%bind_Some]. exists m. split; [done|]. destruct (N.ltb_spec m 68); [done|lia].
  - intros (m & -> & Hm). simpl. destruct (N.ltb_spec m 68); [lia|]. by eexists.
Qed.
Lemma last_read_mtu vs : Forall (λ v, is_Some (read_mtu v)) vs → last vs ≫= read_mtu = last vs ≫= parse_u16.
Proof.
  intros Hf. destruct (last vs) as [v|] eqn:E; [|done]. simpl. apply last_Some_elem_of in E. rewrite Forall_forall in Hf.
  destruct (proj1 (read_mtu_iff v) (Hf v E)) as (m & Hm & Hle). unfold read_mtu. rewrite Hm. simpl. by destruct (N.ltb_spec m 68); [lia|].
Qed.

(** C38: Exactly the well-formed offers are accepted, and as they say: a 2xx status; no
    mention of DTLS, in any case; every MTU a 16-bit number of at least 68, every address and
    every netmask an IPv4 address, every name server too, and every route an IPv4 address,
    a slash and a prefix of at most 32; an MTU, an address and a netmask, of which the last
    given counts, the netmask being that of a prefix; and the name servers and routes are
    those of all lines, in order. A line gives a value to a key as the dialect or the old
    form writes it, around the first colon or else the first blank. *)
Theorem parse_offer_ok head t :
  parse_offer head = Some t ↔
  (∃ code, parse_status head = Some code ∧ (200 ≤ code ≤ 299)%N) ∧
  contains (lit "dtls") (to_ascii_lowercase head) = false ∧
  ∃ mtus addresses masks servers includes, let ls := drop 1 (lines head) in
    said (lit "CSTP_MTU") ls mtus ∧ said (lit "CSTP_ADDRESS") ls addresses ∧ said (lit "CSTP_NETMASK") ls masks ∧
    said (lit "CSTP_DNS") ls servers ∧ said (lit "CSTP_SPLIT_INCLUDE") ls includes ∧
    Forall (λ v, ∃ m, parse_u16 v = Some m ∧ (68 ≤ m)%N) mtus ∧ last mtus ≫= parse_u16 = Some (mtu t) ∧
    Forall (λ v, is_Some (parse_ipv4 v)) addresses ∧ last addresses ≫= parse_ipv4 = Some (ipv4_address t) ∧
    Forall (λ v, is_Some (parse_ipv4 v)) masks ∧ last masks ≫= parse_ipv4 = Some (prefix_mask (prefix t)) ∧ (prefix t ≤ 32)%N ∧
    mapM parse_ipv4 (servers ≫= split_whitespace) = Some (dns_servers t) ∧
    routes t = includes ≫= split_whitespace ∧ Forall network_text (includes ≫= split_whitespace).
Proof.
  unfold parse_offer. rewrite offer_lines_fields. split.
  - intros (code & Hcode & Hp)%bind_Some. destruct (in_range 200 299 code) eqn:Ec; [|done]. simpl in Hp.
    apply bind_Some in Hp as (o & Ho & Hp). destruct (contains _ _) eqn:Ed; [done|].
    apply bind_Some in Hp as (mask & Hmask & (p & Hpre & (a & Ha & (m & Hm & [= <-])%bind_Some)%bind_Some)%bind_Some).
    apply netmask_prefix_iff in Hpre as [Hle ->]. apply in_range_spec in Ec.
    split; [by exists code|]. split; [done|].
    unfold offer_fields, offer_of in Ho.
    apply bind_Some in Ho as (m' & [Fm ->]%last_read_iff & (a' & [Fa ->]%last_read_iff & (n' & [Fn ->]%last_read_iff & Ho)%bind_Some)%bind_Some).
    apply bind_Some in Ho as (d & Hd & (r & [-> Hr]%mapM_routes & [= <-])%bind_Some). simpl in *.
    pose proof (last_read_mtu _ Fm) as Hlast.
    eexists _, _, _, _, _. cbv zeta. split_and!; try (by apply said_values); simpl; try done.
    + eapply Forall_impl; [exact Fm|]. intros v Hv. by apply read_mtu_iff.
    + rewrite <-Hlast. by destruct (last _).
  - intros ((code & -> & Hc) & Hd & mtus & addresses & masks & servers & includes & Hall). cbv zeta in Hall.
    destruct Hall as (->%said_values & ->%said_values & ->%said_values & ->%said_values & ->%said_values & Fm & Hm & Fa & Ha & Fn & Hn & Hp & Hs & Hr & Fr).
    simpl. rewrite (proj2 (in_range_spec _ _ _)) by done. simpl. unfold offer_fields, offer_of.
    assert (Forall (λ v, is_Some (read_mtu v)) (values_in (lit "CSTP_MTU") (drop 1 (lines head)))) as Fm'
      by (eapply Forall_impl; [exact Fm|]; intros v Hv; by apply read_mtu_iff).
    rewrite (proj2 (last_read_iff _ _ _ _) (conj Fm' eq_refl)), (proj2 (last_read_iff _ _ _ _) (conj Fa eq_refl)),
      (proj2 (last_read_iff _ _ _ _) (conj Fn eq_refl)), Hs, (proj2 (mapM_routes _ _) (conj eq_refl Fr)). simpl. rewrite Hd.
    pose proof (last_read_mtu _ Fm') as Hlast. rewrite Hm in Hlast.
    destruct (last (values_in (lit "CSTP_MTU") _)); [|done]. destruct (last (values_in (lit "CSTP_ADDRESS") _)); [|done].
    destruct (last (values_in (lit "CSTP_NETMASK") _)); [|done]. simpl in *. rewrite Hn. simpl.
    rewrite (proj2 (netmask_prefix_iff _ _) (conj Hp eq_refl)). simpl. rewrite Ha. simpl. rewrite Hlast. simpl.
    destruct t. simpl in *. by rewrite Hr.
Qed.

(** ** Printing an offer *)

(** The two styles of a line. *)
Inductive style := Header | Legacy.
Definition style_key (st : style) (http legacy : string) : str :=
  match st with Header => lit "X-CSTP-" ++ lit http ++ lit ": " | Legacy => lit "CSTP_" ++ lit legacy ++ lit " " end.
Definition show_route (r : Ipv4Addr * N) : str := show_ipv4 r.1 ++ 47%N :: to_dec r.2.
Definition offer_text (st : style) (a : Ipv4Addr) (p m : N) (dns : list Ipv4Addr) (rs : list (Ipv4Addr * N)) : str :=
  lit "HTTP/1.1 200 OK" ++ crlf
  ++ style_key st "MTU" "MTU" ++ to_dec m ++ crlf
  ++ style_key st "Address" "ADDRESS" ++ show_ipv4 a ++ crlf
  ++ style_key st "Netmask" "NETMASK" ++ show_ipv4 (prefix_mask p) ++ crlf
  ++ style_key st "DNS" "DNS" ++ join [32%N] (show_ipv4 <$> dns) ++ crlf
  ++ style_key st "Split-Include" "SPLIT_INCLUDE" ++ join [32%N] (show_route <$> rs) ++ crlf
  ++ crlf.

(** The key a line is split into. *)
Definition bare_key (st : style) (http legacy : string) : str :=
  match st with Header => lit "X-CSTP-" ++ lit http | Legacy => lit "CSTP_" ++ lit legacy end.
Definition value_text (v : str) : Prop := (58%N ∉ v) ∧ (LF ∉ v) ∧ tight v.

Lemma find_if_space a s : Forall (λ c, is_whitespace c = false) a → find_if is_whitespace (a ++ 32%N :: s) = Some (length a).
Proof. intros H. by apply find_if_app. Qed.

Lemma split_style st http legacy v :
  58%N ∉ bare_key st http legacy → Forall (λ c, is_whitespace c = false) (bare_key st http legacy) → value_text v →
  split_line (style_key st http legacy ++ v) = Some (bare_key st http legacy, v).
Proof.
  intros Hk Hw (Hc & _ & Ht). unfold split_line.
  assert (E : style_key st http legacy ++ v
    = bare_key st http legacy ++ match st with Header => 58%N :: 32%N :: v | Legacy => 32%N :: v end).
  { unfold style_key, bare_key. destruct st; rewrite <-!app_assoc; reflexivity. }
  rewrite E. destruct st.
  - rewrite split_once_app by done. by rewrite trim_lead, trim_tight.
  - rewrite (proj2 (split_once_None 58 _)).
    + rewrite find_if_space by done. cbn [mbind option_bind]. rewrite take_app_length, drop_app_length.
      rewrite trim_lead by done. by rewrite !trim_tight by (done || by apply word_tight).
    + rewrite elem_of_app, elem_of_cons. intros [?|[?|?]]; done.
Qed.

(** The conditions on a key, by computation. *)
Definition key_check (st : style) (http legacy canonical : string) : bool :=
  bool_decide (58%N ∉ bare_key st http legacy) && forallb (λ c, negb (is_whitespace c)) (bare_key st http legacy)
  && bool_decide (normalize_key (bare_key st http legacy) = lit canonical) && bool_decide (LF ∉ style_key st http legacy)
  && avoids (lit "dtls") (to_ascii_lowercase (style_key st http legacy)).

Lemma key_line st http legacy canonical v :
  key_check st http legacy canonical = true → value_text v →
  (LF ∉ style_key st http legacy ++ v) ∧
  ∃ key, split_line (style_key st http legacy ++ v) = Some (key, v) ∧ normalize_key key = lit canonical.
Proof.
  unfold key_check. intros H Hv. bool_hyps. split.
  - destruct Hv as (_ & Hl & _). rewrite elem_of_app. intros [?|?]; contradiction.
  - exists (bare_key st http legacy). split; [|assumption]. apply split_style; [assumption| |exact Hv].
    apply Forall_forall. intros c Hc. rewrite forallb_forall in H3. apply list_elem_of_In, H3, negb_true_iff in Hc. exact Hc.
Qed.

Lemma keys_check st :
  key_check st "MTU" "MTU" "CSTP_MTU" = true ∧ key_check st "Address" "ADDRESS" "CSTP_ADDRESS" = true ∧
  key_check st "Netmask" "NETMASK" "CSTP_NETMASK" = true ∧ key_check st "DNS" "DNS" "CSTP_DNS" = true ∧
  key_check st "Split-Include" "SPLIT_INCLUDE" "CSTP_SPLIT_INCLUDE" = true.
Proof. destruct st; vm_compute; split_and!; reflexivity. Qed.

(** Numeric values. *)
Definition numerals (s : str) : Prop := Forall (λ c, (32 ≤ c < 58)%N) s.
Lemma numeric_numerals s : numeric s → numerals s.
Proof. intros H. eapply Forall_impl; [exact H|]. cbv beta. intros. lia. Qed.
Lemma numerals_join ws : Forall numeric ws → numerals (join [32%N] ws).
Proof.
  induction 1 as [|w ws Hw _ IH]; [constructor|]. destruct ws as [|v ws]; [by apply numeric_numerals|].
  change (join [32%N] (w :: v :: ws)) with (w ++ 32%N :: join [32%N] (v :: ws)).
  apply Forall_app. split; [by apply numeric_numerals|]. constructor; [lia|done].
Qed.
Lemma numerals_fresh c s : numerals s → (c < 32 ∨ 58 ≤ c)%N → c ∉ s.
Proof. unfold numerals. rewrite Forall_forall. intros H Hc Hin. apply H in Hin. lia. Qed.
Lemma numerals_value s : numerals s → tight s → value_text s.
Proof. intros H Ht. split_and!; [by apply numerals_fresh; [|right]|by apply numerals_fresh; [|left]|done]. Qed.
Lemma numerals_lower s : numerals s → to_ascii_lowercase s = s.
Proof.
  unfold to_ascii_lowercase. induction 1 as [|c s Hc _ IH]; [done|]. rewrite fmap_cons, IH. f_equal.
  unfold char_lower, is_ascii_uppercase. by rewrite (proj2 (in_range_false _ _ _)) by lia.
Qed.

Lemma route_numeric r : numeric (show_route r).
Proof.
  unfold show_route, numeric. rewrite Forall_app, Forall_cons.
  split_and!; [apply show_ipv4_numeric|lia|lia|apply to_dec_numeric].
Qed.
Lemma route_word r : is_word (show_route r).
Proof. split; [unfold show_route; by intros [_ ?]%app_eq_nil|apply numeric_word, route_numeric]. Qed.
Lemma parse_show_route r : (r.2 ≤ 32)%N → parse_route (show_route r) = Some (show_route r).
Proof.
  intros Hr. assert (E : split_once 47 (show_route r) = Some (show_ipv4 r.1, to_dec r.2)).
  { unfold show_route. apply split_once_app. unfold show_ipv4. rewrite !elem_of_app.
    intros [H|[H|[H|[H|[H|[H|H]]]]]]; revert H; (by apply to_dec_no_char) || by apply (bool_decide_unpack _). }
  unfold parse_route. rewrite E. cbn [mbind option_bind]. rewrite parse_show_ipv4. cbn [mbind option_bind]. unfold parse_u8.
  rewrite parse_uint_to_dec by lia. cbn [mbind option_bind]. by destruct (N.ltb_spec 32 r.2); [lia|].
Qed.

(** What a line of each key does. *)
Lemma mtu_line o line key m :
  split_line line = Some (key, to_dec m) → normalize_key key = lit "CSTP_MTU" → (68 ≤ m < 65536)%N →
  offer_line o line = Some (MkOffer (Some m) (o_address o) (o_netmask o) (o_dns o) (o_routes o)).
Proof.
  intros Hs Hk Hm. destruct o. unfold offer_line. rewrite Hs, Hk. rewrite bool_decide_true by done. unfold parse_u16.
  rewrite parse_uint_to_dec by lia. cbn [mbind option_bind]. by destruct (N.ltb_spec m 68); [lia|].
Qed.
Lemma address_line o line key a :
  split_line line = Some (key, show_ipv4 a) → normalize_key key = lit "CSTP_ADDRESS" →
  offer_line o line = Some (MkOffer (o_mtu o) (Some a) (o_netmask o) (o_dns o) (o_routes o)).
Proof.
  intros Hs Hk. destruct o. unfold offer_line. rewrite Hs, Hk.
  rewrite bool_decide_false by discriminate. rewrite bool_decide_true by done. by rewrite parse_show_ipv4.
Qed.
Lemma netmask_line o line key a :
  split_line line = Some (key, show_ipv4 a) → normalize_key key = lit "CSTP_NETMASK" →
  offer_line o line = Some (MkOffer (o_mtu o) (o_address o) (Some a) (o_dns o) (o_routes o)).
Proof.
  intros Hs Hk. destruct o. unfold offer_line. rewrite Hs, Hk.
  do 2 rewrite bool_decide_false by discriminate. rewrite bool_decide_true by done. by rewrite parse_show_ipv4.
Qed.
Lemma dns_line o line key dns :
  split_line line = Some (key, join [32%N] (show_ipv4 <$> dns)) → normalize_key key = lit "CSTP_DNS" →
  offer_line o line = Some (MkOffer (o_mtu o) (o_address o) (o_netmask o) (o_dns o ++ dns) (o_routes o)).
Proof.
  intros Hs Hk. destruct o. unfold offer_line. rewrite Hs, Hk.
  do 3 rewrite bool_decide_false by discriminate. rewrite bool_decide_true by done.
  rewrite split_whitespace_join by (apply Forall_fmap, Forall_true; apply show_ipv4_word).
  assert (E : mapM parse_ipv4 (show_ipv4 <$> dns) = Some dns).
  { apply mapM_Some, Forall2_fmap_l, Forall_Forall2_diag, Forall_true. apply parse_show_ipv4. }
  by rewrite E.
Qed.
Lemma routes_line o line key rs :
  split_line line = Some (key, join [32%N] (show_route <$> rs)) → normalize_key key = lit "CSTP_SPLIT_INCLUDE" →
  Forall (λ r : Ipv4Addr * N, (r.2 ≤ 32)%N) rs →
  offer_line o line = Some (MkOffer (o_mtu o) (o_address o) (o_netmask o) (o_dns o) (o_routes o ++ (show_route <$> rs))).
Proof.
  intros Hs Hk Hr. destruct o. unfold offer_line. rewrite Hs, Hk.
  do 4 rewrite bool_decide_false by discriminate. rewrite bool_decide_true by done.
  rewrite split_whitespace_join by (apply Forall_fmap, Forall_true; apply route_word).
  assert (E : mapM parse_route (show_route <$> rs) = Some (show_route <$> rs)).
  { apply mapM_Some, Forall2_fmap, Forall_Forall2_diag. eapply Forall_impl; [exact Hr|]. intros. by apply parse_show_route. }
  by rewrite E.
Qed.

(** The lines of a printed offer. *)
Definition offer_text_lines (st : style) (a : Ipv4Addr) (p m : N) (dns : list Ipv4Addr) (rs : list (Ipv4Addr * N)) : list str :=
  [lit "HTTP/1.1 200 OK"; style_key st "MTU" "MTU" ++ to_dec m;
   style_key st "Address" "ADDRESS" ++ show_ipv4 a; style_key st "Netmask" "NETMASK" ++ show_ipv4 (prefix_mask p);
   style_key st "DNS" "DNS" ++ join [32%N] (show_ipv4 <$> dns);
   style_key st "Split-Include" "SPLIT_INCLUDE" ++ join [32%N] (show_route <$> rs); []].
Lemma offer_text_eq st a p m dns rs : offer_text st a p m dns rs = (offer_text_lines st a p m dns rs ≫= λ l, l ++ crlf).
Proof. unfold offer_text, offer_text_lines. cbn [mbind list_bind]. by rewrite <-!app_assoc. Qed.

Lemma dns_numerals dns : numerals (join [32%N] (show_ipv4 <$> dns)).
Proof. apply numerals_join, Forall_fmap, Forall_true. apply show_ipv4_numeric. Qed.
Lemma routes_numerals rs : numerals (join [32%N] (show_route <$> rs)).
Proof. apply numerals_join, Forall_fmap, Forall_true. apply route_numeric. Qed.
Lemma numeric_value s : numeric s → value_text s.
Proof. intros Hs. apply numerals_value; [by apply numeric_numerals|by apply word_tight, numeric_word]. Qed.
Lemma dns_value dns : value_text (join [32%N] (show_ipv4 <$> dns)).
Proof. apply numerals_value; [apply dns_numerals|]. apply join_tight, Forall_fmap, Forall_true. apply show_ipv4_word. Qed.
Lemma routes_value rs : value_text (join [32%N] (show_route <$> rs)).
Proof. apply numerals_value; [apply routes_numerals|]. apply join_tight, Forall_fmap, Forall_true. apply route_word. Qed.

(** The offer never mentions DTLS. *)
Lemma key_value_no_dtls st http legacy canonical v s :
  key_check st http legacy canonical = true → numerals v →
  from (lit "dtls") (to_ascii_lowercase (style_key st http legacy ++ v ++ crlf ++ s)) = from (lit "dtls") (to_ascii_lowercase s).
Proof.
  unfold key_check. intros H Hv. bool_hyps. unfold to_ascii_lowercase. rewrite !fmap_app.
  change (char_lower <$> v) with (to_ascii_lowercase v). rewrite (numerals_lower v Hv).
  rewrite from_avoids by assumption. change (lit "dtls") with (100%N :: lit "tls").
  rewrite from_fresh by (apply numerals_fresh; [done|lia]). apply from_fresh. by apply (bool_decide_unpack _).
Qed.
Lemma offer_no_dtls st a p m dns rs : contains (lit "dtls") (to_ascii_lowercase (offer_text st a p m dns rs)) = false.
Proof.
  destruct (keys_check st) as (K1 & K2 & K3 & K4 & K5).
  assert (H : from (lit "dtls") (to_ascii_lowercase (offer_text st a p m dns rs)) = None).
  { unfold offer_text. unfold to_ascii_lowercase at 1. rewrite 2!fmap_app.
    rewrite from_avoids by (vm_compute; reflexivity). rewrite from_avoids by (vm_compute; reflexivity).
    change (fmap char_lower) with to_ascii_lowercase.
    rewrite (key_value_no_dtls _ _ _ _ _ _ K1) by (apply numeric_numerals, to_dec_numeric).
    rewrite (key_value_no_dtls _ _ _ _ _ _ K2) by (apply numeric_numerals, show_ipv4_numeric).
    rewrite (key_value_no_dtls _ _ _ _ _ _ K3) by (apply numeric_numerals, show_ipv4_numeric).
    rewrite (key_value_no_dtls _ _ _ _ _ _ K4) by apply dns_numerals.
    rewrite (key_value_no_dtls _ _ _ _ _ _ K5) by apply routes_numerals. reflexivity. }
  rewrite from_find in H. unfold contains. apply bool_decide_eq_false. intros [i Hi]. by rewrite Hi in H.
Qed.

(** Both styles of an offer are read the same: for every address, prefix, MTU, list
    of name servers and list of routes within the bounds, the offer written with HTTP
    headers and the offer written in the older line style both parse to exactly that
    plan. *)
Theorem offer_roundtrip st a p m dns rs :
  (p ≤ 32)%N → (68 ≤ m < 65536)%N → Forall (λ r : Ipv4Addr * N, (r.2 ≤ 32)%N) rs →
  parse_offer (offer_text st a p m dns rs) = Some (MkTunnelOffer a p m dns (show_route <$> rs)).
Proof.
  intros Hp Hm Hrs. destruct (keys_check st) as (K1 & K2 & K3 & K4 & K5).
  destruct (key_line _ _ _ _ (to_dec m) K1) as (L1 & k1 & S1 & E1); [apply numeric_value, to_dec_numeric|].
  destruct (key_line _ _ _ _ (show_ipv4 a) K2) as (L2 & k2 & S2 & E2); [apply numeric_value, show_ipv4_numeric|].
  destruct (key_line _ _ _ _ (show_ipv4 (prefix_mask p)) K3) as (L3 & k3 & S3 & E3); [apply numeric_value, show_ipv4_numeric|].
  destruct (key_line _ _ _ _ _ K4 (dns_value dns)) as (L4 & k4 & S4 & E4).
  destruct (key_line _ _ _ _ _ K5 (routes_value rs)) as (L5 & k5 & S5 & E5).
  assert (Hl : lines (offer_text st a p m dns rs) = offer_text_lines st a p m dns rs).
  { rewrite offer_text_eq. apply lines_lines. unfold offer_text_lines.
    repeat (constructor; [assumption || by apply (bool_decide_unpack _)|]). constructor. }
  unfold parse_offer, parse_status. rewrite offer_no_dtls, Hl. unfold offer_text_lines. cbn [drop].
  change (split_whitespace (lit "HTTP/1.1 200 OK") !! 1) with (Some (lit "200")).
  cbn [lookup list_lookup mbind option_bind]. change (parse_u16 (lit "200")) with (Some 200%N).
  cbn [mbind option_bind negb in_range]. cbn [offer_lines].
  rewrite (mtu_line _ _ _ _ S1 E1 Hm). cbn [mbind option_bind]. rewrite (address_line _ _ _ _ S2 E2). cbn [mbind option_bind].
  rewrite (netmask_line _ _ _ _ S3 E3). cbn [mbind option_bind]. rewrite (dns_line _ _ _ _ S4 E4). cbn [mbind option_bind].
  rewrite (routes_line _ _ _ _ S5 E5 Hrs). cbn [mbind option_bind].
  change (offer_line ?o []) with (Some o). cbn [mbind option_bind o_netmask o_address o_mtu o_dns o_routes app empty_offer].
  rewrite (proj2 (netmask_prefix_iff _ p)) by done. done.
Qed.
Lemma offer_roundtrip_witness :
  let r := (MkIpv4Addr x0a x00 x00 x00, 8%N) in
  (r.2 ≤ 32)%N ∧
  parse_offer (offer_text Legacy (MkIpv4Addr x0a x58 x58 x01) 24 1400 [MkIpv4Addr x01 x01 x01 x01] [r])
  = Some (MkTunnelOffer (MkIpv4Addr x0a x58 x58 x01) 24 1400 [MkIpv4Addr x01 x01 x01 x01] [lit "10.0.0.0/8"]).
Proof.
  split; [simpl; lia|].
  apply (offer_roundtrip Legacy (MkIpv4Addr x0a x58 x58 x01) 24 1400 [MkIpv4Addr x01 x01 x01 x01]
    [(MkIpv4Addr x0a x00 x00 x00, 8%N)]); [lia|lia|]. apply Forall_singleton. simpl. lia.
Defined.
(** ** Deviations *)

(** Header names are compared with their case: the same header in lower case is not
    recognized, although the rest of the name is compared without. *)
Example lower_case_header_ignored :
  let status := lit "HTTP/1.1 200 OK" ++ crlf in
  let rest := lit "X-CSTP-Address: 10.0.0.2" ++ crlf ++ lit "X-CSTP-Netmask: 255.255.255.0" ++ crlf ++ crlf in
  is_Some (parse_offer (status ++ lit "X-CSTP-mtu: 1400" ++ crlf ++ rest)) ∧
  parse_offer (status ++ lit "x-cstp-mtu: 1400" ++ crlf ++ rest) = None.
Proof. vm_compute. split; [eexists; reflexivity|reflexivity]. Qed.
