(* ===== verification/Session.v ===== *)
(** * The CSTP session

    [session.rs] of the CSTP crate: opening a tunnel over an established login, and the
    two tasks that move frames. The parser of the offer is in [Offer].

    The read task meets the outcomes of its reads, each with the instant it returned at,
    in milliseconds; the instants taken while a chunk is processed are that instant. What
    it hands on is one list: payloads delivered and control events sent, in order. A
    payload is refused once the consumer is gone; the outcomes of the deliveries are
    given. Each task runs to its own end here; that one of them ending cancels the other
    is [spawn_data_tasks]. *)

From Stdlib Require Import NArith ZArith Strings.Byte Lia.
From S2P Require Import Prelude Text Connector Http WebVpn CstpCodec Offer.

(** cstp/session.rs:66-74 [CSTP_PACKET_TYPE_DPD_REQUEST] *)
Definition CSTP_PACKET_TYPE_DPD_REQUEST : byte := x03.
(** cstp/session.rs:76-77 [CSTP_PACKET_TYPE_DPD_RESPONSE] *)
Definition CSTP_PACKET_TYPE_DPD_RESPONSE : byte := x04.

(** ** Failures *)

(** cstp/session.rs:101-106 [IoDirection] *)
Inductive IoDirection := Dir_Read | Dir_Write.
#[export] Instance IoDirection_eq_dec : EqDecision IoDirection. Proof. solve_decision. Defined.

(** [rustls::Error], as far as its text is told apart, with the debug text of its parts. *)
Inductive RustlsError :=
  | AlertReceived (alert : str) | DecryptError | EncryptError | InvalidMessage (detail : str)
  | PeerMisbehaved | PeerIncompatible | Rustls_InvalidCertificate | InappropriateMessage
  | InappropriateHandshakeMessage | PeerSentOversizedRecord | HandshakeNotComplete
  | General (detail : str) | Rustls_Other.

(** [std::io::Error]: its kind, and where it comes from: the operating system, with the
    text of the code, rustls, or other code with its text. *)
Inductive IoSource := Os (code : Z) (text : str) | Tls (e : RustlsError) | Custom (text : str).
Record IoFailure := MkIoFailure { io_kind : N; io_source : IoSource }.

(** cstp/session.rs:108-117 [SessionIoError] *)
Record SessionIoError := MkSessionIoError {
  observed_ms : N;
  se_direction : IoDirection;
  se_kind : N;
  raw_os_error : option Z;
  detail : str;
}.

(** cstp/session.rs:129-158 [SessionIoError::new] *)
Definition rustls_detail (e : RustlsError) : str :=
  match e with
  | AlertReceived alert => lit "rustls: AlertReceived(" ++ alert ++ lit ")"
  | DecryptError => lit "rustls: DecryptError"
  | EncryptError => lit "rustls: EncryptError"
  | InvalidMessage d => lit "rustls: InvalidMessage(" ++ d ++ lit ")"
  | PeerMisbehaved => lit "rustls: PeerMisbehaved"
  | PeerIncompatible => lit "rustls: PeerIncompatible"
  | Rustls_InvalidCertificate => lit "rustls: InvalidCertificate"
  | InappropriateMessage => lit "rustls: InappropriateMessage"
  | InappropriateHandshakeMessage => lit "rustls: InappropriateHandshakeMessage"
  | PeerSentOversizedRecord => lit "rustls: PeerSentOversizedRecord"
  | HandshakeNotComplete => lit "rustls: HandshakeNotComplete"
  | General d => lit "rustls: General: " ++ redact_io_detail d
  | Rustls_Other => lit "rustls: other error (detail redacted)"
  end.
Definition source_detail (s : IoSource) : str :=
  match s with
  | Os _ text => text
  | Tls e => rustls_detail e
  | Custom text => redact_io_detail text
  end.

(** cstp/session.rs:159-166 [SessionIoError::new]: at most 256 bytes, without control
    characters. *)
Fixpoint bounded_push (bounded detail : str) : str :=
  match detail with
  | [] => bounded
  | ch :: detail =>
      if 256 <? length (utf8 bounded) + length (utf8_char ch) then bounded
      else bounded_push (bounded ++ [ch]) detail
  end.
Definition bounded_detail (detail : str) : str := bounded_push [] (base.filter (λ ch, is_control ch = false) detail).

(** cstp/session.rs:119-175 [SessionIoError::new]; [now] is the wall clock. *)
Definition session_io_error_new (now : N) (direction : IoDirection) (error : IoFailure) : SessionIoError :=
  {| observed_ms := N.min now (two64 - 1);
     se_direction := direction;
     se_kind := io_kind error;
     raw_os_error := match io_source error with Os code _ => Some code | _ => None end;
     detail := bounded_detail (source_detail (io_source error)) |}.

(** cstp/session.rs:79-96 [SessionEndReason] *)
Inductive SessionEndReason :=
  | ServerDisconnect (kind : byte) (code : option byte) (reason : str) (body_len : nat)
  | GatewayClosedStream
  | End_Io (e : SessionIoError)
  | End_Codec (e : CodecError)
  | ConsumerDropped.

(** cstp/session.rs:216-229 [SessionIoDiagnostics] *)
Record SessionIoDiagnostics := MkDiagnostics {
  direction : IoDirection;
  bytes : N;
  operations : N;
  keepalive_frames : N;
  dpd_request_frames : N;
  dpd_response_frames : N;
  last_activity : option N;
  sampled_at : N;
}.

(** cstp/session.rs:257-277 [CstpControlEvent] *)
Inductive CstpControlEvent :=
  | Ev_Control (kind : byte) (body : list byte)
  | DpdResponse
  | SessionEnded (reason : SessionEndReason)
  | WriteFailed (e : SessionIoError)
  | IoDiagnostics (d : SessionIoDiagnostics).

(** What a task hands on. *)
Inductive Output := Delivered (payload : list byte) | Sent (event : CstpControlEvent).

Definition sat_add64 (a b : N) : N := N.min (a + b) (two64 - 1).

(** cstp/session.rs:232-243 [SessionIoDiagnostics::new] *)
Definition diagnostics_new (now : N) (direction : IoDirection) : SessionIoDiagnostics :=
  MkDiagnostics direction 0 0 0 0 0 None now.
(** cstp/session.rs:245-249 [SessionIoDiagnostics::record] *)
Definition record (now : N) (n : nat) (d : SessionIoDiagnostics) : SessionIoDiagnostics :=
  MkDiagnostics (direction d) (sat_add64 (bytes d) (N.of_nat n)) (sat_add64 (operations d) 1)
    (keepalive_frames d) (dpd_request_frames d) (dpd_response_frames d) (Some now) (sampled_at d).
(** cstp/session.rs:251-254 [SessionIoDiagnostics::publish] *)
Definition publish (now : N) (d : SessionIoDiagnostics) : SessionIoDiagnostics * list Output :=
  let d := MkDiagnostics (direction d) (bytes d) (operations d) (keepalive_frames d) (dpd_request_frames d)
             (dpd_response_frames d) (last_activity d) now in
  (d, [Sent (IoDiagnostics d)]).
Definition sample_due (now : N) (d : SessionIoDiagnostics) : bool := (15000 <=? sat_sub now (sampled_at d))%N.

(** ** Mapping outcomes *)

(** cstp/session.rs:621-651 [control_event_for_decode] *)
Definition control_event_for_decode (outcome : result CodecError (option CstpFrame)) : option CstpControlEvent :=
  match outcome with
  | Ok (Some (Control kind body)) => Some (Ev_Control kind body)
  | Err (UnknownControl kind) =>
      if bool_decide (kind = CSTP_PACKET_TYPE_DPD_RESPONSE) then Some DpdResponse else Some (Ev_Control kind [])
  | _ => None
  end.

(** What a read returns. *)
Inductive ReadOutcome := Read_bytes (chunk : list byte) | Read_error (e : IoFailure).

(** cstp/session.rs:653-665 [session_end_reason_for_read] *)
Definition session_end_reason_for_read (now : N) (outcome : ReadOutcome) : option SessionEndReason :=
  match outcome with
  | Read_bytes [] => Some GatewayClosedStream
  | Read_error e => Some (End_Io (session_io_error_new now Dir_Read e))
  | Read_bytes _ => None
  end.

(** cstp/session.rs:667-688 [session_end_reason_for_decode] *)
Definition disconnect_reason (body : list byte) : str :=
  take 256 (base.filter (λ ch, is_control ch = false) (redact_io_detail (from_utf8_lossy (drop 1 body)))).
Definition session_end_reason_for_decode (outcome : result CodecError (option CstpFrame)) : option SessionEndReason :=
  match outcome with
  | Ok (Some (Control kind body)) =>
      if bool_decide (kind = x05) || bool_decide (kind = x09)
      then Some (ServerDisconnect kind (head body) (disconnect_reason body) (length body))
      else None
  | Err (UnknownControl _) => None
  | Err err => Some (End_Codec err)
  | _ => None
  end.

(** cstp/session.rs:690-700 [session_end_reason_for_data_send] *)
Definition session_end_reason_for_data_send (sent : bool) : option SessionEndReason :=
  if sent then None else Some ConsumerDropped.

(** ** The read task *)

(** cstp/session.rs:740-761 [spawn_data_tasks]: decode what is buffered. [sends] are the
    outcomes of the deliveries to come; when they are used up, deliveries succeed. The
    result is the codec, the deliveries left, the outputs and the reason to end, if any. *)
Fixpoint drain (fuel : nat) (c : Codec) (sends : list bool) : Codec * list bool * list Output * option SessionEndReason :=
  match fuel with
  | O => (c, sends, [], None)
  | S fuel =>
      match decode c with
      | (c, Ok (Some (Data payload))) =>
          let sent := default true (head sends) in
          let sends := tail sends in
          match session_end_reason_for_data_send sent with
          | Some reason => (c, sends, [], Some reason)
          | None =>
              let '(c, sends, outs, r) := drain fuel c sends in (c, sends, Delivered payload :: outs, r)
          end
      | (c, outcome) =>
          let events := match control_event_for_decode outcome with Some e => [Sent e] | None => [] end in
          match session_end_reason_for_decode outcome with
          | Some reason => (c, sends, events, Some reason)
          | None =>
              match outcome with
              | Ok None => (c, sends, events, None)
              | _ => let '(c, sends, outs, r) := drain fuel c sends in (c, sends, events ++ outs, r)
              end
          end
      end
  end.
Definition drain_all (c : Codec) (sends : list bool) : Codec * list bool * list Output * option SessionEndReason :=
  drain (S (length (buf c))) c sends.

(** The last outputs of a task: a sample, and the reason. *)
Definition session_over (now : N) (d : SessionIoDiagnostics) (reason : SessionEndReason) : list Output :=
  (publish now d).2 ++ [Sent (SessionEnded reason)].

(** cstp/session.rs:739-781 [spawn_data_tasks]; [None] is a task that waits for its next
    read. *)
Fixpoint read_loop (now : N) (d : SessionIoDiagnostics) (c : Codec) (sends : list bool)
    (reads : list (N * ReadOutcome)) : list Output * option SessionEndReason :=
  let '(c, sends, outs, r) := drain_all c sends in
  match r with
  | Some reason => (outs ++ session_over now d reason, Some reason)
  | None =>
      match reads with
      | [] => (outs, None)
      | (now, Read_bytes (b :: chunk)) :: reads =>
          let d := record now (length (b :: chunk)) d in
          let '(d, sample) := if sample_due now d then publish now d else (d, []) in
          let '(outs', r) := read_loop now d (feed c (b :: chunk)) sends reads in
          (outs ++ sample ++ outs', r)
      | (now, outcome) :: _ =>
          match session_end_reason_for_read now outcome with
          | Some reason => (outs ++ session_over now d reason, Some reason)
          | None => (outs, None)
          end
      end
  end.

(** cstp/session.rs:733-736 [spawn_data_tasks] *)
Definition read_task (now : N) (offer_remainder : list byte) (sends : list bool) (reads : list (N * ReadOutcome))
    : list Output * option SessionEndReason :=
  read_loop now (diagnostics_new now Dir_Read) (feed codec_new offer_remainder) sends reads.

(** ** The write task *)

(** cstp/session.rs:821-835 [write_data_task] *)
Definition count_control (frame : list byte) (d : SessionIoDiagnostics) : SessionIoDiagnostics * bool :=
  let '(MkDiagnostics dir by_ op k q r la sa) := d in
  match frame !! 6 with
  | Some kind =>
      if bool_decide (kind = CSTP_PACKET_TYPE_KEEPALIVE) then (MkDiagnostics dir by_ op (add64 k 1) q r la sa, true)
      else if bool_decide (kind = CSTP_PACKET_TYPE_DPD_REQUEST) then (MkDiagnostics dir by_ op k (add64 q 1) r la sa, true)
      else if bool_decide (kind = CSTP_PACKET_TYPE_DPD_RESPONSE) then (MkDiagnostics dir by_ op k q (add64 r 1) la sa, true)
      else (d, false)
  | None => (d, false)
  end.

(** cstp/session.rs:802-842 [write_data_task]: the frames received until the channel is
    closed, each with the instant and the outcome of its write; the result is what was
    written and sent. *)
Fixpoint write_loop (now : N) (d : SessionIoDiagnostics) (frames : list (list byte * N * option IoFailure))
    : list (list byte) * list Output :=
  match frames with
  | [] => ([], (publish now d).2)
  | (frame, now, Some error) :: _ =>
      ([], (publish now d).2 ++ [Sent (WriteFailed (session_io_error_new now Dir_Write error))])
  | (frame, now, None) :: frames =>
      let '(d, control_write) := count_control frame (record now (length frame) d) in
      let '(d, sample) := if control_write || sample_due now d then publish now d else (d, []) in
      let '(written, outs) := write_loop now d frames in
      (frame :: written, sample ++ outs)
  end.
Definition write_data_task (now : N) (frames : list (list byte * N * option IoFailure)) : list (list byte) * list Output :=
  write_loop now (diagnostics_new now Dir_Write) frames.

(** ** Opening *)

(** cstp/session.rs:303-319 [SessionError] *)
Inductive SessionError :=
  | Session_TlsFailed (e : BootstrapError) | Session_WriteFailed | EofBeforeTerminator | OfferParseFailed | MissingSession.

(** cstp/session.rs:425-443 [CstpSession::open_with_user_agent_observed]: read up to the
    end of the offer; the offer and the bytes after it. *)
Fixpoint read_offer (s : Stream) (buf : list byte) : result SessionError (list byte * list byte) * Stream :=
  match s with
  | [] => (Err EofBeforeTerminator, [])
  | Bytes (b :: chunk) :: s =>
      let buf := buf ++ b :: chunk in
      match find_header_end buf with
      | Some head_end => (Ok (take head_end buf, drop head_end buf), s)
      | None => if (MAX_OFFER <? N.of_nat (length buf))%N then (Err OfferParseFailed, s) else read_offer s buf
      end
  | _ :: s => (Err EofBeforeTerminator, s)
  end.

(** A connection to the gateway: its certificate, if it presented one, what its reads
    return, and whether the request can be written. *)
Record GatewayConn := MkGatewayConn { certificate : option (list byte); incoming : Stream; writable : bool }.

(** What an opened session hands to the data tasks. *)
Record OpenSession := MkOpenSession {
  offer_plan : TunnelOffer;
  peer_fingerprint : option str;
  offer_remainder : list byte;
  read_half : Stream;
}.

Section session_open.
(** The hash of a certificate, and the answers to the bootstrap. *)
Context (sha256_hex : list byte → str) (w : World GatewayConn).

(** cstp/session.rs:373-474 [CstpSession::open_with_user_agent_observed]; what is done on
    the network, the request written, and the outcome. *)
Definition open_with_user_agent (cfg : BootstrapConfig) (login : option LoginSession) (user_agent : option str)
    : list Action * list (list byte) * option (result SessionError OpenSession) :=
  match login with
  | None => ([], [], Some (Err MissingSession))
  | Some login =>
      let '(actions, r) := connect w cfg in
      match r with
      | None => (actions, [], None)
      | Some (Err e) => (actions, [], Some (Err (Session_TlsFailed e)))
      | Some (Ok conn) =>
          let request :=
            match user_agent with
            | Some ua => build_connect_request_with_user_agent (hostname cfg) login ua
            | None => build_connect_request (hostname cfg) login
            end in
          (actions, [request],
           Some (if negb (writable conn) then Err Session_WriteFailed
                 else match read_offer (incoming conn) [] with
                      | (Err e, _) => Err e
                      | (Ok (head, remainder), s) =>
                          match parse_offer (from_utf8_lossy head) with
                          | None => Err OfferParseFailed
                          | Some plan => Ok (MkOpenSession plan (sha256_hex <$> certificate conn) remainder s)
                          end
                      end))
      end
  end.
(** cstp/session.rs:322-348 [CstpSession::open] *)
Definition open_session (cfg : BootstrapConfig) (login : option LoginSession)
    : list Action * list (list byte) * option (result SessionError OpenSession) :=
  open_with_user_agent cfg login None.
End session_open.

(** ** Lemmas on draining *)

(** Decoding goes on after a frame, known or unknown, and each takes its header at least. *)
Definition goes_on (outcome : result CodecError (option CstpFrame)) : bool :=
  match outcome with Ok (Some _) | Err (UnknownControl _) => true | _ => false end.

Lemma decode_goes_on c c' r :
  decode c = (c', r) → goes_on r = true →
  length (buf c') + 8 ≤ length (buf c) ∧ ∀ x, decode (feed c x) = (feed c' x, r).
Proof.
  intros E Hr. destruct (decode_cases c) as [H|[(e & H & _)|(c1 & n & k & Hb & H8 & Hn & H & Hx)]].
  - rewrite H in E. by injection E as <- <-.
  - exfalso. rewrite H in E. injection E as <- <-. revert H Hr. unfold decode.
    destruct (buf_cases (buf c)) as [Hs|(b0 & b1 & b2 & b3 & b4 & b5 & b6 & b7 & body & Hb)].
    + pose proof (decode_short c Hs) as Hd. unfold decode in Hd. rewrite Hd. done.
    + rewrite Hb. destruct (negb _ || negb _); [by intros [= <-]|]. cbv zeta.
      destruct (_ <? _)%N; [by intros [= <-]|]. destruct (_ <? _); [done|].
      intros [= Hc _]. apply (f_equal buf) in Hc. simpl in Hc. rewrite Hb in Hc.
      apply (f_equal length) in Hc. rewrite length_drop in Hc. simpl in Hc. lia.
  - rewrite H in E. injection E as <- <-. split; [|apply Hx].
    apply (f_equal length) in Hb. rewrite length_app, length_take in Hb. lia.
Qed.

Lemma drain_fuel n : ∀ m c sends, length (buf c) < n → length (buf c) < m → drain n c sends = drain m c sends.
Proof.
  induction n as [|n IH]; intros [|m] c sends Hn Hm; try lia. cbn [drain].
  destruct (decode c) as [c' r] eqn:E.
  assert (Hnext : goes_on r = true → ∀ s, drain n c' s = drain m c' s).
  { intros Hg s. destruct (decode_goes_on _ _ _ E Hg) as [Hl _]. apply IH; lia. }
  destruct r as [[[payload|kind body]|]|[]]; cbn [goes_on] in Hnext; try reflexivity;
    rewrite Hnext by done; reflexivity.
Qed.
(** One step of draining. *)
Lemma drain_all_eq c sends :
  drain_all c sends =
  match decode c with
  | (c, Ok (Some (Data payload))) =>
      match session_end_reason_for_data_send (default true (head sends)) with
      | Some reason => (c, tail sends, [], Some reason)
      | None => let '(c, sends, outs, r) := drain_all c (tail sends) in (c, sends, Delivered payload :: outs, r)
      end
  | (c, outcome) =>
      let events := match control_event_for_decode outcome with Some e => [Sent e] | None => [] end in
      match session_end_reason_for_decode outcome with
      | Some reason => (c, sends, events, Some reason)
      | None =>
          match outcome with
          | Ok None => (c, sends, events, None)
          | _ => let '(c, sends, outs, r) := drain_all c sends in (c, sends, events ++ outs, r)
          end
      end
  end.
Proof.
  unfold drain_all at 1. cbn [drain]. destruct (decode c) as [c' r] eqn:E.
  assert (Hnext : goes_on r = true → ∀ s, drain (length (buf c)) c' s = drain_all c' s).
  { intros Hg s. destruct (decode_goes_on _ _ _ E Hg) as [Hl _]. unfold drain_all. apply drain_fuel; lia. }
  destruct r as [[[payload|kind body]|]|[]]; cbn [goes_on] in Hnext; try reflexivity;
    rewrite Hnext by done; reflexivity.
Qed.

(** Draining what is buffered and then what arrives is draining both at once; a session
    that ends does so whatever arrives later. *)
Lemma drain_feed n : ∀ c sends x, length (buf c) < n →
  match drain_all c sends with
  | (c1, s1, outs, Some reason) => ∃ c2, drain_all (feed c x) sends = (c2, s1, outs, Some reason)
  | (c1, s1, outs, None) =>
      drain_all (feed c x) sends
      = let '(c2, s2, outs2, r2) := drain_all (feed c1 x) s1 in (c2, s2, outs ++ outs2, r2)
  end.
Proof.
  induction n as [|n IH]; intros c sends x Hn; [lia|]. rewrite (drain_all_eq c sends).
  destruct (decode c) as [c' r] eqn:E. destruct (goes_on r) eqn:Hg.
  - destruct (decode_goes_on _ _ _ E Hg) as [Hl Hx]. specialize (Hx x).
    rewrite (drain_all_eq (feed c x) sends), Hx.
    destruct r as [[[payload|kind body]|]|[]]; try done.
    + destruct (session_end_reason_for_data_send _); [by eexists|].
      pose proof (IH c' (tail sends) x ltac:(lia)) as H.
      destruct (drain_all c' (tail sends)) as [[[c1 s1] outs] [reason|]].
      * destruct H as [c2 ->]. by eexists.
      * rewrite H. by destruct (drain_all (feed c1 x) s1) as [[[c2 s2] outs2] r2].
    + cbv zeta. destruct (session_end_reason_for_decode _); [by eexists|].
      pose proof (IH c' sends x ltac:(lia)) as H.
      destruct (drain_all c' sends) as [[[c1 s1] outs] [reason|]].
      * destruct H as [c2 ->]. by eexists.
      * rewrite H. destruct (drain_all (feed c1 x) s1) as [[[c2 s2] outs2] r2]. by rewrite app_assoc.
    + cbv zeta. cbn [session_end_reason_for_decode].
      pose proof (IH c' sends x ltac:(lia)) as H.
      destruct (drain_all c' sends) as [[[c1 s1] outs] [reason|]].
      * destruct H as [c2 ->]. by eexists.
      * rewrite H. destruct (drain_all (feed c1 x) s1) as [[[c2 s2] outs2] r2]. by rewrite app_assoc.
  - destruct (decode_cases c) as [H|[(e & H & Hx)|(c1 & m & k & _ & _ & _ & H & Hx)]]; rewrite H in E; injection E as <- <-.
    + cbv zeta. cbn [control_event_for_decode session_end_reason_for_decode app]. by destruct (drain_all (feed c x) sends) as [[[c2 s2] outs2] r2].
    + destruct e; try done; rewrite (drain_all_eq (feed c x) sends), Hx; by eexists.
    + destruct (frame_of k _) as [[[]|]|[]] eqn:Ef; try done; rewrite ?(drain_all_eq (feed c x) sends), ?Hx; try by eexists.
      by apply frame_of_not_None in Ef.
Qed.

(** ** The read task and the network *)

(** What a consumer sees beside the samples. *)
Definition is_visible (o : Output) : Prop := match o with Sent (IoDiagnostics _) => False | _ => True end.
#[export] Instance is_visible_dec o : Decision (is_visible o).
Proof. destruct o as [|[]]; apply _. Defined.
Definition visible (outs : list Output) : list Output := base.filter is_visible outs.
Definition view (t : list Output * option SessionEndReason) : list Output * option SessionEndReason := (visible t.1, t.2).

Lemma visible_app a b : visible (a ++ b) = visible a ++ visible b.
Proof. apply filter_app. Qed.
Lemma visible_over now d reason : visible (session_over now d reason) = [Sent (SessionEnded reason)].
Proof. done. Qed.

(** The reads that only bring bytes. *)
Definition read_bytes (e : N * ReadOutcome) : list byte := match e.2 with Read_bytes c => c | Read_error _ => [] end.
Definition bytes_only (evs : list (N * ReadOutcome)) : Prop := Forall (λ e, ∃ c, e.2 = Read_bytes c ∧ c ≠ []) evs.

(** The samples apart, the clock and the counters have no influence. *)
Lemma read_loop_view reads : ∀ now d now' d' c sends,
  view (read_loop now d c sends reads) = view (read_loop now' d' c sends reads).
Proof.
  induction reads as [|[t o] reads IH]; intros now d now' d' c sends; cbn [read_loop];
    destruct (drain_all c sends) as [[[c1 s1] outs] [reason|]]; unfold view; cbn [fst snd].
  - by rewrite !visible_app, !visible_over.
  - done.
  - by rewrite !visible_app, !visible_over.
  - destruct o as [[|b chunk]|e].
    + cbn [session_end_reason_for_read fst snd]. by rewrite !visible_app, !visible_over.
    + destruct (if sample_due t _ then _ else _) as [d1 sm1] eqn:E1.
      destruct (if sample_due t (record t _ d') then _ else _) as [d2 sm2] eqn:E2.
      assert (Hs : ∀ d dd sm, (if sample_due t d then publish t d else (d, [])) = (dd, sm) → visible sm = []).
      { intros d0 dd sm. destruct (sample_due t d0); by intros [= _ <-]. }
      pose proof (IH t d1 t d2 (feed c1 (b :: chunk)) s1) as H. unfold view in H.
      destruct (read_loop t d1 _ _ _) as [o1 r1], (read_loop t d2 _ _ _) as [o2 r2]. cbn [fst snd] in *.
      injection H as H ->. by rewrite !visible_app, (Hs _ _ _ E1), (Hs _ _ _ E2), H.
    + cbn [session_end_reason_for_read fst snd]. by rewrite !visible_app, !visible_over.
Qed.

(** Outputs drained earlier come first. *)
Lemma read_loop_prefix now d c sends c' sends' outs tl :
  drain_all c sends = (let '(c2, s2, outs2, r2) := drain_all c' sends' in (c2, s2, outs ++ outs2, r2)) →
  read_loop now d c sends tl = (outs ++ (read_loop now d c' sends' tl).1, (read_loop now d c' sends' tl).2).
Proof.
  intros E. destruct tl as [|[t o] tl]; cbn [read_loop]; rewrite E;
    destruct (drain_all c' sends') as [[[c2 s2] outs2] [reason|]]; cbn [fst snd]; rewrite <-?app_assoc; try done.
  destruct o as [[|b chunk]|e]; cbn [session_end_reason_for_read fst snd]; rewrite <-?app_assoc; try done.
  destruct (if sample_due t _ then _ else _) as [d1 sm]. destruct (read_loop t d1 _ _ _) as [o1 r1].
  cbn [fst snd]. by rewrite <-app_assoc.
Qed.

Lemma feed_feed c x y : feed (feed c x) y = feed c (x ++ y).
Proof. unfold feed. simpl. by rewrite app_assoc. Qed.
Lemma feed_nil c : feed c [] = c.
Proof. destruct c. unfold feed. simpl. by rewrite app_nil_r. Qed.

(** Reading bytes in pieces is having them all at once. *)
Lemma read_loop_cut evs : ∀ now d now' d' c sends tl,
  bytes_only evs →
  view (read_loop now d c sends (evs ++ tl)) = view (read_loop now' d' (feed c (evs ≫= read_bytes)) sends tl).
Proof.
  induction evs as [|[t o] evs IH]; intros now d now' d' c sends tl Hb.
  { cbn [mbind list_bind app]. rewrite feed_nil. apply read_loop_view. }
  apply Forall_cons in Hb as [(chunk & Ho & Hne) Hb]. simpl in Ho. subst o. destruct chunk as [|b chunk]; [done|].
  cbn [mbind list_bind app]. change (read_bytes (t, Read_bytes (b :: chunk))) with (b :: chunk).
  set (x := (b :: chunk) ++ (evs ≫= read_bytes)).
  pose proof (drain_feed (S (length (buf c))) c sends x ltac:(lia)) as Hd. cbn [read_loop].
  destruct (drain_all c sends) as [[[c1 s1] outs] [reason|]].
  - destruct Hd as [c2 Hd]. destruct tl as [|[t' o'] tl]; cbn [read_loop]; rewrite Hd; unfold view; cbn [fst snd];
      by rewrite !visible_app, !visible_over.
  - rewrite (read_loop_prefix now' d' _ _ _ _ _ tl Hd).
    destruct (if sample_due t _ then _ else _) as [d1 sm] eqn:E1.
    assert (Hs : visible sm = []) by (revert E1; destruct (sample_due t _); by intros [= _ <-]).
    pose proof (IH t d1 now' d' (feed c1 (b :: chunk)) s1 tl Hb) as H. rewrite feed_feed in H. fold x in H.
    unfold view in *. destruct (read_loop t d1 _ _ _) as [o1 r1]. cbn [fst snd] in *.
    injection H as H ->. rewrite !visible_app, Hs, H. done.
Qed.

(** What the read task delivers and reports depends on the bytes and not on the reads
    that bring them: for the same bytes, cut into reads in two ways, and the same end, the
    payloads, the control events and the reason the session ends are the same in the same
    order, and only the samples differ. *)
Theorem read_task_cut now now' remainder sends evs evs' tl :
  bytes_only evs → bytes_only evs' → (evs ≫= read_bytes) = (evs' ≫= read_bytes) →
  view (read_task now remainder sends (evs ++ tl)) = view (read_task now' remainder sends (evs' ++ tl)).
Proof.
  intros H H' E. unfold read_task.
  rewrite (read_loop_cut evs _ _ now (diagnostics_new now Dir_Read)) by done.
  rewrite (read_loop_cut evs' _ _ now (diagnostics_new now Dir_Read)) by done. by rewrite E.
Qed.

(** ** The end of a session *)

Definition ended (o : Output) : Prop := match o with Sent (SessionEnded _) => True | _ => False end.

Lemma drain_no_end n : ∀ c sends c' s' outs r, drain n c sends = (c', s', outs, r) → Forall (λ o, ¬ ended o) outs.
Proof.
  induction n as [|n IH]; intros c sends c' s' outs r; cbn [drain]; [intros [= _ _ <- _]; constructor|].
  assert (He : ∀ outcome, Forall (λ o, ¬ ended o) match control_event_for_decode outcome with Some e => [Sent e] | None => [] end).
  { intros [[[]|]|[]]; simpl; repeat constructor; try case_bool_decide; simpl; auto. }
  destruct (decode c) as [c1 outcome]. specialize (He outcome).
  destruct outcome as [[[payload|kind body]|]|err].
  - destruct (session_end_reason_for_data_send _); [intros [= _ _ <- _]; constructor|].
    destruct (drain n c1 (tail sends)) as [[[c2 s2] o2] r2] eqn:E. intros [= _ _ <- _].
    constructor; [by intros []|]. by eapply IH.
  - destruct (session_end_reason_for_decode _); [by intros [= _ _ <- _]|].
    destruct (drain n c1 sends) as [[[c2 s2] o2] r2] eqn:E. intros [= _ _ <- _].
    constructor; [by intros []|]. by eapply IH.
  - by intros [= _ _ <- _].
  - destruct (session_end_reason_for_decode _); [by intros [= _ _ <- _]|].
    destruct (drain n c1 sends) as [[[c2 s2] o2] r2] eqn:E. intros [= _ _ <- _].
    apply Forall_app. split; [done|]. by eapply IH.
Qed.

Lemma read_loop_end reads : ∀ now d c sends,
  match read_loop now d c sends reads with
  | (outs, Some reason) =>
      ∃ pre sample, outs = pre ++ [Sent (IoDiagnostics sample); Sent (SessionEnded reason)] ∧ Forall (λ o, ¬ ended o) pre
  | (outs, None) => Forall (λ o, ¬ ended o) outs
  end.
Proof.
  induction reads as [|[t o] reads IH]; intros now d c sends; cbn [read_loop];
    destruct (drain_all c sends) as [[[c1 s1] outs] r] eqn:E; pose proof (drain_no_end _ _ _ _ _ _ _ E) as Ho;
    (destruct r as [reason|]; [by eexists outs, _|]); [done|].
  destruct o as [[|b chunk]|e]; [by eexists outs, _| |by eexists outs, _].
  destruct (if sample_due t _ then _ else _) as [d1 sm] eqn:E1.
  assert (Hs : Forall (λ o, ¬ ended o) sm).
  { revert E1. destruct (sample_due t _); intros [= _ <-]; repeat constructor. auto. }
  specialize (IH t d1 (feed c1 (b :: chunk)) s1). destruct (read_loop t d1 _ _ _) as [o1 [reason|]].
  - destruct IH as (pre & sample & -> & Hp). exists (outs ++ sm ++ pre), sample.
    rewrite <-!app_assoc. split; [done|]. rewrite !Forall_app. done.
  - rewrite !Forall_app. done.
Qed.

(** Every end of the read task is reported, once and last: the outputs end with a
    sample and the reason, which is the reason the task ended for, and before that no end
    is ever reported; a task that still runs has reported none. *)
Theorem read_task_end_reported now remainder sends reads :
  match read_task now remainder sends reads with
  | (outs, Some reason) =>
      ∃ pre sample, outs = pre ++ [Sent (IoDiagnostics sample); Sent (SessionEnded reason)] ∧ Forall (λ o, ¬ ended o) pre
  | (outs, None) => Forall (λ o, ¬ ended o) outs
  end.
Proof. apply read_loop_end. Qed.

(** ** Frames *)

(** A frame on the wire, of any kind. *)
Definition raw_frame (f : byte * list byte) : list byte :=
  let len := N.of_nat (length f.2) in
  STF_MAGIC ++ [STF_VERSION] ++ [byte_of_N (N.shiftr len 8)] ++ [byte_of_N (N.land len 255)] ++ [f.1] ++ [x00] ++ f.2.
Definition raw_ok (f : byte * list byte) : Prop :=
  (N.of_nat (length f.2) ≤ 4096)%N ∧ (f.1 = CSTP_PACKET_TYPE_DATA → f.2 ≠ []) ∧ f.1 ≠ x05 ∧ f.1 ≠ x09.
(** What becomes of it. *)
Definition frame_output (f : byte * list byte) : Output :=
  let '(kind, payload) := f in
  if bool_decide (kind = CSTP_PACKET_TYPE_DATA) then Delivered payload
  else if bool_decide (kind = CSTP_PACKET_TYPE_KEEPALIVE) then Sent (Ev_Control kind payload)
  else if bool_decide (kind = CSTP_PACKET_TYPE_DPD_RESPONSE) then Sent DpdResponse
  else Sent (Ev_Control kind []).

Lemma decode_raw f rest :
  (N.of_nat (length f.2) ≤ 4096)%N → decode (MkCodec (raw_frame f ++ rest)) = (MkCodec rest, frame_of f.1 f.2).
Proof.
  intros Hl. unfold raw_frame. cbv zeta. set (len := N.of_nat (length f.2)) in *.
  pose proof (decode_header (byte_of_N (N.shiftr len 8)) (byte_of_N (N.land len 255)) f.1 x00 (f.2 ++ rest)) as H.
  cbv zeta in H. rewrite length_field_roundtrip in H by done. etransitivity; [exact H|]. clear H.
  destruct (N.ltb_spec CSTP_MAX_PAYLOAD len); [unfold CSTP_MAX_PAYLOAD in *; lia|].
  unfold len. rewrite !Nat2N.id, length_app.
  destruct (Nat.ltb_spec (length f.2 + length rest) (length f.2)); [lia|].
  by rewrite drop_app_length, take_app_length.
Qed.

Lemma drain_frames fs : Forall raw_ok fs → drain_all (MkCodec (fs ≫= raw_frame)) [] = (MkCodec [], [], frame_output <$> fs, None).
Proof.
  induction 1 as [|[kind payload] fs (Hl & Hd & H5 & H9) _ IH]; [done|]. cbn [mbind list_bind]. rewrite drain_all_eq.
  rewrite decode_raw by done. cbn [fst snd] in *. unfold frame_of.
  rewrite fmap_cons. unfold frame_output at 1.
  destruct (bool_decide_reflect (kind = CSTP_PACKET_TYPE_DATA)) as [->|Hk].
  { destruct payload as [|b payload]; [by destruct Hd|].
    cbn [head default from_option tail session_end_reason_for_data_send]. by rewrite IH. }
  rewrite (bool_decide_false (kind = x05)), (bool_decide_false (kind = x09)) by done. rewrite !orb_false_r.
  destruct (bool_decide_reflect (kind = CSTP_PACKET_TYPE_KEEPALIVE)) as [->|Hk7].
  { cbv zeta. cbn [session_end_reason_for_decode control_event_for_decode].
    rewrite !bool_decide_false by done. cbn [orb]. by rewrite IH. }
  cbv zeta. cbn [session_end_reason_for_decode control_event_for_decode]. rewrite IH. by case_bool_decide.
Qed.

(** C17: Frames come out of the tunnel in order and unchanged however the network cuts
    them, from the bytes that followed the offer on: each data frame is delivered, each
    control frame is reported, the answer to a probe as such, and frames of unknown kinds
    among them never end the session. *)
Theorem read_task_delivers now remainder evs fs :
  bytes_only evs → Forall raw_ok fs → remainder ++ (evs ≫= read_bytes) = (fs ≫= raw_frame) →
  view (read_task now remainder [] evs) = (frame_output <$> fs, None).
Proof.
  intros Hb Hf E. unfold read_task. rewrite <-(app_nil_r evs).
  rewrite (read_loop_cut evs _ _ now (diagnostics_new now Dir_Read)) by done.
  rewrite feed_feed, E. change (feed codec_new (fs ≫= raw_frame)) with (MkCodec (fs ≫= raw_frame)).
  cbn [read_loop]. rewrite drain_frames by done. unfold view. cbn [fst snd]. f_equal.
  clear. induction fs as [|[k p] fs IH]; [done|]. rewrite fmap_cons. unfold visible. rewrite filter_cons_True; [by f_equal|].
  unfold frame_output. by repeat case_bool_decide.
Qed.

(** Two frames and half of a third, cut inside a header. *)
Definition sample_frames : list (byte * list byte) :=
  [(x00, [x45; x00]); (x04, []); (x2a, [x01]); (x00, [x46])].
Definition sample_tunnel : list byte := sample_frames ≫= raw_frame.
Definition sample_reads : list (N * ReadOutcome) :=
  [(1%N, Read_bytes (take 11 (drop 3 sample_tunnel))); (16000%N, Read_bytes (drop 14 sample_tunnel))].
Lemma sample_reads_only : bytes_only sample_reads.
Proof. repeat (constructor; [by eexists|]). constructor. Qed.
Lemma sample_frames_ok : Forall raw_ok sample_frames.
Proof. repeat (constructor; [split_and!; [vm_compute; discriminate|done|done|done]|]). constructor. Qed.

Lemma read_task_delivers_witness :
  Forall raw_ok sample_frames ∧
  view (read_task 0 (take 3 sample_tunnel) [] sample_reads)
  = ([Delivered [x45; x00]; Sent DpdResponse; Sent (Ev_Control x2a []); Delivered [x46]], None).
Proof.
  split; [exact sample_frames_ok|].
  apply (read_task_delivers 0 (take 3 sample_tunnel) sample_reads sample_frames);
    [exact sample_reads_only|exact sample_frames_ok|vm_compute; reflexivity].
Defined.
Lemma read_task_cut_witness :
  bytes_only sample_reads ∧
  view (read_task 0 [] [true; false] (sample_reads ++ [(3%N, Read_bytes [])]))
  = view (read_task 5 [] [true; false] ([(1%N, Read_bytes (drop 3 sample_tunnel))] ++ [(3%N, Read_bytes [])])).
Proof.
  split; [exact sample_reads_only|]. apply read_task_cut; [exact sample_reads_only| |vm_compute; reflexivity].
  apply Forall_singleton. by eexists.
Defined.

(** ** The text of a failure *)

Lemma bounded_push_spec detail : ∀ bounded,
  length (utf8 bounded) ≤ 256 → length (utf8 (bounded_push bounded detail)) ≤ 256 ∧
  ∃ n, bounded_push bounded detail = bounded ++ take n detail.
Proof.
  induction detail as [|ch detail IH]; intros bounded Hb; cbn [bounded_push].
  - split; [done|]. exists 0. by rewrite app_nil_r.
  - destruct (Nat.ltb_spec 256 (length (utf8 bounded) + length (utf8_char ch))).
    + split; [done|]. exists 0. by rewrite app_nil_r.
    + destruct (IH (bounded ++ [ch])) as [Hl [n Hn]].
      { rewrite utf8_app, length_app. unfold utf8 at 2. simpl. by rewrite app_nil_r. }
      split; [done|]. exists (S n). rewrite Hn, <-app_assoc. done.
Qed.

(** The text of a failure fits 256 bytes and has no control character. *)
Lemma failure_text_bounded now dir error :
  length (utf8 (detail (session_io_error_new now dir error))) ≤ 256 ∧
  Forall (λ ch, is_control ch = false) (detail (session_io_error_new now dir error)).
Proof.
  cbn [detail session_io_error_new]. unfold bounded_detail.
  destruct (bounded_push_spec (base.filter (λ ch, is_control ch = false) (source_detail (io_source error))) [] ltac:(simpl; lia))
    as [Hl [n Hn]]. split; [done|]. rewrite Hn. simpl. apply Forall_take. apply Forall_forall.
  intros ch Hch. by apply list_elem_of_filter in Hch as [H _].
Qed.

(** ** The write task *)

Definition frame_of_write (w : list byte * N * option IoFailure) : list byte := w.1.1.
(** The frames before the first failure, and the failure. *)
Fixpoint written_before (frames : list (list byte * N * option IoFailure)) : list (list byte) * option (N * IoFailure) :=
  match frames with
  | [] => ([], None)
  | (_, now, Some e) :: _ => ([], Some (now, e))
  | (frame, _, None) :: frames => let '(fs, e) := written_before frames in (frame :: fs, e)
  end.
Definition is_sample (o : Output) : Prop := match o with Sent (IoDiagnostics _) => True | _ => False end.
Definition total (fs : list (list byte)) : N := foldr (λ f n, N.of_nat (length f) + n)%N 0%N fs.
Definition kind_count (kind : byte) (fs : list (list byte)) : N :=
  N.of_nat (length (base.filter (λ f, f !! 6 = Some kind) fs)).

(** A sample after the frames [fs] have been counted on top of [d]. *)
Definition counted (d : SessionIoDiagnostics) (fs : list (list byte)) (d' : SessionIoDiagnostics) : Prop :=
  bytes d' = sat_add64 (bytes d) (total fs) ∧ operations d' = sat_add64 (operations d) (N.of_nat (length fs)) ∧
  keepalive_frames d' = add64 (keepalive_frames d) (kind_count x07 fs) ∧
  dpd_request_frames d' = add64 (dpd_request_frames d) (kind_count x03 fs) ∧
  dpd_response_frames d' = add64 (dpd_response_frames d) (kind_count x04 fs).

Definition counters_ok (d : SessionIoDiagnostics) : Prop :=
  in_u64 (bytes d) ∧ in_u64 (operations d) ∧ in_u64 (keepalive_frames d) ∧ in_u64 (dpd_request_frames d) ∧ in_u64 (dpd_response_frames d).

Lemma sat_add64_add a b c : sat_add64 (sat_add64 a b) c = sat_add64 a (b + c).
Proof. unfold sat_add64. lia. Qed.
Lemma add64_add a b c : add64 (add64 a b) c = add64 a (b + c).
Proof. unfold add64, wrap64. rewrite N.Div0.add_mod_idemp_l. f_equal. lia. Qed.
Lemma sat_add64_0 a : in_u64 a → sat_add64 a 0 = a.
Proof. unfold sat_add64, in_u64. lia. Qed.
Lemma add64_0 a : in_u64 a → add64 a 0 = a.
Proof. intros H. unfold add64. rewrite N.add_0_r. by apply wrap64_small. Qed.

Lemma counted_nil d : counters_ok d → counted d [] d.
Proof. intros (? & ? & ? & ? & ?). unfold counted, kind_count, total. simpl. rewrite !sat_add64_0, !add64_0 by done. done. Qed.
Lemma counted_publish now d fs d' : counted (publish now d).1 fs d' → counted d fs d'.
Proof. done. Qed.

Lemma kind_count_cons kind f fs : kind_count kind (f :: fs) = ((if bool_decide (f !! 6%nat = Some kind) then 1 else 0) + kind_count kind fs)%N.
Proof.
  unfold kind_count. case_bool_decide; [rewrite filter_cons_True by done|rewrite filter_cons_False by done]; simpl; lia.
Qed.
Lemma counted_cons now frame d fs d' :
  counters_ok d → counted (count_control frame (record now (length frame) d)).1 fs d' → counted d (frame :: fs) d'.
Proof.
  intros (H1 & H2 & H3 & H4 & H5). destruct d as [dir by_ op k q r la sa]. cbn [bytes operations keepalive_frames dpd_request_frames dpd_response_frames] in *.
  unfold counted. rewrite !kind_count_cons. cbn [total foldr length]. unfold count_control, record.
  cbn [direction bytes operations keepalive_frames dpd_request_frames dpd_response_frames sampled_at].
  destruct (frame !! 6) as [kd|]; repeat case_bool_decide; simplify_eq;
    cbn [fst bytes operations keepalive_frames dpd_request_frames dpd_response_frames];
    rewrite ?sat_add64_add, ?add64_add, ?N.add_0_l; rewrite ?(N.add_comm 1), ?N.add_1_r, ?Nat2N.inj_succ;
    intros (-> & -> & -> & -> & ->); split_and!; try done; f_equal; lia.
Qed.
Lemma sat_add64_ok a b : in_u64 (sat_add64 a b).
Proof. unfold sat_add64, in_u64, two64. lia. Qed.
Lemma count_control_ok now frame d : counters_ok d → counters_ok (count_control frame (record now (length frame) d)).1.
Proof.
  intros (H1 & H2 & H3 & H4 & H5). destruct d as [dir by_ op k q r la sa]. unfold count_control, record.
  cbn [direction bytes operations keepalive_frames dpd_request_frames dpd_response_frames sampled_at] in *.
  destruct (frame !! 6); repeat case_bool_decide; split_and!; simpl; try done; try apply sat_add64_ok; apply wrap64_lt.
Qed.

Lemma write_loop_spec frames : ∀ now d,
  counters_ok d →
  let '(written, outs) := write_loop now d frames in
  written = (written_before frames).1 ∧
  ∃ pre d', outs = pre ++ Sent (IoDiagnostics d')
      :: match (written_before frames).2 with
         | Some (t, e) => [Sent (WriteFailed (session_io_error_new t Dir_Write e))]
         | None => []
         end ∧ Forall is_sample pre ∧ counted d written d'.
Proof.
  induction frames as [|[[frame t] [e|]] frames IH]; intros now d Hd; cbn [write_loop written_before].
  - split; [done|]. exists [], (publish now d).1. split_and!; [done|constructor|]. by apply (counted_nil d).
  - split; [done|]. exists [], (publish t d).1. split_and!; [done|constructor|]. by apply (counted_nil d).
  - pose proof (count_control_ok t frame d Hd) as Hd1. pose proof (counted_cons t frame d) as Hc.
    destruct (count_control frame _) as [d1 ctl]. cbn [fst] in *.
    destruct (if ctl || sample_due t d1 then publish t d1 else (d1, [])) as [d2 sample] eqn:E.
    assert (H2 : counters_ok d2 ∧ Forall is_sample sample ∧ ∀ fs d', counted d2 fs d' → counted d1 fs d').
    { destruct (ctl || _); injection E as <- <-; split_and!; try done; repeat constructor. }
    destruct H2 as (H2 & Hs & H21). specialize (IH t d2 H2).
    destruct (write_loop t d2 frames) as [written outs]. destruct (written_before frames) as [fs err].
    cbn [fst snd] in *. destruct IH as (-> & pre & d' & -> & Hp & Hcd). split; [done|].
    exists (sample ++ pre), d'. rewrite <-app_assoc. split_and!; [done|by apply Forall_app|]. by apply Hc; [|apply H21].
Qed.

(** The write task writes the frames it receives in order up to the first failure and
    none after it. It reports the failure last, or nothing but samples when the channel
    closes, and its last sample counts exactly the frames written: their bytes, their
    number, and the keepalives, probes and probe answers among them. *)
Theorem write_task_reports now frames :
  let '(written, outs) := write_data_task now frames in
  written = (written_before frames).1 ∧
  ∃ pre d', outs = pre ++ Sent (IoDiagnostics d')
      :: match (written_before frames).2 with
         | Some (t, e) => [Sent (WriteFailed (session_io_error_new t Dir_Write e))]
         | None => []
         end ∧ Forall is_sample pre ∧ counted (diagnostics_new now Dir_Write) written d'.
Proof. apply write_loop_spec. done. Qed.

(** ** Opening a session *)

Lemma read_offer_spec s : ∀ buf head remainder s',
  read_offer s buf = (Ok (head, remainder), s') →
  buf ++ stream_bytes s = head ++ remainder ++ stream_bytes s' ∧ find_header_end (head ++ remainder) = Some (length head).
Proof.
  induction s as [|e s IH]; intros buf head remainder s'; cbn [read_offer]; [done|].
  destruct e as [[|b chunk]| |]; [done| |done|done].
  rewrite stream_bytes_cons. cbn [event_bytes]. rewrite app_assoc.
  destruct (find_header_end (buf ++ b :: chunk)) as [n|] eqn:E.
  - intros [= <- <- <-]. pose proof (find_header_end_bound _ _ E). rewrite app_assoc, take_drop.
    split; [done|]. rewrite length_take_le by done. by rewrite E.
  - destruct (MAX_OFFER <? _)%N; [done|]. apply IH.
Qed.

(** A session is opened only with a login: without one nothing happens on the
    network. An opened session wrote exactly one request, which carries the cookie of the
    login, has the plan its offer says, and hands every byte that followed the offer to
    the read task: nothing of what the gateway sent is lost or read twice. *)
Theorem open_hands_over sha256_hex w cfg login user_agent :
  match open_with_user_agent sha256_hex w cfg login user_agent with
  | (actions, requests, Some (Ok session)) =>
      ∃ l conn head, login = Some l ∧ (connect w cfg).2 = Some (Ok conn) ∧
        requests = [match user_agent with
                    | Some ua => build_connect_request_with_user_agent (hostname cfg) l ua
                    | None => build_connect_request (hostname cfg) l
                    end] ∧
        parse_offer (from_utf8_lossy head) = Some (offer_plan session) ∧
        stream_bytes (incoming conn) = head ++ offer_remainder session ++ stream_bytes (read_half session)
  | (actions, requests, r) =>
      login = None → actions = [] ∧ requests = [] ∧ r = Some (Err MissingSession)
  end.
Proof.
  unfold open_with_user_agent. destruct login as [l|]; [|done].
  destruct (connect w cfg) as [actions [[conn|e]|]]; [|done|done]. cbn [snd].
  destruct (writable conn); [|done]. cbn [negb].
  destruct (read_offer (incoming conn) []) as [[[head remainder]|e] s] eqn:E; [|done].
  apply read_offer_spec in E as [E _]. destruct (parse_offer _) as [plan|] eqn:Ep; [|done].
  exists l, conn, head. split_and!; try done.
Qed.

(** The offer is refused when the stream ends, or fails, before its end. *)
Lemma read_offer_truncated s buf : plain s → find_header_end (buf ++ stream_bytes s) = None →
  ∃ e s', read_offer s buf = (Err e, s') ∧ (e = EofBeforeTerminator ∨ e = OfferParseFailed).
Proof.
  revert buf. induction s as [|e s IH]; intros buf Hs H; cbn [read_offer]; [eauto|].
  apply plain_cons in Hs as (b & chunk & -> & Hs). rewrite stream_bytes_cons, app_assoc in H. cbn [event_bytes] in H.
  destruct (find_header_end (buf ++ b :: chunk)) as [n|] eqn:E.
  { by rewrite (find_header_end_app_l _ _ _ E) in H. }
  destruct (MAX_OFFER <? _)%N; [eauto|]. by apply IH.
Qed.
