(* ===== verification/Host.v ===== *)
(** * The host control-plane composition

    [composition.rs] of the host crate: the phase machine of the host, its admission
    gate and the two-sided teardown barrier it owns. A method takes the composition and
    returns it with its effect. *)

From Stdlib Require Import NArith Strings.Byte Lia.
From S2P Require Import Prelude Identity Model Samples Authority DataPlane.

(** host/composition.rs:12-29 [HostPhase] *)
Inductive HostPhase :=
  | Host_Idle | Host_Connecting | Host_Connected | Host_Reconciling
  | Host_Stopping | Host_Stopped | Host_Failed.
#[export] Instance HostPhase_eq_dec : EqDecision HostPhase. Proof. solve_decision. Defined.

(** host/composition.rs:31-63 [HostEvent] *)
Inductive HostEvent :=
  | Ev_Connect | Ev_ProtocolEstablished | Ev_Disconnect | Ev_HelperLinkLost
  | Ev_StopNewAdmission | Ev_TeardownSideJoined (side : TeardownSide)
  | Ev_ConnectFailed (error : VpnError) | Ev_ConnectionLost (error : VpnError)
  | Ev_ConnectPhaseProgress (phase : ConnectPhase) | Ev_ReopenAdmission.
#[export] Instance HostEvent_eq_dec : EqDecision HostEvent. Proof. solve_decision. Defined.

(** host/composition.rs:65-94 [HostEffect] *)
Inductive HostEffect :=
  | Eff_ConnectAdmitted | Eff_ConnectRefused (reason : string) | Eff_Connected
  | Eff_ReconcilingEntered | Eff_AdmissionStopped | Eff_TeardownInitiated
  | Eff_TeardownPending | Eff_Stopped | Eff_ConnectFailed | Eff_PhaseProgressed
  | Eff_AdmissionReopened | Eff_AdmissionReopenIgnored.
#[export] Instance HostEffect_eq_dec : EqDecision HostEffect. Proof. solve_decision. Defined.

(** host/composition.rs:96-107 [HostComposition] *)
Record HostComposition := MkHostComposition {
  hc_phase : HostPhase;
  hc_admission_open : bool;
  hc_teardown : TeardownBarrier;
  hc_peer : option PeerContext;
  hc_capability : option PeerCapability;
  hc_connect_phase : option ConnectPhase;
  hc_last_error : option VpnError;
}.

(** host/composition.rs:110-121 [HostComposition::new] *)
Definition HostComposition_new : HostComposition :=
  MkHostComposition Host_Idle true barrier_new None None None None.

(** host/composition.rs:147-153 [HostComposition::bind_peer] *)
Definition bind_peer (h : HostComposition) (peer : PeerContext) (capability : PeerCapability) :
    HostComposition :=
  MkHostComposition (hc_phase h) (hc_admission_open h) (hc_teardown h) (Some peer)
    (Some capability) (hc_connect_phase h) (hc_last_error h).

(** The assignments to single fields. *)
Definition set_host_phase (p : HostPhase) (h : HostComposition) : HostComposition :=
  MkHostComposition p (hc_admission_open h) (hc_teardown h) (hc_peer h) (hc_capability h)
    (hc_connect_phase h) (hc_last_error h).
Definition set_admission_open (b : bool) (h : HostComposition) : HostComposition :=
  MkHostComposition (hc_phase h) b (hc_teardown h) (hc_peer h) (hc_capability h)
    (hc_connect_phase h) (hc_last_error h).
Definition set_teardown (t : TeardownBarrier) (h : HostComposition) : HostComposition :=
  MkHostComposition (hc_phase h) (hc_admission_open h) t (hc_peer h) (hc_capability h)
    (hc_connect_phase h) (hc_last_error h).
Definition set_connect_phase (c : option ConnectPhase) (h : HostComposition) : HostComposition :=
  MkHostComposition (hc_phase h) (hc_admission_open h) (hc_teardown h) (hc_peer h) (hc_capability h)
    c (hc_last_error h).
Definition set_last_error (e : option VpnError) (h : HostComposition) : HostComposition :=
  MkHostComposition (hc_phase h) (hc_admission_open h) (hc_teardown h) (hc_peer h) (hc_capability h)
    (hc_connect_phase h) e.

(** host/composition.rs:155-256 [HostComposition::apply] *)
Definition host_apply (h : HostComposition) (event : HostEvent) : HostComposition * HostEffect :=
  match event with
  | Ev_Connect =>
      if negb (hc_admission_open h) then (h, Eff_ConnectRefused "connect: admission closed")
      else if negb (bool_decide (is_Some (hc_capability h)))
      then (h, Eff_ConnectRefused "connect: no peer capability")
      else if bool_decide (hc_phase h = Host_Stopping) || bool_decide (hc_phase h = Host_Reconciling)
      then (h, Eff_ConnectRefused "connect: teardown in progress")
      else
        (set_last_error None
           (set_connect_phase (Some ObservingOwnedState) (set_host_phase Host_Connecting h)),
         Eff_ConnectAdmitted)
  | Ev_ProtocolEstablished =>
      (set_last_error None
         (set_connect_phase (Some StartingDataPlane) (set_host_phase Host_Connected h)),
       Eff_Connected)
  | Ev_ConnectPhaseProgress phase => (set_connect_phase (Some phase) h, Eff_PhaseProgressed)
  | Ev_ConnectFailed error =>
      let h := set_last_error (Some error) h in
      (if bool_decide (hc_phase h = Host_Connecting) then set_host_phase Host_Failed h else h,
       Eff_ConnectFailed)
  | Ev_ConnectionLost error =>
      let h := set_last_error (Some error) h in
      (match hc_phase h with
       | Host_Connected | Host_Connecting => set_connect_phase None (set_host_phase Host_Failed h)
       | _ => h
       end,
       Eff_ConnectFailed)
  | Ev_Disconnect =>
      (set_teardown barrier_new (set_host_phase Host_Stopping (set_admission_open false h)),
       Eff_TeardownInitiated)
  | Ev_HelperLinkLost =>
      if bool_decide (hc_phase h = Host_Connecting) || bool_decide (hc_phase h = Host_Connected)
      then (set_host_phase Host_Reconciling (set_admission_open false h), Eff_ReconcilingEntered)
      else (h, Eff_AdmissionStopped)
  | Ev_StopNewAdmission => (set_admission_open false h, Eff_AdmissionStopped)
  | Ev_TeardownSideJoined side =>
      let '(t, outcome) := join (hc_teardown h) side in
      let h := set_teardown t h in
      match outcome with
      | Join_Released => (set_host_phase Host_Stopped h, Eff_Stopped)
      | Join_Pending | Join_Rejected => (h, Eff_TeardownPending)
      end
  | Ev_ReopenAdmission =>
      if bool_decide (hc_phase h = Host_Stopped)
      then (set_connect_phase None (set_host_phase Host_Idle (set_admission_open true h)),
            Eff_AdmissionReopened)
      else (h, Eff_AdmissionReopenIgnored)
  end.

(** ** Histories *)

Inductive host_op :=
  | HBind (peer : PeerContext) (capability : PeerCapability)
  | HApply (event : HostEvent).

Definition host_step (h : HostComposition) (op : host_op) : HostComposition :=
  match op with
  | HBind peer capability => bind_peer h peer capability
  | HApply event => (host_apply h event).1
  end.
Definition host_run (h : HostComposition) (ops : list host_op) : HostComposition :=
  foldl host_step h ops.

(** The calls made since the last disconnect, after the calls of [acc]. *)
Definition since_disconnect (acc : list host_op) (ops : list host_op) : list host_op :=
  foldl (λ acc op, match op with HApply Ev_Disconnect => [] | _ => acc ++ [op] end) acc ops.

(** The state the gate protects: admission is closed, every side the barrier has
    joined was joined in [acc], and the host is stopped only once it is released. *)
Definition gated (h : HostComposition) (acc : list host_op) : Prop :=
  hc_admission_open h = false ∧ barrier_wf (hc_teardown h) ∧
  (∀ s, at_side s (tb_joined (hc_teardown h)) = true → HApply (Ev_TeardownSideJoined s) ∈ acc) ∧
  (hc_phase h = Host_Stopped → tb_released (hc_teardown h) = true).

Lemma gated_step h acc op :
  gated h acc →
  gated (host_step h op) (since_disconnect acc [op]) ∨
  op = HApply Ev_ReopenAdmission ∧ ∀ s, HApply (Ev_TeardownSideJoined s) ∈ acc.
Proof.
  intros (Ho & Hwf & Hj & Hs). unfold gated, since_disconnect. cbn [foldl].
  destruct op as [p c|[| | | | |side|e|e|c|]]; simpl.
  - left. split_and!; set_solver.
  - rewrite Ho. left. split_and!; set_solver.
  - left. split_and!; simpl; set_solver.
  - left. split_and!; simpl; [done|apply barrier_new_wf|by intros []|done].
  - left. destruct (_ || _); split_and!; simpl; set_solver.
  - left. split_and!; simpl; set_solver.
  - left. pose proof (join_cases (hc_teardown h) side Hwf) as H.
    destruct (join (hc_teardown h) side) as [b o]. destruct H as (Hwf' & Hj' & Ho' & Hr).
    assert (Hin : ∀ s, at_side s (tb_joined b) = true →
      HApply (Ev_TeardownSideJoined s) ∈ acc ++ [HApply (Ev_TeardownSideJoined side)]).
    { intros s [?| ->]%Hj'; set_solver. }
    assert (Hst : hc_phase h = Host_Stopped → tb_released b = true).
    { intros E. specialize (Hs E). by rewrite (Hr Hs). }
    destruct o; simpl; split_and!; try done. intros _. by apply Ho'.
  - left. case_bool_decide; split_and!; simpl; set_solver.
  - left. destruct (hc_phase h) eqn:E; split_and!; simpl; rewrite ?E; try done; set_solver.
  - left. split_and!; set_solver.
  - case_bool_decide as E; simpl; [right|left; split_and!; set_solver].
    split; [done|]. intros s. by apply Hj, Hwf, Hs.
Qed.

Lemma gated_run ops : ∀ h acc,
  gated h acc → hc_admission_open (host_run h ops) = true →
  ∃ pre post, ops = pre ++ HApply Ev_ReopenAdmission :: post ∧
    ∀ s, HApply (Ev_TeardownSideJoined s) ∈ since_disconnect acc pre.
Proof.
  induction ops as [|op ops IH]; intros h acc Hg Hopen; [destruct Hg; simpl in *; congruence|].
  destruct (gated_step h acc op Hg) as [Hg'|[-> Hj]].
  - destruct (IH _ _ Hg' Hopen) as (pre & post & -> & Hj). by exists (op :: pre), post.
  - by exists [], ops.
Qed.

(** ** The invariant of a live host *)

(** What the phases promise of the other fields. *)
Definition host_ok (h : HostComposition) : Prop :=
  barrier_wf (hc_teardown h) ∧
  (is_Some (hc_peer h) ↔ is_Some (hc_capability h)) ∧
  match hc_phase h with
  | Host_Idle => True
  | Host_Connecting => is_Some (hc_connect_phase h) ∧ is_Some (hc_capability h)
  | Host_Connected => is_Some (hc_connect_phase h)
  | Host_Reconciling => hc_admission_open h = false
  | Host_Stopping => hc_admission_open h = false ∧ tb_released (hc_teardown h) = false
  | Host_Stopped => tb_released (hc_teardown h) = true
  | Host_Failed => is_Some (hc_last_error h)
  end.

Lemma host_step_ok h op : host_ok h → host_ok (host_step h op).
Proof.
  intros (Hwf & Hp & Hm). unfold host_ok.
  destruct op as [p c|[| | | | |side|e|e|c|]]; simpl.
  - split_and!; [done|by split; eauto|]. destruct (hc_phase h); naive_solver.
  - destruct (hc_admission_open h) eqn:Ea; simpl; [|by rewrite Ea in *].
    case_bool_decide; simpl; [|by rewrite Ea in *]. destruct (hc_phase h) eqn:E; simpl; rewrite ?E, ?Ea in *; split_and!; naive_solver.
  - split_and!; eauto.
  - split_and!; eauto using barrier_new_wf.
  - destruct (hc_phase h) eqn:E; simpl; rewrite ?E in *; split_and!; naive_solver.
  - split_and!; eauto. destruct (hc_phase h); naive_solver.
  - pose proof (join_cases (hc_teardown h) side Hwf) as H.
    destruct (join (hc_teardown h) side) as [b o]. destruct H as (Hwf' & _ & Ho & Hr).
    destruct o; simpl; split_and!; try done; try (by apply Ho).
    all: destruct (hc_phase h); try done; try (by rewrite (Hr Hm)).
    all: destruct Hm as [? Hu]; split; [done|]; destruct (tb_released b) eqn:E; [|done].
    all: pose proof (proj2 Ho (conj eq_refl Hu)); done.
  - destruct (hc_phase h) eqn:E; simpl; rewrite ?E in *; split_and!; naive_solver.
  - destruct (hc_phase h) eqn:E; simpl; rewrite ?E in *; split_and!; naive_solver.
  - split_and!; eauto. destruct (hc_phase h); naive_solver.
  - destruct (hc_phase h) eqn:E; simpl; rewrite ?E in *; split_and!; naive_solver.
Qed.

(** ** Properties *)

(** A disconnect cannot be followed by a new connection until the teardown is
    over. Whatever is called after a [Disconnect], from any state of the host, a
    [Connect] is admitted only if an earlier call reopened admission, and by then both
    sides had joined the teardown barrier since the latest disconnect. *)
Theorem teardown_gates_reconnect h ops :
  let stopped := (host_apply h Ev_Disconnect).1 in
  (host_apply (host_run stopped ops) Ev_Connect).2 = Eff_ConnectAdmitted →
  ∃ pre post, ops = pre ++ HApply Ev_ReopenAdmission :: post ∧
    ∀ side, HApply (Ev_TeardownSideJoined side) ∈ since_disconnect [] pre.
Proof.
  intros stopped Hadm. apply (gated_run ops stopped []).
  - split_and!; simpl; [done|apply barrier_new_wf|by intros []|done].
  - unfold host_apply in Hadm. by destruct (hc_admission_open _).
Qed.

(** A teardown can always be completed and the host used again: after a
    [Disconnect] from any state, the two sides joining in either order stop the host,
    reopening returns it to idle, and a connection over a bound peer is admitted at
    the first phase with no stale error. *)
Theorem teardown_then_reconnect h side :
  is_Some (hc_capability h) →
  let h1 := (host_apply h Ev_Disconnect).1 in
  let h2 := host_apply h1 (Ev_TeardownSideJoined side) in
  let h3 := host_apply h2.1 (Ev_TeardownSideJoined (peer side)) in
  let h4 := host_apply h3.1 Ev_ReopenAdmission in
  let h5 := host_apply h4.1 Ev_Connect in
  (h2.2, h3.2, h4.2, h5.2) =
    (Eff_TeardownPending, Eff_Stopped, Eff_AdmissionReopened, Eff_ConnectAdmitted) ∧
  (hc_phase h2.1, hc_phase h3.1, hc_phase h4.1, hc_phase h5.1) =
    (Host_Stopping, Host_Stopped, Host_Idle, Host_Connecting) ∧
  hc_connect_phase h5.1 = Some ObservingOwnedState ∧ hc_last_error h5.1 = None.
Proof.
  intros Hc. destruct h as [ph adm td pr cap cph err]. simpl in Hc.
  destruct side; simpl; rewrite bool_decide_eq_true_2 by done; done.
Qed.

(** Every reachable host keeps its fields consistent with its phase: a
    connecting host has a bound peer and a phase to report, a failed one has the error,
    a reconciling or stopping one admits nothing, and a host is stopped only when both
    sides have joined its barrier. *)
Theorem host_phase_consistent ops : host_ok (host_run HostComposition_new ops).
Proof.
  enough (∀ h, host_ok h → host_ok (host_run h ops)) as H.
  { apply H. split_and!; [apply barrier_new_wf|by split; intros [? [=]]|done]. }
  induction ops as [|op ops IH]; intros h Hok; [done|]. by apply IH, host_step_ok.
Qed.

Definition sample_host : HostComposition :=
  bind_peer HostComposition_new (MkPeerContext (vcm_principal sample_peer) (vcm_connection sample_peer))
    (MkPeerCapability (vcm_connection sample_peer) (vcm_principal sample_peer) (MkAuthorityEpoch 1)
       Method_Connect (MkMonotonicTick 10)).
Definition sample_teardown : list host_op :=
  [HApply (Ev_TeardownSideJoined PacketData); HApply Ev_ReopenAdmission;
   HApply (Ev_TeardownSideJoined ProtocolControl); HApply Ev_ReopenAdmission].

Lemma teardown_gates_reconnect_witness :
  ∃ pre post, sample_teardown = pre ++ HApply Ev_ReopenAdmission :: post ∧
    ∀ side, HApply (Ev_TeardownSideJoined side) ∈ since_disconnect [] pre.
Proof. apply (teardown_gates_reconnect sample_host sample_teardown). vm_compute. reflexivity. Defined.

Lemma teardown_then_reconnect_witness :
  (host_apply (host_apply sample_host Ev_Disconnect).1 (Ev_TeardownSideJoined PacketData)).2 =
    Eff_TeardownPending.
Proof.
  assert (Hc : is_Some (hc_capability sample_host)) by (eexists; reflexivity).
  destruct (teardown_then_reconnect sample_host PacketData Hc) as [E _].
  exact (f_equal (λ t, t.1.1.1) E).
Defined.

(** The barrier alone can stop a host that was never asked to disconnect. *)
Example stopped_without_disconnect :
  hc_phase (host_run sample_host
    [HApply Ev_Connect; HApply Ev_ProtocolEstablished; HApply (Ev_TeardownSideJoined PacketData);
     HApply (Ev_TeardownSideJoined ProtocolControl)]) = Host_Stopped ∧
  hc_admission_open (host_run sample_host
    [HApply Ev_Connect; HApply Ev_ProtocolEstablished; HApply (Ev_TeardownSideJoined PacketData);
     HApply (Ev_TeardownSideJoined ProtocolControl)]) = true.
Proof. by vm_compute. Qed.

(** A stopped host leaves its phase without admission being reopened. *)
Example established_leaves_stopped :
  hc_phase (host_run sample_host
    [HApply Ev_Disconnect; HApply (Ev_TeardownSideJoined PacketData);
     HApply (Ev_TeardownSideJoined ProtocolControl); HApply Ev_ProtocolEstablished]) = Host_Connected.
Proof. by vm_compute. Qed.
