(* ===== verification/Helper.v ===== *)
(** * The helper control-plane composition

    [composition.rs] of the helper crate: ownership is acquired, the packet data plane
    is attached, and a retirement releases the ownership once both sides have joined
    the teardown barrier and the durable saga is retired.

    The composition uses the retirement saga and, through it, the record codec
    interface. A method takes the composition and returns it with its result; a saga
    that was advanced before a later step failed keeps its progress. *)

From Stdlib Require Import NArith Strings.Byte Lia.
From S2P Require Import Prelude Identity Model Samples Admission Retirement DataPlane.

(** helper/composition.rs:29-42 [HelperPhase] *)
Inductive HelperPhase :=
  | Helper_Idle | Helper_Acquired | Helper_Active | Helper_Retiring | Helper_Retired.
#[export] Instance HelperPhase_eq_dec : EqDecision HelperPhase. Proof. solve_decision. Defined.

(** helper/composition.rs:61-70 [HelperComposition] *)
Record HelperComposition := MkHelperComposition {
  hp_phase : HelperPhase;
  hp_ownership_version : option OwnershipVersion;
  hp_attached : bool;
  hp_teardown : TeardownBarrier;
  hp_retirement : option RetirementSaga;
  hp_retirement_operation_id : option RetirementOperationId;
  hp_expected_obligations : list byte;
}.

(** helper/composition.rs:73-84 [HelperComposition::new] *)
Definition HelperComposition_new : HelperComposition :=
  MkHelperComposition Helper_Idle None false barrier_new None None [].

(** helper/composition.rs:101-104 [HelperComposition::teardown_released] *)
Definition teardown_released (h : HelperComposition) : bool := is_released (hp_teardown h).

(** helper/composition.rs:106-124 [HelperComposition::acquire_ownership] *)
Definition acquire_ownership (h : HelperComposition) (version : OwnershipVersion) :
    HelperComposition * result string () :=
  match hp_phase h with
  | Helper_Retiring | Helper_Retired => (h, Err "acquire: retirement in progress")
  | Helper_Acquired | Helper_Active => (h, Err "acquire: ownership already held")
  | Helper_Idle =>
      (MkHelperComposition Helper_Acquired (Some version) (hp_attached h) (hp_teardown h)
         (hp_retirement h) (hp_retirement_operation_id h) (hp_expected_obligations h), Ok ())
  end.

(** helper/composition.rs:126-143 [HelperComposition::attach_packet] *)
Definition attach_packet (h : HelperComposition) : HelperComposition * result string () :=
  match hp_phase h with
  | Helper_Idle => (h, Err "attach: ownership not acquired")
  | Helper_Active => (h, Err "attach: already attached")
  | Helper_Retiring | Helper_Retired => (h, Err "attach: teardown in progress")
  | Helper_Acquired =>
      (MkHelperComposition Helper_Active (hp_ownership_version h) true (hp_teardown h)
         (hp_retirement h) (hp_retirement_operation_id h) (hp_expected_obligations h), Ok ())
  end.

(** helper/composition.rs:184-187 [HelperComposition::join_teardown] *)
Definition join_teardown (h : HelperComposition) (side : TeardownSide) :
    HelperComposition * JoinOutcome :=
  let '(t, outcome) := join (hp_teardown h) side in
  (MkHelperComposition (hp_phase h) (hp_ownership_version h) (hp_attached h) t
     (hp_retirement h) (hp_retirement_operation_id h) (hp_expected_obligations h), outcome).

(** The writes made through [self.retirement.as_mut()]. *)
Definition set_retirement (s : RetirementSaga) (h : HelperComposition) : HelperComposition :=
  MkHelperComposition (hp_phase h) (hp_ownership_version h) (hp_attached h) (hp_teardown h)
    (Some s) (hp_retirement_operation_id h) (hp_expected_obligations h).

(** helper/composition.rs:202-209 [HelperComposition::observe_and_prove]: the predicates
    built from the expected obligations: each label, verified. *)
Definition predicates_of (obligations : list byte) : list InventoryPredicate :=
  (λ label, MkInventoryPredicate label true) <$> obligations.

(** helper/composition.rs:298-320 [synthetic_prove_input] *)
Definition synthetic_prove_input : ProveCleanInput :=
  MkProveCleanInput (MkRuntimeEpoch (Uuid_from_u128 0xB0))
    (MkCleanupTriggerDigest (array_fill 32 xe1))
    (Some (MkExternalOperationDigest (array_fill 32 xe2)))
    (MkJournalRootDigest (array_fill 32 xe3))
    (MkVersionedPlatformEvidence 1 (MkEvidenceDigest (array_fill 32 xe4)))
    (Some (MkTokenDigest (array_fill 32 xe5))).

(** helper/composition.rs:189-213 [HelperComposition::observe_and_prove] *)
Definition observe_and_prove (h : HelperComposition) (input : ProveCleanInput) :
    HelperComposition * result string CleanProof :=
  if negb (bool_decide (hp_phase h = Helper_Retiring)) then (h, Err "observe: not retiring")
  else
    match hp_retirement h with
    | None => (h, Err "retire: no saga")
    | Some saga =>
        match observe_cleanup saga (predicates_of (hp_expected_obligations h)) with
        | (saga, Err e) => (set_retirement saga h, Err e)
        | (saga, Ok _) =>
            let '(saga, proof) := prove_clean saga input in (set_retirement saga h, proof)
        end
    end.

(** helper/composition.rs:215-246 [HelperComposition::retire_saga] *)
Definition retire_saga (h : HelperComposition) (next : OwnershipVersion) :
    HelperComposition * result string () :=
  if negb (bool_decide (hp_phase h = Helper_Retiring)) then (h, Err "retire: not retiring")
  else
    match hp_retirement h with
    | None => (h, Err "retire: no saga")
    | Some saga =>
        let '(saga, observed) :=
          if bool_decide (sg_phase saga = Phase_Started)
          then observe_cleanup saga (predicates_of (hp_expected_obligations h))
          else (saga, Ok ()) in
        match observed with
        | Err e => (set_retirement saga h, Err e)
        | Ok _ =>
            let '(saga, proved) :=
              if bool_decide (sg_phase saga = Phase_Observed)
              then let '(saga, proof) := prove_clean saga synthetic_prove_input in
                   (saga, _ ← proof; Ok ())
              else (saga, Ok ()) in
            match proved with
            | Err e => (set_retirement saga h, Err e)
            | Ok _ =>
                let '(saga, retired) := retire_ownership saga next in
                (set_retirement saga h, _ ← retired; Ok ())
            end
        end
    end.

(** helper/composition.rs:248-267 [HelperComposition::release_ownership] *)
Definition release_ownership (h : HelperComposition) : HelperComposition * result string () :=
  if negb (teardown_released h) then (h, Err "release: teardown barrier not released")
  else if match hp_retirement h with
          | None => true
          | Some s => negb (bool_decide (sg_phase s = Phase_Retired))
          end
  then (h, Err "release: retirement not retired")
  else
    (MkHelperComposition Helper_Retired (hp_ownership_version h) false (hp_teardown h)
       (hp_retirement h) (hp_retirement_operation_id h) (hp_expected_obligations h), Ok ()).

(** helper/composition.rs:269-289 [HelperComposition::admit_owned_frame] *)
Definition helper_admit_frame (h : HelperComposition) (frame : OwnershipVersion) : result string () :=
  if negb (hp_attached h) then Err "admit: not attached"
  else
    match hp_phase h with
    | Helper_Retiring | Helper_Retired => Err "admit: teardown in progress"
    | _ =>
        if negb (bool_decide (hp_ownership_version h = Some frame)) then Err "admit: stale ownership"
        else Ok ()
    end.

Section helper.
Context `{RecordCodec}.

(** helper/composition.rs:145-182 [HelperComposition::begin_retirement] *)
Definition begin_retirement (h : HelperComposition) (authority : AuthorityFence)
    (prior_ownership_version : OwnershipVersion) (id : RetirementOperationId)
    (trigger : CleanupTrigger) (origin_subject : ErrorSubject)
    (prior_platform_ownership : PlatformOwnershipRef) (expected_obligations : list byte)
    (canonical_inventory_digest : InventoryDigest) : HelperComposition * result string () :=
  match hp_phase h with
  | Helper_Retiring | Helper_Retired => (h, Err "retire: already in progress")
  | Helper_Idle => (h, Err "retire: no ownership")
  | Helper_Acquired | Helper_Active =>
      let saga := RetirementSaga_new authority prior_ownership_version in
      match begin saga id trigger origin_subject prior_platform_ownership expected_obligations
              canonical_inventory_digest with
      | (_, Err e) => (h, Err e)
      | (saga, Ok _) =>
          (MkHelperComposition Helper_Retiring (hp_ownership_version h) (hp_attached h)
             (hp_teardown h) (Some saga) (Some id) expected_obligations, Ok ())
      end
  end.

(** ** Histories *)

Inductive helper_op :=
  | H_acquire (version : OwnershipVersion)
  | H_attach
  | H_begin (authority : AuthorityFence) (prior : OwnershipVersion) (id : RetirementOperationId)
      (trigger : CleanupTrigger) (origin : ErrorSubject) (ownership : PlatformOwnershipRef)
      (expected : list byte) (inventory : InventoryDigest)
  | H_join (side : TeardownSide)
  | H_observe (input : ProveCleanInput)
  | H_retire (next : OwnershipVersion)
  | H_release.

(** One call, and whether it succeeded. *)
Definition helper_step (h : HelperComposition) (op : helper_op) : HelperComposition * bool :=
  match op with
  | H_acquire v => let '(h, r) := acquire_ownership h v in (h, is_ok r)
  | H_attach => let '(h, r) := attach_packet h in (h, is_ok r)
  | H_begin a p id t o w e i => let '(h, r) := begin_retirement h a p id t o w e i in (h, is_ok r)
  | H_join s => let '(h, o) := join_teardown h s in (h, negb (bool_decide (o = Join_Rejected)))
  | H_observe input => let '(h, r) := observe_and_prove h input in (h, is_ok r)
  | H_retire next => let '(h, r) := retire_saga h next in (h, is_ok r)
  | H_release => let '(h, r) := release_ownership h in (h, is_ok r)
  end.

(** A history: the composition it leads to and the calls that succeeded, in order. *)
Definition helper_run (h : HelperComposition) (ops : list helper_op) :
    HelperComposition * list helper_op :=
  foldl (λ '(h, done) op, let '(h, ok) := helper_step h op in (h, done ++ if ok then [op] else []))
    (h, []) ops.

Definition is_begin (op : helper_op) : bool :=
  match op with H_begin _ _ _ _ _ _ _ _ => true | _ => false end.
Definition begun (done : list helper_op) : Prop := ∃ op, op ∈ done ∧ is_begin op = true.
Definition retired (done : list helper_op) : Prop := ∃ next, H_retire next ∈ done.

(** A saga that was begun: it has its identity, and a next version only once retired. *)
Definition saga_begun (s : RetirementSaga) : Prop :=
  sg_phase s ≠ Phase_Pending ∧ is_Some (sg_retirement_operation_id s) ∧
  (sg_phase s ≠ Phase_Retired → sg_next_ownership_version s = None).

(** The composition after the calls of [done] succeeded. *)
Definition helper_inv (h : HelperComposition) (done : list helper_op) : Prop :=
  barrier_wf (hp_teardown h) ∧
  (∀ s, at_side s (tb_joined (hp_teardown h)) = true ↔ H_join s ∈ done) ∧
  (∀ v, H_acquire v ∈ done ↔ hp_ownership_version h = Some v) ∧
  (hp_attached h = true → H_attach ∈ done) ∧
  match hp_phase h with
  | Helper_Idle => hp_ownership_version h = None ∧ H_attach ∉ done
  | Helper_Acquired => is_Some (hp_ownership_version h) ∧ H_attach ∉ done
  | Helper_Active => is_Some (hp_ownership_version h) ∧ hp_attached h = true ∧ H_attach ∈ done
  | Helper_Retiring | Helper_Retired => begun done
  end ∧
  match hp_retirement h with
  | None => ¬ begun done ∧ ¬ retired done ∧
      hp_phase h ≠ Helper_Retiring ∧ hp_phase h ≠ Helper_Retired
  | Some s => begun done ∧ saga_begun s ∧ (sg_phase s = Phase_Retired ↔ retired done) ∧
      (hp_phase h = Helper_Retiring ∨ hp_phase h = Helper_Retired)
  end.

Lemma begun_app d l : begun (d ++ l) ↔ begun d ∨ begun l.
Proof. unfold begun. set_solver. Qed.
Lemma retired_app d l : retired (d ++ l) ↔ retired d ∨ retired l.
Proof. unfold retired. set_solver. Qed.
Lemma begun_one op : begun [op] ↔ is_begin op = true.
Proof. unfold begun. set_solver. Qed.
Lemma retired_one op : retired [op] ↔ ∃ next, op = H_retire next.
Proof. unfold retired. set_solver. Qed.
Lemma not_begun_nil : ¬ begun [].
Proof. unfold begun. set_solver. Qed.
Lemma not_retired_nil : ¬ retired [].
Proof. unfold retired. set_solver. Qed.

Lemma helper_inv_new : helper_inv HelperComposition_new [].
Proof.
  assert (Hnil : ∀ op : helper_op, op ∉ []) by (intros op; apply not_elem_of_nil).
  unfold helper_inv. split_and!; simpl; try done;
    auto using not_begun_nil, not_retired_nil, barrier_new_wf.
  - intros s. split; [by destruct s|by intros ?%Hnil].
  - intros v. split; [by intros ?%Hnil|done].
Qed.

(** ** What the saga calls do to a begun saga *)

Lemma observe_cleanup_begun s obs :
  saga_begun s →
  let '(s', _) := observe_cleanup s obs in
  saga_begun s' ∧ (sg_phase s' = Phase_Retired ↔ sg_phase s = Phase_Retired).
Proof.
  intros Hs. unfold observe_cleanup. case_bool_decide as Hp; simpl; [|done].
  destruct (observe_all _ _ _); [|done]. destruct (_ =? _); simpl; [|done].
  destruct Hs as (? & ? & Hn). split; [|by rewrite Hp]. split_and!; simpl; auto.
  intros _. apply Hn. by rewrite Hp.
Qed.

Lemma prove_clean_begun s input :
  saga_begun s →
  let '(s', _) := prove_clean s input in
  saga_begun s' ∧ (sg_phase s' = Phase_Retired ↔ sg_phase s = Phase_Retired).
Proof.
  intros Hs. unfold prove_clean. case_bool_decide as Hp; simpl; [|done].
  destruct Hs as (? & [id Hid] & Hn). rewrite Hid. simpl. split; [|by rewrite Hp].
  split_and!; simpl; eauto. intros _. apply Hn. by rewrite Hp.
Qed.

Lemma retire_ownership_begun s next :
  saga_begun s →
  let '(s', r) := retire_ownership s next in
  saga_begun s' ∧ (sg_phase s' = Phase_Retired ↔ sg_phase s = Phase_Retired ∨ is_ok r = true).
Proof.
  intros Hs. unfold retire_ownership. case_bool_decide as Hp; simpl; [|naive_solver].
  destruct Hs as (? & [id Hid] & Hn). rewrite Hn by by rewrite Hp.
  simpl. split; [|naive_solver]. split_and!; simpl; eauto. done.
Qed.

(** Driving the saga from [retire_saga]. *)
Lemma retire_saga_begun h next s :
  hp_retirement h = Some s → saga_begun s →
  ∃ s', (retire_saga h next).1 = set_retirement s' h ∧ saga_begun s' ∧
    (sg_phase s' = Phase_Retired ↔ sg_phase s = Phase_Retired ∨ is_ok (retire_saga h next).2 = true).
Proof.
  intros Hr Hs. unfold retire_saga. rewrite Hr.
  assert (set_retirement s h = h) as Hid by (destruct h; simpl in *; by rewrite Hr).
  case_bool_decide; simpl; [|exists s; naive_solver].
  destruct (if bool_decide (sg_phase s = Phase_Started) then _ else _) as [s1 r1] eqn:E1.
  assert (saga_begun s1 ∧ (sg_phase s1 = Phase_Retired ↔ sg_phase s = Phase_Retired)) as [Hs1 Hp1].
  { case_bool_decide; [|naive_solver]. pose proof (observe_cleanup_begun s
      (predicates_of (hp_expected_obligations h)) Hs) as Ho. by rewrite E1 in Ho. }
  destruct r1; simpl; [|exists s1; naive_solver].
  destruct (if bool_decide (sg_phase s1 = Phase_Observed) then _ else _) as [s2 r2] eqn:E2.
  assert (saga_begun s2 ∧ (sg_phase s2 = Phase_Retired ↔ sg_phase s = Phase_Retired)) as [Hs2 Hp2].
  { rewrite <-Hp1. case_bool_decide; [|naive_solver].
    pose proof (prove_clean_begun s1 synthetic_prove_input Hs1) as Ho.
    destruct (prove_clean s1 _) as [s2' r2']. by injection E2 as <- _. }
  destruct r2; simpl; [|exists s2; naive_solver].
  pose proof (retire_ownership_begun s2 next Hs2) as Ho.
  destruct (retire_ownership s2 next) as [s3 r3]. destruct Ho as [Hs3 Hp3]. exists s3.
  rewrite Hp3, Hp2. split_and!; try done. by destruct r3.
Qed.

(** ** The invariant *)

Lemma mem_snoc (x op : helper_op) d : x ∈ d ++ [op] ↔ x ∈ d ∨ x = op.
Proof. by rewrite elem_of_app, list_elem_of_singleton. Qed.
Lemma begun_snoc d op : begun (d ++ [op]) ↔ begun d ∨ is_begin op = true.
Proof. by rewrite begun_app, begun_one. Qed.
Lemma retired_snoc d op : retired (d ++ [op]) ↔ retired d ∨ ∃ next, op = H_retire next.
Proof. by rewrite retired_app, retired_one. Qed.

Ltac mem := intros; rewrite ?mem_snoc, ?begun_snoc, ?retired_snoc; simpl; naive_solver.

(** A call that only advanced the saga, without retiring it. *)
Lemma helper_inv_saga h done op s s' :
  helper_inv h done → hp_retirement h = Some s →
  saga_begun s' → (sg_phase s' = Phase_Retired ↔ sg_phase s = Phase_Retired ∨ retired [op]) →
  is_begin op = false → op ≠ H_attach → (∀ v, op ≠ H_acquire v) → (∀ d, op ≠ H_join d) →
  helper_inv (set_retirement s' h) (done ++ [op]).
Proof.
  intros (Hwf & Hj & Ha & Hatt & Hph & Hret) Hs Hs' Hp Hb H1 H2 H3. rewrite Hs in Hret.
  destruct Hret as (Hbg & _ & Hr & Hphase).
  unfold helper_inv; simpl. split_and!; try done.
  - intros d. rewrite mem_snoc, Hj. pose proof (H3 d). intuition congruence.
  - intros v. rewrite mem_snoc, Ha. pose proof (H2 v). intuition congruence.
  - rewrite mem_snoc. tauto.
  - destruct Hphase as [-> | ->]; rewrite begun_snoc; tauto.
  - rewrite begun_snoc; tauto.
  - rewrite retired_app, Hp. tauto.
Qed.

Lemma helper_inv_skip h done s s' :
  helper_inv h done → hp_retirement h = Some s → saga_begun s' →
  (sg_phase s' = Phase_Retired ↔ sg_phase s = Phase_Retired) →
  helper_inv (set_retirement s' h) done.
Proof.
  intros (Hwf & Hj & Ha & Hatt & Hph & Hret) Hs Hs' Hp. rewrite Hs in Hret.
  unfold helper_inv; simpl. split_and!; naive_solver.
Qed.

Lemma acquire_inv h done v :
  helper_inv h done →
  helper_inv (acquire_ownership h v).1 (done ++ if is_ok (acquire_ownership h v).2 then [H_acquire v] else []).
Proof.
  intros Hi. unfold acquire_ownership. destruct (hp_phase h) eqn:E; simpl; rewrite ?app_nil_r; try done.
  destruct Hi as (Hwf & Hj & Ha & Hatt & Hph & Hret). rewrite E in *.
  unfold helper_inv; simpl. destruct (hp_retirement h); [naive_solver|].
  split_and!; try done; mem.
Qed.

Lemma attach_inv h done :
  helper_inv h done →
  helper_inv (attach_packet h).1 (done ++ if is_ok (attach_packet h).2 then [H_attach] else []).
Proof.
  intros Hi. unfold attach_packet. destruct (hp_phase h) eqn:E; simpl; rewrite ?app_nil_r; try done.
  destruct Hi as (Hwf & Hj & Ha & Hatt & Hph & Hret). rewrite E in *.
  unfold helper_inv; simpl. destruct (hp_retirement h); [naive_solver|].
  split_and!; try done; mem.
Qed.

Lemma begin_saga_begun s id t o w e i :
  sg_next_ownership_version s = None →
  let '(s', r) := begin s id t o w e i in
  is_ok r = true → saga_begun s' ∧ sg_phase s' = Phase_Started.
Proof.
  intros Hn. unfold begin. destruct (sg_retirement_operation_id s); [done|].
  destruct (codec_decode _) as [[]|]; try done. repeat case_bool_decide; simpl; try done.
Qed.

Lemma begin_inv h done a p id t o w e i :
  helper_inv h done →
  helper_inv (begin_retirement h a p id t o w e i).1
    (done ++ if is_ok (begin_retirement h a p id t o w e i).2 then [H_begin a p id t o w e i] else []).
Proof.
  intros Hi. unfold begin_retirement.
  pose proof (begin_saga_begun (RetirementSaga_new a p) id t o w e i eq_refl) as Hb.
  destruct (begin (RetirementSaga_new a p) id t o w e i) as [s r].
  destruct (hp_phase h) eqn:E; simpl; rewrite ?app_nil_r; try done.
  all: destruct r; simpl; rewrite ?app_nil_r; try done.
  all: destruct (Hb eq_refl) as [Hs Hst];
    destruct Hi as (Hwf & Hj & Ha & Hatt & Hph & Hret); rewrite E in *;
    unfold helper_inv; simpl; destruct (hp_retirement h); [naive_solver|].
  all: destruct Hret as (Hnb & Hnr & _).
  all: split_and!; try done; intros; rewrite ?mem_snoc, ?begun_snoc, ?retired_snoc.
  all: try (rewrite ?Hj, ?Ha; split; [by left|by intros [?|?]]).
  all: try (by left; auto); try (by right); try (by left).
  all: rewrite ?Hst, ?Ha; intuition naive_solver.
Qed.

Lemma join_inv h done s :
  helper_inv h done →
  helper_inv (join_teardown h s).1
    (done ++ if negb (bool_decide ((join_teardown h s).2 = Join_Rejected)) then [H_join s] else []).
Proof.
  intros (Hwf & Hj & Ha & Hatt & Hph & Hret). unfold join_teardown.
  pose proof (join_cases (hp_teardown h) s Hwf) as Hc.
  pose proof (join_rejected (hp_teardown h) s Hwf) as Hrej.
  destruct (join (hp_teardown h) s) as [b o]. destruct Hc as (Hwf' & Hj' & _ & _). simpl in *.
  unfold helper_inv; simpl.
  case_bool_decide as Ho; simpl; rewrite ?app_nil_r.
  - split_and!; try done. intros s'. rewrite Hj', <-Hj. naive_solver.
  - assert (Hno : (∃ next, H_join s = H_retire next) ↔ False) by (split; [by intros []|done]).
    split_and!; try done.
    + intros s'. rewrite Hj', mem_snoc, Hj. intuition congruence.
    + intros v. rewrite mem_snoc, Ha. intuition congruence.
    + rewrite mem_snoc. tauto.
    + destruct (hp_phase h); rewrite ?mem_snoc, ?begun_snoc; simpl; intuition congruence.
    + destruct (hp_retirement h); rewrite begun_snoc, retired_snoc, Hno; simpl; intuition congruence.
Qed.

Lemma observe_inv h done input :
  helper_inv h done →
  helper_inv (observe_and_prove h input).1
    (done ++ if is_ok (observe_and_prove h input).2 then [H_observe input] else []).
Proof.
  intros Hi. unfold observe_and_prove. case_bool_decide; simpl; rewrite ?app_nil_r; [|done].
  destruct (hp_retirement h) as [s|] eqn:Hs; simpl; rewrite ?app_nil_r; [|done].
  assert (Hb : saga_begun s) by (unfold helper_inv in Hi; rewrite Hs in Hi; apply Hi).
  pose proof (observe_cleanup_begun s (predicates_of (hp_expected_obligations h)) Hb) as Ho.
  destruct (observe_cleanup s _) as [s1 [[]|e1]]; simpl; rewrite ?app_nil_r;
    destruct Ho as [Hs1 Hp1]; [|by eapply helper_inv_skip].
  pose proof (prove_clean_begun s1 input Hs1) as Hpc.
  destruct (prove_clean s1 input) as [s2 [p|e2]]; simpl; rewrite ?app_nil_r;
    destruct Hpc as [Hs2 Hp2]; [|eapply helper_inv_skip; [done..|by rewrite Hp2]].
  eapply helper_inv_saga; try done. rewrite Hp2, Hp1, retired_one. naive_solver.
Qed.

Lemma retire_inv h done next :
  helper_inv h done →
  helper_inv (retire_saga h next).1
    (done ++ if is_ok (retire_saga h next).2 then [H_retire next] else []).
Proof.
  intros Hi. destruct (hp_retirement h) as [s|] eqn:Hs.
  - assert (Hb : saga_begun s) by (unfold helper_inv in Hi; rewrite Hs in Hi; apply Hi).
    destruct (retire_saga_begun h next s Hs Hb) as (s' & -> & Hs' & Hp).
    destruct (is_ok (retire_saga h next).2); rewrite ?app_nil_r.
    + eapply helper_inv_saga; try done. rewrite Hp, retired_one. naive_solver.
    + eapply helper_inv_skip; try done. rewrite Hp. naive_solver.
  - unfold retire_saga. rewrite Hs. case_bool_decide; simpl; by rewrite app_nil_r.
Qed.

Lemma release_ownership_Ok h :
  is_ok (release_ownership h).2 = true ↔
  tb_released (hp_teardown h) = true ∧ ∃ s, hp_retirement h = Some s ∧ sg_phase s = Phase_Retired.
Proof.
  unfold release_ownership, teardown_released, is_released.
  destruct (tb_released _); simpl; [|naive_solver].
  destruct (hp_retirement h) as [s|]; simpl; [|naive_solver].
  case_bool_decide; simpl; naive_solver.
Qed.

Lemma release_inv h done :
  helper_inv h done →
  helper_inv (release_ownership h).1
    (done ++ if is_ok (release_ownership h).2 then [H_release] else []).
Proof.
  intros Hi. unfold release_ownership.
  destruct (teardown_released h); simpl; rewrite ?app_nil_r; [|done].
  destruct (hp_retirement h) as [s|] eqn:Hs; simpl; rewrite ?app_nil_r; [|done].
  case_bool_decide as Hp; simpl; rewrite ?app_nil_r; [|done].
  destruct Hi as (Hwf & Hj & Ha & Hatt & Hph & Hret). rewrite Hs in Hret.
  destruct Hret as (Hb & Hsb & Hr & Hphase).
  assert (Hno : (∃ next, H_release = H_retire next) ↔ False) by (split; [by intros []|done]).
  unfold helper_inv; simpl. split_and!; try done.
  - intros s'. rewrite mem_snoc, Hj. intuition congruence.
  - intros v. rewrite mem_snoc, Ha. intuition congruence.
  - rewrite begun_snoc. tauto.
  - rewrite begun_snoc. tauto.
  - rewrite retired_snoc, Hno. tauto.
  - by right.
Qed.

Lemma helper_step_inv h done op :
  helper_inv h done →
  helper_inv (helper_step h op).1 (done ++ if (helper_step h op).2 then [op] else []).
Proof.
  destruct op; unfold helper_step; intros Hi.
  - pose proof (acquire_inv h done version Hi). by destruct (acquire_ownership h version).
  - pose proof (attach_inv h done Hi). by destruct (attach_packet h).
  - pose proof (begin_inv h done authority prior id trigger origin ownership expected inventory Hi).
    by destruct (begin_retirement _ _ _ _ _ _ _ _ _).
  - pose proof (join_inv h done side Hi). by destruct (join_teardown h side).
  - pose proof (observe_inv h done input Hi). by destruct (observe_and_prove h input).
  - pose proof (retire_inv h done next Hi). by destruct (retire_saga h next).
  - pose proof (release_inv h done Hi). by destruct (release_ownership h).
Qed.

Lemma helper_run_inv ops :
  let '(h, done) := helper_run HelperComposition_new ops in helper_inv h done.
Proof.
  unfold helper_run. induction ops as [|op ops IH] using rev_ind; [apply helper_inv_new|].
  rewrite foldl_app. simpl. destruct (foldl _ _ ops) as [h done].
  pose proof (helper_step_inv h done op IH) as Hs. by destruct (helper_step h op).
Qed.

(** ** Properties *)

(** C15: Ownership is released exactly when the teardown and the retirement are both
    complete: after any calls, [release_ownership] succeeds if and only if both sides
    have joined the barrier and the saga was driven to retired, and a saga can only be
    retired after a retirement was begun. *)
Theorem helper_release_gated ops :
  let '(h, done) := helper_run HelperComposition_new ops in
  (is_ok (release_ownership h).2 = true ↔ (∀ side, H_join side ∈ done) ∧ retired done) ∧
  (retired done → begun done).
Proof.
  pose proof (helper_run_inv ops) as Hi. destruct (helper_run _ ops) as [h done].
  destruct Hi as (Hwf & Hj & _ & _ & _ & Hret). rewrite release_ownership_Ok, (Hwf : _ ↔ _).
  destruct (hp_retirement h) as [s|].
  - destruct Hret as (Hb & _ & Hr & _). split; [|done]. rewrite <-Hr. split.
    + intros [Hall (s' & [= <-] & ?)]. split; [|done]. intros side. by apply Hj.
    + intros [Hall ?]. split; [|eauto]. intros side. by apply Hj.
  - destruct Hret as (_ & Hnr & _). split; [|done]. split; [naive_solver|]. by intros [_ ?].
Qed.

(** A frame enters the data plane exactly when it carries the ownership that was
    acquired, the packet boundary was attached, and no retirement was begun: from the
    first successful [begin_retirement] on, no frame is admitted whatever else is
    called. *)
Theorem helper_frames_gated ops frame :
  let '(h, done) := helper_run HelperComposition_new ops in
  helper_admit_frame h frame = Ok () ↔
    H_acquire frame ∈ done ∧ H_attach ∈ done ∧ ¬ begun done.
Proof.
  pose proof (helper_run_inv ops) as Hi. destruct (helper_run _ ops) as [h done].
  destruct Hi as (_ & _ & Ha & Hatt & Hph & Hret). rewrite Ha. unfold helper_admit_frame.
  destruct (hp_phase h) eqn:E, (hp_attached h) eqn:Eatt; simpl;
    try (specialize (Hatt eq_refl)); try tauto;
    try (split; [done|]; intros (? & ? & ?); tauto).
  - destruct (hp_retirement h); [naive_solver|].
    case_bool_decide; simpl; [tauto|]. split; [done|]. tauto.
  - destruct Hph as (_ & [=] & _).
Qed.

(** A retirement can always be carried through: from any composition that holds
    ownership, attached or not, with a barrier nobody has joined yet, beginning the
    retirement, retiring the saga and the two sides joining in either order all
    succeed, and the release then leaves the composition retired and detached. The
    codec must reproduce the sealed record and the obligations must not repeat. *)
Theorem helper_retirement_completes h a prior id t o w expected inv next side :
  hp_phase h = Helper_Acquired ∨ hp_phase h = Helper_Active →
  hp_teardown h = barrier_new →
  codec_faithful (AR_Admitted (retirement_admission (RetirementSaga_new a prior) id)) →
  NoDup expected →
  let ops := [H_begin a prior id t o w expected inv; H_retire next; H_join side;
              H_join (peer side); H_release] in
  let '(h', done) := helper_run h ops in
  done = ops ∧ hp_phase h' = Helper_Retired ∧ hp_attached h' = false ∧
  hp_retirement h' = Some (saga_at a prior id expected inv (Some next) Phase_Retired).
Proof.
  intros Hph Htd Hc Hnd ops. unfold ops.
  assert (Hb : begin (RetirementSaga_new a prior) id t o w expected inv =
    (saga_at a prior id expected inv None Phase_Started, Ok ())).
  { unfold begin; simpl. rewrite Hc. simpl. by rewrite !bool_decide_eq_true_2 by done. }
  assert (Ho : observe_cleanup (saga_at a prior id expected inv None Phase_Started)
    (predicates_of expected) = (saga_at a prior id expected inv None Phase_Observed, Ok ())).
  { assert ((observe_cleanup (saga_at a prior id expected inv None Phase_Started)
      (predicates_of expected)).2 = Ok ()) as Hok.
    { apply observe_cleanup_Ok. split; [done|]. unfold predicates_of. split_and!; [|done|].
      - by apply Forall_fmap, Forall_true.
      - intros l. by rewrite <-list_fmap_compose, list_fmap_id. }
    unfold observe_cleanup in *; simpl in *. destruct (observe_all _ _ _); [|done].
    by destruct (_ =? _). }
  unfold helper_run. cbn [foldl helper_step]. unfold begin_retirement. rewrite Hb.
  destruct Hph as [-> | ->]; simpl; unfold retire_saga; simpl; rewrite Ho; simpl;
    unfold join_teardown; simpl; rewrite Htd; by destruct side.
Qed.
End helper.

(** ** A concrete retirement *)

#[local] Instance sample_codec : RecordCodec :=
  {| codec_encode := λ _, [ADMISSION_RECORD_VERSION]; codec_decode := λ _, Ok sample_sealed |}.

Definition sample_begin (expected : list byte) : helper_op :=
  H_begin sample_authority (sample_version 1) sample_retirement
    (Trigger_OwnerLost (MkOwnerLeaseId (uu x42))) (Subject_Runtime sample_epoch) sample_ownership
    expected (MkInventoryDigest (dg x04)).
Definition sample_active : HelperComposition :=
  (helper_run HelperComposition_new [H_acquire (sample_version 1); H_attach]).1.

Lemma helper_retirement_completes_witness :
  (helper_run sample_active
    [sample_begin [x01; x02]; H_retire (sample_version 2); H_join PacketData;
     H_join ProtocolControl; H_release]).1.(hp_phase) = Helper_Retired.
Proof.
  refine (proj1 (proj2 (helper_retirement_completes sample_active sample_authority (sample_version 1)
    sample_retirement (Trigger_OwnerLost (MkOwnerLeaseId (uu x42))) (Subject_Runtime sample_epoch)
    sample_ownership [x01; x02] (MkInventoryDigest (dg x04)) (sample_version 2) PacketData _ _ _ _)));
    [by right|reflexivity|reflexivity|apply (bool_decide_unpack _); reflexivity].
Defined.

(** An obligation listed twice leaves the helper retiring for good: the saga refuses the
    inventory built from the list itself. *)
Example duplicate_obligation_is_stuck :
  let '(h, done) := helper_run sample_active
    [sample_begin [x01; x01]; H_observe synthetic_prove_input; H_retire (sample_version 2);
     H_join PacketData; H_join ProtocolControl; H_release] in
  hp_phase h = Helper_Retiring ∧
  done = [sample_begin [x01; x01]; H_join PacketData; H_join ProtocolControl].
Proof. by vm_compute. Qed.

(** The saga retires on its own synthesized observation: no inventory was inspected. *)
Example retired_without_observation :
  (helper_run sample_active [sample_begin [x01]; H_retire (sample_version 2)]).2 =
    [sample_begin [x01]; H_retire (sample_version 2)].
Proof. by vm_compute. Qed.
