(* ===== verification/PacketAdapter.v ===== *)
(** * The helper-side packet adapter

    [packet.rs] of the local-rpc crate: a one-shot capability attaches the packet
    boundary of one peer, frames of the current ownership pass the packet budget until
    the teardown barrier is released, and the adapter is released by a clean proof.

    The adapter composes the capability of [Authority], the guard, budget and barrier of
    [DataPlane] and the proof check of [Retirement]. *)

From Stdlib Require Import NArith Strings.Byte Lia.
From S2P Require Import Prelude Identity Model Samples Authority Retirement DataPlane.

(** local-rpc/packet.rs:24-25 [PACKET_ATTACH_OPERATION] *)
Definition PACKET_ATTACH_OPERATION : OperationMethod := Method_ApplyTunnel.

(** local-rpc/packet.rs:27-37 [HelperPacketAdapter] *)
Record HelperPacketAdapter := MkHelperPacketAdapter {
  pa_runtime_epoch : RuntimeEpoch;
  pa_authority : AuthorityEpoch;
  pa_ownership_version : OwnershipVersion;
  pa_capability : option PeerCapability;
  pa_attach_guard : PacketAttachGuard;
  pa_budget : PacketBudget;
  pa_barrier : TeardownBarrier;
  pa_released : bool;
}.

(** local-rpc/packet.rs:186-198 [admission_err] *)
Definition admission_err (epoch : RuntimeEpoch) (stage : ErrorStage) (code : ErrorCode) : VpnError :=
  MkVpnError code stage NoEffect DoNotRetry (Subject_Runtime epoch) None None.

(** local-rpc/packet.rs:40-65 [HelperPacketAdapter::new] *)
Definition adapter_new (runtime_epoch : RuntimeEpoch) (authority : AuthorityEpoch)
    (ownership_version : OwnershipVersion) (capability : PeerCapability) (limits : MvpLimits) :
    result VpnError HelperPacketAdapter :=
  budget ← budget_from_limits limits;
  Ok (MkHelperPacketAdapter runtime_epoch authority ownership_version (Some capability)
        (attach_guard_new runtime_epoch) budget barrier_new false).

(** local-rpc/packet.rs:67-110 [HelperPacketAdapter::attach] *)
Definition attach (a : HelperPacketAdapter) (peer : PeerContext) (now : MonotonicTick) :
    HelperPacketAdapter * result VpnError () :=
  if is_released (pa_barrier a)
  then (a, Err (admission_err (pa_runtime_epoch a) Stage_AttachingPacketBoundary DataPlaneBackpressure))
  else if is_attached (pa_attach_guard a)
  then (a, Err (admission_err (pa_runtime_epoch a) Stage_AttachingPacketBoundary PacketLeaseAlreadyAttached))
  else if match pa_capability a with
          | None => true
          | Some c => negb (authorizes c (pc_principal peer) (pc_connection peer)
                              PACKET_ATTACH_OPERATION (pa_authority a) now)
          end
  then (a, Err (admission_err (pa_runtime_epoch a) Stage_AttachingPacketBoundary Unauthorized))
  else
    let '(guard, r) := try_attach (pa_attach_guard a) in
    (MkHelperPacketAdapter (pa_runtime_epoch a) (pa_authority a) (pa_ownership_version a) None
       guard (pa_budget a) (pa_barrier a) (pa_released a), r).

(** local-rpc/packet.rs:112-115 [HelperPacketAdapter::join_teardown] *)
Definition adapter_join (a : HelperPacketAdapter) (side : TeardownSide) :
    HelperPacketAdapter * JoinOutcome :=
  let '(b, outcome) := join (pa_barrier a) side in
  (MkHelperPacketAdapter (pa_runtime_epoch a) (pa_authority a) (pa_ownership_version a)
     (pa_capability a) (pa_attach_guard a) (pa_budget a) b (pa_released a), outcome).

(** local-rpc/packet.rs:117-121 [HelperPacketAdapter::is_teardown_released] *)
Definition is_teardown_released (a : HelperPacketAdapter) : bool := is_released (pa_barrier a).

(** local-rpc/packet.rs:123-136 [HelperPacketAdapter::release] *)
Definition adapter_release (a : HelperPacketAdapter) (proof : CleanProof) :
    HelperPacketAdapter * result string () :=
  if negb (is_released (pa_barrier a)) then (a, Err "teardown barrier")
  else
    match validate_clean_proof proof with
    | Err e => (a, Err e)
    | Ok _ =>
        (MkHelperPacketAdapter (pa_runtime_epoch a) (pa_authority a) (pa_ownership_version a)
           (pa_capability a) (pa_attach_guard a) (pa_budget a) (pa_barrier a) true, Ok ())
    end.

(** local-rpc/packet.rs:138-183 [HelperPacketAdapter::admit_owned_frame] *)
Definition admit_owned_frame (a : HelperPacketAdapter) (direction : DataPlaneDirection)
    (packets bytes : N) (frame_ownership_version : OwnershipVersion) :
    HelperPacketAdapter * result VpnError () :=
  if negb (is_attached (pa_attach_guard a))
  then (a, Err (admission_err (pa_runtime_epoch a) Stage_DataPlane Unauthorized))
  else if is_released (pa_barrier a)
  then (a, Err (admission_err (pa_runtime_epoch a) Stage_DataPlane DataPlaneBackpressure))
  else if negb (bool_decide (frame_ownership_version = pa_ownership_version a))
  then (a, Err (admission_err (pa_runtime_epoch a) Stage_DataPlane ObservedConflict))
  else
    let '(budget, verdict) := try_admit (pa_budget a) direction packets bytes in
    (MkHelperPacketAdapter (pa_runtime_epoch a) (pa_authority a) (pa_ownership_version a)
       (pa_capability a) (pa_attach_guard a) budget (pa_barrier a) (pa_released a),
     match verdict with
     | Verdict_Admitted => Ok ()
     | _ => Err (admission_err (pa_runtime_epoch a) Stage_DataPlane DataPlaneBackpressure)
     end).

(** ** Histories *)

Inductive adapter_op :=
  | A_attach (peer : PeerContext) (now : MonotonicTick)
  | A_join (side : TeardownSide)
  | A_release (proof : CleanProof)
  | A_frame (direction : DataPlaneDirection) (packets bytes : N) (version : OwnershipVersion).

(** One call, and whether it succeeded. *)
Definition adapter_step (a : HelperPacketAdapter) (op : adapter_op) : HelperPacketAdapter * bool :=
  match op with
  | A_attach peer now => let '(a, r) := attach a peer now in (a, is_ok r)
  | A_join s => let '(a, o) := adapter_join a s in (a, negb (bool_decide (o = Join_Rejected)))
  | A_release p => let '(a, r) := adapter_release a p in (a, is_ok r)
  | A_frame d p n v => let '(a, r) := admit_owned_frame a d p n v in (a, is_ok r)
  end.
Definition adapter_run (a : HelperPacketAdapter) (ops : list adapter_op) :
    HelperPacketAdapter * list adapter_op :=
  foldl (λ '(a, done) op, let '(a, ok) := adapter_step a op in (a, done ++ if ok then [op] else []))
    (a, []) ops.

(** The attach calls that succeeded, in order. *)
Definition attaches (done : list adapter_op) : list (PeerContext * MonotonicTick) :=
  omap (λ op, match op with A_attach p now => Some (p, now) | _ => None end) done.

Section adapter.
Context (epoch : RuntimeEpoch) (authority : AuthorityEpoch) (version : OwnershipVersion).
Context (cap : PeerCapability).

Definition attach_authorized (p : PeerContext) (now : MonotonicTick) : bool :=
  authorizes cap (pc_principal p) (pc_connection p) Method_ApplyTunnel authority now.

Definition adapter_inv (a : HelperPacketAdapter) (done : list adapter_op) : Prop :=
  pa_authority a = authority ∧ pa_ownership_version a = version ∧
  barrier_wf (pa_barrier a) ∧
  (∀ s, at_side s (tb_joined (pa_barrier a)) = true ↔ A_join s ∈ done) ∧
  match attaches done with
  | [] => pag_attached (pa_attach_guard a) = false ∧ pa_capability a = Some cap
  | [(p, now)] => pag_attached (pa_attach_guard a) = true ∧ pa_capability a = None ∧
      attach_authorized p now = true
  | _ => False
  end.

Lemma attaches_snoc done op :
  attaches (done ++ [op]) =
    attaches done ++ match op with A_attach p now => [(p, now)] | _ => [] end.
Proof. unfold attaches. rewrite omap_app. by destruct op. Qed.

Lemma join_snoc s done op : A_join s ∈ done ++ [op] ↔ A_join s ∈ done ∨ op = A_join s.
Proof. rewrite elem_of_app, list_elem_of_singleton. naive_solver. Qed.

Lemma adapter_attach_inv a done p now :
  adapter_inv a done →
  adapter_inv (attach a p now).1 (done ++ if is_ok (attach a p now).2 then [A_attach p now] else []).
Proof.
  intros Hi. unfold attach, is_released, is_attached, try_attach.
  destruct (tb_released _); simpl; [by rewrite app_nil_r|].
  destruct (pag_attached _) eqn:Eg; simpl; [by rewrite app_nil_r|].
  destruct Hi as (Ha & Hv & Hwf & Hj & Hm).
  destruct (attaches done) as [|[p' now'] [|]] eqn:Eat; [|by destruct Hm as (? & _); congruence|done].
  destruct Hm as [_ Hcap]. rewrite Hcap. unfold PACKET_ATTACH_OPERATION. rewrite Ha.
  change (authorizes _ _ _ _ _ _) with (attach_authorized p now).
  destruct (attach_authorized p now) eqn:Eauth; simpl.
  - split_and!; simpl; try done; [intros s; rewrite join_snoc, Hj; intuition congruence|].
    by rewrite attaches_snoc, Eat.
  - rewrite app_nil_r. split_and!; try done. by rewrite Eat.
Qed.

Lemma adapter_join_inv a done s :
  adapter_inv a done →
  adapter_inv (adapter_join a s).1
    (done ++ if negb (bool_decide ((adapter_join a s).2 = Join_Rejected)) then [A_join s] else []).
Proof.
  intros (Ha & Hv & Hwf & Hj & Hm). unfold adapter_join.
  pose proof (join_cases (pa_barrier a) s Hwf) as Hc.
  pose proof (join_rejected (pa_barrier a) s Hwf) as Hrej.
  destruct (join (pa_barrier a) s) as [b o]. destruct Hc as (Hwf' & Hj' & _ & _). simpl in *.
  case_bool_decide as Ho; simpl; rewrite ?app_nil_r; split_and!; simpl; try done.
  - intros s'. rewrite Hj', <-Hj. naive_solver.
  - intros s'. rewrite Hj', join_snoc, Hj. naive_solver.
  - by rewrite attaches_snoc, app_nil_r.
Qed.

Lemma adapter_other_inv a a' done op :
  adapter_inv a done →
  pa_authority a' = pa_authority a → pa_ownership_version a' = pa_ownership_version a →
  pa_barrier a' = pa_barrier a → pa_attach_guard a' = pa_attach_guard a →
  pa_capability a' = pa_capability a →
  match op with A_attach _ _ | A_join _ => False | _ => True end →
  ∀ l, l = [] ∨ l = [op] → adapter_inv a' (done ++ l).
Proof.
  intros (Ha & Hv & Hwf & Hj & Hm) E1 E2 E3 E4 E5 Hop l Hl. unfold adapter_inv.
  rewrite E1, E2, E3, E4, E5. destruct Hl as [-> | ->]; rewrite ?app_nil_r; [done|].
  split_and!; try done; [intros s; rewrite join_snoc, Hj; destruct op; intuition congruence|].
  rewrite attaches_snoc. destruct op; rewrite ?app_nil_r; done.
Qed.

Lemma adapter_step_inv a done op :
  adapter_inv a done →
  adapter_inv (adapter_step a op).1 (done ++ if (adapter_step a op).2 then [op] else []).
Proof.
  intros Hi. destruct op as [p now|s|proof|d p n v]; simpl.
  - pose proof (adapter_attach_inv a done p now Hi). by destruct (attach a p now).
  - pose proof (adapter_join_inv a done s Hi). by destruct (adapter_join a s).
  - unfold adapter_release. destruct (is_released _); simpl;
      [destruct (validate_clean_proof proof); simpl|];
      apply (adapter_other_inv a _ _ (A_release proof) Hi); auto.
  - unfold admit_owned_frame.
    destruct (is_attached _), (is_released _); simpl;
      try (by apply (adapter_other_inv a _ _ (A_frame d p n v) Hi); auto).
    case_bool_decide; simpl; [|by apply (adapter_other_inv a _ _ (A_frame d p n v) Hi); auto].
    destruct (try_admit (pa_budget a) d p n) as [b vd].
    apply (adapter_other_inv a _ _ (A_frame d p n v) Hi); simpl; auto. destruct vd; auto.
Qed.

Lemma adapter_run_inv limits a0 ops :
  adapter_new epoch authority version cap limits = Ok a0 →
  let '(a, done) := adapter_run a0 ops in adapter_inv a done.
Proof.
  intros Hnew. unfold adapter_run. induction ops as [|op ops IH] using rev_ind; simpl.
  - unfold adapter_new in Hnew. destruct (budget_from_limits limits); [|done].
    injection Hnew as <-. split_and!; simpl; try done; [apply barrier_new_wf|].
    intros s. split; [by destruct s|by intros ?%elem_of_nil].
  - rewrite foldl_app. simpl. destruct (foldl _ _ ops) as [a done].
    pose proof (adapter_step_inv a done op IH) as Hs. by destruct (adapter_step a op).
Qed.
End adapter.

(** ** Properties *)

(** The packet capability is used once: whatever is called on a new adapter, at
    most one attach ever succeeds, and it is by a peer the capability authorizes for
    applying the tunnel under the adapter's authority before it expires; afterwards the
    capability is gone. *)
Theorem adapter_attaches_once epoch authority version cap limits a0 ops :
  adapter_new epoch authority version cap limits = Ok a0 →
  let '(a, done) := adapter_run a0 ops in
  attaches done = [] ∧ pa_capability a = Some cap ∨
  ∃ peer now, attaches done = [(peer, now)] ∧ pa_capability a = None ∧
    authorizes cap (pc_principal peer) (pc_connection peer) Method_ApplyTunnel authority now = true.
Proof.
  intros Hnew. pose proof (adapter_run_inv _ _ _ _ _ _ ops Hnew) as Hi.
  destruct (adapter_run a0 ops) as [a done]. destruct Hi as (_ & _ & _ & _ & Hm).
  destruct (attaches done) as [|[p now] [|]]; [left; naive_solver| |done].
  right. exists p, now. naive_solver.
Qed.

(** The gates of an adapter in use: a frame passes exactly when an attach has
    succeeded, the two sides have not both joined the teardown, the frame carries the
    adapter's ownership version and the budget admits it; the adapter is released
    exactly when both sides have joined and the proof leaves no obligation. *)
Theorem adapter_gates epoch authority version cap limits a0 ops :
  adapter_new epoch authority version cap limits = Ok a0 →
  let '(a, done) := adapter_run a0 ops in
  let joined := ∀ side, A_join side ∈ done in
  (∀ d packets bytes v,
     is_ok (admit_owned_frame a d packets bytes v).2 = true ↔
     attaches done ≠ [] ∧ ¬ joined ∧ v = version ∧
     (try_admit (pa_budget a) d packets bytes).2 = Verdict_Admitted) ∧
  (∀ proof, is_ok (adapter_release a proof).2 = true ↔
     joined ∧ cp_unresolved_obligation_count proof = 0%N).
Proof.
  intros Hnew. pose proof (adapter_run_inv _ _ _ _ _ _ ops Hnew) as Hi.
  destruct (adapter_run a0 ops) as [a done]. destruct Hi as (_ & Hv & Hwf & Hj & Hm). cbv zeta.
  assert (Hr : tb_released (pa_barrier a) = true ↔ ∀ side, A_join side ∈ done).
  { rewrite (Hwf : _ ↔ _). split; intros Hall s; by apply Hj. }
  assert (Hat : pag_attached (pa_attach_guard a) = true ↔ attaches done ≠ []).
  { destruct (attaches done) as [|[] [|]]; [|naive_solver|done]. destruct Hm as [-> _]. naive_solver. }
  split.
  - intros d packets bytes v. rewrite <-Hr, <-Hat. unfold admit_owned_frame, is_attached, is_released. rewrite Hv.
    destruct (pag_attached _), (tb_released _); simpl; try (intuition congruence).
    case_bool_decide; simpl; [|intuition congruence].
    destruct (try_admit _ _ _ _) as [b []]; simpl; intuition congruence.
  - intros proof. rewrite <-Hr. unfold adapter_release, is_released, validate_clean_proof.
    destruct (tb_released _); simpl; [|intuition congruence].
    destruct (N.eqb_spec (cp_unresolved_obligation_count proof) 0); simpl; intuition congruence.
Qed.

Definition sample_ctx : PeerContext :=
  MkPeerContext (vcm_principal sample_peer) (vcm_connection sample_peer).
Definition sample_attach_cap : PeerCapability :=
  MkPeerCapability (vcm_connection sample_peer) (vcm_principal sample_peer) (MkAuthorityEpoch 1)
    Method_ApplyTunnel (MkMonotonicTick 10).
Definition sample_adapter : HelperPacketAdapter :=
  MkHelperPacketAdapter sample_epoch (MkAuthorityEpoch 1) (sample_version 1) (Some sample_attach_cap)
    (attach_guard_new sample_epoch) (MkPacketBudget 64 1024 16 512 (0, 0)%N (0, 0)%N 0) barrier_new false.

Lemma adapter_attaches_once_witness :
  let '(a, done) := adapter_run sample_adapter
    [A_attach sample_ctx (MkMonotonicTick 3); A_attach sample_ctx (MkMonotonicTick 4)] in
  attaches done = [] ∧ pa_capability a = Some sample_attach_cap ∨
  ∃ peer now, attaches done = [(peer, now)] ∧ pa_capability a = None ∧
    authorizes sample_attach_cap (pc_principal peer) (pc_connection peer) Method_ApplyTunnel
      (MkAuthorityEpoch 1) now = true.
Proof.
  exact (adapter_attaches_once sample_epoch (MkAuthorityEpoch 1) (sample_version 1) sample_attach_cap
    sample_limits sample_adapter
    [A_attach sample_ctx (MkMonotonicTick 3); A_attach sample_ctx (MkMonotonicTick 4)] eq_refl).
Defined.

Lemma adapter_gates_witness :
  is_ok (admit_owned_frame
    (adapter_run sample_adapter [A_attach sample_ctx (MkMonotonicTick 3)]).1
    PacketToProtocol 2 100 (sample_version 1)).2 = true.
Proof.
  apply (proj1 (adapter_gates sample_epoch (MkAuthorityEpoch 1) (sample_version 1) sample_attach_cap
    sample_limits sample_adapter [A_attach sample_ctx (MkMonotonicTick 3)] eq_refl)).
  split_and!; try (by vm_compute). intros Hall. specialize (Hall PacketData).
  change (A_join PacketData ∈ [A_attach sample_ctx (MkMonotonicTick 3)]) in Hall.
  by apply list_elem_of_singleton in Hall.
Defined.

(** A frame refused for backpressure is still charged: the refusal of the budget's
    sustained-full verdict comes after the charge. *)
Example refused_frame_is_charged :
  let a := (adapter_run sample_adapter
    [A_attach sample_ctx (MkMonotonicTick 3);
     A_frame PacketToProtocol 1 512 (sample_version 1); A_frame PacketToProtocol 1 512 (sample_version 1);
     A_frame PacketToProtocol 1 1 (sample_version 1); A_frame PacketToProtocol 1 1 (sample_version 1);
     A_frame PacketToProtocol 1 1 (sample_version 1)]).1 in
  let '(a', r) := admit_owned_frame a ProtocolToPacket 1 100 (sample_version 1) in
  is_ok r = false ∧ in_flight (pa_budget a') ProtocolToPacket = (1, 100)%N.
Proof. by vm_compute. Qed.
