(* ===== verification/Wire.v ===== *)
(** * Wire conversions and the kernel control adapter

    [convert.rs] and [redact.rs] of the wire crate: the strict conversions from
    protocol messages to domain values, and [kernel.rs] of the local RPC crate,
    which binds a wire request to a domain operation under a peer capability.

    The message types are those of [proto/exv/v1/common.proto] as the build
    generates them: a [bytes] field is a [list byte] of any length, [uint32] an
    [N], an enum field its [i32] discriminant (a [Z]), a message field an [option]
    and a [oneof] an [option] of a sum. The payloads of the snapshot branches no
    conversion looks into, and the companion fields of a snapshot, are the type
    parameters [P] and [C]. The conversions return the source's error texts. *)

From Stdlib Require Import NArith ZArith Strings.Byte Lia.
From S2P Require Import Prelude Identity Model Samples Authority.

(** ** Messages *)

(** proto/common.proto:214-220 [message OperationLookupKey] *)
Record WireOperationLookupKey := MkWireOperationLookupKey {
  wk_principal_digest : list byte;
  wk_method : Z;
  wk_runtime_epoch : list byte;
  wk_operation_id : list byte;
}.

(** proto/common.proto:242-245 [message TunnelIntentRef] *)
Record WireTunnelIntentRef := MkWireTunnelIntentRef { wi_identity_digest : list byte }.

(** proto/common.proto:254-258 [message CleanupProofRef] *)
Record WireCleanupProofRef := MkWireCleanupProofRef {
  wc_canonical_inventory_digest : list byte;
  wc_platform_evidence_digest : list byte;
}.

(** proto/common.proto:303-307 [message Ipv4Route] *)
Record WireIpv4Route := MkWireIpv4Route { wr_network : list byte; wr_prefix_len : N }.

(** proto/common.proto:310-320 [message TunnelPlan] *)
Record WireTunnelPlan := MkWireTunnelPlan {
  wp_ipv4_address : list byte;
  wp_ipv4_prefix_len : N;
  wp_mtu : N;
  wp_ipv4_routes : list WireIpv4Route;
  wp_dns_servers : list (list byte);
  wp_control_bypass : list (list byte);
  wp_opaque_intent : option WireTunnelIntentRef;
  wp_proxy_exempt : list string;
}.

(** proto/common.proto:461-471 [message RuntimeStats] *)
Record RuntimeStats := MkRuntimeStats {
  st_rx_bytes : N; st_tx_bytes : N;
  st_rx_rate_bps : N; st_tx_rate_bps : N;
  st_latency_ms : N;
  st_phase : Z;
  st_engine_sequence : N;
  st_sample_tick : N;
}.

(** proto/common.proto:635-638 [message IdleState] *)
Record WireIdleState := MkWireIdleState { wid_last_cleanup : option WireCleanupProofRef }.

(** proto/common.proto:700-710 [RuntimeSnapshot.state] *)
Inductive WireState (P : Type) :=
  | WS_Idle (idle : WireIdleState)
  | WS_Connecting (p : P)
  | WS_AwaitingInteraction (p : P)
  | WS_Connected (p : P)
  | WS_Stopping (p : P)
  | WS_Reconciling (p : P)
  | WS_FailedClean (p : P)
  | WS_FailedDirty (p : P).
Arguments WS_Idle {P}. Arguments WS_Connecting {P}. Arguments WS_AwaitingInteraction {P}.
Arguments WS_Connected {P}. Arguments WS_Stopping {P}. Arguments WS_Reconciling {P}.
Arguments WS_FailedClean {P}. Arguments WS_FailedDirty {P}.

(** proto/common.proto:700-729 [message RuntimeSnapshot] *)
Record WireRuntimeSnapshot (P C : Type) := MkWireRuntimeSnapshot {
  sn_state : option (WireState P);
  sn_stats : option RuntimeStats;
  sn_operation_id : list byte;
  sn_companions : C;
}.
Arguments MkWireRuntimeSnapshot {P C}. Arguments sn_state {P C}. Arguments sn_stats {P C}.
Arguments sn_operation_id {P C}. Arguments sn_companions {P C}.

#[export] Instance RuntimeStats_eq_dec : EqDecision RuntimeStats. Proof. solve_decision. Defined.

(** ** Primitive conversions *)

(** wire/convert.rs:17-31 [operation_method_from_wire] *)
Definition operation_method_from_wire (method : Z) : result string OperationMethod :=
  (match method with
   | 1 => Ok Method_Connect
   | 2 => Ok Method_RespondInteraction
   | 3 => Ok Method_Stop
   | 4 => Ok Method_Reconcile
   | 5 => Ok Method_AcquireLease
   | 6 => Ok Method_ApplyTunnel
   | 7 => Ok Method_StopTunnel
   | 8 => Ok Method_ReleaseLease
   | _ => Err "operation method: UNSPECIFIED or unknown"
   end)%Z.

(** wire/convert.rs:179-184 [uuid16] *)
Definition uuid16 (bytes : list byte) : result string Uuid :=
  if negb (Nat.eqb (length bytes) 16) then Err "wire: expected 16-byte uuid"
  else ok_or (to_array 16 bytes) "wire: invalid uuid".

(** wire/convert.rs:186-188 [digest32] *)
Definition digest32 (bytes : list byte) : result string Digest :=
  ok_or (to_array 32 bytes) "wire: expected 32-byte digest".

(** wire/convert.rs:190-192 [principal_digest_from_wire] *)
Definition principal_digest_from_wire (bytes : list byte) : result string PrincipalDigest :=
  d ← digest32 bytes;
  map_err (λ _, "wire: invalid principal digest") (digest_try_from MkPrincipalDigest d).

(** wire/convert.rs:194-199 [resource_identity_digest_from_wire] *)
Definition resource_identity_digest_from_wire (bytes : list byte) :
    result string ResourceIdentityDigest :=
  d ← digest32 bytes;
  map_err (λ _, "wire: invalid resource identity digest")
    (digest_try_from MkResourceIdentityDigest d).

(** wire/convert.rs:201-203 [inventory_digest_from_wire] *)
Definition inventory_digest_from_wire (bytes : list byte) : result string InventoryDigest :=
  d ← digest32 bytes;
  map_err (λ _, "wire: invalid inventory digest") (digest_try_from MkInventoryDigest d).

(** wire/convert.rs:205-207 [evidence_digest_from_wire] *)
Definition evidence_digest_from_wire (bytes : list byte) : result string EvidenceDigest :=
  d ← digest32 bytes;
  map_err (λ _, "wire: invalid evidence digest") (digest_try_from MkEvidenceDigest d).

(** wire/convert.rs:209-211 [runtime_epoch_from_wire] *)
Definition runtime_epoch_from_wire (bytes : list byte) : result string RuntimeEpoch :=
  u ← uuid16 bytes; map_err (λ _, "wire: nil runtime epoch") (RuntimeEpoch_try_from u).

(** wire/convert.rs:213-215 [operation_id_from_wire] *)
Definition operation_id_from_wire (bytes : list byte) : result string OperationId :=
  u ← uuid16 bytes; map_err (λ _, "wire: nil operation id") (OperationId_try_from u).

(** wire/convert.rs:217-222 [cleanup_proof_ref_from_wire] *)
Definition cleanup_proof_ref_from_wire (w : WireCleanupProofRef) :
    result string CleanupProofRef :=
  inventory ← inventory_digest_from_wire (wc_canonical_inventory_digest w);
  evidence ← evidence_digest_from_wire (wc_platform_evidence_digest w);
  map_err (λ _, "wire: invalid cleanup proof ref") (CleanupProofRef_try_from inventory evidence).

(** wire/convert.rs:224-228 [ipv4_from_wire_bytes] *)
Definition ipv4_from_wire_bytes (bytes : list byte) : result string Ipv4Addr :=
  ok_or (to_array 4 bytes) "wire: expected 4-byte IPv4 address".

(** [u8::try_from(u32)] and [u16::try_from(u32)]: the value, when it fits. *)
Definition u8_try_from (v : N) (e : string) : result string N :=
  if (v <? 256)%N then Ok v else Err e.
Definition u16_try_from (v : N) (e : string) : result string N :=
  if (v <? 65536)%N then Ok v else Err e.

(** wire/convert.rs:230-237 [ipv4_route_from_wire] *)
Definition ipv4_route_from_wire (w : WireIpv4Route) : result string Ipv4Route :=
  network ← ipv4_from_wire_bytes (wr_network w);
  prefix_len ← u8_try_from (wr_prefix_len w) "route: prefix out of range";
  if (32 <? prefix_len)%N then Err "route: prefix over 32"
  else Ok (MkIpv4Route network prefix_len).

(** wire/convert.rs:239-242 [tunnel_intent_from_wire] *)
Definition tunnel_intent_from_wire (w : WireTunnelIntentRef) : result string TunnelIntentRef :=
  d ← resource_identity_digest_from_wire (wi_identity_digest w);
  map_err (λ _, "wire: invalid tunnel intent ref") (TunnelIntentRef_try_from d).

(** ** Message conversions *)

(** wire/convert.rs:37-54 [lookup_key_from_wire] *)
Definition lookup_key_from_wire (wire : WireOperationLookupKey)
    (authenticated_principal : PrincipalDigest) : result string OperationLookupKey :=
  _self_reported ← principal_digest_from_wire (wk_principal_digest wire);
  method ← operation_method_from_wire (wk_method wire);
  runtime_epoch ← runtime_epoch_from_wire (wk_runtime_epoch wire);
  operation_id ← operation_id_from_wire (wk_operation_id wire);
  map_err (λ _, "lookup key: invalid")
    (OperationLookupKey_try_from authenticated_principal method runtime_epoch operation_id).

(** wire/convert.rs:60-106 [tunnel_plan_from_wire] *)
Definition tunnel_plan_from_wire (plan : WireTunnelPlan) : result string TunnelPlan :=
  ipv4_address ← ipv4_from_wire_bytes (wp_ipv4_address plan);
  ipv4_prefix_len ← u8_try_from (wp_ipv4_prefix_len plan) "tunnel plan: ipv4 prefix out of range";
  mtu ← u16_try_from (wp_mtu plan) "tunnel plan: mtu out of range";
  if (32 <? ipv4_prefix_len)%N then Err "tunnel plan: ipv4 prefix over 32"
  else if (mtu <? 576)%N then Err "tunnel plan: mtu below minimum"
  else
    ipv4_routes ← mapM ipv4_route_from_wire (wp_ipv4_routes plan);
    dns_servers ← mapM ipv4_from_wire_bytes (wp_dns_servers plan);
    control_bypass ← mapM ipv4_from_wire_bytes (wp_control_bypass plan);
    opaque_intent ← match wp_opaque_intent plan with
                    | Some intent => tunnel_intent_from_wire intent
                    | None => Err "tunnel plan: missing opaque intent"
                    end;
    map_err (λ _, "tunnel plan: invalid")
      (TunnelPlan_try_from ipv4_address ipv4_prefix_len mtu ipv4_routes dns_servers
         control_bypass opaque_intent).

(** wire/convert.rs:112-149 [snapshot_from_wire] *)
Definition snapshot_from_wire {P C} (snap : WireRuntimeSnapshot P C) : result string RuntimeState :=
  match sn_state snap with
  | Some (WS_Idle idle) =>
      last_cleanup ← match wid_last_cleanup idle with
                     | Some proof => proof ← cleanup_proof_ref_from_wire proof; Ok (Some proof)
                     | None => Ok None
                     end;
      Ok (Idle last_cleanup)
  | Some (WS_Connecting _) => Err "snapshot: connecting requires authenticated-principal context"
  | Some (WS_AwaitingInteraction _) =>
      Err "snapshot: awaiting_interaction requires authenticated-principal context"
  | Some (WS_Connected _) => Err "snapshot: connected requires authenticated-principal context"
  | Some (WS_Stopping _) => Err "snapshot: stopping requires authenticated-principal context"
  | Some (WS_Reconciling _) => Err "snapshot: reconciling requires authenticated-principal context"
  | Some (WS_FailedClean _) => Err "snapshot: failed_clean requires authenticated-principal context"
  | Some (WS_FailedDirty _) => Err "snapshot: failed_dirty requires authenticated-principal context"
  | None => Err "snapshot: missing state"
  end.

(** wire/convert.rs:155-162 [admit_secret_from_wire]: the buffer the caller gets
    and what the message's field holds afterwards; [zeroize] is the foreign
    [Zeroize] implementation of [Vec<u8>]. *)
Definition admit_secret_from_wire (zeroize : list byte → list byte) (secret : list byte) :
    list byte * list byte :=
  let admitted := secret in (admitted, zeroize secret).

(** wire/convert.rs:168-173 [cancel_to_operation] *)
Definition cancel_to_operation (_future_cancel : bool) : option OperationMethod := None.

(** wire/redact.rs:2-13 [redact_secret] *)
Definition redact_secret (secret : list byte) : string :=
  match secret with [] => "" | _ => "<redacted>" end.

(** ** The kernel control adapter *)

(** local-rpc/kernel.rs:9-18 [KernelRequest] *)
Record KernelRequest := MkKernelRequest {
  kr_wire_key : WireOperationLookupKey;
  kr_request_digest : list byte;
  kr_expected_method : OperationMethod;
}.

(** local-rpc/kernel.rs:21-33 [KernelRequest::new] *)
Definition KernelRequest_new := MkKernelRequest.

(** local-rpc/kernel.rs:36-44 [BoundKernelOperation] *)
Record BoundKernelOperation := MkBoundKernelOperation {
  bko_lookup_key : OperationLookupKey;
  bko_request_digest : RequestDigest;
}.

(** local-rpc/kernel.rs:46-100 [kernel_request_to_operation] *)
Definition kernel_request_to_operation (request : KernelRequest) (peer : PeerContext)
    (capability : PeerCapability) (authority : AuthorityEpoch) (now : MonotonicTick) :
    result string BoundKernelOperation :=
  digest_bytes ← ok_or (to_array 32 (kr_request_digest request))
                   "kernel: request digest: expected 32 bytes";
  request_digest ← map_err (λ _, "kernel: request digest: invalid")
                     (digest_try_from MkRequestDigest digest_bytes);
  method ← map_err (λ _, "kernel: operation method: invalid")
             (operation_method_from_wire (wk_method (kr_wire_key request)));
  lookup_key ← map_err (λ _, "kernel: lookup key: invalid")
                 (lookup_key_from_wire (kr_wire_key request) (pc_principal peer));
  if negb (bool_decide (method = kr_expected_method request))
  then Err "kernel: operation: out of scope"
  else if negb (authorizes capability (pc_principal peer) (pc_connection peer) method authority now)
  then Err "kernel: not authorized by peer capability"
  else Ok (MkBoundKernelOperation lookup_key request_digest).

(** ** The strict encodings

    The messages a strict peer sends: the inverse of the conversions, written once
    as the reference against which each conversion is characterised. *)

Definition method_to_wire (m : OperationMethod) : Z :=
  (match m with
   | Method_Connect => 1 | Method_RespondInteraction => 2 | Method_Stop => 3
   | Method_Reconcile => 4 | Method_AcquireLease => 5 | Method_ApplyTunnel => 6
   | Method_StopTunnel => 7 | Method_ReleaseLease => 8
   end)%Z.

Definition key_to_wire (reported : Digest) (k : OperationLookupKey) : WireOperationLookupKey :=
  MkWireOperationLookupKey (arr_bytes reported) (method_to_wire (olk_method k))
    (arr_bytes (RuntimeEpoch_0 (olk_runtime_epoch k)))
    (arr_bytes (OperationId_0 (olk_operation_id k))).

Definition key_valid (k : OperationLookupKey) : Prop :=
  RuntimeEpoch_0 (olk_runtime_epoch k) ≠ Uuid_nil ∧ OperationId_0 (olk_operation_id k) ≠ Uuid_nil.

Definition route_to_wire (r : Ipv4Route) : WireIpv4Route :=
  MkWireIpv4Route (arr_bytes (route_network r)) (route_prefix_len r).

Definition intent_to_wire (i : TunnelIntentRef) : WireTunnelIntentRef :=
  MkWireTunnelIntentRef (arr_bytes (ResourceIdentityDigest_0 (TunnelIntentRef_0 i))).

Definition plan_to_wire (exempt : list string) (p : TunnelPlan) : WireTunnelPlan :=
  MkWireTunnelPlan (arr_bytes (plan_ipv4_address p)) (plan_ipv4_prefix_len p) (plan_mtu p)
    (route_to_wire <$> plan_ipv4_routes p) (arr_bytes <$> plan_dns_servers p)
    (arr_bytes <$> plan_control_bypass p) (Some (intent_to_wire (plan_opaque_intent p))) exempt.

Definition route_valid (r : Ipv4Route) : Prop := (route_prefix_len r ≤ 32)%N.

Definition plan_valid (p : TunnelPlan) : Prop :=
  (plan_ipv4_prefix_len p ≤ 32)%N ∧ (576 ≤ plan_mtu p < 65536)%N ∧
  Forall route_valid (plan_ipv4_routes p) ∧
  ResourceIdentityDigest_is_nil (TunnelIntentRef_0 (plan_opaque_intent p)) = false.

Definition proof_to_wire (c : CleanupProofRef) : WireCleanupProofRef :=
  MkWireCleanupProofRef (arr_bytes (InventoryDigest_0 (cpr_canonical_inventory_digest c)))
    (arr_bytes (EvidenceDigest_0 (cpr_platform_evidence_digest c))).

Definition state_to_wire {P C} (s : option CleanupProofRef) (stats : option RuntimeStats)
    (op : list byte) (companions : C) : WireRuntimeSnapshot P C :=
  MkWireRuntimeSnapshot (Some (WS_Idle (MkWireIdleState (proof_to_wire <$> s)))) stats op companions.

(** ** Characterisation of the conversions *)

(** A conversion [f] accepts exactly the encodings by [g] of the values that
    satisfy [Q]; it is then injective and a left inverse of [g]. *)
Definition decodes {W A} (f : W → result string A) (g : A → W) (Q : A → Prop) : Prop :=
  ∀ w a, f w = Ok a ↔ w = g a ∧ Q a.

Lemma decodes_mapM {W A} (f : W → result string A) g Q :
  decodes f g Q → decodes (mapM f) (fmap g) (Forall Q).
Proof.
  intros Hf ws. induction ws as [|w ws IH]; intros l; cbn [mapM].
  - split; [by intros [= <-]|]. intros [E _]. symmetry in E. by apply fmap_nil_inv in E as ->.
  - rewrite bind_Ok. setoid_rewrite bind_Ok. split.
    + intros (a & [-> ?]%Hf & l' & [-> ?]%IH & [= <-]). by split; [|constructor].
    + destruct l as [|a l]; [naive_solver|]. intros [[= -> ->] [? ?]%Forall_cons].
      exists a. split; [by apply Hf|]. exists l. split; [by apply IH|done].
Qed.

Lemma digest32_spec bytes d : digest32 bytes = Ok d ↔ bytes = arr_bytes d.
Proof. unfold digest32. rewrite ok_or_Ok, to_array_Some. naive_solver. Qed.

Lemma uuid16_spec bytes u : uuid16 bytes = Ok u ↔ bytes = arr_bytes u.
Proof.
  unfold uuid16. destruct (Nat.eqb (length bytes) 16) eqn:E; simpl.
  - rewrite ok_or_Ok, to_array_Some. naive_solver.
  - apply Nat.eqb_neq in E. split; [done|]. intros ->. by rewrite length_arr_bytes in E.
Qed.

Lemma ipv4_spec : decodes ipv4_from_wire_bytes arr_bytes (λ _, True).
Proof. intros w a. unfold ipv4_from_wire_bytes. rewrite ok_or_Ok, to_array_Some. naive_solver. Qed.

Lemma method_spec : decodes operation_method_from_wire method_to_wire (λ _, True).
Proof.
  intros w a. split; [|by intros [-> _]; destruct a].
  unfold operation_method_from_wire. intros H. break; done.
Qed.

Lemma runtime_epoch_spec :
  decodes runtime_epoch_from_wire (λ e, arr_bytes (RuntimeEpoch_0 e)) (λ e, RuntimeEpoch_0 e ≠ Uuid_nil).
Proof.
  intros w [u]. unfold runtime_epoch_from_wire. rewrite bind_Ok. setoid_rewrite uuid16_spec.
  unfold RuntimeEpoch_try_from, uuid_try_from, Uuid_is_nil. split.
  - intros (v & -> & H). case_bool_decide; naive_solver.
  - intros [-> Hn]. exists u. by rewrite bool_decide_eq_false_2.
Qed.

Lemma operation_id_spec :
  decodes operation_id_from_wire (λ e, arr_bytes (OperationId_0 e)) (λ e, OperationId_0 e ≠ Uuid_nil).
Proof.
  intros w [u]. unfold operation_id_from_wire. rewrite bind_Ok. setoid_rewrite uuid16_spec.
  unfold OperationId_try_from, uuid_try_from, Uuid_is_nil. split.
  - intros (v & -> & H). case_bool_decide; naive_solver.
  - intros [-> Hn]. exists u. by rewrite bool_decide_eq_false_2.
Qed.

Lemma tunnel_intent_spec :
  decodes tunnel_intent_from_wire intent_to_wire
    (λ i, ResourceIdentityDigest_is_nil (TunnelIntentRef_0 i) = false).
Proof.
  intros [w] [[d]]. unfold tunnel_intent_from_wire, resource_identity_digest_from_wire, intent_to_wire.
  simpl. rewrite bind_Ok. setoid_rewrite bind_Ok. setoid_rewrite digest32_spec.
  unfold digest_try_from, TunnelIntentRef_try_from. simpl. split.
  - intros (a & (x & -> & Ha) & Hd). simplify_eq. destruct (ResourceIdentityDigest_is_nil _) eqn:E; naive_solver.
  - intros [[= ->] Hn]. exists (MkResourceIdentityDigest d). rewrite Hn. eauto.
Qed.

Lemma route_spec : decodes ipv4_route_from_wire route_to_wire route_valid.
Proof.
  intros [n p] [n' p']. unfold ipv4_route_from_wire, route_to_wire, route_valid, u8_try_from. simpl.
  rewrite bind_Ok. setoid_rewrite bind_Ok. split.
  - intros (a & [-> _]%ipv4_spec & q & H & H'). crush.
  - intros [[= -> ->] ?]. exists n'. split; [by apply ipv4_spec|]. exists p'.
    rewrite (proj2 (N.ltb_lt _ _)), (proj2 (N.ltb_ge _ _)) by lia. done.
Qed.

Lemma cleanup_proof_spec :
  decodes cleanup_proof_ref_from_wire proof_to_wire
    (λ c, InventoryDigest_is_nil (cpr_canonical_inventory_digest c) = false).
Proof.
  intros [i e] [[di] [de]].
  unfold cleanup_proof_ref_from_wire, inventory_digest_from_wire, evidence_digest_from_wire, proof_to_wire.
  simpl. rewrite bind_Ok. setoid_rewrite bind_Ok. setoid_rewrite bind_Ok.
  setoid_rewrite digest32_spec. unfold digest_try_from, CleanupProofRef_try_from. simpl. split.
  - intros (a & (x & -> & Ha) & b & (y & -> & Hb) & Hd). simplify_eq.
    destruct (InventoryDigest_is_nil _) eqn:E; naive_solver.
  - intros [[= -> ->] Hn]. exists (MkInventoryDigest di). split; [eauto|].
    exists (MkEvidenceDigest de). rewrite Hn. eauto.
Qed.

Lemma lookup_key_spec w p k :
  lookup_key_from_wire w p = Ok k ↔
  olk_principal_digest k = p ∧ key_valid k ∧ ∃ reported, w = key_to_wire reported k.
Proof.
  destruct w as [wp wm we wo], k as [kp km ke ko].
  unfold lookup_key_from_wire, key_valid, key_to_wire. simpl. split.
  - intros H. apply bind_Ok in H as (r & (d & ->%digest32_spec & _)%bind_Ok & H).
    apply bind_Ok in H as (m & [-> _]%method_spec & H).
    apply bind_Ok in H as (e & [-> Hke]%runtime_epoch_spec & H).
    apply bind_Ok in H as (o & [-> Hko]%operation_id_spec & H). simplify_eq/=. eauto.
  - intros (-> & [? ?] & d & [= -> -> -> ->]).
    apply bind_Ok. exists (MkPrincipalDigest d). split.
    { apply bind_Ok. exists d. by rewrite digest32_spec. }
    apply bind_Ok. exists km. split; [by apply method_spec|].
    apply bind_Ok. exists ke. split; [by apply runtime_epoch_spec|].
    apply bind_Ok. exists ko. split; [by apply operation_id_spec|done].
Qed.

Lemma tunnel_plan_spec w p :
  tunnel_plan_from_wire w = Ok p ↔ plan_valid p ∧ w = plan_to_wire (wp_proxy_exempt w) p.
Proof.
  destruct w as [a l m r d b i x]. unfold tunnel_plan_from_wire, plan_to_wire, plan_valid. simpl.
  rewrite bind_Ok. split.
  - intros (a' & [-> _]%ipv4_spec & H). unfold u8_try_from, u16_try_from in H.
    destruct (N.ltb_spec l 256); simplify_eq/=. destruct (N.ltb_spec m 65536); simplify_eq/=.
    destruct (N.ltb_spec 32 l); simplify_eq/=. destruct (N.ltb_spec m 576); simplify_eq/=.
    apply bind_Ok in H as (rs & [-> Hrs]%(decodes_mapM _ _ _ route_spec) & H).
    apply bind_Ok in H as (ds & [-> _]%(decodes_mapM _ _ _ ipv4_spec) & H).
    apply bind_Ok in H as (bs & [-> _]%(decodes_mapM _ _ _ ipv4_spec) & H).
    apply bind_Ok in H as (o & Hi & H). destruct i as [i|]; [|done].
    apply tunnel_intent_spec in Hi as [-> ?]. unfold TunnelPlan_try_from in H.
    rewrite (proj2 (N.ltb_ge _ _)), (proj2 (N.ltb_ge _ _)) in H by lia. by simplify_eq/=.
  - destruct p as [pa pl pm pr pd pb pi]. simpl.
    intros ((? & ? & ? & ?) & [= -> -> -> -> -> -> ->]).
    exists pa. split; [by apply ipv4_spec|]. unfold u8_try_from, u16_try_from.
    rewrite (proj2 (N.ltb_lt pl _)), (proj2 (N.ltb_lt pm 65536)) by lia. simpl.
    rewrite (proj2 (N.ltb_ge _ pl)), (proj2 (N.ltb_ge pm 576)) by lia.
    apply bind_Ok. exists pr. split; [by apply (decodes_mapM _ _ _ route_spec)|].
    apply bind_Ok. exists pd. split; [by apply (decodes_mapM _ _ _ ipv4_spec); split; [|apply Forall_true]|].
    apply bind_Ok. exists pb. split; [by apply (decodes_mapM _ _ _ ipv4_spec); split; [|apply Forall_true]|].
    apply bind_Ok. exists pi. split; [by apply tunnel_intent_spec|].
    unfold TunnelPlan_try_from. by rewrite (proj2 (N.ltb_ge _ pl)), (proj2 (N.ltb_ge pm 576)) by lia.
Qed.

Lemma method_known z : (1 ≤ z ≤ 8)%Z ↔ ∃ m, z = method_to_wire m.
Proof.
  split; [|intros [m ->]; destruct m; simpl; lia].
  intros H. assert (z = 1 ∨ z = 2 ∨ z = 3 ∨ z = 4 ∨ z = 5 ∨ z = 6 ∨ z = 7 ∨ z = 8)%Z as E by lia.
  destruct E as [->|[->|[->|[->|[->|[->|[->| ->]]]]]]];
    [exists Method_Connect|exists Method_RespondInteraction|exists Method_Stop
    |exists Method_Reconcile|exists Method_AcquireLease|exists Method_ApplyTunnel
    |exists Method_StopTunnel|exists Method_ReleaseLease]; done.
Qed.

(** An identifier field of a strict message: sixteen bytes, not all zero. *)
Definition uuid_field (bytes : list byte) : Prop :=
  length bytes = 16 ∧ bytes ≠ replicate 16 x00.

Lemma uuid_field_spec bytes :
  uuid_field bytes ↔ ∃ u : Uuid, bytes = arr_bytes u ∧ u ≠ Uuid_nil.
Proof.
  split.
  - intros [Hl Hn]. destruct (to_array_length 16 bytes Hl) as (u & _ & <-).
    exists u. split; [done|]. by intros ->.
  - intros (u & -> & Hn). split; [apply length_arr_bytes|].
    intros E. apply Hn, array_ext, E.
Qed.

Lemma lookup_key_accepted w p :
  (∃ k, lookup_key_from_wire w p = Ok k) ↔
  length (wk_principal_digest w) = 32 ∧ (1 ≤ wk_method w ≤ 8)%Z ∧
  uuid_field (wk_runtime_epoch w) ∧ uuid_field (wk_operation_id w).
Proof.
  rewrite method_known, !uuid_field_spec. setoid_rewrite lookup_key_spec. split.
  - intros (k & _ & [? ?] & d & ->). simpl. rewrite length_arr_bytes. eauto 10.
  - destruct w as [wp wm we wo]. simpl. intros (Hp & (m & ->) & (e & -> & ?) & (o & -> & ?)).
    destruct (to_array_length 32 wp Hp) as (d & _ & <-).
    exists (MkOperationLookupKey p m (MkRuntimeEpoch e) (MkOperationId o)).
    split; [done|]. split; [done|]. by exists d.
Qed.

Lemma kernel_request_bound request peer cap authority now b :
  kernel_request_to_operation request peer cap authority now = Ok b ↔
  kr_request_digest request = arr_bytes (RequestDigest_0 (bko_request_digest b)) ∧
  olk_principal_digest (bko_lookup_key b) = pc_principal peer ∧ key_valid (bko_lookup_key b) ∧
  (∃ reported, kr_wire_key request = key_to_wire reported (bko_lookup_key b)) ∧
  olk_method (bko_lookup_key b) = kr_expected_method request ∧
  authorizes cap (pc_principal peer) (pc_connection peer) (kr_expected_method request)
    authority now = true.
Proof.
  unfold kernel_request_to_operation. split.
  - intros H. apply bind_Ok in H as (d & Hd%ok_or_Ok%to_array_Some & H). simpl in H.
    apply bind_Ok in H as (m & Hm & H). apply bind_Ok in H as (k & Hk & H).
    destruct (operation_method_from_wire _) as [m'|?] eqn:Em; simplify_eq/=.
    destruct (lookup_key_from_wire _ _) as [k'|?] eqn:Ek; simplify_eq/=.
    apply lookup_key_spec in Ek as (? & ? & r & Hw). rewrite Hw in Em. simpl in Em.
    apply method_spec in Em as [Em _].
    assert (olk_method k = m) as <- by (by destruct (olk_method k), m).
    case_bool_decide as Hs; simplify_eq/=. rewrite <-Hs in *.
    destruct (authorizes _ _ _ _ _ _) eqn:Ea; simplify_eq/=. eauto 10.
  - destruct b as [k [d]]. simpl. intros (Hd & Hp & Hv & (r & Hw) & Hm & Ha).
    rewrite Hd, to_array_arr_bytes. simpl.
    rewrite (proj2 (lookup_key_spec (kr_wire_key request) (pc_principal peer) k)) by eauto.
    rewrite Hw. simpl. rewrite (proj2 (method_spec _ _) (conj eq_refl I)). simpl.
    rewrite Hm, bool_decide_eq_true_2, Ha by done. done.
Qed.

(** ** Properties *)

(** The tunnel plan conversion accepts exactly the strict encodings of valid
    plans, and returns the plan that was encoded: four-byte addresses throughout,
    prefixes of at most 32 bits, an MTU between 576 and 65535, and an opaque intent
    whose digest is thirty-two bytes, not all zero. Every other message is an
    error, and the [proxy_exempt] strings are not part of the plan. *)
Theorem tunnel_plan_conversion (w : WireTunnelPlan) (p : TunnelPlan) :
  tunnel_plan_from_wire w = Ok p ↔ plan_valid p ∧ ∃ exempt, w = plan_to_wire exempt p.
Proof. rewrite tunnel_plan_spec. split; intros [? H]; [eauto|]. destruct H as [x ->]. done. Qed.

(** Only an idle snapshot converts, to the idle state with the cleanup proof it
    carries; a proof that does not convert fails the whole snapshot. *)
Theorem snapshot_conversion {P C} (snap : WireRuntimeSnapshot P C) s :
  snapshot_from_wire snap = Ok s ↔
  ∃ proof, s = Idle proof ∧
    (∀ c, proof = Some c → InventoryDigest_is_nil (cpr_canonical_inventory_digest c) = false) ∧
    snap = state_to_wire proof (sn_stats snap) (sn_operation_id snap) (sn_companions snap).
Proof.
  destruct snap as [[[[w]|?|?|?|?|?|?|?]|] st op co];
    unfold snapshot_from_wire, state_to_wire; simpl; [|naive_solver..].
  rewrite bind_Ok. split.
  - intros (lc & H & [= <-]). exists lc. split; [done|]. destruct w as [w|]; [|naive_solver].
    apply bind_Ok in H as (c & [-> ?]%cleanup_proof_spec & [= <-]). naive_solver.
  - intros (proof & -> & Hp & [= ->]). exists proof. split; [|done].
    destruct proof as [c|]; simpl; [|done]. apply bind_Ok. exists c. split; [|done].
    apply cleanup_proof_spec. eauto.
Qed.

(** C19: What the kernel adapter answers is decided by five checks in their order.
    A request is rejected with the text of the first that fails: the request
    digest has thirty-two bytes; the method is one of the eight assigned numbers;
    the key is strict (a thirty-two byte principal, an epoch and an operation id of
    sixteen bytes that are not nil); the method is the expected one; the capability
    authorizes the authenticated peer for it at this authority and time. When all
    hold, the operation is bound: its key carries the peer's principal and the
    request's own method, epoch and id, and its digest the request's bytes. *)
Theorem kernel_request_verdict request peer cap authority now :
  let key := kr_wire_key request in
  let digest_ok := length (kr_request_digest request) = 32 in
  let method_ok := (1 ≤ wk_method key ≤ 8)%Z in
  let key_ok := length (wk_principal_digest key) = 32 ∧ uuid_field (wk_runtime_epoch key) ∧
                uuid_field (wk_operation_id key) in
  let in_scope := wk_method key = method_to_wire (kr_expected_method request) in
  let granted := authorizes cap (pc_principal peer) (pc_connection peer)
                   (kr_expected_method request) authority now = true in
  match kernel_request_to_operation request peer cap authority now with
  | Ok b =>
      digest_ok ∧ method_ok ∧ key_ok ∧ in_scope ∧ granted ∧
      arr_bytes (RequestDigest_0 (bko_request_digest b)) = kr_request_digest request ∧
      olk_principal_digest (bko_lookup_key b) = pc_principal peer ∧
      ∃ reported, key = key_to_wire reported (bko_lookup_key b)
  | Err e =>
      (e = "kernel: request digest: expected 32 bytes" ∧ ¬ digest_ok) ∨
      (e = "kernel: operation method: invalid" ∧ digest_ok ∧ ¬ method_ok) ∨
      (e = "kernel: lookup key: invalid" ∧ digest_ok ∧ method_ok ∧ ¬ key_ok) ∨
      (e = "kernel: operation: out of scope" ∧ digest_ok ∧ method_ok ∧ key_ok ∧ ¬ in_scope) ∨
      (e = "kernel: not authorized by peer capability" ∧
         digest_ok ∧ method_ok ∧ key_ok ∧ in_scope ∧ ¬ granted)
  end.
Proof.
  cbv zeta. unfold kernel_request_to_operation.
  destruct (to_array 32 _) as [d|] eqn:Ed; simpl; [|left; by apply to_array_None in Ed].
  apply to_array_Some in Ed. assert (length (kr_request_digest request) = 32) as Hd.
  { by rewrite <-Ed, length_arr_bytes. }
  destruct (operation_method_from_wire _) as [m|?] eqn:Em; simpl.
  2:{ right; left. split_and!; [done..|]. intros (m & Hm)%method_known.
      pose proof (proj2 (method_spec _ _) (conj Hm I)). congruence. }
  apply method_spec in Em as [Em _].
  assert (1 ≤ wk_method (kr_wire_key request) ≤ 8)%Z as [Hm1 Hm2] by (apply method_known; eauto).
  pose proof (lookup_key_accepted (kr_wire_key request) (pc_principal peer)) as Ha.
  destruct (lookup_key_from_wire _ _) as [k|?] eqn:Ek; simpl.
  2:{ right; right; left. split_and!; [done..|]. intros (? & ? & ?).
      destruct (proj2 Ha) as [k Hk]; [by split_and!|done]. }
  destruct (proj1 Ha) as (? & _ & ? & ?); [eauto|].
  apply lookup_key_spec in Ek as (? & ? & Hw).
  case_bool_decide as Hs; simpl.
  - subst m. destruct (authorizes _ _ _ _ _ _) eqn:Eg; simpl; [by split_and!|].
    do 4 right. by split_and!.
  - do 3 right; left. split_and!; [done..|]. rewrite Em. intros E. apply Hs.
    by destruct m, (kr_expected_method request).
Qed.

(** A capability bound from a verified connection opens the kernel adapter to
    that connection's principal alone. A request is bound under it exactly when
    the authority epoch is the capability's, its expiry tick has not passed, the
    expected and the requested method are the capability's operation, and the
    request is a strict encoding; the bound key's principal is then the verified
    one, whatever thirty-two bytes the message reported as its principal. *)
Theorem kernel_identity_from_peer m peer op authority expires cap request authority' now b :
  PeerContext_try_from m = Ok peer →
  bind_capability peer op authority expires = Ok cap →
  kernel_request_to_operation request peer cap authority' now = Ok b ↔
  authority' = authority ∧ (MonotonicTick_0 now ≤ MonotonicTick_0 expires)%N ∧
  kr_expected_method request = op ∧ olk_method (bko_lookup_key b) = op ∧
  key_valid (bko_lookup_key b) ∧ olk_principal_digest (bko_lookup_key b) = vcm_principal m ∧
  kr_request_digest request = arr_bytes (RequestDigest_0 (bko_request_digest b)) ∧
  ∃ reported, kr_wire_key request = key_to_wire reported (bko_lookup_key b).
Proof.
  intros Hp Hc. rewrite kernel_request_bound.
  destruct (capability_scope m peer op authority expires cap (pc_principal peer)
    (pc_connection peer) (kr_expected_method request) authority' now Hp Hc) as [-> _].
  injection Hp as <-. simpl. naive_solver.
Qed.

Definition sample_request (reported : byte) : KernelRequest :=
  MkKernelRequest (key_to_wire (dg reported) (sample_key Method_Connect x11))
    (arr_bytes (dg x55)) Method_Connect.

(** The request of a peer that reports another principal than its own. *)
Lemma kernel_identity_from_peer_witness :
  ∃ peer cap b,
    kernel_request_to_operation (sample_request x77) peer cap (MkAuthorityEpoch 1)
      (MkMonotonicTick 10) = Ok b ∧
    olk_principal_digest (bko_lookup_key b) = vcm_principal sample_peer.
Proof.
  eexists _, _, _. split; [apply (kernel_identity_from_peer sample_peer _ Method_Connect
    (MkAuthorityEpoch 1) (MkMonotonicTick 10)); [reflexivity|reflexivity|]|].
  - instantiate (1 := MkBoundKernelOperation (sample_key Method_Connect x11) (sample_digest x55)).
    split_and!; [reflexivity|simpl; lia|reflexivity|reflexivity|..].
    + split; apply (bool_decide_unpack _); vm_compute; exact I.
    + reflexivity.
    + reflexivity.
    + exists (dg x77). reflexivity.
  - reflexivity.
Defined.
