(* ===== verification/EventBus.v ===== *)
(** * Host event bus

    [event_bus.rs] of the host crate: the bus behind [WatchEvents]. It mints a
    strictly increasing tick per event, keeps the latest event for replay, fans
    events out over a broadcast channel, and carries a lane of traffic statistics.

    Publications are serialised by [publish_gate], but a subscriber does not take
    the gate: it reads the latest event and then attaches to the channel. So a
    publication is modelled as the actions its holder performs while it has the
    gate ([eb_gate]), and readers see the state between any two of them. [tick] is
    an [AtomicU64] and wraps. A channel is the list of everything sent on it, a
    receiver a position in it; what a receiver obtains of the items behind its
    position is the foreign channel's, the parameter [recv] under the laws of
    [Broadcast]. A poisoned mutex (a publisher that panicked) is not modelled. *)

From Stdlib Require Import NArith ZArith Strings.Byte Lia.
From stdpp Require Import sorting.
From S2P Require Import Prelude Wire.

(** ** The broadcast channel *)

(** What a receiver gets of the items sent since it subscribed: an item, or a
    report of how many it was too late for. *)
Inductive received (E : Type) := Got (e : E) | Lagged (n : N).
Arguments Got {E}. Arguments Lagged {E}.

Definition got {E} (r : received E) : option E :=
  match r with Got e => Some e | Lagged _ => None end.

(** The documented behaviour of a receiver that is polled until it is idle: it gets
    items in the order they were sent and each at most once, and after lagging it
    resumes at the oldest item the channel retains, so that the last [capacity]
    items are never lost. *)
Class Broadcast {E} (capacity : nat) (recv : list E → list (received E)) : Prop := {
  recv_order sent : omap got (recv sent) `sublist_of` sent;
  recv_tail sent : ∃ early,
    omap got (recv sent) = early ++ drop (length sent - capacity) sent;
}.

Section bus.
Context {P C : Type}.
Abbreviation RuntimeSnapshot := (WireRuntimeSnapshot P C).

(** proto/common.proto:731-735 [enum RuntimeEventKind] *)
Inductive RuntimeEventKind := Kind_Unspecified | Kind_Snapshot | Kind_Transition.

(** [kind as i32] *)
Definition kind_as_i32 (k : RuntimeEventKind) : Z :=
  (match k with Kind_Unspecified => 0 | Kind_Snapshot => 1 | Kind_Transition => 2 end)%Z.

(** proto/common.proto:738-746 [message RuntimeEvent] *)
Record RuntimeEvent := MkRuntimeEvent {
  ev_monotonic_tick : N;
  ev_kind : Z;
  ev_snapshot : option RuntimeSnapshot;
  ev_operation_id : list byte;
}.

(** What a publisher does while it holds the gate, one visible effect at a time. *)
Inductive action :=
  | SetStats (s : RuntimeStats)
  | SendStats (s : RuntimeStats)
  | SetCurrent (e : RuntimeEvent)
  | SendLive (e : RuntimeEvent).

(** host/event_bus.rs:25-45 [EventBus]: [eb_gate] holds what the publisher that
    has [publish_gate] has yet to do. *)
Record EventBus := MkEventBus {
  eb_live : list RuntimeEvent;
  eb_gate : list action;
  eb_tick : N;
  eb_current : option RuntimeEvent;
  eb_stats_live : list RuntimeStats;
  eb_stats_current : option RuntimeStats;
}.

(** host/event_bus.rs:48-59 [EventBus::new] *)
Definition EventBus_new : EventBus := MkEventBus [] [] 0 None [] None.

(** host/event_bus.rs:61-68 [EventBus::next_tick] *)
Definition next_tick (b : EventBus) : N * EventBus :=
  let tick := add64 (eb_tick b) 1 in
  (tick, MkEventBus (eb_live b) (eb_gate b) tick (eb_current b) (eb_stats_live b)
           (eb_stats_current b)).

(** host/event_bus.rs:70-74 [EventBus::current_tick] *)
Definition current_tick (b : EventBus) : N := eb_tick b.

(** host/event_bus.rs:76-84 [EventBus::current_snapshot] *)
Definition current_snapshot (b : EventBus) : option RuntimeSnapshot :=
  e ← eb_current b; ev_snapshot e.

Definition with_gate (b : EventBus) (todo : list action) : EventBus :=
  MkEventBus (eb_live b) todo (eb_tick b) (eb_current b) (eb_stats_live b) (eb_stats_current b).

(** host/event_bus.rs:95-119 [EventBus::publish_composing]: the event it returns,
    and the bus with the gate taken and the two writes of the event ahead. *)
Definition publish_composing (b : EventBus) (kind : RuntimeEventKind)
    (compose : N → RuntimeSnapshot) : RuntimeEvent * EventBus :=
  let '(tick, b) := next_tick b in
  let snapshot := compose tick in
  let event := MkRuntimeEvent tick (kind_as_i32 kind) (Some snapshot) (sn_operation_id snapshot) in
  (event, with_gate b [SetCurrent event; SendLive event]).

(** host/event_bus.rs:86-93 [EventBus::publish] *)
Definition publish (b : EventBus) (kind : RuntimeEventKind) (snapshot : RuntimeSnapshot) :
    RuntimeEvent * EventBus :=
  publish_composing b kind (λ _, snapshot).

Definition is_connected (snapshot : RuntimeSnapshot) : bool :=
  match sn_state snapshot with Some (WS_Connected _) => true | _ => false end.

(** host/event_bus.rs:154-196 [EventBus::publish_stats]: the sample it returns, and
    the bus with the gate taken and the writes of both lanes ahead. *)
Definition publish_stats (b : EventBus) (stats : RuntimeStats) : RuntimeStats * EventBus :=
  let current_snapshot := current_snapshot b in
  let should_republish :=
    match current_snapshot with Some snapshot => is_connected snapshot | None => false end in
  let '(tick, b) := if should_republish then next_tick b else (current_tick b, b) in
  let stats := MkRuntimeStats (st_rx_bytes stats) (st_tx_bytes stats) (st_rx_rate_bps stats)
                 (st_tx_rate_bps stats) (st_latency_ms stats) (st_phase stats)
                 (st_engine_sequence stats) tick in
  let republication :=
    match current_snapshot with
    | Some snapshot =>
        if is_connected snapshot then
          let snapshot := MkWireRuntimeSnapshot (sn_state snapshot) (Some stats)
                            (sn_operation_id snapshot) (sn_companions snapshot) in
          let event := MkRuntimeEvent tick (kind_as_i32 Kind_Snapshot) (Some snapshot)
                         (sn_operation_id snapshot) in
          [SetCurrent event; SendLive event]
        else []
    | None => []
    end in
  (stats, with_gate b ([SetStats stats; SendStats stats] ++ republication)).

(** One effect of the publisher that holds the gate. *)
Definition act (b : EventBus) (a : action) : EventBus :=
  match a with
  | SetStats s => MkEventBus (eb_live b) (eb_gate b) (eb_tick b) (eb_current b) (eb_stats_live b) (Some s)
  | SendStats s => MkEventBus (eb_live b) (eb_gate b) (eb_tick b) (eb_current b)
                     (eb_stats_live b ++ [s]) (eb_stats_current b)
  | SetCurrent e => MkEventBus (eb_live b) (eb_gate b) (eb_tick b) (Some e) (eb_stats_live b)
                      (eb_stats_current b)
  | SendLive e => MkEventBus (eb_live b ++ [e]) (eb_gate b) (eb_tick b) (eb_current b)
                    (eb_stats_live b) (eb_stats_current b)
  end.

(** The rest of a publication, to the release of the gate. *)
Definition settle (b : EventBus) : EventBus := with_gate (foldl act b (eb_gate b)) [].

(** host/event_bus.rs:198-202 [EventBus::current_stats] *)
Definition current_stats (b : EventBus) : option RuntimeStats := eb_stats_current b.

(** ** Subscriptions *)

(** A stream [iter(init).chain(live)]: the replayed items, then those the receiver
    attached at [sub_from] gets that are newer than [sub_resume]. *)
Record Subscription (E : Type) := MkSubscription {
  sub_resume : N;
  sub_replay : option E;
  sub_from : nat;
}.
Arguments MkSubscription {E}. Arguments sub_resume {E}. Arguments sub_replay {E}.
Arguments sub_from {E}.

(** host/event_bus.rs:130-138 [EventBus::subscribe]: the read of the latest event. *)
Definition subscribe_replay (b : EventBus) (resume_tick : N) : option RuntimeEvent :=
  match eb_current b with
  | Some ev => if (resume_tick =? 0)%N || (resume_tick <? ev_monotonic_tick ev)%N
               then Some ev else None
  | None => None
  end.

(** host/event_bus.rs:139-147 [EventBus::subscribe]: attaching to the channel. *)
Definition subscribe_attach (b : EventBus) (resume_tick : N) (replay : option RuntimeEvent) :
    Subscription RuntimeEvent :=
  MkSubscription resume_tick replay (length (eb_live b)).

(** host/event_bus.rs:129-148 [EventBus::subscribe], when nothing comes between. *)
Definition subscribe (b : EventBus) (resume_tick : N) : Subscription RuntimeEvent :=
  subscribe_attach b resume_tick (subscribe_replay b resume_tick).

(** host/event_bus.rs:140-147 [EventBus::subscribe]: the stream, when the channel
    holds what the bus has sent. *)
Definition stream (recv : list RuntimeEvent → list (received RuntimeEvent)) (b : EventBus)
    (s : Subscription RuntimeEvent) : list RuntimeEvent :=
  option_list (sub_replay s) ++
  omap (λ r, match r with
             | Got ev => if (sub_resume s <? ev_monotonic_tick ev)%N then Some ev else None
             | Lagged _ => None
             end) (recv (drop (sub_from s) (eb_live b))).

(** host/event_bus.rs:204-224 [EventBus::subscribe_stats] *)
Definition subscribe_stats (b : EventBus) (resume_tick : N) : Subscription RuntimeStats :=
  let replay :=
    match eb_stats_current b with
    | Some stats => if (resume_tick =? 0)%N || (resume_tick <? st_sample_tick stats)%N
                    then Some stats else None
    | None => None
    end in
  MkSubscription resume_tick replay (length (eb_stats_live b)).

(** host/event_bus.rs:218-223 [EventBus::subscribe_stats]: the stream. *)
Definition stats_stream (recv : list RuntimeStats → list (received RuntimeStats)) (b : EventBus)
    (s : Subscription RuntimeStats) : list RuntimeStats :=
  option_list (sub_replay s) ++
  omap (λ r, match r with
             | Got x => if (sub_resume s <? st_sample_tick x)%N then Some x else None
             | Lagged _ => None
             end) (recv (drop (sub_from s) (eb_stats_live b))).

(** ** Schedules *)

(** What happens to the bus: a publication takes the free gate, its holder performs
    its next effect, or a tick is minted outside of a publication. *)
Inductive event :=
  | Publish (kind : RuntimeEventKind) (compose : N → RuntimeSnapshot)
  | PublishStats (stats : RuntimeStats)
  | Act
  | NextTick.

Definition step (b : EventBus) (e : event) : option EventBus :=
  match e, eb_gate b with
  | Publish kind compose, [] => Some (snd (publish_composing b kind compose))
  | PublishStats stats, [] => Some (snd (publish_stats b stats))
  | Act, a :: todo => Some (act (with_gate b todo) a)
  | NextTick, _ => Some (snd (next_tick b))
  | _, _ => None
  end.

Fixpoint run (b : EventBus) (es : list event) : option EventBus :=
  match es with [] => Some b | e :: es => b ← step b e; run b es end.

(** ** Invariant *)

Definition earlier (e1 e2 : RuntimeEvent) : Prop := (ev_monotonic_tick e1 < ev_monotonic_tick e2)%N.
Definition not_later (e1 e2 : RuntimeEvent) : Prop := (ev_monotonic_tick e1 ≤ ev_monotonic_tick e2)%N.
Definition newer (resume : N) (e : RuntimeEvent) : Prop := (resume < ev_monotonic_tick e)%N.
#[local] Instance newer_dec resume e : Decision (newer resume e).
Proof. unfold newer. apply _. Defined.

(** Every event carries a snapshot and the operation id of that snapshot. *)
Definition event_ok (e : RuntimeEvent) : Prop :=
  ∃ s, ev_snapshot e = Some s ∧ ev_operation_id e = sn_operation_id s.

(** The events the holder of the gate has yet to send, and all events sent or due. *)
Definition to_send (a : action) : option RuntimeEvent :=
  match a with SendLive e => Some e | _ => None end.
Definition due (b : EventBus) : list RuntimeEvent := eb_live b ++ omap to_send (eb_gate b).

(** What a publication has ahead before its event is stored. *)
Inductive unstored : list action → Prop :=
  | unstored_nil : unstored []
  | unstored_event e : unstored [SetCurrent e; SendLive e]
  | unstored_set s g : unstored g → unstored (SetStats s :: g)
  | unstored_send s g : unstored g → unstored (SendStats s :: g).

Definition gate_ok (b : EventBus) : Prop :=
  (unstored (eb_gate b) ∧ eb_current b = last (eb_live b)) ∨
  (∃ e, eb_gate b = [SendLive e] ∧ eb_current b = Some e).

(** [n] bounds the number of ticks minted so far. *)
Record bus_ok (n : N) (b : EventBus) : Prop := {
  ok_tick : (eb_tick b ≤ n)%N;
  ok_sorted : StronglySorted earlier (due b);
  ok_range e : e ∈ due b → newer 0 e ∧ (ev_monotonic_tick e ≤ eb_tick b)%N;
  ok_events : Forall event_ok (due b);
  ok_gate : gate_ok b;
}.

Lemma due_act b a g : due (act (with_gate b g) a) = due (with_gate b (a :: g)).
Proof. destruct a; unfold due; simpl; [done..|]. by rewrite <-app_assoc. Qed.

(** While the gate is free the latest event is the last one sent. *)
Lemma gate_free b : gate_ok b → eb_gate b = [] → eb_current b = last (eb_live b) ∧ due b = eb_live b.
Proof.
  intros Hg Hfree. split.
  - destruct Hg as [[_ ?]|(e & H & _)]; [done|congruence].
  - unfold due. by rewrite Hfree, app_nil_r.
Qed.

(** A new event that takes the free gate. *)
Lemma bus_ok_publish n b e pre :
  bus_ok n b → eb_gate b = [] → in_u64 (n + 1) → event_ok e →
  ev_monotonic_tick e = (eb_tick b + 1)%N → (∀ g, unstored g → unstored (pre ++ g)) →
  omap to_send pre = [] →
  bus_ok (n + 1) (with_gate (snd (next_tick b)) (pre ++ [SetCurrent e; SendLive e])).
Proof.
  intros [Ht Hs Hr He Hg] Hfree Hn Hok Htick Hpre Hsend.
  assert (add64 (eb_tick b) 1 = eb_tick b + 1)%N as Ea by (apply add64_small; unfold in_u64 in *; lia).
  destruct (gate_free b Hg Hfree) as [Hc Hdue]. rewrite Hdue in *.
  assert (Hd : omap to_send (pre ++ [SetCurrent e; SendLive e]) = [e])
    by (by rewrite omap_app, Hsend).
  constructor; unfold due; simpl; rewrite ?Hd, ?Ea.
  - lia.
  - apply StronglySorted_app_2; [|done|repeat constructor].
    intros x y Hx ->%list_elem_of_singleton. apply Hr in Hx as [_ ?]. unfold earlier. lia.
  - intros x [Hx| ->%list_elem_of_singleton]%elem_of_app; [destruct (Hr x Hx)|]; unfold newer;
      simpl; (split; [|lia]); [done|lia].
  - apply Forall_app. auto.
  - left. split; [apply Hpre; constructor|done].
Qed.

(** A sample that brings no event. *)
Lemma bus_ok_sample n b s s' :
  bus_ok n b → eb_gate b = [] → bus_ok (n + 1) (with_gate b [SetStats s; SendStats s']).
Proof.
  intros [Ht Hs Hr He Hg] Hfree. destruct (gate_free b Hg Hfree) as [Hc Hdue].
  assert (due (with_gate b [SetStats s; SendStats s']) = due b) as Hd.
  { rewrite Hdue. unfold due. simpl. apply app_nil_r. }
  constructor; rewrite ?Hd; simpl; [lia|done..|]. left. split; [do 3 constructor|done].
Qed.

Lemma bus_ok_step n b e b' : bus_ok n b → in_u64 (n + 1) → step b e = Some b' → bus_ok (n + 1) b'.
Proof.
  intros Hok Hn Hstep. destruct e as [kind compose|stats| |]; simpl in Hstep.
  - destruct (eb_gate b) eqn:Hg; simplify_eq.
    unfold publish_composing. simpl. apply (bus_ok_publish n b _ []); auto; [eexists; eauto|].
    simpl. apply add64_small. destruct Hok. unfold in_u64 in *. lia.
  - destruct (eb_gate b) eqn:Hg; simplify_eq. unfold publish_stats.
    destruct (current_snapshot b) as [snap|] eqn:Hc; [destruct (is_connected snap) eqn:Hconn|]; simpl.
    + eapply (bus_ok_publish n b _ [_; _]); auto; [eexists; eauto| |by constructor; constructor].
      simpl. apply add64_small. destruct Hok. unfold in_u64 in *. lia.
    + by apply bus_ok_sample.
    + by apply bus_ok_sample.
  - destruct (eb_gate b) as [|a g] eqn:Hg; simplify_eq.
    assert (due b = due (act (with_gate b g) a)) as Hd.
    { rewrite due_act. unfold due. by rewrite Hg. }
    destruct Hok as [Ht Hs Hr He Hgt]. constructor; rewrite <-?Hd; [destruct a; simpl; lia|done| |done|].
    + intros x Hx. destruct (Hr x Hx). by destruct a.
    + unfold gate_ok in *. rewrite Hg in Hgt. destruct Hgt as [[Hu Hc]|(e & [= -> ->] & Hc)].
      * inversion Hu; simplify_eq; simpl; [right; eauto|left; eauto..].
      * left. simpl. split; [constructor|]. by rewrite last_snoc.
  - simplify_eq. destruct Hok as [Ht Hs Hr He Hg].
    assert (add64 (eb_tick b) 1 = eb_tick b + 1)%N as Ea by (apply add64_small; unfold in_u64 in *; lia).
    constructor; unfold next_tick, due in *; simpl; rewrite ?Ea; [lia|done| |done|done].
    intros x Hx. destruct (Hr x Hx). split; [done|lia].
Qed.

Lemma bus_ok_run n b es b' :
  bus_ok n b → in_u64 (n + N.of_nat (length es)) → run b es = Some b' →
  bus_ok (n + N.of_nat (length es)) b'.
Proof.
  revert n b. induction es as [|e es IH]; intros n b Hok Hn; simpl.
  - intros [= <-]. by rewrite N.add_0_r.
  - intros (b1 & Hs & Hr)%bind_Some. cbn [length] in *.
    replace (n + N.of_nat (S (length es)))%N with (n + 1 + N.of_nat (length es))%N in * by lia.
    eapply IH; [|done..]. eapply bus_ok_step; [done| |done]. unfold in_u64 in *. lia.
Qed.

Lemma bus_ok_new : bus_ok 0 EventBus_new.
Proof.
  constructor; [done|constructor| |constructor|].
  - intros e H. by apply elem_of_nil in H.
  - left. split; [constructor|done].
Qed.

(** Nothing sent or due is ever withdrawn. *)
Lemma step_prefix b e b' :
  step b e = Some b' → eb_live b `prefix_of` eb_live b' ∧ due b `prefix_of` due b'.
Proof.
  intros Hs. destruct e as [kind compose|stats| |]; simpl in Hs.
  - destruct (eb_gate b) eqn:Hg; simplify_eq/=. unfold due. rewrite Hg. simpl.
    split; [done|]. rewrite app_nil_r. by apply prefix_app_r.
  - destruct (eb_gate b) eqn:Hg; simplify_eq. unfold publish_stats, due. rewrite Hg, app_nil_r.
    destruct (current_snapshot b) as [snap|]; [destruct (is_connected snap)|]; simpl;
      (split; [done|by apply prefix_app_r]).
  - destruct (eb_gate b) as [|a g] eqn:Hg; simplify_eq. rewrite due_act.
    split; [by destruct a; simpl; [..|apply prefix_app_r]|]. unfold due. by rewrite Hg.
  - by simplify_eq.
Qed.

Lemma run_prefix b es b' :
  run b es = Some b' → eb_live b `prefix_of` eb_live b' ∧ due b `prefix_of` due b'.
Proof.
  revert b. induction es as [|e es IH]; intros b; simpl; [by intros [= <-]|].
  intros (b1 & [? ?]%step_prefix & [? ?]%IH)%bind_Some. split; by etransitivity.
Qed.

Lemma run_app b es es' : run b (es ++ es') = b' ← run b es; run b' es'.
Proof.
  revert b. induction es as [|e es IH]; intros b; simpl; [done|].
  destruct (step b e); simpl; [apply IH|done].
Qed.

Lemma stream_filter recv b s :
  stream recv b s =
  option_list (sub_replay s) ++
  filter (newer (sub_resume s)) (omap got (recv (drop (sub_from s) (eb_live b)))).
Proof.
  unfold stream. f_equal. induction (recv _) as [|[e|n] l IH]; simpl; [done| |done].
  unfold omap in IH. rewrite filter_cons, <-IH. unfold newer.
  destruct (N.ltb_spec (sub_resume s) (ev_monotonic_tick e)); [by rewrite decide_True|].
  rewrite decide_False; [done|lia].
Qed.

Lemma StronglySorted_sublist {A} (R : relation A) l1 l2 :
  l1 `sublist_of` l2 → StronglySorted R l2 → StronglySorted R l1.
Proof.
  induction 1 as [|x l1 l2 Hl IH|x l1 l2 Hl IH]; intros Hs; [constructor|..];
    apply StronglySorted_cons in Hs as [Hx Hs]; [|auto].
  apply StronglySorted_cons. split; [|auto]. rewrite Forall_forall in *.
  intros y Hy. apply Hx. by eapply elem_of_sublist.
Qed.

Lemma last_filter_last {A} (Q : A → Prop) `{!∀ x, Decision (Q x)} l x :
  last l = Some x → Q x → last (filter Q l) = Some x.
Proof.
  intros [l' ->]%last_Some HQ. rewrite filter_app, filter_cons_True, filter_nil by done.
  apply last_snoc.
Qed.

(** ** Properties *)

(** Whatever publications, samples and minted ticks are interleaved, and
    wherever the holder of the gate has got to, the events sent on the bus have
    strictly increasing ticks, starting above zero and bounded by the bus's tick;
    each carries a snapshot and that snapshot's operation id; and while the gate is
    free the event kept for replay is the last one sent. (Fewer than [2^64] ticks
    are minted; [next_tick] wraps there.) *)
Theorem bus_ticks_ordered es b :
  run EventBus_new es = Some b → in_u64 (N.of_nat (length es)) →
  StronglySorted earlier (eb_live b) ∧
  Forall (λ e, newer 0 e ∧ (ev_monotonic_tick e ≤ current_tick b)%N ∧ event_ok e) (eb_live b) ∧
  (eb_gate b = [] → eb_current b = last (eb_live b)).
Proof.
  intros Hr Hn. destruct (bus_ok_run 0 _ es b bus_ok_new Hn Hr) as [_ Hs Hrange He Hg].
  unfold due in *. split_and!.
  - by eapply StronglySorted_app_1_l.
  - apply Forall_app in He as [He _]. rewrite Forall_forall in *. intros e Hin.
    destruct (Hrange e); [apply elem_of_app; auto|]. auto.
  - intros Hfree. by apply gate_free.
Qed.

(** The state a subscriber meets: [S] where it reads the latest event, [A] where it
    attaches to the channel, with no event sent in between, and [b] later. *)
Lemma follow_new S A b es2 es3 n :
  bus_ok n S → run S es2 = Some A → eb_live A = eb_live S → run A es3 = Some b →
  eb_gate b = [] → gate_ok b →
  ∃ k, eb_live b = eb_live S ++ omap to_send (eb_gate S) ++ k ∧
       drop (length (eb_live A)) (eb_live b) = omap to_send (eb_gate S) ++ k.
Proof.
  intros HS HA Hlive Hb Hfree Hg.
  destruct (run_prefix _ _ _ HA) as [_ [k1 E1]]. destruct (run_prefix _ _ _ Hb) as [_ [k2 E2]].
  destruct (gate_free b Hg Hfree) as [_ Hd]. rewrite Hd, E1 in E2. unfold due in E2.
  exists (k1 ++ k2). rewrite E2, <-!app_assoc. split; [done|].
  by rewrite Hlive, drop_app_length.
Qed.

(** What the replay adds in front: the latest event, newer than the resume tick and
    not later than anything that is sent from then on. *)
Lemma replay_before n S resume c k :
  bus_ok n S → StronglySorted earlier (due S ++ k) → eb_current S = Some c →
  newer 0 c ∧
  (∀ e, e ∈ omap to_send (eb_gate S) ++ k → not_later c e ∧ (eb_gate S = [] → earlier c e)) ∧
  (subscribe_replay S resume = Some c ↔ newer resume c).
Proof.
  intros [_ _ Hr _ Hg] Hs Hc. unfold due in *.
  assert (newer 0 c ∧ ∀ e, e ∈ omap to_send (eb_gate S) ++ k →
    not_later c e ∧ (eb_gate S = [] → earlier c e)) as [H0 Hlater].
  { destruct Hg as [[_ Hl]|(e & Hg & He)].
    - rewrite Hc in Hl. symmetry in Hl. apply last_Some in Hl as [l Hl].
      assert (c ∈ eb_live S) as Hin by (rewrite Hl; set_solver).
      split; [apply Hr, elem_of_app; auto|]. intros e He.
      rewrite <-app_assoc in Hs.
      pose proof (StronglySorted_app_1_elem_of _ _ _ _ _ Hs Hin He) as Hlt.
      split; [unfold not_later, earlier in *; lia|done].
    - rewrite Hg in *. simpl in *. rewrite Hc in He. injection He as ->.
      split; [apply Hr; set_solver|].
      intros e' He'. split; [|done]. apply elem_of_cons in He' as [->|He']; [unfold not_later; lia|].
      pose proof (StronglySorted_app_1_elem_of _ _ _ e e' Hs) as Hlt. ospecialize* Hlt; [set_solver..|].
      unfold not_later, earlier in *. lia. }
  split_and!; [done..|]. unfold subscribe_replay, newer in *. rewrite Hc.
  destruct (N.eqb_spec resume 0) as [->|?]; simpl; [done|].
  destruct (N.ltb_spec resume (ev_monotonic_tick c)); split; [done..|lia].
Qed.

Lemma replay_current S resume c : subscribe_replay S resume = Some c → eb_current S = Some c.
Proof. unfold subscribe_replay. intros H. by break. Qed.

Lemma StronglySorted_replay (R : relation RuntimeEvent) o l :
  StronglySorted R l → (∀ c e, o = Some c → e ∈ l → R c e) → StronglySorted R (option_list o ++ l).
Proof.
  intros Hl Ho. destruct o as [c|]; simpl; [|done]. apply StronglySorted_cons.
  split; [|done]. apply Forall_forall. eauto.
Qed.

Lemma earlier_not_later l : StronglySorted earlier l → StronglySorted not_later l.
Proof.
  intros H. rewrite <-(list_fmap_id l). eapply StronglySorted_fmap; [|exact H].
  unfold earlier, not_later. simpl. lia.
Qed.

Lemma last_drop_lt {A} n (l : list A) : n < length l → last (drop n l) = last l.
Proof.
  intros Hn. rewrite <-(take_drop n l) at 2. rewrite last_app.
  destruct (last (drop n l)) eqn:El; [done|]. apply last_None, (f_equal length) in El.
  rewrite length_drop in El. simpl in El. lia.
Qed.

(** A receiver that lags never loses the last item. *)
Lemma recv_last `{Broadcast E cap recv} (sent : list E) :
  0 < cap → last (omap got (recv sent)) = last sent.
Proof.
  intros Hcap. destruct sent as [|x sent'] eqn:Es.
  - pose proof (recv_order (Broadcast := H) []) as Ho. apply sublist_nil_r in Ho. by rewrite Ho.
  - rewrite <-Es. destruct (recv_tail (Broadcast := H) sent) as [early ->].
    assert (length sent - cap < length sent) by (rewrite Es; simpl; lia).
    rewrite last_app, (last_drop_lt _ sent) by done.
    by rewrite Es, last_cons; destruct (last sent').
Qed.

Lemma recv_all `{Broadcast E cap recv} (sent : list E) :
  length sent ≤ cap → omap got (recv sent) = sent.
Proof.
  intros Hlen. pose proof (recv_order (Broadcast := H) sent) as Ho.
  destruct (recv_tail (Broadcast := H) sent) as [early Ht].
  replace (length sent - cap) with 0 in Ht by lia. rewrite drop_0 in Ht. rewrite Ht in *.
  apply sublist_length in Ho. rewrite length_app in Ho. by destruct early; [|simpl in Ho; lia].
Qed.

(** What the stream of a subscriber is made of. *)
Lemma follow_facts es1 S es2 A es3 b resume :
  run EventBus_new es1 = Some S → run S es2 = Some A → eb_live A = eb_live S →
  run A es3 = Some b → eb_gate b = [] →
  in_u64 (N.of_nat (length es1 + length es2 + length es3)) →
  let new := drop (length (eb_live A)) (eb_live b) in
  StronglySorted earlier new ∧
  (∀ c, subscribe_replay S resume = Some c → newer resume c ∧
     ∀ e, e ∈ new → not_later c e ∧ (eb_gate S = [] → earlier c e)) ∧
  (∀ e, eb_current b = Some e → newer resume e →
     last new = Some e ∨ (new = [] ∧ subscribe_replay S resume = Some e)).
Proof.
  intros HS HA Hlive Hrun Hfree Hn new.
  assert (bus_ok (N.of_nat (length es1)) S) as HokS.
  { apply (bus_ok_run 0 _ es1 S bus_ok_new); [unfold in_u64 in *; lia|done]. }
  assert (run EventBus_new (es1 ++ es2 ++ es3) = Some b) as Hall.
  { rewrite run_app, HS. simpl. by rewrite run_app, HA. }
  apply (bus_ok_run 0 _ _ b bus_ok_new) in Hall as [_ Hs _ _ Hg];
    [|rewrite !length_app; unfold in_u64 in *; lia].
  destruct (gate_free b Hg Hfree) as [Hcur Hd]. rewrite Hd in Hs.
  destruct (follow_new _ _ _ _ _ _ HokS HA Hlive Hrun Hfree Hg) as (k & Elive & Enew).
  fold new in Enew. rewrite Elive, app_assoc in Hs.
  assert (Hbefore := λ c, replay_before _ S resume c k HokS Hs). split_and!.
  - rewrite Enew. rewrite <-app_assoc in Hs. by eapply StronglySorted_app_1_r.
  - intros c Hc. destruct (Hbefore c (replay_current _ _ _ Hc)) as (_ & Hl & Hiff).
    rewrite Enew. split; [by apply Hiff|exact Hl].
  - intros e He Hnew. rewrite Hcur, Elive, <-Enew, last_app in He.
    destruct (last new) eqn:El; [by left; simplify_eq|]. right. apply last_None in El.
    split; [done|]. rewrite El in Enew. symmetry in Enew. apply app_nil in Enew as [Hno _].
    assert (eb_current S = Some e) as HcS.
    { destruct (ok_gate _ _ HokS) as [[_ ?]|(x & Hx & _)]; [congruence|]. by rewrite Hx in Hno. }
    by apply (Hbefore e HcS).
Qed.

(** C18: A subscriber that reads the latest event and attaches with no event sent in
    between follows the bus from then on, over any channel that keeps the contract
    of a broadcast channel of sixty-four places. Its stream holds only events newer
    than its resume tick, in an order in which no tick goes back (and none repeats
    when no publication was under way as it read); while no more than sixty-four
    events were sent since it attached it misses none of them; and however many it
    lags behind, once the gate is free the last event it has is the bus's latest,
    if that one is newer than its resume tick at all. *)
Theorem subscriber_follows recv es1 S es2 A es3 b resume :
  Broadcast 64 recv →
  run EventBus_new es1 = Some S → run S es2 = Some A → eb_live A = eb_live S →
  run A es3 = Some b → eb_gate b = [] →
  in_u64 (N.of_nat (length es1 + length es2 + length es3)) →
  let s := stream recv b (subscribe_attach A resume (subscribe_replay S resume)) in
  Forall (newer resume) s ∧
  StronglySorted not_later s ∧
  (eb_gate S = [] → StronglySorted earlier s) ∧
  (length (eb_live b) ≤ length (eb_live A) + 64 →
     ∀ e, e ∈ drop (length (eb_live A)) (eb_live b) → newer resume e → e ∈ s) ∧
  (∀ e, eb_current b = Some e → newer resume e → last s = Some e).
Proof.
  intros Hb HS HA Hlive Hrun Hfree Hn s.
  destruct (follow_facts es1 S es2 A es3 b resume) as (Hsort & Hreplay & Hlast); [done..|].
  set (new := drop (length (eb_live A)) (eb_live b)) in *.
  set (fresh := filter (newer resume) (omap got (recv new))).
  assert (Hin : ∀ e, e ∈ fresh → newer resume e ∧ e ∈ new).
  { intros e [? He]%list_elem_of_filter. split; [done|]. by eapply elem_of_sublist; [|apply recv_order]. }
  assert (Hfs : StronglySorted earlier fresh).
  { eapply StronglySorted_sublist; [|exact Hsort]. etrans; [apply sublist_filter|apply recv_order]. }
  assert (s = option_list (subscribe_replay S resume) ++ fresh) as -> by apply stream_filter.
  split_and!.
  - apply Forall_app. split; [|by apply Forall_forall; naive_solver].
    destruct (subscribe_replay S resume) as [c|]; constructor; [|constructor]. by apply Hreplay.
  - apply StronglySorted_replay; [by apply earlier_not_later|].
    intros c e Hc He. apply (Hreplay c Hc). naive_solver.
  - intros Hgate. apply StronglySorted_replay; [done|].
    intros c e Hc He. apply (Hreplay c Hc); naive_solver.
  - intros Hlen e He Hnew. apply elem_of_app. right. apply list_elem_of_filter. split; [done|].
    rewrite recv_all; [done|]. subst new. rewrite length_drop. lia.
  - intros e He Hnew. rewrite last_app. destruct (Hlast e He Hnew) as [Hl|[Hnil ->]].
    + subst fresh. rewrite (last_filter_last _ _ e); [done| |done]. rewrite recv_last; [done|lia].
    + assert (fresh = []) as ->; [|done]. apply elem_of_nil_inv. intros x [_ Hx]%Hin.
      rewrite Hnil in Hx. by apply elem_of_nil in Hx.
Qed.

(** A sample is stamped and, with the gate released again, stored and sent on
    the statistics lane; it reaches the event lane exactly when the latest snapshot
    is a connected one. Then a fresh tick is minted, the sample bears it, and one
    snapshot event with that tick repeats the latest snapshot's state, operation id
    and companions with the sample in it; otherwise the sample bears the tick the
    bus is at and neither tick nor event lane moves. *)
Theorem publish_stats_lanes b stats :
  eb_gate b = [] →
  let sample := fst (publish_stats b stats) in
  let b' := settle (snd (publish_stats b stats)) in
  eb_gate b' = [] ∧ eb_stats_current b' = Some sample ∧
  eb_stats_live b' = eb_stats_live b ++ [sample] ∧ st_sample_tick sample = current_tick b' ∧
  match current_snapshot b with
  | Some snap =>
      if is_connected snap then
        current_tick b' = add64 (current_tick b) 1 ∧
        ∃ e, eb_live b' = eb_live b ++ [e] ∧ eb_current b' = Some e ∧
          ev_monotonic_tick e = st_sample_tick sample ∧ ev_kind e = kind_as_i32 Kind_Snapshot ∧
          ev_snapshot e = Some (MkWireRuntimeSnapshot (sn_state snap) (Some sample)
                                  (sn_operation_id snap) (sn_companions snap)) ∧
          ev_operation_id e = sn_operation_id snap
      else current_tick b' = current_tick b ∧ eb_live b' = eb_live b ∧ eb_current b' = eb_current b
  | None => current_tick b' = current_tick b ∧ eb_live b' = eb_live b ∧ eb_current b' = eb_current b
  end.
Proof.
  intros Hfree. unfold publish_stats, settle.
  destruct (current_snapshot b) as [snap|]; [destruct (is_connected snap)|]; simpl; eauto 12.
Qed.
End bus.

(** ** Witnesses and the race of a subscription *)

(** A broadcast channel: the last [capacity] items, after a report of the others. *)
Definition recv_last_items {E} (capacity : nat) (sent : list E) : list (received E) :=
  (if Nat.leb (length sent) capacity then []
   else [Lagged (N.of_nat (length sent - capacity))]) ++
  (Got <$> drop (length sent - capacity) sent).

#[export] Instance recv_last_items_broadcast {E} capacity :
  Broadcast (E := E) capacity (recv_last_items capacity).
Proof.
  assert (H : ∀ sent : list E,
    omap got (recv_last_items capacity sent) = drop (length sent - capacity) sent).
  { intros sent. unfold recv_last_items. rewrite omap_app.
    assert (omap got (if Nat.leb (length sent) capacity then []
      else [Lagged (E := E) (N.of_nat (length sent - capacity))]) = []) as -> by (by case_match).
    induction (drop _ sent); simpl; [done|]. by f_equal. }
  split; intros sent; rewrite H; [apply sublist_drop|by exists []].
Qed.

Definition sample_snapshot (st : WireState unit) : WireRuntimeSnapshot unit unit :=
  MkWireRuntimeSnapshot (Some st) None [] ().
Definition publication (st : WireState unit) : list event :=
  [Publish Kind_Transition (λ _, sample_snapshot st); Act; Act].

Definition bus_after (es : list (@event unit unit)) : EventBus :=
  default EventBus_new (run EventBus_new es).

Lemma bus_ticks_ordered_witness :
  StronglySorted earlier (eb_live (bus_after (publication (WS_Connecting ()) ++
    publication (WS_Connected ()) ++ [PublishStats (MkRuntimeStats 1 2 3 4 5 6 7 0); Act; Act; Act]))).
Proof.
  eapply (bus_ticks_ordered (publication (WS_Connecting ()) ++
    publication (WS_Connected ()) ++ [PublishStats (MkRuntimeStats 1 2 3 4 5 6 7 0); Act; Act; Act]));
    vm_compute; reflexivity.
Defined.

Lemma subscriber_follows_witness :
  ∃ s : list (@RuntimeEvent unit unit), ev_monotonic_tick <$> last s = Some 3%N ∧ Forall (newer 0) s.
Proof.
  pose (es1 := publication (WS_Connecting ())).
  pose (es3 := publication (WS_Connected ()) ++
    [PublishStats (MkRuntimeStats 1 2 3 4 5 6 7 0); Act; Act; Act; Act]).
  pose (b := bus_after (es1 ++ es3)).
  destruct (subscriber_follows (recv_last_items 64) es1 (bus_after es1) [] (bus_after es1) es3 b 0)
    as (Hnew & _ & _ & _ & Hlast); [apply _|vm_compute; reflexivity..|].
  destruct (eb_current b) as [e|] eqn:He; [|vm_compute in He; discriminate].
  eexists. split; [|exact Hnew]. rewrite (Hlast e eq_refl); vm_compute in He; injection He as <-;
    vm_compute; reflexivity.
Defined.

Lemma publish_stats_lanes_witness :
  eb_gate (settle (snd (publish_stats (bus_after (publication (WS_Connected ())))
    (MkRuntimeStats 1 2 3 4 5 6 7 0)))) = [].
Proof.
  exact (proj1 (publish_stats_lanes (bus_after (publication (WS_Connected ())))
    (MkRuntimeStats 1 2 3 4 5 6 7 0) eq_refl)).
Defined.

(** An event published between the two halves of [subscribe] reaches the subscriber
    neither as replay nor live: it read the connecting event, attached after the
    connected one was sent, and its stream stays at the first although the bus is
    at the second. *)
Example subscribe_loses_event :
  let S := bus_after (publication (WS_Connecting ())) in
  let A := bus_after (publication (WS_Connecting ()) ++ publication (WS_Connected ())) in
  ev_monotonic_tick <$> stream (recv_last_items 64) A (subscribe_attach A 0 (subscribe_replay S 0)) = [1%N] ∧
  ev_monotonic_tick <$> eb_current A = Some 2%N.
Proof. split; reflexivity. Qed.

(** A subscriber that attaches between the two writes of a publication is handed
    its event twice: as replay and live. *)
Example subscribe_repeats_event :
  let S := bus_after [Publish Kind_Transition (λ _, sample_snapshot (WS_Connected ())); Act] in
  let b := settle S in
  ev_monotonic_tick <$> stream (recv_last_items 64) b (subscribe S 0) = [1%N; 1%N].
Proof. reflexivity. Qed.
