(* ===== verification/NativeError.v ===== *)
(** * Errors of the Windows calls

    [native_error.rs] of the Windows resource crate: the class a raw Win32 code falls
    into. *)

From Stdlib Require Import NArith Strings.String.
From S2P Require Import Prelude.

(** win32-resource/native_error.rs:5-16 [NativeErrorKind] *)
Inductive NativeErrorKind :=
  | NEK_Permission | NEK_Transport | NEK_Protocol | NEK_Resource | NEK_Storage
  | NEK_Observation | NEK_Unsupported | NEK_Unknown.
#[export] Instance NativeErrorKind_eq_dec : EqDecision NativeErrorKind.
Proof. solve_decision. Defined.

(** win32-resource/native_error.rs:18-24 [NativeError] *)
Record NativeError := MkNativeError { ne_kind : NativeErrorKind; ne_code : N; ne_message : string }.
#[export] Instance NativeError_eq_dec : EqDecision NativeError.
Proof. solve_decision. Defined.

(** win32-resource/native_error.rs:27-43 [NativeError::from_win32] *)
Definition NativeError_from_win32 (code : N) (message : string) : NativeError :=
  let kind := (match code with
               | 5 => NEK_Permission
               | 33 => NEK_Resource
               | 2 | 3 => NEK_Storage
               | _ => NEK_Unknown
               end)%N in
  MkNativeError kind code message.

(** win32-resource/native_error.rs:45-49 [NativeError::kind] *)
Definition NativeError_kind (e : NativeError) : NativeErrorKind := ne_kind e.
