(* ===== verification/WinJournal.v ===== *)
(** * The journal of the Windows platform and recovery from it

    [journal_store.rs], [journal_projection.rs], [native_observation.rs] and
    [recovery.rs] of the Windows resource crate: the
    durable journal file, its projection at startup, and the decision for every
    admission found in it.

    The store is the content of its file with the open handle and the write position;
    what the operating system answers to each call is an argument, [None] where it
    succeeds and the raw error code where it fails. A call on a store whose handle is
    gone panics, which is the outer [None]. SHA-256 is the variable [sha256] and the
    record codec the class [RecordCodec], as in [Journal] and [Admission]; the
    exclusive authority a recovery holds is a value without data and is left out. *)

From Stdlib Require Import NArith ZArith Strings.Byte Lia.
From S2P Require Import Prelude Identity Model Samples Journal Admission NativeError.

(** ** The journal store *)

(** win32-resource/journal_store.rs:31-39 [RecoverOutcome] *)
Inductive RecoverOutcome :=
  | RO_Clean (records : list JournalRecord)
  | RO_TornTail (records : list JournalRecord)
  | RO_Corrupt (offset : nat).

(** win32-resource/journal_store.rs:41-51 [WinJournalStore]: the content of the file,
    whether the handle is open, and the position. *)
Record WinJournalStore := MkWinJournalStore {
  ws_file : list byte;
  ws_open : bool;
  ws_write_pos : N;
}.

(** win32-resource/journal_store.rs:224-232 [io_native]: an I/O error has the code of
    the system, or none. *)
Definition io_native (context : string) (raw_os_error : option Z) : NativeError :=
  let code := match raw_os_error with
              | Some c => if (0 <=? c)%Z then Z.to_N c else 0%N
              | None => 0%N
              end in
  NativeError_from_win32 code context.

(** win32-resource/journal_store.rs:234-238 [win32_code] *)
Definition win32_code (error : option N) : N := default 0%N error.

(** The answer of one call: nothing, or the error. *)
Abbreviation answer := (option (option Z)).

(** win32-resource/journal_store.rs:54-83 [WinJournalStore::open]: [content] is what the
    file holds, nothing when it is created. *)
Definition store_open (secured : result NativeError ()) (opened : answer) (metadata : answer)
    (content : list byte) : result NativeError WinJournalStore :=
  _ ← secured;
  match opened, metadata with
  | Some e, _ => Err (io_native "journal_store: open" e)
  | None, Some e => Err (io_native "journal_store: metadata" e)
  | None, None => Ok (MkWinJournalStore content true (N.of_nat (length content)))
  end.

(** What the system answers to an append: a failed write has put some bytes down. *)
Record AppendIo := MkAppendIo {
  ap_write : option (nat * option Z);
  ap_flush : answer;
  ap_metadata : answer;
}.

(** win32-resource/journal_store.rs:95-116 [WinJournalStore::append_synced] *)
Definition append_synced (s : WinJournalStore) (record : JournalRecord) (io : AppendIo) :
    option (WinJournalStore * result NativeError N) :=
  let offset := ws_write_pos s in
  let bytes := encode record in
  if negb (ws_open s) then None
  else
    match ap_write io with
    | Some (k, e) =>
        Some (MkWinJournalStore (ws_file s ++ take k bytes) true (ws_write_pos s),
              Err (io_native "journal_store: append write" e))
    | None =>
        let file := ws_file s ++ bytes in
        match ap_flush io, ap_metadata io with
        | Some e, _ => Some (MkWinJournalStore file true (ws_write_pos s),
                             Err (io_native "journal_store: flush" e))
        | None, Some e => Some (MkWinJournalStore file true (ws_write_pos s),
                                Err (io_native "journal_store: metadata" e))
        | None, None => Some (MkWinJournalStore file true (N.of_nat (length file)), Ok offset)
        end
    end.

(** What the system answers to a compaction, call by call. *)
Record CompactIo := MkCompactIo {
  cm_temp_open : answer;
  cm_temp_write : answer;
  cm_temp_flush : answer;
  cm_replace : option (option N);
  cm_flush_directory : result NativeError ();
  cm_reopen : answer;
  cm_metadata : answer;
}.

(** win32-resource/journal_store.rs:139-195 [WinJournalStore::compact] *)
Definition compact (s : WinJournalStore) (keep_records : list JournalRecord) (io : CompactIo) :
    WinJournalStore * result NativeError () :=
  let buf := keep_records ≫= encode in
  match cm_temp_open io, cm_temp_write io, cm_temp_flush io with
  | Some e, _, _ => (s, Err (io_native "journal_store: compact temp open" e))
  | None, Some e, _ => (s, Err (io_native "journal_store: compact temp write" e))
  | None, None, Some e => (s, Err (io_native "journal_store: compact temp flush" e))
  | None, None, None =>
      let s := MkWinJournalStore (ws_file s) false (ws_write_pos s) in
      match cm_replace io with
      | Some e => (s, Err (NativeError_from_win32 (win32_code e) "journal_store: compact replace"))
      | None =>
          let s := MkWinJournalStore buf false (ws_write_pos s) in
          match cm_flush_directory io with
          | Err e => (s, Err e)
          | Ok _ =>
              match cm_reopen io, cm_metadata io with
              | Some e, _ => (s, Err (io_native "journal_store: compact reopen" e))
              | None, Some e => (s, Err (io_native "journal_store: metadata" e))
              | None, None => (MkWinJournalStore buf true (N.of_nat (length buf)), Ok ())
              end
          end
      end
  end.

(** ** Observed facts *)

(** win32-resource/native_observation.rs:11-25 [ObservedResource] *)
Record ObservedResource := MkObservedResource {
  obs_obligation : byte;
  obs_identity_digest : array 32;
  obs_fingerprint : array 32;
}.

(** win32-resource/native_observation.rs:27-29 [ObservedFingerprint] *)
Record ObservedFingerprint := MkObservedFingerprint { ObservedFingerprint_0 : array 32 }.

(** win32-resource/native_observation.rs:50-60 [NativeObservation::fingerprint] *)
Definition observed_fingerprint (facts : list ObservedResource) : ObservedFingerprint :=
  MkObservedFingerprint
    match facts with fact :: _ => obs_fingerprint fact | [] => array_fill 32 x00 end.

(** win32-resource/native_observation.rs:62-72 [NativeObservation::matches] *)
Definition observation_matches (observed : ObservedFingerprint) (applied : AppliedFingerprint) : bool :=
  bool_decide (MkAppliedFingerprint (ObservedFingerprint_0 observed) = applied).

(** ** Recovery *)

(** win32-resource/recovery.rs:31-61 [RecoveryAction] *)
Inductive RecoveryAction :=
  | RA_EffectUnknown (observed_fingerprint : ObservedFingerprint)
  | RA_CleanOwned (observed_fingerprint : ObservedFingerprint)
  | RA_DivergedNotOwned (observed_fingerprint : ObservedFingerprint)
  | RA_PriorOwnershipStale (observed_fingerprint : ObservedFingerprint).

(** win32-resource/recovery.rs:63-76 [ObligationRecovery] *)
Record ObligationRecovery := MkObligationRecovery {
  or_obligation : byte;
  or_applied_fingerprint : AppliedFingerprint;
  or_observed_fingerprint : ObservedFingerprint;
  or_action : RecoveryAction;
}.

(** win32-resource/recovery.rs:78-104 [RecoveryOutcome] *)
Inductive RecoveryOutcome :=
  | Recovery_ProvenClean (projection_digest : array 32)
  | Recovery_Pending (obligations : list ObligationRecovery) (projection_digest : array 32)
  | Recovery_ObservationFailed (obligation : byte)
  | Recovery_Corrupt (offset : nat).

(** win32-resource/recovery.rs:240-249 [observes] *)
Definition observes (admitted : MutationAdmitted) (fact : ObservedResource) : bool :=
  match digest_try_from MkResourceIdentityDigest (obs_identity_digest fact) with
  | Ok observed_identity => bool_decide (observed_identity = ma_resource_identity admitted)
  | Err _ => false
  end.

(** win32-resource/recovery.rs:172-213 [RecoveryEngine::recover]: the body of the loop
    for one admission; [Err] is the early return of an unobserved obligation. *)
Definition classify_admission (current : OwnershipVersion) (observed : list ObservedResource)
    (admitted : MutationAdmitted) : result byte ObligationRecovery :=
  let matched := base.filter (λ fact, observes admitted fact = true) observed in
  let obligation := match matched with fact :: _ => obs_obligation fact | [] => x00 end in
  let fingerprint := observed_fingerprint matched in
  action ←
    (if negb (bool_decide (ma_ownership_version admitted = current))
     then Ok (RA_PriorOwnershipStale fingerprint)
     else match matched with
          | [] => Err obligation
          | _ =>
              if negb (observation_matches fingerprint (ma_desired_applied_fingerprint admitted))
              then Ok (RA_DivergedNotOwned fingerprint)
              else match ma_authorization_subject admitted with
                   | RecoveryAuthority _ => Ok (RA_CleanOwned fingerprint)
                   | LiveOwnershipTokenDigest _ => Ok (RA_EffectUnknown fingerprint)
                   end
          end);
  Ok (MkObligationRecovery obligation (ma_desired_applied_fingerprint admitted) fingerprint action).

Section recovery.
Variable sha256 : list byte → array 32.
Context `{RecordCodec}.

(** win32-resource/journal_store.rs:118-137 [WinJournalStore::recover] *)
Definition store_recover (s : WinJournalStore) (seek read : answer) :
    option (result NativeError RecoverOutcome) :=
  if negb (ws_open s) then None
  else
    match seek, read with
    | Some e, _ => Some (Err (io_native "journal_store: seek" e))
    | None, Some e => Some (Err (io_native "journal_store: read" e))
    | None, None =>
        outcome ← decode sha256 (ws_file s);
        Some (Ok match outcome with
                 | Clean records => RO_Clean records
                 | TornTail records => RO_TornTail records
                 | Corrupt _ offset => RO_Corrupt offset
                 end)
    end.

(** What the system answers to a projection of the journal with the given content. *)
Record ProjectIo := MkProjectIo {
  pj_secured : result NativeError ();
  pj_open : answer;
  pj_metadata : answer;
  pj_seek : answer;
  pj_read : answer;
}.

(** win32-resource/journal_projection.rs:152-170 [JournalProjection::project]: the
    outcome of the store under the names of [ProjectionOutcome] (lines 21-35), which
    has the same variants. *)
Definition project (content : list byte) (io : ProjectIo) : option (result NativeError RecoverOutcome) :=
  match store_open (pj_secured io) (pj_open io) (pj_metadata io) content with
  | Err e => Some (Err e)
  | Ok store => store_recover store (pj_seek io) (pj_read io)
  end.

(** win32-resource/journal_projection.rs:172-184 [JournalProjection::projection_digest] *)
Definition projection_digest (records : list JournalRecord) : array 32 :=
  sha256 (records ≫= encode).

(** win32-resource/recovery.rs:228-238 [decode_admission] *)
Definition decode_admission (payload : list byte) : option MutationAdmitted :=
  match codec_decode payload with Ok (AR_Admitted admitted) => Some admitted | _ => None end.

(** win32-resource/recovery.rs:170-213 [RecoveryEngine::recover]: the loop. *)
Fixpoint classify_records (current : OwnershipVersion) (observed : list ObservedResource)
    (records : list JournalRecord) : result byte (list ObligationRecovery) :=
  match records with
  | [] => Ok []
  | record :: records =>
      match decode_admission (jr_payload record) with
      | None => classify_records current observed records
      | Some admitted =>
          d ← classify_admission current observed admitted;
          ds ← classify_records current observed records;
          Ok (d :: ds)
      end
  end.

(** win32-resource/recovery.rs:129-225 [RecoveryEngine::recover] *)
Definition recover (content : list byte) (io : ProjectIo) (current : OwnershipVersion)
    (observed : list ObservedResource) : option (result NativeError RecoveryOutcome) :=
  projected ← project content io;
  match projected with
  | Err e => Some (Err e)
  | Ok (RO_Corrupt offset) => Some (Ok (Recovery_Corrupt offset))
  | Ok (RO_Clean records | RO_TornTail records) =>
      let digest := projection_digest records in
      Some (Ok match classify_records current observed records with
               | Err obligation => Recovery_ObservationFailed obligation
               | Ok [] => Recovery_ProvenClean digest
               | Ok obligations => Recovery_Pending obligations digest
               end)
  end.
End recovery.

(** ** What a decision may rest on *)

(** [fact] is an observation of the resource of the admission. *)
Definition observed_of (observed : list ObservedResource) (a : MutationAdmitted)
    (fact : ObservedResource) : Prop :=
  fact ∈ observed ∧ MkResourceIdentityDigest (obs_identity_digest fact) = ma_resource_identity a.

(** The decision [d] on the admission [a] is justified by the journal and the facts. *)
Definition decision_ok (current : OwnershipVersion) (observed : list ObservedResource)
    (a : MutationAdmitted) (d : ObligationRecovery) : Prop :=
  or_applied_fingerprint d = ma_desired_applied_fingerprint a ∧
  match or_action d with
  | RA_PriorOwnershipStale _ => ma_ownership_version a ≠ current
  | RA_DivergedNotOwned _ =>
      ma_ownership_version a = current ∧
      ∃ fact, observed_of observed a fact ∧
        MkAppliedFingerprint (obs_fingerprint fact) ≠ ma_desired_applied_fingerprint a
  | RA_CleanOwned _ =>
      ma_ownership_version a = current ∧
      (∃ id, ma_authorization_subject a = RecoveryAuthority id) ∧
      ∃ fact, observed_of observed a fact ∧ or_obligation d = obs_obligation fact ∧
        MkAppliedFingerprint (obs_fingerprint fact) = ma_desired_applied_fingerprint a
  | RA_EffectUnknown _ =>
      ma_ownership_version a = current ∧
      (∃ token, ma_authorization_subject a = LiveOwnershipTokenDigest token) ∧
      ∃ fact, observed_of observed a fact ∧
        MkAppliedFingerprint (obs_fingerprint fact) = ma_desired_applied_fingerprint a
  end.

Definition unobserved (current : OwnershipVersion) (observed : list ObservedResource)
    (a : MutationAdmitted) : Prop :=
  ma_ownership_version a = current ∧ ∀ fact, ¬ observed_of observed a fact.

Lemma observes_spec observed a fact :
  fact ∈ base.filter (λ fact, observes a fact = true) observed ↔ observed_of observed a fact.
Proof.
  rewrite list_elem_of_filter. unfold observes, observed_of, digest_try_from.
  rewrite bool_decide_eq_true. tauto.
Qed.

Lemma classify_admission_ok current observed a :
  match classify_admission current observed a with
  | Ok d => decision_ok current observed a d ∧ ¬ unobserved current observed a
  | Err _ => unobserved current observed a
  end.
Proof.
  unfold classify_admission, unobserved.
  assert (Hf := λ fact, observes_spec observed a fact). revert Hf.
  generalize (base.filter (λ fact, observes a fact = true) observed). intros matched Hf.
  case_bool_decide as Hv; simpl; [|by split; [split|intros [? _]]].
  destruct matched as [|fact rest].
  { split; [done|]. intros fact Hfact%Hf. by apply elem_of_nil in Hfact. }
  assert (observed_of observed a fact) as Hfact by (apply Hf; left).
  assert (¬ (ma_ownership_version a = current ∧ ∀ fact, ¬ observed_of observed a fact)) as Hnot
    by (intros [_ Hno]; by eapply Hno).
  unfold observation_matches. simpl. case_bool_decide as Hm; simpl.
  - destruct (ma_authorization_subject a) eqn:Hsub; simpl; (split; [|done]);
      unfold decision_ok; simpl; eauto 10.
  - split; [|done]. unfold decision_ok. simpl. eauto 10.
Qed.

Section recovery_properties.
Variable sha256 : list byte → array 32.
Context `{RecordCodec}.

(** The admissions of a journal. *)
Definition admissions (records : list JournalRecord) : list MutationAdmitted :=
  omap (λ r, match codec_decode (jr_payload r) with Ok (AR_Admitted a) => Some a | _ => None end) records.

(** The decision for a list of admissions, all of them or none. *)
Definition classify_all (current : OwnershipVersion) (observed : list ObservedResource)
    (l : list MutationAdmitted) : result byte (list ObligationRecovery) :=
  mapM (classify_admission current observed) l.

Lemma classify_records_all current observed records :
  classify_records current observed records = classify_all current observed (admissions records).
Proof.
  unfold classify_all, admissions. induction records as [|r rs IH]; simpl; [done|]. unfold decode_admission at 1.
  destruct (codec_decode (jr_payload r)) as [[a| |]|]; simpl; try done.
  destruct (classify_admission current observed a) as [d|]; simpl; [|done]. by rewrite IH.
Qed.

Lemma classify_all_ok current observed l :
  match classify_all current observed l with
  | Ok ds => Forall2 (decision_ok current observed) l ds ∧ Forall (λ a, ¬ unobserved current observed a) l
  | Err _ => Exists (unobserved current observed) l
  end.
Proof.
  unfold classify_all. induction l as [|a l IH]; simpl; [by split; constructor|].
  pose proof (classify_admission_ok current observed a) as Ha.
  destruct (classify_admission current observed a) as [d|]; simpl; [|by constructor].
  destruct (mapM _ l) as [ds|]; simpl; [|by apply Exists_cons_tl].
  split; constructor; naive_solver.
Qed.

(** The records a journal can be read to: valid ones, and what follows them, if anything,
    does not start with another whole valid record. *)
Definition readable (content : list byte) (records : list JournalRecord) (rest : list byte) : Prop :=
  content = encode_all records ++ rest ∧ Forall (record_ok sha256) records ∧
  ∀ r more, record_ok sha256 r → rest ≠ encode r ++ more.

Lemma decode_loop_extends fuel bytes : ∀ recs off o,
  decode_loop sha256 fuel bytes recs off = Some o → ∃ more, outcome_records o = recs ++ more.
Proof.
  induction fuel as [|fuel IH]; intros recs off o; [done|]. cbn [decode_loop].
  destruct (off <? length bytes); [|intros [= <-]; exists []; by rewrite app_nil_r].
  intros ([| |r next] & _ & Ho)%bind_Some; [injection Ho as <-; exists []; by rewrite app_nil_r..|].
  apply IH in Ho as [more ->]. rewrite <-app_assoc. by eexists.
Qed.
Lemma decode_maximal content o r more :
  decode sha256 content = Some o → Forall (record_ok sha256) (outcome_records o) → record_ok sha256 r →
  content ≠ encode_all (outcome_records o) ++ encode r ++ more.
Proof.
  intros Ho Hok Hr Hc. set (rs := outcome_records o ++ [r]).
  assert (content = [] ++ encode_all rs ++ more) as Hc'.
  { rewrite Hc. unfold rs, encode_all. rewrite bind_app. cbn [mbind list_bind app]. by rewrite app_nil_r, <-app_assoc. }
  assert (length rs ≤ S (length content)) as Hl.
  { pose proof (length_encode_all rs). rewrite Hc', !length_app. lia. }
  unfold decode in Ho. replace (S (length content)) with (length rs + (S (length content) - length rs)) in Ho by lia.
  rewrite Hc' in Ho at 2. rewrite (decode_loop_encode_all sha256 rs _ [] more []) in Ho by (apply Forall_app; split; [done|by constructor]).
  apply decode_loop_extends in Ho as [k Hk]. apply (f_equal length) in Hk. unfold rs in Hk.
  rewrite !length_app in Hk. simpl in Hk. lia.
Qed.
Lemma decode_readable content : ∃ o rest, decode sha256 content = Some o ∧ readable content (outcome_records o) rest ∧
  match o with Corrupt rs offset => rest ≠ [] ∧ offset = length (encode_all rs) | _ => True end.
Proof.
  destruct (decode_loop_sound sha256 (S (length content)) content [] 0) as (o & Hd & Hok & Ho);
    simpl; [lia|lia|done|constructor|].
  assert (∃ rest, content = encode_all (outcome_records o) ++ rest ∧
    match o with Corrupt rs offset => rest ≠ [] ∧ offset = length (encode_all rs) | _ => True end) as (rest & Hc & Hrest).
  { destruct o as [rs|rs|rs off]; simpl; [exists []; by rewrite app_nil_r|naive_solver..]. }
  exists o, rest. split; [done|]. split; [|done]. split; [done|]. split; [done|].
  intros r more Hr ->. by eapply decode_maximal.
Qed.

(** The system answers every call of a projection. *)
Definition answered (io : ProjectIo) : Prop :=
  is_ok (pj_secured io) = true ∧ pj_open io = None ∧ pj_metadata io = None ∧ pj_seek io = None ∧ pj_read io = None.

(** A store that is opened and read is decoded to the records its content starts with. *)
Lemma project_sound content io :
  match project sha256 content io with
  | Some (Ok (RO_Clean rs)) | Some (Ok (RO_TornTail rs)) => ∃ rest, readable content rs rest
  | Some (Ok (RO_Corrupt offset)) =>
      ∃ rs rest, readable content rs rest ∧ rest ≠ [] ∧ offset = length (encode_all rs)
  | Some (Err _) => ¬ answered io
  | None => False
  end.
Proof.
  unfold project, store_open, store_recover, answered.
  destruct (pj_secured io), (pj_open io), (pj_metadata io); simpl; try naive_solver.
  destruct (pj_seek io), (pj_read io); simpl; try naive_solver.
  destruct (decode_readable content) as (o & rest & -> & Hr & Ho). simpl.
  destruct o as [rs|rs|rs off]; [by exists rest..|]. by exists rs, rest.
Qed.

(** C33: Recovery cleans only what is provably its own. It reads all of the journal that can
    be read: the valid records up to where no whole valid record follows. Whenever it
    reaches decisions, there is exactly one per admission among them, in journal order, and
    each is justified: cleanup is granted only to an admission of the current ownership
    version, authorized by a durable retirement identity, whose resource was observed
    with exactly the fingerprint it was to have; a resource observed with another
    fingerprint is left alone, a live-token admission is never replayed, and an older
    version is history. It claims a clean state only when none of them is an admission,
    gives up only when a current admission's resource was not observed, reports
    corruption only with bytes behind them, and fails only if the system does. *)
Theorem recovery_cleans_only_owned content io current observed :
  match recover sha256 content io current observed with
  | Some (Ok (Recovery_Pending ds digest)) =>
      ∃ records rest, readable content records rest ∧ admissions records ≠ [] ∧
        digest = sha256 (encode_all records) ∧
        Forall2 (decision_ok current observed) (admissions records) ds
  | Some (Ok (Recovery_ProvenClean digest)) =>
      ∃ records rest, readable content records rest ∧ admissions records = [] ∧
        digest = sha256 (encode_all records)
  | Some (Ok (Recovery_ObservationFailed _)) =>
      ∃ records rest, readable content records rest ∧
        Exists (unobserved current observed) (admissions records)
  | Some (Ok (Recovery_Corrupt offset)) =>
      ∃ records rest, readable content records rest ∧ rest ≠ [] ∧
        offset = length (encode_all records)
  | Some (Err _) => ¬ answered io
  | None => False
  end.
Proof.
  unfold recover. pose proof (project_sound content io) as Hp.
  destruct (project sha256 content io) as [[[rs|rs|off]|e]|]; simpl; [..|done|done].
  1,2: destruct Hp as [rest Hc]; rewrite classify_records_all;
    pose proof (classify_all_ok current observed (admissions rs)) as Hall;
    destruct (classify_all _ _ _) as [[|d ds]|]; simpl; [destruct Hall as [HF _]..|eauto];
    [inversion HF; eauto|]; exists rs, rest; split_and!; [done| |done..];
    intros E; rewrite E in HF; inversion HF.
  destruct Hp as (rs & rest & ?). eauto.
Qed.

(** ** Recovery after a crash *)

Definition append_ok : AppendIo := MkAppendIo None None None.
Definition project_ok : ProjectIo := MkProjectIo (Ok ()) None None None None.

(** Records appended one after the other, each of them synced. *)
Fixpoint append_each (s : WinJournalStore) (records : list JournalRecord) : option WinJournalStore :=
  match records with
  | [] => Some s
  | r :: records =>
      match append_synced s r append_ok with
      | Some (s, Ok _) => append_each s records
      | _ => None
      end
  end.

Lemma append_each_file s records :
  ws_open s = true →
  ∃ s', append_each s records = Some s' ∧ ws_open s' = true ∧
    ws_file s' = ws_file s ++ encode_all records.
Proof.
  revert s. induction records as [|r rs IH]; intros s Ho; simpl.
  - exists s. by rewrite app_nil_r.
  - unfold append_synced. rewrite Ho. simpl.
    edestruct IH as (s' & -> & ? & Hf); [|exists s'; split_and!; [done..|]]; [done|].
    rewrite Hf. simpl. unfold encode_all. simpl. by rewrite <-app_assoc.
Qed.

Definition ar_admitted (r : AdmissionRecord) : option MutationAdmitted :=
  match r with AR_Admitted a => Some a | _ => None end.

Lemma admissions_appended ars : ∀ seq prev,
  Forall codec_faithful ars →
  admissions (append_all sha256 seq prev (codec_encode <$> ars)) = omap ar_admitted ars.
Proof.
  induction ars as [|ar ars IH]; intros seq prev Hf; [done|].
  apply Forall_cons in Hf as [Ha Hf]. unfold admissions. simpl.
  rewrite Ha. destruct ar; simpl; f_equal; apply IH; done.
Qed.

Lemma torn_outcome_cut rs r k :
  torn_outcome rs r k =
  if (45 <=? k) && (k <? 45 + length (jr_payload r)) then Corrupt rs (length (encode_all rs))
  else if k =? 0 then Clean rs else TornTail rs.
Proof.
  unfold torn_outcome. destruct (Nat.eqb_spec k 0) as [->|]; [done|].
  destruct (Nat.leb_spec 45 k), (Nat.ltb_spec k 45); try lia; [|done].
  by destruct (k <? 45 + length (jr_payload r)).
Qed.

(** The verdict over the records, when the journal is readable. *)
Definition verdict (current : OwnershipVersion) (observed : list ObservedResource)
    (records : list JournalRecord) (admitted : list MutationAdmitted) : RecoveryOutcome :=
  match classify_all current observed admitted with
  | Err obligation => Recovery_ObservationFailed obligation
  | Ok [] => Recovery_ProvenClean (projection_digest sha256 records)
  | Ok ds => Recovery_Pending ds (projection_digest sha256 records)
  end.

(** A crash during an append costs at most the record being written. Take any
    admission records the codec reproduces, append them to a fresh journal, and let
    the next append fail after any number of bytes of its frame. Recovery of the file
    then decides on exactly the admissions among the records that were synced, with
    the digest over exactly those records, except when the cut lies inside the
    payload of the torn frame: then it reports corruption at that frame and decides
    nothing. *)
Theorem recovery_after_crash ars r k e current observed :
  Forall codec_faithful ars → in_u64 (N.of_nat (length ars)) →
  Forall (λ p, (N.of_nat (length p) ≤ MAX_PAYLOAD_LEN)%N) (codec_encode <$> ars) →
  record_ok sha256 r → k < length (encode r) →
  let records := append_all sha256 0 (array_fill 32 x00) (codec_encode <$> ars) in
  ∃ s crashed err,
    append_each (MkWinJournalStore [] true 0) records = Some s ∧
    append_synced s r (MkAppendIo (Some (k, e)) None None) = Some (crashed, Err err) ∧
    recover sha256 (ws_file crashed) project_ok current observed =
      Some (Ok (if (45 <=? k) && (k <? 45 + length (jr_payload r))
                then Recovery_Corrupt (length (encode_all records))
                else verdict current observed records (omap ar_admitted ars))).
Proof.
  intros Hf Hn Hp Hr Hk records. set (cut := (45 <=? k) && (k <? 45 + length (jr_payload r))).
  destruct (append_each_file (MkWinJournalStore [] true 0) records) as (s & Hs & Ho & Hfile); [done|].
  exists s. unfold append_synced. rewrite Ho. simpl. eexists _, _. split_and!; [done..|].
  simpl in Hfile. rewrite Hfile.
  unfold recover, project, store_open, store_recover. simpl.
  assert (Forall (record_ok sha256) records) as Hok.
  { apply append_all_records_ok; [by rewrite length_fmap|done]. }
  destruct (decode_torn_write sha256 records r k Hok Hr Hk) as [-> _].
  rewrite <-(admissions_appended ars 0 (array_fill 32 x00) Hf). fold records.
  unfold verdict. rewrite torn_outcome_cut, <-classify_records_all. fold cut.
  by destruct cut, (k =? 0).
Qed.
End recovery_properties.

(** ** Witnesses and deviations *)

(** A codec on which records are told apart by the bytes they were given: it knows
    the one record of the journal below. *)
Definition sample_admitted (subject : AuthorizationSubject) : MutationAdmitted :=
  MkMutationAdmitted MK_Retirement (JOI_Retirement (MkRetirementOperationId (uu x31)))
    (MkEffectId (uu x32)) (MkCanonicalInputDigest (dg x33)) (MkPrincipalDigest (dg x09))
    (MkAuthorityEpoch 1) (MkPlatformAuthorityInstanceId (uu x0a)) (MkAdmissionWatermark 0)
    (sample_version 3) subject (sample_rid x07) (MkAppliedFingerprint (dg x44))
    (MkAppliedFingerprint (dg x55)) (MkObligationSeed (dg x66)).
Definition sample_owned : AdmissionRecord :=
  AR_Admitted (sample_admitted (RecoveryAuthority (MkRetirementOperationId (uu x31)))).

#[local] Instance sample_codec : RecordCodec := {
  codec_encode r := [x01];
  codec_decode l := match l with [x01] => Ok sample_owned | _ => Err CodecCorrupt end;
}.

Definition sample_facts : list ObservedResource := [MkObservedResource x04 (dg x07) (dg x55)].

(** A journal with one owned admission, and a crash in the header of the next frame. *)
Lemma recovery_after_crash_witness :
  ∃ s crashed err ds digest,
    append_synced s (JournalRecord_new toy_sha256 1 (dg x01) [x64; x65])
      (MkAppendIo (Some (20, None)) None None) = Some (crashed, Err err) ∧
    recover toy_sha256 (ws_file crashed) project_ok (sample_version 3) sample_facts =
      Some (Ok (Recovery_Pending ds digest)) ∧
    or_action <$> ds = [RA_CleanOwned (MkObservedFingerprint (dg x55))].
Proof.
  destruct (recovery_after_crash toy_sha256 [sample_owned]
    (JournalRecord_new toy_sha256 1 (dg x01) [x64; x65]) 20 None (sample_version 3) sample_facts)
    as (s & crashed & err & _ & Ha & Hr).
  - repeat constructor.
  - reflexivity.
  - repeat constructor. vm_compute. discriminate.
  - split; [reflexivity|]. split; [vm_compute; discriminate|reflexivity].
  - apply Nat.ltb_lt. vm_compute. reflexivity.
  - eexists s, crashed, err, _, _. split; [exact Ha|]. split; [exact Hr|]. reflexivity.
Defined.

(** A compaction whose replacement fails has closed the handle already: the file is
    untouched, but the next append to the store panics. *)
Example failed_compaction_breaks_store :
  let s := MkWinJournalStore (encode_all sample_journal) true 0 in
  let io := MkCompactIo None None None (Some (Some 5%N)) (Ok ()) None None in
  let '(s', r) := compact s [] io in
  ws_file s' = ws_file s ∧ is_ok r = false ∧
  append_synced s' (JournalRecord_new toy_sha256 3 (dg x01) []) append_ok = None.
Proof. split_and!; reflexivity. Qed.

(** A crash that leaves part of the payload of the last frame is not read as a torn
    tail: the one synced record is not recovered either. *)
Example torn_payload_blocks_recovery :
  let r := JournalRecord_new toy_sha256 1 (dg x01) [x64; x65] in
  recover toy_sha256 (encode_all (append_all toy_sha256 0 (dg x00) [[x01]]) ++ take 46 (encode r))
    project_ok (sample_version 3) sample_facts = Some (Ok (Recovery_Corrupt 78)).
Proof. vm_compute. reflexivity. Qed.
