(* ===== verification/Utf16.v ===== *)
(** * UTF-16 and lists of entries

    The encoding in which Windows keeps its strings, with the byte layout of the
    registry, and the lists of entries separated by a character that several registry
    values hold: [encode_utf16] and [from_utf16] are inverse on Unicode texts, and
    splitting at a separator is described one character at a time. *)

From Stdlib Require Import NArith Strings.Byte Lia.
From S2P Require Import Prelude Text.

(** ** UTF-16 *)

(** [str::encode_utf16]. *)
Definition utf16_char (c : N) : list N :=
  (if c <? 0x10000 then [c]
   else [0xD800 + (c - 0x10000) / 1024; 0xDC00 + (c - 0x10000) mod 1024])%N.
Definition encode_utf16 (s : str) : list N := s ≫= utf16_char.

(** [String::from_utf16]: a surrogate that is not half of a pair is an error. *)
Fixpoint from_utf16 (l : list N) : option str :=
  match l with
  | [] => Some []
  | u :: l =>
      if in_range 0xD800 0xDBFF u then
        match l with
        | v :: l =>
            if in_range 0xDC00 0xDFFF v
            then cons (0x10000 + (u - 0xD800) * 1024 + (v - 0xDC00))%N <$> from_utf16 l
            else None
        | [] => None
        end
      else if in_range 0xDC00 0xDFFF u then None
      else cons u <$> from_utf16 l
  end.

(** [u16::to_le_bytes] of every unit, and [chunks_exact(2)] read back: an odd last byte
    is dropped. *)
Definition units_bytes (l : list N) : list byte := l ≫= le_bytes 2.
Fixpoint bytes_units (l : list byte) : list N :=
  match l with
  | a :: b :: l => be_val [b; a] :: bytes_units l
  | _ => []
  end.

Definition units_ok (l : list N) : Prop := Forall (λ u, (u < 0x10000)%N) l.

Lemma is_scalar_spec c :
  is_scalar c = true ↔ ((c < 0xD800)%N ∨ (0xE000 ≤ c < 0x110000)%N).
Proof. unfold is_scalar. rewrite orb_true_iff, andb_true_iff, !N.ltb_lt, N.leb_le. lia. Qed.

Lemma surrogates c : (0x10000 ≤ c < 0x110000)%N →
  in_range 0xD800 0xDBFF (0xD800 + (c - 0x10000) / 1024) = true ∧
  in_range 0xDC00 0xDFFF (0xDC00 + (c - 0x10000) mod 1024) = true ∧
  (0x10000 + (0xD800 + (c - 0x10000) / 1024 - 0xD800) * 1024
    + (0xDC00 + (c - 0x10000) mod 1024 - 0xDC00) = c)%N.
Proof.
  intros Hc. rewrite !in_range_spec.
  pose proof (N.div_mod (c - 0x10000) 1024 ltac:(lia)).
  pose proof (N.mod_lt (c - 0x10000) 1024 ltac:(lia)).
  assert ((c - 0x10000) / 1024 < 1024)%N by (apply N.Div0.div_lt_upper_bound; lia).
  generalize dependent ((c - 0x10000) / 1024)%N. intros q.
  generalize dependent ((c - 0x10000) mod 1024)%N. intros r.
  intros.
  split; [lia|]. split; [lia|]. lia.
Qed.

Lemma from_utf16_char c l : is_scalar c = true →
  from_utf16 (utf16_char c ++ l) = cons c <$> from_utf16 l.
Proof.
  intros Hc. apply is_scalar_spec in Hc. unfold utf16_char.
  destruct (N.ltb_spec c 0x10000) as [Hlt|Hge].
  - simpl. destruct (in_range 0xD800 0xDBFF c) eqn:E1; [apply in_range_spec in E1; lia|].
    destruct (in_range 0xDC00 0xDFFF c) eqn:E2; [apply in_range_spec in E2; lia|done].
  - destruct (surrogates c) as (H1 & H2 & H3); [lia|].
    cbn [app from_utf16]. by rewrite H1, H2, H3.
Qed.

Lemma from_utf16_encode s : str_ok s → from_utf16 (encode_utf16 s) = Some s.
Proof.
  induction 1 as [|c s Hc Hs IH]; [done|].
  unfold encode_utf16. rewrite bind_cons, from_utf16_char by done. fold (encode_utf16 s). by rewrite IH.
Qed.

Lemma encode_utf16_inj s t : str_ok s → str_ok t → encode_utf16 s = encode_utf16 t → s = t.
Proof. intros Hs Ht H. apply from_utf16_encode in Hs, Ht. congruence. Qed.

Lemma encode_utf16_units s : str_ok s → units_ok (encode_utf16 s).
Proof.
  intros Hs. apply Forall_bind. eapply Forall_impl; [exact Hs|]. intros c Hc%is_scalar_spec. unfold compose, utf16_char.
  destruct (N.ltb_spec c 0x10000).
  - apply Forall_singleton. done.
  - destruct (surrogates c) as (H1%in_range_spec & H2%in_range_spec & _); [lia|].
    rewrite Forall_cons, Forall_singleton. lia.
Qed.

Lemma pair_scalar u v : (0xD800 ≤ u ≤ 0xDBFF)%N → (0xDC00 ≤ v ≤ 0xDFFF)%N →
  let c := (0x10000 + (u - 0xD800) * 1024 + (v - 0xDC00))%N in
  is_scalar c = true ∧ utf16_char c = [u; v].
Proof.
  intros Hu Hv c. assert (c - 0x10000 = (u - 0xD800) * 1024 + (v - 0xDC00))%N as Hc by (unfold c; lia).
  split; [apply is_scalar_spec; unfold c; lia|].
  unfold utf16_char. destruct (N.ltb_spec c 0x10000); [unfold c in *; lia|].
  rewrite Hc, N.div_add_l, N.div_small, N.Div0.add_mod, N.Div0.mod_mul, N.add_0_l, N.Div0.mod_mod, N.mod_small
    by lia.
  f_equal; [lia|f_equal; lia].
Qed.

(** What decodes is the encoding of the text it decodes to. *)
Lemma encode_from_utf16 s : ∀ l, units_ok l → from_utf16 l = Some s → encode_utf16 s = l ∧ str_ok s.
Proof.
  induction s as [|c s IH]; intros l Hl H.
  - destruct l as [|u [|v l]]; [by split; [|constructor]|..]; simpl in H; repeat case_match; simplify_option_eq.
  - destruct l as [|u l]; [done|]. simpl in H. apply Forall_cons in Hl as [Hu Hl].
    destruct (in_range 0xD800 0xDBFF u) eqn:E1.
    + destruct l as [|v l]; [done|]. destruct (in_range 0xDC00 0xDFFF v) eqn:E2; [|done].
      apply in_range_spec in E1, E2. apply Forall_cons in Hl as [_ Hl].
      apply fmap_Some in H as (s' & Hs' & [= -> <-]).
      destruct (pair_scalar u v E1 E2) as [Hc Hcu]. apply IH in Hs' as [<- Hok]; [|done].
      split; [|by constructor]. unfold encode_utf16. rewrite bind_cons. by rewrite Hcu.
    + destruct (in_range 0xDC00 0xDFFF u) eqn:E2; [done|].
      apply in_range_false in E1, E2.
      apply fmap_Some in H as (s' & Hs' & [= -> <-]).
      apply IH in Hs' as [<- Hok]; [|done]. split.
      * unfold encode_utf16. rewrite bind_cons. unfold utf16_char at 1.
        by rewrite (proj2 (N.ltb_lt _ _) Hu).
      * constructor; [|done]. apply is_scalar_spec. lia.
Qed.

Lemma bytes_units_app u l : (u < 0x10000)%N → bytes_units (le_bytes 2 u ++ l) = u :: bytes_units l.
Proof.
  intros Hu. pose proof (be_val_be_bytes 2 u Hu) as H. pose proof (length_be_bytes 2 u) as Hlen.
  unfold le_bytes. destruct (be_bytes 2 u) as [|b [|a [|]]] eqn:E; try discriminate.
  cbn [reverse rev_append app]. simpl in *. f_equal. exact H.
Qed.
Lemma bytes_units_bytes l : units_ok l → bytes_units (units_bytes l) = l.
Proof.
  induction 1 as [|u l Hu Hl IH]; [done|].
  unfold units_bytes. rewrite bind_cons. rewrite bytes_units_app by done. by rewrite <-IH at 2.
Qed.
Lemma bytes_units_ok n : ∀ l, length l ≤ n → units_ok (bytes_units l).
Proof.
  induction n as [|n IH]; intros [|a [|b l]] Hl; simpl in *; try lia; try (by constructor).
  constructor; [|apply IH; lia]. apply (be_val_lt [b; a]).
Qed.
Lemma units_bytes_units n : ∀ l, length l ≤ n → Nat.even (length l) = true → units_bytes (bytes_units l) = l.
Proof.
  induction n as [|n IH]; intros [|a [|b l]] Hl He; simpl in *; try lia; try done.
  assert (le_bytes 2 (be_val [b; a]) = [a; b]) as H.
  { unfold le_bytes. pose proof (be_bytes_be_val [b; a]) as H. simpl length in H. by rewrite H. }
  transitivity (le_bytes 2 (be_val [b; a]) ++ units_bytes (bytes_units l)); [done|].
  by rewrite H, IH by (done || lia).
Qed.
Lemma length_units_bytes l : length (units_bytes l) = 2 * length l.
Proof.
  induction l as [|u l IH]; [done|]. unfold units_bytes in *. rewrite bind_cons, length_app, IH.
  unfold le_bytes. rewrite length_reverse, length_be_bytes. simpl. lia.
Qed.

(** ** Entries between separators *)

Lemma split_cons_sep c s : split_str [c] (c :: s) = [] :: split_str [c] s.
Proof. rewrite split_str_eq by done. simpl. by rewrite N.eqb_refl. Qed.

Lemma split_nil c : split_str [c] [] = [[]].
Proof. by rewrite split_str_eq. Qed.

(** A character that is not the separator goes to the first entry. *)
Lemma split_cons c d s : d ≠ c →
  ∃ h t, split_str [c] s = h :: t ∧ split_str [c] (d :: s) = (d :: h) :: t.
Proof.
  intros Hd. rewrite (split_str_eq [c] s), (split_str_eq [c] (d :: s)) by done.
  simpl find. destruct (N.eqb_spec c d); [by subst|]. simpl.
  destruct (find [c] s) as [i|]; simpl; eauto.
Qed.

Lemma split_fresh c w s : c ∉ w →
  ∃ h t, split_str [c] s = h :: t ∧ split_str [c] (w ++ s) = (w ++ h) :: t.
Proof.
  induction w as [|d w IH]; intros Hw.
  - simpl. rewrite (split_str_eq [c] s) by done. destruct (find [c] s); simpl; eauto.
  - apply not_elem_of_cons in Hw as [Hd Hw]. destruct (IH Hw) as (h & t & Hs & Hws).
    destruct (split_cons c d (w ++ s)) as (h' & t' & Hs' & Hd'); [congruence|].
    rewrite Hws in Hs'. injection Hs' as <- <-. exists h, t. eauto.
Qed.

Lemma split_snoc c w : c ∉ w → ∀ s,
  ∃ t h, split_str [c] s = t ++ [h] ∧ split_str [c] (s ++ w) = t ++ [h ++ w].
Proof.
  intros Hw s. induction s as [|d s (t & h & IH1 & IH2)].
  - exists [], []. rewrite split_nil. split; [done|]. destruct (split_fresh c w [] Hw) as (h & t & Hs & Hws).
    rewrite split_nil in Hs. injection Hs as <- <-. by rewrite !app_nil_r in Hws.
  - destruct (decide (d = c)) as [->|Hd].
    + exists ([] :: t), h. simpl. by rewrite !split_cons_sep, IH1, IH2.
    + destruct (split_cons c d s Hd) as (h1 & t1 & Hs1 & Hd1).
      destruct (split_cons c d (s ++ w) Hd) as (h2 & t2 & Hs2 & Hd2).
      simpl. rewrite Hd1, Hd2. rewrite IH1 in Hs1. rewrite IH2 in Hs2.
      destruct t as [|t0 t]; simplify_eq/=.
      * by exists [], (d :: h1).
      * by exists ((d :: h1) :: t), h.
Qed.

Lemma split_no_sep c s : Forall (λ e, c ∉ e) (split_str [c] s).
Proof.
  induction s as [|d s IH].
  - rewrite split_nil. repeat constructor. set_solver.
  - destruct (decide (d = c)) as [->|Hd].
    + rewrite split_cons_sep. constructor; [set_solver|done].
    + destruct (split_cons c d s Hd) as (h & t & Hs & ->). rewrite Hs in IH.
      apply Forall_cons in IH as [Hh Ht]. constructor; [set_solver|done].
Qed.

Lemma split_elem c s : ∀ e d, e ∈ split_str [c] s → d ∈ e → d ∈ s.
Proof.
  induction s as [|x s IH]; intros e d He Hd.
  - rewrite split_nil in He. apply list_elem_of_singleton in He as ->. done.
  - apply elem_of_cons. destruct (decide (x = c)) as [->|Hx].
    + rewrite split_cons_sep in He. apply elem_of_cons in He as [->|He]; [by apply elem_of_nil in Hd|].
      right. by eapply IH.
    + destruct (split_cons c x s Hx) as (h & t & Hst & Hst'). rewrite Hst' in He. rewrite Hst in IH.
      apply elem_of_cons in He as [->|He].
      * apply elem_of_cons in Hd as [->|Hd]; [by left|right]. eapply IH; [by left|done].
      * right. eapply IH; [by right|done].
Qed.

(** *** Trimming *)

Definition blank (w : str) : Prop := Forall (λ c, is_whitespace c = true) w.

Lemma trim_start_blank w s : blank w → trim_start (w ++ s) = trim_start s.
Proof. induction 1 as [|c w Hc Hw IH]; simpl; [done|]. by rewrite Hc. Qed.
Lemma trim_start_split s : ∃ w, blank w ∧ s = w ++ trim_start s.
Proof.
  induction s as [|c s (w & Hw & Hs)]; [exists []; by split; [constructor|]|]. simpl.
  destruct (is_whitespace c) eqn:E.
  - exists (c :: w). split; [by constructor|]. simpl. by f_equal.
  - exists []. by split; [constructor|].
Qed.
Lemma blank_reverse w : blank w → blank (reverse w).
Proof. intros H. by apply Forall_reverse. Qed.
Lemma trim_end_blank w s : blank w → trim_end (s ++ w) = trim_end s.
Proof. intros Hw. unfold trim_end. by rewrite reverse_app, trim_start_blank by by apply blank_reverse. Qed.
Lemma trim_end_split s : ∃ w, blank w ∧ s = trim_end s ++ w.
Proof.
  destruct (trim_start_split (reverse s)) as (w & Hw & Hs). exists (reverse w).
  split; [by apply blank_reverse|]. unfold trim_end.
  rewrite <-(reverse_involutive s) at 1. by rewrite Hs at 1; rewrite reverse_app.
Qed.
Lemma trim_start_head s : match trim_start s with [] => True | c :: _ => is_whitespace c = false end.
Proof. induction s as [|c s IH]; simpl; [done|]. by destruct (is_whitespace c) eqn:E. Qed.
Lemma trim_end_last s : match last (trim_end s) with Some c => is_whitespace c = false | None => True end.
Proof.
  unfold trim_end. pose proof (trim_start_head (reverse s)) as H.
  destruct (trim_start (reverse s)) as [|c t]; [done|]. by rewrite reverse_cons, last_snoc.
Qed.
Lemma trim_is_tight s : tight (trim s).
Proof.
  split; [|apply trim_end_last]. unfold trim. pose proof (trim_start_head s) as H.
  destruct (trim_end_split (trim_start s)) as (w & _ & Hs). rewrite Hs in H.
  by destruct (trim_end (trim_start s)).
Qed.
Lemma trim_end_trim_start s : trim_start (trim_end s) = trim_end (trim_start s).
Proof.
  destruct (trim_start_split s) as (w & Hw & Hs).
  destruct (trim_start s) as [|c t] eqn:E.
  - rewrite Hs. rewrite app_nil_r, <-(app_nil_l w), trim_end_blank by done. done.
  - pose proof (trim_start_head s) as Hc. rewrite E in Hc. rewrite Hs.
    destruct (trim_end_split (c :: t)) as (v & Hv & Ht).
    assert (∃ u, trim_end (c :: t) = c :: u) as (u & Hu).
    { destruct (trim_end (c :: t)) as [|d u]; [|simplify_eq/=; eauto].
      simpl in Ht. rewrite <-Ht in Hv. apply Forall_cons in Hv as [Hv _]. congruence. }
    rewrite Hu in Ht |- *. rewrite Ht, app_assoc, trim_end_blank by done.
    pose proof (trim_end_last (c :: t)) as Hl. rewrite Hu in Hl.
    destruct (exists_last (l := c :: u)) as (u' & d & Hd); [done|]. rewrite Hd in Hl |- *.
    rewrite last_snoc in Hl. rewrite app_assoc, trim_end_snoc, Hl, <-app_assoc, <-Hd.
    rewrite trim_start_blank by done. simpl. by rewrite Hc.
Qed.
Lemma trim_blank_l w s : blank w → trim (w ++ s) = trim s.
Proof. intros Hw. unfold trim. by rewrite trim_start_blank. Qed.
Lemma trim_blank_r w s : blank w → trim (s ++ w) = trim s.
Proof. intros Hw. unfold trim. by rewrite <-!trim_end_trim_start, trim_end_blank. Qed.
Lemma trim_split s : ∃ v w, blank v ∧ blank w ∧ s = v ++ trim s ++ w.
Proof.
  destruct (trim_start_split s) as (v & Hv & Hs). destruct (trim_end_split (trim_start s)) as (w & Hw & Ht).
  exists v, w. split_and!; [done..|]. unfold trim. by rewrite <-Ht.
Qed.

(** The entries of a text: its parts between separators without the white space around
    them, the empty ones left out. *)
Definition entries (c : N) (s : str) : list str := filter (λ e, e ≠ []) (trim <$> split_str [c] s).

Lemma trim_nil : trim [] = [].
Proof. done. Qed.

Lemma blank_fresh c w : is_whitespace c = false → blank w → c ∉ w.
Proof. intros Hc Hw Hin. eapply (proj1 (Forall_forall _ _) Hw) in Hin. simpl in Hin. congruence. Qed.

Lemma entries_trim c s : is_whitespace c = false → entries c (trim s) = entries c s.
Proof.
  intros Hc. destruct (trim_split s) as (v & w & Hv & Hw & Hs). rewrite Hs at 2. unfold entries.
  destruct (split_fresh c v (trim s ++ w)) as (h & t & H1 & H2); [by apply blank_fresh|].
  destruct (split_snoc c w (blank_fresh c w Hc Hw) (trim s)) as (t' & h' & H3 & H4).
  rewrite H2, fmap_cons, trim_blank_l by done. rewrite <-fmap_cons, <-H1, H4, H3.
  by rewrite !fmap_app, !list_fmap_singleton, trim_blank_r by done.
Qed.

Lemma trim_elem c s : c ∈ trim s → c ∈ s.
Proof. destruct (trim_split s) as (v & w & _ & _ & Hs). rewrite Hs at 2. set_solver. Qed.

Lemma entries_ok c s : Forall (λ e, e ≠ [] ∧ tight e ∧ c ∉ e) (entries c s).
Proof.
  apply Forall_forall. unfold entries. intros e [He Hin]%list_elem_of_filter.
  apply list_elem_of_fmap in Hin as (e' & -> & Hin). split_and!; [done|apply trim_is_tight|].
  intros Hc%trim_elem. by eapply (proj1 (Forall_forall _ _) (split_no_sep c s)) in Hin.
Qed.

(** Entries joined again are the same entries. *)
Lemma entries_join c l : Forall (λ e, e ≠ [] ∧ tight e ∧ c ∉ e) l → entries c (join [c] l) = l.
Proof.
  intros Hl. unfold entries. destruct l as [|e l]; [by rewrite split_nil|].
  rewrite split_join; [|done|by eapply Forall_impl; [exact Hl|intros ? (_ & _ & ?)]].
  assert (trim <$> e :: l = e :: l) as ->.
  { rewrite <-(list_fmap_id (e :: l)) at 2. apply list_fmap_ext. intros i x Hx.
    eapply Forall_lookup_1 in Hl as (_ & Ht & _); [|exact Hx]. by apply trim_tight. }
  induction Hl as [|x l' (Hx & _) Hl IH]; [done|]. by rewrite filter_cons_True, IH.
Qed.
