(* ===== verification/SystemProxy.v ===== *)
(** * The system proxy of a Windows user

    [system_proxy.rs] and [system_proxy_override.rs] of the Windows resource crate, less
    their access to the registry, which is in [Registry]: the five [Internet Settings]
    values of a user, their meaning, and the exemption list the tunnel adds to them. *)

From Stdlib Require Import NArith Strings.Byte Lia.
From S2P Require Import Prelude Text Utf16 NativeError.

(** ** Data *)

(** win32-resource/system_proxy.rs:46-55 [ProxyKind] *)
Inductive ProxyKind := PK_Http | PK_Secure | PK_Socks.

(** win32-resource/system_proxy.rs:35-44 [ProxyEndpoint] *)
Record ProxyEndpoint := MkProxyEndpoint { pe_kind : ProxyKind; pe_host : str; pe_port : N }.

(** win32-resource/system_proxy.rs:57-75 [RawValue] *)
Inductive RawValue :=
  | RV_Absent
  | RV_Dword (value : N)
  | RV_Sz (text : str)
  | RV_Other (type : N) (data : list byte).
#[export] Instance RawValue_eq_dec : EqDecision RawValue.
Proof. solve_decision. Defined.

(** win32-resource/system_proxy.rs:78-82 [RawValue::exists] *)
Definition rv_exists (v : RawValue) : bool := match v with RV_Absent => false | _ => true end.
(** win32-resource/system_proxy.rs:84-91 [RawValue::as_sz] *)
Definition as_sz (v : RawValue) : option str := match v with RV_Sz text => Some text | _ => None end.
(** win32-resource/system_proxy.rs:93-100 [RawValue::as_dword] *)
Definition as_dword (v : RawValue) : option N := match v with RV_Dword value => Some value | _ => None end.

(** win32-resource/system_proxy.rs:103-117 [RawInternetSettings] *)
Record RawInternetSettings := MkRaw {
  proxy_enable : RawValue;
  proxy_server : RawValue;
  proxy_override : RawValue;
  auto_config_url : RawValue;
  auto_detect : RawValue;
}.
#[export] Instance RawInternetSettings_eq_dec : EqDecision RawInternetSettings.
Proof. solve_decision. Defined.

(** win32-resource/system_proxy.rs:119-130 [SystemProxyMode] *)
Inductive SystemProxyMode := SPM_Disabled | SPM_Manual | SPM_Automatic | SPM_Mixed.
#[export] Instance SystemProxyMode_eq_dec : EqDecision SystemProxyMode.
Proof. solve_decision. Defined.

(** win32-resource/system_proxy.rs:132-146 [SystemProxySnapshot] *)
Record SystemProxySnapshot := MkSnapshot {
  sn_mode : SystemProxyMode;
  sn_endpoints : list ProxyEndpoint;
  sn_bypass_entries : list str;
  sn_pac_url : option str;
  sn_auto_discovery : bool;
}.

(** win32-resource/system_proxy.rs:149-157 [SystemProxySnapshot::is_present] *)
Definition is_present (s : SystemProxySnapshot) : bool := negb (bool_decide (sn_mode s = SPM_Disabled)).

(** win32-resource/system_proxy.rs:160-171 [TopologyKind] *)
Inductive TopologyKind := T0 | T1 | T2 | T3.

(** win32-resource/system_proxy.rs:224-234 [classify] *)
Definition classify_topology (proxy_present tunnel_present : bool) : TopologyKind :=
  match proxy_present, tunnel_present with
  | false, false => T0
  | true, false => T1
  | false, true => T2
  | true, true => T3
  end.

(** ** Reading the values *)

Definition SEMICOLON : N := 59.
Definition EQUALS : N := 61.
Definition COLON : N := 58.
Definition AT : N := 64.
Definition LBRACKET : N := 91.
Definition RBRACKET : N := 93.

(** The text of an error message: its UTF-8 bytes. *)
Definition message (s : str) : string := String.string_of_list_byte (utf8 s).

(** win32-resource/system_proxy.rs:18-21 [NATIVE_CODE_FLAG] *)
Definition NATIVE_CODE_FLAG : N := 0x80000000.
(** win32-resource/system_proxy.rs:351-358 [malformed] *)
Definition malformed (m : string) : NativeError :=
  MkNativeError NEK_Storage (N.lor NATIVE_CODE_FLAG 1) ("system_proxy_malformed: " +:+ m).
(** win32-resource/system_proxy.rs:360-367 [endpoint_invalid] *)
Definition endpoint_invalid (m : string) : NativeError :=
  MkNativeError NEK_Storage (N.lor NATIVE_CODE_FLAG 2) ("system_proxy_endpoint_invalid: " +:+ m).

(** [str::rsplit_once] at a character. *)
Definition rsplit_once (c : N) (s : str) : option (str * str) :=
  (λ p, (reverse p.2, reverse p.1)) <$> split_once c (reverse s).

(** win32-resource/system_proxy.rs:345-349 [parse_port] *)
Definition parse_port (text : str) : result NativeError N :=
  ok_or (parse_u16 text) (endpoint_invalid "端口不是 0..=65535 十进制数").

(** win32-resource/system_proxy.rs:310-343 [parse_endpoint] *)
Definition parse_endpoint (entry : str) : result NativeError ProxyEndpoint :=
  if contains [AT] entry then Err (endpoint_invalid "端点带凭据形式 user@host")
  else match strip_prefix [LBRACKET] entry with
  | Some rest =>
      match split_once RBRACKET rest with
      | None => Err (endpoint_invalid "IPv6 括号形式缺少 ']'")
      | Some (host, port_text) =>
          if bool_decide (host = []) then Err (endpoint_invalid "IPv6 括号内 host 为空")
          else match strip_prefix [COLON] port_text with
          | None => Err (endpoint_invalid "IPv6 括号形式缺少 ':port'")
          | Some port_text =>
              port ← parse_port port_text;
              Ok (MkProxyEndpoint PK_Http host port)
          end
      end
  | None =>
      match rsplit_once COLON entry with
      | None => Err (endpoint_invalid "端点缺少 ':port'")
      | Some (host, port_text) =>
          if contains [COLON] host || contains [LBRACKET] host || contains [RBRACKET] host
          then Err (endpoint_invalid "裸 IPv6 必须使用 [host]:port 括号形式")
          else if bool_decide (host = []) then Err (endpoint_invalid "端点 host 为空")
          else port ← parse_port port_text;
               Ok (MkProxyEndpoint PK_Http host port)
      end
  end.

(** The scheme of an entry: none is a segment to skip, an unknown one an error. *)
Definition scheme_kind (scheme : str) : result NativeError (option ProxyKind) :=
  if bool_decide (scheme = lit "http") then Ok (Some PK_Http)
  else if bool_decide (scheme ∈ [lit "https"; lit "secure"]) then Ok (Some PK_Secure)
  else if bool_decide (scheme ∈ [lit "socks"; lit "socks5"; lit "socks4"]) then Ok (Some PK_Socks)
  else if bool_decide (scheme = []) then Ok None
  else Err (malformed ("ProxyServer 含未知 scheme '" +:+ message scheme +:+ "'")).

(** win32-resource/system_proxy.rs:285-306 [endpoints_from]: the loop over the segments. *)
Fixpoint endpoint_entries (segments : list str) : result NativeError (list ProxyEndpoint) :=
  match segments with
  | [] => Ok []
  | entry :: segments =>
      let entry := trim entry in
      if bool_decide (entry = []) then endpoint_entries segments
      else match split_once EQUALS entry with
      | None => Err (malformed "ProxyServer 含 '=' 但某分段缺少 '='")
      | Some (scheme_text, endpoint_text) =>
          kind ← scheme_kind (to_ascii_lowercase (trim scheme_text));
          match kind with
          | None => endpoint_entries segments
          | Some kind =>
              endpoint ← parse_endpoint endpoint_text;
              out ← endpoint_entries segments;
              Ok (MkProxyEndpoint kind (pe_host endpoint) (pe_port endpoint) :: out)
          end
      end
  end.

(** win32-resource/system_proxy.rs:262-308 [endpoints_from] *)
Definition endpoints_from (raw : RawInternetSettings) : result NativeError (list ProxyEndpoint) :=
  match as_sz (proxy_server raw) with
  | None => Ok []
  | Some text =>
      let server := trim text in
      if bool_decide (server = []) then Ok []
      else if negb (contains [EQUALS] server) then
        endpoint ← parse_endpoint server;
        Ok [MkProxyEndpoint PK_Http (pe_host endpoint) (pe_port endpoint);
            MkProxyEndpoint PK_Secure (pe_host endpoint) (pe_port endpoint)]
      else endpoint_entries (split_str [SEMICOLON] server)
  end.

(** win32-resource/system_proxy.rs:247-260 [bypass_from] *)
Definition bypass_from (raw : RawInternetSettings) : list str :=
  match as_sz (proxy_override raw) with
  | Some text => filter (λ e, e ≠ []) (trim <$> split_str [SEMICOLON] text)
  | None => []
  end.

(** win32-resource/system_proxy.rs:236-245 [pac_url_from] *)
Definition pac_url_from (raw : RawInternetSettings) : option str :=
  text ← as_sz (auto_config_url raw);
  let trimmed := trim text in
  if bool_decide (trimmed = []) then None else Some trimmed.

(** A DWORD that is present and not zero. *)
Definition flag_set (v : RawValue) : bool := negb (default 0 (as_dword v) =? 0)%N.

(** win32-resource/system_proxy.rs:177-222 [snapshot_from_raw] *)
Definition snapshot_from_raw (raw : RawInternetSettings) : result NativeError SystemProxySnapshot :=
  let proxy_enabled := flag_set (proxy_enable raw) in
  let pac_url := pac_url_from raw in
  let auto_discovery := flag_set (auto_detect raw) in
  let bypass_entries := bypass_from raw in
  endpoints ← endpoints_from raw;
  let has_endpoints := negb (bool_decide (length endpoints = 0)) in
  if negb proxy_enabled && has_endpoints then
    Err (malformed "ProxyEnable=false 但 ProxyServer 解析出端点（fail-closed 不猜）")
  else
    let mode :=
      match has_endpoints, bool_decide (is_Some pac_url) || auto_discovery with
      | true, true => SPM_Mixed
      | true, false => SPM_Manual
      | false, true => SPM_Automatic
      | false, false => SPM_Disabled
      end in
    Ok (MkSnapshot mode endpoints bypass_entries pac_url auto_discovery).

(** ** The exemption list *)

(** win32-resource/system_proxy_override.rs:48-49 [MAX_MERGE_ENTRIES] *)
Definition MAX_MERGE_ENTRIES : nat := 512.
(** win32-resource/system_proxy_override.rs:51-52 [MAX_ENTRY_LEN] *)
Definition MAX_ENTRY_LEN : nat := 1024.
(** [str::len]: the number of UTF-8 bytes. *)
Definition str_len (s : str) : nat := length (utf8 s).

(** win32-resource/system_proxy_override.rs:54-63 [WildcardEntry] *)
Inductive WildcardEntry := WE_Exact (text : str) | WE_Wildcard (text : str).
(** win32-resource/system_proxy_override.rs:66-72 [WildcardEntry::as_str] *)
Definition entry_str (e : WildcardEntry) : str := match e with WE_Exact text | WE_Wildcard text => text end.

(** win32-resource/system_proxy_override.rs:75-96 [normalized_desired] *)
Definition normalized_desired (entry : str) : result NativeError str :=
  if contains [SEMICOLON] entry
  then Err (NativeError_from_win32 87 "system_proxy_entry_contains_semicolon")
  else if MAX_ENTRY_LEN <? str_len entry
  then Err (NativeError_from_win32 87 "system_proxy_entry_too_long")
  else if bool_decide (entry = []) then Err (NativeError_from_win32 87 "system_proxy_entry_empty")
  else Ok (to_ascii_lowercase entry).

(** [seen] and [merged], and the entry that goes to both unless its key was seen. *)
Abbreviation Merge := (list str * list str)%type.
Definition merge_push (key entry : str) (st : Merge) : Merge :=
  if bool_decide (key ∈ st.1) then st else (st.1 ++ [key], st.2 ++ [entry]).

(** win32-resource/system_proxy_override.rs:116-135 [merge_bypass_entries]: the loop over
    the original entries. *)
Fixpoint merge_original (segments : list str) (st : Merge) : result NativeError Merge :=
  match segments with
  | [] => Ok st
  | segment :: segments =>
      let segment := trim segment in
      if bool_decide (segment = []) then merge_original segments st
      else if MAX_ENTRY_LEN <? str_len segment
      then Err (NativeError_from_win32 87 "system_proxy_original_entry_too_long")
      else merge_original segments (merge_push (to_ascii_lowercase segment) segment st)
  end.

(** win32-resource/system_proxy_override.rs:137-143 [merge_bypass_entries]: the loop over
    the entries to add. *)
Fixpoint merge_desired (desired : list str) (st : Merge) : result NativeError Merge :=
  match desired with
  | [] => Ok st
  | entry :: desired =>
      key ← normalized_desired entry;
      merge_desired desired (merge_push key entry st)
  end.

(** win32-resource/system_proxy_override.rs:98-153 [merge_bypass_entries] *)
Definition merge_bypass_entries (original : str) (desired : list str) : result NativeError str :=
  st ← merge_original (split_str [SEMICOLON] (trim original)) ([], []);
  st ← merge_desired desired st;
  if MAX_MERGE_ENTRIES <? length (snd st)
  then Err (NativeError_from_win32 234 "system_proxy_merge_limit_exceeded")
  else Ok (join [SEMICOLON] (snd st)).

(** win32-resource/system_proxy_override.rs:210-229 [parse_ipv4_octets]: one part. *)
Definition parse_part (part : str) : option N :=
  if bool_decide (part = []) || (3 <? str_len part) || negb (forallb is_ascii_digit part) then None
  else if (1 <? str_len part) && starts_with [48%N] part then None
  else parse_u8 part.

(** win32-resource/system_proxy_override.rs:210-229 [parse_ipv4_octets] *)
Definition parse_ipv4_octets (s : str) : option (N * N * N * N) :=
  match split_str [46%N] s with
  | a :: b :: c :: d :: rest =>
      a ← parse_part a; b ← parse_part b; c ← parse_part c; d ← parse_part d;
      if bool_decide (rest = []) then Some (a, b, c, d) else None
  | _ => None
  end.

(** win32-resource/system_proxy_override.rs:174-208 [cidr_to_wildcard_opt] *)
Definition cidr_to_wildcard_opt (cidr : str) : option WildcardEntry :=
  p ← split_once 47 cidr;
  prefix ← parse_u8 p.2;
  if (32 <? prefix)%N then None
  else
    o ← parse_ipv4_octets p.1;
    let '(a, b, c, d) := o in
    let addr := (((a * 256 + b) * 256 + c) * 256 + d)%N in
    let host_bits := (32 - prefix)%N in
    (* [1u32.checked_shl(32)] is [None], read as 0; the subtraction wraps. *)
    let shifted := (if host_bits <? 32 then (N.shiftl 1 host_bits) else 0)%N in
    let mask := ((shifted + (2 ^ 32 - 1)) mod 2 ^ 32)%N in
    if (prefix <? 32)%N && negb (N.land addr mask =? 0)%N then Some (WE_Exact cidr)
    else if (prefix =? 8)%N then Some (WE_Wildcard (to_dec a ++ lit ".*"))
    else if (prefix =? 16)%N then Some (WE_Wildcard (to_dec a ++ lit "." ++ to_dec b ++ lit ".*"))
    else if (prefix =? 24)%N
    then Some (WE_Wildcard (to_dec a ++ lit "." ++ to_dec b ++ lit "." ++ to_dec c ++ lit ".*"))
    else Some (WE_Exact cidr).

(** win32-resource/system_proxy_override.rs:155-172 [cidr_to_wildcard] *)
Definition cidr_to_wildcard (cidr : str) : result NativeError WildcardEntry :=
  ok_or (cidr_to_wildcard_opt cidr) (NativeError_from_win32 87 "system_proxy_cidr_unparseable").

(** ** The merged list *)

Section merge_lemmas.
Definition same_entry (a b : str) : Prop := to_ascii_lowercase a = to_ascii_lowercase b.

(** The list with every entry once: a later one that differs only in case is left out. *)
Fixpoint nodup_ci (seen l : list str) : list str :=
  match l with
  | [] => []
  | e :: l =>
      let key := to_ascii_lowercase e in
      if bool_decide (key ∈ seen) then nodup_ci seen l else e :: nodup_ci (seen ++ [key]) l
  end.

Definition push_all (l : list str) (st : Merge) : Merge :=
  foldl (λ st e, merge_push (to_ascii_lowercase e) e st) st l.

Lemma push_all_spec l : ∀ seen merged, snd (push_all l (seen, merged)) = merged ++ nodup_ci seen l.
Proof.
  induction l as [|e l IH]; intros seen merged; simpl nodup_ci; [symmetry; apply app_nil_r|].
  change (push_all (e :: l) (seen, merged))
    with (push_all l (merge_push (to_ascii_lowercase e) e (seen, merged))).
  unfold merge_push. simpl fst. simpl snd at 2.
  case_bool_decide; rewrite IH; [done|by rewrite <-app_assoc].
Qed.
Lemma push_all_app l k st : push_all (l ++ k) st = push_all k (push_all l st).
Proof. apply foldl_app. Qed.

Definition original_ok (e : str) : Prop := str_len e ≤ MAX_ENTRY_LEN.
Definition desired_ok (e : str) : Prop := (SEMICOLON ∉ e) ∧ str_len e ≤ MAX_ENTRY_LEN ∧ e ≠ [].

Lemma merge_original_Ok segs : ∀ st st', merge_original segs st = Ok st' ↔
  Forall original_ok (filter (λ e, e ≠ []) (trim <$> segs)) ∧
  st' = push_all (filter (λ e, e ≠ []) (trim <$> segs)) st.
Proof.
  induction segs as [|e segs IH]; intros st st'; cbn [merge_original].
  - split; [intros [= ->]; by split; [constructor|]|by intros [_ ->]].
  - rewrite fmap_cons. case_bool_decide as He.
    + rewrite filter_cons_False by tauto. apply IH.
    + rewrite filter_cons_True by done. rewrite Forall_cons.
      destruct (Nat.ltb_spec MAX_ENTRY_LEN (str_len (trim e))) as [Hl|Hl].
      * split; [done|]. unfold original_ok at 1. intros [[? _] _]. lia.
      * rewrite IH. simpl. unfold original_ok at 2. tauto.
Qed.

Lemma contains_char c s : contains [c] s = true ↔ c ∈ s.
Proof.
  rewrite contains_true. split.
  - intros (pre & post & ->). set_solver.
  - intros (pre & post & ->)%list_elem_of_split. by exists pre, post.
Qed.
Lemma contains_char_false c s : contains [c] s = false ↔ c ∉ s.
Proof. rewrite <-contains_char. by destruct (contains [c] s). Qed.

Lemma normalized_desired_Ok e k : normalized_desired e = Ok k ↔ desired_ok e ∧ k = to_ascii_lowercase e.
Proof.
  unfold normalized_desired, desired_ok. rewrite <-contains_char.
  destruct (contains [SEMICOLON] e); [naive_solver|].
  destruct (Nat.ltb_spec MAX_ENTRY_LEN (str_len e)); [split; [done|lia]|].
  case_bool_decide; naive_solver.
Qed.

Lemma merge_desired_Ok l : ∀ st st', merge_desired l st = Ok st' ↔ Forall desired_ok l ∧ st' = push_all l st.
Proof.
  induction l as [|e l IH]; intros st st'; simpl.
  - split; [intros [= ->]; by split; [constructor|]|by intros [_ ->]].
  - rewrite bind_Ok, Forall_cons. setoid_rewrite normalized_desired_Ok.
    setoid_rewrite IH. naive_solver.
Qed.

(** The merge against its specification. *)
Lemma merge_Ok original desired m : merge_bypass_entries original desired = Ok m ↔
  let all := nodup_ci [] (entries SEMICOLON original ++ desired) in
  Forall original_ok (entries SEMICOLON original) ∧ Forall desired_ok desired ∧
  length all ≤ MAX_MERGE_ENTRIES ∧ m = join [SEMICOLON] all.
Proof.
  cbv zeta. rewrite <-(entries_trim SEMICOLON original) by done.
  unfold merge_bypass_entries. rewrite bind_Ok. setoid_rewrite bind_Ok.
  setoid_rewrite merge_original_Ok. setoid_rewrite merge_desired_Ok. fold (entries SEMICOLON (trim original)).
  pose proof (push_all_spec (entries SEMICOLON (trim original) ++ desired) [] []) as Hall.
  rewrite push_all_app in Hall. simpl in Hall.
  split.
  - intros (st1 & (Ho & ->) & st2 & (Hd & ->) & Hm). rewrite Hall in Hm.
    destruct (Nat.ltb_spec MAX_MERGE_ENTRIES (length (nodup_ci [] (entries SEMICOLON (trim original) ++ desired))));
      [done|]. by injection Hm as <-.
  - intros (Ho & Hd & Hl & ->). eexists. split; [by split|]. eexists. split; [by split|]. rewrite Hall.
    destruct (Nat.ltb_spec MAX_MERGE_ENTRIES (length (nodup_ci [] (entries SEMICOLON (trim original) ++ desired))));
      [lia|done].
Qed.

Lemma nodup_ci_sublist l : ∀ seen, nodup_ci seen l `sublist_of` l.
Proof.
  induction l as [|e l IH]; intros seen; simpl; [done|].
  case_bool_decide; [by apply sublist_cons|by apply sublist_skip].
Qed.
Lemma nodup_ci_keys l : ∀ seen k, k ∈ to_ascii_lowercase <$> nodup_ci seen l ↔
  (k ∉ seen) ∧ k ∈ to_ascii_lowercase <$> l.
Proof.
  induction l as [|e l IH]; intros seen k; cbn [nodup_ci]; [set_solver|].
  rewrite fmap_cons, elem_of_cons. case_bool_decide as Hs.
  - rewrite IH. set_solver.
  - rewrite fmap_cons, elem_of_cons, IH.
    destruct (decide (k = to_ascii_lowercase e)) as [->|]; set_solver.
Qed.
Lemma nodup_ci_NoDup l : ∀ seen, NoDup (to_ascii_lowercase <$> nodup_ci seen l).
Proof.
  induction l as [|e l IH]; intros seen; cbn [nodup_ci]; [constructor|].
  case_bool_decide; [done|]. rewrite fmap_cons. constructor; [|done].
  rewrite nodup_ci_keys. set_solver.
Qed.
(** A list without repetitions, and entries it already has, merge to it. *)
Lemma nodup_ci_seen l : ∀ seen, (∀ e, e ∈ l → to_ascii_lowercase e ∈ seen) → nodup_ci seen l = [].
Proof.
  induction l as [|e l IH]; intros seen Hl; simpl; [done|].
  rewrite bool_decide_true by set_solver. apply IH. set_solver.
Qed.
Lemma nodup_ci_again l k : ∀ seen, NoDup (seen ++ (to_ascii_lowercase <$> l)) →
  (∀ e, e ∈ k → to_ascii_lowercase e ∈ seen ++ (to_ascii_lowercase <$> l)) → nodup_ci seen (l ++ k) = l.
Proof.
  induction l as [|e l IH]; intros seen Hd Hk; simpl.
  - apply nodup_ci_seen. intros e He. specialize (Hk e He). simpl in Hk. by rewrite app_nil_r in Hk.
  - rewrite fmap_cons in Hd, Hk. rewrite bool_decide_false.
    + f_equal. apply IH; rewrite <-app_assoc; done.
    + apply NoDup_app in Hd as (_ & Hd & _). set_solver.
Qed.
End merge_lemmas.

Lemma Forall_sublist_of {A} (P : A → Prop) k l : Forall P l → k `sublist_of` l → Forall P k.
Proof. rewrite !Forall_forall. intros Hl Hk x Hx. apply Hl. by eapply elem_of_sublist. Qed.

(** Segments that are already entries give the same merge. *)
Lemma merge_original_entries segs : ∀ st,
  merge_original segs st = merge_original (filter (λ e, e ≠ []) (trim <$> segs)) st.
Proof.
  induction segs as [|e segs IH]; intros st; [done|].
  rewrite fmap_cons. cbn [merge_original]. case_bool_decide as He.
  - rewrite filter_cons_False by tauto. apply IH.
  - rewrite filter_cons_True by done. cbn [merge_original].
    rewrite (trim_tight (trim e)) by apply trim_is_tight. rewrite bool_decide_false by done.
    destruct (MAX_ENTRY_LEN <? str_len (trim e)); [done|]. apply IH.
Qed.

(** The entries of a list joined again merge like the list. *)
Lemma merge_rejoin text desired :
  merge_bypass_entries (join [SEMICOLON] (entries SEMICOLON text)) desired = merge_bypass_entries text desired.
Proof.
  unfold merge_bypass_entries. f_equal.
  rewrite (merge_original_entries (split_str _ (trim text))).
  rewrite (merge_original_entries (split_str _ (trim (join _ _)))).
  fold (entries SEMICOLON (trim text)) (entries SEMICOLON (trim (join [SEMICOLON] (entries SEMICOLON text)))).
  rewrite !entries_trim by done. by rewrite (entries_join SEMICOLON _ (entries_ok SEMICOLON text)).
Qed.

Lemma merged_entries original desired m : Forall tight desired →
  merge_bypass_entries original desired = Ok m →
  entries SEMICOLON m = nodup_ci [] (entries SEMICOLON original ++ desired).
Proof.
  intros Ht (Ho & Hd & Hl & ->)%merge_Ok. apply entries_join.
  eapply Forall_sublist_of; [|apply nodup_ci_sublist]. apply Forall_app. split; [apply entries_ok|].
  apply Forall_forall. intros e He. rewrite Forall_forall in Ht, Hd. destruct (Hd e He) as (? & _ & ?). eauto.
Qed.

(** After a merge the exemption list has every entry it had and every entry asked for,
    up to case, in the order they came in and each once; it stays within its limit, and
    merging the same entries again changes nothing. *)
Theorem merge_bypass_list original desired m :
  Forall tight desired → merge_bypass_entries original desired = Ok m →
  (∀ e, e ∈ entries SEMICOLON original ++ desired → ∃ e', e' ∈ entries SEMICOLON m ∧ same_entry e e') ∧
  entries SEMICOLON m `sublist_of` entries SEMICOLON original ++ desired ∧
  NoDup (to_ascii_lowercase <$> entries SEMICOLON m) ∧
  length (entries SEMICOLON m) ≤ MAX_MERGE_ENTRIES ∧
  merge_bypass_entries m desired = Ok m.
Proof.
  intros Ht Hm. pose proof (merged_entries _ _ _ Ht Hm) as He. rewrite He.
  pose proof Hm as (Ho & Hd & Hl & Hj)%merge_Ok.
  set (l := entries SEMICOLON original ++ desired) in *.
  assert (∀ e, e ∈ l → to_ascii_lowercase e ∈ to_ascii_lowercase <$> nodup_ci [] l) as Hin.
  { intros e Hel. rewrite nodup_ci_keys. split; [set_solver|]. by apply list_elem_of_fmap_2. }
  split_and!; [|apply nodup_ci_sublist|apply nodup_ci_NoDup|done|].
  - intros e Hel. apply Hin, list_elem_of_fmap in Hel as (e' & Heq & Hel). eauto.
  - apply merge_Ok. cbv zeta. rewrite He.
    assert (nodup_ci [] (nodup_ci [] l ++ desired) = nodup_ci [] l) as ->.
    { apply nodup_ci_again; [apply nodup_ci_NoDup|]. intros e Hel. apply Hin. unfold l. set_solver. }
    split_and!; [|done..]. eapply Forall_sublist_of; [|apply nodup_ci_sublist]. apply Forall_app. split; [done|].
    eapply Forall_impl; [exact Hd|]. by intros e (_ & ? & _).
Qed.

Lemma merge_bypass_list_witness :
  ∃ m, merge_bypass_entries (lit "Localhost; <local>;;localhost") [lit "10.*"; lit "LOCALHOST"] = Ok m ∧
    m = lit "Localhost;<local>;10.*" ∧ merge_bypass_entries m [lit "10.*"; lit "LOCALHOST"] = Ok m.
Proof.
  exists (lit "Localhost;<local>;10.*"). split; [vm_compute; reflexivity|]. split; [reflexivity|].
  apply (merge_bypass_list (lit "Localhost; <local>;;localhost") [lit "10.*"; lit "LOCALHOST"]).
  - repeat constructor.
  - vm_compute. reflexivity.
Defined.

(** ** Wildcards *)

Definition ip_num (a : Ipv4Addr) : N := be_val (octets a).
Definition in_network (net : Ipv4Addr) (p : N) (x : Ipv4Addr) : Prop :=
  N.shiftr (ip_num x) (32 - p) = N.shiftr (ip_num net) (32 - p).
Definition aligned (net : Ipv4Addr) (p : N) : Prop := (ip_num net mod 2 ^ (32 - p) = 0)%N.
#[export] Instance aligned_dec net p : Decision (aligned net p) := N.eq_dec _ _.
Definition cidr_text (net : Ipv4Addr) (p : N) : str := show_ipv4 net ++ 47%N :: to_dec p.

Lemma parse_part_to_dec b : parse_part (to_dec (byte_val b)) = Some (byte_val b).
Proof. destruct b; vm_compute; reflexivity. Qed.

Lemma show_ipv4_join a : show_ipv4 a =
  join [46%N] [to_dec (byte_val (ip_a a)); to_dec (byte_val (ip_b a)); to_dec (byte_val (ip_c a)); to_dec (byte_val (ip_d a))].
Proof. done. Qed.
Lemma parse_show_octets a : parse_ipv4_octets (show_ipv4 a) =
  Some (byte_val (ip_a a), byte_val (ip_b a), byte_val (ip_c a), byte_val (ip_d a)).
Proof.
  unfold parse_ipv4_octets. rewrite show_ipv4_join, split_join;
    [|done|repeat constructor; by apply to_dec_no_char].
  by rewrite !parse_part_to_dec.
Qed.
Lemma show_ipv4_fresh c a : is_ascii_digit c = false → c ≠ 46%N → c ∉ show_ipv4 a.
Proof. intros Hd Hc. unfold show_ipv4. rewrite !elem_of_app. pose proof (to_dec_no_char c). set_solver. Qed.

Lemma ip_num_eq a : ip_num a =
  (((byte_val (ip_a a) * 256 + byte_val (ip_b a)) * 256 + byte_val (ip_c a)) * 256 + byte_val (ip_d a))%N.
Proof. unfold ip_num, octets, be_val. simpl. lia. Qed.

(** The address mask of a prefix. *)
Lemma host_mask k : (k ≤ 32)%N →
  (((if k <? 32 then N.shiftl 1 k else 0) + (2 ^ 32 - 1)) mod 2 ^ 32 = N.ones k)%N.
Proof.
  intros Hk. rewrite N.ones_equiv, <-N.sub_1_r. destruct (N.ltb_spec k 32) as [Hl|Hl].
  - rewrite N.shiftl_1_l. pose proof (N.pow_lt_mono_r 2 k 32 ltac:(lia) Hl).
    pose proof (N.pow_nonzero 2 k ltac:(lia)).
    replace (2 ^ k + (2 ^ 32 - 1))%N with (2 ^ k - 1 + 1 * 2 ^ 32)%N by lia.
    rewrite N.Div0.mod_add. apply N.mod_small. lia.
  - replace k with 32%N by lia. reflexivity.
Qed.

(** Two texts with their first separator agree up to it or not at all. *)
Lemma starts_with_sep c u v r t : c ∉ u → c ∉ v →
  starts_with (u ++ c :: r) (v ++ c :: t) = true ↔ u = v ∧ starts_with r t = true.
Proof.
  revert v. induction u as [|d u IH]; intros [|e v] Hu Hv; simpl.
  - rewrite N.eqb_refl. naive_solver.
  - destruct (N.eqb_spec c e); [set_solver|]. naive_solver.
  - destruct (N.eqb_spec d c); [set_solver|]. naive_solver.
  - rewrite andb_true_iff, N.eqb_eq, IH by set_solver. naive_solver.
Qed.
Lemma to_dec_byte_inj a b : to_dec (byte_val a) = to_dec (byte_val b) ↔ a = b.
Proof.
  split; [|by intros ->]. intros H. apply byte_val_inj.
  pose proof (parse_part_to_dec a) as Ha. rewrite H, parse_part_to_dec in Ha. congruence.
Qed.

(** The octets a prefix of whole octets fixes. *)
Lemma shiftr_octets a b c d : (b < 256)%N → (c < 256)%N → (d < 256)%N →
  N.shiftr (((a * 256 + b) * 256 + c) * 256 + d) 24 = a ∧
  N.shiftr (((a * 256 + b) * 256 + c) * 256 + d) 16 = (a * 256 + b)%N ∧
  N.shiftr (((a * 256 + b) * 256 + c) * 256 + d) 8 = ((a * 256 + b) * 256 + c)%N.
Proof.
  intros. rewrite !N.shiftr_div_pow2. split_and!; symmetry.
  - apply (N.div_unique _ _ _ ((b * 256 + c) * 256 + d)); change (2 ^ 24)%N with 16777216%N; lia.
  - apply (N.div_unique _ _ _ (c * 256 + d)); change (2 ^ 16)%N with 65536%N; lia.
  - apply (N.div_unique _ _ _ d); change (2 ^ 8)%N with 256%N; lia.
Qed.

Lemma in_network_octets net x :
  (in_network net 8 x ↔ ip_a net = ip_a x) ∧
  (in_network net 16 x ↔ ip_a net = ip_a x ∧ ip_b net = ip_b x) ∧
  (in_network net 24 x ↔ ip_a net = ip_a x ∧ ip_b net = ip_b x ∧ ip_c net = ip_c x).
Proof.
  unfold in_network. rewrite !ip_num_eq.
  change (32 - 8)%N with 24%N. change (32 - 16)%N with 16%N. change (32 - 24)%N with 8%N.
  destruct (shiftr_octets (byte_val (ip_a x)) (byte_val (ip_b x)) (byte_val (ip_c x)) (byte_val (ip_d x)))
    as (-> & -> & ->); [apply byte_val_lt..|].
  destruct (shiftr_octets (byte_val (ip_a net)) (byte_val (ip_b net)) (byte_val (ip_c net)) (byte_val (ip_d net)))
    as (-> & -> & ->); [apply byte_val_lt..|].
  pose proof (byte_val_lt (ip_b x)). pose proof (byte_val_lt (ip_b net)).
  pose proof (byte_val_lt (ip_c x)). pose proof (byte_val_lt (ip_c net)).
  assert (∀ a b, a = b ↔ byte_val a = byte_val b) as Hb by (intros; split; [by intros ->|apply byte_val_inj]).
  rewrite !(Hb (ip_a net)), !(Hb (ip_b net)), (Hb (ip_c net)). split_and!; lia.
Qed.

(** What the wildcard of whole octets matches. *)
Lemma wildcard_matches net x :
  let a := to_dec (byte_val (ip_a net)) in
  let b := to_dec (byte_val (ip_b net)) in
  let c := to_dec (byte_val (ip_c net)) in
  (starts_with (a ++ [46%N]) (show_ipv4 x) = true ↔ in_network net 8 x) ∧
  (starts_with (a ++ 46%N :: b ++ [46%N]) (show_ipv4 x) = true ↔ in_network net 16 x) ∧
  (starts_with (a ++ 46%N :: b ++ 46%N :: c ++ [46%N]) (show_ipv4 x) = true ↔ in_network net 24 x).
Proof.
  cbv zeta. destruct (in_network_octets net x) as (-> & -> & ->). unfold show_ipv4. simpl.
  rewrite !starts_with_sep by (by apply to_dec_no_char). rewrite !to_dec_byte_inj. naive_solver.
Qed.

Lemma aligned_land net p : (p ≤ 32)%N →
  (N.land (ip_num net) (N.ones (32 - p)) =? 0)%N = bool_decide (aligned net p).
Proof.
  intros Hp. rewrite N.land_ones. unfold aligned. destruct (N.eqb_spec (ip_num net mod 2 ^ (32 - p)) 0).
  - by rewrite bool_decide_true.
  - by rewrite bool_decide_false.
Qed.

(** C39: For the text of any network, the exemption is a wildcard exactly for an aligned /8,
    /16 or /24, and the addresses the wildcard matches are those of the network; any
    other network keeps its text. *)
Theorem cidr_wildcard_exact net p : (p ≤ 32)%N →
  match cidr_to_wildcard_opt (cidr_text net p) with
  | Some (WE_Wildcard w) =>
      p ∈ [8; 16; 24]%N ∧ aligned net p ∧
      ∃ pre, w = pre ++ [42%N] ∧ ∀ x, starts_with pre (show_ipv4 x) = true ↔ in_network net p x
  | Some (WE_Exact t) => t = cidr_text net p ∧ ¬ (p ∈ [8; 16; 24]%N ∧ aligned net p)
  | None => False
  end.
Proof.
  intros Hp. unfold cidr_to_wildcard_opt, cidr_text.
  rewrite split_once_app by (by apply show_ipv4_fresh). cbn [mbind option_bind fst snd].
  unfold parse_u8. rewrite parse_uint_to_dec by lia. cbn [mbind option_bind].
  rewrite (proj2 (N.ltb_ge 32 p) Hp), parse_show_octets. cbn [mbind option_bind].
  rewrite <-ip_num_eq, host_mask, aligned_land by lia.
  pose proof (wildcard_matches net) as w3. cbv zeta in w3.
  set (a := to_dec (byte_val (ip_a net))) in *. set (b := to_dec (byte_val (ip_b net))) in *.
  set (c := to_dec (byte_val (ip_c net))) in *.
  destruct (N.ltb_spec p 32) as [Hlt|Hge]; [case_bool_decide as Ha|]; cbn [andb negb].
  - destruct (N.eqb_spec p 8) as [->|H8]; [|destruct (N.eqb_spec p 16) as [->|H16];
      [|destruct (N.eqb_spec p 24) as [->|H24]]].
    + split_and!; [by apply (bool_decide_unpack _)|done|]. exists (a ++ [46%N]).
      split; [by rewrite <-app_assoc|]. apply w3.
    + split_and!; [by apply (bool_decide_unpack _)|done|]. exists (a ++ 46%N :: b ++ [46%N]).
      split; [by rewrite <-app_assoc; simpl; rewrite <-app_assoc|]. apply w3.
    + split_and!; [by apply (bool_decide_unpack _)|done|]. exists (a ++ 46%N :: b ++ 46%N :: c ++ [46%N]).
      split; [by rewrite <-app_assoc; simpl; rewrite <-app_assoc; simpl; rewrite <-app_assoc|]. apply w3.
    + split; [done|]. set_solver.
  - split; [done|]. tauto.
  - replace p with 32%N by lia. simpl. split; [done|]. set_solver.
Qed.

Lemma cidr_wildcard_exact_witness :
  cidr_to_wildcard_opt (cidr_text (MkIpv4Addr x0a x01 x00 x00) 16) = Some (WE_Wildcard (lit "10.1.*")) ∧
  ∃ pre, lit "10.1.*" = pre ++ [42%N] ∧
    ∀ x, starts_with pre (show_ipv4 x) = true ↔ in_network (MkIpv4Addr x0a x01 x00 x00) 16 x.
Proof.
  pose proof (cidr_wildcard_exact (MkIpv4Addr x0a x01 x00 x00) 16 ltac:(lia)) as H.
  assert (cidr_to_wildcard_opt (cidr_text (MkIpv4Addr x0a x01 x00 x00) 16) = Some (WE_Wildcard (lit "10.1.*"))) as E
    by (vm_compute; reflexivity).
  rewrite E in H. split; [exact E|]. exact (proj2 (proj2 H)).
Defined.
