(* ===== verification/Registry.v ===== *)
(** * The registry values of the system proxy

    The part of [system_proxy.rs] and [system_proxy_override.rs] of the Windows resource
    crate that reads and writes the registry.

    The registry is the class [Win32Registry]: a state and the answers of its calls,
    return codes included. [RegistryLaws] is what the documentation of the calls
    promises: a value set is the value read, and a call that fails or concerns another
    of the five values changes nothing. A handle is the path it was opened at, and no
    other process writes between the calls of one operation. *)

From Stdlib Require Import NArith Strings.Byte Lia.
From S2P Require Import Prelude Text Utf16 NativeError SystemProxy.

(** ** The calls *)

Definition REG_SZ : N := 1.
Definition REG_DWORD : N := 4.
Inductive Access := KEY_READ | KEY_READ_WRITE_SET | KEY_SET_VALUE.
Inductive InternetOption := INTERNET_OPTION_SETTINGS_CHANGED | INTERNET_OPTION_REFRESH.

(** win32-resource/system_proxy_family.rs:251-264 [ValueName] *)
Inductive ValueName := VN_ProxyEnable | VN_ProxyServer | VN_ProxyOverride | VN_AutoConfigUrl | VN_AutoDetect.
#[export] Instance ValueName_eq_dec : EqDecision ValueName.
Proof. solve_decision. Defined.

(** win32-resource/system_proxy_family.rs:267-277 [ValueName::as_str] *)
Definition value_name (v : ValueName) : str :=
  lit match v with
      | VN_ProxyEnable => "ProxyEnable"
      | VN_ProxyServer => "ProxyServer"
      | VN_ProxyOverride => "ProxyOverride"
      | VN_AutoConfigUrl => "AutoConfigURL"
      | VN_AutoDetect => "AutoDetect"
      end.

(** The calls the program makes: a return code, 0 for success, and what it fills in.
    [load_wininet] says whether the library loads and whether it has the export. *)
Class Win32Registry (W : Type) := {
  reg_open : W → str → Access → N;
  reg_close : W → str → N;
  reg_query_size : W → str → str → N * (N * N);
  reg_query : W → str → str → N → N * (N * list byte);
  reg_set : W → str → str → N → list byte → N * W;
  reg_delete : W → str → str → N * W;
  load_wininet : W → option bool;
  internet_set_option : W → InternetOption → W;
}.

(** What the calls are documented to do, in terms of the value stored under a name. *)
Class RegistryLaws (W : Type) `{Win32Registry W} := {
  stored : W → str → str → option (N * list byte);
  query_size_ok w p n kind len : reg_query_size w p n = (0%N, (kind, len)) →
    ∃ data, stored w p n = Some (kind, data) ∧ len = N.of_nat (length data);
  query_size_missing w p n : fst (reg_query_size w p n) = 2%N ∨ fst (reg_query_size w p n) = 3%N →
    stored w p n = None;
  query_ok w p n len kind data : reg_query w p n len = (0%N, (kind, data)) →
    stored w p n = Some (kind, data);
  query_missing w p n len : fst (reg_query w p n len) = 2%N ∨ fst (reg_query w p n len) = 3%N →
    stored w p n = None;
  set_stores w p n kind data w' : reg_set w p n kind data = (0%N, w') →
    stored w' p n = Some (kind, data);
  set_fails w p n kind data : fst (reg_set w p n kind data) ≠ 0%N →
    ∀ p' n', stored (snd (reg_set w p n kind data)) p' n' = stored w p' n';
  set_elsewhere w p v v' kind data : v' ≠ v →
    stored (snd (reg_set w p (value_name v) kind data)) p (value_name v') = stored w p (value_name v');
  delete_removes w p n : fst (reg_delete w p n) = 0%N ∨ fst (reg_delete w p n) = 2%N →
    stored (snd (reg_delete w p n)) p n = None;
  delete_fails w p n : fst (reg_delete w p n) ≠ 0%N →
    ∀ p' n', stored (snd (reg_delete w p n)) p' n' = stored w p' n';
  delete_elsewhere w p v v' : v' ≠ v →
    stored (snd (reg_delete w p (value_name v))) p (value_name v') = stored w p (value_name v');
  option_stores w o p n : stored (internet_set_option w o) p n = stored w p n;
}.

(** win32-resource/system_proxy.rs:373-373 [INTERNET_SETTINGS_SUBKEY] *)
Definition INTERNET_SETTINGS_SUBKEY : str :=
  lit "Software\Microsoft\Windows\CurrentVersion\Internet Settings".
(** The path of the settings of a user below [HKEY_USERS]. *)
Definition settings_path (sid : str) : str := sid ++ lit "\" ++ INTERNET_SETTINGS_SUBKEY.

(** win32-resource/system_proxy.rs:375-385 [is_well_shaped_sid] *)
Definition is_well_shaped_sid (sid : str) : bool :=
  match strip_prefix (lit "S-1-") sid with
  | None => false
  | Some rest =>
      negb (bool_decide (rest = [])) &&
      forallb (λ part, negb (bool_decide (part = [])) && forallb is_ascii_digit part) (split_str [45%N] rest)
  end.

(** [take_while] of the units before a NUL. *)
Fixpoint until_nul (l : list N) : list N :=
  match l with
  | u :: l => if (u =? 0)%N then [] else u :: until_nul l
  | [] => []
  end.

Section registry.
Context {W : Type} `{Win32Registry W}.

(** win32-resource/system_proxy.rs:432-502 [query_value]: the size first, then the data. *)
Definition query_value (w : W) (path name : str) : result NativeError RawValue :=
  let '(rc, (kind, len)) := reg_query_size w path name in
  if (rc =? 2)%N || (rc =? 3)%N then Ok RV_Absent
  else if negb (rc =? 0)%N then Err (NativeError_from_win32 rc "RegQueryValueExW 取值大小失败")
  else if (len =? 0)%N then
    Ok (if (kind =? REG_SZ)%N then RV_Sz []
        else if (kind =? REG_DWORD)%N then RV_Dword 0
        else RV_Other kind [])
  else
    let '(rc, (kind2, buff)) := reg_query w path name len in
    if (rc =? 2)%N || (rc =? 3)%N then Ok RV_Absent
    else if negb (rc =? 0)%N then Err (NativeError_from_win32 rc "RegQueryValueExW 读值失败")
    else if (kind2 =? REG_SZ)%N then
      Ok (RV_Sz (default [] (from_utf16 (until_nul (bytes_units buff)))))
    else if (kind2 =? REG_DWORD)%N then
      match slice buff 0 4 with
      | Some bytes => Ok (RV_Dword (be_val (reverse bytes)))
      | None => Err (NativeError_from_win32 1450 "REG_DWORD 数据不足 4 字节")
      end
    else Ok (RV_Other kind2 buff).

(** win32-resource/system_proxy.rs:420-430 [query_values] *)
Definition query_values (w : W) (path : str) : result NativeError RawInternetSettings :=
  enable ← query_value w path (lit "ProxyEnable");
  server ← query_value w path (lit "ProxyServer");
  override ← query_value w path (lit "ProxyOverride");
  url ← query_value w path (lit "AutoConfigURL");
  detect ← query_value w path (lit "AutoDetect");
  Ok (MkRaw enable server override url detect).

(** win32-resource/system_proxy.rs:387-418 [capture_for_user] *)
Definition capture_for_user (w : W) (sid : str) : result NativeError RawInternetSettings :=
  if negb (is_well_shaped_sid sid) then
    Err (NativeError_from_win32 87 "SID 形状不合法（期望 S-1-… 十进制子授权）")
  else
    let path := settings_path sid in
    let rc := reg_open w path KEY_READ in
    if negb (rc =? 0)%N
    then Err (NativeError_from_win32 rc "RegOpenKeyExW HKU\<sid>\Internet Settings 失败")
    else query_values w path.

(** win32-resource/system_proxy_override.rs:236-293 [write_registry_value]: the number of
    bytes written. *)
Definition write_registry_value (w : W) (sid merged : str) : W * result NativeError N :=
  let path := settings_path sid in
  let data := units_bytes (encode_utf16 merged ++ [0%N]) in
  let open_rc := reg_open w path KEY_READ_WRITE_SET in
  if negb (open_rc =? 0)%N
  then (w, Err (NativeError_from_win32 open_rc "system_proxy_reg_open_failed(HKU\<sid>\...\Internet Settings)"))
  else
    let '(set_rc, w) := reg_set w path (lit "ProxyOverride") REG_SZ data in
    let close_rc := reg_close w path in
    if negb (set_rc =? 0)%N
    then (w, Err (NativeError_from_win32 set_rc "system_proxy_reg_set_failed(ProxyOverride)"))
    else if negb (close_rc =? 0)%N
    then (w, Err (NativeError_from_win32 close_rc "system_proxy_reg_close_failed"))
    else (w, Ok (N.of_nat (length data))).

(** win32-resource/system_proxy_override.rs:318-340 [broadcast_via_module] *)
Definition broadcast_via_module (w : W) (export : bool) : W * result NativeError bool :=
  if negb export then (w, Err (NativeError_from_win32 127 "system_proxy_wininet_export_missing"))
  else
    let w := internet_set_option w INTERNET_OPTION_SETTINGS_CHANGED in
    let w := internet_set_option w INTERNET_OPTION_REFRESH in
    (w, Ok true).

(** win32-resource/system_proxy_override.rs:295-311 [broadcast_wininet] *)
Definition broadcast_wininet (w : W) : W * result NativeError bool :=
  match load_wininet w with
  | None => (w, Ok false)
  | Some export => broadcast_via_module w export
  end.

(** win32-resource/system_proxy_override.rs:313-316 [broadcast_wininet_refresh] *)
Definition broadcast_wininet_refresh (w : W) : W := fst (broadcast_wininet w).

Definition sid_contains_nul : NativeError := NativeError_from_win32 87 "system_proxy_sid_contains_nul".

(** win32-resource/system_proxy_override.rs:342-369 [write_override_for_user] *)
Definition write_override_for_user (w : W) (sid merged : str) : W * result NativeError bool :=
  if contains [0%N] sid then (w, Err sid_contains_nul)
  else match write_registry_value w sid merged with
  | (w, Err e) => (w, Err e)
  | (w, Ok _) => broadcast_wininet w
  end.

(** win32-resource/system_proxy_override.rs:409-428 [write_back_value_for_user]: the type
    and the data that stand for a value. *)
Definition raw_bytes (v : RawValue) : option (N * list byte) :=
  match v with
  | RV_Absent => None
  | RV_Dword v => Some (REG_DWORD, le_bytes 4 v)
  | RV_Sz text => Some (REG_SZ, units_bytes (encode_utf16 text ++ [0%N]))
  | RV_Other type data => Some (type, data)
  end.

(** win32-resource/system_proxy_override.rs:371-453 [write_back_value_for_user] *)
Definition write_back_value_for_user (w : W) (sid : str) (value : ValueName) (data : RawValue) :
    W * result NativeError () :=
  if contains [0%N] sid then (w, Err sid_contains_nul)
  else
    let path := settings_path sid in
    let open_rc := reg_open w path KEY_READ_WRITE_SET in
    if negb (open_rc =? 0)%N
    then (w, Err (NativeError_from_win32 open_rc "system_proxy_reg_open_failed(HKU\<sid>\...\Internet Settings)"))
    else match raw_bytes data with
    | None => (w, Ok ())
    | Some (kind, bytes) =>
        let '(set_rc, w) := reg_set w path (value_name value) kind bytes in
        let close_rc := reg_close w path in
        if negb (set_rc =? 0)%N then (w, Err (NativeError_from_win32 set_rc "system_proxy_reg_set_failed"))
        else if negb (close_rc =? 0)%N
        then (w, Err (NativeError_from_win32 close_rc "system_proxy_reg_close_failed"))
        else (w, Ok ())
    end.

(** win32-resource/system_proxy_override.rs:455-504 [delete_value_for_user] *)
Definition delete_value_for_user (w : W) (sid : str) (value : ValueName) : W * result NativeError () :=
  if contains [0%N] sid then (w, Err sid_contains_nul)
  else
    let path := settings_path sid in
    let open_rc := reg_open w path KEY_SET_VALUE in
    if negb (open_rc =? 0)%N
    then (w, Err (NativeError_from_win32 open_rc "system_proxy_reg_open_failed_for_delete"))
    else
      let '(del_rc, w) := reg_delete w path (value_name value) in
      let close_rc := reg_close w path in
      if negb (del_rc =? 0)%N then
        if (del_rc =? 2)%N then (w, Ok ())
        else (w, Err (NativeError_from_win32 del_rc "system_proxy_reg_delete_failed"))
      else if negb (close_rc =? 0)%N
      then (w, Err (NativeError_from_win32 close_rc "system_proxy_reg_close_failed"))
      else (w, Ok ()).
End registry.

(** ** Values *)

(** What a stored value is read as; nothing for a DWORD that is too short. *)
Definition raw_of (o : option (N * list byte)) : option RawValue :=
  match o with
  | None => Some RV_Absent
  | Some (kind, []) =>
      Some (if (kind =? REG_SZ)%N then RV_Sz []
            else if (kind =? REG_DWORD)%N then RV_Dword 0 else RV_Other kind [])
  | Some (kind, data) =>
      if (kind =? REG_SZ)%N then Some (RV_Sz (default [] (from_utf16 (until_nul (bytes_units data)))))
      else if (kind =? REG_DWORD)%N then (λ bytes, RV_Dword (be_val (reverse bytes))) <$> slice data 0 4
      else Some (RV_Other kind data)
  end.

(** The values a read produces. *)
Definition rv_ok (v : RawValue) : Prop :=
  match v with
  | RV_Absent => True
  | RV_Dword n => (n < 2 ^ 32)%N
  | RV_Sz text => str_ok text ∧ 0%N ∉ text
  | RV_Other type _ => type ≠ REG_SZ ∧ type ≠ REG_DWORD
  end.

Lemma until_nul_app l k : 0%N ∉ l → until_nul (l ++ 0%N :: k) = l.
Proof.
  induction l as [|u l IH]; intros Hl; [done|]. apply not_elem_of_cons in Hl as [Hu Hl]. simpl.
  destruct (N.eqb_spec u 0); [congruence|]. by rewrite IH.
Qed.
Lemma until_nul_fresh l : 0%N ∉ until_nul l.
Proof.
  induction l as [|u l IH]; simpl; [set_solver|]. destruct (N.eqb_spec u 0); [set_solver|].
  apply not_elem_of_cons. auto.
Qed.
Lemma until_nul_ok l : units_ok l → units_ok (until_nul l).
Proof. induction 1 as [|u l Hu Hl IH]; simpl; [constructor|]. destruct (u =? 0)%N; by constructor. Qed.

Lemma encode_utf16_nul s : str_ok s → 0%N ∈ encode_utf16 s ↔ 0%N ∈ s.
Proof.
  intros Hs. unfold encode_utf16. rewrite list_elem_of_bind. split.
  - intros (c & Hc & Hin). eapply (proj1 (Forall_forall _ _) Hs) in Hin as Hsc.
    apply is_scalar_spec in Hsc. unfold utf16_char in Hc. destruct (N.ltb_spec c 0x10000).
    + apply list_elem_of_singleton in Hc. by subst.
    + destruct (surrogates c) as (H1%in_range_spec & H2%in_range_spec & _); [lia|].
      apply elem_of_cons in Hc as [Hc|Hc%list_elem_of_singleton]; rewrite <-Hc in *; lia.
  - intros Hin. exists 0%N. split; [|done]. by apply list_elem_of_singleton.
Qed.

Lemma le_u32 v : (v < 2 ^ 32)%N → length (le_bytes 4 v) = 4 ∧ be_val (reverse (le_bytes 4 v)) = v.
Proof.
  intros Hv. unfold le_bytes. rewrite length_reverse, length_be_bytes, reverse_involutive.
  split; [done|]. by apply be_val_be_bytes.
Qed.

(** What is written for a value is read as the value. *)
Lemma raw_of_bytes v : rv_ok v → raw_of (raw_bytes v) = Some v.
Proof.
  destruct v as [|n|text|type data]; cbn [rv_ok raw_bytes]; [done|..].
  - intros Hn. destruct (le_u32 n Hn) as [Hl Hv]. destruct (le_bytes 4 n) as [|b l] eqn:E; [done|].
    change (raw_of (Some (REG_DWORD, b :: l)))
      with ((λ bytes, RV_Dword (be_val (reverse bytes))) <$> slice (b :: l) 0 4).
    rewrite (slice_app_tail [] (b :: l)) by (simpl in *; lia). cbn [fmap option_fmap option_map]. by rewrite Hv.
  - intros [Hs H0]. pose proof (encode_utf16_units text Hs) as Hu.
    destruct (units_bytes (encode_utf16 text ++ [0%N])) as [|b l] eqn:E.
    { apply (f_equal length) in E. rewrite length_units_bytes, length_app in E. simpl in E. lia. }
    change (raw_of (Some (REG_SZ, b :: l)))
      with (Some (RV_Sz (default [] (from_utf16 (until_nul (bytes_units (b :: l))))))).
    rewrite <-E, bytes_units_bytes by (apply Forall_app; split; [done|by repeat constructor]).
    rewrite until_nul_app by (by rewrite encode_utf16_nul). by rewrite from_utf16_encode.
  - intros [H1 H4]. destruct data; simpl;
      rewrite (proj2 (N.eqb_neq _ _) H1), (proj2 (N.eqb_neq _ _) H4); done.
Qed.

Lemma raw_of_ok o v : raw_of o = Some v → rv_ok v.
Proof.
  destruct o as [[kind data]|]; [|by intros [= <-]]. unfold raw_of. destruct data as [|b data].
  - destruct (N.eqb_spec kind REG_SZ); [intros [= <-]; split; [constructor|set_solver]|].
    destruct (N.eqb_spec kind REG_DWORD); intros [= <-]; simpl; [lia|done].
  - destruct (N.eqb_spec kind REG_SZ).
    + set (l := until_nul (bytes_units (b :: data))). intros Hv.
      assert (v = RV_Sz (default [] (from_utf16 l))) as -> by congruence. cbn [rv_ok].
      destruct (from_utf16 l) as [s|] eqn:E; cbn [default]; [|split; [constructor|set_solver]].
      destruct (encode_from_utf16 s l) as [Hl Hs]; [by eapply until_nul_ok, bytes_units_ok|done|].
      split; [done|]. intros H0. apply (encode_utf16_nul s Hs) in H0. rewrite Hl in H0.
      by apply until_nul_fresh in H0.
    + destruct (N.eqb_spec kind REG_DWORD).
      * intros (bytes & Hs & ->)%fmap_Some. simpl. apply length_slice in Hs as Hl.
        pose proof (be_val_lt (reverse bytes)) as Hlt. rewrite length_reverse, Hl in Hlt. exact Hlt.
      * intros [= <-]. done.
Qed.

(** ** Operations *)

(** The value of a name. *)
Definition field (raw : RawInternetSettings) (v : ValueName) : RawValue :=
  match v with
  | VN_ProxyEnable => proxy_enable raw
  | VN_ProxyServer => proxy_server raw
  | VN_ProxyOverride => proxy_override raw
  | VN_AutoConfigUrl => auto_config_url raw
  | VN_AutoDetect => auto_detect raw
  end.

Lemma field_ext r1 r2 : (∀ v, field r1 v = field r2 v) → r1 = r2.
Proof.
  intros H. pose proof (H VN_ProxyEnable). pose proof (H VN_ProxyServer). pose proof (H VN_ProxyOverride).
  pose proof (H VN_AutoConfigUrl). pose proof (H VN_AutoDetect). destruct r1, r2; simpl in *; congruence.
Qed.

Section laws.
Context {W : Type} `{RegistryLaws W}.
Implicit Types (w : W) (sid : str) (v : ValueName) (x : RawValue).

(** The value stored for a user under a name. *)
Definition value_at w sid v : option (N * list byte) := stored w (settings_path sid) (value_name v).

(** The five values of a user, as they are read. *)
Definition reads w sid (raw : RawInternetSettings) : Prop := ∀ v, raw_of (value_at w sid v) = Some (field raw v).

Lemma query_value_stored w p n x : query_value w p n = Ok x → raw_of (stored w p n) = Some x.
Proof.
  unfold query_value. destruct (reg_query_size w p n) as [rc [kind len]] eqn:Es.
  pose proof (query_size_missing w p n) as Hm. rewrite Es in Hm. simpl in Hm.
  destruct (N.eqb_spec rc 2) as [->|]; [simpl; intros [= <-]; by rewrite Hm by auto|].
  destruct (N.eqb_spec rc 3) as [->|]; [simpl; intros [= <-]; by rewrite Hm by auto|]. simpl.
  destruct (N.eqb_spec rc 0) as [->|]; [simpl|done].
  apply query_size_ok in Es as (data & Hst & Hlen).
  destruct (N.eqb_spec len 0) as [->|].
  - destruct data; [|done]. intros [= <-]. by rewrite Hst.
  - destruct (reg_query w p n len) as [rc [kind2 buff]] eqn:Eq.
    pose proof (query_missing w p n len) as Hm2. rewrite Eq in Hm2. simpl in Hm2.
    destruct (N.eqb_spec rc 2) as [->|]; [by rewrite Hm2 in Hst by auto|].
    destruct (N.eqb_spec rc 3) as [->|]; [by rewrite Hm2 in Hst by auto|]. simpl.
    destruct (N.eqb_spec rc 0) as [->|]; [simpl|done].
    apply query_ok in Eq. rewrite Eq in Hst. injection Hst as -> ->. rewrite Eq.
    destruct data as [|b data]; [done|]. unfold raw_of.
    destruct (kind =? REG_SZ)%N; [congruence|].
    destruct (kind =? REG_DWORD)%N; [|congruence].
    destruct (slice (b :: data) 0 4); [intros [= <-]; done|done].
Qed.

Lemma capture_reads w sid raw : capture_for_user w sid = Ok raw → reads w sid raw.
Proof.
  unfold capture_for_user, query_values. destruct (is_well_shaped_sid sid); [simpl|done].
  destruct (reg_open w (settings_path sid) KEY_READ =? 0)%N; [simpl|done].
  intros (a & Ha & (b & Hb & (c & Hc & (d & Hd & (e & He & [= <-])%bind_Ok)%bind_Ok)%bind_Ok)%bind_Ok)%bind_Ok.
  intros []; by apply query_value_stored.
Qed.
Lemma reads_unique w sid r1 r2 : reads w sid r1 → reads w sid r2 → r1 = r2.
Proof. intros H1 H2. apply field_ext. intros v. specialize (H1 v). specialize (H2 v). congruence. Qed.
Lemma reads_ok w sid raw v : reads w sid raw → rv_ok (field raw v).
Proof. intros Hr. by eapply raw_of_ok, Hr. Qed.

(** The effect of writing [x] under the name [v]: the other values stay, this one becomes
    [x] when the operation succeeds, and is the old or the new one when it fails. *)
Definition wrote w w' sid v x (ok : bool) : Prop :=
  (∀ v', v' ≠ v → value_at w' sid v' = value_at w sid v') ∧
  (value_at w' sid v = raw_bytes x ∨ (ok = false ∧ value_at w' sid v = value_at w sid v)).

Lemma wrote_nothing w sid v x : wrote w w sid v x false.
Proof. split; [done|by right]. Qed.
Lemma set_wrote w sid v x kind data rc w' : raw_bytes x = Some (kind, data) →
  reg_set w (settings_path sid) (value_name v) kind data = (rc, w') → wrote w w' sid v x (rc =? 0)%N.
Proof.
  intros Hx Hs. split.
  - intros v' Hv. pose proof (set_elsewhere w (settings_path sid) v v' kind data Hv) as He.
    by rewrite Hs in He.
  - unfold value_at. destruct (N.eqb_spec rc 0) as [->|Hrc].
    + left. rewrite Hx. by apply set_stores in Hs.
    + right. split; [done|]. pose proof (set_fails w (settings_path sid) (value_name v) kind data) as Hf.
      rewrite Hs in Hf. by apply Hf.
Qed.
Lemma wrote_weaken w w' sid v x ok : wrote w w' sid v x true → wrote w w' sid v x ok.
Proof. intros [H1 [H2|[? _]]]; [by split; [|left]|done]. Qed.

Lemma broadcast_value w sid v : value_at (fst (broadcast_wininet w)) sid v = value_at w sid v.
Proof.
  unfold broadcast_wininet, broadcast_via_module, value_at.
  destruct (load_wininet w) as [[]|]; simpl; [|done..]. by rewrite !option_stores.
Qed.
Lemma broadcast_reads w sid raw : reads (broadcast_wininet_refresh w) sid raw ↔ reads w sid raw.
Proof.
  unfold reads, broadcast_wininet_refresh.
  split; intros Hr v; specialize (Hr v); by rewrite ?broadcast_value in *.
Qed.
Lemma wrote_broadcast w w' sid v x ok : wrote w w' sid v x ok → wrote w (fst (broadcast_wininet w')) sid v x ok.
Proof. unfold wrote. setoid_rewrite broadcast_value. done. Qed.

Lemma write_back_wrote w sid v x : x ≠ RV_Absent →
  let out := write_back_value_for_user w sid v x in wrote w (fst out) sid v x (is_ok (snd out)).
Proof.
  intros Hx. unfold write_back_value_for_user.
  destruct (contains [0%N] sid); [apply wrote_nothing|].
  destruct (reg_open w (settings_path sid) KEY_READ_WRITE_SET =? 0)%N; [|apply wrote_nothing]. simpl negb. cbv iota.
  destruct (raw_bytes x) as [[kind data]|] eqn:Er; [|by destruct x].
  destruct (reg_set w (settings_path sid) (value_name v) kind data) as [rc w'] eqn:Es.
  pose proof (set_wrote _ _ _ _ _ _ _ _ Er Es) as Hw. cbv zeta.
  destruct (rc =? 0)%N; simpl; [|done].
  destruct (reg_close w' (settings_path sid) =? 0)%N; simpl; [done|by apply wrote_weaken].
Qed.

Lemma delete_wrote w sid v :
  let out := delete_value_for_user w sid v in wrote w (fst out) sid v RV_Absent (is_ok (snd out)).
Proof.
  unfold delete_value_for_user.
  destruct (contains [0%N] sid); [apply wrote_nothing|].
  destruct (reg_open w (settings_path sid) KEY_SET_VALUE =? 0)%N; [|apply wrote_nothing]. simpl negb. cbv iota.
  pose proof (delete_removes w (settings_path sid) (value_name v)) as Hd.
  pose proof (delete_fails w (settings_path sid) (value_name v)) as Hf.
  pose proof (delete_elsewhere w (settings_path sid) v) as He.
  destruct (reg_delete w (settings_path sid) (value_name v)) as [rc w'] eqn:Es. simpl in Hd, Hf, He. cbv zeta.
  destruct (N.eqb_spec rc 0) as [->|Hrc]; simpl.
  - assert (wrote w w' sid v RV_Absent true) as Hw by (split; [exact He|left; apply Hd; auto]).
    destruct (reg_close w' (settings_path sid) =? 0)%N; simpl; [done|by apply wrote_weaken].
  - destruct (N.eqb_spec rc 2) as [->|]; simpl.
    + split; [exact He|left; apply Hd; auto].
    + split; [exact He|right; split; [done|by apply Hf]].
Qed.

Lemma write_override_wrote w sid m :
  let out := write_override_for_user w sid m in wrote w (fst out) sid VN_ProxyOverride (RV_Sz m) (is_ok (snd out)).
Proof.
  unfold write_override_for_user, write_registry_value.
  destruct (contains [0%N] sid); [apply wrote_nothing|].
  destruct (reg_open w (settings_path sid) KEY_READ_WRITE_SET =? 0)%N; [|apply wrote_nothing]. simpl negb. cbv iota.
  destruct (reg_set w (settings_path sid) (lit "ProxyOverride") REG_SZ (units_bytes (encode_utf16 m ++ [0%N])))
    as [rc w'] eqn:Es.
  pose proof (set_wrote w sid VN_ProxyOverride (RV_Sz m) _ _ _ _ eq_refl Es) as Hw. cbv zeta.
  destruct (rc =? 0)%N; simpl; [|done].
  destruct (reg_close w' (settings_path sid) =? 0)%N; simpl; [|by apply wrote_weaken].
  apply wrote_broadcast, wrote_weaken, Hw.
Qed.
End laws.

(** ** A registry *)

(** A registry that keeps its values in a map, refuses to write the names in [sim_denied],
    and counts the notifications. *)
Record SimRegistry := MkSim {
  sim_values : gmap (str * str) (N * list byte);
  sim_denied : list str;
  sim_notified : nat;
}.

#[export] Instance sim_registry : Win32Registry SimRegistry := {
  reg_open w p a := 0%N;
  reg_close w p := 0%N;
  reg_query_size w p n :=
    match sim_values w !! (p, n) with
    | Some (kind, data) => (0%N, (kind, N.of_nat (length data)))
    | None => (2%N, (0%N, 0%N))
    end;
  reg_query w p n len :=
    match sim_values w !! (p, n) with
    | Some (kind, data) => (0%N, (kind, data))
    | None => (2%N, (0%N, []))
    end;
  reg_set w p n kind data :=
    if bool_decide (n ∈ sim_denied w) then (5%N, w)
    else (0%N, MkSim (<[(p, n) := (kind, data)]> (sim_values w)) (sim_denied w) (sim_notified w));
  reg_delete w p n :=
    match sim_values w !! (p, n) with
    | None => (2%N, w)
    | Some _ =>
        if bool_decide (n ∈ sim_denied w) then (5%N, w)
        else (0%N, MkSim (delete (p, n) (sim_values w)) (sim_denied w) (sim_notified w))
    end;
  load_wininet w := Some true;
  internet_set_option w o := MkSim (sim_values w) (sim_denied w) (S (sim_notified w));
}.

Lemma value_name_inj v v' : value_name v = value_name v' → v = v'.
Proof. by destruct v, v'. Qed.

#[export] Instance sim_laws : RegistryLaws SimRegistry.
Proof.
  refine {| stored w p n := sim_values w !! (p, n) |}; simpl.
  - intros w p n kind len. case_match; [|done]. destruct p0. intros [= <- <-]. eauto.
  - intros w p n. case_match; [|done]. destruct p0; simpl. by intros [|].
  - intros w p n len kind data. case_match; [|done]. destruct p0. by intros [= <- <-].
  - intros w p n len. case_match; [|done]. destruct p0; simpl. by intros [|].
  - intros w p n kind data w'. case_bool_decide; [done|]. intros [= <-]. by simplify_map_eq.
  - intros w p n kind data. by case_bool_decide.
  - intros w p v v' kind data Hv. case_bool_decide; [done|]. simpl.
    apply lookup_insert_ne. intros [= Hn%value_name_inj]. congruence.
  - intros w p n. case_match eqn:E; [|done]. case_bool_decide; [by intros [|]|]. intros _. by simplify_map_eq.
  - intros w p n. case_match; [|done]. by case_bool_decide.
  - intros w p v v' Hv. case_match; [|done]. case_bool_decide; [done|]. simpl.
    apply lookup_delete_ne. intros [= Hn%value_name_inj]. congruence.
  - done.
Defined.

(** A text that is not valid UTF-16 is read as the empty text, and written back as such:
    the bytes are lost. *)
Example invalid_text_not_restored :
  let broken := Some (REG_SZ, units_bytes [0xD800; 0]%N) in
  raw_of broken = Some (RV_Sz []) ∧ raw_bytes (RV_Sz []) ≠ broken.
Proof. split; [vm_compute; reflexivity|]. vm_compute. discriminate. Qed.
