(* ===== verification/ProxyFamily.v ===== *)
(** * Decisions and records of the system proxy family

    [system_proxy_family.rs] of the Windows resource crate: what to do with the proxy
    settings of a user, the record of it that goes to the journal, and what to do with
    the settings when the tunnel goes down or is found after a crash.

    The reader of a record is a small error monad over the bytes still to read: the
    position of the source only grows, and the code reads the bytes after it. *)

From Stdlib Require Import NArith Strings.Byte Lia.
From S2P Require Import Prelude Text Utf16 NativeError SystemProxy Registry.

(** win32-resource/system_proxy_family.rs:387-394 [family_malformed] *)
Definition family_malformed (m : string) : NativeError :=
  MkNativeError NEK_Storage (N.lor NATIVE_CODE_FLAG 1) ("system_proxy_family_malformed: " +:+ m).
(** win32-resource/system_proxy_family.rs:396-403 [truncated_payload] *)
Definition truncated_payload (m : string) : NativeError :=
  MkNativeError NEK_Storage (N.lor NATIVE_CODE_FLAG 2) ("system_proxy_family_payload_truncated: " +:+ m).
(** win32-resource/system_proxy_family.rs:405-412 [invalid_payload] *)
Definition invalid_payload (m : string) : NativeError :=
  MkNativeError NEK_Storage (N.lor NATIVE_CODE_FLAG 3) ("system_proxy_family_payload_invalid: " +:+ m).

(** ** The record *)

(** win32-resource/system_proxy_family.rs:60-77 [SystemProxyFamilyStep] *)
Record SystemProxyFamilyStep := MkStep {
  st_prestate : RawInternetSettings;
  st_desired_entries : list str;
  st_originating_sid : str;
  st_pac_detected : bool;
  st_written_fingerprint : list byte;
}.

(** win32-resource/system_proxy_family.rs:95-107 [prestate_has_effect] *)
Definition prestate_has_effect (s : SystemProxyFamilyStep) : bool :=
  let p := st_prestate s in
  let proxy_enabled := flag_set (proxy_enable p) in
  let has_endpoint := bool_decide (is_Some (as_sz (proxy_server p))) in
  let has_pac := bool_decide (is_Some (as_sz (auto_config_url p))) || flag_set (auto_detect p) in
  proxy_enabled && (has_endpoint || has_pac).

(** win32-resource/system_proxy_family.rs:79-83 [PAYLOAD_VERSION] *)
Definition PAYLOAD_VERSION : byte := x03.

(** win32-resource/system_proxy_family.rs:414-417 [push_u32] *)
Definition push_u32 (v : N) : list byte := le_bytes 4 v.
(** [u32::try_from(len).unwrap_or(u32::MAX)]. *)
Definition len_u32 (n : nat) : N := N.min (N.of_nat n) (2 ^ 32 - 1).
(** win32-resource/system_proxy_family.rs:419-424 [push_len_bytes] *)
Definition push_len_bytes (bytes : list byte) : list byte := push_u32 (len_u32 (length bytes)) ++ bytes.

(** win32-resource/system_proxy_family.rs:426-448 [push_raw_value] *)
Definition push_raw_value (v : RawValue) : list byte :=
  match v with
  | RV_Absent => [x00]
  | RV_Dword dword => x01 :: push_u32 dword
  | RV_Other type data => x02 :: push_u32 type ++ push_len_bytes data
  | RV_Sz text => x03 :: push_len_bytes (units_bytes (encode_utf16 text))
  end.

(** win32-resource/system_proxy_family.rs:109-138 [to_payload] *)
Definition to_payload (s : SystemProxyFamilyStep) : list byte :=
  [PAYLOAD_VERSION] ++ push_len_bytes (utf8 (st_originating_sid s))
  ++ [if st_pac_detected s then x01 else x00]
  ++ push_u32 (len_u32 (length (st_desired_entries s)))
  ++ (st_desired_entries s ≫= λ entry, push_len_bytes (utf8 entry))
  ++ push_raw_value (proxy_enable (st_prestate s)) ++ push_raw_value (proxy_server (st_prestate s))
  ++ push_raw_value (proxy_override (st_prestate s)) ++ push_raw_value (auto_config_url (st_prestate s))
  ++ push_raw_value (auto_detect (st_prestate s))
  ++ push_len_bytes (st_written_fingerprint s).

(** *** Reading *)

(** win32-resource/system_proxy_family.rs:450-454 [Reader] *)
Definition Reader (A : Type) : Type := list byte → result NativeError (A * list byte).
#[export] Instance Reader_ret : MRet Reader := λ A a l, Ok (a, l).
#[export] Instance Reader_bind : MBind Reader := λ A B f m l,
  match m l with Ok (a, l) => f a l | Err e => Err e end.
Definition rfail {A} (e : NativeError) : Reader A := λ _, Err e.
Definition lift {A} (e : NativeError) (o : option A) : Reader A :=
  match o with Some a => mret a | None => rfail e end.

(** win32-resource/system_proxy_family.rs:457-469 [Reader::take] *)
Definition rtake (len : N) : Reader (list byte) := λ l,
  if (N.of_nat (length l) <? len)%N then Err (truncated_payload "payload 提前结束")
  else Ok (take (N.to_nat len) l, drop (N.to_nat len) l).
(** win32-resource/system_proxy_family.rs:471-474 [Reader::read_u8] *)
Definition read_u8 : Reader byte := b ← rtake 1; mret (default x00 (b !! 0)).
(** win32-resource/system_proxy_family.rs:476-480 [Reader::read_u32] *)
Definition read_u32 : Reader N := b ← rtake 4; mret (be_val (reverse b)).
(** win32-resource/system_proxy_family.rs:482-486 [Reader::read_len_bytes] *)
Definition read_len_bytes : Reader (list byte) := len ← read_u32; rtake len.

(** win32-resource/system_proxy_family.rs:488-513 [Reader::read_raw_value] *)
Definition read_raw_value : Reader RawValue :=
  tag ← read_u8;
  match tag with
  | x00 => mret RV_Absent
  | x01 => v ← read_u32; mret (RV_Dword v)
  | x02 => type ← read_u32; data ← read_len_bytes; mret (RV_Other type data)
  | x03 =>
      units ← read_len_bytes;
      if negb (Nat.even (length units)) then rfail (invalid_payload "REG_SZ 单元序列长度为奇数")
      else text ← lift (invalid_payload "REG_SZ 含非法 UTF-16 序列") (from_utf16 (bytes_units units));
           mret (RV_Sz text)
  | _ => rfail (invalid_payload "未知 RawValue 标记")
  end.

(** win32-resource/system_proxy_family.rs:166-174 [from_payload]: the entries. *)
Fixpoint read_entries (count : nat) : Reader (list str) :=
  match count with
  | O => mret []
  | S count =>
      entry ← read_len_bytes;
      entry ← lift (invalid_payload "豁免条目非 UTF-8") (from_utf8 entry);
      rest ← read_entries count;
      mret (entry :: rest)
  end.

(** win32-resource/system_proxy_family.rs:147-196 [from_payload]: all fields. *)
Definition read_step : Reader SystemProxyFamilyStep :=
  version ← read_u8;
  if negb (bool_decide (version = PAYLOAD_VERSION)) then rfail (invalid_payload "未知 payload 版本")
  else
    sid ← read_len_bytes;
    sid ← lift (invalid_payload "SID 非 UTF-8") (from_utf8 sid);
    pac ← read_u8;
    if (1 <? byte_val pac)%N then rfail (invalid_payload "pac_detected 标记非法")
    else
      count ← read_u32;
      desired ← read_entries (N.to_nat count);
      enable ← read_raw_value;
      server ← read_raw_value;
      override ← read_raw_value;
      url ← read_raw_value;
      detect ← read_raw_value;
      fingerprint ← read_len_bytes;
      mret (MkStep (MkRaw enable server override url detect) desired sid
              (bool_decide (pac = x01)) fingerprint).

(** win32-resource/system_proxy_family.rs:140-197 [from_payload] *)
Definition from_payload (bytes : list byte) : result NativeError SystemProxyFamilyStep :=
  match read_step bytes with
  | Ok (step, []) => Ok step
  | Ok (_, _) => Err (invalid_payload "payload 存在尾部冗余字节")
  | Err e => Err e
  end.

(** ** Decisions *)

(** win32-resource/system_proxy_family.rs:200-213 [FamilyAction] *)
Inductive FamilyAction := FA_SkipNoOp | FA_MergeAndWrite (merged : str) | FA_PacDetectedSkip.

(** win32-resource/system_proxy_family.rs:215-249 [decide] *)
Definition decide_family (snapshot : SystemProxySnapshot) (desired : list str) : result NativeError FamilyAction :=
  match sn_mode snapshot with
  | SPM_Disabled => Ok FA_SkipNoOp
  | SPM_Automatic => Ok FA_PacDetectedSkip
  | SPM_Manual | SPM_Mixed =>
      match sn_endpoints snapshot with
      | [] => Err (family_malformed "Manual/Mixed 快照却解析不出端点")
      | _ =>
          merged ← merge_bypass_entries (join [SEMICOLON] (sn_bypass_entries snapshot)) desired;
          Ok (FA_MergeAndWrite merged)
      end
  end.

(** win32-resource/system_proxy_family.rs:280-295 [RestoreOp] *)
Inductive RestoreOp := RO_WriteBack (name : ValueName) (value : RawValue) | RO_DeleteValue (name : ValueName).
(** win32-resource/system_proxy_family.rs:297-307 [RestoreDecision] *)
Inductive RestoreDecision := RD_Restore (ops : list RestoreOp) | RD_TypedSkip.

(** The five values with their names, in the order of the source. *)
Definition fields (p : RawInternetSettings) : list (ValueName * RawValue) :=
  [(VN_ProxyEnable, proxy_enable p); (VN_ProxyServer, proxy_server p); (VN_ProxyOverride, proxy_override p);
   (VN_AutoConfigUrl, auto_config_url p); (VN_AutoDetect, auto_detect p)].

(** win32-resource/system_proxy_family.rs:309-341 [compute_restore] *)
Definition compute_restore (prestate : RawInternetSettings) (current_fingerprint written_fingerprint : list byte) :
    RestoreDecision :=
  if negb (bool_decide (current_fingerprint = written_fingerprint)) then RD_TypedSkip
  else RD_Restore ((λ f, match f.2 with
                         | RV_Absent => RO_DeleteValue f.1
                         | v => RO_WriteBack f.1 v
                         end) <$> fields prestate).

(** win32-resource/system_proxy_family.rs:343-357 [ReplayDecision] *)
Inductive ReplayDecision := RP_Restore | RP_AlreadyClean | RP_SkipForfeit.

(** win32-resource/system_proxy_family.rs:359-385 [decide_replay] *)
Definition decide_replay (prestate_fp written_fp current_fp : list byte) : ReplayDecision :=
  if bool_decide (current_fp = written_fp) then
    if negb (bool_decide (written_fp = prestate_fp)) then RP_Restore else RP_AlreadyClean
  else if bool_decide (current_fp = prestate_fp) then RP_AlreadyClean
  else RP_SkipForfeit.

(** ** Reading what was written *)

Definition parses {A} (m : Reader A) (a : A) (bytes : list byte) : Prop := ∀ rest, m (bytes ++ rest) = Ok (a, rest).

Lemma parses_ret {A} (a : A) : parses (mret a) a [].
Proof. intros rest. done. Qed.
Lemma parses_bind {A B} (m : Reader A) (f : A → Reader B) a b l k :
  parses m a l → parses (f a) b k → parses (m ≫= f) b (l ++ k).
Proof. intros Hm Hf rest. unfold mbind, Reader_bind. by rewrite <-app_assoc, Hm. Qed.
Lemma parses_lift {A} e (o : option A) a : o = Some a → parses (lift e o) a [].
Proof. intros -> rest. done. Qed.
(** The last step of a record, or a step that reads nothing. *)
Lemma parses_bind_nil {A B} (m : Reader A) (f : A → Reader B) a b l :
  parses m a l → parses (f a) b [] → parses (m ≫= f) b l.
Proof. intros Hm Hf. rewrite <-(app_nil_r l). by eapply parses_bind. Qed.
Lemma parses_nil_bind {A B} (m : Reader A) (f : A → Reader B) a b l :
  parses m a [] → parses (f a) b l → parses (m ≫= f) b l.
Proof. apply (parses_bind m f a b [] l). Qed.

Lemma rbind_Ok {A B} (m : Reader A) (f : A → Reader B) l b r :
  (m ≫= f) l = Ok (b, r) ↔ ∃ a l', m l = Ok (a, l') ∧ f a l' = Ok (b, r).
Proof. unfold mbind, Reader_bind. destruct (m l) as [[a l']|e]; naive_solver. Qed.
Lemma lift_Ok {A} e (o : option A) l a r : lift e o l = Ok (a, r) ↔ o = Some a ∧ r = l.
Proof. destruct o; unfold lift, mret, Reader_ret, rfail; naive_solver. Qed.
Lemma rret_Ok {A} (a b : A) l r : (mret a : Reader A) l = Ok (b, r) ↔ b = a ∧ r = l.
Proof. unfold mret, Reader_ret. naive_solver. Qed.

Lemma rtake_parses l : parses (rtake (N.of_nat (length l))) l l.
Proof.
  intros rest. unfold rtake. rewrite length_app, (proj2 (N.ltb_ge _ _)) by lia.
  by rewrite Nat2N.id, take_app_length, drop_app_length.
Qed.
Lemma rtake_Ok n l a r : rtake n l = Ok (a, r) ↔ l = a ++ r ∧ N.of_nat (length a) = n.
Proof.
  unfold rtake. destruct (N.ltb_spec (N.of_nat (length l)) n) as [Hl|Hl].
  - split; [done|]. intros [-> <-]. rewrite length_app in Hl. lia.
  - split.
    + intros [= <- <-]. rewrite take_drop, length_take. split; [done|]. lia.
    + intros [-> <-]. by rewrite Nat2N.id, take_app_length, drop_app_length.
Qed.

Lemma read_u8_parses b : parses read_u8 b [b].
Proof. eapply (parses_bind_nil _ _ [b]); [apply (rtake_parses [b])|apply parses_ret]. Qed.
Lemma read_u8_Ok l b r : read_u8 l = Ok (b, r) ↔ l = b :: r.
Proof.
  unfold read_u8. rewrite rbind_Ok. setoid_rewrite rtake_Ok. setoid_rewrite rret_Ok. split.
  - intros (a & l' & [-> Ha] & -> & ->).
    destruct a as [|b' [|]]; simpl in *; [lia|done|lia].
  - intros ->. by exists [b], r.
Qed.
Lemma read_u32_parses v : (v < 2 ^ 32)%N → parses read_u32 v (push_u32 v).
Proof.
  intros Hv. destruct (le_u32 v Hv) as [Hl Hr]. unfold read_u32, push_u32. eapply parses_bind_nil.
  - pose proof (rtake_parses (le_bytes 4 v)) as Hp. rewrite Hl in Hp. exact Hp.
  - rewrite Hr. apply parses_ret.
Qed.
Lemma read_u32_Ok l v r : read_u32 l = Ok (v, r) → (v < 2 ^ 32)%N ∧ l = push_u32 v ++ r.
Proof.
  unfold read_u32. intros (a & l' & [-> Ha]%rtake_Ok & [-> ->]%rret_Ok)%rbind_Ok.
  assert (length a = 4) as Hl by lia. split.
  - pose proof (be_val_lt (reverse a)) as Hb. by rewrite length_reverse, Hl in Hb.
  - unfold push_u32, le_bytes. pose proof (be_bytes_be_val (reverse a)) as Hb.
    rewrite length_reverse, Hl in Hb. by rewrite Hb, reverse_involutive.
Qed.

Definition short {A} (l : list A) : Prop := (N.of_nat (length l) < 2 ^ 32)%N.
Lemma short_len {A} (l : list A) : short l → len_u32 (length l) = N.of_nat (length l).
Proof. unfold short, len_u32. lia. Qed.

Lemma read_len_bytes_parses l : short l → parses read_len_bytes l (push_len_bytes l).
Proof.
  intros Hs. unfold read_len_bytes, push_len_bytes. rewrite short_len by done.
  eapply parses_bind; [by apply read_u32_parses|]. apply rtake_parses.
Qed.
Lemma read_len_bytes_Ok l a r : read_len_bytes l = Ok (a, r) → short a ∧ l = push_len_bytes a ++ r.
Proof.
  unfold read_len_bytes. intros (n & l' & [Hn ->]%read_u32_Ok & [-> <-]%rtake_Ok)%rbind_Ok.
  split; [done|]. unfold push_len_bytes. by rewrite short_len, <-app_assoc.
Qed.

(** *** Values *)

Definition value_ok (v : RawValue) : Prop :=
  match v with
  | RV_Absent => True
  | RV_Dword n => (n < 2 ^ 32)%N
  | RV_Sz text => str_ok text ∧ short (units_bytes (encode_utf16 text))
  | RV_Other type data => (type < 2 ^ 32)%N ∧ short data
  end.

Lemma read_raw_value_parses v : value_ok v → parses read_raw_value v (push_raw_value v).
Proof.
  unfold read_raw_value. destruct v as [|n|text|type data]; cbn [value_ok push_raw_value]; intros Hv.
  - eapply (parses_bind _ _ _ _ [x00] []); [apply read_u8_parses|apply parses_ret].
  - eapply (parses_bind _ _ _ _ [x01]); [apply read_u8_parses|].
    eapply parses_bind_nil; [by apply read_u32_parses|apply parses_ret].
  - destruct Hv as [Hs Hl]. eapply (parses_bind _ _ _ _ [x03]); [apply read_u8_parses|].
    eapply parses_bind_nil; [by apply read_len_bytes_parses|]. simpl.
    rewrite length_units_bytes, Nat.even_mul. simpl.
    eapply parses_nil_bind; [|apply parses_ret]. apply parses_lift.
    rewrite bytes_units_bytes by (by apply encode_utf16_units). by apply from_utf16_encode.
  - destruct Hv as [Ht Hd]. eapply (parses_bind _ _ _ _ [x02]); [apply read_u8_parses|].
    eapply parses_bind; [by apply read_u32_parses|].
    eapply parses_bind_nil; [by apply read_len_bytes_parses|apply parses_ret].
Qed.

Lemma read_raw_value_Ok l v r : read_raw_value l = Ok (v, r) → value_ok v ∧ l = push_raw_value v ++ r.
Proof.
  unfold read_raw_value. intros (tag & l' & ->%read_u8_Ok & H)%rbind_Ok.
  destruct tag; try discriminate H.
  - apply rret_Ok in H as [-> ->]. done.
  - apply rbind_Ok in H as (n & l2 & [Hn ->]%read_u32_Ok & [-> ->]%rret_Ok). done.
  - apply rbind_Ok in H as (n & l2 & [Hn ->]%read_u32_Ok & H).
    apply rbind_Ok in H as (d & l3 & [Hd ->]%read_len_bytes_Ok & [-> ->]%rret_Ok).
    split; [done|]. cbn [push_raw_value]. by rewrite <-app_comm_cons, <-app_assoc.
  - apply rbind_Ok in H as (d & l2 & [Hd ->]%read_len_bytes_Ok & H).
    destruct (Nat.even (length d)) eqn:He; [|done]. simpl in H.
    apply rbind_Ok in H as (t & l3 & [Ht ->]%lift_Ok & [-> ->]%rret_Ok).
    apply encode_from_utf16 in Ht as [Ht Hs]; [|by eapply bytes_units_ok].
    cbn [value_ok push_raw_value]. rewrite Ht, (units_bytes_units _ d) by done. done.
Qed.

(** *** Entries *)

(** A text the bytes of a Rust string can hold. *)
Definition is_text (s : str) : Prop := from_utf8 (utf8 s) = Some s ∧ short (utf8 s).
Lemma from_utf8_text l s : from_utf8 l = Some s → utf8 s = l.
Proof. unfold from_utf8. case_bool_decide; naive_solver. Qed.

Lemma read_entries_parses es : Forall is_text es →
  parses (read_entries (length es)) es (es ≫= λ e, push_len_bytes (utf8 e)).
Proof.
  induction 1 as [|e es [He Hs] Hes IH]; [apply parses_ret|]. rewrite bind_cons. cbn [length read_entries].
  eapply parses_bind; [by apply read_len_bytes_parses|].
  eapply parses_nil_bind; [by apply parses_lift|].
  eapply parses_bind_nil; [exact IH|apply parses_ret].
Qed.
Lemma read_entries_Ok n : ∀ l es r, read_entries n l = Ok (es, r) →
  length es = n ∧ Forall is_text es ∧ l = (es ≫= λ e, push_len_bytes (utf8 e)) ++ r.
Proof.
  induction n as [|n IH]; intros l es r; cbn [read_entries].
  - intros [-> ->]%rret_Ok. by split_and!; [|constructor|].
  - intros (e & l2 & [He ->]%read_len_bytes_Ok & H)%rbind_Ok.
    apply rbind_Ok in H as (t & l3 & [Ht ->]%lift_Ok & H).
    apply rbind_Ok in H as (ts & l4 & (<- & Hts & ->)%IH & [-> ->]%rret_Ok).
    apply from_utf8_text in Ht as Hu. split_and!; [done| |].
    + constructor; [|done]. split; by rewrite Hu.
    + rewrite bind_cons, Hu. by rewrite <-app_assoc.
Qed.

(** *** Records *)

Definition step_ok (s : SystemProxyFamilyStep) : Prop :=
  is_text (st_originating_sid s) ∧ short (st_desired_entries s) ∧ Forall is_text (st_desired_entries s) ∧
  (∀ v, value_ok (field (st_prestate s) v)) ∧ short (st_written_fingerprint s).

Lemma read_step_parses s : step_ok s → parses read_step s (to_payload s).
Proof.
  intros ((Hsid & Hsids) & Hn & He & Hv & Hf). unfold read_step, to_payload.
  eapply parses_bind; [apply read_u8_parses|]. simpl negb. cbv iota.
  eapply parses_bind; [by apply read_len_bytes_parses|].
  eapply parses_nil_bind; [by apply parses_lift|].
  eapply parses_bind; [apply read_u8_parses|].
  replace (1 <? byte_val (if st_pac_detected s then x01 else x00))%N with false by (by destruct (st_pac_detected s)).
  rewrite short_len by done.
  eapply parses_bind; [by apply read_u32_parses|]. rewrite Nat2N.id.
  eapply parses_bind; [by apply read_entries_parses|].
  eapply parses_bind; [apply read_raw_value_parses, (Hv VN_ProxyEnable)|].
  eapply parses_bind; [apply read_raw_value_parses, (Hv VN_ProxyServer)|].
  eapply parses_bind; [apply read_raw_value_parses, (Hv VN_ProxyOverride)|].
  eapply parses_bind; [apply read_raw_value_parses, (Hv VN_AutoConfigUrl)|].
  eapply parses_bind; [apply read_raw_value_parses, (Hv VN_AutoDetect)|].
  eapply parses_bind_nil; [by apply read_len_bytes_parses|].
  intros rest. by destruct s as [[] ? ? [] ?].
Qed.

Lemma read_step_Ok l s r : read_step l = Ok (s, r) → step_ok s ∧ l = to_payload s ++ r.
Proof.
  unfold read_step. intros (v & l1 & ->%read_u8_Ok & H)%rbind_Ok.
  case_bool_decide as Hv; [subst v; simpl in H|done].
  apply rbind_Ok in H as (sb & l2 & [Hsb ->]%read_len_bytes_Ok & H).
  apply rbind_Ok in H as (sid & l3 & [Hsid ->]%lift_Ok & H).
  apply rbind_Ok in H as (pac & l4 & ->%read_u8_Ok & H).
  destruct (N.ltb_spec 1 (byte_val pac)) as [|Hpac]; [done|].
  apply rbind_Ok in H as (n & l5 & [Hn ->]%read_u32_Ok & H).
  apply rbind_Ok in H as (es & l6 & (Hlen & Hes & ->)%read_entries_Ok & H).
  apply rbind_Ok in H as (v1 & l7 & [Hv1 ->]%read_raw_value_Ok & H).
  apply rbind_Ok in H as (v2 & l8 & [Hv2 ->]%read_raw_value_Ok & H).
  apply rbind_Ok in H as (v3 & l9 & [Hv3 ->]%read_raw_value_Ok & H).
  apply rbind_Ok in H as (v4 & l10 & [Hv4 ->]%read_raw_value_Ok & H).
  apply rbind_Ok in H as (v5 & l11 & [Hv5 ->]%read_raw_value_Ok & H).
  apply rbind_Ok in H as (fp & l12 & [Hfp ->]%read_len_bytes_Ok & [-> ->]%rret_Ok).
  apply from_utf8_text in Hsid as Hu.
  assert (N.of_nat (length es) = n) as Hnn by lia. split.
  - split; [split; simpl; by rewrite Hu|]. split; [unfold short; simpl; by rewrite Hnn|].
    split; [done|]. split; [intros []; done|done].
  - unfold to_payload. cbn [st_originating_sid st_pac_detected st_desired_entries st_prestate st_written_fingerprint
      proxy_enable proxy_server proxy_override auto_config_url auto_detect].
    rewrite Hu, short_len, Hnn by (unfold short; by rewrite Hnn).
    replace (if bool_decide (pac = x01) then x01 else x00) with pac
      by (destruct pac; try reflexivity; vm_compute in Hpac; done).
    by rewrite <-!app_assoc.
Qed.

Lemma from_payload_Ok b s : from_payload b = Ok s ↔ step_ok s ∧ b = to_payload s.
Proof.
  unfold from_payload. split.
  - destruct (read_step b) as [[s' [|]]|] eqn:E; [|done..]. intros [= <-].
    apply read_step_Ok in E as [Hs ->]. by rewrite app_nil_r.
  - intros [Hs ->]. pose proof (read_step_parses s Hs []) as Hp. rewrite app_nil_r in Hp. by rewrite Hp.
Qed.

(** *** Cut records *)

Definition is_truncated (e : NativeError) : Prop := ne_code e = N.lor NATIVE_CODE_FLAG 2.

(** More bytes change the answer of a reader only when it ran out of them. *)
Definition stable {A} (m : Reader A) : Prop := ∀ l q,
  match m l with
  | Ok (a, r) => m (l ++ q) = Ok (a, r ++ q)
  | Err e => is_truncated e ∨ m (l ++ q) = Err e
  end.

Lemma stable_ret {A} (a : A) : stable (mret a).
Proof. intros l q. done. Qed.
Lemma stable_fail {A} e : stable (rfail e : Reader A).
Proof. intros l q. by right. Qed.
Lemma stable_lift {A} e (o : option A) : stable (lift e o).
Proof. destruct o; [apply stable_ret|apply stable_fail]. Qed.
Lemma stable_bind {A B} (m : Reader A) (f : A → Reader B) : stable m → (∀ a, stable (f a)) → stable (m ≫= f).
Proof.
  intros Hm Hf l q. specialize (Hm l q). unfold mbind, Reader_bind.
  destruct (m l) as [[a r]|e].
  - rewrite Hm. apply Hf.
  - destruct Hm as [?| ->]; [by left|by right].
Qed.
Lemma stable_rtake n : stable (rtake n).
Proof.
  intros l q. destruct (rtake n l) as [[a r]|e] eqn:E.
  - apply rtake_Ok in E as [-> Hn]. apply rtake_Ok. by rewrite app_assoc.
  - left. unfold rtake in E. destruct (_ <? _)%N; by simplify_eq.
Qed.
Create HintDb stable.
#[export] Hint Resolve stable_ret stable_fail stable_lift stable_rtake : stable.
#[export] Hint Extern 2 (stable (_ ≫= _)) => apply stable_bind; [|intros ?] : stable.
#[export] Hint Extern 3 (stable (if ?b then _ else _)) => destruct b : stable.

Lemma stable_read_u8 : stable read_u8.
Proof. unfold read_u8. auto with stable. Qed.
Lemma stable_read_u32 : stable read_u32.
Proof. unfold read_u32. auto with stable. Qed.
#[export] Hint Resolve stable_read_u8 stable_read_u32 : stable.
Lemma stable_read_len_bytes : stable read_len_bytes.
Proof. unfold read_len_bytes. auto with stable. Qed.
#[export] Hint Resolve stable_read_len_bytes : stable.
Lemma stable_read_raw_value : stable read_raw_value.
Proof. unfold read_raw_value. apply stable_bind; [auto with stable|]. intros []; auto 10 with stable. Qed.
Lemma stable_read_entries n : stable (read_entries n).
Proof. induction n; simpl; auto 10 with stable. Qed.
#[export] Hint Resolve stable_read_raw_value stable_read_entries : stable.
Lemma stable_read_step : stable read_step.
Proof. unfold read_step. auto 40 with stable. Qed.

(** A payload decodes exactly when it is the encoding of a record, and to that
    record; a payload cut short anywhere is reported as truncated. *)
Theorem payload_codec s b :
  (from_payload b = Ok s ↔ step_ok s ∧ b = to_payload s) ∧
  (from_payload b = Ok s → ∀ k, k < length b →
    ∃ e, from_payload (take k b) = Err e ∧ is_truncated e).
Proof.
  split; [apply from_payload_Ok|]. intros [Hs ->]%from_payload_Ok k Hk.
  pose proof (read_step_parses s Hs []) as Hp. rewrite app_nil_r in Hp.
  pose proof (stable_read_step (take k (to_payload s)) (drop k (to_payload s))) as Hst.
  rewrite take_drop, Hp in Hst. unfold from_payload.
  destruct (read_step (take k (to_payload s))) as [[s' r]|e].
  - injection Hst as Hs' Hr. symmetry in Hr. apply app_eq_nil in Hr as [_ Hd].
    apply (f_equal length) in Hd. rewrite length_drop in Hd. change (length []) with 0 in Hd. lia.
  - destruct Hst as [Ht|Hst]; [eauto|done].
Qed.

(** A step of a manual proxy. *)
Definition sample_step : SystemProxyFamilyStep :=
  MkStep (MkRaw (RV_Dword 1) (RV_Sz (lit "127.0.0.1:7890")) RV_Absent RV_Absent (RV_Other 3 [xff]))
    [lit "10.*"] (lit "S-1-5-21") false [x01; x02].

Lemma payload_codec_witness :
  from_payload (to_payload sample_step) = Ok sample_step ∧
  ∃ e, from_payload (take 20 (to_payload sample_step)) = Err e ∧ is_truncated e.
Proof.
  assert (from_payload (to_payload sample_step) = Ok sample_step) as H by (vm_compute; reflexivity).
  split; [exact H|]. apply (payload_codec sample_step (to_payload sample_step)); [exact H|].
  apply Nat.ltb_lt. vm_compute. reflexivity.
Defined.

(** With the proxy disabled and an automatic configuration, the settings are automatic
    and the tunnel redirects their URL, but the record says it has no effect. *)
Example automatic_step_without_effect :
  let raw := MkRaw (RV_Dword 0) RV_Absent RV_Absent (RV_Sz (lit "http://127.0.0.1/p.pac")) RV_Absent in
  (sn_mode <$> snapshot_from_raw raw) = Ok SPM_Automatic ∧
  prestate_has_effect (MkStep raw [] (lit "S-1-5-21") true []) = false.
Proof. split; vm_compute; reflexivity. Qed.
