(* ===== verification/Pac.v ===== *)
(** * Wrapping an automatic proxy configuration

    [system_proxy_pac.rs] of the Windows resource crate: the download of the user's PAC
    script, the script around it that lets the campus networks through, and the answer
    of the loopback endpoint that serves it.

    The connection is the chunks its reads return and how they end. How Rust prints a string for
    debugging ([str_debug]) goes to an error message only and is a parameter; the thread
    that accepts connections is left out, the answer it writes is [serve_one]. *)

From Stdlib Require Import NArith ZArith Strings.Byte Lia.
From S2P Require Import Prelude Text Utf16 NativeError SystemProxy.

(** ** The wrapper *)

(** win32-resource/system_proxy_pac.rs:15-16 [PAC_SERVE_PATH] *)
Definition PAC_SERVE_PATH : str := lit "/proxy.pac".
(** win32-resource/system_proxy_pac.rs:21-22 [DECLARATION_TEXT] *)
Definition DECLARATION_TEXT : str := lit "function FindProxyForURL".
(** win32-resource/system_proxy_pac.rs:24-28 [ORIGINAL_FN_ALIAS] *)
Definition ORIGINAL_FN_ALIAS : str := lit "__exv_original_FindProxyForURL".
(** win32-resource/system_proxy_pac.rs:30-31 [MAX_SCRIPT_BYTES] *)
Definition MAX_SCRIPT_BYTES : N := 8 * 1024 * 1024.
(** win32-resource/system_proxy_pac.rs:33-35 [WRAP_BEGIN_MARK] *)
Definition WRAP_BEGIN_MARK : str := lit "// ==== EXV PAC wrap begin (one-shot open-loop wrapper) ====".
Definition WRAP_END_MARK : str := lit "// ==== EXV PAC wrap end ====".

(** win32-resource/system_proxy_pac.rs:37-44 [err_unwrappable] *)
Definition err_unwrappable (reason : string) : NativeError :=
  MkNativeError NEK_Protocol 0 ("pac_script_unwrappable: " +:+ reason).
(** win32-resource/system_proxy_pac.rs:46-53 [err_fetch] *)
Definition err_fetch (kind : NativeErrorKind) (code : N) (reason : string) : NativeError :=
  MkNativeError kind code reason.

(** win32-resource/system_proxy_pac.rs:176-192 [js_quote] *)
Definition js_char (c : N) : str :=
  (if c =? 92 then [92; 92]
   else if c =? 34 then [92; 34]
   else if c =? 10 then [92; 110]
   else if c =? 13 then [92; 114]
   else if c =? 9 then [92; 116]
   else [c])%N.
Definition js_quote (value : str) : str := [QUOTE] ++ (value ≫= js_char) ++ [QUOTE].

(** [str::strip_suffix] and [str::ends_with]. *)
Definition strip_suffix (p s : str) : option str := reverse <$> strip_prefix (reverse p) (reverse s).
Definition ends_with_char (c : N) (s : str) : bool := bool_decide (last s = Some c).

(** win32-resource/system_proxy_pac.rs:147-172 [emit_exempt_conditions]: one entry. *)
Definition emit_exempt_condition (entry : str) : str :=
  let trimmed := trim entry in
  if bool_decide (trimmed = []) || bool_decide (trimmed = lit "*") then []
  else
    let lowered := to_ascii_lowercase trimmed in
    match strip_suffix (lit ".*") lowered with
    | Some base =>
        let prefix := if ends_with_char 46 base then base else base ++ [46%N] in
        lit "  if (h.lastIndexOf(" ++ js_quote prefix ++ lit ", 0) === 0 && h.length > "
        ++ to_dec (N.of_nat (length prefix)) ++ lit ") { return true; }" ++ [LF]
    | None => lit "  if (h === " ++ js_quote lowered ++ lit ") { return true; }" ++ [LF]
    end.
(** win32-resource/system_proxy_pac.rs:138-174 [emit_exempt_conditions] *)
Definition emit_exempt_conditions (exempt : list str) : str := exempt ≫= emit_exempt_condition.

Definition js_line (s : string) : str := qlit s ++ [LF].

(** win32-resource/system_proxy_pac.rs:119-136 [build_wrapper_source] *)
Definition build_wrapper_source (exempt : list str) : str :=
  js_line "function __exv_is_exempt(host) {"
  ++ js_line "  var h = String(host || ``).toLowerCase();"
  ++ emit_exempt_conditions exempt
  ++ js_line "  return false;"
  ++ js_line "}"
  ++ js_line "function FindProxyForURL(url, host) {"
  ++ js_line "  if (__exv_is_exempt(host)) { return `DIRECT`; }"
  ++ js_line "  try {"
  ++ lit "    return " ++ ORIGINAL_FN_ALIAS ++ js_line "(url, host);"
  ++ js_line "  } catch (e) {"
  ++ js_line "    return `DIRECT`;"
  ++ js_line "  }"
  ++ js_line "}".

(** win32-resource/system_proxy_pac.rs:194-225 [brackets_balanced]: the depths of the three
    kinds of brackets, with the early return at a negative one. *)
Definition depth_step (opening closing c : N) (d : Z) : option Z :=
  if (c =? opening)%N then Some (d + 1)%Z
  else if (c =? closing)%N then if (d - 1 <? 0)%Z then None else Some (d - 1)%Z
  else Some d.
Fixpoint balanced_from (paren brace brack : Z) (text : str) : bool :=
  match text with
  | [] => (paren =? 0)%Z && (brace =? 0)%Z && (brack =? 0)%Z
  | c :: text =>
      match depth_step 40 41 c paren, depth_step 123 125 c brace, depth_step 91 93 c brack with
      | Some paren, Some brace, Some brack => balanced_from paren brace brack text
      | _, _, _ => false
      end
  end.
Definition brackets_balanced (text : str) : bool := balanced_from 0 0 0 text.

(** [s.matches(p).count()] for a nonempty pattern. *)
Definition count_matches (p s : str) : nat := length (split_str p s) - 1.

(** win32-resource/system_proxy_pac.rs:96-110 [wrap_pac_script]: the assembled script. *)
Definition assemble (original : str) (exempt : list str) : str :=
  let renamed := replace (lit "FindProxyForURL") ORIGINAL_FN_ALIAS original in
  renamed ++ (if ends_with_char LF renamed then [] else [LF]) ++ [LF]
  ++ WRAP_BEGIN_MARK ++ [LF] ++ build_wrapper_source exempt ++ WRAP_END_MARK ++ [LF].

(** win32-resource/system_proxy_pac.rs:55-117 [wrap_pac_script] *)
Definition wrap_pac_script (original : str) (exempt : list str) : result NativeError str :=
  if bool_decide (trim original = []) then Err (err_unwrappable "empty script")
  else if contains ORIGINAL_FN_ALIAS original
  then Err (err_unwrappable "script already carries the EXV wrapper alias")
  else match count_matches DECLARATION_TEXT original with
  | 1 =>
      let out := assemble original exempt in
      if negb (brackets_balanced out) then Err (err_unwrappable "bracket imbalance in assembled script")
      else Ok out
  | 0 => Err (err_unwrappable "no `function FindProxyForURL` declaration found")
  | n => Err (err_unwrappable (message (to_dec (N.of_nat n)) +:+
                " `function FindProxyForURL` declarations found, exactly 1 required"))
  end.

(** ** The download *)

Section fetch.
(** How a string is printed for debugging. *)
Variable str_debug : str → str.

(** win32-resource/system_proxy_pac.rs:550-565 [split_host_port] *)
Definition split_host_port (authority : str) : result NativeError (str * N) :=
  match rsplit_once COLON authority with
  | Some (host, port) =>
      match parse_u16 port with
      | Some parsed => Ok (to_ascii_lowercase host, parsed)
      | None => Err (err_fetch NEK_Unsupported 0
                  ("pac_fetch_unsupported_url: bad port " +:+ message (str_debug port)))
      end
  | None => Ok (to_ascii_lowercase authority, 80%N)
  end.

Definition ends_authority (c : N) : bool := (c =? 47)%N || (c =? 63)%N || (c =? 35)%N.

(** win32-resource/system_proxy_pac.rs:518-548 [parse_loopback_http_url]: the port; the
    address is always 127.0.0.1. *)
Definition parse_loopback_http_url (url : str) : result NativeError N :=
  rest ← match strip_prefix (lit "https://") url with
         | Some _ =>
             Err (err_fetch NEK_Unsupported 0
               ("pac_fetch_https_unsupported: https PAC URL unsupported in v1 (most proxy PACs are local http://127.0.0.1): "
                +:+ message url))
         | None =>
             ok_or (strip_prefix (lit "http://") url)
               (err_fetch NEK_Unsupported 0 ("pac_fetch_unsupported_url: " +:+ message url))
         end;
  hp ← split_host_port (before_if ends_authority rest);
  if negb (bool_decide (fst hp = lit "127.0.0.1"))
  then Err (err_fetch NEK_Unsupported 0
         ("pac_fetch_unsupported_url: only 127.0.0.1 hosts allowed, got " +:+ message (fst hp)))
  else Ok (snd hp).

(** [windows(4).position(..)]. *)
(** win32-resource/system_proxy_pac.rs:513-516 [find_header_end] *)
Definition find_header_end (raw : list byte) : option nat :=
  find (byte_val <$> [x0d; x0a; x0d; x0a]) (byte_val <$> raw).

Definition parse_u32 : str → option N := parse_uint 10 (2 ^ 32 - 1).

(** win32-resource/system_proxy_pac.rs:469-511 [parse_http_response] *)
Definition parse_http_response (raw : list byte) (url : str) : result NativeError str :=
  match find_header_end raw with
  | None => Err (err_fetch NEK_Protocol 0 ("pac_fetch_malformed_response: " +:+ message url))
  | Some split_at =>
      let head := from_utf8_lossy (take split_at raw) in
      let status_line := default [] (split_str crlf head !! 0) in
      let parts := split_str [32%N] status_line in
      let version_ok := match parts !! 0 with Some v => starts_with (lit "HTTP/") v | None => false end in
      let code := parts !! 1 ≫= parse_u32 in
      let malformed := Err (err_fetch NEK_Protocol 0
        ("pac_fetch_malformed_response: " +:+ message url +:+ ": " +:+ message (str_debug status_line))) in
      match version_ok, code with
      | true, Some code =>
          if (code =? 200)%N then
            ok_or (from_utf8 (drop (split_at + 4) raw))
              (err_fetch NEK_Protocol 0 ("pac_fetch_invalid_utf8: " +:+ message url))
          else Err (err_fetch NEK_Protocol (N.min code 65535)
                 ("pac_fetch_http_status_" +:+ message (to_dec code) +:+ ": " +:+ message url))
      | _, _ => malformed
      end
  end.

(** An I/O error: its code, where it has one, and its text. *)
Record IoError := MkIoError { io_raw : option Z; io_text : str }.
(** [e.raw_os_error().map_or(0, |c| u32::try_from(c).unwrap_or(0))]. *)
Definition io_code (e : IoError) : N :=
  match io_raw e with Some c => if (0 <=? c)%Z then Z.to_N c else 0%N | None => 0%N end.

(** How the reads end: the deadline has passed, the end of the stream, a time-out, or
    another error. *)
Inductive PacEnd := PE_Expired | PE_Eof | PE_TimedOut | PE_Error (e : IoError).

(** win32-resource/system_proxy_pac.rs:413-457 [fetch_via_stream]: the read loop, over the
    chunks that arrive and what comes after them. *)
Fixpoint read_response (chunks : list (list byte)) (fin : PacEnd) (raw : list byte) (url : str) :
    result NativeError (list byte) :=
  match chunks with
  | [] =>
      match fin with
      | PE_Expired | PE_TimedOut => Err (err_fetch NEK_Transport 0 ("pac_fetch_timeout: " +:+ message url))
      | PE_Eof => Ok raw
      | PE_Error e =>
          Err (err_fetch NEK_Transport (io_code e)
            ("pac_fetch_read_failed: " +:+ message url +:+ ": " +:+ message (io_text e)))
      end
  | chunk :: chunks =>
      let raw := raw ++ chunk in
      if (MAX_SCRIPT_BYTES <? N.of_nat (length raw))%N
      then Err (err_fetch NEK_Protocol 0 ("pac_fetch_too_large: " +:+ message url))
      else read_response chunks fin raw url
  end.

(** win32-resource/system_proxy_pac.rs:403-404 [fetch_via_stream]: the request. *)
Definition pac_request : list byte :=
  utf8 (lit "GET " ++ PAC_SERVE_PATH ++ lit " HTTP/1.0" ++ crlf ++ lit "Host: 127.0.0.1" ++ crlf
        ++ lit "Connection: close" ++ crlf ++ crlf).

(** What the network does for a download: the connection, the two time-outs, the request
    and the reads. *)
Record PacNet := MkPacNet {
  pn_connect : option IoError;
  pn_read_timeout : option IoError;
  pn_write_timeout : option IoError;
  pn_write : option IoError;
  pn_chunks : list (list byte);
  pn_end : PacEnd;
}.

(** win32-resource/system_proxy_pac.rs:401-460 [fetch_via_stream]: the bytes sent, and the
    script. *)
Definition fetch_via_stream (n : PacNet) (url : str) : list byte * result NativeError str :=
  match pn_write n with
  | Some e => ([], Err (err_fetch NEK_Transport (io_code e)
                ("pac_fetch_request_write_failed: " +:+ message url +:+ ": " +:+ message (io_text e))))
  | None =>
      (pac_request,
       raw ← read_response (pn_chunks n) (pn_end n) [] url;
       parse_http_response raw url)
  end.

(** win32-resource/system_proxy_pac.rs:368-399 [fetch_pac_script]: [net] is what happens on a
    port of 127.0.0.1. *)
Definition fetch_pac_script (net : N → PacNet) (url : str) : result NativeError str :=
  port ← parse_loopback_http_url url;
  let n := net port in
  let failed (code : N) (what : string) (e : IoError) :=
    Err (err_fetch NEK_Transport code
      ("pac_fetch_connect_failed: " +:+ message url +:+ ": " +:+ what +:+ message (io_text e))) in
  match pn_connect n, pn_read_timeout n, pn_write_timeout n with
  | Some e, _, _ => failed (io_code e) "" e
  | None, Some e, _ => failed 0%N "set_read_timeout: " e
  | None, None, Some e => failed 0%N "set_write_timeout: " e
  | None, None, None => snd (fetch_via_stream n url)
  end.
End fetch.

(** ** The endpoint *)

(** win32-resource/system_proxy_pac.rs:227-243 [PacEndpoint]: the port; the thread serves
    until the value is dropped. *)
Record PacEndpoint := MkPacEndpoint { ep_port : N }.

(** win32-resource/system_proxy_pac.rs:292-296 [PacEndpoint::url] *)
Definition endpoint_url (e : PacEndpoint) : str :=
  lit "http://127.0.0.1:" ++ to_dec (ep_port e) ++ PAC_SERVE_PATH.

(** win32-resource/system_proxy_pac.rs:344-366 [serve_one]: the answer to any request. *)
Definition serve_one (script : str) : list byte :=
  utf8 (lit "HTTP/1.0 200 OK" ++ crlf
        ++ lit "Content-Type: application/x-ns-proxy-autoconfig" ++ crlf
        ++ lit "Content-Length: " ++ to_dec (N.of_nat (length (utf8 script))) ++ crlf
        ++ lit "Connection: close" ++ crlf ++ crlf)
  ++ utf8 script.

(** ** Properties *)

(** A double-quoted string literal of JavaScript after its opening quote, with the escapes
    of the wrapper: its value and what follows the closing quote. A line break is not
    allowed in it. *)
Fixpoint js_string (s : str) : option (str * str) :=
  match s with
  | [] => None
  | c :: s =>
      if (c =? 34)%N then Some ([], s)
      else if (c =? 92)%N then
        match s with
        | [] => None
        | d :: s =>
            v ← (if (d =? 92)%N then Some 92%N else if (d =? 34)%N then Some 34%N
                 else if (d =? 110)%N then Some 10%N else if (d =? 114)%N then Some 13%N
                 else if (d =? 116)%N then Some 9%N else None);
            r ← js_string s; Some (v :: r.1, r.2)
        end
      else if (c =? 10)%N || (c =? 13)%N then None
      else r ← js_string s; Some (c :: r.1, r.2)
  end.
Definition js_literal (s : str) : option (str * str) :=
  match s with c :: s => if (c =? 34)%N then js_string s else None | [] => None end.

Lemma js_string_char c s :
  js_string (js_char c ++ s) = (r ← js_string s; Some (c :: r.1, r.2)).
Proof.
  unfold js_char.
  destruct (N.eqb_spec c 92) as [->|H1]; [done|]. destruct (N.eqb_spec c 34) as [->|H2]; [done|].
  destruct (N.eqb_spec c 10) as [->|H3]; [done|]. destruct (N.eqb_spec c 13) as [->|H4]; [done|].
  destruct (N.eqb_spec c 9) as [->|H5]; [done|]. cbn [app js_string].
  rewrite (proj2 (N.eqb_neq c 34) H2), (proj2 (N.eqb_neq c 92) H1),
    (proj2 (N.eqb_neq c 10) H3), (proj2 (N.eqb_neq c 13) H4). done.
Qed.

(** An exemption entry written into the script is one string literal whose value is the
    entry, whatever characters it has: it cannot end the literal early. *)
Theorem js_quote_literal value rest : js_literal (js_quote value ++ rest) = Some (value, rest).
Proof.
  unfold js_quote. rewrite <-!app_assoc. simpl.
  induction value as [|c value IH]; [done|].
  rewrite bind_cons, <-app_assoc, js_string_char. simpl in IH. by rewrite IH.
Qed.

Definition is_ascii (s : str) : bool := forallb (λ c, (c <? 128)%N) s.
Lemma is_ascii_spec s : is_ascii s = true → Forall (λ c, (c < 128)%N) s.
Proof.
  unfold is_ascii. rewrite forallb_forall, Forall_forall. intros H c Hc.
  by apply N.ltb_lt, H, list_elem_of_In.
Qed.
Lemma to_dec_ascii n : is_ascii (to_dec n) = true.
Proof.
  unfold is_ascii. rewrite forallb_forall. intros c Hc%list_elem_of_In. apply N.ltb_lt.
  pose proof (proj1 (Forall_forall _ _) (to_dec_digits n) c Hc) as Hd. simpl in Hd.
  apply in_range_spec in Hd. lia.
Qed.
Lemma is_ascii_app a b : is_ascii (a ++ b) = is_ascii a && is_ascii b.
Proof. apply forallb_app. Qed.
Lemma ascii_str_ok s : is_ascii s = true → str_ok s.
Proof.
  intros H%is_ascii_spec. eapply Forall_impl; [exact H|]. intros c Hc. simpl in Hc.
  apply is_scalar_spec. lia.
Qed.

(** The head of the answer of the endpoint. *)
Definition serve_head1 : str :=
  lit "HTTP/1.0 200 OK" ++ crlf ++ lit "Content-Type: application/x-ns-proxy-autoconfig" ++ crlf
  ++ lit "Content-Length: ".
Definition serve_head2 : str := crlf ++ lit "Connection: close".
Definition serve_head (script : str) : str :=
  serve_head1 ++ to_dec (N.of_nat (length (utf8 script))) ++ serve_head2.

Lemma serve_one_head script : serve_one script = utf8 (serve_head script) ++ utf8 (crlf ++ crlf) ++ utf8 script.
Proof.
  rewrite (app_assoc (utf8 (serve_head script)) (utf8 (crlf ++ crlf)) (utf8 script)), <-utf8_app.
  unfold serve_one. f_equal. f_equal. unfold serve_head, serve_head1, serve_head2. by rewrite <-!app_assoc.
Qed.
Lemma serve_head_ascii script : is_ascii (serve_head script) = true.
Proof. unfold serve_head. by rewrite !is_ascii_app, to_dec_ascii. Qed.

Lemma find_serve_head script post :
  find (crlf ++ crlf) (serve_head script ++ (crlf ++ crlf) ++ post) = Some (length (serve_head script)).
Proof.
  unfold serve_head. rewrite <-!app_assoc.
  rewrite find_avoids by (vm_compute; reflexivity).
  change (crlf ++ crlf) with (CR :: [LF; CR; LF]) at 1.
  rewrite find_fresh_prefix by (by apply to_dec_no_char).
  change (CR :: [LF; CR; LF]) with (crlf ++ crlf). rewrite find_avoids by (vm_compute; reflexivity).
  rewrite app_assoc. replace (find (crlf ++ crlf) ((crlf ++ crlf) ++ post)) with (Some 0) by done.
  cbn [fmap option_fmap option_map]. f_equal. rewrite !length_app. lia.
Qed.
Lemma serve_header_end script : find_header_end (serve_one script) = Some (length (utf8 (serve_head script))).
Proof.
  unfold find_header_end. rewrite serve_one_head, !fmap_app.
  assert (∀ s, length (utf8 s) = length (byte_val <$> utf8 s)) as Hl by (intros; by rewrite length_fmap).
  rewrite Hl, (utf8_ascii (serve_head script)) by apply is_ascii_spec, serve_head_ascii.
  apply (find_serve_head script).
Qed.

Lemma status_line_head script : split_str crlf (serve_head script) !! 0 = Some (lit "HTTP/1.0 200 OK").
Proof.
  unfold serve_head, serve_head1. rewrite <-!app_assoc, split_str_eq by done.
  rewrite find_avoids by (vm_compute; reflexivity).
  simpl find. reflexivity.
Qed.

(** What the endpoint serves is what a download of it yields. *)
Lemma serve_roundtrip str_debug script url : str_ok script →
  parse_http_response str_debug (serve_one script) url = Ok script.
Proof.
  intros Hs. unfold parse_http_response. rewrite serve_header_end.
  rewrite serve_one_head, take_app_length, from_utf8_lossy_utf8 by (apply ascii_str_ok, serve_head_ascii).
  rewrite status_line_head, drop_app_add'.
  2: { reflexivity. }
  change (split_str [32%N] (default [] (Some (lit "HTTP/1.0 200 OK"))))
    with (split_str [32%N] (lit "HTTP/1.0 200 OK")).
  replace (split_str [32%N] (lit "HTTP/1.0 200 OK")) with [lit "HTTP/1.0"; lit "200"; lit "OK"]
    by (vm_compute; reflexivity).
  rewrite (drop_app_length' (utf8 (crlf ++ crlf)) (utf8 script) 4) by (vm_compute; reflexivity).
  rewrite from_utf8_utf8 by done. reflexivity.
Qed.

Lemma assemble_has_alias original exempt : contains ORIGINAL_FN_ALIAS (assemble original exempt) = true.
Proof.
  apply contains_true. unfold assemble. set (renamed := replace _ _ original). clearbody renamed.
  unfold build_wrapper_source.
  eexists (renamed ++ (if ends_with_char LF renamed then [] else [LF]) ++ [LF] ++ WRAP_BEGIN_MARK ++ [LF]
    ++ js_line "function __exv_is_exempt(host) {"
    ++ js_line "  var h = String(host || ``).toLowerCase();"
    ++ emit_exempt_conditions exempt ++ js_line "  return false;" ++ js_line "}"
    ++ js_line "function FindProxyForURL(url, host) {"
    ++ js_line "  if (__exv_is_exempt(host)) { return `DIRECT`; }"
    ++ js_line "  try {" ++ lit "    return "), _.
  rewrite <-!app_assoc. reflexivity.
Qed.
Lemma assemble_nonblank original exempt : trim (assemble original exempt) ≠ [].
Proof.
  intros H. pose proof (assemble_has_alias original exempt) as (pre & post & Ha)%contains_true.
  destruct (trim_split (assemble original exempt)) as (v & w & Hv & Hw & Hs). rewrite H in Hs. simpl in Hs.
  assert (95%N ∈ v ++ w) as Hin by (rewrite <-Hs, Ha; unfold ORIGINAL_FN_ALIAS; set_solver).
  assert (blank (v ++ w)) as Hb by (by apply Forall_app).
  eapply (proj1 (Forall_forall _ _) Hb) in Hin. done.
Qed.

(** A script that is wrapped is accepted with balanced brackets, its endpoint serves it so
    that a download gives it back, and a script wrapped once, by the same or other
    exemptions, is never wrapped again. *)
Theorem wrapped_script original exempt out : wrap_pac_script original exempt = Ok out →
  brackets_balanced out = true ∧
  (∀ exempt', wrap_pac_script out exempt' =
     Err (err_unwrappable "script already carries the EXV wrapper alias")) ∧
  (∀ str_debug url, str_ok out → parse_http_response str_debug (serve_one out) url = Ok out).
Proof.
  unfold wrap_pac_script at 1.
  case_bool_decide; [done|]. destruct (contains ORIGINAL_FN_ALIAS original); [done|].
  destruct (count_matches DECLARATION_TEXT original) as [|[|n]]; [done| |done]. cbv zeta.
  destruct (brackets_balanced (assemble original exempt)) eqn:Hb; [|done]. intros [= <-]. split_and!.
  - done.
  - intros exempt'. unfold wrap_pac_script. rewrite bool_decide_false by apply assemble_nonblank.
    by rewrite assemble_has_alias.
  - intros. by apply serve_roundtrip.
Qed.

Definition sample_pac : str := lit "function FindProxyForURL(url, host) { return 'PROXY p:1'; }".
Lemma wrapped_script_witness :
  ∃ out, wrap_pac_script sample_pac [lit "10.1.*"; lit "lib.ecnu.edu.cn"] = Ok out ∧
    wrap_pac_script out [] = Err (err_unwrappable "script already carries the EXV wrapper alias").
Proof.
  exists (assemble sample_pac [lit "10.1.*"; lit "lib.ecnu.edu.cn"]).
  assert (wrap_pac_script sample_pac [lit "10.1.*"; lit "lib.ecnu.edu.cn"] =
    Ok (assemble sample_pac [lit "10.1.*"; lit "lib.ecnu.edu.cn"])) as H by (vm_compute; reflexivity).
  split; [exact H|]. exact (proj1 (proj2 (wrapped_script _ _ _ H)) []).
Defined.

(** The download asks for the same path whatever the path of the URL. *)
Example download_ignores_path :
  fst (fetch_via_stream id (MkPacNet None None None None [] PE_Eof) (lit "http://127.0.0.1:7890/pac/mine.js"))
    = pac_request ∧
  before [13%N] (byte_val <$> pac_request) = lit "GET /proxy.pac HTTP/1.0".
Proof. split; vm_compute; reflexivity. Qed.
