(* ===== verification/ProxyExec.v ===== *)
(** * Applying and undoing the system proxy settings

    [system_proxy_family_exec.rs] of the Windows resource crate: the plan of a change to
    the settings of a user, which writes nothing; its commit, which writes one value; the
    comparison and restoration at teardown, and the replay after a crash.

    The registry is the state of [Registry]. What the download of a PAC script and the
    start of its endpoint yield is [PacEnv]. The diagnostics are the list of what was
    observed, without the time each stage took. *)

From Stdlib Require Import NArith Strings.Byte Lia.
From S2P Require Import Prelude Text Utf16 NativeError SystemProxy Registry ProxyFamily Pac.

(** ** Fingerprints *)

(** win32-resource/system_proxy_family_exec.rs:46-64 [fingerprint_prestate]: one value. *)
Definition fingerprint_value (v : RawValue) : list byte :=
  match v with
  | RV_Absent => [x00]
  | RV_Dword v => x01 :: le_bytes 4 v
  | RV_Other type data => x02 :: le_bytes 4 type ++ data
  | RV_Sz s => x03 :: units_bytes (encode_utf16 s)
  end.
(** win32-resource/system_proxy_family_exec.rs:34-67 [fingerprint_prestate] *)
Definition fingerprint_prestate (raw : RawInternetSettings) : list byte :=
  fields raw ≫= λ f, fingerprint_value f.2.

(** win32-resource/system_proxy_family_exec.rs:69-75 [prestate_with_override] *)
Definition prestate_with_override (p : RawInternetSettings) (merged : str) : RawInternetSettings :=
  MkRaw (proxy_enable p) (proxy_server p) (RV_Sz merged) (auto_config_url p) (auto_detect p).

(** ** Diagnostics *)

(** win32-resource/system_proxy_family_exec.rs:191-199 [SystemProxyDiagnostic] *)
Record SystemProxyDiagnostic := MkDiagnostic {
  sd_stage : string;
  sd_outcome : string;
  sd_error : option (NativeErrorKind * N);
  sd_reason : option string;
}.

(** [strip_prefix] and [starts_with] of a message. *)
Fixpoint text_strip (p s : string) : option string :=
  match p, s with
  | EmptyString, _ => Some s
  | String.String a p, String.String b s => if Ascii.eqb a b then text_strip p s else None
  | _, EmptyString => None
  end.
Definition text_starts (p s : string) : bool := bool_decide (is_Some (text_strip p s)).

Definition several : string := "`function FindProxyForURL` declarations found, exactly 1 required".
(** [count.parse::<usize>().is_ok_and(|count| count > 1) && rest == ..]. *)
Definition counts_several (reason : string) : bool :=
  match split_once 32 (lit reason) with
  | Some (count, rest) =>
      match parse_usize count with Some n => (1 <? n)%N | None => false end && bool_decide (rest = lit several)
  | None => false
  end.

(** win32-resource/system_proxy_family_exec.rs:222-234 [safe_system_proxy_error_reason]: the
    prefixes and their classes. *)
Definition reason_prefixes : list (string * string) :=
  [("pac_fetch_https_unsupported:", "https_unsupported");
   ("pac_fetch_unsupported_url:", "unsupported_url");
   ("pac_fetch_connect_failed:", "connect_failed");
   ("pac_fetch_request_write_failed:", "request_write_failed");
   ("pac_fetch_timeout:", "timeout");
   ("pac_fetch_read_failed:", "read_failed");
   ("pac_fetch_too_large:", "response_too_large");
   ("pac_fetch_malformed_response:", "malformed_response");
   ("pac_fetch_invalid_utf8:", "invalid_utf8");
   ("pac_fetch_http_status_", "http_status");
   ("pac-endpoint-spawn:", "endpoint_spawn_failed")].

(** win32-resource/system_proxy_family_exec.rs:201-243 [safe_system_proxy_error_reason] *)
Definition safe_system_proxy_error_reason (error : NativeError) : option string :=
  let m := ne_message error in
  match text_strip "pac_script_unwrappable: " m with
  | Some reason =>
      Some (if bool_decide (reason = "empty script") then "empty_script"
            else if bool_decide (reason = "script already carries the EXV wrapper alias") then "already_wrapped"
            else if bool_decide (reason = "no `function FindProxyForURL` declaration found")
                 then "missing_entrypoint"
            else if bool_decide (reason = "bracket imbalance in assembled script") then "unbalanced_brackets"
            else if counts_several reason then "multiple_entrypoints"
            else "unclassified_pac_error")
  | None =>
      match List.find (λ p, text_starts p.1 m) reason_prefixes with
      | Some p => Some p.2
      | None => if text_starts "pac_" m || text_starts "pac-" m then Some "unclassified_pac_error" else None
      end
  end%string.

(** win32-resource/system_proxy_family_exec.rs:245-259 [observe_proxy_stage] *)
Definition observe_proxy_stage (stage outcome : string) (error : option NativeError) : SystemProxyDiagnostic :=
  MkDiagnostic stage outcome ((λ e, (ne_kind e, ne_code e)) <$> error) (error ≫= safe_system_proxy_error_reason).

(** ** Plans *)

(** win32-resource/system_proxy_family_exec.rs:157-174 [SystemProxyApplyPlan] *)
Record SystemProxyApplyPlan := MkPlan {
  pl_step : SystemProxyFamilyStep;
  pl_merged : option str;
  pl_endpoint : option PacEndpoint;
  pl_registry_effect : bool;
}.

(** win32-resource/system_proxy_family_exec.rs:427-449 [zero_effect_plan] *)
Definition zero_effect_plan (sid : str) (desired : list str) (prestate : RawInternetSettings) (pac_detected : bool) :
    SystemProxyApplyPlan :=
  MkPlan (MkStep prestate desired sid pac_detected (fingerprint_prestate prestate)) None None false.

(** win32-resource/system_proxy_family_exec.rs:400-425 [plan_pac_from_prestate_with_url] *)
Definition plan_pac_from_prestate_with_url (sid : str) (desired : list str) (prestate : RawInternetSettings)
    (served_url : str) : SystemProxyApplyPlan :=
  let written := MkRaw (proxy_enable prestate) (proxy_server prestate) (proxy_override prestate)
                   (RV_Sz served_url) (auto_detect prestate) in
  MkPlan (MkStep prestate desired sid true (fingerprint_prestate written)) None None true.

(** The network of a download, how strings are printed for debugging, and the port an
    endpoint for a script gets. *)
Record PacEnv := MkPacEnv {
  env_debug : str → str;
  env_net : N → PacNet;
  env_spawn : str → result IoError N;
}.

(** The diagnostics of a stage that may fail. *)
Definition observed {A} (stage ok : string) (r : result NativeError A) : SystemProxyDiagnostic :=
  match r with
  | Ok _ => observe_proxy_stage stage ok None
  | Err e => observe_proxy_stage stage "failed" (Some e)
  end.

(** win32-resource/system_proxy_family_exec.rs:483-522 [try_pac_spawn] *)
Definition try_pac_spawn (env : PacEnv) (pac_url : str) (desired : list str) :
    list SystemProxyDiagnostic * result NativeError PacEndpoint :=
  let original := fetch_pac_script (env_debug env) (env_net env) pac_url in
  let d1 := observed "pac_fetch" "ok" original in
  match original with
  | Err e => ([d1], Err e)
  | Ok original =>
      let wrapped := wrap_pac_script original desired in
      let d2 := observed "pac_wrap" "ok" wrapped in
      match wrapped with
      | Err e => ([d1; d2], Err e)
      | Ok wrapped =>
          let endpoint :=
            match env_spawn env wrapped with
            | Ok port => Ok (MkPacEndpoint port)
            | Err e => Err (NativeError_from_win32 87 ("pac-endpoint-spawn:" +:+ message (io_text e)))
            end in
          ([d1; d2; observed "pac_endpoint" "ready" endpoint], endpoint)
      end
  end.

(** win32-resource/system_proxy_family_exec.rs:585-599 [decide_merged] *)
Definition decide_merged (snapshot : SystemProxySnapshot) (desired : list str) : result NativeError str :=
  action ← decide_family snapshot desired;
  match action with
  | FA_MergeAndWrite merged => Ok merged
  | _ => Err (MkNativeError NEK_Protocol 87 "system_proxy_family_exec: 决策重放变体不符")
  end.

Definition served_url (endpoint : PacEndpoint) : str :=
  lit "http://127.0.0.1:" ++ to_dec (ep_port endpoint) ++ lit "/proxy.pac".

(** win32-resource/system_proxy_family_exec.rs:360-397 [plan_system_proxy_apply_from_prestate_observed]:
    the automatic configuration. *)
Definition plan_automatic (env : PacEnv) (sid : str) (desired : list str) (prestate : RawInternetSettings) :
    list SystemProxyDiagnostic * result NativeError SystemProxyApplyPlan :=
  let zero := Ok (zero_effect_plan sid desired prestate true) in
  match auto_config_url prestate with
  | RV_Sz (c :: url) =>
      let '(log, endpoint) := try_pac_spawn env (c :: url) desired in
      match endpoint with
      | Err e => (log ++ [observe_proxy_stage "plan" "pac_degraded" (Some e)], zero)
      | Ok endpoint =>
          let plan := plan_pac_from_prestate_with_url sid desired prestate (served_url endpoint) in
          (log ++ [observe_proxy_stage "plan" "pac_ready" None],
           Ok (MkPlan (pl_step plan) (pl_merged plan) (Some endpoint) (pl_registry_effect plan)))
      end
  | _ => ([observe_proxy_stage "plan" "wpad_without_pac_url" None], zero)
  end.

(** win32-resource/system_proxy_family_exec.rs:309-398 [plan_system_proxy_apply_from_prestate_observed] *)
Definition plan_from_prestate (env : PacEnv) (sid : str) (desired : list str) (prestate : RawInternetSettings) :
    list SystemProxyDiagnostic * result NativeError SystemProxyApplyPlan :=
  match snapshot_from_raw prestate with
  | Err e => ([], Err e)
  | Ok snapshot =>
      match decide_family snapshot desired with
      | Err e => ([], Err e)
      | Ok FA_SkipNoOp =>
          ([observe_proxy_stage "plan" "disabled" None], Ok (zero_effect_plan sid desired prestate false))
      | Ok (FA_MergeAndWrite _) =>
          match decide_merged snapshot desired with
          | Err e => ([], Err e)
          | Ok merged =>
              if bool_decide (merged = join [SEMICOLON] (sn_bypass_entries snapshot))
              then ([observe_proxy_stage "plan" "already_exempted" None],
                    Ok (zero_effect_plan sid desired prestate false))
              else
                ([observe_proxy_stage "plan" "merge_bypass" None],
                 Ok (MkPlan (MkStep prestate desired sid false
                       (fingerprint_prestate (prestate_with_override prestate merged)))
                       (Some merged) None true))
          end
      | Ok FA_PacDetectedSkip => plan_automatic env sid desired prestate
      end
  end.

(** ** Outcomes *)

(** win32-resource/system_proxy_family_exec.rs:77-92 [SystemProxyApplyOutcome] *)
Inductive SystemProxyApplyOutcome :=
  | SAO_SkippedNoProxy
  | SAO_PacDetectedSkip
  | SAO_Applied (step : SystemProxyFamilyStep) (written_fingerprint : list byte).

(** win32-resource/system_proxy_family_exec.rs:524-546 [SystemProxyApplyResult] *)
Inductive SystemProxyApplyResult :=
  | SAR_SkippedNoProxy
  | SAR_Applied (step : SystemProxyFamilyStep) (written_fingerprint : list byte)
  | SAR_Pac (step : SystemProxyFamilyStep) (written_fingerprint : list byte) (endpoint : option PacEndpoint).

(** win32-resource/system_proxy_family_exec.rs:601-613 [SystemProxyRestoreOutcome] *)
Inductive SystemProxyRestoreOutcome := SRO_Restored (write_backs deletes : nat) | SRO_TypedSkip.

(** win32-resource/system_proxy_family_exec.rs:718-734 [SystemProxyReplayOutcome] *)
Inductive SystemProxyReplayOutcome :=
  | SPR_Restored (write_backs deletes : nat)
  | SPR_AlreadyClean
  | SPR_SkipForfeit
  | SPR_HardFailure.
#[export] Instance SystemProxyReplayOutcome_eq_dec : EqDecision SystemProxyReplayOutcome.
Proof. solve_decision. Defined.

(** win32-resource/system_proxy_family_exec.rs:615-639 [plan_restore] *)
Definition plan_restore (prestate current : RawInternetSettings) (written_fingerprint : list byte) :
    SystemProxyRestoreOutcome :=
  match compute_restore prestate (fingerprint_prestate current) written_fingerprint with
  | RD_TypedSkip => SRO_TypedSkip
  | RD_Restore ops =>
      SRO_Restored (length (List.filter (λ op, match op with RO_WriteBack _ _ => true | _ => false end) ops))
        (length (List.filter (λ op, match op with RO_DeleteValue _ => true | _ => false end) ops))
  end.

Section exec.
Context {W : Type} `{Win32Registry W}.

(** win32-resource/system_proxy_family_exec.rs:261-285 [plan_system_proxy_apply_observed] *)
Definition plan_system_proxy_apply_observed (env : PacEnv) (w : W) (sid : str) (desired : list str) :
    list SystemProxyDiagnostic * result NativeError SystemProxyApplyPlan :=
  let captured := capture_for_user w sid in
  let d := observed "capture" "ok" captured in
  match captured with
  | Err e => ([d], Err e)
  | Ok prestate => let '(log, plan) := plan_from_prestate env sid desired prestate in (d :: log, plan)
  end.

(** win32-resource/system_proxy_family_exec.rs:176-189 [plan_system_proxy_apply] *)
Definition plan_system_proxy_apply (env : PacEnv) (w : W) (sid : str) (desired : list str) :
    result NativeError SystemProxyApplyPlan :=
  snd (plan_system_proxy_apply_observed env w sid desired).

(** win32-resource/system_proxy_family_exec.rs:451-481 [commit_system_proxy_apply] *)
Definition commit_system_proxy_apply (w : W) (sid : str) (plan : SystemProxyApplyPlan) : W * result NativeError () :=
  if negb (pl_registry_effect plan) then (w, Ok ())
  else match pl_merged plan with
  | Some merged =>
      let '(w, r) := write_override_for_user w sid merged in (w, r ≫= λ _, Ok ())
  | None =>
      match pl_endpoint plan with
      | None => (w, Err (NativeError_from_win32 87 "system_proxy_family_exec: PAC commit 缺端点"))
      | Some endpoint =>
          match write_back_value_for_user w sid VN_AutoConfigUrl (RV_Sz (served_url endpoint)) with
          | (w, Err e) => (w, Err e)
          | (w, Ok _) => (broadcast_wininet_refresh w, Ok ())
          end
      end
  end.

(** win32-resource/system_proxy_family_exec.rs:110-155 [apply_system_proxy_with_pac] *)
Definition apply_system_proxy_with_pac (env : PacEnv) (w : W) (sid : str) (desired : list str) :
    W * result NativeError SystemProxyApplyResult :=
  match plan_system_proxy_apply env w sid desired with
  | Err e => (w, Err e)
  | Ok plan =>
      let step := pl_step plan in
      if negb (pl_registry_effect plan) then
        (w, Ok (if st_pac_detected step then SAR_Pac step (st_written_fingerprint step) None
                else SAR_SkippedNoProxy))
      else
        match commit_system_proxy_apply w sid plan with
        | (w, Err e) => (w, Err e)
        | (w, Ok _) =>
            (w, Ok (match pl_endpoint plan with
                    | Some endpoint => SAR_Pac step (st_written_fingerprint step) (Some endpoint)
                    | None => SAR_Applied step (st_written_fingerprint step)
                    end))
        end
  end.

(** win32-resource/system_proxy_family_exec.rs:548-583 [apply_from_prestate] *)
Definition apply_from_prestate (w : W) (sid : str) (desired : list str) (prestate : RawInternetSettings) :
    W * result NativeError SystemProxyApplyOutcome :=
  match snapshot_from_raw prestate with
  | Err e => (w, Err e)
  | Ok snapshot =>
      match decide_family snapshot desired with
      | Err e => (w, Err e)
      | Ok FA_SkipNoOp => (w, Ok SAO_SkippedNoProxy)
      | Ok FA_PacDetectedSkip => (w, Ok SAO_PacDetectedSkip)
      | Ok (FA_MergeAndWrite _) =>
          match decide_merged snapshot desired with
          | Err e => (w, Err e)
          | Ok merged =>
              match write_override_for_user w sid merged with
              | (w, Err e) => (w, Err e)
              | (w, Ok _) =>
                  (w, written ← capture_for_user w sid;
                      let fp := fingerprint_prestate written in
                      Ok (SAO_Applied (MkStep prestate desired sid false fp) fp))
              end
          end
      end
  end.

(** win32-resource/system_proxy_family_exec.rs:94-108 [apply_system_proxy_step] *)
Definition apply_system_proxy_step (w : W) (sid : str) (desired : list str) :
    W * result NativeError SystemProxyApplyOutcome :=
  match capture_for_user w sid with
  | Err e => (w, Err e)
  | Ok prestate => apply_from_prestate w sid desired prestate
  end.

(** win32-resource/system_proxy_family_exec.rs:703-714 [execute_restore_ops_with]: the loop, with
    the counts of values written back and deleted. *)
Fixpoint restore_fields (w : W) (sid : str) (fs : list (ValueName * RawValue)) (counts : nat * nat) :
    W * result NativeError (nat * nat) :=
  match fs with
  | [] => (w, Ok counts)
  | (name, RV_Absent) :: fs =>
      match delete_value_for_user w sid name with
      | (w, Err e) => (w, Err e)
      | (w, Ok _) => restore_fields w sid fs (counts.1, S counts.2)
      end
  | (name, value) :: fs =>
      match write_back_value_for_user w sid name value with
      | (w, Err e) => (w, Err e)
      | (w, Ok _) => restore_fields w sid fs (S counts.1, counts.2)
      end
  end.

(** win32-resource/system_proxy_family_exec.rs:681-716 [execute_restore_ops_with], with the
    writes of [write_back_real] and [delete_real]. *)
Definition execute_restore_ops (w : W) (sid : str) (prestate : RawInternetSettings) :
    W * result NativeError (nat * nat) :=
  restore_fields w sid (fields prestate) (0, 0).

(** win32-resource/system_proxy_family_exec.rs:641-669 [restore_system_proxy_step] *)
Definition restore_system_proxy_step (w : W) (sid : str) (step : SystemProxyFamilyStep)
    (written_fingerprint : list byte) : W * result NativeError SystemProxyRestoreOutcome :=
  match capture_for_user w sid with
  | Err e => (w, Err e)
  | Ok current =>
      match compute_restore (st_prestate step) (fingerprint_prestate current) written_fingerprint with
      | RD_TypedSkip => (w, Ok SRO_TypedSkip)
      | RD_Restore _ =>
          match execute_restore_ops w sid (st_prestate step) with
          | (w, Err e) => (w, Err e)
          | (w, Ok (write_backs, deletes)) =>
              (broadcast_wininet_refresh w, Ok (SRO_Restored write_backs deletes))
          end
      end
  end.

(** win32-resource/system_proxy_family_exec.rs:750-786 [replay_system_proxy_step_with], with the
    capture and the writes of [replay_system_proxy_step]. *)
Definition replay_system_proxy_step (w : W) (sid : str) (step : SystemProxyFamilyStep) :
    W * SystemProxyReplayOutcome :=
  match capture_for_user w sid with
  | Err _ => (w, SPR_HardFailure)
  | Ok current =>
      let current_fp := fingerprint_prestate current in
      let prestate_fp := fingerprint_prestate (st_prestate step) in
      match decide_replay prestate_fp (st_written_fingerprint step) current_fp with
      | RP_AlreadyClean => (w, SPR_AlreadyClean)
      | RP_SkipForfeit => (w, SPR_SkipForfeit)
      | RP_Restore =>
          match execute_restore_ops w sid (st_prestate step) with
          | (w, Ok (write_backs, deletes)) => (broadcast_wininet_refresh w, SPR_Restored write_backs deletes)
          | (w, Err _) => (w, SPR_HardFailure)
          end
      end
  end.
End exec.

(** ** One value changed *)

Definition upd (raw : RawInternetSettings) (v : ValueName) (x : RawValue) : RawInternetSettings :=
  match v with
  | VN_ProxyEnable => MkRaw x (proxy_server raw) (proxy_override raw) (auto_config_url raw) (auto_detect raw)
  | VN_ProxyServer => MkRaw (proxy_enable raw) x (proxy_override raw) (auto_config_url raw) (auto_detect raw)
  | VN_ProxyOverride => MkRaw (proxy_enable raw) (proxy_server raw) x (auto_config_url raw) (auto_detect raw)
  | VN_AutoConfigUrl => MkRaw (proxy_enable raw) (proxy_server raw) (proxy_override raw) x (auto_detect raw)
  | VN_AutoDetect => MkRaw (proxy_enable raw) (proxy_server raw) (proxy_override raw) (auto_config_url raw) x
  end.

Lemma field_upd raw v x v' : field (upd raw v x) v' = if decide (v' = v) then x else field raw v'.
Proof. by destruct v, v'. Qed.
Lemma upd_field raw v : upd raw v (field raw v) = raw.
Proof. by destruct v, raw. Qed.
Lemma upd_upd raw v x y : upd (upd raw v x) v y = upd raw v y.
Proof. by destruct v. Qed.
Lemma elem_of_fields raw v x : (v, x) ∈ fields raw ↔ x = field raw v.
Proof.
  unfold fields. rewrite !elem_of_cons, elem_of_nil. destruct v; simpl; naive_solver.
Qed.

Lemma units_bytes_inj a b : units_ok a → units_ok b → units_bytes a = units_bytes b → a = b.
Proof. intros Ha Hb H. rewrite <-(bytes_units_bytes a Ha), H. by apply bytes_units_bytes. Qed.

Lemma le_u32_inj a b : (a < 2 ^ 32)%N → (b < 2 ^ 32)%N → le_bytes 4 a = le_bytes 4 b → a = b.
Proof. intros [_ Ha]%le_u32 [_ Hb]%le_u32 He. congruence. Qed.

(** The values a fingerprint tells apart: the types fit in 32 bits. *)
Definition fits (x : RawValue) : Prop := match x with RV_Other type _ => (type < 2 ^ 32)%N | _ => True end.

Lemma fingerprint_value_inj x y : rv_ok x → rv_ok y → fits x → fits y →
  fingerprint_value x = fingerprint_value y → x = y.
Proof.
  destruct x as [|n|s|t d], y as [|n'|s'|t' d']; cbn [rv_ok fits fingerprint_value]; intros Hx Hy Fx Fy Hfp; try discriminate Hfp; try done.
  - apply (f_equal tail) in Hfp. unfold tail in Hfp. f_equal. by apply le_u32_inj.
  - apply (f_equal tail) in Hfp. unfold tail in Hfp. f_equal. destruct Hx as [Hx _], Hy as [Hy _].
    apply units_bytes_inj in Hfp; [|by apply encode_utf16_units..]. by apply encode_utf16_inj.
  - apply (f_equal tail) in Hfp. unfold tail in Hfp. apply app_inj_1 in Hfp as [Ht ->];
      [|unfold le_bytes; by rewrite !length_reverse, !length_be_bytes].
    f_equal. by apply le_u32_inj.
Qed.

Lemma fingerprint_eq raw : fingerprint_prestate raw =
  fingerprint_value (proxy_enable raw) ++ fingerprint_value (proxy_server raw)
  ++ fingerprint_value (proxy_override raw) ++ fingerprint_value (auto_config_url raw)
  ++ fingerprint_value (auto_detect raw).
Proof. rewrite <-(app_nil_r (fingerprint_value (auto_detect raw))). reflexivity. Qed.

(** A fingerprint changes when one value does. *)
Lemma fingerprint_upd raw v x y : rv_ok x → rv_ok y → fits x → fits y →
  fingerprint_prestate (upd raw v x) = fingerprint_prestate (upd raw v y) → x = y.
Proof.
  intros Hx Hy Fx Fy Hfp. apply fingerprint_value_inj; [done..|].
  rewrite !fingerprint_eq in Hfp.
  destruct v; cbn [upd fst snd proxy_enable proxy_server proxy_override auto_config_url auto_detect] in Hfp;
    repeat apply app_inv_head in Hfp; by repeat apply app_inv_tail in Hfp.
Qed.

(** ** Texts that can be stored *)

Definition entry_ok (e : str) : Prop := str_ok e ∧ 0%N ∉ e.
Lemma entry_ok_join es : Forall entry_ok es → entry_ok (join [SEMICOLON] es).
Proof.
  assert (∀ a b, entry_ok a → entry_ok b → entry_ok (a ++ b)) as Happ.
  { intros a b [Ha Ha0] [Hb Hb0]. split; [by apply Forall_app|set_solver]. }
  induction 1 as [|e es He Hes IH]; [split; [constructor|set_solver]|].
  destruct es as [|e' es]; [done|]. apply Happ; [done|]. apply Happ; [|done].
  split; [by repeat constructor|]. intros Hin%list_elem_of_singleton. done.
Qed.
Lemma entry_ok_part c s : entry_ok s → Forall entry_ok (entries c s).
Proof.
  intros [Hs H0]. apply Forall_forall. intros e He.
  assert (∀ d, d ∈ e → d ∈ s) as Hin.
  { intros d Hd. unfold entries in He. apply list_elem_of_filter in He as [_ He].
    apply list_elem_of_fmap in He as (e' & -> & He). apply trim_elem in Hd.
    by eapply split_elem. }
  split; [|intros Hd; by apply H0, Hin]. apply Forall_forall. intros d Hd.
  eapply (proj1 (Forall_forall _ _) Hs), Hin, Hd.
Qed.

Lemma merged_text raw desired m : rv_ok (proxy_override raw) → Forall entry_ok desired →
  merge_bypass_entries (join [SEMICOLON] (bypass_from raw)) desired = Ok m → rv_ok (RV_Sz m).
Proof.
  intros Hr Hd Hm. apply merge_Ok in Hm as (_ & _ & _ & ->). apply entry_ok_join.
  eapply Forall_sublist_of; [|apply nodup_ci_sublist]. apply Forall_app. split; [|done].
  apply entry_ok_part, entry_ok_join. unfold bypass_from.
  destruct (proxy_override raw) as [| |t|]; simpl; [constructor..| |constructor].
  by apply (entry_ok_part SEMICOLON t).
Qed.

Lemma served_url_ok e : rv_ok (RV_Sz (served_url e)).
Proof.
  split.
  - apply ascii_str_ok. unfold served_url. by rewrite !is_ascii_app, to_dec_ascii.
  - unfold served_url. rewrite !elem_of_app. pose proof (to_dec_no_char 0 (ep_port e) eq_refl) as Hd.
    intros [Hin|[Hin|Hin]]; [|done|]; revert Hin; apply (bool_decide_unpack _); vm_compute; exact I.
Qed.

Lemma decide_merged_Ok snap desired m : decide_merged snap desired = Ok m →
  merge_bypass_entries (join [SEMICOLON] (sn_bypass_entries snap)) desired = Ok m.
Proof.
  unfold decide_merged, decide_family. destruct (sn_mode snap); simpl; [done| |done|];
    (destruct (sn_endpoints snap); [done|]);
    destruct (merge_bypass_entries _ desired); simpl; congruence.
Qed.

(** ** Writes and restorations *)

Section properties.
Context {W : Type} `{RegistryLaws W}.
Implicit Types (w : W) (sid : str) (v : ValueName) (x : RawValue).

Lemma wrote_reads w w' sid v x ok raw : rv_ok x → wrote w w' sid v x ok → reads w sid raw →
  reads w' sid (upd raw v x) ∨ (ok = false ∧ reads w' sid raw).
Proof.
  intros Hx [Hothers Hthis] Hr. destruct Hthis as [Hthis|[Hok Hthis]]; [left|right; split; [done|]].
  - intros v'. rewrite field_upd. destruct (decide (v' = v)) as [->|Hv].
    + rewrite Hthis. by apply raw_of_bytes.
    + rewrite Hothers by done. apply Hr.
  - intros v'. destruct (decide (v' = v)) as [->|Hv].
    + rewrite Hthis. apply Hr.
    + rewrite Hothers by done. apply Hr.
Qed.

(** The settings are the ones before the change, or the ones it wrote. *)
Definition settled w sid (pre : RawInternetSettings) v x : Prop :=
  reads w sid pre ∨ reads w sid (upd pre v x).

(** Writing back one of the values before the change. *)
Lemma settled_wrote w w' sid pre v x u ok : rv_ok (field pre u) → wrote w w' sid u (field pre u) ok →
  settled w sid pre v x → settled w' sid pre v x ∧ (ok = true → u = v → reads w' sid pre).
Proof.
  intros Hu Hw Hs. destruct Hs as [Hs|Hs];
    destruct (wrote_reads _ _ _ _ _ _ _ Hu Hw Hs) as [Hr|[-> Hr]].
  - rewrite upd_field in Hr. split; [by left|done].
  - split; [by left|done].
  - destruct (decide (u = v)) as [->|Huv].
    + rewrite upd_upd, upd_field in Hr. split; [by left|done].
    + split; [|done]. right. replace (upd pre v x) with (upd (upd pre v x) u (field pre u)); [done|].
      rewrite <-(upd_field (upd pre v x) u) at 2. f_equal. rewrite field_upd. by destruct (decide (u = v)).
  - split; [by right|done].
Qed.

Lemma settled_pre w w' sid pre u ok : rv_ok (field pre u) → wrote w w' sid u (field pre u) ok →
  reads w sid pre → reads w' sid pre.
Proof.
  intros Hu Hw Hr. destruct (wrote_reads _ _ _ _ _ _ _ Hu Hw Hr) as [Hr'|[_ Hr']]; [|done].
  by rewrite upd_field in Hr'.
Qed.

Definition fields_of (pre : RawInternetSettings) (fs : list (ValueName * RawValue)) : Prop :=
  Forall (λ f, f.2 = field pre f.1) fs.

(** The write of one value, then the rest of the restoration. *)
Lemma restore_cons w sid u x fs counts : ∃ w' ok,
  wrote w w' sid u x ok ∧
  (if ok then ∃ counts', restore_fields w sid ((u, x) :: fs) counts = restore_fields w' sid fs counts'
   else ∃ e, restore_fields w sid ((u, x) :: fs) counts = (w', Err e)).
Proof.
  destruct (decide (x = RV_Absent)) as [->|Hx].
  - pose proof (delete_wrote w sid u) as Hw. cbn [restore_fields].
    destruct (delete_value_for_user w sid u) as [w' [a|e]]; [exists w', true|exists w', false]; eauto.
  - pose proof (write_back_wrote w sid u x Hx) as Hw.
    destruct (write_back_value_for_user w sid u x) as [w' r] eqn:E.
    exists w', (is_ok r). split; [done|].
    destruct x; [done|..]; cbn [restore_fields]; rewrite E; destruct r; simpl; eauto.
Qed.

Lemma restore_fields_settled sid pre v x fs : (∀ u, rv_ok (field pre u)) → fields_of pre fs →
  ∀ w counts, settled w sid pre v x →
  let out := restore_fields w sid fs counts in
  settled (fst out) sid pre v x ∧
  (is_ok (snd out) = true → (v, field pre v) ∈ fs ∨ reads w sid pre → reads (fst out) sid pre).
Proof.
  intros Hok. induction fs as [|[u y] fs IH]; intros Hfs w counts Hs out; unfold out.
  { split; [done|]. intros _ [[]%elem_of_nil|]; done. }
  apply Forall_cons in Hfs as [Hy Hfs]. simpl in Hy. subst y.
  destruct (restore_cons w sid u (field pre u) fs counts) as (w' & ok & Hw & Hrest).
  destruct (settled_wrote _ _ _ _ v x _ _ (Hok u) Hw Hs) as [Hs' Hv].
  destruct ok.
  - destruct Hrest as [counts' ->]. destruct (IH Hfs w' counts' Hs') as [IH1 IH2]. split; [done|].
    intros Hr Hin. apply IH2; [done|]. destruct Hin as [Hin|Hin].
    + apply elem_of_cons in Hin as [[= <- _]|Hin]; [right; by apply Hv|by left].
    + right. by eapply settled_pre.
  - destruct Hrest as [e ->]. simpl. split; [done|discriminate].
Qed.

Lemma execute_restore_settled w sid pre v x : (∀ u, rv_ok (field pre u)) → settled w sid pre v x →
  let out := execute_restore_ops w sid pre in
  settled (fst out) sid pre v x ∧ (is_ok (snd out) = true → reads (fst out) sid pre).
Proof.
  intros Hok Hs. destruct (restore_fields_settled sid pre v x (fields pre) Hok) with (w := w) (counts := (0, 0))
    as [H1 H2]; [by repeat constructor|done|].
  split; [done|]. intros Hr. apply H2; [done|]. left. by apply elem_of_fields.
Qed.

(** What a plan with an effect changes: one value becomes a text. *)
Definition changes (plan : SystemProxyApplyPlan) sid (pre : RawInternetSettings) v (t : str) : Prop :=
  st_prestate (pl_step plan) = pre ∧ st_originating_sid (pl_step plan) = sid ∧ rv_ok (RV_Sz t) ∧
  st_written_fingerprint (pl_step plan) = fingerprint_prestate (upd pre v (RV_Sz t)) ∧
  ∀ w, let out := commit_system_proxy_apply w sid plan in
       wrote w (fst out) sid v (RV_Sz t) (is_ok (snd out)).

Lemma plan_changes env sid desired pre plan : (∀ u, rv_ok (field pre u)) → Forall entry_ok desired →
  snd (plan_from_prestate env sid desired pre) = Ok plan → pl_registry_effect plan = true →
  ∃ v t, changes plan sid pre v t.
Proof.
  intros Hpre Hd Hp He. unfold plan_from_prestate in Hp.
  destruct (snapshot_from_raw pre) as [snap|] eqn:Hs; [|done].
  destruct (decide_family snap desired) as [[]|]; [by simplify_eq/=| | |done].
  - destruct (decide_merged snap desired) as [m|] eqn:Hm; [|done].
    case_bool_decide; [by simplify_eq/=|]. simpl in Hp. injection Hp as <-.
    exists VN_ProxyOverride, m. apply decide_merged_Ok in Hm.
    assert (sn_bypass_entries snap = bypass_from pre) as Hb.
    { unfold snapshot_from_raw in Hs. apply bind_Ok in Hs as (es & _ & Hs).
      destruct (_ && _); [done|]. by injection Hs as <-. }
    rewrite Hb in Hm. split_and!; [done|done| |done|].
    + eapply merged_text; [apply (Hpre VN_ProxyOverride)|done|done].
    + intros w out. pose proof (write_override_wrote w sid m) as Hw.
      unfold out, commit_system_proxy_apply. simpl negb. cbn [pl_merged].
      destruct (write_override_for_user w sid m) as [w' [|]]; done.
  - unfold plan_automatic in Hp. destruct (auto_config_url pre) as [| |[|c url]|]; try (by simplify_eq/=).
    destruct (try_pac_spawn env (c :: url) desired) as [log [e|]]; [|by simplify_eq/=].
    simpl in Hp. injection Hp as <-. exists VN_AutoConfigUrl, (served_url e).
    split_and!; [done|done|apply served_url_ok|done|].
    intros w out. pose proof (write_back_wrote w sid VN_AutoConfigUrl (RV_Sz (served_url e))) as Hw.
    unfold out, commit_system_proxy_apply. cbn [pl_registry_effect pl_merged pl_endpoint negb].
    destruct (write_back_value_for_user w sid VN_AutoConfigUrl (RV_Sz (served_url e))) as [w' [|]];
      [|by apply Hw]. apply wrote_broadcast. by apply Hw.
Qed.

Lemma capture_settled w sid pre v x cur : capture_for_user w sid = Ok cur → settled w sid pre v x →
  cur = pre ∨ cur = upd pre v x.
Proof. intros Hc%capture_reads [Hs|Hs]; [left|right]; by eapply reads_unique. Qed.

(** The record of a change: the settings before it and the fingerprint of those after. *)
Definition records (step : SystemProxyFamilyStep) (pre : RawInternetSettings) v (t : str) : Prop :=
  st_prestate step = pre ∧ st_written_fingerprint step = fingerprint_prestate (upd pre v (RV_Sz t)) ∧
  (∀ u, rv_ok (field pre u)) ∧ rv_ok (RV_Sz t).

(** The settings before and after a change have different fingerprints, unless they are
    the same settings. *)
Lemma fingerprint_change step pre v t : records step pre v t →
  fingerprint_prestate pre = st_written_fingerprint step → upd pre v (RV_Sz t) = pre.
Proof.
  intros (_ & -> & Hpre & Ht) Hfp. rewrite <-(upd_field pre v) at 2. f_equal.
  rewrite <-(upd_field pre v) in Hfp at 1. destruct (field pre v) as [|n|s|y d] eqn:E.
  4: { rewrite !fingerprint_eq in Hfp. exfalso.
       destruct v; cbn [upd proxy_enable proxy_server proxy_override auto_config_url auto_detect] in Hfp;
         repeat apply app_inv_head in Hfp; repeat apply app_inv_tail in Hfp; discriminate Hfp. }
  all: symmetry; eapply fingerprint_upd; [..|exact Hfp]; try done; rewrite <-E; apply Hpre.
Qed.

Lemma replay_settled w sid pre v t step : records step pre v t → settled w sid pre v (RV_Sz t) →
  let out := replay_system_proxy_step w sid step in
  settled (fst out) sid pre v (RV_Sz t) ∧ snd out ≠ SPR_SkipForfeit ∧
  (snd out ≠ SPR_HardFailure → reads (fst out) sid pre).
Proof.
  intros Hrec Hs out. unfold out, replay_system_proxy_step.
  destruct (capture_for_user w sid) as [cur|] eqn:Hc; [|done].
  pose proof (fingerprint_change _ _ _ _ Hrec) as Hfp. destruct Hrec as (Hp & Hwfp & Hpre & Ht).
  pose proof (capture_settled _ _ _ _ _ _ Hc Hs) as Hcur. apply capture_reads in Hc.
  rewrite Hp. unfold decide_replay.
  destruct (decide (fingerprint_prestate pre = st_written_fingerprint step)) as [Heq|Hne].
  - assert (cur = pre) as -> by (destruct Hcur as [->| ->]; [done|by apply Hfp]).
    rewrite !bool_decide_true by congruence. done.
  - destruct Hcur as [->| ->].
    + rewrite (bool_decide_false _ Hne), bool_decide_true by done. done.
    + rewrite (bool_decide_true (fingerprint_prestate (upd pre v (RV_Sz t)) = _)) by congruence.
      rewrite bool_decide_false by congruence. simpl negb. cbv iota.
      destruct (execute_restore_settled w sid pre v (RV_Sz t) Hpre Hs) as [He1 He2].
      destruct (execute_restore_ops w sid pre) as [w' [[a b]|e]]; simpl in *; [|done].
      split_and!; [|done|by intros _; apply broadcast_reads, He2].
      left. by apply broadcast_reads, He2.
Qed.

Lemma restore_settled w sid pre v t step : records step pre v t → settled w sid pre v (RV_Sz t) →
  let out := restore_system_proxy_step w sid step (st_written_fingerprint step) in
  settled (fst out) sid pre v (RV_Sz t) ∧ (is_ok (snd out) = true → reads (fst out) sid pre).
Proof.
  intros Hrec Hs out. unfold out, restore_system_proxy_step.
  destruct (capture_for_user w sid) as [cur|] eqn:Hc; [|done].
  destruct Hrec as (Hp & Hwfp & Hpre & Ht).
  pose proof (capture_settled _ _ _ _ _ _ Hc Hs) as Hcur. apply capture_reads in Hc.
  unfold compute_restore. case_bool_decide as Hfp; simpl negb; cbv iota.
  - rewrite Hp. destruct (execute_restore_settled w sid pre v (RV_Sz t) Hpre Hs) as [He1 He2].
    destruct (execute_restore_ops w sid pre) as [w' [[a b]|e]]; simpl in *; [|done].
    split; [left|intros _]; by apply broadcast_reads, He2.
  - split; [done|]. intros _. destruct Hcur as [->| ->]; [done|]. by rewrite Hwfp in Hfp.
Qed.

(** What may happen between the commit and the replay that succeeds: anything that leaves
    the five values alone, a replay or a teardown that fails, and a crash after any number
    of the writes of a replay. *)
Inductive recovery_step sid (step : SystemProxyFamilyStep) : W → W → Prop :=
  | rs_other w w' : (∀ v, value_at w' sid v = value_at w sid v) → recovery_step sid step w w'
  | rs_failed w w' : replay_system_proxy_step w sid step = (w', SPR_HardFailure) → recovery_step sid step w w'
  | rs_teardown w w' e :
      restore_system_proxy_step w sid step (st_written_fingerprint step) = (w', Err e) →
      recovery_step sid step w w'
  | rs_crash w k :
      recovery_step sid step w (fst (restore_fields w sid (take k (fields (st_prestate step))) (0, 0))).

Lemma recovery_settled sid pre v t step w w' : records step pre v t → recovery_step sid step w w' →
  settled w sid pre v (RV_Sz t) → settled w' sid pre v (RV_Sz t).
Proof.
  intros Hrec Hstep Hs. destruct Hstep as [w w' Hsame|w w' Hf|w w' e Hf|w k].
  - destruct Hs as [Hs|Hs]; [left|right]; intros u; rewrite Hsame; apply Hs.
  - pose proof (replay_settled w sid pre v t step Hrec Hs) as Hr. rewrite Hf in Hr. apply Hr.
  - pose proof (restore_settled w sid pre v t step Hrec Hs) as Hr. rewrite Hf in Hr. apply Hr.
  - destruct Hrec as (Hp & _ & Hpre & _). rewrite Hp.
    apply (restore_fields_settled sid pre v (RV_Sz t)); [done| |done].
    apply Forall_take. by repeat constructor.
Qed.

Lemma committed env w sid desired plan : Forall entry_ok desired →
  plan_system_proxy_apply env w sid desired = Ok plan → pl_registry_effect plan = true →
  ∃ pre v t, reads w sid pre ∧ records (pl_step plan) pre v t ∧ changes plan sid pre v t ∧
    settled (fst (commit_system_proxy_apply w sid plan)) sid pre v (RV_Sz t).
Proof.
  intros Hd Hp He. unfold plan_system_proxy_apply, plan_system_proxy_apply_observed in Hp.
  destruct (capture_for_user w sid) as [pre|] eqn:Hc; [|done]. apply capture_reads in Hc.
  assert (∀ u, rv_ok (field pre u)) as Hpre by (intros u; by eapply reads_ok).
  destruct (plan_from_prestate env sid desired pre) as [log p] eqn:Epl. simpl in Hp. subst p.
  destruct (plan_changes env sid desired pre plan Hpre Hd) as (v & t & Hch); [by rewrite Epl|done|].
  exists pre, v, t. pose proof Hch as (Hst & _ & Ht & Hfp & Hcommit). split_and!; [done|by split_and!|done|].
  specialize (Hcommit w). eapply wrote_reads in Hcommit as [Hr|[_ Hr]]; [by right|by left|done|done].
Qed.

(** Once a plan has been made, and its commit has run, failed or not been reached, then
    whatever failed replays, failed teardowns and crashes in the middle of a replay
    follow, the first replay that does not fail hard leaves the five values as they were
    read before the plan, and never takes the settings for somebody else's. *)
Theorem proxy_crash_recovery env w sid desired plan w1 w2 w3 out :
  Forall entry_ok desired → plan_system_proxy_apply env w sid desired = Ok plan →
  pl_registry_effect plan = true →
  w1 = w ∨ w1 = fst (commit_system_proxy_apply w sid plan) →
  rtc (recovery_step sid (pl_step plan)) w1 w2 →
  replay_system_proxy_step w2 sid (pl_step plan) = (w3, out) → out ≠ SPR_HardFailure →
  out ≠ SPR_SkipForfeit ∧ ∀ v, raw_of (value_at w3 sid v) = raw_of (value_at w sid v).
Proof.
  intros Hd Hp He Hw1 Hsteps Hreplay Hout.
  destruct (committed env w sid desired plan Hd Hp He) as (pre & v & t & Hr & Hrec & _ & Hs).
  assert (settled w1 sid pre v (RV_Sz t)) as Hs1 by (destruct Hw1 as [->| ->]; [by left|done]).
  assert (settled w2 sid pre v (RV_Sz t)) as Hs2.
  { clear - Hsteps Hs1 Hrec. induction Hsteps as [|a b c Hstep _ IH]; [done|].
    apply IH. by eapply recovery_settled. }
  pose proof (replay_settled w2 sid pre v t (pl_step plan) Hrec Hs2) as (_ & Hskip & Hpre).
  rewrite Hreplay in Hskip, Hpre. split; [done|]. intros u. transitivity (Some (field pre u)).
  - by apply Hpre.
  - symmetry. apply Hr.
Qed.

(** Settings somebody changed after the tunnel wrote them are left alone: when one of
    the five values differs from what was written, neither the replay nor the teardown
    writes anything. *)
Theorem third_party_edit_kept w sid step wr v x :
  st_written_fingerprint step = fingerprint_prestate wr →
  rv_ok (field wr v) → fits (field wr v) → fits x → x ≠ field wr v →
  capture_for_user w sid = Ok (upd wr v x) →
  fst (replay_system_proxy_step w sid step) = w ∧
  restore_system_proxy_step w sid step (st_written_fingerprint step) = (w, Ok SRO_TypedSkip).
Proof.
  intros Hfp Hok Hf Hfx Hne Hc.
  assert (fingerprint_prestate (upd wr v x) ≠ st_written_fingerprint step) as Hdiff.
  { rewrite Hfp. rewrite <-(upd_field wr v) at 2. intros Heq%fingerprint_upd; [done| |done..].
    apply capture_reads in Hc. specialize (Hc v). rewrite field_upd in Hc.
    destruct (decide (v = v)); [by eapply raw_of_ok|done]. }
  unfold replay_system_proxy_step, restore_system_proxy_step, decide_replay, compute_restore.
  rewrite Hc, (bool_decide_false _ Hdiff). split; [by case_bool_decide|done].
Qed.
End properties.

(** ** Witnesses and deviations *)

Definition sample_sid : str := lit "S-1-5-21-7".
Definition sample_env : PacEnv :=
  MkPacEnv id (λ _, MkPacNet None None None None [] PE_Eof) (λ _, Ok 4000%N).
Definition sample_values : gmap (str * str) (N * list byte) :=
  list_to_map [((settings_path sample_sid, lit "ProxyEnable"), (REG_DWORD, [x01; x00; x00; x00]));
               ((settings_path sample_sid, lit "ProxyServer"),
                default (0%N, []) (raw_bytes (RV_Sz (lit "127.0.0.1:7890"))))].
Definition sample_registry : SimRegistry := MkSim sample_values [] 0.

(** A commit, then a replay that fails because one value cannot be written, then one
    that succeeds. *)
Lemma proxy_crash_recovery_witness :
  ∃ plan w1 w2 w3 out,
    plan_system_proxy_apply sample_env sample_registry sample_sid [lit "10.1.*"] = Ok plan ∧
    w1 = fst (commit_system_proxy_apply sample_registry sample_sid plan) ∧
    sim_values w1 !! (settings_path sample_sid, lit "ProxyOverride") = raw_bytes (RV_Sz (lit "10.1.*")) ∧
    replay_system_proxy_step w2 sample_sid (pl_step plan) = (w3, out) ∧ out = SPR_Restored 2 3 ∧
    ∀ v, raw_of (value_at w3 sample_sid v) = raw_of (value_at sample_registry sample_sid v).
Proof.
  destruct (plan_system_proxy_apply sample_env sample_registry sample_sid [lit "10.1.*"]) as [plan|] eqn:Hp;
    [|vm_compute in Hp; discriminate].
  set (w1 := fst (commit_system_proxy_apply sample_registry sample_sid plan)).
  set (wf := MkSim (sim_values w1) [lit "ProxyServer"] (sim_notified w1)).
  set (w2 := MkSim (sim_values (fst (replay_system_proxy_step wf sample_sid (pl_step plan)))) [] 0).
  exists plan, w1, w2, (fst (replay_system_proxy_step w2 sample_sid (pl_step plan))),
    (snd (replay_system_proxy_step w2 sample_sid (pl_step plan))).
  assert (Hplan := Hp). vm_compute in Hp. injection Hp as Hp.
  assert (snd (replay_system_proxy_step w2 sample_sid (pl_step plan)) = SPR_Restored 2 3) as Hout
    by (unfold w2, wf, w1; rewrite <-Hp; vm_compute; reflexivity).
  assert (snd (replay_system_proxy_step wf sample_sid (pl_step plan)) = SPR_HardFailure) as Hfail
    by (unfold wf, w1; rewrite <-Hp; vm_compute; reflexivity).
  split; [done|]. split; [done|]. split; [unfold w1; rewrite <-Hp; vm_compute; reflexivity|].
  split; [by destruct (replay_system_proxy_step w2 sample_sid (pl_step plan))|]. split; [done|].
  apply (proxy_crash_recovery sample_env sample_registry sample_sid [lit "10.1.*"] plan w1 w2 _
    (snd (replay_system_proxy_step w2 sample_sid (pl_step plan)))).
  - repeat constructor. apply (bool_decide_unpack _). vm_compute. exact I.
  - done.
  - by rewrite <-Hp.
  - by right.
  - eapply rtc_l; [apply rs_other with (w' := wf); intros v; reflexivity|].
    eapply rtc_l; [apply rs_failed with (w' := fst (replay_system_proxy_step wf sample_sid (pl_step plan)))|].
    { rewrite <-Hfail. apply surjective_pairing. }
    apply rtc_once, rs_other. intros v. reflexivity.
  - by destruct (replay_system_proxy_step w2 sample_sid (pl_step plan)).
  - by rewrite Hout.
Defined.

(** The settings the tunnel wrote, and the user's own exemption afterwards. *)
Lemma third_party_edit_kept_witness :
  let wr := MkRaw (RV_Dword 1) (RV_Sz (lit "127.0.0.1:7890")) (RV_Sz (lit "10.1.*")) RV_Absent RV_Absent in
  let step := MkStep (MkRaw (RV_Dword 1) (RV_Sz (lit "127.0.0.1:7890")) RV_Absent RV_Absent RV_Absent)
                [lit "10.1.*"] sample_sid false (fingerprint_prestate wr) in
  let w := snd (reg_set sample_registry (settings_path sample_sid) (lit "ProxyOverride") REG_SZ [x61; x00]) in
  capture_for_user w sample_sid = Ok (upd wr VN_ProxyOverride (RV_Sz (lit "a"))) ∧
  fst (replay_system_proxy_step w sample_sid step) = w.
Proof.
  intros wr step w.
  assert (capture_for_user w sample_sid = Ok (upd wr VN_ProxyOverride (RV_Sz (lit "a")))) as Hc
    by (vm_compute; reflexivity).
  split; [exact Hc|].
  apply (third_party_edit_kept w sample_sid step wr VN_ProxyOverride (RV_Sz (lit "a"))).
  - reflexivity.
  - split; [repeat constructor|]. apply (bool_decide_unpack _). vm_compute. exact I.
  - exact I.
  - exact I.
  - vm_compute. discriminate.
  - exact Hc.
Defined.

(** Two values changed together can leave the fingerprint as it was: the tag of the
    second is part of the text of the first. *)
Example two_edits_same_fingerprint :
  let written := MkRaw (RV_Dword 1) (RV_Sz (lit "a")) (RV_Sz [98%N]) RV_Absent RV_Absent in
  let edited := MkRaw (RV_Dword 1) (RV_Sz (lit "a" ++ [0x6203%N])) RV_Absent RV_Absent RV_Absent in
  fingerprint_prestate written = fingerprint_prestate edited ∧ written ≠ edited.
Proof. split; [vm_compute; reflexivity|]. vm_compute. discriminate. Qed.

(** The classes an error is reported as. *)
Definition reasons : list string :=
  ["empty_script"%string; "already_wrapped"%string; "missing_entrypoint"%string; "unbalanced_brackets"%string;
   "multiple_entrypoints"%string; "unclassified_pac_error"%string] ++ reason_prefixes.*2.

(** The reason reported for an error is one of a fixed list, whatever the message of the
    error holds. *)
Theorem reasons_are_fixed e r : safe_system_proxy_error_reason e = Some r →
  r ∈ reasons.
Proof.
  unfold safe_system_proxy_error_reason. destruct (text_strip _ _) as [reason|].
  - intros [= <-]. repeat case_bool_decide; [..|destruct (counts_several reason)];
      apply (bool_decide_unpack _); vm_compute; exact I.
  - destruct (List.find _ reason_prefixes) as [p|] eqn:E.
    + intros [= <-]. apply elem_of_app. right. apply List.find_some in E as [Hin _].
      apply list_elem_of_fmap_2. by apply list_elem_of_In.
    + destruct (_ || _); [|done]. intros [= <-]. apply (bool_decide_unpack _). vm_compute. exact I.
Qed.

Lemma reasons_are_fixed_witness :
  ∃ e, safe_system_proxy_error_reason e = Some "timeout"%string ∧
    "timeout"%string ∈ reasons.
Proof.
  exists (err_fetch NEK_Transport 0 "pac_fetch_timeout: http://127.0.0.1/secret"). split; [vm_compute; reflexivity|].
  apply (reasons_are_fixed (err_fetch NEK_Transport 0 "pac_fetch_timeout: http://127.0.0.1/secret")).
  vm_compute. reflexivity.
Defined.
