(* ===== verification/ProxyJournal.v ===== *)
(** * The journal of the system proxy

    [system_proxy_journal.rs] of the Windows engine and the system proxy part of
    [RouteOwner::apply] and [RouteOwner::clear] in [platform_tunnel.rs]: the record of a
    change goes to the journal before the change is made, and is replayed at the next
    start or connection.

    A [Ledger] is the open store, if there is one, with the file on disk and the files
    put aside as corrupt. What the file system answers in one operation is [LedgerIo].
    The outer [None] of an operation is a panic: a store used after a failed compaction,
    or a missing one. Log output is left out, and so is the mutex around the store, whose
    critical sections are the operations. *)

From Stdlib Require Import NArith ZArith Strings.Byte Lia.
From S2P Require Import Prelude Text Utf16 Identity Model Samples Journal Admission NativeError WinJournal.
From S2P Require Import SystemProxy Registry ProxyFamily Pac ProxyExec.

(** ** The ledger *)

(** win32-engine/system_proxy_journal.rs:42-54 [SystemProxyJournal] *)
Record Ledger := MkLedger {
  lg_store : option WinJournalStore;
  lg_disk : list byte;
  lg_quarantined : list (list byte);
}.

(** The answers of the file system: opening, reading, the compaction that repairs a torn
    tail, the one that clears, renaming, and appending. *)
Record LedgerIo := MkLedgerIo {
  li_secured : result NativeError ();
  li_open : answer;
  li_metadata : answer;
  li_seek : answer;
  li_read : answer;
  li_repair : CompactIo;
  li_compact : CompactIo;
  li_rename : answer;
  li_append : AppendIo;
}.

Definition reopen (l : Ledger) (io : LedgerIo) : Ledger * bool :=
  match store_open (li_secured io) (li_open io) (li_metadata io) (lg_disk l) with
  | Ok store => (MkLedger (Some store) (lg_disk l) (lg_quarantined l), true)
  | Err _ => (MkLedger None (lg_disk l) (lg_quarantined l), false)
  end.

(** The ledger after its store was used. *)
Definition use (l : Ledger) (s : WinJournalStore) : Ledger := MkLedger (Some s) (ws_file s) (lg_quarantined l).

(** win32-engine/system_proxy_journal.rs:73-94 [SystemProxyJournal::open] *)
Definition ledger_open (content : list byte) (io : LedgerIo) : Ledger :=
  fst (reopen (MkLedger None content []) io).

(** win32-engine/system_proxy_journal.rs:96-104 [SystemProxyJournal::disabled] *)
Definition ledger_disabled : Ledger := MkLedger None [] [].

(** win32-engine/system_proxy_journal.rs:431-490 [quarantine_locked] *)
Definition quarantine_locked (l : Ledger) (io : LedgerIo) : Ledger * bool :=
  match li_rename io with
  | Some _ => (MkLedger None (lg_disk l) (lg_quarantined l), false)
  | None => reopen (MkLedger None [] (lg_quarantined l ++ [lg_disk l])) io
  end.

(** win32-engine/system_proxy_journal.rs:399-421 [recover_store_after_compact_failure] *)
Definition recover_store_after_compact_failure (l : Ledger) (io : LedgerIo) : Ledger := fst (reopen l io).

(** A compaction of the ledger's store, and the new handle when it fails. *)
Definition compact_ledger (l : Ledger) (s : WinJournalStore) (keep : list JournalRecord) (cio : CompactIo)
    (io : LedgerIo) : Ledger * bool :=
  match compact s keep cio with
  | (s, Ok _) => (use l s, true)
  | (s, Err _) => (recover_store_after_compact_failure (use l s) io, false)
  end.

Section ledger.
Variable sha256 : list byte → array 32.

(** win32-engine/system_proxy_journal.rs:139-142 [append_step]: the head of the chain. *)
Definition chain_head (records : list JournalRecord) : N * array 32 :=
  match last records with
  | Some r => (add64 (jr_sequence r) 1, jr_digest r)
  | None => (0%N, array_fill 32 x00)
  end.

(** win32-engine/system_proxy_journal.rs:168-185 [append_step]: the append at the end. *)
Definition append_at (l : Ledger) (head : N * array 32) (step : SystemProxyFamilyStep) (io : LedgerIo) :
    option (Ledger * bool) :=
  s ← lg_store l;
  let record := JournalRecord_new sha256 (fst head) (snd head) (to_payload step) in
  p ← append_synced s record (li_append io);
  Some (use l (fst p), is_ok (snd p)).

(** win32-engine/system_proxy_journal.rs:118-186 [append_step] *)
Definition append_step (l : Ledger) (step : SystemProxyFamilyStep) (io : LedgerIo) : option (Ledger * bool) :=
  match lg_store l with
  | None => Some (l, false)
  | Some s =>
      recovered ← store_recover sha256 s (li_seek io) (li_read io);
      match recovered with
      | Err _ => Some (l, false)
      | Ok (RO_Clean records) | Ok (RO_TornTail records) => append_at l (chain_head records) step io
      | Ok (RO_Corrupt _) =>
          let '(l, quarantined) := quarantine_locked l io in
          if negb quarantined then Some (l, false) else append_at l (0%N, array_fill 32 x00) step io
      end
  end.

(** win32-engine/system_proxy_journal.rs:188-235 [clear_tail] *)
Definition clear_tail (l : Ledger) (keep_len : nat) (io : LedgerIo) : option Ledger :=
  match lg_store l with
  | None => Some l
  | Some s =>
      recovered ← store_recover sha256 s (li_seek io) (li_read io);
      match recovered with
      | Err _ | Ok (RO_Corrupt _) => Some l
      | Ok (RO_Clean records) | Ok (RO_TornTail records) =>
          let keep_len := keep_len `min` length records in
          if length records <=? keep_len then Some l
          else Some (fst (compact_ledger l s (take keep_len records) (li_compact io) io))
      end
  end.

Definition is_step (r : JournalRecord) : bool := is_ok (from_payload (jr_payload r)).

(** win32-engine/system_proxy_journal.rs:237-251 [has_pending_step] *)
Definition has_pending_step (l : Ledger) (io : LedgerIo) : option bool :=
  match lg_store l with
  | None => Some false
  | Some s =>
      recovered ← store_recover sha256 s (li_seek io) (li_read io);
      Some match recovered with
           | Ok (RO_Clean records) | Ok (RO_TornTail records) => existsb is_step records
           | Ok (RO_Corrupt _) | Err _ => false
           end
  end.

(** win32-engine/system_proxy_journal.rs:253-267 [record_count] *)
Definition record_count (l : Ledger) (io : LedgerIo) : option nat :=
  match lg_store l with
  | None => Some 0
  | Some s =>
      recovered ← store_recover sha256 s (li_seek io) (li_read io);
      Some match recovered with
           | Ok (RO_Clean records) | Ok (RO_TornTail records) => length records
           | Ok (RO_Corrupt _) | Err _ => 0
           end
  end.

Context {W : Type} `{Win32Registry W}.

(** win32-engine/system_proxy_journal.rs:327-382 [replay_pending]: the loop, from the last
    record to the first; [keep] is the number of records to keep so far. *)
Fixpoint replay_suffix (w : W) (rev_records : list JournalRecord) (keep : nat) : W * nat :=
  match rev_records with
  | [] => (w, keep)
  | r :: rest =>
      match from_payload (jr_payload r) with
      | Err _ => (w, keep)
      | Ok step =>
          match replay_system_proxy_step w (st_originating_sid step) step with
          | (w, SPR_HardFailure) => (w, keep)
          | (w, _) => replay_suffix w rest (length rest)
          end
      end
  end.

(** win32-engine/system_proxy_journal.rs:323-396 [replay_pending]: after the repair. *)
Definition replay_records (l : Ledger) (s : WinJournalStore) (w : W) (records : list JournalRecord) (io : LedgerIo) :
    Ledger * W :=
  let '(w, keep_len) := replay_suffix w (reverse records) (length records) in
  if length records <=? keep_len then (l, w)
  else (fst (compact_ledger l s (take keep_len records) (li_compact io) io), w).

(** win32-engine/system_proxy_journal.rs:269-397 [replay_pending] *)
Definition replay_pending (l : Ledger) (w : W) (io : LedgerIo) : option (Ledger * W) :=
  match lg_store l with
  | None => Some (l, w)
  | Some s =>
      recovered ← store_recover sha256 s (li_seek io) (li_read io);
      match recovered with
      | Err _ => Some (l, w)
      | Ok (RO_Corrupt _) => Some (fst (quarantine_locked l io), w)
      | Ok (RO_Clean records) => Some (replay_records l s w records io)
      | Ok (RO_TornTail records) =>
          match compact_ledger l s records (li_repair io) io with
          | (l, false) => Some (l, w)
          | (l, true) => s ← lg_store l; Some (replay_records l s w records io)
          end
      end
  end.

(** win32-engine/system_proxy_journal.rs:57-71 [open_and_replay] *)
Definition open_and_replay (content : list byte) (w : W) (io : LedgerIo) : option (Ledger * W) :=
  replay_pending (ledger_open content io) w io.

(** ** Connecting and disconnecting *)

(** win32-engine/platform_tunnel.rs:672-681 [RecordCommitOutcome] *)
Inductive RecordCommitOutcome := RCO_Committed | RCO_NotRecorded | RCO_CommitFailed (e : NativeError).

(** win32-engine/platform_tunnel.rs:655-670 [record_then_commit] *)
Definition record_then_commit (append_ok : bool) (w : W) (commit : W → W * result NativeError ()) :
    W * RecordCommitOutcome :=
  if negb append_ok then (w, RCO_NotRecorded)
  else match commit w with
  | (w, Ok _) => (w, RCO_Committed)
  | (w, Err e) => (w, RCO_CommitFailed e)
  end.

(** win32-engine/platform_tunnel.rs:640-653 [SystemProxyApplied] *)
Record SystemProxyApplied := MkApplied {
  ap_step : SystemProxyFamilyStep;
  ap_pac_endpoint : option PacEndpoint;
  ap_journal_len_before : nat;
}.

(** The answers of the file system while the proxy family is applied, operation by
    operation. *)
Record ApplyIo := MkApplyIo { ai_replay : LedgerIo; ai_count : LedgerIo; ai_append : LedgerIo }.

(** win32-engine/platform_tunnel.rs:816-822 [RouteOwner::apply]: the exemptions of the campus
    routes. *)
Definition desired_entries (campus_routes : list str) : list str :=
  omap (λ r, entry_str <$> cidr_to_wildcard_opt r) campus_routes.

(** win32-engine/platform_tunnel.rs:812-919 [RouteOwner::apply]: the system proxy family, for
    the user of the core if it is known. *)
Definition apply_proxy_family (env : PacEnv) (l : Ledger) (w : W) (core_user_sid : option str)
    (campus_routes : list str) (io : ApplyIo) : option (Ledger * W * option SystemProxyApplied) :=
  match core_user_sid with
  | None => Some (l, w, None)
  | Some sid =>
      p ← replay_pending l w (ai_replay io);
      let '(l, w) := p in
      journal_len_before ← record_count l (ai_count io);
      match plan_system_proxy_apply env w sid (desired_entries campus_routes) with
      | Err _ => Some (l, w, None)
      | Ok plan =>
          if negb (pl_registry_effect plan) then Some (l, w, None)
          else
            q ← append_step l (pl_step plan) (ai_append io);
            let '(l, appended) := q in
            let '(w, outcome) := record_then_commit appended w (λ w, commit_system_proxy_apply w sid plan) in
            Some (l, w, match outcome with
                        | RCO_Committed => Some (MkApplied (pl_step plan) (pl_endpoint plan) journal_len_before)
                        | RCO_NotRecorded | RCO_CommitFailed _ => None
                        end)
      end
  end.

(** win32-engine/platform_tunnel.rs:999-1048 [RouteOwner::clear]: the system proxy family. The
    state is kept when the restoration fails. *)
Definition clear_proxy_family (l : Ledger) (w : W) (state : option SystemProxyApplied) (io : LedgerIo) :
    option (Ledger * W * option SystemProxyApplied * result NativeError ()) :=
  match state with
  | None => Some (l, w, None, Ok ())
  | Some applied =>
      let step := ap_step applied in
      match restore_system_proxy_step w (st_originating_sid step) step (st_written_fingerprint step) with
      | (w, Err e) => Some (l, w, Some applied, Err e)
      | (w, Ok _) =>
          l ← clear_tail l (ap_journal_len_before applied) io;
          Some (l, w, None, Ok ())
      end
  end.
End ledger.

(** ** The ledger is never used wrongly *)

Definition ledger_ok (l : Ledger) : Prop :=
  match lg_store l with Some s => ws_open s = true ∧ lg_disk l = ws_file s | None => True end.

Lemma store_open_Ok secured opened metadata content s :
  store_open secured opened metadata content = Ok s → ws_open s = true ∧ ws_file s = content.
Proof. unfold store_open. destruct secured, opened, metadata; simpl; by intros [= <-]. Qed.

Lemma reopen_ok l io : ledger_ok (fst (reopen l io)) ∧ lg_disk (fst (reopen l io)) = lg_disk l ∧
  (snd (reopen l io) = true → is_Some (lg_store (fst (reopen l io)))).
Proof.
  unfold reopen. destruct (store_open _ _ _ _) as [s|] eqn:E; [|done].
  apply store_open_Ok in E as [Ho Hf]. simpl. split_and!; [by split|done|eauto].
Qed.
Lemma quarantine_ok l io : ledger_ok (fst (quarantine_locked l io)) ∧
  (snd (quarantine_locked l io) = true → is_Some (lg_store (fst (quarantine_locked l io)))) ∧
  (lg_disk (fst (quarantine_locked l io)) = lg_disk l ∨ lg_disk (fst (quarantine_locked l io)) = []).
Proof.
  unfold quarantine_locked. destruct (li_rename io); [by split_and!; [|done|left]|].
  destruct (reopen_ok (MkLedger None [] (lg_quarantined l ++ [lg_disk l])) io) as (H1 & H2 & H3).
  split_and!; [done|done|by right].
Qed.

(** A compaction leaves the file as it was or with the records kept, and when it succeeds
    the latter. *)
Lemma compact_file s keep cio : ws_open s = true →
  let out := compact s keep cio in
  (ws_file (fst out) = ws_file s ∨ ws_file (fst out) = encode_all keep) ∧
  (is_ok (snd out) = true → ws_open (fst out) = true ∧ ws_file (fst out) = encode_all keep).
Proof.
  intros Ho out. unfold out, compact.
  destruct (cm_temp_open cio), (cm_temp_write cio), (cm_temp_flush cio); simpl;
    try (split; [by left|done]).
  destruct (cm_replace cio); simpl; [by split; [left|]|].
  destruct (cm_flush_directory cio); simpl; [|by split; [right|]].
  destruct (cm_reopen cio), (cm_metadata cio); simpl; by split; [right|].
Qed.
Lemma compact_ledger_ok l s keep cio io : ws_open s = true → lg_disk l = ws_file s →
  let out := compact_ledger l s keep cio io in
  ledger_ok (fst out) ∧ (lg_disk (fst out) = lg_disk l ∨ lg_disk (fst out) = encode_all keep) ∧
  (snd out = true → is_Some (lg_store (fst out)) ∧ lg_disk (fst out) = encode_all keep).
Proof.
  intros Ho Hd out. unfold out, compact_ledger. pose proof (compact_file s keep cio Ho) as [Hf Hok].
  destruct (compact s keep cio) as [s' [a|e]]; simpl in *.
  - destruct (Hok eq_refl) as [Ho' ->]. split_and!; [by split|by right|eauto].
  - unfold recover_store_after_compact_failure. destruct (reopen_ok (use l s') io) as (H1 & H2 & _).
    rewrite H2. simpl. rewrite Hd. done.
Qed.

Section total.
Variable sha256 : list byte → array 32.

Lemma decode_total bytes : is_Some (decode sha256 bytes).
Proof.
  unfold decode. destruct (decode_loop_sound sha256 (S (length bytes)) bytes [] 0) as (o & -> & _);
    simpl; [lia|lia|done|constructor|eauto].
Qed.
Lemma store_recover_total s seek read : ws_open s = true → is_Some (store_recover sha256 s seek read).
Proof.
  intros Ho. unfold store_recover. rewrite Ho. destruct seek, read; simpl; eauto.
  destruct (decode_total (ws_file s)) as [o ->]. simpl. eauto.
Qed.
Lemma append_at_total l head step io : ledger_ok l → is_Some (lg_store l) →
  ∃ l' b, append_at sha256 l head step io = Some (l', b) ∧ ledger_ok l'.
Proof.
  intros Hl [s Hs]. unfold ledger_ok in Hl. rewrite Hs in Hl. destruct Hl as [Ho _].
  unfold append_at, append_synced. rewrite Hs. simpl. rewrite Ho. simpl.
  destruct (ap_write (li_append io)) as [[k e]|]; simpl; [eexists _, _; split; [done|by split]|].
  destruct (ap_flush (li_append io)), (ap_metadata (li_append io)); simpl; eexists _, _; (split; [done|by split]).
Qed.

Ltac recovered l Hl s Ho Hd :=
  let E := fresh "E" in
  unfold ledger_ok in Hl; destruct (lg_store l) as [s|] eqn:E; [destruct Hl as [Ho Hd]|].

Lemma append_step_total l step io : ledger_ok l →
  ∃ l' b, append_step sha256 l step io = Some (l', b) ∧ ledger_ok l'.
Proof.
  intros Hl. unfold append_step. assert (Hl' := Hl). recovered l Hl s Ho Hd; [|by eexists _, _].
  destruct (store_recover_total s (li_seek io) (li_read io) Ho) as [r ->]. simpl.
  assert (is_Some (lg_store l)) as Hs by (rewrite E; eauto).
  destruct r as [[rs|rs|off]|e]; [by apply append_at_total..| |by eexists _, _].
  destruct (quarantine_ok l io) as (Hq & Hqs & _).
  destruct (quarantine_locked l io) as [lq [|]]; simpl in *; [|by eexists _, _].
  apply append_at_total; [done|by apply Hqs].
Qed.
Lemma clear_tail_total l keep io : ledger_ok l → ∃ l', clear_tail sha256 l keep io = Some l' ∧ ledger_ok l'.
Proof.
  intros Hl. unfold clear_tail. assert (Hl' := Hl). recovered l Hl s Ho Hd; [|by eexists].
  destruct (store_recover_total s (li_seek io) (li_read io) Ho) as [r ->]. simpl.
  destruct r as [[rs|rs|off]|e]; [..|by eexists|by eexists]; (destruct (_ <=? _); [by eexists|]);
    eexists; (split; [done|]); by apply compact_ledger_ok.
Qed.
Lemma record_count_total l io : ledger_ok l → is_Some (record_count sha256 l io).
Proof.
  intros Hl. unfold record_count. recovered l Hl s Ho Hd; [|eauto].
  destruct (store_recover_total s (li_seek io) (li_read io) Ho) as [r ->]. simpl. eauto.
Qed.

Context {W : Type} `{Win32Registry W}.

Lemma replay_records_ok l s (w : W) rs io : ledger_ok l → lg_store l = Some s →
  ledger_ok (fst (replay_records l s w rs io)).
Proof.
  intros Hl Hs. unfold replay_records. destruct (replay_suffix w _ _) as [w' keep].
  destruct (_ <=? _); [done|]. unfold ledger_ok in Hl. rewrite Hs in Hl. destruct Hl as [Ho Hd].
  by apply compact_ledger_ok.
Qed.
Lemma replay_pending_total l (w : W) io : ledger_ok l →
  ∃ l' w', replay_pending sha256 l w io = Some (l', w') ∧ ledger_ok l'.
Proof.
  intros Hl. unfold replay_pending. assert (Hl' := Hl). recovered l Hl s Ho Hd; [|by eexists _, _].
  destruct (store_recover_total s (li_seek io) (li_read io) Ho) as [r ->]. simpl.
  destruct r as [[rs|rs|off]|e]; [| | |by eexists _, _].
  - eexists _, _. split; [by rewrite <-surjective_pairing|]. by apply replay_records_ok.
  - destruct (compact_ledger_ok l s rs (li_repair io) io Ho Hd) as (Hc & _ & Hcs).
    destruct (compact_ledger l s rs (li_repair io) io) as [lc [|]]; simpl in *; [|by eexists _, _].
    destruct Hcs as [[s' Hs'] _]; [done|]. rewrite Hs'. simpl.
    eexists _, _. split; [by rewrite <-surjective_pairing|]. by apply replay_records_ok.
  - eexists _, _. split; [done|]. apply quarantine_ok.
Qed.

Lemma apply_proxy_total env l (w : W) sid routes io : ledger_ok l →
  ∃ l' w' st, apply_proxy_family sha256 env l w sid routes io = Some (l', w', st) ∧ ledger_ok l'.
Proof.
  intros Hl. unfold apply_proxy_family. destruct sid as [sid|]; [|by eexists _, _, _].
  destruct (replay_pending_total l w (ai_replay io) Hl) as (l1 & w1 & -> & Hl1). simpl.
  destruct (record_count_total l1 (ai_count io) Hl1) as [n ->]. simpl.
  destruct (plan_system_proxy_apply _ _ _ _) as [plan|]; [|by eexists _, _, _].
  destruct (pl_registry_effect plan); simpl; [|by eexists _, _, _].
  destruct (append_step_total l1 (pl_step plan) (ai_append io) Hl1) as (l2 & b & -> & Hl2). simpl.
  destruct (record_then_commit _ _ _). by eexists _, _, _.
Qed.
Lemma clear_proxy_total l (w : W) state io : ledger_ok l →
  ∃ l' w' st r, clear_proxy_family sha256 l w state io = Some (l', w', st, r) ∧ ledger_ok l'.
Proof.
  intros Hl. unfold clear_proxy_family. destruct state as [a|]; [|by eexists _, _, _, _].
  destruct (restore_system_proxy_step _ _ _ _) as [w' [o|e]]; [|by eexists _, _, _, _].
  destruct (clear_tail_total l (ap_journal_len_before a) io Hl) as (l' & -> & Hl'). simpl.
  by eexists _, _, _, _.
Qed.

(** Whatever the file system answers, connecting and disconnecting never use a journal
    store without its handle: both return, with the ledger usable again. *)
Theorem proxy_ledger_total env l (w : W) sid routes io state io' : ledger_ok l →
  (∃ l' w' st, apply_proxy_family sha256 env l w sid routes io = Some (l', w', st) ∧ ledger_ok l') ∧
  (∃ l' w' st r, clear_proxy_family sha256 l w state io' = Some (l', w', st, r) ∧ ledger_ok l').
Proof. intros Hl. split; [by apply apply_proxy_total|by apply clear_proxy_total]. Qed.
End total.

(** ** The record comes before the change *)

(** The journal ends with no record of a change of the proxy settings. *)
Definition no_step_last (records : list JournalRecord) : Prop :=
  match last records with Some r => is_step r = false | None => True end.

Section wal.
Variable sha256 : list byte → array 32.
Context {W : Type} `{RegistryLaws W}.
Implicit Types (w : W).

Lemma store_recover_file s o : ws_open s = true → decode sha256 (ws_file s) = Some o → ∀ seek read r,
  store_recover sha256 s seek read = Some (Ok r) →
  r = match o with Clean rs => RO_Clean rs | TornTail rs => RO_TornTail rs | Corrupt _ off => RO_Corrupt off end.
Proof.
  intros Ho Hd seek read r. unfold store_recover. rewrite Ho, Hd.
  destruct seek, read; simpl; intros Hr; by simplify_eq/=.
Qed.

(** Records that end with no step are left alone. *)
Lemma replay_stops w records n : no_step_last records → replay_suffix w (reverse records) n = (w, n).
Proof.
  destruct records as [|r rs _] using rev_ind; [done|]. unfold no_step_last, is_step.
  rewrite last_snoc, reverse_snoc. simpl. by destruct (from_payload (jr_payload r)).
Qed.
Lemma replay_records_stops l s w records io : no_step_last records → replay_records l s w records io = (l, w).
Proof. intros Hn. unfold replay_records. rewrite replay_stops by done. by rewrite Nat.leb_refl. Qed.

Variables (prior : list JournalRecord) (record : JournalRecord) (step : SystemProxyFamilyStep)
  (sid : str) (pre : RawInternetSettings) (v : ValueName) (t : str).
Hypothesis Hprior : Forall (record_ok sha256) prior.
Hypothesis Hrecord : record_ok sha256 record.
Hypothesis Hnone : no_step_last prior.
Hypothesis Hstep : from_payload (jr_payload record) = Ok step.
Hypothesis Hsid : st_originating_sid step = sid.
Hypothesis Hrec : records step pre v t.

(** The settings are the ones before the change, and the journal holds at most a part of
    its record; or the journal holds the record, and the settings are the ones before
    the change or after it. *)
Definition wal_state (disk : list byte) w : Prop :=
  (reads w sid pre ∧
   (disk = [] ∨ ∃ k, k < length (encode record) ∧ disk = encode_all prior ++ take k (encode record))) ∨
  (settled w sid pre v (RV_Sz t) ∧ disk = encode_all (prior ++ [record])).

Lemma wal_cut k w : reads w sid pre → k < length (encode record) →
  wal_state (encode_all prior ++ take k (encode record)) w.
Proof. intros Hr Hk. left. split; [done|]. right. eauto. Qed.
Lemma wal_prior w : reads w sid pre → wal_state (encode_all prior) w.
Proof.
  intros Hr. rewrite <-(app_nil_r (encode_all prior)). change [] with (take 0 (encode record)).
  apply wal_cut; [done|]. rewrite length_encode. lia.
Qed.

(** The journal with the record: a replay that does not fail hard restores the settings,
    then stops at the records before it. *)
Lemma replay_one w : settled w sid pre v (RV_Sz t) →
  let out := replay_suffix w (reverse (prior ++ [record])) (length (prior ++ [record])) in
  settled (fst out) sid pre v (RV_Sz t) ∧
  ((snd out = length (prior ++ [record]) ∧ snd (replay_system_proxy_step w sid step) = SPR_HardFailure) ∨
   (snd out = length prior ∧ reads (fst out) sid pre)).
Proof.
  intros Hs out. unfold out. rewrite reverse_snoc. cbn [replay_suffix]. rewrite Hstep, Hsid.
  destruct (replay_settled w sid pre v t step Hrec Hs) as (H1 & H2 & H3).
  destruct (replay_system_proxy_step w sid step) as [w' o]. simpl in H1, H2, H3.
  rewrite replay_stops, length_reverse by done.
  destruct o; simpl; (split; [done|]); [right|right|done|by left]; (split; [done|by apply H3]).
Qed.

Lemma replay_records_wal l s w io : lg_store l = Some s → ws_open s = true → lg_disk l = ws_file s →
  lg_disk l = encode_all (prior ++ [record]) → settled w sid pre v (RV_Sz t) →
  let out := replay_records l s w (prior ++ [record]) io in wal_state (lg_disk (fst out)) (snd out).
Proof.
  intros Hls Ho Hd Hfile Hs out. unfold out, replay_records.
  destruct (replay_one w Hs) as [H1 H2].
  destruct (replay_suffix w _ _) as [w' keep]. simpl in *.
  destruct H2 as [[-> _]|[-> Hr]].
  - rewrite Nat.leb_refl. right. by split.
  - destruct (Nat.leb_spec (length (prior ++ [record])) (length prior)) as [Hlen|_].
    { rewrite length_app in Hlen. simpl in Hlen. lia. }
    rewrite take_app_length. simpl.
    destruct (compact_ledger_ok l s prior (li_compact io) io Ho Hd) as (_ & [->| ->] & _).
    + right. rewrite Hfile. split; [by left|done].
    + by apply wal_prior.
Qed.

Lemma decode_prior : decode sha256 (encode_all prior) = Some (Clean prior).
Proof. by apply decode_clean. Qed.
Lemma decode_recorded : decode sha256 (encode_all (prior ++ [record])) = Some (Clean (prior ++ [record])).
Proof. apply decode_clean, Forall_app. by split; [|apply Forall_singleton]. Qed.

(** A replay of the journal, whatever the file system and the registry answer. *)
Lemma replay_pending_wal l w io l' w' : ledger_ok l → wal_state (lg_disk l) w →
  replay_pending sha256 l w io = Some (l', w') → wal_state (lg_disk l') w'.
Proof.
  intros Hl Hw. unfold replay_pending. unfold ledger_ok in Hl.
  destruct (lg_store l) as [s|] eqn:Hls; [|by intros [= <- <-]]. destruct Hl as [Ho Hd].
  destruct (store_recover sha256 s (li_seek io) (li_read io)) as [[r|e]|] eqn:Er; [|by intros [= <- <-]|done].
  simpl. destruct Hw as [[Hr Hdisk]|[Hs Hdisk]].
  - (* the record is not complete: whatever is read, nothing is replayed *)
    assert (∃ k, k < length (encode record) ∧ ws_file s = encode_all prior ++ take k (encode record) ∨
            ws_file s = []) as (k & Hk).
    { destruct Hdisk as [Hnil|(k & Hk & Hf)]; [exists 0; right; congruence|exists k; left]. split; [done|congruence]. }
    assert (∃ o, decode sha256 (ws_file s) = Some o ∧ no_step_last (outcome_records o) ∧
              (encode_all (outcome_records o) = encode_all prior ∨ ws_file s = [])) as (o & Hdec & Hno & Hof).
    { destruct Hk as [[Hk ->]| ->].
      - destruct (decode_torn_write sha256 prior record k Hprior Hrecord Hk) as [Ht1 Ht2].
        eexists. split; [exact Ht1|]. rewrite Ht2. auto.
      - exists (Clean []). split; [apply (decode_clean sha256 []); constructor|]. by split; [|right]. }
    eapply store_recover_file in Er as ->; [|done|exact Hdec].
    assert (wal_state (lg_disk l) w) as Hsame by (left; by split).
    destruct o as [rs|rs|rs off]; simpl in Hno, Hof.
    + rewrite replay_records_stops by done. by intros [= <- <-].
    + destruct (compact_ledger_ok l s rs (li_repair io) io Ho Hd) as (_ & Hcd & _).
      assert (wal_state (lg_disk (fst (compact_ledger l s rs (li_repair io) io))) w) as Hcw.
      { destruct Hcd as [->| ->]; [done|]. destruct Hof as [->|Hempty]; [by apply wal_prior|].
        rewrite Hempty in Hdec. pose proof (decode_clean sha256 [] ltac:(constructor)) as Hcl.
        change (encode_all []) with (@nil byte) in Hcl. congruence. }
      destruct (compact_ledger l s rs (li_repair io) io) as [lc [|]]; [|by intros [= <- <-]].
      destruct (lg_store lc) as [sc|]; [|done]. simpl.
      rewrite replay_records_stops by done. by intros [= <- <-].
    + intros [= <- <-]. destruct (quarantine_ok l io) as (_ & _ & [->| ->]); [done|]. left. by split; [|left].
  - rewrite Hd in Hdisk. pose proof decode_recorded as Hdec. rewrite <-Hdisk in Hdec.
    eapply store_recover_file in Er as ->; [|done|exact Hdec].
    intros [= Heq]. pose proof (replay_records_wal l s w io Hls Ho Hd) as Hw.
    rewrite Heq in Hw. apply Hw; [by rewrite Hd|done].
Qed.

(** The time after the connection: the process starts again and replays its journal, as
    often as it likes, with whatever answers; in between nothing writes the five values. *)
Inductive ledger_run : list byte → W → list byte → W → Prop :=
  | lr_end disk w : ledger_run disk w disk w
  | lr_other disk w w' disk2 w2 : (∀ u, value_at w' sid u = value_at w sid u) →
      ledger_run disk w' disk2 w2 → ledger_run disk w disk2 w2
  | lr_restart disk w io l w' disk2 w2 : open_and_replay sha256 disk w io = Some (l, w') →
      ledger_run (lg_disk l) w' disk2 w2 → ledger_run disk w disk2 w2.

Lemma ledger_run_wal disk w disk2 w2 : ledger_run disk w disk2 w2 → wal_state disk w → wal_state disk2 w2.
Proof.
  induction 1 as [|disk w w' disk2 w2 Hsame _ IH|disk w io l w' disk2 w2 Ho _ IH]; intros Hw; [done|..].
  - apply IH. destruct Hw as [[Hr Hd]|[Hs Hd]]; [left|right]; (split; [|done]).
    + intros u. rewrite Hsame. apply Hr.
    + destruct Hs as [Hs|Hs]; [left|right]; intros u; rewrite Hsame; apply Hs.
  - apply IH. unfold open_and_replay in Ho.
    destruct (reopen_ok (MkLedger None disk []) io) as (H1 & H2 & _).
    eapply replay_pending_wal; [| |exact Ho]; [done|]. unfold ledger_open. by rewrite H2.
Qed.

(** A restart with a file system that works. *)
Definition compact_ok : CompactIo := MkCompactIo None None None None (Ok ()) None None.
Definition io_ok : LedgerIo :=
  MkLedgerIo (Ok ()) None None None None compact_ok compact_ok None (MkAppendIo None None None).

Lemma restart_restores disk w : wal_state disk w →
  snd (replay_system_proxy_step w sid step) ≠ SPR_HardFailure →
  ∃ l' w', open_and_replay sha256 disk w io_ok = Some (l', w') ∧ reads w' sid pre ∧
    (lg_disk l' = encode_all prior ∨ lg_disk l' = []).
Proof.
  intros Hw Hhard. unfold open_and_replay, ledger_open, reopen, store_open, replay_pending.
  cbn [io_ok li_secured li_open li_metadata li_seek li_read fst lg_store lg_disk mbind result_bind].
  unfold store_recover. cbn [ws_open ws_file negb].
  destruct Hw as [[Hr [->|(k & Hk & ->)]]|[Hs ->]].
  - rewrite (decode_clean sha256 [] ltac:(constructor) : decode sha256 [] = _). simpl. eauto 10.
  - destruct (decode_torn_write sha256 prior record k Hprior Hrecord Hk) as [-> _]. simpl.
    unfold torn_outcome. destruct (Nat.eqb_spec k 0) as [->|Hk0]; [|destruct (k <? 45); [|destruct (k <? 45 + _)]];
      cbn [mbind option_bind].
    + rewrite replay_records_stops by done. eexists _, _. split; [done|]. simpl. rewrite app_nil_r. eauto.
    + simpl. rewrite replay_records_stops by done. eexists _, _. split; [done|]. simpl. eauto.
    + eexists _, _. split; [done|]. simpl. eauto.
    + simpl. rewrite replay_records_stops by done. eexists _, _. split; [done|]. simpl. eauto.
  - rewrite decode_recorded. cbn [mbind option_bind]. unfold replay_records.
    destruct (replay_one w Hs) as [_ [[_ Hh]|[Hk Hr]]]; [done|].
    destruct (replay_suffix w _ _) as [w' keep]. simpl in Hk, Hr. subst keep.
    destruct (Nat.leb_spec (length (prior ++ [record])) (length prior)) as [Hlen|_].
    { rewrite length_app in Hlen. simpl in Hlen. lia. }
    rewrite take_app_length. eexists _, _. split; [done|]. simpl. eauto.
Qed.
End wal.

Section connection.
Variable sha256 : list byte → array 32.
Context {W : Type} `{RegistryLaws W}.
Implicit Types (w : W).

Lemma desired_entries_ok routes : Forall entry_ok routes → Forall entry_ok (desired_entries routes).
Proof.
  assert (∀ s, is_ascii s = true → forallb (λ c, negb (c =? 0)%N) s = true → entry_ok s) as Hascii.
  { intros s Ha Hz. split; [by apply ascii_str_ok|]. intros Hin. rewrite forallb_forall in Hz.
    apply list_elem_of_In, Hz in Hin. done. }
  assert (∀ n, forallb (λ c, negb (c =? 0)%N) (to_dec n) = true) as Hdec.
  { intros n. rewrite forallb_forall. intros c Hc%list_elem_of_In.
    pose proof (proj1 (Forall_forall _ _) (to_dec_digits n) c Hc) as Hd. simpl in Hd.
    apply in_range_spec in Hd. destruct (N.eqb_spec c 0); [lia|done]. }
  assert (∀ n, forallb (λ c, (c <? 128)%N) (to_dec n) = true) as Hdec' by apply to_dec_ascii.
  intros Hr. unfold desired_entries. apply Forall_forall. intros e He.
  apply list_elem_of_omap in He as (r & Hin & He). apply fmap_Some in He as (x & Hx & ->).
  unfold cidr_to_wildcard_opt in Hx. repeat (apply bind_Some in Hx as (? & _ & Hx) || case_match; simplify_eq/=);
    try (eapply (proj1 (Forall_forall _ _) Hr); eassumption);
    apply Hascii; unfold is_ascii; repeat (rewrite ?forallb_app, ?Hdec, ?Hdec'; simpl); done.
Qed.

(** A journal of whole records that ends with no step, in a ledger that can be used. *)
Definition quiet (l : Ledger) (prior : list JournalRecord) : Prop :=
  ledger_ok l ∧ lg_disk l = encode_all prior ∧ Forall (record_ok sha256) prior ∧ no_step_last prior.
(** The record of a plan fits into the journal. *)
Definition plan_fits (plan : SystemProxyApplyPlan) : Prop :=
  step_ok (pl_step plan) ∧ (N.of_nat (length (to_payload (pl_step plan))) ≤ MAX_PAYLOAD_LEN)%N.
(** The record appended for a plan. *)
Definition plan_record (prior : list JournalRecord) (plan : SystemProxyApplyPlan) : JournalRecord :=
  JournalRecord_new sha256 (fst (chain_head prior)) (snd (chain_head prior)) (to_payload (pl_step plan)).

Lemma plan_record_ok prior plan : plan_fits plan →
  record_ok sha256 (plan_record prior plan) ∧ from_payload (jr_payload (plan_record prior plan)) = Ok (pl_step plan).
Proof.
  intros [Hs Hl]. split; [split_and!; [|done|done]|by apply from_payload_Ok].
  simpl. unfold chain_head. destruct (last prior); [apply wrap64_lt|done].
Qed.

Lemma quiet_replay l prior w io l' w' : quiet l prior →
  replay_pending sha256 l w io = Some (l', w') → l' = l ∧ w' = w.
Proof.
  intros (Hl & Hd & Hok & Hn). unfold replay_pending, ledger_ok in *.
  destruct (lg_store l) as [s|] eqn:Hls; [|by intros [= <- <-]]. destruct Hl as [Ho Hf].
  destruct (store_recover sha256 s (li_seek io) (li_read io)) as [[r|e]|] eqn:Er; [|by intros [= <- <-]|done].
  eapply store_recover_file in Er as ->; [|done|by rewrite <-Hf, Hd; apply decode_clean]. simpl.
  rewrite replay_records_stops by done. by intros [= <- <-].
Qed.

(** An append to a quiet ledger adds the record, or a part of it and says so. *)
Lemma quiet_append l prior plan io l' ok : quiet l prior → plan_fits plan →
  append_step sha256 l (pl_step plan) io = Some (l', ok) →
  lg_disk l' = encode_all (prior ++ [plan_record prior plan]) ∨
  (ok = false ∧ ∃ k, k < length (encode (plan_record prior plan)) ∧
     lg_disk l' = encode_all prior ++ take k (encode (plan_record prior plan))).
Proof.
  intros (Hl & Hd & Hok & Hn) Hfit. unfold append_step, ledger_ok in *.
  set (r := plan_record prior plan).
  assert (0 < length (encode r)) as Hpos by (rewrite length_encode; lia).
  assert (lg_disk l = encode_all prior ++ take 0 (encode r)) as Hd0 by (simpl; by rewrite app_nil_r).
  destruct (lg_store l) as [s|] eqn:Hls; [|intros [= <- <-]; right; eauto]. destruct Hl as [Ho Hf].
  destruct (store_recover sha256 s (li_seek io) (li_read io)) as [[o|e]|] eqn:Er;
    [|intros [= <- <-]; right; eauto|done].
  eapply store_recover_file in Er as ->; [|done|by rewrite <-Hf, Hd; apply decode_clean]. simpl.
  unfold append_at, append_synced. rewrite Hls. simpl. rewrite Ho. fold (plan_record prior plan) r. simpl.
  assert (ws_file s ++ encode r = encode_all (prior ++ [r])) as Hfull.
  { rewrite <-Hf, Hd. unfold encode_all. rewrite bind_app. simpl. by rewrite app_nil_r. }
  destruct (ap_write (li_append io)) as [[k e]|].
  - simpl. intros [= <- <-]. simpl. destruct (decide (k < length (encode r))).
    + right. split; [done|]. exists k. by rewrite <-Hf, Hd.
    + left. by rewrite take_ge by lia.
  - destruct (ap_flush (li_append io)), (ap_metadata (li_append io)); simpl; intros [= <- <-]; by left.
Qed.

(** After a connection that plans a change, whatever failed in it. *)
Lemma apply_wal env l prior w sid routes io plan l' w' st : quiet l prior → Forall entry_ok routes →
  plan_system_proxy_apply env w sid (desired_entries routes) = Ok plan → pl_registry_effect plan = true →
  plan_fits plan → apply_proxy_family sha256 env l w (Some sid) routes io = Some (l', w', st) →
  ∃ pre v t, reads w sid pre ∧ records (pl_step plan) pre v t ∧ st_originating_sid (pl_step plan) = sid ∧
    wal_state prior (plan_record prior plan) sid pre v t (lg_disk l') w'.
Proof.
  intros Hq Hr Hp He Hfit. unfold apply_proxy_family.
  destruct (replay_pending sha256 l w (ai_replay io)) as [[l1 w1]|] eqn:Erp; [|done].
  destruct (quiet_replay _ _ _ _ _ _ Hq Erp) as [-> ->]. simpl.
  destruct (record_count sha256 l (ai_count io)) as [n|]; [|done]. simpl. rewrite Hp, He. simpl.
  destruct (append_step sha256 l (pl_step plan) (ai_append io)) as [[l2 ok]|] eqn:Ea; [|done]. simpl.
  destruct (committed env w sid (desired_entries routes) plan (desired_entries_ok _ Hr) Hp He)
    as (pre & v & t & Hreads & Hrec & (_ & Hsid & _) & Hset).
  pose proof (quiet_append _ _ _ _ _ _ Hq Hfit Ea) as Hdisk.
  unfold record_then_commit. intros Hout. exists pre, v, t. split_and!; [done..|].
  destruct Hdisk as [Hdisk|[-> (k & Hk & Hdisk)]].
  - right. destruct ok; simpl in Hout.
    + destruct (commit_system_proxy_apply w sid plan) as [w2 [|]]; injection Hout as <- <- <-; done.
    + injection Hout as <- <- <-. split; [by left|done].
  - simpl in Hout. injection Hout as <- <- <-. left. split; [done|]. right. eauto.
Qed.

(** C20: Onto a journal without a torn tail, the record of a change of the proxy settings is
    on disk before the change is made: after a connection in which anything may have failed,
    and any number of restarts in which anything may fail too, the five values read as before
    the connection, or the journal ends with the record of the change, which holds those
    values. The journal consists of whole records, of which the last is no change that is
    still to be undone, and the ledger, while it has a store, has that file; the plan changes something, and
    its record can be written and fits; and nobody else writes the five values. Behind a torn
    tail that could not be repaired it fails: the append reports success and the record
    cannot be read ([append_behind_torn_tail]). *)
Theorem proxy_change_recorded env l prior w sid routes io plan l' w' st disk2 w2 :
  quiet l prior → Forall entry_ok routes →
  plan_system_proxy_apply env w sid (desired_entries routes) = Ok plan → pl_registry_effect plan = true →
  plan_fits plan → apply_proxy_family sha256 env l w (Some sid) routes io = Some (l', w', st) →
  ledger_run sha256 sid (lg_disk l') w' disk2 w2 →
  (∀ u, raw_of (value_at w2 sid u) = raw_of (value_at w sid u)) ∨
  decode sha256 disk2 = Some (Clean (prior ++ [plan_record prior plan])) ∧
  from_payload (jr_payload (plan_record prior plan)) = Ok (pl_step plan) ∧
  ∀ u, raw_of (value_at w sid u) = Some (field (st_prestate (pl_step plan)) u).
Proof.
  intros Hq Hr Hp He Hfit Ha Hrun.
  destruct (apply_wal _ _ _ _ _ _ _ _ _ _ _ Hq Hr Hp He Hfit Ha) as (pre & v & t & Hreads & Hrec & Hsid & Hw).
  destruct (plan_record_ok prior plan Hfit) as [Hok Hfrom]. pose proof Hq as (_ & _ & Hprior & Hn).
  eapply ledger_run_wal in Hw; [|done..].
  destruct Hw as [[Hr2 _]|[_ ->]]; [left|right].
  - intros u. rewrite (Hr2 u). symmetry. apply Hreads.
  - split_and!; [by apply decode_recorded|done|]. destruct Hrec as (-> & _). apply Hreads.
Qed.

(** C21: A restart repairs what a connection left behind, if the connection's journal had no
    torn tail: after the same history, under the same conditions on the journal and the plan,
    a start with a working file system whose replay is not refused by the registry leaves the
    five values as before the connection, and the journal without the record. What a
    connection appended behind a torn tail that could not be repaired is put aside unread
    instead, and nothing is restored ([append_behind_torn_tail]). *)
Theorem proxy_restart_restores env l prior w sid routes io plan l' w' st disk2 w2 :
  quiet l prior → Forall entry_ok routes →
  plan_system_proxy_apply env w sid (desired_entries routes) = Ok plan → pl_registry_effect plan = true →
  plan_fits plan → apply_proxy_family sha256 env l w (Some sid) routes io = Some (l', w', st) →
  ledger_run sha256 sid (lg_disk l') w' disk2 w2 →
  snd (replay_system_proxy_step w2 sid (pl_step plan)) ≠ SPR_HardFailure →
  ∃ l3 w3, open_and_replay sha256 disk2 w2 io_ok = Some (l3, w3) ∧
    (∀ u, raw_of (value_at w3 sid u) = raw_of (value_at w sid u)) ∧
    (lg_disk l3 = encode_all prior ∨ lg_disk l3 = []).
Proof.
  intros Hq Hr Hp He Hfit Ha Hrun Hhard.
  destruct (apply_wal _ _ _ _ _ _ _ _ _ _ _ Hq Hr Hp He Hfit Ha) as (pre & v & t & Hreads & Hrec & Hsid & Hw).
  destruct (plan_record_ok prior plan Hfit) as [Hok Hfrom]. pose proof Hq as (_ & _ & Hprior & Hn).
  eapply ledger_run_wal in Hw; [|done..].
  eapply restart_restores in Hw as (l3 & w3 & H1 & H2 & H3); [|done..].
  exists l3, w3. split_and!; [done| |done]. intros u. rewrite (H2 u). symmetry. apply Hreads.
Qed.
End connection.

(** ** Witnesses and deviations *)

Definition sample_routes : list str := [lit "10.1.0.0/16"].
Definition sample_ledger : Ledger := ledger_open [] io_ok.
Definition sample_plan : SystemProxyApplyPlan :=
  match plan_system_proxy_apply sample_env sample_registry sample_sid (desired_entries sample_routes) with
  | Ok plan => plan
  | Err _ => zero_effect_plan sample_sid [] (MkRaw RV_Absent RV_Absent RV_Absent RV_Absent RV_Absent) false
  end.
Definition sample_io : ApplyIo := MkApplyIo io_ok io_ok io_ok.

Lemma sample_quiet : quiet toy_sha256 sample_ledger [].
Proof. split_and!; [by split|done|constructor|done]. Qed.
Lemma sample_routes_ok : Forall entry_ok sample_routes.
Proof. repeat constructor. apply (bool_decide_unpack _). vm_compute. exact I. Qed.
Lemma sample_planned :
  plan_system_proxy_apply sample_env sample_registry sample_sid (desired_entries sample_routes) = Ok sample_plan.
Proof. vm_compute. reflexivity. Qed.
Lemma sample_plan_fits : plan_fits sample_plan.
Proof.
  split; [|vm_compute; discriminate].
  assert (from_payload (to_payload (pl_step sample_plan)) = Ok (pl_step sample_plan)) as H
    by (vm_compute; reflexivity).
  by apply from_payload_Ok in H as [? _].
Qed.

(** The state after a connection of the sample. *)
Definition sample_applied : Ledger * SimRegistry * option SystemProxyApplied :=
  default (sample_ledger, sample_registry, None)
    (apply_proxy_family toy_sha256 sample_env sample_ledger sample_registry (Some sample_sid) sample_routes sample_io).
Lemma sample_applies :
  apply_proxy_family toy_sha256 sample_env sample_ledger sample_registry (Some sample_sid) sample_routes sample_io =
  Some (sample_applied.1.1, sample_applied.1.2, sample_applied.2).
Proof.
  unfold sample_applied. destruct (apply_proxy_family _ _ _ _ _ _ _) as [[[l w] st]|] eqn:E; [done|].
  assert (is_Some (apply_proxy_family toy_sha256 sample_env sample_ledger sample_registry (Some sample_sid)
    sample_routes sample_io)) as [out Hout] by (apply (bool_decide_unpack _); vm_compute; exact I).
  congruence.
Qed.

Lemma proxy_change_recorded_witness :
  value_at sample_applied.1.2 sample_sid VN_ProxyOverride = raw_bytes (RV_Sz (lit "10.1.*")) ∧
  ((∀ u, raw_of (value_at sample_applied.1.2 sample_sid u) = raw_of (value_at sample_registry sample_sid u)) ∨
   decode toy_sha256 (lg_disk sample_applied.1.1) = Some (Clean ([] ++ [plan_record toy_sha256 [] sample_plan])) ∧
   from_payload (jr_payload (plan_record toy_sha256 [] sample_plan)) = Ok (pl_step sample_plan) ∧
   ∀ u, raw_of (value_at sample_registry sample_sid u) = Some (field (st_prestate (pl_step sample_plan)) u)).
Proof.
  split; [vm_compute; reflexivity|].
  exact (proxy_change_recorded toy_sha256 sample_env sample_ledger [] sample_registry sample_sid sample_routes sample_io
    sample_plan _ _ _ _ _ sample_quiet sample_routes_ok sample_planned eq_refl sample_plan_fits sample_applies
    (lr_end _ _ _ _)).
Defined.

Lemma proxy_restart_restores_witness :
  ∃ l3 w3, open_and_replay toy_sha256 (lg_disk sample_applied.1.1) sample_applied.1.2 io_ok = Some (l3, w3) ∧
    (∀ u, raw_of (value_at w3 sample_sid u) = raw_of (value_at sample_registry sample_sid u)) ∧
    (lg_disk l3 = encode_all [] ∨ lg_disk l3 = []).
Proof.
  apply (proxy_restart_restores toy_sha256 sample_env sample_ledger [] sample_registry sample_sid sample_routes sample_io
    sample_plan _ _ _ _ _ sample_quiet sample_routes_ok sample_planned eq_refl sample_plan_fits sample_applies
    (lr_end _ _ _ _)).
  vm_compute. discriminate.
Defined.

Lemma proxy_ledger_total_witness :
  ∃ l' w' st, apply_proxy_family toy_sha256 sample_env sample_ledger sample_registry (Some sample_sid) sample_routes
    sample_io = Some (l', w', st) ∧ ledger_ok l'.
Proof.
  apply (proxy_ledger_total toy_sha256 sample_env sample_ledger sample_registry (Some sample_sid) sample_routes sample_io
    None io_ok).
  by split.
Defined.

(** When a torn tail could not be repaired, the next record goes behind the torn bytes: the
    append reports success and the change is made, but the journal cannot be read up to
    the record, and a restart puts it aside without restoring anything. *)
Example append_behind_torn_tail :
  let torn := take 20 (encode (JournalRecord_new toy_sha256 0 (array_fill 32 x00) [x01])) in
  let broken := MkCompactIo (Some None) None None None (Ok ()) None None in
  let no_repair := MkLedgerIo (Ok ()) None None None None broken compact_ok None (MkAppendIo None None None) in
  match apply_proxy_family toy_sha256 sample_env (ledger_open torn io_ok) sample_registry (Some sample_sid)
          sample_routes (MkApplyIo no_repair io_ok io_ok) with
  | Some (l, w, Some _) =>
      match open_and_replay toy_sha256 (lg_disk l) w io_ok with
      | Some (l', w') =>
          lg_disk l' = [] ∧
          value_at w' sample_sid VN_ProxyOverride ≠ value_at sample_registry sample_sid VN_ProxyOverride
      | None => False
      end
  | _ => False
  end.
Proof. vm_compute. split; [reflexivity|discriminate]. Qed.

(** A count that could not be read is taken for an empty journal: the disconnection then
    clears the records of the other tracks too. *)
Example unread_count_clears_all :
  let other := JournalRecord_new toy_sha256 0 (array_fill 32 x00) [x7b] in
  let unreadable := MkLedgerIo (Ok ()) None None None (Some None) compact_ok compact_ok None (MkAppendIo None None None) in
  match apply_proxy_family toy_sha256 sample_env (ledger_open (encode other) io_ok) sample_registry (Some sample_sid)
          sample_routes (MkApplyIo io_ok unreadable io_ok) with
  | Some (l, w, st) =>
      match clear_proxy_family toy_sha256 l w st io_ok with
      | Some (l', _, _, _) => lg_disk l' = []
      | None => False
      end
  | None => False
  end.
Proof. vm_compute. reflexivity. Qed.
