(* ===== verification/IpHelper.v ===== *)
(** * The network calls of Windows

    The IP Helper calls the Windows crates make: the route table, the unicast addresses,
    the rows of the interfaces and their DNS settings.

    [IpHelper] is a state and the answers of the calls, return codes included. [NetView]
    names what the state holds, and [IpHelperLaws] is what the documentation of the calls
    and the notes of the source promise about it: which entry a call reads or changes,
    that a call that fails changes nothing, and which codes mean that an entry is there
    or is not. A route whose next hop is an address of its own interface is kept with the
    next hop 0.0.0.0, and the system may keep another metric than the one asked for. An
    address that appears or goes may bring or take routes of its own, never the ones of
    a management program. *)

From Stdlib Require Import NArith ZArith Strings.Byte Lia.
From S2P Require Import Prelude Text Utf16 Registry.

(** ** Addresses *)

(** [u32::from] of an address, and back. *)
Definition to_u32 (a : Ipv4Addr) : N := be_val (octets a).
Definition of_octets (l : list byte) : Ipv4Addr :=
  match l with
  | [a; b; c; d] => MkIpv4Addr a b c d
  | _ => MkIpv4Addr x00 x00 x00 x00
  end.
Definition of_u32 (n : N) : Ipv4Addr := of_octets (be_bytes 4 n).
(** [Ipv4Addr::UNSPECIFIED] *)
Definition UNSPECIFIED : Ipv4Addr := MkIpv4Addr x00 x00 x00 x00.

Lemma of_to_u32 a : of_u32 (to_u32 a) = a.
Proof. unfold of_u32, to_u32. change 4 with (length (octets a)). rewrite be_bytes_be_val. by destruct a. Qed.
Lemma to_of_u32 n : (n < 2 ^ 32)%N → to_u32 (of_u32 n) = n.
Proof.
  intros Hn. unfold to_u32, of_u32. pose proof (length_be_bytes 4 n) as Hl.
  assert (Ho : octets (of_octets (be_bytes 4 n)) = be_bytes 4 n).
  { destruct (be_bytes 4 n) as [|a [|b [|c [|d [|? ?]]]]]; simplify_eq/=; done. }
  rewrite Ho. by apply be_val_be_bytes.
Qed.
Lemma to_u32_lt a : (to_u32 a < 2 ^ 32)%N.
Proof. unfold to_u32. pose proof (be_val_lt (octets a)) as H. simpl in H. exact H. Qed.
#[export] Instance Ipv4Addr_countable : Countable Ipv4Addr := inj_countable' to_u32 of_u32 of_to_u32.

(** The socket address: the family and the address word as the machine, which is little
    endian, reads it. *)
Record SockAddr := MkSockAddr { si_family : N; s_addr : N }.
#[export] Instance SockAddr_eq_dec : EqDecision SockAddr. Proof. solve_decision. Defined.
Definition AF_INET : N := 2.

(** win32-resource/routes.rs:635-644 [to_sockaddr] *)
Definition to_sockaddr (ip : Ipv4Addr) : SockAddr := MkSockAddr AF_INET (be_val (reverse (octets ip))).
(** win32-resource/routes.rs:697-708 [ipv4_of] *)
Definition ipv4_of (sa : SockAddr) : option Ipv4Addr :=
  if (si_family sa =? AF_INET)%N then Some (of_octets (le_bytes 4 (s_addr sa))) else None.

Lemma le_octets ip : of_octets (le_bytes 4 (be_val (reverse (octets ip)))) = ip.
Proof.
  unfold le_bytes. change 4 with (length (reverse (octets ip))). rewrite be_bytes_be_val, reverse_involutive.
  by destruct ip.
Qed.
Lemma ipv4_of_sockaddr ip : ipv4_of (to_sockaddr ip) = Some ip.
Proof. unfold ipv4_of. cbn [to_sockaddr si_family s_addr AF_INET N.eqb]. by rewrite le_octets. Qed.

(** ** The rows *)

(** [MIB_IPFORWARD_ROW2], the fields the program writes or reads. *)
Record ApiRow := MkApiRow {
  ar_destination : SockAddr;
  ar_prefix_length : N;
  ar_next_hop : SockAddr;
  ar_luid : N;
  ar_metric : N;
  ar_protocol : Z;
  ar_site_prefix_length : N;
  ar_valid_lifetime : N;
  ar_preferred_lifetime : N;
  ar_origin : Z;
}.

(** [MIB_UNICASTIPADDRESS_ROW] *)
Record UnicastRow := MkUnicastRow {
  ur_address : SockAddr;
  ur_luid : N;
  ur_prefix_length : N;
  ur_skip_as_source : bool;
  ur_prefix_origin : Z;
  ur_suffix_origin : Z;
  ur_dad_state : Z;
  ur_valid_lifetime : N;
  ur_preferred_lifetime : N;
}.

(** win32-resource/mtu.rs:18-26 [MtuFamily] *)
Inductive MtuFamily := FamV4 | FamV6.
#[export] Instance MtuFamily_eq_dec : EqDecision MtuFamily. Proof. solve_decision. Defined.

(** [MIB_IPINTERFACE_ROW] *)
Record IfRow := MkIfRow { if_site_prefix_length : N; if_nl_mtu : N; if_dad_transmits : N }.

(** [DNS_INTERFACE_SETTINGS]; a text is the buffer its pointer points to, [None] for the
    null pointer. *)
Record DnsInterfaceSettings := MkDnsIf {
  ds_version : N;
  ds_flags : N;
  ds_name_server : option (list N);
  ds_search_list : option (list N);
}.

(** win32-resource/dns.rs:12-14 [DNS_FLAG_NAMESERVER] *)
Definition DNS_FLAG_NAMESERVER : N := 2.
(** win32-resource/dns.rs:15-16 [DNS_FLAG_SEARCH_LIST] *)
Definition DNS_FLAG_SEARCH_LIST : N := 4.

(** [str::split] at the characters of a set. *)
Fixpoint split_if_from (f : N → bool) (cur s : str) : list str :=
  match s with
  | [] => [reverse cur]
  | c :: s => if f c then reverse cur :: split_if_from f [] s else split_if_from f (c :: cur) s
  end.
Definition is_separator (c : N) : bool := (c =? 44)%N || is_whitespace c.

(** win32-resource/dns.rs:126-141 [pwstr_list] *)
Definition pwstr_list (p : option (list N)) : list str :=
  match p with
  | None => []
  | Some units =>
      match from_utf16 (until_nul units) with
      | None => []
      | Some text => filter (λ part, part ≠ []) (split_if_from is_separator [] text)
      end
  end.

(** ** The calls *)

(** What a state is asked and told: the code, 0 for success, and what the call fills in.
    A null table is [None]; a GUID is its number. *)
Class IpHelper (W : Type) := {
  create_forward : W → ApiRow → N * W;
  get_forward : W → ApiRow → N * ApiRow;
  delete_forward : W → ApiRow → N * W;
  forward_table : W → N * option (list ApiRow);
  best_route : W → SockAddr → SockAddr → N * (ApiRow * SockAddr);
  luid_to_index : W → N → N * N;
  luid_to_guid_call : W → N → N * N;
  unicast_table : W → N * option (list UnicastRow);
  create_unicast : W → UnicastRow → N * W;
  delete_unicast : W → UnicastRow → N * W;
  get_interface : W → MtuFamily → N → N * IfRow;
  set_interface : W → MtuFamily → N → IfRow → N * W;
  get_dns : W → N → N * (option (list N) * option (list N));
  set_dns_call : W → N → DnsInterfaceSettings → N * W;
  get_if_entry : W → N → N * N;
  set_if_entry : W → N → N → N * W;
}.

(** A route is identified by its destination, the length of the prefix, the next hop and
    the interface; an address by itself and the interface. *)
Abbreviation RouteId := (Ipv4Addr * N * Ipv4Addr * N)%type.
Abbreviation AddrId := (Ipv4Addr * N)%type.

Definition api_id (r : ApiRow) : option RouteId :=
  d ← ipv4_of (ar_destination r);
  h ← ipv4_of (ar_next_hop r);
  Some (d, ar_prefix_length r, h, ar_luid r).
Definition unicast_id (r : UnicastRow) : AddrId := (of_octets (le_bytes 4 (s_addr (ur_address r))), ur_luid r).

(** What the state holds: metric and protocol of a route, prefix and use of an address,
    the MTU of an interface, its DNS servers and suffixes. *)
Class NetView (W : Type) := {
  route_at : W → RouteId → option (N * Z);
  addr_at : W → AddrId → option (N * bool);
  mtu_at : W → N → MtuFamily → option N;
  dns_at : W → N → option (list str * list str);
}.

(** [MIB_IPPROTO_NETMGMT]: the routes of management programs. *)
Definition NETMGMT : Z := 3.

Section views.
Context {W : Type} `{NetView W}.

Definition managed (w : W) (i : RouteId) : option N :=
  match route_at w i with
  | Some (metric, protocol) => if (protocol =? NETMGMT)%Z then Some metric else None
  | None => None
  end.

(** The identity a new route gets. *)
Definition kept_id (w : W) (i : RouteId) : RouteId :=
  match i with (d, p, h, luid) => if decide (is_Some (addr_at w (h, luid))) then (d, p, UNSPECIFIED, luid) else i end.

Definition same_routes (w w' : W) : Prop := ∀ i, route_at w' i = route_at w i.
Definition same_managed (w w' : W) : Prop := ∀ i, managed w' i = managed w i.
Definition same_addrs (w w' : W) : Prop := ∀ i, addr_at w' i = addr_at w i.
Definition same_mtus (w w' : W) : Prop := ∀ l f, mtu_at w' l f = mtu_at w l f.
Definition same_dns (w w' : W) : Prop := ∀ g, dns_at w' g = dns_at w g.

#[export] Instance same_routes_equiv : Equivalence same_routes.
Proof. split; unfold same_routes; [done|intros ????; symmetry; done|intros ??? A B i; by rewrite B, A]. Qed.
#[export] Instance same_managed_equiv : Equivalence same_managed.
Proof. split; unfold same_managed; [done|intros ????; symmetry; done|intros ??? A B i; by rewrite B, A]. Qed.
#[export] Instance same_addrs_equiv : Equivalence same_addrs.
Proof. split; unfold same_addrs; [done|intros ????; symmetry; done|intros ??? A B i; by rewrite B, A]. Qed.
#[export] Instance same_mtus_equiv : Equivalence same_mtus.
Proof. split; unfold same_mtus; [done|intros ?????; symmetry; done|intros ??? A B l f; by rewrite B, A]. Qed.
#[export] Instance same_dns_equiv : Equivalence same_dns.
Proof. split; unfold same_dns; [done|intros ????; symmetry; done|intros ??? A B g; by rewrite B, A]. Qed.

Lemma same_routes_managed w w' : same_routes w w' → same_managed w w'.
Proof. intros Hs i. unfold managed. by rewrite Hs. Qed.
End views.

(** What the calls promise. *)
Class IpHelperLaws (W : Type) `{IpHelper W, NetView W} := {
  create_made w r i w' : create_forward w r = (0%N, w') → api_id r = Some i →
    route_at w (kept_id w i) = None ∧
    ∃ m, ∀ j, route_at w' j = if decide (j = kept_id w i) then Some (m, ar_protocol r) else route_at w j;
  create_refused w r : fst (create_forward w r) ≠ 0%N → same_routes w (snd (create_forward w r));
  create_exists w r i : fst (create_forward w r) = 5010%N → api_id r = Some i →
    is_Some (route_at w (kept_id w i));
  create_frame w r : let w' := snd (create_forward w r) in same_addrs w w' ∧ same_mtus w w' ∧ same_dns w w';
  get_found w r i r' : get_forward w r = (0%N, r') → api_id r = Some i → is_Some (route_at w i) →
    api_id r' = Some i;
  get_filled w r r' i : get_forward w r = (0%N, r') → api_id r' = Some i →
    route_at w i = Some (ar_metric r', ar_protocol r');
  get_missing w r i : fst (get_forward w r) = 1168%N → api_id r = Some i → route_at w i = None;
  get_valid w r : ar_luid r ≠ 0%N → fst (get_forward w r) ≠ 87%N;
  delete_made w r i w' : delete_forward w r = (0%N, w') → api_id r = Some i →
    ∀ j, route_at w' j = if decide (j = i) then None else route_at w j;
  delete_refused w r : fst (delete_forward w r) ≠ 0%N → same_routes w (snd (delete_forward w r));
  delete_missing w r i : fst (delete_forward w r) = 1168%N → api_id r = Some i → route_at w i = None;
  delete_valid w r : ar_luid r ≠ 0%N → fst (delete_forward w r) ≠ 87%N;
  delete_frame w r : let w' := snd (delete_forward w r) in same_addrs w w' ∧ same_mtus w w' ∧ same_dns w w';
  table_sound w t r i : forward_table w = (0%N, t) → r ∈ default [] t → api_id r = Some i →
    route_at w i = Some (ar_metric r, ar_protocol r);
  table_complete w t i m p : forward_table w = (0%N, t) → route_at w i = Some (m, p) →
    ∃ r, r ∈ default [] t ∧ api_id r = Some i ∧ ar_metric r = m ∧ ar_protocol r = p;
  table_valid w : fst (forward_table w) ≠ 87%N;
  unicast_sound w t r : unicast_table w = (0%N, Some t) → r ∈ t →
    addr_at w (unicast_id r) = Some (ur_prefix_length r, ur_skip_as_source r);
  unicast_complete w t i x : unicast_table w = (0%N, Some t) → addr_at w i = Some x →
    ∃ r, r ∈ t ∧ unicast_id r = i;
  create_unicast_made w r w' : create_unicast w r = (0%N, w') →
    addr_at w (unicast_id r) = None ∧
    ∀ j, addr_at w' j = if decide (j = unicast_id r) then Some (ur_prefix_length r, ur_skip_as_source r)
                        else addr_at w j;
  create_unicast_exists w r : fst (create_unicast w r) = 5010%N → is_Some (addr_at w (unicast_id r));
  create_unicast_refused w r : fst (create_unicast w r) ≠ 0%N → same_addrs w (snd (create_unicast w r));
  create_unicast_frame w r :
    let w' := snd (create_unicast w r) in same_managed w w' ∧ same_mtus w w' ∧ same_dns w w';
  delete_unicast_made w r w' : delete_unicast w r = (0%N, w') →
    ∀ j, addr_at w' j = if decide (j = unicast_id r) then None else addr_at w j;
  delete_unicast_refused w r : fst (delete_unicast w r) ≠ 0%N → same_addrs w (snd (delete_unicast w r));
  delete_unicast_frame w r :
    let w' := snd (delete_unicast w r) in same_managed w w' ∧ same_mtus w w' ∧ same_dns w w';
  interface_read w f l r : get_interface w f l = (0%N, r) → mtu_at w l f = Some (if_nl_mtu r) ∧ if_nl_mtu r ≠ 0%N;
  interface_set w f l r w' : set_interface w f l r = (0%N, w') →
    ∀ l' f', mtu_at w' l' f' = if decide (l' = l ∧ f' = f ∧ if_nl_mtu r ≠ 0%N) then Some (if_nl_mtu r)
                               else mtu_at w l' f';
  interface_refused w f l r : fst (set_interface w f l r) ≠ 0%N → same_mtus w (snd (set_interface w f l r));
  interface_frame w f l r :
    let w' := snd (set_interface w f l r) in same_managed w w' ∧ same_addrs w w' ∧ same_dns w w';
  dns_read w g ns sl : get_dns w g = (0%N, (ns, sl)) → dns_at w g = Some (pwstr_list ns, pwstr_list sl);
  dns_set w g s w' old : set_dns_call w g s = (0%N, w') → dns_at w g = Some old →
    dns_at w' g =
      Some (if N.testbit (ds_flags s) 1 then pwstr_list (ds_name_server s) else fst old,
            if N.testbit (ds_flags s) 2 then pwstr_list (ds_search_list s) else snd old);
  dns_set_elsewhere w g s g' : g' ≠ g → dns_at (snd (set_dns_call w g s)) g' = dns_at w g';
  dns_refused w g s : fst (set_dns_call w g s) ≠ 0%N → same_dns w (snd (set_dns_call w g s));
  dns_frame w g s :
    let w' := snd (set_dns_call w g s) in same_managed w w' ∧ same_addrs w w' ∧ same_mtus w w';
  if_entry_frame w i s :
    let w' := snd (set_if_entry w i s) in same_managed w w' ∧ same_addrs w w' ∧ same_mtus w w' ∧ same_dns w w';
}.

(** ** A network *)

(** The calls a network can refuse. *)
Inductive NetCall := CreateForward | GetForward | DeleteForward | ForwardTable | CreateUnicast | DeleteUnicast | SetInterface | SetDns.
#[export] Instance NetCall_eq_dec : EqDecision NetCall. Proof. solve_decision. Defined.

(** A network that keeps its entries in maps, adds [sn_metric] to the metric of a new
    route, and refuses the calls of [sn_denied]. *)
Record SimNet := MkSimNet {
  sn_routes : gmap RouteId (N * Z);
  sn_addrs : gmap AddrId (N * bool);
  sn_mtus : gmap (N * bool) N;
  sn_dns : gmap N (option (list N) * option (list N));
  sn_metric : N;
  sn_denied : list NetCall;
}.

Definition family_key (f : MtuFamily) : bool := match f with FamV4 => true | FamV6 => false end.
Definition sim_row (e : RouteId * (N * Z)) : ApiRow :=
  match e with ((d, p, h, luid), (m, proto)) =>
    MkApiRow (to_sockaddr d) p (to_sockaddr h) luid m proto 0 0xFFFFFFFF 0xFFFFFFFF 0 end.
Definition sim_unicast (e : AddrId * (N * bool)) : UnicastRow :=
  match e with ((a, luid), (p, skip)) => MkUnicastRow (to_sockaddr a) luid p skip 1 1 4 0xFFFFFFFF 0xFFFFFFFF end.
Definition refuses (w : SimNet) (c : NetCall) : bool := bool_decide (c ∈ sn_denied w).
Definition set_routes (w : SimNet) r := MkSimNet r (sn_addrs w) (sn_mtus w) (sn_dns w) (sn_metric w) (sn_denied w).
Definition set_addrs (w : SimNet) a := MkSimNet (sn_routes w) a (sn_mtus w) (sn_dns w) (sn_metric w) (sn_denied w).
Definition set_mtus (w : SimNet) m := MkSimNet (sn_routes w) (sn_addrs w) m (sn_dns w) (sn_metric w) (sn_denied w).
Definition set_dnss (w : SimNet) d := MkSimNet (sn_routes w) (sn_addrs w) (sn_mtus w) d (sn_metric w) (sn_denied w).

#[export] Instance sim_view : NetView SimNet := {
  route_at w i := sn_routes w !! i;
  addr_at w i := sn_addrs w !! i;
  mtu_at w l f := sn_mtus w !! (l, family_key f);
  dns_at w g := (λ e, (pwstr_list (fst e), pwstr_list (snd e))) <$> sn_dns w !! g;
}.

#[export] Instance sim_net : IpHelper SimNet := {
  create_forward w r :=
    if refuses w CreateForward then (5%N, w)
    else match api_id r with
    | None => (50%N, w)
    | Some i =>
        let i := kept_id w i in
        match sn_routes w !! i with
        | Some _ => (5010%N, w)
        | None => (0%N, set_routes w (<[i := ((ar_metric r + sn_metric w)%N, ar_protocol r)]> (sn_routes w)))
        end
    end;
  get_forward w r :=
    if refuses w GetForward then (5%N, r)
    else match api_id r with
    | None => (50%N, r)
    | Some i => match sn_routes w !! i with Some e => (0%N, sim_row (i, e)) | None => (1168%N, r) end
    end;
  delete_forward w r :=
    if refuses w DeleteForward then (5%N, w)
    else match api_id r with
    | None => (50%N, w)
    | Some i =>
        match sn_routes w !! i with
        | Some _ => (0%N, set_routes w (delete i (sn_routes w)))
        | None => (1168%N, w)
        end
    end;
  forward_table w :=
    if refuses w ForwardTable then (5%N, None) else (0%N, Some (sim_row <$> map_to_list (sn_routes w)));
  best_route w source destination := (1231%N, (sim_row ((UNSPECIFIED, 0%N, UNSPECIFIED, 0%N), (0%N, 0%Z)), source));
  luid_to_index w l := (0%N, l);
  luid_to_guid_call w l := (0%N, l);
  unicast_table w := (0%N, Some (sim_unicast <$> map_to_list (sn_addrs w)));
  create_unicast w r :=
    if refuses w CreateUnicast then (5%N, w)
    else match sn_addrs w !! unicast_id r with
    | Some _ => (5010%N, w)
    | None => (0%N, set_addrs w (<[unicast_id r := (ur_prefix_length r, ur_skip_as_source r)]> (sn_addrs w)))
    end;
  delete_unicast w r :=
    if refuses w DeleteUnicast then (5%N, w)
    else match sn_addrs w !! unicast_id r with
    | Some _ => (0%N, set_addrs w (delete (unicast_id r) (sn_addrs w)))
    | None => (1168%N, w)
    end;
  get_interface w f l :=
    match sn_mtus w !! (l, family_key f) with
    | Some m => if (m =? 0)%N then (1168%N, MkIfRow 0 0 0) else (0%N, MkIfRow 64 m 3)
    | None => (1168%N, MkIfRow 0 0 0)
    end;
  set_interface w f l r :=
    if refuses w SetInterface then (5%N, w)
    else if family_key f && negb (if_site_prefix_length r =? 0)%N then (87%N, w)
    else match sn_mtus w !! (l, family_key f) with
    | None => (1168%N, w)
    | Some _ =>
        (0%N, if (if_nl_mtu r =? 0)%N then w
              else set_mtus w (<[(l, family_key f) := if_nl_mtu r]> (sn_mtus w)))
    end;
  get_dns w g := match sn_dns w !! g with Some e => (0%N, e) | None => (1168%N, (None, None)) end;
  set_dns_call w g s :=
    if refuses w SetDns then (5%N, w)
    else match sn_dns w !! g with
    | None => (1168%N, w)
    | Some e =>
        (0%N, set_dnss w (<[g := (if N.testbit (ds_flags s) 1 then ds_name_server s else fst e,
                                  if N.testbit (ds_flags s) 2 then ds_search_list s else snd e)]> (sn_dns w)))
    end;
  get_if_entry w i := (0%N, 2%N);
  set_if_entry w i s := (0%N, w);
}.

Lemma sim_row_id e : api_id (sim_row e) = Some (fst e).
Proof. destruct e as [[[[d p] h] luid] [m proto]]. unfold api_id, sim_row. cbn [ar_destination ar_next_hop]. by rewrite !ipv4_of_sockaddr. Qed.
Lemma sim_unicast_id e : unicast_id (sim_unicast e) = fst e.
Proof. destruct e as [[a luid] [p skip]]. unfold unicast_id, sim_unicast. cbn [ur_address ur_luid to_sockaddr s_addr]. by rewrite le_octets. Qed.

#[export] Instance sim_net_laws : IpHelperLaws SimNet.
Proof.
  split; cbn -[api_id unicast_id kept_id sim_row pwstr_list N.testbit]; unfold same_routes, same_managed, same_addrs, same_mtus, same_dns, managed;
    cbn -[api_id unicast_id kept_id sim_row pwstr_list N.testbit].
  - intros w r i w' Hc Hi. rewrite Hi in Hc. destruct (refuses w CreateForward); [done|].
    destruct (sn_routes w !! kept_id w i) eqn:E; [done|]. simplify_eq. split; [done|]. eexists. intros j. simpl.
    case_decide; [subst; by simplify_map_eq|by rewrite lookup_insert_ne by done].
  - intros w r. repeat case_match; done.
  - intros w r i Hc Hi. rewrite Hi in Hc. destruct (refuses w CreateForward); [done|].
    destruct (sn_routes w !! kept_id w i); [eauto|done].
  - intros w r. repeat case_match; done.
  - intros w r i r' Hg Hi [e He]. rewrite Hi, He in Hg. destruct (refuses w GetForward); [done|].
    simplify_eq. by rewrite sim_row_id.
  - intros w r r' i Hg Hi'. destruct (refuses w GetForward), (api_id r) as [j|]; try done.
    destruct (sn_routes w !! _) as [[m proto]|] eqn:E; [|done]. simplify_eq. rewrite sim_row_id in Hi'. simplify_eq/=.
    rewrite E. by destruct i as [[[? ?] ?] ?].
  - intros w r i Hg Hi. rewrite Hi in Hg. destruct (refuses w GetForward); [done|].
    by destruct (sn_routes w !! i).
  - intros w r _. repeat case_match; done.
  - intros w r i w' Hd Hi. rewrite Hi in Hd. destruct (refuses w DeleteForward); [done|].
    destruct (sn_routes w !! i); [|done]. simplify_eq. intros j. simpl.
    case_decide; [subst; by simplify_map_eq|by rewrite lookup_delete_ne by done].
  - intros w r. repeat case_match; done.
  - intros w r i Hd Hi. rewrite Hi in Hd. destruct (refuses w DeleteForward); [done|].
    by destruct (sn_routes w !! i).
  - intros w r _. repeat case_match; done.
  - intros w r. repeat case_match; done.
  - intros w t r i Ht Hr Hi. destruct (refuses w ForwardTable); [done|]. simplify_eq/=.
    apply list_elem_of_fmap in Hr as [[j [m p]] [-> Hj]]. rewrite sim_row_id in Hi. simplify_eq/=.
    apply elem_of_map_to_list in Hj. rewrite Hj. by destruct i as [[[? ?] ?] ?].
  - intros w t i m p Ht Hi. destruct (refuses w ForwardTable); [done|]. simplify_eq/=.
    exists (sim_row (i, (m, p))). rewrite sim_row_id. split_and!; [|done|by destruct i as [[[? ?] ?] ?]..].
    apply list_elem_of_fmap. exists (i, (m, p)). split; [done|]. by apply elem_of_map_to_list.
  - intros w. by destruct (refuses w ForwardTable).
  - intros w t r Ht Hr. simplify_eq. apply list_elem_of_fmap in Hr as [[i [p s]] [-> Hi]].
    rewrite sim_unicast_id. apply elem_of_map_to_list in Hi. simpl. rewrite Hi. by destruct i.
  - intros w t i x Ht Hi. simplify_eq. exists (sim_unicast (i, x)). rewrite sim_unicast_id. split; [|done].
    apply list_elem_of_fmap. exists (i, x). split; [done|]. by apply elem_of_map_to_list.
  - intros w r w' Hc. destruct (refuses w CreateUnicast); [done|].
    destruct (sn_addrs w !! unicast_id r) eqn:E; [done|]. simplify_eq. split; [done|]. intros j. simpl.
    case_decide; [subst; by simplify_map_eq|by rewrite lookup_insert_ne by done].
  - intros w r Hc. destruct (refuses w CreateUnicast); [done|]. destruct (sn_addrs w !! _); [eauto|done].
  - intros w r. repeat case_match; done.
  - intros w r. repeat case_match; done.
  - intros w r w' Hd. destruct (refuses w DeleteUnicast); [done|].
    destruct (sn_addrs w !! unicast_id r); [|done]. simplify_eq. intros j. simpl.
    case_decide; [subst; by simplify_map_eq|by rewrite lookup_delete_ne by done].
  - intros w r. repeat case_match; done.
  - intros w r. repeat case_match; done.
  - intros w f l r Hg. destruct (sn_mtus w !! _) as [m|]; [|done]. destruct (N.eqb_spec m 0); [done|].
    by simplify_eq.
  - intros w f l r w' Hs l' f'. destruct (refuses w SetInterface); [done|]. destruct (family_key f && _); [done|].
    destruct (sn_mtus w !! _); [|done]. simplify_eq.
    destruct (N.eqb_spec (if_nl_mtu r) 0); case_decide as Hd; try naive_solver; simpl.
    + destruct Hd as (-> & -> & _). by simplify_map_eq.
    + apply lookup_insert_ne. intros [= ? Hk]. destruct f, f'; naive_solver.
  - intros w f l r. repeat case_match; done.
  - intros w f l r. repeat case_match; done.
  - intros w g ns sl Hg. destruct (sn_dns w !! g); [|done]. by simplify_eq.
  - intros w g s w' old Hs Ho. destruct (refuses w SetDns); [done|].
    destruct (sn_dns w !! g) as [[a b]|]; [|done]. simplify_eq/=. simplify_map_eq.
    by destruct (N.testbit _ 1), (N.testbit _ 2).
  - intros w g s g' Hg. destruct (refuses w SetDns); [done|]. destruct (sn_dns w !! g); [|done]. simpl.
    by rewrite lookup_insert_ne by done.
  - intros w g s. repeat case_match; done.
  - intros w g s. repeat case_match; done.
  - done.
Qed.
