(* ===== verification/Routes.v ===== *)
(** * The route table

    [routes.rs] of the Windows resource crate: the exact rows of the route table, how
    they are installed with the ownership that results, read back and removed, and the
    rows that keep the gateway outside of the tunnel. The table is the class [IpHelper];
    no other process changes it between the calls of one operation. *)

From Stdlib Require Import NArith ZArith Strings.Byte Lia.
From S2P Require Import Prelude Text NativeError Registry IpHelper.

(** ** Rows *)

(** win32-resource/routes.rs:15-16 [MAX_PREFIX_LEN] *)
Definition MAX_PREFIX_LEN : N := 32.
(** win32-resource/routes.rs:17-18 [ERROR_NOT_FOUND] *)
Definition ERROR_NOT_FOUND : N := 1168.
(** win32-resource/routes.rs:19-20 [ERROR_INVALID_PARAMETER] *)
Definition ERROR_INVALID_PARAMETER : N := 87.
(** win32-resource/routes.rs:21-22 [ERROR_OBJECT_ALREADY_EXISTS] *)
Definition ERROR_OBJECT_ALREADY_EXISTS : N := 5010.

(** win32-resource/routes.rs:24-42 [RouteRow] *)
Record RouteRow := MkRoute {
  rr_network : Ipv4Addr;
  rr_prefix_len : N;
  rr_next_hop : Ipv4Addr;
  rr_interface_luid : N;
  rr_metric : N;
  rr_protocol : N;
}.
#[export] Instance RouteRow_eq_dec : EqDecision RouteRow. Proof. solve_decision. Defined.

(** win32-resource/routes.rs:95-102 [RouteKey] *)
Record RouteKey := MkRouteKey { rk_network : Ipv4Addr; rk_prefix_len : N }.
#[export] Instance RouteKey_eq_dec : EqDecision RouteKey. Proof. solve_decision. Defined.

(** win32-resource/routes.rs:664-673 [masked_network] *)
Definition masked_network (network : Ipv4Addr) (prefix_len : N) : Ipv4Addr :=
  let max := (2 ^ 32 - 1)%N in
  let mask := if (prefix_len =? 0)%N then 0%N
              else if (prefix_len <=? 32)%N then (N.shiftl max (32 - prefix_len) mod 2 ^ 32)%N
              else max in
  of_u32 (N.land (to_u32 network) mask).

(** win32-resource/routes.rs:45-66 [RouteRow::new] *)
Definition RouteRow_new (network : Ipv4Addr) (prefix_len : N) (next_hop : Ipv4Addr) (interface_luid metric : N) : RouteRow :=
  MkRoute (masked_network network prefix_len) prefix_len next_hop interface_luid metric 3.
(** win32-resource/routes.rs:68-83 [RouteRow::dest_only] *)
Definition dest_only (network : Ipv4Addr) (prefix_len : N) : RouteRow :=
  MkRoute (masked_network network prefix_len) prefix_len UNSPECIFIED 0 0 0.
(** win32-resource/routes.rs:85-92 [RouteRow::dest_key] *)
Definition dest_key (row : RouteRow) : RouteKey := MkRouteKey (rr_network row) (rr_prefix_len row).

(** win32-resource/routes.rs:104-111 [RemoveOutcome] *)
Inductive RemoveOutcome := Removed | AlreadyAbsent.
(** win32-resource/routes.rs:113-134 [RouteInstallOutcome] *)
Inductive RouteInstallOutcome :=
  | Created (actual : RouteRow)
  | CreatedPending (submitted : RouteRow) (readback_error rollback_error : NativeError)
  | Borrowed (actual : RouteRow).
(** win32-resource/routes.rs:136-140 [CreateDisposition] *)
Inductive CreateDisposition := CD_Created | CD_Borrowed.
#[export] Instance CreateDisposition_eq_dec : EqDecision CreateDisposition. Proof. solve_decision. Defined.

(** [u32::try_from] of the protocol number, 0 when it is negative. *)
Definition protocol_u32 (p : Z) : N := Z.to_N p.

(** win32-resource/routes.rs:646-662 [from_api_row] *)
Definition from_api_row (api : ApiRow) : option RouteRow :=
  network ← ipv4_of (ar_destination api);
  next_hop ← ipv4_of (ar_next_hop api);
  Some (MkRoute network (ar_prefix_length api) next_hop (ar_luid api) (ar_metric api) (protocol_u32 (ar_protocol api))).
(** win32-resource/routes.rs:675-695 [to_api_row] *)
Definition to_api_row (row : RouteRow) : ApiRow :=
  MkApiRow (to_sockaddr (rr_network row)) (rr_prefix_len row) (to_sockaddr (rr_next_hop row))
    (rr_interface_luid row) (rr_metric row) NETMGMT 0 0xFFFFFFFF 0xFFFFFFFF 0.

(** win32-resource/routes.rs:343-348 [same_route_identity] *)
Definition same_route_identity (requested actual : RouteRow) : bool :=
  bool_decide (dest_key requested = dest_key actual)
  && bool_decide (rr_next_hop requested = rr_next_hop actual)
  && bool_decide (rr_interface_luid requested = rr_interface_luid actual).

(** win32-resource/routes.rs:306-315 [classify_create_result] *)
Definition classify_create_result (code : N) : result NativeError CreateDisposition :=
  if (code =? 0)%N then Ok CD_Created
  else if (code =? ERROR_OBJECT_ALREADY_EXISTS)%N then Ok CD_Borrowed
  else Err (NativeError_from_win32 code "CreateIpForwardEntry2 失败").

(** ** The operations *)

Section routes.
Context {W : Type} `{IpHelper W}.

(** win32-resource/routes.rs:142-177 [capture_rows] *)
Definition capture_rows (w : W) (interface_luid : N) : result NativeError (list RouteRow) :=
  let '(rc, table) := forward_table w in
  if negb (rc =? 0)%N then Err (NativeError_from_win32 rc "GetIpForwardTable2 失败")
  else match table with
  | None => Ok []
  | Some rows => Ok (omap (λ r, if (ar_luid r =? interface_luid)%N then from_api_row r else None) rows)
  end.

(** win32-resource/routes.rs:179-206 [install] *)
Definition install (w : W) (row : RouteRow) : W * result NativeError () :=
  if (MAX_PREFIX_LEN <? rr_prefix_len row)%N then
    (w, Err (NativeError_from_win32 ERROR_INVALID_PARAMETER "install: 非法前缀（IPv4 前缀上限 32）"))
  else
    let '(rc, w) := create_forward w (to_api_row row) in
    if negb (rc =? 0)%N then (w, Err (NativeError_from_win32 rc "CreateIpForwardEntry2 失败（重复精确行 -> 5010）"))
    else (w, Ok ()).

(** win32-resource/routes.rs:317-341 [read_back_effective_row] *)
Definition read_back_effective_row (w : W) (requested : RouteRow) : result NativeError RouteRow :=
  let '(code, api_row) := get_forward w (to_api_row requested) in
  if negb (code =? 0)%N then
    Err (NativeError_from_win32 code "install_with_outcome: GetIpForwardEntry2 回读失败")
  else
    actual ← ok_or (from_api_row api_row)
      (NativeError_from_win32 ERROR_INVALID_PARAMETER "install_with_outcome: 回读行不是 IPv4 路由");
    if negb (same_route_identity requested actual) then
      Err (NativeError_from_win32 ERROR_INVALID_PARAMETER "install_with_outcome: 回读行身份与请求不一致")
    else Ok actual.

(** The row of a table that a submitted row became. *)
Definition find_created (submitted : RouteRow) (rows : list RouteRow) : option RouteRow :=
  List.find (λ actual, same_route_identity submitted actual
                       && bool_decide (rr_protocol submitted = rr_protocol actual)) rows.

(** win32-resource/routes.rs:237-272 [install_with_outcome]: the row was created but could not
    be read back. *)
Definition unread_created (w : W) (row : RouteRow) (readback_error : NativeError) :
    W * result NativeError RouteInstallOutcome :=
  let '(rollback_code, w) := delete_forward w (to_api_row row) in
  if (rollback_code =? 0)%N || (rollback_code =? ERROR_NOT_FOUND)%N then (w, Err readback_error)
  else match capture_rows w (rr_interface_luid row) with
  | Ok rows =>
      match find_created row rows with
      | Some actual => (w, Ok (Created actual))
      | None => (w, Err readback_error)
      end
  | Err _ =>
      (w, Ok (CreatedPending row readback_error
                (NativeError_from_win32 rollback_code "install_with_outcome: created 行即时回滚失败")))
  end.

(** win32-resource/routes.rs:208-282 [install_with_outcome] *)
Definition install_with_outcome (w : W) (row : RouteRow) : W * result NativeError RouteInstallOutcome :=
  if (MAX_PREFIX_LEN <? rr_prefix_len row)%N then
    (w, Err (NativeError_from_win32 ERROR_INVALID_PARAMETER "install_with_outcome: 非法前缀（IPv4 前缀上限 32）"))
  else
    let '(create_code, w) := create_forward w (to_api_row row) in
    match classify_create_result create_code with
    | Err e => (w, Err e)
    | Ok disposition =>
        match read_back_effective_row w row with
        | Ok actual =>
            (w, Ok match disposition with CD_Created => Created actual | CD_Borrowed => Borrowed actual end)
        | Err e =>
            match disposition with
            | CD_Created => unread_created w row e
            | CD_Borrowed => (w, Err e)
            end
        end
    end.

(** win32-resource/routes.rs:350-396 [remove] *)
Definition remove (w : W) (row : RouteRow) : W * result NativeError RemoveOutcome :=
  if bool_decide (rr_next_hop row = UNSPECIFIED) && (rr_interface_luid row =? 0)%N then
    (w, Err (NativeError_from_win32 ERROR_INVALID_PARAMETER
               "remove: dest-only key 不是合法删除输入（facts §3：按 CIDR 删除是 mutant）"))
  else
    let '(rc_get, api_row) := get_forward w (to_api_row row) in
    if (rc_get =? ERROR_NOT_FOUND)%N then (w, Ok AlreadyAbsent)
    else if negb (rc_get =? 0)%N then (w, Err (NativeError_from_win32 rc_get "GetIpForwardEntry2 失败"))
    else match from_api_row api_row with
    | None => (w, Err (NativeError_from_win32 ERROR_NOT_FOUND "remove: 填满的行不是 IPv4 行，拒绝删除"))
    | Some filled =>
        if negb (bool_decide (filled = row)) then
          (w, Err (NativeError_from_win32 ERROR_INVALID_PARAMETER
                     "remove: GetIpForwardEntry2 填满的行与请求行不一致，拒绝删除"))
        else
          let '(rc_del, w) := delete_forward w api_row in
          if negb (rc_del =? 0)%N then (w, Err (NativeError_from_win32 rc_del "DeleteIpForwardEntry2 失败"))
          else (w, Ok Removed)
    end.

(** win32-resource/routes.rs:284-304 [remove_created_pending] *)
Definition remove_created_pending (w : W) (submitted : RouteRow) : W * result NativeError RemoveOutcome :=
  match capture_rows w (rr_interface_luid submitted) with
  | Err e => (w, Err e)
  | Ok rows =>
      match find_created submitted rows with
      | Some actual => remove w actual
      | None => (w, Ok AlreadyAbsent)
      end
  end.

(** win32-resource/routes.rs:415-426 [install_plan]: the loop; [installed] holds the rows done,
    the last one first. *)
Fixpoint install_rows (w : W) (installed rows : list RouteRow) : W * result NativeError () :=
  match rows with
  | [] => (w, Ok ())
  | row :: rows =>
      match install w row with
      | (w, Ok _) => install_rows w (row :: installed) rows
      | (w, Err e) => (foldl (λ w row, fst (remove w row)) w installed, Err e)
      end
  end.
(** win32-resource/routes.rs:398-427 [install_plan] *)
Definition install_plan (w : W) (rows : list RouteRow) : W * result NativeError () :=
  if existsb (λ r, (MAX_PREFIX_LEN <? rr_prefix_len r)%N) rows then
    (w, Err (NativeError_from_win32 ERROR_INVALID_PARAMETER "install_plan: 非法前缀（IPv4 前缀上限 32）"))
  else install_rows w [] rows.

(** win32-resource/routes.rs:577-613 [find_rows_for_dest] *)
Definition find_rows_for_dest (w : W) (dest : Ipv4Addr) (prefix_len : N) : result NativeError (list RouteRow) :=
  let wanted := masked_network dest prefix_len in
  let '(rc, table) := forward_table w in
  if negb (rc =? 0)%N then Err (NativeError_from_win32 rc "GetIpForwardTable2 失败")
  else Ok (filter (λ row, rr_network row = wanted ∧ rr_prefix_len row = prefix_len)
             (omap from_api_row (default [] table))).

(** win32-resource/routes.rs:429-431 [BYPASS_ROUTE_PREFIX] *)
Definition BYPASS_ROUTE_PREFIX : N := 32.
(** win32-resource/routes.rs:432-433 [BYPASS_ROUTE_METRIC] *)
Definition BYPASS_ROUTE_METRIC : N := 1.

(** win32-resource/routes.rs:561-575 [gateway_egress_row_from_observation] *)
Definition gateway_egress_row_from_observation (gateway_ip next_hop : Ipv4Addr) (interface_luid metric : N) : RouteRow :=
  RouteRow_new gateway_ip BYPASS_ROUTE_PREFIX next_hop interface_luid metric.

(** win32-resource/routes.rs:469-559 [observe_gateway_egress] *)
Definition observe_gateway_egress (w : W) (gateway_ip local_ip : Ipv4Addr) : result NativeError (RouteRow * N) :=
  let '(code, (route, best_source)) := best_route w (to_sockaddr local_ip) (to_sockaddr gateway_ip) in
  if negb (code =? 0)%N then Err (NativeError_from_win32 code "observe_gateway_egress: GetBestRoute2 失败")
  else
    selected_source ← ok_or (ipv4_of best_source)
      (NativeError_from_win32 ERROR_INVALID_PARAMETER "observe_gateway_egress: best source 不是 IPv4");
    if negb (bool_decide (selected_source = local_ip)) then
      Err (NativeError_from_win32 ERROR_INVALID_PARAMETER
             "observe_gateway_egress: best source 与已连接 socket source 不一致")
    else
      next_hop ← ok_or (ipv4_of (ar_next_hop route))
        (NativeError_from_win32 ERROR_INVALID_PARAMETER "observe_gateway_egress: best route next-hop 不是 IPv4");
      let '(index_code, ifindex) := luid_to_index w (ar_luid route) in
      if negb (index_code =? 0)%N then
        Err (NativeError_from_win32 index_code "observe_gateway_egress: ConvertInterfaceLuidToIndex 失败")
      else Ok (gateway_egress_row_from_observation gateway_ip next_hop (ar_luid route) (ar_metric route), ifindex).
End routes.

(** win32-resource/vgdc_dns.rs:257-263 [is_fake_ip_v4] *)
Definition is_fake_ip_v4 (ip : Ipv4Addr) : bool :=
  (byte_val (ip_a ip) =? 198)%N && ((byte_val (ip_b ip) =? 18)%N || (byte_val (ip_b ip) =? 19)%N).

(** win32-resource/routes.rs:435-467 [gateway_bypass_row], of the gateway and the interface of
    the network card. *)
Definition gateway_bypass_row (nic_gateway : Ipv4Addr) (nic_luid : N) (gateway_ip : Ipv4Addr) : result NativeError RouteRow :=
  if is_fake_ip_v4 gateway_ip then
    Err (NativeError_from_win32 ERROR_INVALID_PARAMETER
           "gateway_bypass_row: 拒绝 fake-ip 网关（198.18.0.0/15；VGDC 双线不应产出）")
  else Ok (RouteRow_new gateway_ip BYPASS_ROUTE_PREFIX nic_gateway nic_luid BYPASS_ROUTE_METRIC).

(** win32-resource/routes.rs:615-626 [build_install_plan] *)
Definition build_install_plan (bypass : option RouteRow) (tunnel : list RouteRow) : list RouteRow :=
  match bypass with Some b => [b] | None => [] end ++ tunnel.
(** win32-resource/routes.rs:628-633 [build_cleanup_order] *)
Definition build_cleanup_order (installed : list RouteRow) : list RouteRow := reverse installed.

(** ** Masks *)

Lemma ones_shift p : (1 ≤ p ≤ 32)%N → ∀ i,
  N.testbit (N.shiftl (2 ^ 32 - 1) (32 - p) mod 2 ^ 32) i = ((32 - p <=? i) && (i <? 32))%N.
Proof.
  intros Hp i. destruct (N.ltb_spec i 32) as [Hi|Hi].
  - rewrite N.mod_pow2_bits_low by done. rewrite andb_true_r.
    destruct (N.leb_spec (32 - p) i) as [Hl|Hl].
    + rewrite N.shiftl_spec_high by lia. change (2 ^ 32 - 1)%N with (N.ones 32). by rewrite N.ones_spec_low by lia.
    + by apply N.shiftl_spec_low.
  - rewrite N.mod_pow2_bits_high by done. by rewrite andb_false_r.
Qed.
Lemma high_bits a i : (32 ≤ i)%N → N.testbit (to_u32 a) i = false.
Proof.
  intros Hi. rewrite <-(N.mod_small (to_u32 a) (2 ^ 32)) by apply to_u32_lt. by apply N.mod_pow2_bits_high.
Qed.

(** Masking an address keeps the first [p] bits and clears the others. *)
Theorem masked_network_bits a p i : (p ≤ 32)%N → (i < 32)%N →
  N.testbit (to_u32 (masked_network a p)) i = (N.testbit (to_u32 a) i && (32 - p <=? i)%N).
Proof.
  intros Hp Hi. unfold masked_network. rewrite to_of_u32.
  2:{ eapply N.le_lt_trans; [|apply (to_u32_lt a)]. apply N.land_le_l. }
  rewrite N.land_spec. f_equal. destruct (N.eqb_spec p 0) as [->|Hz].
  - rewrite N.bits_0. symmetry. apply N.leb_gt. lia.
  - rewrite (proj2 (N.leb_le p 32)) by done. rewrite ones_shift by lia.
    by rewrite (proj2 (N.ltb_lt i 32)) by done; rewrite andb_true_r.
Qed.

(** ** What an operation does to the table *)

Definition route_id (row : RouteRow) : RouteId :=
  (rr_network row, rr_prefix_len row, rr_next_hop row, rr_interface_luid row).

Lemma to_api_id row : api_id (to_api_row row) = Some (route_id row).
Proof. unfold api_id, to_api_row. cbn [ar_destination ar_next_hop]. by rewrite !ipv4_of_sockaddr. Qed.
Lemma from_api_id r row : from_api_row r = Some row →
  api_id r = Some (route_id row) ∧ ar_metric r = rr_metric row ∧ protocol_u32 (ar_protocol r) = rr_protocol row.
Proof.
  unfold from_api_row, api_id. destruct (ipv4_of (ar_destination r)); [|done].
  destruct (ipv4_of (ar_next_hop r)); [|done]. by intros [= <-].
Qed.
Lemma from_api_luid r row : from_api_row r = Some row → ar_luid r = rr_interface_luid row.
Proof.
  unfold from_api_row. destruct (ipv4_of (ar_destination r)); [|done].
  destruct (ipv4_of (ar_next_hop r)); [|done]. by intros [= <-].
Qed.
Lemma api_id_from r i : api_id r = Some i → ∃ row, from_api_row r = Some row ∧ route_id row = i.
Proof.
  unfold from_api_row, api_id. destruct (ipv4_of (ar_destination r)); [|done].
  destruct (ipv4_of (ar_next_hop r)); [|done]. intros [= <-]. eexists. by split.
Qed.
Lemma same_identity_id a b : same_route_identity a b = true ↔ route_id a = route_id b.
Proof.
  unfold same_route_identity, dest_key, route_id. rewrite !andb_true_iff, !bool_decide_eq_true. split; [intros [[[= -> ->] ->] ->]; done|].
  intros [= -> -> -> ->]. done.
Qed.
Lemma protocol_netmgmt p : protocol_u32 p = 3%N ↔ p = NETMGMT.
Proof. unfold protocol_u32, NETMGMT. lia. Qed.

Section laws.
Context {W : Type} `{IpHelperLaws W}.
Implicit Types (w : W).

(** The table has the row, with all of its fields. *)
Definition holds w (row : RouteRow) : Prop :=
  ∃ p, route_at w (route_id row) = Some (rr_metric row, p) ∧ protocol_u32 p = rr_protocol row.

(** The table after a row is made, and after the row of an identity is gone. *)
Definition made w w' (i : RouteId) (metric : N) : Prop :=
  route_at w i = None ∧ ∀ j, route_at w' j = if decide (j = i) then Some (metric, NETMGMT) else route_at w j.
Definition gone w w' (i : RouteId) : Prop := ∀ j, route_at w' j = if decide (j = i) then None else route_at w j.

(** What no operation on routes changes. *)
Definition only_routes w w' : Prop := same_addrs w w' ∧ same_mtus w w' ∧ same_dns w w'.
#[export] Instance only_routes_equiv : Equivalence only_routes.
Proof.
  split.
  - intros w. by unfold only_routes.
  - intros w w' (? & ? & ?). split_and!; by symmetry.
  - intros w1 w2 w3 (? & ? & ?) (? & ? & ?). split_and!; by etrans.
Qed.

(** The next hop is not an address of the interface. *)
Definition hop_kept w (row : RouteRow) : Prop :=
  rr_next_hop row = UNSPECIFIED ∨ addr_at w (rr_next_hop row, rr_interface_luid row) = None.
Lemma kept_id_kept w row : hop_kept w row → kept_id w (route_id row) = route_id row.
Proof.
  unfold kept_id, route_id, hop_kept. case_decide as E; [|done].
  intros [->|Hk]; [done|]. rewrite Hk in E. by destruct E.
Qed.

Lemma holds_netmgmt w row : rr_protocol row = 3%N → holds w row ↔ managed w (route_id row) = Some (rr_metric row).
Proof.
  intros Hp. unfold holds, managed. rewrite Hp. split.
  - intros (p & -> & ->%protocol_netmgmt). done.
  - destruct (route_at w (route_id row)) as [[m p]|]; [|done]. destruct (Z.eqb_spec p NETMGMT) as [->|]; [|done].
    intros [= ->]. by exists NETMGMT.
Qed.
Lemma capture_sound w luid rows row : capture_rows w luid = Ok rows → row ∈ rows →
  holds w row ∧ rr_interface_luid row = luid.
Proof.
  unfold capture_rows. destruct (forward_table w) as [rc t] eqn:E. destruct (N.eqb_spec rc 0) as [->|]; [|done].
  simpl. destruct t as [t|]; intros [= <-] Hin; [|by apply not_elem_of_nil in Hin].
  apply list_elem_of_omap in Hin as (r & Hr & Hf). destruct (N.eqb_spec (ar_luid r) luid) as [<-|]; [|done].
  pose proof (from_api_id r row Hf) as (Hi & Hm & Hp). split.
  - exists (ar_protocol r). split; [|done]. rewrite <-Hm. by eapply table_sound.
  - symmetry. by apply from_api_luid.
Qed.
Lemma capture_complete w luid rows i m p : capture_rows w luid = Ok rows → route_at w i = Some (m, p) →
  i.2 = luid → ∃ row, row ∈ rows ∧ route_id row = i ∧ rr_metric row = m ∧ rr_protocol row = protocol_u32 p.
Proof.
  unfold capture_rows. destruct (forward_table w) as [rc t] eqn:E. destruct (N.eqb_spec rc 0) as [->|]; [|done].
  simpl. intros Hc Hi <-. destruct (table_complete w t i m p E Hi) as (r & Hr & Hid & <- & <-).
  destruct t as [t|]; [|by apply not_elem_of_nil in Hr]. simplify_eq/=.
  destruct (api_id_from r i Hid) as (row & Hf & <-). pose proof (from_api_id r row Hf) as (_ & Hm & Hp).
  exists row. split_and!; [|done..]. apply list_elem_of_omap. exists r. split; [done|].
  rewrite (from_api_luid r row Hf). simpl. by rewrite N.eqb_refl.
Qed.
Lemma find_created_sound s rows row : find_created s rows = Some row →
  row ∈ rows ∧ route_id row = route_id s ∧ rr_protocol row = rr_protocol s.
Proof.
  intros [Hin Hb]%List.find_some. apply andb_true_iff in Hb as [Hi%same_identity_id Hp%bool_decide_eq_true].
  split_and!; [by apply list_elem_of_In|done..].
Qed.
Lemma find_created_None s rows row : find_created s rows = None → row ∈ rows →
  route_id row = route_id s → rr_protocol row ≠ rr_protocol s.
Proof.
  intros Hn Hin%list_elem_of_In Hi Hp. pose proof (List.find_none _ _ Hn _ Hin) as Hf. simpl in Hf.
  rewrite (proj2 (same_identity_id s row)), bool_decide_true in Hf by done. done.
Qed.
Lemma find_created_present w row m rows : capture_rows w (rr_interface_luid row) = Ok rows →
  rr_protocol row = 3%N → route_at w (route_id row) = Some (m, NETMGMT) →
  ∃ actual, find_created row rows = Some actual ∧ route_id actual = route_id row ∧
    rr_metric actual = m ∧ rr_protocol actual = 3%N.
Proof.
  intros Hc Hp Hr. destruct (find_created row rows) as [actual|] eqn:Ef.
  - apply find_created_sound in Ef as (Hin & Hi & Hpa). exists actual. split_and!; [done..| |by rewrite Hpa].
    destruct (capture_sound _ _ _ _ Hc Hin) as [(p & Hr' & _) _]. rewrite Hi in Hr'. by simplify_eq.
  - destruct (capture_complete _ _ _ _ _ _ Hc Hr eq_refl) as (x & Hin & Hi & _ & Hpx).
    exfalso. by apply (find_created_None _ _ _ Ef Hin Hi); rewrite Hpx, Hp.
Qed.

Lemma make_route w row code w' : hop_kept w row → create_forward w (to_api_row row) = (code, w') →
  only_routes w w' ∧
  (code = 0%N → ∃ m, made w w' (route_id row) m) ∧ (code ≠ 0%N → same_routes w w') ∧
  (code = ERROR_OBJECT_ALREADY_EXISTS → is_Some (route_at w (route_id row))).
Proof.
  intros Hk Hc. pose proof (create_frame w (to_api_row row)) as Hf. rewrite Hc in Hf. split; [exact Hf|].
  split_and!.
  - intros ->. destruct (create_made _ _ _ _ Hc (to_api_id row)) as [Hn [m Hm]].
    rewrite (kept_id_kept _ _ Hk) in Hn, Hm. exists m. by split.
  - intros Hz. pose proof (create_refused w (to_api_row row)) as Hr. rewrite Hc in Hr. by apply Hr.
  - intros ->. rewrite <-(kept_id_kept w row Hk).
    apply (create_exists w (to_api_row row)); [by rewrite Hc|apply to_api_id].
Qed.

(** Reading a row back that is in the table gives its effective fields, if it works. *)
Lemma read_back_present w row m p : route_at w (route_id row) = Some (m, p) → ∀ actual,
  read_back_effective_row w row = Ok actual →
  route_id actual = route_id row ∧ rr_metric actual = m ∧ rr_protocol actual = protocol_u32 p.
Proof.
  intros Hr actual. unfold read_back_effective_row.
  destruct (get_forward w (to_api_row row)) as [code r] eqn:Eg. destruct (N.eqb_spec code 0) as [->|]; [|done].
  simpl. destruct (from_api_row r) as [a|] eqn:Ef; [|done]. simpl.
  destruct (same_route_identity row a); simpl; [|done]. intros [= <-].
  pose proof (from_api_id r a Ef) as (Hi & Hm & Hp).
  pose proof (get_found w _ _ r Eg (to_api_id row) ltac:(by eauto)) as Hg.
  assert (Hid : route_id a = route_id row) by congruence.
  pose proof (get_filled _ _ _ _ Eg Hg) as Hfill. rewrite Hr in Hfill. injection Hfill as -> ->. done.
Qed.

Lemma unread_created_spec w0 w row m e : rr_protocol row = 3%N → made w0 w (route_id row) m →
  let out := unread_created w row e in
  only_routes w (fst out) ∧
  match snd out with
  | Ok (Created actual) =>
      route_id actual = route_id row ∧ rr_protocol actual = 3%N ∧ made w0 (fst out) (route_id row) (rr_metric actual)
  | Ok (CreatedPending submitted _ _) => submitted = row ∧ made w0 (fst out) (route_id row) m
  | Ok (Borrowed _) => False
  | Err _ => same_routes w0 (fst out)
  end.
Proof.
  intros Hp [Hn Hm]. unfold unread_created. destruct (delete_forward w (to_api_row row)) as [code w'] eqn:Ed.
  pose proof (delete_frame w (to_api_row row)) as Hf. rewrite Ed in Hf.
  assert (Hpres : route_at w (route_id row) = Some (m, NETMGMT)) by (rewrite Hm; by rewrite decide_True).
  destruct (N.eqb_spec code 0) as [->|Hz]; simpl.
  { split; [exact Hf|]. intros j. rewrite (delete_made _ _ _ _ Ed (to_api_id row)), Hm.
    case_decide; [by subst|done]. }
  pose proof (delete_refused w (to_api_row row)) as Hr. rewrite Ed in Hr. specialize (Hr Hz).
  destruct (N.eqb_spec code ERROR_NOT_FOUND) as [->|_].
  { pose proof (delete_missing w _ _ ltac:(by rewrite Ed) (to_api_id row)) as Hd. by rewrite Hd in Hpres. }
  assert (Hw : ∀ x, made w0 w (route_id row) x → made w0 w' (route_id row) x).
  { intros x [? Hx]. split; [done|]. intros j. by rewrite Hr, Hx. }
  assert (Hpres' : route_at w' (route_id row) = Some (m, NETMGMT)) by (by rewrite Hr).
  destruct (capture_rows w' (rr_interface_luid row)) as [rows|e'] eqn:Ec; simpl.
  2:{ split; [exact Hf|]. split; [done|]. by apply Hw. }
  destruct (find_created_present w' row m rows Ec Hp Hpres') as (actual & -> & Hi & <- & Hpa). simpl.
  split; [exact Hf|]. split_and!; [done..|by apply Hw].
Qed.

(** What installing a row did, by its answer: it made the row, which is the caller's from
    then on, or it found it, or the table is as it was. *)
Lemma install_outcome w row : rr_protocol row = 3%N → hop_kept w row →
  let out := install_with_outcome w row in
  only_routes w (fst out) ∧
  match snd out with
  | Ok (Created actual) =>
      route_id actual = route_id row ∧ rr_protocol actual = 3%N ∧ made w (fst out) (route_id row) (rr_metric actual)
  | Ok (CreatedPending submitted _ _) => submitted = row ∧ ∃ m, made w (fst out) (route_id row) m
  | Ok (Borrowed actual) => same_routes w (fst out) ∧ holds w actual ∧ route_id actual = route_id row
  | Err _ => same_routes w (fst out)
  end.
Proof.
  intros Hp Hk. unfold install_with_outcome. destruct (_ <? _)%N; simpl; [done|].
  destruct (create_forward w (to_api_row row)) as [code w1] eqn:Ec.
  destruct (make_route w row code w1 Hk Ec) as (Hf & Hmade & Hsame & Hex).
  unfold classify_create_result. destruct (N.eqb_spec code 0) as [->|Hz].
  - destruct Hmade as [m Hm]; [done|].
    assert (Hpres : route_at w1 (route_id row) = Some (m, NETMGMT)) by (destruct Hm as [_ ->]; by rewrite decide_True).
    destruct (read_back_effective_row w1 row) as [actual|e] eqn:Er; simpl.
    + destruct (read_back_present _ _ _ _ Hpres _ Er) as (Hi & <- & Hpa). done.
    + destruct (unread_created_spec w w1 row m e Hp Hm) as [Hf' Ho].
      destruct (unread_created w1 row e) as [w2 [[a|s e1 e2|b]|e']]; simpl in *;
        (split; [by etrans|]); [done| |done..]. destruct Ho as [-> ?]. eauto.
  - specialize (Hsame Hz). destruct (N.eqb_spec code ERROR_OBJECT_ALREADY_EXISTS) as [->|Hc]; simpl; [|done].
    destruct (read_back_effective_row w1 row) as [actual|e] eqn:Er; simpl; [|done].
    split; [done|]. split; [done|]. destruct (Hex eq_refl) as [[m p] Hr].
    assert (Hr1 : route_at w1 (route_id row) = Some (m, p)) by (by rewrite Hsame).
    destruct (read_back_present _ _ _ _ Hr1 _ Er) as (Hi & <- & Hpa). split; [|done]. exists p. rewrite Hi. by rewrite Hpa.
Qed.

(** What removing a row did, by its answer: it deleted exactly that row; or there is no
    row of that identity; or the table is as it was, and when the answer is that the row
    is not the caller's, the table does not have it. *)
Lemma remove_outcome w row :
  let out := remove w row in
  only_routes w (fst out) ∧
  match snd out with
  | Ok Removed => holds w row ∧ gone w (fst out) (route_id row)
  | Ok AlreadyAbsent => fst out = w ∧ route_at w (route_id row) = None
  | Err e => same_routes w (fst out) ∧ (ne_code e = ERROR_INVALID_PARAMETER → rr_interface_luid row ≠ 0%N → ¬ holds w row)
  end.
Proof.
  unfold remove. destruct (bool_decide _ && (rr_interface_luid row =? 0)%N) eqn:Ez; simpl.
  { split; [done|]. split; [done|]. intros _ Hl. apply andb_true_iff in Ez as [_ ?%N.eqb_eq]. done. }
  destruct (get_forward w (to_api_row row)) as [code r] eqn:Eg.
  destruct (N.eqb_spec code ERROR_NOT_FOUND) as [->|Hnf]; simpl.
  { split; [done|]. split; [done|]. apply (get_missing w (to_api_row row)); [by rewrite Eg|apply to_api_id]. }
  destruct (N.eqb_spec code 0) as [->|Hz]; simpl.
  2:{ split; [done|]. split; [done|]. intros -> Hl. exfalso.
      apply (get_valid w (to_api_row row)); [done|by rewrite Eg]. }
  destruct (from_api_row r) as [filled|] eqn:Ef; simpl; [|done].
  pose proof (from_api_id r filled Ef) as (Hi & Hm & Hp).
  destruct (bool_decide (filled = row)) eqn:Eb; simpl.
  - apply bool_decide_eq_true in Eb as ->. destruct (delete_forward w r) as [code w'] eqn:Ed.
    pose proof (delete_frame w r) as Hf. rewrite Ed in Hf.
    pose proof (get_filled _ _ _ _ Eg Hi) as Hfill. rewrite Hm in Hfill.
    destruct (N.eqb_spec code 0) as [->|Hz]; simpl; (split; [exact Hf|]).
    + split; [by exists (ar_protocol r)|]. intros j. by apply (delete_made w r).
    + pose proof (delete_refused w r) as Hr. rewrite Ed in Hr. split; [by apply Hr|]. intros -> Hl. exfalso.
      apply (delete_valid w r); [by rewrite (from_api_luid r row Ef)|by rewrite Ed].
  - apply bool_decide_eq_false in Eb. split; [done|]. split; [done|]. intros _ _ (p & Hr & Hpr). apply Eb.
    pose proof (get_found w _ _ r Eg (to_api_id row) ltac:(by eauto)) as Hg. rewrite Hg in Hi.
    pose proof (get_filled _ _ _ _ Eg Hg) as Hfill. rewrite Hr in Hfill. destruct filled, row.
    unfold route_id in Hi. by simplify_eq/=.
Qed.

(** Removing a row that could not be read back: the row of that identity which a
    management program made. *)
Lemma remove_pending_outcome w row : rr_protocol row = 3%N →
  let out := remove_created_pending w row in
  only_routes w (fst out) ∧
  match snd out with
  | Ok Removed => is_Some (managed w (route_id row)) ∧ gone w (fst out) (route_id row)
  | Ok AlreadyAbsent => same_routes w (fst out) ∧ managed w (route_id row) = None
  | Err e => same_routes w (fst out) ∧
      (ne_code e = ERROR_INVALID_PARAMETER → rr_interface_luid row ≠ 0%N → managed w (route_id row) = None)
  end.
Proof.
  intros Hp. unfold remove_created_pending.
  destruct (capture_rows w (rr_interface_luid row)) as [rows|e] eqn:Ec; simpl.
  2:{ split; [done|]. split; [done|]. intros He. exfalso. revert Ec. unfold capture_rows.
      pose proof (table_valid w) as Hv. destruct (forward_table w) as [rc t]. simpl in Hv.
      destruct (N.eqb_spec rc 0); simpl; [by destruct t|]. intros [= <-]. done. }
  destruct (find_created row rows) as [actual|] eqn:Ef.
  - apply find_created_sound in Ef as (Hin & Hi & Hpa). rewrite Hp in Hpa.
    destruct (capture_sound _ _ _ _ Ec Hin) as [Hh Hl].
    pose proof (remove_outcome w actual) as [Hf Ho]. destruct (remove w actual) as [w' [[|]|e]]; simpl in *.
    + destruct Ho as [_ Hg]. rewrite Hi in Hg. split; [done|]. split; [|done].
      apply holds_netmgmt in Hh as Hh'; [|done]. rewrite Hi in Hh'. eauto.
    + destruct Ho as [-> Hn]. destruct Hh as (p & Hr & _). by rewrite Hr in Hn.
    + destruct Ho as [Hs Hc]. split; [done|]. split; [done|]. intros He Hz. exfalso.
      apply Hc; [done|by rewrite Hl|done].
  - split; [done|]. split; [done|]. unfold managed.
    destruct (route_at w (route_id row)) as [[m p]|] eqn:Er; [|done].
    destruct (Z.eqb_spec p NETMGMT) as [->|]; [|done]. exfalso.
    destruct (find_created_present w row m rows Ec Hp Er) as (a & Ha & _). congruence.
Qed.
End laws.
