(* ===== verification/NetSettings.v ===== *)
(** * Addresses, MTU and DNS of an interface

    [ip_address.rs], [ip_helper_types.rs], [mtu.rs], [dns.rs] and [dns_types.rs] of the
    Windows resource crate: how each family of settings is captured, applied, and
    restored only when nobody else changed it since. SHA-256 is a parameter. *)

From Stdlib Require Import NArith ZArith Strings.Byte Lia.
From S2P Require Import Prelude Text Utf16 NativeError Registry IpHelper Routes.

(** ** Addresses *)

(** win32-resource/ip_helper_types.rs:5-29 [IpAddressRow] *)
Record IpAddressRow := MkIpAddressRow {
  ia_address : Ipv4Addr;
  ia_interface_luid : N;
  ia_on_link_prefix_length : N;
  ia_skip_as_source : bool;
  ia_prefix_origin : N;
  ia_suffix_origin : N;
  ia_dad_state : N;
  ia_lifetime_infinite : bool;
}.
#[export] Instance IpAddressRow_eq_dec : EqDecision IpAddressRow. Proof. solve_decision. Defined.

(** win32-resource/ip_helper_types.rs:32-46 [IpAddressRow::new] *)
Definition IpAddressRow_new (address : Ipv4Addr) (interface_luid on_link_prefix_length : N) : IpAddressRow :=
  MkIpAddressRow address interface_luid on_link_prefix_length false 0 0 0 false.

(** win32-resource/ip_helper_types.rs:49-60 [IpAddressPlan] *)
Record IpAddressPlan := MkIpAddressPlan { to_add : list IpAddressRow; pre_existing : list IpAddressRow }.

(** win32-resource/ip_address.rs:21-22 [LIFETIME_INFINITE] *)
Definition LIFETIME_INFINITE : N := 0xFFFFFFFF.
(** win32-resource/ip_address.rs:24-31 [ApplyOutcome] *)
Inductive ApplyOutcome := Applied | AlreadyExists.

(** win32-resource/ip_address.rs:169-173 [same_identity] *)
Definition same_identity (a b : IpAddressRow) : bool :=
  bool_decide (ia_address a = ia_address b) && bool_decide (ia_interface_luid a = ia_interface_luid b).
(** win32-resource/ip_address.rs:175-181 [same_fingerprint] *)
Definition same_fingerprint (a b : IpAddressRow) : bool :=
  same_identity a b
  && bool_decide (ia_on_link_prefix_length a = ia_on_link_prefix_length b)
  && bool_decide (ia_skip_as_source a = ia_skip_as_source b).

(** win32-resource/ip_address.rs:138-153 [plan_addresses] *)
Definition plan_addresses (captured desired : list IpAddressRow) : IpAddressPlan :=
  let present row := existsb (λ c, same_identity c row) captured in
  MkIpAddressPlan (filter (λ row, present row = false) desired) (filter (λ row, present row = true) desired).
(** win32-resource/ip_address.rs:155-167 [restore_owned_addresses] *)
Definition restore_owned_addresses (applied current : list IpAddressRow) : list IpAddressRow :=
  filter (λ owned, existsb (λ c, same_fingerprint c owned) current = true) applied.

(** [u8::try_from] of an origin or a state, 0 when it does not fit. *)
Definition to_u8 (z : Z) : N := if ((0 <=? z) && (z <? 256))%Z then Z.to_N z else 0%N.

(** win32-resource/ip_address.rs:197-205 [sockaddr_ipv4] *)
Definition sockaddr_ipv4 (addr : Ipv4Addr) : SockAddr := MkSockAddr AF_INET (be_val (reverse (octets addr))).
(** win32-resource/ip_address.rs:183-195 [unicast_entry_for]; the other fields are the ones
    [InitializeUnicastIpAddressEntry] writes. *)
Definition unicast_entry_for (row : IpAddressRow) : UnicastRow :=
  MkUnicastRow (sockaddr_ipv4 (ia_address row)) (ia_interface_luid row) (ia_on_link_prefix_length row)
    (ia_skip_as_source row) 0 0 0 LIFETIME_INFINITE LIFETIME_INFINITE.
(** win32-resource/ip_address.rs:207-222 [ipv4_row_from_mib] *)
Definition ipv4_row_from_mib (row : UnicastRow) (interface_luid : N) : IpAddressRow :=
  MkIpAddressRow (of_octets (le_bytes 4 (s_addr (ur_address row)))) interface_luid (ur_prefix_length row)
    (ur_skip_as_source row) (to_u8 (ur_prefix_origin row)) (to_u8 (ur_suffix_origin row)) (to_u8 (ur_dad_state row))
    ((ur_valid_lifetime row =? LIFETIME_INFINITE)%N && (ur_preferred_lifetime row =? LIFETIME_INFINITE)%N).

(** [DnsFingerprint]: the digest. *)
Abbreviation DnsFingerprint := (array 32).

Section settings.
Context {W : Type} `{IpHelper W}.

(** win32-resource/ip_address.rs:50-85 [IpAddressController::capture] *)
Definition addr_capture (w : W) (interface_luid : N) : result NativeError (list IpAddressRow) :=
  let '(rc, table) := unicast_table w in
  match table with
  | Some rows =>
      if negb (rc =? 0)%N then Err (NativeError_from_win32 rc "GetUnicastIpAddressTable 失败")
      else Ok (omap (λ row, if (ur_luid row =? interface_luid)%N then Some (ipv4_row_from_mib row (ur_luid row))
                            else None) rows)
  | None => Err (NativeError_from_win32 rc "GetUnicastIpAddressTable 失败")
  end.
(** win32-resource/ip_address.rs:87-112 [IpAddressController::apply] *)
Definition addr_apply (w : W) (row : IpAddressRow) : W * result NativeError ApplyOutcome :=
  let '(rc, w) := create_unicast w (unicast_entry_for row) in
  if (rc =? 0)%N then (w, Ok Applied)
  else if (rc =? ERROR_OBJECT_ALREADY_EXISTS)%N then (w, Ok AlreadyExists)
  else (w, Err (NativeError_from_win32 rc "CreateUnicastIpAddressEntry 失败")).
(** win32-resource/ip_address.rs:114-135 [IpAddressController::delete] *)
Definition addr_delete (w : W) (row : IpAddressRow) : W * result NativeError () :=
  let '(rc, w) := delete_unicast w (unicast_entry_for row) in
  if (rc =? 0)%N then (w, Ok ()) else (w, Err (NativeError_from_win32 rc "DeleteUnicastIpAddressEntry 失败")).

(** ** MTU *)

(** win32-resource/mtu.rs:11-12 [IPV4_MIN_MTU] *)
Definition IPV4_MIN_MTU : N := 68.
(** win32-resource/mtu.rs:13-14 [MTU_MAX] *)
Definition MTU_MAX : N := 0xFFFF.
(** win32-resource/mtu.rs:39-56 [MtuSnapshot] *)
Record MtuSnapshot := MkMtu { mt_luid : N; mt_family : MtuFamily; mt_value : N }.
(** win32-resource/mtu.rs:58-67 [RestoreOutcome] *)
Inductive RestoreOutcome := RestoredValue | SkippedThirdPartyChanged.

(** win32-resource/mtu.rs:166-183 [validate_mtu_value] *)
Definition validate_mtu_value (value : N) : result NativeError () :=
  if (value =? 0)%N || ((IPV4_MIN_MTU <=? value)%N && (value <=? MTU_MAX)%N) then Ok ()
  else Err (NativeError_from_win32 ERROR_INVALID_PARAMETER "mtu: 非法 MTU 值（0 或 68..=65535）").
(** win32-resource/mtu.rs:153-164 [decide_restore] *)
Definition decide_restore (applied current : MtuSnapshot) : RestoreOutcome :=
  if (mt_value current =? mt_value applied)%N then RestoredValue else SkippedThirdPartyChanged.

(** win32-resource/mtu.rs:213-231 [interface_row] *)
Definition interface_row (w : W) (luid : N) (family : MtuFamily) : result NativeError IfRow :=
  let '(rc, row) := get_interface w family luid in
  if negb (rc =? 0)%N then Err (NativeError_from_win32 rc "mtu: GetIpInterfaceEntry 失败（读取接口 MTU）") else Ok row.
(** win32-resource/mtu.rs:185-189 [read_nl_mtu] *)
Definition read_nl_mtu (w : W) (luid : N) (family : MtuFamily) : result NativeError N :=
  row ← interface_row w luid family; Ok (if_nl_mtu row).
(** win32-resource/mtu.rs:191-211 [set_nl_mtu] *)
Definition set_nl_mtu (w : W) (luid : N) (family : MtuFamily) (value : N) : W * result NativeError () :=
  match interface_row w luid family with
  | Err e => (w, Err e)
  | Ok row =>
      let site := match family with FamV4 => 0%N | FamV6 => if_site_prefix_length row end in
      let '(rc, w) := set_interface w family luid (MkIfRow site value (if_dad_transmits row)) in
      if negb (rc =? 0)%N then (w, Err (NativeError_from_win32 rc "mtu: SetIpInterfaceEntry 失败（写入接口 MTU）"))
      else (w, Ok ())
  end.
(** win32-resource/mtu.rs:89-99 [MtuController::capture] *)
Definition mtu_capture (w : W) (luid : N) (family : MtuFamily) : result NativeError MtuSnapshot :=
  value ← read_nl_mtu w luid family; Ok (MkMtu luid family value).
(** win32-resource/mtu.rs:101-112 [MtuController::apply] *)
Definition mtu_apply (w : W) (luid : N) (family : MtuFamily) (value : N) : W * result NativeError () :=
  match validate_mtu_value value with
  | Err e => (w, Err e)
  | Ok _ => set_nl_mtu w luid family value
  end.
(** win32-resource/mtu.rs:125-150 [MtuController::compare_and_restore] *)
Definition compare_and_restore (w : W) (luid : N) (family : MtuFamily) (applied original : MtuSnapshot) :
    W * result NativeError RestoreOutcome :=
  match mtu_capture w luid family with
  | Err e => (w, Err e)
  | Ok current =>
      match decide_restore applied current with
      | SkippedThirdPartyChanged => (w, Ok SkippedThirdPartyChanged)
      | RestoredValue =>
          match mtu_apply w luid family (mt_value original) with
          | (w, Ok _) => (w, Ok RestoredValue)
          | (w, Err e) => (w, Err e)
          end
      end
  end.

(** ** DNS *)

(** win32-resource/dns_types.rs:5-24 [DnsSettings] *)
Record DnsSettings := MkDns { nameservers : list str; search_suffixes : list str }.
#[export] Instance DnsSettings_eq_dec : EqDecision DnsSettings. Proof. solve_decision. Defined.
(** win32-resource/dns_types.rs:59-69 [RestoreDecision] *)
Inductive RestoreDecision := Restore | SkipThirdPartyChange.

(** win32-resource/dns_types.rs:43-52 [DnsFingerprint::of]: the bytes that are hashed. *)
Definition dns_canonical (s : DnsSettings) : list byte :=
  (nameservers s ≫= λ ns, utf8 ns ++ [x00]) ++ [xff] ++ (search_suffixes s ≫= λ suffix, utf8 suffix ++ [x00]).
(** win32-resource/dns_types.rs:40-56 [DnsFingerprint::of] *)
Definition fingerprint_of (sha256 : list byte → array 32) (s : DnsSettings) : DnsFingerprint := sha256 (dns_canonical s).
(** win32-resource/dns_types.rs:72-82 [RestoreDecision::plan] *)
Definition restore_decision (current applied : DnsFingerprint) : RestoreDecision :=
  if bool_decide (current = applied) then Restore else SkipThirdPartyChange.

(** win32-resource/dns.rs:242-252 [flags_of] *)
Definition flags_of (s : DnsSettings) : N :=
  N.lor (if bool_decide (nameservers s = []) then 0 else DNS_FLAG_NAMESERVER)
        (if bool_decide (search_suffixes s = []) then 0 else DNS_FLAG_SEARCH_LIST).
(** [HSTRING::from]: the units of a text and a NUL. *)
Definition hstring (s : str) : list N := encode_utf16 s ++ [0%N].
(** win32-resource/dns.rs:188-206 [dns_settings_v1] *)
Definition dns_settings_v1 (nameserver search : str) : DnsInterfaceSettings :=
  MkDnsIf 1
    (N.lor (if bool_decide (nameserver = []) then 0 else DNS_FLAG_NAMESERVER)
           (if bool_decide (search = []) then 0 else DNS_FLAG_SEARCH_LIST))
    (Some (hstring nameserver)) (Some (hstring search)).
(** win32-resource/dns.rs:208-240 [dns_settings_v2_raw_flags]: the fields the buffer holds. *)
Definition dns_settings_v2_raw_flags (nameserver search : str) (flags : N) : DnsInterfaceSettings :=
  MkDnsIf 2 flags
    (if negb (N.land flags DNS_FLAG_NAMESERVER =? 0)%N then Some (hstring nameserver) else None)
    (if negb (N.land flags DNS_FLAG_SEARCH_LIST =? 0)%N then Some (hstring search) else None).
(** win32-resource/dns.rs:176-186 [set_result] *)
Definition set_result (rc : N) : result NativeError () :=
  if (rc =? 0)%N then Ok () else Err (NativeError_from_win32 rc "dns: SetInterfaceDnsSettings failed").

(** win32-resource/dns.rs:143-174 [set_dns] *)
Definition set_dns (w : W) (guid : N) (settings : DnsSettings) : W * result NativeError () :=
  let nameserver := join [32%N] (nameservers settings) in
  let search := join [32%N] (search_suffixes settings) in
  if bool_decide (nameserver = []) && bool_decide (search = []) then
    let '(rc, w) := set_dns_call w guid
      (dns_settings_v2_raw_flags [] [] (N.lor DNS_FLAG_NAMESERVER DNS_FLAG_SEARCH_LIST)) in
    (w, set_result rc)
  else
    let '(rc_v1, w) := set_dns_call w guid (dns_settings_v1 nameserver search) in
    if (rc_v1 =? 0)%N then (w, Ok ())
    else
      let '(rc_v2, w) := set_dns_call w guid (dns_settings_v2_raw_flags nameserver search (flags_of settings)) in
      (w, set_result rc_v2).

(** win32-resource/dns.rs:22-51 [DnsCapture::capture] *)
Definition dns_capture (w : W) (guid : N) : result NativeError DnsSettings :=
  let '(rc, (ns, sl)) := get_dns w guid in
  if negb (rc =? 0)%N then Err (NativeError_from_win32 rc "dns: GetInterfaceDnsSettings failed")
  else Ok (MkDns (pwstr_list ns) (pwstr_list sl)).

Variable sha256 : list byte → array 32.

(** win32-resource/dns.rs:58-84 [DnsApplier::apply] *)
Definition dns_apply (w : W) (guid : N) (desired : DnsSettings) : W * result NativeError DnsFingerprint :=
  match set_dns w guid desired with
  | (w, Err e) => (w, Err e)
  | (w, Ok _) =>
      match dns_capture w guid with
      | Err e => (w, Err e)
      | Ok readback =>
          if negb (bool_decide (readback = desired)) then
            (w, Err (NativeError_from_win32 0 "dns: read-back after apply does not match desired settings"))
          else (w, Ok (fingerprint_of sha256 readback))
      end
  end.
(** win32-resource/dns.rs:86-123 [DnsApplier::restore] *)
Definition dns_restore (w : W) (guid : N) (applied : DnsFingerprint) (original : DnsSettings) :
    W * result NativeError RestoreDecision :=
  match dns_capture w guid with
  | Err e => (w, Err e)
  | Ok current =>
      match restore_decision (fingerprint_of sha256 current) applied with
      | SkipThirdPartyChange => (w, Ok SkipThirdPartyChange)
      | Restore =>
          match set_dns w guid original with
          | (w, Err e) => (w, Err e)
          | (w, Ok _) =>
              match dns_capture w guid with
              | Err e => (w, Err e)
              | Ok verify =>
                  if negb (bool_decide (fingerprint_of sha256 verify = fingerprint_of sha256 original)) then
                    (w, Err (NativeError_from_win32 0 "dns: restore failed to return the interface to the original snapshot"))
                  else (w, Ok Restore)
              end
          end
      end
  end.
End settings.

(** ** What the operations do *)

Definition addr_id (row : IpAddressRow) : AddrId := (ia_address row, ia_interface_luid row).
Definition addr_value (row : IpAddressRow) : N * bool := (ia_on_link_prefix_length row, ia_skip_as_source row).

Lemma unicast_entry_id row : unicast_id (unicast_entry_for row) = addr_id row.
Proof. unfold unicast_id, unicast_entry_for, sockaddr_ipv4. cbn [ur_address ur_luid s_addr]. by rewrite le_octets. Qed.
Lemma same_identity_spec a b : same_identity a b = true ↔ addr_id a = addr_id b.
Proof.
  unfold same_identity, addr_id. rewrite andb_true_iff, !bool_decide_eq_true.
  split; [intros [-> ->]; done|by intros [= -> ->]].
Qed.
Lemma same_fingerprint_spec a b : same_fingerprint a b = true ↔ addr_id a = addr_id b ∧ addr_value a = addr_value b.
Proof.
  unfold same_fingerprint, addr_value. rewrite !andb_true_iff, !bool_decide_eq_true, same_identity_spec.
  split; [intros [[-> ->] ->]; done|by intros [-> [= -> ->]]].
Qed.

Section laws.
Context {W : Type} `{IpHelperLaws W}.
Implicit Types (w : W).

(** What a change of addresses, of MTU or of DNS settings leaves. *)
Definition only_addrs w w' : Prop := same_managed w w' ∧ same_mtus w w' ∧ same_dns w w'.
Definition only_mtus w w' : Prop := same_managed w w' ∧ same_addrs w w' ∧ same_dns w w'.
Definition only_dns w w' : Prop := same_managed w w' ∧ same_addrs w w' ∧ same_mtus w w'.
#[export] Instance only_addrs_equiv : Equivalence only_addrs.
Proof.
  split; [by unfold only_addrs|intros w w' (? & ? & ?); split_and!; by symmetry|].
  intros w1 w2 w3 (? & ? & ?) (? & ? & ?). split_and!; by etrans.
Qed.
#[export] Instance only_dns_equiv : Equivalence only_dns.
Proof.
  split; [by unfold only_dns|intros w w' (? & ? & ?); split_and!; by symmetry|].
  intros w1 w2 w3 (? & ? & ?) (? & ? & ?). split_and!; by etrans.
Qed.

Lemma addr_captured w luid rows row : addr_capture w luid = Ok rows → row ∈ rows →
  addr_at w (addr_id row) = Some (addr_value row) ∧ ia_interface_luid row = luid.
Proof.
  unfold addr_capture. destruct (unicast_table w) as [rc [t|]] eqn:E; [|done].
  destruct (N.eqb_spec rc 0) as [->|]; [|done]. simpl. intros [= <-] (r & Hr & Hf)%list_elem_of_omap.
  destruct (N.eqb_spec (ur_luid r) luid) as [<-|]; [|done]. simplify_eq/=. split; [|done].
  exact (unicast_sound _ _ _ E Hr).
Qed.
Lemma addr_all_captured w luid rows i x : addr_capture w luid = Ok rows → addr_at w i = Some x → i.2 = luid →
  ∃ row, row ∈ rows ∧ addr_id row = i ∧ addr_value row = x.
Proof.
  unfold addr_capture. destruct (unicast_table w) as [rc [t|]] eqn:E; [|done].
  destruct (N.eqb_spec rc 0) as [->|]; [|done]. simpl. intros [= <-] Hi <-.
  destruct (unicast_complete _ _ _ _ E Hi) as (r & Hr & Hid). pose proof (unicast_sound _ _ _ E Hr) as Hs.
  rewrite Hid, Hi in Hs. exists (ipv4_row_from_mib r (ur_luid r)). split_and!.
  - apply list_elem_of_omap. exists r. split; [done|]. rewrite <-Hid. simpl. by rewrite N.eqb_refl.
  - done.
  - unfold addr_value. simpl. congruence.
Qed.

Lemma addr_apply_outcome w row :
  let out := addr_apply w row in
  only_addrs w (fst out) ∧
  match snd out with
  | Ok Applied => addr_at w (addr_id row) = None ∧
      ∀ j, addr_at (fst out) j = if decide (j = addr_id row) then Some (addr_value row) else addr_at w j
  | Ok AlreadyExists => is_Some (addr_at w (addr_id row)) ∧ same_addrs w (fst out)
  | Err _ => same_addrs w (fst out)
  end.
Proof.
  unfold addr_apply. pose proof (create_unicast_frame w (unicast_entry_for row)) as Hf.
  pose proof (create_unicast_refused w (unicast_entry_for row)) as Hr.
  pose proof (create_unicast_exists w (unicast_entry_for row)) as Hx.
  destruct (create_unicast w (unicast_entry_for row)) as [rc w'] eqn:Ec. simpl in *.
  destruct (N.eqb_spec rc 0) as [->|Hz]; simpl.
  - split; [done|]. pose proof (create_unicast_made _ _ _ Ec) as Hm. by rewrite unicast_entry_id in Hm.
  - destruct (N.eqb_spec rc ERROR_OBJECT_ALREADY_EXISTS) as [->|]; simpl; (split; [done|]); [|by apply Hr].
    split; [|by apply Hr]. rewrite <-unicast_entry_id. by apply Hx.
Qed.
Lemma addr_delete_outcome w row :
  let out := addr_delete w row in
  only_addrs w (fst out) ∧
  match snd out with
  | Ok _ => ∀ j, addr_at (fst out) j = if decide (j = addr_id row) then None else addr_at w j
  | Err _ => same_addrs w (fst out)
  end.
Proof.
  unfold addr_delete. pose proof (delete_unicast_frame w (unicast_entry_for row)) as Hf.
  pose proof (delete_unicast_refused w (unicast_entry_for row)) as Hr.
  destruct (delete_unicast w (unicast_entry_for row)) as [rc w'] eqn:Ec. simpl in *.
  destruct (N.eqb_spec rc 0) as [->|Hz]; simpl; (split; [done|]); [|by apply Hr].
  pose proof (delete_unicast_made _ _ _ Ec) as Hm. by rewrite unicast_entry_id in Hm.
Qed.

Lemma mtu_captured w luid f s : mtu_capture w luid f = Ok s →
  mtu_at w luid f = Some (mt_value s) ∧ mt_value s ≠ 0%N ∧ s = MkMtu luid f (mt_value s).
Proof.
  unfold mtu_capture, read_nl_mtu, interface_row. destruct (get_interface w f luid) as [rc r] eqn:E.
  destruct (N.eqb_spec rc 0) as [->|]; [|done]. simpl. intros [= <-]. simpl.
  destruct (interface_read _ _ _ _ E) as [? ?]. done.
Qed.
(** The MTU of one family of an interface is [v], the others are as before. *)
Definition mtu_now w w' luid f (v : N) : Prop :=
  ∀ l' f', mtu_at w' l' f' = if decide (l' = luid ∧ f' = f ∧ v ≠ 0%N) then Some v else mtu_at w l' f'.
Lemma mtu_apply_outcome w luid f v :
  let out := mtu_apply w luid f v in
  only_mtus w (fst out) ∧ if is_ok (snd out) then mtu_now w (fst out) luid f v else same_mtus w (fst out).
Proof.
  unfold mtu_apply. destruct (validate_mtu_value v); simpl; [|done]. unfold set_nl_mtu.
  destruct (interface_row w luid f) as [r|e]; simpl; [|done].
  set (row := MkIfRow _ v _). pose proof (interface_frame w f luid row) as Hf.
  pose proof (interface_refused w f luid row) as Hr.
  destruct (set_interface w f luid row) as [rc w'] eqn:E. simpl in *.
  destruct (N.eqb_spec rc 0) as [->|]; simpl; (split; [done|]); [|by apply Hr].
  intros l' f'. by rewrite (interface_set _ _ _ _ _ E l' f').
Qed.
Lemma mtu_restore_outcome w luid f applied original :
  let out := compare_and_restore w luid f applied original in
  only_mtus w (fst out) ∧
  match snd out with
  | Ok RestoredValue =>
      mtu_at w luid f = Some (mt_value applied) ∧ mtu_now w (fst out) luid f (mt_value original)
  | Ok SkippedThirdPartyChanged => fst out = w ∧ mtu_at w luid f ≠ Some (mt_value applied)
  | Err _ => same_mtus w (fst out)
  end.
Proof.
  unfold compare_and_restore. destruct (mtu_capture w luid f) as [s|e] eqn:Ec; simpl; [|done].
  destruct (mtu_captured _ _ _ _ Ec) as (Hs & _ & _). unfold decide_restore.
  destruct (N.eqb_spec (mt_value s) (mt_value applied)) as [Heq|Hne]; simpl.
  - destruct (mtu_apply_outcome w luid f (mt_value original)) as [Hf Ho].
    destruct (mtu_apply w luid f (mt_value original)) as [w' [[]|e]]; simpl in *; [|done].
    split; [done|]. split; [|done]. by rewrite Hs, Heq.
  - split; [done|]. split; [done|]. rewrite Hs. by intros [= ?].
Qed.

Definition dns_lists (s : DnsSettings) : list str * list str := (nameservers s, search_suffixes s).
Lemma dns_lists_inj a b : dns_lists a = dns_lists b → a = b.
Proof. destruct a, b. unfold dns_lists. simpl. congruence. Qed.

Lemma dns_captured w g s : dns_capture w g = Ok s → dns_at w g = Some (dns_lists s).
Proof.
  unfold dns_capture. destruct (get_dns w g) as [rc [ns sl]] eqn:E. destruct (N.eqb_spec rc 0) as [->|]; [|done].
  simpl. intros [= <-]. exact (dns_read _ _ _ _ E).
Qed.

(** At most the DNS settings of the interface [g] changed. *)
Definition dns_of w w' g : Prop := only_dns w w' ∧ ∀ g', g' ≠ g → dns_at w' g' = dns_at w g'.
Lemma dns_of_refl w g : dns_of w w g.
Proof. by split. Qed.
Lemma dns_of_trans w1 w2 w3 g : dns_of w1 w2 g → dns_of w2 w3 g → dns_of w1 w3 g.
Proof. intros [? H12] [? H23]. split; [by etrans|]. intros g' Hg. by rewrite H23, H12. Qed.
Lemma dns_call_of w g s : dns_of w (snd (set_dns_call w g s)) g.
Proof. split; [exact (dns_frame w g s)|]. intros g' Hg. by apply dns_set_elsewhere. Qed.
Lemma set_dns_of w g s :
  let out := set_dns w g s in dns_of w (fst out) g ∧ (is_ok (snd out) = false → same_dns w (fst out)).
Proof.
  unfold set_dns. destruct (_ && _).
  - set (x := dns_settings_v2_raw_flags _ _ _). pose proof (dns_call_of w g x) as Hc.
    pose proof (dns_refused w g x) as Hr. destruct (set_dns_call w g x) as [rc w']. simpl in *.
    split; [done|]. unfold set_result. destruct (N.eqb_spec rc 0); [done|]. intros _. by apply Hr.
  - set (x := dns_settings_v1 _ _). pose proof (dns_call_of w g x) as Hc.
    pose proof (dns_refused w g x) as Hr. destruct (set_dns_call w g x) as [rc w1]. simpl in *.
    destruct (N.eqb_spec rc 0) as [->|Hz]; simpl; [done|].
    set (y := dns_settings_v2_raw_flags _ _ _). pose proof (dns_call_of w1 g y) as Hc2.
    pose proof (dns_refused w1 g y) as Hr2. destruct (set_dns_call w1 g y) as [rc2 w2]. simpl in *.
    split; [by eapply dns_of_trans|]. unfold set_result. destruct (N.eqb_spec rc2 0); [done|]. intros _.
    etrans; [by apply Hr|by apply Hr2].
Qed.

Variable sha256 : list byte → array 32.
Lemma dns_apply_outcome w g desired :
  let out := dns_apply sha256 w g desired in
  dns_of w (fst out) g ∧
  match snd out with
  | Ok fp => fp = fingerprint_of sha256 desired ∧ dns_at (fst out) g = Some (dns_lists desired)
  | Err _ => True
  end.
Proof.
  unfold dns_apply. destruct (set_dns_of w g desired) as [Hd _].
  destruct (set_dns w g desired) as [w' [[]|e]]; simpl in *; [|done].
  destruct (dns_capture w' g) as [s|e] eqn:Ec; simpl; [|done].
  destruct (bool_decide (s = desired)) eqn:Eb; simpl; [|done]. apply bool_decide_eq_true in Eb as ->.
  split; [done|]. split; [done|]. by apply dns_captured.
Qed.
Lemma dns_restore_outcome w g applied original :
  let out := dns_restore sha256 w g applied original in
  dns_of w (fst out) g ∧
  (dns_at (fst out) g ≠ dns_at w g → ∃ s, dns_at w g = Some (dns_lists s) ∧ fingerprint_of sha256 s = applied) ∧
  match snd out with
  | Ok Restore =>
      ∃ s, dns_at (fst out) g = Some (dns_lists s) ∧ fingerprint_of sha256 s = fingerprint_of sha256 original
  | Ok SkipThirdPartyChange =>
      fst out = w ∧ ∃ s, dns_at w g = Some (dns_lists s) ∧ fingerprint_of sha256 s ≠ applied
  | Err _ => True
  end.
Proof.
  unfold dns_restore. destruct (dns_capture w g) as [cur|e] eqn:Ec; simpl; [|done].
  pose proof (dns_captured _ _ _ Ec) as Hc. unfold restore_decision.
  destruct (bool_decide (fingerprint_of sha256 cur = applied)) eqn:Eb; simpl.
  2:{ apply bool_decide_eq_false in Eb. split; [done|]. split; [done|]. split; [done|]. eauto. }
  apply bool_decide_eq_true in Eb. destruct (set_dns_of w g original) as [Hd _].
  assert (∃ s, dns_at w g = Some (dns_lists s) ∧ fingerprint_of sha256 s = applied) as Hx by eauto.
  destruct (set_dns w g original) as [w' [[]|e]]; simpl in *; [|done].
  destruct (dns_capture w' g) as [s|e] eqn:Ec'; simpl; [|done].
  destruct (bool_decide (_ = _)) eqn:Ev; simpl; [|done]. apply bool_decide_eq_true in Ev.
  split; [done|]. split; [done|]. exists s. split; [by apply dns_captured|done].
Qed.
End laws.

(** *** The texts of DNS settings *)

(** A server or a suffix: a text with no separator in it. *)
Definition dns_item (s : str) : Prop := s ≠ [] ∧ str_ok s ∧ Forall (λ c, is_separator c = false ∧ c ≠ 0%N) s.

Lemma split_if_word f cur w s : Forall (λ c, f c = false) w →
  split_if_from f cur (w ++ s) = split_if_from f (reverse w ++ cur) s.
Proof.
  revert cur. induction w as [|c w IH]; intros cur; [done|]. intros [Hc Hw]%Forall_cons. simpl. rewrite Hc.
  rewrite IH by done. by rewrite reverse_cons, <-app_assoc.
Qed.
Lemma split_if_join f l : f 32%N = true → Forall (λ w, w ≠ [] ∧ Forall (λ c, f c = false) w) l →
  filter (λ part, part ≠ []) (split_if_from f [] (join [32%N] l)) = l.
Proof.
  intros Hs. induction l as [|w l IH]; [done|]. intros [[Hw Hf] Hl]%Forall_cons.
  destruct l as [|v l].
  - simpl. rewrite <-(app_nil_r w) at 1. rewrite split_if_word by done. simpl.
    rewrite app_nil_r, reverse_involutive. rewrite filter_cons_True by done. done.
  - change (join [32%N] (w :: v :: l)) with (w ++ 32%N :: join [32%N] (v :: l)). rewrite split_if_word by done.
    cbn [split_if_from]. rewrite Hs, app_nil_r, reverse_involutive.
    rewrite filter_cons_True by done. f_equal. by apply IH.
Qed.
Lemma encode_utf16_no_nul s : 0%N ∉ s → 0%N ∉ encode_utf16 s.
Proof.
  intros Hs (c & Hu & Hc)%list_elem_of_bind. revert Hu. unfold utf16_char.
  destruct (_ <? _)%N eqn:E; rewrite ?elem_of_cons, ?elem_of_nil.
  - intros [<-|[]]. done.
  - generalize ((c - 0x10000) / 1024)%N, ((c - 0x10000) mod 1024)%N. intros q r [?|[?|[]]]; lia.
Qed.
Lemma join_elem sep l c : c ∈ join sep l → c ∈ sep ∨ ∃ s, s ∈ l ∧ c ∈ s.
Proof.
  induction l as [|s l IH]; [by intros ?%not_elem_of_nil|]. destruct l as [|t l].
  - simpl. intros Hc. right. exists s. split; [apply list_elem_of_here|done].
  - change (join sep (s :: t :: l)) with (s ++ sep ++ join sep (t :: l)).
    rewrite !elem_of_app. intros [Hc|[Hc|Hc]].
    + right. exists s. split; [apply list_elem_of_here|done].
    + by left.
    + destruct (IH Hc) as [?|(x & Hx & Hcx)]; [by left|]. right. exists x. split; [by apply list_elem_of_further|done].
Qed.

(** What is set as one text is read back as the list it was made of. *)
Lemma pwstr_list_join l : Forall dns_item l → pwstr_list (Some (hstring (join [32%N] l))) = l.
Proof.
  intros Hl. unfold pwstr_list, hstring. rewrite Forall_forall in Hl. rewrite until_nul_app.
  2:{ apply encode_utf16_no_nul. intros [Hc|(s & Hs & Hc)]%join_elem.
      - by apply list_elem_of_singleton in Hc.
      - destruct (Hl s Hs) as (_ & _ & Hf). rewrite Forall_forall in Hf. by destruct (Hf _ Hc). }
  rewrite from_utf16_encode.
  2:{ apply Forall_forall. intros c [Hc|(s & Hs & Hc)]%join_elem.
      - by apply list_elem_of_singleton in Hc as ->.
      - destruct (Hl s Hs) as (_ & Hok & _). unfold str_ok in Hok. rewrite Forall_forall in Hok. by apply Hok. }
  apply split_if_join; [done|]. apply Forall_forall. intros s Hs. destruct (Hl s Hs) as (? & _ & Hf).
  split; [done|]. eapply Forall_impl; [exact Hf|]. by intros c [? _].
Qed.
Lemma join_nil_items l : Forall dns_item l → join [32%N] l = [] → l = [].
Proof.
  destruct l as [|s l]; [done|]. intros [[Hs _] _]%Forall_cons. destruct l as [|t l]; simpl; [done|].
  by intros [? _]%app_eq_nil.
Qed.
Lemma show_ipv4_item a : dns_item (show_ipv4 a).
Proof.
  pose proof (show_ipv4_word a) as [Hne Hw]. pose proof (show_ipv4_numeric a) as Hn.
  split; [done|]. unfold numeric in Hn. rewrite Forall_forall in Hn, Hw.
  assert (Hc : 44%N ∉ show_ipv4 a).
  { unfold show_ipv4. rewrite !elem_of_app, !list_elem_of_singleton.
    assert (Hd : ∀ n, 44%N ∉ to_dec n) by (intros n; by apply to_dec_no_char). naive_solver. }
  split; apply Forall_forall; intros c Hin; pose proof (Hn c Hin) as Hr.
  - unfold is_scalar. rewrite (proj2 (N.ltb_lt _ _)) by lia. done.
  - split; [|lia]. unfold is_separator. rewrite Hw by done. destruct (N.eqb_spec c 44) as [->|]; [done|by rewrite orb_false_r].
Qed.
