(* ===== verification/RouteOwner.v ===== *)
(** * The network state of a connection

    The owner of the adapter and the owner of the routes in [platform_tunnel.rs] of the
    Windows engine: how the offer of the gateway is applied to the interface (address,
    MTU, the route that keeps the gateway outside, tunnel routes, DNS, system proxy), what
    is undone when a step fails, and how a disconnect gives everything back.

    The network is the class [IpHelper] of its own state, the registry the class
    [Win32Registry] of another; the journal of the proxy is the ledger of
    [ProxyJournal]. Log output is left out. *)

From Stdlib Require Import NArith ZArith Strings.Byte Strings.String Lia.
From S2P Require Import Prelude Text Utf16 Offer NativeError Registry IpHelper Routes NetSettings.
From S2P Require Import Journal WinJournal SystemProxy ProxyFamily Pac ProxyExec ProxyJournal.

(** ** Routes and their owners *)

(** win32-engine/platform_tunnel.rs:134-135 [ROUTE_METRIC] *)
Definition ROUTE_METRIC : N := 5.

(** win32-engine/platform_tunnel.rs:137-151 [parse_route_destination] *)
Definition parse_route_destination (route : str) : option (Ipv4Addr * N) :=
  p ← match split_once 47 route with
      | Some (net, prefix) => n ← parse_u8 prefix; Some (net, n)
      | None => Some (route, 32%N)
      end;
  net ← parse_ipv4 (fst p);
  if (32 <? snd p)%N then None else Some (net, snd p).

(** win32-engine/platform_tunnel.rs:153-160 [OwnedRoute] *)
Inductive OwnedRoute := OR_Effective (row : RouteRow) | OR_Pending (submitted : RouteRow).

(** win32-engine/platform_tunnel.rs:436-445 [RouteOwnershipFacts] *)
Record RouteOwnershipFacts := MkOwnership { rf_created : nat; rf_borrowed : nat; rf_pending : nat }.

(** win32-engine/platform_tunnel.rs:162-191 [record_owned_route] *)
Definition record_owned_route (installed : list OwnedRoute) (f : RouteOwnershipFacts) (outcome : RouteInstallOutcome) :
    list OwnedRoute * RouteOwnershipFacts :=
  match outcome with
  | Created actual =>
      (installed ++ [OR_Effective actual], MkOwnership (S (rf_created f)) (rf_borrowed f) (rf_pending f))
  | CreatedPending submitted _ _ =>
      (installed ++ [OR_Pending submitted], MkOwnership (rf_created f) (rf_borrowed f) (S (rf_pending f)))
  | Borrowed _ => (installed, MkOwnership (rf_created f) (S (rf_borrowed f)) (rf_pending f))
  end.

(** A failure: the step, and the error of the call if one failed. *)
Record Fault := MkFault { ft_stage : string; ft_error : option NativeError }.

(** win32-engine/platform_tunnel.rs:415-434 [PlatformFacts] *)
Record PlatformFacts := MkFacts {
  pf_address_applied : option str;
  pf_mtu_applied : option N;
  pf_routes_applied : list str;
  pf_route_ownership : RouteOwnershipFacts;
  pf_dns_applied : list str;
  pf_luid : N;
  pf_ifindex : N;
}.

(** win32-engine/platform_tunnel.rs:303-322 [RouteApplyError]; the obligations of
    [RouteCleanupObligations] are their list. *)
Record RouteApplyError := MkApplyError {
  ae_detail : Fault;
  ae_pending_routes : list OwnedRoute;
  ae_route_native_code : option N;
}.

(** win32-engine/platform_tunnel.rs:613-638 [RouteOwner], without the handle of the journal. *)
Record RouteOwner := MkRouteOwner {
  ro_luid : N;
  ro_owned_addresses : list IpAddressRow;
  ro_installed_routes : list OwnedRoute;
  ro_mtu_applied : option MtuSnapshot;
  ro_mtu_original : option MtuSnapshot;
  ro_dns_fingerprint : DnsFingerprint;
  ro_dns_original : DnsSettings;
  ro_dns_guid : N;
  ro_system_proxy : option SystemProxyApplied;
}.

Section net.
Context {W : Type} `{IpHelper W}.

(** win32-engine/platform_tunnel.rs:231-236 [remove_owned_route] *)
Definition remove_owned_route (w : W) (route : OwnedRoute) : W * result NativeError RemoveOutcome :=
  match route with
  | OR_Effective row => remove w row
  | OR_Pending submitted => remove_created_pending w submitted
  end.

(** win32-engine/platform_tunnel.rs:244-257 [retry_owned_routes_with]: the loop, with the routes
    that failed and the first error. *)
Fixpoint retry_routes (w : W) (routes : list OwnedRoute) : W * list OwnedRoute * option NativeError :=
  match routes with
  | [] => (w, [], None)
  | route :: routes =>
      match remove_owned_route w route with
      | (w, Ok _) => retry_routes w routes
      | (w, Err e) =>
          if (ne_code e =? 87)%N then retry_routes w routes
          else let '(w, failed, _) := retry_routes w routes in (w, route :: failed, Some e)
      end
  end.
(** win32-engine/platform_tunnel.rs:238-264 [retry_owned_routes_with], with [remove_owned_route] *)
Definition retry_owned_routes (w : W) (owned : list OwnedRoute) : W * list OwnedRoute * result Fault () :=
  let '(w, failed, first_error) := retry_routes w (reverse owned) in
  (w, reverse failed, match first_error with
                      | Some e => Err (MkFault "route-remove" (Some e))
                      | None => Ok ()
                      end).
(** win32-engine/platform_tunnel.rs:292-295 [RouteCleanupObligations::retry_clear] *)
Definition retry_clear (w : W) (routes : list OwnedRoute) : W * list OwnedRoute * result Fault () :=
  retry_owned_routes w routes.
(** win32-engine/platform_tunnel.rs:297-300 [RouteCleanupObligations::append] *)
Definition obligations_append (routes other : list OwnedRoute) : list OwnedRoute := routes ++ other.

(** win32-engine/platform_tunnel.rs:344-355 [luid_to_guid] *)
Definition luid_to_guid (w : W) (luid : N) : option N :=
  let '(rc, guid) := luid_to_guid_call w luid in if negb (rc =? 0)%N then None else Some guid.

(** win32-engine/platform_tunnel.rs:357-392 [disable_ipv4_dad] *)
Definition disable_ipv4_dad (w : W) (luid : N) : W * result N () :=
  let '(rc, row) := get_interface w FamV4 luid in
  if negb (rc =? 0)%N then (w, Err rc)
  else
    let '(rc, w) := set_interface w FamV4 luid (MkIfRow 0 (if_nl_mtu row) 0) in
    if negb (rc =? 0)%N then (w, Err rc) else (w, Ok ()).
(** win32-engine/platform_tunnel.rs:394-413 [enable_interface_best_effort] *)
Definition enable_interface_best_effort (w : W) (ifindex : N) : W * result N () :=
  let '(rc, _) := get_if_entry w ifindex in
  if negb (rc =? 0)%N then (w, Err rc)
  else
    let '(rc, w) := set_if_entry w ifindex 1 in
    if negb (rc =? 0)%N then (w, Err rc) else (w, Ok ()).

(** *** Applying, family by family *)

Fixpoint add_addresses (w : W) (rows : list IpAddressRow) : W * result Fault () :=
  match rows with
  | [] => (w, Ok ())
  | row :: rows =>
      match addr_apply w row with
      | (w, Ok _) => add_addresses w rows
      | (w, Err e) => (w, Err (MkFault "address-apply" (Some e)))
      end
  end.
(** win32-engine/platform_tunnel.rs:731-743 [RouteOwner::apply]: the address family, and the
    rows that are owned from then on. *)
Definition apply_address (w : W) (luid : N) (address : Ipv4Addr) (prefix : N) : W * list IpAddressRow * result Fault () :=
  match addr_capture w luid with
  | Err e => (w, [], Err (MkFault "addr-capture" (Some e)))
  | Ok captured =>
      let plan := plan_addresses captured [IpAddressRow_new address luid prefix] in
      match add_addresses w (to_add plan) with
      | (w, Err f) => (w, [], Err f)
      | (w, Ok _) => (w, to_add plan, Ok ())
      end
  end.
(** win32-engine/platform_tunnel.rs:748-757 [RouteOwner::apply]: the MTU family. *)
Definition apply_mtu (w : W) (luid mtu : N) : W * option (MtuSnapshot * MtuSnapshot) * result Fault () :=
  match mtu_capture w luid FamV4 with
  | Err e => (w, None, Err (MkFault "mtu-capture" (Some e)))
  | Ok original =>
      match mtu_apply w luid FamV4 mtu with
      | (w, Err e) => (w, None, Err (MkFault "mtu-apply" (Some e)))
      | (w, Ok _) => (w, Some (MkMtu luid FamV4 mtu, original), Ok ())
      end
  end.

(** The routes a connection owns so far, their count, and the code of the call that failed. *)
Record RouteState := MkRouteState { rs_routes : list OwnedRoute; rs_facts : RouteOwnershipFacts; rs_code : option N }.

(** win32-engine/platform_tunnel.rs:767-777 [RouteOwner::apply]: one route.
    [install_route_logged] adds log output only. *)
Definition install_one (w : W) (st : RouteState) (stage : string) (row : RouteRow) : W * RouteState * result Fault () :=
  match install_with_outcome w row with
  | (w, Err e) => (w, MkRouteState (rs_routes st) (rs_facts st) (Some (ne_code e)), Err (MkFault stage (Some e)))
  | (w, Ok outcome) =>
      let '(installed, facts) := record_owned_route (rs_routes st) (rs_facts st) outcome in
      (w, MkRouteState installed facts (rs_code st), Ok ())
  end.
(** win32-engine/platform_tunnel.rs:779-794 [RouteOwner::apply]: the tunnel routes. *)
Fixpoint install_tunnel (w : W) (st : RouteState) (luid : N) (routes : list str) : W * RouteState * result Fault () :=
  match routes with
  | [] => (w, st, Ok ())
  | route :: routes =>
      match parse_route_destination route with
      | None => (w, st, Err (MkFault "route shape" None))
      | Some (net, prefix) =>
          let row := RouteRow_new net prefix UNSPECIFIED luid ROUTE_METRIC in
          match install_one w st "route-install" row with
          | (w, st, Err f) => (w, st, Err f)
          | (w, st, Ok _) => install_tunnel w st luid routes
          end
      end
  end.
(** win32-engine/platform_tunnel.rs:759-794 [RouteOwner::apply]: the routes, the one of the
    gateway first. *)
Definition install_all (w : W) (luid : N) (bypass : option RouteRow) (routes : list str) : W * RouteState * result Fault () :=
  let st := MkRouteState [] (MkOwnership 0 0 0) None in
  match bypass with
  | None => install_tunnel w st luid routes
  | Some row =>
      match install_one w st "bypass-install" row with
      | (w, st, Err f) => (w, st, Err f)
      | (w, st, Ok _) => install_tunnel w st luid routes
      end
  end.

Variable sha256 : list byte → array 32.

(** win32-engine/platform_tunnel.rs:796-806 [RouteOwner::apply]: the DNS family. *)
Definition apply_dns (w : W) (luid : N) (servers : list Ipv4Addr) :
    W * option (DnsFingerprint * DnsSettings * N) * result Fault () :=
  match luid_to_guid w luid with
  | None => (w, None, Err (MkFault "luid-to-guid:failed" None))
  | Some guid =>
      match dns_capture w guid with
      | Err e => (w, None, Err (MkFault "dns-capture" (Some e)))
      | Ok original =>
          match dns_apply sha256 w guid (MkDns (show_ipv4 <$> servers) []) with
          | (w, Err e) => (w, None, Err (MkFault "dns-apply" (Some e)))
          | (w, Ok fp) => (w, Some (fp, original, guid), Ok ())
          end
      end
  end.

(** What the closure of [apply] leaves in the variables around it. *)
Record Progress := MkProgress {
  pr_addresses : list IpAddressRow;
  pr_routes : RouteState;
  pr_mtu : option (MtuSnapshot * MtuSnapshot);
  pr_dns : option (DnsFingerprint * DnsSettings * N);
}.
Definition no_routes : RouteState := MkRouteState [] (MkOwnership 0 0 0) None.

(** win32-engine/platform_tunnel.rs:729-806 [RouteOwner::apply]: the four network families, until
    one fails. *)
Definition apply_families (w : W) (luid ifindex : N) (offer : TunnelOffer) (campus_routes : list str)
    (bypass : option RouteRow) : W * Progress * result Fault () :=
  let '(w, owned, r) := apply_address w luid (ipv4_address offer) (prefix offer) in
  match r with
  | Err f => (w, MkProgress owned no_routes None None, Err f)
  | Ok _ =>
      let w := fst (enable_interface_best_effort w ifindex) in
      let '(w, mtu_state, r) := apply_mtu w luid (mtu offer) in
      match r with
      | Err f => (w, MkProgress owned no_routes mtu_state None, Err f)
      | Ok _ =>
          let '(w, st, r) := install_all w luid bypass (routes offer ++ campus_routes) in
          match r with
          | Err f => (w, MkProgress owned st mtu_state None, Err f)
          | Ok _ =>
              let '(w, dns_state, r) := apply_dns w luid (dns_servers offer) in
              (w, MkProgress owned st mtu_state dns_state, r)
          end
      end
  end.

(** *** Undoing *)

(** win32-engine/platform_tunnel.rs:945-950 [RouteOwner::apply]: the addresses of a failed
    apply, whatever the calls answer. *)
Definition undo_addresses (w : W) (luid : N) (owned : list IpAddressRow) : W :=
  match addr_capture w luid with
  | Err _ => w
  | Ok current => foldl (λ w row, fst (addr_delete w row)) w (restore_owned_addresses owned current)
  end.
(** win32-engine/platform_tunnel.rs:925-950 [RouteOwner::apply]: what a failed apply undoes; the
    routes that are still there. *)
Definition undo_families (w : W) (luid : N) (p : Progress) : W * list OwnedRoute :=
  let w := match pr_dns p with
           | Some (fingerprint, original, guid) => fst (dns_restore sha256 w guid fingerprint original)
           | None => w
           end in
  let '(w, pending, _) := retry_clear w (rs_routes (pr_routes p)) in
  let w := match pr_mtu p with
           | Some (applied, original) => fst (compare_and_restore w (mt_luid applied) (mt_family applied) applied original)
           | None => w
           end in
  (undo_addresses w luid (pr_addresses p), pending).

Context {R : Type} `{Win32Registry R}.

(** win32-engine/platform_tunnel.rs:684-979 [RouteOwner::apply] *)
Definition owner_apply (env : PacEnv) (w : W) (r : R) (l : Ledger) (luid ifindex : N) (offer : TunnelOffer)
    (campus_routes : list str) (bypass : option RouteRow) (core_user_sid : option str) (io : ApplyIo) :
    option (W * R * Ledger * result RouteApplyError (RouteOwner * PlatformFacts)) :=
  if (32 <? prefix offer)%N then Some (w, r, l, Err (MkApplyError (MkFault "invalid prefix" None) [] None))
  else if negb (forallb (λ route, bool_decide (is_Some (parse_route_destination route))) (routes offer ++ campus_routes)) then
    Some (w, r, l, Err (MkApplyError (MkFault "route shape" None) [] None))
  else
    let '(w, p, res) := apply_families w luid ifindex offer campus_routes bypass in
    match res with
    | Err f =>
        let '(w, pending) := undo_families w luid p in
        Some (w, r, l, Err (MkApplyError f pending (rs_code (pr_routes p))))
    | Ok _ =>
        q ← apply_proxy_family sha256 env l r core_user_sid campus_routes io;
        let '(l, r, proxy) := q in
        d ← pr_dns p;
        let '(fingerprint, original, guid) := d in
        Some (w, r, l,
          Ok (MkRouteOwner luid (pr_addresses p) (rs_routes (pr_routes p)) (fst <$> pr_mtu p) (snd <$> pr_mtu p)
                fingerprint original guid proxy,
              MkFacts (Some (show_ipv4 (ipv4_address offer) ++ 47%N :: to_dec (prefix offer))) (Some (mtu offer))
                (routes offer ++ campus_routes) (rs_facts (pr_routes p)) (show_ipv4 <$> dns_servers offer) luid ifindex))
    end.

Fixpoint delete_addresses (w : W) (rows : list IpAddressRow) : W * result Fault () :=
  match rows with
  | [] => (w, Ok ())
  | row :: rows =>
      match addr_delete w row with
      | (w, Ok _) => delete_addresses w rows
      | (w, Err e) => (w, Err (MkFault "addr-delete" (Some e)))
      end
  end.
(** win32-engine/platform_tunnel.rs:1052-1066 [RouteOwner::clear]: the MTU and the addresses. *)
Definition clear_rest (w : W) (o : RouteOwner) : W * RouteOwner * result Fault () :=
  let '(w, res) := match ro_mtu_applied o, ro_mtu_original o with
                   | Some applied, Some original =>
                       match compare_and_restore w (mt_luid applied) (mt_family applied) applied original with
                       | (w, Ok _) => (w, Ok ())
                       | (w, Err e) => (w, Err (MkFault "mtu-restore" (Some e)))
                       end
                   | _, _ => (w, Ok ())
                   end in
  match res with
  | Err f => (w, o, Err f)
  | Ok _ =>
      match addr_capture w (ro_luid o) with
      | Err e => (w, o, Err (MkFault "addr-capture" (Some e)))
      | Ok current =>
          match delete_addresses w (restore_owned_addresses (ro_owned_addresses o) current) with
          | (w, Err f) => (w, o, Err f)
          | (w, Ok _) =>
              (w, MkRouteOwner (ro_luid o) [] (ro_installed_routes o) (ro_mtu_applied o) (ro_mtu_original o)
                    (ro_dns_fingerprint o) (ro_dns_original o) (ro_dns_guid o) (ro_system_proxy o), Ok ())
          end
      end
  end.
(** win32-engine/platform_tunnel.rs:981-1068 [RouteOwner::clear] *)
Definition owner_clear (w : W) (r : R) (l : Ledger) (o : RouteOwner) (io : LedgerIo) :
    option (W * R * Ledger * RouteOwner * result Fault ()) :=
  match dns_restore sha256 w (ro_dns_guid o) (ro_dns_fingerprint o) (ro_dns_original o) with
  | (w, Err e) => Some (w, r, l, o, Err (MkFault "dns-restore" (Some e)))
  | (w, Ok _) =>
      q ← clear_proxy_family sha256 l r (ro_system_proxy o) io;
      let '(l, r, proxy, res) := q in
      let o := MkRouteOwner (ro_luid o) (ro_owned_addresses o) (ro_installed_routes o) (ro_mtu_applied o)
                 (ro_mtu_original o) (ro_dns_fingerprint o) (ro_dns_original o) (ro_dns_guid o) proxy in
      match res with
      | Err e => Some (w, r, l, o, Err (MkFault "system-proxy-restore" (Some e)))
      | Ok _ =>
          let '(w, remaining, res) := retry_owned_routes w (ro_installed_routes o) in
          let o := MkRouteOwner (ro_luid o) (ro_owned_addresses o) remaining (ro_mtu_applied o)
                     (ro_mtu_original o) (ro_dns_fingerprint o) (ro_dns_original o) (ro_dns_guid o) proxy in
          match res with
          | Err f => Some (w, r, l, o, Err f)
          | Ok _ => let '(w, o, res) := clear_rest w o in Some (w, r, l, o, res)
          end
      end
  end.
End net.

(** ** What is owned *)

Definition owned_row (r : OwnedRoute) : RouteRow := match r with OR_Effective row | OR_Pending row => row end.
Definition owned_id (r : OwnedRoute) : RouteId := route_id (owned_row r).
Definition owned_shape (r : OwnedRoute) : Prop := rr_protocol (owned_row r) = 3%N ∧ rr_interface_luid (owned_row r) ≠ 0%N.

Section ownership.
Context {W : Type} `{IpHelperLaws W}.
Implicit Types (w : W).

(** The route is in the table as it was made. *)
Definition claimed w (r : OwnedRoute) : Prop :=
  match r with
  | OR_Effective row => managed w (route_id row) = Some (rr_metric row)
  | OR_Pending row => is_Some (managed w (route_id row))
  end.
Lemma claimed_some w r : claimed w r → is_Some (managed w (owned_id r)).
Proof. destruct r; unfold owned_id; cbn [claimed owned_row]; [intros ->|]; eauto. Qed.
Lemma claimed_same w w' r : managed w' (owned_id r) = managed w (owned_id r) → claimed w' r ↔ claimed w r.
Proof. destruct r; unfold owned_id; cbn [claimed owned_row]; by intros ->. Qed.

(** The routes of management programs are the ones of [w0], and besides them exactly the
    owned ones. *)
Record owns w0 w (routes : list OwnedRoute) : Prop := {
  ow_ids : NoDup (owned_id <$> routes);
  ow_shape : Forall owned_shape routes;
  ow_new : Forall (λ r, managed w0 (owned_id r) = None) routes;
  ow_here : Forall (claimed w) routes;
  ow_rest : ∀ i, i ∉ owned_id <$> routes → managed w i = managed w0 i;
}.

Lemma owns_nil w : owns w w [].
Proof. split; [constructor|constructor|constructor|constructor|done]. Qed.
Lemma owns_none w0 w : owns w0 w [] → same_managed w0 w.
Proof. intros Ho i. apply (ow_rest _ _ _ Ho). apply not_elem_of_nil. Qed.
Lemma owns_frame w0 w w' routes : same_managed w w' → owns w0 w routes → owns w0 w' routes.
Proof.
  intros Hs [Hi Hsh Hn Hh Hr]. split; [done..| |].
  - eapply Forall_impl; [exact Hh|]. intros r. by rewrite (claimed_same w w').
  - intros i Hnot. by rewrite Hs, Hr.
Qed.
Lemma owns_before w0 w0' w routes : same_managed w0 w0' → owns w0 w routes → owns w0' w routes.
Proof.
  intros Hs [Hi Hsh Hn Hh Hr]. split; [done..| |done|].
  - eapply Forall_impl; [exact Hn|]. intros r. simpl. by rewrite Hs.
  - intros i Hnot. by rewrite Hs, Hr.
Qed.
Lemma owns_perm w0 w l l' : l ≡ₚ l' → owns w0 w l → owns w0 w l'.
Proof.
  intros Hp [Hi Hsh Hn Hh Hr]. split; [by rewrite <-Hp..|]. intros i. rewrite <-Hp. apply Hr.
Qed.

Lemma made_managed w w' i m : made w w' i m →
  managed w i = None ∧ managed w' i = Some m ∧ ∀ j, j ≠ i → managed w' j = managed w j.
Proof.
  intros [Hn Hm]. unfold managed. rewrite Hn, Hm, decide_True by done. split_and!; [done..|].
  intros j Hj. by rewrite Hm, decide_False by done.
Qed.
Lemma gone_managed w w' i : gone w w' i → managed w' i = None ∧ ∀ j, j ≠ i → managed w' j = managed w j.
Proof.
  intros Hg. unfold managed. rewrite Hg, decide_True by done. split; [done|].
  intros j Hj. by rewrite Hg, decide_False by done.
Qed.

(** A route that was just made is one more to own. *)
Lemma owns_made w0 w w' routes r m : owned_shape r → owns w0 w routes → made w w' (owned_id r) m →
  (∀ row, r = OR_Effective row → m = rr_metric row) → owns w0 w' (routes ++ [r]).
Proof.
  intros Hsh Ho (Hn & Hs & Hrest)%made_managed Hm. destruct Ho as [Hids Hshs Hnew Hhere Hr].
  assert (Hfresh : owned_id r ∉ owned_id <$> routes).
  { intros (x & Hx & Hin)%list_elem_of_fmap. rewrite Forall_forall in Hhere.
    destruct (claimed_some _ _ (Hhere x Hin)) as [y Hy]. rewrite <-Hx in Hy. congruence. }
  split.
  - rewrite fmap_app. apply NoDup_app. split_and!; [done| |apply NoDup_singleton].
    intros i Hi Hi'. apply list_elem_of_singleton in Hi' as ->. done.
  - apply Forall_app. by split; [|apply Forall_singleton].
  - apply Forall_app. split; [done|]. apply Forall_singleton. by rewrite <-Hr.
  - apply Forall_app. split.
    + rewrite Forall_forall in *. intros x Hx. rewrite (claimed_same w w'); [by apply Hhere|].
      apply Hrest. intros Heq. apply Hfresh. rewrite <-Heq. by apply list_elem_of_fmap_2.
    + apply Forall_singleton. unfold owned_id in Hs. destruct r; cbn [claimed owned_row] in *; rewrite Hs; [|eauto].
      f_equal. by apply Hm.
  - intros i. rewrite fmap_app, elem_of_app, fmap_cons, fmap_nil, list_elem_of_singleton. intros [Hi Hne]%Decidable.not_or.
    rewrite Hrest by done. by apply Hr.
Qed.

(** Removing an owned route: it is gone, or it is still owned. *)
Lemma remove_owned w0 w pre r post : owns w0 w (pre ++ r :: post) →
  let out := remove_owned_route w r in
  only_routes w (fst out) ∧
  match snd out with
  | Ok _ => owns w0 (fst out) (pre ++ post)
  | Err e => ne_code e ≠ 87%N ∧ owns w0 (fst out) (pre ++ r :: post)
  end.
Proof.
  intros Ho. pose proof (ow_shape _ _ _ Ho) as Hsh. pose proof (ow_here _ _ _ Ho) as Hh.
  apply Forall_app in Hsh as [_ [[Hp Hl] _]%Forall_cons], Hh as [_ [Hr _]%Forall_cons].
  assert (Hgone : ∀ w', gone w w' (owned_id r) → owns w0 w' (pre ++ post)).
  { intros w' [Hn Hrest]%gone_managed. destruct Ho as [Hids Hshs Hnew Hhere Hro].
    rewrite fmap_app, fmap_cons in Hids. rewrite Forall_app, Forall_cons in Hshs, Hnew, Hhere.
    apply NoDup_app in Hids as (N1 & N12 & [N2 N3]%NoDup_cons).
    assert (Hne : ∀ x, x ∈ pre ++ post → owned_id x ≠ owned_id r).
    { intros x [Hx|Hx]%elem_of_app Heq.
      - apply (N12 (owned_id x)); [by apply list_elem_of_fmap_2|]. rewrite Heq. apply list_elem_of_here.
      - apply N2. rewrite <-Heq. by apply list_elem_of_fmap_2. }
    split.
    - rewrite fmap_app. apply NoDup_app. split_and!; [done| |done]. intros i Hi Hi'.
      apply (N12 i); [done|]. by apply list_elem_of_further.
    - rewrite Forall_app. naive_solver.
    - rewrite Forall_app. naive_solver.
    - assert (Forall (claimed w) (pre ++ post)) as Hc by (rewrite Forall_app; naive_solver).
      rewrite Forall_forall in *. intros x Hx. rewrite (claimed_same w w'); [by apply Hc|]. by apply Hrest, Hne.
    - intros i. rewrite fmap_app, elem_of_app. intros [Hi1 Hi2]%Decidable.not_or.
      destruct (decide (i = owned_id r)) as [->|Hi].
      + rewrite Hn. symmetry. by destruct Hnew as (_ & ? & _).
      + rewrite Hrest by done. apply Hro. rewrite fmap_app, fmap_cons, elem_of_app, elem_of_cons. naive_solver. }
  unfold owned_id in Hgone. destruct r as [row|row]; cbn [claimed owned_row remove_owned_route] in *.
  - apply holds_netmgmt in Hr as Hh; [|done]. destruct (remove_outcome w row) as [Hf Ho'].
    destruct (remove w row) as [w' [[|]|e]]; simpl in *; (split; [done|]).
    + apply Hgone. by destruct Ho'.
    + destruct Ho' as [-> Hn]. destruct Hh as (p & Hh & _). by rewrite Hn in Hh.
    + destruct Ho' as [Hs Hc]. split; [by intros ?; apply Hc|]. eapply owns_frame; [|done]. by apply same_routes_managed.
  - destruct (remove_pending_outcome w row Hp) as [Hf Ho'].
    destruct (remove_created_pending w row) as [w' [[|]|e]]; simpl in *; (split; [done|]).
    + apply Hgone. by destruct Ho'.
    + destruct Ho' as [_ Hn]. rewrite Hn in Hr. by destruct Hr.
    + destruct Ho' as [Hs Hc]. split; [|eapply owns_frame; [|done]; by apply same_routes_managed].
      intros He. rewrite Hc in Hr by done. by destruct Hr.
Qed.

Lemma retry_routes_owns w0 l : ∀ pre w, owns w0 w (pre ++ l) →
  let out := retry_routes w l in
  only_routes w (fst (fst out)) ∧ owns w0 (fst (fst out)) (pre ++ snd (fst out)) ∧
  (snd out = None → snd (fst out) = []).
Proof.
  induction l as [|r l IH]; intros pre w Ho; simpl; [done|].
  destruct (remove_owned w0 w pre r l Ho) as [Hf Hr].
  destruct (remove_owned_route w r) as [w' [x|e]]; simpl in *.
  - destruct (IH pre w' Hr) as (Hf' & ? & ?). split; [by etrans|done].
  - destruct Hr as [Hne Hr]. destruct (N.eqb_spec (ne_code e) 87); [done|].
    rewrite (cons_middle r pre l) in Hr. destruct (IH (pre ++ [r]) w') as (Hf' & Ho' & _); [by rewrite <-app_assoc|].
    destruct (retry_routes w' l) as [[w2 failed] first]. simpl in *. split_and!; [by etrans| |done].
    by rewrite <-app_assoc in Ho'.
Qed.

(** Giving the owned routes back leaves owned exactly the ones that could not be removed. *)
Lemma retry_owned_routes_owns w0 w routes : owns w0 w routes →
  let out := retry_owned_routes w routes in
  only_routes w (fst (fst out)) ∧ owns w0 (fst (fst out)) (snd (fst out)) ∧
  (is_ok (snd out) = true → snd (fst out) = []).
Proof.
  intros Ho. unfold retry_owned_routes.
  destruct (retry_routes_owns w0 (reverse routes) [] w) as (Hf & Ho' & Hn).
  { eapply owns_perm; [|done]. by rewrite reverse_Permutation. }
  destruct (retry_routes w (reverse routes)) as [[w' failed] first]. simpl in *. split_and!; [done| |].
  - eapply owns_perm; [|exact Ho']. by rewrite reverse_Permutation.
  - destruct first; [done|]. intros _. by rewrite Hn.
Qed.

(** ** Applying *)

Lemma plan_one captured row : to_add (plan_addresses captured [row]) = if existsb (λ c, same_identity c row) captured then [] else [row].
Proof.
  unfold plan_addresses. simpl. destruct (existsb _ captured) eqn:E.
  - by rewrite filter_cons_False, filter_nil by (rewrite E; done).
  - by rewrite filter_cons_True, filter_nil by done.
Qed.

(** The address of the connection is there, and owned if it was not there before. *)
Definition addressed w w' (row : IpAddressRow) (owned : list IpAddressRow) : Prop :=
  (owned = [] ∧ same_addrs w w') ∨
  (owned = [row] ∧ addr_at w (addr_id row) = None ∧
   ∀ j, addr_at w' j = if decide (j = addr_id row) then Some (addr_value row) else addr_at w j).
Lemma apply_address_outcome w luid address prefix :
  let out := apply_address w luid address prefix in
  only_addrs w (fst (fst out)) ∧
  addressed w (fst (fst out)) (IpAddressRow_new address luid prefix) (snd (fst out)).
Proof.
  unfold apply_address. destruct (addr_capture w luid) as [captured|e] eqn:Ec.
  2:{ split; [done|]. by left. }
  set (row := IpAddressRow_new address luid prefix). cbv zeta. rewrite plan_one.
  destruct (existsb _ captured) eqn:Ex; simpl; [split; [done|by left]|].
  destruct (addr_apply_outcome w row) as [Hf Ho]. destruct (addr_apply w row) as [w' [[|]|e]]; simpl in *.
  - split; [done|]. right. by destruct Ho.
  - exfalso. destruct Ho as [[x Hx] _]. destruct (addr_all_captured _ _ _ _ _ Ec Hx eq_refl) as (c & Hc & Hid & _).
    apply not_true_iff_false in Ex. apply Ex, existsb_exists. exists c. split; [by apply list_elem_of_In|].
    by apply same_identity_spec.
  - split; [done|]. by left.
Qed.

Definition same_net w w' : Prop := same_managed w w' ∧ same_addrs w w' ∧ same_mtus w w' ∧ same_dns w w'.
Lemma enable_same w ifindex : same_net w (fst (enable_interface_best_effort w ifindex)).
Proof.
  unfold enable_interface_best_effort. destruct (get_if_entry w ifindex) as [rc s].
  destruct (negb _); [by split_and!|]. pose proof (if_entry_frame w ifindex 1) as Hf.
  destruct (set_if_entry w ifindex 1) as [rc' w']. simpl in *. by destruct (negb _).
Qed.

Lemma apply_mtu_outcome w luid v :
  let out := apply_mtu w luid v in
  only_mtus w (fst (fst out)) ∧
  match snd out with
  | Ok _ => ∃ old, mtu_at w luid FamV4 = Some old ∧ old ≠ 0%N ∧
      snd (fst out) = Some (MkMtu luid FamV4 v, MkMtu luid FamV4 old) ∧ mtu_now w (fst (fst out)) luid FamV4 v
  | Err _ => snd (fst out) = None ∧ same_mtus w (fst (fst out))
  end.
Proof.
  unfold apply_mtu. destruct (mtu_capture w luid FamV4) as [s|e] eqn:Ec; simpl; [|done].
  destruct (mtu_captured _ _ _ _ Ec) as (Hs & Hz & ->). simpl in *.
  destruct (mtu_apply_outcome w luid FamV4 v) as [Hf Ho].
  destruct (mtu_apply w luid FamV4 v) as [w' [[]|e]]; simpl in *; [|done]. eauto 8.
Qed.

Lemma install_one_owns w0 w st stage row : owns w0 w (rs_routes st) → owned_shape (OR_Pending row) → hop_kept w row →
  let out := install_one w st stage row in
  only_routes w (fst (fst out)) ∧ owns w0 (fst (fst out)) (rs_routes (snd (fst out))).
Proof.
  intros Ho [Hp Hl] Hk. simpl in Hp, Hl. unfold install_one. destruct (install_outcome w row Hp Hk) as [Hf Hi].
  destruct (install_with_outcome w row) as [w' [[a|s e1 e2|b]|e]]; simpl in *; (split; [done|]).
  - destruct Hi as (Hid & Hpa & Hm). eapply owns_made; [|done| |by intros ? [= ->]].
    + split; simpl; [done|]. unfold route_id in Hid. congruence.
    + unfold owned_id. cbn [owned_row]. by rewrite Hid.
  - destruct Hi as (-> & m & Hm). eapply owns_made; [by split|done|exact Hm|done].
  - eapply owns_frame; [|done]. apply same_routes_managed. by destruct Hi.
  - eapply owns_frame; [|done]. by apply same_routes_managed.
Qed.
Lemma install_tunnel_owns w0 luid routes : luid ≠ 0%N → ∀ w st, owns w0 w (rs_routes st) →
  let out := install_tunnel w st luid routes in
  only_routes w (fst (fst out)) ∧ owns w0 (fst (fst out)) (rs_routes (snd (fst out))).
Proof.
  intros Hl. induction routes as [|route routes IH]; intros w st Ho; simpl; [done|].
  destruct (parse_route_destination route) as [[net p]|]; simpl; [|done].
  set (row := RouteRow_new _ _ _ _ _). destruct (install_one_owns w0 w st "route-install" row) as [Hf Ho'];
    [done|by split|by left|].
  destruct (install_one w st "route-install" row) as [[w' st'] [[]|f]]; simpl in *; [|done].
  destruct (IH w' st' Ho') as [? ?]. split; [by etrans|done].
Qed.

(** The row that keeps the gateway outside is a route of another interface than the
    tunnel's, through a next hop that is not the machine itself. *)
Definition bypass_ok w luid (bypass : option RouteRow) : Prop :=
  match bypass with
  | Some row => owned_shape (OR_Pending row) ∧ hop_kept w row ∧ rr_interface_luid row ≠ luid
  | None => True
  end.
Lemma install_all_owns w luid bypass routes : luid ≠ 0%N → bypass_ok w luid bypass →
  let out := install_all w luid bypass routes in
  only_routes w (fst (fst out)) ∧ owns w (fst (fst out)) (rs_routes (snd (fst out))).
Proof.
  intros Hl Hb. unfold install_all. destruct bypass as [row|]; [|apply install_tunnel_owns; [done|apply owns_nil]].
  destruct Hb as (Hs & Hk & _). destruct (install_one_owns w w (MkRouteState [] (MkOwnership 0 0 0) None) "bypass-install" row) as [Hf Ho];
    [apply owns_nil|done..|].
  destruct (install_one _ _ _ _) as [[w' st'] [[]|f]]; simpl in *; [|done].
  destruct (install_tunnel_owns w luid routes Hl w' st' Ho) as [? ?]. split; [by etrans|done].
Qed.
Lemma bypass_ok_frame w w' luid bypass : (∀ j, j.2 ≠ luid → addr_at w' j = addr_at w j) →
  bypass_ok w luid bypass → bypass_ok w' luid bypass.
Proof.
  intros Ha. destruct bypass as [row|]; simpl; [|done]. intros (Hs & Hk & Hl). split_and!; [done| |done].
  unfold hop_kept in *. by rewrite Ha.
Qed.

Variable sha256 : list byte → array 32.

Lemma apply_dns_outcome w luid servers :
  let out := apply_dns sha256 w luid servers in
  only_dns w (fst (fst out)) ∧
  match snd out with
  | Ok _ => ∃ g original, snd (fst out) = Some (fingerprint_of sha256 (MkDns (show_ipv4 <$> servers) []), original, g) ∧
      dns_of w (fst (fst out)) g ∧ dns_at w g = Some (dns_lists original) ∧
      dns_at (fst (fst out)) g = Some (show_ipv4 <$> servers, [])
  | Err _ => snd (fst out) = None
  end.
Proof.
  unfold apply_dns. destruct (luid_to_guid w luid) as [g|]; simpl; [|done].
  destruct (dns_capture w g) as [original|e] eqn:Ec; simpl; [|done].
  destruct (dns_apply_outcome sha256 w g (MkDns (show_ipv4 <$> servers) [])) as [Hd Ho].
  destruct (dns_apply _ _ _ _) as [w' [fp|e]]; simpl in *; (split; [apply Hd|]); [|done].
  destruct Ho as [-> Ho]. exists g, original. split_and!; [done..| |done]. by apply dns_captured.
Qed.

(** *** The four families *)

Lemma addressed_frame w w1 w2 row owned : same_addrs w1 w2 → addressed w w1 row owned → addressed w w2 row owned.
Proof.
  intros Hs [[-> Ha]|(-> & Hn & Ha)]; [left; by split; [|etrans]|].
  right. split_and!; [done..|]. intros j. by rewrite Hs, Ha.
Qed.
Lemma addressed_elsewhere w w' row owned j : addressed w w' row owned → j.2 ≠ ia_interface_luid row → addr_at w' j = addr_at w j.
Proof. intros [[_ Ha]|(_ & _ & Ha)] Hj; rewrite Ha; [done|]. rewrite decide_False; [done|]. by intros ->. Qed.
Lemma mtu_now_frame w w1 w2 w' luid f v : same_mtus w w1 → same_mtus w2 w' → mtu_now w1 w2 luid f v → mtu_now w w' luid f v.
Proof. intros Ha Hb Hn l' f'. by rewrite Hb, Hn, Ha. Qed.

(** The address, the MTU and the DNS servers of an offer are applied, and what they were
    before is known. *)
Record applied w w' luid (offer : TunnelOffer) (p : Progress) : Prop := {
  ap_address : addressed w w' (IpAddressRow_new (ipv4_address offer) luid (prefix offer)) (pr_addresses p);
  ap_mtu : ∃ old, mtu_at w luid FamV4 = Some old ∧ old ≠ 0%N ∧
    pr_mtu p = Some (MkMtu luid FamV4 (mtu offer), MkMtu luid FamV4 old) ∧ mtu_now w w' luid FamV4 (mtu offer);
  ap_dns : ∃ g original,
    pr_dns p = Some (fingerprint_of sha256 (MkDns (show_ipv4 <$> dns_servers offer) []), original, g) ∧
    (∀ g', g' ≠ g → dns_at w' g' = dns_at w g') ∧ dns_at w g = Some (dns_lists original) ∧
    dns_at w' g = Some (show_ipv4 <$> dns_servers offer, []);
}.

Lemma families_outcome w luid ifindex offer campus_routes bypass : luid ≠ 0%N → bypass_ok w luid bypass →
  let out := apply_families sha256 w luid ifindex offer campus_routes bypass in
  owns w (fst (fst out)) (rs_routes (pr_routes (snd (fst out)))) ∧
  match snd out with Ok _ => applied w (fst (fst out)) luid offer (snd (fst out)) | Err _ => True end.
Proof.
  intros Hl Hb. unfold apply_families.
  destruct (apply_address_outcome w luid (ipv4_address offer) (prefix offer)) as [(A1 & A2 & A3) Ha].
  destruct (apply_address w luid (ipv4_address offer) (prefix offer)) as [[wa owned] [[]|f]]; simpl in *.
  2:{ split; [|done]. eapply owns_frame; [exact A1|apply owns_nil]. }
  destruct (enable_same wa ifindex) as (E1 & E2 & E3 & E4).
  destruct (enable_interface_best_effort wa ifindex) as [we re]. simpl in *. clear re.
  destruct (apply_mtu_outcome we luid (mtu offer)) as [(M1 & M2 & M3) Hm].
  destruct (apply_mtu we luid (mtu offer)) as [[wm st] [[]|f]]; simpl in *.
  2:{ split; [|done]. eapply owns_frame; [|apply owns_nil]. by do 2 (etrans; [eassumption|]). }
  assert (Hsame : same_managed w wm) by (by do 2 (etrans; [eassumption|])).
  assert (Hb' : bypass_ok wm luid bypass).
  { eapply bypass_ok_frame; [|exact Hb]. intros j Hj. rewrite M2, E2. by eapply addressed_elsewhere. }
  destruct (install_all_owns wm luid bypass (routes offer ++ campus_routes) Hl Hb') as [(R1 & R2 & R3) Hr].
  apply (owns_before wm w) in Hr; [|by symmetry].
  destruct (install_all wm luid bypass (routes offer ++ campus_routes)) as [[wr rs] [[]|f]]; simpl in *; [|done].
  destruct (apply_dns_outcome wr luid (dns_servers offer)) as [(D1 & D2 & D3) Hd].
  destruct (apply_dns sha256 wr luid (dns_servers offer)) as [[wd ds] [[]|f]]; simpl in *.
  2:{ split; [|done]. by eapply owns_frame. }
  split; [by eapply owns_frame|].
  assert (Sn1 : same_addrs wa wd) by (by do 3 (etrans; [eassumption|])).
  assert (Sn2 : same_mtus w we) by (by etrans).
  assert (Sn3 : same_mtus wm wd) by (by etrans).
  assert (Sn4 : same_dns w wr) by (by do 3 (etrans; [eassumption|])).
  split; simpl.
  - by eapply addressed_frame.
  - destruct Hm as (old & Ho & Hz & -> & Hn). exists old. rewrite <-(Sn2 luid FamV4). split_and!; [done..|].
    by eapply mtu_now_frame.
  - destruct Hd as (g & original & -> & [_ Hg] & Ho & Hnew). exists g, original. rewrite <-(Sn4 g).
    split_and!; [done| |done..]. intros g' Hne. by rewrite Hg, Sn4.
Qed.

(** ** Undoing *)

Lemma undo_addresses_only w luid owned : only_addrs w (undo_addresses w luid owned).
Proof.
  unfold undo_addresses. destruct (addr_capture w luid) as [current|]; [|done].
  generalize (restore_owned_addresses owned current). intros l. revert w.
  induction l as [|row l IH]; intros w; simpl; [done|].
  destruct (addr_delete_outcome w row) as [Hf _]. etrans; [exact Hf|apply IH].
Qed.
Lemma undo_families_owns w0 w luid p : owns w0 w (rs_routes (pr_routes p)) →
  let out := undo_families sha256 w luid p in owns w0 (fst out) (snd out).
Proof.
  intros Ho. unfold undo_families.
  set (wd := match pr_dns p with Some _ => _ | None => w end).
  assert (Hd : same_managed w wd).
  { unfold wd. destruct (pr_dns p) as [[[fp original] g]|]; [|done].
    destruct (dns_restore_outcome sha256 w g fp original) as [[(? & _) _] _]. done. }
  destruct (retry_owned_routes_owns w0 wd (rs_routes (pr_routes p))) as (_ & Hr & _); [by eapply owns_frame|].
  unfold retry_clear. destruct (retry_owned_routes wd _) as [[wr pending] res]. simpl in *.
  eapply owns_frame; [apply undo_addresses_only|].
  destruct (pr_mtu p) as [[applied_ original]|]; [|done].
  destruct (mtu_restore_outcome wr (mt_luid applied_) (mt_family applied_) applied_ original) as [(? & _) _].
  by eapply owns_frame.
Qed.

Lemma delete_addresses_outcome rows : ∀ w,
  let out := delete_addresses w rows in
  only_addrs w (fst out) ∧
  (∀ j, addr_at (fst out) j = addr_at w j ∨ (addr_at (fst out) j = None ∧ ∃ r, r ∈ rows ∧ addr_id r = j)) ∧
  (is_ok (snd out) = true → ∀ r, r ∈ rows → addr_at (fst out) (addr_id r) = None).
Proof.
  induction rows as [|row rows IH]; intros w; simpl.
  { split_and!; [done|by left|]. intros _ r Hr. by apply not_elem_of_nil in Hr. }
  destruct (addr_delete_outcome w row) as [Hf Ho]. destruct (addr_delete w row) as [w1 [[]|e]]; simpl in *.
  2:{ split_and!; [done| |done]. intros j. left. by rewrite Ho. }
  destruct (IH w1) as (Hf2 & Hj & Hr). split_and!; [by etrans| |].
  - intros j. destruct (Hj j) as [->|[-> (r & Hin & <-)]].
    + rewrite Ho. case_decide; [|by left]. subst j. right. split; [done|]. exists row.
      split; [apply list_elem_of_here|done].
    + right. split; [done|]. exists r. split; [by apply list_elem_of_further|done].
  - intros Hok r [->|Hin]%elem_of_cons; [|by apply Hr].
    destruct (Hj (addr_id row)) as [->|[-> _]]; [|done]. by rewrite Ho, decide_True.
Qed.
Lemma restored_addresses w luid owned current : addr_capture w luid = Ok current →
  ∀ r, r ∈ restore_owned_addresses owned current → r ∈ owned ∧ addr_at w (addr_id r) = Some (addr_value r).
Proof.
  intros Hc r [Hx Hin]%list_elem_of_filter. split; [done|]. apply existsb_exists in Hx as (c & Hcin & Hf).
  apply same_fingerprint_spec in Hf as [<- <-]. apply list_elem_of_In in Hcin.
  by destruct (addr_captured _ _ _ _ Hc Hcin).
Qed.
(** Clearing the address of the connection gives back the addresses there were. *)
Lemma addressed_cleared w w' row owned current : addressed w w' row owned →
  addr_capture w' (ia_interface_luid row) = Ok current →
  let out := delete_addresses w' (restore_owned_addresses owned current) in
  is_ok (snd out) = true → same_addrs w (fst out).
Proof.
  intros Ha Hc out Hok. destruct (delete_addresses_outcome (restore_owned_addresses owned current) w') as (_ & Hj & Hr).
  fold out in Hj, Hr. specialize (Hr Hok). intros j. destruct Ha as [[-> Ha]|(-> & Hn & Ha)].
  - destruct (Hj j) as [->|[_ (r & Hin & _)]]; [by rewrite Ha|]. by apply not_elem_of_nil in Hin.
  - assert (Hin : row ∈ restore_owned_addresses [row] current).
    { apply list_elem_of_filter. split; [|apply list_elem_of_here]. apply existsb_exists.
      destruct (addr_all_captured w' (ia_interface_luid row) current (addr_id row) (addr_value row)) as (c & Hin & Hi & Hv);
        [done|by rewrite Ha, decide_True|done|].
      exists c. split; [by apply list_elem_of_In|]. by apply same_fingerprint_spec. }
    destruct (decide (j = addr_id row)) as [->|Hne].
    + rewrite Hn. by apply Hr.
    + destruct (Hj j) as [->|[_ (r & Hr' & <-)]]; [by rewrite Ha, decide_False|].
      destruct (restored_addresses _ _ _ _ Hc r Hr') as [->%list_elem_of_singleton _]. done.
Qed.

Context {R : Type} `{Win32Registry R}.

(** What was applied is owned, by the owner or by the error. *)
Lemma apply_owns env w (r : R) l luid ifindex offer campus_routes bypass sid io w' r' l' res :
  luid ≠ 0%N → bypass_ok w luid bypass →
  owner_apply sha256 env w r l luid ifindex offer campus_routes bypass sid io = Some (w', r', l', res) →
  owns w w' (match res with Ok (o, _) => ro_installed_routes o | Err e => ae_pending_routes e end) ∧
  (is_ok res = false → r' = r ∧ l' = l).
Proof.
  intros Hl Hb Ha. unfold owner_apply in Ha.
  destruct (32 <? prefix offer)%N; [simplify_eq/=; split_and!; [apply owns_nil|done..]|].
  destruct (negb _); [simplify_eq/=; split_and!; [apply owns_nil|done..]|].
  destruct (families_outcome w luid ifindex offer campus_routes bypass Hl Hb) as [Ho _].
  destruct (apply_families _ _ _ _ _ _ _) as [[w1 p] [[]|f]]; simpl in Ho.
  - destruct (apply_proxy_family _ _ _ _ _ _ _) as [[[l2 r2] proxy]|]; [|done]. simpl in Ha.
    destruct (pr_dns p) as [[[fp original] g]|]; simplify_eq/=. done.
  - pose proof (undo_families_owns w w1 luid p Ho) as Hu. destruct (undo_families sha256 w1 luid p) as [w2 pending].
    by simplify_eq/=.
Qed.

(** C23: A connection that could not be made, whatever the system answers and at whichever
    step it failed, leaves no route of its own behind that is not handed over for a later
    attempt to remove it: every management route that differs from before the attempt is
    among the pending ones of the error and is there as the attempt made it, none is if
    nothing is pending, and the proxy settings and their journal are as before. The tunnel
    has an interface, and the route that keeps the gateway outside, where there is one, is a
    management route of another interface whose next hop is not an address of that interface
    itself: the system would replace such a hop by none, and nobody would find the route
    again. *)
Theorem failed_connect_owns_routes env w (r : R) l luid ifindex offer campus_routes bypass sid io w' r' l' e :
  luid ≠ 0%N → bypass_ok w luid bypass →
  owner_apply sha256 env w r l luid ifindex offer campus_routes bypass sid io = Some (w', r', l', Err e) →
  (∀ i, managed w' i ≠ managed w i → ∃ o, o ∈ ae_pending_routes e ∧ owned_id o = i ∧ claimed w' o) ∧
  (ae_pending_routes e = [] → same_managed w w') ∧ r' = r ∧ l' = l.
Proof.
  intros Hl Hb Ha.
  destruct (apply_owns _ _ _ _ _ _ _ _ _ _ _ _ _ _ _ Hl Hb Ha) as [Ho Hrest]. destruct (Hrest eq_refl) as [-> ->].
  split_and!; [|by intros Hn; rewrite Hn in Ho; apply owns_none|done..].
  intros i Hne. destruct (decide (i ∈ owned_id <$> ae_pending_routes e)) as [Hin|Hnot].
  - apply list_elem_of_fmap in Hin as (o & -> & Hin). exists o. split_and!; [done..|].
    pose proof (ow_here _ _ _ Ho) as Hh. rewrite Forall_forall in Hh. by apply Hh.
  - by rewrite (ow_rest _ _ _ Ho) in Hne.
Qed.

(** ** Disconnecting *)

(** Restoring the MTU after an apply gives back the one there was. *)
Lemma mtu_cleared w w1 luid old v : mtu_at w luid FamV4 = Some old → old ≠ 0%N → mtu_now w w1 luid FamV4 v →
  let out := compare_and_restore w1 luid FamV4 (MkMtu luid FamV4 v) (MkMtu luid FamV4 old) in
  is_ok (snd out) = true → same_mtus w (fst out).
Proof.
  intros Hold Hz Hn out Hok. destruct (mtu_restore_outcome w1 luid FamV4 (MkMtu luid FamV4 v) (MkMtu luid FamV4 old)) as [_ Ho].
  fold out in Ho. destruct (snd out) as [[|]|]; simpl in *; [| |done].
  - destruct Ho as [_ Ho]. intros l f. rewrite Ho, Hn.
    case_decide as Hd; [destruct Hd as (-> & -> & _); by rewrite Hold|].
    rewrite decide_False; [done|]. intros (-> & -> & ?). by apply Hd.
  - destruct Ho as [-> Hne]. intros l f. rewrite Hn. rewrite decide_False; [done|]. intros (-> & -> & Hv).
    apply Hne. by rewrite Hn, decide_True.
Qed.

(** The owner of a connection: what it made is there, and what was there before is known. *)
Record connected w0 w (o : RouteOwner) (offer : TunnelOffer) : Prop := {
  cn_routes : owns w0 w (ro_installed_routes o);
  cn_address : addressed w0 w (IpAddressRow_new (ipv4_address offer) (ro_luid o) (prefix offer)) (ro_owned_addresses o);
  cn_mtu : ∃ old, mtu_at w0 (ro_luid o) FamV4 = Some old ∧ old ≠ 0%N ∧
    ro_mtu_applied o = Some (MkMtu (ro_luid o) FamV4 (mtu offer)) ∧
    ro_mtu_original o = Some (MkMtu (ro_luid o) FamV4 old) ∧ mtu_now w0 w (ro_luid o) FamV4 (mtu offer);
  cn_fingerprint : ro_dns_fingerprint o = fingerprint_of sha256 (MkDns (show_ipv4 <$> dns_servers offer) []);
  cn_dns_rest : ∀ g, g ≠ ro_dns_guid o → dns_at w g = dns_at w0 g;
  cn_dns_before : dns_at w0 (ro_dns_guid o) = Some (dns_lists (ro_dns_original o));
  cn_dns : dns_at w (ro_dns_guid o) = Some (show_ipv4 <$> dns_servers offer, []);
}.
Lemma apply_connected env w (r : R) l luid ifindex offer campus_routes bypass sid io w' r' l' o facts :
  luid ≠ 0%N → bypass_ok w luid bypass →
  owner_apply sha256 env w r l luid ifindex offer campus_routes bypass sid io = Some (w', r', l', Ok (o, facts)) →
  connected w w' o offer ∧ ro_luid o = luid.
Proof.
  intros Hl Hb Ha. unfold owner_apply in Ha. destruct (32 <? prefix offer)%N; [done|]. destruct (negb _); [done|].
  destruct (families_outcome w luid ifindex offer campus_routes bypass Hl Hb) as [Ho Hap].
  destruct (apply_families _ _ _ _ _ _ _) as [[w1 p] [[]|f]]; simpl in Ho, Hap.
  2:{ destruct (undo_families _ _ _ _). simplify_eq/=. }
  destruct (apply_proxy_family _ _ _ _ _ _ _) as [[[l2 r2] proxy]|]; [|done]. simpl in Ha.
  destruct Hap as [Haddr (old & ? & ? & Hm & ?) (g & original & Hd & ? & ? & ?)]. rewrite Hd, Hm in Ha. simplify_eq/=.
  split; [|done]. split; simpl; eauto 8.
Qed.

(** What a disconnect that succeeds gives back. *)
Lemma clear_connected w0 w (r : R) l o offer io w' r' l' o' : connected w0 w o offer →
  owner_clear sha256 w r l o io = Some (w', r', l', o', Ok ()) →
  same_managed w0 w' ∧ same_addrs w0 w' ∧ same_mtus w0 w' ∧
  (∀ g, g ≠ ro_dns_guid o → dns_at w' g = dns_at w0 g) ∧
  (∃ s, dns_at w' (ro_dns_guid o) = Some (dns_lists s) ∧
        fingerprint_of sha256 s = fingerprint_of sha256 (ro_dns_original o)) ∧
  ro_installed_routes o' = [] ∧ ro_owned_addresses o' = [].
Proof.
  intros [Ho Haddr (old & Hold & Hz & Hma & Hmo & Hn) Hfp Hdr Hdb Hd] Hc. unfold owner_clear in Hc.
  destruct (dns_restore_outcome sha256 w (ro_dns_guid o) (ro_dns_fingerprint o) (ro_dns_original o)) as ([(D1 & D2 & D3) De] & _ & Do).
  destruct (dns_restore _ _ _ _ _) as [wd [dec|e]]; [|done]. simpl in *.
  assert (Hs : ∃ s, dns_at wd (ro_dns_guid o) = Some (dns_lists s) ∧
                    fingerprint_of sha256 s = fingerprint_of sha256 (ro_dns_original o)).
  { destruct dec; [done|]. destruct Do as (-> & s & Hs & Hne). rewrite Hd in Hs. exfalso. apply Hne. rewrite Hfp. f_equal.
    apply dns_lists_inj. by simplify_eq. }
  destruct (clear_proxy_family _ _ _ _ _) as [[[[l2 r2] proxy] [[]|e]]|]; [|done..]. simpl in Hc.
  destruct (retry_owned_routes_owns w0 wd (ro_installed_routes o)) as ((R1 & R2 & R3) & Hr & Hrok); [by eapply owns_frame|].
  destruct (retry_owned_routes wd (ro_installed_routes o)) as [[wr remaining] [[]|f]]; [|done]. simpl in *.
  rewrite Hrok in Hr, Hc by done. apply owns_none in Hr.
  unfold clear_rest in Hc. simpl in Hc. rewrite Hma, Hmo in Hc. simpl in Hc.
  pose proof (mtu_restore_outcome wr (ro_luid o) FamV4 (MkMtu (ro_luid o) FamV4 (mtu offer)) (MkMtu (ro_luid o) FamV4 old)) as [(M1 & M2 & M3) _].
  pose proof (mtu_cleared w0 wr (ro_luid o) old (mtu offer) Hold Hz) as Hmc.
  destruct (compare_and_restore _ _ _ _ _) as [wm [out|e]]; [|done]. simpl in *.
  destruct (addr_capture wm (ro_luid o)) as [current|e] eqn:Ec; [|done].
  assert (Hsa : same_addrs w wm) by (by do 2 (etrans; [eassumption|])).
  pose proof (addressed_cleared w0 wm _ _ current (addressed_frame _ _ _ _ _ Hsa Haddr) Ec) as Hac.
  destruct (delete_addresses_outcome (restore_owned_addresses (ro_owned_addresses o) current) wm) as ((A1 & A2 & A3) & _).
  destruct (delete_addresses _ _) as [wa [[]|f]]; simplify_eq/=. split_and!.
  - by do 2 (etrans; [eassumption|]).
  - by apply Hac.
  - etrans; [|eassumption]. apply Hmc; [|done]. eapply mtu_now_frame; [reflexivity| |exact Hn]. by etrans.
  - intros g Hg. by rewrite A3, M3, R3, De, Hdr.
  - destruct Hs as (s & Hs & Hf). exists s. by rewrite A3, M3, R3.
  - done.
  - done.
Qed.

(** C22: Connecting and then disconnecting gives the machine its routes, addresses, MTU and
    DNS settings back, and leaves nothing owned. The DNS settings are the ones there were
    unless two settings have one SHA-256 digest. *)
Theorem connect_disconnect_restores env w (r : R) l luid ifindex offer campus_routes bypass sid io w1 r1 l1 o facts
    (r2 : R) l2 io' w2 r3 l3 o' :
  luid ≠ 0%N → bypass_ok w luid bypass →
  owner_apply sha256 env w r l luid ifindex offer campus_routes bypass sid io = Some (w1, r1, l1, Ok (o, facts)) →
  owner_clear sha256 w1 r2 l2 o io' = Some (w2, r3, l3, o', Ok ()) →
  same_managed w w2 ∧ same_addrs w w2 ∧ same_mtus w w2 ∧
  (same_dns w w2 ∨ ∃ s, s ≠ ro_dns_original o ∧ fingerprint_of sha256 s = fingerprint_of sha256 (ro_dns_original o)) ∧
  ro_installed_routes o' = [] ∧ ro_owned_addresses o' = [].
Proof.
  intros Hl Hb Ha Hc. destruct (apply_connected _ _ _ _ _ _ _ _ _ _ _ _ _ _ _ _ Hl Hb Ha) as [Hcon _].
  destruct (clear_connected _ _ _ _ _ _ _ _ _ _ _ Hcon Hc) as (? & ? & ? & Hd & (s & Hs & Hf) & ? & ?).
  split_and!; [done..| |done|done]. destruct (decide (s = ro_dns_original o)) as [->|Hne]; [left|right; eauto].
  intros g. destruct (decide (g = ro_dns_guid o)) as [->|Hg]; [|by apply Hd].
  by rewrite Hs, (cn_dns_before _ _ _ _ Hcon).
Qed.

(** ** Other programs *)

Lemma remove_owned_any w x : owned_shape x →
  let out := remove_owned_route w x in
  only_routes w (fst out) ∧
  match snd out with
  | Ok _ => (∀ j, managed (fst out) j = managed w j ∨ (managed (fst out) j = None ∧ j = owned_id x ∧ claimed w x)) ∧
            managed (fst out) (owned_id x) = None
  | Err e => same_managed w (fst out) ∧ (ne_code e = 87%N → ¬ claimed w x)
  end.
Proof.
  intros [Hp Hl].
  assert (Hg : ∀ w', gone w w' (owned_id x) → claimed w x →
    (∀ j, managed w' j = managed w j ∨ (managed w' j = None ∧ j = owned_id x ∧ claimed w x)) ∧ managed w' (owned_id x) = None).
  { intros w' [Hn Hrest]%gone_managed Hc. split; [|done]. intros j.
    destruct (decide (j = owned_id x)) as [->|]; [by right|left; by apply Hrest]. }
  unfold owned_id in *. destruct x as [row|row]; cbn [claimed owned_row remove_owned_route] in *.
  - destruct (remove_outcome w row) as [Hf Ho]. destruct (remove w row) as [w' [[|]|e]]; simpl in *; (split; [done|]).
    + destruct Ho as [Hh Hgo]. apply Hg; [done|]. by apply holds_netmgmt.
    + destruct Ho as [-> Hn]. split; [by left|]. unfold managed. by rewrite Hn.
    + destruct Ho as [Hs Hc]. split; [by apply same_routes_managed|]. intros He Hm. apply Hc; [done..|]. by apply holds_netmgmt.
  - destruct (remove_pending_outcome w row Hp) as [Hf Ho].
    destruct (remove_created_pending w row) as [w' [[|]|e]]; simpl in *; (split; [done|]).
    + destruct Ho as [Hh Hgo]. by apply Hg.
    + destruct Ho as [Hs%same_routes_managed Hn]. split; [by left|]. by rewrite Hs.
    + destruct Ho as [Hs Hc]. split; [by apply same_routes_managed|]. intros He [y Hy]. by rewrite Hc in Hy.
Qed.
(** A route that is there as it was made was so before some routes were removed. *)
Lemma claimed_back w w' x : (managed w' (owned_id x) = managed w (owned_id x) ∨ managed w' (owned_id x) = None) →
  claimed w' x → claimed w x.
Proof.
  intros [Heq|Hn] Hc; [by apply (claimed_same w w')|]. destruct (claimed_some _ _ Hc) as [y Hy]. by rewrite Hn in Hy.
Qed.
Lemma retry_routes_any l : Forall owned_shape l → ∀ w,
  let out := retry_routes w l in let w' := fst (fst out) in
  only_routes w w' ∧
  (∀ j, managed w' j = managed w j ∨ (managed w' j = None ∧ ∃ x, x ∈ l ∧ owned_id x = j ∧ claimed w x)) ∧
  (∀ x, x ∈ l → claimed w' x → x ∈ snd (fst out)).
Proof.
  induction 1 as [|x l Hx Hl IH]; intros w; simpl.
  { split_and!; [done|by left|]. intros x Hx. by apply not_elem_of_nil in Hx. }
  destruct (remove_owned_any w x Hx) as [Hf Ho]. destruct (remove_owned_route w x) as [w1 [y|e]]; simpl in *.
  - destruct Ho as [Hm Hn]. destruct (IH w1) as (Hf2 & Hj & Hk). split_and!; [by etrans| |].
    + intros j. destruct (Hj j) as [->|[-> (z & Hz & Hid & Hc)]].
      * destruct (Hm j) as [->|(-> & -> & Hc)]; [by left|]. right. split; [done|]. exists x.
        split_and!; [apply list_elem_of_here|done..].
      * right. split; [done|]. exists z. split_and!; [by apply list_elem_of_further|done|].
        eapply claimed_back; [|exact Hc]. destruct (Hm (owned_id z)) as [?|(? & _)]; [by left|by right].
    + intros z [->|Hz]%elem_of_cons Hc; [|by apply Hk]. exfalso.
      destruct (claimed_some _ _ Hc) as [v Hv]. destruct (Hj (owned_id x)) as [Heq|[Heq _]]; congruence.
  - destruct Ho as [Hs He]. destruct (IH w1) as (Hf2 & Hj & Hk).
    assert (Hany : ∀ j, managed (fst (fst (retry_routes w1 l))) j = managed w j ∨
      (managed (fst (fst (retry_routes w1 l))) j = None ∧ ∃ z, z ∈ x :: l ∧ owned_id z = j ∧ claimed w z)).
    { intros j. destruct (Hj j) as [->|[-> (z & Hz & Hid & Hc)]]; [left; by apply Hs|]. right. split; [done|].
      exists z. split_and!; [by apply list_elem_of_further|done|]. by apply (claimed_same w w1). }
    destruct (N.eqb_spec (ne_code e) 87) as [E|_].
    + split_and!; [by etrans|done|]. intros z [->|Hz]%elem_of_cons Hc; [|by apply Hk]. exfalso. apply (He E).
      eapply claimed_back; [|exact Hc]. destruct (Hj (owned_id x)) as [Heq|[Heq _]]; [left; by rewrite Heq|by right].
    + destruct (retry_routes w1 l) as [[w2 failed] first]. simpl in *. split_and!; [by etrans|done|].
      intros z [->|Hz]%elem_of_cons Hc; [apply list_elem_of_here|apply list_elem_of_further; by apply Hk].
Qed.
Lemma retry_owned_routes_any w routes : Forall owned_shape routes →
  let out := retry_owned_routes w routes in let w' := fst (fst out) in
  only_routes w w' ∧
  (∀ j, managed w' j = managed w j ∨ (managed w' j = None ∧ ∃ x, x ∈ routes ∧ owned_id x = j ∧ claimed w x)) ∧
  (∀ x, x ∈ routes → claimed w' x → x ∈ snd (fst out)).
Proof.
  intros Hs. unfold retry_owned_routes.
  destruct (retry_routes_any (reverse routes)) with (w := w) as (Hf & Hj & Hk); [by apply Forall_reverse|].
  destruct (retry_routes w (reverse routes)) as [[w' failed] first]. simpl in *. split_and!; [done| |].
  - intros j. destruct (Hj j) as [->|[-> (x & Hx & Hid & Hc)]]; [by left|]. right. split; [done|]. exists x.
    split_and!; [by apply elem_of_reverse|done..].
  - intros x Hx Hc. apply (proj2 (elem_of_reverse _ _)), Hk; [by apply (proj2 (elem_of_reverse _ _))|done].
Qed.

(** The only differences between two states are entries the owner made and that are as it
    left them: its routes and addresses may be gone, its MTU and its DNS settings may be
    replaced. *)
Record only_own w w' (o : RouteOwner) : Prop := {
  oo_routes : ∀ i, managed w' i ≠ managed w i →
    managed w' i = None ∧ ∃ x, x ∈ ro_installed_routes o ∧ owned_id x = i ∧ claimed w x;
  oo_addresses : ∀ j, addr_at w' j ≠ addr_at w j →
    addr_at w' j = None ∧ ∃ row, row ∈ ro_owned_addresses o ∧ addr_id row = j ∧ addr_at w j = Some (addr_value row);
  oo_mtu : ∀ l f, mtu_at w' l f ≠ mtu_at w l f → ∃ a, ro_mtu_applied o = Some a ∧
    l = mt_luid a ∧ f = mt_family a ∧ mtu_at w l f = Some (mt_value a);
  oo_dns : ∀ g, dns_at w' g ≠ dns_at w g → g = ro_dns_guid o ∧
    ∃ s, dns_at w g = Some (dns_lists s) ∧ fingerprint_of sha256 s = ro_dns_fingerprint o;
}.

Lemma clear_rest_own w o :
  let out := clear_rest w o in let w' := fst (fst out) in
  same_managed w w' ∧ same_dns w w' ∧ ro_installed_routes (snd (fst out)) = ro_installed_routes o ∧
  (∀ j, addr_at w' j ≠ addr_at w j →
    addr_at w' j = None ∧ ∃ row, row ∈ ro_owned_addresses o ∧ addr_id row = j ∧ addr_at w j = Some (addr_value row)) ∧
  (∀ l f, mtu_at w' l f ≠ mtu_at w l f → ∃ a, ro_mtu_applied o = Some a ∧
    l = mt_luid a ∧ f = mt_family a ∧ mtu_at w l f = Some (mt_value a)).
Proof.
  unfold clear_rest.
  set (step := match ro_mtu_applied o, ro_mtu_original o with Some _, Some _ => _ | _, _ => _ end).
  assert (Hstep : only_mtus w (fst step) ∧ ∀ l f, mtu_at (fst step) l f ≠ mtu_at w l f →
    ∃ a, ro_mtu_applied o = Some a ∧ l = mt_luid a ∧ f = mt_family a ∧ mtu_at w l f = Some (mt_value a)).
  { unfold step. destruct (ro_mtu_applied o) as [a|]; [|done]. destruct (ro_mtu_original o) as [b|]; [|done].
    destruct (mtu_restore_outcome w (mt_luid a) (mt_family a) a b) as [Hf Ho].
    destruct (compare_and_restore _ _ _ _ _) as [w1 [[|]|e]]; simpl in *; (split; [done|]); intros l f Hne.
    - destruct Ho as [Ha Hn]. rewrite Hn in Hne. case_decide as Hd; [|done]. destruct Hd as (-> & -> & _). eauto 6.
    - destruct Ho as [-> _]. done.
    - by rewrite Ho in Hne. }
  destruct Hstep as [(M1 & M2 & M3) Hm]. destruct step as [w1 [[]|f]]; simpl in *.
  2:{ split_and!; try done. intros j Hne. by rewrite M2 in Hne. }
  destruct (addr_capture w1 (ro_luid o)) as [current|e] eqn:Ec; simpl.
  2:{ split_and!; try done. intros j Hne. by rewrite M2 in Hne. }
  destruct (delete_addresses_outcome (restore_owned_addresses (ro_owned_addresses o) current) w1) as ((A1 & A2 & A3) & Hj & _).
  assert (Haddr : ∀ j, addr_at (fst (delete_addresses w1 (restore_owned_addresses (ro_owned_addresses o) current))) j ≠ addr_at w j →
    addr_at (fst (delete_addresses w1 (restore_owned_addresses (ro_owned_addresses o) current))) j = None ∧
    ∃ row, row ∈ ro_owned_addresses o ∧ addr_id row = j ∧ addr_at w j = Some (addr_value row)).
  { intros j Hne. destruct (Hj j) as [Heq|[Hn (x & Hx & <-)]]; [by rewrite Heq, M2 in Hne|]. split; [done|].
    destruct (restored_addresses _ _ _ _ Ec x Hx) as [Hin Ha]. rewrite M2 in Ha. eauto. }
  destruct (delete_addresses w1 _) as [w2 [[]|f]]; simpl in *;
    (split_and!; [by etrans|by etrans|done|done|]; intros l f' Hne; apply Hm; by rewrite <-A2).
Qed.

(** What a disconnect leaves is owned, and nothing is when it succeeds. *)
Lemma clear_owns w0 w (r : R) l o io w' r' l' o' res : owns w0 w (ro_installed_routes o) →
  owner_clear sha256 w r l o io = Some (w', r', l', o', res) → owns w0 w' (ro_installed_routes o').
Proof.
  intros Ho Hc. unfold owner_clear in Hc.
  destruct (dns_restore_outcome sha256 w (ro_dns_guid o) (ro_dns_fingerprint o) (ro_dns_original o)) as ([(D1 & _) _] & _).
  destruct (dns_restore _ _ _ _ _) as [wd [dec|e]]; simpl in D1; [|simplify_eq; by eapply owns_frame].
  apply (owns_frame w0 w wd) in Ho; [|done].
  destruct (clear_proxy_family _ _ _ _ _) as [[[[l2 r2] proxy] [[]|e]]|]; simpl in Hc; [|by simplify_eq|done].
  destruct (retry_owned_routes_owns w0 wd (ro_installed_routes o) Ho) as (_ & Hr & _).
  destruct (retry_owned_routes wd (ro_installed_routes o)) as [[wr remaining] [[]|f]]; simpl in Hr; [|by simplify_eq].
  pose proof (clear_rest_own wr (MkRouteOwner (ro_luid o) (ro_owned_addresses o) remaining (ro_mtu_applied o)
                (ro_mtu_original o) (ro_dns_fingerprint o) (ro_dns_original o) (ro_dns_guid o) proxy)) as (C1 & _ & C3 & _).
  destruct (clear_rest wr _) as [[wc oc] rc]. simplify_eq/=. by eapply owns_frame.
Qed.
Lemma retry_clear_ok w routes : is_ok (snd (retry_owned_routes w routes)) = true → snd (fst (retry_owned_routes w routes)) = [].
Proof.
  unfold retry_owned_routes. assert (∀ l w, snd (retry_routes w l) = None → snd (fst (retry_routes w l)) = []) as Hn.
  { intros l. induction l as [|x l IH]; intros w1; [done|]. simpl.
    destruct (remove_owned_route w1 x) as [w2 [y|e]]; [apply IH|]. destruct (_ =? _)%N; [apply IH|].
    by destruct (retry_routes w2 l) as [[w3 failed] first]. }
  specialize (Hn (reverse routes) w). destruct (retry_routes w (reverse routes)) as [[w1 failed] [e|]]; simpl in *; [done|].
  intros _. by rewrite Hn.
Qed.
Lemma clear_ok_nothing w (r : R) l o io w' r' l' o' :
  owner_clear sha256 w r l o io = Some (w', r', l', o', Ok ()) → ro_installed_routes o' = [].
Proof.
  unfold owner_clear. destruct (dns_restore _ _ _ _ _) as [wd [dec|e]]; [|done].
  destruct (clear_proxy_family _ _ _ _ _) as [[[[l2 r2] proxy] [[]|e]]|]; simpl; [|done..].
  pose proof (retry_clear_ok wd (ro_installed_routes o)) as Hok.
  destruct (retry_owned_routes wd (ro_installed_routes o)) as [[wr remaining] [[]|f]]; [|done]. simpl in Hok.
  pose proof (clear_rest_own wr (MkRouteOwner (ro_luid o) (ro_owned_addresses o) remaining (ro_mtu_applied o)
                (ro_mtu_original o) (ro_dns_fingerprint o) (ro_dns_original o) (ro_dns_guid o) proxy)) as (_ & _ & C3 & _).
  destruct (clear_rest wr _) as [[wc oc] rc]. intros [= -> -> -> -> ->]. simpl in C3. rewrite C3. by apply Hok.
Qed.


(** Connecting and disconnecting always come to an end with an answer. *)
Theorem connection_total env w (r : R) l luid ifindex offer campus_routes bypass sid io o io' : ledger_ok l →
  luid ≠ 0%N → bypass_ok w luid bypass →
  (∃ w' r' l' res, owner_apply sha256 env w r l luid ifindex offer campus_routes bypass sid io = Some (w', r', l', res) ∧
     ledger_ok l') ∧
  (∃ w' r' l' o' res, owner_clear sha256 w r l o io' = Some (w', r', l', o', res) ∧ ledger_ok l').
Proof.
  intros Hl Hz Hb. split.
  - unfold owner_apply. destruct (32 <? prefix offer)%N; [by eexists _, _, _, _|]. destruct (negb _); [by eexists _, _, _, _|].
    destruct (families_outcome w luid ifindex offer campus_routes bypass Hz Hb) as [_ Ha].
    destruct (apply_families _ _ _ _ _ _ _) as [[w1 p] [[]|f]]; simpl in Ha.
    2:{ destruct (undo_families _ _ _ _). by eexists _, _, _, _. }
    destruct (apply_proxy_total sha256 env l r sid campus_routes io Hl) as (l' & r' & st & -> & Hl'). simpl.
    destruct Ha as [_ _ (g & original & -> & _)]. simpl. by eexists _, _, _, _.
  - unfold owner_clear. destruct (dns_restore _ _ _ _ _) as [wd [dec|e]]; [|by eexists _, _, _, _, _].
    destruct (clear_proxy_total sha256 l r (ro_system_proxy o) io' Hl) as (l' & r' & st & res & -> & Hl'). simpl.
    destruct res as [[]|e]; [|by eexists _, _, _, _, _].
    destruct (retry_owned_routes _ _) as [[wr rem] [[]|f]]; [|by eexists _, _, _, _, _].
    destruct (clear_rest _ _) as [[w2 o2] res2]. by eexists _, _, _, _, _.
Qed.
End ownership.

(** ** Witnesses and deviations *)

Definition ip (a b c d : N) : Ipv4Addr := MkIpv4Addr (byte_of_N a) (byte_of_N b) (byte_of_N c) (byte_of_N d).
(** The tunnel is the interface 7, the network card the interface 3. *)
Definition gateway_row : RouteRow := RouteRow_new (ip 59 78 1 2) 32 (ip 192 168 1 1) 3 1.
Definition tunnel_net : SimNet :=
  MkSimNet {[ (ip 0 0 0 0, 0%N, ip 192 168 1 1, 3%N) := (25%N, NETMGMT) ]} {[ (ip 192 168 1 5, 3%N) := (24%N, false) ]}
    {[ (7%N, true) := 65535%N ]} {[ 7%N := (None, None) ]} 5 [].
Definition campus_offer : TunnelOffer :=
  MkTunnelOffer (ip 10 9 0 4) 24 1400 [ip 10 9 0 1] [lit "10.9.0.0/16"; lit "59.78.0.0/16"].
Definition sample_connect :=
  owner_apply toy_sha256 sample_env tunnel_net sample_registry sample_ledger 7 12 campus_offer sample_routes
    (Some gateway_row) (Some sample_sid) sample_io.
Definition sample_disconnect :=
  match sample_connect with
  | Some (w, r, l, Ok (o, _)) => owner_clear toy_sha256 w r l o io_ok
  | _ => None
  end.
Definition tunnel_route : RouteId := (ip 59 78 0 0, 16%N, UNSPECIFIED, 7%N).

Lemma tunnel_bypass : bypass_ok tunnel_net 7 (Some gateway_row).
Proof. split; [by split|]. split; [by right|done]. Qed.

Lemma connect_disconnect_restores_witness :
  ∃ w1 r1 l1 o facts w2 r3 l3 o',
    sample_connect = Some (w1, r1, l1, Ok (o, facts)) ∧ managed w1 tunnel_route = Some 10%N ∧
    owner_clear toy_sha256 w1 r1 l1 o io_ok = Some (w2, r3, l3, o', Ok ()) ∧
    same_managed tunnel_net w2 ∧ same_addrs tunnel_net w2 ∧ same_mtus tunnel_net w2 ∧
    (same_dns tunnel_net w2 ∨ ∃ s, s ≠ ro_dns_original o ∧
       fingerprint_of toy_sha256 s = fingerprint_of toy_sha256 (ro_dns_original o)) ∧
    ro_installed_routes o' = [] ∧ ro_owned_addresses o' = [].
Proof.
  assert (match sample_connect with Some (w, _, _, Ok _) => managed w tunnel_route | _ => None end = Some 10%N) as Hm
    by (vm_compute; reflexivity).
  assert (match sample_disconnect with Some (_, _, _, _, Ok _) => true | _ => false end = true) as Hd
    by (vm_compute; reflexivity).
  unfold sample_disconnect in Hd. destruct sample_connect as [[[[w1 r1] l1] [[o facts]|e]]|] eqn:Hc; [|done..].
  destruct (owner_clear toy_sha256 w1 r1 l1 o io_ok) as [[[[[w2 r3] l3] o'] [[]|f]]|] eqn:Hcl; [|done..].
  exists w1, r1, l1, o, facts, w2, r3, l3, o'. split; [done|]. split; [done|]. split; [done|].
  exact (connect_disconnect_restores toy_sha256 sample_env tunnel_net sample_registry sample_ledger 7 12 campus_offer
    sample_routes (Some gateway_row) (Some sample_sid) sample_io w1 r1 l1 o facts r1 l1 io_ok w2 r3 l3 o'
    ltac:(done) tunnel_bypass Hc Hcl).
Defined.

(** The DNS settings cannot be written, and neither can a route be removed. *)
Definition stuck_net : SimNet :=
  MkSimNet (sn_routes tunnel_net) (sn_addrs tunnel_net) (sn_mtus tunnel_net) (sn_dns tunnel_net) 5 [SetDns; DeleteForward].
Definition stuck_connect :=
  owner_apply toy_sha256 sample_env stuck_net sample_registry sample_ledger 7 12 campus_offer sample_routes
    (Some gateway_row) (Some sample_sid) sample_io.
Lemma failed_connect_owns_routes_witness :
  ∃ w' r' l' e, stuck_connect = Some (w', r', l', Err e) ∧ length (ae_pending_routes e) = 4 ∧
    managed w' tunnel_route = Some 10%N ∧
    (∀ i, managed w' i ≠ managed stuck_net i → ∃ o, o ∈ ae_pending_routes e ∧ owned_id o = i ∧ claimed w' o) ∧
    (ae_pending_routes e = [] → same_managed stuck_net w') ∧ r' = sample_registry ∧ l' = sample_ledger.
Proof.
  assert (match stuck_connect with
          | Some (w, _, _, Err e) => (length (ae_pending_routes e), managed w tunnel_route)
          | _ => (0, None)
          end = (4, Some 10%N)) as Hm by (vm_compute; reflexivity).
  destruct stuck_connect as [[[[w' r'] l'] [?|e]]|] eqn:Hc; [done| |done]. injection Hm as Hn Ht.
  exists w', r', l', e. split; [done|]. split; [done|]. split; [done|].
  apply (failed_connect_owns_routes toy_sha256 sample_env stuck_net sample_registry sample_ledger 7 12 campus_offer
    sample_routes (Some gateway_row) (Some sample_sid) sample_io w' r' l' e ltac:(done)); [|exact Hc].
  split; [by split|]. split; [by right|done].
Defined.

(** Another program changes the metric of the route while the tunnel is up. *)
Definition edited (w : SimNet) : SimNet := set_routes w (<[tunnel_route := (1%N, NETMGMT)]> (sn_routes w)).
Definition edited_disconnect :=
  match sample_connect with
  | Some (w, r, l, Ok (o, _)) => owner_clear toy_sha256 (edited w) r l o io_ok
  | _ => None
  end.

Lemma connection_total_witness :
  ∃ w' r' l' res, sample_connect = Some (w', r', l', res) ∧ ledger_ok l'.
Proof.
  apply (connection_total toy_sha256 sample_env tunnel_net sample_registry sample_ledger 7 12 campus_offer sample_routes
    (Some gateway_row) (Some sample_sid) sample_io
    (MkRouteOwner 7 [] [] None None (array_fill 32 x00) (MkDns [] []) 7 None) io_ok); [by split|done|apply tunnel_bypass].
Defined.

(** An interface that has a search list: the servers are written, the settings read back
    are not the ones asked for, the connection fails, and the servers stay. *)
Example dns_failure_not_undone :
  let net := MkSimNet (sn_routes tunnel_net) (sn_addrs tunnel_net) (sn_mtus tunnel_net)
               {[ 7%N := (None, Some (hstring (lit "corp.example"))) ]} 5 [] in
  match owner_apply toy_sha256 sample_env net sample_registry sample_ledger 7 12 campus_offer [] None None sample_io with
  | Some (w, _, _, Err e) =>
      ft_stage (ae_detail e) = "dns-apply"%string ∧ dns_at net 7 = Some ([], [lit "corp.example"]) ∧
      dns_at w 7 = Some ([lit "10.9.0.1"], [lit "corp.example"])
  | _ => False
  end.
Proof. vm_compute. split; [reflexivity|]. split; reflexivity. Qed.

(** A row whose next hop is an address of the interface is kept under another identity:
    reading it back and removing it both miss it, and it stays in the table without an
    owner. *)
Example normalised_hop_leaks :
  let net := set_addrs tunnel_net {[ (ip 10 9 0 4, 7%N) := (24%N, false) ]} in
  let row := RouteRow_new (ip 59 78 0 0) 16 (ip 10 9 0 4) 7 5 in
  let out := install_with_outcome net row in
  is_ok (snd out) = false ∧ managed net tunnel_route = None ∧ managed (fst out) tunnel_route = Some 10%N.
Proof. vm_compute. split_and!; reflexivity. Qed.

(** A plan whose second row exists already is refused, but the first row stays: the system
    keeps another metric than the one asked for, so the rollback refuses to remove it. *)
Example install_plan_leaves_first :
  let row1 := RouteRow_new (ip 59 78 0 0) 16 UNSPECIFIED 7 5 in
  let row2 := RouteRow_new (ip 0 0 0 0) 0 (ip 192 168 1 1) 3 5 in
  let out := install_plan tunnel_net [row1; row2] in
  match snd out with
  | Err e => ne_code e = 5010%N ∧ managed tunnel_net tunnel_route = None ∧ managed (fst out) tunnel_route = Some 10%N
  | Ok _ => False
  end.
Proof. vm_compute. split_and!; reflexivity. Qed.
