(* ===== verification/ApplyTunnel.v ===== *)
(** * The cross-family apply and restore

    [apply_tunnel.rs] and the capture of [aggregate.rs] of the Windows resource crate: a
    plan for all families is checked as a whole, applied step by step with a record of
    what took effect, and restored in the reverse order. *)

From Stdlib Require Import NArith ZArith Strings.Byte Strings.String Lia.
From S2P Require Import Prelude Text NativeError Registry IpHelper Routes NetSettings.
From S2P Require Import Journal SystemProxy ProxyFamily Pac ProxyExec RouteOwner.

(** win32-resource/apply_tunnel.rs:26-44 [FamilyStep] *)
Inductive FamilyStep := FS_Address | FS_Mtu | FS_Bypass | FS_SystemProxy | FS_Routes | FS_Dns.
#[export] Instance FamilyStep_eq_dec : EqDecision FamilyStep. Proof. solve_decision. Defined.

(** win32-resource/apply_tunnel.rs:46-74 [ApplyPlan] *)
Record ApplyPlan := MkApplyPlan {
  ap_steps : list FamilyStep;
  ap_addresses : list IpAddressRow;
  ap_mtu_v4 : N;
  ap_mtu_v6 : option N;
  ap_bypass : list RouteRow;
  ap_tunnel_routes : list RouteRow;
  ap_dns_settings : DnsSettings;
  ap_proxy_exempt_entries : list str;
  ap_originating_sid : str;
}.

(** win32-resource/apply_tunnel.rs:99-108 [SystemProxyApplied] *)
Record TunnelProxyApplied := MkTunnelProxy {
  tp_prestate : RawInternetSettings;
  tp_sid : str;
  tp_written_fingerprint : list byte;
}.
(** win32-resource/apply_tunnel.rs:136-145 [DnsAppliedState] *)
Record DnsAppliedState := MkDnsApplied { da_guid : N; da_applied : DnsFingerprint; da_original : DnsSettings }.

(** win32-resource/apply_tunnel.rs:76-97 [AppliedState] *)
Record AppliedState := MkAppliedState {
  as_plan : ApplyPlan;
  as_owned_addresses : list IpAddressRow;
  as_mtu : list (MtuSnapshot * MtuSnapshot);
  as_installed_tunnel : list RouteRow;
  as_bypass_rows : list RouteRow;
  as_dns : option DnsAppliedState;
  as_system_proxy : option TunnelProxyApplied;
}.
(** win32-resource/apply_tunnel.rs:111-122 [AppliedState::empty] *)
Definition AppliedState_empty (plan : ApplyPlan) : AppliedState := MkAppliedState plan [] [] [] [] None None.
(** win32-resource/apply_tunnel.rs:124-133 [AppliedState::is_empty] *)
Definition applied_is_empty (s : AppliedState) : bool :=
  match s with MkAppliedState _ [] [] [] [] None None => true | _ => false end.

(** win32-resource/apply_tunnel.rs:147-183 [build_apply_plan] *)
Definition build_apply_plan (addresses : list IpAddressRow) (mtu_v4 : N) (mtu_v6 : option N)
    (bypass tunnel_routes : list RouteRow) (dns : DnsSettings) (proxy_exempt_entries : list str)
    (originating_sid : str) : ApplyPlan :=
  MkApplyPlan [FS_Address; FS_Mtu; FS_Bypass; FS_SystemProxy; FS_Routes; FS_Dns]
    addresses mtu_v4 mtu_v6 bypass tunnel_routes dns proxy_exempt_entries originating_sid.
(** win32-resource/apply_tunnel.rs:185-190 [build_restore_plan] *)
Definition build_restore_plan (apply : ApplyPlan) : list FamilyStep := reverse (ap_steps apply).

(** win32-resource/apply_tunnel.rs:354-364 [admit_route] *)
Definition admit_route (row : RouteRow) : result NativeError () :=
  if (MAX_PREFIX_LEN <? rr_prefix_len row)%N then
    Err (NativeError_from_win32 ERROR_INVALID_PARAMETER "aggregate: 非法路由前缀（IPv4 前缀上限 32）")
  else Ok ().
Fixpoint admit_routes (rows : list RouteRow) : result NativeError () :=
  match rows with
  | [] => Ok ()
  | row :: rows => _ ← admit_route row; admit_routes rows
  end.
(** win32-resource/apply_tunnel.rs:328-352 [admit] *)
Definition admit_plan (plan : ApplyPlan) : result NativeError () :=
  _ ← validate_mtu_value (ap_mtu_v4 plan);
  _ ← match ap_mtu_v6 plan with Some v6 => validate_mtu_value v6 | None => Ok () end;
  _ ← admit_routes (ap_bypass plan);
  _ ← admit_routes (ap_tunnel_routes plan);
  if existsb (λ row, (MAX_PREFIX_LEN <? ia_on_link_prefix_length row)%N) (ap_addresses plan) then
    Err (NativeError_from_win32 ERROR_INVALID_PARAMETER "aggregate: 非法地址前缀（IPv4 前缀上限 32）")
  else Ok ().

(** The state with one family recorded. *)
Definition with_address (s : AppliedState) (row : IpAddressRow) : AppliedState :=
  MkAppliedState (as_plan s) (as_owned_addresses s ++ [row]) (as_mtu s) (as_installed_tunnel s) (as_bypass_rows s)
    (as_dns s) (as_system_proxy s).
Definition with_mtu (s : AppliedState) (pair : MtuSnapshot * MtuSnapshot) : AppliedState :=
  MkAppliedState (as_plan s) (as_owned_addresses s) (as_mtu s ++ [pair]) (as_installed_tunnel s) (as_bypass_rows s)
    (as_dns s) (as_system_proxy s).
Definition with_bypass (s : AppliedState) (row : RouteRow) : AppliedState :=
  MkAppliedState (as_plan s) (as_owned_addresses s) (as_mtu s) (as_installed_tunnel s) (as_bypass_rows s ++ [row])
    (as_dns s) (as_system_proxy s).
Definition with_proxy (s : AppliedState) (p : TunnelProxyApplied) : AppliedState :=
  MkAppliedState (as_plan s) (as_owned_addresses s) (as_mtu s) (as_installed_tunnel s) (as_bypass_rows s)
    (as_dns s) (Some p).
Definition with_tunnel (s : AppliedState) (rows : list RouteRow) : AppliedState :=
  MkAppliedState (as_plan s) (as_owned_addresses s) (as_mtu s) (as_installed_tunnel s ++ rows) (as_bypass_rows s)
    (as_dns s) (as_system_proxy s).
Definition with_dns (s : AppliedState) (d : DnsAppliedState) : AppliedState :=
  MkAppliedState (as_plan s) (as_owned_addresses s) (as_mtu s) (as_installed_tunnel s) (as_bypass_rows s)
    (Some d) (as_system_proxy s).

Section tunnel.
Context {W : Type} `{IpHelper W}.
Context {R : Type} `{Win32Registry R}.
Variable sha256 : list byte → array 32.

(** win32-resource/apply_tunnel.rs:380-383 [apply_step]: the addresses to add. *)
Fixpoint step_addresses (w : W) (s : AppliedState) (rows : list IpAddressRow) : W * AppliedState * result NativeError () :=
  match rows with
  | [] => (w, s, Ok ())
  | row :: rows =>
      match addr_apply w row with
      | (w, Err e) => (w, s, Err e)
      | (w, Ok _) => step_addresses w (with_address s row) rows
      end
  end.
(** win32-resource/apply_tunnel.rs:386-403 [apply_step]: the MTU of one family. *)
Definition step_mtu (w : W) (s : AppliedState) (luid : N) (f : MtuFamily) (value : N) : W * AppliedState * result NativeError () :=
  match mtu_capture w luid f with
  | Err e => (w, s, Err e)
  | Ok original =>
      match mtu_apply w luid f value with
      | (w, Err e) => (w, s, Err e)
      | (w, Ok _) => (w, with_mtu s (MkMtu luid f value, original), Ok ())
      end
  end.
(** win32-resource/apply_tunnel.rs:405-413 [apply_step]: the bypass rows. *)
Fixpoint step_bypass (w : W) (s : AppliedState) (rows : list RouteRow) : W * AppliedState * result NativeError () :=
  match rows with
  | [] => (w, s, Ok ())
  | row :: rows =>
      match install w row with
      | (w, Err e) => (w, s, Err e)
      | (w, Ok _) => step_bypass w (with_bypass s row) rows
      end
  end.
(** win32-resource/apply_tunnel.rs:414-440 [apply_step]: the system proxy. *)
Definition step_proxy (r : R) (s : AppliedState) (plan : ApplyPlan) : R * AppliedState * result NativeError () :=
  if bool_decide (ap_originating_sid plan = []) then (r, s, Ok ())
  else match capture_for_user r (ap_originating_sid plan) with
  | Err e => (r, s, Err e)
  | Ok prestate =>
      match apply_from_prestate r (ap_originating_sid plan) (ap_proxy_exempt_entries plan) prestate with
      | (r, Err e) => (r, s, Err e)
      | (r, Ok (SAO_SkippedNoProxy | SAO_PacDetectedSkip)) => (r, s, Ok ())
      | (r, Ok (SAO_Applied step written_fingerprint)) =>
          (r, with_proxy s (MkTunnelProxy (st_prestate step) (st_originating_sid step) written_fingerprint), Ok ())
      end
  end.
(** win32-resource/apply_tunnel.rs:448-462 [apply_step]: the DNS settings. *)
Definition step_dns (w : W) (s : AppliedState) (luid : N) (dns : DnsSettings) : W * AppliedState * result NativeError () :=
  match luid_to_guid w luid with
  | None => (w, s, Err (NativeError_from_win32 ERROR_NOT_FOUND "aggregate: 接口 LUID 无法转换为 GUID（DNS 族）"))
  | Some guid =>
      match dns_capture w guid with
      | Err e => (w, s, Err e)
      | Ok original =>
          match dns_apply sha256 w guid dns with
          | (w, Err e) => (w, s, Err e)
          | (w, Ok applied) => (w, with_dns s (MkDnsApplied guid applied original), Ok ())
          end
      end
  end.

(** win32-resource/apply_tunnel.rs:366-465 [apply_step] *)
Definition apply_step (w : W) (r : R) (s : AppliedState) (plan : ApplyPlan) (luid : N) (step : FamilyStep) :
    W * R * AppliedState * result NativeError () :=
  match step with
  | FS_Address =>
      match addr_capture w luid with
      | Err e => (w, r, s, Err e)
      | Ok captured =>
          let '(w, s, res) := step_addresses w s (to_add (plan_addresses captured (ap_addresses plan))) in (w, r, s, res)
      end
  | FS_Mtu =>
      match step_mtu w s luid FamV4 (ap_mtu_v4 plan) with
      | (w, s, Err e) => (w, r, s, Err e)
      | (w, s, Ok _) =>
          match ap_mtu_v6 plan with
          | None => (w, r, s, Ok ())
          | Some v6_value => let '(w, s, res) := step_mtu w s luid FamV6 v6_value in (w, r, s, res)
          end
      end
  | FS_Bypass => let '(w, s, res) := step_bypass w s (ap_bypass plan) in (w, r, s, res)
  | FS_SystemProxy => let '(r, s, res) := step_proxy r s plan in (w, r, s, res)
  | FS_Routes =>
      match install_plan w (ap_tunnel_routes plan) with
      | (w, Err e) => (w, r, s, Err e)
      | (w, Ok _) => (w, r, with_tunnel s (ap_tunnel_routes plan), Ok ())
      end
  | FS_Dns => let '(w, s, res) := step_dns w s luid (ap_dns_settings plan) in (w, r, s, res)
  end.
Fixpoint apply_steps (w : W) (r : R) (s : AppliedState) (plan : ApplyPlan) (luid : N) (steps : list FamilyStep) :
    W * R * AppliedState * result NativeError () :=
  match steps with
  | [] => (w, r, s, Ok ())
  | step :: steps =>
      match apply_step w r s plan luid step with
      | (w, r, s, Err e) => (w, r, s, Err e)
      | (w, r, s, Ok _) => apply_steps w r s plan luid steps
      end
  end.
(** win32-resource/apply_tunnel.rs:217-233 [run_apply] *)
Definition run_apply (w : W) (r : R) (luid : N) (plan : ApplyPlan) : W * R * AppliedState * result NativeError () :=
  match admit_plan plan with
  | Err e => (w, r, AppliedState_empty plan, Err e)
  | Ok _ => apply_steps w r (AppliedState_empty plan) plan luid (ap_steps plan)
  end.

(** win32-resource/apply_tunnel.rs:192-215 [apply], of what the aggregate has recorded. *)
Definition tunnel_apply (w : W) (r : R) (luid : N) (applied : option AppliedState) (plan : ApplyPlan) :
    W * R * option AppliedState * result NativeError () :=
  let '(w, r, state, res) := run_apply w r luid plan in
  (w, r, if is_ok res || negb (applied_is_empty state) then Some state else applied, res).
(** win32-resource/apply_tunnel.rs:235-259 [apply_privileged] *)
Definition apply_privileged (w : W) (r : R) (luid : N) (plan : ApplyPlan) : W * R * result NativeError AppliedState :=
  match run_apply w r luid plan with
  | (w, r, state, Ok _) => (w, r, Ok state)
  | (w, r, _, Err e) => (w, r, Err e)
  end.

(** win32-resource/apply_tunnel.rs:477-490 [restore_step]: routes are removed, a row that is not
    the one asked for is skipped. *)
Fixpoint remove_rows (w : W) (rows : list RouteRow) : W * result NativeError () :=
  match rows with
  | [] => (w, Ok ())
  | row :: rows =>
      match remove w row with
      | (w, Ok _) => remove_rows w rows
      | (w, Err e) => if (ne_code e =? ERROR_INVALID_PARAMETER)%N then remove_rows w rows else (w, Err e)
      end
  end.
(** win32-resource/apply_tunnel.rs:524-530 [restore_step]: the MTU pairs, the last one first. *)
Fixpoint restore_mtus (w : W) (pairs : list (MtuSnapshot * MtuSnapshot)) : W * result NativeError () :=
  match pairs with
  | [] => (w, Ok ())
  | (applied, original) :: pairs =>
      match compare_and_restore w (mt_luid applied) (mt_family applied) applied original with
      | (w, Ok _) => restore_mtus w pairs
      | (w, Err e) => (w, Err e)
      end
  end.
(** win32-resource/apply_tunnel.rs:538-540 [restore_step]: the addresses. *)
Fixpoint delete_rows (w : W) (rows : list IpAddressRow) : W * result NativeError () :=
  match rows with
  | [] => (w, Ok ())
  | row :: rows =>
      match addr_delete w row with
      | (w, Ok _) => delete_rows w rows
      | (w, Err e) => (w, Err e)
      end
  end.

(** win32-resource/apply_tunnel.rs:467-543 [restore_step] *)
Definition restore_step (w : W) (r : R) (s : AppliedState) (luid : N) (step : FamilyStep) : W * result NativeError () :=
  match step with
  | FS_Dns =>
      match as_dns s with
      | None => (w, Ok ())
      | Some dns =>
          match dns_restore sha256 w (da_guid dns) (da_applied dns) (da_original dns) with
          | (w, Ok _) => (w, Ok ())
          | (w, Err e) => (w, Err e)
          end
      end
  | FS_Routes => remove_rows w (build_cleanup_order (as_installed_tunnel s))
  | FS_SystemProxy =>
      match as_system_proxy s with
      | None => (w, Ok ())
      | Some applied =>
          match capture_for_user r (tp_sid applied) with
          | Err e => (w, Err e)
          | Ok current =>
              match plan_restore (tp_prestate applied) current (tp_written_fingerprint applied) with
              | SRO_TypedSkip => (w, Ok ())
              | SRO_Restored _ _ =>
                  (w, Err (MkNativeError NEK_Unsupported ERROR_INVALID_PARAMETER "EXV_TK1C_PENDING: 五值写回直调层未接入"))
              end
          end
      end
  | FS_Bypass => remove_rows w (reverse (as_bypass_rows s))
  | FS_Mtu => restore_mtus w (reverse (as_mtu s))
  | FS_Address =>
      match addr_capture w luid with
      | Err e => (w, Err e)
      | Ok current => delete_rows w (restore_owned_addresses (as_owned_addresses s) current)
      end
  end.
Fixpoint restore_steps (w : W) (r : R) (s : AppliedState) (luid : N) (steps : list FamilyStep) : W * result NativeError () :=
  match steps with
  | [] => (w, Ok ())
  | step :: steps =>
      match restore_step w r s luid step with
      | (w, Err e) => (w, Err e)
      | (w, Ok _) => restore_steps w r s luid steps
      end
  end.
(** win32-resource/apply_tunnel.rs:318-326 [run_restore] *)
Definition run_restore (w : W) (r : R) (luid : N) (s : AppliedState) : W * result NativeError () :=
  restore_steps w r s luid (build_restore_plan (as_plan s)).
(** win32-resource/apply_tunnel.rs:277-300 [restore] *)
Definition tunnel_restore (w : W) (r : R) (luid : N) (applied : option AppliedState) :
    W * option AppliedState * result NativeError () :=
  match applied with
  | None => (w, None, Ok ())
  | Some state =>
      match run_restore w r luid state with
      | (w, Ok _) => (w, None, Ok ())
      | (w, Err e) => (w, Some state, Err e)
      end
  end.
(** win32-resource/apply_tunnel.rs:302-316 [restore_privileged] *)
Definition restore_privileged (w : W) (r : R) (luid : N) (state : AppliedState) : W * result NativeError () :=
  run_restore w r luid state.

(** win32-resource/aggregate.rs:23-41 [TunnelSnapshot] *)
Record TunnelSnapshot := MkTunnelSnapshot {
  ts_address_rows : list IpAddressRow;
  ts_mtu_v4 : MtuSnapshot;
  ts_mtu_v6 : option MtuSnapshot;
  ts_routes : list RouteRow;
  ts_dns : DnsSettings;
}.
(** win32-resource/aggregate.rs:107-144 [Aggregate::capture] *)
Definition aggregate_capture (w : W) (luid : N) : result NativeError TunnelSnapshot :=
  address_rows ← addr_capture w luid;
  mtu_v4 ← mtu_capture w luid FamV4;
  mtu_v6 ← match mtu_capture w luid FamV6 with
           | Ok snap => Ok (Some snap)
           | Err e => if (ne_code e =? ERROR_NOT_FOUND)%N then Ok None else Err e
           end;
  routes ← capture_rows w luid;
  guid ← ok_or (luid_to_guid w luid)
    (NativeError_from_win32 ERROR_NOT_FOUND "aggregate: 接口 LUID 无法转换为 GUID（DNS 族回读）");
  dns ← dns_capture w guid;
  Ok (MkTunnelSnapshot address_rows mtu_v4 mtu_v6 routes dns).
End tunnel.

(** ** What a restore may change *)

Section restore.
Context {W : Type} `{IpHelperLaws W}.
Context {R : Type} `{Win32Registry R}.
Variable sha256 : list byte → array 32.
Implicit Types (w : W).

(** Between two states only entries differ that the record says were applied and that are
    in the first state as they were applied; routes and addresses are gone in the second. *)
Record restored (s : AppliedState) w w' : Prop := {
  rt_routes : ∀ i, managed w' i ≠ managed w i → managed w' i = None ∧
    ∃ row, row ∈ as_installed_tunnel s ++ as_bypass_rows s ∧ route_id row = i ∧ managed w i = Some (rr_metric row);
  rt_addresses : ∀ j, addr_at w' j ≠ addr_at w j → addr_at w' j = None ∧
    ∃ row, row ∈ as_owned_addresses s ∧ addr_id row = j ∧ addr_at w j = Some (addr_value row);
  rt_mtus : ∀ l f, mtu_at w' l f ≠ mtu_at w l f →
    ∃ p, p ∈ as_mtu s ∧ mt_luid (fst p) = l ∧ mt_family (fst p) = f ∧ mtu_at w l f = Some (mt_value (fst p));
  rt_dns : ∀ g, dns_at w' g ≠ dns_at w g → ∃ d x, as_dns s = Some d ∧ da_guid d = g ∧
    dns_at w g = Some (dns_lists x) ∧ fingerprint_of sha256 x = da_applied d;
}.
#[local] Instance restored_preorder s : PreOrder (restored s).
Proof.
  split; [by split|]. intros w1 w2 w3 [R1 A1 M1 D1] [R2 A2 M2 D2]. split.
  - intros i Hne. destruct (decide (managed w2 i = managed w1 i)) as [E|E].
    + rewrite <-E in *. by apply R2.
    + destruct (R1 i E) as [Hn Hx]. split; [|done].
      destruct (decide (managed w3 i = managed w2 i)) as [->|E']; [done|]. by destruct (R2 i E').
  - intros j Hne. destruct (decide (addr_at w2 j = addr_at w1 j)) as [E|E].
    + rewrite <-E in *. by apply A2.
    + destruct (A1 j E) as [Hn Hx]. split; [|done].
      destruct (decide (addr_at w3 j = addr_at w2 j)) as [->|E']; [done|]. by destruct (A2 j E').
  - intros l f Hne. destruct (decide (mtu_at w2 l f = mtu_at w1 l f)) as [E|E]; [|by apply M1].
    rewrite <-E in *. by apply M2.
  - intros g Hne. destruct (decide (dns_at w2 g = dns_at w1 g)) as [E|E]; [|by apply D1].
    rewrite <-E in *. by apply D2.
Qed.

Lemma remove_rows_restored s rows : (∀ row, row ∈ rows → row ∈ as_installed_tunnel s ++ as_bypass_rows s) →
  Forall (λ row, rr_protocol row = 3%N) rows → ∀ w, restored s w (fst (remove_rows w rows)).
Proof.
  intros Hin. induction 1 as [|row rows Hp _ IH]; intros w; simpl; [done|].
  assert (Hone : restored s w (fst (remove w row))).
  { destruct (remove_outcome w row) as [(F1 & F2 & F3) Ho].
    split; [|by intros j Hne; rewrite F1 in Hne|by intros l f Hne; rewrite F2 in Hne|by intros g Hne; rewrite F3 in Hne].
    intros i Hne. destruct (remove w row) as [w' [[|]|e]]; simpl in *.
    - destruct Ho as [Hh [Hn Hrest]%gone_managed]. destruct (decide (i = route_id row)) as [->|E]; [|by rewrite Hrest in Hne].
      split; [done|]. exists row. split_and!; [apply Hin, list_elem_of_here|done|]. by apply holds_netmgmt.
    - by destruct Ho as [-> _].
    - destruct Ho as [Hs%same_routes_managed _]. by rewrite Hs in Hne. }
  assert (Hin' : ∀ x, x ∈ rows → x ∈ as_installed_tunnel s ++ as_bypass_rows s).
  { intros x Hx. apply Hin. by apply list_elem_of_further. }
  destruct (remove w row) as [w' [o|e]]; simpl in *; [etrans; [exact Hone|by apply IH]|].
  destruct (ne_code e =? _)%N; [etrans; [exact Hone|by apply IH]|done].
Qed.
Lemma restore_mtus_restored s pairs : (∀ p, p ∈ pairs → p ∈ as_mtu s) → ∀ w, restored s w (fst (restore_mtus w pairs)).
Proof.
  induction pairs as [|[a b] pairs IH]; intros Hin w; simpl; [done|].
  assert (Hone : restored s w (fst (compare_and_restore w (mt_luid a) (mt_family a) a b))).
  { destruct (mtu_restore_outcome w (mt_luid a) (mt_family a) a b) as [(F1 & F2 & F3) Ho].
    split; [by intros i Hne; rewrite F1 in Hne|by intros j Hne; rewrite F2 in Hne| |by intros g Hne; rewrite F3 in Hne].
    intros l f Hne. destruct (compare_and_restore _ _ _ _ _) as [w' [[|]|e]]; simpl in *.
    - destruct Ho as [Ha Hn]. rewrite Hn in Hne. case_decide as Hd; [|done]. destruct Hd as (-> & -> & _).
      exists (a, b). split_and!; [apply Hin, list_elem_of_here|done..].
    - by destruct Ho as [-> _].
    - by rewrite Ho in Hne. }
  destruct (compare_and_restore _ _ _ _ _) as [w' [o|e]]; simpl in *; [|done].
  etrans; [exact Hone|]. apply IH. intros p Hp. apply Hin. by apply list_elem_of_further.
Qed.
Lemma delete_rows_restored s w luid current : addr_capture w luid = Ok current →
  restored s w (fst (delete_rows w (restore_owned_addresses (as_owned_addresses s) current))).
Proof.
  intros Hc. assert (Hall : ∀ rows w0, fst (delete_rows w0 rows) = fst (delete_addresses w0 rows)).
  { induction rows as [|row rows IH]; intros w0; simpl; [done|]. by destruct (addr_delete w0 row) as [w1 [[]|e]]. }
  rewrite Hall. destruct (delete_addresses_outcome (restore_owned_addresses (as_owned_addresses s) current) w)
    as ((F1 & F2 & F3) & Hj & _).
  split; [by intros i Hne; rewrite F1 in Hne| |by intros l f Hne; rewrite F2 in Hne|by intros g Hne; rewrite F3 in Hne].
  intros j Hne. destruct (Hj j) as [E|[Hn (x & Hx & <-)]]; [done|]. split; [done|].
  destruct (restored_addresses _ _ _ _ Hc x Hx) as [Hin Ha]. eauto.
Qed.

(** Every row of the record was made by the program. *)
Definition rows_made (s : AppliedState) : Prop :=
  Forall (λ row, rr_protocol row = 3%N) (as_installed_tunnel s ++ as_bypass_rows s).
Lemma restore_step_restored s w (r : R) luid step : rows_made s → restored s w (fst (restore_step sha256 w r s luid step)).
Proof.
  intros [Ht Hb]%Forall_app. destruct step; simpl.
  - destruct (addr_capture w luid) as [current|e] eqn:Ec; simpl; [|done]. by eapply delete_rows_restored.
  - apply restore_mtus_restored. intros p. by rewrite elem_of_reverse.
  - apply remove_rows_restored; [|by apply Forall_reverse]. intros row. rewrite elem_of_reverse, elem_of_app. by right.
  - destruct (as_system_proxy s) as [p|]; simpl; [|done]. destruct (capture_for_user r _) as [c|e]; simpl; [|done].
    by destruct (plan_restore _ _ _).
  - apply remove_rows_restored; [|by apply Forall_reverse]. intros row. unfold build_cleanup_order.
    rewrite elem_of_reverse, elem_of_app. by left.
  - destruct (as_dns s) as [d|] eqn:Ed; simpl; [|done].
    destruct (dns_restore_outcome sha256 w (da_guid d) (da_applied d) (da_original d)) as ([(F1 & F2 & F3) De] & Dd & _).
    destruct (dns_restore _ _ _ _ _) as [w' [o|e]]; simpl in *;
      (split; [by intros i Hne; rewrite F1 in Hne|by intros j Hne; rewrite F2 in Hne|by intros l f Hne; rewrite F3 in Hne|];
       intros g Hne; destruct (decide (g = da_guid d)) as [->|Hg]; [|by rewrite De in Hne];
       destruct (Dd Hne) as (x & ? & ?); eauto 6).
Qed.

(** Restoring, in whatever state the machine is and whether or not it succeeds, undoes
    only what was applied and nobody changed since. *)
Theorem restore_keeps_foreign s w (r : R) luid : rows_made s → restored s w (fst (run_restore sha256 w r luid s)).
Proof.
  intros Hm. unfold run_restore. generalize (build_restore_plan (as_plan s)). intros steps. revert w.
  induction steps as [|step steps IH]; intros w; simpl; [done|].
  pose proof (restore_step_restored s w r luid step Hm) as Hs.
  destruct (restore_step sha256 w r s luid step) as [w' [[]|e]]; simpl in *; [by etrans; [|apply IH]|done].
Qed.
End restore.

(** ** Deviations *)

(** Once the proxy settings were written, no restore gets past them: the routes of the
    bypass, the MTU and the address stay, and every further attempt fails alike. *)
Example proxy_blocks_restore :
  let plan := build_apply_plan [IpAddressRow_new (ip 10 9 0 4) 7 24] 1400 None [gateway_row] [] (MkDns [] [])
                [lit "10.1.*"] sample_sid in
  let '(w, r, applied, res) := tunnel_apply toy_sha256 tunnel_net sample_registry 7 None plan in
  let '(w', applied', res') := tunnel_restore toy_sha256 w r 7 applied in
  is_ok res = true ∧ is_ok res' = false ∧ applied' = applied ∧ managed w' (route_id gateway_row) = Some 6%N.
Proof. vm_compute. split_and!; reflexivity. Qed.

(** The routes are recorded as they were asked for, not as the system keeps them: with
    another metric they are taken for another program's and stay, and the restore
    reports success. *)
Example restore_leaves_routes :
  let row := RouteRow_new (ip 59 78 0 0) 16 UNSPECIFIED 7 5 in
  let plan := build_apply_plan [] 1400 None [] [row] (MkDns [] []) [] [] in
  let '(w, r, applied, res) := tunnel_apply toy_sha256 tunnel_net sample_registry 7 None plan in
  let '(w', applied', res') := tunnel_restore toy_sha256 w r 7 applied in
  is_ok res = true ∧ is_ok res' = true ∧ applied' = None ∧ managed w' tunnel_route = Some 10%N.
Proof. vm_compute. split_and!; reflexivity. Qed.
