(* ===== verification/WinTeardown.v ===== *)
(** * The teardown of the tunnel

    [inventory.rs], [cleanup_proof.rs], [teardown.rs] and the owner of [aggregate.rs] of
    the Windows resource crate: the stages by which a tunnel is taken down over the
    retirement saga, and the proof that is signed only at the end.

    A method takes the teardown and returns it with its answer and with what happened
    that matters for the order: workers joined, session ended, adapter closed, the
    journal begun, the settings restored, a stage failed, a proof signed. The network and
    the registry are the ones of the moment a method is called. *)

From Stdlib Require Import NArith ZArith Strings.Byte Strings.String Lia.
From stdpp Require Import gmap.
From S2P Require Import Prelude Identity Model Samples Admission Retirement.
From S2P Require Import NativeError Registry IpHelper Routes NetSettings RouteOwner ApplyTunnel.
From S2P Require Import Journal.

(** ** Inventory *)

(** win32-resource/inventory.rs:3-24 [InventoryItem] *)
Inductive InventoryItem :=
  | II_Adapter | II_Session | II_Address | II_Mtu | II_BypassRoute | II_Route | II_Dns
  | II_PacketAttachment | II_RunningEffect.
#[export] Instance InventoryItem_eq_dec : EqDecision InventoryItem. Proof. solve_decision. Defined.
(** [item as u8] *)
Definition item_u8 (i : InventoryItem) : byte :=
  match i with
  | II_Adapter => x00 | II_Session => x01 | II_Address => x02 | II_Mtu => x03 | II_BypassRoute => x04
  | II_Route => x05 | II_Dns => x06 | II_PacketAttachment => x07 | II_RunningEffect => x08
  end.

(** win32-resource/inventory.rs:26-39 [COMPLETE_INVENTORY] *)
Definition COMPLETE_INVENTORY : list InventoryItem :=
  [II_Adapter; II_Session; II_Address; II_Mtu; II_BypassRoute; II_Route; II_Dns; II_PacketAttachment; II_RunningEffect].
(** win32-resource/inventory.rs:41-52 [is_complete] *)
Definition inventory_complete (items : list InventoryItem) : bool :=
  forallb (λ required, bool_decide (required ∈ items)) COMPLETE_INVENTORY.

(** ** The proof *)

(** win32-resource/cleanup_proof.rs:19-29 [CleanupPredicate] *)
Record CleanupPredicate := MkPredicate { cp_item : InventoryItem; cp_verified : bool; cp_evidence : string }.
(** win32-resource/cleanup_proof.rs:31-41 [CleanupProof] *)
Record CleanupProof := MkCleanupProof {
  pf_clean : CleanProof;
  pf_inventory_digest : InventoryDigest;
  pf_predicates : list CleanupPredicate;
}.

(** win32-resource/cleanup_proof.rs:76-88 [verify_cleanup_proof]: the predicate of every item. *)
Fixpoint observe_items (inventory : list InventoryItem) (predicates : list CleanupPredicate) :
    result string (list InventoryPredicate) :=
  match inventory with
  | [] => Ok []
  | item :: inventory =>
      match List.find (λ p, bool_decide (cp_item p = item)) predicates with
      | None => Err "cleanup proof: predicate missing for inventory item"
      | Some predicate =>
          if negb (cp_verified predicate) then Err "cleanup proof: unverified inventory predicate"
          else
            observed ← observe_items inventory predicates;
            Ok (MkInventoryPredicate (item_u8 item) (cp_verified predicate) :: observed)
      end
  end.
(** win32-resource/cleanup_proof.rs:53-101 [verify_cleanup_proof] *)
Definition verify_cleanup_proof (inventory : list InventoryItem) (predicates : list CleanupPredicate)
    (canonical_inventory_digest : InventoryDigest) (saga : RetirementSaga) (input : ProveCleanInput) :
    RetirementSaga * result string CleanupProof :=
  if negb (inventory_complete inventory) then
    (saga, Err "cleanup proof: inventory must be the complete 9-item canonical list")
  else match observe_items inventory predicates with
  | Err e => (saga, Err e)
  | Ok observed =>
      if negb (length observed =? length predicates) then
        (saga, Err "cleanup proof: predicates must cover the inventory exactly")
      else match observe_cleanup saga observed with
      | (saga, Err e) => (saga, Err e)
      | (saga, Ok _) =>
          match prove_clean saga input with
          | (saga, Err e) => (saga, Err e)
          | (saga, Ok clean) => (saga, Ok (MkCleanupProof clean canonical_inventory_digest predicates))
          end
      end
  end.

(** ** The stages *)

(** win32-resource/teardown.rs:15-31 [TeardownStage] *)
Inductive TeardownStage := TS_PureCancel | TS_JournaledUnblock | TS_ChildJoin | TS_ReverseRestore | TS_FinalHandle | TS_Proof.
#[export] Instance TeardownStage_eq_dec : EqDecision TeardownStage. Proof. solve_decision. Defined.
(** win32-resource/teardown.rs:33-41 [TeardownPlan] *)
Record TeardownPlan := MkTeardownPlan { tp_stages : list TeardownStage; tp_restore_steps : list FamilyStep }.
(** win32-resource/teardown.rs:43-52 [TeardownError] *)
Inductive TeardownError := DestructiveBeforeJournal | StageOutOfOrder | ProofUnavailable.
(** win32-resource/teardown.rs:54-77 [build_teardown_plan] *)
Definition build_teardown_plan (apply : ApplyPlan) (has_packet_children : bool) : TeardownPlan :=
  MkTeardownPlan
    ([TS_PureCancel] ++ (if has_packet_children then [TS_JournaledUnblock; TS_ChildJoin] else [])
     ++ [TS_ReverseRestore; TS_FinalHandle; TS_Proof])
    (build_restore_plan apply).

(** win32-resource/teardown.rs:79-97 [CorePhase], with its order. *)
Inductive CorePhase := CP_Pending | CP_Canceled | CP_Journaled | CP_Restored | CP_FinalDropped | CP_Proved.
Definition phase_rank (p : CorePhase) : nat :=
  match p with
  | CP_Pending => 0 | CP_Canceled => 1 | CP_Journaled => 2 | CP_Restored => 3 | CP_FinalDropped => 4 | CP_Proved => 5
  end.
Definition phase_lt (a b : CorePhase) : bool := phase_rank a <? phase_rank b.

(** win32-resource/aggregate.rs:43-66 [Aggregate]: the interface and what is applied to it. *)
Record Aggregate := MkAggregate { ag_luid : N; ag_applied : option AppliedState }.

(** What happens on the way. *)
Inductive TeardownEvent :=
  | EV_journaled | EV_unblocked | EV_joined (worker : nat) | EV_restored | EV_failed
  | EV_end_session | EV_close_adapter | EV_dropped | EV_proved (predicates : list CleanupPredicate).

(** win32-resource/aggregate.rs:147-160 [Aggregate::drop]: the session, then the adapter. *)
Definition drop_aggregate (a : option Aggregate) : list TeardownEvent :=
  match a with Some _ => [EV_end_session; EV_close_adapter] | None => [] end.

(** win32-resource/teardown.rs:99-132 [WindowsTeardown]; a worker is a number. *)
Record WindowsTeardown := MkTeardown {
  td_aggregate : option Aggregate;
  td_saga : RetirementSaga;
  td_plan : TeardownPlan;
  td_children : list nat;
  td_phase : CorePhase;
  td_unblocked : bool;
  td_children_joined : bool;
  td_failed : bool;
  td_digest : option InventoryDigest;
}.
(** win32-resource/teardown.rs:135-154 [WindowsTeardown::new] *)
Definition WindowsTeardown_new (aggregate : option Aggregate) (saga : RetirementSaga) (plan : TeardownPlan)
    (children : list nat) : WindowsTeardown :=
  MkTeardown aggregate saga plan children CP_Pending false false false None.

(** [self.failed = true], [self.phase = phase]. *)
Definition fail (t : WindowsTeardown) : WindowsTeardown :=
  MkTeardown (td_aggregate t) (td_saga t) (td_plan t) (td_children t) (td_phase t) (td_unblocked t)
    (td_children_joined t) true (td_digest t).
Definition at_phase (p : CorePhase) (t : WindowsTeardown) : WindowsTeardown :=
  MkTeardown (td_aggregate t) (td_saga t) (td_plan t) (td_children t) p (td_unblocked t)
    (td_children_joined t) (td_failed t) (td_digest t).
Definition has_children (t : WindowsTeardown) : bool := bool_decide (TS_ChildJoin ∈ tp_stages (td_plan t)).

(** win32-resource/teardown.rs:156-167 [pure_cancel] *)
Definition pure_cancel (t : WindowsTeardown) : WindowsTeardown :=
  if phase_lt (td_phase t) CP_Canceled then at_phase CP_Canceled t else t.
(** win32-resource/teardown.rs:220-237 [unblock_native_read] *)
Definition unblock_native_read (t : WindowsTeardown) : WindowsTeardown * list TeardownEvent * result TeardownError () :=
  if phase_lt (td_phase t) CP_Journaled then (t, [], Err DestructiveBeforeJournal)
  else
    (MkTeardown (td_aggregate t) (td_saga t) (td_plan t) (td_children t) (td_phase t) true
       (td_children_joined t) (td_failed t) (td_digest t), [EV_unblocked], Ok ()).
(** win32-resource/teardown.rs:239-259 [join_children] *)
Definition join_children (t : WindowsTeardown) : WindowsTeardown * list TeardownEvent * result TeardownError () :=
  if phase_lt (td_phase t) CP_Journaled then (fail t, [EV_failed], Err DestructiveBeforeJournal)
  else
    (MkTeardown (td_aggregate t) (td_saga t) (td_plan t) [] (td_phase t) (td_unblocked t) true (td_failed t)
       (td_digest t), EV_joined <$> td_children t, Ok ()).
(** win32-resource/teardown.rs:290-319 [drop_final_handle] *)
Definition drop_final_handle (t : WindowsTeardown) : WindowsTeardown * list TeardownEvent * result TeardownError () :=
  if phase_lt (td_phase t) CP_Journaled then (t, [], Err DestructiveBeforeJournal)
  else if phase_lt (td_phase t) CP_Restored then (t, [], Err StageOutOfOrder)
  else if has_children t && negb (td_children_joined t) then (t, [], Err StageOutOfOrder)
  else
    (MkTeardown None (td_saga t) (td_plan t) (td_children t) CP_FinalDropped (td_unblocked t)
       (td_children_joined t) (td_failed t) (td_digest t), drop_aggregate (td_aggregate t) ++ [EV_dropped], Ok ()).
(** win32-resource/teardown.rs:363-369 [cleanup_stage_completed] *)
Definition cleanup_stage_completed (t : WindowsTeardown) : bool :=
  negb (phase_lt (td_phase t) CP_FinalDropped) && (negb (has_children t) || (td_unblocked t && td_children_joined t)).
(** win32-resource/teardown.rs:327-331 [is_complete] *)
Definition teardown_is_complete (t : WindowsTeardown) : bool :=
  negb (phase_lt (td_phase t) CP_Proved) && cleanup_stage_completed t.
(** win32-resource/teardown.rs:333-361 [cleanup_proof] *)
Definition cleanup_proof (t : WindowsTeardown) (input : ProveCleanInput) (predicates : list CleanupPredicate) :
    WindowsTeardown * list TeardownEvent * result TeardownError CleanupProof :=
  if td_failed t then (t, [], Err ProofUnavailable)
  else if negb (cleanup_stage_completed t) then (t, [], Err ProofUnavailable)
  else match td_digest t with
  | None => (t, [], Err ProofUnavailable)
  | Some digest =>
      let '(saga, res) := verify_cleanup_proof COMPLETE_INVENTORY predicates digest (td_saga t) input in
      let t := MkTeardown (td_aggregate t) saga (td_plan t) (td_children t) (td_phase t) (td_unblocked t)
                 (td_children_joined t) (td_failed t) (td_digest t) in
      match res with
      | Err _ => (t, [], Err ProofUnavailable)
      | Ok proof => (at_phase CP_Proved t, [EV_proved predicates], Ok proof)
      end
  end.
(** win32-resource/teardown.rs:372-384 [WindowsTeardown::drop] *)
Definition drop_teardown (t : WindowsTeardown) : list TeardownEvent :=
  (EV_joined <$> td_children t) ++ drop_aggregate (td_aggregate t).

Section teardown.
Context `{RecordCodec}.

(** win32-resource/teardown.rs:169-218 [begin] *)
Definition teardown_begin (t : WindowsTeardown) (id : RetirementOperationId) (trigger : CleanupTrigger)
    (origin : ErrorSubject) (prior : PlatformOwnershipRef) (digest : InventoryDigest) :
    WindowsTeardown * list TeardownEvent * result TeardownError () :=
  if phase_lt (td_phase t) CP_Canceled then (fail t, [EV_failed], Err StageOutOfOrder)
  else if negb (phase_lt (td_phase t) CP_Journaled) then (t, [], Ok ())
  else
    let '(saga, res) := begin (td_saga t) id trigger origin prior (item_u8 <$> COMPLETE_INVENTORY) digest in
    let t := MkTeardown (td_aggregate t) saga (td_plan t) (td_children t) (td_phase t) (td_unblocked t)
               (td_children_joined t) (td_failed t) (td_digest t) in
    match res with
    | Err _ => (fail t, [EV_failed], Err DestructiveBeforeJournal)
    | Ok _ =>
        (MkTeardown (td_aggregate t) saga (td_plan t) (td_children t) CP_Journaled (td_unblocked t)
           (td_children_joined t) (td_failed t) (Some digest), [EV_journaled], Ok ())
    end.

Context {W : Type} `{IpHelper W}.
Context {R : Type} `{Win32Registry R}.
Variable sha256 : list byte → array 32.

(** win32-resource/teardown.rs:261-288 [restore_owned_resources] *)
Definition restore_owned_resources (t : WindowsTeardown) (w : W) (r : R) :
    W * WindowsTeardown * list TeardownEvent * result TeardownError () :=
  if phase_lt (td_phase t) CP_Journaled then (w, fail t, [EV_failed], Err DestructiveBeforeJournal)
  else match td_aggregate t with
  | None => (w, at_phase CP_Restored t, [EV_restored], Ok ())
  | Some a =>
      let '(w, applied, res) := tunnel_restore sha256 w r (ag_luid a) (ag_applied a) in
      let t := MkTeardown (Some (MkAggregate (ag_luid a) applied)) (td_saga t) (td_plan t) (td_children t) (td_phase t)
                 (td_unblocked t) (td_children_joined t) (td_failed t) (td_digest t) in
      match res with
      | Err _ => (w, fail t, [EV_failed], Err ProofUnavailable)
      | Ok _ => (w, at_phase CP_Restored t, [EV_restored], Ok ())
      end
  end.

(** ** Histories *)

Inductive TeardownOp :=
  | TO_cancel
  | TO_begin (id : RetirementOperationId) (trigger : CleanupTrigger) (origin : ErrorSubject)
      (prior : PlatformOwnershipRef) (digest : InventoryDigest)
  | TO_unblock | TO_join
  | TO_restore (w : W) (r : R)
  | TO_drop
  | TO_proof (input : ProveCleanInput) (predicates : list CleanupPredicate).
Definition teardown_step (t : WindowsTeardown) (op : TeardownOp) : WindowsTeardown * list TeardownEvent :=
  match op with
  | TO_cancel => (pure_cancel t, [])
  | TO_begin id trigger origin prior digest => fst (teardown_begin t id trigger origin prior digest)
  | TO_unblock => fst (unblock_native_read t)
  | TO_join => fst (join_children t)
  | TO_restore w r => let '(_, t, events, _) := restore_owned_resources t w r in (t, events)
  | TO_drop => fst (drop_final_handle t)
  | TO_proof input predicates => fst (cleanup_proof t input predicates)
  end.
Fixpoint teardown_run (t : WindowsTeardown) (ops : list TeardownOp) : WindowsTeardown * list TeardownEvent :=
  match ops with
  | [] => (t, [])
  | op :: ops =>
      let '(t, events) := teardown_step t op in
      let '(t, rest) := teardown_run t ops in (t, events ++ rest)
  end.
(** All that happens until the value is dropped. *)
Definition teardown_history (t : WindowsTeardown) (ops : list TeardownOp) : list TeardownEvent :=
  let '(t, events) := teardown_run t ops in events ++ drop_teardown t.
End teardown.

(** ** What is true of every history *)

(** What must have happened before an event, for a tunnel with these workers. *)
Definition in_order (children : list nat) (before : list TeardownEvent) (e : TeardownEvent) : Prop :=
  match e with
  | EV_end_session => (EV_end_session ∉ before) ∧ (∀ c, c ∈ children → EV_joined c ∈ before)
  | EV_close_adapter => EV_end_session ∈ before
  | EV_unblocked | EV_restored => EV_journaled ∈ before
  | EV_dropped => EV_restored ∈ before ∧ (∀ c, c ∈ children → EV_joined c ∈ before)
  | EV_proved predicates =>
      EV_dropped ∈ before ∧ (EV_failed ∉ before) ∧ (children ≠ [] → EV_unblocked ∈ before) ∧
      (∀ p, EV_proved p ∉ before) ∧ length predicates = 9 ∧
      (∀ item, ∃ p, p ∈ predicates ∧ cp_item p = item ∧ cp_verified p = true)
  | EV_journaled | EV_joined _ | EV_failed => True
  end.
(** Ending the session, and closing its adapter. *)
Definition is_release (e : TeardownEvent) : bool := match e with EV_end_session | EV_close_adapter => true | _ => false end.
Definition released (events : list TeardownEvent) : list TeardownEvent := List.filter is_release events.
(** All there is to release of a tunnel: nothing, if it was given none. *)
Definition whole_release (aggregate : option Aggregate) : list TeardownEvent :=
  match aggregate with Some _ => [EV_end_session; EV_close_adapter] | None => [] end.
Definition is_finish (e : TeardownEvent) : bool := match e with EV_dropped | EV_proved _ => true | _ => false end.
Definition let_go (aggregate : option Aggregate) (before : list TeardownEvent) (e : TeardownEvent) : Prop :=
  is_finish e = true → released before = whole_release aggregate.

(** Every event stands to the ones before it as [P] says. *)
Fixpoint ordered_from (P : list TeardownEvent → TeardownEvent → Prop) (before events : list TeardownEvent) : Prop :=
  match events with
  | [] => True
  | e :: events => P before e ∧ ordered_from P (before ++ [e]) events
  end.

Lemma ordered_app P l1 l2 : ∀ before,
  ordered_from P before (l1 ++ l2) ↔ ordered_from P before l1 ∧ ordered_from P (before ++ l1) l2.
Proof.
  induction l1 as [|e l1 IH]; intros before; simpl; [rewrite app_nil_r; naive_solver|].
  rewrite IH, <-app_assoc. naive_solver.
Qed.
Lemma ordered_at P events before e after : ordered_from P [] events → events = before ++ e :: after → P before e.
Proof. intros Ho ->. apply ordered_app in Ho as [_ [Ho _]]. exact Ho. Qed.

Lemma observe_items_Ok inventory predicates observed : observe_items inventory predicates = Ok observed →
  length observed = length inventory ∧
  ∀ item, item ∈ inventory → ∃ p, p ∈ predicates ∧ cp_item p = item ∧ cp_verified p = true.
Proof.
  revert observed. induction inventory as [|i inv IH]; intros observed; simpl.
  { intros [= <-]. split; [done|]. intros item Hi. by apply not_elem_of_nil in Hi. }
  destruct (List.find _ predicates) as [p|] eqn:Ef; [|done]. destruct (cp_verified p) eqn:Ev; simpl; [|done].
  destruct (observe_items inv predicates) as [l|e] eqn:Eo; simpl; [|done]. intros [= <-].
  destruct (IH l eq_refl) as [Hl Hi]. split; [simpl; by rewrite Hl|].
  intros item [->|Hin]%elem_of_cons; [|by apply Hi]. apply List.find_some in Ef as [Hp Hd%bool_decide_eq_true].
  exists p. split_and!; [by apply list_elem_of_In|done..].
Qed.
Lemma all_items item : item ∈ COMPLETE_INVENTORY.
Proof. apply (bool_decide_unpack _). by destruct item. Qed.
(** A signed proof: a predicate for every item, verified, and a saga that had not proved. *)
Lemma verify_proof_Ok predicates digest saga input saga' proof :
  verify_cleanup_proof COMPLETE_INVENTORY predicates digest saga input = (saga', Ok proof) →
  length predicates = 9 ∧ (∀ item, ∃ p, p ∈ predicates ∧ cp_item p = item ∧ cp_verified p = true) ∧
  sg_phase saga = Phase_Started ∧ sg_phase saga' = Phase_Proved ∧ pf_inventory_digest proof = digest.
Proof.
  unfold verify_cleanup_proof. change (inventory_complete COMPLETE_INVENTORY) with true. simpl negb. cbv iota.
  destruct (observe_items COMPLETE_INVENTORY predicates) as [observed|e] eqn:Eo; [|done].
  destruct (observe_items_Ok _ _ _ Eo) as [Hl Hi]. destruct (Nat.eqb_spec (length observed) (length predicates)) as [Hlen|]; [|done].
  simpl negb. cbv iota. unfold observe_cleanup. destruct (bool_decide (sg_phase saga = Phase_Started)) eqn:Ep; [|done].
  apply bool_decide_eq_true in Ep. simpl negb. cbv iota. destruct (observe_all _ _ _); [|done].
  destruct (negb (size _ =? _)); [done|]. unfold prove_clean. simpl.
  destruct (sg_retirement_operation_id saga); [|done]. simpl. intros [= <- <-].
  split_and!; [by rewrite <-Hlen|intros item; apply Hi, all_items|done..].
Qed.
Lemma verify_proof_phase predicates digest saga input saga' res :
  verify_cleanup_proof COMPLETE_INVENTORY predicates digest saga input = (saga', res) →
  sg_phase saga' = Phase_Started → sg_phase saga = Phase_Started.
Proof.
  unfold verify_cleanup_proof. change (inventory_complete COMPLETE_INVENTORY) with true. simpl negb. cbv iota.
  destruct (observe_items COMPLETE_INVENTORY predicates) as [observed|e]; [|by intros [= <- _]].
  destruct (negb (length observed =? _)); [by intros [= <- _]|]. unfold observe_cleanup.
  destruct (negb (bool_decide _)); [by intros [= <- _]|]. destruct (observe_all _ _ _); [|by intros [= <- _]].
  destruct (negb (size _ =? _)); [by intros [= <- _]|]. unfold prove_clean. simpl.
  destruct (sg_retirement_operation_id saga); intros [= <- _]; done.
Qed.

(** The state says what has happened. *)
Record tells (children : list nat) (t : WindowsTeardown) (past : list TeardownEvent) : Prop := {
  tl_children : ∀ c, c ∈ children → c ∈ td_children t ∨ EV_joined c ∈ past;
  tl_joined : td_children_joined t = true → td_children t = [];
  tl_plan : children ≠ [] → has_children t = true;
  tl_journaled : 2 ≤ phase_rank (td_phase t) → EV_journaled ∈ past;
  tl_restored : 3 ≤ phase_rank (td_phase t) → EV_restored ∈ past;
  tl_dropped : 4 ≤ phase_rank (td_phase t) → EV_dropped ∈ past;
  tl_failed : td_failed t = false → EV_failed ∉ past;
  tl_unblocked : td_unblocked t = true → EV_unblocked ∈ past;
  tl_ended : EV_end_session ∈ past → td_aggregate t = None;
  tl_proved : (∃ p, EV_proved p ∈ past) → sg_phase (td_saga t) ≠ Phase_Started ∧ 2 ≤ phase_rank (td_phase t);
  tl_order : ordered_from (in_order children) [] past;
}.

Lemma tells_new aggregate saga apply children :
  tells children (WindowsTeardown_new aggregate saga (build_teardown_plan apply (bool_decide (children ≠ []))) children) [].
Proof.
  split; try done; cbn [td_phase WindowsTeardown_new phase_rank td_children td_unblocked td_children_joined]; try lia.
  - by left.
  - intros Hc. unfold has_children, WindowsTeardown_new, build_teardown_plan. cbn [td_plan tp_stages].
    rewrite (bool_decide_eq_true_2 (children ≠ [])) by done. reflexivity.
  - intros _. apply not_elem_of_nil.
  - by intros ?%not_elem_of_nil.
  - by intros [p ?%not_elem_of_nil].
Qed.

Lemma phase_lt_false a b : phase_lt a b = false → phase_rank b ≤ phase_rank a.
Proof. unfold phase_lt. by intros ?%Nat.ltb_ge. Qed.
Lemma phase_lt_true a b : phase_lt a b = true → phase_rank a < phase_rank b.
Proof. unfold phase_lt. by intros ?%Nat.ltb_lt. Qed.

(** What stays told when more happens. *)
Lemma tells_more children t past : tells children t past →
  (∀ c, c ∈ children → c ∈ td_children t ∨ EV_joined c ∈ past) ∧
  ∀ events e, e ∈ past → e ∈ past ++ events.
Proof. intros Ht. split; [apply Ht|]. intros events e He. apply elem_of_app. by left. Qed.

(** Nothing but the phase and the saga changes, and what happened is harmless. *)
Lemma tells_same children t t' past : tells children t past →
  td_children t' = td_children t → td_children_joined t' = td_children_joined t → has_children t' = has_children t →
  td_unblocked t' = td_unblocked t → (td_aggregate t = None → td_aggregate t' = None) →
  (td_failed t' = false → td_failed t = false) →
  (phase_rank (td_phase t') = phase_rank (td_phase t) ∨ phase_rank (td_phase t) < 2 ∧ phase_rank (td_phase t') < 2) →
  (sg_phase (td_saga t') = Phase_Started → sg_phase (td_saga t) = Phase_Started) → tells children t' past.
Proof.
  intros [] E1 E2 E3 E4 E5 E6 E7 E8. split; rewrite ?E1, ?E2, ?E3, ?E4; eauto.
  - intros Hp. apply tl_journaled0. lia.
  - intros Hp. apply tl_restored0. lia.
  - intros Hp. apply tl_dropped0. lia.
  - intros Hx. destruct (tl_proved0 Hx) as [? ?]. split; [by intros ?%E8|lia].
Qed.
(** A failure is noted. *)
Lemma tells_fail children t past : tells children t past → tells children (fail t) (past ++ [EV_failed]).
Proof.
  intros Ht. pose proof (λ e, proj2 (tells_more _ _ _ Ht) [EV_failed] e) as Hm. destruct Ht. split; simpl; eauto.
  - intros c Hc. destruct (tl_children0 c Hc); [by left|right; eauto].
  - done.
  - intros [?|Hx]%elem_of_app; [eauto|]. by apply list_elem_of_singleton in Hx.
  - intros [p [?|Hx]%elem_of_app]; [eauto|]. by apply list_elem_of_singleton in Hx.
  - apply ordered_app. by split.
Qed.

Section histories.
Context `{RecordCodec}.
Context {W : Type} `{IpHelper W}.
Context {R : Type} `{Win32Registry R}.
Variable sha256 : list byte → array 32.

(** Past events are kept; a list of one event has no other. *)
Ltac past := repeat (rewrite elem_of_app || rewrite list_elem_of_singleton || rewrite elem_of_nil); eauto.

Lemma begin_refused s id trigger origin prior expected digest s' e :
  begin s id trigger origin prior expected digest = (s', Err e) → s' = s.
Proof. unfold begin. intros Hb. repeat case_match; by simplify_eq. Qed.

Lemma begin_tells children t past id trigger origin prior digest : tells children t past →
  let out := teardown_begin t id trigger origin prior digest in tells children (fst (fst out)) (past ++ snd (fst out)).
Proof.
  intros Ht. unfold teardown_begin. destruct (phase_lt (td_phase t) CP_Canceled) eqn:E1; [by apply tells_fail|].
  destruct (phase_lt (td_phase t) CP_Journaled) eqn:E2; simpl; [|by rewrite app_nil_r].
  apply phase_lt_true in E2. simpl in E2.
  destruct (begin _ _ _ _ _ _ _) as [saga [[]|e]] eqn:Eb; simpl.
  2:{ apply begin_refused in Eb as ->. apply (tells_fail _ (MkTeardown _ _ _ _ _ _ _ _ _)). eapply tells_same; eauto. }
  destruct Ht. split; simpl; eauto; try lia; try (by intros; past).
  - intros c Hc. destruct (tl_children0 c Hc); [by left|right; past].
  - intros Hf. past. intros [Hx|Hx]; [by apply tl_failed0|done].
  - past. intros [Hx|Hx]; [by apply tl_ended0|done].
  - intros [p [Hx|Hx]%elem_of_app]; [|by apply list_elem_of_singleton in Hx]. destruct tl_proved0 as [_ ?]; [eauto|lia].
  - apply ordered_app. by split.
Qed.
Lemma unblock_tells children t past : tells children t past →
  let out := unblock_native_read t in tells children (fst (fst out)) (past ++ snd (fst out)).
Proof.
  intros Ht. unfold unblock_native_read. destruct (phase_lt _ _) eqn:E; simpl; [by rewrite app_nil_r|].
  apply phase_lt_false in E. destruct Ht. split; simpl; eauto; try (by intros; past).
  - intros c Hc. destruct (tl_children0 c Hc); [by left|right; past].
  - intros Hf. past. intros [Hx|Hx]; [by apply tl_failed0|done].
  - past. intros [Hx|Hx]; [by apply tl_ended0|done].
  - intros [p [Hx|Hx]%elem_of_app]; [eauto|by apply list_elem_of_singleton in Hx].
  - apply ordered_app. split; [done|]. simpl. split; [|done]. by apply tl_journaled0.
Qed.
Lemma joined_ordered children workers : ∀ before, ordered_from (in_order children) before (EV_joined <$> workers).
Proof. induction workers as [|c workers IH]; intros before; simpl; [done|]. split; [done|apply IH]. Qed.
Lemma join_tells children t past : tells children t past →
  let out := join_children t in tells children (fst (fst out)) (past ++ snd (fst out)).
Proof.
  intros Ht. unfold join_children. destruct (phase_lt _ _) eqn:E; [by apply tells_fail|].
  assert (Hno : ∀ e, (∀ c, e ≠ EV_joined c) → e ∈ past ++ (EV_joined <$> td_children t) → e ∈ past).
  { intros e He [?|(c & Hc & _)%list_elem_of_fmap]%elem_of_app; [done|]. by destruct (He c). }
  destruct Ht. split; simpl; eauto; try (by intros; past).
  - intros c Hc. right. past. destruct (tl_children0 c Hc); [right|by left]. by apply list_elem_of_fmap_2.
  - intros Hf Hx. apply tl_failed0; [done|]. by apply Hno.
  - intros [p Hx]. apply tl_proved0. exists p. by apply Hno.
  - apply ordered_app. split; [done|apply joined_ordered].
Qed.

Lemma restore_tells children t past (w : W) (r : R) : tells children t past →
  let '(_, t', events, _) := restore_owned_resources sha256 t w r in tells children t' (past ++ events).
Proof.
  intros Ht. unfold restore_owned_resources. destruct (phase_lt _ _) eqn:E; [by apply tells_fail|].
  apply phase_lt_false in E. simpl in E.
  assert (Hok : ∀ t', tells children t' past → 2 ≤ phase_rank (td_phase t') →
    tells children (at_phase CP_Restored t') (past ++ [EV_restored])).
  { intros t' Ht' E'. destruct Ht'. split; simpl; eauto; try lia; try (by intros; past).
    - intros c Hc. destruct (tl_children0 c Hc); [by left|right; past].
    - intros Hf. past. intros [Hx|Hx]; [by apply tl_failed0|done].
      - past. intros [Hx|Hx]; [by apply tl_ended0|done].
    - intros [p [Hx|Hx]%elem_of_app]; [|by apply list_elem_of_singleton in Hx].
      destruct tl_proved0 as [? _]; [eauto|]. split; [done|lia].
    - apply ordered_app. split; [done|]. simpl. split; [|done]. by apply tl_journaled0. }
  destruct (td_aggregate t) as [a|] eqn:Ea; [|by apply Hok].
  destruct (tunnel_restore _ _ _ _ _) as [[w' applied] [[]|e]].
  - apply (Hok (MkTeardown _ _ _ _ _ _ _ _ _)); [|done]. eapply tells_same; eauto. simpl. by rewrite Ea.
  - apply (tells_fail _ (MkTeardown _ _ _ _ _ _ _ _ _)). eapply tells_same; eauto. simpl. by rewrite Ea.
Qed.

(** All workers of the tunnel are joined. *)
Lemma tells_joined children t past : tells children t past → (has_children t && negb (td_children_joined t)) = false →
  ∀ c, c ∈ children → EV_joined c ∈ past.
Proof.
  intros Ht Hj c Hc. rewrite (tl_plan _ _ _ Ht) in Hj by (intros ->; by apply not_elem_of_nil in Hc). simpl in Hj.
  apply negb_false_iff in Hj. destruct (tl_children _ _ _ Ht c Hc) as [Hin|]; [|done].
  rewrite (tl_joined _ _ _ Ht Hj) in Hin. by apply not_elem_of_nil in Hin.
Qed.
Lemma drop_tells children t past : tells children t past →
  let out := drop_final_handle t in tells children (fst (fst out)) (past ++ snd (fst out)).
Proof.
  intros Ht. unfold drop_final_handle. destruct (phase_lt (td_phase t) CP_Journaled) eqn:E; simpl; [by rewrite app_nil_r|].
  destruct (phase_lt (td_phase t) CP_Restored) eqn:E2; simpl; [by rewrite app_nil_r|].
  destruct (has_children t && _) eqn:E3; simpl; [by rewrite app_nil_r|].
  pose proof (tells_joined _ _ _ Ht E3) as Hjoin. apply phase_lt_false in E2. simpl in E2.
  set (more := drop_aggregate (td_aggregate t) ++ [EV_dropped]).
  assert (Hno : ∀ e, e ∈ past ++ more → e ∈ past ∨ e = EV_end_session ∨ e = EV_close_adapter ∨ e = EV_dropped).
  { intros e [?|Hm]%elem_of_app; [by left|]. right. unfold more in Hm. destruct (td_aggregate t); simpl in Hm;
      rewrite ?elem_of_cons, ?elem_of_nil in Hm; naive_solver. }
  assert (Hd : EV_dropped ∈ past ++ more) by (unfold more; past).
  destruct Ht. split; simpl; eauto; try (by intros; past).
  - intros _. past. left. apply tl_journaled0. lia.
  - intros Hf Hx. apply Hno in Hx as [?|[?|[?|?]]]; [by apply tl_failed0|done..].
  - intros [p Hx]. apply Hno in Hx as [?|[?|[?|?]]]; [|done..]. destruct tl_proved0 as [? _]; [eauto|]. split; [done|lia].
  - apply ordered_app. split; [done|]. unfold more. rewrite app_nil_l. destruct (td_aggregate t) eqn:Ea; simpl; split_and!; try done.
    + intros Hx. apply tl_ended0 in Hx. done.
    + past.
    + past.
    + intros c Hc. past.
    + by apply tl_restored0.
Qed.
Lemma proof_tells children t past input predicates : tells children t past →
  let out := cleanup_proof t input predicates in tells children (fst (fst out)) (past ++ snd (fst out)).
Proof.
  intros Ht. unfold cleanup_proof. destruct (td_failed t) eqn:Ef; simpl; [by rewrite app_nil_r|].
  destruct (cleanup_stage_completed t) eqn:Ec; simpl; [|by rewrite app_nil_r].
  destruct (td_digest t) as [d|]; simpl; [|by rewrite app_nil_r].
  apply andb_true_iff in Ec as [Hp%negb_true_iff%phase_lt_false Hu]. simpl in Hp.
  destruct (verify_cleanup_proof _ _ _ _ _) as [saga [proof|e]] eqn:Ev; simpl.
  2:{ rewrite app_nil_r. eapply tells_same; eauto. simpl. intros Hs. by eapply verify_proof_phase. }
  destruct (verify_proof_Ok _ _ _ _ _ _ Ev) as (Hlen & Hall & Hst & Hpr & _).
  destruct Ht. split; simpl; eauto; try (by intros; past).
  - intros c Hc. destruct (tl_children0 c Hc); [by left|right; past].
  - intros _. past. left. apply tl_journaled0. lia.
  - intros _. past. left. apply tl_restored0. lia.
  - intros Hf. past. intros [Hx|Hx]; [by apply tl_failed0|done].
  - past. intros [Hx|Hx]; [by apply tl_ended0|done].
  - intros _. rewrite Hpr. split; [done|lia].
  - apply ordered_app. split; [done|]. simpl. split_and!; [by apply tl_dropped0|by apply tl_failed0| | |done..].
    + intros Hne. rewrite tl_plan0 in Hu by done. simpl in Hu. apply andb_true_iff in Hu as [Hu _]. by apply tl_unblocked0.
    + intros p Hx. destruct tl_proved0 as [Hns _]; [eauto|]. done.
Qed.

Lemma step_tells children t past op : tells children t past →
  let out := teardown_step (W:=W) (R:=R) sha256 t op in tells children (fst out) (past ++ snd out).
Proof.
  intros Ht. destruct op; simpl.
  - rewrite app_nil_r. unfold pure_cancel. destruct (phase_lt _ _) eqn:E; [|done]. apply phase_lt_true in E. simpl in E.
    eapply tells_same; eauto. simpl. right. lia.
  - by apply begin_tells.
  - by apply unblock_tells.
  - by apply join_tells.
  - pose proof (restore_tells children t past w r Ht) as Hr.
    destruct (restore_owned_resources sha256 t w r) as [[[w' t'] events] res]. done.
  - by apply drop_tells.
  - by apply proof_tells.
Qed.
Lemma run_tells children ops : ∀ t past, tells children t past →
  let out := teardown_run (W:=W) (R:=R) sha256 t ops in tells children (fst out) (past ++ snd out).
Proof.
  induction ops as [|op ops IH]; intros t past Ht; simpl; [by rewrite app_nil_r|].
  pose proof (step_tells children t past op Ht) as Hs. destruct (teardown_step sha256 t op) as [t' events]. simpl in Hs.
  specialize (IH t' _ Hs). destruct (teardown_run sha256 t' ops) as [t2 rest]. simpl in *. by rewrite app_assoc.
Qed.

(** The session and the adapter are released once, and before the teardown says it is over. *)
Record closes (aggregate : option Aggregate) (t : WindowsTeardown) (past : list TeardownEvent) : Prop := {
  cl_released : released past ++ whole_release (td_aggregate t) = whole_release aggregate;
  cl_gone : 4 ≤ phase_rank (td_phase t) → td_aggregate t = None;
  cl_order : ordered_from (let_go aggregate) [] past;
}.
Lemma quiet_ordered aggregate events : forallb (λ e, negb (is_finish e)) events = true →
  ∀ before, ordered_from (let_go aggregate) before events.
Proof.
  induction events as [|e events IH]; simpl; [done|]. intros [He%negb_true_iff Hall]%andb_true_iff before.
  split; [unfold let_go; congruence|by apply IH].
Qed.
(** A step that neither releases nor finishes anything. *)
Lemma closes_quiet aggregate t t' past events : closes aggregate t past →
  forallb (λ e, negb (is_finish e) && negb (is_release e)) events = true →
  whole_release (td_aggregate t') = whole_release (td_aggregate t) →
  (4 ≤ phase_rank (td_phase t') → 4 ≤ phase_rank (td_phase t)) → closes aggregate t' (past ++ events).
Proof.
  intros [Hr Hg Ho] Hq Ha Hp.
  assert (released events = []) as Hn.
  { clear -Hq. induction events as [|e events IH]; [done|]. simpl in Hq |- *.
    apply andb_true_iff in Hq as [[_ He%negb_true_iff]%andb_true_iff Hq]. rewrite He. by apply IH. }
  split.
  - unfold released in *. rewrite List.filter_app, Hn, app_nil_r, Ha. exact Hr.
  - intros Hp'. specialize (Hg (Hp Hp')). rewrite Hg in Ha. by destruct (td_aggregate t').
  - apply ordered_app. split; [done|]. apply quiet_ordered.
    clear -Hq. induction events as [|e events IH]; [done|]. simpl in Hq |- *.
    apply andb_true_iff in Hq as [[-> _]%andb_true_iff Hq]. by apply IH.
Qed.
Lemma closes_joined (workers : list nat) : forallb (λ e, negb (is_finish e) && negb (is_release e)) (EV_joined <$> workers) = true.
Proof. by induction workers. Qed.

Lemma closes_drop aggregate t past : closes aggregate t past →
  let out := drop_final_handle t in closes aggregate (fst (fst out)) (past ++ snd (fst out)).
Proof.
  intros Hc. unfold drop_final_handle.
  destruct (phase_lt (td_phase t) CP_Journaled); simpl; [by rewrite app_nil_r|].
  destruct (phase_lt (td_phase t) CP_Restored); simpl; [by rewrite app_nil_r|].
  destruct (has_children t && _); simpl; [by rewrite app_nil_r|]. destruct Hc as [Hr Hg Ho].
  assert (released (past ++ drop_aggregate (td_aggregate t)) = whole_release aggregate) as Hd.
  { unfold released in *. rewrite List.filter_app, <-Hr. f_equal. by destruct (td_aggregate t). }
  split; simpl; [|done|].
  - rewrite app_assoc, app_nil_r. unfold released in *. rewrite List.filter_app, Hd. simpl. by rewrite app_nil_r.
  - rewrite app_assoc. apply ordered_app. split; [|simpl; split; [by intros _|done]].
    apply ordered_app. split; [done|]. apply quiet_ordered. by destruct (td_aggregate t).
Qed.
Lemma closes_proof aggregate t past input predicates : closes aggregate t past →
  let out := cleanup_proof t input predicates in closes aggregate (fst (fst out)) (past ++ snd (fst out)).
Proof.
  intros Hc. unfold cleanup_proof. destruct (td_failed t); simpl; [by rewrite app_nil_r|].
  destruct (cleanup_stage_completed t) eqn:Ec; simpl; [|by rewrite app_nil_r].
  destruct (td_digest t) as [d|]; simpl; [|by rewrite app_nil_r].
  apply andb_true_iff in Ec as [Hp%negb_true_iff%phase_lt_false _]. simpl in Hp.
  destruct (verify_cleanup_proof _ _ _ _ _) as [saga [proof|e]]; simpl; [|by eapply closes_quiet].
  destruct Hc as [Hr Hg Ho]. specialize (Hg Hp). rewrite Hg, app_nil_r in Hr. split; simpl; [|done|].
  - unfold released in *. rewrite List.filter_app, Hr, Hg. simpl. by rewrite !app_nil_r.
  - apply ordered_app. split; [done|]. simpl. split; [by intros _|done].
Qed.
Lemma step_closes aggregate t past op : closes aggregate t past →
  let out := teardown_step (W:=W) (R:=R) sha256 t op in closes aggregate (fst out) (past ++ snd out).
Proof.
  intros Hc. destruct op as [|id trigger origin prior digest| | |w r| |input predicates]; simpl.
  - unfold pure_cancel. destruct (phase_lt _ _) eqn:E; [|by rewrite app_nil_r].
    eapply closes_quiet; [exact Hc|done|done|simpl; lia].
  - unfold teardown_begin. destruct (phase_lt (td_phase t) CP_Canceled); simpl; [by eapply closes_quiet|].
    destruct (phase_lt (td_phase t) CP_Journaled); simpl; [|by rewrite app_nil_r].
    destruct (begin _ _ _ _ _ _ _) as [saga [[]|e]]; simpl; (eapply closes_quiet; [exact Hc|done|done|simpl; done || lia]).
  - unfold unblock_native_read. destruct (phase_lt _ _); simpl; [by rewrite app_nil_r|by eapply closes_quiet].
  - unfold join_children. destruct (phase_lt _ _); simpl; [by eapply closes_quiet|].
    eapply closes_quiet; [exact Hc|apply closes_joined|done|done].
  - destruct (restore_owned_resources sha256 t w r) as [[[w' t'] events] res] eqn:Er. simpl. revert Er.
    unfold restore_owned_resources. destruct (phase_lt _ _); [intros [= _ <- <- _]; by eapply closes_quiet|].
    destruct (td_aggregate t) as [a|] eqn:Ea; [|intros [= _ <- <- _]; eapply closes_quiet; [exact Hc|done|done|simpl; lia]].
    destruct (tunnel_restore _ _ _ _ _) as [[w1 applied] [[]|e]]; intros [= _ <- <- _];
      (eapply closes_quiet; [exact Hc|done|simpl; by rewrite Ea|simpl; done || lia]).
  - by apply closes_drop.
  - by apply closes_proof.
Qed.
Lemma run_closes aggregate ops : ∀ t past, closes aggregate t past →
  let out := teardown_run (W:=W) (R:=R) sha256 t ops in closes aggregate (fst out) (past ++ snd out).
Proof.
  induction ops as [|op ops IH]; intros t past Ht; simpl; [by rewrite app_nil_r|].
  pose proof (step_closes aggregate t past op Ht) as Hs. destruct (teardown_step sha256 t op) as [t' events]. simpl in Hs.
  specialize (IH t' _ Hs). destruct (teardown_run sha256 t' ops) as [t2 rest]. simpl in *. by rewrite app_assoc.
Qed.

(** C25: Whatever is called in whatever order until the teardown is dropped, of a teardown
    whose plan counts on workers exactly when it has some: the session is ended once, after
    every worker was joined, and before the adapter is closed; settings are restored only
    after the retirement was recorded; the teardown is over, and a proof is signed at most
    once, only after all of it: the session ended and the adapter closed, if there were any,
    nothing failed and every one of the nine items was verified. In the end, when the value
    is gone, the session was ended and the adapter closed exactly once, in that order, and
    every worker was joined. A plan made without the workers there are ends the session
    under them ([session_ended_under_workers]). *)
Theorem teardown_in_order aggregate saga apply children ops :
  let history := teardown_history (W:=W) (R:=R) sha256
    (WindowsTeardown_new aggregate saga (build_teardown_plan apply (bool_decide (children ≠ []))) children) ops in
  (∀ before e after, history = before ++ e :: after →
     in_order children before e ∧ (is_finish e = true → released before = whole_release aggregate)) ∧
  released history = whole_release aggregate ∧
  (∀ c, c ∈ children → EV_joined c ∈ history).
Proof.
  intros history. unfold history, teardown_history.
  pose proof (run_tells children ops _ [] (tells_new aggregate saga apply children)) as Ht.
  pose proof (run_closes aggregate ops (WindowsTeardown_new aggregate saga (build_teardown_plan apply (bool_decide (children ≠ []))) children) []
                ltac:(split; simpl; [done|lia|done])) as Hc.
  destruct (teardown_run _ _ ops) as [t events]. simpl in Ht, Hc. unfold drop_teardown. rewrite (app_assoc events).
  assert (Hj : ∀ c, c ∈ children → EV_joined c ∈ events ++ (EV_joined <$> td_children t)).
  { intros c Hcin. past. destruct (tl_children _ _ _ Ht c Hcin); [right; by apply list_elem_of_fmap_2|by left]. }
  assert (Hcj : closes aggregate t (events ++ (EV_joined <$> td_children t)))
    by (eapply closes_quiet; [exact Hc|apply closes_joined|done|done]).
  assert (Hdrop : drop_aggregate (td_aggregate t) = whole_release (td_aggregate t)) by (by destruct (td_aggregate t)).
  rewrite Hdrop. split_and!.
  - intros before e after Hh. split; revert Hh; [apply (ordered_at (in_order children))|apply (ordered_at (let_go aggregate))].
    + apply ordered_app. split; [apply ordered_app; split; [apply Ht|apply joined_ordered]|].
      destruct (td_aggregate t) as [a|] eqn:Ea; simpl; [|done]. split_and!; [|done|past|done].
      intros [Hx|(c & Hcn & _)%list_elem_of_fmap]%elem_of_app; [|done].
      apply (tl_ended _ _ _ Ht) in Hx. by rewrite Hx in Ea.
    + apply ordered_app. split; [apply Hcj|]. apply quiet_ordered. by destruct (td_aggregate t).
  - rewrite <-(cl_released _ _ _ Hcj). unfold released. rewrite List.filter_app. f_equal. by destruct (td_aggregate t).
  - intros c Hcin. apply elem_of_app. left. by apply Hj.
Qed.
End histories.

(** ** Witnesses and deviations *)

#[local] Instance teardown_codec : RecordCodec :=
  {| codec_encode := λ _, [ADMISSION_RECORD_VERSION]; codec_decode := λ _, Ok sample_sealed |}.
Definition all_verified : list CleanupPredicate := (λ i, MkPredicate i true "absent") <$> COMPLETE_INVENTORY.
Definition sample_tunnel_plan : ApplyPlan := build_apply_plan [] 1400 None [] [] (MkDns [] []) [] [].
Definition sample_begin : TeardownOp (W:=SimNet) (R:=SimRegistry) :=
  TO_begin sample_retirement (Trigger_OwnerLost (MkOwnerLeaseId (uu x42))) (Subject_Runtime sample_epoch) sample_ownership
    (MkInventoryDigest (dg x04)).
Definition sample_teardown (plan_children : bool) : WindowsTeardown :=
  WindowsTeardown_new (Some (MkAggregate 7 None)) sample_saga (build_teardown_plan sample_tunnel_plan plan_children) [1; 2].
Definition sample_ops : list (TeardownOp (W:=SimNet) (R:=SimRegistry)) :=
  [TO_cancel; sample_begin; TO_unblock; TO_join; TO_restore tunnel_net (MkSim ∅ [] 0); TO_drop;
   TO_proof sample_prove all_verified].

(** The stages in their order end with a signed proof. *)
Lemma teardown_in_order_witness :
  let before := [EV_journaled; EV_unblocked; EV_joined 1; EV_joined 2; EV_restored; EV_end_session; EV_close_adapter; EV_dropped] in
  teardown_history toy_sha256 (sample_teardown true) sample_ops = before ++ EV_proved all_verified :: [] ∧
  in_order [1; 2] before (EV_proved all_verified).
Proof.
  assert (teardown_history toy_sha256 (sample_teardown true) sample_ops =
    [EV_journaled; EV_unblocked; EV_joined 1; EV_joined 2; EV_restored; EV_end_session; EV_close_adapter; EV_dropped]
    ++ EV_proved all_verified :: []) as Hh by (vm_compute; reflexivity).
  split; [exact Hh|].
  exact (proj1 (proj1 (teardown_in_order toy_sha256 (Some (MkAggregate 7 None)) sample_saga sample_tunnel_plan [1; 2] sample_ops) _ _ _ Hh)).
Defined.

(** A plan made without workers for a tunnel that has some: the session is ended while
    they run. *)
Example session_ended_under_workers :
  teardown_history toy_sha256 (sample_teardown false)
    [TO_cancel; sample_begin; TO_restore tunnel_net (MkSim ∅ [] 0); TO_drop] =
  [EV_journaled; EV_restored; EV_end_session; EV_close_adapter; EV_dropped; EV_joined 1; EV_joined 2].
Proof. vm_compute. reflexivity. Qed.

(** A restore after the proof takes the phase back: the teardown is no longer complete,
    and no second proof can be had. *)
Example restore_after_proof_regresses :
  let t := fst (teardown_run toy_sha256 (sample_teardown true)
    (sample_ops ++ [TO_restore tunnel_net (MkSim ∅ [] 0); TO_drop; TO_proof sample_prove all_verified])) in
  teardown_is_complete (fst (teardown_run toy_sha256 (sample_teardown true) sample_ops)) = true ∧
  td_phase t = CP_FinalDropped ∧ teardown_is_complete t = false.
Proof. vm_compute. split_and!; reflexivity. Qed.
