(* ===== verification/Adapters.v ===== *)
(** * The network adapters of Windows

    The two readers of [GetAdaptersAddresses]: [find_physical_nics] of [vgdc_dns.rs], which
    chooses the network cards the control connection may leave by, and [proxy_tun.rs],
    which looks for the virtual adapters of proxy programs.

    The call is made twice, once for the size and once for the list; its answers are the
    return codes and the list of adapters, as the record [AdapterAnswers]. *)

From Stdlib Require Import NArith Strings.Byte Sorting.Sorted Lia.
From S2P Require Import Prelude Text Utf16 NativeError Registry IpHelper.

(** The fields of [IP_ADAPTER_ADDRESSES_LH] that are read; a null socket address is [None],
    the names are their UTF-16 units before the NUL. *)
Record Adapter := MkAdapter {
  ad_if_type : N;
  ad_oper_up : bool;
  ad_friendly_name : list N;
  ad_description : list N;
  ad_unicast : list (option SockAddr);
  ad_gateways : list (option SockAddr);
  ad_ifindex : N;
  ad_luid : N;
  ad_ipv4_metric : N;
}.

(** What the two calls answer. *)
Record AdapterAnswers := MkAnswers { aa_size_code : N; aa_list_code : N; aa_adapters : list Adapter }.

(** win32-resource/vgdc_dns.rs:778-779 [ERROR_BUFFER_OVERFLOW] *)
Definition ERROR_BUFFER_OVERFLOW : N := 111.

(** Both calls, as both readers make them: the list, or the code of the call that failed. *)
Definition get_adapters (a : AdapterAnswers) : result N (list Adapter) :=
  if negb (aa_size_code a =? 0)%N && negb (aa_size_code a =? ERROR_BUFFER_OVERFLOW)%N then Err (aa_size_code a)
  else if negb (aa_list_code a =? 0)%N then Err (aa_list_code a)
  else Ok (aa_adapters a).

(** [PWSTR::to_string().unwrap_or_default()]. *)
Definition name_of (units : list N) : str := default [] (from_utf16 (until_nul units)).

(** ** Physical network cards *)

(** win32-resource/vgdc_dns.rs:47-50 [IF_TYPE_ETHERNET_CSMACD, IF_TYPE_IEEE80211] *)
Definition IF_TYPE_ETHERNET_CSMACD : N := 6.
Definition IF_TYPE_IEEE80211 : N := 71.

(** win32-resource/vgdc_dns.rs:52-67 [NicInfo] *)
Record NicInfo := MkNicInfo {
  ni_luid : N;
  ni_ifindex : N;
  ni_gateway : Ipv4Addr;
  ni_local_ip : Ipv4Addr;
  ni_friendly_name : str;
  ni_ipv4_metric : N;
}.
#[export] Instance NicInfo_eq_dec : EqDecision NicInfo. Proof. solve_decision. Defined.

(** win32-resource/vgdc_dns.rs:650-666 [ipv4_of] *)
Definition ipv4_of_socket_address (sa : option SockAddr) : option Ipv4Addr := sa ≫= ipv4_of.

(** win32-resource/vgdc_dns.rs:668-696 [first_ipv4_unicast, first_ipv4_gateway] *)
Definition first_ipv4 (l : list (option SockAddr)) : option Ipv4Addr := head (omap ipv4_of_socket_address l).

(** win32-resource/vgdc_dns.rs:698-707 [is_virtual_adapter_name] *)
Definition virtual_markers : list str :=
  lit <$> ["wintun"; "mihomo"; "clash"; "meta"; "tun"; "loopback"; "virtual"; "vehernet"; "hyper-v"; "docker";
           "tailscale"; "zerotier"; "vmware"; "virtualbox"; "exv"]%string.
Definition is_virtual_adapter_name (name : str) : bool :=
  existsb (λ m, contains m (to_ascii_lowercase name)) virtual_markers.

(** win32-resource/vgdc_dns.rs:749-773 [find_physical_nics]: the adapters of the list that are
    kept. *)
Definition physical_nic (a : Adapter) : option NicInfo :=
  let is_physical := (ad_if_type a =? IF_TYPE_ETHERNET_CSMACD)%N || (ad_if_type a =? IF_TYPE_IEEE80211)%N in
  if is_physical && ad_oper_up a && negb (bool_decide (ad_gateways a = [])) then
    let friendly_name := name_of (ad_friendly_name a) in
    if is_virtual_adapter_name friendly_name then None
    else match first_ipv4 (ad_unicast a), first_ipv4 (ad_gateways a) with
         | Some local_ip, Some gateway =>
             Some (MkNicInfo (ad_luid a) (ad_ifindex a) gateway local_ip friendly_name (ad_ipv4_metric a))
         | _, _ => None
         end
  else None.

(** [sort_by_key], which is stable: an element goes before the ones of the same key that
    came after it. *)
Fixpoint insert_by_metric (n : NicInfo) (l : list NicInfo) : list NicInfo :=
  match l with
  | [] => [n]
  | m :: l' => if (ni_ipv4_metric n <=? ni_ipv4_metric m)%N then n :: l else m :: insert_by_metric n l'
  end.
Definition sort_by_metric (l : list NicInfo) : list NicInfo := foldr insert_by_metric [] l.

(** win32-resource/vgdc_dns.rs:709-776 [find_physical_nics]; the error is the code of the message. *)
Definition find_physical_nics (a : AdapterAnswers) : result N (list NicInfo) :=
  adapters ← get_adapters a;
  Ok (sort_by_metric (omap physical_nic adapters)).

(** ** Virtual adapters of proxy programs *)

(** win32-resource/proxy_tun.rs:40-50 [KIND_PROXY_TUN, ROUTE_POLICY_EXV_BEFORE_PROXY_TUN, ROUTE_POLICY_NORMAL] *)
Definition KIND_PROXY_TUN : string := "proxy_tun".
Definition ROUTE_POLICY_EXV_BEFORE_PROXY_TUN : string := "exv-before-proxy-tun".
Definition ROUTE_POLICY_NORMAL : string := "normal".

(** win32-resource/proxy_tun.rs:55-65 [AdapterRecord] *)
Record AdapterRecord := MkAdapterRecord { arec_name : str; arec_description : str; arec_if_index : N }.
(** win32-resource/proxy_tun.rs:67-78 [ProxyTunAdapter] *)
Record ProxyTunAdapter := MkProxyTunAdapter { pt_name : str; pt_description : str; pt_if_index : N; pt_kind : string }.
(** win32-resource/proxy_tun.rs:80-87 [ProxyTunDetection] *)
Record ProxyTunDetection := MkDetection { pd_detected : bool; pd_adapters : list ProxyTunAdapter }.
#[export] Instance AdapterRecord_eq_dec : EqDecision AdapterRecord. Proof. solve_decision. Defined.
#[export] Instance ProxyTunAdapter_eq_dec : EqDecision ProxyTunAdapter. Proof. solve_decision. Defined.

(** win32-resource/proxy_tun.rs:90-99 [ProxyTunDetection::route_policy] *)
Definition route_policy (d : ProxyTunDetection) : string :=
  if pd_detected d then ROUTE_POLICY_EXV_BEFORE_PROXY_TUN else ROUTE_POLICY_NORMAL.

(** win32-resource/proxy_tun.rs:141-145 [combined] *)
Definition combined (r : AdapterRecord) : str :=
  to_ascii_lowercase (arec_name r ++ lit " " ++ arec_description r).

(** win32-resource/proxy_tun.rs:147-156 [is_exv_adapter] *)
Definition is_exv_adapter (r : AdapterRecord) (exv_interface : str) : bool :=
  let lower_name := to_ascii_lowercase (arec_name r) in
  let lower_exv := to_ascii_lowercase exv_interface in
  (negb (bool_decide (lower_exv = [])) && bool_decide (lower_name = lower_exv))
  || contains (lit "exv") lower_name
  || contains (lit "openconnect tunnel") (to_ascii_lowercase (arec_description r)).

Definition has_token (tokens : list string) (text : str) : bool := existsb (λ t, contains (lit t) text) tokens.

(** win32-resource/proxy_tun.rs:158-168 [is_blacklisted_adapter] *)
Definition is_blacklisted_adapter : str → bool :=
  has_token ["vmware"; "virtualbox"; "hyper-v"; "hyperv"; "vethernet"; "docker"; "wsl"; "bluetooth"; "loopback";
             "tailscale"; "wireguard"; "openvpn"; "zerotier"]%string.
(** win32-resource/proxy_tun.rs:170-180 [has_proxy_token] *)
Definition has_proxy_token : str → bool :=
  has_token ["clash"; "mihomo"; "sing-box"; "singbox"; "tun2socks"; "nekoray"; "nekobox"; "hiddify"; "surge"; "stash";
             "loon"; "quantumult"; "shadowrocket"]%string.
(** win32-resource/proxy_tun.rs:182-188 [is_virtualish_adapter] *)
Definition is_virtualish_adapter : str → bool := has_token ["tun"; "tap"; "utun"; "wintun"; "loopback"]%string.

(** win32-resource/proxy_tun.rs:106-132 [filter_proxy_tun_adapters]: whether one record is kept. *)
Definition is_proxy_tun (exv_interface : str) (r : AdapterRecord) : bool :=
  negb (bool_decide (arec_name r = [])) && negb (is_exv_adapter r exv_interface)
  && negb (is_blacklisted_adapter (combined r))
  && (has_proxy_token (combined r) || is_virtualish_adapter (combined r)).
(** win32-resource/proxy_tun.rs:118-132 [filter_proxy_tun_adapters] *)
Definition filter_proxy_tun_adapters (records : list AdapterRecord) (exv_interface : str) : list ProxyTunAdapter :=
  (λ r, MkProxyTunAdapter (arec_name r) (arec_description r) (arec_if_index r) KIND_PROXY_TUN)
  <$> List.filter (is_proxy_tun exv_interface) records.
(** win32-resource/proxy_tun.rs:134-139 [detection_from_adapters] *)
Definition detection_from_adapters (adapters : list ProxyTunAdapter) : ProxyTunDetection :=
  MkDetection (negb (bool_decide (adapters = []))) adapters.

(** win32-resource/proxy_tun.rs:210-271 [enumerate_adapter_records] *)
Definition enumerate_adapter_records (a : AdapterAnswers) : result NativeError (list AdapterRecord) :=
  match get_adapters a with
  | Err rc => Err (NativeError_from_win32 rc "GetAdaptersAddresses 失败")
  | Ok adapters =>
      Ok ((λ a, MkAdapterRecord (name_of (ad_friendly_name a)) (name_of (ad_description a)) (ad_ifindex a)) <$> adapters)
  end.
(** win32-resource/proxy_tun.rs:194-208 [detect_upstream_proxy_tun] *)
Definition detect_upstream_proxy_tun (a : AdapterAnswers) (exv_interface : str) : result NativeError ProxyTunDetection :=
  records ← enumerate_adapter_records a;
  Ok (detection_from_adapters (filter_proxy_tun_adapters records exv_interface)).

(** ** Properties *)

Definition by_metric (n m : NicInfo) : Prop := (ni_ipv4_metric n ≤ ni_ipv4_metric m)%N.

Lemma insert_perm n l : insert_by_metric n l ≡ₚ n :: l.
Proof. induction l as [|m l IH]; simpl; [done|]. case_match; [done|]. rewrite IH. apply Permutation_swap. Qed.
Lemma insert_sorted n l : StronglySorted by_metric l → StronglySorted by_metric (insert_by_metric n l).
Proof.
  induction 1 as [|m l Hs IH Hm]; simpl; [by repeat constructor|]. case_match.
  - apply N.leb_le in H. constructor; [by constructor|]. constructor; [done|].
    eapply Forall_impl; [exact Hm|]. unfold by_metric in *. intros x ?. simpl in *. lia.
  - apply N.leb_gt in H. constructor; [done|]. rewrite insert_perm. constructor; [|done]. unfold by_metric. lia.
Qed.
(** Elements of one metric keep their order. *)
Lemma insert_stable k n l :
  filter (λ m, ni_ipv4_metric m = k) (insert_by_metric n l) = filter (λ m, ni_ipv4_metric m = k) (n :: l).
Proof.
  induction l as [|m l IH]; [done|]. simpl. case_match; [done|]. apply N.leb_gt in H.
  rewrite !filter_cons. rewrite filter_cons in IH. repeat case_decide; rewrite IH; try done. lia.
Qed.

Lemma sort_spec l :
  sort_by_metric l ≡ₚ l ∧ StronglySorted by_metric (sort_by_metric l) ∧
  ∀ k, filter (λ m, ni_ipv4_metric m = k) (sort_by_metric l) = filter (λ m, ni_ipv4_metric m = k) l.
Proof.
  induction l as [|n l (IH1 & IH2 & IH3)]; simpl; [by repeat constructor|]. split_and!.
  - by rewrite insert_perm, IH1.
  - by apply insert_sorted.
  - intros k. rewrite insert_stable, !filter_cons, IH3. done.
Qed.

(** The card chosen first is a physical one, and no physical one has a smaller metric. *)
Lemma first_nic_best a n nics : find_physical_nics a = Ok (n :: nics) →
  Exists (λ ad, physical_nic ad = Some n) (aa_adapters a) ∧
  Forall (λ ad, ∀ m, physical_nic ad = Some m → by_metric n m) (aa_adapters a).
Proof.
  unfold find_physical_nics, get_adapters. repeat case_match; try done. intros [= Hs].
  destruct (sort_spec (omap physical_nic (aa_adapters a))) as (Hp & Hsort & _). rewrite Hs in *. split.
  - apply Exists_exists. assert (n ∈ omap physical_nic (aa_adapters a)) as Hin by (rewrite <-Hp; constructor).
    apply list_elem_of_omap in Hin as (ad & ? & ?). eauto.
  - apply Forall_forall. intros ad Had m Hm.
    assert (m ∈ n :: nics) as Hin by (rewrite Hp; apply list_elem_of_omap; eauto).
    apply elem_of_cons in Hin as [->|Hin]; [unfold by_metric; lia|].
    inversion_clear Hsort as [|? ? _ Hall]. rewrite Forall_forall in Hall. auto.
Qed.

(** ** Deviations *)

(** The marker for the adapters of Hyper-V switches is misspelt: such an adapter, which is
    an Ethernet one for the system, is taken for a physical card. *)
Example hyperv_switch_is_physical :
  let switch := MkAdapter 6 true (lit "vEthernet (Default Switch)") (lit "Hyper-V Virtual Ethernet Adapter")
    [Some (to_sockaddr (MkIpv4Addr xac x1c x00 x01))] [Some (to_sockaddr (MkIpv4Addr xac x1c x00 xfe))] 21 77 15 in
  is_Some (physical_nic switch) ∧ is_blacklisted_adapter (to_ascii_lowercase (lit "vEthernet (Default Switch)")) = true.
Proof. vm_compute. split; [eauto|reflexivity]. Qed.
