(* ===== verification/ConfigStore.v ===== *)
(** * Files of the configuration

    What the configurations of both platforms share: the directory with [config.json] and
    [key.bin], the replacement of a file through a temporary one, the key file, and the
    sealing of the password ([config.rs], [crypto.rs], [paths.rs] of the Windows
    configuration crate; [config_paths.rs], [config_crypto.rs] and the storage part of
    [config.rs] of the macOS core).

    [Fs] is the monad of an operation on the directory: besides its result it returns every
    state the directory goes through, so that a property of all of them is one that holds
    wherever the program is interrupted. The failures of the system calls are arguments.
    AES-GCM and base64 are other crates': the classes [Aead] and [Base64] with what the
    program relies on. *)

From Stdlib Require Import NArith Strings.Byte Lia.
From S2P Require Import Prelude Text.

(** ** The directory *)

(** [std::io::ErrorKind], as far as the program tells them apart. *)
Inductive IoErr := NotFound | AlreadyExists | InvalidData | OtherIo (code : N).
#[export] Instance IoErr_eq_dec : EqDecision IoErr. Proof. solve_decision. Defined.

(** The files of the directory, by name, and the counter of temporary names of the process. *)
Record Store := MkStore { st_files : gmap str (list byte); st_next : N }.
Definition set_files (f : gmap str (list byte)) (s : Store) : Store := MkStore f (st_next s).

(** An operation: the states passed through, the last one, and the result. *)
Definition Fs (E A : Type) : Type := Store → list Store * Store * result E A.
#[export] Instance Fs_ret {E} : MRet (Fs E) := λ A a s, ([], s, Ok a).
#[export] Instance Fs_bind {E} : MBind (Fs E) := λ A B k m s,
  match m s with
  | (visited, s, Ok a) => let '(visited', s', r) := k a s in (visited ++ visited', s', r)
  | (visited, s, Err e) => (visited, s, Err e)
  end.
Definition fs_fail {E A} (e : E) : Fs E A := λ s, ([], s, Err e).
Definition fs_get {E} : Fs E Store := λ s, ([], s, Ok s).
Definition fs_put {E} (f : Store → Store) : Fs E () := λ s, ([f s], f s, Ok ()).
(** The result as a value, which is how an error is looked at. *)
Definition fs_try {E F A} (m : Fs E A) : Fs F (result E A) := λ s, let '(visited, s', r) := m s in (visited, s', Ok r).
Definition fs_map_err {E F A} (f : E → F) (m : Fs E A) : Fs F A :=
  λ s, let '(visited, s', r) := m s in (visited, s', map_err f r).

Definition visited {E A} (x : list Store * Store * result E A) : list Store := x.1.1.
Definition final {E A} (x : list Store * Store * result E A) : Store := x.1.2.
Definition outcome {E A} (x : list Store * Store * result E A) : result E A := x.2.

(** ** System calls *)

(** A call that changes nothing and may fail. *)
Definition io_step (answer : option IoErr) : Fs IoErr () :=
  match answer with Some e => fs_fail e | None => mret () end.
(** [std::fs::read]. *)
Definition read_file (answer : option IoErr) (name : str) : Fs IoErr (list byte) :=
  _ ← io_step answer;
  s ← fs_get;
  match st_files s !! name with Some content => mret content | None => fs_fail NotFound end.
(** [OpenOptions::create_new]. *)
Definition create_new (answer : option IoErr) (name : str) : Fs IoErr () :=
  _ ← io_step answer;
  s ← fs_get;
  match st_files s !! name with
  | Some _ => fs_fail AlreadyExists
  | None => fs_put (λ s, set_files (<[name := []]> (st_files s)) s)
  end.
(** [write_all]: a failure has written some of the bytes. *)
Definition write_all (answer : option (nat * IoErr)) (name : str) (content : list byte) : Fs IoErr () :=
  let append bytes := fs_put (λ s, set_files (alter (λ old, old ++ bytes) name (st_files s)) s) in
  match answer with
  | Some (n, e) => _ ← append (take n content); fs_fail e
  | None => append content
  end.
(** [std::fs::rename]: the target is replaced at once, or nothing changes. *)
Definition rename (answer : option IoErr) (source target : str) : Fs IoErr () :=
  _ ← io_step answer;
  s ← fs_get;
  match st_files s !! source with
  | None => fs_fail NotFound
  | Some content => fs_put (λ s, set_files (<[target := content]> (delete source (st_files s))) s)
  end.
(** [std::fs::remove_file], whose error nobody looks at. *)
Definition remove_quietly {E} (answer : option IoErr) (name : str) : Fs E () :=
  match answer with Some _ => mret () | None => fs_put (λ s, set_files (delete name (st_files s)) s) end.
(** [std::fs::write]: the file is opened and cut to nothing, and then written. *)
Definition write_file (open_answer : option IoErr) (answer : option (nat * IoErr)) (name : str) (content : list byte) :
    Fs IoErr () :=
  _ ← io_step open_answer;
  _ ← fs_put (λ s, set_files (<[name := []]> (st_files s)) s);
  write_all answer name content.
(** [fetch_add] of the counter. *)
Definition take_id {E} : Fs E N :=
  s ← fs_get;
  _ ← fs_put (λ s, MkStore (st_files s) (add64 (st_next s) 1));
  mret (st_next s).

(** ** Errors and names *)

(** win32-config/error.rs:6-20 [ConfigError] *)
Inductive ConfigError :=
  | CE_Io (e : IoErr) | CE_Json | CE_Crypto | CE_Base64 | CE_Malformed (why : string).
#[export] Instance ConfigError_eq_dec : EqDecision ConfigError. Proof. solve_decision. Defined.

(** win32-config/paths.rs:13-18 [CONFIG_FILE, KEY_FILE, DEFAULT_CONFIG_SUBDIR] *)
Definition CONFIG_FILE : str := lit "config.json".
Definition KEY_FILE : str := lit "key.bin".
Definition DEFAULT_CONFIG_SUBDIR : str := lit ".exv".

(** [var_os] that is set and not empty. *)
Definition env_set (env : string → option str) (name : string) : option str :=
  v ← env name; if bool_decide (v = []) then None else Some v.
(** win32-config/paths.rs:20-36 [config_dir]: the components of the path. *)
Definition config_dir (env : string → option str) : list str :=
  match env_set env "EXV_CONFIG_DIR" with
  | Some dir => [dir]
  | None =>
      match env_set env "USERPROFILE" with
      | Some profile => [profile; DEFAULT_CONFIG_SUBDIR]
      | None =>
          match env_set env "HOME" with
          | Some home => [home; DEFAULT_CONFIG_SUBDIR]
          | None => [DEFAULT_CONFIG_SUBDIR]
          end
      end
  end.
(** darwin-core/config_paths.rs:13-26 [config_dir]: the same steps. *)
Definition darwin_config_dir : (string → option str) → list str := config_dir.

(** win32-config/config.rs:342-342 [create_temporary_config_file]: the name. *)
Definition temporary_name (file : str) (pid id : N) : str :=
  lit "." ++ file ++ lit "." ++ to_dec pid ++ lit "." ++ to_dec id ++ lit ".tmp".

(** ** Replacing a file on Windows *)

(** The failures of the calls of one write; [wi_open] is by attempt. *)
Record WriteIo := MkWriteIo {
  wi_create_dir : option IoErr;
  wi_open : nat → option IoErr;
  wi_write : option (nat * IoErr);
  wi_sync : option IoErr;
  wi_rename : option IoErr;
  wi_remove : option IoErr;
}.

Section windows.
Context (io : WriteIo) (pid : N).

(** win32-config/config.rs:340-358 [create_temporary_config_file]: the loop. *)
Fixpoint create_temporary (tries attempt : nat) : Fs ConfigError str :=
  match tries with
  | 0 => fs_fail (CE_Io AlreadyExists)
  | S tries =>
      id ← take_id;
      let temporary := temporary_name CONFIG_FILE pid id in
      r ← fs_try (create_new (wi_open io attempt) temporary);
      match r with
      | Ok _ => mret temporary
      | Err AlreadyExists => create_temporary tries (S attempt)
      | Err e => fs_fail (CE_Io e)
      end
  end.
(** win32-config/config.rs:337-359 [create_temporary_config_file] *)
Definition create_temporary_config_file : Fs ConfigError str := create_temporary 32 0.

(** win32-config/config.rs:322-328 [write_config_json_atomically_with]: the part that is cleaned
    up after. *)
Definition write_and_replace (temporary : str) (json : list byte) : Fs IoErr () :=
  _ ← write_all (wi_write io) temporary json;
  _ ← io_step (wi_sync io);
  rename (wi_rename io) temporary CONFIG_FILE.

(** win32-config/config.rs:299-335 [write_config_json_atomically, write_config_json_atomically_with] *)
Definition write_config_json_atomically (json : list byte) : Fs ConfigError () :=
  _ ← fs_map_err CE_Io (io_step (wi_create_dir io));
  temporary ← create_temporary_config_file;
  r ← fs_try (fs_map_err CE_Io (write_and_replace temporary json));
  match r with
  | Ok _ => mret ()
  | Err e => _ ← remove_quietly (wi_remove io) temporary; fs_fail e
  end.
End windows.

(** ** Replacing a file on macOS *)

Record AtomicIo := MkAtomicIo {
  ai_create_dir : option IoErr;
  ai_open : option IoErr;
  ai_write : option (nat * IoErr);
  ai_rename : option IoErr;
  ai_remove : option IoErr;
}.

(** darwin-core/config_paths.rs:38-61 [atomic_write] *)
Definition atomic_write (io : AtomicIo) (pid : N) (file : str) (content : list byte) : Fs IoErr () :=
  _ ← io_step (ai_create_dir io);
  sequence ← take_id;
  let temporary := temporary_name file pid sequence in
  _ ← write_file (ai_open io) (ai_write io) temporary content;
  r ← fs_try (rename (ai_rename io) temporary file);
  match r with
  | Ok _ => mret ()
  | Err e => _ ← remove_quietly (ai_remove io) temporary; fs_fail e
  end.

(** ** The password *)

(** [aes_gcm]: sealing gives the ciphertext with the tag behind it. *)
Class Aead := {
  aead_seal : array 32 → array 12 → list byte → option (list byte);
  aead_open : array 32 → array 12 → list byte → option (list byte);
}.
Class AeadLaws `{Aead} := {
  seal_length k n p c : aead_seal k n p = Some c → length c = length p + 16;
  open_seal k n p c : aead_seal k n p = Some c → aead_open k n c = Some p;
  open_sealed k n p c : aead_open k n c = Some p → aead_seal k n p = Some c;
}.
(** [base64], the standard alphabet with padding. *)
Class Base64 := {
  b64_encode : list byte → string;
  b64_decode : string → option (list byte);
  b64_encode_nil : b64_encode [] = EmptyString;
  b64_decode_encode l : b64_decode (b64_encode l) = Some l;
}.

(** win32-config/crypto.rs:17-22 [NONCE_LEN, TAG_LEN, KEY_LEN] *)
Definition NONCE_LEN : nat := 12.
Definition TAG_LEN : nat := 16.
Definition KEY_LEN : nat := 32.

Section crypto.
Context `{Aead, Base64}.

(** win32-config/crypto.rs:24-51 [encrypt_password]; [nonce] is what the random source gives, and
    [None] the panic when the sealed text is shorter than its tag. *)
Definition encrypt_password (nonce : option (array 12)) (plaintext : str) (key : array 32) :
    option (result ConfigError string) :=
  match nonce with
  | None => Some (Err (CE_Io (OtherIo 0)))
  | Some nonce =>
      match aead_seal key nonce (utf8 plaintext) with
      | None => Some (Err CE_Crypto)
      | Some ct_with_tag =>
          if length ct_with_tag <? TAG_LEN then None
          else
            let ct := take (length ct_with_tag - TAG_LEN) ct_with_tag in
            let tag := drop (length ct_with_tag - TAG_LEN) ct_with_tag in
            Some (Ok (b64_encode (arr_bytes nonce ++ tag ++ ct)))
      end
  end.

(** win32-config/crypto.rs:53-81 [decrypt_password] *)
Definition decrypt_password (blob_b64 : string) (key : array 32) : result ConfigError str :=
  match b64_decode blob_b64 with
  | None => Err CE_Base64
  | Some blob =>
      match to_array NONCE_LEN (take NONCE_LEN blob) with
      | None => Err (CE_Malformed "blob shorter than nonce+tag")
      | Some nonce =>
          if length blob <? NONCE_LEN + TAG_LEN then Err (CE_Malformed "blob shorter than nonce+tag")
          else
            let tag := take TAG_LEN (drop NONCE_LEN blob) in
            let ct := drop (NONCE_LEN + TAG_LEN) blob in
            match aead_open key nonce (ct ++ tag) with
            | None => Err CE_Crypto
            | Some plaintext =>
                ok_or (from_utf8 plaintext) (CE_Malformed "decrypted password is not UTF-8")
            end
      end
  end.

(** win32-config/crypto.rs:83-93 [generate_key] *)
Definition generate_key (drawn : option (array 32)) : result ConfigError (array 32) :=
  ok_or drawn (CE_Io (OtherIo 0)).
End crypto.

(** ** The key *)

(** win32-config/config.rs:225-249 [load_key] *)
Definition load_key (answer : option IoErr) : Fs ConfigError (option (array 32)) :=
  r ← fs_try (read_file answer KEY_FILE);
  match r with
  | Err NotFound => mret None
  | Err e => fs_fail (CE_Io e)
  | Ok bytes =>
      match to_array KEY_LEN bytes with
      | None => fs_fail (CE_Malformed "key.bin must be exactly 32 bytes (AES-256)")
      | Some key => mret (Some key)
      end
  end.

(** The failures of writing the key. *)
Record KeyIo := MkKeyIo {
  ki_read : option IoErr;
  ki_create_dir : option IoErr;
  ki_open : option IoErr;
  ki_write : option (nat * IoErr);
}.
(** win32-config/config.rs:251-261 [save_key] *)
Definition save_key (io : KeyIo) (key : array 32) : Fs ConfigError () :=
  fs_map_err CE_Io (_ ← io_step (ki_create_dir io); write_file (ki_open io) (ki_write io) KEY_FILE (arr_bytes key)).
(** win32-config/config.rs:209-223 [ensure_key]; [drawn] is what the random source gives. *)
Definition ensure_key (io : KeyIo) (drawn : option (array 32)) : Fs ConfigError (array 32) :=
  r ← fs_try (load_key (ki_read io));
  match r with
  | Ok (Some key) => mret key
  | _ =>
      match generate_key drawn with
      | Err e => fs_fail e
      | Ok key => _ ← save_key io key; mret key
      end
  end.

(** ** Reasoning about operations *)

(** Run from [s], the operation stays within [I] and ends as [Q] says. *)
Definition fs_spec {E A} (m : Fs E A) (s : Store) (I : Store → Prop) (Q : Store → result E A → Prop) : Prop :=
  Forall I (visited (m s)) ∧ Q (final (m s)) (outcome (m s)).

Section spec.
Context {E : Type} (I : Store → Prop).

Lemma spec_ret {A} (a : A) s (Q : Store → result E A → Prop) : Q s (Ok a) → fs_spec (mret a) s I Q.
Proof. by split; [constructor|]. Qed.
Lemma spec_fail {A} (e : E) s (Q : Store → result E A → Prop) : Q s (Err e) → fs_spec (fs_fail e) s I Q.
Proof. by split; [constructor|]. Qed.
Lemma spec_get s (Q : Store → result E Store → Prop) : Q s (Ok s) → fs_spec fs_get s I Q.
Proof. by split; [constructor|]. Qed.
Lemma spec_put f s (Q : Store → result E () → Prop) : I (f s) → Q (f s) (Ok ()) → fs_spec (fs_put f) s I Q.
Proof. by split; [constructor|]. Qed.
Lemma spec_bind {A B} (m : Fs E A) (k : A → Fs E B) s Q :
  fs_spec m s I (λ s' r, match r with Ok a => fs_spec (k a) s' I Q | Err e => Q s' (Err e) end) →
  fs_spec (m ≫= k) s I Q.
Proof.
  unfold fs_spec, visited, final, outcome. unfold mbind, Fs_bind. destruct (m s) as [[v s'] [a|e]]; simpl; [|done].
  destruct (k a s') as [[v' s''] r]. simpl. intros (? & ? & ?). split; [by apply Forall_app|done].
Qed.
Lemma spec_try {F A} (m : Fs F A) s (Q : Store → result E (result F A) → Prop) :
  fs_spec m s I (λ s' r, Q s' (Ok r)) → fs_spec (fs_try m) s I Q.
Proof. unfold fs_spec, visited, final, outcome, fs_try. by destruct (m s) as [[v s'] r]. Qed.
Lemma spec_map_err {F A} (f : F → E) (m : Fs F A) s (Q : Store → result E A → Prop) :
  fs_spec m s I (λ s' r, Q s' (map_err f r)) → fs_spec (fs_map_err f m) s I Q.
Proof. unfold fs_spec, visited, final, outcome, fs_map_err. by destruct (m s) as [[v s'] r]. Qed.
Lemma spec_weaken {A} (m : Fs E A) s (Q Q' : Store → result E A → Prop) :
  fs_spec m s I Q → (∀ s' r, Q s' r → Q' s' r) → fs_spec m s I Q'.
Proof. intros [? ?] ?. split; auto. Qed.
Lemma spec_inv {A} (m : Fs E A) s (I' : Store → Prop) (Q : Store → result E A → Prop) :
  fs_spec m s I' Q → (∀ s', I' s' → I s') → fs_spec m s I Q.
Proof. intros [? ?] ?. split; [by eapply Forall_impl|done]. Qed.
End spec.

(** A step that changes nothing. *)
Lemma bind_quiet {E A B} (m : Fs E A) (k : A → Fs E B) s a : m s = ([], s, Ok a) → (m ≫= k) s = k a s.
Proof. intros Hm. unfold mbind, Fs_bind. rewrite Hm. by destruct (k a s) as [[v s'] r]. Qed.
Lemma try_quiet {E F A} (m : Fs E A) s r : m s = ([], s, r) → fs_try (F:=F) m s = ([], s, Ok r).
Proof. intros Hm. unfold fs_try. by rewrite Hm. Qed.

Section calls.
Context (I : Store → Prop).

Lemma spec_io_step answer s (Q : Store → result IoErr () → Prop) :
  (answer = None → Q s (Ok ())) → (∀ e, answer = Some e → Q s (Err e)) → fs_spec (io_step answer) s I Q.
Proof. unfold io_step. destruct answer; intros H1 H2; [apply spec_fail|apply spec_ret]; auto. Qed.
Lemma spec_take_id {E} s (Q : Store → result E N → Prop) :
  I (MkStore (st_files s) (add64 (st_next s) 1)) → Q (MkStore (st_files s) (add64 (st_next s) 1)) (Ok (st_next s)) →
  fs_spec take_id s I Q.
Proof.
  intros HI HQ. unfold take_id. apply spec_bind, spec_get. simpl. apply spec_bind, spec_put; [done|]. by apply spec_ret.
Qed.
Lemma spec_create_new answer name s (Q : Store → result IoErr () → Prop) :
  (st_files s !! name = None → I (set_files (<[name := []]> (st_files s)) s)) →
  (st_files s !! name = None → Q (set_files (<[name := []]> (st_files s)) s) (Ok ())) →
  (∀ e, Q s (Err e)) → fs_spec (create_new answer name) s I Q.
Proof.
  intros HI HQ HE. unfold create_new. apply spec_bind, spec_io_step; [|eauto]. intros _. simpl.
  apply spec_bind, spec_get. simpl. destruct (st_files s !! name) eqn:E; [by apply spec_fail|]. apply spec_put; auto.
Qed.
Lemma spec_write_all answer name content s (Q : Store → result IoErr () → Prop) :
  (∀ bytes, I (set_files (alter (λ old, old ++ bytes) name (st_files s)) s)) →
  Q (set_files (alter (λ old, old ++ content) name (st_files s)) s) (Ok ()) →
  (∀ bytes e, Q (set_files (alter (λ old, old ++ bytes) name (st_files s)) s) (Err e)) →
  fs_spec (write_all answer name content) s I Q.
Proof.
  intros HI HQ HE. unfold write_all. destruct answer as [[n e]|]; [|apply spec_put; auto].
  apply spec_bind, spec_put; [auto|]. apply spec_fail, HE.
Qed.
Lemma spec_rename answer source target s content (Q : Store → result IoErr () → Prop) :
  st_files s !! source = Some content →
  I (set_files (<[target := content]> (delete source (st_files s))) s) →
  Q (set_files (<[target := content]> (delete source (st_files s))) s) (Ok ()) →
  (∀ e, Q s (Err e)) → fs_spec (rename answer source target) s I Q.
Proof.
  intros Hs HI HQ HE. unfold rename. apply spec_bind, spec_io_step; [|auto]. intros _. simpl.
  apply spec_bind, spec_get. simpl. rewrite Hs. by apply spec_put.
Qed.
Lemma spec_remove {E} answer name s (Q : Store → result E () → Prop) :
  I (set_files (delete name (st_files s)) s) → Q (set_files (delete name (st_files s)) s) (Ok ()) →
  (answer ≠ None → Q s (Ok ())) → fs_spec (remove_quietly answer name) s I Q.
Proof. intros HI HQ HE. unfold remove_quietly. destruct answer; [apply spec_ret; by apply HE|by apply spec_put]. Qed.
Lemma spec_read answer name s (Q : Store → result IoErr (list byte) → Prop) :
  (∀ content, answer = None → st_files s !! name = Some content → Q s (Ok content)) →
  (answer = None → st_files s !! name = None → Q s (Err NotFound)) → (∀ e, answer = Some e → Q s (Err e)) →
  fs_spec (read_file answer name) s I Q.
Proof.
  intros HQ HN HE. unfold read_file. apply spec_bind, spec_io_step; [|auto]. intros Ha. simpl.
  apply spec_bind, spec_get. simpl. destruct (st_files s !! name) eqn:E; [apply spec_ret|apply spec_fail]; auto.
Qed.
End calls.

(** ** Replacement is atomic *)

Definition is_temporary (file t : str) : Prop := ∃ pid id, t = temporary_name file pid id.
Lemma temporary_dot file t : is_temporary file t → ∃ rest, t = 46%N :: rest.
Proof. intros (pid & id & ->). by eexists. Qed.

(** All files but the temporary one and perhaps [file] are as in [s], and [file] is as in
    [s] or holds [content]. *)
Definition replacing (s : Store) (t file : str) (content : list byte) (s' : Store) : Prop :=
  (∀ k, k ≠ t → k ≠ file → st_files s' !! k = st_files s !! k) ∧
  (st_files s' !! file = st_files s !! file ∨ st_files s' !! file = Some content).

Lemma temporary_other file t : is_temporary file t → head file ≠ Some 46%N → t ≠ file.
Proof. intros (rest & ->)%temporary_dot Hf <-. done. Qed.

Lemma create_temporary_spec io pid tries : ∀ attempt s,
  fs_spec (create_temporary io pid tries attempt) s
    (λ s', st_files s' = st_files s ∨ ∃ t, is_temporary CONFIG_FILE t ∧ st_files s !! t = None ∧
             st_files s' = <[t := []]> (st_files s))
    (λ s' r, match r with
             | Ok t => is_temporary CONFIG_FILE t ∧ st_files s !! t = None ∧ st_files s' = <[t := []]> (st_files s)
             | Err _ => st_files s' = st_files s
             end).
Proof.
  induction tries as [|tries IH]; intros attempt s; cbn [create_temporary]; [by apply spec_fail|].
  apply spec_bind, spec_take_id; [by left|]. apply spec_bind, spec_try, spec_create_new; cbn [st_files set_files st_next].
  - intros Hn. right. eexists. split; [by eexists _, _|done].
  - intros Hn. apply spec_ret. split; [by eexists _, _|done].
  - intros []; try (by apply spec_fail). exact (IH (S attempt) _).
Qed.

Definition safe_state (s : Store) (file : str) (content : list byte) (s' : Store) : Prop :=
  ∃ t, is_temporary file t ∧ replacing s t file content s'.
(** The end of a replacement: [file] holds [content] and nothing else changed, or [file] and
    all others but a temporary one are as they were. *)
Definition replaced {E} (s : Store) (file : str) (content : list byte) (s' : Store) (r : result E ()) : Prop :=
  match r with
  | Ok _ => st_files s' = <[file := content]> (st_files s)
  | Err _ => ∃ t, is_temporary file t ∧ ∀ k, k ≠ t → st_files s' !! k = st_files s !! k
  end.

(** A file [t] that came and went. *)
Lemma delete_temporary (m : gmap str (list byte)) t file c x : t ≠ file → m !! t = None →
  <[file := c]> (delete t (<[t := x]> m)) = <[file := c]> m.
Proof. intros. rewrite delete_insert_eq. by rewrite delete_id. Qed.

Lemma write_config_spec io pid json s :
  fs_spec (write_config_json_atomically io pid json) s (safe_state s CONFIG_FILE json)
    (λ s' r, replaced s CONFIG_FILE json s' r ∧ (is_ok r = false → wi_remove io = None → st_files s' = st_files s)).
Proof.
  assert (∀ s', st_files s' = st_files s → is_temporary CONFIG_FILE (temporary_name CONFIG_FILE 0 0) ∧
    ∀ k, k ≠ temporary_name CONFIG_FILE 0 0 → st_files s' !! k = st_files s !! k) as Hsame.
  { intros s' ->. split; [by eexists _, _|done]. }
  unfold write_config_json_atomically. apply spec_bind, spec_map_err, spec_io_step; simpl.
  2:{ intros e _. split; [eexists; by apply Hsame|done]. }
  intros _. apply spec_bind. eapply spec_weaken; [eapply spec_inv; [apply create_temporary_spec|]|].
  { intros s' [Hs|(t & Ht & Hn & Hs)]; [exists (temporary_name CONFIG_FILE 0 0)|exists t]; (split; [done || by eexists _, _|]).
    - split; [by rewrite Hs|]. left. by rewrite Hs.
    - pose proof (temporary_other _ _ Ht ltac:(done)). split; [|left]; rewrite Hs; intros; by rewrite lookup_insert_ne. }
  intros s1 [t|e]; [|intros Hs; split; [eexists; by apply Hsame|done]]. intros (Ht & Hn & Hs).
  pose proof (temporary_other _ _ Ht ltac:(done)) as Htf.
  apply spec_bind, spec_try, spec_map_err. unfold write_and_replace.
  (* the states in which the temporary file holds something *)
  assert (∀ s' x, st_files s' = <[t := x]> (st_files s) → safe_state s CONFIG_FILE json s') as Htmp.
  { intros s' x Hx. exists t. split; [done|]. split; [|left]; rewrite Hx; intros; by rewrite lookup_insert_ne. }
  (* cleaning up *)
  assert (∀ s' x e, st_files s' = <[t := x]> (st_files s) →
    fs_spec (_ ← remove_quietly (wi_remove io) t; fs_fail e : Fs ConfigError ()) s' (safe_state s CONFIG_FILE json)
      (λ s' r, replaced s CONFIG_FILE json s' r ∧ (is_ok r = false → wi_remove io = None → st_files s' = st_files s))) as Hclean.
  { intros s' x e Hx. assert (st_files (set_files (delete t (st_files s')) s') = st_files s) as Hd.
    { simpl. rewrite Hx, delete_insert_eq. by apply delete_id. }
    apply spec_bind, spec_remove.
    - exists t. split; [done|]. unfold replacing. rewrite Hd. split; [done|by left].
    - apply spec_fail. split; [eexists; by apply Hsame|done].
    - intros ?. apply spec_fail. split; [|done]. exists t. split; [done|]. intros k ?. rewrite Hx. by rewrite lookup_insert_ne. }
  assert (∀ bytes, alter (λ old, old ++ bytes) t (st_files s1) = <[t := bytes]> (st_files s)) as Halter.
  { intros bytes. rewrite Hs. apply map_eq. intros k. destruct (decide (k = t)) as [->|].
    - by rewrite lookup_alter_eq, !lookup_insert_eq.
    - by rewrite lookup_alter_ne, !lookup_insert_ne. }
  apply spec_bind, spec_write_all; [intros bytes|..]; [|apply spec_bind, spec_io_step; [intros _|intros e _]|intros bytes e].
  - eapply Htmp. simpl. by rewrite Halter.
  - assert (st_files (set_files (alter (λ old, old ++ json) t (st_files s1)) s1) = <[t := json]> (st_files s)) as Hw.
    { simpl. by rewrite Halter. }
    assert (∀ s', st_files s' = <[CONFIG_FILE := json]> (st_files s) → safe_state s CONFIG_FILE json s') as Hnew.
    { intros s' Hx. exists t. split; [done|]. split; [|right]; rewrite Hx; [intros; by rewrite lookup_insert_ne|apply lookup_insert_eq]. }
    eapply spec_rename; [by rewrite Hw, lookup_insert_eq|..]; rewrite ?Hw, ?delete_temporary by done.
    + by apply Hnew.
    + by apply spec_ret.
    + intros e. by eapply Hclean.
  - eapply Hclean. simpl. by rewrite Halter.
  - eapply Hclean. simpl. by rewrite Halter.
Qed.

Lemma alter_insert_same (m : gmap str (list byte)) t x y : alter (λ old, old ++ y) t (<[t := x]> m) = <[t := x ++ y]> m.
Proof.
  apply map_eq. intros k. destruct (decide (k = t)) as [->|].
  - by rewrite lookup_alter_eq, !lookup_insert_eq.
  - by rewrite lookup_alter_ne, !lookup_insert_ne.
Qed.

(** On macOS a temporary file of the same name is overwritten, and one whose write failed
    stays; of the other files the same holds as on Windows. *)
Lemma atomic_write_spec io pid file content s : head file ≠ Some 46%N →
  fs_spec (atomic_write io pid file content) s (safe_state s file content)
    (λ s' r, ∃ t, is_temporary file t ∧ ∀ k, k ≠ t →
       st_files s' !! k = if is_ok r then <[file := content]> (st_files s) !! k else st_files s !! k).
Proof.
  intros Hfile. unfold atomic_write. set (t := temporary_name file pid (st_next s)).
  assert (is_temporary file t) as Ht by (by eexists _, _). pose proof (temporary_other _ _ Ht Hfile) as Htf.
  assert (∀ s' x, st_files s' = <[t := x]> (st_files s) → safe_state s file content s') as Htmp.
  { intros s' x Hx. exists t. split; [done|]. split; [|left]; rewrite Hx; intros; by rewrite lookup_insert_ne. }
  assert (∀ (s' : Store) x, st_files s' = <[t := x]> (st_files s) → ∃ t, is_temporary file t ∧ ∀ k, k ≠ t →
    st_files s' !! k = st_files s !! k) as Hfail.
  { intros s' x Hx. exists t. split; [done|]. intros k ?. rewrite Hx. by rewrite lookup_insert_ne. }
  apply spec_bind, spec_io_step; simpl; [intros _|by eauto].
  apply spec_bind, spec_take_id; [exists t; split; [done|]; split; [done|by left]|]. fold t.
  apply spec_bind. unfold write_file. apply spec_bind, spec_io_step; simpl; [intros _|by eauto].
  apply spec_bind, spec_put; [by eapply Htmp|]. simpl. apply spec_write_all; simpl.
  - intros bytes. eapply Htmp. simpl. by rewrite alter_insert_same.
  - apply spec_bind, spec_try. eapply spec_rename; simpl; rewrite ?alter_insert_same, ?lookup_insert_eq; [done|..]; simpl.
    + exists t. split; [done|]. simpl. rewrite delete_insert_eq. split; [|right; apply lookup_insert_eq].
      intros k ? ?. simpl. by rewrite lookup_insert_ne, lookup_delete_ne.
    + apply spec_ret. exists t. split; [done|]. intros k ?. simpl. rewrite delete_insert_eq. destruct (decide (k = file)) as [->|].
      * by rewrite !lookup_insert_eq.
      * by rewrite !lookup_insert_ne, lookup_delete_ne.
    + intros e. apply spec_bind, spec_remove; simpl; rewrite ?delete_insert_eq.
      * exists t. split; [done|]. simpl. split; [|left]; [intros k ? ?; simpl; by rewrite lookup_delete_ne|simpl; by rewrite lookup_delete_ne].
      * apply spec_fail. exists t. split; [done|]. intros k ?. simpl. by rewrite lookup_delete_ne.
      * intros _. apply spec_fail. by eapply Hfail.
  - intros bytes e. rewrite alter_insert_same. exact (Hfail (MkStore (<[t := [] ++ bytes]> (st_files s)) 0) _ eq_refl).
Qed.

(** ** The password reads back *)

Section password.
Context `{AeadLaws, Base64}.

Lemma decrypt_encrypt nonce plaintext key blob : str_ok plaintext →
  encrypt_password (Some nonce) plaintext key = Some (Ok blob) → decrypt_password blob key = Ok plaintext.
Proof.
  intros Hp. unfold encrypt_password. destruct (aead_seal key nonce (utf8 plaintext)) as [c|] eqn:Es; [|done].
  pose proof (seal_length _ _ _ _ Es) as Hl. destruct (Nat.ltb_spec (length c) TAG_LEN); [done|]. intros [= <-].
  unfold decrypt_password. rewrite b64_decode_encode.
  set (tag := drop (length c - TAG_LEN) c). set (ct := take (length c - TAG_LEN) c).
  assert (length tag = TAG_LEN) as Htag by (unfold tag; rewrite length_drop; lia).
  assert (length (arr_bytes nonce) = NONCE_LEN) as Hn by apply length_arr_bytes.
  rewrite take_app_length' by done. change NONCE_LEN with 12 at 1. rewrite to_array_arr_bytes.
  destruct (Nat.ltb_spec (length (arr_bytes nonce ++ tag ++ ct)) (NONCE_LEN + TAG_LEN)) as [Hlt|_].
  { rewrite !length_app in Hlt. lia. }
  rewrite <-drop_drop, (drop_app_length' (arr_bytes nonce) _ NONCE_LEN) by done.
  rewrite (drop_app_length' tag _ TAG_LEN), (take_app_length' tag _ TAG_LEN) by done.
  unfold ct, tag. by rewrite take_drop, (open_seal _ _ _ _ Es), from_utf8_utf8.
Qed.

(** Sealing does not panic, and fails only with its random source or its cipher. *)
Lemma encrypt_total nonce plaintext key : is_Some (encrypt_password nonce plaintext key).
Proof.
  unfold encrypt_password. destruct nonce as [n|]; [|done]. destruct (aead_seal key n (utf8 plaintext)) eqn:E; [|done].
  apply seal_length in E. destruct (Nat.ltb_spec (length l) TAG_LEN); [unfold TAG_LEN in *; lia|done].
Qed.

(** Only the text that was sealed under the key comes out. *)
Lemma decrypt_authentic blob key plaintext : decrypt_password blob key = Ok plaintext →
  ∃ nonce bytes c, aead_seal key nonce bytes = Some c ∧ from_utf8 bytes = Some plaintext ∧
    b64_decode blob = Some (arr_bytes nonce ++ drop (length c - TAG_LEN) c ++ take (length c - TAG_LEN) c).
Proof.
  unfold decrypt_password. destruct (b64_decode blob) as [b|]; [|done].
  destruct (to_array NONCE_LEN (take NONCE_LEN b)) as [nonce|] eqn:En; [|done]. apply to_array_Some in En.
  destruct (Nat.ltb_spec (length b) (NONCE_LEN + TAG_LEN)); [done|].
  destruct (aead_open key nonce _) as [bytes|] eqn:Eo; [|done]. intros Hu%ok_or_Ok.
  exists nonce, bytes, (drop (NONCE_LEN + TAG_LEN) b ++ take TAG_LEN (drop NONCE_LEN b)).
  split_and!; [by apply open_sealed|done|]. f_equal.
  assert (length (take TAG_LEN (drop NONCE_LEN b)) = TAG_LEN) as Ht by (rewrite length_take, length_drop; lia).
  rewrite length_app, Ht. replace (length (drop (NONCE_LEN + TAG_LEN) b) + TAG_LEN - TAG_LEN)
    with (length (drop (NONCE_LEN + TAG_LEN) b)) by lia.
  rewrite drop_app_length, take_app_length, (En : @arr_bytes 12 nonce = _), <-drop_drop, take_drop. by rewrite take_drop.
Qed.
End password.

(** ** The key is made once *)

Lemma load_key_spec answer s :
  fs_spec (load_key answer) s (λ _, False) (λ s' r, s' = s ∧
    match r with
    | Ok (Some key) => answer = None ∧ st_files s !! KEY_FILE = Some (arr_bytes key)
    | Ok None => answer = Some NotFound ∨ st_files s !! KEY_FILE = None
    | Err _ => (answer ≠ None ∨ ∃ bytes, st_files s !! KEY_FILE = Some bytes ∧ length bytes ≠ KEY_LEN)
    end).
Proof.
  unfold load_key. apply spec_bind, spec_try, spec_read; simpl.
  - intros content Ha Hc. destruct (to_array KEY_LEN content) as [key|] eqn:E; [apply spec_ret|apply spec_fail]; (split; [done|]).
    + apply to_array_Some in E. by subst.
    + apply to_array_None in E. right. eauto.
  - intros Ha Hn. apply spec_ret. split; [done|]. by right.
  - intros e ->. destruct e; (apply spec_ret || apply spec_fail); split; auto.
Qed.

(** ** A cipher and an encoding for the examples *)

(** The tag is the first half of the key. *)
#[export] Instance toy_aead : Aead := {|
  aead_seal k n p := Some (p ++ take 16 (arr_bytes k));
  aead_open k n c :=
    if (length c <? 16) then None
    else if bool_decide (drop (length c - 16) c = take 16 (arr_bytes k)) then Some (take (length c - 16) c) else None;
|}.
#[export] Instance toy_aead_laws : AeadLaws.
Proof.
  assert (∀ k : array 32, length (take 16 (arr_bytes k)) = 16) as Hk.
  { intros k. rewrite length_take, length_arr_bytes. done. }
  split; simpl.
  - intros k n p c [= <-]. by rewrite length_app, Hk.
  - intros k n p c [= <-]. rewrite length_app, Hk, Nat.add_sub, drop_app_length, take_app_length.
    destruct (Nat.ltb_spec (length p + 16) 16); [lia|]. by rewrite bool_decide_true.
  - intros k n p c. destruct (length c <? 16); [done|]. case_bool_decide as Hd; [|done]. intros [= <-].
    rewrite <-Hd. by rewrite take_drop.
Qed.
#[export, refine] Instance toy_base64 : Base64 := {|
  b64_encode := String.string_of_list_byte; b64_decode s := Some (String.list_byte_of_string s) |}.
Proof. { done. } intros l. by rewrite String.list_byte_of_string_of_list_byte. Defined.

(** ** Deviations *)

Definition no_failure : KeyIo := MkKeyIo None None None None.
(** The key file is there and only cannot be read at the moment: a new key is written over
    it, and the stored password is lost. *)
Example unreadable_key_is_replaced :
  let key := array_fill 32 x07 in let fresh := array_fill 32 x09 in
  let s := MkStore {[ KEY_FILE := arr_bytes key ]} 0 in
  match encrypt_password (Some (array_fill 12 x01)) (lit "secret") key with
  | Some (Ok blob) =>
      decrypt_password blob key = Ok (lit "secret") ∧
      let run := ensure_key (MkKeyIo (Some (OtherIo 32)) None None None) (Some fresh) s in
      outcome run = Ok fresh ∧ st_files (final run) !! KEY_FILE = Some (arr_bytes fresh) ∧
      decrypt_password blob fresh = Err CE_Crypto
  | _ => False
  end.
Proof. vm_compute. split; [reflexivity|]. split; [reflexivity|]. split; reflexivity. Qed.
