(* ===== verification/Config.v ===== *)
(** * The configuration on Windows

    [config.rs] and [config_hygiene.rs] of the Windows configuration crate: the record with
    its defaults, its JSON form, loading, saving, and the repair of the file at startup.

    The derived conversions between the record and a JSON object are written out: a field
    that is absent takes its default, one of another type makes the whole conversion fail,
    and unknown fields are left out. The JSON text is [serde_json]'s: the class
    [ConfigText]. *)

From Stdlib Require Import NArith Strings.Byte Strings.String Lia.
From S2P Require Import Prelude Text Admission ConfigStore.

(** ** The record *)

(** win32-config/config.rs:46-55 [ConnectionMode] *)
Inductive ConnectionMode := Standard | Compatibility.
#[export] Instance ConnectionMode_eq_dec : EqDecision ConnectionMode. Proof. solve_decision. Defined.
(** win32-config/config.rs:58-65 [ConnectionMode::as_str] *)
Definition mode_as_str (m : ConnectionMode) : string :=
  match m with Standard => "standard" | Compatibility => "compatibility" end.
(** win32-config/config.rs:74-84 [FromStr for ConnectionMode] *)
Definition mode_from_str (value : string) : option ConnectionMode :=
  if bool_decide (value = "standard"%string) then Some Standard
  else if bool_decide (value = "compatibility"%string) then Some Compatibility
  else None.

(** win32-config/config.rs:98-135 [ExvConfig] *)
Record ExvConfig := MkExvConfig {
  cf_server : string;
  cf_username : string;
  cf_password : string;
  cf_remember_password : bool;
  cf_routes : list string;
  cf_user_agent : string;
  cf_mtu : N;
  cf_connection_mode : ConnectionMode;
  cf_auto_reconnect : bool;
  cf_auto_reconnect_max_attempts : N;
  cf_auto_reconnect_backoff : bool;
}.
#[export] Instance ExvConfig_eq_dec : EqDecision ExvConfig. Proof. solve_decision. Defined.

(** win32-config/config.rs:24-44 [DEFAULT_SERVER, DEFAULT_ROUTES, DEFAULT_USER_AGENT, DEFAULT_MTU] *)
Definition DEFAULT_SERVER : string := "vpn-cn.ecnu.edu.cn".
Definition DEFAULT_ROUTES : list string :=
  ["49.52.4.0/25"; "59.78.176.0/20"; "59.78.199.0/21"; "58.198.176.128/25"; "59.78.189.128/25"; "219.228.63.0/21";
   "202.120.80.0/20"; "219.228.144.0/22"]%string.
Definition DEFAULT_USER_AGENT : string := "AnyConnect Win_x86_64 4.10.05095".
Definition DEFAULT_MTU : N := 1290.

(** win32-config/config.rs:137-153 [Default for ExvConfig] *)
Definition default_config : ExvConfig :=
  MkExvConfig DEFAULT_SERVER "" "" false DEFAULT_ROUTES DEFAULT_USER_AGENT DEFAULT_MTU Standard false 0 false.

(** ** The JSON form *)

(** win32-config/config.rs:107-135 [Serialize for ExvConfig] *)
Definition config_members (c : ExvConfig) : list (string * Value) :=
  [("server", V_String (cf_server c)); ("username", V_String (cf_username c)); ("password", V_String (cf_password c));
   ("remember_password", V_Bool (cf_remember_password c)); ("routes", V_Array (V_String <$> cf_routes c));
   ("useragent", V_String (cf_user_agent c)); ("mtu", V_U64 (cf_mtu c));
   ("connection_mode", V_String (mode_as_str (cf_connection_mode c))); ("auto_reconnect", V_Bool (cf_auto_reconnect c));
   ("auto_reconnect_max_attempts", V_U64 (cf_auto_reconnect_max_attempts c));
   ("auto_reconnect_backoff", V_Bool (cf_auto_reconnect_backoff c))]%string.
Definition config_object (c : ExvConfig) : gmap string Value := list_to_map (config_members c).

(** The derived readers of a [bool], a [u32] and a [Vec<String>]. *)
Definition as_bool (v : Value) : option bool := match v with V_Bool b => Some b | _ => None end.
Definition as_u32 (v : Value) : option N := n ← as_u64 v; if (n <? 2 ^ 32)%N then Some n else None.
Definition as_strings (v : Value) : option (list string) := items ← as_array v; mapM as_str items.
(** win32-config/config.rs:86-96 [Deserialize for ConnectionMode] *)
Definition as_mode (v : Value) : option ConnectionMode :=
  value ← as_str v; Some (default Standard (mode_from_str value)).

Definition read_field {A} (m : gmap string Value) (key : string) (read : Value → option A) (d : A) : option A :=
  match m !! key with Some v => read v | None => Some d end.
(** win32-config/config.rs:107-135 [Deserialize for ExvConfig] *)
Definition config_from_object (m : gmap string Value) : option ExvConfig :=
  let d := default_config in
  server ← read_field m "server" as_str (cf_server d);
  username ← read_field m "username" as_str (cf_username d);
  password ← read_field m "password" as_str (cf_password d);
  remember ← read_field m "remember_password" as_bool (cf_remember_password d);
  routes ← read_field m "routes" as_strings (cf_routes d);
  user_agent ← read_field m "useragent" as_str (cf_user_agent d);
  mtu ← read_field m "mtu" as_u32 (cf_mtu d);
  mode ← read_field m "connection_mode" as_mode (cf_connection_mode d);
  reconnect ← read_field m "auto_reconnect" as_bool (cf_auto_reconnect d);
  attempts ← read_field m "auto_reconnect_max_attempts" as_u32 (cf_auto_reconnect_max_attempts d);
  backoff ← read_field m "auto_reconnect_backoff" as_bool (cf_auto_reconnect_backoff d);
  Some (MkExvConfig server username password remember routes user_agent mtu mode reconnect attempts backoff).

(** The text: [serde_json::from_str] to a value and to the record, [to_string_pretty] of
    both. *)
Class ConfigText := {
  value_of_text : str → option Value;
  config_of_text : str → option ExvConfig;
  text_of_value : Value → str;
  text_of_config : ExvConfig → str;
}.

Section config.
Context `{ConfigText}.

(** [read_to_string]: a text that is not UTF-8 is an error of its own. *)
Definition read_to_string (answer : option IoErr) (name : str) : Fs IoErr str :=
  bytes ← read_file answer name;
  match from_utf8 bytes with Some text => mret text | None => fs_fail InvalidData end.

(** win32-config/config.rs:156-187 [load, load_from_dir] *)
Definition load_from_dir (answer : option IoErr) : Fs ConfigError ExvConfig :=
  r ← fs_try (read_to_string answer CONFIG_FILE);
  match r with
  | Ok text => mret (default default_config (config_of_text text))
  | Err NotFound => mret default_config
  | Err e => fs_fail (CE_Io e)
  end.

(** win32-config/config.rs:189-207 [save, save_to_dir] *)
Definition save_to_dir (io : WriteIo) (pid : N) (c : ExvConfig) : Fs ConfigError () :=
  write_config_json_atomically io pid (utf8 (text_of_config c)).

(** win32-config/config_hygiene.rs:9-16 [StartupConfig] *)
Record StartupConfig := MkStartup { sc_config : ExvConfig; sc_requires_quick_start : bool }.

(** win32-config/config_hygiene.rs:51-66 [save_after_user_submission, bootstrap_default] *)
Definition save_after_user_submission : WriteIo → N → ExvConfig → Fs ConfigError () := save_to_dir.
Definition bootstrap_default (io : WriteIo) (pid : N) : Fs ConfigError StartupConfig :=
  _ ← save_after_user_submission io pid default_config;
  mret (MkStartup default_config true).

(** win32-config/config_hygiene.rs:68-77 [hydrate_known_fields] *)
Definition hydrate_known_fields (original : gmap string Value) (c : ExvConfig) : gmap string Value :=
  config_object c ∪ original.

(** win32-config/config_hygiene.rs:18-49 [load_for_startup] *)
Definition load_for_startup (answer : option IoErr) (io : WriteIo) (pid : N) : Fs ConfigError StartupConfig :=
  r ← fs_try (read_to_string answer CONFIG_FILE);
  match r with
  | Err NotFound => bootstrap_default io pid
  | Err e => fs_fail (CE_Io e)
  | Ok text =>
      match value_of_text text with
      | Some (V_Object object) =>
          match config_from_object object with
          | None => bootstrap_default io pid
          | Some config =>
              _ ← write_config_json_atomically io pid (utf8 (text_of_value (V_Object (hydrate_known_fields object config))));
              mret (MkStartup config false)
          end
      | _ => bootstrap_default io pid
      end
  end.
End config.

(** ** The password *)

Section password.
Context `{Aead, Base64}.

(** win32-config/config.rs:263-279 [ExvConfig::decrypt_password] *)
Definition config_decrypt_password (c : ExvConfig) (key : array 32) : result ConfigError str :=
  if bool_decide (cf_password c = ""%string) then Ok [] else decrypt_password (cf_password c) key.

(** win32-config/config.rs:281-296 [set_password_encrypted]; the record is returned as it is left. *)
Definition set_password_encrypted (c : ExvConfig) (nonce : option (array 12)) (plaintext : str) (key : array 32) :
    ExvConfig * option (result ConfigError ()) :=
  match encrypt_password nonce plaintext key with
  | None => (c, None)
  | Some (Err e) => (c, Some (Err e))
  | Some (Ok sealed) =>
      (MkExvConfig (cf_server c) (cf_username c) sealed (negb (bool_decide (plaintext = []))) (cf_routes c)
         (cf_user_agent c) (cf_mtu c) (cf_connection_mode c) (cf_auto_reconnect c) (cf_auto_reconnect_max_attempts c)
         (cf_auto_reconnect_backoff c), Some (Ok ()))
  end.
End password.

(** ** Properties of the JSON form *)

Definition config_ok (c : ExvConfig) : Prop := (cf_mtu c < 2 ^ 32)%N ∧ (cf_auto_reconnect_max_attempts c < 2 ^ 32)%N.

Lemma mode_roundtrip m : mode_from_str (mode_as_str m) = Some m.
Proof. by destruct m. Qed.

Lemma as_u32_small n : (n < 2 ^ 32)%N → as_u32 (V_U64 n) = Some n.
Proof. intros Hn. unfold as_u32. simpl. by rewrite (proj2 (N.ltb_lt _ _) Hn). Qed.
Lemma as_u32_bound v n : as_u32 v = Some n → (n < 2 ^ 32)%N.
Proof. unfold as_u32. destruct (as_u64 v) as [k|]; simpl; [|done]. destruct (N.ltb_spec k (2 ^ 32)); [|done]. by intros [= <-]. Qed.
Lemma as_strings_list l : as_strings (V_Array (V_String <$> l)) = Some l.
Proof. unfold as_strings. cbn [as_array mbind option_bind]. induction l as [|s l IH]; [done|].
  rewrite fmap_cons. cbn [mapM as_str mbind option_bind]. by rewrite IH. Qed.

(** Known fields come from the record, whatever else the object holds. *)
Lemma read_known {A} c m key (read : Value → option A) d v :
  member key (config_members c) = Some v → read_field (config_object c ∪ m) key read d = read v.
Proof.
  intros Hm. unfold read_field, config_object. erewrite lookup_union_Some_l; [done|]. by rewrite list_to_map_member.
Qed.

Lemma config_read_back c m : config_ok c → config_from_object (config_object c ∪ m) = Some c.
Proof.
  intros [Hm Ha]. unfold config_from_object. erewrite !read_known by reflexivity.
  rewrite as_strings_list, !as_u32_small by done. unfold as_mode. simpl. rewrite mode_roundtrip. by destruct c.
Qed.

Lemma config_from_ok m c : config_from_object m = Some c → config_ok c.
Proof.
  unfold config_from_object. intros Hc.
  repeat match type of Hc with (?o ≫= _) = Some _ => destruct o eqn:?; simpl in Hc; [|done] end.
  injection Hc as <-. split; simpl.
  - assert (∀ o, read_field m "mtu" as_u32 (cf_mtu default_config) = Some o → (o < 2 ^ 32)%N) as Hf; [|by eapply Hf].
    intros o. unfold read_field. case_match; [apply as_u32_bound|]. by intros [= <-].
  - assert (∀ o, read_field m "auto_reconnect_max_attempts" as_u32 (cf_auto_reconnect_max_attempts default_config) = Some o →
      (o < 2 ^ 32)%N) as Hf; [|by eapply Hf].
    intros o. unfold read_field. case_match; [apply as_u32_bound|]. by intros [= <-].
Qed.

(** ** Properties of the file *)

Section file.
Context `{ConfigText}.

(** The file holds a text that stands for the value. *)
Definition reads_as (s : Store) (v : Value) : Prop :=
  ∃ text, st_files s !! CONFIG_FILE = Some (utf8 text) ∧ str_ok text ∧ value_of_text text = Some v.
(** The text written for a value reads back. *)
Definition reads_back (v : Value) : Prop := str_ok (text_of_value v) ∧ value_of_text (text_of_value v) = Some v.

Lemma read_utf8 s text : st_files s !! CONFIG_FILE = Some (utf8 text) → str_ok text →
  read_to_string None CONFIG_FILE s = ([], s, Ok text).
Proof.
  intros Hf Ht. unfold read_to_string, read_file, io_step, fs_get. unfold mbind, Fs_bind. simpl. rewrite Hf. simpl.
  by rewrite (from_utf8_utf8 _ Ht).
Qed.

Lemma load_saved s c : st_files s !! CONFIG_FILE = Some (utf8 (text_of_config c)) → str_ok (text_of_config c) →
  config_of_text (text_of_config c) = Some c → load_from_dir None s = ([], s, Ok c).
Proof.
  intros Hf Ht Hc. unfold load_from_dir. rewrite (bind_quiet _ _ _ _ (try_quiet _ _ _ (read_utf8 _ _ Hf Ht))). by rewrite Hc.
Qed.

(** A file with a valid object: what startup does with it. *)
Lemma startup_valid s io pid m c : reads_as s (V_Object m) → config_from_object m = Some c →
  load_for_startup None io pid s
  = (_ ← write_config_json_atomically io pid (utf8 (text_of_value (V_Object (hydrate_known_fields m c))));
     mret (MkStartup c false)) s.
Proof.
  intros (text & Hf & Ht & Hv) Hc. unfold load_for_startup.
  rewrite (bind_quiet _ _ _ _ (try_quiet _ _ _ (read_utf8 _ _ Hf Ht))). by rewrite Hv, Hc.
Qed.

Lemma startup_writes s io pid m c sc : reads_as s (V_Object m) → config_from_object m = Some c →
  outcome (load_for_startup None io pid s) = Ok sc →
  sc = MkStartup c false ∧
  st_files (final (load_for_startup None io pid s))
    = <[CONFIG_FILE := utf8 (text_of_value (V_Object (hydrate_known_fields m c)))]> (st_files s).
Proof.
  intros Hr Hc. rewrite (startup_valid _ _ _ _ _ Hr Hc). unfold mbind, Fs_bind, outcome, final.
  destruct (write_config_spec io pid (utf8 (text_of_value (V_Object (hydrate_known_fields m c)))) s) as [_ [Hw _]].
  unfold outcome, final in Hw. destruct (write_config_json_atomically _ _ _ s) as [[v s'] [[]|e]]; simpl in *; [|done].
  by intros [= <-].
Qed.

Lemma hydrate_again m c : hydrate_known_fields (hydrate_known_fields m c) c = hydrate_known_fields m c.
Proof. unfold hydrate_known_fields. rewrite assoc by apply _. by rewrite map_union_idemp. Qed.

(** The repair at startup keeps every field the program does not know and every valid
    one it does, fills in the missing ones, and is done after one pass: the next start
    reads the same configuration and leaves the file as it is, byte for byte. *)
Theorem startup_settles s io io' pid m c sc sc' :
  reads_as s (V_Object m) → config_from_object m = Some c → reads_back (V_Object (hydrate_known_fields m c)) →
  outcome (load_for_startup None io pid s) = Ok sc →
  outcome (load_for_startup None io' pid (final (load_for_startup None io pid s))) = Ok sc' →
  sc = MkStartup c false ∧ sc' = sc ∧
  reads_as (final (load_for_startup None io pid s)) (V_Object (hydrate_known_fields m c)) ∧
  (∀ k, member k (config_members c) = None → hydrate_known_fields m c !! k = m !! k) ∧
  (∀ k v, member k (config_members c) = Some v → hydrate_known_fields m c !! k = Some v) ∧
  st_files (final (load_for_startup None io' pid (final (load_for_startup None io pid s))))
    = st_files (final (load_for_startup None io pid s)).
Proof.
  intros Hr Hc [Ht Hv] H1 H2. destruct (startup_writes _ _ _ _ _ _ Hr Hc H1) as [-> Hf].
  set (s1 := final _) in *.
  assert (reads_as s1 (V_Object (hydrate_known_fields m c))) as Hr1.
  { exists (text_of_value (V_Object (hydrate_known_fields m c))). split_and!; [|done..]. rewrite Hf. apply lookup_insert_eq. }
  assert (config_from_object (hydrate_known_fields m c) = Some c) as Hc1 by (by eapply config_read_back, config_from_ok).
  destruct (startup_writes _ _ _ _ _ _ Hr1 Hc1 H2) as [-> Hf2]. split_and!; [done|done|done|..].
  - intros k Hk. unfold hydrate_known_fields. rewrite lookup_union_r; [done|]. unfold config_object. by rewrite list_to_map_member.
  - intros k v Hk. apply lookup_union_Some_l. unfold config_object. by rewrite list_to_map_member.
  - rewrite Hf2, hydrate_again, Hf. by rewrite insert_insert_eq.
Qed.
(** C32: Saving is all or nothing wherever it is interrupted: in every state the directory
    passes through [config.json] holds the whole old or the whole new text and every file
    but a temporary one is untouched; after a success it loads as the record saved and no
    temporary file is left; after a failure it is as it was. *)
Theorem save_atomic s io pid c :
  config_of_text (text_of_config c) = Some c → str_ok (text_of_config c) →
  let run := save_to_dir io pid c s in
  Forall (safe_state s CONFIG_FILE (utf8 (text_of_config c))) (visited run) ∧
  match outcome run with
  | Ok _ => outcome (load_from_dir None (final run)) = Ok c ∧
            st_files (final run) = <[CONFIG_FILE := utf8 (text_of_config c)]> (st_files s)
  | Err _ => ∃ t, is_temporary CONFIG_FILE t ∧ ∀ k, k ≠ t → st_files (final run) !! k = st_files s !! k
  end.
Proof.
  intros Hc Ht. simpl. destruct (write_config_spec io pid (utf8 (text_of_config c)) s) as [Hv [Hr _]].
  unfold save_to_dir. split; [done|]. destruct (outcome _) as [[]|e]; simpl in Hr; [|done]. split; [|done].
  erewrite load_saved; [done|..|done|done]. rewrite Hr. apply lookup_insert_eq.
Qed.
End file.

(** A remembered password is the one that was typed. *)
Lemma password_remembered `{AeadLaws, Base64} c c' nonce plaintext key : str_ok plaintext →
  set_password_encrypted c (Some nonce) plaintext key = (c', Some (Ok ())) →
  config_decrypt_password c' key = Ok plaintext.
Proof.
  intros Hp. unfold set_password_encrypted. destruct (encrypt_password _ _ _) as [[sealed|]|] eqn:E; try done.
  intros [= <-]. unfold config_decrypt_password. simpl. pose proof (decrypt_encrypt _ _ _ _ Hp E) as Hd.
  case_bool_decide as Hs; [|done]. exfalso. unfold encrypt_password in E. destruct (aead_seal _ _ _) as [ct|]; [|done].
  destruct (length ct <? TAG_LEN); [done|]. injection E as E. rewrite Hs, <-b64_encode_nil in E.
  apply (f_equal b64_decode) in E. rewrite !b64_decode_encode in E. injection E as E.
  apply (f_equal length) in E. rewrite length_app, length_arr_bytes in E. simpl in E. lia.
Qed.

(** ** Examples *)

(** A file that a later version wrote: a field of its own, and a mode this one does not
    know. *)
Definition sample_object : gmap string Value :=
  {[ "mtu" := V_U64 1400; "connection_mode" := V_String "turbo"; "theme" := V_String "dark" ]}%string.
Definition sample_config : ExvConfig :=
  MkExvConfig DEFAULT_SERVER "" "" false DEFAULT_ROUTES DEFAULT_USER_AGENT 1400 Standard false 0 false.
(** Three texts stand for the two objects and the record. *)
#[local] Instance sample_text : ConfigText := {|
  value_of_text t :=
    if bool_decide (t = lit "{old}") then Some (V_Object sample_object)
    else if bool_decide (t = lit "{new}") then Some (V_Object (hydrate_known_fields sample_object sample_config))
    else None;
  config_of_text t := if bool_decide (t = lit "{config}") then Some sample_config else None;
  text_of_value _ := lit "{new}";
  text_of_config _ := lit "{config}";
|}.
Definition no_write_failure : WriteIo := MkWriteIo None (λ _, None) None None None None.
Definition sample_store : Store := MkStore {[ CONFIG_FILE := utf8 (lit "{old}"); KEY_FILE := replicate 32 x07 ]} 0.

Lemma sample_reads : reads_as sample_store (V_Object sample_object).
Proof. exists (lit "{old}"). split_and!; [done| |done]. repeat constructor. Qed.
Lemma sample_parses : config_from_object sample_object = Some sample_config.
Proof. vm_compute. reflexivity. Qed.
Lemma sample_back : reads_back (V_Object (hydrate_known_fields sample_object sample_config)).
Proof. split; [repeat constructor|reflexivity]. Qed.

Lemma startup_settles_witness :
  sc_config (MkStartup sample_config false) = sample_config ∧
  st_files (final (load_for_startup None no_write_failure 9 (final (load_for_startup None no_write_failure 9 sample_store))))
  = st_files (final (load_for_startup None no_write_failure 9 sample_store)).
Proof.
  split; [done|].
  apply (startup_settles sample_store no_write_failure no_write_failure 9 sample_object sample_config
    (MkStartup sample_config false) (MkStartup sample_config false) sample_reads sample_parses sample_back);
    vm_compute; reflexivity.
Defined.

Lemma save_atomic_witness :
  Forall (safe_state sample_store CONFIG_FILE (utf8 (lit "{config}"))) (visited (save_to_dir no_write_failure 9 sample_config sample_store)) ∧
  length (visited (save_to_dir no_write_failure 9 sample_config sample_store)) = 4.
Proof.
  split; [|vm_compute; reflexivity].
  refine (proj1 (save_atomic sample_store no_write_failure 9 sample_config _ _)); [reflexivity|repeat constructor].
Defined.

(** ** Deviations *)

(** A file that is not UTF-8 is malformed, but loading it fails instead of giving the
    defaults, and so does startup. *)
Example not_utf8_fails :
  let s := MkStore {[ CONFIG_FILE := [xff; xfe] ]} 0 in
  outcome (load_from_dir None s) = Err (CE_Io InvalidData) ∧
  outcome (load_for_startup None no_write_failure 9 s) = Err (CE_Io InvalidData).
Proof. vm_compute. split; reflexivity. Qed.
