(* ===== verification/VgdcDns.v ===== *)
(** * Resolving the gateway past the proxy

    [vgdc_dns.rs] of the Windows resource crate and [vgdc_connect.rs] of the engine: the
    address of the gateway is asked of the DNS-over-HTTPS servers first and of the public
    name servers over a UDP socket bound to a physical network card second; addresses of
    the pool a proxy program invents are filtered on every line.

    What the sockets and the TLS library answer is the records [DohIo] and [UdpIo], one
    for each line that is tried. The JSON text is [serde_json]'s: [json_from_slice] is
    a parameter. An index out of range would be a panic: the parser of a reply returns an
    [option], whose [None] is the panic. Messages that go out are part of the result of a
    line, as [Sent]. *)

From Stdlib Require Import NArith ZArith Strings.Byte Lia.
From S2P Require Import Prelude Text Connector Http Admission IpHelper Routes Adapters Config.

(** ** Data *)

(** win32-resource/vgdc_dns.rs:69-78 [ResolutionSource] *)
Inductive ResolutionSource := RS_System | RS_Doh (endpoint : Ipv4Addr) | RS_Udp53 (resolver : Ipv4Addr).
(** win32-resource/vgdc_dns.rs:81-89 [ResolutionSource::as_str] *)
Definition source_as_str (s : ResolutionSource) : string :=
  match s with RS_System => "system" | RS_Doh _ => "doh" | RS_Udp53 _ => "udp53" end.

(** win32-resource/vgdc_dns.rs:92-111 [DohErrorKind] *)
Inductive DohErrorKind :=
  | Doh_ConnectFailed (e : str) | Doh_TlsFailed (e : str) | Doh_HttpStatus (code : N) | Doh_DnsStatus (code : N)
  | Doh_BadResponse (detail : str) | Doh_NoIpv4Result | Doh_DeadlineExceeded | Doh_BadRequest (detail : str).
(** win32-resource/vgdc_dns.rs:114-127 [DohErrorKind::describe] *)
Definition doh_describe (k : DohErrorKind) : str :=
  match k with
  | Doh_ConnectFailed e => lit "connect-failed:" ++ e
  | Doh_TlsFailed e => lit "tls-failed:" ++ e
  | Doh_HttpStatus code => lit "http-status-" ++ to_dec code
  | Doh_DnsStatus code => lit "dns-status-" ++ to_dec code
  | Doh_BadResponse detail => lit "bad-response:" ++ detail
  | Doh_NoIpv4Result => lit "no-ipv4-result"
  | Doh_DeadlineExceeded => lit "deadline"
  | Doh_BadRequest detail => lit "bad-request:" ++ detail
  end.

(** win32-resource/vgdc_dns.rs:130-145 [Udp53ErrorKind] *)
Inductive Udp53ErrorKind :=
  | Udp_QueryFailed (e : str) | Udp_BadResponse (detail : str) | Udp_DnsRcode (code : N) | Udp_NoIpv4Result
  | Udp_Timeout | Udp_BadQuery (detail : str).
(** win32-resource/vgdc_dns.rs:148-159 [Udp53ErrorKind::describe] *)
Definition udp_describe (k : Udp53ErrorKind) : str :=
  match k with
  | Udp_QueryFailed e => lit "query-failed:" ++ e
  | Udp_BadResponse detail => lit "bad-response:" ++ detail
  | Udp_DnsRcode code => lit "dns-rcode-" ++ to_dec code
  | Udp_NoIpv4Result => lit "no-ipv4-result"
  | Udp_Timeout => lit "timeout"
  | Udp_BadQuery detail => lit "bad-query:" ++ detail
  end.

(** win32-resource/vgdc_dns.rs:162-181 [ResolveLayerError] *)
Inductive ResolveLayerError :=
  | RLE_Doh (endpoint : Ipv4Addr) (kind : DohErrorKind)
  | RLE_Udp53 (resolver : Ipv4Addr) (kind : Udp53ErrorKind)
  | FakeIpLiteral (ip : Ipv4Addr).
(** win32-resource/vgdc_dns.rs:184-192 [ResolveLayerError::describe] *)
Definition layer_describe (e : ResolveLayerError) : str :=
  match e with
  | RLE_Doh endpoint kind => lit "doh:" ++ show_ipv4 endpoint ++ lit ":" ++ doh_describe kind
  | RLE_Udp53 resolver kind => lit "udp53:" ++ show_ipv4 resolver ++ lit ":" ++ udp_describe kind
  | FakeIpLiteral ip => lit "fake-ip-literal:" ++ show_ipv4 ip
  end.
#[export] Instance ResolutionSource_eq_dec : EqDecision ResolutionSource. Proof. solve_decision. Defined.
#[export] Instance DohErrorKind_eq_dec : EqDecision DohErrorKind. Proof. solve_decision. Defined.
#[export] Instance Udp53ErrorKind_eq_dec : EqDecision Udp53ErrorKind. Proof. solve_decision. Defined.
#[export] Instance ResolveLayerError_eq_dec : EqDecision ResolveLayerError. Proof. solve_decision. Defined.

(** win32-resource/vgdc_dns.rs:195-202 [DohEndpoint] *)
Record DohEndpoint := MkDohEndpoint { ep_ip : Ipv4Addr; ep_path : str }.
(** win32-resource/vgdc_dns.rs:204-216 [DualLineConfig]; the TLS configuration is part of what a
    line answers. *)
Record DualLineConfig := MkDualLine {
  doh_endpoints : list DohEndpoint;
  udp53_resolvers : list SocketAddr;
  udp53_ifindex : option N;
}.
(** win32-resource/vgdc_dns.rs:219-254 [DualLineConfig::production]: whether the verifier and the
    TLS configuration can be made. *)
Definition dual_line_production (verifier_ok config_ok : bool) (ifindex : option N) : result str DualLineConfig :=
  if negb verifier_ok then Err (lit "platform-verifier")
  else if negb config_ok then Err (lit "client-config")
  else Ok (MkDualLine
    [MkDohEndpoint (MkIpv4Addr xdf x05 x05 x05) (lit "/resolve"); MkDohEndpoint (MkIpv4Addr x01 x01 x01 x01) (lit "/dns-query")]
    [V4 (MkIpv4Addr x01 x01 x01 x01) 53; V4 (MkIpv4Addr x08 x08 x08 x08) 53; V4 (MkIpv4Addr x72 x72 x72 x72) 53]
    ifindex).

(** A message that went out: a request to an endpoint, or a query on a socket and the card
    the socket was bound to. *)
Inductive Sent :=
  | SentDoh (endpoint : Ipv4Addr) (request : list byte)
  | SentUdp (resolver : SocketAddr) (bound : option N) (query : list byte).

(** ** DNS over HTTPS *)

(** win32-resource/vgdc_dns.rs:380-387 [url_encode_host]: one byte. *)
Definition hex_digit (n : N) : N := if (n <? 10)%N then (48 + n)%N else (55 + n)%N.
Definition encode_byte (b : N) : str :=
  if is_ascii_alphanumeric b || (b =? 46)%N || (b =? 45)%N then [b]
  else [37%N; hex_digit (b / 16); hex_digit (b mod 16)].
(** win32-resource/vgdc_dns.rs:376-389 [url_encode_host] *)
Definition url_encode_host (host : str) : str := utf8 host ≫= λ b, encode_byte (byte_val b).

(** win32-resource/vgdc_dns.rs:295-299 [doh_query]: the request. *)
Definition doh_request (path host : str) (ip : Ipv4Addr) : str :=
  lit "GET " ++ path ++ lit "?name=" ++ url_encode_host host ++ lit "&type=A HTTP/1.1" ++ crlf
  ++ lit "Host: " ++ show_ipv4 ip ++ crlf
  ++ lit "Accept: application/dns-json" ++ crlf
  ++ lit "Connection: close" ++ crlf ++ crlf.

(** What a step under the deadline answers: [None] when the deadline passed. *)
Definition Timed (A : Type) : Type := option (result str A).
(** The answers of one DNS-over-HTTPS line; past its reads the stream has ended. *)
Record DohIo := MkDohIo {
  di_server_name : bool;
  di_connect : Timed ();
  di_tls : Timed ();
  di_write : result str ();
  di_reads : list (Timed (list byte));
}.

(** win32-resource/vgdc_dns.rs:303-320 [doh_query]: the reading loop. *)
Fixpoint doh_read (raw : list byte) (reads : list (Timed (list byte))) : result DohErrorKind (list byte) :=
  match reads with
  | [] => Ok raw
  | None :: _ => Err Doh_DeadlineExceeded
  | Some (Err e) :: _ => Err (Doh_TlsFailed e)
  | Some (Ok chunk) :: reads =>
      if bool_decide (chunk = []) then Ok raw
      else
        let raw := raw ++ chunk in
        if bool_decide (is_Some (position (CRLF ++ CRLF) raw)) then Ok raw else doh_read raw reads
  end.

(** win32-resource/vgdc_dns.rs:358-372 [parse_doh_response]: the loop over the answers. *)
Fixpoint first_address (answers : list Value) : option Ipv4Addr :=
  match answers with
  | [] => None
  | entry :: answers =>
      if negb (bool_decide (get entry "type" ≫= as_u64 = Some 1%N)) then first_address answers
      else
        let data := default ""%string (get entry "data" ≫= as_str) in
        match parse_ipv4 (lit data) with
        | Some ip => if is_fake_ip_v4 ip then first_address answers else Some ip
        | None => first_address answers
        end
  end.

Section resolver.
(** [serde_json::from_slice], with the text of its error. *)
Context (json_from_slice : list byte → result str Value).

(** win32-resource/vgdc_dns.rs:324-374 [parse_doh_response] *)
Definition parse_doh_response (raw : list byte) : result DohErrorKind Ipv4Addr :=
  match position (CRLF ++ CRLF) raw with
  | None => Err (Doh_BadResponse (lit "no-http-header-end"))
  | Some header_end =>
      match parse_status (from_utf8_lossy (take header_end raw)) with
      | None => Err (Doh_BadResponse (lit "no-status-line"))
      | Some status =>
          if negb (status =? 200)%N then Err (Doh_HttpStatus status)
          else match json_from_slice (drop (header_end + 4) raw) with
          | Err e => Err (Doh_BadResponse (lit "json:" ++ e))
          | Ok json =>
              match get json "Status" ≫= as_u64 with
              | None => Err (Doh_BadResponse (lit "no-status"))
              | Some dns_status =>
                  if negb (dns_status =? 0)%N then Err (Doh_DnsStatus dns_status)
                  else match get json "Answer" ≫= as_array with
                  | None => Err (Doh_BadResponse (lit "no-answer"))
                  | Some answers => ok_or (first_address answers) Doh_NoIpv4Result
                  end
              end
          end
      end
  end.

(** win32-resource/vgdc_dns.rs:269-322 [doh_query] *)
Definition doh_query (io : DohIo) (endpoint : DohEndpoint) (host : str) : list Sent * result DohErrorKind Ipv4Addr :=
  if negb (di_server_name io) then ([], Err (Doh_BadRequest (lit "server-name")))
  else match di_connect io with
  | None => ([], Err Doh_DeadlineExceeded)
  | Some (Err e) => ([], Err (Doh_ConnectFailed e))
  | Some (Ok _) =>
      match di_tls io with
      | None => ([], Err Doh_DeadlineExceeded)
      | Some (Err e) => ([], Err (Doh_TlsFailed e))
      | Some (Ok _) =>
          match di_write io with
          | Err e => ([], Err (Doh_ConnectFailed e))
          | Ok _ =>
              ([SentDoh (ep_ip endpoint) (utf8 (doh_request (ep_path endpoint) host (ep_ip endpoint)))],
               raw ← doh_read [] (di_reads io); parse_doh_response raw)
          end
      end
  end.

(** ** DNS over UDP *)

(** win32-resource/vgdc_dns.rs:45-46 [DNS_QUERY_ID] *)
Definition DNS_QUERY_ID : list byte := [x12; x34].

(** win32-resource/vgdc_dns.rs:405-411 [build_dns_query]: the loop over the labels. *)
Fixpoint push_labels (q : list byte) (labels : list str) : result Udp53ErrorKind (list byte) :=
  match labels with
  | [] => Ok q
  | label :: labels =>
      let bytes := utf8 label in
      if bool_decide (bytes = []) || (63 <? length bytes) then Err (Udp_BadQuery (lit "label:" ++ label))
      else push_labels (q ++ byte_of_N (N.of_nat (length bytes)) :: bytes) labels
  end.
(** win32-resource/vgdc_dns.rs:396-415 [build_dns_query] *)
Definition build_dns_query (host : str) : result Udp53ErrorKind (list byte) :=
  q ← push_labels (DNS_QUERY_ID ++ [x01; x00; x00; x01; x00; x00; x00; x00; x00; x00]) (split_str [46%N] host);
  Ok (q ++ [x00; x00; x01; x00; x01]).

(** win32-resource/vgdc_dns.rs:422-442 [skip_name]: one pass of the loop. *)
Definition skip_label (resp : list byte) (off : nat) : nat + result Udp53ErrorKind nat :=
  match resp !! off with
  | None => inr (Err (Udp_BadResponse (lit "name-eof")))
  | Some lab =>
      let lab := byte_val lab in
      if (lab =? 0)%N then inr (Ok (off + 1))
      else if (N.land lab 0xC0 =? 0xC0)%N then
        inr (if length resp <? off + 2 then Err (Udp_BadResponse (lit "ptr-eof")) else Ok (off + 2))
      else if (63 <? lab)%N then inr (Err (Udp_BadResponse (lit "label-too-long")))
      else
        let off := off + (1 + N.to_nat lab) in
        if length resp <? off then inr (Err (Udp_BadResponse (lit "label-eof"))) else inl off
  end.
(** win32-resource/vgdc_dns.rs:417-443 [skip_name] *)
Definition skip_name (resp : list byte) (off : nat) : result Udp53ErrorKind nat :=
  loop (λ off, length resp - off) (Ok off) (skip_label resp) off.

(** win32-resource/vgdc_dns.rs:471-474 [parse_dns_response]: the questions. *)
Fixpoint skip_questions (resp : list byte) (n off : nat) : result Udp53ErrorKind nat :=
  match n with
  | 0 => Ok off
  | S n => off ← skip_name resp off; skip_questions resp n (off + 4)
  end.

(** [u16::from_be_bytes([resp[i], resp[i + 1]])] *)
Definition u16_at (resp : list byte) (i : nat) : option N :=
  a ← resp !! i; b ← resp !! (i + 1); Some (be_val [a; b]).

(** win32-resource/vgdc_dns.rs:487-492 [parse_dns_response]: an answer with an address. *)
Definition push_address (out : list Ipv4Addr) (ip : Ipv4Addr) : list Ipv4Addr :=
  if negb (is_fake_ip_v4 ip) && negb (bool_decide (ip ∈ out)) then out ++ [ip] else out.

(** win32-resource/vgdc_dns.rs:475-494 [parse_dns_response]: the answers. *)
Fixpoint read_answers (resp : list byte) (n off : nat) (out : list Ipv4Addr) :
    option (result Udp53ErrorKind (list Ipv4Addr)) :=
  match n with
  | 0 => Some (Ok out)
  | S n =>
      match skip_name resp off with
      | Err e => Some (Err e)
      | Ok off =>
          if length resp <? off + 10 then Some (Err (Udp_BadResponse (lit "answer-truncated")))
          else
            atype ← u16_at resp off;
            rdlen ← u16_at resp (off + 8);
            let off := off + 10 in
            if length resp <? off + N.to_nat rdlen then Some (Err (Udp_BadResponse (lit "rdlen-eof")))
            else if (atype =? 1)%N && (rdlen =? 4)%N then
              a ← resp !! off; b ← resp !! (off + 1); c ← resp !! (off + 2); d ← resp !! (off + 3);
              read_answers resp n (off + 4) (push_address out (MkIpv4Addr a b c d))
            else read_answers resp n (off + N.to_nat rdlen) out
      end
  end.

(** win32-resource/vgdc_dns.rs:445-499 [parse_dns_response] *)
Definition parse_dns_response (resp query_id : list byte) : option (result Udp53ErrorKind (list Ipv4Addr)) :=
  if length resp <? 12 then Some (Err (Udp_BadResponse (lit "short")))
  else if negb (bool_decide (take 2 resp = query_id)) then Some (Err (Udp_BadResponse (lit "id-mismatch")))
  else
    flags ← resp !! 2; low ← resp !! 3;
    if (N.land (byte_val flags) 0x80 =? 0)%N then Some (Err (Udp_BadResponse (lit "not-response")))
    else
      let rcode := N.land (byte_val low) 0x0F in
      if negb (rcode =? 0)%N then Some (Err (Udp_DnsRcode rcode))
      else
        qdcount ← u16_at resp 4; ancount ← u16_at resp 6;
        if (qdcount =? 0)%N then Some (Err (Udp_BadResponse (lit "no-question")))
        else match skip_questions resp (N.to_nat qdcount) 12 with
        | Err e => Some (Err e)
        | Ok off =>
            match read_answers resp (N.to_nat ancount) off [] with
            | Some (Ok []) => Some (Err Udp_NoIpv4Result)
            | r => r
            end
        end.

(** The answers of one UDP line; [ui_unicast_if] is the return code of the call that binds
    the socket to a card. *)
Record UdpIo := MkUdpIo {
  ui_bind : result str ();
  ui_unicast_if : Z;
  ui_read_timeout : result str ();
  ui_write_timeout : result str ();
  ui_send : result str ();
  ui_recv : result str (list byte);
}.

(** win32-resource/vgdc_dns.rs:518-532 [dns_a_query_udp]: binding to the card, if one is asked
    for. *)
Definition bind_card (io : UdpIo) (ifindex : option N) : result Udp53ErrorKind () :=
  match ifindex with
  | None => Ok ()
  | Some _ =>
      if (ui_unicast_if io =? 0)%Z then Ok ()
      else Err (Udp_QueryFailed (lit "ip-unicast-if:" ++ (if (ui_unicast_if io <? 0)%Z then lit "-" else [])
                                 ++ to_dec (Z.abs_N (ui_unicast_if io))))
  end.

(** win32-resource/vgdc_dns.rs:501-547 [dns_a_query_udp] *)
Definition dns_a_query_udp (io : UdpIo) (host : str) (resolver : SocketAddr) (ifindex : option N) :
    list Sent * option (result Udp53ErrorKind (list Ipv4Addr)) :=
  let failed (step : string) (e : str) := Udp_QueryFailed (lit step ++ lit ":" ++ e) in
  match
    query ← build_dns_query host;
    _ ← map_err (failed "bind"%string) (ui_bind io);
    _ ← bind_card io ifindex;
    _ ← map_err (failed "read-timeout"%string) (ui_read_timeout io);
    _ ← map_err (failed "write-timeout"%string) (ui_write_timeout io);
    _ ← map_err (failed "send"%string) (ui_send io);
    Ok query
  with
  | Err e => ([], Some (Err e))
  | Ok query =>
      ([SentUdp resolver ifindex query],
       match ui_recv io with
       | Err e => Some (Err (failed "recv"%string e))
       | Ok [] => Some (Err (Udp_BadResponse (lit "empty")))
       | Ok resp => parse_dns_response resp DNS_QUERY_ID
       end)
  end.

(** ** Both lines *)

(** The answers of the lines, by their position. *)
Record DualLineIo := MkDualLineIo { dl_doh : nat → DohIo; dl_udp : nat → UdpIo }.

Definition Resolution : Type := result (list ResolveLayerError) (Ipv4Addr * ResolutionSource).

(** win32-resource/vgdc_dns.rs:609-642 [resolve_gateway_dual_line]: the name servers. *)
Fixpoint try_udp (io : DualLineIo) (ifindex : option N) (host : str) (i : nat) (resolvers : list SocketAddr)
    (errors : list ResolveLayerError) : list Sent * option Resolution :=
  match resolvers with
  | [] => ([], Some (Err errors))
  | V6 _ _ :: resolvers =>
      try_udp io ifindex host (S i) resolvers
        (errors ++ [RLE_Udp53 UNSPECIFIED (Udp_BadQuery (lit "ipv6-resolver"))])
  | V4 ip port :: resolvers =>
      match dns_a_query_udp (dl_udp io i) host (V4 ip port) ifindex with
      | (sent, None) => (sent, None)
      | (sent, Some (Ok [])) => (sent, None)
      | (sent, Some (Ok (first :: _))) => (sent, Some (Ok (first, RS_Udp53 ip)))
      | (sent, Some (Err kind)) =>
          let '(sent', r) := try_udp io ifindex host (S i) resolvers (errors ++ [RLE_Udp53 ip kind]) in
          (sent ++ sent', r)
      end
  end.

(** win32-resource/vgdc_dns.rs:579-608 [resolve_gateway_dual_line]: the endpoints, and then the
    name servers. *)
Fixpoint try_doh (io : DualLineIo) (cfg : DualLineConfig) (host : str) (i : nat) (endpoints : list DohEndpoint)
    (errors : list ResolveLayerError) : list Sent * option Resolution :=
  match endpoints with
  | [] => try_udp io (udp53_ifindex cfg) host 0 (udp53_resolvers cfg) errors
  | ep :: endpoints =>
      match doh_query (dl_doh io i) ep host with
      | (sent, Ok ip) => (sent, Some (Ok (ip, RS_Doh (ep_ip ep))))
      | (sent, Err kind) =>
          let '(sent', r) := try_doh io cfg host (S i) endpoints (errors ++ [RLE_Doh (ep_ip ep) kind]) in
          (sent ++ sent', r)
      end
  end.

(** win32-resource/vgdc_dns.rs:553-644 [resolve_gateway_dual_line] *)
Definition resolve_gateway_dual_line (io : DualLineIo) (cfg : DualLineConfig) (host : str) :
    list Sent * option Resolution :=
  match parse_ipv4 host with
  | Some ip => ([], Some (if is_fake_ip_v4 ip then Err [FakeIpLiteral ip] else Ok (ip, RS_System)))
  | None => try_doh io cfg host 0 (doh_endpoints cfg) []
  end.
End resolver.

(** ** Names in a message *)

Lemma skip_label_decreases resp off off' :
  skip_label resp off = inl off' → length resp - off' < length resp - off.
Proof.
  unfold skip_label. destruct (resp !! off) as [lab|] eqn:E; [|done]. apply lookup_lt_Some in E.
  repeat case_match; try done. intros [= <-]. destruct (N.eqb_spec (byte_val lab) 0); [done|].
  destruct (Nat.ltb_spec (length resp) (off + (1 + N.to_nat (byte_val lab)))); [done|]. lia.
Qed.
Lemma skip_name_eq resp off :
  skip_name resp off = match skip_label resp off with inl off' => skip_name resp off' | inr r => r end.
Proof.
  unfold skip_name. rewrite loop_eq by apply skip_label_decreases.
  destruct (skip_label resp off) as [off'|r] eqn:E; [|done].
  unfold loop. simpl. destruct (skip_label resp off') as [off''|r] eqn:E'; [|done].
  pose proof (skip_label_decreases _ _ _ E') as Hd.
  assert (∀ n d, length resp - off'' < n → default d (iterate n (skip_label resp) off'')
            = default (Ok off) (iterate n (skip_label resp) off'')) as H; [|by rewrite (H _ (Ok off'))].
  clear -E. intros n d Hn.
  assert (is_Some (iterate n (skip_label resp) off'')) as [x ->]; [|done].
  clear E. revert off'' Hn. induction n as [|n IH]; intros o Hn; [lia|]. simpl.
  destruct (skip_label resp o) as [o'|] eqn:E; [|eauto]. apply IH. apply skip_label_decreases in E. lia.
Qed.

(** A name as it stands in a message: its labels, and then the root or a pointer. *)
Inductive NameEnd := NE_Root | NE_Pointer (hi lo : byte).
Definition end_bytes (e : NameEnd) : list byte := match e with NE_Root => [x00] | NE_Pointer hi lo => [hi; lo] end.
Definition end_ok (e : NameEnd) : Prop :=
  match e with NE_Root => True | NE_Pointer hi _ => N.land (byte_val hi) 0xC0 = 0xC0%N end.
Definition label_bytes (l : list byte) : list byte := byte_of_N (N.of_nat (length l)) :: l.
Definition label_ok (l : list byte) : Prop := 1 ≤ length l ≤ 63.
Record WireName := MkWireName { wn_labels : list (list byte); wn_end : NameEnd }.
Definition name_bytes (n : WireName) : list byte := (wn_labels n ≫= label_bytes) ++ end_bytes (wn_end n).
Definition name_ok (n : WireName) : Prop := Forall label_ok (wn_labels n) ∧ end_ok (wn_end n).

Lemma lookup_here {A} (pre : list A) x post : (pre ++ x :: post) !! length pre = Some x.
Proof. by rewrite lookup_app_r, Nat.sub_diag by done. Qed.

Lemma label_length l : label_ok l → byte_val (byte_of_N (N.of_nat (length l))) = N.of_nat (length l).
Proof. unfold label_ok. intros. apply byte_of_small. lia. Qed.

Lemma skip_end pre e post : end_ok e →
  skip_name (pre ++ end_bytes e ++ post) (length pre) = Ok (length pre + length (end_bytes e)).
Proof.
  intros He. rewrite skip_name_eq. unfold skip_label. destruct e as [|hi lo]; simpl in *; rewrite lookup_here; [done|].
  rewrite He. destruct (N.eqb_spec (byte_val hi) 0) as [E|_]; [by rewrite E in He|]. simpl.
  rewrite length_app. simpl. destruct (Nat.ltb_spec (length pre + S (S (length post))) (length pre + 2)); [lia|done].
Qed.

Lemma small_land n : (n < 64)%N → N.land n 0xC0 = 0%N.
Proof.
  intros Hn. apply N.bits_inj. intros i. rewrite N.land_spec, N.bits_0. destruct (N.lt_ge_cases i 6).
  - assert (N.testbit 0xC0 i = false) as ->; [|by rewrite andb_false_r].
    assert (i = 0 ∨ i = 1 ∨ i = 2 ∨ i = 3 ∨ i = 4 ∨ i = 5)%N as Hi by lia. by destruct_or! Hi; subst.
  - destruct (N.eq_dec n 0%N) as [->|]; [by rewrite N.bits_0|].
    rewrite (N.bits_above_log2 n); [done|]. assert (N.log2 n < 6)%N by (apply N.log2_lt_pow2; [lia|exact Hn]). lia.
Qed.

Lemma skip_name_wire n : name_ok n → ∀ pre post,
  skip_name (pre ++ name_bytes n ++ post) (length pre) = Ok (length pre + length (name_bytes n)).
Proof.
  destruct n as [ls e]. unfold name_ok, name_bytes. simpl. intros [Hl He]. induction Hl as [|l ls Hl _ IH]; intros pre post.
  { by apply skip_end. }
  change ((l :: ls) ≫= label_bytes) with (label_bytes l ++ (ls ≫= label_bytes)).
  specialize (IH (pre ++ label_bytes l) post). rewrite <-!app_assoc in IH. rewrite <-!app_assoc.
  set (resp := pre ++ label_bytes l ++ _) in *.
  assert (resp !! length pre = Some (byte_of_N (N.of_nat (length l)))) as Hlook by apply lookup_here.
  assert (length pre + (1 + length l) ≤ length resp) as Hle.
  { unfold resp. rewrite !length_app. simpl. lia. }
  rewrite skip_name_eq. unfold skip_label. rewrite Hlook, (label_length _ Hl). unfold label_ok in Hl.
  destruct (N.eqb_spec (N.of_nat (length l)) 0); [lia|]. rewrite small_land by lia.
  change (0 =? 192)%N with false. destruct (N.ltb_spec 63 (N.of_nat (length l))); [lia|]. rewrite Nat2N.id.
  destruct (Nat.ltb_spec (length resp) (length pre + (1 + length l))); [lia|].
  rewrite length_app in IH. simpl length in IH. change (1 + length l) with (S (length l)). rewrite IH, !length_app.
  simpl. f_equal. lia.
Qed.

(** ** Queries *)

Lemma push_labels_Ok q labels out : push_labels q labels = Ok out ↔
  Forall label_ok (utf8 <$> labels) ∧ out = q ++ ((utf8 <$> labels) ≫= label_bytes).
Proof.
  revert q. induction labels as [|l labels IH]; intros q; simpl.
  { rewrite app_nil_r. split; [intros [= ->]; by split; [constructor|]|by intros [_ ->]]. }
  rewrite Forall_cons. unfold label_ok at 1. case_bool_decide as Hb; simpl.
  { rewrite Hb. simpl. split; [done|]. intros [[? _] _]. lia. }
  assert (length (utf8 l) ≠ 0) by (by rewrite length_zero_iff_nil). case_match eqn:E.
  - apply Nat.ltb_lt in E. split; [done|]. intros [[? _] _]. lia.
  - apply Nat.ltb_ge in E. rewrite IH, <-app_assoc. split; intros [Hl ->]; (split; [|done]); [split; [lia|done]|by destruct Hl].
Qed.

(** The name a query asks for. *)
Definition host_name (host : str) : WireName := MkWireName (utf8 <$> split_str [46%N] host) NE_Root.
Definition query_head : list byte := DNS_QUERY_ID ++ [x01; x00; x00; x01; x00; x00; x00; x00; x00; x00].

Lemma build_dns_query_Ok host q : build_dns_query host = Ok q ↔
  name_ok (host_name host) ∧ q = query_head ++ name_bytes (host_name host) ++ [x00; x01; x00; x01].
Proof.
  unfold build_dns_query, name_ok, name_bytes. simpl. rewrite bind_Ok. split.
  - intros (q' & [Hl ->]%push_labels_Ok & [= <-]). split; [by split|]. by rewrite <-!app_assoc.
  - intros [[Hl _] ->]. eexists. split; [by apply push_labels_Ok|]. by rewrite <-!app_assoc.
Qed.

(** ** Replies *)

(** A resource record of a reply: class and time to live are six bytes nobody reads. *)
Record Answer := MkAnswer { rr_name : WireName; rr_type : N; rr_class_ttl : list byte; rr_data : list byte }.
Definition answer_bytes (a : Answer) : list byte :=
  name_bytes (rr_name a) ++ be_bytes 2 (rr_type a) ++ rr_class_ttl a ++ be_bytes 2 (N.of_nat (length (rr_data a))) ++ rr_data a.
Definition answer_ok (a : Answer) : Prop :=
  name_ok (rr_name a) ∧ (rr_type a < 65536)%N ∧ length (rr_class_ttl a) = 6 ∧ (N.of_nat (length (rr_data a)) < 65536)%N.
(** The address an answer gives. *)
Definition answer_ip (a : Answer) : option Ipv4Addr :=
  if (rr_type a =? 1)%N && (length (rr_data a) =? 4) then Some (of_octets (rr_data a)) else None.

Lemma u16_at_here pre v post : (v < 65536)%N → u16_at (pre ++ be_bytes 2 v ++ post) (length pre) = Some v.
Proof.
  intros Hv. pose proof (length_be_bytes 2 v) as Hl. pose proof (be_val_be_bytes 2 v) as Hb. unfold u16_at.
  destruct (be_bytes 2 v) as [|a [|b [|? ?]]]; try done.
  change ([a; b] ++ post) with (a :: b :: post). rewrite lookup_here. simpl.
  rewrite lookup_app_r by lia. replace (length pre + 1 - length pre) with 1 by lia. simpl. f_equal. by apply Hb.
Qed.
Lemma u16_at_off pre off v post : length pre = off → (v < 65536)%N → u16_at (pre ++ be_bytes 2 v ++ post) off = Some v.
Proof. intros <-. apply u16_at_here. Qed.

(** The four octets at a place of the reply. *)
Lemma octets_here (pre data post : list byte) : length data = 4 → ∃ a b c d,
  data = [a; b; c; d] ∧ (pre ++ data ++ post) !! length pre = Some a ∧ (pre ++ data ++ post) !! (length pre + 1) = Some b ∧
  (pre ++ data ++ post) !! (length pre + 2) = Some c ∧ (pre ++ data ++ post) !! (length pre + 3) = Some d.
Proof.
  destruct data as [|a [|b [|c [|d [|? ?]]]]]; intros; simplify_eq/=. exists a, b, c, d.
  split_and!; [done| by rewrite lookup_here| | | ]; rewrite lookup_app_r by lia.
  - by replace (length pre + 1 - length pre) with 1 by lia.
  - by replace (length pre + 2 - length pre) with 2 by lia.
  - by replace (length pre + 3 - length pre) with 3 by lia.
Qed.

Lemma read_answers_wire answers : Forall answer_ok answers → ∀ pre tail out,
  read_answers (pre ++ (answers ≫= answer_bytes) ++ tail) (length answers) (length pre) out
  = Some (Ok (foldl push_address out (omap answer_ip answers))).
Proof.
  induction 1 as [|a answers Ha _ IH]; intros pre tail out; [done|]. destruct Ha as (Hn & Ht & Hc & Hd).
  change ((a :: answers) ≫= answer_bytes) with (answer_bytes a ++ (answers ≫= answer_bytes)).
  specialize (IH (pre ++ answer_bytes a) tail). rewrite <-!app_assoc in IH. rewrite <-!app_assoc.
  set (resp := pre ++ answer_bytes a ++ _) in *.
  assert (resp = pre ++ name_bytes (rr_name a) ++ (be_bytes 2 (rr_type a) ++ rr_class_ttl a
    ++ be_bytes 2 (N.of_nat (length (rr_data a))) ++ rr_data a) ++ (answers ≫= answer_bytes) ++ tail) as Er.
  { unfold resp, answer_bytes. by rewrite <-!app_assoc. }
  set (off := length pre + length (name_bytes (rr_name a))).
  assert (skip_name resp (length pre) = Ok off) as Hs by (rewrite Er; by apply skip_name_wire).
  assert (u16_at resp off = Some (rr_type a)) as H1.
  { rewrite Er, app_assoc, <-!app_assoc, app_assoc. apply u16_at_off; [|done]. by rewrite length_app. }
  assert (u16_at resp (off + 8) = Some (N.of_nat (length (rr_data a)))) as H2.
  { rewrite Er. replace (pre ++ _) with ((pre ++ name_bytes (rr_name a) ++ be_bytes 2 (rr_type a) ++ rr_class_ttl a)
      ++ be_bytes 2 (N.of_nat (length (rr_data a))) ++ rr_data a ++ (answers ≫= answer_bytes) ++ tail) by (by rewrite <-!app_assoc).
    apply u16_at_off; [|done]. rewrite !length_app, length_be_bytes, Hc. unfold off. lia. }
  assert (length (pre ++ answer_bytes a) = off + 10 + length (rr_data a)) as Hla.
  { unfold answer_bytes. rewrite !length_app, !length_be_bytes, Hc. unfold off. lia. }
  assert (length (pre ++ answer_bytes a) ≤ length resp) as Hlr by (unfold resp; rewrite !length_app; lia).
  cbn [read_answers length]. rewrite Hs. destruct (Nat.ltb_spec (length resp) (off + 10)); [lia|].
  rewrite H1. cbn [mbind option_bind]. rewrite H2. cbn [mbind option_bind]. rewrite Nat2N.id.
  destruct (Nat.ltb_spec (length resp) (off + 10 + length (rr_data a))); [lia|].
  cbn [omap list_omap]. unfold answer_ip at 1.
  replace (N.of_nat (length (rr_data a)) =? 4)%N with (length (rr_data a) =? 4).
  2:{ destruct (Nat.eqb_spec (length (rr_data a)) 4), (N.eqb_spec (N.of_nat (length (rr_data a))) 4); done || lia. }
  destruct ((rr_type a =? 1)%N && (length (rr_data a) =? 4)) eqn:E; [|by rewrite <-Hla].
  apply andb_true_iff in E as [_ E%Nat.eqb_eq].
  assert (∃ p, length p = off + 10 ∧ resp = p ++ rr_data a ++ (answers ≫= answer_bytes) ++ tail) as (p & Hp & Ep).
  { exists (pre ++ name_bytes (rr_name a) ++ be_bytes 2 (rr_type a) ++ rr_class_ttl a ++ be_bytes 2 (N.of_nat (length (rr_data a)))).
    split; [|rewrite Er; by rewrite <-!app_assoc]. rewrite !length_app, !length_be_bytes, Hc. unfold off. lia. }
  destruct (octets_here p (rr_data a) ((answers ≫= answer_bytes) ++ tail) E) as (o1 & o2 & o3 & o4 & Ed & L1 & L2 & L3 & L4).
  rewrite <-Ep, Hp in L1, L2, L3, L4. rewrite L1. cbn [mbind option_bind]. rewrite L2. cbn [mbind option_bind].
  rewrite L3. cbn [mbind option_bind]. rewrite L4. cbn [mbind option_bind]. rewrite E in Hla.
  rewrite <-Hla, IH, Ed. done.
Qed.

(** The reply to a query: its header, the question of the query, answers, and whatever
    follows. *)
Definition dns_reply (host : str) (flags low : byte) (counts : list byte) (answers : list Answer) (tail : list byte) :
    list byte :=
  DNS_QUERY_ID ++ [flags; low] ++ be_bytes 2 1 ++ be_bytes 2 (N.of_nat (length answers)) ++ counts
  ++ name_bytes (host_name host) ++ [x00; x01; x00; x01] ++ (answers ≫= answer_bytes) ++ tail.

Lemma push_address_spec ips : ∀ out, NoDup out →
  let r := foldl push_address out ips in
  NoDup r ∧ out `prefix_of` r ∧ ∀ ip, ip ∈ r ↔ ip ∈ out ∨ ip ∈ ips ∧ is_fake_ip_v4 ip = false.
Proof.
  induction ips as [|ip ips IH]; simpl; intros out Hd; [set_solver|].
  assert (NoDup (push_address out ip) ∧ out `prefix_of` push_address out ip ∧
    ∀ x, x ∈ push_address out ip ↔ x ∈ out ∨ x = ip ∧ is_fake_ip_v4 x = false) as (H1 & H2 & H3).
  { unfold push_address. destruct (is_fake_ip_v4 ip) eqn:Ef; simpl.
    { split_and!; [done..|]. intros x. split; [by left|]. intros [?|[-> ?]]; [done|congruence]. }
    case_bool_decide; simpl.
    { split_and!; [done..|]. intros x. split; [by left|]. by intros [?|[-> ?]]. }
    split_and!; [|by apply prefix_app_r|].
    - apply NoDup_app. split_and!; [done| |apply NoDup_singleton]. intros x ? ->%list_elem_of_singleton. done.
    - intros x. rewrite elem_of_app, list_elem_of_singleton. split; [intros [?| ->]; auto|intros [?|[-> _]]; auto]. }
  destruct (IH _ H1) as (I1 & I2 & I3). split_and!; [done|by etrans|]. intros x. rewrite I3, H3, elem_of_cons. naive_solver.
Qed.

(** The reply is read as its addresses. *)
Lemma parse_dns_reply host flags low counts answers tail :
  name_ok (host_name host) → Forall answer_ok answers → (N.of_nat (length answers) < 65536)%N →
  N.land (byte_val flags) 0x80 ≠ 0%N → N.land (byte_val low) 0x0F = 0%N → length counts = 4 →
  parse_dns_response (dns_reply host flags low counts answers tail) DNS_QUERY_ID
  = Some (match foldl push_address [] (omap answer_ip answers) with [] => Err Udp_NoIpv4Result | ips => Ok ips end).
Proof.
  intros Hn Ha Hl Hf Hr Hc. set (reply := dns_reply _ _ _ _ _ _).
  assert (reply = ((DNS_QUERY_ID ++ [flags; low] ++ be_bytes 2 1) ++ be_bytes 2 (N.of_nat (length answers)) ++ counts)
    ++ name_bytes (host_name host) ++ ([x00; x01; x00; x01] ++ (answers ≫= answer_bytes) ++ tail)) as Er.
  { unfold reply, dns_reply. by rewrite <-!app_assoc. }
  assert (length ((DNS_QUERY_ID ++ [flags; low] ++ be_bytes 2 1) ++ be_bytes 2 (N.of_nat (length answers)) ++ counts) = 12) as H12.
  { rewrite !length_app, !length_be_bytes, Hc. done. }
  assert (length (name_bytes (host_name host)) ≠ 0) as Hnn.
  { unfold name_bytes. rewrite length_app. simpl. lia. }
  unfold parse_dns_response. destruct (Nat.ltb_spec (length reply) 12) as [Hlt|_].
  { rewrite Er, length_app, H12 in Hlt. lia. }
  change (take 2 reply) with DNS_QUERY_ID. rewrite bool_decide_true by done.
  change (reply !! 2) with (Some flags). change (reply !! 3) with (Some low). cbn [negb mbind option_bind].
  rewrite Hr, (proj2 (N.eqb_neq _ _) Hf). cbn [negb N.eqb].
  change (u16_at reply 4) with (Some 1%N). cbn [mbind option_bind].
  assert (u16_at reply 6 = Some (N.of_nat (length answers))) as ->.
  { rewrite Er, <-(app_assoc _ (be_bytes 2 _ ++ _)), <-(app_assoc (be_bytes 2 _)). by apply u16_at_off. }
  cbn [mbind option_bind N.eqb].
  change (N.to_nat 1) with 1. cbn [skip_questions].
  assert (skip_name reply 12 = Ok (12 + length (name_bytes (host_name host)))) as ->.
  { rewrite Er, <-H12. by apply skip_name_wire. }
  cbn [mbind result_bind]. rewrite Nat2N.id.
  set (pre := ((DNS_QUERY_ID ++ [flags; low] ++ be_bytes 2 1) ++ be_bytes 2 (N.of_nat (length answers)) ++ counts)
    ++ name_bytes (host_name host) ++ [x00; x01; x00; x01]).
  assert (reply = pre ++ (answers ≫= answer_bytes) ++ tail) as -> by (rewrite Er; unfold pre; by rewrite <-!app_assoc).
  replace (12 + length (name_bytes (host_name host)) + 4) with (length pre)
    by (unfold pre; rewrite length_app, H12, length_app; simpl; lia).
  rewrite read_answers_wire by done. by destruct (foldl push_address [] (omap answer_ip answers)).
Qed.

(** ** Every reply is read safely *)

Definition real (ip : Ipv4Addr) : Prop := is_fake_ip_v4 ip = false.

Lemma u16_at_some resp i : i + 1 < length resp → is_Some (u16_at resp i).
Proof.
  intros Hi. unfold u16_at. destruct (lookup_lt_is_Some_2 resp i) as [a ->]; [lia|].
  destruct (lookup_lt_is_Some_2 resp (i + 1)) as [b ->]; [lia|]. by eexists.
Qed.

Lemma push_address_real out ip : Forall real out → Forall real (push_address out ip).
Proof.
  intros Ho. unfold push_address. destruct (is_fake_ip_v4 ip) eqn:E; simpl; [done|]. case_match; [|done].
  apply Forall_app. split; [done|]. by apply Forall_singleton.
Qed.

Lemma read_answers_safe resp n : ∀ off out, Forall real out →
  ∃ r, read_answers resp n off out = Some r ∧ ∀ ips, r = Ok ips → Forall real ips.
Proof.
  induction n as [|n IH]; intros off out Ho; simpl.
  { eexists. split; [done|]. by intros ? [= <-]. }
  destruct (skip_name resp off) as [o|e]; [|by eexists]. destruct (Nat.ltb_spec (length resp) (o + 10)); [by eexists|].
  destruct (u16_at_some resp o) as [atype ->]; [lia|]. cbn [mbind option_bind].
  destruct (u16_at_some resp (o + 8)) as [rdlen ->]; [lia|]. cbn [mbind option_bind].
  destruct (Nat.ltb_spec (length resp) (o + 10 + N.to_nat rdlen)); [by eexists|].
  destruct ((atype =? 1)%N && (rdlen =? 4)%N) eqn:E; [|by apply IH].
  apply andb_true_iff in E as [_ E%N.eqb_eq]. assert (N.to_nat rdlen = 4) by (by subst).
  destruct (lookup_lt_is_Some_2 resp (o + 10)) as [o1 ->]; [lia|]. destruct (lookup_lt_is_Some_2 resp (o + 10 + 1)) as [o2 ->]; [lia|].
  destruct (lookup_lt_is_Some_2 resp (o + 10 + 2)) as [o3 ->]; [lia|]. destruct (lookup_lt_is_Some_2 resp (o + 10 + 3)) as [o4 ->]; [lia|].
  cbn [mbind option_bind]. apply IH. by apply push_address_real.
Qed.

Lemma parse_dns_safe resp id :
  ∃ r, parse_dns_response resp id = Some r ∧ ∀ ips, r = Ok ips → ips ≠ [] ∧ Forall real ips.
Proof.
  unfold parse_dns_response. destruct (Nat.ltb_spec (length resp) 12); [by eexists|]. case_bool_decide; [|by eexists]. simpl.
  destruct (lookup_lt_is_Some_2 resp 2) as [flags ->]; [lia|]. destruct (lookup_lt_is_Some_2 resp 3) as [low ->]; [lia|]. simpl.
  case_match; [by eexists|]. case_match; [by eexists|].
  destruct (u16_at_some resp 4) as [qd ->]; [lia|]. simpl. destruct (u16_at_some resp 6) as [an ->]; [lia|]. simpl.
  case_match; [by eexists|]. destruct (skip_questions resp (N.to_nat qd) 12) as [off|e]; [|by eexists].
  destruct (read_answers_safe resp (N.to_nat an) off []) as (r & -> & Hr); [constructor|].
  destruct r as [[|ip ips]|e]; eexists; (split; [done|]); [done| |done]. intros ? [= <-]. split; [done|]. by apply Hr.
Qed.

Lemma first_address_real answers ip : first_address answers = Some ip → real ip.
Proof.
  induction answers as [|e answers IH]; simpl; [done|]. case_bool_decide; [|done]. simpl. case_match; [|done].
  destruct (is_fake_ip_v4 _) eqn:E; [done|]. by intros [= <-].
Qed.

Section lines.
Context (json_from_slice : list byte → result str Value).

Lemma doh_query_real io ep host ip : (doh_query json_from_slice io ep host).2 = Ok ip → real ip.
Proof.
  unfold doh_query. repeat case_match; simpl; try done. intros (raw & _ & H')%bind_Ok. unfold parse_doh_response in H'.
  repeat case_match; try done. apply ok_or_Ok in H'. by eapply first_address_real.
Qed.

Lemma udp_query_real io host resolver ifindex :
  ∃ r, (dns_a_query_udp io host resolver ifindex).2 = Some r ∧ ∀ ips, r = Ok ips → ips ≠ [] ∧ Forall real ips.
Proof.
  unfold dns_a_query_udp. case_match; simpl; [|by eexists]. destruct (ui_recv io) as [[|b resp]|e]; [by eexists| |by eexists].
  apply parse_dns_safe.
Qed.

(** The line an error is about, and the lines of a configuration. *)
Inductive Line := L_Doh (ip : Ipv4Addr) | L_Udp (ip : Ipv4Addr) | L_Literal (ip : Ipv4Addr).
Definition error_line (e : ResolveLayerError) : Line :=
  match e with RLE_Doh ip _ => L_Doh ip | RLE_Udp53 ip _ => L_Udp ip | FakeIpLiteral ip => L_Literal ip end.
Definition udp_line (a : SocketAddr) : Line := L_Udp (match a with V4 ip _ => ip | V6 _ _ => UNSPECIFIED end).
Definition config_lines (cfg : DualLineConfig) : list Line :=
  ((λ ep, L_Doh (ep_ip ep)) <$> doh_endpoints cfg) ++ (udp_line <$> udp53_resolvers cfg).
Definition source_line (s : ResolutionSource) : option Line :=
  match s with RS_System => None | RS_Doh ip => Some (L_Doh ip) | RS_Udp53 ip => Some (L_Udp ip) end.

(** What a resolution over some lines may answer: a real address from one of them, or an
    error of every one. *)
Definition resolved_by (lines : list Line) (errors : list ResolveLayerError) (r : Resolution) : Prop :=
  match r with
  | Ok (ip, source) => real ip ∧ ∃ line, source_line source = Some line ∧ line ∈ lines
  | Err all => ∃ more, all = errors ++ more ∧ error_line <$> more = lines
  end.

Lemma resolved_by_later line lines errors e r : error_line e = line →
  resolved_by lines (errors ++ [e]) r → resolved_by (line :: lines) errors r.
Proof.
  intros He. destruct r as [[ip source]|all]; simpl.
  - intros (Hr & l & Hs & Hl). split; [done|]. exists l. split; [done|]. by right.
  - intros (more & -> & Hm). exists (e :: more). split; [by rewrite <-app_assoc|]. by rewrite fmap_cons, He, Hm.
Qed.

Lemma try_udp_answers io ifindex host resolvers : ∀ i errors,
  ∃ r, (try_udp io ifindex host i resolvers errors).2 = Some r ∧ resolved_by (udp_line <$> resolvers) errors r.
Proof.
  induction resolvers as [|a resolvers IH]; intros i errors; simpl.
  { eexists. split; [done|]. exists []. by rewrite app_nil_r. }
  destruct a as [ip port|ip port].
  2:{ destruct (IH (S i) (errors ++ [RLE_Udp53 UNSPECIFIED (Udp_BadQuery (lit "ipv6-resolver"))])) as (r & -> & Hr).
      eexists. split; [done|]. by eapply resolved_by_later; [|exact Hr]. }
  destruct (udp_query_real (dl_udp io i) host (V4 ip port) ifindex) as (r & Hr & Hok).
  destruct (dns_a_query_udp (dl_udp io i) host (V4 ip port) ifindex) as [sent r']. simpl in Hr. subst r'.
  destruct r as [[|first ips]|kind].
  - by destruct (Hok []) as [[] _].
  - eexists. split; [done|]. destruct (Hok _ eq_refl) as [_ Hf]. inversion_clear Hf. split; [done|].
    eexists. split; [done|]. by left.
  - destruct (IH (S i) (errors ++ [RLE_Udp53 ip kind])) as (r & Ht & Hr).
    destruct (try_udp io ifindex host (S i) resolvers (errors ++ [RLE_Udp53 ip kind])). simpl in *. subst.
    eexists. split; [done|]. by eapply resolved_by_later; [|exact Hr].
Qed.

Lemma try_doh_answers io cfg host endpoints : ∀ i errors,
  ∃ r, (try_doh json_from_slice io cfg host i endpoints errors).2 = Some r ∧
    resolved_by (((λ ep, L_Doh (ep_ip ep)) <$> endpoints) ++ (udp_line <$> udp53_resolvers cfg)) errors r.
Proof.
  induction endpoints as [|ep endpoints IH]; intros i errors; simpl; [apply try_udp_answers|].
  pose proof (doh_query_real (dl_doh io i) ep host) as Hok.
  destruct (doh_query json_from_slice (dl_doh io i) ep host) as [sent [ip|kind]]; simpl in Hok.
  - eexists. split; [done|]. split; [by apply Hok|]. eexists. split; [done|]. by left.
  - destruct (IH (S i) (errors ++ [RLE_Doh (ep_ip ep) kind])) as (r & Ht & Hr).
    destruct (try_doh _ _ _ _ (S i) endpoints _). simpl in *. subst. eexists. split; [done|].
    by eapply resolved_by_later; [|exact Hr].
Qed.

(** Whatever the servers, the network and the proxy program answer: the resolution ends
    without a panic. *)
Lemma resolution_answers io cfg host :
  ∃ r, (resolve_gateway_dual_line json_from_slice io cfg host).2 = Some r ∧
    match parse_ipv4 host with
    | Some ip => r = if is_fake_ip_v4 ip then Err [FakeIpLiteral ip] else Ok (ip, RS_System)
    | None => resolved_by (config_lines cfg) [] r
    end.
Proof.
  unfold resolve_gateway_dual_line. destruct (parse_ipv4 host); [by eexists|]. apply try_doh_answers.
Qed.
End lines.

(** ** The resolver of the engine *)

(** win32-engine/vgdc_connect.rs:30-31 [CSTP_GATEWAY_PORT] *)
Definition CSTP_GATEWAY_PORT : N := 443.

(** win32-engine/vgdc_connect.rs:52-59 [GatewayResolutionObservation] *)
Record GatewayResolutionObservation := MkObservation {
  go_address : option SocketAddr;
  go_source : option ResolutionSource;
  go_elapsed : N;
  go_failed_layers : option nat;
}.

(** win32-engine/vgdc_connect.rs:33-81 [production_gateway_resolver, production_gateway_resolver_observed]: the configuration
    the resolver is made with. *)
Definition production_resolver_config (adapters : AdapterAnswers) (verifier_ok config_ok : bool) (ifindex : N) :
    result str DualLineConfig :=
  let resolved :=
    if (ifindex =? 0)%N then
      match find_physical_nics adapters with
      | Err rc => Err (lit "vgdc-nics:GetAdaptersAddresses rc=" ++ to_dec rc)
      | Ok [] => Err (lit "vgdc-nics:no-physical-nic")
      | Ok (nic :: _) => Ok (ni_ifindex nic)
      end
    else Ok ifindex in
  match resolved with
  | Err e => Err e
  | Ok resolved_ifindex =>
      map_err (λ e, lit "vgdc-config:" ++ e) (dual_line_production verifier_ok config_ok (Some resolved_ifindex))
  end.

(** win32-engine/vgdc_connect.rs:83-117 [resolver_with_config]: one resolution, with what is
    observed of it when there is an observer. *)
Definition resolver_with_config (json_from_slice : list byte → result str Value) (io : DualLineIo) (cfg : DualLineConfig)
    (port : N) (observer : bool) (elapsed : N) (host : str) :
    list Sent * list GatewayResolutionObservation * option (result str SocketAddr) :=
  let '(sent, r) := resolve_gateway_dual_line json_from_slice io cfg host in
  match r with
  | None => (sent, [], None)
  | Some (Ok (ip, source)) =>
      (sent, if observer then [MkObservation (Some (V4 ip port)) (Some source) elapsed None] else [], Some (Ok (V4 ip port)))
  | Some (Err errors) =>
      (sent, if observer then [MkObservation None None elapsed (Some (length errors))] else [],
       Some (Err (lit "vgdc-resolve:" ++ join (lit "; ") (layer_describe <$> errors))))
  end.

(** win32-resource/vgdc_dns.rs:786-820 [socket_binder_for_ifindex]: the card the socket is bound
    to; [rc] is the code of the call that binds it. *)
Definition socket_binder_for_ifindex (ifindex : N) : option N := if (ifindex =? 0)%N then None else Some ifindex.
Definition run_socket_binder (rc : Z) : bool := (rc =? 0)%Z.
(** win32-engine/vgdc_connect.rs:192-212 [production_socket_binder, socket_binder_for_mode] *)
Definition socket_binder_for_mode (mode : ConnectionMode) (physical_ifindex : N) : option N :=
  match mode with Standard => socket_binder_for_ifindex physical_ifindex | Compatibility => None end.

(** The resolver as the connector uses it. *)
Definition connector_resolver (json_from_slice : list byte → result str Value) (io : DualLineIo) (cfg : DualLineConfig)
    (port : N) (host : str) : option SocketAddr :=
  match (resolver_with_config json_from_slice io cfg port false 0 host).2 with Some (Ok addr) => Some addr | _ => None end.

(** ** What goes out *)

Lemma encode_byte_chars b : (b < 256)%N → Forall (λ c, (37 ≤ c < 128)%N) (encode_byte b).
Proof.
  intros Hb. unfold encode_byte. assert (∀ n, (n < 16)%N → (48 ≤ hex_digit n < 71)%N) as Hh.
  { intros n ?. unfold hex_digit. destruct (N.ltb_spec n 10); lia. }
  destruct (is_ascii_alphanumeric b || (b =? 46)%N || (b =? 45)%N) eqn:E.
  - repeat constructor.
    all: rewrite !orb_true_iff in E; unfold is_ascii_alphanumeric, is_ascii_digit, is_ascii_uppercase, is_ascii_lowercase in E;
      rewrite ?orb_true_iff, ?in_range_spec, ?N.eqb_eq in E; lia.
  - assert (b / 16 < 16)%N by (apply N.Div0.div_lt_upper_bound; lia). pose proof (N.mod_lt b 16).
    pose proof (Hh (b / 16)%N). pose proof (Hh (b mod 16)%N). repeat constructor; lia.
Qed.
Lemma url_encode_chars host : Forall (λ c, (37 ≤ c < 128)%N) (url_encode_host host).
Proof. unfold url_encode_host. apply Forall_bind, Forall_forall. intros b _. apply encode_byte_chars, byte_val_lt. Qed.

(** A path of an endpoint: printable ASCII. *)
Definition path_ok (path : str) : Prop := Forall (λ c, (33 ≤ c < 128)%N) path.

(** The lines of a request. *)
Definition request_lines (path host : str) (ip : Ipv4Addr) : list str :=
  [lit "GET " ++ path ++ lit "?name=" ++ url_encode_host host ++ lit "&type=A HTTP/1.1"; lit "Host: " ++ show_ipv4 ip;
   lit "Accept: application/dns-json"; lit "Connection: close"; []].

Lemma printable_ok s : Forall (λ c, (13 ≤ c < 128)%N) s → str_ok s ∧ LF ∉ s.
Proof.
  intros Hs. split.
  - eapply Forall_impl; [exact Hs|]. intros c Hc. unfold is_scalar. simpl in Hc. destruct (N.ltb_spec c 0xD800); [done|lia].
  - intros Hin. rewrite Forall_forall in Hs. apply Hs in Hin. unfold LF in Hin. lia.
Qed.

Lemma request_on_the_wire path host ip : path_ok path →
  lines (from_utf8_lossy (utf8 (doh_request path host ip))) = request_lines path host ip.
Proof.
  intros Hp. assert (Forall (Forall (λ c, (13 ≤ c < 128)%N)) (request_lines path host ip)) as Hl.
  { assert (∀ (a : N) s, (13 ≤ a)%N → Forall (λ c, (a ≤ c < 128)%N) s → Forall (λ c, (13 ≤ c < 128)%N) s) as Hw.
    { intros a s ? Hs. eapply Forall_impl; [exact Hs|]. intros c ?. simpl in *. lia. }
    assert (∀ s, forallb (λ c, (13 <=? c)%N && (c <? 128)%N) s = true → Forall (λ c, (13 ≤ c < 128)%N) s) as Hb.
    { intros s Hs. apply Forall_forall. intros c Hc. rewrite forallb_forall in Hs. apply list_elem_of_In, Hs in Hc.
      apply andb_true_iff in Hc as [?%N.leb_le ?%N.ltb_lt]. done. }
    unfold request_lines. apply Forall_cons_2; [rewrite !Forall_app; repeat split|apply Forall_cons_2; [rewrite Forall_app; split|]].
    - by apply Hb.
    - by apply Hw with 33%N.
    - by apply Hb.
    - apply Hw with 37%N; [lia|apply url_encode_chars].
    - by apply Hb.
    - by apply Hb.
    - apply Hw with 33%N; [lia|]. eapply Forall_impl; [apply show_ipv4_numeric|]. intros c ?. simpl in *. lia.
    - apply Forall_cons_2; [by apply Hb|apply Forall_cons_2; [by apply Hb|by repeat constructor]]. }
  assert (doh_request path host ip = request_lines path host ip ≫= λ l, l ++ crlf) as ->.
  { unfold doh_request, request_lines. cbn [mbind list_bind]. by rewrite !app_nil_r, <-!app_assoc. }
  rewrite from_utf8_lossy_utf8.
  - apply lines_lines. eapply Forall_impl; [exact Hl|]. intros l ?. by apply printable_ok.
  - apply Forall_bind. eapply Forall_impl; [exact Hl|]. intros l ?. apply Forall_app. split; [by apply printable_ok|].
    repeat constructor.
Qed.

(** A message that is one of this configuration, for this host. *)
Definition sent_ok (cfg : DualLineConfig) (host : str) (s : Sent) : Prop :=
  match s with
  | SentDoh ip request => ∃ ep, ep ∈ doh_endpoints cfg ∧ ip = ep_ip ep ∧
      lines (from_utf8_lossy request) = request_lines (ep_path ep) host ip
  | SentUdp resolver bound query => resolver ∈ udp53_resolvers cfg ∧ bound = udp53_ifindex cfg ∧
      build_dns_query host = Ok query
  end.

Section outgoing.
Context (json_from_slice : list byte → result str Value).

Lemma udp_sent io host resolver ifindex : Forall
  (λ s, ∃ q, s = SentUdp resolver ifindex q ∧ build_dns_query host = Ok q) (dns_a_query_udp io host resolver ifindex).1.
Proof.
  unfold dns_a_query_udp. destruct (build_dns_query host) as [q|e] eqn:E; simpl; [|constructor].
  repeat (match goal with |- Forall _ (match (?x ≫= _) with _ => _ end).1 => destruct x as [[]|]; simpl; [|constructor] end).
  apply Forall_singleton. eauto.
Qed.

Lemma doh_sent io ep host : path_ok (ep_path ep) → Forall
  (λ s, ∃ request, s = SentDoh (ep_ip ep) request ∧
     lines (from_utf8_lossy request) = request_lines (ep_path ep) host (ep_ip ep)) (doh_query json_from_slice io ep host).1.
Proof.
  intros Hp. unfold doh_query. repeat case_match; simpl; try constructor; [|constructor].
  eexists. split; [done|]. by apply request_on_the_wire.
Qed.

Lemma try_udp_sent io cfg host resolvers : resolvers ⊆ udp53_resolvers cfg → ∀ i errors,
  Forall (sent_ok cfg host) (try_udp io (udp53_ifindex cfg) host i resolvers errors).1.
Proof.
  induction resolvers as [|a resolvers IH]; intros Hsub i errors; simpl; [constructor|].
  assert (resolvers ⊆ udp53_resolvers cfg) as Hsub' by set_solver. destruct a as [ip port|]; [|by apply IH].
  pose proof (udp_sent (dl_udp io i) host (V4 ip port) (udp53_ifindex cfg)) as Hs.
  assert (Forall (sent_ok cfg host) (dns_a_query_udp (dl_udp io i) host (V4 ip port) (udp53_ifindex cfg)).1) as Hok.
  { eapply Forall_impl; [exact Hs|]. intros s (q & -> & Hq). split_and!; [set_solver|done|done]. }
  destruct (dns_a_query_udp (dl_udp io i) host (V4 ip port) (udp53_ifindex cfg)) as [sent [[[|first ips]|kind]|]]; try done.
  specialize (IH Hsub' (S i) (errors ++ [RLE_Udp53 ip kind])). destruct (try_udp _ _ _ _ _ _). by apply Forall_app.
Qed.

Lemma try_doh_sent io cfg host endpoints : Forall (λ ep, path_ok (ep_path ep)) endpoints →
  endpoints ⊆ doh_endpoints cfg → ∀ i errors,
  Forall (sent_ok cfg host) (try_doh json_from_slice io cfg host i endpoints errors).1.
Proof.
  induction 1 as [|ep endpoints Hp _ IH]; intros Hsub i errors; simpl; [by apply try_udp_sent|].
  pose proof (doh_sent (dl_doh io i) ep host Hp) as Hs.
  assert (Forall (sent_ok cfg host) (doh_query json_from_slice (dl_doh io i) ep host).1) as Hok.
  { eapply Forall_impl; [exact Hs|]. intros s (request & -> & Hr). exists ep. split_and!; [set_solver|done|done]. }
  destruct (doh_query json_from_slice (dl_doh io i) ep host) as [sent [ip|kind]]; [done|].
  specialize (IH ltac:(set_solver) (S i) (errors ++ [RLE_Doh (ep_ip ep) kind])).
  destruct (try_doh _ _ _ _ _ _ _). by apply Forall_app.
Qed.

(** Whatever the servers, the network and a proxy program answer, resolving the gateway
    ends with an answer and never panics. A literal address is taken as it is unless it
    is an invented one; otherwise the answer is a real address from one of the configured
    lines, or one error for each line in order. Every message sent is a request of four
    header lines to a configured endpoint or a query to a configured server on a socket
    bound to the configured card, and carries the host name and nothing else of it. *)
Theorem gateway_resolution io cfg host : Forall (λ ep, path_ok (ep_path ep)) (doh_endpoints cfg) →
  Forall (sent_ok cfg host) (resolve_gateway_dual_line json_from_slice io cfg host).1 ∧
  ∃ r, (resolve_gateway_dual_line json_from_slice io cfg host).2 = Some r ∧
    match parse_ipv4 host with
    | Some ip => r = if is_fake_ip_v4 ip then Err [FakeIpLiteral ip] else Ok (ip, RS_System)
    | None => resolved_by (config_lines cfg) [] r
    end.
Proof.
  intros Hp. split; [|apply resolution_answers]. unfold resolve_gateway_dual_line.
  destruct (parse_ipv4 host); [constructor|]. by apply try_doh_sent.
Qed.

Lemma connector_resolver_real io cfg port host addr :
  connector_resolver json_from_slice io cfg port host = Some addr → ∃ ip, addr = V4 ip port ∧ is_fake_ip_v4 ip = false.
Proof.
  unfold connector_resolver, resolver_with_config. destruct (resolution_answers json_from_slice io cfg host) as (r & Hr & Hspec).
  destruct (resolve_gateway_dual_line json_from_slice io cfg host) as [sent r']. simpl in Hr. subst r'.
  destruct r as [[ip source]|errors]; simpl; [|done]. intros [= <-]. exists ip. split; [done|].
  destruct (parse_ipv4 host) as [lit_ip|]; [|by destruct Hspec].
  destruct (is_fake_ip_v4 lit_ip) eqn:E; [done|]. by injection Hspec as -> ->.
Qed.

(** The engine never dials an address a proxy program invented: a connector that is given
    this resolver dials, if anything, a real address at the configured port. *)
Theorem dials_real_gateway {stream} (w : World stream) io dual port cfg addr :
  gateway_resolver cfg = Some (connector_resolver json_from_slice io dual port) →
  Dialled addr ∈ (connect w cfg).1 → ∃ ip, addr = V4 ip port ∧ is_fake_ip_v4 ip = false.
Proof.
  intros Hr Hd. pose proof (connect_actions w cfg) as Ha. rewrite Forall_forall in Ha. apply Ha in Hd as [_ Hd].
  rewrite Hr in Hd. by eapply connector_resolver_real.
Qed.
End outgoing.

(** ** A query and its reply *)

(** The reply a server makes of the bytes of a query. *)
Definition dns_reply_to (query : list byte) (flags low : byte) (counts : list byte) (answers : list Answer) (tail : list byte) :
    list byte :=
  take 2 query ++ [flags; low] ++ be_bytes 2 1 ++ be_bytes 2 (N.of_nat (length answers)) ++ counts ++ drop 12 query
  ++ (answers ≫= answer_bytes) ++ tail.

Lemma dns_reply_to_eq host q flags low counts answers tail : build_dns_query host = Ok q →
  dns_reply_to q flags low counts answers tail = dns_reply host flags low counts answers tail.
Proof.
  intros [_ ->]%build_dns_query_Ok. unfold dns_reply_to, dns_reply.
  change (take 2 (query_head ++ _)) with DNS_QUERY_ID. change (drop 12 (query_head ++ ?x)) with x. by rewrite <-!app_assoc.
Qed.

Lemma push_first ips : head (foldl push_address [] ips) = head (filter real ips).
Proof.
  induction ips as [|ip ips IH]; [done|]. simpl. rewrite filter_cons. case_decide as Hr.
  - assert (push_address [] ip = [ip]) as -> by (unfold push_address; by rewrite Hr).
    destruct (push_address_spec ips [ip]) as (_ & [k ->] & _); [apply NoDup_singleton|]. done.
  - assert (push_address [] ip = []) as ->; [|done]. unfold push_address, real in *. by destruct (is_fake_ip_v4 ip).
Qed.

(** The reply of a server that repeats the question of the query is read as its addresses:
    each once and in order, with the invented ones left out, whatever names, other records
    and further sections it holds; the first of them is the one that is used. *)
Theorem dns_exchange host q flags low counts answers tail :
  build_dns_query host = Ok q → Forall answer_ok answers → (N.of_nat (length answers) < 65536)%N →
  N.land (byte_val flags) 0x80 ≠ 0%N → N.land (byte_val low) 0x0F = 0%N → length counts = 4 →
  ∃ ips, parse_dns_response (dns_reply_to q flags low counts answers tail) (take 2 q)
         = Some (match ips with [] => Err Udp_NoIpv4Result | _ => Ok ips end) ∧
    NoDup ips ∧ (∀ ip, ip ∈ ips ↔ ip ∈ omap answer_ip answers ∧ real ip) ∧
    head ips = head (filter real (omap answer_ip answers)).
Proof.
  intros Hq Ha Hl Hf Hr Hc. pose proof Hq as [Hn Eq]%build_dns_query_Ok. exists (foldl push_address [] (omap answer_ip answers)).
  rewrite (dns_reply_to_eq _ _ _ _ _ _ _ Hq), Eq. change (take 2 (query_head ++ _)) with DNS_QUERY_ID.
  rewrite parse_dns_reply by done. split; [by destruct (foldl _ _ _)|].
  destruct (push_address_spec (omap answer_ip answers) []) as (H1 & _ & H3); [constructor|].
  split_and!; [done| |apply push_first]. intros ip. rewrite H3. set_solver.
Qed.

(** ** Examples *)

Definition sample_host : str := lit "vpn-cn.ecnu.edu.cn".
Definition sample_dual : DualLineConfig := match dual_line_production true true (Some 12%N) with Ok c => c | Err _ => MkDualLine [] [] None end.
Definition sample_pointer : WireName := MkWireName [] (NE_Pointer xc0 x0c).
Definition gateway_ip : Ipv4Addr := MkIpv4Addr xca x78 x58 x07.
(** An alias, an invented address, and the address. *)
Definition sample_answers : list Answer :=
  [MkAnswer sample_pointer 5 [x00; x01; x00; x00; x00; x3c] [x02; x67; x77; xc0; x0c];
   MkAnswer (MkWireName [[x67; x77]] (NE_Pointer xc0 x0c)) 1 [x00; x01; x00; x00; x00; x3c] [xc6; x12; x00; x05];
   MkAnswer (MkWireName [[x67; x77]] NE_Root) 1 [x00; x01; x00; x00; x00; x3c] [xca; x78; x58; x07]].
Definition sample_reply : list byte :=
  match build_dns_query sample_host with
  | Ok q => dns_reply_to q x81 x80 [x00; x00; x00; x00] sample_answers []
  | Err _ => []
  end.
(** The endpoints cannot be reached, and the first name server does not answer. *)
Definition sample_lines : DualLineIo := MkDualLineIo
  (λ _, MkDohIo true (Some (Err (lit "refused"))) None (Ok ()) [])
  (λ i, MkUdpIo (Ok ()) 0 (Ok ()) (Ok ()) (Ok ()) (if i =? 0 then Err (lit "timed out") else Ok sample_reply)).
Definition no_json (_ : list byte) : result str Value := Err (lit "eof").

Example sample_resolution :
  (resolve_gateway_dual_line no_json sample_lines sample_dual sample_host).2
  = Some (Ok (gateway_ip, RS_Udp53 (MkIpv4Addr x08 x08 x08 x08))).
Proof. vm_compute. reflexivity. Qed.

Lemma sample_paths : Forall (λ ep, path_ok (ep_path ep)) (doh_endpoints sample_dual).
Proof. repeat (apply Forall_cons_2; [apply Forall_forall; intros c Hc; repeat (apply elem_of_cons in Hc as [->|Hc]; [done|]); by apply not_elem_of_nil in Hc|]). constructor. Qed.

Lemma gateway_resolution_witness :
  length (resolve_gateway_dual_line no_json sample_lines sample_dual sample_host).1 = 2 ∧
  Forall (sent_ok sample_dual sample_host) (resolve_gateway_dual_line no_json sample_lines sample_dual sample_host).1.
Proof.
  split; [vm_compute; reflexivity|].
  apply (gateway_resolution no_json sample_lines sample_dual sample_host sample_paths).
Defined.

Definition sample_world : World () :=
  MkWorld true (λ _, true) true (λ _, true) true (λ _, true) (λ _ _ _, [(0%N, Some (Ok ()))]).
Definition sample_bootstrap : BootstrapConfig :=
  MkBootstrapConfig sample_host (V4 UNSPECIFIED 443) Production false None (Some true)
    (Some (connector_resolver no_json sample_lines sample_dual CSTP_GATEWAY_PORT)).

Lemma dials_real_gateway_witness :
  Dialled (V4 gateway_ip 443) ∈ (connect sample_world sample_bootstrap).1 ∧
  ∃ ip, V4 gateway_ip 443 = V4 ip CSTP_GATEWAY_PORT ∧ is_fake_ip_v4 ip = false.
Proof.
  assert (Dialled (V4 gateway_ip 443) ∈ (connect sample_world sample_bootstrap).1) as Hd.
  { assert ((connect sample_world sample_bootstrap).1
      = [Resolved sample_host; Bound; Dialled (V4 gateway_ip 443); Handshake Platform sample_host]) as -> by (vm_compute; reflexivity).
    set_solver. }
  split; [exact Hd|].
  exact (dials_real_gateway no_json sample_world sample_lines sample_dual CSTP_GATEWAY_PORT sample_bootstrap _ eq_refl Hd).
Defined.

Lemma dns_exchange_witness :
  is_ok (build_dns_query sample_host) = true ∧
  ∃ ips, parse_dns_response sample_reply DNS_QUERY_ID = Some (match ips with [] => Err Udp_NoIpv4Result | _ => Ok ips end) ∧
    head ips = Some gateway_ip.
Proof.
  split; [vm_compute; reflexivity|].
  destruct (dns_exchange sample_host (match build_dns_query sample_host with Ok q => q | Err _ => [] end)
    x81 x80 [x00; x00; x00; x00] sample_answers []) as (ips & Hp & _ & _ & Hh); [vm_compute; reflexivity|..].
  - repeat (apply Forall_cons_2; [repeat split; try done; repeat constructor; vm_compute; lia|]). constructor.
  - done.
  - done.
  - done.
  - done.
  - exists ips. split; [exact Hp|]. rewrite Hh. vm_compute. reflexivity.
Defined.

(** ** Deviations *)

(** Reading stops with the read that ends the head: when the body comes with the next one,
    as a server may send it, the answer is an empty text, and the line fails. *)
Example doh_body_is_not_read :
  let ok_json l := if bool_decide (l = utf8 (lit "{}")) then
      Ok (obj [("Status", V_U64 0); ("Answer", V_Array [obj [("type", V_U64 1); ("data", V_String "202.120.88.7")]])]%string)
    else Err (lit "eof") in
  let head := utf8 (lit "HTTP/1.1 200 OK" ++ crlf ++ crlf) in
  let io reads := MkDohIo true (Some (Ok ())) (Some (Ok ())) (Ok ()) reads in
  let ep := MkDohEndpoint (MkIpv4Addr xdf x05 x05 x05) (lit "/resolve") in
  (doh_query ok_json (io [Some (Ok (head ++ utf8 (lit "{}")))]) ep sample_host).2 = Ok gateway_ip ∧
  (doh_query ok_json (io [Some (Ok head); Some (Ok (utf8 (lit "{}")))]) ep sample_host).2
    = Err (Doh_BadResponse (lit "json:eof")).
Proof. vm_compute. split; reflexivity. Qed.

(** A read that times out is reported as a failed query, never as a timeout. *)
Example udp_timeout_is_query_failed :
  (dns_a_query_udp (dl_udp sample_lines 0) sample_host (V4 (MkIpv4Addr x01 x01 x01 x01) 53) (Some 12%N)).2
  = Some (Err (Udp_QueryFailed (lit "recv:timed out"))).
Proof. vm_compute. reflexivity. Qed.
