(* ===== verification/DarwinConfig.v ===== *)
(** * The configuration on macOS

    [config.rs] and [config_hygiene.rs] of the macOS core: the stored record, the items the
    user interface reads and sets, their validation, the application of an update with the
    sealing of a password, and the repair of the file at startup.

    A field that is text is a [str]; a password is the sealed form. The key and the sealing
    are those of [ConfigStore] with the errors of this crate. *)

From Stdlib Require Import NArith Strings.Byte Strings.String Lia.
From S2P Require Import Prelude Text Utf16 Pac Admission ConfigStore Config.

(** ** Errors *)

(** darwin-core/config.rs:86-102 [DarwinConfigError] *)
Inductive DarwinConfigError :=
  | DC_UnknownKey | DC_DuplicateKey | DC_InvalidServer | DC_InvalidUsername | DC_InvalidRememberPassword
  | DC_InvalidRoutes | DC_InvalidMtu | DC_InvalidUserAgent | DC_InvalidAutoReconnect
  | DC_InvalidAutoReconnectMaxAttempts | DC_InvalidAutoReconnectBackoff | DC_Storage | DC_PasswordCrypto.
#[export] Instance DarwinConfigError_eq_dec : EqDecision DarwinConfigError. Proof. solve_decision. Defined.

(** [tonic::Code], the two that are used. *)
Inductive GrpcCode := InvalidArgument | Internal.
(** darwin-core/config.rs:105-121 [grpc_code] *)
Definition grpc_code (e : DarwinConfigError) : GrpcCode :=
  match e with DC_Storage | DC_PasswordCrypto => Internal | _ => InvalidArgument end.
(** darwin-core/config.rs:123-142 [message] *)
Definition config_message (e : DarwinConfigError) : string :=
  match e with
  | DC_UnknownKey => "DARWIN_CONFIG_UNKNOWN_KEY"
  | DC_DuplicateKey => "DARWIN_CONFIG_DUPLICATE_KEY"
  | DC_InvalidServer => "DARWIN_CONFIG_INVALID_SERVER"
  | DC_InvalidUsername => "DARWIN_CONFIG_INVALID_USERNAME"
  | DC_InvalidRememberPassword => "DARWIN_CONFIG_INVALID_REMEMBER_PASSWORD"
  | DC_InvalidRoutes => "DARWIN_CONFIG_INVALID_ROUTES"
  | DC_InvalidMtu => "DARWIN_CONFIG_INVALID_MTU"
  | DC_InvalidUserAgent => "DARWIN_CONFIG_INVALID_USER_AGENT"
  | DC_InvalidAutoReconnect => "DARWIN_CONFIG_INVALID_AUTO_RECONNECT"
  | DC_InvalidAutoReconnectMaxAttempts => "DARWIN_CONFIG_INVALID_AUTO_RECONNECT_MAX_ATTEMPTS"
  | DC_InvalidAutoReconnectBackoff => "DARWIN_CONFIG_INVALID_AUTO_RECONNECT_BACKOFF"
  | DC_Storage => "DARWIN_CONFIG_STORAGE_FAILED"
  | DC_PasswordCrypto => "DARWIN_CONFIG_PASSWORD_CRYPTO_FAILED"
  end.

(** ** The record *)

(** darwin-core/config.rs:153-183 [DarwinStoredConfig] *)
Record DarwinStoredConfig := MkStored {
  dc_server : str;
  dc_username : str;
  dc_password : string;
  dc_remember_password : bool;
  dc_routes : list str;
  dc_user_agent : str;
  dc_mtu : N;
  dc_auto_reconnect : bool;
  dc_auto_reconnect_max_attempts : N;
  dc_auto_reconnect_backoff : bool;
}.
#[export] Instance DarwinStoredConfig_eq_dec : EqDecision DarwinStoredConfig. Proof. solve_decision. Defined.

(** darwin-core/config.rs:35-47 [DEFAULT_SERVER, DEFAULT_ROUTES, DEFAULT_USER_AGENT, DEFAULT_MTU] *)
Definition darwin_default_server : str := lit "vpn-cn.ecnu.edu.cn".
Definition darwin_default_routes : list str :=
  lit <$> ["49.52.4.0/25"; "59.78.176.0/20"; "59.78.199.0/21"; "58.198.176.128/25"; "59.78.189.128/25"; "219.228.63.0/21";
           "202.120.80.0/20"; "219.228.144.0/22"]%string.
Definition darwin_default_user_agent : str := lit "AnyConnect Win_x86_64 4.10.05095".
Definition darwin_default_mtu : N := 1290.
(** darwin-core/config.rs:185-203 [Default for DarwinStoredConfig] *)
Definition stored_default : DarwinStoredConfig :=
  MkStored darwin_default_server [] "" false darwin_default_routes darwin_default_user_agent darwin_default_mtu false 0 false.

(** darwin-core/config.rs:49-54 [DarwinConfigItem] *)
Record DarwinConfigItem := MkItem { it_key : str; it_value : str }.

(** ** Validation *)

(** darwin-core/config.rs:22-33 [CONFIG_KEYS] *)
Definition CONFIG_KEYS : list str :=
  lit <$> ["server"; "username"; "password"; "remember_password"; "routes"; "user_agent"; "mtu"; "auto_reconnect";
           "auto_reconnect_max_attempts"; "auto_reconnect_backoff"]%string.

(** darwin-core/config.rs:583-593 [validate_keys]; [seen] are the keys before. *)
Fixpoint validate_keys (seen : list str) (items : list DarwinConfigItem) : result DarwinConfigError () :=
  match items with
  | [] => Ok ()
  | item :: items =>
      if negb (bool_decide (it_key item ∈ CONFIG_KEYS)) then Err DC_UnknownKey
      else if bool_decide (it_key item ∈ seen) then Err DC_DuplicateKey
      else validate_keys (seen ++ [it_key item]) items
  end.

(** darwin-core/config.rs:601-609 [normalize_server]: one label. *)
Definition label_valid (label : str) : bool :=
  (1 <=? length label) && (length label <=? 63) && negb (bool_decide (head label = Some 45%N))
  && negb (bool_decide (last label = Some 45%N)) && forallb (λ b, is_ascii_alphanumeric b || (b =? 45)%N) label.
(** darwin-core/config.rs:595-613 [normalize_server] *)
Definition normalize_server (value : str) : result DarwinConfigError str :=
  if bool_decide (value = []) then Ok []
  else if negb (is_ascii value) || negb ((1 <=? length value) && (length value <=? 253))
          || bool_decide (is_Some (parse_ipv4 value))
  then Err DC_InvalidServer
  else if forallb label_valid (split_str [46%N] value) then Ok (to_ascii_lowercase value)
  else Err DC_InvalidServer.

(** The length in bytes, within 1 and 256, and no control character. *)
Definition text_valid (value : str) : bool :=
  (1 <=? length (utf8 value)) && (length (utf8 value) <=? 256) && negb (existsb is_control value).
(** darwin-core/config.rs:615-623 [validate_username] *)
Definition validate_username (value : str) : result DarwinConfigError str :=
  if bool_decide (value = []) then Ok []
  else if text_valid value then Ok value else Err DC_InvalidUsername.
(** darwin-core/config.rs:670-675 [validate_user_agent] *)
Definition validate_user_agent (value : str) : result DarwinConfigError str :=
  if text_valid value then Ok value else Err DC_InvalidUserAgent.

(** darwin-core/config.rs:629-636 [parse_strict_bool] *)
Definition parse_strict_bool (value : str) : option bool :=
  if bool_decide (value = lit "true") then Some true
  else if bool_decide (value = lit "false") then Some false
  else None.
(** darwin-core/config.rs:625-627 [parse_remember_password] *)
Definition parse_remember_password (value : str) : result DarwinConfigError bool :=
  ok_or (parse_strict_bool value) DC_InvalidRememberPassword.
(** darwin-core/config.rs:638-652 [parse_auto_reconnect, parse_auto_reconnect_max_attempts, parse_auto_reconnect_backoff] *)
Definition parse_auto_reconnect (value : str) : result DarwinConfigError bool :=
  ok_or (parse_strict_bool value) DC_InvalidAutoReconnect.
Definition parse_u32 : str → option N := parse_uint 10 (2 ^ 32 - 1).
Definition parse_auto_reconnect_max_attempts (value : str) : result DarwinConfigError N :=
  ok_or (parse_u32 value) DC_InvalidAutoReconnectMaxAttempts.
Definition parse_auto_reconnect_backoff (value : str) : result DarwinConfigError bool :=
  ok_or (parse_strict_bool value) DC_InvalidAutoReconnectBackoff.
(** darwin-core/config.rs:662-668 [parse_mtu] *)
Definition parse_mtu (value : str) : result DarwinConfigError N :=
  ok_or (n ← parse_u32 value; if (n =? 0)%N then None else Some n) DC_InvalidMtu.

(** darwin-core/config.rs:677-684 [split_csv] *)
Definition split_csv (value : str) : list str := entries 44 value.
(** darwin-core/config.rs:696-702 [parse_windows_ipv4] *)
Definition parse_windows_ipv4 (value : str) : option (list N) :=
  octets ← mapM parse_u8 (split_str [46%N] value);
  if length octets =? 4 then Some octets else None.
(** darwin-core/config.rs:686-694 [is_windows_compatible_route] *)
Definition is_windows_compatible_route (value : str) : bool :=
  match parse_windows_ipv4 value with
  | Some _ => true
  | None =>
      match split_once 47 value with
      | None => false
      | Some (address, prefix) =>
          bool_decide (is_Some (parse_windows_ipv4 address))
          && match parse_u32 prefix with Some prefix => (prefix <=? 32)%N | None => false end
      end
  end.
(** darwin-core/config.rs:654-660 [parse_routes] *)
Definition parse_routes (value : str) : result DarwinConfigError (list str) :=
  if forallb is_windows_compatible_route (split_csv value) then Ok (split_csv value) else Err DC_InvalidRoutes.

(** darwin-core/config.rs:473-485 [ConfigUpdate] *)
Record ConfigUpdate := MkUpdate {
  up_server : option str;
  up_username : option str;
  up_password : option str;
  up_remember_password : option bool;
  up_routes : option (list str);
  up_user_agent : option str;
  up_mtu : option N;
  up_auto_reconnect : option bool;
  up_auto_reconnect_max_attempts : option N;
  up_auto_reconnect_backoff : option bool;
}.
Definition no_update : ConfigUpdate := MkUpdate None None None None None None None None None None.

(** darwin-core/config.rs:503-524 [ConfigUpdate::validate]: one item. *)
Definition update_item (u : ConfigUpdate) (item : DarwinConfigItem) : result DarwinConfigError ConfigUpdate :=
  let '(MkUpdate server username password remember routes agent mtu reconnect attempts backoff) := u in
  let value := it_value item in
  let named key := bool_decide (it_key item = lit key) in
  if named "server"%string then
    v ← normalize_server value; Ok (MkUpdate (Some v) username password remember routes agent mtu reconnect attempts backoff)
  else if named "username"%string then
    v ← validate_username value; Ok (MkUpdate server (Some v) password remember routes agent mtu reconnect attempts backoff)
  else if named "password"%string then
    Ok (MkUpdate server username (Some value) remember routes agent mtu reconnect attempts backoff)
  else if named "remember_password"%string then
    v ← parse_remember_password value; Ok (MkUpdate server username password (Some v) routes agent mtu reconnect attempts backoff)
  else if named "routes"%string then
    v ← parse_routes value; Ok (MkUpdate server username password remember (Some v) agent mtu reconnect attempts backoff)
  else if named "user_agent"%string then
    v ← validate_user_agent value; Ok (MkUpdate server username password remember routes (Some v) mtu reconnect attempts backoff)
  else if named "mtu"%string then
    v ← parse_mtu value; Ok (MkUpdate server username password remember routes agent (Some v) reconnect attempts backoff)
  else if named "auto_reconnect"%string then
    v ← parse_auto_reconnect value; Ok (MkUpdate server username password remember routes agent mtu (Some v) attempts backoff)
  else if named "auto_reconnect_max_attempts"%string then
    v ← parse_auto_reconnect_max_attempts value;
    Ok (MkUpdate server username password remember routes agent mtu reconnect (Some v) backoff)
  else if named "auto_reconnect_backoff"%string then
    v ← parse_auto_reconnect_backoff value;
    Ok (MkUpdate server username password remember routes agent mtu reconnect attempts (Some v))
  else Err DC_UnknownKey.
Fixpoint update_items (u : ConfigUpdate) (items : list DarwinConfigItem) : result DarwinConfigError ConfigUpdate :=
  match items with
  | [] => Ok u
  | item :: items => u ← update_item u item; update_items u items
  end.
(** darwin-core/config.rs:488-528 [ConfigUpdate::validate] *)
Definition validate (items : list DarwinConfigItem) : result DarwinConfigError ConfigUpdate :=
  _ ← validate_keys [] items; update_items no_update items.

(** ** Key and password *)

(** The failures of one update: reading the key, writing it, and writing the file. *)
Record UpdateIo := MkUpdateIo {
  ui_key_read : option IoErr;
  ui_drawn_key : option (array 32);
  ui_key_write : AtomicIo;
  ui_nonce : option (array 12);
  ui_config_write : AtomicIo;
}.

(** darwin-core/config.rs:232-244 [load_key] *)
Definition darwin_load_key (answer : option IoErr) : Fs DarwinConfigError (option (array 32)) :=
  r ← fs_try (read_file answer KEY_FILE);
  match r with
  | Err NotFound => mret None
  | Err _ => fs_fail DC_Storage
  | Ok bytes => match to_array KEY_LEN bytes with None => fs_fail DC_Storage | Some key => mret (Some key) end
  end.

Section config.
Context `{Aead, Base64} (pid : N).

(** darwin-core/config.rs:246-248 [save_key] *)
Definition darwin_save_key (io : AtomicIo) (key : array 32) : Fs DarwinConfigError () :=
  fs_map_err (λ _, DC_Storage) (atomic_write io pid KEY_FILE (arr_bytes key)).
(** darwin-core/config.rs:222-230 [ensure_key] *)
Definition darwin_ensure_key (io : UpdateIo) : Fs DarwinConfigError (array 32) :=
  r ← fs_try (darwin_load_key (ui_key_read io));
  match r with
  | Ok (Some key) => mret key
  | _ =>
      match ui_drawn_key io with
      | None => fs_fail DC_Storage
      | Some key => _ ← darwin_save_key (ui_key_write io) key; mret key
      end
  end.

(** darwin-core/config_crypto.rs:14-34 [encrypt_password]: the steps of [encrypt_password], with a
    failing random source reported as storage. *)
Definition darwin_encrypt_password (nonce : option (array 12)) (plaintext : str) (key : array 32) :
    option (result DarwinConfigError string) :=
  map_err (λ e, match e with CE_Io _ => DC_Storage | _ => DC_PasswordCrypto end) <$> encrypt_password nonce plaintext key.
(** darwin-core/config_crypto.rs:36-56 [decrypt_password]: the steps of [decrypt_password], with one
    error. *)
Definition darwin_decrypt_password (blob : string) (key : array 32) : result DarwinConfigError str :=
  map_err (λ _, DC_PasswordCrypto) (decrypt_password blob key).

Definition with_password (c : DarwinStoredConfig) (password : string) : DarwinStoredConfig :=
  MkStored (dc_server c) (dc_username c) password (dc_remember_password c) (dc_routes c) (dc_user_agent c) (dc_mtu c)
    (dc_auto_reconnect c) (dc_auto_reconnect_max_attempts c) (dc_auto_reconnect_backoff c).
Definition with_username (c : DarwinStoredConfig) (username : str) : DarwinStoredConfig :=
  MkStored (dc_server c) username (dc_password c) (dc_remember_password c) (dc_routes c) (dc_user_agent c) (dc_mtu c)
    (dc_auto_reconnect c) (dc_auto_reconnect_max_attempts c) (dc_auto_reconnect_backoff c).
Definition with_remember (c : DarwinStoredConfig) (remember : bool) : DarwinStoredConfig :=
  MkStored (dc_server c) (dc_username c) (dc_password c) remember (dc_routes c) (dc_user_agent c) (dc_mtu c)
    (dc_auto_reconnect c) (dc_auto_reconnect_max_attempts c) (dc_auto_reconnect_backoff c).

(** darwin-core/config.rs:257-264 [set_password_encrypted]; [None] is the panic of the sealing. *)
Definition seal_password (io : UpdateIo) (c : DarwinStoredConfig) (plaintext : str) (key : array 32) :
    option (result DarwinConfigError DarwinStoredConfig) :=
  (λ r, match r with Ok sealed => Ok (with_password c sealed) | Err e => Err e end)
  <$> darwin_encrypt_password (ui_nonce io) plaintext key.

(** [ensure_key] and then [set_password_encrypted]; a panic of the sealing is not an error
    of this crate, and is left out: [ConfigStore.encrypt_total]. *)
Definition ensure_and_seal (io : UpdateIo) (c : DarwinStoredConfig) (plaintext : str) :
    Fs DarwinConfigError DarwinStoredConfig :=
  key ← darwin_ensure_key io;
  match seal_password io c plaintext key with
  | Some (Ok c') => mret c'
  | Some (Err e) => fs_fail e
  | None => fs_fail DC_PasswordCrypto
  end.

(** darwin-core/config.rs:535-559 [ConfigUpdate::apply]: the fields that need no key. *)
Definition apply_fields (u : ConfigUpdate) (c : DarwinStoredConfig) : DarwinStoredConfig :=
  let c := match up_username u with
           | Some username =>
               with_username (if bool_decide (dc_username c = username) then c else with_password c "") username
           | None => c
           end in
  MkStored (default (dc_server c) (up_server u)) (dc_username c) (dc_password c)
    (default (dc_remember_password c) (up_remember_password u)) (default (dc_routes c) (up_routes u))
    (default (dc_user_agent c) (up_user_agent u)) (default (dc_mtu c) (up_mtu u))
    (default (dc_auto_reconnect c) (up_auto_reconnect u))
    (default (dc_auto_reconnect_max_attempts c) (up_auto_reconnect_max_attempts u))
    (default (dc_auto_reconnect_backoff c) (up_auto_reconnect_backoff u)).

(** darwin-core/config.rs:530-580 [ConfigUpdate::apply] *)
Definition update_apply (io : UpdateIo) (u : ConfigUpdate) (c : DarwinStoredConfig) : Fs DarwinConfigError DarwinStoredConfig :=
  let c := apply_fields u c in
  if negb (dc_remember_password c) then mret (with_password c "")
  else match up_password u with
       | Some (ch :: password) => ensure_and_seal io c (ch :: password)
       | _ => mret c
       end.

(** ** Loading, saving and the items *)

Context (stored_of_text : str → option DarwinStoredConfig) (text_of_stored : DarwinStoredConfig → str).

(** darwin-core/config.rs:206-215 [DarwinStoredConfig::load_from_dir] *)
Definition darwin_load (answer : option IoErr) : Fs DarwinConfigError DarwinStoredConfig :=
  r ← fs_try (read_to_string answer CONFIG_FILE);
  match r with
  | Ok text => mret (default stored_default (stored_of_text text))
  | Err NotFound => mret stored_default
  | Err _ => fs_fail DC_Storage
  end.
(** darwin-core/config.rs:217-220 [save_to_dir_atomically] *)
Definition darwin_save (io : AtomicIo) (c : DarwinStoredConfig) : Fs DarwinConfigError () :=
  fs_map_err (λ _, DC_Storage) (atomic_write io pid CONFIG_FILE (utf8 (text_of_stored c))).

(** darwin-core/config.rs:383-402 [apply_and_save]: the configuration in memory as it is left, with
    the run on the directory. *)
Definition apply_and_save (io : UpdateIo) (items : list DarwinConfigItem) (inner : DarwinStoredConfig) (s : Store) :
    DarwinStoredConfig * (list Store * Store * result DarwinConfigError ()) :=
  match validate items with
  | Err e => (inner, ([], s, Err e))
  | Ok update =>
      let run := (candidate ← update_apply io update inner;
                  _ ← darwin_save (ui_config_write io) candidate; mret candidate) s in
      match outcome run with
      | Ok candidate => (candidate, (visited run, final run, Ok ()))
      | Err e => (inner, (visited run, final run, Err e))
      end
  end.

(** darwin-core/config.rs:418-431 [apply_ui_credentials_and_save]: the candidate and its saving. *)
Definition credentials_candidate (io : UpdateIo) (username : str) (password : option str) (inner : DarwinStoredConfig) :
    Fs DarwinConfigError DarwinStoredConfig :=
  let c := if bool_decide (dc_username inner = username) then inner else with_password inner "" in
  let c := with_username c username in
  candidate ← match password with
              | Some password => c ← ensure_and_seal io c password; mret (with_remember c true)
              | None => mret c
              end;
  _ ← darwin_save (ui_config_write io) candidate;
  mret candidate.
(** darwin-core/config.rs:404-434 [apply_ui_credentials_and_save] *)
Definition apply_ui_credentials_and_save (io : UpdateIo) (username : str) (password : option str)
    (inner : DarwinStoredConfig) (s : Store) : DarwinStoredConfig * (list Store * Store * result DarwinConfigError ()) :=
  match validate_username username with
  | Err e => (inner, ([], s, Err e))
  | Ok username =>
      let run := credentials_candidate io username password inner s in
      match outcome run with
      | Ok candidate => (candidate, (visited run, final run, Ok ()))
      | Err e => (inner, (visited run, final run, Err e))
      end
  end.

(** darwin-core/config.rs:436-441 [with_temporary_username] *)
Definition with_temporary_username (inner : DarwinStoredConfig) (username : str) : result DarwinConfigError DarwinStoredConfig :=
  username ← validate_username username; Ok (with_username inner username).

(** darwin-core/config.rs:450-464 [load_saved_password] *)
Definition load_saved_password (answer : option IoErr) (inner : DarwinStoredConfig) : Fs DarwinConfigError str :=
  if negb (dc_remember_password inner) || bool_decide (dc_password inner = ""%string) then mret []
  else
    key ← darwin_load_key answer;
    match key with
    | None => fs_fail DC_Storage
    | Some key =>
        match darwin_decrypt_password (dc_password inner) key with Ok p => mret p | Err e => fs_fail e end
    end.
(** darwin-core/config.rs:443-448 [has_stored_password] *)
Definition has_stored_password (answer : option IoErr) (inner : DarwinStoredConfig) (s : Store) : bool :=
  match outcome (load_saved_password answer inner s) with Ok (_ :: _) => true | _ => false end.

Definition show_bool (b : bool) : str := if b then lit "true" else lit "false".
(** darwin-core/config.rs:304-329 [items]; the last one is whether a password can be used. *)
Definition config_items (inner : DarwinStoredConfig) (stored_password : bool) : list DarwinConfigItem :=
  [MkItem (lit "server") (dc_server inner); MkItem (lit "username") (dc_username inner); MkItem (lit "password") [];
   MkItem (lit "remember_password") (show_bool (dc_remember_password inner));
   MkItem (lit "routes") (join [44%N] (dc_routes inner)); MkItem (lit "user_agent") (dc_user_agent inner);
   MkItem (lit "mtu") (to_dec (dc_mtu inner)); MkItem (lit "auto_reconnect") (show_bool (dc_auto_reconnect inner));
   MkItem (lit "auto_reconnect_max_attempts") (to_dec (dc_auto_reconnect_max_attempts inner));
   MkItem (lit "auto_reconnect_backoff") (show_bool (dc_auto_reconnect_backoff inner));
   MkItem (lit "has_stored_password") (show_bool stored_password)].
End config.

(** ** The JSON form and the startup *)

Definition json_text (s : str) : Value := V_String (String.string_of_list_byte (utf8 s)).
Definition as_text (v : Value) : option str := s ← as_str v; from_utf8 (String.list_byte_of_string s).
Definition as_texts (v : Value) : option (list str) := items ← as_array v; mapM as_text items.

(** darwin-core/config.rs:169-183 [Serialize for DarwinStoredConfig] *)
Definition stored_members (c : DarwinStoredConfig) : list (string * Value) :=
  [("server", json_text (dc_server c)); ("username", json_text (dc_username c)); ("password", V_String (dc_password c));
   ("remember_password", V_Bool (dc_remember_password c)); ("routes", V_Array (json_text <$> dc_routes c));
   ("useragent", json_text (dc_user_agent c)); ("mtu", V_U64 (dc_mtu c)); ("auto_reconnect", V_Bool (dc_auto_reconnect c));
   ("auto_reconnect_max_attempts", V_U64 (dc_auto_reconnect_max_attempts c));
   ("auto_reconnect_backoff", V_Bool (dc_auto_reconnect_backoff c))]%string.
Definition stored_object (c : DarwinStoredConfig) : gmap string Value := list_to_map (stored_members c).
(** darwin-core/config.rs:169-183 [Deserialize for DarwinStoredConfig] *)
Definition stored_from_object (m : gmap string Value) : option DarwinStoredConfig :=
  let d := stored_default in
  server ← read_field m "server" as_text (dc_server d);
  username ← read_field m "username" as_text (dc_username d);
  password ← read_field m "password" as_str (dc_password d);
  remember ← read_field m "remember_password" as_bool (dc_remember_password d);
  routes ← read_field m "routes" as_texts (dc_routes d);
  user_agent ← read_field m "useragent" as_text (dc_user_agent d);
  mtu ← read_field m "mtu" as_u32 (dc_mtu d);
  reconnect ← read_field m "auto_reconnect" as_bool (dc_auto_reconnect d);
  attempts ← read_field m "auto_reconnect_max_attempts" as_u32 (dc_auto_reconnect_max_attempts d);
  backoff ← read_field m "auto_reconnect_backoff" as_bool (dc_auto_reconnect_backoff d);
  Some (MkStored server username password remember routes user_agent mtu reconnect attempts backoff).

(** darwin-core/config_hygiene.rs:25-32 [StartupConfig] *)
Record DarwinStartup := MkDarwinStartup { ds_config : DarwinStoredConfig; ds_requires_quick_start : bool }.
(** darwin-core/config_hygiene.rs:81-93 [hydrate_known_fields] *)
Definition darwin_hydrate (original : gmap string Value) (c : DarwinStoredConfig) : gmap string Value :=
  stored_object c ∪ original.

Section startup.
Context (pid : N) (value_of_text : str → option Value) (text_of_value : Value → str) (text_of_stored : DarwinStoredConfig → str).

(** darwin-core/config_hygiene.rs:71-79 [bootstrap_default] *)
Definition darwin_bootstrap_default (io : AtomicIo) : Fs DarwinConfigError DarwinStartup :=
  _ ← darwin_save pid text_of_stored io stored_default;
  mret (MkDarwinStartup stored_default true).
(** darwin-core/config_hygiene.rs:34-69 [load_for_startup] *)
Definition darwin_load_for_startup (answer : option IoErr) (io : AtomicIo) : Fs DarwinConfigError DarwinStartup :=
  r ← fs_try (read_to_string answer CONFIG_FILE);
  match r with
  | Err NotFound => darwin_bootstrap_default io
  | Err _ => fs_fail DC_Storage
  | Ok text =>
      match value_of_text text with
      | Some (V_Object object) =>
          match stored_from_object object with
          | None => darwin_bootstrap_default io
          | Some stored =>
              _ ← fs_map_err (λ _, DC_Storage)
                    (atomic_write io pid CONFIG_FILE (utf8 (text_of_value (V_Object (darwin_hydrate object stored)))));
              mret (MkDarwinStartup stored false)
          end
      | _ => darwin_bootstrap_default io
      end
  end.
End startup.

(** ** Validation is stable *)

Lemma split_map (f : N → N) (c : N) (s : str) : (∀ d, f d = c ↔ d = c) →
  split_str [c] (f <$> s : list N) = (λ p : list N, f <$> p : list N) <$> split_str [c] s.
Proof.
  intros Hf. induction s as [|d s IH]; [by rewrite split_nil|]. rewrite fmap_cons. destruct (decide (d = c)) as [->|Hd].
  - assert (f c = c) as -> by (by apply Hf). by rewrite !split_cons_sep, IH.
  - assert (f d ≠ c) as Hfd by (by rewrite Hf). destruct (split_cons c d s Hd) as (h & t & Hs & ->).
    destruct (split_cons c (f d) (f <$> s) Hfd) as (h' & t' & Hs' & ->). rewrite IH, Hs in Hs'. by injection Hs' as <- <-.
Qed.

Lemma lower_char c : char_lower c = c ∨ (65 ≤ c ≤ 90 ∧ char_lower c = c + 32)%N.
Proof. unfold char_lower. destruct (is_ascii_uppercase c) eqn:E; [|by left]. apply in_range_spec in E. by right. Qed.
Lemma lower_fixed c d : (d < 65)%N → char_lower c = d ↔ c = d.
Proof.
  intros Hd. destruct (lower_char c) as [E|[? E]]; rewrite E; [done|]. split; intros; lia.
Qed.
Lemma in_range_iff lo hi c d : (lo ≤ c ≤ hi ↔ lo ≤ d ≤ hi)%N → in_range lo hi c = in_range lo hi d.
Proof. intros. apply eq_iff_eq_true. by rewrite !in_range_spec. Qed.
Lemma lower_digit c : is_ascii_digit (char_lower c) = is_ascii_digit c.
Proof. apply in_range_iff. destruct (lower_char c) as [E|[? E]]; rewrite E; lia. Qed.
Lemma lower_alnum c : is_ascii_alphanumeric (char_lower c) = is_ascii_alphanumeric c.
Proof.
  apply eq_iff_eq_true. unfold is_ascii_alphanumeric, is_ascii_digit, is_ascii_uppercase, is_ascii_lowercase.
  rewrite !orb_true_iff, !in_range_spec. destruct (lower_char c) as [E|[? E]]; rewrite E; lia.
Qed.
Lemma lower_lower s : to_ascii_lowercase (to_ascii_lowercase s) = to_ascii_lowercase s.
Proof.
  unfold to_ascii_lowercase. rewrite <-list_fmap_compose. apply list_fmap_ext. intros _ c _. simpl.
  destruct (lower_char (char_lower c)) as [->|[H ->]]; [done|]. destruct (lower_char c) as [E|[? E]]; rewrite E in *.
  - unfold char_lower in E. assert (is_ascii_uppercase c = true) as Hu by (by apply in_range_spec). rewrite Hu in E. lia.
  - lia.
Qed.

Lemma forallb_fmap {A B} (f : B → bool) (g : A → B) (l : list A) : forallb f (g <$> l) = forallb (λ x, f (g x)) l.
Proof. induction l as [|x l IH]; [done|]. simpl. by rewrite <-IH. Qed.
Lemma forallb_same {A} (f g : A → bool) l : (∀ x, f x = g x) → forallb f l = forallb g l.
Proof. intros Hf. induction l as [|x l IH]; simpl; [done|]. by rewrite Hf, IH. Qed.

Lemma lower_octet p : parse_octet (to_ascii_lowercase p) = parse_octet p.
Proof.
  destruct (forallb is_ascii_digit p) eqn:Ed.
  - assert (to_ascii_lowercase p = p) as ->; [|done]. unfold to_ascii_lowercase.
    rewrite <-(list_fmap_id p) at 2. apply list_fmap_ext. intros i c Hc. rewrite forallb_forall in Ed.
    apply list_elem_of_lookup_2, list_elem_of_In, Ed, in_range_spec in Hc.
    destruct (lower_char c) as [E|[? E]]; rewrite E; [done|lia].
  - assert (∀ s, forallb is_ascii_digit s = false → parse_octet s = None) as Hn.
    { intros [|c s] Hs; [done|]. unfold parse_octet. rewrite Hs. by repeat case_match. }
    rewrite !Hn; [done|done|]. unfold to_ascii_lowercase. rewrite forallb_fmap. erewrite forallb_same; [exact Ed|apply lower_digit].
Qed.
Lemma lower_ipv4 s : parse_ipv4 (to_ascii_lowercase s) = parse_ipv4 s.
Proof.
  unfold parse_ipv4, to_ascii_lowercase. rewrite split_map by (intros; by apply lower_fixed).
  destruct (split_str [46%N] s) as [|a [|b [|c [|d [|? ?]]]]]; try done. cbn [fmap list_fmap].
  pose proof (lower_octet a) as Ha. pose proof (lower_octet b) as Hb. pose proof (lower_octet c) as Hc. pose proof (lower_octet d) as Hd.
  unfold to_ascii_lowercase, fmap in *. by rewrite Ha, Hb, Hc, Hd.
Qed.
Lemma lower_label l : label_valid (to_ascii_lowercase l) = label_valid l.
Proof.
  unfold label_valid, to_ascii_lowercase. rewrite length_fmap, forallb_fmap. f_equal; [f_equal; [f_equal|]|].
  - f_equal. apply bool_decide_ext. destruct l as [|c l]; simpl; [done|].
    rewrite !(inj_iff Some). by apply lower_fixed.
  - f_equal. apply bool_decide_ext. rewrite fmap_last. destruct (last l) as [c|]; simpl; [|done].
    rewrite !(inj_iff Some). by apply lower_fixed.
  - apply forallb_same. intros c. rewrite lower_alnum. f_equal. apply eq_iff_eq_true. rewrite !N.eqb_eq. by apply lower_fixed.
Qed.
Lemma lower_ascii s : is_ascii (to_ascii_lowercase s) = is_ascii s.
Proof.
  unfold is_ascii, to_ascii_lowercase. rewrite forallb_fmap. apply forallb_same. intros c. apply eq_iff_eq_true.
  rewrite !N.ltb_lt. destruct (lower_char c) as [E|[? E]]; rewrite E; lia.
Qed.

(** A server name that was accepted is accepted again as it was stored. *)
Lemma normalize_server_again v w : normalize_server v = Ok w → normalize_server w = Ok w.
Proof.
  unfold normalize_server. case_bool_decide as Hv; [by intros [= <-]|]. case_match eqn:E1; [done|]. case_match eqn:E2; [|done].
  intros [= <-]. rewrite bool_decide_false.
  - rewrite lower_ascii, lower_ipv4. unfold to_ascii_lowercase at 1 2. rewrite length_fmap, E1.
    unfold to_ascii_lowercase at 1. rewrite split_map by (intros; by apply lower_fixed). rewrite forallb_fmap.
    erewrite forallb_same; [rewrite E2|intros x; apply lower_label]. by rewrite lower_lower.
  - unfold to_ascii_lowercase. by intros ?%fmap_nil_inv.
Qed.

(** ** The invariant of the record *)

Definition route_ok (r : str) : Prop := is_windows_compatible_route r = true ∧ r ≠ [] ∧ tight r ∧ 44%N ∉ r.
Record stored_ok (c : DarwinStoredConfig) : Prop := MkStoredOk {
  ok_server : normalize_server (dc_server c) = Ok (dc_server c);
  ok_username : validate_username (dc_username c) = Ok (dc_username c);
  ok_password : dc_remember_password c = false → dc_password c = ""%string;
  ok_routes : Forall route_ok (dc_routes c);
  ok_agent : text_valid (dc_user_agent c) = true;
  ok_mtu : (0 < dc_mtu c < 2 ^ 32)%N;
  ok_attempts : (dc_auto_reconnect_max_attempts c < 2 ^ 32)%N;
}.

(** What a validated update may hold. *)
Record update_ok (u : ConfigUpdate) : Prop := MkUpdateOk {
  uok_server v : up_server u = Some v → normalize_server v = Ok v;
  uok_username v : up_username u = Some v → validate_username v = Ok v;
  uok_routes v : up_routes u = Some v → Forall route_ok v;
  uok_agent v : up_user_agent u = Some v → text_valid v = true;
  uok_mtu v : up_mtu u = Some v → (0 < v < 2 ^ 32)%N;
  uok_attempts v : up_auto_reconnect_max_attempts u = Some v → (v < 2 ^ 32)%N;
}.

Lemma parse_u32_bound s n : parse_u32 s = Some n → (n < 2 ^ 32)%N.
Proof. intros Hn%parse_uint_bound. change (2 ^ 32 - 1)%N with 4294967295%N in Hn. change (2 ^ 32)%N with 4294967296%N. lia. Qed.
Lemma validate_username_again v w : validate_username v = Ok w → v = w.
Proof. unfold validate_username. case_bool_decide as Hv; [by intros [= <-]|]. case_match; [by intros [= <-]|done]. Qed.
Lemma parse_routes_ok v rs : parse_routes v = Ok rs → Forall route_ok rs.
Proof.
  unfold parse_routes. case_match eqn:E; [|done]. intros [= <-]. rewrite forallb_forall in E.
  pose proof (entries_ok 44 v) as He. apply Forall_forall. intros r Hr. rewrite Forall_forall in He.
  destruct (He r Hr) as (? & ? & ?). split_and!; [|done..]. by apply E, list_elem_of_In.
Qed.
Lemma parse_mtu_ok v n : parse_mtu v = Ok n → (0 < n < 2 ^ 32)%N.
Proof.
  unfold parse_mtu. intros Hn%ok_or_Ok. destruct (parse_u32 v) as [k|] eqn:E; simpl in Hn; [|done].
  apply parse_u32_bound in E. destruct (N.eqb_spec k 0); [done|]. injection Hn as <-. lia.
Qed.

Lemma update_item_ok u item u' : update_ok u → update_item u item = Ok u' → update_ok u'.
Proof.
  intros [H1 H2 H3 H4 H5 H6] Hu. destruct u. unfold update_item in Hu. simpl in *.
  repeat (case_bool_decide as Hk; [clear Hk|clear Hk]; try (apply bind_Ok in Hu as (v & Hv & [= <-])); simpl in *).
  all: try done; try (injection Hu as <-); split; simpl in *; intros; simplify_eq/=; eauto.
  - by eapply normalize_server_again.
  - pose proof (validate_username_again _ _ Hv). by subst.
  - by eapply parse_routes_ok.
  - unfold validate_user_agent in Hv. destruct (text_valid _) eqn:E; [|done]. by injection Hv as <-.
  - by eapply parse_mtu_ok.
  - unfold parse_auto_reconnect_max_attempts in Hv. by apply ok_or_Ok, parse_u32_bound in Hv.
Qed.
Lemma validate_ok items u : validate items = Ok u → update_ok u.
Proof.
  unfold validate. intros (_ & _ & Hu)%bind_Ok. assert (update_ok no_update) as H0 by (by split).
  revert Hu H0. generalize no_update. induction items as [|item items IH]; intros u0; simpl; [by intros [= <-]|].
  intros (u1 & H1 & Hu)%bind_Ok H0. eapply IH; [done|]. by eapply update_item_ok.
Qed.

(** The fields of an update, once the password is dealt with. *)
Lemma apply_fields_ok u c : update_ok u → stored_ok c → stored_ok (with_password (apply_fields u c) "").
Proof.
  intros [U1 U2 U3 U4 U5 U6] [C1 C2 C3 C4 C5 C6 C7]. split; unfold apply_fields; simpl; [| |done|..].
  - destruct (up_server u); simpl; [by apply U1|]. destruct (up_username u); simpl; [by case_bool_decide|done].
  - destruct (up_username u); simpl; [by apply U2|done].
  - destruct (up_routes u); simpl; [by apply U3|]. destruct (up_username u); simpl; [by case_bool_decide|done].
  - destruct (up_user_agent u); simpl; [by apply U4|]. destruct (up_username u); simpl; [by case_bool_decide|done].
  - destruct (up_mtu u); simpl; [by apply U5|]. destruct (up_username u); simpl; [by case_bool_decide|done].
  - destruct (up_auto_reconnect_max_attempts u); simpl; [by apply U6|]. destruct (up_username u); simpl; [by case_bool_decide|done].
Qed.
Lemma with_password_ok c p : stored_ok (with_password c "") → (dc_remember_password c = false → p = ""%string) →
  stored_ok (with_password c p).
Proof. intros [H1 H2 H3 H4 H5 H6 H7] Hp. by split. Qed.
Lemma with_password_same c : with_password c (dc_password c) = c.
Proof. by destruct c. Qed.
(** The sealed password of another account is not kept. *)
Lemma apply_fields_password u c : dc_password (apply_fields u c) =
  if bool_decide (dc_username (apply_fields u c) = dc_username c) then dc_password c else ""%string.
Proof.
  unfold apply_fields. destruct (up_username u) as [name|]; simpl; [|by rewrite bool_decide_true].
  by case_bool_decide; [rewrite bool_decide_true|rewrite bool_decide_false].
Qed.

(** ** Updates on disk *)

Definition config_same (s s' : Store) : Prop := st_files s' !! CONFIG_FILE = st_files s !! CONFIG_FILE.

Lemma temporary_not_config file t : is_temporary file t → CONFIG_FILE ≠ t ∧ KEY_FILE ≠ t.
Proof. intros (rest & ->)%temporary_dot. done. Qed.

Section update.
Context `{AeadLaws, Base64} (pid : N) (text_of_stored : DarwinStoredConfig → str).

Lemma load_key_quiet answer s : fs_spec (darwin_load_key answer) s (config_same s)
  (λ s' r, s' = s ∧ ∀ key, r = Ok (Some key) → st_files s !! KEY_FILE = Some (arr_bytes key)).
Proof.
  unfold darwin_load_key. apply spec_bind, spec_try, spec_read; simpl.
  - intros content _ Hc. destruct (to_array KEY_LEN content) as [key|] eqn:E; [apply spec_ret|apply spec_fail]; (split; [done|]); [|done].
    intros ? [= <-]. apply to_array_Some in E. by subst.
  - intros _ _. apply spec_ret. by split.
  - intros e _. destruct e; (apply spec_ret || apply spec_fail); by split.
Qed.

Lemma ensure_key_spec io s : fs_spec (darwin_ensure_key pid io) s (config_same s)
  (λ s' r, config_same s s' ∧ ∀ key, r = Ok key → st_files s' !! KEY_FILE = Some (arr_bytes key)).
Proof.
  unfold darwin_ensure_key. apply spec_bind, spec_try. eapply spec_weaken; [apply load_key_quiet|]. simpl. intros s1 r [-> Hr].
  assert (∀ r' : result DarwinConfigError (option (array 32)), (∀ key, r' ≠ Ok (Some key)) →
    fs_spec (match ui_drawn_key io with
             | None => fs_fail DC_Storage
             | Some key => _ ← darwin_save_key pid (ui_key_write io) key; mret key
             end) s (config_same s)
      (λ s' r, config_same s s' ∧ ∀ key, r = Ok key → st_files s' !! KEY_FILE = Some (arr_bytes key))) as Hnew.
  { intros _ _. destruct (ui_drawn_key io) as [key|]; [|by apply spec_fail]. apply spec_bind. unfold darwin_save_key.
    apply spec_map_err. eapply spec_weaken; [eapply spec_inv; [by apply atomic_write_spec|]|]; simpl.
    - intros s' (t & Ht & Hs & _). apply Hs; [|done]. by apply temporary_not_config in Ht as [? _].
    - intros s' r' (t & Ht & Hs). apply temporary_not_config in Ht as [Hc Hk]. destruct r' as [[]|e]; simpl in *.
      + apply spec_ret. split; [unfold config_same; rewrite Hs by done; by rewrite lookup_insert_ne|].
        intros ? [= <-]. rewrite Hs by done. apply lookup_insert_eq.
      + split; [|done]. by apply Hs. }
  destruct r as [[key|]|e]; [|by apply (Hnew (Ok None))|by apply (Hnew (Err e))].
  apply spec_ret. split; [done|]. intros ? [= <-]. by apply Hr.
Qed.

(** Where the sealed password of a new record comes from. *)
Definition password_origin (c c' : DarwinStoredConfig) (typed : option str) (s' : Store) : Prop :=
  dc_password c' = ""%string ∨ (dc_password c' = dc_password c ∧ dc_username c' = dc_username c) ∨
  ∃ key plaintext, typed = Some plaintext ∧ st_files s' !! KEY_FILE = Some (arr_bytes key) ∧
    dc_password c' ≠ ""%string ∧ decrypt_password (dc_password c') key = Ok plaintext.

Lemma sealed_nonempty nonce plaintext key sealed : encrypt_password nonce plaintext key = Some (Ok sealed) → sealed ≠ ""%string.
Proof.
  unfold encrypt_password. destruct nonce as [n|]; [|done]. destruct (aead_seal _ _ _) as [ct|]; [|done].
  destruct (length ct <? TAG_LEN); [done|]. intros [= <-] Hs. rewrite <-b64_encode_nil in Hs.
  apply (f_equal b64_decode) in Hs. rewrite !b64_decode_encode in Hs. injection Hs as Hs.
  apply (f_equal length) in Hs. rewrite length_app, length_arr_bytes in Hs. simpl in Hs. lia.
Qed.

Lemma ensure_and_seal_spec io c plaintext s : str_ok plaintext →
  fs_spec (ensure_and_seal pid io c plaintext) s (config_same s) (λ s' r, config_same s s' ∧
    ∀ c', r = Ok c' → ∃ key sealed, c' = with_password c sealed ∧ sealed ≠ ""%string ∧
      st_files s' !! KEY_FILE = Some (arr_bytes key) ∧ decrypt_password sealed key = Ok plaintext).
Proof.
  intros Hp. unfold ensure_and_seal. apply spec_bind. eapply spec_weaken; [apply ensure_key_spec|]. simpl.
  intros s' [key|e] [Hc Hk]; [|by split]. specialize (Hk _ eq_refl).
  unfold seal_password, darwin_encrypt_password. destruct (encrypt_password (ui_nonce io) plaintext key) as [[sealed|e]|] eqn:E; simpl.
  - apply spec_ret. split; [done|]. intros ? [= <-]. exists key, sealed. split_and!; [done|by eapply sealed_nonempty|done|].
    destruct (ui_nonce io) as [nonce|]; [|done]. by eapply decrypt_encrypt.
  - apply spec_fail. by split.
  - apply spec_fail. by split.
Qed.

(** The password of a new record: none, if it is not to be remembered; the one typed, if one
    was; else the old one of the same account. *)
Definition password_exact (c c' : DarwinStoredConfig) (typed : option str) (s' : Store) : Prop :=
  if dc_remember_password c' then
    match typed with
    | Some (ch :: p) => ∃ key, st_files s' !! KEY_FILE = Some (arr_bytes key) ∧
        dc_password c' ≠ ""%string ∧ decrypt_password (dc_password c') key = Ok (ch :: p)
    | _ => dc_password c' = if bool_decide (dc_username c' = dc_username c) then dc_password c else ""%string
    end
  else dc_password c' = ""%string.

Lemma update_apply_spec io u c s : update_ok u → stored_ok c → (∀ p, up_password u = Some p → str_ok p) →
  fs_spec (update_apply pid io u c) s (config_same s) (λ s' r, config_same s s' ∧
    ∀ c', r = Ok c' → stored_ok c' ∧ c' = with_password (apply_fields u c) (dc_password c') ∧ password_exact c c' (up_password u) s').
Proof.
  intros Hu Hc Hp. unfold update_apply. pose proof (apply_fields_ok u c Hu Hc) as Hf.
  pose proof (apply_fields_password u c) as Ho. set (c1 := apply_fields u c) in *. clearbody c1.
  destruct (dc_remember_password c1) eqn:Er; simpl.
  2:{ apply spec_ret. split; [done|]. intros ? [= <-]. split_and!; [done|done|]. unfold password_exact. simpl. by rewrite Er. }
  assert (stored_ok c1) as Hc1 by (rewrite <-(with_password_same c1); apply with_password_ok; [done|congruence]).
  assert (∀ s typed, match typed with Some (_ :: _) => False | _ => True end →
    config_same s s ∧ ∀ c', @Ok DarwinConfigError _ c1 = Ok c' →
      stored_ok c' ∧ c' = with_password c1 (dc_password c') ∧ password_exact c c' typed s) as Hsame.
  { intros s0 typed Ht. split; [done|]. intros ? [= <-]. split_and!; [done|by rewrite with_password_same|].
    unfold password_exact. rewrite Er, Ho. by destruct typed as [[|]|]. }
  destruct (up_password u) as [[|ch p]|] eqn:Ep; [by apply spec_ret, Hsame| |by apply spec_ret, Hsame].
  eapply spec_weaken; [apply ensure_and_seal_spec; by apply Hp|]. simpl. intros s' r [Hs Hr]. split; [done|]. intros c' Hc'.
  destruct (Hr _ Hc') as (key & sealed & -> & Hn & Hk & Hd). split_and!; [apply with_password_ok; [done|congruence]|done|].
  unfold password_exact. simpl. rewrite Er. by exists key.
Qed.
End update.

(** *** What the items ask for *)

Fixpoint value_of (key : string) (items : list DarwinConfigItem) : option str :=
  match items with
  | [] => None
  | item :: items => if bool_decide (it_key item = lit key) then Some (it_value item) else value_of key items
  end.
(** A field is what the value of its item says, or what it was. *)
Definition set_to {A} (items : list DarwinConfigItem) (key : string) (reads : str → A → Prop) (old new : A) : Prop :=
  match value_of key items with Some value => reads value new | None => new = old end.
Definition some_of {A} (reads : str → A → Prop) (value : str) (new : option A) : Prop := ∃ x, new = Some x ∧ reads value x.

(** The new settings are what the items say: the server without regard to case, the routes
    between commas, the numbers in decimal, the switches as words; and the other settings are
    the old ones. *)
Record updated (items : list DarwinConfigItem) (old new : DarwinStoredConfig) : Prop := {
  ud_server : set_to items "server" (λ v x, x = to_ascii_lowercase v) (dc_server old) (dc_server new);
  ud_username : set_to items "username" (λ v x, x = v) (dc_username old) (dc_username new);
  ud_remember : set_to items "remember_password" (λ v x, v = show_bool x) (dc_remember_password old) (dc_remember_password new);
  ud_routes : set_to items "routes" (λ v x, x = entries 44 v) (dc_routes old) (dc_routes new);
  ud_agent : set_to items "user_agent" (λ v x, x = v) (dc_user_agent old) (dc_user_agent new);
  ud_mtu : set_to items "mtu" (λ v x, parse_u32 v = Some x) (dc_mtu old) (dc_mtu new);
  ud_reconnect : set_to items "auto_reconnect" (λ v x, v = show_bool x) (dc_auto_reconnect old) (dc_auto_reconnect new);
  ud_attempts : set_to items "auto_reconnect_max_attempts" (λ v x, parse_u32 v = Some x)
                  (dc_auto_reconnect_max_attempts old) (dc_auto_reconnect_max_attempts new);
  ud_backoff : set_to items "auto_reconnect_backoff" (λ v x, v = show_bool x)
                 (dc_auto_reconnect_backoff old) (dc_auto_reconnect_backoff new);
}.
(** The same of an update that is read from the items. *)
Record reads_items (items : list DarwinConfigItem) (old new : ConfigUpdate) : Prop := {
  ri_server : set_to items "server" (some_of (λ v x, x = to_ascii_lowercase v)) (up_server old) (up_server new);
  ri_username : set_to items "username" (some_of (λ v x, x = v)) (up_username old) (up_username new);
  ri_password : set_to items "password" (some_of (λ v x, x = v)) (up_password old) (up_password new);
  ri_remember : set_to items "remember_password" (some_of (λ v x, v = show_bool x)) (up_remember_password old) (up_remember_password new);
  ri_routes : set_to items "routes" (some_of (λ v x, x = entries 44 v)) (up_routes old) (up_routes new);
  ri_agent : set_to items "user_agent" (some_of (λ v x, x = v)) (up_user_agent old) (up_user_agent new);
  ri_mtu : set_to items "mtu" (some_of (λ v x, parse_u32 v = Some x)) (up_mtu old) (up_mtu new);
  ri_reconnect : set_to items "auto_reconnect" (some_of (λ v x, v = show_bool x)) (up_auto_reconnect old) (up_auto_reconnect new);
  ri_attempts : set_to items "auto_reconnect_max_attempts" (some_of (λ v x, parse_u32 v = Some x))
                  (up_auto_reconnect_max_attempts old) (up_auto_reconnect_max_attempts new);
  ri_backoff : set_to items "auto_reconnect_backoff" (some_of (λ v x, v = show_bool x))
                 (up_auto_reconnect_backoff old) (up_auto_reconnect_backoff new);
}.

Lemma set_to_default {A} items key (reads : str → A → Prop) (old : A) (new : option A) :
  set_to items key (some_of reads) None new → set_to items key reads old (default old new).
Proof. unfold set_to. destruct (value_of key items); [by intros (x & -> & Hx)|by intros ->]. Qed.
Lemma reads_updated items u c password : reads_items items no_update u → updated items c (with_password (apply_fields u c) password).
Proof.
  intros []. split; unfold apply_fields; simpl; try (by apply set_to_default).
  2:{ unfold set_to in *. destruct (value_of "username" items); [by destruct ri_username0 as (x & -> & ->)|by rewrite ri_username0]. }
  all: destruct (up_username u) as [name|]; simpl; [case_bool_decide|]; by apply set_to_default.
Qed.

Lemma strict_bool_shown v b : parse_strict_bool v = Some b → v = show_bool b.
Proof. unfold parse_strict_bool. repeat case_bool_decide; intros; by simplify_eq. Qed.
Lemma normalize_server_reads v w : normalize_server v = Ok w → w = to_ascii_lowercase v.
Proof. unfold normalize_server. case_bool_decide as Hv; [intros [= <-]; by subst|]. repeat (case_match; try done); by intros [= <-]. Qed.
Lemma parse_routes_reads v rs : parse_routes v = Ok rs → rs = entries 44 v.
Proof. unfold parse_routes. case_match; intros; by simplify_eq. Qed.
Lemma user_agent_reads v w : validate_user_agent v = Ok w → w = v.
Proof. unfold validate_user_agent. case_match; intros; by simplify_eq. Qed.
Lemma parse_mtu_reads v n : parse_mtu v = Ok n → parse_u32 v = Some n.
Proof. unfold parse_mtu. intros Hn%ok_or_Ok. destruct (parse_u32 v) as [k|]; simpl in Hn; [|done]. by destruct (k =? 0)%N. Qed.

Lemma value_of_all (P : str → Prop) key items v : Forall (λ it, P (it_value it)) items → value_of key items = Some v → P v.
Proof. induction 1 as [|it items Hit _ IH]; simpl; [done|]. case_bool_decide; [by intros [= <-]|done]. Qed.
(** Every key comes once. *)
Lemma value_absent key items : ∀ seen, validate_keys seen items = Ok () → lit key ∈ seen → value_of key items = None.
Proof.
  induction items as [|item items IH]; intros seen; simpl; [done|].
  destruct (negb _); [done|]. case_bool_decide as Hn; [done|]. intros Hv Hin.
  rewrite bool_decide_false by (intros E; by rewrite E in Hn). eapply IH; [exact Hv|]. apply elem_of_app. by left.
Qed.
Lemma validate_keys_ok items : ∀ seen, validate_keys seen items = Ok () → NoDup seen →
  NoDup (seen ++ (it_key <$> items)) ∧ Forall (λ item, it_key item ∈ CONFIG_KEYS) items.
Proof.
  induction items as [|item items IH]; intros seen; simpl; [by rewrite app_nil_r|].
  case_bool_decide as Hk; simpl; [|done]. case_bool_decide as Hn; [done|]. intros Hv Hs.
  destruct (IH _ Hv) as [Hd Hf]; [|rewrite <-app_assoc in Hd; split; [done|by constructor]].
  apply NoDup_app. split_and!; [done|by intros x Hx ->%list_elem_of_singleton|apply NoDup_singleton].
Qed.
Lemma set_to_skip {A} item items key (reads : str → A → Prop) old new : it_key item ≠ lit key →
  set_to items key reads old new → set_to (item :: items) key reads old new.
Proof. intros Hk Hs. unfold set_to in *. simpl. by rewrite bool_decide_false. Qed.
Lemma set_to_here {A} item items key (reads : str → A → Prop) old x new : it_key item = lit key → value_of key items = None →
  set_to items key (some_of reads) (Some x) new → reads (it_value item) x → set_to (item :: items) key (some_of reads) old new.
Proof. intros Hk Hno Hs Hx. unfold set_to in *. simpl. rewrite Hno in Hs. rewrite bool_decide_true by done. by exists x. Qed.
Lemma update_items_reads items : ∀ seen u u',
  validate_keys seen items = Ok () → update_items u items = Ok u' → reads_items items u u'.
Proof.
  induction items as [|item items IH]; intros seen u u' Hv Hu; [simpl in Hu; simplify_eq; by split|].
  simpl in Hv, Hu. destruct (negb _); [done|]. case_bool_decide as Hn; [done|].
  apply bind_Ok in Hu as (u1 & H1 & Hu). specialize (IH _ _ _ Hv Hu).
  assert (∀ key, it_key item = lit key → value_of key items = None) as Habs.
  { intros key E. eapply value_absent; [exact Hv|]. rewrite E. apply elem_of_app. right. by apply list_elem_of_singleton. }
  clear Hv Hu Hn. destruct u as [server username password remember routes agent mtu reconnect attempts backoff].
  unfold update_item in H1. simpl in H1.
  repeat (case_bool_decide as Hk;
    [rewrite Hk in Habs; pose proof (Habs _ eq_refl) as Hno; clear Habs;
     try (apply bind_Ok in H1 as (v & Hval & H1)); injection H1 as <-|clear Hk]).
  11: done.
  all: destruct IH; split;
    first [apply set_to_skip; [by rewrite Hk|assumption]
          |eapply set_to_here; [exact Hk|exact Hno|eassumption|]].
  - by apply normalize_server_reads.
  - symmetry. by apply validate_username_again.
  - done.
  - exact (strict_bool_shown _ _ (proj1 (ok_or_Ok _ _ _) Hval)).
  - by apply parse_routes_reads.
  - by apply user_agent_reads.
  - by apply parse_mtu_reads.
  - exact (strict_bool_shown _ _ (proj1 (ok_or_Ok _ _ _) Hval)).
  - exact (proj1 (ok_or_Ok _ _ _) Hval).
  - exact (strict_bool_shown _ _ (proj1 (ok_or_Ok _ _ _) Hval)).
Qed.

Section saved.
Context `{AeadLaws, Base64} (pid : N) (text_of_stored : DarwinStoredConfig → str).

Lemma darwin_save_spec io c s : fs_spec (darwin_save pid text_of_stored io c) s
  (λ s', config_same s s' ∨ st_files s' !! CONFIG_FILE = Some (utf8 (text_of_stored c)))
  (λ s' r, st_files s' !! KEY_FILE = st_files s !! KEY_FILE ∧
     if is_ok r then st_files s' !! CONFIG_FILE = Some (utf8 (text_of_stored c)) else config_same s s').
Proof.
  unfold darwin_save. apply spec_map_err. eapply spec_weaken; [eapply spec_inv; [by apply atomic_write_spec|]|]; simpl.
  - intros s' (t & _ & _ & Hs). exact Hs.
  - intros s' r (t & Ht & Hs). apply temporary_not_config in Ht as [Hc Hk]. destruct r as [[]|e]; simpl in *.
    + rewrite !Hs by done. rewrite lookup_insert_eq. by rewrite lookup_insert_ne.
    + split; by apply Hs.
Qed.

Lemma save_run (m : Fs DarwinConfigError DarwinStoredConfig) io s :
  (candidate ← m; _ ← darwin_save pid text_of_stored io candidate; mret candidate) s
  = match m s with
    | (v1, s1, Ok c) =>
        match darwin_save pid text_of_stored io c s1 with
        | (v2, s2, Ok _) => (v1 ++ v2, s2, Ok c)
        | (v2, s2, Err e) => (v1 ++ v2, s2, Err e)
        end
    | (v1, s1, Err e) => (v1, s1, Err e)
    end.
Proof.
  unfold mbind, Fs_bind. destruct (m s) as [[v1 s1] [c|e]]; [|done].
  destruct (darwin_save pid text_of_stored io c s1) as [[v2 s2] [[]|e]]; simpl; by rewrite ?app_nil_r.
Qed.

(** A password that was sealed under the key on disk can be used. *)
Lemma saved_password_usable c s key plaintext : stored_ok c → dc_password c ≠ ""%string →
  st_files s !! KEY_FILE = Some (arr_bytes key) → decrypt_password (dc_password c) key = Ok plaintext →
  outcome (load_saved_password None c s) = Ok plaintext.
Proof.
  intros Hc Hn Hk Hd. unfold load_saved_password. destruct (dc_remember_password c) eqn:Er; [|by rewrite (ok_password _ Hc Er) in Hn].
  rewrite bool_decide_false by done. simpl. unfold darwin_load_key.
  assert (read_file None KEY_FILE s = ([], s, Ok (arr_bytes key))) as Hr.
  { unfold read_file, io_step. rewrite (bind_quiet _ _ s ()) by done. rewrite (bind_quiet _ _ s s) by done. by rewrite Hk. }
  assert (darwin_load_key None s = ([], s, Ok (Some key))) as Hl.
  { unfold darwin_load_key. rewrite (bind_quiet _ _ _ _ (try_quiet _ _ _ Hr)).
    assert (to_array KEY_LEN (arr_bytes key) = Some key) as -> by apply to_array_arr_bytes. done. }
  fold (darwin_load_key None). rewrite (bind_quiet _ _ _ _ Hl). unfold darwin_decrypt_password. by rewrite Hd.
Qed.

(** C31: An update of valid settings happens wholly or not at all, wherever it is interrupted
    and whatever fails: in every state of the directory [config.json] holds the old or the
    whole new settings. After an error the settings in memory and on disk are the old ones.
    After a success they agree and are valid; every item had a known key, and none came
    twice; and each setting is what its item says, or the old one if it has no item: the
    server in lower case, the user name and the user agent as given, the routes between the
    commas, the MTU and the attempts in decimal, the switches as their words. The stored
    password is none if it is not to be remembered; the one just typed, which can then be
    read back; or, if none was typed, the old one of the same account. *)
Theorem update_all_or_nothing io items inner s :
  stored_ok inner → Forall (λ it, str_ok (it_value it)) items →
  let out := apply_and_save pid text_of_stored io items inner s in
  ∃ c, Forall (λ s', config_same s s' ∨ st_files s' !! CONFIG_FILE = Some (utf8 (text_of_stored c))) (visited out.2) ∧
    match outcome out.2 with
    | Ok _ => out.1 = c ∧ stored_ok c ∧ st_files (final out.2) !! CONFIG_FILE = Some (utf8 (text_of_stored c)) ∧
        NoDup (it_key <$> items) ∧ Forall (λ it, it_key it ∈ CONFIG_KEYS) items ∧ updated items inner c ∧
        (if dc_remember_password c then
           match value_of "password" items with
           | Some (ch :: typed) => outcome (load_saved_password None c (final out.2)) = Ok (ch :: typed)
           | _ => dc_password c = if bool_decide (dc_username c = dc_username inner) then dc_password inner else ""%string
           end
         else dc_password c = ""%string)
    | Err _ => out.1 = inner ∧ config_same s (final out.2)
    end.
Proof.
  intros Hi Hitems. unfold apply_and_save. destruct (validate items) as [u|e] eqn:Ev; simpl.
  2:{ exists inner. split; [constructor|]. by split. }
  pose proof (validate_ok _ _ Ev) as Hu. unfold validate in Ev. apply bind_Ok in Ev as ([] & Hkeys & Ev).
  pose proof (update_items_reads _ _ _ _ Hkeys Ev) as Hreads.
  destruct (validate_keys_ok _ _ Hkeys ltac:(constructor)) as [Hnd Hknown].
  assert (up_password u = value_of "password" items) as Hpass.
  { pose proof (ri_password _ _ _ Hreads) as Hr. unfold set_to in Hr. destruct (value_of _ items); [by destruct Hr as (x & -> & ->)|done]. }
  assert (∀ p, up_password u = Some p → str_ok p) as Hstr by (intros p Hp; eapply value_of_all; [exact Hitems|by rewrite <-Hpass]).
  rewrite save_run. destruct (update_apply_spec pid io u inner s Hu Hi Hstr) as [Hv Hq]. unfold visited, final, outcome in *.
  destruct (update_apply pid io u inner s) as [[v1 s1] [c|e]]; simpl in *.
  2:{ destruct Hq as [Hs1 _]. exists inner. split; [|done]. eapply Forall_impl; [exact Hv|]. by left. }
  destruct Hq as [Hs1 Hc]. destruct (Hc _ eq_refl) as (Hok & Hfields & Ho).
  destruct (darwin_save_spec (ui_config_write io) c s1) as [Hv2 [Hk Hq]]. unfold visited, final, outcome in *.
  assert (Forall (λ s', config_same s s' ∨ st_files s' !! CONFIG_FILE = Some (utf8 (text_of_stored c)))
    (v1 ++ (darwin_save pid text_of_stored (ui_config_write io) c s1).1.1)) as Hall.
  { apply Forall_app. split; (eapply Forall_impl; [eassumption|]); simpl; [by left|].
    intros s' [Hs|Hs]; [left; unfold config_same in *; congruence|by right]. }
  destruct (darwin_save pid text_of_stored (ui_config_write io) c s1) as [[v2 s2] [[]|e]]; simpl in *; exists c; (split; [done|]).
  - split_and!; [done..|rewrite Hfields; by apply reads_updated|]. unfold password_exact in Ho. rewrite <-Hpass.
    destruct (dc_remember_password c); [|done]. destruct (up_password u) as [[|ch typed]|]; [done| |done].
    destruct Ho as (key & Hkey & Hn & Hd). apply (saved_password_usable c s2 key (ch :: typed)); [done|done| |done]. by rewrite Hk.
  - split; [done|]. unfold config_same in *. congruence.
Qed.
End saved.

(** ** What is shown can be set *)

Lemma show_bool_strict b : parse_strict_bool (show_bool b) = Some b.
Proof. by destruct b. Qed.
Lemma parse_u32_to_dec n : (n < 2 ^ 32)%N → parse_u32 (to_dec n) = Some n.
Proof.
  intros Hn. apply parse_uint_to_dec. change (2 ^ 32 - 1)%N with 4294967295%N. change (2 ^ 32)%N with 4294967296%N in Hn. lia.
Qed.
Lemma parse_routes_join rs : Forall route_ok rs → parse_routes (join [44%N] rs) = Ok rs.
Proof.
  intros Hr. unfold parse_routes, split_csv. rewrite entries_join by (eapply Forall_impl; [exact Hr|]; by intros r (_ & ? & ? & ?)).
  assert (forallb is_windows_compatible_route rs = true) as ->; [|done]. apply forallb_forall. intros r Hin.
  rewrite Forall_forall in Hr. by apply Hr, list_elem_of_In.
Qed.

(** The update that sets every field to what it is. *)
Definition full_update (c : DarwinStoredConfig) : ConfigUpdate :=
  MkUpdate (Some (dc_server c)) (Some (dc_username c)) (Some []) (Some (dc_remember_password c)) (Some (dc_routes c))
    (Some (dc_user_agent c)) (Some (dc_mtu c)) (Some (dc_auto_reconnect c)) (Some (dc_auto_reconnect_max_attempts c))
    (Some (dc_auto_reconnect_backoff c)).

Lemma validate_shown c b : stored_ok c → validate (take 10 (config_items c b)) = Ok (full_update c).
Proof.
  intros [H1 H2 H3 H4 H5 H6 H7].
  assert (validate_keys [] (take 10 (config_items c b)) = Ok ()) as Hk by reflexivity.
  unfold validate. rewrite Hk. change (update_items no_update (take 10 (config_items c b)) = Ok (full_update c)).
  assert (parse_mtu (to_dec (dc_mtu c)) = Ok (dc_mtu c)) as Hm.
  { unfold parse_mtu. rewrite parse_u32_to_dec by lia. simpl. destruct (N.eqb_spec (dc_mtu c) 0); [lia|done]. }
  assert (validate_user_agent (dc_user_agent c) = Ok (dc_user_agent c)) as Ha by (unfold validate_user_agent; by rewrite H5).
  pose proof (parse_routes_join _ H4) as Hr.
  assert (∀ b e, ok_or (parse_strict_bool (show_bool b)) e = @Ok DarwinConfigError _ b) as Hb by (by intros []).
  assert (parse_auto_reconnect_max_attempts (to_dec (dc_auto_reconnect_max_attempts c)) = Ok (dc_auto_reconnect_max_attempts c)) as Hn
    by (unfold parse_auto_reconnect_max_attempts; by rewrite parse_u32_to_dec).
  unfold config_items, no_update, full_update. cbn [take].
  do 10 (cbn [update_items update_item it_key it_value]; repeat (rewrite bool_decide_false by done); rewrite bool_decide_true by done;
         unfold parse_remember_password, parse_auto_reconnect, parse_auto_reconnect_backoff;
         rewrite ?H1, ?H2, ?Hr, ?Ha, ?Hm, ?Hb, ?Hn; cbn [mbind result_bind]).
  done.
Qed.

Lemma full_update_same c : apply_fields (full_update c) c = c.
Proof. unfold apply_fields. simpl. rewrite bool_decide_true by done. by destruct c. Qed.

(** Sending the settings back as they were shown changes nothing: every valid record passes
    its own validation, and the stored password, which is shown as empty, is kept. *)
Theorem shown_settings_set_back `{Aead, Base64} pid io c b s : stored_ok c →
  ∃ u, validate (take 10 (config_items c b)) = Ok u ∧ update_apply pid io u c s = ([], s, Ok c).
Proof.
  intros Hc. exists (full_update c). split; [by apply validate_shown|]. unfold update_apply. rewrite full_update_same.
  destruct (dc_remember_password c) eqn:Er; simpl; [done|].
  rewrite <-(ok_password _ Hc Er), with_password_same. done.
Qed.

(** The credentials of the dialog: the stored password is none, the old one of the same
    account, or the one typed. *)
Lemma credentials_follow_account `{AeadLaws, Base64} pid text_of_stored io username password inner s :
  stored_ok inner → (∀ p, password = Some p → str_ok p) →
  let out := apply_ui_credentials_and_save pid text_of_stored io username password inner s in
  match outcome out.2 with
  | Ok _ => stored_ok out.1 ∧ st_files (final out.2) !! CONFIG_FILE = Some (utf8 (text_of_stored out.1)) ∧
      (dc_password out.1 = ""%string ∨ (dc_password out.1 = dc_password inner ∧ dc_username out.1 = dc_username inner) ∨
       ∃ typed, password = Some typed ∧ outcome (load_saved_password None out.1 (final out.2)) = Ok typed)
  | Err _ => out.1 = inner ∧ config_same s (final out.2)
  end.
Proof.
  intros Hi Hp. unfold apply_ui_credentials_and_save. destruct (validate_username username) as [name|e] eqn:En; simpl; [|done].
  pose proof (validate_username_again _ _ En) as ->. unfold credentials_candidate.
  set (c := with_username _ name).
  assert (stored_ok c ∧ (dc_password c = ""%string ∨ dc_password c = dc_password inner ∧ dc_username c = dc_username inner)) as [Hc Ho].
  { destruct Hi as [K1 K2 K3 K4 K5 K6 K7]. unfold c. case_bool_decide; simpl; (split; [split; simpl; auto|]); auto. }
  rewrite save_run.
  set (m := match password with Some _ => _ | None => _ end).
  assert (fs_spec m s (config_same s) (λ s' r, config_same s s' ∧ ∀ c', r = Ok c' → stored_ok c' ∧ password_origin inner c' password s')) as [_ Hq].
  { unfold m. destruct password as [p|].
    - apply spec_bind. eapply spec_weaken; [apply ensure_and_seal_spec; by apply Hp|]. simpl. intros s' [c'|e] [Hs Hr]; [|by split].
      destruct (Hr _ eq_refl) as (key & sealed & -> & Hn & Hk & Hd). apply spec_ret. split; [done|]. intros ? [= <-]. split.
      + destruct Hc as [K1 K2 K3 K4 K5 K6 K7]. by split.
      + right; right. by exists key, p.
    - apply spec_ret. split; [done|]. intros ? [= <-]. split; [done|]. destruct Ho; [by left|right; by left]. }
  unfold final, outcome in *. destruct (m s) as [[v1 s1] [c1|e]]; simpl in *; [|by destruct Hq].
  destruct Hq as [Hs1 Hq]. destruct (Hq _ eq_refl) as [Hok Horig].
  destruct (darwin_save_spec pid text_of_stored (ui_config_write io) c1 s1) as [_ [Hk Hfin]]. unfold final, outcome in *.
  destruct (darwin_save pid text_of_stored (ui_config_write io) c1 s1) as [[v2 s2] [[]|e]]; simpl in *.
  - split_and!; [done..|]. destruct Horig as [?|[?|(key & typed & Ht & Hkey & Hn & Hd)]]; [by left|right; by left|].
    right; right. exists typed. split; [done|]. apply (saved_password_usable c1 s2 key typed); [done|done| |done]. by rewrite Hk.
  - split; [done|]. unfold config_same in *. congruence.
Qed.

(** ** Examples *)

Definition no_atomic_failure : AtomicIo := MkAtomicIo None None None None None.
Definition sample_io : UpdateIo :=
  MkUpdateIo None (Some (array_fill 32 x07)) no_atomic_failure (Some (array_fill 12 x01)) no_atomic_failure.
Definition sample_items : list DarwinConfigItem :=
  [MkItem (lit "username") (lit "alice"); MkItem (lit "password") (lit "secret"); MkItem (lit "remember_password") (lit "true");
   MkItem (lit "routes") (lit "10.0.0.0/8, 59.78.176.0/20")].

Lemma tight_of r : forallb (λ c, negb (is_whitespace c)) r = true → tight r.
Proof.
  intros Hr. apply word_tight, Forall_forall. intros c Hc. rewrite forallb_forall in Hr.
  apply list_elem_of_In, Hr, negb_true_iff in Hc. done.
Qed.
Lemma stored_default_ok : stored_ok stored_default.
Proof.
  split; try (vm_compute; done).
  apply Forall_forall. intros r Hr. assert (is_windows_compatible_route r = true ∧ r ≠ [] ∧
    forallb (λ c, negb (is_whitespace c) && negb (c =? 44)%N) r = true) as (H1 & H2 & H3).
  { unfold darwin_default_routes in Hr. repeat (apply elem_of_cons in Hr as [->|Hr]; [vm_compute; done|]). by apply not_elem_of_nil in Hr. }
  rewrite forallb_forall in H3. split_and!; [done|done| |].
  - apply tight_of, forallb_forall. intros c Hc. by apply H3, andb_true_iff in Hc as [? _].
  - intros Hin%list_elem_of_In. by apply H3, andb_true_iff in Hin as [_ ?].
Qed.

Lemma update_all_or_nothing_witness :
  is_ok (outcome (apply_and_save 9 (λ _, lit "{}") sample_io sample_items stored_default (MkStore ∅ 0)).2) = true ∧
  Forall (λ s', config_same (MkStore ∅ 0) s' ∨ st_files s' !! CONFIG_FILE = Some (utf8 (lit "{}")))
    (visited (apply_and_save 9 (λ _, lit "{}") sample_io sample_items stored_default (MkStore ∅ 0)).2).
Proof.
  split; [vm_compute; reflexivity|].
  destruct (update_all_or_nothing 9 (λ _, lit "{}") sample_io sample_items stored_default (MkStore ∅ 0) stored_default_ok) as (c & Hv & _).
  { unfold sample_items. repeat (apply Forall_cons_2; [repeat constructor|]). constructor. }
  exact Hv.
Defined.

Lemma shown_settings_set_back_witness :
  length (take 10 (config_items stored_default false)) = 10 ∧
  ∃ u, validate (take 10 (config_items stored_default false)) = Ok u ∧
    update_apply 9 sample_io u stored_default (MkStore ∅ 0) = ([], MkStore ∅ 0, Ok stored_default).
Proof. split; [done|]. exact (shown_settings_set_back 9 sample_io stored_default false (MkStore ∅ 0) stored_default_ok). Defined.
