(* ===== verification/Channel.v ===== *)
(** * Bounded channels

    [tokio::sync::mpsc] as the engines use it for their streams: a bounded queue whose
    sender never waits. Beside what waits, a channel keeps what its receiver has taken. *)

From S2P Require Import Prelude.

(** Why [Sender::try_send] fails. *)
Inductive TrySendError := Full | Closed.

Record Chan (A : Type) := MkChan { ch_taken : list A; ch_queue : list A; ch_receiver : bool }.
Arguments MkChan {A} _ _ _.
Arguments ch_taken {A} _.
Arguments ch_queue {A} _.
Arguments ch_receiver {A} _.

Section Channel.
Context {A : Type}.
Implicit Types (c : Chan A) (m : A).

(** [mpsc::channel] *)
Definition chan_new : Chan A := MkChan [] [] true.
(** [Sender::try_send] of a channel with room for [capacity] messages. *)
Definition try_send (capacity : nat) (m : A) (c : Chan A) : result TrySendError (Chan A) :=
  if negb (ch_receiver c) then Err Closed
  else if length (ch_queue c) <? capacity then Ok (MkChan (ch_taken c) (ch_queue c ++ [m]) true)
  else Err Full.
(** The receiver takes the next message, if one waits. *)
Definition take_next (c : Chan A) : Chan A :=
  match ch_queue c with m :: queue => MkChan (ch_taken c ++ [m]) queue (ch_receiver c) | [] => c end.
(** The receiver goes away, and with it what waits. *)
Definition leave (c : Chan A) : Chan A := MkChan (ch_taken c) [] false.
(** All that got into the channel and was not dropped with its receiver. *)
Definition ch_log (c : Chan A) : list A := ch_taken c ++ ch_queue c.

Lemma try_send_Ok n m c c' :
  try_send n m c = Ok c' → ch_receiver c = true ∧ ch_receiver c' = true ∧ ch_log c' = ch_log c ++ [m].
Proof.
  unfold try_send. destruct (ch_receiver c); simpl; [|done]. destruct (_ <? n); [|done]. intros [= <-].
  unfold ch_log. simpl. by rewrite (assoc_L (++)).
Qed.
Lemma try_send_Closed n m c : try_send n m c = Err Closed → ch_receiver c = false.
Proof. unfold try_send. destruct (ch_receiver c); simpl; [|done]. by destruct (_ <? n). Qed.
Lemma ch_log_take_next c : ch_log (take_next c) = ch_log c.
Proof.
  destruct c as [taken [|m queue] receiver]; [done|]. unfold ch_log. simpl. by rewrite <- (assoc_L (++)).
Qed.
Lemma ch_receiver_take_next c : ch_receiver (take_next c) = ch_receiver c.
Proof. by destruct c as [taken [|m queue] receiver]. Qed.
Lemma ch_log_leave c : ch_log (leave c) = take (length (ch_taken c)) (ch_log c).
Proof. unfold ch_log. simpl. by rewrite take_app_length, app_nil_r. Qed.
End Channel.
