(* ===== verification/EngineStatus.v ===== *)
(** * Statistics and status of the Windows engine

    [stats.rs] and [status.rs] of the Windows engine crate: the lock-free registry the
    data plane writes and the sampler reads, and the publisher of connection statuses.

    The registry's saturating addition is a loop of compare-and-exchange that other
    threads run at the same time; it is a step relation over the cell and the adders.
    The publisher holds one lock over a publication and another over its fields, so a
    publication is two steps, with subscriptions, receptions and queries in between. A
    channel keeps, beside its queue, what its receiver has taken. Instants are
    nanoseconds. A poisoned lock is not modelled. *)

From Stdlib Require Import NArith ZArith Strings.Byte Lia.
From S2P Require Import Prelude Text Model Channel.

(** ** The registry *)

(** proto/common.proto:437-444 [StatsPhase] *)
Inductive StatsPhase := Ph_Unspecified | Ph_Idle | Ph_Connecting | Ph_Connected | Ph_Stopping | Ph_Failed.
#[export] Instance StatsPhase_eq_dec : EqDecision StatsPhase. Proof. solve_decision. Defined.

(** proto/common.proto:437-444 [StatsPhase] *)
Definition phase_value (p : StatsPhase) : N :=
  match p with
  | Ph_Unspecified => 0 | Ph_Idle => 1 | Ph_Connecting => 2 | Ph_Connected => 3 | Ph_Stopping => 4 | Ph_Failed => 5
  end.

(** win32-engine/stats.rs:37-43 [StatsRegistry] *)
Record StatsRegistry := MkStatsRegistry { sr_rx_bytes : N; sr_tx_bytes : N; sr_latency_ms : N; sr_phase : N }.
(** win32-engine/stats.rs:18-31 [StatsSample] *)
Record StatsSample := MkStatsSample {
  ss_rx_bytes : N;
  ss_tx_bytes : N;
  ss_latency_ms : N;
  ss_phase : StatsPhase;
  ss_timestamp_ms : N;
}.
(** win32-engine/stats.rs:46-55 [StatsRegistry::new] *)
Definition StatsRegistry_new : StatsRegistry := MkStatsRegistry 0 0 0 (phase_value Ph_Idle).

(** win32-engine/stats.rs:118-128 [phase_from_u8] *)
Definition phase_from_u8 (value : N) : StatsPhase :=
  match value with
  | 1 => Ph_Idle | 2 => Ph_Connecting | 3 => Ph_Connected | 4 => Ph_Stopping | 5 => Ph_Failed
  | _ => Ph_Unspecified
  end%N.

(** [u64::saturating_add] *)
Definition sat64 (a b : N) : N := N.min (a + b) (two64 - 1).

(** win32-engine/stats.rs:96-114 [saturating_add]: a thread in the middle of its addition. *)
Inductive Adder :=
  | Start (delta : N)
  | Loaded (delta current : N)
  | Added (delta : N).
(** win32-engine/stats.rs:101-113 [saturating_add]: one [compare_exchange_weak]. A weak
    exchange may fail although the cell holds the expected value. *)
Definition exchange (counter delta current : N) (spurious : bool) : N * Adder :=
  if negb spurious && bool_decide (counter = current) then (sat64 current delta, Added delta)
  else (counter, Loaded delta counter).
(** win32-engine/stats.rs:98-113 [saturating_add]: threads adding to one counter. *)
Inductive add_step : N * list Adder → N * list Adder → Prop :=
  | add_nothing counter ts i :
      ts !! i = Some (Start 0) → add_step (counter, ts) (counter, <[i := Added 0]> ts)
  | add_load counter ts i delta :
      ts !! i = Some (Start delta) → delta ≠ 0%N →
      add_step (counter, ts) (counter, <[i := Loaded delta counter]> ts)
  | add_exchange counter ts i delta current spurious :
      ts !! i = Some (Loaded delta current) →
      add_step (counter, ts)
        (let '(counter, t) := exchange counter delta current spurious in (counter, <[i := t]> ts)).

(** win32-engine/stats.rs:96-114 [saturating_add]: a thread left alone. *)
Definition saturating_add (counter delta : N) : N := if (delta =? 0)%N then counter else sat64 counter delta.

(** win32-engine/stats.rs:58-60 [StatsRegistry::record_rx] *)
Definition record_rx (bytes : N) (r : StatsRegistry) : StatsRegistry :=
  MkStatsRegistry (saturating_add (sr_rx_bytes r) bytes) (sr_tx_bytes r) (sr_latency_ms r) (sr_phase r).
(** win32-engine/stats.rs:63-65 [StatsRegistry::record_tx] *)
Definition record_tx (bytes : N) (r : StatsRegistry) : StatsRegistry :=
  MkStatsRegistry (sr_rx_bytes r) (saturating_add (sr_tx_bytes r) bytes) (sr_latency_ms r) (sr_phase r).
(** win32-engine/stats.rs:68-70 [StatsRegistry::record_latency] *)
Definition record_latency (ms : N) (r : StatsRegistry) : StatsRegistry :=
  MkStatsRegistry (sr_rx_bytes r) (sr_tx_bytes r) ms (sr_phase r).
(** win32-engine/stats.rs:73-75 [StatsRegistry::set_phase] *)
Definition set_phase (phase : StatsPhase) (r : StatsRegistry) : StatsRegistry :=
  MkStatsRegistry (sr_rx_bytes r) (sr_tx_bytes r) (sr_latency_ms r) (phase_value phase).

(** win32-engine/stats.rs:140-144 [wall_clock_ms]; [wall] is the time since the epoch, none
    when the clock is before it. *)
Definition wall_clock_ms (wall : option N) : N :=
  match wall with Some ms => N.min ms (2 ^ 63 - 1) | None => 0 end.
(** win32-engine/stats.rs:79-87 [StatsRegistry::snapshot] *)
Definition snapshot (wall : option N) (r : StatsRegistry) : StatsSample :=
  MkStatsSample (sr_rx_bytes r) (sr_tx_bytes r) (sr_latency_ms r) (phase_from_u8 (sr_phase r)) (wall_clock_ms wall).

(** ** Sampling *)

(** win32-engine/stats.rs:132-137 [rate_bytes_per_sec] *)
Definition rate_bytes_per_sec (delta_bytes elapsed_ms : N) : N :=
  if (elapsed_ms =? 0)%N then 0
  else let rate := (delta_bytes * 1000 / elapsed_ms)%N in if (rate <? two64)%N then rate else (two64 - 1)%N.

(** proto/helper_control.proto:412-423 [StatsEvent] *)
Record StatsEvent := MkStatsEvent {
  se_sequence : N;
  se_timestamp_ms : N;
  se_phase : N;
  se_rx_bytes : N;
  se_tx_bytes : N;
  se_rx_rate : N;
  se_tx_rate : N;
  se_latency_ms : N;
}.

(** [Duration::as_millis] of a duration in nanoseconds. *)
Definition as_millis (ns : N) : N := (ns / 1000000)%N.

(** win32-engine/stats.rs:231-233 [sample_loop]: what the loop remembers. *)
Record Sampler := MkSampler { last_rx : N; last_tx : N; last_time : option N }.
(** win32-engine/stats.rs:231-233 [sample_loop] *)
Definition sampler_new : Sampler := MkSampler 0 0 None.
(** win32-engine/stats.rs:236-264 [sample_loop]: one tick, over the shared sequence. *)
Definition sample_tick (now : N) (wall : option N) (r : StatsRegistry) (next_sequence : N) (s : Sampler)
    : Sampler * N * StatsEvent :=
  let sample := snapshot wall r in
  let '(rx_rate, tx_rate) :=
    match last_time s with
    | Some prev =>
        let elapsed := as_millis (sat_sub now prev) in
        let elapsed_ms := if (elapsed <? two64)%N then elapsed else 0%N in
        (rate_bytes_per_sec (sat_sub (ss_rx_bytes sample) (last_rx s)) elapsed_ms,
         rate_bytes_per_sec (sat_sub (ss_tx_bytes sample) (last_tx s)) elapsed_ms)
    | None => (0%N, 0%N)
    end in
  (MkSampler (ss_rx_bytes sample) (ss_tx_bytes sample) (Some now),
   add64 next_sequence 1,
   MkStatsEvent (add64 next_sequence 1) (ss_timestamp_ms sample) (phase_value (ss_phase sample))
     (ss_rx_bytes sample) (ss_tx_bytes sample) rx_rate tx_rate (ss_latency_ms sample)).

(** win32-engine/stats.rs:223-270 [sample_loop]: the ticks, each with its instant, the
    registry, the sequence as other loops left it, and whether the receiver was there. *)
Fixpoint sample_loop (s : Sampler) (ticks : list (N * option N * StatsRegistry * N * bool)) : list (N * StatsEvent) :=
  match ticks with
  | [] => []
  | (now, wall, r, next_sequence, sent) :: ticks =>
      let '(s, _, event) := sample_tick now wall r next_sequence s in
      if sent then (now, event) :: sample_loop s ticks else []
  end.

(** win32-engine/stats.rs:12-12 [DEFAULT_SAMPLE_INTERVAL_MS] *)
Definition DEFAULT_SAMPLE_INTERVAL_MS : N := 1000.
(** win32-engine/stats.rs:188-192 [StatsPublisher::open_stream]: the interval of the loop. *)
Definition sample_interval (sample_interval_ms : N) : N :=
  if (sample_interval_ms =? 0)%N then DEFAULT_SAMPLE_INTERVAL_MS else sample_interval_ms.

(** ** Statuses *)

(** proto/common.proto:415-425 [ConnectPhase] *)
Definition connect_phase_value (p : option ConnectPhase) : N :=
  match p with
  | None => 0
  | Some ObservingOwnedState => 1 | Some AcquiringPlatformLease => 2 | Some ConnectingControl => 3
  | Some Phase_AwaitingInteraction => 4 | Some NegotiatingTunnel => 5 | Some ApplyingPlatformTunnel => 6
  | Some AttachingPacketBoundary => 7 | Some StartingDataPlane => 8
  end.

(** proto/common.proto:189-206 [VpnError]; the subject and the resource as their encoding. *)
Record WireNativeError := MkWireNativeError { wn_category : N; wn_namespace : N; wn_code : Z }.
Record WireVpnError := MkWireVpnError {
  we_code : N;
  we_stage : N;
  we_certainty : N;
  we_retry : N;
  we_subject : option (list byte);
  we_resource : option (list byte);
  we_native : option WireNativeError;
}.

#[export] Instance WireNativeError_eq_dec : EqDecision WireNativeError. Proof. solve_decision. Defined.
#[export] Instance WireVpnError_eq_dec : EqDecision WireVpnError. Proof. solve_decision. Defined.

(** win32-engine/status.rs:15-28 [StatusEvent] *)
Record StatusEvent := MkStatusEvent {
  st_operation_id : list byte;
  st_connect_phase : option ConnectPhase;
  st_coarse_phase : StatsPhase;
  st_error : option WireVpnError;
  st_session_established_at_ms : N;
}.
#[export] Instance StatusEvent_eq_dec : EqDecision StatusEvent. Proof. solve_decision. Defined.

(** win32-engine/status.rs:33-41 [StatusEvent::connecting] *)
Definition status_connecting (operation_id : list byte) (phase : option ConnectPhase) : StatusEvent :=
  MkStatusEvent operation_id phase Ph_Connecting None 0.
(** win32-engine/status.rs:44-53 [StatusEvent::connected] *)
Definition status_connected (wall : option N) (operation_id : list byte) : StatusEvent :=
  MkStatusEvent operation_id (Some StartingDataPlane) Ph_Connected None (wall_clock_ms wall).
(** win32-engine/status.rs:56-65 [StatusEvent::failed] *)
Definition status_failed (operation_id : list byte) (phase : option ConnectPhase) (error : WireVpnError) : StatusEvent :=
  MkStatusEvent operation_id phase Ph_Failed (Some error) 0.
(** win32-engine/status.rs:68-77 [StatusEvent::idle] *)
Definition status_idle (operation_id : list byte) : StatusEvent :=
  MkStatusEvent operation_id None Ph_Idle None 0.

(** proto/helper_control.proto:456-469 [ConnectStatusEvent] *)
Record ConnectStatusEvent := MkConnectStatusEvent {
  ce_operation_id : list byte;
  ce_connect_phase : N;
  ce_coarse_phase : N;
  ce_error : option WireVpnError;
  ce_session_established_at_ms : N;
  ce_own_tunnel_if_index : N;
}.

(** win32-engine/status.rs:80-90 [StatusEvent::to_wire] *)
Definition to_wire (e : StatusEvent) : ConnectStatusEvent :=
  MkConnectStatusEvent (st_operation_id e) (connect_phase_value (st_connect_phase e)) (phase_value (st_coarse_phase e))
    (st_error e) (st_session_established_at_ms e) 0.

(** ** The publisher *)

(** win32-engine/status.rs:11-11 [STREAM_CAPACITY] *)
Definition STREAM_CAPACITY : nat := 32.
Abbreviation StatusChan := (Chan ConnectStatusEvent).

(** win32-engine/status.rs:103-120 [StatusPublisher]. The streams opened so far are
    numbered; [sp_push] is the one attached, [sp_observer] the number of the observer, and
    [sp_publishing] the event of the publication that holds the order lock, with the
    observer told. [sp_observed] is what observers were told and [sp_history] what was
    stored, oldest first. *)
Record StatusPublisher := MkStatusPublisher {
  sp_latest : option StatusEvent;
  sp_push : option nat;
  sp_observer : option nat;
  sp_publishing : option StatusEvent;
  sp_chans : list StatusChan;
  sp_observed : list (nat * StatusEvent);
  sp_history : list StatusEvent;
}.

(** win32-engine/status.rs:125-134 [StatusPublisher::new] *)
Definition StatusPublisher_new : StatusPublisher := MkStatusPublisher None None None None [] [] [].

(** win32-engine/status.rs:143-153 [StatusPublisher::open_stream]; the new stream's number
    is the count of the streams before it. *)
Definition open_stream (p : StatusPublisher) : StatusPublisher :=
  let tx := chan_new in
  let tx := match sp_latest p with
            | Some latest => match try_send STREAM_CAPACITY (to_wire latest) tx with Ok tx => tx | Err _ => tx end
            | None => tx
            end in
  MkStatusPublisher (sp_latest p) (Some (length (sp_chans p))) (sp_observer p) (sp_publishing p)
    (sp_chans p ++ [tx]) (sp_observed p) (sp_history p).

(** win32-engine/status.rs:167-171 [StatusPublisher::publish]: a finished operation does
    not go back to being in progress. *)
Definition suppressed (latest : option StatusEvent) (event : StatusEvent) : bool :=
  match latest with
  | Some latest =>
      bool_decide (st_operation_id latest = st_operation_id event)
      && match st_coarse_phase latest with Ph_Failed | Ph_Idle => true | _ => false end
      && match st_coarse_phase event with Ph_Connecting | Ph_Connected => true | _ => false end
  | None => false
  end.
(** win32-engine/status.rs:163-177 [StatusPublisher::publish]: the check and the observer. *)
Definition publish_begin (event : StatusEvent) (p : StatusPublisher) : StatusPublisher :=
  if suppressed (sp_latest p) event then p
  else
    MkStatusPublisher (sp_latest p) (sp_push p) (sp_observer p) (Some event) (sp_chans p)
      (sp_observed p ++ match sp_observer p with Some o => [(o, event)] | None => [] end) (sp_history p).
(** win32-engine/status.rs:178-187 [StatusPublisher::publish]: storing and pushing. *)
Definition publish_commit (p : StatusPublisher) : StatusPublisher :=
  match sp_publishing p with
  | None => p
  | Some event =>
      let sent := match sp_push p with
                  | Some c => match try_send STREAM_CAPACITY (to_wire event) <$> sp_chans p !! c with
                              | Some (Ok chan) => (Some c, <[c := chan]> (sp_chans p))
                              | _ => (None, sp_chans p)
                              end
                  | None => (None, sp_chans p)
                  end in
      MkStatusPublisher (Some event) sent.1 (sp_observer p) None sent.2 (sp_observed p) (sp_history p ++ [event])
  end.
(** win32-engine/status.rs:163-188 [StatusPublisher::publish] *)
Definition publish (event : StatusEvent) (p : StatusPublisher) : StatusPublisher :=
  publish_commit (publish_begin event p).
(** win32-engine/status.rs:190-192 [StatusPublisher::latest] *)
Definition latest (p : StatusPublisher) : option StatusEvent := sp_latest p.
(** win32-engine/status.rs:200-203 [StatusPublisher::set_terminal_observer] *)
Definition set_terminal_observer (observer : nat) (p : StatusPublisher) : StatusPublisher :=
  MkStatusPublisher (sp_latest p) (sp_push p) (Some observer) (sp_publishing p) (sp_chans p) (sp_observed p) (sp_history p).
(** win32-engine/status.rs:210-212 [StatusPublisher::is_push_attached] *)
Definition is_push_attached (p : StatusPublisher) : bool := bool_decide (is_Some (sp_push p)).

(** The receiver of a stream takes the next event, or goes away. *)
Definition set_chans (cs : list StatusChan) (p : StatusPublisher) : StatusPublisher :=
  MkStatusPublisher (sp_latest p) (sp_push p) (sp_observer p) (sp_publishing p) cs (sp_observed p) (sp_history p).

(** One visible step of the publisher or of a subscriber; a publication starts only when
    no other is under way. *)
Inductive status_step : StatusPublisher → StatusPublisher → Prop :=
  | st_open p : status_step p (open_stream p)
  | st_begin p event : sp_publishing p = None → status_step p (publish_begin event p)
  | st_commit p : status_step p (publish_commit p)
  | st_observe p o : status_step p (set_terminal_observer o p)
  | st_take p c : status_step p (set_chans (alter take_next c (sp_chans p)) p)
  | st_leave p c : status_step p (set_chans (alter leave c (sp_chans p)) p).

(** ** Additions that race *)

Definition added_of (t : Adder) : N := match t with Added delta => delta | _ => 0 end.
Definition delta_of (t : Adder) : N := match t with Start d | Loaded d _ | Added d => d end.
Definition finished (t : Adder) : bool := match t with Added _ => true | _ => false end.
Definition total (f : Adder → N) (ts : list Adder) : N := foldr (λ t acc, f t + acc)%N 0%N ts.

Lemma sat64_assoc a b c : sat64 (sat64 a b) c = sat64 a (b + c).
Proof. unfold sat64. lia. Qed.
Lemma total_insert f ts i t t' : ts !! i = Some t → (total f (<[i := t']> ts) + f t = total f ts + f t')%N.
Proof.
  revert i. induction ts as [|u ts IH]; intros [|i] Hi; simplify_eq/=; [lia|].
  specialize (IH _ Hi). lia.
Qed.

Section Adding.
Context (c0 : N) (deltas : list N).

(** The counter holds what the finished additions brought, in whatever order. *)
Definition add_inv (s : N * list Adder) : Prop :=
  s.1 = sat64 c0 (total added_of s.2) ∧ delta_of <$> s.2 = deltas.

Lemma delta_kept (ts : list Adder) i t t' :
  ts !! i = Some t → delta_of t' = delta_of t → delta_of <$> <[i := t']> ts = delta_of <$> ts.
Proof.
  intros Hi Hd. rewrite list_fmap_insert. apply list_insert_id. rewrite list_lookup_fmap, Hi. by rewrite Hd.
Qed.

Lemma add_inv_step s s' : add_inv s → add_step s s' → add_inv s'.
Proof.
  intros [Hc Hd] Hstep.
  inversion Hstep as [counter ts i Hi|counter ts i delta Hi Hne|counter ts i delta current spurious Hi];
    subst; simpl in *.
  - split; simpl; [|by erewrite delta_kept].
    pose proof (total_insert added_of ts i _ (Added 0) Hi) as Ht. simpl in Ht. etrans; [exact Hc|]. f_equal. lia.
  - split; simpl; [|by erewrite delta_kept].
    pose proof (total_insert added_of ts i _ (Loaded delta counter) Hi) as Ht. simpl in Ht. etrans; [exact Hc|]. f_equal. lia.
  - unfold exchange. destruct (negb spurious && bool_decide (counter = current)) eqn:Hx; split; simpl;
      try (by erewrite delta_kept).
    + apply andb_true_iff in Hx as [_ ->%bool_decide_eq_true].
      pose proof (total_insert added_of ts i _ (Added delta) Hi) as Ht. simpl in Ht.
      rewrite Hc, sat64_assoc. f_equal. lia.
    + pose proof (total_insert added_of ts i _ (Loaded delta counter) Hi) as Ht. simpl in Ht.
      etrans; [exact Hc|]. f_equal. lia.
Qed.

Lemma total_finished ts : forallb finished ts = true → total added_of ts = foldr N.add 0%N (delta_of <$> ts).
Proof.
  induction ts as [|[]]; simpl; try discriminate; auto; intros H.
  by rewrite IHts.
Qed.
End Adding.

(** Concurrent recording never loses traffic: whatever way the loads, the exchanges
    and the spurious failures of the threads interleave, at every moment the counter is
    the old value plus what the finished additions brought, capped at the largest 64-bit
    number, and once all have finished it is what adding them one after another gives. *)
Theorem concurrent_adds c0 deltas counter ts :
  (c0 < two64)%N →
  rtc add_step (c0, Start <$> deltas) (counter, ts) →
  counter = sat64 c0 (total added_of ts)
  ∧ (forallb finished ts = true → counter = foldl saturating_add c0 deltas).
Proof.
  intros Hc0 Hrun.
  assert (Hinv : add_inv c0 deltas (counter, ts)).
  { refine (rtc_ind_r (add_inv c0 deltas) _ _ _ _ Hrun).
    - split; simpl.
      + assert (total added_of (Start <$> deltas) = 0%N) as -> by (clear; induction deltas as [|d ds IH]; [done|exact IH]).
        unfold sat64. lia.
      + clear. induction deltas as [|d ds IH]; csimpl; [done|by rewrite IH].
    - intros y z _ Hyz Hy. by eapply add_inv_step. }
  destruct Hinv as [Hc Hd]. simpl in *. split; [done|]. intros Hf.
  rewrite Hc, (total_finished ts Hf), Hd. clear -Hc0.
  revert c0 Hc0. induction deltas as [|d ds IH]; intros c0 Hc0; simpl; [unfold sat64; lia|].
  assert (saturating_add c0 d = sat64 c0 d) as E
    by (unfold saturating_add, sat64; destruct (N.eqb_spec d 0); lia).
  rewrite <- IH; rewrite E; [by rewrite sat64_assoc|unfold sat64; unfold two64 in *; lia].
Qed.

Lemma concurrent_adds_witness :
  ∃ ts, forallb finished ts = true ∧ (10 : N) = foldl saturating_add 0%N [3; 7]%N
        ∧ rtc add_step (0%N, Start <$> [3; 7]%N) (10%N, ts).
Proof.
  exists [Added 3; Added 7].
  assert (Hrun : rtc add_step (0%N, Start <$> [3; 7]%N) (10%N, [Added 3; Added 7])).
  { eapply rtc_l; [exact (add_load 0 [Start 3; Start 7] 0 3 eq_refl ltac:(done))|]. simpl.
    eapply rtc_l; [exact (add_load 0 [Loaded 3 0; Start 7] 1 7 eq_refl ltac:(done))|]. simpl.
    eapply rtc_l; [exact (add_exchange 0 [Loaded 3 0; Loaded 7 0] 0 3 0 false eq_refl)|]. simpl.
    eapply rtc_l; [exact (add_exchange 3 [Added 3; Loaded 7 0] 1 7 0 false eq_refl)|]. simpl.
    eapply rtc_l; [exact (add_exchange 3 [Added 3; Loaded 7 3] 1 7 3 false eq_refl)|]. simpl.
    apply rtc_refl. }
  split; [reflexivity|]. split; [|exact Hrun].
  exact (proj2 (concurrent_adds 0 [3; 7]%N 10 [Added 3; Added 7] eq_refl Hrun) eq_refl).
Defined.

(** ** Samples *)

Lemma phase_from_u8_value p : phase_from_u8 (phase_value p) = p.
Proof. by destruct p. Qed.

(** A rate never claims more than the bytes it is about. *)
Lemma rate_bound delta elapsed : (rate_bytes_per_sec delta elapsed * elapsed ≤ delta * 1000)%N.
Proof.
  unfold rate_bytes_per_sec. destruct (N.eqb_spec elapsed 0) as [->|He]; [lia|].
  pose proof (N.Div0.mul_div_le (delta * 1000) elapsed) as Hd.
  destruct (N.ltb_spec (delta * 1000 / elapsed) two64) as [|Hbig]; [lia|]. nia.
Qed.

(** What the rates of a stream, over the time between its samples, add up to. *)
Fixpoint claimed (prev : option N) (events : list (N * StatsEvent)) : N :=
  match events with
  | [] => 0
  | (now, e) :: events =>
      (match prev with Some prev => se_rx_rate e * as_millis (sat_sub now prev) | None => 0 end
       + claimed (Some now) events)%N
  end.

(** The ticks of one boot: the registry only grows. *)
Fixpoint growing (rx : N) (ticks : list (N * option N * StatsRegistry * N * bool)) : Prop :=
  match ticks with
  | [] => True
  | (_, _, r, _, _) :: ticks =>
      (rx ≤ sr_rx_bytes r)%N ∧ growing (sr_rx_bytes r) ticks
  end.

Lemma last_time_tick now wall r seq s : (sample_tick now wall r seq s).1.1 = MkSampler (sr_rx_bytes r) (sr_tx_bytes r) (Some now).
Proof. unfold sample_tick. by destruct (last_time s). Qed.
Lemma rx_bytes_tick now wall r seq s : se_rx_bytes (sample_tick now wall r seq s).2 = sr_rx_bytes r.
Proof. unfold sample_tick. by destruct (last_time s). Qed.
Lemma rx_rate_tick now wall r seq s :
  (match last_time s with
   | Some prev => se_rx_rate (sample_tick now wall r seq s).2 * as_millis (sat_sub now prev)
   | None => 0
   end ≤ 1000 * (sr_rx_bytes r - last_rx s))%N.
Proof.
  unfold sample_tick. destruct (last_time s) as [prev|]; [|lia]. simpl.
  destruct (N.ltb_spec (as_millis (sat_sub now prev)) two64) as [|Hbig].
  - pose proof (rate_bound (sat_sub (sr_rx_bytes r) (last_rx s)) (as_millis (sat_sub now prev))) as Hb.
    unfold sat_sub in *. lia.
  - unfold rate_bytes_per_sec. simpl. lia.
Qed.

(** The bytes of the newest sample, the old count when there is none. *)
Definition newest_rx (rx : N) (events : list (N * StatsEvent)) : N := foldl (λ _ e, se_rx_bytes e.2) rx events.

Lemma newest_rx_grows s ticks :
  growing (last_rx s) ticks → (last_rx s ≤ newest_rx (last_rx s) (sample_loop s ticks))%N.
Proof.
  revert s. induction ticks as [|[[[[now wall] r] seq] sent] ticks IH]; intros s; simpl; [lia|]. intros [Hr Hg].
  pose proof (last_time_tick now wall r seq s) as Hs. pose proof (rx_bytes_tick now wall r seq s) as He.
  destruct (sample_tick now wall r seq s) as [[s' seq'] e]. simpl in *. subst s'.
  destruct sent; simpl; [|lia]. rewrite He.
  specialize (IH (MkSampler (sr_rx_bytes r) (sr_tx_bytes r) (Some now)) Hg). simpl in IH. lia.
Qed.

(** A stream's rates never claim more than the traffic it saw. *)
Lemma sample_loop_claimed s ticks :
  growing (last_rx s) ticks →
  (claimed (last_time s) (sample_loop s ticks)
   ≤ 1000 * (newest_rx (last_rx s) (sample_loop s ticks) - last_rx s))%N.
Proof.
  revert s. induction ticks as [|[[[[now wall] r] seq] sent] ticks IH]; intros s; simpl; [lia|]. intros [Hr Hg].
  pose proof (last_time_tick now wall r seq s) as Hs. pose proof (rx_bytes_tick now wall r seq s) as He.
  pose proof (rx_rate_tick now wall r seq s) as Hrate.
  destruct (sample_tick now wall r seq s) as [[s' seq'] e]. simpl in *. subst s'.
  destruct sent; simpl; [|lia]. rewrite He.
  pose proof (newest_rx_grows (MkSampler (sr_rx_bytes r) (sr_tx_bytes r) (Some now)) _ Hg) as Hm.
  specialize (IH (MkSampler (sr_rx_bytes r) (sr_tx_bytes r) (Some now)) Hg). simpl in *. lia.
Qed.

(** ** What subscribers and observers learn *)

(** The log of a stream is a stretch of the history without gaps; the one that is attached
    and read reaches its end, and holds at least the newest status. *)
Definition follows (p : StatusPublisher) (c : nat) (chan : StatusChan) : Prop :=
  ∃ pre mid post, sp_history p = pre ++ mid ++ post ∧ ch_log chan = to_wire <$> mid
    ∧ (sp_push p = Some c → ch_receiver chan = true → post = [] ∧ (sp_history p ≠ [] → mid ≠ [])).

(** No status takes a finished operation back to being in progress. *)
Definition settled (history : list StatusEvent) : Prop :=
  ∀ i a b, history !! i = Some a → history !! S i = Some b → suppressed (Some a) b = false.

Record status_inv (p : StatusPublisher) : Prop := {
  si_latest : sp_latest p = last (sp_history p);
  si_push : ∀ c, sp_push p = Some c → c < length (sp_chans p);
  si_follows : ∀ c chan, sp_chans p !! c = Some chan → follows p c chan;
  si_publishing : ∀ e, sp_publishing p = Some e → suppressed (sp_latest p) e = false;
  si_settled : settled (sp_history p);
}.

Lemma follows_ext p q c chan chan' :
  sp_history q = sp_history p → (sp_push q = Some c → sp_push p = Some c) →
  ch_log chan' = ch_log chan → (ch_receiver chan' = true → ch_receiver chan = true) →
  follows p c chan → follows q c chan'.
Proof.
  intros Hh Hp Hl Hr (pre & mid & post & Hs & Hm & Hat). exists pre, mid, post.
  rewrite Hh, Hl. split_and!; auto.
Qed.

Lemma settled_snoc history e :
  settled history → suppressed (last history) e = false → settled (history ++ [e]).
Proof.
  intros Hs Hl i a b Ha Hb.
  destruct (decide (S i < length history)) as [Hlt|Hge].
  - rewrite lookup_app_l in Ha, Hb by lia. by eapply Hs.
  - pose proof (lookup_lt_Some _ _ _ Hb) as Hlen. rewrite length_app in Hlen. simpl in Hlen.
    assert (length history = S i) as Hn by lia.
    rewrite lookup_app_l in Ha by lia. rewrite lookup_app_r, Hn, Nat.sub_diag in Hb by lia. simplify_eq/=.
    rewrite last_lookup, Hn in Hl. simpl in Hl. by rewrite Ha in Hl.
Qed.

Lemma status_inv_new : status_inv StatusPublisher_new.
Proof. split; simpl; try done. Qed.

Lemma status_inv_open p : status_inv p → status_inv (open_stream p).
Proof.
  intros [Hl Hp Hf Hpub Hs]. split; simpl; auto.
  - intros c [= <-]. rewrite length_app. simpl. lia.
  - intros c chan Hc. destruct (decide (c < length (sp_chans p))) as [Hlt|Hge].
    + rewrite lookup_app_l in Hc by done. eapply follows_ext; [..|by apply Hf]; simpl; auto.
      intros [= E]. lia.
    + pose proof (lookup_lt_Some _ _ _ Hc) as Hlen. rewrite length_app in Hlen. simpl in Hlen.
      rewrite lookup_app_r in Hc by lia. assert (c - length (sp_chans p) = 0) as E by lia. rewrite E in Hc.
      simplify_eq/=. unfold follows. simpl. rewrite Hl. destruct (sp_history p) as [|e history _] using rev_ind.
      * by exists [], [], [].
      * exists history, [e], []. simpl. rewrite last_snoc. by split_and!.
Qed.

Lemma status_inv_begin p event : status_inv p → status_inv (publish_begin event p).
Proof.
  intros Hinv. unfold publish_begin. destruct (suppressed _ _) eqn:E; [done|].
  destruct Hinv as [Hl Hp Hf Hpub Hs]. split; simpl; auto. by intros e [= <-].
Qed.

Lemma follows_commit p e push chans :
  status_inv p →
  (push, chans) = (match sp_push p with
          | Some c => match try_send STREAM_CAPACITY (to_wire e) <$> sp_chans p !! c with
                      | Some (Ok chan) => (Some c, <[c := chan]> (sp_chans p))
                      | _ => (None, sp_chans p)
                      end
          | None => (None, sp_chans p)
          end) →
  ∀ obs c chan, chans !! c = Some chan →
    follows (MkStatusPublisher (Some e) push obs None chans (sp_observed p) (sp_history p ++ [e])) c chan.
Proof.
  intros Hinv Hsent obs c chan Hc.
  assert (Hold : ∀ push' chans', (push' = Some c → False) → sp_chans p !! c = Some chan →
     follows (MkStatusPublisher (Some e) push' obs None chans' (sp_observed p) (sp_history p ++ [e])) c chan).
  { intros push' chans' Hno Hin. destruct (si_follows p Hinv c chan Hin) as (pre & mid & post & Hh & Hm & _).
    exists pre, mid, (post ++ [e]). simpl. rewrite Hh, <- !assoc_L by apply _.
    split_and!; auto. intros ->. by destruct Hno. }
  destruct (sp_push p) as [c'|] eqn:Hpush; [|simplify_eq; by apply Hold].
  destruct (_ <$> sp_chans p !! c') as [[chan'|]|] eqn:Htry; [|simplify_eq; by apply Hold..].
  injection Hsent as -> ->.
  destruct (decide (c = c')) as [<-|Hne].
  - pose proof (si_push p Hinv c Hpush) as Hlt.
    rewrite list_lookup_insert_eq in Hc by done. simplify_eq.
    destruct (sp_chans p !! c) as [old|] eqn:Hin; [|done]. injection Htry as Htry.
    apply try_send_Ok in Htry as (Hro & Hrn & Hlog).
    destruct (si_follows p Hinv c old Hin) as (pre & mid & post & Hh & Hm & Hat).
    destruct (Hat Hpush Hro) as [-> _].
    exists pre, (mid ++ [e]), []. simpl. rewrite Hh, Hlog, Hm, fmap_app, !app_nil_r, <- assoc_L by apply _.
    split_and!; auto. intros _ _. split; [done|]. intros _ ?%app_nil. naive_solver.
  - rewrite list_lookup_insert_ne in Hc by done. apply Hold; [naive_solver|done].
Qed.

Lemma status_inv_commit p : status_inv p → status_inv (publish_commit p).
Proof.
  intros Hinv. unfold publish_commit. destruct (sp_publishing p) as [e|] eqn:Hp; [|done].
  set (sent := match sp_push p with Some _ => _ | None => _ end).
  destruct sent as [push chans] eqn:Hsent. subst sent. simpl.
  split; simpl.
  - by rewrite last_snoc.
  - intros c ->. destruct (sp_push p) as [c'|] eqn:Hpush; [|done].
    destruct (_ <$> sp_chans p !! c') as [[chan'|]|]; [|done..]. simplify_eq. rewrite length_insert. by apply (si_push p Hinv).
  - by apply (follows_commit p).
  - done.
  - apply settled_snoc; [apply Hinv|]. rewrite <- (si_latest p Hinv). by apply (si_publishing p Hinv).
Qed.

Lemma status_inv_chans p f c :
  (∀ chan mid, ch_log chan = to_wire <$> mid →
     ∃ n, ch_log (f chan) = to_wire <$> take n mid ∧ (ch_receiver (f chan) = true → ch_receiver chan = true ∧ take n mid = mid)) →
  status_inv p → status_inv (set_chans (alter f c (sp_chans p)) p).
Proof.
  intros Hf [Hl Hp Hfol Hpub Hs]. split; simpl; auto.
  - intros c' Hc'. rewrite length_alter. auto.
  - intros c' chan Hc. destruct (decide (c' = c)) as [->|Hne].
    + rewrite list_lookup_alter_eq in Hc. apply fmap_Some in Hc as (old & Hin & ->).
      destruct (Hfol c old Hin) as (pre & mid & post & Hh & Hm & Hat).
      destruct (Hf old mid Hm) as (n & Hlog & Hrec).
      exists pre, (take n mid), (drop n mid ++ post). simpl.
      split_and!; auto.
      * rewrite Hh. f_equal. by rewrite assoc_L, take_drop by apply _.
      * intros Hpush Hr. destruct (Hrec Hr) as [Hr' Ht]. destruct (Hat Hpush Hr') as [-> Hne].
        assert (drop n mid = []) as ->.
        { apply (f_equal length) in Ht. rewrite length_take in Ht. apply drop_ge. lia. }
        split; [done|]. rewrite Ht. exact Hne.
    + rewrite list_lookup_alter_ne in Hc by done. eapply follows_ext; [..|by apply Hfol]; auto.
Qed.

Lemma status_inv_step p q : status_inv p → status_step p q → status_inv q.
Proof.
  intros Hinv Hstep. inversion Hstep as [? |? event Hn|?|? o|? c|? c]; subst.
  - by apply status_inv_open.
  - by apply status_inv_begin.
  - by apply status_inv_commit.
  - destruct Hinv. by split.
  - apply status_inv_chans; [|done]. intros chan mid Hm. exists (length mid). rewrite take_ge by done.
    by rewrite ch_log_take_next, ch_receiver_take_next.
  - apply status_inv_chans; [|done]. intros chan mid Hm. exists (length (ch_taken chan)). split; [|done].
    by rewrite fmap_take, <- Hm, ch_log_leave.
Qed.

(** A status of a finished operation, and one that says it goes on. *)
Definition finished_status (e : StatusEvent) : Prop := st_coarse_phase e = Ph_Failed ∨ st_coarse_phase e = Ph_Idle.
Definition progress_status (e : StatusEvent) : Prop := st_coarse_phase e = Ph_Connecting ∨ st_coarse_phase e = Ph_Connected.

Lemma suppressed_iff l e :
  suppressed l e = true ↔ ∃ a, l = Some a ∧ st_operation_id a = st_operation_id e ∧ finished_status a ∧ progress_status e.
Proof.
  unfold suppressed, finished_status, progress_status. split.
  - destruct l as [a|]; [|done]. intros [[?%bool_decide_eq_true Ha]%andb_true_iff He]%andb_true_iff.
    exists a. split_and!; [done..|destruct (st_coarse_phase a); auto; done|destruct (st_coarse_phase e); auto; done].
  - intros (a & -> & Ho & Ha & He). rewrite bool_decide_eq_true_2 by done.
    destruct Ha as [-> | ->], He as [-> | ->]; done.
Qed.

(** Between a finished operation and its being in progress there is another operation, or a
    phase that is neither. *)
Lemma settled_between history i j a b :
  settled history → i < j → history !! i = Some a → history !! j = Some b →
  st_operation_id a = st_operation_id b → finished_status a → progress_status b →
  ∃ k x, i < k < j ∧ history !! k = Some x
    ∧ (st_operation_id x ≠ st_operation_id a ∨ ¬ finished_status x ∧ ¬ progress_status x).
Proof.
  intros Hs Hij Ha. revert b. induction j as [j IH] using lt_wf_ind. intros b Hb Ho Hfa Hpb.
  destruct j as [|j]; [lia|]. assert (is_Some (history !! j)) as [x Hx].
  { apply lookup_lt_is_Some. apply lookup_lt_Some in Hb. lia. }
  pose proof (Hs _ _ _ Hx Hb) as Hnot.
  destruct (decide (st_operation_id x = st_operation_id a)) as [Ex|Ex].
  - assert (¬ finished_status x) as Hnf.
    { intros Hfx. rewrite (proj2 (suppressed_iff _ _)) in Hnot; [done|]. exists x. split_and!; congruence || done. }
    assert (i < j) as Hlt by (destruct (decide (i = j)) as [->|]; [simplify_eq; tauto|lia]).
    destruct (decide (st_coarse_phase x = Ph_Connecting ∨ st_coarse_phase x = Ph_Connected)) as [Hpx|Hpx].
    + destruct (IH j ltac:(lia) Hlt x Hx) as (k & y & Hk & Hy); [congruence|done..|]. exists k, y. split; [lia|done].
    + exists j, x. split_and!; [lia..|done|]. right. split; [done|exact Hpx].
  - exists j, x. split_and!; try lia; [|done|by left]. destruct (decide (i = j)) as [->|]; [congruence|lia].
Qed.

(** Committing a publication, to a stream that is attached and read. *)
Lemma commit_sends p e c chan :
  sp_publishing p = Some e → sp_push p = Some c → sp_chans p !! c = Some chan → ch_receiver chan = true →
  if length (ch_queue chan) <? STREAM_CAPACITY
  then sp_push (publish_commit p) = Some c
       ∧ sp_chans (publish_commit p) !! c = Some (MkChan (ch_taken chan) (ch_queue chan ++ [to_wire e]) true)
  else sp_push (publish_commit p) = None ∧ sp_chans (publish_commit p) = sp_chans p.
Proof.
  intros He Hc Hin Hr. unfold publish_commit. rewrite He, Hc, Hin. simpl. unfold try_send. rewrite Hr. simpl.
  destruct (_ <? STREAM_CAPACITY); simpl; [|done]. split; [done|].
  apply list_lookup_insert_eq. by eapply lookup_lt_Some.
Qed.

(** C28: Subscribers of the connection status never silently miss one: however
    publications, subscriptions, receptions and departures interleave, what each stream
    ever carries is a gapless stretch of the published history, and the attached stream,
    while it is read, reaches the newest status; the newest status is what a query
    returns. A publication is stored and sent: one that is not refused as taking the newest
    status, of a finished operation, back to being in progress joins the history when it
    commits, and the attached stream, while it is read and fewer than thirty-two events
    wait in it, gets the event behind those and stays attached; only a full one is
    detached. A new stream is attached and starts with the newest status. A failed or idle
    status is never followed directly by a progress or connected status of the same
    operation; where one comes later, a status of another operation, or one that is
    neither, lies between. *)
Theorem streams_follow_history p :
  rtc status_step StatusPublisher_new p →
  (∀ c chan, sp_chans p !! c = Some chan →
     ∃ pre mid post, sp_history p = pre ++ mid ++ post ∧ ch_log chan = to_wire <$> mid
       ∧ (sp_push p = Some c → ch_receiver chan = true → post = [] ∧ (sp_history p ≠ [] → mid ≠ [])))
  ∧ latest p = last (sp_history p)
  ∧ (∀ i a b, sp_history p !! i = Some a → sp_history p !! S i = Some b →
       st_operation_id a = st_operation_id b →
       st_coarse_phase a = Ph_Failed ∨ st_coarse_phase a = Ph_Idle →
       st_coarse_phase b ≠ Ph_Connecting ∧ st_coarse_phase b ≠ Ph_Connected)
  ∧ (∀ i j a b, i < j → sp_history p !! i = Some a → sp_history p !! j = Some b →
       st_operation_id a = st_operation_id b → finished_status a → progress_status b →
       ∃ k x, i < k < j ∧ sp_history p !! k = Some x
         ∧ (st_operation_id x ≠ st_operation_id a ∨ ¬ finished_status x ∧ ¬ progress_status x))
  ∧ (∀ e, ¬ (∃ a, last (sp_history p) = Some a ∧ st_operation_id a = st_operation_id e
              ∧ finished_status a ∧ progress_status e) →
       sp_publishing (publish_begin e p) = Some e)
  ∧ (∀ e, sp_publishing p = Some e →
       sp_history (publish_commit p) = sp_history p ++ [e]
       ∧ ∀ c chan, sp_push p = Some c → sp_chans p !! c = Some chan → ch_receiver chan = true →
           if length (ch_queue chan) <? 32
           then sp_push (publish_commit p) = Some c
                ∧ sp_chans (publish_commit p) !! c = Some (MkChan (ch_taken chan) (ch_queue chan ++ [to_wire e]) true)
           else sp_push (publish_commit p) = None ∧ sp_chans (publish_commit p) = sp_chans p)
  ∧ (let q := open_stream p in
     sp_push q = Some (length (sp_chans p))
     ∧ sp_chans q !! length (sp_chans p) = Some (MkChan [] (to_wire <$> option_list (last (sp_history p))) true)).
Proof.
  intros Hrun.
  assert (Hinv : status_inv p).
  { refine (rtc_ind_r status_inv _ status_inv_new _ _ Hrun). intros y z _ Hyz Hy. by eapply status_inv_step. }
  split_and!; [apply Hinv|apply Hinv| |intros; eapply settled_between; eauto using si_settled| | |].
  - intros i a b Ha Hb Hop Hph. pose proof (si_settled p Hinv i a b Ha Hb) as Hs. unfold suppressed in Hs.
    rewrite bool_decide_eq_true_2 in Hs by done. destruct Hph as [E|E]; rewrite E in Hs; split; intros E'; by rewrite E' in Hs.
  - intros e Hnot. unfold publish_begin. destruct (suppressed (sp_latest p) e) eqn:E; [|done].
    apply suppressed_iff in E. by rewrite (si_latest p Hinv) in E.
  - intros e He. split; [by unfold publish_commit; rewrite He|]. intros c chan. by apply commit_sends.
  - simpl. split; [done|]. rewrite lookup_app_r, Nat.sub_diag by done. rewrite (si_latest p Hinv). simpl. by destruct (last (sp_history p)).
Qed.

Lemma streams_follow_history_witness :
  let op := [x01] in
  let p := publish (status_connected (Some 5%N) op) (publish (status_idle op) (open_stream
             (publish (status_connecting op (Some ConnectingControl)) StatusPublisher_new))) in
  latest p = last (sp_history p) ∧ length (sp_history p) = 2.
Proof.
  set (op := [x01]). set (p0 := publish (status_connecting op (Some ConnectingControl)) StatusPublisher_new).
  set (p1 := open_stream p0). set (p2 := publish (status_idle op) p1).
  set (p3 := publish (status_connected (Some 5%N) op) p2).
  split; [|vm_compute; reflexivity].
  refine (proj1 (proj2 (streams_follow_history p3 _))).
  eapply rtc_l; [apply (st_begin StatusPublisher_new (status_connecting op (Some ConnectingControl))); reflexivity|].
  eapply rtc_l; [apply st_commit|]. eapply rtc_l; [apply st_open|].
  eapply rtc_l; [apply (st_begin p1 (status_idle op)); reflexivity|].
  eapply rtc_l; [apply st_commit|]. eapply rtc_l; [apply (st_begin p2 (status_connected (Some 5%N) op)); reflexivity|].
  eapply rtc_l; [apply st_commit|]. apply rtc_refl.
Defined.

(** An observer registered first is told every status before it is stored, in order. *)
Definition observer_inv (o : nat) (p : StatusPublisher) : Prop :=
  sp_observer p = Some o ∧ sp_observed p = pair o <$> (sp_history p ++ option_list (sp_publishing p)).

Lemma observer_told o p q :
  observer_inv o p → status_step p q → sp_observer q = Some o → observer_inv o q.
Proof.
  intros [Ho Hobs] Hstep Hq. split; [done|].
  inversion Hstep as [? |? event Hn|?|? o'|? c|? c]; subst; simpl in *; try done.
  - unfold publish_begin. destruct (suppressed _ _); [done|]. simpl. rewrite Hobs, Ho, Hn, !fmap_app. simpl.
    by rewrite app_nil_r.
  - unfold publish_commit. destruct (sp_publishing p) as [e|] eqn:Hp; [|by rewrite Hobs, Hp].
    simpl. by rewrite app_nil_r.
Qed.
