(* ===== verification/EngineLog.v ===== *)
(** * The log of the Windows engine

    [log_sink.rs] of the Windows engine crate: events with a strictly growing tick, a
    bounded history to resume from, a channel for each consumer, and a raw file when no
    consumer took an event.

    The environment gives the directory chosen, whether the raw file opens and whether a
    line is written; the JSON text is a parameter. A poisoned lock is not modelled. *)

From Stdlib Require Import NArith ZArith Strings.Byte Lia.
From stdpp Require Import gmap.
From S2P Require Import Prelude Text Channel EngineStatus.

(** win32-engine/log_sink.rs:14-14 [HISTORY_CAPACITY] *)
Definition HISTORY_CAPACITY : nat := 256.
(** win32-engine/log_sink.rs:16-16 [STREAM_CAPACITY] *)
Definition LOG_STREAM_CAPACITY : nat := 256.

(** win32-engine/log_sink.rs:20-29 [LogLevel] *)
Inductive LogLevel := L_Debug | L_Info | L_Warn | L_Error.
(** win32-engine/log_sink.rs:34-41 [LogLevel::as_str] *)
Definition level_str (l : LogLevel) : str :=
  lit match l with L_Debug => "debug" | L_Info => "info" | L_Warn => "warn" | L_Error => "error" end.

(** win32-engine/log_sink.rs:337-344 [generated::LogEvent] *)
Record LogEvent := MkLogEvent {
  le_level : str;
  le_component : str;
  le_code : str;
  le_message : str;
  le_fields : gmap str str;
  le_timestamp_ms : N;
}.
(** win32-engine/log_sink.rs:326-345 [build_event]: of two fields with one key the later counts. *)
Definition build_event (wall : option N) (level : LogLevel) (component code message : str) (fields : list (str * str))
    : LogEvent :=
  MkLogEvent (level_str level) component code message (foldl (λ m '(k, v), <[k := v]> m) ∅ fields) (wall_clock_ms wall).

(** ** The raw file *)

(** win32-engine/log_sink.rs:65-72 [RawLogDumper]; [rd_lines] is what the file got. *)
Record RawLogDumper := MkRawLogDumper { rd_enabled : bool; rd_open : bool; rd_lines : list str }.
(** win32-engine/log_sink.rs:77-83 [RawLogDumper::new] *)
Definition RawLogDumper_new : RawLogDumper := MkRawLogDumper true false [].
(** win32-engine/log_sink.rs:87-93 [RawLogDumper::disabled] *)
Definition RawLogDumper_disabled : RawLogDumper := MkRawLogDumper false false [].

(** win32-engine/log_sink.rs:149-156 [RawLogDumper::disable]: the file is closed. *)
Definition disable (d : RawLogDumper) : RawLogDumper := MkRawLogDumper (rd_enabled d) false (rd_lines d).
(** win32-engine/log_sink.rs:123-146 [RawLogDumper::dump]; [opens] and [writes] are the
    outcomes of [open_append] and of the write. *)
Definition dump (opens writes : bool) (line : str) (d : RawLogDumper) : RawLogDumper * bool :=
  if negb (rd_enabled d) then (d, false)
  else if negb (rd_open d) && negb opens then (disable d, false)
  else if writes then (MkRawLogDumper (rd_enabled d) true (rd_lines d ++ [line]), true)
  else (disable d, false).

(** ** The sink *)

(** win32-engine/log_sink.rs:189-200 [LogSinkInner]. The channels ever attached are
    numbered; [ls_push] are the attached ones. [ls_emitted] is every event, oldest first. *)
Record LogSink := MkLogSink {
  ls_push : list nat;
  ls_history : list (N * LogEvent);
  ls_next_tick : N;
  ls_dumper : RawLogDumper;
  ls_chans : list (Chan LogEvent);
  ls_emitted : list (N * LogEvent);
}.

(** win32-engine/log_sink.rs:210-219 [LogSink::new] *)
Definition LogSink_new (dumper : RawLogDumper) : LogSink := MkLogSink [] [] 0 dumper [] [].

(** win32-engine/log_sink.rs:259-277 [LogSink::emit]: to every attached channel; a full one
    loses the event, a closed one is dropped. *)
Fixpoint fan_out (event : LogEvent) (push : list nat) (chans : list (Chan LogEvent))
    : list nat * bool * list (Chan LogEvent) :=
  match push with
  | [] => ([], false, chans)
  | tx :: push =>
      match try_send LOG_STREAM_CAPACITY event <$> chans !! tx with
      | Some (Ok chan) =>
          let '(live, _, chans) := fan_out event push (<[tx := chan]> chans) in (tx :: live, true, chans)
      | Some (Err Full) =>
          let '(live, delivered, chans) := fan_out event push chans in (tx :: live, delivered, chans)
      | _ => fan_out event push chans
      end
  end.

(** win32-engine/log_sink.rs:251-254 [LogSink::emit]: the bounded history. *)
Definition remember (entry : N * LogEvent) (history : list (N * LogEvent)) : list (N * LogEvent) :=
  (if length history =? HISTORY_CAPACITY then drop 1 history else history) ++ [entry].

Section Sink.
(** win32-engine/log_sink.rs:348-370 [dump_ev]: the JSON line of an event and its tick. *)
Context (json : N → LogEvent → str).

(** win32-engine/log_sink.rs:237-285 [LogSink::emit] *)
Definition emit (wall : option N) (opens writes : bool) (level : LogLevel) (component code message : str)
    (fields : list (str * str)) (s : LogSink) : LogSink :=
  let tick := sat64 (ls_next_tick s) 1 in
  let event := build_event wall level component code message fields in
  let '(live, delivered, chans) := fan_out event (ls_push s) (ls_chans s) in
  MkLogSink live (remember (tick, event) (ls_history s)) tick
    (if delivered then ls_dumper s else (dump opens writes (json tick event) (ls_dumper s)).1)
    chans (ls_emitted s ++ [(tick, event)]).

(** win32-engine/log_sink.rs:299-307 [LogSink::open_stream]: what is sent again. *)
Fixpoint replay (resume_tick : N) (history : list (N * LogEvent)) (tx : Chan LogEvent) : Chan LogEvent :=
  match history with
  | [] => tx
  | (tick, event) :: history =>
      if (resume_tick <? tick)%N
      then match try_send LOG_STREAM_CAPACITY event tx with Ok tx => replay resume_tick history tx | Err _ => tx end
      else replay resume_tick history tx
  end.
(** win32-engine/log_sink.rs:293-310 [LogSink::open_stream] *)
Definition open_log_stream (resume_tick : N) (s : LogSink) : LogSink :=
  let tx := if (0 <? resume_tick)%N then replay resume_tick (ls_history s) chan_new else chan_new in
  MkLogSink (ls_push s ++ [length (ls_chans s)]) (ls_history s) (ls_next_tick s) (ls_dumper s)
    (ls_chans s ++ [tx]) (ls_emitted s).
(** win32-engine/log_sink.rs:314-316 [LogSink::last_tick] *)
Definition last_tick (s : LogSink) : N := ls_next_tick s.
(** win32-engine/log_sink.rs:320-322 [LogSink::is_push_attached] *)
Definition log_attached (s : LogSink) : bool := negb (bool_decide (ls_push s = [])).

(** Emitting, subscribing, and what the consumers do. *)
Inductive log_step : LogSink → LogSink → Prop :=
  | lg_emit s wall opens writes level component code message fields :
      log_step s (emit wall opens writes level component code message fields s)
  | lg_open s resume_tick : log_step s (open_log_stream resume_tick s)
  | lg_take s c :
      log_step s (MkLogSink (ls_push s) (ls_history s) (ls_next_tick s) (ls_dumper s)
                    (alter take_next c (ls_chans s)) (ls_emitted s))
  | lg_leave s c :
      log_step s (MkLogSink (ls_push s) (ls_history s) (ls_next_tick s) (ls_dumper s)
                    (alter leave c (ls_chans s)) (ls_emitted s)).

(** ** Ticks and history *)

(** The ticks count the events, up to the largest one, and the history is the newest of
    them. *)
Definition log_inv (s : LogSink) : Prop :=
  ls_next_tick s = N.min (N.of_nat (length (ls_emitted s))) (two64 - 1)
  ∧ (∀ i t e, ls_emitted s !! i = Some (t, e) → t = N.min (N.of_nat i + 1) (two64 - 1))
  ∧ ls_history s = drop (length (ls_emitted s) - HISTORY_CAPACITY) (ls_emitted s).

Lemma remember_newest (l : list (N * LogEvent)) x :
  remember x (drop (length l - HISTORY_CAPACITY) l) = drop (length (l ++ [x]) - HISTORY_CAPACITY) (l ++ [x]).
Proof.
  unfold remember. rewrite length_drop, length_app. simpl.
  set (n := HISTORY_CAPACITY). assert (0 < n) by (unfold n, HISTORY_CAPACITY; lia). clearbody n.
  destruct (Nat.eqb_spec (length l - (length l - n)) n) as [E|E].
  - rewrite drop_drop, drop_app_le by lia. f_equal. f_equal. lia.
  - rewrite drop_app_le by lia. f_equal. f_equal. lia.
Qed.

Lemma log_inv_step s s' : log_inv s → log_step s s' → log_inv s'.
Proof.
  intros (Ht & Hticks & Hh) Hstep. inversion Hstep; subst; try done.
  unfold emit. destruct (fan_out _ _ _) as [[live delivered] chans]. split_and!; simpl.
  - rewrite Ht, length_app. simpl. unfold sat64. lia.
  - intros i t e Hi. destruct (decide (i < length (ls_emitted s))) as [Hlt|Hge].
    + rewrite lookup_app_l in Hi by done. by eapply Hticks.
    + pose proof (lookup_lt_Some _ _ _ Hi) as Hl. rewrite length_app in Hl. simpl in Hl.
      assert (i = length (ls_emitted s)) as -> by lia.
      rewrite lookup_app_r, Nat.sub_diag in Hi by done. simplify_eq/=. rewrite Ht. unfold sat64. lia.
  - by rewrite Hh, remember_newest.
Qed.

Lemma log_inv_reach d s : rtc log_step (LogSink_new d) s → log_inv s.
Proof.
  refine (rtc_ind_r log_inv _ _ _ s); [by split_and!|]. intros y z _ Hyz Hy. by eapply log_inv_step.
Qed.

(** ** Resuming *)

Lemma replay_all r history tx :
  ch_receiver tx = true →
  length (ch_queue tx) + length (base.filter (λ x, (r < x.1)%N) history) ≤ LOG_STREAM_CAPACITY →
  ch_log (replay r history tx) = ch_log tx ++ (base.filter (λ x, (r < x.1)%N) history).*2.
Proof.
  revert tx. induction history as [|[t e] history IH]; intros tx Hr Hlen; simpl; [by rewrite app_nil_r|].
  rewrite filter_cons in *. simpl in *. destruct (N.ltb_spec r t) as [Hlt|Hge].
  - rewrite decide_True in * by done. simpl in *. unfold try_send. rewrite Hr. simpl.
    destruct (Nat.ltb_spec (length (ch_queue tx)) LOG_STREAM_CAPACITY) as [_|]; [|lia].
    rewrite IH; [|done|simpl; rewrite length_app; simpl; lia].
    unfold ch_log. simpl. by rewrite <- !(assoc_L (++)).
  - rewrite decide_False in * by lia. by apply IH.
Qed.

Lemma filter_drop_older (l : list (N * LogEvent)) n (r : N) :
  (∀ i t e, l !! i = Some (t, e) → i < n → (t ≤ r)%N) →
  base.filter (λ x, (r < x.1)%N) (drop n l) = base.filter (λ x, (r < x.1)%N) l.
Proof.
  revert n. induction l as [|[t e] l IH]; intros [|n] Hold; simpl; try done.
  rewrite filter_cons. simpl. rewrite decide_False.
  - apply IH. intros i t' e' Hi Hlt. apply (Hold (S i) t' e'); [done|lia].
  - pose proof (Hold 0 t e eq_refl ltac:(lia)). lia.
Qed.
End Sink.

(** A consumer that reconnects loses nothing it can still get: if at most as many
    events as the history holds were emitted since the tick it last saw, the stream it
    reopens with that tick starts with exactly the events after it, in order; ticks number
    the events from one, and the history never holds more than its bound. *)
Theorem log_resume json d s r :
  rtc (log_step json) (LogSink_new d) s →
  (N.of_nat (length (ls_emitted s)) < two64 - 1)%N →
  (0 < r)%N → (last_tick s ≤ r + N.of_nat HISTORY_CAPACITY)%N →
  (∃ tx, ls_chans (open_log_stream r s) = ls_chans s ++ [tx]
         ∧ ch_log tx = (base.filter (λ x, (r < x.1)%N) (ls_emitted s)).*2)
  ∧ (∀ i t e, ls_emitted s !! i = Some (t, e) → t = (N.of_nat i + 1)%N)
  ∧ length (ls_history s) ≤ HISTORY_CAPACITY.
Proof.
  intros Hrun Hsmall Hr Hwindow. pose proof (log_inv_reach json d s Hrun) as (Ht & Hticks & Hh).
  assert (Htick : ∀ i t e, ls_emitted s !! i = Some (t, e) → t = (N.of_nat i + 1)%N).
  { intros i t e Hi. rewrite (Hticks i t e Hi). apply lookup_lt_Some in Hi. lia. }
  split_and!; [|done|rewrite Hh, length_drop; lia].
  eexists. split; [reflexivity|]. destruct (N.ltb_spec 0 r) as [_|]; [|lia].
  rewrite replay_all; [|done|].
  - simpl. f_equal. rewrite Hh. apply filter_drop_older. intros i t e Hi Hlt.
    rewrite (Htick i t e Hi). unfold last_tick in Hwindow. rewrite Ht in Hwindow.
    unfold HISTORY_CAPACITY in *. lia.
  - simpl. etrans; [apply length_filter|]. rewrite Hh, length_drop. unfold LOG_STREAM_CAPACITY, HISTORY_CAPACITY. lia.
Qed.

Definition sample_sink : LogSink :=
  let json := λ _ _, [] in
  let say n := emit json None true true L_Info (lit "engine") (lit "code") [n] [] in
  say 3%N (say 2%N (open_log_stream 0 (say 1%N (LogSink_new RawLogDumper_new)))).

Lemma log_resume_witness :
  (∃ tx, ls_chans (open_log_stream 1 sample_sink) = ls_chans sample_sink ++ [tx]
         ∧ ch_log tx = (base.filter (λ x, (1 < x.1)%N) (ls_emitted sample_sink)).*2)
  ∧ length (base.filter (λ x, (1 < x.1)%N) (ls_emitted sample_sink)) = 2.
Proof.
  split; [|vm_compute; reflexivity].
  refine (proj1 (log_resume (λ _ _, []) RawLogDumper_new sample_sink 1 _ _ _ _)).
  - unfold sample_sink. simpl.
    eapply rtc_l; [apply (lg_emit _ _ None true true L_Info (lit "engine") (lit "code") [1%N] [])|].
    eapply rtc_l; [apply (lg_open _ _ 0)|].
    eapply rtc_l; [apply (lg_emit _ _ None true true L_Info (lit "engine") (lit "code") [2%N] [])|].
    eapply rtc_l; [apply (lg_emit _ _ None true true L_Info (lit "engine") (lit "code") [3%N] [])|].
    apply rtc_refl.
  - vm_compute. reflexivity.
  - lia.
  - vm_compute. discriminate.
Defined.

(** ** No event is lost silently *)

(** A channel that would take one more event. *)
Definition accepts (chans : list (Chan LogEvent)) (tx : nat) : bool :=
  match chans !! tx with Some c => ch_receiver c && (length (ch_queue c) <? LOG_STREAM_CAPACITY) | None => false end.

Lemma accepts_try chans tx event :
  accepts chans tx = true ↔ ∃ c, try_send LOG_STREAM_CAPACITY event <$> chans !! tx = Some (Ok c).
Proof.
  unfold accepts, try_send. destruct (chans !! tx) as [c|]; simpl; [|naive_solver].
  destruct (ch_receiver c); simpl; [|naive_solver]. destruct (_ <? _); naive_solver.
Qed.

(** What a channel holds after an event was offered to the attached ones. *)
Definition offered (event : LogEvent) (push : list nat) (chans : list (Chan LogEvent)) (c : nat) : option (Chan LogEvent) :=
  if decide (c ∈ push) then
    match try_send LOG_STREAM_CAPACITY event <$> chans !! c with Some (Ok chan) => Some chan | _ => chans !! c end
  else chans !! c.

Lemma offered_cons_ne event tx push chans chans' c :
  c ≠ tx → chans' !! c = chans !! c → offered event push chans' c = offered event (tx :: push) chans c.
Proof. intros Hne Hc. unfold offered. rewrite Hc. destruct (decide (c ∈ push)), (decide (c ∈ tx :: push)); set_solver. Qed.

Lemma offered_refused event tx push chans c :
  tx ∉ push → accepts chans tx = false → offered event push chans c = offered event (tx :: push) chans c.
Proof.
  intros Hnot Hacc. destruct (decide (c = tx)) as [->|Hne]; [|by apply offered_cons_ne].
  unfold offered. rewrite decide_False, decide_True by (done || left).
  destruct (_ <$> chans !! tx) as [[chan|]|] eqn:E; [|done..].
  by rewrite (proj2 (accepts_try chans tx event)) in Hacc by eauto.
Qed.

(** Consumers do not disturb each other: with every consumer attached once, an event gets
    to exactly those that have room for it. *)
Lemma fan_out_isolated event push chans live delivered chans' :
  NoDup push → fan_out event push chans = (live, delivered, chans') →
  delivered = existsb (accepts chans) push ∧ (∀ c, chans' !! c = offered event push chans c) ∧ sublist live push.
Proof.
  revert chans live delivered chans'. induction push as [|tx push IH]; intros chans live delivered chans' Hnd Hf.
  { simpl in Hf. simplify_eq. split_and!; auto. }
  apply NoDup_cons in Hnd as [Hnot Hnd]. simpl in Hf.
  pose proof (accepts_try chans tx event) as Hacc. simpl.
  destruct (accepts chans tx) eqn:Ha.
  - destruct (proj1 Hacc eq_refl) as [chan Htry]. rewrite Htry in Hf.
    destruct (fan_out event push (<[tx := chan]> chans)) as [[live1 delivered1] chans1] eqn:Hrec.
    simplify_eq. destruct (IH _ _ _ _ Hnd Hrec) as (_ & Hlook & Hsub). split_and!; [done| |by constructor].
    intros c. rewrite Hlook. destruct (decide (c = tx)) as [->|Hne].
    + unfold offered. rewrite (decide_False (P := tx ∈ push)), (decide_True (P := tx ∈ tx :: push)) by (done || left).
      rewrite Htry. apply list_lookup_insert_eq. destruct (chans !! tx) eqn:E; [by eapply lookup_lt_Some|done].
    + apply offered_cons_ne; [done|]. by apply list_lookup_insert_ne.
  - assert (∃ live1, fan_out event push chans = (live1, delivered, chans') ∧ sublist live (tx :: live1)) as (live1 & Hrec & Hsub).
    { destruct (_ <$> chans !! tx) as [[chan|[]]|] eqn:Htry.
      - by discriminate (proj2 Hacc (ex_intro _ chan eq_refl)).
      - destruct (fan_out event push chans) as [[? ?] ?]. simplify_eq. eauto.
      - eauto using sublist_cons.
      - eauto using sublist_cons. }
    destruct (IH _ _ _ _ Hnd Hrec) as (Hd & Hlook & Hsub1). split_and!; [done| |].
    + intros c. rewrite Hlook. by apply offered_refused.
    + etrans; [exact Hsub|]. by constructor.
Qed.

(** A raw file that failed is tried again: a later line is written once it can be. *)
Lemma dump_retries line line' d :
  rd_enabled d = true →
  (dump true true line' (dump false false line d).1).2 = true.
Proof. unfold dump. intros H. rewrite H. simpl. destruct (rd_open d); simpl; rewrite H; done. Qed.
