(* ===== verification/EngineProbe.v ===== *)
(** * Latency probes and control events of the Windows data plane

    The pure parts of [data_plane.rs] of the Windows engine crate: the ICMP packets of
    the probe and their checksums, the probe's state machine, the keepalive ticker, the
    table that says what a control event leads to, and the counters that are logged.

    Instants and durations are nanoseconds. The refresh marker is what its file holds,
    if it can be read; the clock of the DPD stamp is the seconds since the epoch. *)

From Stdlib Require Import NArith ZArith Strings.Byte Lia.
From S2P Require Import Prelude Text CstpCodec Session.

(** ** Packets *)

(** [u16::from_be_bytes] of the pairs; a last odd byte is padded with a zero. *)
Fixpoint be_words (bytes : list byte) : list N :=
  match bytes with
  | [] => []
  | [a] => [(byte_val a * 256)%N]
  | a :: b :: bytes => (byte_val a * 256 + byte_val b)%N :: be_words bytes
  end.

(** win32-engine/data_plane.rs:787-789 [internet_checksum]: the loop that folds the carries,
    at most [fuel] times. *)
Fixpoint fold_carries (fuel : nat) (sum : N) : N :=
  match fuel with
  | O => sum
  | S fuel =>
      if (N.shiftr sum 16 =? 0)%N then sum
      else fold_carries fuel (N.land sum 0xFFFF + N.shiftr sum 16)
  end.
(** win32-engine/data_plane.rs:781-791 [internet_checksum]; three folds of a 32-bit sum
    leave no carry. *)
Definition internet_checksum (bytes : list byte) : N :=
  let sum := foldl (λ sum word, (sum + word) mod 2 ^ 32)%N 0%N (be_words bytes) in
  (0xFFFF - fold_carries 3 sum mod 2 ^ 16)%N.

(** [copy_from_slice] into [pkt[at..]] *)
Definition copy_at (pos : nat) (bytes pkt : list byte) : list byte :=
  take pos pkt ++ bytes ++ drop (pos + length bytes) pkt.
(** [(v >> 8) as u8] and [(v & 0xFF) as u8] *)
Definition hi8 (v : N) : byte := byte_of_N (N.shiftr v 8).
Definition lo8 (v : N) : byte := byte_of_N (N.land v 0xFF).

(** win32-engine/data_plane.rs:720-743 [build_icmp_echo_request]: before the checksums. *)
Definition icmp_echo_body (source target : Ipv4Addr) (ident seq : N) : list byte :=
  let payload := [x45; x58; x56; x01; hi8 ident; lo8 ident] in
  let payload_len := length payload in
  let total_len := 20 + 8 + payload_len in
  let pkt := replicate total_len x00 in
  let pkt := <[0 := x45]> pkt in
  let pkt := <[2 := byte_of_N (N.land (N.shiftr (N.of_nat total_len) 8) 0xFF)]> pkt in
  let pkt := <[3 := lo8 (N.of_nat total_len)]> pkt in
  let pkt := <[8 := x40]> pkt in
  let pkt := <[9 := x01]> pkt in
  let pkt := copy_at 12 (octets source) pkt in
  let pkt := copy_at 16 (octets target) pkt in
  let pkt := <[20 := x08]> pkt in
  let pkt := copy_at 24 (be_bytes 2 ident) pkt in
  let pkt := copy_at 26 (be_bytes 2 seq) pkt in
  copy_at 28 payload pkt.
(** win32-engine/data_plane.rs:719-751 [build_icmp_echo_request] *)
Definition build_icmp_echo_request (source target : Ipv4Addr) (ident seq : N) : list byte :=
  let pkt := icmp_echo_body source target ident seq in
  let ip_sum := internet_checksum (take 20 pkt) in
  let pkt := <[11 := lo8 ip_sum]> (<[10 := hi8 ip_sum]> pkt) in
  let icmp_sum := internet_checksum (drop 20 pkt) in
  <[23 := lo8 icmp_sum]> (<[22 := hi8 icmp_sum]> pkt).

(** The byte at an index the length was checked for. *)
Definition at_ (pkt : list byte) (i : nat) : N := byte_val (nth i pkt x00).
(** The slice [pkt[a..b]]. *)
Definition between (pkt : list byte) (a b : nat) : list byte := take (b - a) (drop a pkt).
(** win32-engine/data_plane.rs:757-777 [is_icmp_echo_reply] *)
Definition is_icmp_echo_reply (pkt : list byte) (target source : Ipv4Addr) (ident : N) : bool :=
  if length pkt <? 28 then false
  else if negb (N.shiftr (at_ pkt 0) 4 =? 4)%N then false
  else if negb (at_ pkt 9 =? 1)%N then false
  else if negb (bool_decide (between pkt 12 16 = octets target)) then false
  else if negb (bool_decide (between pkt 16 20 = octets source)) then false
  else if negb (at_ pkt 20 =? 0)%N then false
  else bool_decide (between pkt 24 26 = be_bytes 2 ident).

(** win32-engine/data_plane.rs:1265-1267 [is_ipv4_packet] *)
Definition is_ipv4_packet (pkt : list byte) : bool :=
  match pkt with v :: _ => (N.shiftr (byte_val v) 4 =? 4)%N | [] => false end.

(** A frame the code expects to encode. *)
Definition expect_frame (r : result CodecError (list byte)) : list byte :=
  match r with Ok frame => frame | Err _ => [] end.
(** win32-engine/data_plane.rs:381-387 [build_dpd_request_frame] *)
Definition build_dpd_request_frame (epoch_secs : option N) : list byte :=
  let stamp := match epoch_secs with Some s => if (s <? 2 ^ 32)%N then s else 0%N | None => 0%N end in
  expect_frame (encode_raw CSTP_PACKET_TYPE_DPD_REQUEST (be_bytes 4 stamp)).
(** win32-engine/data_plane.rs:392-395 [build_dpd_response_frame] *)
Definition build_dpd_response_frame : list byte := expect_frame (encode_raw CSTP_PACKET_TYPE_DPD_RESPONSE []).
(** win32-engine/data_plane.rs:947-948 [EngineDataPlane::spawn_data_plane] *)
Definition keepalive_frame : list byte := expect_frame (encode_raw CSTP_PACKET_TYPE_KEEPALIVE []).

(** ** The probe *)

Definition secs (n : N) : N := (n * 1000000000)%N.
(** win32-engine/data_plane.rs:179-179 [DPD_PROBE_INTERVAL] *)
Definition DPD_PROBE_INTERVAL : N := secs 5.
(** win32-engine/data_plane.rs:181-181 [DPD_PROBE_TIMEOUT] *)
Definition DPD_PROBE_TIMEOUT : N := secs 3.
(** win32-engine/data_plane.rs:183-183 [DPD_MAX_TIMEOUTS] *)
Definition DPD_MAX_TIMEOUTS : N := 3.
(** win32-engine/data_plane.rs:185-185 [PING_PROBE_TIMEOUT] *)
Definition PING_PROBE_TIMEOUT : N := secs 5.
(** win32-engine/data_plane.rs:187-187 [MARKER_POLL_INTERVAL] *)
Definition MARKER_POLL_INTERVAL : N := secs 1.

(** win32-engine/data_plane.rs:200-211 [LatencyProbeConfig]; whether there is a marker. *)
Record LatencyProbeConfig := MkLatencyProbeConfig {
  lp_target : Ipv4Addr;
  lp_source : Ipv4Addr;
  lp_dpd_enabled : bool;
  lp_ping_interval : N;
  lp_refresh_marker : bool;
}.
(** win32-engine/data_plane.rs:232-235 [ProbeKind] *)
Inductive ProbeKind := Dpd | Ping.
#[export] Instance ProbeKind_eq_dec : EqDecision ProbeKind. Proof. solve_decision. Defined.
(** win32-engine/data_plane.rs:239-242 [PendingPing] *)
Record PendingPing := MkPendingPing { pp_sent_at : N; pp_ident : N }.
(** win32-engine/data_plane.rs:216-228 [ProbeState] *)
Record ProbeState := MkProbeState {
  ps_cfg : LatencyProbeConfig;
  ps_kind : ProbeKind;
  ps_dpd_timeouts : N;
  ps_last_dpd_sent : N;
  ps_last_ping_sent : N;
  ps_last_marker_check : N;
  ps_last_marker_seen : N;
  ps_pending_dpd : option N;
  ps_pending_ping : option PendingPing;
  ps_next_ident : N;
}.

(** win32-engine/data_plane.rs:246-265 [ProbeState::new] *)
Definition ProbeState_new (now : N) (cfg : LatencyProbeConfig) : ProbeState :=
  MkProbeState cfg (if lp_dpd_enabled cfg then Dpd else Ping) 0 now now now 0 None None 0.

(** win32-engine/data_plane.rs:367-369 [rtt_ms] *)
Definition rtt_ms (sent_at now : N) : N := N.min (sat_sub now sent_at / 1000000) (two64 - 1).

(** win32-engine/data_plane.rs:268-272 [ProbeState::on_dpd_response] *)
Definition on_dpd_response (now : N) (p : ProbeState) : ProbeState * option N :=
  match ps_pending_dpd p with
  | None => (p, None)
  | Some sent_at =>
      (MkProbeState (ps_cfg p) (ps_kind p) 0 (ps_last_dpd_sent p) (ps_last_ping_sent p) (ps_last_marker_check p)
         (ps_last_marker_seen p) None (ps_pending_ping p) (ps_next_ident p),
       Some (rtt_ms sent_at now))
  end.

Definition set_pending_ping (o : option PendingPing) (p : ProbeState) : ProbeState :=
  MkProbeState (ps_cfg p) (ps_kind p) (ps_dpd_timeouts p) (ps_last_dpd_sent p) (ps_last_ping_sent p)
    (ps_last_marker_check p) (ps_last_marker_seen p) (ps_pending_dpd p) o (ps_next_ident p).

(** win32-engine/data_plane.rs:275-283 [ProbeState::on_icmp_echo_reply] *)
Definition on_icmp_echo_reply (pkt : list byte) (now : N) (p : ProbeState) : ProbeState * option N :=
  match ps_pending_ping p with
  | None => (p, None)
  | Some pending =>
      if is_icmp_echo_reply pkt (lp_target (ps_cfg p)) (lp_source (ps_cfg p)) (pp_ident pending)
      then (set_pending_ping None p, Some (rtt_ms (pp_sent_at pending) now))
      else (set_pending_ping (Some pending) p, None)
  end.

(** win32-engine/data_plane.rs:343-348 [ProbeState::fire_dpd] *)
Definition fire_dpd (now : N) (epoch_secs : option N) (p : ProbeState) : ProbeState * list (list byte) :=
  (MkProbeState (ps_cfg p) (ps_kind p) (ps_dpd_timeouts p) now (ps_last_ping_sent p) (ps_last_marker_check p)
     (ps_last_marker_seen p) (Some now) (ps_pending_ping p) (ps_next_ident p),
   [build_dpd_request_frame epoch_secs]).
(** win32-engine/data_plane.rs:351-363 [ProbeState::fire_ping] *)
Definition fire_ping (now : N) (p : ProbeState) : ProbeState * list (list byte) :=
  let ident := ps_next_ident p in
  let p := MkProbeState (ps_cfg p) (ps_kind p) (ps_dpd_timeouts p) (ps_last_dpd_sent p) now (ps_last_marker_check p)
             (ps_last_marker_seen p) (ps_pending_dpd p) (ps_pending_ping p) ((ident + 1) mod 2 ^ 16)%N in
  let pkt := build_icmp_echo_request (lp_source (ps_cfg p)) (lp_target (ps_cfg p)) ident 0 in
  match encode (Data pkt) with
  | Ok frame => (set_pending_ping (Some (MkPendingPing now ident)) p, [frame])
  | Err _ => (p, [])
  end.
(** win32-engine/data_plane.rs:335-340 [ProbeState::fire] *)
Definition fire (now : N) (epoch_secs : option N) (p : ProbeState) : ProbeState * list (list byte) :=
  match ps_kind p with Dpd => fire_dpd now epoch_secs p | Ping => fire_ping now p end.

(** win32-engine/data_plane.rs:289-303 [ProbeState::tick]: what timed out. *)
Definition expire (now : N) (p : ProbeState) : ProbeState :=
  let p := match ps_pending_dpd p with
           | Some sent_at =>
               if (DPD_PROBE_TIMEOUT <=? sat_sub now sent_at)%N then
                 let timeouts := ((ps_dpd_timeouts p + 1) mod 2 ^ 32)%N in
                 MkProbeState (ps_cfg p) (if (DPD_MAX_TIMEOUTS <=? timeouts)%N then Ping else ps_kind p) timeouts
                   (ps_last_dpd_sent p) (ps_last_ping_sent p) (ps_last_marker_check p) (ps_last_marker_seen p)
                   None (ps_pending_ping p) (ps_next_ident p)
               else p
           | None => p
           end in
  match ps_pending_ping p with
  | Some pending => if (PING_PROBE_TIMEOUT <=? sat_sub now (pp_sent_at pending))%N then set_pending_ping None p else p
  | None => p
  end.

(** win32-engine/data_plane.rs:372-376 [read_refresh_marker] *)
Definition read_refresh_marker (text : option str) : option N := t ← text; parse_usize (trim t).

(** win32-engine/data_plane.rs:306-317 [ProbeState::tick]: the marker; whether it asks for
    a probe. *)
Definition poll_marker (now : N) (text : option str) (p : ProbeState) : ProbeState * bool :=
  let with_marker check seen :=
    MkProbeState (ps_cfg p) (ps_kind p) (ps_dpd_timeouts p) (ps_last_dpd_sent p) (ps_last_ping_sent p) check seen
      (ps_pending_dpd p) (ps_pending_ping p) (ps_next_ident p) in
  if (MARKER_POLL_INTERVAL <=? sat_sub now (ps_last_marker_check p))%N then
    match (if lp_refresh_marker (ps_cfg p) then read_refresh_marker text else None) with
    | Some ts => if (ps_last_marker_seen p <? ts)%N then (with_marker now ts, true)
                 else (with_marker now (ps_last_marker_seen p), false)
    | None => (with_marker now (ps_last_marker_seen p), false)
    end
  else (p, false).

(** win32-engine/data_plane.rs:320-331 [ProbeState::tick]: whether the period is over. *)
Definition probe_due (now : N) (p : ProbeState) : bool :=
  match ps_kind p with
  | Dpd => (DPD_PROBE_INTERVAL <=? sat_sub now (ps_last_dpd_sent p))%N
  | Ping => (lp_ping_interval (ps_cfg p) <=? sat_sub now (ps_last_ping_sent p))%N
  end.

(** win32-engine/data_plane.rs:287-332 [ProbeState::tick] *)
Definition tick (now : N) (epoch_secs : option N) (text : option str) (p : ProbeState)
    : ProbeState * list (list byte) :=
  let '(p, asked) := poll_marker now text (expire now p) in
  if asked || probe_due now p then fire now epoch_secs p else (p, []).

(** ** The keepalive *)

(** win32-engine/data_plane.rs:196-196 [CSTP_KEEPALIVE_INTERVAL_SECS] *)
Definition CSTP_KEEPALIVE_INTERVAL_SECS : N := 15.
(** win32-engine/data_plane.rs:403-406 [KeepaliveTicker] *)
Record KeepaliveTicker := MkKeepaliveTicker { kt_period : N; kt_last : option N }.
(** win32-engine/data_plane.rs:410-415 [KeepaliveTicker::new] *)
Definition KeepaliveTicker_new (period connected_at : N) : KeepaliveTicker := MkKeepaliveTicker period (Some connected_at).
(** win32-engine/data_plane.rs:418-426 [KeepaliveTicker::due] *)
Definition due (now : N) (t : KeepaliveTicker) : KeepaliveTicker * bool :=
  match kt_last t with
  | Some last => if (kt_period t <=? sat_sub now last)%N then (MkKeepaliveTicker (kt_period t) (Some now), true) else (t, false)
  | None => (t, false)
  end.

(** ** Control events *)

(** win32-engine/data_plane.rs:431-442 [EventAction] *)
Inductive EventAction :=
  | ProbeRtt | ReplyDpd | Ignore
  | WarnUnknownKind (kind : byte)
  | StashSessionEnd (reason : SessionEndReason).

(** win32-engine/data_plane.rs:448-472 [control_event_action] *)
Definition control_event_action (event : CstpControlEvent) (seen : list byte) : EventAction * list byte :=
  match event with
  | DpdResponse => (ProbeRtt, seen)
  | Ev_Control kind _ =>
      if bool_decide (kind = CSTP_PACKET_TYPE_DPD_REQUEST) then (ReplyDpd, seen)
      else if bool_decide (kind = CSTP_PACKET_TYPE_KEEPALIVE) then (Ignore, seen)
      else if bool_decide (kind = x05) || bool_decide (kind = x09) then (Ignore, seen)
      else if bool_decide (kind ∈ seen) then (Ignore, seen)
      else (WarnUnknownKind kind, seen ++ [kind])
  | SessionEnded reason => (StashSessionEnd reason, seen)
  | WriteFailed error => (StashSessionEnd (End_Io error), seen)
  | IoDiagnostics _ => (Ignore, seen)
  end.

(** win32-engine/data_plane.rs:587-598 [DataPlaneDiagnostics] *)
Record DataPlaneDiagnostics := MkDataPlaneDiagnostics {
  dg_started : N;
  dg_last_summary : N;
  dg_keepalive_queued : N;
  dg_dpd_reply_queued : N;
  dg_keepalive_received : N;
  dg_dpd_requests_received : N;
  dg_dpd_responses_received : N;
  dg_control_queue_failures : N;
  dg_read : option SessionIoDiagnostics;
  dg_write : option SessionIoDiagnostics;
}.
(** win32-engine/data_plane.rs:601-614 [DataPlaneDiagnostics::new] *)
Definition DataPlaneDiagnostics_new (now : N) : DataPlaneDiagnostics :=
  MkDataPlaneDiagnostics now now 0 0 0 0 0 0 None None.
(** win32-engine/data_plane.rs:616-633 [DataPlaneDiagnostics::observe] *)
Definition observe (event : CstpControlEvent) (d : DataPlaneDiagnostics) : DataPlaneDiagnostics :=
  let with_counts ka req resp read write :=
    MkDataPlaneDiagnostics (dg_started d) (dg_last_summary d) (dg_keepalive_queued d) (dg_dpd_reply_queued d)
      (wrap64 (dg_keepalive_received d + ka)) (wrap64 (dg_dpd_requests_received d + req))
      (wrap64 (dg_dpd_responses_received d + resp)) (dg_control_queue_failures d) read write in
  match event with
  | IoDiagnostics s =>
      match direction s with
      | Dir_Read => with_counts 0 0 0 (Some s) (dg_write d)
      | Dir_Write => with_counts 0 0 0 (dg_read d) (Some s)
      end%N
  | DpdResponse => with_counts 0 0 1 (dg_read d) (dg_write d)
  | Ev_Control kind _ =>
      if bool_decide (kind = CSTP_PACKET_TYPE_KEEPALIVE) then with_counts 1 0 0 (dg_read d) (dg_write d)
      else if bool_decide (kind = CSTP_PACKET_TYPE_DPD_REQUEST) then with_counts 0 1 0 (dg_read d) (dg_write d)
      else with_counts 0 0 0 (dg_read d) (dg_write d)
  | _ => with_counts 0 0 0 (dg_read d) (dg_write d)
  end%N.

(** ** What is logged *)

(** [{:02x}] of a byte, [{:#04x}], decimal of an integer, [{:?}] of an optional byte. *)
Definition hex_lower (n : N) : N := if (n <? 10)%N then (48 + n)%N else (87 + n)%N.
Definition hex2 (b : byte) : str := [hex_lower (byte_val b / 16); hex_lower (byte_val b mod 16)].
Definition hex_prefixed (b : byte) : str := lit "0x" ++ hex2 b.
Definition to_dec_Z (z : Z) : str := if (z <? 0)%Z then 45%N :: to_dec (Z.to_N (- z)) else to_dec (Z.to_N z).
Definition debug_option (o : option byte) : str :=
  match o with Some b => lit "Some(" ++ to_dec (byte_val b) ++ lit ")" | None => lit "None" end.

(** cstp/codec.rs:44-61 [CodecError]: its derived [Debug] text. *)
Definition debug_codec_error (e : CodecError) : str :=
  match e with
  | ShortHeader => lit "ShortHeader"
  | BadMagic => lit "BadMagic"
  | BadLength => lit "BadLength"
  | OversizePayload declared limit =>
      lit "OversizePayload { declared: " ++ to_dec declared ++ lit ", limit: " ++ to_dec limit ++ lit " }"
  | UnknownControl kind => lit "UnknownControl(" ++ to_dec (byte_val kind) ++ lit ")"
  | Truncated => lit "Truncated"
  | Ipv6NotSupported => lit "Ipv6NotSupported"
  end.

Section Labels.
(** The [Debug] text of an [ErrorKind], and [Uuid::from_slice] with the text of the uuid. *)
Context (kind_debug : N → str) (uuid_text : list byte → option str).

(** win32-engine/data_plane.rs:477-486 [session_end_reason_label] *)
Definition session_end_reason_label (reason : SessionEndReason) : str :=
  match reason with
  | ServerDisconnect kind code reason body_len =>
      lit "server_disconnect: kind=" ++ hex_prefixed kind ++ lit " code=" ++ debug_option code
      ++ lit " body_len=" ++ to_dec (N.of_nat body_len) ++ lit " reason=" ++ reason
  | GatewayClosedStream => lit "gateway_closed_stream"
  | End_Io error => lit "io: " ++ kind_debug (se_kind error)
  | End_Codec err => lit "codec: " ++ debug_codec_error err
  | ConsumerDropped => lit "consumer_dropped"
  end.

(** win32-engine/data_plane.rs:489-509 [io_error_fields] *)
Definition io_error_fields (error : SessionIoError) : list (str * str) :=
  [(lit "io_direction", lit match se_direction error with Dir_Read => "read" | Dir_Write => "write" end);
   (lit "io_kind", kind_debug (se_kind error));
   (lit "raw_os_error", match raw_os_error error with Some code => to_dec_Z code | None => lit "none" end);
   (lit "io_detail", detail error);
   (lit "error_observed_ms", to_dec (observed_ms error))].

(** win32-engine/data_plane.rs:511-531 [diagnostic_identity]; [wall] is the time since the
    epoch in milliseconds. *)
Definition diagnostic_identity (wall : option N) (operation_id : list byte) : list (str * str) :=
  [(lit "operation_id", default (lit "unknown") (uuid_text operation_id));
   (lit "operation_id_hex", operation_id ≫= hex2);
   (lit "event_observed_ms", to_dec (default 0%N wall))].

(** win32-engine/data_plane.rs:538-541 [log_write_failure] *)
Definition write_failure_fields (wall : option N) (operation_id : list byte) (error : SessionIoError) : list (str * str) :=
  io_error_fields error ++ diagnostic_identity wall operation_id.

(** win32-engine/data_plane.rs:564-570 [log_data_plane_lifecycle] *)
Definition lifecycle_fields (wall : option N) (operation_id : list byte) (outcome : str)
    (reason : option SessionEndReason) : list (str * str) :=
  diagnostic_identity wall operation_id ++ [(lit "outcome", outcome)]
  ++ match reason with
     | Some reason =>
         [(lit "reason", session_end_reason_label reason)]
         ++ match reason with End_Io error => io_error_fields error | _ => [] end
     | None => []
     end.

(** win32-engine/data_plane.rs:1355-1367 [on_read_channel_closed] *)
Definition closed_fields (wall : option N) (operation_id : list byte) (reason : option SessionEndReason) : list (str * str) :=
  diagnostic_identity wall operation_id
  ++ match reason with
     | Some reason =>
         [(lit "reason", session_end_reason_label reason)]
         ++ match reason with
            | ServerDisconnect kind code text body_len =>
                [(lit "server_packet_type", hex_prefixed kind);
                 (lit "server_reason_code", match code with Some c => to_dec (byte_val c) | None => lit "none" end);
                 (lit "server_reason", text);
                 (lit "server_body_len", to_dec (N.of_nat body_len))]
            | End_Io error => io_error_fields error
            | _ => []
            end
     | None => []
     end.

(** win32-engine/data_plane.rs:645-653 [DataPlaneDiagnostics::emit]: a counter that was not
    sampled is not reported as zero. *)
Definition sampled (snapshot : option SessionIoDiagnostics) (select : SessionIoDiagnostics → N) : str :=
  match snapshot with Some s => to_dec (select s) | None => lit "unobserved" end.
Definition age (now : N) (instant : option N) : str :=
  match instant with Some t => to_dec (sat_sub now t) | None => lit "unobserved" end.

(** win32-engine/data_plane.rs:654-703 [DataPlaneDiagnostics::emit]; the instants of the
    samples are milliseconds. *)
Definition summary_fields (now_ms started_ms : N) (wall : option N) (operation_id : list byte) (trigger : str)
    (d : DataPlaneDiagnostics) : list (str * str) :=
  let read := dg_read d in
  let write := dg_write d in
  [(lit "trigger", trigger);
   (lit "connected_for_ms", to_dec (sat_sub now_ms started_ms));
   (lit "keepalive_interval_secs", to_dec CSTP_KEEPALIVE_INTERVAL_SECS);
   (lit "keepalive_queued", to_dec (dg_keepalive_queued d));
   (lit "dpd_reply_queued", to_dec (dg_dpd_reply_queued d));
   (lit "keepalive_received", to_dec (dg_keepalive_received d));
   (lit "dpd_requests_received", to_dec (dg_dpd_requests_received d));
   (lit "dpd_responses_received", to_dec (dg_dpd_responses_received d));
   (lit "control_queue_failures", to_dec (dg_control_queue_failures d));
   (lit "tls_read_bytes", sampled read bytes);
   (lit "tls_write_completed_bytes", sampled write bytes);
   (lit "tls_write_completed_frames", sampled write operations);
   (lit "keepalive_written", sampled write keepalive_frames);
   (lit "dpd_request_written", sampled write dpd_request_frames);
   (lit "dpd_reply_written", sampled write dpd_response_frames);
   (lit "last_tls_read_ms_ago", age now_ms (read ≫= last_activity));
   (lit "last_tls_write_ms_ago", age now_ms (write ≫= last_activity));
   (lit "tls_read_sample_ms_ago", age now_ms (sampled_at <$> read));
   (lit "tls_write_sample_ms_ago", age now_ms (sampled_at <$> write))]
  ++ diagnostic_identity wall operation_id.
End Labels.

(** ** Checksums *)

Definition carry (sum : N) : N := (N.land sum 0xFFFF + N.shiftr sum 16)%N.
Lemma carry_eq sum : carry sum = (sum mod 65536 + sum / 65536)%N.
Proof.
  unfold carry. change 0xFFFF%N with (N.ones 16). by rewrite N.land_ones, N.shiftr_div_pow2.
Qed.
Lemma carry_mod sum : (carry sum mod 65535 = sum mod 65535)%N.
Proof.
  rewrite carry_eq. pose proof (N.div_mod' sum 65536) as E.
  generalize dependent (sum / 65536)%N. generalize (sum mod 65536)%N. intros r q ->.
  replace (65536 * q + r)%N with (r + q + q * 65535)%N by lia. by rewrite N.Div0.mod_add.
Qed.
Lemma carry_pos sum : (0 < sum → 0 < carry sum)%N.
Proof.
  rewrite carry_eq. pose proof (N.div_mod' sum 65536) as E.
  generalize dependent (sum / 65536)%N. generalize (sum mod 65536)%N. intros. lia.
Qed.

Lemma fold_carries_S n s : fold_carries (S n) s = if (s / 65536 =? 0)%N then s else fold_carries n (carry s).
Proof. unfold carry. cbn [fold_carries]. by rewrite !N.shiftr_div_pow2. Qed.

(** Three folds of a 32-bit sum leave no carry: the result is a 16-bit number with the same
    residue, zero only for zero. *)
Lemma fold_carries_spec sum :
  (sum < 2 ^ 32)%N →
  let r := fold_carries 3 sum in
  (r < 65536)%N ∧ (r mod 65535 = sum mod 65535)%N ∧ (0 < sum → 0 < r)%N.
Proof.
  intros Hs. assert (Hsmall : ∀ s, (s / 65536 = 0 → s < 65536)%N) by (intros s Hz; by apply N.div_small_iff in Hz).
  cbv zeta. rewrite !fold_carries_S.
  destruct (N.eqb_spec (sum / 65536) 0) as [E1|E1]; [split_and!; auto|].
  assert (B1 : (carry sum < 131071)%N).
  { rewrite carry_eq. pose proof (N.mod_lt sum 65536 ltac:(done)). assert (sum / 65536 < 65536)%N by (apply N.Div0.div_lt_upper_bound; lia). lia. }
  destruct (N.eqb_spec (carry sum / 65536) 0) as [E2|E2]; [split_and!; auto using carry_mod, carry_pos|].
  assert (B2 : (carry (carry sum) < 65536)%N).
  { rewrite carry_eq. pose proof (N.div_mod' (carry sum) 65536). pose proof (N.mod_lt (carry sum) 65536 ltac:(done)).
    generalize dependent (carry sum / 65536)%N. generalize dependent (carry sum mod 65536)%N. intros. lia. }
  destruct (N.eqb_spec (carry (carry sum) / 65536) 0) as [E3|E3].
  - split_and!; [done|by rewrite !carry_mod|auto using carry_pos].
  - exfalso. apply E3. by apply N.div_small.
Qed.

Definition word_sum (l : list byte) : N := foldr N.add 0%N (be_words l).

Lemma be_words_ind (P : list byte → Prop) :
  P [] → (∀ a, P [a]) → (∀ a b l, P l → P (a :: b :: l)) → ∀ l, P l.
Proof.
  intros H0 H1 H2. assert (∀ n l, length l ≤ n → P l) as Hn; [|by intros l; apply (Hn (length l))].
  induction n as [|n IH]; intros [|a [|b l]] Hl; simpl in *; try lia; auto. apply H2, IH. lia.
Qed.

Lemma word_sum_app a b : Nat.Even (length a) → word_sum (a ++ b) = (word_sum a + word_sum b)%N.
Proof.
  induction a as [|x|x y a IH] using be_words_ind; intros Hev; [done| |].
  - simpl in Hev. destruct Hev. lia.
  - unfold word_sum in *. simpl. rewrite IH; [lia|]. destruct Hev as [m Hm]. exists (m - 1). simpl in Hm. lia.
Qed.

Lemma word_sum_bound l : (word_sum l ≤ 65535 * N.of_nat (length l))%N.
Proof.
  induction l as [|x|x y a IH] using be_words_ind; [done| |];
    unfold word_sum in *; simpl; pose proof (byte_val_lt x); [lia|]. pose proof (byte_val_lt y). lia.
Qed.

Lemma checksum_sum l :
  (N.of_nat (length l) ≤ 65536)%N → internet_checksum l = (65535 - fold_carries 3 (word_sum l))%N ∧ (word_sum l < 2 ^ 32)%N.
Proof.
  intros Hl. pose proof (word_sum_bound l) as Hb. assert (Hs : (word_sum l < 2 ^ 32)%N) by lia. split; [|done].
  unfold internet_checksum. assert (∀ ws s, (s + foldr N.add 0 ws < 2 ^ 32)%N →
    foldl (λ sum word, (sum + word) mod 2 ^ 32)%N s ws = (s + foldr N.add 0 ws)%N) as Hfold.
  { induction ws as [|w ws IH]; intros s H; simpl in *; [lia|].
    rewrite N.mod_small by lia. rewrite IH by lia. lia. }
  rewrite Hfold by (unfold word_sum in Hs; lia). fold (word_sum l).
  destruct (fold_carries_spec (word_sum l) Hs) as (Hlt & _ & _). rewrite N.add_0_l, N.mod_small by done. done.
Qed.

Lemma internet_checksum_lt l : (N.of_nat (length l) ≤ 65536)%N → (internet_checksum l < 65536)%N.
Proof. intros Hl. destruct (checksum_sum l Hl) as [-> _]. lia. Qed.

Lemma split_word s : (s < 65536)%N → (byte_val (hi8 s) * 256 + byte_val (lo8 s) = s)%N.
Proof.
  intros Hs. unfold hi8, lo8. rewrite !byte_val_of_N, N.shiftr_div_pow2.
  change 0xFF%N with (N.ones 8). rewrite N.land_ones, N.Div0.mod_mod by lia.
  change (2 ^ 8)%N with 256%N. rewrite (N.mod_small (s / 256)) by (apply N.Div0.div_lt_upper_bound; lia).
  pose proof (N.div_mod' s 256). lia.
Qed.

(** A checksum put where there were zeros makes the whole sum up to nothing. *)
Lemma checksum_fills a b :
  Nat.Even (length a) → (N.of_nat (length a + length b) ≤ 60000)%N →
  let s := internet_checksum (a ++ [x00; x00] ++ b) in
  internet_checksum (a ++ [hi8 s; lo8 s] ++ b) = 0%N.
Proof.
  intros Hev Hlen s.
  assert (Hlt : (s < 65536)%N) by (apply internet_checksum_lt; rewrite !length_app; simpl; lia).
  assert (L1 : (N.of_nat (length (a ++ [x00; x00] ++ b)) ≤ 65536)%N) by (rewrite !length_app; simpl; lia).
  assert (L2 : (N.of_nat (length (a ++ [hi8 s; lo8 s] ++ b)) ≤ 65536)%N) by (rewrite !length_app; simpl; lia).
  destruct (checksum_sum _ L1) as [Es B1]. destruct (checksum_sum _ L2) as [-> B2]. fold s in Es.
  assert (Hsum : word_sum (a ++ [hi8 s; lo8 s] ++ b) = (word_sum (a ++ [x00; x00] ++ b) + s)%N).
  { assert (Hw : ∀ p q, word_sum (a ++ [p; q] ++ b) = (word_sum a + (byte_val p * 256 + byte_val q + word_sum b))%N)
      by (intros p q; by rewrite word_sum_app).
    rewrite !Hw, (split_word s Hlt). change (byte_val x00) with 0%N. lia. }
  rewrite Hsum in *. set (t := word_sum (a ++ [x00; x00] ++ b)) in *.
  destruct (fold_carries_spec t B1) as (F1 & M1 & P1). destruct (fold_carries_spec _ B2) as (F2 & M2 & P2).
  assert (Hz : ((t + s) mod 65535 = 0)%N).
  { rewrite N.Div0.add_mod, <- M1, Es, <- N.Div0.add_mod.
    replace (fold_carries 3 t + (65535 - fold_carries 3 t))%N with (1 * 65535)%N by lia. apply N.Div0.mod_mul. }
  assert (Hp : (0 < t + s)%N).
  { destruct (N.eq_0_gt_0_cases t) as [->|]; [|lia]. rewrite Es. simpl. lia. }
  specialize (P2 Hp). rewrite Hz in M2.
  assert (fold_carries 3 (t + s) = 65535)%N as ->; [|done].
  apply N.Div0.mod_divides in M2 as [k Hk]. nia.
Qed.

(** Putting a checksum at [i] of a packet that has zeros there. *)
Lemma checksum_set pkt i :
  Nat.Even i → pkt !! i = Some x00 → pkt !! S i = Some x00 → (N.of_nat (length pkt) ≤ 60000)%N →
  let s := internet_checksum pkt in internet_checksum (<[S i := lo8 s]> (<[i := hi8 s]> pkt)) = 0%N.
Proof.
  intros Hev H0 H1 Hlen s.
  assert (Hpkt : pkt = take i pkt ++ [x00; x00] ++ drop (S (S i)) pkt).
  { rewrite <- (take_drop i pkt) at 1. f_equal. rewrite (drop_S pkt x00 i) by done.
    simpl. f_equal. by rewrite (drop_S pkt x00 (S i)). }
  pose proof (lookup_lt_Some _ _ _ H1) as Hl.
  assert (Hset : <[S i := lo8 s]> (<[i := hi8 s]> pkt) = take i pkt ++ [hi8 s; lo8 s] ++ drop (S (S i)) pkt).
  { rewrite Hpkt at 1. rewrite insert_app_r_alt by (rewrite length_take; lia).
    rewrite insert_app_r_alt by (rewrite length_take; lia). rewrite length_take.
    replace (i - i `min` length pkt) with 0 by lia. by replace (S i - i `min` length pkt) with 1 by lia. }
  rewrite Hset. unfold s. rewrite Hpkt at 2 3. apply checksum_fills.
  - rewrite length_take. by replace (i `min` length pkt) with i by lia.
  - rewrite length_take, length_drop. lia.
Qed.

Lemma be_bytes_2 v : be_bytes 2 v = [byte_of_N (v / 256); byte_of_N v].
Proof. reflexivity. Qed.

Lemma icmp_echo_body_eq source target ident seq :
  icmp_echo_body source target ident seq =
  [x45; x00; x00; x22; x00; x00; x00; x00; x40; x01; x00; x00] ++ octets source ++ octets target
  ++ [x08; x00; x00; x00; byte_of_N (ident / 256); byte_of_N ident; byte_of_N (seq / 256); byte_of_N seq;
      x45; x58; x56; x01; hi8 ident; lo8 ident].
Proof. unfold icmp_echo_body. rewrite !be_bytes_2. reflexivity. Qed.

#[global] Arguments internet_checksum : simpl never.

(** The request after both checksums: what stands around them is as it was put. *)
Lemma icmp_echo_request_eq source target ident seq :
  ∃ c10 c11 c22 c23,
    build_icmp_echo_request source target ident seq =
    [x45; x00; x00; x22; x00; x00; x00; x00; x40; x01; c10; c11] ++ octets source ++ octets target
    ++ [x08; x00; c22; c23; byte_of_N (ident / 256); byte_of_N ident; byte_of_N (seq / 256); byte_of_N seq;
        x45; x58; x56; x01; hi8 ident; lo8 ident].
Proof.
  unfold build_icmp_echo_request. rewrite icmp_echo_body_eq. cbv zeta.
  set (s1 := internet_checksum (take 20 _)). set (s2 := internet_checksum (drop 20 _)).
  exists (hi8 s1), (lo8 s1), (hi8 s2), (lo8 s2). reflexivity.
Qed.

Lemma icmp_echo_request_sums source target ident seq :
  let pkt := build_icmp_echo_request source target ident seq in
  internet_checksum (take 20 pkt) = 0%N ∧ internet_checksum (drop 20 pkt) = 0%N.
Proof.
  unfold build_icmp_echo_request. cbv zeta.
  set (body := icmp_echo_body source target ident seq).
  assert (Hb : body = _) by apply icmp_echo_body_eq.
  set (s1 := internet_checksum (take 20 body)).
  set (pkt := <[11 := lo8 s1]> (<[10 := hi8 s1]> body)). set (s2 := internet_checksum (drop 20 pkt)).
  split.
  - assert (take 20 (<[23 := lo8 s2]> (<[22 := hi8 s2]> pkt)) = <[11 := lo8 s1]> (<[10 := hi8 s1]> (take 20 body))) as ->.
    { rewrite !take_insert_ge by lia. unfold pkt. by rewrite !take_insert_lt by lia. }
    apply checksum_set; rewrite ?Hb; [by exists 5|reflexivity|reflexivity|vm_compute; discriminate].
  - rewrite !drop_insert_ge by lia. apply checksum_set; unfold pkt; rewrite ?Hb; [by exists 1|reflexivity|reflexivity|].
    rewrite length_drop, !length_insert. vm_compute. discriminate.
Qed.

(** A peer's answer to a request: the addresses exchanged, the type changed, and a new
    time to live and new checksums. *)
Definition echo_reply_to (ttl c10 c11 c22 c23 : byte) (request : list byte) : list byte :=
  <[8 := ttl]> (<[10 := c10]> (<[11 := c11]> (<[22 := c22]> (<[23 := c23]> (<[20 := x00]>
    (copy_at 12 (between request 16 20) (copy_at 16 (between request 12 16) request))))))).

(** The probe's ping is a valid packet and its answer is told apart: both checksums of
    a request verify, a peer's answer to it is recognised whatever its time to live and
    checksums, only under its own identifier, and the request itself is not taken for an
    answer; the request is IPv4, so it is encoded and in flight. *)
Theorem ping_round_trip source target ident seq ttl c10 c11 c22 c23 :
  let request := build_icmp_echo_request source target ident seq in
  let reply := echo_reply_to ttl c10 c11 c22 c23 request in
  internet_checksum (take 20 request) = 0%N ∧ internet_checksum (drop 20 request) = 0%N
  ∧ is_icmp_echo_reply reply target source ident = true
  ∧ (∀ ident', is_icmp_echo_reply reply target source ident' = true → (ident' mod 2 ^ 16 = ident mod 2 ^ 16)%N)
  ∧ (∀ t s i, is_icmp_echo_reply request t s i = false)
  ∧ is_ipv4_packet request = true
  ∧ encode (Data request) = encode_raw CSTP_PACKET_TYPE_DATA request
  ∧ is_ok (encode (Data request)) = true.
Proof.
  intros request reply. destruct (icmp_echo_request_sums source target ident seq) as [S1 S2].
  destruct (icmp_echo_request_eq source target ident seq) as (d10 & d11 & d22 & d23 & Hreq). fold request in Hreq, S1, S2.
  assert (Hrep : reply = [x45; x00; x00; x22; x00; x00; x00; x00; ttl; x01; c10; c11] ++ octets target ++ octets source
    ++ [x00; x00; c22; c23; byte_of_N (ident / 256); byte_of_N ident; byte_of_N (seq / 256); byte_of_N seq;
        x45; x58; x56; x01; hi8 ident; lo8 ident]) by (unfold reply; rewrite Hreq; reflexivity).
  assert (Hmatch : ∀ i, is_icmp_echo_reply reply target source i =
            bool_decide ([byte_of_N (ident / 256); byte_of_N ident] = be_bytes 2 i)).
  { intros i. rewrite Hrep. unfold is_icmp_echo_reply, at_, between. cbn -[be_bytes bool_decide octets].
    rewrite !bool_decide_eq_true_2 by done. reflexivity. }
  split_and!; try done.
  - rewrite Hmatch. by apply bool_decide_eq_true_2.
  - intros i. rewrite Hmatch, bool_decide_eq_true, be_bytes_2. intros [= E1 E2].
    apply (f_equal byte_val) in E1, E2. rewrite !byte_val_of_N in E1, E2.
    change (2 ^ 16)%N with (256 * 256)%N. rewrite !N.Div0.mod_mul_r. congruence.
  - intros t s i. rewrite Hreq. unfold is_icmp_echo_reply, at_. cbn -[be_bytes bool_decide octets].
    repeat (case_match; [done|]). done.
Qed.

(** ** The keepalive *)

(** Polling the ticker at successive instants: when it fired. *)
Fixpoint keepalive_run (t : KeepaliveTicker) (nows : list N) : list N :=
  match nows with
  | [] => []
  | now :: nows => let '(t, fired) := due now t in if fired then now :: keepalive_run t nows else keepalive_run t nows
  end.

(** Successive elements at least [d] apart. *)
Fixpoint spaced (d prev : N) (l : list N) : Prop :=
  match l with [] => True | x :: l => (prev + d ≤ x)%N ∧ spaced d x l end.

Lemma keepalive_run_spaced period last nows :
  spaced 0 last nows → spaced period last (keepalive_run (MkKeepaliveTicker period (Some last)) nows).
Proof.
  intros Hm. assert (∀ m, (last ≤ m)%N → spaced 0 m nows →
    spaced period last (keepalive_run (MkKeepaliveTicker period (Some last)) nows)) as H; [|by apply (H last)].
  clear Hm. revert last. induction nows as [|now nows IH]; intros last m Hle Hm; simpl in *; [done|].
  destruct Hm as [Hnow Hm]. unfold due. simpl. destruct (N.leb_spec period (sat_sub now last)) as [Hf|Hf].
  - unfold sat_sub in Hf. split; [lia|]. by apply (IH now now).
  - apply (IH last now); [lia|done].
Qed.

Lemma keepalive_run_fresh period since nows now :
  (0 < period)%N → spaced 0 since (nows ++ [now]) →
  let fired := since :: keepalive_run (MkKeepaliveTicker period (Some since)) (nows ++ [now]) in
  ∃ f, last fired = Some f ∧ (f ≤ now)%N ∧ (now < f + period)%N.
Proof.
  intros Hp. assert (∀ m, (since ≤ m)%N → spaced 0 m (nows ++ [now]) →
    let fired := since :: keepalive_run (MkKeepaliveTicker period (Some since)) (nows ++ [now]) in
    ∃ f, last fired = Some f ∧ (f ≤ now)%N ∧ (now < f + period)%N) as H; [|by apply (H since)].
  revert since. induction nows as [|x nows IH]; intros since m Hle Hm; simpl in *; destruct Hm as [Hx Hm];
    unfold due; simpl.
  - destruct (N.leb_spec period (sat_sub now since)) as [Hf|Hf]; unfold sat_sub in Hf; simpl; eexists; (split; [done|lia]).
  - destruct (N.leb_spec period (sat_sub x since)) as [Hf|Hf].
    + destruct (IH x x (N.le_refl _) Hm) as (f & Hl & Hb). exists f. split; [|done]. by rewrite last_cons, Hl.
    + apply (IH since x); [lia|done].
Qed.

(** Keepalives are paced: over any polling of the ticker with a clock that does not go
    back, successive keepalives are at least a period apart, the first a period after the
    connection, and after every poll the newest keepalive, or the connection, is less than
    a period old, so that the gateway is never left without one for longer than a period
    and the gap between two polls. *)
Theorem keepalive_paced connected_at nows now :
  let period := secs CSTP_KEEPALIVE_INTERVAL_SECS in
  let run := keepalive_run (KeepaliveTicker_new period connected_at) (nows ++ [now]) in
  spaced 0 connected_at (nows ++ [now]) →
  spaced period connected_at run
  ∧ ∃ f, last (connected_at :: run) = Some f ∧ (f ≤ now)%N ∧ (now < f + period)%N.
Proof.
  intros period run Hm. split; [by apply keepalive_run_spaced|].
  by apply keepalive_run_fresh.
Qed.

Lemma keepalive_paced_witness :
  let polls := [secs 7; secs 14; secs 16; secs 30; secs 31; secs 40]%N in
  spaced (secs 15) 0 (keepalive_run (KeepaliveTicker_new (secs 15) 0) polls)
  ∧ keepalive_run (KeepaliveTicker_new (secs 15) 0) polls = [secs 16; secs 31].
Proof.
  split; [|vm_compute; reflexivity].
  refine (proj1 (keepalive_paced 0 [secs 7; secs 14; secs 16; secs 30; secs 31] (secs 40) _)).
  vm_compute. repeat split; discriminate.
Defined.

(** ** The probe *)

(** What the writer thread feeds the probe, and what it gets back: frames to send and a
    latency to record. *)
Inductive ProbeEvent :=
  | P_Tick (now : N) (epoch_secs : option N) (text : option str)
  | P_Response (now : N)
  | P_Packet (pkt : list byte) (now : N).
Definition probe_step (e : ProbeEvent) (p : ProbeState) : ProbeState * list (list byte) * option N :=
  match e with
  | P_Tick now epoch text => (tick now epoch text p, None)
  | P_Response now => let '(p, rtt) := on_dpd_response now p in (p, [], rtt)
  | P_Packet pkt now => let '(p, rtt) := on_icmp_echo_reply pkt now p in (p, [], rtt)
  end.
Fixpoint probe_run (es : list ProbeEvent) (p : ProbeState) : ProbeState * list (list byte) :=
  match es with
  | [] => (p, [])
  | e :: es => let '(p, frames, _) := probe_step e p in let '(p, more) := probe_run es p in (p, frames ++ more)
  end.

Definition is_dpd_frame (f : list byte) : Prop := ∃ epoch, f = build_dpd_request_frame epoch.
Definition is_ping_frame (cfg : LatencyProbeConfig) (f : list byte) : Prop :=
  ∃ ident, (ident < 2 ^ 16)%N ∧ encode (Data (build_icmp_echo_request (lp_source cfg) (lp_target cfg) ident 0)) = Ok f.

(** Requests in flight are the newest ones sent, identifiers are 16 bits, and too many
    timeouts have changed the channel. *)
Record probe_ok (p : ProbeState) : Prop := {
  po_dpd : ∀ t, ps_pending_dpd p = Some t → t = ps_last_dpd_sent p;
  po_ping : ∀ q, ps_pending_ping p = Some q →
    pp_sent_at q = ps_last_ping_sent p ∧ ps_next_ident p = ((pp_ident q + 1) mod 2 ^ 16)%N ∧ (pp_ident q < 2 ^ 16)%N;
  po_ident : (ps_next_ident p < 2 ^ 16)%N;
  po_kind : ps_kind p = Dpd → (ps_dpd_timeouts p < DPD_MAX_TIMEOUTS)%N ∧ lp_dpd_enabled (ps_cfg p) = true;
}.

Lemma probe_ok_new now cfg : probe_ok (ProbeState_new now cfg).
Proof. split; simpl; try done. destruct (lp_dpd_enabled cfg); simpl; [|done]. by intros _. Qed.

Lemma fire_ping_eq now p :
  ∃ frame, fire_ping now p =
    (MkProbeState (ps_cfg p) (ps_kind p) (ps_dpd_timeouts p) (ps_last_dpd_sent p) now (ps_last_marker_check p)
       (ps_last_marker_seen p) (ps_pending_dpd p) (Some (MkPendingPing now (ps_next_ident p)))
       ((ps_next_ident p + 1) mod 2 ^ 16)%N, [frame])
    ∧ encode (Data (build_icmp_echo_request (lp_source (ps_cfg p)) (lp_target (ps_cfg p)) (ps_next_ident p) 0)) = Ok frame.
Proof.
  unfold fire_ping. simpl.
  destruct (icmp_echo_request_eq (lp_source (ps_cfg p)) (lp_target (ps_cfg p)) (ps_next_ident p) 0)
    as (? & ? & ? & ? & ->). eexists. split; reflexivity.
Qed.

(** What one probe leaves: one frame of the current channel. *)
Lemma fire_ok now epoch p :
  probe_ok p →
  probe_ok (fire now epoch p).1 ∧ ps_kind (fire now epoch p).1 = ps_kind p ∧ ps_cfg (fire now epoch p).1 = ps_cfg p
  ∧ ∃ f, (fire now epoch p).2 = [f]
     ∧ match ps_kind p with Dpd => is_dpd_frame f | Ping => is_ping_frame (ps_cfg p) f end.
Proof.
  intros [H1 H2 H3 H4]. unfold fire. destruct (ps_kind p) eqn:Hk.
  - split_and!; [|done..|by eexists; split; [|eexists]]. split; simpl; try done.
    + by intros t [= <-].
    + by rewrite Hk.
  - destruct (fire_ping_eq now p) as (f & -> & Hf). split_and!; [|done..|by exists f; split; [|eexists]].
    split; simpl; try done; [|apply N.mod_lt; done|by rewrite Hk].
    intros q [= <-]. done.
Qed.

Lemma expire_ok now p :
  probe_ok p → probe_ok (expire now p) ∧ ps_cfg (expire now p) = ps_cfg p ∧ (ps_kind p = Ping → ps_kind (expire now p) = Ping).
Proof.
  assert (Hping : ∀ q, probe_ok q → probe_ok (set_pending_ping None q)) by (intros q []; by split).
  intros Hp. unfold expire.
  set (q := match ps_pending_dpd p with Some _ => _ | None => p end).
  assert (Hq : probe_ok q ∧ ps_cfg q = ps_cfg p ∧ (ps_kind p = Ping → ps_kind q = Ping)).
  { unfold q. destruct (ps_pending_dpd p); [|done]. case_match; [|done]. destruct Hp as [H1 H2 H3 H4].
    split_and!; simpl; [|done|intros ->; by case_match]. split; simpl; try done.
    case_match eqn:E; [done|]. apply N.leb_gt in E. intros Hk. by destruct (H4 Hk). }
  clearbody q. destruct Hq as (Hok & Hc & Hk). case_match; [|done]. case_match; [|done]. split_and!; auto.
Qed.

Lemma poll_marker_ok now text p :
  probe_ok p →
  probe_ok (poll_marker now text p).1 ∧ ps_cfg (poll_marker now text p).1 = ps_cfg p
  ∧ ps_kind (poll_marker now text p).1 = ps_kind p.
Proof. intros []. unfold poll_marker. repeat case_match; by split. Qed.

Lemma probe_step_ok e p :
  probe_ok p →
  let '(p', frames, _) := probe_step e p in
  probe_ok p' ∧ ps_cfg p' = ps_cfg p ∧ (ps_kind p = Ping → ps_kind p' = Ping) ∧ length frames ≤ 1
  ∧ Forall (λ f, is_ping_frame (ps_cfg p) f ∨ (ps_kind p = Dpd ∧ is_dpd_frame f)) frames.
Proof.
  intros Hp. destruct e as [now epoch text|now|pkt now]; simpl.
  - unfold tick. destruct (expire_ok now p Hp) as (He & Hc & Hk).
    destruct (poll_marker_ok now text (expire now p) He) as (Hm & Hmc & Hmk).
    destruct (poll_marker now text (expire now p)) as [q asked]. simpl in *.
    destruct (asked || probe_due now q); [|split_and!; simpl; auto; [congruence|by rewrite Hmk]].
    destruct (fire_ok now epoch q Hm) as (Hok & Hfk & Hfc & f & Hf & Hkind).
    destruct (fire now epoch q) as [q' frames]. simpl in *. subst frames.
    split_and!; simpl; try done; [congruence|intros E; rewrite Hfk, Hmk; auto|].
    apply Forall_singleton. rewrite Hmc, Hc in Hkind. destruct (ps_kind q) eqn:Eq; [|by left].
    right. split; [|done]. destruct (ps_kind p); [done|]. specialize (Hk eq_refl). congruence.
  - unfold on_dpd_response. destruct (ps_pending_dpd p); simpl; split_and!; auto; try lia. destruct Hp as [H1 H2 H3 H4].
    split; simpl; try done. intros Hk. by destruct (H4 Hk).
  - unfold on_icmp_echo_reply. destruct (ps_pending_ping p) as [q|] eqn:E; simpl; [|split_and!; auto; lia].
    destruct Hp as [H1 H2 H3 H4]. destruct (is_icmp_echo_reply _ _ _ _); simpl; split_and!; auto; try lia; split; simpl; try done.
    intros q' [= <-]. by apply H2.
Qed.

Lemma probe_run_app es es' p :
  probe_run (es ++ es') p =
  let '(p1, f1) := probe_run es p in let '(p2, f2) := probe_run es' p1 in (p2, f1 ++ f2).
Proof.
  revert p. induction es as [|e es IH]; intros p; simpl; [by destruct (probe_run es' p)|].
  destruct (probe_step e p) as [[q fr] rtt]. rewrite IH. destruct (probe_run es q) as [p1 f1].
  destruct (probe_run es' p1) as [p2 f2]. by rewrite (assoc_L (++)).
Qed.

Lemma probe_run_ok es p :
  probe_ok p →
  probe_ok (probe_run es p).1 ∧ ps_cfg (probe_run es p).1 = ps_cfg p
  ∧ (ps_kind p = Ping → ps_kind (probe_run es p).1 = Ping)
  ∧ length (probe_run es p).2 ≤ length es
  ∧ Forall (λ f, is_ping_frame (ps_cfg p) f ∨ (ps_kind p = Dpd ∧ is_dpd_frame f)) (probe_run es p).2.
Proof.
  revert p. induction es as [|e es IH]; intros p Hp; simpl; [split_and!; auto|].
  pose proof (probe_step_ok e p Hp) as Hstep. destruct (probe_step e p) as [[q fr] rtt].
  destruct Hstep as (Hq & Hc & Hk & Hl & Hfr). destruct (IH q Hq) as (Hr & Hrc & Hrk & Hrl & Hrf).
  destruct (probe_run es q) as [r more]. simpl in *. split_and!; auto; [congruence|rewrite length_app; lia|].
  apply Forall_app. split; [done|]. eapply Forall_impl; [exact Hrf|]. intros f. rewrite Hc.
  intros [?|[Hd ?]]; [by left|]. destruct (ps_kind p); [by right|]. by rewrite Hk in Hd.
Qed.

(** The probe gives up on a gateway that does not answer and never goes back: in every
    run each step sends at most one frame and every frame is a DPD request or a ping from
    the tunnel address to the target; without DPD only pings are sent; once the channel
    is ping it stays so and no DPD request is sent again, whatever arrives; and the third
    timeout in a row changes the channel, at the tick that finds it. *)
Theorem probe_falls_back now0 cfg es now epoch text es' :
  let '(p, sent) := probe_run es (ProbeState_new now0 cfg) in
  length sent ≤ length es
  ∧ Forall (λ f, is_ping_frame cfg f ∨ (lp_dpd_enabled cfg = true ∧ is_dpd_frame f)) sent
  ∧ (ps_kind p = Ping ∨ (∃ t, ps_pending_dpd p = Some t ∧ (t + DPD_PROBE_TIMEOUT ≤ now)%N ∧ ps_dpd_timeouts p = 2%N) →
     Forall (is_ping_frame cfg) (probe_run (P_Tick now epoch text :: es') p).2
     ∧ ps_kind (probe_run (P_Tick now epoch text :: es') p).1 = Ping).
Proof.
  pose proof (probe_run_ok es _ (probe_ok_new now0 cfg)) as (Hp & Hc & _ & Hl & Hf).
  destruct (probe_run es (ProbeState_new now0 cfg)) as [p sent]. simpl fst in *. simpl snd in *.
  change (ps_cfg (ProbeState_new now0 cfg)) with cfg in *. split_and!; [done| |].
  - eapply Forall_impl; [exact Hf|]. intros f [?|[Hk ?]]; [by left|]. right. split; [|done].
    simpl in Hk. by destruct (lp_dpd_enabled cfg).
  - intros Hping.
    assert (Hex : ps_kind (expire now p) = Ping).
    { destruct (expire_ok now p Hp) as (_ & _ & Hk). destruct Hping as [?|(t & Hpend & Hle & Hto)]; [auto|].
      unfold expire. rewrite Hpend. unfold sat_sub. destruct (N.leb_spec DPD_PROBE_TIMEOUT (now - t)); [|unfold DPD_PROBE_TIMEOUT in *; lia].
      rewrite Hto. simpl. by repeat case_match. }
    destruct (expire_ok now p Hp) as (He & Hec & _).
    destruct (poll_marker_ok now text _ He) as (Hm & Hmc & Hmk).
    simpl. unfold tick. destruct (poll_marker now text (expire now p)) as [q asked]. simpl in *.
    assert (Hq : ps_kind q = Ping) by congruence. assert (Hqc : ps_cfg q = cfg) by congruence.
    assert (Hrest : ∀ r, probe_ok r → ps_kind r = Ping → ps_cfg r = cfg →
              Forall (is_ping_frame cfg) (probe_run es' r).2 ∧ ps_kind (probe_run es' r).1 = Ping).
    { intros r Hr Hk Hcr. destruct (probe_run_ok es' r Hr) as (_ & _ & Hrk & _ & Hrf). split; [|auto].
      eapply Forall_impl; [exact Hrf|]. rewrite Hcr, Hk. intros f [?|[? _]]; done. }
    destruct (asked || probe_due now q).
    + destruct (fire_ok now epoch q Hm) as (Hok & Hfk & Hfc & f & Hfr & Hkind).
      destruct (fire now epoch q) as [q' frames]. simpl in *. subst frames. rewrite Hq, Hqc in Hkind.
      destruct (Hrest q') as [Hfs Hks]; [done|congruence|congruence|].
      destruct (probe_run es' q'). simpl in *. split; [by constructor|done].
    + destruct (Hrest q) as [Hfs Hks]; [done..|]. by destruct (probe_run es' q).
Qed.

(** Each unknown kind is warned about once. *)
Definition warned (a : EventAction) : option byte := match a with WarnUnknownKind k => Some k | _ => None end.
Fixpoint actions_of (events : list CstpControlEvent) (seen : list byte) : list EventAction :=
  match events with
  | [] => []
  | e :: events => let '(a, seen) := control_event_action e seen in a :: actions_of events seen
  end.
Lemma warned_once events seen :
  NoDup (omap warned (actions_of events seen)) ∧ ∀ k, k ∈ omap warned (actions_of events seen) → k ∉ seen.
Proof.
  revert seen. induction events as [|e events IH]; intros seen; simpl; [split; [constructor|set_solver]|].
  unfold control_event_action. repeat case_match; simplify_eq/=; try apply IH.
  destruct (IH (seen ++ [kind])) as [Hnd Hfresh]. split.
  - constructor; [|done]. intros Hin. apply (Hfresh _ Hin). set_solver.
  - match goal with H : bool_decide (_ ∈ _) = false |- _ => apply bool_decide_eq_false in H end.
    intros k [->|Hk]%elem_of_cons; [done|]. intros Hs. apply (Hfresh _ Hk). set_solver.
Qed.
