(* ===== verification/EnginePlane.v ===== *)
(** * The data-plane threads of the Windows engine

    The threads of [data_plane.rs] of the Windows engine crate: the reader that carries
    packets from the ring to the gateway, the writer that carries them back and keeps the
    session alive, the guard both share to report a loss, and the owner's handle.

    One turn of a thread's loop is a function of what the environment answers in it: the
    packets read, the events received, whether a send was accepted. The threads, the owner
    and whoever publishes statuses interleave by [plane_step]; a report is two steps, the
    claim under the operation lock and its effects after it. A lock poisoned by a panic
    is not modelled, a thread that panics is. *)

From Stdlib Require Import NArith ZArith Strings.Byte Lia.
From S2P Require Import Prelude Text Model CstpCodec Session Channel EngineStatus EngineLog EngineProbe.

(** A text literal that is not ASCII. *)
Definition utext (s : string) : str := default [] (from_utf8 (String.list_byte_of_string s)).

(** A call of [LogSink::emit]. *)
Record LogCall := MkLogCall { lc_level : LogLevel; lc_component : str; lc_code : str; lc_message : str; lc_fields : list (str * str) }.

(** What the threads share: the flags, the operation the session serves, the counters, the
    endpoints that are wired, and what went out to the gateway and to the ring. *)
Record Shared := MkShared {
  sh_activated : bool;
  sh_reader_stop : bool;
  sh_writer_stop : bool;
  sh_reported : bool;
  sh_operation : list byte;
  sh_ring_received : N;
  sh_ring_sent : N;
  sh_stats : option StatsRegistry;
  sh_status : option StatusPublisher;
  sh_notified : option nat;
  sh_log : option (list LogCall);
  sh_frames : list (list byte);
  sh_ring : list (list byte);
}.
Definition set_activated b (s : Shared) : Shared :=
  MkShared b (sh_reader_stop s) (sh_writer_stop s) (sh_reported s) (sh_operation s) (sh_ring_received s) (sh_ring_sent s)
    (sh_stats s) (sh_status s) (sh_notified s) (sh_log s) (sh_frames s) (sh_ring s).
Definition set_reader_stop (s : Shared) : Shared :=
  MkShared (sh_activated s) true (sh_writer_stop s) (sh_reported s) (sh_operation s) (sh_ring_received s) (sh_ring_sent s)
    (sh_stats s) (sh_status s) (sh_notified s) (sh_log s) (sh_frames s) (sh_ring s).
Definition set_writer_stop (s : Shared) : Shared :=
  MkShared (sh_activated s) (sh_reader_stop s) true (sh_reported s) (sh_operation s) (sh_ring_received s) (sh_ring_sent s)
    (sh_stats s) (sh_status s) (sh_notified s) (sh_log s) (sh_frames s) (sh_ring s).
Definition set_reported (s : Shared) : Shared :=
  MkShared (sh_activated s) (sh_reader_stop s) (sh_writer_stop s) true (sh_operation s) (sh_ring_received s) (sh_ring_sent s)
    (sh_stats s) (sh_status s) (sh_notified s) (sh_log s) (sh_frames s) (sh_ring s).
Definition set_operation op (s : Shared) : Shared :=
  MkShared (sh_activated s) (sh_reader_stop s) (sh_writer_stop s) (sh_reported s) op (sh_ring_received s) (sh_ring_sent s)
    (sh_stats s) (sh_status s) (sh_notified s) (sh_log s) (sh_frames s) (sh_ring s).
Definition on_stats f (s : Shared) : Shared :=
  MkShared (sh_activated s) (sh_reader_stop s) (sh_writer_stop s) (sh_reported s) (sh_operation s) (sh_ring_received s)
    (sh_ring_sent s) (f <$> sh_stats s) (sh_status s) (sh_notified s) (sh_log s) (sh_frames s) (sh_ring s).
Definition on_status f (s : Shared) : Shared :=
  MkShared (sh_activated s) (sh_reader_stop s) (sh_writer_stop s) (sh_reported s) (sh_operation s) (sh_ring_received s)
    (sh_ring_sent s) (sh_stats s) (f <$> sh_status s) (sh_notified s) (sh_log s) (sh_frames s) (sh_ring s).
Definition notify (s : Shared) : Shared :=
  MkShared (sh_activated s) (sh_reader_stop s) (sh_writer_stop s) (sh_reported s) (sh_operation s) (sh_ring_received s)
    (sh_ring_sent s) (sh_stats s) (sh_status s) (S <$> sh_notified s) (sh_log s) (sh_frames s) (sh_ring s).
Definition log (c : LogCall) (s : Shared) : Shared :=
  MkShared (sh_activated s) (sh_reader_stop s) (sh_writer_stop s) (sh_reported s) (sh_operation s) (sh_ring_received s)
    (sh_ring_sent s) (sh_stats s) (sh_status s) (sh_notified s) ((λ l, l ++ [c]) <$> sh_log s) (sh_frames s) (sh_ring s).
Definition push_frame f (s : Shared) : Shared :=
  MkShared (sh_activated s) (sh_reader_stop s) (sh_writer_stop s) (sh_reported s) (sh_operation s) (sh_ring_received s)
    (sh_ring_sent s) (sh_stats s) (sh_status s) (sh_notified s) (sh_log s) (sh_frames s ++ [f]) (sh_ring s).
Definition push_ring p (s : Shared) : Shared :=
  MkShared (sh_activated s) (sh_reader_stop s) (sh_writer_stop s) (sh_reported s) (sh_operation s) (sh_ring_received s)
    (sh_ring_sent s) (sh_stats s) (sh_status s) (sh_notified s) (sh_log s) (sh_frames s) (sh_ring s ++ [p]).

(** win32-engine/data_plane.rs:145-150 [count_reader_upload] *)
Definition count_reader_upload (len : N) (s : Shared) : Shared :=
  on_stats (record_tx len)
    (MkShared (sh_activated s) (sh_reader_stop s) (sh_writer_stop s) (sh_reported s) (sh_operation s)
       (add64 (sh_ring_received s) len) (sh_ring_sent s) (sh_stats s) (sh_status s) (sh_notified s) (sh_log s)
       (sh_frames s) (sh_ring s)).
(** win32-engine/data_plane.rs:153-158 [count_writer_download] *)
Definition count_writer_download (len : N) (s : Shared) : Shared :=
  on_stats (record_rx len)
    (MkShared (sh_activated s) (sh_reader_stop s) (sh_writer_stop s) (sh_reported s) (sh_operation s)
       (sh_ring_received s) (add64 (sh_ring_sent s) len) (sh_stats s) (sh_status s) (sh_notified s) (sh_log s)
       (sh_frames s) (sh_ring s)).

(** ** Reporting a loss *)

Inductive Which := Reader | Writer.
#[export] Instance Which_eq_dec : EqDecision Which. Proof. solve_decision. Defined.
Definition stop_of (w : Which) (s : Shared) : bool :=
  match w with Reader => sh_reader_stop s | Writer => sh_writer_stop s end.
(** win32-engine/data_plane.rs:853-858 [EngineDataPlane::spawn_data_plane]: the names of the workers. *)
Definition worker_name (w : Which) : str := lit match w with Reader => "wintun_reader" | Writer => "wintun_writer" end.

(** win32-engine/data_plane.rs:79-83 [DataPlaneWorkerGuard::report]: under the lock of the
    operation, the first worker that finds a loss claims it. *)
Definition claim (w : Which) (s : Shared) : Shared * option (list byte) :=
  if stop_of w s || sh_reported s then (s, None) else (set_reported s, Some (sh_operation s)).

(** win32-engine/data_plane.rs:1287-1301 [data_plane_drop_error] *)
Definition data_plane_drop_error : WireVpnError :=
  MkWireVpnError 13 12 0 2 None None (Some (MkWireNativeError 2 1 0)).

(** A loss that was found: by whom, how, with what code and why the session ended. *)
Record Loss := MkLoss {
  ls_worker : Which;
  ls_trigger : str;
  ls_native_code : option N;
  ls_reason : option SessionEndReason;
}.

Section Plane.
Context (kind_debug : N → str) (uuid_text : list byte → option str) (broken_pipe : IoFailure).

(** win32-engine/data_plane.rs:1347-1408 [on_read_channel_closed] *)
Definition on_read_channel_closed (wall : option N) (operation_id : list byte) (reason : option SessionEndReason)
    (s : Shared) : Shared :=
  let message := match reason with
                 | Some reason => lit "CSTP read channel closed (TLS task exited; reason="
                                  ++ session_end_reason_label kind_debug reason ++ lit ")"
                 | None => lit "CSTP read channel closed (TLS task exited)"
                 end in
  let s := log (MkLogCall L_Warn (lit "engine") (lit "tunnel.dataplane.read-channel-closed") message
                  (closed_fields kind_debug uuid_text wall operation_id reason)) s in
  let s := on_stats (set_phase Ph_Failed) s in
  on_status (publish (status_failed operation_id (Some StartingDataPlane) data_plane_drop_error)) s.

(** win32-engine/data_plane.rs:556-584 [log_data_plane_lifecycle] *)
Definition log_data_plane_lifecycle (wall : option N) (operation_id : list byte) (code outcome : str)
    (reason : option SessionEndReason) (s : Shared) : Shared :=
  log (MkLogCall L_Debug (lit "engine") code (utext "数据面生命周期观察点") (lifecycle_fields kind_debug uuid_text wall operation_id outcome reason)) s.

(** win32-engine/data_plane.rs:1312-1331 [on_data_plane_lost] *)
Definition on_data_plane_lost (wall : option N) (operation_id : list byte) (reason : option SessionEndReason)
    (s : Shared) : Shared :=
  let s := log_data_plane_lifecycle wall operation_id (lit "tunnel.dataplane.loss-observed")
             (lit "before_cleanup_notification") reason s in
  on_read_channel_closed wall operation_id reason (notify s).

(** win32-engine/data_plane.rs:84-93 [DataPlaneWorkerGuard::report]: after the claim. *)
Definition announce (wall : option N) (operation_id : list byte) (l : Loss) (s : Shared) : Shared :=
  let s := log (MkLogCall L_Warn (lit "dataplane") (lit "tunnel.dataplane.worker-failed")
                  (utext "数据面工作线程终止，当前会话已不可用")
                  [(lit "worker", worker_name (ls_worker l)); (lit "trigger", ls_trigger l);
                   (lit "operation_id", default [] (uuid_text operation_id));
                   (lit "native_code", match ls_native_code l with Some c => to_dec c | None => [] end)]) s in
  on_data_plane_lost wall operation_id (ls_reason l) s.

(** win32-engine/data_plane.rs:97-99 [DataPlaneWorkerGuard::drop] *)
Definition drop_loss (w : Which) (panicking : bool) : Loss :=
  MkLoss w (lit (if panicking then "worker_panic" else "unexpected_exit")) None None.

(** ** The reader *)

(** What the reader meets in a turn: the wait fails with a code, or the ring is drained:
    packets, each with whether the channel to the gateway would take its frame, until the
    ring is empty or fails. *)
Inductive ReaderTurn :=
  | R_WaitFailed (code : N)
  | R_Drained (packets : list (list byte * bool)) (failure : option N).

(** win32-engine/data_plane.rs:882-922 [EngineDataPlane::spawn_data_plane]: the inner loop;
    the second component says whether the ring was reached to its end. *)
Fixpoint drain_ring (packets : list (list byte * bool)) (s : Shared) : Shared * bool :=
  match packets with
  | [] => (s, true)
  | (pkt, accepted) :: packets =>
      let s := count_reader_upload (N.of_nat (length pkt)) s in
      if is_ipv4_packet pkt then
        match encode (Data pkt) with
        | Err _ => drain_ring packets s
        | Ok frame => if accepted then drain_ring packets (push_frame frame s) else (s, false)
        end
      else drain_ring packets s
  end.

(** win32-engine/data_plane.rs:869-924 [EngineDataPlane::spawn_data_plane]: a turn of the
    reader, and the loss it reports when it leaves the loop. *)
Definition reader_turn (t : ReaderTurn) (s : Shared) : Shared * option Loss :=
  match t with
  | R_WaitFailed code => (s, Some (MkLoss Reader (lit "wintun_wait_failed") (Some code) None))
  | R_Drained packets failure =>
      let '(s, through) := drain_ring packets s in
      match (if through then failure else None) with
      | Some code => (s, Some (MkLoss Reader (lit "wintun_receive_failed") (Some code) None))
      | None => (s, None)
      end
  end.

(** ** The writer *)

(** win32-engine/data_plane.rs:943-960 [EngineDataPlane::spawn_data_plane]: the writer's own state. *)
Record WriterState := MkWriterState {
  w_probe : option ProbeState;
  w_keepalive : KeepaliveTicker;
  w_seen : list byte;
  w_session_end : option SessionEndReason;
  w_diag : DataPlaneDiagnostics;
}.
(** win32-engine/data_plane.rs:943-960 [EngineDataPlane::spawn_data_plane] *)
Definition writer_new (now : N) (latency : option LatencyProbeConfig) : WriterState :=
  MkWriterState (ProbeState_new now <$> latency) (KeepaliveTicker_new (secs CSTP_KEEPALIVE_INTERVAL_SECS) now) [] None
    (DataPlaneDiagnostics_new now).

Definition set_probe o (w : WriterState) : WriterState :=
  MkWriterState o (w_keepalive w) (w_seen w) (w_session_end w) (w_diag w).
Definition set_diag d (w : WriterState) : WriterState :=
  MkWriterState (w_probe w) (w_keepalive w) (w_seen w) (w_session_end w) d.
(** [Option::get_or_insert] of the stashed reason. *)
Definition stash (reason : SessionEndReason) (w : WriterState) : WriterState :=
  MkWriterState (w_probe w) (w_keepalive w) (w_seen w) (Some (default reason (w_session_end w))) (w_diag w).
Definition with_counters (d : DataPlaneDiagnostics) (last_summary keepalive reply failures : N) : DataPlaneDiagnostics :=
  MkDataPlaneDiagnostics (dg_started d) last_summary (wrap64 (dg_keepalive_queued d + keepalive))
    (wrap64 (dg_dpd_reply_queued d + reply)) (dg_keepalive_received d) (dg_dpd_requests_received d)
    (dg_dpd_responses_received d) (wrap64 (dg_control_queue_failures d + failures)) (dg_read d) (dg_write d).

(** win32-engine/data_plane.rs:635-714 [DataPlaneDiagnostics::emit] *)
Definition emit_summary (now : N) (wall : option N) (trigger : str) (operation_id : list byte)
    (w : WriterState) (s : Shared) : WriterState * Shared :=
  let d := with_counters (w_diag w) now 0 0 0 in
  let level := if bool_decide (trigger = lit "periodic") then L_Debug else L_Info in
  (set_diag d w,
   log (MkLogCall level (lit "engine") (lit "tunnel.dataplane.session-summary")
          (lit "CSTP session counters and sampled TLS activity (write completion is not peer acknowledgement)")
          (summary_fields uuid_text (as_millis now) (as_millis (dg_started d)) wall operation_id trigger d)) s).

(** What the writer meets in a turn. *)
Inductive Received := R_Packet (pkt : list byte) (sent : option N) | R_Empty | R_Closed (last : list CstpControlEvent).
Record WriterTurn := MkWriterTurn {
  wt_now : N;
  wt_wall : option N;
  wt_operation : list byte;
  (** the control events waiting, each with whether a reply to it would be accepted;
      none when the control channel is not wired *)
  wt_events : option (list (CstpControlEvent * bool));
  wt_closed : bool;
  wt_keepalive_accepted : bool;
  wt_probe_accepted : bool;
  wt_marker : option str;
  (** a packet with the error code its way into the ring ended with, none if it got there *)
  wt_received : Received;
}.

(** win32-engine/data_plane.rs:533-553 [log_write_failure] *)
Definition log_write_failure (wall : option N) (operation_id : list byte) (error : SessionIoError) (s : Shared) : Shared :=
  log (MkLogCall L_Warn (lit "engine") (lit "tunnel.dataplane.tls-write-failed")
         (lit "CSTP TLS write_all failed; queued frames are not confirmed written")
         (write_failure_fields kind_debug uuid_text wall operation_id error)) s.

(** win32-engine/data_plane.rs:969-1014 [EngineDataPlane::spawn_data_plane]: one control event. *)
Definition writer_event (t : WriterTurn) (event : CstpControlEvent) (accepted : bool) (w : WriterState) (s : Shared)
    : WriterState * Shared :=
  let w := set_diag (observe event (w_diag w)) w in
  let '(w, s) := match event with
                 | WriteFailed error =>
                     emit_summary (wt_now t) (wt_wall t) (lit "tls-write-failed") (wt_operation t) w
                       (log_write_failure (wt_wall t) (wt_operation t) error s)
                 | _ => (w, s)
                 end in
  let '(action, seen) := control_event_action event (w_seen w) in
  let w := MkWriterState (w_probe w) (w_keepalive w) seen (w_session_end w) (w_diag w) in
  match action with
  | ProbeRtt =>
      match w_probe w, sh_stats s with
      | Some probe, Some _ =>
          let '(probe, rtt) := on_dpd_response (wt_now t) probe in
          (set_probe (Some probe) w, match rtt with Some rtt => on_stats (record_latency rtt) s | None => s end)
      | _, _ => (w, s)
      end
  | ReplyDpd =>
      if accepted then (set_diag (with_counters (w_diag w) (dg_last_summary (w_diag w)) 0 1 0) w, push_frame build_dpd_response_frame s)
      else (set_diag (with_counters (w_diag w) (dg_last_summary (w_diag w)) 0 0 1) w, s)
  | Ignore => (w, s)
  | WarnUnknownKind kind =>
      (w, log (MkLogCall L_Warn (lit "engine") (lit "tunnel.dataplane.unknown-control")
                 (lit "unknown CSTP control frame ignored (once per kind)") [(lit "kind", hex_prefixed kind)]) s)
  | StashSessionEnd reason => (stash reason w, s)
  end.
(** win32-engine/data_plane.rs:966-1017 [EngineDataPlane::spawn_data_plane]: all that wait. *)
Fixpoint writer_events (t : WriterTurn) (events : list (CstpControlEvent * bool)) (w : WriterState) (s : Shared)
    : WriterState * Shared :=
  match events with
  | [] => (w, s)
  | (event, accepted) :: events => let '(w, s) := writer_event t event accepted w s in writer_events t events w s
  end.

(** win32-engine/data_plane.rs:1030-1039 [EngineDataPlane::spawn_data_plane]: the keepalive. *)
Definition writer_keepalive (t : WriterTurn) (w : WriterState) (s : Shared) : WriterState * Shared :=
  let '(k, fired) := due (wt_now t) (w_keepalive w) in
  let w := MkWriterState (w_probe w) k (w_seen w) (w_session_end w) (w_diag w) in
  if fired then
    if wt_keepalive_accepted t
    then (set_diag (with_counters (w_diag w) (dg_last_summary (w_diag w)) 1 0 0) w, push_frame keepalive_frame s)
    else (set_diag (with_counters (w_diag w) (dg_last_summary (w_diag w)) 0 0 1) w, s)
  else (w, s).

(** win32-engine/data_plane.rs:1041-1049 [EngineDataPlane::spawn_data_plane]: the probe. *)
Definition writer_probe (t : WriterTurn) (w : WriterState) (s : Shared) : WriterState * Shared :=
  match w_probe w with
  | None => (w, s)
  | Some probe =>
      let '(probe, frames) := tick (wt_now t) ((λ ms, ms / 1000)%N <$> wt_wall t) (wt_marker t) probe in
      let w := set_probe (Some probe) w in
      if wt_probe_accepted t then (w, foldl (λ s f, push_frame f s) s frames)
      else (set_diag (with_counters (w_diag w) (dg_last_summary (w_diag w)) 0 0 (N.of_nat (length frames))) w, s)
  end.

(** win32-engine/data_plane.rs:1050-1052 [EngineDataPlane::spawn_data_plane]: the periodic summary. *)
Definition writer_summary (t : WriterTurn) (w : WriterState) (s : Shared) : WriterState * Shared :=
  if (secs 30 <=? sat_sub (wt_now t) (dg_last_summary (w_diag w)))%N
  then emit_summary (wt_now t) (wt_wall t) (lit "periodic") (wt_operation t) w s
  else (w, s).

(** win32-engine/data_plane.rs:1068-1081 [EngineDataPlane::spawn_data_plane]: the events that
    came before the channel closed. *)
Fixpoint last_events (t : WriterTurn) (events : list CstpControlEvent) (w : WriterState) (s : Shared)
    : WriterState * Shared :=
  match events with
  | [] => (w, s)
  | event :: events =>
      let w := set_diag (observe event (w_diag w)) w in
      match event with
      | SessionEnded reason => last_events t events (stash reason w) s
      | WriteFailed error => last_events t events w (log_write_failure (wt_wall t) (wt_operation t) error s)
      | _ => last_events t events w s
      end
  end.

(** win32-engine/data_plane.rs:1087-1111 [EngineDataPlane::spawn_data_plane]: a packet. *)
Definition writer_packet (t : WriterTurn) (pkt : list byte) (sent : option N) (w : WriterState) (s : Shared)
    : WriterState * Shared * option Loss :=
  let '(w, s) := match w_probe w, sh_stats s with
                 | Some probe, Some _ =>
                     let '(probe, rtt) := on_icmp_echo_reply pkt (wt_now t) probe in
                     (set_probe (Some probe) w, match rtt with Some rtt => on_stats (record_latency rtt) s | None => s end)
                 | _, _ => (w, s)
                 end in
  match sent with
  | None => (w, count_writer_download (N.of_nat (length pkt)) (push_ring pkt s), None)
  | Some code =>
      if (code =? 111)%N then (w, s, None)
      else (w, s, Some (MkLoss Writer (lit "wintun_send_failed") (Some code) None))
  end.

(** win32-engine/data_plane.rs:963-1112 [EngineDataPlane::spawn_data_plane]: a turn of the
    writer, and the loss it reports when it leaves the loop. *)
Definition writer_turn (t : WriterTurn) (w : WriterState) (s : Shared) : WriterState * Shared * option Loss :=
  let '(w, s) := match wt_events t with Some events => writer_events t events w s | None => (w, s) end in
  let w := match w_session_end w with
           | None => if wt_closed t
                     then stash (End_Io (session_io_error_new (default 0%N (wt_wall t)) Dir_Write broken_pipe)) w
                     else w
           | Some _ => w
           end in
  match w_session_end w with
  | Some _ => (w, s, Some (MkLoss Writer (lit "session_terminated") None (w_session_end w)))
  | None =>
      let '(w, s) := writer_keepalive t w s in
      let '(w, s) := writer_probe t w s in
      let '(w, s) := writer_summary t w s in
      match wt_received t with
      | R_Empty => (w, s, None)
      | R_Closed events =>
          let '(w, s) := match wt_events t with Some _ => last_events t events w s | None => (w, s) end in
          (w, s, Some (MkLoss Writer (lit "read_channel_closed") None (w_session_end w)))
      | R_Packet pkt sent => writer_packet t pkt sent w s
      end
  end.

(** win32-engine/data_plane.rs:1113-1121 [EngineDataPlane::spawn_data_plane]: what the writer
    logs when it has left its loop. *)
Definition writer_exit (now : N) (wall : option N) (operation_id : list byte) (w : WriterState) (l : option Loss)
    (s : Shared) : Shared :=
  let s := log_data_plane_lifecycle wall operation_id (lit "tunnel.dataplane.writer-exit")
             match l with Some l => ls_trigger l | None => lit "stop_requested" end (w_session_end w) s in
  (emit_summary now wall (lit "writer-exit") operation_id w s).2.

(** ** The threads and their owner *)

(** Where a worker is: before its activation, in its loop, with a loss found, with a loss
    claimed and still to be announced, out of the loop with its guard still there, or
    finished. [exit] is what the thread still has to log on its way out. *)
Inductive Phase (L : Type) :=
  | Waiting
  | Running (l : L)
  | Found (l : L) (loss : Loss)
  | Claimed (operation_id : list byte) (loss : Loss) (next : option (option (L * option Loss)))
  | Leaving (panicking : bool) (exit : option (L * option Loss))
  | Gone.
Arguments Waiting {L}.
Arguments Running {L} _.
Arguments Found {L} _ _.
Arguments Claimed {L} _ _ _.
Arguments Leaving {L} _ _.
Arguments Gone {L}.
Definition next_phase {L} (next : option (option (L * option Loss))) : Phase L :=
  match next with Some exit => Leaving false exit | None => Gone end.

(** win32-engine/data_plane.rs:97-99 [DataPlaneWorkerGuard::drop] and
    win32-engine/data_plane.rs:1241-1247 [wait_for_data_plane_activation]: the steps of a
    worker with the turns [turn], the starting states [start] and the parting words
    [farewell]. The label is the loss claimed by the step. *)
Inductive worker_step {L} (w : Which) (start : L → Prop) (turn : L → Shared → L → Shared → option Loss → Prop)
    (farewell : option (L * option Loss) → Shared → Shared → Prop)
    : Phase L * Shared → option (list byte) → Phase L * Shared → Prop :=
  | ws_start l s :
      sh_activated s = true → stop_of w s = false → start l →
      worker_step w start turn farewell (Waiting, s) None (Running l, s)
  | ws_cancel s :
      stop_of w s = true → worker_step w start turn farewell (Waiting, s) None (Leaving false None, s)
  | ws_turn l s l' s' :
      stop_of w s = false → turn l s l' s' None →
      worker_step w start turn farewell (Running l, s) None (Running l', s')
  | ws_lost l s l' s' loss :
      stop_of w s = false → turn l s l' s' (Some loss) →
      worker_step w start turn farewell (Running l, s) None (Found l' loss, s')
  | ws_stop l s :
      stop_of w s = true →
      worker_step w start turn farewell (Running l, s) None (Leaving false (Some (l, None)), s)
  | ws_panic l s :
      worker_step w start turn farewell (Running l, s) None (Leaving true None, s)
  | ws_report l loss s :
      worker_step w start turn farewell (Found l loss, s) (claim w s).2
        (match (claim w s).2 with
         | Some op => Claimed op loss (Some (Some (l, Some loss)))
         | None => Leaving false (Some (l, Some loss))
         end, (claim w s).1)
  | ws_announce op loss next wall s :
      worker_step w start turn farewell (Claimed op loss next, s) None (next_phase next, announce wall op loss s)
  | ws_drop panicking exit s s' :
      farewell exit s s' →
      worker_step w start turn farewell (Leaving panicking exit, s) (claim w s').2
        (match (claim w s').2 with
         | Some op => Claimed op (drop_loss w panicking) None
         | None => Gone
         end, (claim w s').1).

(** win32-engine/data_plane.rs:866-925 [EngineDataPlane::spawn_data_plane]: the reader thread. *)
Definition reader_step : Phase () * Shared → option (list byte) → Phase () * Shared → Prop :=
  worker_step Reader (λ _, True) (λ _ s _ s' loss, ∃ t, reader_turn t s = (s', loss)) (λ _ s s', s' = s).
(** win32-engine/data_plane.rs:939-1121 [EngineDataPlane::spawn_data_plane]: the writer thread. *)
Definition writer_step : Phase WriterState * Shared → option (list byte) → Phase WriterState * Shared → Prop :=
  worker_step Writer (λ w, ∃ now latency, w = writer_new now latency)
    (λ w s w' s' loss, ∃ t, writer_turn t w s = (w', s', loss))
    (λ exit s s', match exit with
                  | Some (w, l) => ∃ now wall op, s' = writer_exit now wall op w l s
                  | None => s' = s
                  end).

(** win32-engine/data_plane.rs:1203-1216 [EngineDataPlaneThreads::stop_and_join]: how far the
    owner is; [O_Released] is after the session was let go. *)
Inductive Owner := O_Live | O_StopReader | O_StopBoth | O_JoinedReader | O_Joined | O_Released.
Definition owner_rank (o : Owner) : nat :=
  match o with O_Live => 0 | O_StopReader => 1 | O_StopBoth => 2 | O_JoinedReader => 3 | O_Joined => 4 | O_Released => 5 end.

(** win32-engine/data_plane.rs:1144-1160 [EngineDataPlaneThreads], with the losses claimed so far. *)
Record Plane := MkPlane {
  pl_shared : Shared;
  pl_reader : Phase ();
  pl_writer : Phase WriterState;
  pl_owner : Owner;
  pl_losses : list (list byte);
}.

Definition is_gone {L} (p : Phase L) : bool := match p with Gone => true | _ => false end.
(** win32-engine/data_plane.rs:1169-1175 [EngineDataPlaneThreads::is_alive] *)
Definition is_alive (p : Plane) : bool :=
  negb (sh_reported (pl_shared p)) && negb (sh_reader_stop (pl_shared p)) && negb (sh_writer_stop (pl_shared p))
  && negb (is_gone (pl_reader p)) && negb (is_gone (pl_writer p)).
(** win32-engine/data_plane.rs:1178-1188 [EngineDataPlaneThreads::rebind_operation_with] *)
Definition rebind_operation (op : list byte) (p : Plane) : Plane * bool :=
  if is_alive p
  then (MkPlane (set_operation op (pl_shared p)) (pl_reader p) (pl_writer p) (pl_owner p) (pl_losses p), true)
  else (p, false).
(** win32-engine/data_plane.rs:1164-1166 [EngineDataPlaneThreads::activate] *)
Definition activate (p : Plane) : Plane :=
  MkPlane (set_activated true (pl_shared p)) (pl_reader p) (pl_writer p) (pl_owner p) (pl_losses p).

(** win32-engine/data_plane.rs:1203-1216 [EngineDataPlaneThreads::stop_and_join] and
    win32-engine/data_plane.rs:1249-1261 [EngineDataPlaneThreads::drop]: the owner's next
    step; a join waits for its thread. *)
Definition owner_next (p : Plane) : option Plane :=
  let move s o := Some (MkPlane s (pl_reader p) (pl_writer p) o (pl_losses p)) in
  match pl_owner p with
  | O_Live => move (set_reader_stop (pl_shared p)) O_StopReader
  | O_StopReader => move (set_writer_stop (pl_shared p)) O_StopBoth
  | O_StopBoth => if is_gone (pl_reader p) then move (pl_shared p) O_JoinedReader else None
  | O_JoinedReader => if is_gone (pl_writer p) then move (pl_shared p) O_Joined else None
  | O_Joined => move (pl_shared p) O_Released
  | O_Released => None
  end.

(** win32-engine/data_plane.rs:837-866 [EngineDataPlane::spawn_data_plane]: both threads wait. *)
Definition plane_new (s : Shared) : Plane := MkPlane s Waiting Waiting O_Live [].
Definition shared_new (op : list byte) (stats : option StatsRegistry) (status : option StatusPublisher)
    (notified : option nat) (calls : option (list LogCall)) : Shared :=
  MkShared false false false false op 0 0 stats status notified calls [] [].

(** One step of a thread, of the owner, or of others that publish and set the phase. *)
Inductive plane_step : Plane → Plane → Prop :=
  | pl_read p r s c :
      reader_step (pl_reader p, pl_shared p) c (r, s) →
      plane_step p (MkPlane s r (pl_writer p) (pl_owner p) (pl_losses p ++ option_list c))
  | pl_write p w s c :
      writer_step (pl_writer p, pl_shared p) c (w, s) →
      plane_step p (MkPlane s (pl_reader p) w (pl_owner p) (pl_losses p ++ option_list c))
  | pl_activate p : plane_step p (activate p)
  | pl_rebind p op : pl_owner p = O_Live → plane_step p (rebind_operation op p).1
  | pl_own p p' : owner_next p = Some p' → plane_step p p'
  | pl_publish p e :
      plane_step p (MkPlane (on_status (publish e) (pl_shared p)) (pl_reader p) (pl_writer p) (pl_owner p) (pl_losses p))
  | pl_phase p f :
      plane_step p (MkPlane (on_stats (set_phase f) (pl_shared p)) (pl_reader p) (pl_writer p) (pl_owner p) (pl_losses p)).
End Plane.

Arguments Waiting {L}.
Arguments Running {L} _.
Arguments Found {L} _ _.
Arguments Claimed {L} _ _ _.
Arguments Leaving {L} _ _.
Arguments Gone {L}.

(** The losses that are claimed and still to be announced. *)
Definition claimed_op {L} (ph : Phase L) : option (list byte) := match ph with Claimed op _ _ => Some op | _ => None end.
Definition unannounced (p : Plane) : list (list byte) :=
  option_list (claimed_op (pl_reader p)) ++ option_list (claimed_op (pl_writer p)).

(** ** What a turn leaves alone *)

(** The flags and the operation are the owner's and the guard's, not a turn's. *)
Definition same_flags (s s' : Shared) : Prop :=
  sh_activated s' = sh_activated s ∧ sh_reader_stop s' = sh_reader_stop s ∧ sh_writer_stop s' = sh_writer_stop s
  ∧ sh_reported s' = sh_reported s ∧ sh_operation s' = sh_operation s.
#[export] Instance same_flags_po : PreOrder same_flags.
Proof. split; [by intros s|]. intros a b c (?&?&?&?&?) (?&?&?&?&?). unfold same_flags. split_and!; congruence. Qed.
(** Nor does a turn tell anybody of anything. *)
Definition quiet (s s' : Shared) : Prop :=
  same_flags s s' ∧ sh_notified s' = sh_notified s ∧ sh_status s' = sh_status s.
#[export] Instance quiet_po : PreOrder quiet.
Proof. split; [by intros s|]. intros a b c (?&?&?) (?&?&?). split_and!; [by etrans|congruence..]. Qed.
Lemma quiet_flags s s' : quiet s s' → same_flags s s'.
Proof. by intros []. Qed.

#[local] Arguments encode : simpl never.

Create HintDb plane.
#[export] Hint Extern 1 (quiet ?s (on_stats _ ?s)) => repeat split : plane.
#[export] Hint Extern 1 (quiet ?s (log _ ?s)) => repeat split : plane.
#[export] Hint Extern 1 (quiet ?s (push_frame _ ?s)) => repeat split : plane.
#[export] Hint Extern 1 (quiet ?s (push_ring _ ?s)) => repeat split : plane.
#[export] Hint Extern 1 (quiet ?s ?s) => reflexivity : plane.

Section Flags.
Context (kind_debug : N → str) (uuid_text : list byte → option str) (broken_pipe : IoFailure).

Lemma drain_ring_quiet packets s : quiet s (drain_ring packets s).1.
Proof.
  revert s. induction packets as [|[pkt acc] packets IH]; intros s; simpl; [reflexivity|].
  assert (quiet s (count_reader_upload (N.of_nat (length pkt)) s)) as Hc by (repeat split).
  destruct (is_ipv4_packet pkt); [|etrans; [exact Hc|apply IH]].
  destruct (encode (Data pkt)); [|etrans; [exact Hc|apply IH]].
  destruct acc; [|exact Hc]. etrans; [exact Hc|]. etrans; [|apply IH]. auto with plane.
Qed.
Lemma reader_turn_quiet t s s' l : reader_turn t s = (s', l) → quiet s s'.
Proof.
  destruct t as [code|packets failure]; simpl; [by intros [= <- <-]|].
  pose proof (drain_ring_quiet packets s) as Hd. destruct (drain_ring packets s) as [s1 []]; [destruct failure|];
    by intros [= <- <-].
Qed.

Lemma emit_summary_quiet now wall trigger op w s : quiet s (emit_summary uuid_text now wall trigger op w s).2.
Proof. simpl. auto with plane. Qed.

Lemma writer_event_quiet t e acc w s : quiet s (writer_event kind_debug uuid_text t e acc w s).2.
Proof.
  unfold writer_event.
  set (ws := match e with WriteFailed _ => _ | _ => _ end).
  assert (Hws : quiet s ws.2) by (unfold ws; destruct e; simpl; auto with plane; by repeat split).
  destruct ws as [w1 s1]. simpl in Hws. etrans; [exact Hws|]. clear.
  destruct (control_event_action e (w_seen w1)) as [[] seen]; simpl; auto with plane.
  - destruct (w_probe w1) as [p|], (sh_stats s1) as [st|]; simpl; auto with plane.
    destruct (on_dpd_response (wt_now t) p) as [q [rtt|]]; simpl; auto with plane.
  - destruct acc; simpl; auto with plane.
Qed.
Lemma writer_events_quiet t es w s : quiet s (writer_events kind_debug uuid_text t es w s).2.
Proof.
  revert w s. induction es as [|[e acc] es IH]; intros w s; simpl; [reflexivity|].
  pose proof (writer_event_quiet t e acc w s) as He. destruct (writer_event _ _ t e acc w s) as [w1 s1].
  etrans; [exact He|apply IH].
Qed.
Lemma writer_keepalive_quiet t w s : quiet s (writer_keepalive t w s).2.
Proof. unfold writer_keepalive. destruct (due _ _) as [k []]; simpl; [destruct (wt_keepalive_accepted t)|]; simpl; auto with plane. Qed.
Lemma push_frames_quiet frames s : quiet s (foldl (λ s f, push_frame f s) s frames).
Proof. revert s. induction frames as [|f frames IH]; intros s; simpl; [reflexivity|]. etrans; [|apply IH]. auto with plane. Qed.
Lemma writer_probe_quiet t w s : quiet s (writer_probe t w s).2.
Proof.
  unfold writer_probe. destruct (w_probe w) as [p|]; simpl; auto with plane.
  destruct (tick _ _ _ p) as [q frames]. destruct (wt_probe_accepted t); simpl; [apply push_frames_quiet|auto with plane].
Qed.
Lemma last_events_quiet t es w s : quiet s (last_events kind_debug uuid_text t es w s).2.
Proof.
  revert w s. induction es as [|e es IH]; intros w s; simpl; [reflexivity|].
  destruct e; try apply IH. etrans; [|apply IH]. unfold log_write_failure. auto with plane.
Qed.
Lemma writer_packet_quiet t pkt sent w s : quiet s (writer_packet t pkt sent w s).1.2.
Proof.
  unfold writer_packet.
  set (ws := match w_probe w with Some _ => _ | None => _ end).
  assert (Hws : quiet s ws.2).
  { unfold ws. destruct (w_probe w) as [p|], (sh_stats s) as [st|]; simpl; auto with plane.
    destruct (on_icmp_echo_reply _ _ p) as [q [rtt|]]; simpl; auto with plane. }
  destruct ws as [w1 s1]. simpl in *. destruct sent as [code|]; [destruct (code =? 111)%N|]; simpl; auto.
Qed.

Lemma writer_turn_quiet t w s w' s' l :
  writer_turn kind_debug uuid_text broken_pipe t w s = (w', s', l) → quiet s s'.
Proof.
  unfold writer_turn.
  set (ws := match wt_events t with Some _ => _ | None => _ end).
  assert (Hws : quiet s ws.2) by (unfold ws; destruct (wt_events t); [apply writer_events_quiet|simpl; auto with plane]).
  destruct ws as [w1 s1]. simpl in Hws. set (w2 := match w_session_end w1 with Some _ => _ | None => _ end).
  destruct (w_session_end w2); [by intros [= <- <- <-]|].
  pose proof (writer_keepalive_quiet t w2 s1) as Hk. destruct (writer_keepalive t w2 s1) as [w3 s3].
  pose proof (writer_probe_quiet t w3 s3) as Hp. destruct (writer_probe t w3 s3) as [w4 s4]. simpl in *.
  assert (H5 : quiet s4 (writer_summary uuid_text t w4 s4).2)
    by (unfold writer_summary; destruct (_ <=? _)%N; simpl; auto with plane).
  destruct (writer_summary uuid_text t w4 s4) as [w5 s5]. simpl in H5.
  assert (Hs : quiet s s5) by (do 3 (etrans; [eassumption|]); done).
  destruct (wt_received t) as [pkt sent| |es].
  - pose proof (writer_packet_quiet t pkt sent w5 s5) as Hpk. destruct (writer_packet t pkt sent w5 s5) as [[w6 s6] l6].
    intros [= <- <- <-]. by etrans.
  - by intros [= <- <- <-].
  - destruct (wt_events t).
    + pose proof (last_events_quiet t es w5 s5) as Hl. destruct (last_events _ _ t es w5 s5) as [w6 s6].
      intros [= <- <- <-]. by etrans.
    + by intros [= <- <- <-].
Qed.

Lemma announce_flags wall op loss s : same_flags s (announce kind_debug uuid_text wall op loss s).
Proof. repeat split. Qed.
Lemma writer_exit_quiet now wall op w l s : quiet s (writer_exit kind_debug uuid_text now wall op w l s).
Proof. repeat split. Qed.
End Flags.

(** ** Losses *)

(** A worker that is done, or that has claimed a loss, has told of it or was asked to stop;
    before the activation it does nothing but leave on request. *)
Definition phase_ok {L} (w : Which) (ph : Phase L) (s : Shared) : Prop :=
  match ph with
  | Claimed _ _ _ => sh_reported s = true
  | Gone => sh_reported s = true ∨ stop_of w s = true
  | _ => True
  end
  ∧ (sh_activated s = false →
     ph = Waiting ∨ (stop_of w s = true ∧ (ph = Leaving false None ∨ ph = Gone))).

(** Flags are only ever raised. *)
Definition raised (s s' : Shared) : Prop :=
  (sh_reported s = true → sh_reported s' = true) ∧ (∀ w, stop_of w s = true → stop_of w s' = true)
  ∧ (sh_activated s' = false → sh_activated s = false).
Lemma phase_ok_raised {L} w (ph : Phase L) s s' : raised s s' → phase_ok w ph s → phase_ok w ph s'.
Proof. intros (Hr & Hs & Ha) [H1 H2]. split; [destruct ph; naive_solver|naive_solver]. Qed.
Lemma same_raised s s' : same_flags s s' → raised s s'.
Proof. intros (Ha & Hr & Hw & Hre & _). split_and!; [congruence|intros []; simpl; congruence|congruence]. Qed.

Lemma raised_operation op s : raised s (set_operation op s).
Proof. split_and!; auto; by intros []. Qed.
Lemma raised_reader_stop s : raised s (set_reader_stop s).
Proof. split_and!; auto; by intros []. Qed.
Lemma raised_writer_stop s : raised s (set_writer_stop s).
Proof. split_and!; auto; by intros []. Qed.
Lemma raised_activated s : raised s (set_activated true s).
Proof. split_and!; auto; done. Qed.
#[export] Hint Resolve phase_ok_raised raised_operation raised_reader_stop raised_writer_stop raised_activated : plane.

(** What one step of a worker can do to the flags. *)
Definition effect_of (w : Which) (c : option (list byte)) (s s' : Shared) : Prop :=
  match c with
  | None => same_flags s s'
  | Some op => stop_of w s = false ∧ sh_reported s = false ∧ op = sh_operation s
               ∧ same_flags (set_reported s) s'
  end.

Lemma effect_raised w c s s' : effect_of w c s s' → raised s s'.
Proof.
  destruct c as [op|]; simpl; [|apply same_raised]. intros (_ & _ & _ & Ha & Hr & Hw & Hre & _).
  split_and!; simpl in *; [congruence|intros []; simpl; congruence|congruence].
Qed.

Lemma claim_effect w s s' : same_flags s s' → effect_of w (claim w s').2 s (claim w s').1.
Proof.
  intros (Ha & Hr & Hw & Hre & Hop). unfold claim. destruct (stop_of w s' || sh_reported s') eqn:E; simpl; [by repeat split|].
  apply orb_false_iff in E as [E1 E2]. split_and!; [by destruct w; simpl in *; congruence|congruence|done|by repeat split].
Qed.
Lemma claim_none w s : (claim w s).2 = None → stop_of w s = true ∨ sh_reported s = true.
Proof. unfold claim. destruct (stop_of w s), (sh_reported s); simpl; auto. done. Qed.
Lemma claim_some w s op : (claim w s).2 = Some op → sh_reported (claim w s).1 = true.
Proof. unfold claim. by destruct (stop_of w s || sh_reported s). Qed.
Lemma claim_flags w s : stop_of w (claim w s).1 = stop_of w s ∧ sh_activated (claim w s).1 = sh_activated s.
Proof. unfold claim. destruct (stop_of w s || sh_reported s); [done|by destruct w]. Qed.

Section Workers.
Context (kind_debug : N → str) (uuid_text : list byte → option str).
Context {L : Type} (w : Which) (start : L → Prop) (turn : L → Shared → L → Shared → option Loss → Prop)
  (farewell : option (L * option Loss) → Shared → Shared → Prop).
Hypothesis turn_quiet : ∀ l s l' s' loss, turn l s l' s' loss → quiet s s'.
Hypothesis farewell_quiet : ∀ e s s', farewell e s s' → quiet s s'.
Lemma turn_flags l s l' s' loss : turn l s l' s' loss → same_flags s s'.
Proof. intros Ht. by eapply quiet_flags, turn_quiet. Qed.
Lemma farewell_flags e s s' : farewell e s s' → same_flags s s'.
Proof. intros Hf. by eapply quiet_flags, farewell_quiet. Qed.
#[local] Hint Resolve turn_flags farewell_flags : core.

Lemma worker_effect ph s c ph' s' :
  worker_step kind_debug uuid_text w start turn farewell (ph, s) c (ph', s') → effect_of w c s s'.
Proof.
  intros Hstep. inversion Hstep; subst; simpl; try reflexivity; eauto.
  - by apply claim_effect.
  - apply announce_flags.
  - by apply claim_effect, (farewell_flags exit).
Qed.

Lemma worker_ok ph s c ph' s' :
  worker_step kind_debug uuid_text w start turn farewell (ph, s) c (ph', s') → phase_ok w ph s → phase_ok w ph' s'.
Proof.
  intros Hstep [Hok Hq].
  inversion Hstep as [| |? ? ? ? ? Ht|? ? ? ? ? ? Ht| | |? loss|? loss next|? exit ? s1 Hf]; subst; simpl in *.
  - split; [done|congruence].
  - split; [done|]. intros _. right. auto.
  - split; [done|]. destruct (turn_flags _ _ _ _ _ Ht) as (Ha & _). rewrite Ha. naive_solver.
  - split; [done|]. destruct (turn_flags _ _ _ _ _ Ht) as (Ha & _). rewrite Ha. naive_solver.
  - split; [done|]. naive_solver.
  - split; [done|]. naive_solver.
  - destruct (claim_flags w s) as [Hs Ha]. split.
    + destruct ((claim w s).2) as [op|] eqn:E; [by eapply claim_some|done].
    + rewrite Ha. naive_solver.
  - split; [destruct next; simpl; auto|]. naive_solver.
  - destruct (farewell_flags _ _ _ Hf) as (Ha & Hr & Hw & Hre & _). destruct (claim_flags w s1) as [Hs Ha1]. split.
    + destruct ((claim w s1).2) as [op|] eqn:E; [by eapply claim_some|].
      unfold claim in *. destruct (stop_of w s1 || sh_reported s1) eqn:E1; [|done].
      apply orb_true_iff in E1. simpl. tauto.
    + rewrite Ha1, Ha, Hs. intros Hact. destruct (Hq Hact) as [?|[Hst ?]]; [done|]. right.
      assert (Hst1 : stop_of w s1 = true) by (destruct w; simpl in *; congruence). split; [done|]. right.
      unfold claim. by rewrite Hst1.
Qed.

(** How many more steps of its own a worker takes once it is asked to stop. *)
Definition phase_rank (ph : Phase L) : nat :=
  match ph with
  | Gone => 0
  | Claimed _ _ None => 1
  | Leaving _ _ => 2
  | Claimed _ _ (Some _) => 3
  | Waiting | Running _ | Found _ _ => 4
  end.
Hypothesis farewell_total : ∀ e s, ∃ s', farewell e s s'.

Lemma worker_winds_down ph s :
  stop_of w s = true →
  (∀ c ph' s', worker_step kind_debug uuid_text w start turn farewell (ph, s) c (ph', s') →
     phase_rank ph' < phase_rank ph ∧ stop_of w s' = true)
  ∧ (ph = Gone ∨ ∃ c x, worker_step kind_debug uuid_text w start turn farewell (ph, s) c x).
Proof.
  intros Hst. split.
  - intros c ph' s' Hstep. split; [|by apply (effect_raised _ _ _ _ (worker_effect _ _ _ _ _ Hstep))].
    inversion Hstep as [| |? ? ? ? ? Ht|? ? ? ? ? ? Ht| | |? loss|? loss next|? exit ? s1 Hf]; subst; simpl; try congruence; try lia.
    + destruct ((claim w s).2); simpl; lia.
    + destruct next; simpl; lia.
    + destruct ((claim w s1).2); simpl; lia.
  - destruct ph as [|l|l loss|op loss next|panicking exit|]; [right..|by left].
    + do 2 eexists. by apply ws_cancel.
    + do 2 eexists. by apply ws_stop.
    + do 2 eexists. apply ws_report.
    + do 2 eexists. apply (ws_announce _ _ _ _ _ _ _ _ _ None).
    + destruct (farewell_total exit s) as [s' Hf]. do 2 eexists. by eapply ws_drop.
Qed.
End Workers.

Section Losses.
Context (kind_debug : N → str) (uuid_text : list byte → option str) (broken_pipe : IoFailure).
Abbreviation plane_step := (plane_step kind_debug uuid_text broken_pipe).
Abbreviation reader_step := (reader_step kind_debug uuid_text).
Abbreviation writer_step := (writer_step kind_debug uuid_text broken_pipe).

Lemma writer_farewell_quiet exit s s' :
  match exit with
  | Some (w, l) => ∃ now wall op, s' = writer_exit kind_debug uuid_text now wall op w l s
  | None => s' = s
  end → quiet s s'.
Proof. destruct exit as [[w l]|]; [intros (now & wall & op & ->); apply writer_exit_quiet|intros ->; reflexivity]. Qed.

Lemma reader_effect ph s c ph' s' :
  reader_step (ph, s) c (ph', s') → effect_of Reader c s s' ∧ (phase_ok Reader ph s → phase_ok Reader ph' s').
Proof.
  intros Hstep. assert (Ht : ∀ (l : ()) s (l' : ()) s' loss, (∃ t, reader_turn t s = (s', loss)) → quiet s s')
    by (intros ? ? ? ? ? [t Ht]; by eapply reader_turn_quiet).
  split; [eapply worker_effect|eapply worker_ok]; try exact Hstep; try exact Ht; intros ? ? ? ->; reflexivity.
Qed.
Lemma writer_effect ph s c ph' s' :
  writer_step (ph, s) c (ph', s') → effect_of Writer c s s' ∧ (phase_ok Writer ph s → phase_ok Writer ph' s').
Proof.
  intros Hstep. assert (Ht : ∀ l s l' s' loss, (∃ t, writer_turn kind_debug uuid_text broken_pipe t l s = (l', s', loss)) → quiet s s')
    by (intros ? ? ? ? ? [t Ht]; by eapply writer_turn_quiet).
  split; [eapply worker_effect|eapply worker_ok]; try exact Hstep; try exact Ht; apply writer_farewell_quiet.
Qed.

Record plane_inv (p : Plane) : Prop := {
  pi_losses : pl_losses p = if sh_reported (pl_shared p) then [sh_operation (pl_shared p)] else [];
  pi_reader : phase_ok Reader (pl_reader p) (pl_shared p);
  pi_writer : phase_ok Writer (pl_writer p) (pl_shared p);
  pi_quiet : sh_activated (pl_shared p) = false → sh_reported (pl_shared p) = false;
  pi_reader_stop : sh_reader_stop (pl_shared p) = bool_decide (1 ≤ owner_rank (pl_owner p));
  pi_writer_stop : sh_writer_stop (pl_shared p) = bool_decide (2 ≤ owner_rank (pl_owner p));
  pi_reader_gone : 3 ≤ owner_rank (pl_owner p) → pl_reader p = Gone;
  pi_writer_gone : 4 ≤ owner_rank (pl_owner p) → pl_writer p = Gone;
}.

Lemma plane_inv_new op stats status notified calls : plane_inv (plane_new (shared_new op stats status notified calls)).
Proof. split; simpl; try done; try lia; (split; [done|by left]). Qed.

(** What a worker's step does to the list of losses. *)
Lemma losses_step w c s s' :
  effect_of w c s s' →
  (if sh_reported s then [sh_operation s] else []) ++ option_list c = if sh_reported s' then [sh_operation s'] else [].
Proof.
  destruct c as [op|]; simpl.
  - intros (_ & -> & -> & _ & _ & _ & Hr & Ho). simpl in *. by rewrite Hr, Ho.
  - intros (_ & _ & _ & Hr & Ho). by rewrite app_nil_r, Hr, Ho.
Qed.
Lemma effect_stops w c s s' :
  effect_of w c s s' → sh_reader_stop s' = sh_reader_stop s ∧ sh_writer_stop s' = sh_writer_stop s
    ∧ sh_activated s' = sh_activated s.
Proof. destruct c; simpl; [intros (_ & _ & _ & Ha & Hr & Hw & _)|intros (Ha & Hr & Hw & _)]; simpl in *; auto. Qed.

(** Only an activated worker claims a loss. *)
Lemma claims_activated {L} w start turn farewell (ph : Phase L) s op x :
  worker_step kind_debug uuid_text w start turn farewell (ph, s) (Some op) x →
  (∀ e s s', farewell e s s' → quiet s s') →
  phase_ok w ph s → sh_activated s = true.
Proof.
  intros Hstep Hff [_ Hq]. destruct (sh_activated s) eqn:Ha; [done|]. exfalso.
  inversion Hstep as [| | | | | |? loss ? E|? loss next|? exit ? s1 Hf E]; subst; destruct (Hq eq_refl) as [?|[Hst ?]]; try naive_solver.
  match goal with H : Some _ = (claim w s1).2 |- _ => rename H into Hc | H : (claim w s1).2 = Some _ |- _ => symmetry in H; rename H into Hc end.
  destruct (Hff _ _ _ Hf) as [(_ & Hr & Hw & _) _]. unfold claim in Hc.
  assert (stop_of w s1 = true) as Hs by (destruct w; simpl in *; congruence). by rewrite Hs in Hc.
Qed.

Lemma plane_inv_step p p' : plane_inv p → plane_step p p' → plane_inv p'.
Proof.
  intros [Hl Hr Hw Hq Hrs Hws Hrg Hwg] Hstep.
  inversion Hstep as [? r s c Hst|? w s c Hst|?|? op Ho|? ? Ho|? e|? f]; subst; simpl.
  - destruct (reader_effect _ _ _ _ _ Hst) as [He Hok]. destruct (effect_stops _ _ _ _ He) as (E1 & E2 & E3).
    split; simpl; rewrite ?E1, ?E2; auto.
    + by rewrite Hl, (losses_step _ _ _ _ He).
    + by eapply phase_ok_raised, Hw; eapply effect_raised.
    + rewrite E3. intros Ha. destruct c as [op|]; [|destruct He as (_ & _ & _ & Hre & _); by rewrite Hre, Hq].
      rewrite (claims_activated Reader _ _ _ _ _ _ _ Hst) in Ha; [done| |done]. by intros ? ? ? ->.
    + intros Hrank. rewrite Hrg in Hst by done. inversion Hst.
  - destruct (writer_effect _ _ _ _ _ Hst) as [He Hok]. destruct (effect_stops _ _ _ _ He) as (E1 & E2 & E3).
    split; simpl; rewrite ?E1, ?E2; auto.
    + by rewrite Hl, (losses_step _ _ _ _ He).
    + by eapply phase_ok_raised, Hr; eapply effect_raised.
    + rewrite E3. intros Ha. destruct c as [op|]; [|destruct He as (_ & _ & _ & Hre & _); by rewrite Hre, Hq].
      rewrite (claims_activated Writer _ _ _ _ _ _ _ Hst) in Ha; [done|apply writer_farewell_quiet|done].
    + intros Hrank. rewrite Hwg in Hst by done. inversion Hst.
  - split; simpl; eauto with plane; done.
  - unfold rebind_operation. destruct (is_alive p) eqn:Ha; [|by split]. unfold is_alive in Ha.
    destruct (sh_reported (pl_shared p)) eqn:Hre; [done|].
    split; simpl; rewrite ?Hre; eauto with plane.
  - unfold owner_next in Ho. destruct (pl_owner p) eqn:Eo; simpl in *.
    + simplify_eq. split; simpl; eauto with plane; lia.
    + simplify_eq. split; simpl; eauto with plane; lia.
    + destruct (pl_reader p) eqn:Er; try done. simplify_eq/=. split; simpl; auto; lia.
    + destruct (pl_writer p) eqn:Er; try done. simplify_eq/=. split; simpl; auto; lia.
    + simplify_eq/=. split; simpl; auto with lia.
    + done.
  - by split.
  - by split.
Qed.

Lemma plane_inv_reach p q : plane_inv p → rtc plane_step p q → plane_inv q.
Proof. intros Hp Hrun. revert Hp. induction Hrun as [|x y z Hxy _ IH]; eauto using plane_inv_step. Qed.

(** *** Claimed and announced *)

(** What a worker's step tells: the announcement of its claim, or nothing. *)
Definition tells {L} (ph : Phase L) (c : option (list byte)) (ph' : Phase L) (s s' : Shared) : Prop :=
  (∃ op loss next wall, ph = Claimed op loss next ∧ claimed_op ph' = None ∧ c = None
     ∧ s' = announce kind_debug uuid_text wall op loss s)
  ∨ (claimed_op ph = None ∧ claimed_op ph' = c ∧ sh_notified s' = sh_notified s ∧ sh_status s' = sh_status s).

Lemma claim_tells w s : sh_notified (claim w s).1 = sh_notified s ∧ sh_status (claim w s).1 = sh_status s.
Proof. unfold claim. by destruct (stop_of w s || sh_reported s). Qed.

Lemma worker_tells {L} w start turn farewell (ph : Phase L) s c ph' s' :
  (∀ l s l' s' loss, turn l s l' s' loss → quiet s s') → (∀ e s s', farewell e s s' → quiet s s') →
  worker_step kind_debug uuid_text w start turn farewell (ph, s) c (ph', s') → tells ph c ph' s s'.
Proof.
  intros Ht Hf Hstep.
  inversion Hstep as [| |? ? ? ? ? Hx|? ? ? ? ? ? Hx| | |? loss|op loss next wall|? exit ? s1 Hx]; subst;
    try (right; by split_and!); try (right; destruct (Ht _ _ _ _ _ Hx) as (_ & ? & ?); by split_and!).
  - right. destruct (claim_tells w s). split_and!; auto. by destruct ((claim w s).2).
  - left. exists op, loss, next, wall. split_and!; auto. by destruct next.
  - right. destruct (claim_tells w s1) as [? ?], (Hf _ _ _ Hx) as (_ & ? & ?).
    split_and!; [done|by destruct ((claim w s1).2)|congruence..].
Qed.

Lemma reader_tells ph s c ph' s' : reader_step (ph, s) c (ph', s') → tells ph c ph' s s'.
Proof. apply worker_tells; [intros ? ? ? ? ? [t Ht]; by eapply reader_turn_quiet|by intros ? ? ? ->]. Qed.
Lemma writer_tells ph s c ph' s' : writer_step (ph, s) c (ph', s') → tells ph c ph' s s'.
Proof. apply worker_tells; [intros ? ? ? ? ? [t Ht]; by eapply writer_turn_quiet|apply writer_farewell_quiet]. Qed.

(** Published statuses stay, and a failure is always published. *)
Lemma publish_keeps e st x : x ∈ sp_history st → x ∈ sp_history (publish e st).
Proof.
  unfold publish, publish_commit, publish_begin. intros Hx.
  destruct (suppressed _ _); [destruct (sp_publishing st)|]; simpl; set_solver.
Qed.
Lemma publish_failed op phase error st :
  status_failed op phase error ∈ sp_history (publish (status_failed op phase error) st).
Proof.
  unfold publish, publish_commit, publish_begin, suppressed.
  destruct (sp_latest st); simpl; rewrite ?andb_false_r; simpl; set_solver.
Qed.

(** The receivers of losses are as they were wired; what was claimed and is not being
    announced was announced: it was notified, and the publisher has its failure. *)
Record told (notified : option nat) (wired : bool) (s : Shared) (losses pending : list (list byte)) : Prop := {
  to_notified : (λ n, n + length losses) <$> notified = (λ n, n + length pending) <$> sh_notified s;
  to_wired : bool_decide (is_Some (sh_status s)) = wired;
  to_pending : pending ⊆ losses;
  to_failed : ∀ st, sh_status s = Some st → ∀ op, op ∈ losses →
    op ∈ pending ∨ status_failed op (Some StartingDataPlane) data_plane_drop_error ∈ sp_history st;
}.

Lemma told_perm notified wired s losses pending pending' :
  pending ≡ₚ pending' → told notified wired s losses pending → told notified wired s losses pending'.
Proof.
  intros Hp [Hn Hw Hs Hf]. split; [by rewrite <- (Permutation_length Hp)|done|by rewrite <- Hp|].
  intros st Hst op Hop. rewrite <- Hp. by apply Hf.
Qed.
Lemma told_quiet notified wired s s' losses pending :
  sh_notified s' = sh_notified s → sh_status s' = sh_status s →
  told notified wired s losses pending → told notified wired s' losses pending.
Proof. intros Hn Hs [? ? ? ?]. by split; rewrite ?Hn, ?Hs. Qed.

Lemma told_tells {L} notified wired (ph ph' : Phase L) c s s' losses pending :
  tells ph c ph' s s' → told notified wired s losses (option_list (claimed_op ph) ++ pending) →
  told notified wired s' (losses ++ option_list c) (option_list (claimed_op ph') ++ pending).
Proof.
  intros [(op & loss & next & wall & -> & -> & -> & ->)|(-> & -> & Hn & Hs)] [Hno Hwi Hpe Hfa]; simpl in *.
  - rewrite app_nil_r. split; simpl.
    + rewrite Hno, <- option_fmap_compose. destruct (sh_notified s); simpl; [|done]. f_equal. lia.
    + rewrite <- Hwi. by destruct (sh_status s).
    + set_solver.
    + intros st (st0 & Hst & ->)%fmap_Some op' Hop'. destruct (Hfa _ Hst op' Hop') as [[->|?]%elem_of_cons|?]; [|by left|].
      * right. apply publish_failed.
      * right. by apply publish_keeps.
  - split; rewrite ?Hn, ?Hs; [|done|set_solver|].
    + destruct notified, (sh_notified s); simplify_eq/=; [|done]. f_equal. rewrite !length_app. lia.
    + intros st Hst op Hop. apply elem_of_app in Hop as [Hop|Hop]; [destruct (Hfa _ Hst _ Hop) as [?|?]|]; [|by right|]; left; set_solver.
Qed.

Definition told_inv notified wired (p : Plane) : Prop :=
  told notified wired (pl_shared p) (pl_losses p) (unannounced p).

Lemma told_inv_new op stats status notified calls :
  told_inv notified (bool_decide (is_Some status)) (plane_new (shared_new op stats status notified calls)).
Proof. split; simpl; [done..|]. by intros st _ op' ?%elem_of_nil. Qed.

Lemma told_inv_step notified wired p p' : told_inv notified wired p → plane_step p p' → told_inv notified wired p'.
Proof.
  unfold told_inv. intros Hinv Hstep.
  inversion Hstep as [? r s c Hst|? w s c Hst|?|? op Ho|? ? Ho|? e|? f]; subst; simpl.
  - by eapply told_tells; [apply reader_tells|].
  - eapply told_perm; [apply Permutation_app_comm|]. eapply told_tells; [by apply writer_tells|].
    by eapply told_perm; [apply Permutation_app_comm|].
  - by eapply told_quiet; [..|exact Hinv].
  - unfold rebind_operation. destruct (is_alive p); [|done]. by eapply told_quiet; [..|exact Hinv].
  - unfold owner_next in Ho.
    destruct (pl_owner p); repeat case_match; simplify_eq; by eapply told_quiet; [..|exact Hinv].
  - destruct Hinv as [Hno Hwi Hpe Hfa]. split; simpl; [done| |done|].
    + rewrite <- Hwi. by destruct (sh_status (pl_shared p)).
    + intros st (st0 & Hst & ->)%fmap_Some op Hop. destruct (Hfa _ Hst op Hop) as [?|?]; [by left|]. right. by apply publish_keeps.
  - by eapply told_quiet; [..|exact Hinv].
Qed.
Lemma told_inv_reach notified wired p q : told_inv notified wired p → rtc plane_step p q → told_inv notified wired q.
Proof. intros Hp Hrun. revert Hp. induction Hrun as [|x y z Hxy _ IH]; eauto using told_inv_step. Qed.

(** A claim is always announced if its thread goes on. *)
Lemma announced_alone p : ∃ q, rtc plane_step p q ∧ pl_losses q = pl_losses p ∧ unannounced q = [].
Proof.
  assert (∃ r, rtc plane_step p r ∧ pl_losses r = pl_losses p ∧ claimed_op (pl_reader r) = None) as (r & Hpr & Hl & Hr).
  { destruct (pl_reader p) as [| | |op loss next| |] eqn:E; try (exists p; split_and!; [apply rtc_refl|done|by rewrite E]).
    eexists. split_and!; [apply rtc_once, (pl_read _ _ _ p (next_phase next) (announce kind_debug uuid_text None op loss (pl_shared p)) None); rewrite E; apply ws_announce|..]; simpl.
    - by rewrite app_nil_r.
    - by destruct next. }
  unfold unannounced. destruct (pl_writer r) as [| | |op loss next| |] eqn:E;
    try (exists r; rewrite Hr, E; by split_and!).
  eexists. split_and!; [eapply rtc_r; [exact Hpr|]; apply (pl_write _ _ _ r (next_phase next) (announce kind_debug uuid_text None op loss (pl_shared r)) None); rewrite E; apply ws_announce|..]; simpl.
  - by rewrite app_nil_r.
  - rewrite Hr. by destruct next.
Qed.
End Losses.

(** C26: A loss of the session is told exactly once and to the right operation: however the
    two threads, the owner and the publishers interleave, at most one loss is ever claimed,
    the operation it is told for is the one the session serves, and no reuse of the session
    for another operation succeeds after it; nothing is claimed before the activation; a
    thread that has ended has told of a loss, or its fellow has, or it was asked to stop;
    and the ring's session is let go only after both threads have ended. What is told: the
    receiver of losses, if one is wired, was notified once for every loss claimed, and the
    status publisher, if one is wired, has stored the failure of the operation the loss was
    claimed for, but for a loss whose thread stands between claiming and announcing it; that
    thread can always go on to announce it. *)
Theorem loss_told_once kind_debug uuid_text broken_pipe op stats status notified calls p :
  rtc (plane_step kind_debug uuid_text broken_pipe) (plane_new (shared_new op stats status notified calls)) p →
  (pl_losses p = [] ∨ pl_losses p = [sh_operation (pl_shared p)])
  ∧ (pl_losses p ≠ [] → ∀ op', rebind_operation op' p = (p, false))
  ∧ (sh_activated (pl_shared p) = false → pl_losses p = [])
  ∧ (pl_reader p = Gone → pl_losses p ≠ [] ∨ sh_reader_stop (pl_shared p) = true)
  ∧ (pl_writer p = Gone → pl_losses p ≠ [] ∨ sh_writer_stop (pl_shared p) = true)
  ∧ (pl_owner p = O_Joined ∨ pl_owner p = O_Released → pl_reader p = Gone ∧ pl_writer p = Gone)
  ∧ ((λ n, n + length (pl_losses p)) <$> notified
       = (λ n, n + length (unannounced p)) <$> sh_notified (pl_shared p)
     ∧ (is_Some (sh_status (pl_shared p)) ↔ is_Some status)
     ∧ unannounced p ⊆ pl_losses p
     ∧ (∀ st op', sh_status (pl_shared p) = Some st → op' ∈ pl_losses p → op' ∉ unannounced p →
          status_failed op' (Some StartingDataPlane) data_plane_drop_error ∈ sp_history st)
     ∧ (∃ q, rtc (plane_step kind_debug uuid_text broken_pipe) p q ∧ pl_losses q = pl_losses p ∧ unannounced q = [])).
Proof.
  intros Hrun.
  pose proof (plane_inv_reach _ _ _ _ _ (plane_inv_new op stats status notified calls) Hrun) as [Hl Hr Hw Hq Hrs Hws Hrg Hwg].
  pose proof (told_inv_reach _ _ _ _ _ _ _ (told_inv_new op stats status notified calls) Hrun) as [Hno Hwi Hpe Hfa].
  split_and!; [..|done| |done| |apply announced_alone].
  - rewrite Hl. destruct (sh_reported (pl_shared p)); auto.
  - rewrite Hl. destruct (sh_reported (pl_shared p)) eqn:E; [|done]. intros _ op'. unfold rebind_operation, is_alive. by rewrite E.
  - intros Ha. by rewrite Hl, Hq.
  - intros Hg. destruct Hr as [Hr _]. rewrite Hg in Hr. rewrite Hl. destruct (sh_reported (pl_shared p)); naive_solver.
  - intros Hg. destruct Hw as [Hw _]. rewrite Hg in Hw. rewrite Hl. destruct (sh_reported (pl_shared p)); naive_solver.
  - intros Ho. split; [apply Hrg|apply Hwg]; destruct Ho as [-> | ->]; simpl; lia.
  - by rewrite <- (bool_decide_eq_true (is_Some status)), <- Hwi, bool_decide_eq_true.
  - intros st op' Hst Hop Hun. by destruct (Hfa _ Hst _ Hop).
Qed.

Definition sample_plane : Plane :=
  let s := set_activated true (shared_new [x01] None None (Some 0) None) in
  MkPlane (announce (λ _, []) (λ _, None) None [x01] (MkLoss Reader (lit "wintun_wait_failed") (Some 6%N) None) (set_reported s))
    (Leaving false (Some ((), Some (MkLoss Reader (lit "wintun_wait_failed") (Some 6%N) None)))) Waiting O_Live [[x01]].

Lemma loss_told_once_witness :
  (pl_losses sample_plane ≠ [] → ∀ op', rebind_operation op' sample_plane = (sample_plane, false))
  ∧ sh_notified (pl_shared sample_plane) = Some 1.
Proof.
  split; [|reflexivity].
  refine (proj1 (proj2 (loss_told_once (λ _, []) (λ _, None) (MkIoFailure 0 (Custom [])) [x01] None None (Some 0) None sample_plane _))).
  eapply rtc_l; [apply pl_activate|]. simpl.
  eapply rtc_l; [eapply (pl_read _ _ _ _ (Running ()) _ None); apply ws_start; [reflexivity|reflexivity|exact I]|]. simpl.
  eapply rtc_l; [eapply (pl_read _ _ _ _ (Found () (MkLoss Reader (lit "wintun_wait_failed") (Some 6%N) None)) _ None);
    eapply ws_lost; [reflexivity|by exists (R_WaitFailed 6)]|]. simpl.
  eapply rtc_l; [eapply (pl_read _ _ _ _ _ _ (Some [x01])); apply ws_report|]. simpl.
  eapply rtc_l; [eapply (pl_read _ _ _ _ _ _ None); apply (ws_announce _ _ _ _ _ _ _ _ _ None)|]. simpl.
  apply rtc_refl.
Defined.

(** ** Stopping *)

Section Stopping.
Context (kind_debug : N → str) (uuid_text : list byte → option str) (broken_pipe : IoFailure).
Abbreviation plane_step := (plane_step kind_debug uuid_text broken_pipe).

Lemma reader_winds_down ph s :
  sh_reader_stop s = true →
  (∀ c ph' s', reader_step kind_debug uuid_text (ph, s) c (ph', s') → phase_rank ph' < phase_rank ph ∧ sh_reader_stop s' = true)
  ∧ (ph = Gone ∨ ∃ c x, reader_step kind_debug uuid_text (ph, s) c x).
Proof.
  intros Hst. refine (worker_winds_down kind_debug uuid_text Reader _ _ _ _ _ _ ph s Hst).
  - intros ? ? ? ? ? [t Ht]. by eapply reader_turn_quiet.
  - by intros ? ? ? ->.
  - eauto.
Qed.
Lemma writer_winds_down ph s :
  sh_writer_stop s = true →
  (∀ c ph' s', writer_step kind_debug uuid_text broken_pipe (ph, s) c (ph', s') →
     phase_rank ph' < phase_rank ph ∧ sh_writer_stop s' = true)
  ∧ (ph = Gone ∨ ∃ c x, writer_step kind_debug uuid_text broken_pipe (ph, s) c x).
Proof.
  intros Hst. refine (worker_winds_down kind_debug uuid_text Writer _ _ _ _ _ _ ph s Hst).
  - intros ? ? ? ? ? [t Ht]. by eapply writer_turn_quiet.
  - apply writer_farewell_quiet.
  - intros [[w l]|] s'; [|eauto]. exists (writer_exit kind_debug uuid_text 0 None [] w l s'). by exists 0%N, None, [].
Qed.

(** Left to themselves, threads that were asked to stop end. *)
Lemma reader_ends p :
  sh_reader_stop (pl_shared p) = true → sh_writer_stop (pl_shared p) = true →
  ∃ q, rtc plane_step p q ∧ pl_reader q = Gone ∧ pl_writer q = pl_writer p ∧ pl_owner q = pl_owner p
    ∧ sh_writer_stop (pl_shared q) = true.
Proof.
  remember (phase_rank (pl_reader p)) as n eqn:Hn. revert p Hn. induction n as [n IH] using lt_wf_ind. intros p -> Hr Hw.
  destruct (reader_winds_down (pl_reader p) (pl_shared p) Hr) as [Hdown [Hg|(c & [ph s] & Hstep)]].
  { exists p. split_and!; done || apply rtc_refl. }
  destruct (Hdown _ _ _ Hstep) as [Hlt Hr']. destruct (reader_effect _ _ _ _ _ _ _ Hstep) as [He _].
  destruct (effect_stops _ _ _ _ He) as (_ & Ew & _).
  destruct (IH _ Hlt (MkPlane s ph (pl_writer p) (pl_owner p) (pl_losses p ++ option_list c)) eq_refl Hr' ltac:(simpl; congruence))
    as (q & Hrun & Hq). exists q. split; [|done]. eapply rtc_l; [|exact Hrun]. by apply pl_read.
Qed.
Lemma writer_ends p :
  sh_writer_stop (pl_shared p) = true →
  ∃ q, rtc plane_step p q ∧ pl_writer q = Gone ∧ pl_reader q = pl_reader p ∧ pl_owner q = pl_owner p.
Proof.
  remember (phase_rank (pl_writer p)) as n eqn:Hn. revert p Hn. induction n as [n IH] using lt_wf_ind. intros p -> Hw.
  destruct (writer_winds_down (pl_writer p) (pl_shared p) Hw) as [Hdown [Hg|(c & [ph s] & Hstep)]].
  { exists p. split_and!; done || apply rtc_refl. }
  destruct (Hdown _ _ _ Hstep) as [Hlt Hw'].
  destruct (IH _ Hlt (MkPlane s (pl_reader p) ph (pl_owner p) (pl_losses p ++ option_list c)) eq_refl Hw')
    as (q & Hrun & Hq). exists q. split; [|done]. eapply rtc_l; [|exact Hrun]. by apply pl_write.
Qed.

Lemma owner_finishes p :
  2 ≤ owner_rank (pl_owner p) → sh_writer_stop (pl_shared p) = true →
  pl_reader p = Gone → pl_writer p = Gone → ∃ q, rtc plane_step p q ∧ pl_owner q = O_Released.
Proof.
  intros Hrank Hw Hr Hwr. remember (5 - owner_rank (pl_owner p)) as n eqn:Hn. revert p Hn Hrank Hw Hr Hwr.
  induction n as [n IH] using lt_wf_ind. intros p -> Hrank Hw Hr Hwr.
  destruct (decide (owner_rank (pl_owner p) = 5)) as [Ho|Ho].
  { exists p. split; [apply rtc_refl|by destruct (pl_owner p)]. }
  assert (∃ o, owner_next p = Some (MkPlane (pl_shared p) (pl_reader p) (pl_writer p) o (pl_losses p))
               ∧ owner_rank (pl_owner p) < owner_rank o) as (o & Hnext & Hlt).
  { unfold owner_next. destruct (pl_owner p); simpl in *; try lia; rewrite ?Hr, ?Hwr; simpl; eexists; split; (reflexivity || simpl; lia). }
  destruct (IH (5 - owner_rank o) ltac:(destruct o; simpl in *; lia)
              (MkPlane (pl_shared p) (pl_reader p) (pl_writer p) o (pl_losses p)) eq_refl) as (q & Hrun & Hq);
    simpl; try done; [lia|]. exists q. split; [|done]. eapply rtc_l; [|exact Hrun]. by apply pl_own.
Qed.
End Stopping.

(** C27: Stopping ends: from every reachable state in which the owner has asked both threads
    to stop, each step of a thread brings it closer to its end, of which it takes at most
    four, a thread that has not ended always can take one, and the owner can get to the
    point where both are joined and the session is let go. *)
Theorem stop_ends kind_debug uuid_text broken_pipe op stats status notified calls p :
  rtc (plane_step kind_debug uuid_text broken_pipe) (plane_new (shared_new op stats status notified calls)) p →
  2 ≤ owner_rank (pl_owner p) →
  (∀ c ph s, reader_step kind_debug uuid_text (pl_reader p, pl_shared p) c (ph, s) → phase_rank ph < phase_rank (pl_reader p) ≤ 4)
  ∧ (∀ c ph s, writer_step kind_debug uuid_text broken_pipe (pl_writer p, pl_shared p) c (ph, s) →
       phase_rank ph < phase_rank (pl_writer p) ≤ 4)
  ∧ (pl_reader p = Gone ∨ ∃ c x, reader_step kind_debug uuid_text (pl_reader p, pl_shared p) c x)
  ∧ (pl_writer p = Gone ∨ ∃ c x, writer_step kind_debug uuid_text broken_pipe (pl_writer p, pl_shared p) c x)
  ∧ ∃ q, rtc (plane_step kind_debug uuid_text broken_pipe) p q ∧ pl_owner q = O_Released.
Proof.
  intros Hrun Hrank.
  pose proof (plane_inv_reach _ _ _ _ _ (plane_inv_new op stats status notified calls) Hrun) as Hinv.
  assert (Hr : sh_reader_stop (pl_shared p) = true) by (rewrite (pi_reader_stop p Hinv); apply bool_decide_eq_true; lia).
  assert (Hw : sh_writer_stop (pl_shared p) = true) by (rewrite (pi_writer_stop p Hinv); by apply bool_decide_eq_true).
  assert (Hmax : ∀ L (ph : Phase L), phase_rank ph ≤ 4) by (intros L [| | |? ? []| |]; simpl; lia).
  destruct (reader_winds_down kind_debug uuid_text (pl_reader p) _ Hr) as [Hrd Hrl].
  destruct (writer_winds_down kind_debug uuid_text broken_pipe (pl_writer p) _ Hw) as [Hwd Hwl].
  split_and!; auto.
  - intros c ph s Hs. split; [by eapply Hrd|apply Hmax].
  - intros c ph s Hs. split; [by eapply Hwd|apply Hmax].
  - destruct (reader_ends kind_debug uuid_text broken_pipe p Hr Hw) as (q1 & Hr1 & Hg1 & _ & Ho1 & Hw1).
    destruct (writer_ends kind_debug uuid_text broken_pipe q1 Hw1) as (q2 & Hr2 & Hg2 & Hg2' & Ho2).
    destruct (owner_finishes kind_debug uuid_text broken_pipe q2) as (q3 & Hr3 & Ho3); [congruence| |congruence|done|].
    + assert (Hinv2 : plane_inv q2) by (eapply plane_inv_reach; [exact Hinv|]; by etrans).
      rewrite (pi_writer_stop q2 Hinv2). apply bool_decide_eq_true. congruence.
    + exists q3. split; [|done]. by do 2 (etrans; [eassumption|]).
Qed.

Lemma stop_ends_witness :
  let p0 := plane_new (shared_new [x01] None None None None) in
  let p := MkPlane (set_writer_stop (set_reader_stop (pl_shared p0))) Waiting Waiting O_StopBoth [] in
  ∃ q, rtc (plane_step (λ _, []) (λ _, None) (MkIoFailure 0 (Custom []))) p q ∧ pl_owner q = O_Released.
Proof.
  intros p0 p.
  refine (proj2 (proj2 (proj2 (proj2 (stop_ends (λ _, []) (λ _, None) (MkIoFailure 0 (Custom [])) [x01] None None None None p _ _))))).
  - eapply rtc_l; [by apply pl_own|]. eapply rtc_l; [by apply pl_own|]. apply rtc_refl.
  - simpl. lia.
Defined.

(** ** What is carried *)

(** The frames of the packets a reader took: the IPv4 ones, in order. *)
Definition upload_frames (packets : list (list byte * bool)) : list (list byte) :=
  omap (λ p, if is_ipv4_packet p.1 then match encode (Data p.1) with Ok f => Some f | Err _ => None end else None) packets.

(** While the channel to the gateway is open, the reader sends the frame of every IPv4
    packet of the ring, in order, and counts the bytes of all packets. *)
Lemma drain_ring_open packets s :
  Forall (λ p, p.2 = true) packets →
  let '(s', through) := drain_ring packets s in
  through = true ∧ sh_frames s' = sh_frames s ++ upload_frames packets
  ∧ sh_ring_received s' = foldl (λ n p, add64 n (N.of_nat (length p.1))) (sh_ring_received s) packets
  ∧ sh_stats s' = (λ st, foldl (λ st p, record_tx (N.of_nat (length p.1)) st) st packets) <$> sh_stats s.
Proof.
  revert s. induction packets as [|[pkt acc] packets IH]; intros s Hall; simpl.
  { rewrite app_nil_r. split_and!; auto. by destruct (sh_stats s). }
  apply Forall_cons in Hall as [Hacc Hall]. simpl in Hacc. subst acc.
  set (s1 := count_reader_upload (N.of_nat (length pkt)) s).
  assert (Hgo : ∀ s2, sh_ring_received s2 = sh_ring_received s1 → sh_stats s2 = sh_stats s1 →
            let '(s', through) := drain_ring packets s2 in
            through = true ∧ sh_frames s' = sh_frames s2 ++ upload_frames packets
            ∧ sh_ring_received s' = foldl (λ n p, add64 n (N.of_nat (length p.1))) (add64 (sh_ring_received s) (N.of_nat (length pkt))) packets
            ∧ sh_stats s' = (λ st, foldl (λ st p, record_tx (N.of_nat (length p.1)) st) (record_tx (N.of_nat (length pkt)) st) packets) <$> sh_stats s).
  { intros s2 E1 E2. specialize (IH s2 Hall). destruct (drain_ring packets s2) as [s' through]. rewrite E1, E2 in IH.
    destruct IH as (-> & -> & -> & ->). split_and!; auto. simpl. by destruct (sh_stats s). }
  destruct (is_ipv4_packet pkt); [destruct (encode (Data pkt)) as [f|]|]; [specialize (Hgo (push_frame f s1) eq_refl eq_refl)|specialize (Hgo s1 eq_refl eq_refl)..];
    destruct (drain_ring packets _) as [s' through]; destruct Hgo as (-> & -> & Hgo); split_and!; auto; try apply Hgo.
  simpl. by rewrite <- (assoc_L (++)).
Qed.

(** What an announcement does to those who are wired: one notification, the failed phase,
    and a failed status of the data plane that may be retried, for that operation. *)
Lemma announce_spec kind_debug uuid_text wall op l s :
  let s' := announce kind_debug uuid_text wall op l s in
  sh_notified s' = S <$> sh_notified s
  ∧ sh_stats s' = set_phase Ph_Failed <$> sh_stats s
  ∧ sh_status s' = publish (status_failed op (Some StartingDataPlane) data_plane_drop_error) <$> sh_status s
  ∧ sh_frames s' = sh_frames s ∧ sh_ring s' = sh_ring s.
Proof. by split_and!. Qed.

(** A failed status is never suppressed: it is the newest one afterwards. *)
Lemma publish_failed_latest op phase error p :
  latest (publish (status_failed op phase error) p) = Some (status_failed op phase error).
Proof.
  unfold publish, publish_begin, suppressed. destruct (sp_latest p) as [e|]; simpl.
  - by rewrite andb_false_r.
  - done.
Qed.
