(* ===== verification/EngineService.v ===== *)
(** * The Windows engine as a service

    [service.rs], [service_batch.rs] and [wintun_dependency.rs] of the Windows engine
    crate: installing, stopping and removing the service, the batch of elevated steps a
    host asks for, and the choice of the Wintun library.

    The service control manager, the key file and the clock are the environment: a reply
    may depend on everything that was called before it, so a program is a function of the
    replies that grows the list of calls. The text of an error is represented by what it
    carries. *)

From Stdlib Require Import NArith ZArith Strings.Byte Lia.
From S2P Require Import Prelude Text NativeError.

(** ** Calls and replies *)

(** The states of a service, and an error of the manager: its system code, if it has one. *)
Inductive ServiceState := Stopped | StartPending | StopPending | SvcRunning | ContinuePending | PausePending | Paused.
#[export] Instance ServiceState_eq_dec : EqDecision ServiceState. Proof. solve_decision. Defined.
Record ScmError := MkScmError { raw_code : option N }.

Inductive Call :=
  | C_Manager | C_Create | C_Open | C_Query | C_Stop | C_Delete | C_Close | C_ChangeConfig | C_FailureActions
  | C_Start | C_WriteKey (sid : str) | C_DeleteKey | C_GrantRead (dir : str) | C_Sleep (ms : N).
#[export] Instance Call_eq_dec : EqDecision Call. Proof. solve_decision. Defined.

(** What the environment replies, given the calls so far. [now] is the clock in
    milliseconds. *)
Record Env := MkEnv {
  on_manager : list Call → result ScmError ();
  on_create : list Call → result ScmError ();
  on_open : list Call → result ScmError ();
  on_query : list Call → result ScmError ServiceState;
  on_stop : list Call → result ScmError ();
  on_delete : list Call → result ScmError ();
  on_change_config : list Call → result ScmError ();
  on_failure_actions : list Call → result ScmError ();
  on_start : list Call → result ScmError ();
  on_write_key : list Call → result str str;
  on_delete_key : list Call → result str ();
  now : list Call → N;
}.

(** A program: from the calls so far to the calls after it and its result. *)
Definition Prog (A : Type) : Type := list Call → list Call * A.
#[export] Instance Prog_ret : MRet Prog := λ _ a tr, (tr, a).
#[export] Instance Prog_bind : MBind Prog := λ _ _ f m tr, let '(tr, a) := m tr in f a tr.
Definition call {A} (c : Call) (reply : list Call → A) : Prog A := λ tr, (tr ++ [c], reply tr).
Definition clock (env : Env) : Prog N := λ tr, (tr, now env tr).
(** [?] in a program that may fail. *)
Definition try_ {E F A B} (conv : E → F) (m : Prog (result E A)) (k : A → Prog (result F B)) : Prog (result F B) :=
  r ← m; match r with Ok a => k a | Err e => mret (Err (conv e)) end.

(** win32-engine/service.rs:182-189 [service_exists] *)
Definition service_exists (e : ScmError) : bool :=
  match raw_code e with Some c => (c =? 1073)%N || (c =? 1072)%N | None => false end.
(** win32-engine/service.rs:193-200 [service_absent_or_marked_for_delete] *)
Definition service_absent_or_marked_for_delete (e : ScmError) : bool :=
  match raw_code e with Some c => (c =? 1060)%N || (c =? 1072)%N | None => false end.
(** win32-engine/service.rs:202-207 [service_not_found] *)
Definition service_not_found (e : ScmError) : bool := bool_decide (raw_code e = Some 1060%N).
(** win32-engine/service.rs:209-214 [service_marked_for_delete] *)
Definition service_marked_for_delete (e : ScmError) : bool := bool_decide (raw_code e = Some 1072%N).
(** win32-engine/service.rs:414-419 [service_already_running] *)
Definition service_already_running (e : ScmError) : bool := bool_decide (raw_code e = Some 1056%N).
(** win32-engine/service.rs:421-426 [service_not_active] *)
Definition service_not_active (e : ScmError) : bool := bool_decide (raw_code e = Some 1062%N).
(** win32-engine/service.rs:428-433 [service_cannot_accept_control] *)
Definition service_cannot_accept_control (e : ScmError) : bool := bool_decide (raw_code e = Some 1061%N).

(** What the strings of the service's failures say. *)
Inductive ServiceError :=
  | SE_Scm (e : ScmError)
  | SE_Query (e : ScmError) (last_state : option ServiceState) (attempts : N) (accepted : bool)
  | SE_Request (e : ScmError) (state : ServiceState) (attempts : N) (accepted : bool)
  | SE_StopTimeout (state : ServiceState) (attempts : N) (accepted : bool)
  | SE_MarkedForDelete
  | SE_WriteKey (e : str)
  | SE_Cleanup (e : str)
  | SE_Options (e : str)
  | SE_StillRegistered
  | SE_NotRunning (state : ServiceState).

(** ** Stopping *)

(** win32-engine/service.rs:435-441 [StopRequestResult] *)
Inductive StopRequestResult := Requested | AlreadyStopped | Retry.
(** win32-engine/service.rs:443-443 [MAX_STOP_REQUEST_ATTEMPTS] *)
Definition MAX_STOP_REQUEST_ATTEMPTS : N := 3.
(** win32-engine/service.rs:28-32 [SERVICE_STOP_TIMEOUT] *)
Definition SERVICE_STOP_TIMEOUT : N := 7300.

(** win32-engine/service.rs:460-463 [wait_for_service_stopped]: what the loop remembers. *)
Record StopLoop := MkStopLoop {
  sl_requested : bool;
  sl_accepted : bool;
  sl_attempts : N;
  sl_last : option ServiceState;
}.

Section WithEnv.
Context (env : Env).

(** win32-engine/service.rs:515-524 [stop_service_instance]: one stop request. *)
Definition request_stop : Prog (result ScmError StopRequestResult) :=
  r ← call C_Stop (on_stop env);
  mret match r with
       | Ok _ => Ok Requested
       | Err e => if service_not_active e then Ok AlreadyStopped
                  else if service_cannot_accept_control e then Ok Retry
                  else Err e
       end.

(** win32-engine/service.rs:474-490 [wait_for_service_stopped]: ask for the stop when the
    state allows it. *)
Definition maybe_request (state : ServiceState) (l : StopLoop) : Prog (result ServiceError StopLoop) :=
  if (bool_decide (state = SvcRunning) || bool_decide (state = Paused)) && negb (sl_requested l)
     && (sl_attempts l <? MAX_STOP_REQUEST_ATTEMPTS)%N
  then
    let attempts := (sl_attempts l + 1)%N in
    try_ (λ e, SE_Request e state attempts (sl_accepted l)) request_stop (λ r,
      mret (Ok match r with
               | Requested => MkStopLoop true true attempts (sl_last l)
               | AlreadyStopped => MkStopLoop true (sl_accepted l) attempts (sl_last l)
               | Retry => MkStopLoop (sl_requested l) (sl_accepted l) attempts (sl_last l)
               end))
  else mret (Ok l).

(** win32-engine/service.rs:449-502 [wait_for_service_stopped]; none when the fuel is out. *)
Fixpoint stop_loop (fuel : nat) (deadline poll : N) (l : StopLoop) : Prog (option (result ServiceError ())) :=
  match fuel with
  | O => mret None
  | S fuel =>
      r ← call C_Query (on_query env);
      match r with
      | Err e => mret (Some (Err (SE_Query e (sl_last l) (sl_attempts l) (sl_accepted l))))
      | Ok state =>
          let l := MkStopLoop (sl_requested l) (sl_accepted l) (sl_attempts l) (Some state) in
          if bool_decide (state = Stopped) then mret (Some (Ok ()))
          else
            r ← maybe_request state l;
            match r with
            | Err e => mret (Some (Err e))
            | Ok l =>
                t ← clock env;
                if (deadline <=? t)%N then mret (Some (Err (SE_StopTimeout state (sl_attempts l) (sl_accepted l))))
                else _ ← call (C_Sleep poll) (λ _, ()); stop_loop fuel deadline poll l
            end
      end
  end.
(** win32-engine/service.rs:449-502 [wait_for_service_stopped]: the sleeps add up to the
    timeout, which bounds the turns. *)
Definition wait_for_service_stopped (timeout poll : N) : Prog (option (result ServiceError ())) :=
  t ← clock env; stop_loop (N.to_nat (timeout / poll) + 2) (t + timeout) poll (MkStopLoop false false 0 None).

(** win32-engine/service.rs:506-526 [stop_service_instance] *)
Definition stop_service_instance : Prog (result ServiceError ()) :=
  r ← wait_for_service_stopped SERVICE_STOP_TIMEOUT 100;
  mret (default (Err (SE_StopTimeout StopPending 0 false)) r).

(** ** Installing and removing *)

(** win32-engine/service.rs:33-38 [SERVICE_REMOVE_WAIT_TIMEOUT] *)
Definition SERVICE_REMOVE_WAIT_TIMEOUT : N := 500.
Definition SERVICE_REMOVE_WAIT_POLL : N := 50.

(** win32-engine/service.rs:552-570 [wait_service_removed]: the loop. *)
Fixpoint removed_loop (fuel : nat) (deadline : N) : Prog bool :=
  match fuel with
  | O => mret false
  | S fuel =>
      r ← call C_Open (on_open env);
      let again : Prog bool :=
        t ← clock env;
        if (deadline <=? t)%N then mret false
        else _ ← call (C_Sleep SERVICE_REMOVE_WAIT_POLL) (λ _, ()); removed_loop fuel deadline in
      match r with
      | Ok _ => again
      | Err e => if service_not_found e then mret true
                 else if service_marked_for_delete e then again
                 else mret true
      end
  end.
(** win32-engine/service.rs:547-571 [wait_service_removed] *)
Definition wait_service_removed : Prog bool :=
  r ← call C_Manager (on_manager env);
  match r with
  | Err _ => mret true
  | Ok _ => t ← clock env;
            removed_loop (N.to_nat (SERVICE_REMOVE_WAIT_TIMEOUT / SERVICE_REMOVE_WAIT_POLL) + 2) (t + SERVICE_REMOVE_WAIT_TIMEOUT)
  end.

(** win32-engine/service.rs:533-539 [uninstall_cleanup] *)
Definition uninstall_cleanup : Prog (result ServiceError ()) :=
  _ ← wait_service_removed;
  r ← call C_DeleteKey (on_delete_key env);
  mret (map_err SE_Cleanup r).

(** win32-engine/service.rs:385-410 [uninstall_service]: of a service that is there. *)
Definition uninstall_present : Prog (result ServiceError ()) :=
  try_ id stop_service_instance (λ _,
  try_ SE_Scm (call C_Delete (on_delete env)) (λ _,
    _ ← call C_Close (λ _, ());
    uninstall_cleanup)).
(** win32-engine/service.rs:365-411 [uninstall_service] *)
Definition uninstall_service : Prog (result ServiceError ()) :=
  try_ SE_Scm (call C_Manager (on_manager env)) (λ _,
    r ← call C_Open (on_open env);
    match r with
    | Err e => if service_absent_or_marked_for_delete e then uninstall_cleanup else mret (Err (SE_Scm e))
    | Ok _ => uninstall_present
    end).

(** win32-engine/service.rs:95-106 [ServiceInstallOptions] *)
Record ServiceInstallOptions := MkServiceInstallOptions {
  io_dll : str;
  io_adapter_name : str;
  io_core_user_sid : str;
  io_config_dir : str;
}.

(** win32-engine/service.rs:241-313 [install_service]: what follows parsing the options. The
    failure actions are an extra: their failure is only reported. *)
Definition configure_failure_actions : Prog () :=
  _ ← call C_FailureActions (on_failure_actions env); mret ().
Definition register_service : Prog (result ServiceError ()) :=
  r ← call C_Create (on_create env);
  match r with
  | Ok _ => _ ← configure_failure_actions; mret (Ok ())
  | Err e =>
      if service_marked_for_delete e then
        removed ← wait_service_removed;
        if negb removed then mret (Err SE_MarkedForDelete)
        else try_ SE_Scm (call C_Create (on_create env)) (λ _, _ ← configure_failure_actions; mret (Ok ()))
      else if service_exists e then
        try_ SE_Scm (call C_Open (on_open env)) (λ _,
        try_ id stop_service_instance (λ _,
        try_ SE_Scm (call C_ChangeConfig (on_change_config env)) (λ _,
          _ ← configure_failure_actions; mret (Ok ()))))
      else mret (Err (SE_Scm e))
  end.
Definition install_service (options : result str ServiceInstallOptions) (exe : result str str)
    : Prog (result ServiceError ()) :=
  match options, exe with
  | Err e, _ => mret (Err (SE_Options e))
  | Ok _, Err e => mret (Err (SE_Options (lit "cannot resolve engine bin: " ++ e)))
  | Ok options, Ok _ =>
      try_ SE_Scm (call C_Manager (on_manager env)) (λ _,
      try_ id register_service (λ _,
      try_ SE_WriteKey (call (C_WriteKey (io_core_user_sid options)) (on_write_key env)) (λ _,
        _ ← call (C_GrantRead (io_config_dir options)) (λ _, ());
        mret (Ok ()))))
  end.

(** win32-engine/service.rs:329-334 [rotate_service_key]; the fingerprint is of the key written. *)
Definition rotate_service_key (fingerprint : str → str) (sid : option str) : Prog (result ServiceError str) :=
  match sid with
  | None => mret (Err (SE_Options (lit "current user SID unavailable")))
  | Some sid => try_ SE_WriteKey (call (C_WriteKey sid) (on_write_key env)) (λ psk, mret (Ok (fingerprint psk)))
  end.

(** win32-engine/service.rs:577-589 [start_service] *)
Definition start_service : Prog (result ServiceError ()) :=
  try_ SE_Scm (call C_Manager (on_manager env)) (λ _,
  try_ SE_Scm (call C_Open (on_open env)) (λ _,
    r ← call C_Start (on_start env);
    mret match r with
         | Ok _ => Ok ()
         | Err e => if service_already_running e then Ok () else Err (SE_Scm e)
         end)).

(** win32-engine/service_batch.rs:446-463 [service_scm_running] *)
Definition service_scm_running : Prog (result ServiceError ()) :=
  try_ SE_Scm (call C_Manager (on_manager env)) (λ _,
  try_ SE_Scm (call C_Open (on_open env)) (λ _,
  try_ SE_Scm (call C_Query (on_query env)) (λ state,
    mret (if bool_decide (state = SvcRunning) then Ok () else Err (SE_NotRunning state))))).
(** win32-engine/service_batch.rs:416-429 [wait_for_service_running] *)
Fixpoint running_loop (fuel : nat) (deadline : N) : Prog (option (result ServiceError ())) :=
  match fuel with
  | O => mret None
  | S fuel =>
      r ← service_scm_running;
      match r with
      | Ok _ => mret (Some (Ok ()))
      | Err e => t ← clock env;
                 if (deadline <=? t)%N then mret (Some (Err e))
                 else _ ← call (C_Sleep 250) (λ _, ()); running_loop fuel deadline
      end
  end.
(** win32-engine/service_batch.rs:405-413 [verify_service_ready]: thirty seconds. *)
Definition verify_service_ready : Prog (option (result ServiceError ())) :=
  t ← clock env; running_loop (N.to_nat (30000 / 250) + 2) (t + 30000).
(** win32-engine/service_batch.rs:432-443 [verify_service_removed] *)
Definition verify_service_removed : Prog (result ServiceError ()) :=
  try_ SE_Scm (call C_Manager (on_manager env)) (λ _,
    r ← call C_Open (on_open env);
    mret match r with
         | Ok _ => Err SE_StillRegistered
         | Err e => if service_not_found e then Ok () else Err (SE_Scm e)
         end).
End WithEnv.

(** ** Options *)

Section Options.
(** [Path::is_absolute], the default library and configuration directory, and the current
    user's SID, if it can be told. *)
Context (is_absolute : str → bool) (default_dll default_config_dir : str) (current_user_sid : option str).

(** win32-engine/service.rs:24-24 [ENGINE_ADAPTER_NAME] *)
Definition ENGINE_ADAPTER_NAME : str := lit "ExvEngine".
Definition CONFIG_DIR_ERROR : str := lit "--config-dir requires an absolute directory path".

(** win32-engine/service.rs:121-142 [parse_install_options]: every argument is looked at, the
    value of an option too. *)
Fixpoint scan_options (argv : list str) (dll adapter_name : str) (user_sid : option str) (config_dir : str)
    : result str (str * str * option str * str) :=
  match argv with
  | [] => Ok (dll, adapter_name, user_sid, config_dir)
  | arg :: rest =>
      let value := head rest in
      if bool_decide (arg = lit "--dll") then scan_options rest (default [] value) adapter_name user_sid config_dir
      else if bool_decide (arg = lit "--adapter-name") then scan_options rest dll (default [] value) user_sid config_dir
      else if bool_decide (arg = lit "--user-sid") then scan_options rest dll adapter_name value config_dir
      else if bool_decide (arg = lit "--config-dir") then
        match value with
        | None => Err CONFIG_DIR_ERROR
        | Some value =>
            if bool_decide (value = []) || starts_with (lit "--") value || negb (is_absolute value) then Err CONFIG_DIR_ERROR
            else scan_options rest dll adapter_name user_sid value
        end
      else scan_options rest dll adapter_name user_sid config_dir
  end.
(** win32-engine/service.rs:114-154 [parse_install_options] *)
Definition parse_install_options (argv : list str) : result str ServiceInstallOptions :=
  match scan_options argv default_dll ENGINE_ADAPTER_NAME None default_config_dir with
  | Err e => Err e
  | Ok (dll, adapter_name, user_sid, config_dir) =>
      if bool_decide (config_dir = []) || negb (is_absolute config_dir)
      then Err (lit "--config-dir must resolve to an absolute directory path")
      else
        let given := match user_sid with Some sid => if bool_decide (sid = []) then None else Some sid | None => None end in
        match (match given with Some sid => Some sid | None => current_user_sid end) with
        | Some sid => Ok (MkServiceInstallOptions dll adapter_name sid config_dir)
        | None => Err (lit "cannot resolve core user SID for service pipe DACL")
        end
  end.

(** win32-engine/service.rs:21-21 [SERVICE_CONTROL_PIPE] *)
Definition SERVICE_CONTROL_PIPE : str := lit "\\.\pipe\exv-engine-service-c".
(** win32-engine/service.rs:218-232 [service_launch_arguments] *)
Definition service_launch_arguments (o : ServiceInstallOptions) : list str :=
  [lit "--service"; lit "--control-pipe"; SERVICE_CONTROL_PIPE; lit "--dll"; io_dll o;
   lit "--adapter-name"; io_adapter_name o; lit "--user-sid"; io_core_user_sid o; lit "--config-dir"; io_config_dir o].
End Options.

(** ** Batches *)

(** win32-engine/service_batch.rs:13-17 [BATCH_VERSION] *)
Definition BATCH_VERSION : N := 1.
Definition MAX_BATCH_STEPS : nat := 8.
Definition MAX_REQUEST_BYTES : N := 64 * 1024.
(** win32-engine/service_batch.rs:42-56 [BatchStep] *)
Inductive BatchStep := B_Install | B_Start | B_Uninstall | B_Verify | B_VerifyRemoved | B_RotateKey.
(** win32-engine/service_batch.rs:30-37 [ServiceBatchRequest] *)
Record ServiceBatchRequest := MkServiceBatchRequest { br_version : N; br_sequence : list BatchStep; br_config_dir : str }.
(** win32-engine/service_batch.rs:61-68 [BatchStepResult] *)
Record BatchStepResult := MkBatchStepResult { bs_step : BatchStep; bs_ok : bool; bs_message : str }.
(** win32-engine/service_batch.rs:73-80 [ServiceBatchResult] *)
Record ServiceBatchResult := MkServiceBatchResult { bt_ok : bool; bt_steps : list BatchStepResult; bt_message : str }.

(** win32-engine/service_batch.rs:259-268 [step_label] *)
Definition step_label (s : BatchStep) : str :=
  lit match s with
      | B_Install => "install" | B_Start => "start" | B_Uninstall => "uninstall"
      | B_Verify => "verify" | B_VerifyRemoved => "verify_removed" | B_RotateKey => "rotate_key"
      end.

(** win32-engine/service_batch.rs:90-108 [validate_request] *)
Definition validate_request (is_absolute : str → bool) (r : ServiceBatchRequest) : result str () :=
  if negb (br_version r =? BATCH_VERSION)%N
  then Err (lit "unsupported batch version " ++ to_dec (br_version r) ++ lit " (expected 1)")
  else if MAX_BATCH_STEPS <? length (br_sequence r)
  then Err (lit "batch sequence of " ++ to_dec (N.of_nat (length (br_sequence r))) ++ lit " steps exceeds limit 8")
  else if bool_decide (br_config_dir r = []) || negb (is_absolute (br_config_dir r))
  then Err (lit "batch config_dir must be an absolute directory path")
  else Ok ().

(** win32-engine/service_batch.rs:117-151 [BatchServiceOps]: the operations of the steps, over
    the state they work on. *)
Class BatchServiceOps (W : Type) := {
  op_install : str → W → W * result str ();
  op_start : W → W * result str ();
  op_uninstall : W → W * result str ();
  op_verify : W → W * result str ();
  op_verify_removed : W → W * result str ();
  op_rotate_key : W → W * result str str;
}.

Section Batch.
Context {W : Type} `{!BatchServiceOps W} (is_absolute : str → bool).

(** win32-engine/service_batch.rs:211-224 [execute_batch]: one step. *)
Definition perform (config_dir : str) (step : BatchStep) (w : W) : W * result str str :=
  let labelled (r : W * result str ()) := (r.1, (λ _, step_label step) <$> r.2) in
  match step with
  | B_Install => labelled (op_install config_dir w)
  | B_Start => labelled (op_start w)
  | B_Uninstall => labelled (op_uninstall w)
  | B_Verify => labelled (op_verify w)
  | B_VerifyRemoved => labelled (op_verify_removed w)
  | B_RotateKey => let '(w, r) := op_rotate_key w in (w, (λ f, lit "rotated fingerprint=" ++ f) <$> r)
  end.

(** win32-engine/service_batch.rs:206-248 [execute_batch]: the steps from [index] on. *)
Fixpoint execute_steps (config_dir : str) (index : N) (steps : list BatchStep) (past : list BatchStepResult) (w : W)
    : W * ServiceBatchResult :=
  match steps with
  | [] => (w, MkServiceBatchResult true past (lit "batch completed"))
  | step :: steps =>
      let '(w, outcome) := perform config_dir step w in
      match outcome with
      | Ok message => execute_steps config_dir (index + 1)%N steps (past ++ [MkBatchStepResult step true message]) w
      | Err e =>
          (w, MkServiceBatchResult false (past ++ [MkBatchStepResult step false e])
                (lit "step " ++ to_dec (index + 1) ++ lit " (" ++ step_label step ++ lit ") failed: " ++ e))
      end
  end.
(** win32-engine/service_batch.rs:196-256 [execute_batch] *)
Definition execute_batch (r : ServiceBatchRequest) (w : W) : W * ServiceBatchResult :=
  match validate_request is_absolute r with
  | Err e => (w, MkServiceBatchResult false [] e)
  | Ok _ => execute_steps (br_config_dir r) 0 (br_sequence r) [] w
  end.

(** The files: the request, if it is there, and the result, if one was written. *)
Record BatchFiles := MkBatchFiles { bf_request : option (list byte); bf_result : option ServiceBatchResult }.

(** win32-engine/service_batch.rs:281-304 [run_batch_with_ops]; [writes] is whether the
    result file can be written. *)
Definition write_result (writes : bool) (res : ServiceBatchResult) (f : BatchFiles) : BatchFiles * result str () :=
  if writes then (MkBatchFiles (bf_request f) (Some res), Ok ()) else (f, Err (lit "write batch result")).
Definition run_batch_with_ops (writes : bool) (r : ServiceBatchRequest) (f : BatchFiles) (w : W)
    : BatchFiles * W * result str () :=
  let '(w, res) := execute_batch r w in
  let '(f, written) := write_result writes res f in
  (f, w, match written with
         | Err e => Err e
         | Ok _ => if bt_ok res then Ok () else Err (bt_message res)
         end).

(** win32-engine/service_batch.rs:349-367 [run_batch_from_files_with_ops]: before the request
    is removed. [parse] is the JSON reader. *)
Definition run_batch_body (parse : list byte → result str ServiceBatchRequest) (writes : bool) (f : BatchFiles) (w : W)
    : BatchFiles * W * result str () :=
  match bf_request f with
  | None => (f, w, Err (lit "read batch request"))
  | Some bytes =>
      let refuse message :=
        let '(f, written) := write_result writes (MkServiceBatchResult false [] message) f in
        (f, w, match written with Err e => Err e | Ok _ => Err message end) in
      if (MAX_REQUEST_BYTES <? N.of_nat (length bytes))%N then refuse (lit "batch request exceeds 65536 bytes")
      else match parse bytes with
           | Err e => refuse (lit "batch request malformed: " ++ e)
           | Ok request => run_batch_with_ops writes request f w
           end
  end.
(** win32-engine/service_batch.rs:333-368 [run_batch_from_files_with_ops] *)
Definition run_batch_from_files (parse : list byte → result str ServiceBatchRequest) (writes : bool) (f : BatchFiles) (w : W)
    : BatchFiles * W * result str () :=
  let '(f, w, r) := run_batch_body parse writes f w in (MkBatchFiles None (bf_result f), w, r).
End Batch.

(** win32-engine/service_batch.rs:381-399 [orphan_watchdog_body]: what happens when the host is
    gone: whether the process is ended. *)
Definition should_terminate_orphan_batch (completed : bool) : bool := negb completed.

(** ** The Wintun library *)

(** win32-engine/wintun_dependency.rs:6-10 [PreparedWintun] *)
Record PreparedWintun (Lib : Type) := MkPreparedWintun { pw_library : Lib; pw_path : str; pw_recovered_from : option NativeError }.
(** win32-engine/wintun_dependency.rs:12-18 [DependencyError] *)
Record DependencyError := MkDependencyError {
  de_configured : str;
  de_installed : str;
  de_original : NativeError;
  de_fallback : option NativeError;
}.
Arguments MkPreparedWintun {Lib} _ _ _.

(** win32-engine/wintun_dependency.rs:21-27 [DependencyError::actionable_error] *)
Definition actionable_error (e : DependencyError) : NativeError :=
  match de_fallback e with
  | Some f => if (ne_code f =? 2)%N || (ne_code f =? 3)%N then de_original e else f
  | None => de_original e
  end.
(** win32-engine/wintun_dependency.rs:30-66 [prepare_from]; [load] is [WintunLibrary::load]. *)
Definition prepare_from {Lib} (load : str → result NativeError Lib) (configured installed : str)
    : result DependencyError (PreparedWintun Lib) :=
  match load configured with
  | Ok library => Ok (MkPreparedWintun library configured None)
  | Err original =>
      if negb (bool_decide (configured = installed)) then
        match load installed with
        | Ok library => Ok (MkPreparedWintun library installed (Some original))
        | Err error => Err (MkDependencyError configured installed original (Some error))
        end
      else Err (MkDependencyError configured installed original None)
  end.

(** ** Reasoning about programs *)

(** Running [m] after the calls [tr] makes the calls [new] and gives [a]. *)
Definition runs {A} (m : Prog A) (tr new : list Call) (a : A) : Prop := m tr = (tr ++ new, a).
(** A program only adds calls. *)
Class Grows {A} (m : Prog A) : Prop := grows : ∀ tr, ∃ new a, runs m tr new a.

#[export] Instance grows_ret {A} (a : A) : Grows (mret a).
Proof. intros tr. exists [], a. unfold runs, mret, Prog_ret. by rewrite app_nil_r. Qed.
#[export] Instance grows_call {A} c (f : list Call → A) : Grows (call c f).
Proof. intros tr. by eexists [c], _. Qed.
#[export] Instance grows_clock env : Grows (clock env).
Proof. intros tr. exists [], (now env tr). unfold runs, clock. by rewrite app_nil_r. Qed.
#[export] Instance grows_bind {A B} (m : Prog A) (f : A → Prog B) :
  Grows m → (∀ a, Grows (f a)) → Grows (m ≫= f).
Proof.
  intros Hm Hf tr. destruct (Hm tr) as (n1 & a & E1). destruct (Hf a (tr ++ n1)) as (n2 & b & E2).
  exists (n1 ++ n2), b. unfold runs, mbind, Prog_bind in *. rewrite E1, E2. by rewrite (assoc_L (++)).
Qed.
#[export] Instance grows_try {E F A B} (conv : E → F) (m : Prog (result E A)) (k : A → Prog (result F B)) :
  Grows m → (∀ a, Grows (k a)) → Grows (try_ conv m k).
Proof. intros Hm Hk. unfold try_. apply grows_bind; [done|]. intros [a|e]; apply _. Qed.

Lemma runs_bind {A B} (m : Prog A) (f : A → Prog B) tr new b :
  Grows m → (∀ a, Grows (f a)) → runs (m ≫= f) tr new b →
  ∃ n1 a n2, new = n1 ++ n2 ∧ runs m tr n1 a ∧ runs (f a) (tr ++ n1) n2 b.
Proof.
  intros Hm Hf Hr. destruct (Hm tr) as (n1 & a & E1). destruct (Hf a (tr ++ n1)) as (n2 & b' & E2).
  assert (runs (m ≫= f) tr (n1 ++ n2) b') as Hr'.
  { unfold runs, mbind, Prog_bind in *. rewrite E1, E2. by rewrite (assoc_L (++)). }
  unfold runs in Hr, Hr'. rewrite Hr in Hr'. injection Hr' as Heq ->. apply app_inv_head in Heq as ->.
  by exists n1, a, n2.
Qed.
Lemma runs_try {E F A B} (conv : E → F) (m : Prog (result E A)) (k : A → Prog (result F B)) tr new b :
  Grows m → (∀ a, Grows (k a)) → runs (try_ conv m k) tr new b →
  (∃ e, runs m tr new (Err e) ∧ b = Err (conv e))
  ∨ ∃ n1 a n2, new = n1 ++ n2 ∧ runs m tr n1 (Ok a) ∧ runs (k a) (tr ++ n1) n2 b.
Proof.
  intros Hm Hk Hr. unfold try_ in Hr.
  assert (Hf : ∀ r : result E A, Grows (match r with Ok a => k a | Err e => mret (Err (conv e)) end))
    by (intros [a|e]; apply _).
  destruct (runs_bind m _ _ _ _ Hm Hf Hr) as (n1 & [a|e] & n2 & -> & H1 & H2).
  - right. by exists n1, a, n2.
  - left. exists e. unfold runs, mret, Prog_ret in H2. injection H2 as Heq <-.
    symmetry in Heq. rewrite <- (app_nil_r (tr ++ n1)) in Heq at 2. apply app_inv_head in Heq as ->. by rewrite app_nil_r.
Qed.
Lemma runs_ret {A} (a b : A) tr new : runs (mret a) tr new b → new = [] ∧ b = a.
Proof.
  unfold runs, mret, Prog_ret. intros [= Heq <-]. symmetry in Heq. rewrite <- (app_nil_r tr) in Heq at 2. by apply app_inv_head in Heq as ->.
Qed.
Lemma runs_call {A} c (f : list Call → A) tr new a : runs (call c f) tr new a → new = [c] ∧ a = f tr.
Proof. unfold runs, call. intros [= Heq <-]. by apply app_inv_head in Heq as <-. Qed.
Lemma runs_clock env tr new a : runs (clock env) tr new a → new = [] ∧ a = now env tr.
Proof. unfold runs, clock. intros [= Heq <-]. symmetry in Heq. rewrite <- (app_nil_r tr) in Heq at 2. by apply app_inv_head in Heq as ->. Qed.
Lemma runs_fun {A} (m : Prog A) tr n1 n2 a1 a2 : runs m tr n1 a1 → runs m tr n2 a2 → n1 = n2 ∧ a1 = a2.
Proof. unfold runs. intros -> [= E ->]. by apply app_inv_head in E. Qed.

(** Take a run apart. *)
Ltac run_step :=
  match goal with
  | H : runs (try_ _ _ _) _ _ _ |- _ =>
      apply runs_try in H as [(?e & ?H & ?)|(?n & ?a & ?n & ? & ?H & ?H)]; [..|apply _|apply _]; subst
  | H : runs (_ ≫= _) _ _ _ |- _ => apply runs_bind in H as (?n & ?a & ?n & ? & ?H & ?H); [|apply _|apply _]; subst
  | H : runs (mret _) _ _ _ |- _ => apply runs_ret in H as [? ?]; subst
  | H : runs (call _ _) _ _ _ |- _ => apply runs_call in H as [? ?]; subst
  | H : runs (clock _) _ _ _ |- _ => apply runs_clock in H as [? ?]; subst
  end.

#[export] Instance grows_if {A} (b : bool) (m n : Prog A) : Grows m → Grows n → Grows (if b then m else n).
Proof. by destruct b. Qed.
#[export] Instance grows_request env : Grows (request_stop env).
Proof. apply _. Qed.
#[export] Instance grows_maybe env st l : Grows (maybe_request env st l).
Proof. unfold maybe_request. apply _. Qed.
#[export] Instance grows_stop_loop env fuel deadline poll l : Grows (stop_loop env fuel deadline poll l).
Proof.
  revert l. induction fuel as [|fuel IH]; intros l; simpl; [apply _|].
  apply grows_bind; [apply _|]. intros [st|e]; [|apply _]. destruct (bool_decide (st = Stopped)); [apply _|].
  apply grows_bind; [apply _|]. intros [l'|e]; apply _.
Qed.
#[export] Instance grows_stop env : Grows (stop_service_instance env).
Proof. unfold stop_service_instance, wait_for_service_stopped. apply _. Qed.
#[export] Instance grows_removed_loop env fuel deadline : Grows (removed_loop env fuel deadline).
Proof.
  induction fuel as [|fuel IH]; simpl; [apply _|]. apply grows_bind; [apply _|]. intros [?|e]; apply _.
Qed.
#[export] Instance grows_removed env : Grows (wait_service_removed env).
Proof. unfold wait_service_removed. apply grows_bind; [apply _|]. intros []; apply _. Qed.
#[export] Instance grows_cleanup env : Grows (uninstall_cleanup env).
Proof. unfold uninstall_cleanup. apply _. Qed.
#[export] Instance grows_present env : Grows (uninstall_present env).
Proof. unfold uninstall_present. apply _. Qed.
#[export] Instance grows_register env : Grows (register_service env).
Proof. unfold register_service, configure_failure_actions. apply grows_bind; [apply _|]. intros []; apply _. Qed.

(** ** Stopping ends *)

(** The clock does not go back, and a sleep takes at least as long as it is asked to. *)
Definition clock_ok (env : Env) : Prop :=
  ∀ tr c, (now env tr + (match c with C_Sleep ms => ms | _ => 0 end) ≤ now env (tr ++ [c]))%N.

Lemma clock_ok_mono env tr new : clock_ok env → (now env tr ≤ now env (tr ++ new))%N.
Proof.
  intros Hc. revert tr. induction new as [|c new IH]; intros tr; [by rewrite app_nil_r|].
  pose proof (Hc tr c) as H1. specialize (IH (tr ++ [c])). rewrite <- (assoc_L (++)) in IH. simpl in IH. lia.
Qed.

Definition stops (new : list Call) : nat := length (base.filter (λ c, c = C_Stop) new).
Lemma stops_app a b : stops (a ++ b) = stops a + stops b.
Proof. unfold stops. by rewrite filter_app, length_app. Qed.

Lemma request_stop_runs env tr new r : runs (request_stop env) tr new r → new = [C_Stop].
Proof. unfold request_stop. intros Hr. by repeat run_step. Qed.

(** Asking for the stop: at most once a turn, only of a service that can take it, and not
    after it was granted or three times in all. *)
Lemma maybe_request_runs env state l tr new r :
  runs (maybe_request env state l) tr new r →
  stops new ≤ 1 ∧ Forall (λ c, c = C_Stop) new
  ∧ (stops new = 1 → state = SvcRunning ∨ state = Paused)
  ∧ match r with
    | Ok l' => sl_attempts l' = (sl_attempts l + N.of_nat (stops new))%N
               ∧ (sl_attempts l ≤ MAX_STOP_REQUEST_ATTEMPTS → sl_attempts l' ≤ MAX_STOP_REQUEST_ATTEMPTS)%N
    | Err _ => (sl_attempts l < MAX_STOP_REQUEST_ATTEMPTS)%N
    end.
Proof.
  unfold maybe_request. destruct (_ && _) eqn:E.
  - apply andb_true_iff in E as [[E1 E2]%andb_true_iff E3%N.ltb_lt]. intros Hr.
    assert (Hst : state = SvcRunning ∨ state = Paused)
      by (apply orb_true_iff in E1 as [H|H]; apply bool_decide_eq_true in H; auto).
    apply runs_try in Hr as [(e & Hq & ->)|(n1 & a & n2 & -> & Hq & Hr)]; [..|apply _|apply _];
      apply request_stop_runs in Hq as ->.
    + split_and!; [done|by repeat constructor|done|done].
    + run_step. cbn [app]. change (stops [C_Stop]) with 1.
      unfold MAX_STOP_REQUEST_ATTEMPTS in *.
      split_and!; [done|by apply Forall_singleton|done|destruct a; simpl; lia..].
  - intros Hr. run_step. change (stops []) with 0. split_and!; auto; lia.
Qed.

Lemma stop_loop_runs env fuel deadline poll l tr :
  clock_ok env → (0 < poll)%N → 0 < fuel → (deadline ≤ now env tr + N.of_nat (fuel - 1) * poll)%N →
  (sl_attempts l ≤ MAX_STOP_REQUEST_ATTEMPTS)%N →
  ∃ new r, runs (stop_loop env fuel deadline poll l) tr new (Some r)
    ∧ (N.of_nat (stops new) + sl_attempts l ≤ MAX_STOP_REQUEST_ATTEMPTS)%N
    ∧ Forall (λ c, c = C_Query ∨ c = C_Stop ∨ c = C_Sleep poll) new
    ∧ (r = Ok () → ∃ before, new = before ++ [C_Query] ∧ on_query env (tr ++ before) = Ok Stopped).
Proof.
  intros Hc Hp Hf. revert l tr. induction fuel as [|fuel IH]; [lia|]. clear Hf. intros l tr Hd Ha.
  destruct (grows_stop_loop env (S fuel) deadline poll l tr) as (new & r & Hr). simpl in Hr.
  assert (Hrun := Hr). apply runs_bind in Hr as (n1 & a & n2 & -> & Hq & Hr); [|apply _|].
  2:{ intros [st|e]; [|apply _]. destruct (bool_decide (st = Stopped)); [apply _|].
      apply grows_bind; [apply _|]. intros [l'|e]; apply _. }
  run_step. destruct (on_query env tr) as [st|e] eqn:Eq.
  2:{ run_step. exists [C_Query], (Err (SE_Query e (sl_last l) (sl_attempts l) (sl_accepted l))).
      split_and!; [exact Hrun|change (stops [C_Query]) with 0; lia|by repeat constructor|done]. }
  destruct (bool_decide (st = Stopped)) eqn:Est.
  { run_step. apply bool_decide_eq_true in Est as ->. exists [C_Query], (Ok ()).
    split_and!; [exact Hrun|change (stops [C_Query]) with 0; lia|by repeat constructor|]. intros _. exists []. by rewrite app_nil_r. }
  apply runs_bind in Hr as (n3 & a & n4 & -> & Hm & Hr); [|apply _|intros [l'|e]; apply _].
  apply maybe_request_runs in Hm as (Hs1 & Hall & _ & Hm). cbn [sl_attempts] in Hm.
  assert (Hcalls : Forall (λ c, c = C_Query ∨ c = C_Stop ∨ c = C_Sleep poll) n3)
    by (eapply Forall_impl; [exact Hall|]; naive_solver).
  destruct a as [l'|e].
  2:{ run_step. exists ([C_Query] ++ n3 ++ []), (Err e). rewrite app_nil_r in *.
      split_and!; [exact Hrun|rewrite stops_app; change (stops [C_Query]) with 0; lia|constructor; auto|done]. }
  destruct Hm as [Hat Hcap]. specialize (Hcap Ha).
  apply runs_bind in Hr as (n5 & t & n6 & -> & Ht & Hr); [|apply _|intros; apply _]. run_step.
  destruct (N.leb_spec deadline (now env ((tr ++ [C_Query]) ++ n3))) as [Hle|Hlt].
  { run_step. eexists ([C_Query] ++ n3 ++ [] ++ []), (Err _). rewrite !app_nil_r in *.
    split_and!; [exact Hrun|rewrite stops_app; change (stops [C_Query]) with 0; lia|constructor; auto|done]. }
  apply runs_bind in Hr as (n7 & u & n8 & -> & Hsl & Hr); [|apply _|intros; apply _]. run_step.
  rewrite app_nil_r in Hr. set (tr2 := (tr ++ [C_Query]) ++ n3) in *.
  assert (Hnow : (now env tr ≤ now env tr2)%N) by (unfold tr2; rewrite <- (assoc_L (++)); by apply clock_ok_mono).
  pose proof (Hc tr2 (C_Sleep poll)) as Hsleep. simpl in Hsleep.
  destruct fuel as [|fuel]; [simpl in Hd; lia|].
  destruct (IH ltac:(lia) l' (tr2 ++ [C_Sleep poll])) as (new' & r' & Hrun' & Hb & Hall' & Hok); [|done|].
  { replace (N.of_nat (S (S fuel) - 1)) with (N.of_nat (S fuel - 1) + 1)%N in Hd by lia. nia. }
  destruct (runs_fun _ _ _ _ _ _ Hr Hrun') as [-> ->].
  eexists _, r'. split_and!; [exact Hrun| | |].
  - rewrite !stops_app. change (stops [C_Query]) with 0. change (stops []) with 0. change (stops [C_Sleep poll]) with 0. lia.
  - constructor; [by left|]. apply Forall_app. split; [done|]. simpl. constructor; [by right; right|done].
  - intros ->. destruct (Hok eq_refl) as (before & -> & Hb'). exists ([C_Query] ++ n3 ++ [] ++ [C_Sleep poll] ++ before).
    split; [by rewrite <- !(assoc_L (++))|]. unfold tr2 in Hb'. by rewrite <- !(assoc_L (++)) in *.
Qed.

Lemma wait_stopped_runs env timeout poll tr :
  clock_ok env → (0 < poll)%N →
  ∃ new r, runs (wait_for_service_stopped env timeout poll) tr new (Some r)
    ∧ (N.of_nat (stops new) ≤ MAX_STOP_REQUEST_ATTEMPTS)%N
    ∧ Forall (λ c, c = C_Query ∨ c = C_Stop ∨ c = C_Sleep poll) new
    ∧ (r = Ok () → ∃ before, new = before ++ [C_Query] ∧ on_query env (tr ++ before) = Ok Stopped).
Proof.
  intros Hc Hp.
  destruct (stop_loop_runs env (N.to_nat (timeout / poll) + 2) (now env tr + timeout) poll (MkStopLoop false false 0 None) tr Hc Hp)
    as (new & r & Hrun & Hs & Hall & Hok); [apply Nat.add_pos_r; lia| |done|].
  { pose proof (N.div_mod' timeout poll) as E. pose proof (N.mod_lt timeout poll ltac:(lia)).
    generalize dependent (timeout mod poll)%N. generalize (timeout / poll)%N. intros q m -> Hm. nia. }
  exists new, r. split_and!; auto. simpl in Hs. lia.
Qed.

(** C29: Stopping the service is bounded and honest: whatever the service manager replies,
    as long as a sleep takes the time it is asked to, waiting for the service to stop
    returns; it asks for the stop at most three times, otherwise only looks and sleeps,
    and reports success only when the last thing it saw was the stopped state. *)
Theorem service_stop_bounded env timeout poll tr :
  clock_ok env → (0 < poll)%N →
  ∃ new r, wait_for_service_stopped env timeout poll tr = (tr ++ new, Some r)
    ∧ (N.of_nat (stops new) ≤ MAX_STOP_REQUEST_ATTEMPTS)%N
    ∧ Forall (λ c, c = C_Query ∨ c = C_Stop ∨ c = C_Sleep poll) new
    ∧ (r = Ok () → ∃ before, new = before ++ [C_Query] ∧ on_query env (tr ++ before) = Ok Stopped).
Proof. apply wait_stopped_runs. Qed.

(** A service that runs, is asked to stop, and is stopped two looks later. *)
Definition sample_env : Env :=
  let ok {A} (a : A) : list Call → result ScmError A := λ _, Ok a in
  MkEnv (ok ()) (ok ()) (ok ())
    (λ tr, Ok (if bool_decide (C_Stop ∈ tr) then if 3 <? length tr then Stopped else StopPending else SvcRunning))
    (ok ()) (ok ()) (ok ()) (ok ()) (ok ()) (λ _, Ok [7%N]) (λ _, Ok ())
    (λ tr, foldr (λ c n, match c with C_Sleep ms => ms + n | _ => n end)%N 0%N tr).

Lemma sample_clock_ok : clock_ok sample_env.
Proof.
  intros tr c. simpl. induction tr as [|d tr IH]; simpl; [destruct c; lia|]. destruct d; simpl; lia.
Qed.

Lemma service_stop_bounded_witness :
  ∃ new r, wait_for_service_stopped sample_env 7300 100 [] = ([] ++ new, Some r) ∧ r = Ok () ∧ stops new = 1.
Proof.
  destruct (service_stop_bounded sample_env 7300 100 [] sample_clock_ok ltac:(lia)) as (new & r & Hrun & _).
  exists new, r. split; [exact Hrun|]. simpl in Hrun.
  assert (Heq : wait_for_service_stopped sample_env 7300 100 []
                = ([C_Query; C_Stop; C_Sleep 100; C_Query; C_Sleep 100; C_Query], Some (Ok ())))
    by (vm_compute; reflexivity).
  rewrite Heq in Hrun. injection Hrun as <- <-. split; reflexivity.
Defined.

(** ** The order of things *)

Lemma stop_instance_runs env tr new r :
  clock_ok env → runs (stop_service_instance env) tr new r →
  Forall (λ c, c = C_Query ∨ c = C_Stop ∨ c = C_Sleep 100) new
  ∧ (r = Ok () → ∃ before, new = before ++ [C_Query] ∧ on_query env (tr ++ before) = Ok Stopped).
Proof.
  intros Hc Hr. destruct (wait_stopped_runs env SERVICE_STOP_TIMEOUT 100 tr Hc ltac:(lia)) as (n & r' & Hrun & _ & Hall & Hok).
  assert (runs (stop_service_instance env) tr n r') as Hr'.
  { unfold runs, stop_service_instance, mbind, Prog_bind in *. by rewrite Hrun. }
  destruct (runs_fun _ _ _ _ _ _ Hr Hr') as [-> ->]. auto.
Qed.

Lemma removed_loop_calls env fuel deadline tr new r :
  runs (removed_loop env fuel deadline) tr new r → Forall (λ c, c = C_Open ∨ c = C_Sleep SERVICE_REMOVE_WAIT_POLL) new.
Proof.
  revert tr new. induction fuel as [|fuel IH]; intros tr new Hr; simpl in Hr; [run_step; constructor|].
  apply runs_bind in Hr as (n1 & a & n2 & -> & Ho & Hr); [|apply _|intros []; apply _]. run_step.
  constructor; [by left|].
  assert (Hagain : ∀ m, runs (t ← clock env; if (deadline <=? t)%N then mret false
            else _ ← call (C_Sleep SERVICE_REMOVE_WAIT_POLL) (λ _, ()); removed_loop env fuel deadline) (tr ++ [C_Open]) m r →
            Forall (λ c, c = C_Open ∨ c = C_Sleep SERVICE_REMOVE_WAIT_POLL) m).
  { intros m Hm. run_step. destruct (deadline <=? a)%N; repeat run_step; simpl; [constructor|].
    constructor; [by right|]. by eapply IH. }
  destruct (on_open env tr) as [?|e]; [by apply Hagain|].
  destruct (service_not_found e); [run_step; constructor|].
  destruct (service_marked_for_delete e); [by apply Hagain|run_step; constructor].
Qed.
Lemma wait_removed_calls env tr new r :
  runs (wait_service_removed env) tr new r →
  Forall (λ c, c = C_Manager ∨ c = C_Open ∨ c = C_Sleep SERVICE_REMOVE_WAIT_POLL) new.
Proof.
  unfold wait_service_removed. intros Hr. apply runs_bind in Hr as (n1 & a & n2 & -> & Ho & Hr); [|apply _|intros []; apply _].
  run_step. constructor; [by left|]. destruct (on_manager env tr); [|run_step; constructor].
  apply runs_bind in Hr as (n3 & t & n4 & -> & Ht & Hr); [|apply _|intros; apply grows_removed_loop].
  apply runs_clock in Ht as [-> _]. apply removed_loop_calls in Hr.
  eapply Forall_impl; [exact Hr|]. naive_solver.
Qed.

Lemma cleanup_runs env tr new r :
  runs (uninstall_cleanup env) tr new r →
  ∃ waiting, new = waiting ++ [C_DeleteKey]
    ∧ Forall (λ c, c = C_Manager ∨ c = C_Open ∨ c = C_Sleep SERVICE_REMOVE_WAIT_POLL) waiting.
Proof.
  unfold uninstall_cleanup. intros Hr. repeat run_step. rewrite app_nil_r. eexists. split; [reflexivity|].
  by eapply wait_removed_calls.
Qed.

(** Calls that neither delete the entry nor the key. *)
Definition harmless (new : list Call) : Prop := Forall (λ c, c ≠ C_Delete ∧ c ≠ C_DeleteKey) new.
Lemma harmless_not new : harmless new → (C_Delete ∉ new) ∧ (C_DeleteKey ∉ new).
Proof. intros H. unfold harmless in H. rewrite Forall_forall in H. split; intros Hin; by destruct (H _ Hin). Qed.

Lemma present_runs env tr new r :
  clock_ok env → runs (uninstall_present env) tr new r →
  harmless new
  ∨ ∃ before, on_query env (tr ++ before) = Ok Stopped ∧ harmless before
      ∧ (new = before ++ [C_Query; C_Delete]
         ∨ (on_delete env (tr ++ before ++ [C_Query]) = Ok ()
            ∧ ∃ waiting, harmless waiting ∧ new = before ++ [C_Query; C_Delete; C_Close] ++ waiting ++ [C_DeleteKey])).
Proof.
  intros Hc Hr. unfold uninstall_present in Hr.
  apply runs_try in Hr as [(e & Hs & ->)|(n1 & [] & n2 & -> & Hs & Hr)]; [| |apply _|apply _];
    apply stop_instance_runs in Hs as [Hall Hok]; try done.
  { left. eapply Forall_impl; [exact Hall|]. naive_solver. }
  right. destruct (Hok eq_refl) as (before & -> & Hq). exists before. split; [done|].
  split. { apply Forall_app in Hall as [Hall _]. eapply Forall_impl; [exact Hall|]. naive_solver. }
  apply runs_try in Hr as [(e & Hd & ->)|(n3 & [] & n4 & -> & Hd & Hr)]; [| |apply _|apply _];
    apply runs_call in Hd as [-> Hd].
  { left. by rewrite <- (assoc_L (++)). }
  right. split; [done|]. apply runs_bind in Hr as (n5 & u & n6 & -> & Hcl & Hr); [|apply _|apply _].
  apply runs_call in Hcl as [-> _]. apply cleanup_runs in Hr as (waiting & -> & Hw).
  exists waiting. split; [eapply Forall_impl; [exact Hw|]; naive_solver|]. by rewrite <- (assoc_L (++)).
Qed.

(** C30: Removing the service happens in order: it is deleted only when the last thing seen
    of it, just before, was the stopped state; and its key is deleted last and only after
    the entry was deleted, or was found absent or already marked for deletion; a service
    that does not stop keeps its entry and its key. *)
Theorem uninstall_in_order env tr new r :
  clock_ok env → uninstall_service env tr = (tr ++ new, r) →
  (C_Delete ∈ new → ∃ before after, new = before ++ [C_Query; C_Delete] ++ after ∧ on_query env (tr ++ before) = Ok Stopped)
  ∧ (C_DeleteKey ∈ new →
     last new = Some C_DeleteKey
     ∧ ((∃ before after, new = before ++ [C_Delete] ++ after ∧ on_delete env (tr ++ before) = Ok ())
        ∨ ∃ e, on_open env (tr ++ [C_Manager]) = Err e ∧ service_absent_or_marked_for_delete e = true)).
Proof.
  intros Hc Hr. change (runs (uninstall_service env) tr new r) in Hr. unfold uninstall_service in Hr.
  assert (Hquiet : ∀ new', harmless new' → new = [C_Manager; C_Open] ++ new' → (C_Delete ∉ new) ∧ (C_DeleteKey ∉ new)).
  { intros new' Hn ->. destruct (harmless_not _ Hn). split; set_solver. }
  apply runs_try in Hr as [(e & Hm & ->)|(n1 & a & n2 & -> & Hm & Hr)]; [| |apply _|intros; apply grows_bind; [apply _|intros []; apply _]].
  { run_step. split; intros; set_solver. }
  run_step. apply runs_bind in Hr as (n3 & o & n4 & -> & Ho & Hr); [|apply _|intros []; apply _]. run_step.
  destruct (on_open env (tr ++ [C_Manager])) as [?|e] eqn:Eo.
  - apply (present_runs env _ _ _ Hc) in Hr as [Hn|(before & Hq & Hb & [->|(Hd & waiting & Hw & ->)])].
    + destruct (Hquiet _ Hn eq_refl). by split; intros.
    + rewrite <- !(assoc_L (++)) in Hq. split; [intros _; by exists ([C_Manager; C_Open] ++ before), []|].
      destruct (harmless_not _ Hb). set_solver.
    + rewrite <- !(assoc_L (++)) in Hq, Hd. split; intros _.
      * exists ([C_Manager; C_Open] ++ before), ([C_Close] ++ waiting ++ [C_DeleteKey]). split; [|done]. by rewrite <- (assoc_L (++)).
      * split; [by rewrite !(assoc_L (++)), last_snoc|]. left.
        exists ([C_Manager; C_Open] ++ before ++ [C_Query]), ([C_Close] ++ waiting ++ [C_DeleteKey]).
        split; [|done]. by rewrite <- !(assoc_L (++)).
  - destruct (service_absent_or_marked_for_delete e) eqn:Ee; [|run_step; split; intros; set_solver].
    apply cleanup_runs in Hr as (waiting & -> & Hw).
    assert (harmless waiting) as [Hn _]%harmless_not by (eapply Forall_impl; [exact Hw|]; naive_solver).
    split; [intros; set_solver|]. intros _. split; [by rewrite !(assoc_L (++)), last_snoc|]. right. eauto.
Qed.

Lemma uninstall_in_order_witness :
  ∃ new r, uninstall_service sample_env [] = ([] ++ new, r) ∧ last new = Some C_DeleteKey.
Proof.
  destruct (uninstall_service sample_env []) as [new r] eqn:E. exists new, r. split; [reflexivity|].
  refine (proj1 (proj2 (uninstall_in_order sample_env [] new r sample_clock_ok E) _)).
  assert (Hin : existsb (λ c, bool_decide (c = C_DeleteKey)) (uninstall_service sample_env []).1 = true)
    by (vm_compute; reflexivity).
  rewrite E in Hin. apply existsb_exists in Hin as (c & Hc & ->%bool_decide_eq_true). by apply list_elem_of_In.
Defined.

(** Installing writes a new key only for a service that is registered; a repaired one was
    seen stopped before its configuration changed. *)
Lemma register_no_key env tr new r sid :
  clock_ok env → runs (register_service env) tr new r →
  (C_WriteKey sid ∉ new)
  ∧ (C_ChangeConfig ∈ new → ∃ before after, new = before ++ [C_Query; C_ChangeConfig] ++ after
                                            ∧ on_query env (tr ++ before) = Ok Stopped).
Proof.
  intros Hc Hr. unfold register_service in Hr.
  apply runs_bind in Hr as (n1 & a & n2 & -> & Hcr & Hr); [|apply _|unfold configure_failure_actions; intros []; apply _].
  run_step. destruct (on_create env tr) as [?|e].
  { unfold configure_failure_actions in Hr. repeat run_step. simpl. split; [set_solver|intros; set_solver]. }
  destruct (service_marked_for_delete e).
  { apply runs_bind in Hr as (n3 & b & n4 & -> & Hw & Hr); [|apply _|unfold configure_failure_actions; apply _].
    apply wait_removed_calls in Hw.
    assert (Hn3 : (C_WriteKey sid ∉ n3) ∧ (C_ChangeConfig ∉ n3)).
    { rewrite Forall_forall in Hw. split; intros Hin; by destruct (Hw _ Hin) as [?|[?|?]]. }
    unfold configure_failure_actions in Hr. destruct b; simpl in Hr; repeat run_step; set_solver. }
  destruct (service_exists e); [|run_step; set_solver].
  unfold configure_failure_actions in Hr.
  apply runs_try in Hr as [(e' & Ho & ->)|(n3 & u & n4 & -> & Ho & Hr)]; [| |apply _|apply _]; apply runs_call in Ho as [-> Ho];
    [set_solver|].
  apply runs_try in Hr as [(e' & Hs & ->)|(n5 & [] & n6 & -> & Hs & Hr)]; [| |apply _|apply _];
    apply stop_instance_runs in Hs as [Hall Hok]; try done.
  { assert (Hn : ∀ c, c ∈ n4 → c ≠ C_WriteKey sid ∧ c ≠ C_ChangeConfig)
      by (intros c Hin; rewrite Forall_forall in Hall; by destruct (Hall c Hin) as [->|[->| ->]]).
    split; [intros Hin|intros Hin; exfalso]; repeat (apply elem_of_cons in Hin as [?|Hin]; [done|]); by destruct (Hn _ Hin). }
  destruct (Hok eq_refl) as (before & -> & Hq). apply Forall_app in Hall as [Hall _].
  assert (Hb : ∀ c, c ∈ before → c ≠ C_WriteKey sid)
    by (intros c Hin; rewrite Forall_forall in Hall; by destruct (Hall c Hin) as [->|[->| ->]]).
  apply runs_try in Hr as [(e' & Hch & ->)|(n7 & u' & n8 & -> & Hch & Hr)]; [| |apply _|apply _]; apply runs_call in Hch as [-> _].
  - split; [set_solver|]. intros _. exists ([C_Create; C_Open] ++ before), []. split; [by rewrite <- !(assoc_L (++))|].
    by rewrite <- !(assoc_L (++)) in Hq.
  - repeat run_step. split; [set_solver|]. intros _. eexists ([C_Create; C_Open] ++ before), _.
    split; [by rewrite <- !(assoc_L (++))|]. by rewrite <- !(assoc_L (++)) in Hq.
Qed.

(** ** Batches *)

Section BatchSpec.
Context {W : Type} `{!BatchServiceOps W} (is_absolute : str → bool).

(** The reference: perform steps one after another until one fails. *)
Fixpoint perform_until (config_dir : str) (steps : list BatchStep) (w : W) : W * list (result str str) :=
  match steps with
  | [] => (w, [])
  | step :: steps =>
      let '(w, r) := perform config_dir step w in
      match r with
      | Ok _ => let '(w, rs) := perform_until config_dir steps w in (w, r :: rs)
      | Err _ => (w, [r])
      end
  end.
Definition as_result (step : BatchStep) (r : result str str) : BatchStepResult :=
  match r with Ok m => MkBatchStepResult step true m | Err e => MkBatchStepResult step false e end.

Lemma perform_until_length config_dir steps w : length (perform_until config_dir steps w).2 ≤ length steps.
Proof.
  revert w. induction steps as [|step steps IH]; intros w; simpl; [lia|].
  destruct (perform config_dir step w) as [w1 [m|e]]; simpl; [|lia].
  specialize (IH w1). destruct (perform_until config_dir steps w1). simpl in *. lia.
Qed.

Lemma execute_steps_spec config_dir index steps past w :
  let '(w', rs) := perform_until config_dir steps w in
  let '(w'', res) := execute_steps config_dir index steps past w in
  w'' = w' ∧ bt_steps res = past ++ zip_with as_result steps rs
  ∧ bt_ok res = forallb is_ok rs
  ∧ (bt_ok res = true → length rs = length steps).
Proof.
  revert index past w. induction steps as [|step steps IH]; intros index past w; simpl; [by rewrite app_nil_r|].
  destruct (perform config_dir step w) as [w1 [m|e]]; simpl; [|split_and!; auto; by destruct steps].
  specialize (IH (index + 1)%N (past ++ [MkBatchStepResult step true m]) w1).
  destruct (perform_until config_dir steps w1) as [w' rs].
  destruct (execute_steps config_dir (index + 1) steps _ w1) as [w'' res]. simpl in *.
  destruct IH as (-> & -> & -> & Hl). rewrite <- (assoc_L (++)). split_and!; auto.
Qed.
End BatchSpec.

(** A batch of elevated steps stops at the first failure and reports honestly: of a
    valid request exactly the steps up to and with the first that fails are performed, in
    order, each once, the result lists exactly their outcomes, and it is a success if and
    only if all steps were performed and succeeded; an oversized, malformed or invalid
    request performs nothing; the request file is gone afterwards in every case, and the
    result file is written whenever there was a request and it can be written. *)
Theorem batch_stops_at_failure {W} `{!BatchServiceOps W} is_absolute parse writes f (w : W) :
  let '(f', w', r) := run_batch_from_files is_absolute parse writes f w in
  bf_request f' = None
  ∧ (is_Some (bf_request f) → writes = true → is_Some (bf_result f') ∧ (r = Ok () ↔ bt_ok <$> bf_result f' = Some true))
  ∧ match bf_request f with
    | None => w' = w ∧ bf_result f' = bf_result f
    | Some bytes =>
        match (if (MAX_REQUEST_BYTES <? N.of_nat (length bytes))%N then Err [] else parse bytes) with
        | Err _ => w' = w ∧ is_ok r = false
        | Ok request =>
            match validate_request is_absolute request with
            | Err _ => w' = w ∧ is_ok r = false
            | Ok _ =>
                let '(w'', rs) := perform_until (br_config_dir request) (br_sequence request) w in
                w' = w''
                ∧ (writes = true →
                   bt_steps <$> bf_result f' = Some (zip_with as_result (br_sequence request) rs)
                   ∧ (r = Ok () ↔ length rs = length (br_sequence request) ∧ forallb is_ok rs = true))
            end
        end
    end.
Proof.
  unfold run_batch_from_files, run_batch_body. destruct f as [[bytes|] old]; simpl; [|naive_solver].
  destruct (MAX_REQUEST_BYTES <? N.of_nat (length bytes))%N; [destruct writes; simpl; naive_solver|].
  destruct (parse bytes) as [request|e]; [|destruct writes; simpl; naive_solver].
  unfold run_batch_with_ops, execute_batch.
  destruct (validate_request is_absolute request) as [u|e]; [|destruct writes; simpl; naive_solver].
  pose proof (execute_steps_spec (br_config_dir request) 0 (br_sequence request) [] w) as Hs.
  destruct (perform_until _ _ _) as [w1 rs]. destruct (execute_steps _ _ _ _ _) as [w2 res].
  destruct Hs as (-> & Hsteps & Hok & Hlen). simpl in Hsteps. unfold write_result.
  destruct writes; simpl; [|naive_solver]. rewrite Hsteps. split_and!; auto.
  - intros _ _. split; [by eexists|]. destruct (bt_ok res); naive_solver.
  - intros _. split; [done|]. rewrite <- Hok. destruct (bt_ok res); naive_solver.
Qed.

(** Wintun: the configured library when it loads, else the installed one; the error to act
    on is the installed copy's own, unless that copy is merely missing. *)
Lemma prepare_from_spec {Lib} (load : str → result NativeError Lib) configured installed :
  match prepare_from load configured installed with
  | Ok p => load (pw_path _ p) = Ok (pw_library _ p) ∧ (pw_path _ p = configured ∨ pw_path _ p = installed)
            ∧ (pw_path _ p = configured ↔ pw_recovered_from _ p = None)
  | Err e => load configured = Err (de_original e)
             ∧ (configured ≠ installed → ∃ f, de_fallback e = Some f ∧ load installed = Err f)
  end.
Proof.
  unfold prepare_from. destruct (load configured) as [lib|original] eqn:E1; simpl; [naive_solver|].
  case_bool_decide; simpl; [naive_solver|]. destruct (load installed) eqn:E2; simpl; naive_solver.
Qed.
