(* ===== verification/EngineRuntime.v ===== *)
(** * The tunnel runtime of the Windows engine

    [tunnel_runtime.rs] of the Windows engine crate: the errors of a connection and their
    wire form, and the runtime that assembles a connection in a thread of its own, hands
    it to the data plane, takes it down on request or when its data plane is lost, and
    keeps what could not be undone for a later attempt.

    The runtime is a transition system over its threads: assemblies, callers of
    [disconnect] and [teardown], one sweeper for each connection, and the worker threads
    of the data planes. A thread is where it stands in its function and what it carries;
    a step is what it does between two points at which others can intervene. The
    [resources] lock is held over many steps and can be poisoned; the [lifecycle_commit],
    [live], [nic] and [pending_routes] locks are held within one. What the network, the
    gateway and the system answer is the reply a step is given. Log output is left out.

    The network settings are the class [TunnelPlatform], which [RouteOwner] implements;
    the groups of worker threads are their states as [EnginePlane] describes them: a loss
    is claimed once, after the group was released, and then told to the sweeper and to
    the publisher. *)

From Stdlib Require Import NArith ZArith Strings.Byte Strings.String Lia.
From S2P Require Import Prelude Model Text Connector Http WebVpnLogin Offer Session NativeError.
From S2P Require Import IpHelper Routes RouteOwner Adapters Config Channel EngineStatus EngineProbe EnginePlane EngineService.

#[export] Instance SocketAddr_eq_dec : EqDecision SocketAddr. Proof. solve_decision. Defined.

(** ** Errors *)

(** win32-engine/tunnel_runtime.rs:178-196 [TunnelErrorKind] *)
Inductive TunnelErrorKind :=
  | TK_DuplicateConnect | TK_MissingCredentials | TK_LoginRejected | TK_LoginSaml | TK_Transport | TK_Platform
  | TK_PlatformDependency.
#[export] Instance TunnelErrorKind_eq_dec : EqDecision TunnelErrorKind. Proof. solve_decision. Defined.

(** win32-engine/tunnel_runtime.rs:155-169 [TunnelError]; the detail without what is
    formatted into it. *)
Record TunnelError := MkTunnelError {
  te_kind : TunnelErrorKind;
  te_connect_phase : ConnectPhase;
  te_code : N;
  te_a0 : N;
  te_detail : string;
}.

(** win32-engine/tunnel_runtime.rs:171-172 [ERROR_CODE_SAML_REQUIRED] *)
Definition ERROR_CODE_SAML_REQUIRED : N := 1.
(** win32-engine/tunnel_runtime.rs:173-174 [ERROR_STAGE_INGRESS] *)
Definition ERROR_STAGE_INGRESS : N := 1.
(** win32-engine/tunnel_runtime.rs:175-176 [RETRY_ADVICE_DO_NOT_RETRY] *)
Definition RETRY_ADVICE_DO_NOT_RETRY : N := 1.

Definition is_dependency (e : TunnelError) : bool := bool_decide (te_kind e = TK_PlatformDependency).
Definition is_local (e : TunnelError) : bool := is_dependency e || bool_decide (te_kind e = TK_Platform).

(** win32-engine/tunnel_runtime.rs:208-293 [tunnel_error_to_wire] *)
Definition tunnel_error_to_wire (e : TunnelError) : WireVpnError :=
  let code := match te_kind e with
              | TK_DuplicateConnect => 3
              | TK_MissingCredentials => 1
              | TK_LoginRejected => if negb (te_a0 e =? 0) then 15 else 13
              | TK_LoginSaml => 1
              | TK_Transport => 16
              | TK_Platform => 13
              | TK_PlatformDependency => 19
              end%N in
  let stage := if is_local e then
                 match te_connect_phase e with ObservingOwnedState => 3 | StartingDataPlane => 10 | _ => 8 end%N
               else ERROR_STAGE_INGRESS in
  let certainty := if is_dependency e then
                     match te_connect_phase e with ObservingOwnedState => 1 | _ => 4 end%N
                   else 0%N in
  let category := if is_dependency e then if (te_code e =? 5)%N then 1%N else 5%N
                  else if is_local e then 4%N else 2%N in
  let namespace := if is_dependency e && negb (N.land (te_code e) 4294901760 =? 0)%N then 2%N else 1%N in
  MkWireVpnError code stage certainty RETRY_ADVICE_DO_NOT_RETRY None None
    (Some (MkWireNativeError category namespace (Z.of_N (if is_local e then te_code e else te_a0 e)))).

(** win32-engine/tunnel_runtime.rs:296-314 [TunnelError::login] *)
Definition error_login (e : LoginError) : TunnelError :=
  let a0 := default 0%N (a0_result e ≫= parse_uint 10 (2 ^ 32 - 1)) in
  let '(kind, code) := match e with
                       | SamlRequired => (TK_LoginSaml, ERROR_CODE_SAML_REQUIRED)
                       | _ => (TK_LoginRejected, 0%N)
                       end in
  MkTunnelError kind ConnectingControl code a0 "engine: login".
(** win32-engine/tunnel_runtime.rs:316-325 [TunnelError::session] *)
Definition error_session (e : SessionError) : TunnelError :=
  MkTunnelError TK_Transport ConnectingControl 0 0 "engine: connect-tunnel".
(** win32-engine/tunnel_runtime.rs:327-336 [TunnelError::plain] *)
Definition error_plain (phase : ConnectPhase) (detail : string) : TunnelError :=
  MkTunnelError TK_Platform phase 0 0 detail.
(** win32-engine/tunnel_runtime.rs:1416-1424 [RealTunnelRuntime::cancelled_error] *)
Definition cancelled_error (phase : ConnectPhase) : TunnelError :=
  MkTunnelError TK_Platform phase 0 0 "engine: cancelled".

(** win32-engine/tunnel_runtime.rs:1380-1404 [RealTunnelRuntime::run_assemble_with_reset]: the
    error of an assembly that panicked. *)
Definition panic_error : WireVpnError :=
  MkWireVpnError 13 1 0 1 None None (Some (MkWireNativeError 2 1 0)).

(** win32-engine/tunnel_runtime.rs:93-102 [network_base]; an amount to shift by is taken
    modulo the width, as it is in a release build. *)
Definition network_base (addr : Ipv4Addr) (prefix : N) : Ipv4Addr :=
  let max := (2 ^ 32 - 1)%N in
  let mask := if (32 <=? prefix)%N then max else (N.shiftl max ((32 - prefix) mod 32) mod 2 ^ 32)%N in
  of_u32 (N.land (to_u32 addr) mask).

(** win32-engine/tunnel_runtime.rs:339-351 [StartDecision] *)
Inductive StartDecision := RefuseDuplicate | Adopt | Proceed.
(** win32-engine/tunnel_runtime.rs:353-363 [decide_start_apply] *)
Definition decide_start_apply (is_assembling is_connected : bool) : StartDecision :=
  if is_assembling then RefuseDuplicate else if is_connected then Adopt else Proceed.

(** win32-engine/tunnel_runtime.rs:104-122 [ApplyContext]; the credentials are whether they
    were given. The publishers are the runtime's. *)
Record ApplyContext := MkApplyContext {
  cx_mode : ConnectionMode;
  cx_credentials : bool;
  cx_operation_id : list byte;
}.

(** ** What the runtime asks of the network settings *)

(** win32-engine/platform_tunnel.rs:456-463 [NicOwner]: the adapter's identities. *)
Record Nic := MkNic { nic_luid : N; nic_ifindex : N }.
(** win32-engine/platform_tunnel.rs:469-475 [NicInitializationError] *)
Inductive NicInitializationError := NicErr_Native (e : NativeError) | NicErr_Configuration (detail : string).

(** The machine, with what the settings read from outside while they are changed. A call
    that panics gives nothing. *)
Class TunnelPlatform (M Io : Type) := {
  tp_ensure : M → result NativeError Nic → M * result NicInitializationError Nic;
  tp_apply : Io → M → N → N → TunnelOffer → list str → RouteRow →
    option (M * result RouteApplyError (RouteOwner * PlatformFacts));
  tp_clear : Io → M → RouteOwner → option (M * RouteOwner * result Fault ());
  tp_retry : M → list OwnedRoute → M * list OwnedRoute * result Fault ();
  tp_egress : M → Ipv4Addr → Ipv4Addr → result NativeError (RouteRow * N);
  tp_ready : M → N → RouteRow → bool;
}.

(** What it promises: the routes on the machine beyond the ones there were are exactly the
    ones its owners hold, where the adapter and the row that keeps the gateway outside are
    as the system makes them. *)
Class TunnelPlatformLaws (M Io : Type) `{TunnelPlatform M Io} := {
  accounted : M → list OwnedRoute → Prop;
  law_ensure m created m' res routes :
    accounted m routes → tp_ensure m created = (m', res) → accounted m' routes;
  law_apply io m luid ifindex offer campus row m' res :
    accounted m [] → tp_ready m luid row = true → tp_apply io m luid ifindex offer campus row = Some (m', res) →
    accounted m' (match res with Ok (o, _) => ro_installed_routes o | Err e => ae_pending_routes e end);
  law_clear io m o m' o' res :
    accounted m (ro_installed_routes o) → tp_clear io m o = Some (m', o', res) → accounted m' (ro_installed_routes o');
  law_clear_ok io m o m' o' : tp_clear io m o = Some (m', o', Ok ()) → ro_installed_routes o' = [];
  law_retry m routes m' routes' res :
    accounted m routes → tp_retry m routes = (m', routes', res) → accounted m' routes';
  law_retry_ok m routes m' routes' : tp_retry m routes = (m', routes', Ok ()) → routes' = [];
}.

(** ** The state *)

(** win32-engine/tunnel_runtime.rs:498-505 [LiveTunnel]: the group of its threads, whether its
    session and its channels are open, the owner of its settings, and the generation its
    diagnostics carry. *)
Record LiveTunnel := MkLive {
  lt_mode : ConnectionMode;
  lt_threads : option nat;
  lt_data_plane : bool;
  lt_cstp : bool;
  lt_route : option RouteOwner;
  lt_generation : option N;
}.
(** win32-engine/tunnel_runtime.rs:508-521 [LiveTunnel::cleanup_only] *)
Definition cleanup_only (route : RouteOwner) (mode : ConnectionMode) : LiveTunnel :=
  MkLive mode None false false (Some route) None.

(** A group of worker threads: its generation and operation, whether it was released to
    work, whether it is alive, and a loss one of them claimed, with whether the sweeper has
    been told of it. *)
Record Group := MkGroup {
  gr_generation : N;
  gr_operation : list byte;
  gr_activated : bool;
  gr_alive : bool;
  gr_claimed : option (list byte * bool);
}.

(** win32-engine/tunnel_runtime.rs:534-556 [LiveTunnel::disconnect_for]: where taking a tunnel
    down stands; its threads are told to stop, then they are joined and the rest follows. *)
Inductive Cleaning := C_Stop (l : LiveTunnel) | C_Join (l : LiveTunnel).
Definition cleaned_tunnel (c : Cleaning) : LiveTunnel := match c with C_Stop l | C_Join l => l end.

(** What an assembly has negotiated. *)
Record Draft := MkDraft {
  df_prepared : bool;
  df_campus : list str;
  df_offer : TunnelOffer;
  df_row : RouteRow;
}.

(** win32-engine/tunnel_runtime.rs:1438-2188 [RealTunnelRuntime::assemble]: where it stands. *)
Inductive AsmPc :=
  | A_Entry
  | A_LockPrevious
  | A_TakePrevious
  | A_CleanPrevious (c : Cleaning)
  | A_RetryPending
  | A_Preflight
  | A_Control (prepared : bool)
  | A_Login (prepared : bool) (campus : list str) (card : NicInfo) (gateway : SocketAddr)
  | A_Session (prepared : bool) (campus : list str) (card : NicInfo) (gateway : SocketAddr) (gateway_ip : Ipv4Addr)
  | A_Offered (d : Draft)
  | A_LockResources (d : Draft)
  | A_TakeOld (d : Draft)
  | A_CleanOld (d : Draft) (c : Cleaning)
  | A_Nic (d : Draft)
  | A_Apply (d : Draft) (nic_new : bool)
  | A_Applied (d : Draft) (nic_new : bool) (route : RouteOwner)
  | A_CleanRetain (c : Cleaning) (close_nic : bool) (e : TunnelError)
  | A_Generation (route : RouteOwner)
  | A_Install (l : LiveTunnel)
  | A_Unlock (e : option TunnelError)
  | A_Report (e : TunnelError)
  | A_ReportPanic
  | A_Reset
  | A_Done.
(** win32-engine/tunnel_runtime.rs:1132-1235 [RealTunnelRuntime::disconnect,
    RealTunnelRuntime::teardown]: where a caller stands. *)
Inductive CallPc :=
  | D_Begin | D_Lock | D_Take | D_Clean (c : Cleaning) | D_Retry | D_CloseNic | D_Done (r : result Fault ()) | D_Panicked.
(** win32-engine/tunnel_runtime.rs:666-779 [live_sweeper_step]: where a sweeper stands. *)
Inductive SweepPc :=
  | S_Wait | S_Lock (g : N) | S_Check (g : N) | S_Take (g : N) | S_Clean (g : N) (c : Cleaning) | S_Gone.

Inductive Thread :=
  | T_Assembly (ctx : ApplyContext) (pc : AsmPc)
  | T_Caller (teardown : bool) (pc : CallPc)
  | T_Sweeper (channel : nat) (queue : list N) (pc : SweepPc).

Section Runtime.
Context {M Io : Type} `{TunnelPlatform M Io} (wintun_dll : str).

(** win32-engine/tunnel_runtime.rs:798-840 [RealTunnelRuntime], with the machine, the
    publishers it is given, the groups of workers started so far, and the threads. The
    adapter is absent before the first connection. [sy_resources] is the thread that holds
    the lock; [sy_odd] remembers that settings were applied to an adapter or through a
    card that is not as the system makes them. *)
Record Sys := MkSys {
  sy_machine : M;
  sy_nic : option Nic;
  sy_live : option LiveTunnel;
  sy_pending : list (list OwnedRoute);
  sy_resources : option nat;
  sy_poisoned : bool;
  sy_assembling : bool;
  sy_cancel : bool;
  sy_paused : bool;
  sy_created : nat;
  sy_reused : nat;
  sy_generation : N;
  sy_status : StatusPublisher;
  sy_stats : StatsRegistry;
  sy_groups : list Group;
  sy_threads : list Thread;
  sy_odd : bool;
}.
Definition with_machine x (s : Sys) : Sys :=
  MkSys x (sy_nic s) (sy_live s) (sy_pending s) (sy_resources s) (sy_poisoned s) (sy_assembling s) (sy_cancel s) (sy_paused s) (sy_created s) (sy_reused s) (sy_generation s) (sy_status s) (sy_stats s) (sy_groups s) (sy_threads s) (sy_odd s).
Definition with_nic x (s : Sys) : Sys :=
  MkSys (sy_machine s) x (sy_live s) (sy_pending s) (sy_resources s) (sy_poisoned s) (sy_assembling s) (sy_cancel s) (sy_paused s) (sy_created s) (sy_reused s) (sy_generation s) (sy_status s) (sy_stats s) (sy_groups s) (sy_threads s) (sy_odd s).
Definition with_live x (s : Sys) : Sys :=
  MkSys (sy_machine s) (sy_nic s) x (sy_pending s) (sy_resources s) (sy_poisoned s) (sy_assembling s) (sy_cancel s) (sy_paused s) (sy_created s) (sy_reused s) (sy_generation s) (sy_status s) (sy_stats s) (sy_groups s) (sy_threads s) (sy_odd s).
Definition with_pending x (s : Sys) : Sys :=
  MkSys (sy_machine s) (sy_nic s) (sy_live s) x (sy_resources s) (sy_poisoned s) (sy_assembling s) (sy_cancel s) (sy_paused s) (sy_created s) (sy_reused s) (sy_generation s) (sy_status s) (sy_stats s) (sy_groups s) (sy_threads s) (sy_odd s).
Definition with_resources x (s : Sys) : Sys :=
  MkSys (sy_machine s) (sy_nic s) (sy_live s) (sy_pending s) x (sy_poisoned s) (sy_assembling s) (sy_cancel s) (sy_paused s) (sy_created s) (sy_reused s) (sy_generation s) (sy_status s) (sy_stats s) (sy_groups s) (sy_threads s) (sy_odd s).
Definition with_poisoned x (s : Sys) : Sys :=
  MkSys (sy_machine s) (sy_nic s) (sy_live s) (sy_pending s) (sy_resources s) x (sy_assembling s) (sy_cancel s) (sy_paused s) (sy_created s) (sy_reused s) (sy_generation s) (sy_status s) (sy_stats s) (sy_groups s) (sy_threads s) (sy_odd s).
Definition with_assembling x (s : Sys) : Sys :=
  MkSys (sy_machine s) (sy_nic s) (sy_live s) (sy_pending s) (sy_resources s) (sy_poisoned s) x (sy_cancel s) (sy_paused s) (sy_created s) (sy_reused s) (sy_generation s) (sy_status s) (sy_stats s) (sy_groups s) (sy_threads s) (sy_odd s).
Definition with_cancel x (s : Sys) : Sys :=
  MkSys (sy_machine s) (sy_nic s) (sy_live s) (sy_pending s) (sy_resources s) (sy_poisoned s) (sy_assembling s) x (sy_paused s) (sy_created s) (sy_reused s) (sy_generation s) (sy_status s) (sy_stats s) (sy_groups s) (sy_threads s) (sy_odd s).
Definition with_paused x (s : Sys) : Sys :=
  MkSys (sy_machine s) (sy_nic s) (sy_live s) (sy_pending s) (sy_resources s) (sy_poisoned s) (sy_assembling s) (sy_cancel s) x (sy_created s) (sy_reused s) (sy_generation s) (sy_status s) (sy_stats s) (sy_groups s) (sy_threads s) (sy_odd s).
Definition with_generation x (s : Sys) : Sys :=
  MkSys (sy_machine s) (sy_nic s) (sy_live s) (sy_pending s) (sy_resources s) (sy_poisoned s) (sy_assembling s) (sy_cancel s) (sy_paused s) (sy_created s) (sy_reused s) x (sy_status s) (sy_stats s) (sy_groups s) (sy_threads s) (sy_odd s).
Definition with_status x (s : Sys) : Sys :=
  MkSys (sy_machine s) (sy_nic s) (sy_live s) (sy_pending s) (sy_resources s) (sy_poisoned s) (sy_assembling s) (sy_cancel s) (sy_paused s) (sy_created s) (sy_reused s) (sy_generation s) x (sy_stats s) (sy_groups s) (sy_threads s) (sy_odd s).
Definition with_stats x (s : Sys) : Sys :=
  MkSys (sy_machine s) (sy_nic s) (sy_live s) (sy_pending s) (sy_resources s) (sy_poisoned s) (sy_assembling s) (sy_cancel s) (sy_paused s) (sy_created s) (sy_reused s) (sy_generation s) (sy_status s) x (sy_groups s) (sy_threads s) (sy_odd s).
Definition with_groups x (s : Sys) : Sys :=
  MkSys (sy_machine s) (sy_nic s) (sy_live s) (sy_pending s) (sy_resources s) (sy_poisoned s) (sy_assembling s) (sy_cancel s) (sy_paused s) (sy_created s) (sy_reused s) (sy_generation s) (sy_status s) (sy_stats s) x (sy_threads s) (sy_odd s).
Definition with_threads x (s : Sys) : Sys :=
  MkSys (sy_machine s) (sy_nic s) (sy_live s) (sy_pending s) (sy_resources s) (sy_poisoned s) (sy_assembling s) (sy_cancel s) (sy_paused s) (sy_created s) (sy_reused s) (sy_generation s) (sy_status s) (sy_stats s) (sy_groups s) x (sy_odd s).
Definition with_odd x (s : Sys) : Sys :=
  MkSys (sy_machine s) (sy_nic s) (sy_live s) (sy_pending s) (sy_resources s) (sy_poisoned s) (sy_assembling s) (sy_cancel s) (sy_paused s) (sy_created s) (sy_reused s) (sy_generation s) (sy_status s) (sy_stats s) (sy_groups s) (sy_threads s) x.

(** win32-engine/tunnel_runtime.rs:881-914 [RealTunnelRuntime::new_with_config_dir_and_sid_and_journal] *)
Definition runtime_new (m : M) : Sys :=
  MkSys m None None [] None false false false false 0 0 0 StatusPublisher_new StatsRegistry_new [] [] false.

Definition tell (e : StatusEvent) (s : Sys) : Sys := with_status (publish e (sy_status s)) s.
Definition tell_phase (p : StatsPhase) (s : Sys) : Sys := with_stats (set_phase p (sy_stats s)) s.
Definition group_of (i : option nat) (s : Sys) : option Group := i ≫= λ i, sy_groups s !! i.
Definition on_group (i : option nat) (f : Group → Group) (s : Sys) : Sys :=
  match i with Some i => with_groups (alter f i (sy_groups s)) s | None => s end.
Definition group_alive (i : option nat) (s : Sys) : bool :=
  match group_of i s with Some g => gr_alive g | None => false end.

(** win32-engine/tunnel_runtime.rs:1237-1246 [RealTunnelRuntime::is_connected] *)
Definition is_connected (s : Sys) : bool := group_alive (sy_live s ≫= lt_threads) s.
(** win32-engine/tunnel_runtime.rs:1248-1250 [RealTunnelRuntime::is_assembling] *)
Definition is_assembling (s : Sys) : bool := sy_assembling s.
(** win32-engine/tunnel_runtime.rs:1252-1254 [RealTunnelRuntime::is_paused] *)
Definition is_paused (s : Sys) : bool := sy_paused s.

Definition stop_group (g : Group) : Group :=
  MkGroup (gr_generation g) (gr_operation g) (gr_activated g) false (gr_claimed g).
Definition rebind_group (op : list byte) (g : Group) : Group :=
  MkGroup (gr_generation g) op (gr_activated g) (gr_alive g) (gr_claimed g).
Definition activate_group (g : Group) : Group :=
  MkGroup (gr_generation g) (gr_operation g) true (gr_alive g) (gr_claimed g).
(** The threads of the group have come to their end: none is telling of a loss. *)
Definition joinable (i : option nat) (s : Sys) : bool :=
  match group_of i s with Some g => bool_decide (gr_claimed g = None) | None => true end.

(** win32-engine/tunnel_runtime.rs:534-556 [LiveTunnel::disconnect_for]: the next step, which
    goes on with it, ends it with the tunnel and the answer, or panics. *)
Definition clean_step (io : Io) (c : Cleaning) (s : Sys) :
    option (Sys * (Cleaning + option (LiveTunnel * result Fault ()))) :=
  match c with
  | C_Stop l => Some (on_group (lt_threads l) stop_group s, inl (C_Join l))
  | C_Join l =>
      if joinable (lt_threads l) s then
        match lt_route l with
        | None => Some (s, inr (Some (MkLive (lt_mode l) None false false None (lt_generation l), Ok ())))
        | Some route =>
            match tp_clear io (sy_machine s) route with
            | None => Some (s, inr None)
            | Some (m, route, res) =>
                Some (with_machine m s,
                      inr (Some (MkLive (lt_mode l) None false false
                                   (match res with Ok _ => None | Err _ => Some route end) (lt_generation l), res)))
            end
        end
      else None
  end.

(** win32-engine/tunnel_runtime.rs:576-621 [LiveTunnel::drop]: its threads have been joined. *)
Definition drop_tunnel (io : Io) (l : LiveTunnel) (s : Sys) : Sys :=
  let s := on_group (lt_threads l) stop_group s in
  match lt_route l with
  | Some route => match tp_clear io (sy_machine s) route with Some (m, _, _) => with_machine m s | None => s end
  | None => s
  end.
(** Storing a tunnel, which drops the one there was. *)
Definition put_live (io : Io) (l : LiveTunnel) (s : Sys) : Sys :=
  with_live (Some l) (match sy_live s with Some old => drop_tunnel io old s | None => s end).

(** win32-engine/tunnel_runtime.rs:958-963 [RealTunnelRuntime::retry_pending_routes]: the loop. *)
Fixpoint retry_groups (m : M) (pending : list (list OwnedRoute)) : M * list (list OwnedRoute) * bool :=
  match pending with
  | [] => (m, [], true)
  | routes :: pending =>
      let '(m, routes, res) := tp_retry m routes in
      let '(m, pending, ok) := retry_groups m pending in
      (m, routes :: pending, is_ok res && ok)
  end.
(** win32-engine/tunnel_runtime.rs:950-986 [RealTunnelRuntime::retry_pending_routes] *)
Definition retry_pending_routes (s : Sys) : Sys * bool :=
  let '(m, pending, ok) := retry_groups (sy_machine s) (sy_pending s) in
  (with_pending (filter (λ routes, routes ≠ []) pending) (with_machine m s), ok).

(** ** The lock over the resources *)

Definition acquire (self : nat) (s : Sys) : option Sys :=
  match sy_resources s with None => Some (with_resources (Some self) s) | Some _ => None end.
Definition release (s : Sys) : Sys := with_resources None s.
(** A panic of the thread that holds the lock. *)
Definition poison (s : Sys) : Sys := with_poisoned true (release s).

(** ** Replies *)

(** What the world answers before the login: the configuration's routes, the network
    cards, whether a resolver could be built, and the address of the gateway. *)
Record ControlReply := MkControlReply {
  cr_config : option (list str);
  cr_adapters : AdapterAnswers;
  cr_resolver : bool;
  cr_gateway : option SocketAddr;
}.
(** The endpoints of the socket of a session: whether it was observed, and what it said. *)
Abbreviation Endpoints := (option (option (SocketAddr * SocketAddr))).
Inductive Reply :=
  | Rp_Go
  | Rp_Io (io : Io)
  | Rp_Load (installed : str) (load : str → result NativeError ())
  | Rp_Control (c : ControlReply)
  | Rp_Login (r : result LoginError ())
  | Rp_Session (r : result SessionError (TunnelOffer * Endpoints))
  | Rp_Nic (created : result NativeError Nic)
  | Rp_Plane (started : bool)
  | Rp_Commit (wall : option N) (io : Io).

(** ** An assembly *)

(** win32-engine/tunnel_runtime.rs:125-153 [observed_cstp_bypass] *)
Definition observed_cstp_bypass (m : M) (gateway local peer : SocketAddr) (own_ifindex : option N) :
    result TunnelError RouteRow :=
  let error detail := Err (error_plain ConnectingControl detail) in
  if negb (bool_decide (peer = gateway)) then error "engine: CSTP peer differs from resolved gateway"
  else match local, peer with
       | V4 local_ip _, V4 gateway_ip _ =>
           match tp_egress m gateway_ip local_ip with
           | Err _ => error "engine: CSTP egress query"
           | Ok (row, ifindex) =>
               if bool_decide (own_ifindex = Some ifindex)
               then error "engine: gateway route points into EXV's own tunnel; disconnect and retry"
               else Ok row
           end
       | _, _ => error "engine: CSTP egress requires IPv4 endpoints"
       end.

(** win32-engine/tunnel_runtime.rs:1461-1542 [RealTunnelRuntime::assemble]: the library of the
    adapter, unless the adapter is there. *)
Definition preflight (ctx : ApplyContext) (installed : str) (load : str → result NativeError ()) (s : Sys) : Sys * AsmPc :=
  match sy_nic s with
  | Some _ => (s, A_Control false)
  | None =>
      let s := tell (status_connecting (cx_operation_id ctx) (Some ObservingOwnedState)) s in
      match prepare_from load wintun_dll installed with
      | Ok _ => (s, A_Control true)
      | Err e => (s, A_Report (MkTunnelError TK_PlatformDependency ObservingOwnedState (ne_code (actionable_error e)) 0
                                 "engine: wintun preflight failed"))
      end
  end.

(** win32-engine/tunnel_runtime.rs:1547-1643 [RealTunnelRuntime::assemble]: up to the address of
    the gateway. *)
Definition control (ctx : ApplyContext) (prepared : bool) (r : ControlReply) (s : Sys) : Sys * AsmPc :=
  let fail detail := A_Report (error_plain ConnectingControl detail) in
  match cr_config r with
  | None => (s, fail "engine: config-load")
  | Some campus =>
      if negb (cx_credentials ctx) then
        (s, A_Report (MkTunnelError TK_MissingCredentials ConnectingControl 0 0 "engine: no credentials provided"))
      else
        let s := tell (status_connecting (cx_operation_id ctx) (Some ConnectingControl)) s in
        match find_physical_nics (cr_adapters r) with
        | Err _ => (s, fail "engine: nics")
        | Ok [] => (s, fail "engine: no physical nic")
        | Ok (card :: _) =>
            if negb (cr_resolver r) then (s, fail "engine: resolver")
            else match cr_gateway r with
                 | None => (s, fail "engine: resolve")
                 | Some gateway => (s, A_Login prepared campus card gateway)
                 end
        end
  end.

(** win32-engine/tunnel_runtime.rs:1652-1691 [RealTunnelRuntime::assemble]: the login. *)
Definition login (prepared : bool) (campus : list str) (card : NicInfo) (gateway : SocketAddr) (r : result LoginError ()) : AsmPc :=
  match gateway with
  | V6 _ _ => A_Report (error_plain ConnectingControl "engine: gateway resolved to IPv6 (VGDC dual-line is v4-only)")
  | V4 gateway_ip _ =>
      match r with
      | Err e => A_Report (error_login e)
      | Ok _ => A_Session prepared campus card gateway gateway_ip
      end
  end.

(** win32-engine/tunnel_runtime.rs:1755-1792 [RealTunnelRuntime::assemble]: the row that keeps
    the gateway outside. *)
Definition bypass_row (ctx : ApplyContext) (card : NicInfo) (gateway : SocketAddr) (gateway_ip : Ipv4Addr)
    (endpoints : Endpoints) (s : Sys) : result TunnelError RouteRow :=
  match cx_mode ctx with
  | Standard => map_err (λ _, error_plain ConnectingControl "engine: bypass-row")
                  (gateway_bypass_row (ni_gateway card) (ni_luid card) gateway_ip)
  | Compatibility =>
      match endpoints with
      | None => Err (error_plain ConnectingControl "engine: established CSTP socket endpoints unavailable")
      | Some None => Err (error_plain ConnectingControl "engine: CSTP endpoint query")
      | Some (Some (local, peer)) =>
          observed_cstp_bypass (sy_machine s) gateway local peer (nic_ifindex <$> sy_nic s)
      end
  end.

(** win32-engine/tunnel_runtime.rs:1697-1846 [RealTunnelRuntime::assemble]: the session and what
    it negotiated. *)
Definition open_session (ctx : ApplyContext) (prepared : bool) (campus : list str) (card : NicInfo) (gateway : SocketAddr)
    (gateway_ip : Ipv4Addr) (r : result SessionError (TunnelOffer * Endpoints)) (s : Sys) : AsmPc :=
  match r with
  | Err e => A_Report (error_session e)
  | Ok (offer, endpoints) =>
      match bypass_row ctx card gateway gateway_ip endpoints s with
      | Err e => A_Report e
      | Ok row => A_Offered (MkDraft prepared campus offer row)
      end
  end.

(** win32-engine/tunnel_runtime.rs:1880-1943 [RealTunnelRuntime::assemble]: the adapter. *)
Definition ensure_nic (d : Draft) (created : result NativeError Nic) (s : Sys) : Sys * AsmPc :=
  match sy_nic s with
  | Some _ =>
      (MkSys (sy_machine s) (sy_nic s) (sy_live s) (sy_pending s) (sy_resources s) (sy_poisoned s) (sy_assembling s)
         (sy_cancel s) (sy_paused s) (sy_created s) (S (sy_reused s)) (sy_generation s) (sy_status s) (sy_stats s)
         (sy_groups s) (sy_threads s) (sy_odd s), A_Apply d false)
  | None =>
      if negb (df_prepared d) then
        (s, A_Unlock (Some (error_plain ApplyingPlatformTunnel "engine: preflight NIC changed unexpectedly")))
      else
        let '(m, r) := tp_ensure (sy_machine s) created in
        let s := with_machine m s in
        match r with
        | Err (NicErr_Native e) =>
            (s, A_Unlock (Some (MkTunnelError TK_PlatformDependency ApplyingPlatformTunnel (ne_code e) 0 "engine: wintun-create")))
        | Err (NicErr_Configuration detail) =>
            (s, A_Unlock (Some (error_plain ApplyingPlatformTunnel detail)))
        | Ok nic =>
            (MkSys (sy_machine s) (Some nic) (sy_live s) (sy_pending s) (sy_resources s) (sy_poisoned s) (sy_assembling s)
               (sy_cancel s) (sy_paused s) (S (sy_created s)) (sy_reused s) (sy_generation s) (sy_status s) (sy_stats s)
               (sy_groups s) (sy_threads s) (sy_odd s), A_Apply d true)
        end
  end.

(** win32-engine/tunnel_runtime.rs:1964-2001 [RealTunnelRuntime::assemble]: an offer that could
    not be applied. *)
Definition apply_failed (nic_new : bool) (e : RouteApplyError) (s : Sys) : Sys * AsmPc :=
  let s := if nic_new then with_nic None s else s in
  let s := match ae_pending_routes e with
           | [] => s
           | routes => with_pending (sy_pending s ++ [routes]) s
           end in
  (s, A_Unlock (Some (MkTunnelError TK_Platform ApplyingPlatformTunnel (default 0%N (ae_route_native_code e)) 0
                        (ft_stage (ae_detail e))))).
(** win32-engine/tunnel_runtime.rs:1944-1966 [RealTunnelRuntime::assemble]: applying the offer. *)
Definition apply_offer (io : Io) (d : Draft) (nic_new : bool) (s : Sys) : Sys * AsmPc :=
  match sy_nic s with
  | None => (poison s, A_ReportPanic)
  | Some nic =>
      if bool_decide (rr_interface_luid (df_row d) = nic_luid nic) then
        apply_failed nic_new (MkApplyError (MkFault "engine: gateway bypass points into EXV's own tunnel" None) [] None) s
      else
        let s := with_odd (sy_odd s || negb (tp_ready (sy_machine s) (nic_luid nic) (df_row d))) s in
        match tp_apply io (sy_machine s) (nic_luid nic) (nic_ifindex nic) (df_offer d) (df_campus d) (df_row d) with
        | None => (poison s, A_ReportPanic)
        | Some (m, Ok (route, _)) => (with_machine m s, A_Applied d nic_new route)
        | Some (m, Err e) => apply_failed nic_new e (with_machine m s)
        end
  end.

(** win32-engine/tunnel_runtime.rs:2066-2105 [RealTunnelRuntime::assemble]: the session of the
    data plane. *)
Definition start_plane (ctx : ApplyContext) (nic_new : bool) (route : RouteOwner) (started : bool) (s : Sys) : Sys * AsmPc :=
  if sy_cancel s then
    (s, A_CleanRetain (C_Stop (cleanup_only route (cx_mode ctx))) nic_new (cancelled_error StartingDataPlane))
  else
    let s := tell (status_connecting (cx_operation_id ctx) (Some StartingDataPlane)) s in
    match sy_nic s with
    | None => (poison s, A_ReportPanic)
    | Some _ =>
        if started then (s, A_Generation route)
        else (s, A_CleanRetain (C_Stop (cleanup_only route (cx_mode ctx))) nic_new
                   (error_plain StartingDataPlane "engine: data-plane"))
    end.
(** win32-engine/tunnel_runtime.rs:2106-2157 [RealTunnelRuntime::assemble]: the generation, the
    sweeper and the workers, which wait. *)
Definition spawn_workers (ctx : ApplyContext) (route : RouteOwner) (s : Sys) : Sys * AsmPc :=
  let generation := add64 (sy_generation s) 1 in
  let channel := length (sy_groups s) in
  let group := MkGroup generation (cx_operation_id ctx) false true None in
  let live := MkLive (cx_mode ctx) (Some channel) true true (Some route) (Some generation) in
  let s := with_generation generation s in
  let s := with_groups (sy_groups s ++ [group]) s in
  (with_threads (sy_threads s ++ [T_Sweeper channel [] S_Wait]) s, A_Install live).
(** win32-engine/tunnel_runtime.rs:2192-2232 [RealTunnelRuntime::install_live] *)
Definition install_live (ctx : ApplyContext) (wall : option N) (io : Io) (l : LiveTunnel) (s : Sys) : Sys * AsmPc :=
  if sy_cancel s then (s, A_CleanRetain (C_Stop l) false (cancelled_error StartingDataPlane))
  else if negb (group_alive (lt_threads l) s) then
    (s, A_CleanRetain (C_Stop l) false
          (error_plain StartingDataPlane "engine: data-plane workers exited before activation"))
  else
    let s := with_paused false (put_live io l s) in
    let s := tell (status_connected wall (cx_operation_id ctx)) (tell_phase Ph_Connected s) in
    (on_group (lt_threads l) activate_group s, A_Unlock None).

(** win32-engine/tunnel_runtime.rs:1347-1377 [RealTunnelRuntime::run_assemble_with_reset] *)
Definition report_failure (op : list byte) (e : TunnelError) (s : Sys) : Sys :=
  tell (status_failed op (Some (te_connect_phase e)) (tunnel_error_to_wire e)) (tell_phase Ph_Failed s).
(** win32-engine/tunnel_runtime.rs:1378-1409 [RealTunnelRuntime::run_assemble_with_reset] *)
Definition report_panic (op : list byte) (s : Sys) : Sys :=
  tell (status_failed op (Some ApplyingPlatformTunnel) panic_error) (tell_phase Ph_Failed s).

(** What follows a step of taking a tunnel down: going on, the answer, or a panic. *)
Definition cleaning {A} (io : Io) (c : Cleaning) (s : Sys) (go : Cleaning → A) (done : Sys → Sys * A)
    (failed : Sys → LiveTunnel → Fault → Sys * A) (panicked : A) : option (Sys * A) :=
  match clean_step io c s with
  | None => None
  | Some (s, inl c) => Some (s, go c)
  | Some (s, inr (Some (_, Ok _))) => Some (done s)
  | Some (s, inr (Some (l, Err f))) => Some (failed s l f)
  | Some (s, inr None) => Some (poison s, panicked)
  end.

(** win32-engine/tunnel_runtime.rs:1438-1551 [RealTunnelRuntime::assemble] with
    win32-engine/tunnel_runtime.rs:989-1006 [RealTunnelRuntime::clear_previous_connection],
    win32-engine/tunnel_runtime.rs:1009-1023 [RealTunnelRuntime::cleanup_or_retain] and the
    end of win32-engine/tunnel_runtime.rs:1310-1413 [RealTunnelRuntime::run_assemble_with_reset] *)
Definition assembly_step (self : nat) (ctx : ApplyContext) (pc : AsmPc) (reply : Reply) (s : Sys) : option (Sys * AsmPc) :=
  let op := cx_operation_id ctx in
  let unless_cancelled phase next := if sy_cancel s then (s, A_Report (cancelled_error phase)) else next in
  match pc, reply with
  | A_Entry, Rp_Go => Some (unless_cancelled ObservingOwnedState (s, A_LockPrevious))
  | A_LockPrevious, Rp_Go =>
      if sy_poisoned s then
        Some (s, A_Report (error_plain ObservingOwnedState "engine: previous connection cleanup"))
      else s ← acquire self s; Some (s, A_TakePrevious)
  | A_TakePrevious, Rp_Go =>
      Some (match sy_live s with
            | Some l => (with_live None s, A_CleanPrevious (C_Stop l))
            | None => (s, A_RetryPending)
            end)
  | A_CleanPrevious c, Rp_Io io =>
      cleaning io c s A_CleanPrevious (λ s, (s, A_RetryPending))
        (λ s l f, (release (put_live io l s),
                   A_Report (error_plain ObservingOwnedState "engine: previous connection cleanup")))
        A_ReportPanic
  | A_RetryPending, Rp_Go =>
      let '(s, ok) := retry_pending_routes s in
      Some (release s, if ok : bool then A_Preflight
                       else A_Report (error_plain ObservingOwnedState "engine: previous connection cleanup"))
  | A_Preflight, Rp_Load installed load => Some (unless_cancelled ObservingOwnedState (preflight ctx installed load s))
  | A_Control prepared, Rp_Control r => Some (unless_cancelled ObservingOwnedState (control ctx prepared r s))
  | A_Login prepared campus card gateway, Rp_Login r =>
      Some (unless_cancelled ConnectingControl (s, login prepared campus card gateway r))
  | A_Session prepared campus card gateway gateway_ip, Rp_Session r =>
      Some (unless_cancelled ConnectingControl (s, open_session ctx prepared campus card gateway gateway_ip r s))
  | A_Offered d, Rp_Go => Some (unless_cancelled ApplyingPlatformTunnel (s, A_LockResources d))
  | A_LockResources d, Rp_Go =>
      if sy_poisoned s then Some (s, A_ReportPanic) else s ← acquire self s; Some (s, A_TakeOld d)
  | A_TakeOld d, Rp_Go =>
      Some (if sy_cancel s then (s, A_Unlock (Some (cancelled_error ApplyingPlatformTunnel)))
            else match sy_live s with
                 | Some l => (with_live None s, A_CleanOld d (C_Stop l))
                 | None => (s, A_Nic d)
                 end)
  | A_CleanOld d c, Rp_Io io =>
      cleaning io c s (A_CleanOld d) (λ s, (s, A_Nic d))
        (λ s l f, (drop_tunnel io l s, A_Unlock (Some (error_plain ApplyingPlatformTunnel (ft_stage f))))) A_ReportPanic
  | A_Nic d, Rp_Nic created => Some (ensure_nic d created (tell (status_connecting op (Some ApplyingPlatformTunnel)) s))
  | A_Apply d nic_new, Rp_Io io => Some (apply_offer io d nic_new s)
  | A_Applied d nic_new route, Rp_Plane started => Some (start_plane ctx nic_new route started s)
  | A_CleanRetain c close_nic e, Rp_Io io =>
      cleaning io c s (λ c, A_CleanRetain c close_nic e)
        (λ s, (if close_nic : bool then with_nic None s else s, A_Unlock (Some e)))
        (λ s l f, (put_live io l s, A_Unlock (Some e))) A_ReportPanic
  | A_Generation route, Rp_Go => Some (spawn_workers ctx route s)
  | A_Install l, Rp_Commit wall io => Some (install_live ctx wall io l s)
  | A_Unlock e, Rp_Go => Some (release s, match e with Some e => A_Report e | None => A_Reset end)
  | A_Report e, Rp_Go => Some (report_failure op e s, A_Reset)
  | A_ReportPanic, Rp_Go => Some (report_panic op s, A_Reset)
  | A_Reset, Rp_Go => Some (with_assembling false s, A_Done)
  | _, _ => None
  end.

(** ** A caller *)

(** win32-engine/tunnel_runtime.rs:1132-1197 [RealTunnelRuntime::disconnect] and
    win32-engine/tunnel_runtime.rs:1199-1235 [RealTunnelRuntime::teardown] *)
Definition caller_step (self : nat) (teardown : bool) (pc : CallPc) (reply : Reply) (s : Sys) : option (Sys * CallPc) :=
  match pc, reply with
  | D_Begin, Rp_Go => Some (with_cancel true s, D_Lock)
  | D_Lock, Rp_Go =>
      if sy_poisoned s then Some (s, D_Done (Err (MkFault "runtime resources lock" None)))
      else s ← acquire self s; Some (s, D_Take)
  | D_Take, Rp_Go =>
      let s := with_cancel true s in
      Some (match sy_live s with
            | Some l => (with_live None s, D_Clean (C_Stop l))
            | None => (s, D_Retry)
            end)
  | D_Clean c, Rp_Io io =>
      cleaning io c s D_Clean (λ s, (s, D_Retry)) (λ s l f, (release (put_live io l s), D_Done (Err f))) D_Panicked
  | D_Retry, Rp_Go =>
      let '(s, ok) := retry_pending_routes s in
      Some (if ok : bool then (release (with_paused true s), if teardown then D_CloseNic else D_Done (Ok ()))
            else (release s, D_Done (Err (MkFault "route-remove" None))))
  | D_CloseNic, Rp_Go => Some (with_nic None s, D_Done (Ok ()))
  | _, _ => None
  end.

(** ** A sweeper *)

(** No worker of the group will send a signal any more. *)
Definition silent (channel : nat) (s : Sys) : bool :=
  match sy_groups s !! channel with
  | Some g => negb (gr_alive g) && bool_decide (gr_claimed g = None)
  | None => true
  end.

(** win32-engine/tunnel_runtime.rs:660-779 [live_sweeper_step] and
    win32-engine/tunnel_runtime.rs:782-787 [live_sweeper_loop]: the sweeper waits while a
    sender is left, which is at least while its workers can send. *)
Definition sweeper_step (self channel : nat) (queue : list N) (pc : SweepPc) (reply : Reply) (s : Sys) :
    option (Sys * (list N * SweepPc)) :=
  match pc, reply with
  | S_Wait, Rp_Go =>
      match queue with
      | lost :: queue => Some (s, (queue, S_Lock lost))
      | [] => if silent channel s then Some (s, ([], S_Gone)) else None
      end
  | S_Lock lost, Rp_Go =>
      if sy_poisoned s then Some (s, (queue, S_Gone)) else s ← acquire self s; Some (s, (queue, S_Check lost))
  | S_Check lost, Rp_Go =>
      Some (if negb (lost =? sy_generation s)%N then (release s, (queue, S_Wait)) else (s, (queue, S_Take lost)))
  | S_Take lost, Rp_Go =>
      Some (if negb (lost =? sy_generation s)%N then (release s, (queue, S_Wait))
            else match sy_live s with
                 | Some l => (with_live None s, (queue, S_Clean lost (C_Stop l)))
                 | None => (release s, (queue, S_Wait))
                 end)
  | S_Clean lost c, Rp_Io io =>
      cleaning io c s (λ c, (queue, S_Clean lost c)) (λ s, (release (with_paused true s), (queue, S_Wait)))
        (λ s l f, (release (with_paused true (put_live io l s)), (queue, S_Wait))) (queue, S_Gone)
  | _, _ => None
  end.

(** ** The workers *)

(** What a worker thread does that the runtime sees: it ends before it was released, it
    claims a loss, tells its sweeper, and tells the publishers. *)
Inductive Move := W_Exit | W_Claim | W_Signal | W_Tell.

(** win32-engine/tunnel_runtime.rs:2127-2140 [RealTunnelRuntime::assemble]: the signal of the
    workers, which goes nowhere when the sweeper is gone. *)
Definition send_lost (channel : nat) (generation : N) (t : Thread) : Thread :=
  match t with
  | T_Sweeper c queue S_Gone => t
  | T_Sweeper c queue pc => if bool_decide (c = channel) then T_Sweeper c (queue ++ [generation]) pc else t
  | _ => t
  end.
Definition set_claimed (c : option (list byte * bool)) (g : Group) : Group :=
  MkGroup (gr_generation g) (gr_operation g) (gr_activated g) false c.
Definition worker_move (i : nat) (mv : Move) (s : Sys) : option Sys :=
  g ← sy_groups s !! i;
  match mv, gr_claimed g with
  | W_Exit, None => if gr_alive g && negb (gr_activated g) then Some (on_group (Some i) stop_group s) else None
  | W_Claim, None =>
      if gr_alive g && gr_activated g then Some (on_group (Some i) (set_claimed (Some (gr_operation g, false))) s) else None
  | W_Signal, Some (op, false) =>
      Some (on_group (Some i) (set_claimed (Some (op, true)))
              (with_threads (send_lost i (gr_generation g) <$> sy_threads s) s))
  | W_Tell, Some (op, true) =>
      Some (on_group (Some i) (set_claimed None)
              (tell (status_failed op (Some StartingDataPlane) data_plane_drop_error) (tell_phase Ph_Failed s)))
  | _, _ => None
  end.

(** ** The runtime *)

Definition spawn (t : Thread) (s : Sys) : Sys := with_threads (sy_threads s ++ [t]) s.

(** win32-engine/tunnel_runtime.rs:1055-1079 [RealTunnelRuntime::start_apply]: the live tunnel is
    given to the operation, if it is of its mode and still alive. *)
Definition adopt (ctx : ApplyContext) (wall : option N) (s : Sys) : option Sys :=
  l ← sy_live s;
  if bool_decide (lt_mode l = cx_mode ctx) && group_alive (lt_threads l) s then
    Some (tell (status_connected wall (cx_operation_id ctx))
            (tell_phase Ph_Connected (on_group (lt_threads l) (rebind_group (cx_operation_id ctx)) s)))
  else None.
(** win32-engine/tunnel_runtime.rs:1082-1116 [RealTunnelRuntime::start_apply]: the assembly. *)
Definition start_assembly (ctx : ApplyContext) (s : Sys) : Sys :=
  spawn (T_Assembly ctx A_Entry) (with_assembling true (with_paused false (with_cancel false s))).
(** win32-engine/tunnel_runtime.rs:1040-1116 [RealTunnelRuntime::start_apply] *)
Definition start_apply (ctx : ApplyContext) (wall : option N) (s : Sys) : Sys * result TunnelError () :=
  match decide_start_apply (sy_assembling s) (is_connected s) with
  | RefuseDuplicate =>
      (s, Err (MkTunnelError TK_DuplicateConnect ApplyingPlatformTunnel 0 0 "engine: duplicate connect (assembling)"))
  | Adopt => (match adopt ctx wall s with Some s' => s' | None => start_assembly ctx s end, Ok ())
  | Proceed => (start_assembly ctx s, Ok ())
  end.

(** win32-engine/tunnel_runtime.rs:1118-1130 [RealTunnelRuntime::cancel] *)
Definition cancel (s : Sys) : Sys := with_cancel true s.

(** What happens next: a call of the runtime, a step of a thread with the world's reply,
    or a move of a worker. *)
Inductive Choice :=
  | Ch_Start (ctx : ApplyContext) (wall : option N)
  | Ch_Cancel
  | Ch_Disconnect
  | Ch_Teardown
  | Ch_Run (i : nat) (reply : Reply)
  | Ch_Worker (i : nat) (mv : Move).

Definition thread_step (self : nat) (t : Thread) (reply : Reply) (s : Sys) : option (Sys * Thread) :=
  match t with
  | T_Assembly ctx pc => p ← assembly_step self ctx pc reply s; Some (p.1, T_Assembly ctx p.2)
  | T_Caller teardown pc => p ← caller_step self teardown pc reply s; Some (p.1, T_Caller teardown p.2)
  | T_Sweeper g queue pc => p ← sweeper_step self g queue pc reply s; Some (p.1, T_Sweeper g p.2.1 p.2.2)
  end.
Definition sys_step (c : Choice) (s : Sys) : option Sys :=
  match c with
  | Ch_Start ctx wall => Some (start_apply ctx wall s).1
  | Ch_Cancel => Some (cancel s)
  | Ch_Disconnect => Some (spawn (T_Caller false D_Begin) s)
  | Ch_Teardown => Some (spawn (T_Caller true D_Begin) s)
  | Ch_Run i reply =>
      t ← sy_threads s !! i;
      p ← thread_step i t reply s;
      Some (with_threads (<[i := p.2]> (sy_threads p.1)) p.1)
  | Ch_Worker i mv => worker_move i mv s
  end.
Fixpoint sys_run (cs : list Choice) (s : Sys) : option Sys :=
  match cs with
  | [] => Some s
  | c :: cs => s ← sys_step c s; sys_run cs s
  end.

(** win32-engine/tunnel_runtime.rs:1257-1302 [RealTunnelRuntime::drop]: what is left when the last
    reference goes; only sweepers can still run. *)
Definition runtime_drop (io : Io) (s : Sys) : Sys :=
  let s := match sy_live s with
           | Some l =>
               let s := on_group (lt_threads l) stop_group (with_live None s) in
               match lt_route l with
               | None => s
               | Some route =>
                   match tp_clear io (sy_machine s) route with
                   | Some (m, route, Err _) => drop_tunnel io (cleanup_only route (lt_mode l)) (with_machine m s)
                   | Some (m, _, Ok _) => with_machine m s
                   | None => s
                   end
               end
           | None => s
           end in
  with_nic None (with_machine (retry_groups (sy_machine s) (sy_pending s)).1.1 s).

(** The states an engine can be in that was started on [m]. *)
Definition reachable (m : M) (s : Sys) : Prop := ∃ cs, sys_run cs (runtime_new m) = Some s.
End Runtime.
