(* ===== verification/EngineRuntimeSafe.v ===== *)
(** * Safety of the tunnel runtime

    Invariants of the transition system of [EngineRuntime] over every interleaving of its
    threads: one assembly at a time; whoever holds the lock over the resources finds or
    carries all the routes that were made; a sweeper takes down only a tunnel that is lost;
    a cancelled assembly never says that it is connected. *)

From Stdlib Require Import NArith ZArith Strings.Byte Lia.
From S2P Require Import Prelude Model Text Connector Http Session Offer NativeError IpHelper Routes RouteOwner Adapters Config.
From S2P Require Import EngineStatus EnginePlane EngineRuntime.

#[local] Arguments put_live : simpl never.
#[local] Arguments retry_pending_routes : simpl never.

(** ** What a thread stands for *)

(** The thread holds the lock over the resources. *)
Definition holds (t : Thread) : bool :=
  match t with
  | T_Assembly _ pc =>
      match pc with
      | A_TakePrevious | A_CleanPrevious _ | A_RetryPending | A_TakeOld _ | A_CleanOld _ _ | A_Nic _ | A_Apply _ _
      | A_Applied _ _ _ | A_CleanRetain _ _ _ | A_Generation _ | A_Install _ | A_Unlock _ => true
      | _ => false
      end
  | T_Caller _ pc => match pc with D_Take | D_Clean _ | D_Retry => true | _ => false end
  | T_Sweeper _ _ pc => match pc with S_Check _ | S_Take _ | S_Clean _ _ => true | _ => false end
  end.
Definition active (t : Thread) : bool :=
  match t with T_Assembly _ A_Done => false | T_Assembly _ _ => true | _ => false end.

Definition owner_routes (o : option RouteOwner) : list OwnedRoute :=
  match o with Some o => ro_installed_routes o | None => [] end.
Definition tunnel_routes (l : LiveTunnel) : list OwnedRoute := owner_routes (lt_route l).
Definition live_routes (live : option LiveTunnel) : list OwnedRoute :=
  match live with Some l => tunnel_routes l | None => [] end.

(** The tunnel a thread has taken or is building. *)
Definition carried (t : Thread) : option LiveTunnel :=
  match t with
  | T_Assembly _ (A_CleanPrevious c) | T_Assembly _ (A_CleanOld _ c) | T_Assembly _ (A_CleanRetain c _ _)
  | T_Caller _ (D_Clean c) | T_Sweeper _ _ (S_Clean _ c) => Some (cleaned_tunnel c)
  | T_Assembly ctx (A_Applied _ _ route) | T_Assembly ctx (A_Generation route) => Some (cleanup_only route (cx_mode ctx))
  | T_Assembly _ (A_Install l) => Some l
  | _ => None
  end.

(** How a thread sees the resources: it has a tunnel in its hands, it has cleared what
    there was, it still has to try the pending routes, or it knows nothing of them. *)
Inductive Kind := K_Idle | K_Retry | K_Past | K_Carry (l : LiveTunnel) | K_Never.
Definition kind (t : Thread) : Kind :=
  match t with
  | T_Assembly _ (A_CleanOld _ _) => K_Never
  | T_Assembly _ A_RetryPending | T_Caller _ D_Retry => K_Retry
  | T_Assembly _ (A_Preflight | A_Control _ | A_Login _ _ _ _ | A_Session _ _ _ _ _ | A_Offered _ | A_LockResources _
                  | A_TakeOld _ | A_Nic _ | A_Apply _ _) => K_Past
  | _ => match carried t with Some l => K_Carry l | None => K_Idle end
  end.

(** All the routes that are held for removal. *)
Definition held_routes {M} (s : Sys (M:=M)) : list OwnedRoute :=
  live_routes (sy_live s) ++ concat (sy_pending s) ++ concat (live_routes ∘ carried <$> sy_threads s).

Section Safety.
Context {M Io : Type} `{TunnelPlatformLaws M Io} (wintun_dll : str).
Abbreviation Sys := (Sys (M:=M)).
Abbreviation sys_step := (sys_step (Io:=Io) wintun_dll).
Implicit Types (s : Sys) (t : Thread).

(** The routes on the machine are these, if settings were only applied as they should. *)
Definition acc (odd : bool) (m : M) (routes : list OwnedRoute) : Prop := odd = false → accounted m routes.

Definition shape (live : option LiveTunnel) (pending : list (list OwnedRoute)) : Prop :=
  (live = None ∨ pending = []) ∧ (pending = [] ∨ ∃ routes, pending = [routes]).

(** What the thread that holds the lock can rely on. *)
Definition good (odd : bool) (m : M) (live : option LiveTunnel) (pending : list (list OwnedRoute)) (k : Kind) : Prop :=
  match k with
  | K_Idle => shape live pending ∧ acc odd m (live_routes live ++ concat pending)
  | K_Retry => live = None ∧ shape live pending ∧ acc odd m (concat pending)
  | K_Past => live = None ∧ pending = [] ∧ acc odd m []
  | K_Carry l => live = None ∧ pending = [] ∧ acc odd m (tunnel_routes l)
  | K_Never => False
  end.
Definition sys_good s (k : Kind) : Prop := good (sy_odd s) (sy_machine s) (sy_live s) (sy_pending s) k.

Lemma good_idle odd m live pending k : good odd m live pending k → (∀ l, k ≠ K_Carry l) → good odd m live pending K_Idle.
Proof.
  unfold good, shape. destruct k; try done; intros Hg Hk; [destruct Hg as (-> & Hs & Ha)|destruct Hg as (-> & -> & Ha)|].
  - done.
  - simpl. auto.
  - by destruct (Hk l).
Qed.
Lemma carry_of t l : kind t = K_Carry l → carried t = Some l ∧ holds t = true.
Proof. destruct t as [ctx []|td []|g q []]; simpl; intros; simplify_eq; auto. Qed.
Lemma holds_kind t : holds t = false → kind t = K_Idle ∨ kind t = K_Past.
Proof. destruct t as [ctx []|td []|g q []]; simpl; intros; simplify_eq; auto. Qed.
Lemma past_active t : kind t = K_Past → active t = true.
Proof. destruct t as [ctx []|td []|g q []]; simpl; intros; simplify_eq; auto. Qed.

(** The invariant. *)
Record inv s : Prop := {
  inv_lock i t : sy_threads s !! i = Some t → holds t = true ↔ sy_resources s = Some i;
  inv_holder i : sy_resources s = Some i → is_Some (sy_threads s !! i);
  inv_busy i t : sy_threads s !! i = Some t → active t = true → sy_assembling s = true;
  inv_single i j t u : sy_threads s !! i = Some t → sy_threads s !! j = Some u →
    active t = true → active u = true → i = j;
  inv_good i t : sy_poisoned s = false → sy_threads s !! i = Some t → holds t = true → sys_good s (kind t);
  inv_poison : sy_poisoned s = true → sy_resources s = None;
  inv_free : sy_poisoned s = false → sy_resources s = None → sys_good s K_Idle;
  inv_past i t : sy_poisoned s = false → sy_threads s !! i = Some t → kind t = K_Past →
    sy_live s = None ∧ sy_pending s = [] ∧ ∀ j u l, sy_threads s !! j = Some u → kind u ≠ K_Carry l;
}.

(** ** What a step of a thread does *)

(** How a step of thread [i] may treat the lock. *)
Definition lock_move (i : nat) (t t' : Thread) (r r' : option nat) : Prop :=
  match holds t, holds t' with
  | false, true => r = None ∧ r' = Some i
  | true, false => r' = None
  | _, _ => r' = r
  end.
(** How it may treat the resources: without the lock not at all; with the lock it passes
    on what it relies on, and one that is no assembly leaves an assembly alone that has
    cleared what there was. *)
Definition resource_move (s s' : Sys) (t t' : Thread) : Prop :=
  if holds t then
    sys_good s (kind t) → sys_good s' (kind t') ∧
    (active t = false → sy_live s = None → sy_pending s = [] → (∀ l, kind t ≠ K_Carry l) →
     sy_live s' = None ∧ sy_pending s' = [] ∧ ∀ l, kind t' ≠ K_Carry l)
  else
    sy_live s' = sy_live s ∧ sy_pending s' = sy_pending s ∧ sy_machine s' = sy_machine s ∧ sy_odd s' = sy_odd s ∧
    (kind t' = K_Idle ∨ kind t' = K_Past ∧ kind t = K_Past).
Record moves (i : nat) (s s' : Sys) (t t' : Thread) : Prop := {
  mv_lock : lock_move i t t' (sy_resources s) (sy_resources s');
  mv_active : active t' = true → active t = true;
  mv_assembling : sy_assembling s' = sy_assembling s ∨ (active t = true ∧ active t' = false ∧ sy_assembling s' = false);
  mv_poison : sy_poisoned s = true → sy_poisoned s' = true;
  mv_panic : sy_poisoned s' = true → sy_poisoned s = true ∨ sy_resources s' = None;
  mv_blocked : sy_poisoned s = true → holds t = false → holds t' = false;
  mv_resources : sy_poisoned s' = false → resource_move s s' t t';
  mv_threads : ∃ more, sy_threads s' = sy_threads s ++ more ∧
    Forall (λ u, holds u = false ∧ active u = false ∧ kind u = K_Idle) more;
}.

Lemma after_lookup i s s' t' more j u :
  sy_threads s' = sy_threads s ++ more → is_Some (sy_threads s !! i) →
  <[i := t']> (sy_threads s') !! j = Some u →
  (j = i ∧ u = t') ∨ (j ≠ i ∧ sy_threads s !! j = Some u) ∨ (j ≠ i ∧ sy_threads s !! j = None ∧ u ∈ more).
Proof.
  intros Hts [t Hi] Hj. rewrite Hts in Hj. destruct (decide (j = i)) as [->|Hne].
  - rewrite list_lookup_insert_eq in Hj; [naive_solver|].
    rewrite length_app. apply lookup_lt_Some in Hi. lia.
  - rewrite list_lookup_insert_ne in Hj by done. apply lookup_app_Some in Hj as [Hj|[Hlen Hj]]; [auto|].
    right; right. split_and!; [done|by apply lookup_ge_None|]. by eapply list_elem_of_lookup_2.
Qed.

Lemma lock_move_self i t t' r r' : lock_move i t t' r r' → (holds t = true ↔ r = Some i) → (holds t' = true ↔ r' = Some i).
Proof. unfold lock_move. destruct (holds t), (holds t'); naive_solver. Qed.
Lemma lock_move_other i j t t' r r' : lock_move i t t' r r' → (holds t = true ↔ r = Some i) → j ≠ i →
  r' = Some j → r = Some j.
Proof. unfold lock_move. destruct (holds t), (holds t'); naive_solver. Qed.
Lemma lock_move_kept i j t t' r r' : lock_move i t t' r r' → (holds t = true ↔ r = Some i) → j ≠ i →
  r = Some j → r' = Some j.
Proof. unfold lock_move. destruct (holds t), (holds t'); naive_solver. Qed.

(** The obligations of the thread that moves give the invariant back. *)
Section Moving.
Context (i : nat) (s s' : Sys) (t t' : Thread) (more : list Thread).
Hypothesis (Hinv : inv s) (Hi : sy_threads s !! i = Some t) (Hmv : moves i s s' t t').
Hypothesis (Hts : sy_threads s' = sy_threads s ++ more).
Hypothesis (Hmore : Forall (λ u, holds u = false ∧ active u = false ∧ kind u = K_Idle) more).

Lemma moved_lookup j u : <[i := t']> (sy_threads s') !! j = Some u →
  (j = i ∧ u = t') ∨ (j ≠ i ∧ sy_threads s !! j = Some u)
  ∨ (j ≠ i ∧ sy_resources s ≠ Some j ∧ holds u = false ∧ active u = false ∧ kind u = K_Idle).
Proof.
  intros [?|[?|(? & Hn & Hu)]]%(after_lookup i s s' t' more j u Hts); [auto..| |eauto].
  right; right. destruct (proj1 (Forall_forall _ _) Hmore u Hu) as (? & ? & ?). split_and!; try done.
  intros Hr. destruct (inv_holder _ Hinv j Hr) as [? Hx]. congruence.
Qed.
Lemma moved_calm : sy_poisoned s' = false → sy_poisoned s = false.
Proof. intros Hp. destruct (sy_poisoned s) eqn:E; [|done]. rewrite (mv_poison _ _ _ _ _ Hmv) in Hp; done. Qed.
Lemma self_lock : holds t = true ↔ sy_resources s = Some i.
Proof. apply (inv_lock _ Hinv i t Hi). Qed.

Lemma moved_locks j u : <[i := t']> (sy_threads s') !! j = Some u → holds u = true ↔ sy_resources s' = Some j.
Proof.
  intros [[-> ->]|[[Hne Hju]|(Hne & Hr & Hh & _)]]%moved_lookup.
  - exact (lock_move_self _ _ _ _ _ (mv_lock _ _ _ _ _ Hmv) self_lock).
  - rewrite (inv_lock _ Hinv j u Hju). split.
    + exact (lock_move_kept _ _ _ _ _ _ (mv_lock _ _ _ _ _ Hmv) self_lock Hne).
    + exact (lock_move_other _ _ _ _ _ _ (mv_lock _ _ _ _ _ Hmv) self_lock Hne).
  - rewrite Hh. split; [done|]. intros Hr'. exfalso. apply Hr.
    exact (lock_move_other _ _ _ _ _ _ (mv_lock _ _ _ _ _ Hmv) self_lock Hne Hr').
Qed.
Lemma moved_holder j : sy_resources s' = Some j → is_Some (<[i := t']> (sy_threads s') !! j).
Proof.
  intros Hr. rewrite Hts. destruct (decide (j = i)) as [->|Hne].
  - rewrite list_lookup_insert_eq; [eauto|]. rewrite length_app. apply lookup_lt_Some in Hi. lia.
  - rewrite list_lookup_insert_ne by done.
    destruct (inv_holder _ Hinv j) as [u Hu];
      [exact (lock_move_other _ _ _ _ _ _ (mv_lock _ _ _ _ _ Hmv) self_lock Hne Hr)|].
    exists u. by apply lookup_app_l_Some.
Qed.
Lemma moved_busy j u : <[i := t']> (sy_threads s') !! j = Some u → active u = true → sy_assembling s' = true.
Proof.
  intros Hj Hu. destruct (mv_assembling _ _ _ _ _ Hmv) as [->|(Ht & Ht' & ->)];
    destruct (moved_lookup j u Hj) as [[-> ->]|[[Hne Hju]|(_ & _ & _ & ? & _)]]; try congruence.
  - apply (inv_busy _ Hinv i t Hi). by apply (mv_active _ _ _ _ _ Hmv).
  - by apply (inv_busy _ Hinv j u Hju).
  - by destruct Hne; apply (inv_single _ Hinv j i u t).
Qed.
Lemma moved_active j u : <[i := t']> (sy_threads s') !! j = Some u → active u = true →
  ∃ v, sy_threads s !! j = Some v ∧ active v = true.
Proof.
  intros [[-> ->]|[[Hne Hju]|(_ & _ & _ & ? & _)]]%moved_lookup Hu; [|eauto|congruence].
  exists t. split; [done|]. by apply (mv_active _ _ _ _ _ Hmv).
Qed.

(** Nobody but the holder of the lock has a tunnel in its hands. *)
Lemma free_carry j u l : sy_threads s !! j = Some u → kind u = K_Carry l → sy_resources s = Some j.
Proof. intros Hj [_ Hh]%carry_of. by apply (inv_lock _ Hinv j u). Qed.

Lemma moved_good j u : sy_poisoned s' = false → <[i := t']> (sy_threads s') !! j = Some u → holds u = true →
  sys_good s' (kind u).
Proof.
  intros Hp Hj Hu. pose proof (mv_resources _ _ _ _ _ Hmv Hp) as Hres. pose proof (moved_calm Hp) as Hp0.
  unfold resource_move in Hres. pose proof (mv_lock _ _ _ _ _ Hmv) as Hlock. unfold lock_move in Hlock.
  destruct (moved_lookup j u Hj) as [[-> ->]|[[Hne Hju]|(_ & _ & ? & _)]]; [| |congruence].
  - rewrite Hu in Hlock. destruct (holds t) eqn:Ht.
    + apply Hres. by apply (inv_good _ Hinv i t).
    + destruct Hlock as [Hfree _], Hres as (E1 & E2 & E3 & E4 & Hk). unfold sys_good. rewrite E1, E2, E3, E4.
      pose proof (inv_free _ Hinv Hp0 Hfree) as Hg. destruct Hk as [->|[-> Hk]]; [done|].
      destruct (inv_past _ Hinv i t Hp0 Hi Hk) as (El & Ep & _). unfold sys_good in Hg. rewrite El, Ep in *.
      by destruct Hg as [_ Ha].
  - assert (Hr : sy_resources s = Some j) by (by apply (inv_lock _ Hinv j u)).
    assert (holds t = false) as Ht.
    { destruct (holds t) eqn:Ht; [|done]. apply self_lock in Ht. congruence. }
    rewrite Ht in Hres. destruct Hres as (E1 & E2 & E3 & E4 & _). unfold sys_good. rewrite E1, E2, E3, E4.
    by apply (inv_good _ Hinv j u).
Qed.
Lemma moved_poison : sy_poisoned s' = true → sy_resources s' = None.
Proof.
  intros Hp. destruct (mv_panic _ _ _ _ _ Hmv Hp) as [Hp0|]; [|done].
  pose proof (inv_poison _ Hinv Hp0) as Hr. pose proof (mv_lock _ _ _ _ _ Hmv) as Hlock. unfold lock_move in Hlock.
  assert (holds t = false) as Ht by (destruct (holds t) eqn:Ht; [apply self_lock in Ht; congruence|done]).
  by rewrite Ht, (mv_blocked _ _ _ _ _ Hmv Hp0 Ht), Hr in Hlock.
Qed.
Lemma moved_free : sy_poisoned s' = false → sy_resources s' = None → sys_good s' K_Idle.
Proof.
  intros Hp Hr. pose proof (mv_resources _ _ _ _ _ Hmv Hp) as Hres. pose proof (moved_calm Hp) as Hp0.
  unfold resource_move in Hres. pose proof (mv_lock _ _ _ _ _ Hmv) as Hlock. unfold lock_move in Hlock.
  destruct (holds t) eqn:Ht.
  - assert (holds t' = false) as Ht'.
    { destruct (holds t') eqn:Ht'; [|done]. apply self_lock in Ht. congruence. }
    destruct (Hres (inv_good _ Hinv i t Hp0 Hi Ht)) as [Hg _].
    eapply good_idle; [exact Hg|]. intros l Hk%carry_of. destruct Hk. congruence.
  - destruct Hres as (E1 & E2 & E3 & E4 & _). unfold sys_good. rewrite E1, E2, E3, E4.
    apply (inv_free _ Hinv Hp0). destruct (holds t'); [by destruct Hlock|congruence].
Qed.

Lemma moved_past j u : sy_poisoned s' = false → <[i := t']> (sy_threads s') !! j = Some u → kind u = K_Past →
  sy_live s' = None ∧ sy_pending s' = [] ∧
  ∀ k v l, <[i := t']> (sy_threads s') !! k = Some v → kind v ≠ K_Carry l.
Proof.
  intros Hp Hj Hu. pose proof (mv_resources _ _ _ _ _ Hmv Hp) as Hres. pose proof (moved_calm Hp) as Hp0.
  unfold resource_move in Hres.
  destruct (moved_lookup j u Hj) as [[-> ->]|[[Hne Hju]|(_ & _ & _ & _ & ?)]]; [| |congruence].
  - destruct (holds t) eqn:Ht.
    + pose proof Ht as Hr. apply self_lock in Hr.
      destruct (Hres (inv_good _ Hinv i t Hp0 Hi Ht)) as [Hg _]. rewrite Hu in Hg. destruct Hg as (-> & -> & _).
      split_and!; [done..|]. intros k v l Hk Hv.
      destruct (moved_lookup k v Hk) as [[-> ->]|[[Hne Hkv]|(_ & _ & _ & _ & ?)]]; [congruence| |congruence].
      pose proof (free_carry k v l Hkv Hv). congruence.
    + destruct Hres as (E1 & E2 & _ & _ & [?|[_ Hk]]); [congruence|].
      destruct (inv_past _ Hinv i t Hp0 Hi Hk) as (El & Ep & Hno). rewrite E1, E2. split_and!; [done..|].
      intros k v l Hkv Hv. destruct (moved_lookup k v Hkv) as [[-> ->]|[[Hne Hkv']|(_ & _ & _ & _ & ?)]];
        [congruence| |congruence]. by apply (Hno k v l).
  - destruct (inv_past _ Hinv j u Hp0 Hju Hu) as (El & Ep & Hno).
    assert (Hnot : active t = false).
    { destruct (active t) eqn:Ha; [|done]. destruct Hne. apply (inv_single _ Hinv j i u t); auto using past_active. }
    assert (sy_live s' = None ∧ sy_pending s' = [] ∧ ∀ l, kind t' ≠ K_Carry l) as (-> & -> & Hk').
    { destruct (holds t) eqn:Ht.
      - destruct (Hres (inv_good _ Hinv i t Hp0 Hi Ht)) as [_ Hrest]. apply Hrest; auto. intros l. by apply (Hno i t).
      - destruct Hres as (-> & -> & _ & _ & [Hk|[Hk _]]); rewrite Hk; done. }
    split_and!; [done..|]. intros k v l Hkv Hv.
    destruct (moved_lookup k v Hkv) as [[-> ->]|[[Hne' Hkv']|(_ & _ & _ & _ & ?)]]; [by apply (Hk' l)| |congruence].
    by apply (Hno k v l).
Qed.
End Moving.

Lemma inv_thread i s s' t t' :
  inv s → sy_threads s !! i = Some t → moves i s s' t t' → inv (with_threads (<[i := t']> (sy_threads s')) s').
Proof.
  intros Hinv Hi Hmv. destruct (mv_threads _ _ _ _ _ Hmv) as (more & Hts & Hmore).
  split; simpl.
  - eapply moved_locks; eauto.
  - eapply moved_holder; eauto.
  - eapply moved_busy; eauto.
  - intros j k u v Hj Hk Hu Hv.
    destruct (moved_active i s s' t t' more Hinv Hi Hmv Hts Hmore j u Hj Hu) as (u' & ? & ?).
    destruct (moved_active i s s' t t' more Hinv Hi Hmv Hts Hmore k v Hk Hv) as (v' & ? & ?).
    by apply (inv_single _ Hinv j k u' v').
  - exact (moved_good i s s' t t' more Hinv Hi Hmv Hts Hmore).
  - exact (moved_poison i s s' t t' Hinv Hi Hmv).
  - exact (moved_free i s s' t t' Hinv Hi Hmv).
  - exact (moved_past i s s' t t' more Hinv Hi Hmv Hts Hmore).
Qed.

(** ** The threads *)

(** Nothing the invariant speaks of has changed. *)
Record same_core (s s' : Sys) : Prop := {
  sc_live : sy_live s' = sy_live s;
  sc_pending : sy_pending s' = sy_pending s;
  sc_resources : sy_resources s' = sy_resources s;
  sc_poisoned : sy_poisoned s' = sy_poisoned s;
  sc_odd : sy_odd s' = sy_odd s;
  sc_assembling : sy_assembling s' = sy_assembling s;
  sc_threads : sy_threads s' = sy_threads s;
}.
Lemma on_group_core i f s : same_core s (on_group i f s) ∧ sy_machine (on_group i f s) = sy_machine s.
Proof. by destruct i. Qed.

Lemma clean_outcome io c s s1 r : clean_step io c s = Some (s1, r) →
  same_core s s1 ∧
  match r with
  | inl c' => sy_machine s1 = sy_machine s ∧ cleaned_tunnel c' = cleaned_tunnel c
  | inr (Some (l, res)) =>
      (acc (sy_odd s) (sy_machine s) (tunnel_routes (cleaned_tunnel c)) → acc (sy_odd s) (sy_machine s1) (tunnel_routes l))
      ∧ (is_ok res = true → tunnel_routes l = [])
  | inr None => True
  end.
Proof.
  destruct c as [l|l]; simpl; intros Hc; simplify_eq.
  - destruct (on_group_core (lt_threads l) stop_group s). auto.
  - destruct (joinable _ _); [|done]. destruct (lt_route l) as [o|] eqn:Eo; simplify_eq/=.
    + destruct (tp_clear io (sy_machine s) o) as [[[m o'] res]|] eqn:Ec; simplify_eq/=; [|done].
      split; [done|]. unfold tunnel_routes at 1. rewrite Eo. simpl. split.
      * intros Ha Hodd. pose proof (law_clear _ _ _ _ _ _ (Ha Hodd) Ec) as Hm. destruct res as [[]|f]; [|done].
        by rewrite (law_clear_ok _ _ _ _ _ Ec) in Hm.
      * by destruct res as [[]|f].
    + split; [done|]. unfold tunnel_routes at 1. rewrite Eo. simpl. auto.
Qed.

Lemma retry_outcome s : acc (sy_odd s) (sy_machine s) (concat (sy_pending s)) → shape None (sy_pending s) →
  let out := retry_pending_routes s in
  same_core (with_pending (sy_pending out.1) s) out.1 ∧ shape None (sy_pending out.1)
  ∧ acc (sy_odd s) (sy_machine out.1) (concat (sy_pending out.1)) ∧ (out.2 = true → sy_pending out.1 = [])
  ∧ (sy_pending s = [] → sy_pending out.1 = []).
Proof.
  intros Ha [_ [Hp|[routes Hp]]]; unfold retry_pending_routes; rewrite Hp in *; simpl in *.
  - split_and!; try done; split; by left.
  - rewrite app_nil_r in Ha. destruct (tp_retry (sy_machine s) routes) as [[m routes'] res] eqn:Er. simpl.
    rewrite andb_true_r, filter_cons, filter_nil.
    assert (Ha' : acc (sy_odd s) m routes') by (intros Hodd; by eapply law_retry; [apply Ha|]).
    destruct (decide (routes' ≠ [])) as [Hne|Heq].
    + simpl. rewrite app_nil_r. split_and!; try done; [split; eauto|].
      destruct res as [[]|f]; [|done]. intros _. by rewrite (law_retry_ok _ _ _ _ Er) in Hne.
    + apply dec_stable in Heq as ->. simpl. split_and!; try done. split; by left.
Qed.

Lemma put_live_none io l s : sy_live s = None → put_live io l s = with_live (Some l) s.
Proof. intros Hl. unfold put_live. by rewrite Hl. Qed.

Lemma cleaning_cases {A} io c s (go : Cleaning → A) done failed panicked s1 a :
  cleaning io c s go done failed panicked = Some (s1, a) →
  ∃ s0, same_core s s0 ∧
  ((∃ c', sy_machine s0 = sy_machine s ∧ cleaned_tunnel c' = cleaned_tunnel c ∧ (s1, a) = (s0, go c'))
   ∨ ((acc (sy_odd s) (sy_machine s) (tunnel_routes (cleaned_tunnel c)) → acc (sy_odd s) (sy_machine s0) [])
      ∧ (s1, a) = done s0)
   ∨ (∃ l f, (acc (sy_odd s) (sy_machine s) (tunnel_routes (cleaned_tunnel c)) →
              acc (sy_odd s) (sy_machine s0) (tunnel_routes l)) ∧ (s1, a) = failed s0 l f)
   ∨ (s1, a) = (poison s0, panicked)).
Proof.
  unfold cleaning. destruct (clean_step io c s) as [[s0 r]|] eqn:Ec; [|done].
  destruct (clean_outcome _ _ _ _ _ Ec) as [Hsc Hr]. intros Hcl. exists s0. split; [done|].
  destruct r as [c'|[[l [[]|f]]|]]; simplify_eq.
  - left. naive_solver.
  - right; left. destruct Hr as [Ha Hn]. rewrite Hn in Ha by done. by rewrite Hcl.
  - right; right; left. destruct Hr as [Ha _]. exists l, f. by rewrite Hcl.
  - auto.
Qed.

(** A step with the lock that hands the resources on. *)
Lemma moves_locked i s s' t t' :
  holds t = true → lock_move i t t' (sy_resources s) (sy_resources s') → (active t' = true → active t = true) →
  sy_assembling s' = sy_assembling s → sy_poisoned s' = sy_poisoned s →
  (sy_poisoned s' = false → sys_good s (kind t) → sys_good s' (kind t') ∧
    (active t = false → sy_live s = None → sy_pending s = [] → (∀ l, kind t ≠ K_Carry l) →
     sy_live s' = None ∧ sy_pending s' = [] ∧ ∀ l, kind t' ≠ K_Carry l)) →
  sy_threads s' = sy_threads s → moves i s s' t t'.
Proof.
  intros Hh Hl Ha Hasm Hp Hres Hts. split; [done|done|by left|congruence|rewrite Hp; by left|congruence| |].
  - unfold resource_move. rewrite Hh. done.
  - exists []. by rewrite app_nil_r.
Qed.
(** A step without the lock, which does not touch the resources. *)
Lemma moves_free i s s' t t' :
  holds t = false → (if holds t' then sy_resources s = None ∧ sy_resources s' = Some i ∧ sy_poisoned s = false
                     else sy_resources s' = sy_resources s) →
  (active t' = true → active t = true) →
  sy_assembling s' = sy_assembling s ∨ (active t = true ∧ active t' = false ∧ sy_assembling s' = false) →
  sy_poisoned s' = sy_poisoned s → sy_live s' = sy_live s → sy_pending s' = sy_pending s →
  sy_machine s' = sy_machine s → sy_odd s' = sy_odd s →
  (kind t' = K_Idle ∨ kind t' = K_Past ∧ kind t = K_Past) →
  sy_threads s' = sy_threads s → moves i s s' t t'.
Proof.
  intros Hh Hl Ha Hasm Hp E1 E2 E3 E4 Hk Hts. split; [|done|done|congruence|rewrite Hp; by left| | |].
  - unfold lock_move. rewrite Hh. destruct (holds t'); naive_solver.
  - intros Hpo _. destruct (holds t'); [|done]. naive_solver congruence.
  - intros _. unfold resource_move. by rewrite Hh.
  - exists []. by rewrite app_nil_r.
Qed.
Lemma acquire_some i s s' : acquire i s = Some s' → sy_resources s = None ∧ s' = with_resources (Some i) s.
Proof. unfold acquire. destruct (sy_resources s); naive_solver. Qed.

(** A thread that takes a tunnel down, whatever comes of it: it goes on, it is done and
    has nothing left, it failed and the tunnel is back, or it panicked. *)
Lemma moves_cleaning {A} i s s1 t (mk : A → Thread) io c (go : Cleaning → A) done failed panicked a :
  holds t = true → kind t = K_Carry (cleaned_tunnel c) → (active t = false → active (mk a) = false) →
  (∀ c, holds (mk (go c)) = true ∧ kind (mk (go c)) = K_Carry (cleaned_tunnel c)) →
  (∀ s0, let out := done s0 in
     (if holds (mk out.2) then sy_resources out.1 = sy_resources s0 else sy_resources out.1 = None) ∧
     sy_live out.1 = sy_live s0 ∧ sy_pending out.1 = sy_pending s0 ∧ sy_machine out.1 = sy_machine s0 ∧
     sy_odd out.1 = sy_odd s0 ∧ sy_poisoned out.1 = sy_poisoned s0 ∧ sy_assembling out.1 = sy_assembling s0 ∧
     sy_threads out.1 = sy_threads s0 ∧
     (kind (mk out.2) = K_Idle ∨ kind (mk out.2) = K_Retry ∨ kind (mk out.2) = K_Past)) →
  (∀ s0 l f, sy_live s0 = None → let out := failed s0 l f in
     (if holds (mk out.2) then sy_resources out.1 = sy_resources s0 else sy_resources out.1 = None) ∧
     sy_live out.1 = Some l ∧ sy_pending out.1 = sy_pending s0 ∧ sy_machine out.1 = sy_machine s0 ∧
     sy_odd out.1 = sy_odd s0 ∧ sy_poisoned out.1 = sy_poisoned s0 ∧ sy_assembling out.1 = sy_assembling s0 ∧
     sy_threads out.1 = sy_threads s0 ∧ kind (mk out.2) = K_Idle) →
  holds (mk panicked) = false →
  cleaning io c s go done failed panicked = Some (s1, a) →
  sy_poisoned s = false → sys_good s (kind t) → moves i s s1 t (mk a).
Proof.
  intros Hh Hk Hact Hgo Hdone Hfailed Hpanic Hcl Hp0 Hg. rewrite Hk in Hg. destruct Hg as (El & Ep & Ha).
  destruct (cleaning_cases _ _ _ _ _ _ _ _ _ Hcl) as (s0 & Hsc & Hcase).
  destruct Hsc as [E1 E2 E3 E4 E5 E6 E7].
  assert (Hact' : active (mk a) = true → active t = true).
  { destruct (active t); [done|]. by rewrite Hact. }
  destruct Hcase as [(c' & Em & Ec & [= -> ->])|[[Ha' Hd]|[(l & f & Ha' & Hf)|[= -> ->]]]].
  - destruct (Hgo c') as [Hgh Hgk]. apply moves_locked; rewrite ?E3, ?E4, ?E6; try done.
    + unfold lock_move. by rewrite Hh, Hgh.
    + intros _ _. split; [|by intros _ _ _ Hno; destruct (Hno _ Hk)].
      rewrite Hgk. unfold sys_good. rewrite E1, E2, E5, Em, Ec. done.
  - specialize (Hdone s0). rewrite <-Hd in Hdone. simpl in Hdone.
    destruct Hdone as (Hr & F1 & F2 & F3 & F4 & F5 & F6 & F7 & Hkd). apply moves_locked; rewrite ?F5, ?F6, ?F7, ?E4, ?E6, ?E7; try done.
    + unfold lock_move. rewrite Hh. destruct (holds (mk a)); congruence.
    + intros _ _. split; [|by intros _ _ _ Hno; destruct (Hno _ Hk)].
      unfold sys_good. rewrite F1, F2, F3, F4, E1, E2, E5, El, Ep.
      assert (shape None []) by (split; by left). destruct Hkd as [->|[->| ->]]; simpl; auto.
  - specialize (Hfailed s0 l f ltac:(congruence)). rewrite <-Hf in Hfailed. simpl in Hfailed.
    destruct Hfailed as (Hr & F1 & F2 & F3 & F4 & F5 & F6 & F7 & Hkd). apply moves_locked; rewrite ?F5, ?F6, ?F7, ?E4, ?E6, ?E7; try done.
    + unfold lock_move. rewrite Hh. destruct (holds (mk a)); congruence.
    + intros _ _. split; [|by intros _ _ _ Hno; destruct (Hno _ Hk)].
      unfold sys_good. rewrite F1, F2, F3, F4, E2, E5, Ep, Hkd. simpl. rewrite app_nil_r.
      split; [split; [by right|by left]|auto].
  - split; [|done|by left| |by right|by rewrite Hh| |].
    + unfold lock_move. by rewrite Hh, Hpanic.
    + done.
    + done.
    + exists []. simpl. by rewrite app_nil_r.
Qed.

Lemma caller_moves i s s' td pc pc' reply :
  caller_step i td pc reply s = Some (s', pc') →
  (holds (T_Caller td pc) = true → sy_poisoned s = false ∧ sys_good s (kind (T_Caller td pc))) →
  moves i s s' (T_Caller td pc) (T_Caller td pc').
Proof.
  intros Hstep Hh. destruct pc, reply; try discriminate Hstep; simpl in Hstep.
  - simplify_eq. by apply moves_free; try done; left.
  - destruct (sy_poisoned s) eqn:Ep; simplify_eq; [by apply moves_free; try done; left|].
    apply bind_Some in Hstep as (s1 & [Hr ->]%acquire_some & [= <- <-]).
    apply moves_free; try done; by left.
  - destruct (Hh eq_refl) as [Hp Hg]. destruct Hg as [Hs Ha].
    destruct (sy_live s) as [l|] eqn:El; simplify_eq; apply moves_locked; try done; intros _ _; (split; [|simpl; congruence || done]).
    + destruct Hs as [[?|Hpe] _]; [done|]. unfold sys_good. simpl. rewrite Hpe in *. simpl in Ha. by rewrite app_nil_r in Ha.
    + unfold sys_good. simpl. rewrite El. auto.
  - destruct (Hh eq_refl) as [Hp Hg].
    refine (moves_cleaning i s s' (T_Caller td (D_Clean c)) (T_Caller td) io c _ _ _ _ pc' _ _ _ _ _ _ _ Hstep Hp Hg);
      try done; simpl.
    + intros s0. split_and!; auto.
    + intros s0 l f Hl. unfold put_live. rewrite Hl. split_and!; auto.
  - destruct (Hh eq_refl) as [Hp (El & Hs & Ha)]. rewrite El in Hs.
    destruct (retry_outcome s Ha Hs) as (Hsc & Hs' & Ha' & Hok & Hnil).
    destruct (retry_pending_routes s) as [s1 ok]. destruct Hsc as [E1 E2 E3 E4 E5 E6 E7]; simpl in *.
    assert (shape None []) by (split; by left).
    destruct ok, td; simplify_eq; apply moves_locked; simpl; rewrite ?E4, ?E6, ?E7; try done;
      intros _ _; unfold sys_good; simpl; rewrite E1, E5, El; (split; [|auto]);
      try (rewrite Hok in * by done); done.
  - simplify_eq. by apply moves_free; try done; left.
Qed.

Lemma sweeper_moves i s s' g q pc q' pc' reply :
  sweeper_step i g q pc reply s = Some (s', (q', pc')) →
  (holds (T_Sweeper g q pc) = true → sy_poisoned s = false ∧ sys_good s (kind (T_Sweeper g q pc))) →
  moves i s s' (T_Sweeper g q pc) (T_Sweeper g q' pc').
Proof.
  intros Hstep Hh. destruct pc, reply; try discriminate Hstep; simpl in Hstep.
  - destruct q as [|lost q]; [destruct (silent g s)|]; simplify_eq; by apply moves_free; try done; left.
  - destruct (sy_poisoned s) eqn:Ep; simplify_eq; [by apply moves_free; try done; left|].
    apply bind_Some in Hstep as (s1 & [Hr ->]%acquire_some & [= <- <- <-]).
    apply moves_free; try done; by left.
  - destruct (negb _); simplify_eq; apply moves_locked; try done; intros _ Hg; split; auto.
  - destruct (Hh eq_refl) as [Hp [Hs Ha]].
    destruct (negb _); simplify_eq; [apply moves_locked; try done; intros _ Hg; split; auto|].
    destruct (sy_live s) as [l|] eqn:El; simplify_eq; apply moves_locked; try done; intros _ Hg; (split; [|simpl; congruence || auto]);
      try done.
    destruct Hs as [[?|Hpe] _]; [done|]. unfold sys_good. simpl. rewrite Hpe in *. simpl in Ha. by rewrite app_nil_r in Ha.
  - destruct (Hh eq_refl) as [Hp Hg].
    refine (moves_cleaning i s s' (T_Sweeper g q (S_Clean g0 c)) (λ p, T_Sweeper g p.1 p.2) io c _ _ _ _ (q', pc')
              _ _ _ _ _ _ _ Hstep Hp Hg); try done; simpl.
    + intros s0. split_and!; auto.
    + intros s0 l f Hl. unfold put_live. rewrite Hl. split_and!; auto.
Qed.

(** An assembly that does not hold the lock and goes on or stops. *)
Lemma moves_outside i s s' ctx pc pc' :
  holds (T_Assembly ctx pc) = false → holds (T_Assembly ctx pc') = false → active (T_Assembly ctx pc) = true →
  same_core s s' → sy_machine s' = sy_machine s →
  (kind (T_Assembly ctx pc') = K_Idle ∨ kind (T_Assembly ctx pc') = K_Past ∧ kind (T_Assembly ctx pc) = K_Past) →
  moves i s s' (T_Assembly ctx pc) (T_Assembly ctx pc').
Proof.
  intros Hh Hh' Ha [E1 E2 E3 E4 E5 E6 E7] Em Hk. apply moves_free; try done; [by rewrite Hh'|by left].
Qed.
(** An assembly with the lock, which nobody else has to be told of. *)
Lemma moves_inside i s s' ctx pc pc' :
  holds (T_Assembly ctx pc) = true → holds (T_Assembly ctx pc') = true → sy_resources s' = sy_resources s →
  sy_assembling s' = sy_assembling s → sy_poisoned s' = sy_poisoned s → sy_threads s' = sy_threads s →
  (sys_good s (kind (T_Assembly ctx pc)) → sys_good s' (kind (T_Assembly ctx pc'))) →
  moves i s s' (T_Assembly ctx pc) (T_Assembly ctx pc').
Proof.
  intros Hh Hh' Er Ea Ep Et Hg. assert (active (T_Assembly ctx pc) = true) by (by destruct pc).
  apply moves_locked; try done; [unfold lock_move; by rewrite Hh, Hh'|]. intros _ Hk. split; [auto|congruence].
Qed.

Lemma apply_failed_moves i s s0 ctx d nic_new e :
  sy_resources s0 = sy_resources s → sy_assembling s0 = sy_assembling s → sy_poisoned s0 = sy_poisoned s →
  sy_threads s0 = sy_threads s → sy_live s0 = sy_live s → sy_pending s0 = sy_pending s →
  (sys_good s K_Past → acc (sy_odd s0) (sy_machine s0) (ae_pending_routes e)) →
  moves i s (apply_failed nic_new e s0).1 (T_Assembly ctx (A_Apply d nic_new)) (T_Assembly ctx (apply_failed nic_new e s0).2).
Proof.
  intros E1 E2 E3 E4 E5 E6 Ha.
  assert (shape None [ae_pending_routes e]) by (split; [by left|right; eauto]).
  assert (shape None []) by (split; by left).
  unfold apply_failed. destruct (ae_pending_routes e) as [|r rs] eqn:Ee; destruct nic_new; simpl;
    (apply moves_inside; [done..|]); intros Hg; pose proof (Ha Hg) as Ha'; destruct Hg as (El & Ep & _);
    unfold sys_good; simpl; rewrite E5, E6, El, Ep; simpl; rewrite ?app_nil_r; done.
Qed.
Lemma apply_offer_moves i s ctx io d nic_new :
  moves i s (apply_offer io d nic_new s).1 (T_Assembly ctx (A_Apply d nic_new)) (T_Assembly ctx (apply_offer io d nic_new s).2).
Proof.
  unfold apply_offer. destruct (sy_nic s) as [nic|].
  2:{ split; try done; [by left|by right|]. exists []. simpl. by rewrite app_nil_r. }
  case_bool_decide as Hrow.
  { apply apply_failed_moves; try done. by intros (_ & _ & ?). }
  destruct (tp_apply _ _ _ _ _ _ _) as [[m [[route facts]|e]]|] eqn:Ea.
  - simpl. apply moves_inside; try done. intros (El & Ep & Hacc). unfold sys_good. simpl. rewrite El, Ep.
    split_and!; [done..|]. intros [Ho Hr%negb_false_iff]%orb_false_iff. simpl in *.
    exact (law_apply _ _ _ _ _ _ _ _ _ (Hacc Ho) Hr Ea).
  - apply apply_failed_moves; try done. simpl. intros (El & Ep & Hacc) [Ho Hr%negb_false_iff]%orb_false_iff.
    exact (law_apply _ _ _ _ _ _ _ _ _ (Hacc Ho) Hr Ea).
  - split; try done; [by left|by right|]. exists []. simpl. by rewrite app_nil_r.
Qed.

Lemma control_moves i s ctx prepared r :
  moves i s (control ctx prepared r s).1 (T_Assembly ctx (A_Control prepared)) (T_Assembly ctx (control ctx prepared r s).2).
Proof.
  unfold control. destruct (cr_config r); [|apply moves_outside; try done; by left].
  destruct (cx_credentials ctx); [|apply moves_outside; try done; by left]. simpl.
  destruct (find_physical_nics _) as [[|card cards]|]; [apply moves_outside; try done; by left| |apply moves_outside; try done; by left].
  destruct (cr_resolver r); [|apply moves_outside; try done; by left]. simpl.
  destruct (cr_gateway r); apply moves_outside; try done; [by right|by left].
Qed.
Lemma start_plane_moves i s ctx d nic_new route started :
  moves i s (start_plane ctx nic_new route started s).1 (T_Assembly ctx (A_Applied d nic_new route))
    (T_Assembly ctx (start_plane ctx nic_new route started s).2).
Proof.
  unfold start_plane. destruct (sy_cancel s); [by apply moves_inside|].
  destruct (sy_nic _); [destruct started; by apply moves_inside|].
  split; try done; [by left|by right|]. exists []. simpl. by rewrite app_nil_r.
Qed.
Lemma spawn_workers_moves i s ctx route :
  moves i s (spawn_workers ctx route s).1 (T_Assembly ctx (A_Generation route)) (T_Assembly ctx (spawn_workers ctx route s).2).
Proof.
  split; try done; [by left|by left|]. eexists [_]. split; [done|]. by apply Forall_singleton.
Qed.
Lemma install_live_moves i s ctx wall io l :
  sys_good s (K_Carry l) →
  moves i s (install_live ctx wall io l s).1 (T_Assembly ctx (A_Install l)) (T_Assembly ctx (install_live ctx wall io l s).2).
Proof.
  intros (El & Ep & Ha). unfold install_live. destruct (sy_cancel s); [by apply moves_inside|].
  destruct (group_alive _ _); [|by apply moves_inside]. simpl. rewrite put_live_none by done.
  destruct (on_group_core (lt_threads l) activate_group
              (tell (status_connected wall (cx_operation_id ctx)) (tell_phase Ph_Connected (with_paused false (with_live (Some l) s)))))
    as [[E1 E2 E3 E4 E5 E6 E7] Em]. simpl in *.
  apply moves_inside; try done. intros _. unfold sys_good. rewrite E1, E2, E5, Em, Ep. simpl. rewrite app_nil_r.
  split; [split; [by right|by left]|done].
Qed.

Lemma assembly_moves i s s' ctx pc pc' reply :
  assembly_step wintun_dll i ctx pc reply s = Some (s', pc') →
  (holds (T_Assembly ctx pc) = true → sy_poisoned s = false ∧ sys_good s (kind (T_Assembly ctx pc))) →
  moves i s s' (T_Assembly ctx pc) (T_Assembly ctx pc').
Proof.
  intros Hstep Hh. assert (Hs0 : shape None []) by (split; by left).
  destruct pc; destruct reply; try discriminate Hstep; simpl in Hstep.
  - destruct (sy_cancel s); simplify_eq; apply moves_outside; try done; by left.
  - destruct (sy_poisoned s) eqn:Ep; simplify_eq; [apply moves_outside; try done; by left|].
    apply bind_Some in Hstep as (s1 & [Hr ->]%acquire_some & [= <- <-]). apply moves_free; try done; by left.
  - destruct (sy_live s) as [l|] eqn:El; simplify_eq; apply moves_inside; try done;
      intros [Hs Ha]; unfold sys_good; simpl; rewrite ?El in *; [|done].
    destruct Hs as [[?|Hpe] _]; [done|]. rewrite Hpe in *. simpl in Ha. by rewrite app_nil_r in Ha.
  - destruct (Hh eq_refl) as [Hp Hg].
    refine (moves_cleaning i s s' (T_Assembly ctx (A_CleanPrevious c)) (T_Assembly ctx) io c _ _ _ _ pc' _ _ _ _ _ _ _ Hstep Hp Hg);
      try done; simpl.
    + intros s0. split_and!; auto.
    + intros s0 l f Hl. unfold put_live. rewrite Hl. split_and!; auto.
  - destruct (Hh eq_refl) as [Hp (El & Hs & Ha)]. rewrite El in Hs.
    destruct (retry_outcome s Ha Hs) as (Hsc & Hs' & Ha' & Hok & _).
    destruct (retry_pending_routes s) as [s1 ok]. destruct Hsc as [E1 E2 E3 E4 E5 E6 E7]; simpl in *.
    destruct ok; simplify_eq; apply moves_locked; simpl; rewrite ?E4, ?E6, ?E7; try done;
      intros _ _; (split; [|done]); unfold sys_good; simpl; rewrite E1, E5, El; try (rewrite Hok in * by done); done.
  - destruct (sy_cancel s); simplify_eq; [apply moves_outside; try done; by left|]. unfold preflight in Hstep.
    destruct (sy_nic s); [simplify_eq; apply moves_outside; try done; by right|].
    destruct (EngineService.prepare_from _ _ _); simplify_eq; apply moves_outside; try done; [by right|by left].
  - destruct (sy_cancel s); simplify_eq; [apply moves_outside; try done; by left|].
    pose proof (control_moves i s ctx prepared c) as Hc. by rewrite Hstep in Hc.
  - destruct (sy_cancel s); simplify_eq; [apply moves_outside; try done; by left|].
    destruct gateway as [ip port|]; [destruct r|]; simpl; apply moves_outside; try done; (by left) || (by right).
  - destruct (sy_cancel s); simplify_eq; [apply moves_outside; try done; by left|].
    destruct r as [[offer endpoints]|]; simpl; [destruct (bypass_row _ _ _ _ _ _)|]; apply moves_outside; try done; (by left) || (by right).
  - destruct (sy_cancel s); simplify_eq; apply moves_outside; try done; [by left|by right].
  - destruct (sy_poisoned s) eqn:Ep; simplify_eq; [apply moves_outside; try done; by left|].
    apply bind_Some in Hstep as (s1 & [Hr ->]%acquire_some & [= <- <-]). apply moves_free; try done; [by left|by right].
  - destruct (sy_cancel s); [|destruct (sy_live s) as [l|] eqn:El]; simplify_eq; apply moves_inside; try done;
      intros (El' & Ep & Ha); unfold sys_good; simpl; [by rewrite El', Ep|congruence].
  - by destruct (Hh eq_refl) as [_ []].
  - unfold ensure_nic in Hstep. simpl in Hstep.
    assert (∀ m' res, tp_ensure (sy_machine s) created = (m', res) → acc (sy_odd s) (sy_machine s) [] → acc (sy_odd s) m' []) as Hen.
    { intros m' res E Ha Ho. exact (law_ensure _ _ _ _ _ (Ha Ho) E). }
    destruct (sy_nic s); [|destruct (df_prepared d); [destruct (tp_ensure _ _) as [m' [nic|[e|detail]]]|]]; simplify_eq/=;
      (apply moves_inside; [done..|]); intros (El & Ep & Ha); unfold sys_good; simpl; rewrite El, Ep; split_and!; eauto; done.
  - pose proof (apply_offer_moves i s ctx io d nic_new) as Hm. injection Hstep as Hstep. by rewrite Hstep in Hm.
  - pose proof (start_plane_moves i s ctx d nic_new route started) as Hm. injection Hstep as Hstep. by rewrite Hstep in Hm.
  - destruct (Hh eq_refl) as [Hp Hg].
    refine (moves_cleaning i s s' (T_Assembly ctx (A_CleanRetain c close_nic e)) (T_Assembly ctx) io c _ _ _ _ pc' _ _ _ _ _ _ _ Hstep Hp Hg);
      try done; simpl.
    + intros s0. destruct close_nic; split_and!; auto.
    + intros s0 l f Hl. unfold put_live. rewrite Hl. split_and!; auto.
  - pose proof (spawn_workers_moves i s ctx route) as Hm. simplify_eq. by rewrite Hstep in Hm.
  - destruct (Hh eq_refl) as [_ Hg]. pose proof (install_live_moves i s ctx wall io l Hg) as Hm.
    injection Hstep as Hstep. by rewrite Hstep in Hm.
  - simplify_eq. apply moves_locked; try done; [by destruct e|]. intros _ Hg. by destruct e.
  - simplify_eq. apply moves_outside; try done; by left.
  - simplify_eq. apply moves_outside; try done; by left.
  - simplify_eq. apply moves_free; try done; [by right|by left].
Qed.

Lemma holder_calm i s t : inv s → sy_threads s !! i = Some t → holds t = true → sy_poisoned s = false.
Proof.
  intros Hinv Hi Hh. destruct (sy_poisoned s) eqn:Hp; [|done]. pose proof (inv_poison _ Hinv Hp).
  apply (inv_lock _ Hinv i t Hi) in Hh. congruence.
Qed.
Lemma thread_moves i s s' t t' reply :
  inv s → sy_threads s !! i = Some t → thread_step wintun_dll i t reply s = Some (s', t') → moves i s s' t t'.
Proof.
  intros Hinv Hi Hstep. assert (Hh : holds t = true → sy_poisoned s = false ∧ sys_good s (kind t)).
  { intros Hh. pose proof (holder_calm i s t Hinv Hi Hh). split; [done|by apply (inv_good _ Hinv i t)]. }
  destruct t as [ctx pc|td pc|g q pc]; simpl in Hstep; apply bind_Some in Hstep as ([s1 x] & Hstep & [= <- <-]); simpl.
  - by eapply assembly_moves.
  - by eapply caller_moves.
  - destruct x. by eapply sweeper_moves.
Qed.
Lemma inv_run i s s' t t' reply :
  inv s → sy_threads s !! i = Some t → thread_step wintun_dll i t reply s = Some (s', t') →
  inv (with_threads (<[i := t']> (sy_threads s')) s').
Proof. intros Hinv Hi Hstep. eapply inv_thread; [done..|by eapply thread_moves]. Qed.

(** ** Calls and workers *)

(** The resources are as they were, and the threads stand where they stood. *)
Lemma inv_same s s' (f : Thread → Thread) :
  (∀ t, holds (f t) = holds t ∧ active (f t) = active t ∧ kind (f t) = kind t) →
  sy_threads s' = f <$> sy_threads s → sy_resources s' = sy_resources s → sy_poisoned s' = sy_poisoned s →
  sy_assembling s' = sy_assembling s → sy_live s' = sy_live s → sy_pending s' = sy_pending s →
  sy_machine s' = sy_machine s → sy_odd s' = sy_odd s → inv s → inv s'.
Proof.
  intros Hf Ht E1 E2 E3 E4 E5 E6 E7 Hinv.
  assert (Hl : ∀ i t, sy_threads s' !! i = Some t → ∃ u, sy_threads s !! i = Some u ∧ t = f u).
  { intros i t. rewrite Ht, list_lookup_fmap. intros (u & ? & ->)%fmap_Some. eauto. }
  split; unfold sys_good; rewrite ?E1, ?E2, ?E3, ?E4, ?E5, ?E6, ?E7.
  - intros i t (u & Hu & ->)%Hl. rewrite (proj1 (Hf u)). by apply (inv_lock _ Hinv).
  - intros i Hr. rewrite Ht, list_lookup_fmap. destruct (inv_holder _ Hinv i Hr) as [u ->]. eauto.
  - intros i t (u & Hu & ->)%Hl. destruct (Hf u) as (_ & -> & _). by apply (inv_busy _ Hinv i).
  - intros i j t v (u & Hu & ->)%Hl (w & Hw & ->)%Hl. destruct (Hf u) as (_ & -> & _), (Hf w) as (_ & -> & _).
    by apply (inv_single _ Hinv).
  - intros i t Hp (u & Hu & ->)%Hl. destruct (Hf u) as (-> & _ & ->). by apply (inv_good _ Hinv i).
  - apply (inv_poison _ Hinv).
  - apply (inv_free _ Hinv).
  - intros i t Hp (u & Hu & ->)%Hl. destruct (Hf u) as (_ & _ & ->). intros Hk.
    destruct (inv_past _ Hinv i u Hp Hu Hk) as (? & ? & Hno). split_and!; [done..|].
    intros j v l (w & Hw & ->)%Hl. destruct (Hf w) as (_ & _ & ->). by apply (Hno j w l).
Qed.
(** A new thread knows nothing; a new assembly comes when there is none. *)
Lemma inv_spawn s t : holds t = false → kind t = K_Idle →
  (active t = true → sy_assembling s = true ∧ ∀ i u, sy_threads s !! i = Some u → active u = false) →
  inv s → inv (spawn t s).
Proof.
  intros Hh Hk Ha Hinv.
  assert (Hl : ∀ i u, sy_threads (spawn t s) !! i = Some u →
               sy_threads s !! i = Some u ∨ (i = length (sy_threads s) ∧ sy_threads s !! i = None ∧ u = t)).
  { simpl. intros i u [?|[Hge Hu]]%lookup_app_Some; [auto|]. right. apply list_lookup_singleton_Some in Hu as [? ->].
    split_and!; [lia|by apply lookup_ge_None|done]. }
  split.
  - intros i u [Hu|(-> & Hn & ->)]%Hl; [by apply (inv_lock _ Hinv)|]. rewrite Hh. split; [done|]. simpl. intros Hr.
    destruct (inv_holder _ Hinv _ Hr) as [? Hx]. congruence.
  - intros i Hr. destruct (inv_holder _ Hinv i Hr) as [u Hu]. exists u. by apply lookup_app_l_Some.
  - intros i u [Hu|(-> & _ & ->)]%Hl Hau; [by apply (inv_busy _ Hinv i u)|]. by destruct (Ha Hau).
  - intros i j u v [Hu|(-> & _ & ->)]%Hl [Hv|(-> & _ & ->)]%Hl Hau Hav; [by apply (inv_single _ Hinv i j u v)|..|done].
    + destruct (Ha Hav) as [_ Hno]. by rewrite (Hno i u Hu) in Hau.
    + destruct (Ha Hau) as [_ Hno]. by rewrite (Hno j v Hv) in Hav.
  - intros i u Hp [Hu|(-> & _ & ->)]%Hl Hhu; [by apply (inv_good _ Hinv i u)|congruence].
  - apply (inv_poison _ Hinv).
  - apply (inv_free _ Hinv).
  - intros i u Hp [Hu|(-> & _ & ->)]%Hl Hku; [|congruence].
    destruct (inv_past _ Hinv i u Hp Hu Hku) as (? & ? & Hno). split_and!; [done..|].
    intros j v l [Hv|(-> & _ & ->)]%Hl; [by apply (Hno j v l)|congruence].
Qed.

Lemma send_lost_stands c g t : holds (send_lost c g t) = holds t ∧ active (send_lost c g t) = active t ∧ kind (send_lost c g t) = kind t.
Proof. destruct t as [| |c' q []]; simpl; try done; by case_bool_decide. Qed.
Lemma inv_worker i mv s s' : worker_move i mv s = Some s' → inv s → inv s'.
Proof.
  intros (g & Hg & Hm)%bind_Some Hinv.
  assert (Hid : ∀ s', sy_threads s' = sy_threads s → sy_threads s' = id <$> sy_threads s) by (intros ? ->; by rewrite list_fmap_id).
  destruct mv, (gr_claimed g) as [[op []]|]; try done; repeat case_match; simplify_eq/=.
  - by eapply (inv_same s _ id); [..|apply Hid| | | | | | | |exact Hinv].
  - by eapply (inv_same s _ id); [..|apply Hid| | | | | | | |exact Hinv].
  - by eapply (inv_same s _ (send_lost i (gr_generation g))); [apply send_lost_stands|..|exact Hinv].
  - by eapply (inv_same s _ id); [..|apply Hid| | | | | | | |exact Hinv].
Qed.
Lemma inv_start ctx wall s : inv s → inv (start_apply ctx wall s).1.
Proof.
  intros Hinv. unfold start_apply, decide_start_apply.
  assert (Hid : ∀ s' : Sys, sy_threads s' = sy_threads s → sy_threads s' = id <$> sy_threads s) by (intros ? ->; by rewrite list_fmap_id).
  destruct (sy_assembling s) eqn:Ea; [done|].
  assert (Hno : ∀ i u, sy_threads s !! i = Some u → active u = false).
  { intros i u Hu. destruct (active u) eqn:Hau; [|done]. pose proof (inv_busy _ Hinv i u Hu Hau). congruence. }
  assert (Hnew : inv (start_assembly ctx s)).
  { apply inv_spawn; [done..|by split|]. split; simpl; try apply Hinv.
    intros i t Hi Ht. by rewrite (Hno i t Hi) in Ht. }
  destruct (is_connected s); [|done]. simpl. unfold adopt. destruct (sy_live s) as [l|] eqn:El; [|done]. simpl.
  destruct (_ && _); [|done].
  destruct (on_group_core (lt_threads l) (rebind_group (cx_operation_id ctx)) s) as [[E1 E2 E3 E4 E5 E6 E7] Em].
  by eapply (inv_same s _ id); [..|apply Hid| | | | | | | |exact Hinv].
Qed.

Lemma inv_step c s s' : sys_step c s = Some s' → inv s → inv s'.
Proof.
  destruct c as [ctx wall| | | |i reply|i mv]; simpl; intros Hstep Hinv; simplify_eq.
  - by apply inv_start.
  - eapply (inv_same s _ id); try done. simpl. by rewrite list_fmap_id.
  - by apply inv_spawn.
  - by apply inv_spawn.
  - apply bind_Some in Hstep as (t & Ht & ([s1 t'] & Hstep & [= <-])%bind_Some). by eapply inv_run.
  - by eapply inv_worker.
Qed.
Lemma inv_new m : accounted m [] → inv (runtime_new m).
Proof.
  intros Hm. split; simpl; try done.
  unfold sys_good, acc. simpl. intros _ _. split; [split; by left|done].
Qed.
Lemma inv_runs cs s s' : sys_run wintun_dll cs s = Some s' → inv s → inv s'.
Proof.
  revert s. induction cs as [|c cs IH]; simpl; intros s Hrun Hinv; [by simplify_eq|].
  apply bind_Some in Hrun as (s1 & Hstep & Hrun). eauto using inv_step.
Qed.
Lemma inv_reachable m s : accounted m [] → reachable (Io:=Io) wintun_dll m s → inv s.
Proof. intros Hm [cs Hrun]. eapply inv_runs; [exact Hrun|by apply inv_new]. Qed.

(** ** Nothing is forgotten *)

Lemma concat_single {A B} (f : A → list B) (ts : list A) i (t : A) : ts !! i = Some t → (∀ j u, ts !! j = Some u → j ≠ i → f u = []) →
  concat (f <$> ts) = f t.
Proof.
  revert i. induction ts as [|u ts IH]; intros [|i] Hi Hno; simplify_eq/=.
  - assert (concat (f <$> ts) = []) as ->; [|by rewrite app_nil_r].
    apply concat_nil_Forall, Forall_fmap, Forall_forall. intros x [j Hj]%list_elem_of_lookup. by apply (Hno (S j)).
  - rewrite (Hno 0 u) by done. apply (IH i Hi). intros j v Hj Hne. apply (Hno (S j) v Hj). congruence.
Qed.
Lemma concat_none {A B} (f : A → list B) (ts : list A) : (∀ j u, ts !! j = Some u → f u = []) → concat (f <$> ts) = [].
Proof.
  intros Hno. apply concat_nil_Forall, Forall_fmap, Forall_forall. intros x [j Hj]%list_elem_of_lookup. by apply (Hno j).
Qed.
Lemma carried_holds t : holds t = false → carried t = None.
Proof. by destruct t as [? []|? []|? ? []]. Qed.

Lemma inv_accounts s : inv s → sy_poisoned s = false → sy_odd s = false → accounted (sy_machine s) (held_routes s).
Proof.
  intros Hinv Hp Ho. unfold held_routes. destruct (sy_resources s) as [i|] eqn:Hr.
  - destruct (inv_holder _ Hinv i Hr) as [t Hi]. pose proof (proj2 (inv_lock _ Hinv i t Hi) Hr) as Hh.
    pose proof (inv_good _ Hinv i t Hp Hi Hh) as Hg. rewrite (concat_single _ _ i t Hi).
    2:{ intros j u Hj Hne. simpl. rewrite carried_holds; [done|]. destruct (holds u) eqn:Hu; [|done].
        apply (inv_lock _ Hinv j u Hj) in Hu. congruence. }
    unfold sys_good in Hg. simpl.
    destruct (kind t) as [| | |l|] eqn:Hk; simpl in Hg; [| | | |done].
    + assert (carried t = None) as -> by (destruct t as [? []|? []|? ? []]; done). simpl. rewrite app_nil_r. by apply Hg.
    + assert (carried t = None) as -> by (destruct t as [? []|? []|? ? []]; done). simpl. rewrite app_nil_r.
      destruct Hg as (-> & _ & Ha). by apply Ha.
    + assert (carried t = None) as -> by (destruct t as [? []|? []|? ? []]; done). simpl. rewrite app_nil_r.
      destruct Hg as (-> & -> & Ha). by apply Ha.
    + apply carry_of in Hk as [-> _]. destruct Hg as (-> & -> & Ha). by apply Ha.
  - rewrite concat_none, app_nil_r; [by apply (inv_free _ Hinv)|].
    intros j u Hj. simpl. rewrite carried_holds; [done|]. destruct (holds u) eqn:Hu; [|done].
    apply (inv_lock _ Hinv j u Hj) in Hu. congruence.
Qed.
End Safety.

(** C9: The runtime accounts for every route it makes: however connections, cancellations,
    disconnects, teardowns, losses and the failures of the system interleave, the routes on
    the machine beyond the ones there were are exactly those of the tunnel that is installed,
    of the one a thread is building or taking down, and of the removals that are still to be
    tried. That is as long as no thread panicked with the lock, and as long as settings were
    only ever applied as the system keeps them: to an adapter with an interface number, and
    with a route to the gateway of another interface, whose next hop is not an address of
    that interface itself. The system rewrites such a next hop, and then a route is left
    behind ([normalised_hop_leaks]). There is at most one assembly, only while the runtime
    says so, and, while no thread panicked with the lock, none ever meets a tunnel whose
    routes it would drop. *)
Theorem runtime_accounts {M Io} `{TunnelPlatformLaws M Io} wintun_dll (m : M) s :
  accounted m [] → reachable (Io:=Io) wintun_dll m s →
  (sy_poisoned s = false → sy_odd s = false → accounted (sy_machine s) (held_routes s)) ∧
  (∀ i j t u, sy_threads s !! i = Some t → sy_threads s !! j = Some u → active t = true → active u = true →
     i = j ∧ is_assembling s = true) ∧
  (sy_poisoned s = false → ∀ i ctx d c, sy_threads s !! i ≠ Some (T_Assembly ctx (A_CleanOld d c))).
Proof.
  intros Hm Hr. pose proof (inv_reachable wintun_dll m s Hm Hr) as Hinv. split_and!.
  - by apply inv_accounts.
  - intros i j t u Hi Hj Ht Hu. split; [by apply (inv_single _ Hinv i j t u)|by apply (inv_busy _ Hinv i t)].
  - intros Hp i ctx d c Hi. by apply (inv_good _ Hinv i _ Hp Hi).
Qed.
