(* ===== verification/EngineRuntimeLoss.v ===== *)
(** * Losses and announcements of the tunnel runtime

    More invariants of the transition system of [EngineRuntime]: the generations of
    connections and the signals of their losses, and what the status publisher is told
    about a connection. *)

From Stdlib Require Import NArith ZArith Strings.Byte Lia.
From S2P Require Import Prelude Model Text Connector Http Session Offer NativeError IpHelper Routes RouteOwner Adapters Config.
From S2P Require Import EngineStatus EnginePlane EngineRuntime EngineRuntimeSafe.

(** ** Generations and signals *)

(** The signals that have been sent to a sweeper and are not settled. *)
Definition signals (t : Thread) : list N :=
  match t with
  | T_Sweeper _ queue pc =>
      queue ++ match pc with S_Lock g | S_Check g | S_Take g | S_Clean g _ => [g] | _ => [] end
  | _ => []
  end.
Definition threads_of (l : option LiveTunnel) : option nat := l ≫= lt_threads.
(** The group of an assembly that is about to install its tunnel, with the operation. *)
Definition installing (t : Thread) : option (option nat * list byte) :=
  match t with T_Assembly ctx (A_Install l) => Some (lt_threads l, cx_operation_id ctx) | _ => None end.

(** What the threads of the runtime leave alone in a group. *)
Definition gr_tag (g : Group) : list byte * option (list byte * bool) := (gr_operation g, gr_claimed g).

(** A group goes on living at most, under its generation. *)
Definition group_le (g g' : Group) : Prop :=
  gr_generation g' = gr_generation g ∧ (gr_alive g' = true → gr_alive g = true) ∧
  (gr_claimed g' ≠ None → gr_alive g' = false ∨ gr_claimed g ≠ None) ∧ (gr_activated g = true → gr_activated g' = true).

#[export] Instance group_le_po : PreOrder group_le.
Proof.
  split; [intros g; split_and!; [done|done|by right|done]|].
  intros a b c (E1 & A1 & C1 & D1) (E2 & A2 & C2 & D2). split; [congruence|]. split; [auto|]. split; [|auto].
  intros Hc. destruct (C2 Hc) as [|Hb]; [by left|]. destruct (C1 Hb) as [Ha|]; [|by right].
  left. destruct (gr_alive c); [|done]. by rewrite A2 in Ha.
Qed.

Section Losses.
Context {M Io : Type} `{TunnelPlatformLaws M Io} (wintun_dll : str).
Abbreviation Sys := (Sys (M:=M)).
Abbreviation sys_step := (sys_step (Io:=Io) wintun_dll).
Implicit Types (s : Sys) (t : Thread).

(** The tunnels there are, by the group of their threads. *)
Definition tunnel_of s (k : nat) : Prop :=
  threads_of (sy_live s) = Some k ∨ ∃ j t, sy_threads s !! j = Some t ∧ threads_of (carried t) = Some k.

Record loss_inv s : Prop := {
  li_generation : sy_generation s = N.of_nat (length (sy_groups s));
  li_groups k g : sy_groups s !! k = Some g → gr_generation g = N.of_nat (S k);
  li_claimed k g : sy_groups s !! k = Some g → gr_claimed g ≠ None → gr_alive g = false;
  li_signals j t x : sy_threads s !! j = Some t → x ∈ signals t →
    ∃ k g, x = N.of_nat (S k) ∧ sy_groups s !! k = Some g ∧ gr_alive g = false;
  li_last k : tunnel_of s k → S k = length (sy_groups s);
  li_installing j t k op : sy_threads s !! j = Some t → installing t = Some (k, op) →
    ∃ k' g, k = Some k' ∧ sy_groups s !! k' = Some g ∧ gr_operation g = op;
}.

(** What a step of a thread does to the groups, the tunnels and the signals. *)
Record loss_moves s s' t t' : Prop := {
  lm_generation : sy_generation s' = sy_generation s;
  lm_groups : Forall2 group_le (sy_groups s) (sy_groups s');
  lm_operations : gr_tag <$> sy_groups s' = gr_tag <$> sy_groups s;
  lm_tunnels k : threads_of (carried t') = Some k ∨ threads_of (sy_live s') = Some k →
    threads_of (carried t) = Some k ∨ threads_of (sy_live s) = Some k;
  lm_signals : ∀ x, x ∈ signals t' → x ∈ signals t;
  lm_installing : installing t' = None ∨ installing t' = installing t;
  lm_threads : sy_threads s' = sy_threads s;
}.

Lemma groups_le_lookup l l' k g' : Forall2 group_le l l' → l' !! k = Some g' → ∃ g, l !! k = Some g ∧ group_le g g'.
Proof. intros Hl Hk. destruct (Forall2_lookup_r _ _ _ _ _ Hl Hk) as (g & ? & ?). eauto. Qed.

Lemma signal_kept s s' x : Forall2 group_le (sy_groups s) (sy_groups s') →
  (∃ k g, x = N.of_nat (S k) ∧ sy_groups s !! k = Some g ∧ gr_alive g = false) →
  ∃ k g, x = N.of_nat (S k) ∧ sy_groups s' !! k = Some g ∧ gr_alive g = false.
Proof.
  intros Hg (k & g & -> & Hk & Ha). destruct (Forall2_lookup_l _ _ _ _ _ Hg Hk) as (g' & Hk' & (_ & Hal & _)).
  exists k, g'. split_and!; [done..|]. destruct (gr_alive g'); [|done]. by rewrite Hal in Ha.
Qed.
Lemma operation_kept s s' k g : gr_tag <$> sy_groups s' = gr_tag <$> sy_groups s →
  sy_groups s !! k = Some g → ∃ g', sy_groups s' !! k = Some g' ∧ gr_operation g' = gr_operation g ∧ gr_claimed g' = gr_claimed g.
Proof.
  intros Hop Hk. assert ((gr_tag <$> sy_groups s') !! k = Some (gr_tag g)) as Hk'.
  { by rewrite Hop, list_lookup_fmap, Hk. }
  rewrite list_lookup_fmap in Hk'. apply fmap_Some in Hk' as (g' & ? & [= ? ?]). eauto.
Qed.

Lemma loss_thread i s s' t t' : loss_inv s → sy_threads s !! i = Some t → loss_moves s s' t t' →
  loss_inv (with_threads (<[i := t']> (sy_threads s')) s').
Proof.
  intros Hinv Hi [Hgen Hg Hop Htun Hsig Hinst Hts]. pose proof (Forall2_length _ _ _ Hg) as Hlen.
  assert (Hlook : ∀ j u, <[i := t']> (sy_threads s') !! j = Some u → (j = i ∧ u = t') ∨ (j ≠ i ∧ sy_threads s !! j = Some u)).
  { intros j u. rewrite Hts. intros [(? & ? & _)|[? ?]]%list_lookup_insert_Some; [by left|by right]. }
  split; simpl.
  - by rewrite Hgen, <-Hlen, (li_generation _ Hinv).
  - intros k g' Hk. destruct (groups_le_lookup _ _ _ _ Hg Hk) as (g & Hk' & (-> & _)). by apply (li_groups _ Hinv).
  - intros k g' Hk Hc. destruct (groups_le_lookup _ _ _ _ Hg Hk) as (g & Hk' & (_ & Ha & Hcl & _)).
    destruct (Hcl Hc) as [|Hold]; [done|]. pose proof (li_claimed _ Hinv k g Hk' Hold) as Hd.
    destruct (gr_alive g'); [|done]. by rewrite Ha in Hd.
  - intros j u x Hj Hx. apply (signal_kept s s'); [done|].
    destruct (Hlook j u Hj) as [[-> ->]|[_ Hu]]; eauto using li_signals.
  - intros k Hk. rewrite <-Hlen. apply (li_last _ Hinv). unfold tunnel_of in *. simpl in Hk.
    destruct Hk as [Hk|(j & u & Hj & Hk)].
    + destruct (Htun k (or_intror Hk)); [right|by left]. eauto.
    + destruct (Hlook j u Hj) as [[-> ->]|[_ Hu]]; [|right; eauto].
      destruct (Htun k (or_introl Hk)); [right|by left]. eauto.
  - intros j u k op Hj Hin.
    assert (∃ v, sy_threads s !! j = Some v ∧ installing v = Some (k, op)) as (v & Hv & Hvi).
    { destruct (Hlook j u Hj) as [[-> ->]|[_ Hu]]; [|eauto]. destruct Hinst; [congruence|]. exists t. split; congruence. }
    destruct (li_installing _ Hinv j v k op Hv Hvi) as (k' & g & -> & Hk & <-).
    destruct (operation_kept s s' k' g Hop Hk) as (g' & ? & ? & _). eauto 6.
Qed.

Lemma groups_le_alter (l : list Group) f (k : nat) : (∀ g, l !! k = Some g → group_le g (f g)) → Forall2 group_le l (alter f k l).
Proof.
  intros Hf. apply Forall2_same_length_lookup_2; [by rewrite length_alter|]. intros j g g' Hj Hj'.
  destruct (decide (j = k)) as [->|Hne].
  - rewrite list_lookup_alter_eq, Hj in Hj'. simplify_eq/=. by apply Hf.
  - rewrite list_lookup_alter_ne, Hj in Hj' by done. simplify_eq. reflexivity.
Qed.
Lemma operations_alter (l : list Group) f (k : nat) : (∀ g, gr_tag (f g) = gr_tag g) → gr_tag <$> alter f k l = gr_tag <$> l.
Proof.
  intros Hf. apply list_eq. intros j. rewrite !list_lookup_fmap. destruct (decide (j = k)) as [->|Hne].
  - rewrite list_lookup_alter_eq. destruct (l !! k); simpl; [by rewrite Hf|done].
  - by rewrite list_lookup_alter_ne.
Qed.

(** Nothing but the groups has changed of what the losses depend on. *)
Record calm_groups (s s' : Sys) : Prop := {
  cg_generation : sy_generation s' = sy_generation s;
  cg_groups : Forall2 group_le (sy_groups s) (sy_groups s');
  cg_operations : gr_tag <$> sy_groups s' = gr_tag <$> sy_groups s;
  cg_threads : sy_threads s' = sy_threads s;
}.
Lemma calm_refl s : calm_groups s s.
Proof. split; [done|reflexivity|done..]. Qed.
#[local] Instance calm_trans : Transitive calm_groups.
Proof.
  intros a b c [E1 E2 E3 E4] [F1 F2 F3 F4]. split; [congruence|by etrans|congruence..].
Qed.
Lemma calm_same s s' : sy_generation s' = sy_generation s → sy_groups s' = sy_groups s → sy_threads s' = sy_threads s →
  calm_groups s s'.
Proof. intros E1 E2 E3. split; rewrite ?E2; [done|reflexivity|done..]. Qed.
Lemma calm_on_group s s' i f : (∀ g, group_le g (f g) ∧ gr_tag (f g) = gr_tag g) →
  sy_generation s' = sy_generation s → sy_groups s' = sy_groups s → sy_threads s' = sy_threads s →
  calm_groups s (on_group i f s').
Proof.
  intros Hf E1 E2 E3. destruct i as [i|]; simpl; [|by apply calm_same]. split; simpl; rewrite ?E2; [done| | |done].
  - apply groups_le_alter. intros g _. apply Hf.
  - apply operations_alter. intros g. apply Hf.
Qed.
Lemma stop_group_le g : group_le g (stop_group g) ∧ gr_tag (stop_group g) = gr_tag g.
Proof. split; [|done]. split_and!; [done|done|by left|done]. Qed.
Lemma activate_group_le g : group_le g (activate_group g) ∧ gr_tag (activate_group g) = gr_tag g.
Proof. split; [|done]. split_and!; [done|done|by right|done]. Qed.

Lemma loss_moves_calm s s' t t' : calm_groups s s' →
  (∀ k, threads_of (carried t') = Some k ∨ threads_of (sy_live s') = Some k →
        threads_of (carried t) = Some k ∨ threads_of (sy_live s) = Some k) →
  (∀ x, x ∈ signals t' → x ∈ signals t) → installing t' = None → loss_moves s s' t t'.
Proof. intros [E1 E2 E3 E4] Ht Hs Hi. split; auto. Qed.

Lemma clean_losses io c s s1 r : clean_step io c s = Some (s1, r) →
  calm_groups s s1 ∧ sy_live s1 = sy_live s ∧
  match r with
  | inl c' => lt_threads (cleaned_tunnel c') = lt_threads (cleaned_tunnel c)
  | inr (Some (l, _)) => lt_threads l = None
  | inr None => True
  end.
Proof.
  destruct c as [l|l]; simpl; intros Hc; simplify_eq.
  - split; [by apply calm_on_group; [apply stop_group_le|..]|]. split; [by destruct (lt_threads l)|done].
  - destruct (joinable _ _); [|done]. destruct (lt_route l) as [o|]; simplify_eq/=; [|split_and!; [apply calm_refl|done..]].
    destruct (tp_clear _ _ _) as [[[m o'] res]|]; simplify_eq/=; (split; [by apply calm_same|done]).
Qed.
Lemma drop_calm io l s s' : calm_groups s s' → calm_groups s (drop_tunnel io l s') .
Proof.
  intros Hs. assert (calm_groups s (on_group (lt_threads l) stop_group s')) as Hd.
  { destruct Hs as [E1 E2 E3 E4]. destruct (lt_threads l) as [k|]; simpl; [|done].
    split; simpl; [done| | |done].
    - etrans; [exact E2|]. apply groups_le_alter. intros g _. apply stop_group_le.
    - etrans; [|exact E3]. apply operations_alter. intros g. apply stop_group_le. }
  unfold drop_tunnel. destruct (lt_route l); [|done]. destruct (tp_clear _ _ _) as [[[m o'] res]|]; [|done].
  by destruct Hd; split.
Qed.

Lemma put_calm io l s s' : calm_groups s s' → calm_groups s (put_live io l s').
Proof.
  intros Hs. unfold put_live. destruct (sy_live s') as [old|].
  - destruct (drop_calm io old s s' Hs) as [E1 E2 E3 E4]. by split.
  - by destruct Hs; split.
Qed.
Lemma calm_with s s' s'' : calm_groups s s' → sy_generation s'' = sy_generation s' → sy_groups s'' = sy_groups s' →
  sy_threads s'' = sy_threads s' → calm_groups s s''.
Proof. intros [E1 E2 E3 E4] F1 F2 F3. split; congruence. Qed.

(** A thread sends no signal and installs nothing. *)
Definition quiet t t' : Prop := (∀ x, x ∈ signals t' → x ∈ signals t) ∧ installing t' = None.
Lemma cleaning_losses {A} s s1 t (mk : A → Thread) io c (go : Cleaning → A) done failed panicked a :
  carried t = Some (cleaned_tunnel c) →
  (∀ c', carried (mk (go c')) = Some (cleaned_tunnel c') ∧ quiet t (mk (go c'))) →
  (∀ s0, let out := done s0 in calm_groups s0 out.1 ∧ sy_live out.1 = sy_live s0 ∧
     carried (mk out.2) = None ∧ quiet t (mk out.2)) →
  (∀ s0 l f, lt_threads l = None → let out := failed s0 l f in
     calm_groups s0 out.1 ∧ threads_of (sy_live out.1) = None ∧ carried (mk out.2) = None ∧ quiet t (mk out.2)) →
  carried (mk panicked) = None ∧ quiet t (mk panicked) →
  cleaning io c s go done failed panicked = Some (s1, a) → loss_moves s s1 t (mk a).
Proof.
  intros Ht Hgo Hdone Hfailed [Hpan [Hps Hpi]]. unfold cleaning.
  destruct (clean_step io c s) as [[s0 r]|] eqn:Ec; [|discriminate].
  destruct (clean_losses _ _ _ _ _ Ec) as (Hc & Hl & Hr).
  destruct r as [c'|[[l [[]|f]]|]]; intros Hcl.
  - injection Hcl as <- <-. destruct (Hgo c') as (Hg & Hgs & Hgi). apply loss_moves_calm; [done| |done|done].
    rewrite Hg, Ht, Hl. simpl. by rewrite Hr.
  - destruct (Hdone s0) as (Hc' & Hl' & Hn & Hs & Hi). injection Hcl as Hcl. rewrite Hcl in *. simpl in *.
    apply loss_moves_calm; [by etrans| |done|done]. rewrite Hn, Hl', Hl. simpl. naive_solver.
  - destruct (Hfailed s0 l f Hr) as (Hc' & Hn & Hfc & Hs & Hi). injection Hcl as Hcl. rewrite Hcl in *. simpl in *.
    apply loss_moves_calm; [by etrans| |done|done]. rewrite Hfc, Hn. simpl. naive_solver.
  - injection Hcl as <- <-. apply loss_moves_calm; [|rewrite Hpan; simpl; rewrite Hl; naive_solver|done|done].
    by eapply calm_with.
Qed.

Ltac calm := apply loss_moves_calm; [by apply calm_same|simpl; try tauto|simpl; try done|done].

Lemma retry_calm s : calm_groups s (retry_pending_routes s).1 ∧ sy_live (retry_pending_routes s).1 = sy_live s.
Proof. unfold retry_pending_routes. destruct (retry_groups _ _) as [[m pending] ok]. by split; [apply calm_same|]. Qed.

Lemma caller_losses i s s' td pc pc' reply :
  caller_step i td pc reply s = Some (s', pc') → loss_moves s s' (T_Caller td pc) (T_Caller td pc').
Proof.
  intros Hstep. destruct pc, reply; try discriminate Hstep; simpl in Hstep.
  - simplify_eq. calm.
  - destruct (sy_poisoned s); simplify_eq; [calm|].
    apply bind_Some in Hstep as (s1 & [Hr ->]%acquire_some & [= <- <-]). calm.
  - destruct (sy_live s) as [l|] eqn:El; simplify_eq; calm; rewrite El; simpl; tauto.
  - refine (cleaning_losses s s' _ (T_Caller td) io c _ _ _ _ pc' _ _ _ _ _ Hstep); try done; simpl.
    intros s0 l f Hl. split; [|done]. eapply calm_with; [by apply (put_calm io l), calm_refl|done..].
  - destruct (retry_calm s) as [Hc Hl]. destruct (retry_pending_routes s) as [s1 ok]. simpl in *.
    destruct ok; simplify_eq; (apply loss_moves_calm; [by eapply calm_with| |done|done]); simpl; rewrite Hl; destruct td; simpl; tauto.
  - simplify_eq. calm.
Qed.
Lemma sweeper_losses i s s' g q pc q' pc' reply :
  sweeper_step i g q pc reply s = Some (s', (q', pc')) → loss_moves s s' (T_Sweeper g q pc) (T_Sweeper g q' pc').
Proof.
  intros Hstep. destruct pc, reply; try discriminate Hstep; simpl in Hstep.
  - destruct q as [|lost q]; [destruct (silent g s)|]; simplify_eq; calm. set_solver.
  - destruct (sy_poisoned s); simplify_eq; [calm; set_solver|].
    apply bind_Some in Hstep as (s1 & [Hr ->]%acquire_some & [= <- <- <-]). calm.
  - destruct (negb _); simplify_eq; calm; set_solver.
  - destruct (negb _); simplify_eq; [calm; set_solver|].
    destruct (sy_live s) as [l|] eqn:El; simplify_eq; calm; rewrite ?El; simpl; try tauto; set_solver.
  - refine (cleaning_losses s s' (T_Sweeper g q (S_Clean g0 c)) (λ p, T_Sweeper g p.1 p.2) io c _ _ _ _ (q', pc')
              _ _ _ _ _ Hstep); try done; simpl.
    + intros s0. split_and!; [by apply calm_same|done..|]. split; [|done]. simpl. set_solver.
    + intros s0 l f Hl. split_and!; [eapply calm_with; [by apply (put_calm io l), calm_refl|done..]|done..|].
      split; [|done]. simpl. set_solver.
    + split; [done|]. split; [|done]. simpl. set_solver.
Qed.

Lemma apply_failed_calm nic_new e s : let out := apply_failed nic_new e s in
  calm_groups s out.1 ∧ sy_live out.1 = sy_live s ∧ ∀ ctx, carried (T_Assembly ctx out.2) = None ∧ installing (T_Assembly ctx out.2) = None.
Proof. unfold apply_failed. destruct nic_new, (ae_pending_routes e); by split; [apply calm_same|]. Qed.

Lemma assembly_losses i s s' ctx pc pc' reply :
  assembly_step wintun_dll i ctx pc reply s = Some (s', pc') → (∀ route, pc ≠ A_Generation route) →
  (∀ d c, pc ≠ A_CleanOld d c) → loss_moves s s' (T_Assembly ctx pc) (T_Assembly ctx pc').
Proof.
  intros Hstep Hpc Hold. destruct pc; destruct reply; try discriminate Hstep; simpl in Hstep.
  - destruct (sy_cancel s); simplify_eq; calm.
  - destruct (sy_poisoned s); simplify_eq; [calm|].
    apply bind_Some in Hstep as (s1 & [Hr ->]%acquire_some & [= <- <-]). calm.
  - destruct (sy_live s) as [l|] eqn:El; simplify_eq; calm; rewrite El; simpl; tauto.
  - refine (cleaning_losses s s' _ (T_Assembly ctx) io c _ _ _ _ pc' _ _ _ _ _ Hstep); try done; simpl.
    intros s0 l f Hl. split; [|done]. eapply calm_with; [by apply (put_calm io l), calm_refl|done..].
  - destruct (retry_calm s) as [Hc Hl]. destruct (retry_pending_routes s) as [s1 ok]. simpl in *.
    destruct ok; simplify_eq; (apply loss_moves_calm; [by eapply calm_with| |done|done]); simpl; rewrite Hl; tauto.
  - destruct (sy_cancel s); simplify_eq; [calm|]. unfold preflight in Hstep.
    destruct (sy_nic s); [simplify_eq; calm|]. destruct (EngineService.prepare_from _ _ _); simplify_eq; calm.
  - destruct (sy_cancel s); simplify_eq; [calm|]. unfold control in Hstep.
    destruct (cr_config c); [|simplify_eq; calm]. destruct (cx_credentials ctx); simpl in Hstep; [|simplify_eq; calm].
    destruct (find_physical_nics _) as [[|card cards]|]; [simplify_eq; calm| |simplify_eq; calm].
    destruct (cr_resolver c); simpl in Hstep; [|simplify_eq; calm]. destruct (cr_gateway c); simplify_eq; calm.
  - destruct (sy_cancel s); simplify_eq; [calm|]. destruct gateway as [ip port|]; [destruct r|]; simpl; calm.
  - destruct (sy_cancel s); simplify_eq; [calm|].
    destruct r as [[offer endpoints]|]; simpl; [destruct (bypass_row _ _ _ _ _ _)|]; calm.
  - destruct (sy_cancel s); simplify_eq; calm.
  - destruct (sy_poisoned s); simplify_eq; [calm|].
    apply bind_Some in Hstep as (s1 & [Hr ->]%acquire_some & [= <- <-]). calm.
  - destruct (sy_cancel s); simplify_eq; [calm|].
    destruct (sy_live s) as [l|] eqn:El; simplify_eq; calm; rewrite El; simpl; tauto.
  - by destruct (Hold d c).
  - unfold ensure_nic in Hstep. simpl in Hstep.
    destruct (sy_nic s); [|destruct (df_prepared d); [destruct (tp_ensure _ _) as [m' [nic|[e|detail]]]|]]; simplify_eq/=; calm.
  - unfold apply_offer in Hstep. destruct (sy_nic s) as [nic|]; [|simplify_eq; calm]. case_bool_decide.
    { destruct (apply_failed_calm nic_new (MkApplyError (MkFault "engine: gateway bypass points into EXV's own tunnel" None) [] None) s) as (Hc & Hl & Hn).
      apply (inj Some) in Hstep. rewrite Hstep in Hc, Hl, Hn. cbn [fst snd] in *. destruct (Hn ctx) as [Hn1 Hn2].
      apply loss_moves_calm; [done| |done|done]. rewrite Hn1, Hl. simpl. tauto. }
    destruct (tp_apply _ _ _ _ _ _ _) as [[m [[route facts]|e]]|]; [simplify_eq; calm| |simplify_eq; calm].
    apply (inj Some) in Hstep.
    match type of Hstep with apply_failed _ _ ?s1 = _ => destruct (apply_failed_calm nic_new e s1) as (Hc & Hl & Hn) end.
    rewrite Hstep in Hc, Hl, Hn. cbn [fst snd] in *. destruct (Hn ctx) as [Hn1 Hn2].
    apply loss_moves_calm; [|rewrite Hn1, Hl; simpl; tauto|done|done]. etrans; [|exact Hc]. by apply calm_same.
  - unfold start_plane in Hstep. destruct (sy_cancel s); [simplify_eq; calm|].
    destruct (sy_nic _); [destruct started|]; simplify_eq; calm.
  - refine (cleaning_losses s s' _ (T_Assembly ctx) io c _ _ _ _ pc' _ _ _ _ _ Hstep); try done; simpl.
    + intros s0. destruct close_nic; by split; [apply calm_same|].
    + intros s0 l f Hl. split; [|done]. eapply calm_with; [by apply (put_calm io l), calm_refl|done..].
  - by destruct (Hpc route).
  - unfold install_live in Hstep. destruct (sy_cancel s); [simplify_eq; calm|].
    destruct (group_alive _ _); simpl in Hstep; [|simplify_eq; calm]. simplify_eq.
    apply loss_moves_calm; [| |done|done].
    + etrans; [apply (put_calm io l), calm_refl|]. by apply calm_on_group; [apply activate_group_le|..].
    + intros k [?|Hk]; [done|]. left. by destruct (lt_threads l) as [k'|] eqn:E; simpl in *; rewrite E in *.
  - simplify_eq. by destruct e; calm.
  - simplify_eq. calm.
  - simplify_eq. calm.
  - simplify_eq. calm.
Qed.

(** The new group is the last one, and no other tunnel is left. *)
Lemma loss_spawn_workers i s ctx route :
  (N.of_nat (S (length (sy_groups s))) < two64)%N → inv s → loss_inv s →
  sy_threads s !! i = Some (T_Assembly ctx (A_Generation route)) →
  let out := spawn_workers ctx route s in
  loss_inv (with_threads (<[i := T_Assembly ctx out.2]> (sy_threads out.1)) out.1).
Proof.
  intros Hlt Hinv Hl Hi out. set (t := T_Assembly ctx (A_Generation route)) in *.
  pose proof (proj1 (inv_lock _ Hinv i t Hi) eq_refl) as Hr. pose proof (holder_calm i s t Hinv Hi eq_refl) as Hp.
  destruct (inv_good _ Hinv i t Hp Hi eq_refl) as (Elive & _).
  assert (Hother : ∀ j u, sy_threads s !! j = Some u → j ≠ i → carried u = None).
  { intros j u Hj Hne. apply carried_holds. destruct (holds u) eqn:Hu; [|done].
    apply (inv_lock _ Hinv j u Hj) in Hu. congruence. }
  assert (Hgen : add64 (sy_generation s) 1 = N.of_nat (S (length (sy_groups s)))).
  { rewrite (li_generation _ Hl), add64_small; unfold in_u64; lia. }
  assert (Hlook : ∀ j u, <[i := T_Assembly ctx out.2]> (sy_threads out.1) !! j = Some u →
    (j = i ∧ u = T_Assembly ctx out.2) ∨ (j ≠ i ∧ sy_threads s !! j = Some u)
    ∨ (j ≠ i ∧ u = T_Sweeper (length (sy_groups s)) [] S_Wait)).
  { intros j u Hj. destruct (after_lookup i s out.1 _ _ j u eq_refl ltac:(eauto) Hj) as [?|[?|(? & _ & Hu)]]; auto.
    apply list_elem_of_singleton in Hu. auto. }
  assert (Hkeep : ∀ k g, sy_groups s !! k = Some g → sy_groups out.1 !! k = Some g).
  { intros k g Hk. by apply lookup_app_l_Some. }
  split; cbn [sy_generation sy_groups sy_threads sy_live with_threads].
  - simpl. rewrite Hgen, length_app. simpl. f_equal. lia.
  - intros k g [Hk|[Hge Hk]]%lookup_app_Some; [by apply (li_groups _ Hl)|].
    apply list_lookup_singleton_Some in Hk as [Hk <-]. simpl in *. rewrite Hgen. lia.
  - intros k g [Hk|[Hge Hk]]%lookup_app_Some; [by apply (li_claimed _ Hl k)|].
    by apply list_lookup_singleton_Some in Hk as [? <-].
  - intros j u x Hj Hx. destruct (Hlook j u Hj) as [[-> ->]|[[_ Hu]|[_ ->]]]; [by apply not_elem_of_nil in Hx| |by apply not_elem_of_nil in Hx].
    destruct (li_signals _ Hl j u x Hu Hx) as (k & g & ? & ? & ?). eauto 6.
  - intros k [Hk|(j & u & Hj & Hk)]; [by simpl in Hk; rewrite Elive in Hk|]. simpl. rewrite length_app. simpl.
    destruct (Hlook j u Hj) as [[-> ->]|[[Hne Hu]|[_ ->]]]; simpl in Hk; [simplify_eq; lia| |done].
    by rewrite (Hother j u Hu Hne) in Hk.
  - intros j u k op Hj Hin. destruct (Hlook j u Hj) as [[-> ->]|[[Hne Hu]|[_ ->]]]; [| |done].
    + simpl in Hin. simplify_eq. eexists _, _. split_and!; [done|by apply list_lookup_middle|done].
    + destruct (li_installing _ Hl j u k op Hu Hin) as (k' & g & ? & ? & ?). eauto 6.
Qed.

(** Steps that leave the threads where they stand. *)
Lemma loss_stand s s' (f : Thread → Thread) :
  sy_threads s' = f <$> sy_threads s → (∀ t, carried (f t) = carried t ∧ installing (f t) = installing t) →
  (∀ t x, x ∈ signals (f t) → x ∈ signals t ∨ ∃ k g, x = N.of_nat (S k) ∧ sy_groups s' !! k = Some g ∧ gr_alive g = false) →
  sy_generation s' = sy_generation s → Forall2 group_le (sy_groups s) (sy_groups s') →
  (∀ j t k g op, sy_threads s !! j = Some t → installing t = Some (Some k, op) → sy_groups s !! k = Some g →
     ∃ g', sy_groups s' !! k = Some g' ∧ gr_operation g' = gr_operation g) →
  sy_live s' = sy_live s → loss_inv s → loss_inv s'.
Proof.
  intros Ht Hf Hsig Hgen Hg Hop El Hl. pose proof (Forall2_length _ _ _ Hg) as Hlen.
  assert (Hlook : ∀ j t, sy_threads s' !! j = Some t → ∃ u, sy_threads s !! j = Some u ∧ t = f u).
  { intros j t. rewrite Ht, list_lookup_fmap. intros (u & ? & ->)%fmap_Some. eauto. }
  split.
  - by rewrite Hgen, <-Hlen, (li_generation _ Hl).
  - intros k g' Hk. destruct (groups_le_lookup _ _ _ _ Hg Hk) as (g & Hk' & (-> & _)). by apply (li_groups _ Hl).
  - intros k g' Hk Hc. destruct (groups_le_lookup _ _ _ _ Hg Hk) as (g & Hk' & (_ & Ha & Hcl & _)).
    destruct (Hcl Hc) as [|Hold]; [done|]. pose proof (li_claimed _ Hl k g Hk' Hold) as Hd.
    destruct (gr_alive g'); [|done]. by rewrite Ha in Hd.
  - intros j t x (u & Hu & ->)%Hlook [Hx|?]%Hsig; [|done]. apply (signal_kept s s' x Hg). by apply (li_signals _ Hl j u).
  - intros k Hk. rewrite <-Hlen. apply (li_last _ Hl). unfold tunnel_of in *. rewrite El in Hk.
    destruct Hk as [|(j & t & (u & Hu & ->)%Hlook & Hk)]; [by left|]. rewrite (proj1 (Hf u)) in Hk. right. eauto.
  - intros j t k op (u & Hu & ->)%Hlook Hin. rewrite (proj2 (Hf u)) in Hin.
    destruct (li_installing _ Hl j u k op Hu Hin) as (k' & g & -> & Hk & <-).
    destruct (Hop j u k' g _ Hu Hin Hk) as (g' & ? & ?). eauto 6.
Qed.
Lemma loss_spawn s t : carried t = None → signals t = [] → installing t = None → loss_inv s → loss_inv (spawn t s).
Proof.
  intros Hc Hs Hn Hl.
  assert (Hlook : ∀ j u, sy_threads (spawn t s) !! j = Some u → sy_threads s !! j = Some u ∨ u = t).
  { simpl. intros j u [?|[_ [_ ?]%list_lookup_singleton_Some]]%lookup_app_Some; auto. }
  split; try apply Hl.
  - intros j u x [Hu| ->]%Hlook Hx; [by apply (li_signals _ Hl j u)|]. rewrite Hs in Hx. by apply not_elem_of_nil in Hx.
  - intros k [Hk|(j & u & [Hu| ->]%Hlook & Hk)]; [apply (li_last _ Hl); by left|apply (li_last _ Hl); right; eauto|].
    by rewrite Hc in Hk.
  - intros j u k op [Hu| ->]%Hlook Hin; [by apply (li_installing _ Hl j u)|congruence].
Qed.

Definition groups_bounded s : Prop := (N.of_nat (length (sy_groups s)) < two64)%N.

Lemma send_lost_carries c g t : carried (send_lost c g t) = carried t ∧ installing (send_lost c g t) = installing t.
Proof. destruct t as [| |c' q []]; simpl; try done; by case_bool_decide. Qed.
Lemma send_lost_signals c g t x : x ∈ signals (send_lost c g t) → x ∈ signals t ∨ x = g.
Proof.
  destruct t as [| |c' q pc]; simpl; auto. destruct pc; simpl; auto; case_bool_decide; simpl; set_solver.
Qed.
Lemma alter_operation (l : list Group) f (j k : nat) g : (gr_operation (f g) = gr_operation g ∨ j ≠ k) → l !! k = Some g →
  ∃ g', alter f j l !! k = Some g' ∧ gr_operation g' = gr_operation g.
Proof.
  intros Hf Hk. destruct (decide (j = k)) as [->|Hne].
  - exists (f g). rewrite list_lookup_alter_eq, Hk. naive_solver.
  - exists g. by rewrite list_lookup_alter_ne.
Qed.

Lemma loss_worker i mv s s' : worker_move i mv s = Some s' → loss_inv s →
  loss_inv s' ∧ length (sy_groups s') = length (sy_groups s).
Proof.
  intros (g & Hg & Hm)%bind_Some Hl. pose proof (li_groups _ Hl i g Hg) as Hgen.
  pose proof (li_claimed _ Hl i g Hg) as Hcl.
  assert (Hid : ∀ s', sy_threads s' = sy_threads s → sy_threads s' = id <$> sy_threads s) by (intros ? ->; by rewrite list_fmap_id).
  destruct mv, (gr_claimed g) as [[op []]|] eqn:Ec; try done; repeat case_match; simplify_eq/=;
    (split; [|by rewrite length_alter]).
  - apply (loss_stand s _ id); try done; [by apply Hid|by left|apply groups_le_alter; intros ? _; apply stop_group_le|].
    intros j t k g' op _ _ Hk. apply alter_operation; [by left|done].
  - apply (loss_stand s _ id); try done; [by apply Hid|by left| |].
    + apply groups_le_alter. intros g' _. split_and!; [done|done|by left|done].
    + intros j t k g' op _ _ Hk. apply alter_operation; [by left|done].
  - apply (loss_stand s _ (send_lost i (gr_generation g))); try done; [apply send_lost_carries| | |].
    + intros t x [?| ->]%send_lost_signals; [by left|]. right. exists i, (set_claimed (Some (op, true)) g).
      split_and!; [done| |done]. simpl. by rewrite list_lookup_alter_eq, Hg.
    + simpl. apply groups_le_alter. intros g' _. split_and!; [done|done|by left|done].
    + simpl. intros j t k g' op' _ _ Hk. apply alter_operation; [by left|done].
  - apply (loss_stand s _ id); try done; [by apply Hid|by left| |].
    + simpl. apply groups_le_alter. intros g' _. split_and!; [done|done|by left|done].
    + simpl. intros j t k g' op' _ _ Hk. apply alter_operation; [by left|done].
Qed.
Lemma loss_start ctx wall s : inv s → loss_inv s →
  loss_inv (start_apply ctx wall s).1 ∧ length (sy_groups (start_apply ctx wall s).1) = length (sy_groups s).
Proof.
  intros Hinv Hl. unfold start_apply, decide_start_apply. destruct (sy_assembling s) eqn:Ea; [done|].
  assert (Hnew : loss_inv (start_assembly ctx s)).
  { apply loss_spawn; [done..|]. split; apply Hl. }
  destruct (is_connected s); [|done]. simpl. unfold adopt. destruct (sy_live s) as [l|] eqn:El; [|done]. simpl.
  destruct (_ && _); [|done]. destruct (lt_threads l) as [k|]; simpl; [|by split; [split; apply Hl|]].
  split; [|by rewrite length_alter].
  apply (loss_stand s _ id); try done; simpl; [by rewrite list_fmap_id|by left| |].
  - apply groups_le_alter. intros g _. split_and!; [done|done|by right|done].
  - intros j t k' g op Hj Hin. exfalso. assert (active t = true) as Ht by (by destruct t as [ctx' []|? ?|? ? ?]).
    pose proof (inv_busy _ Hinv j t Hj Ht). congruence.
Qed.

(** A step starts the workers of a new connection, or it moves what there is. *)
Lemma thread_losses i s s' t t' reply :
  inv s → sy_threads s !! i = Some t → thread_step wintun_dll i t reply s = Some (s', t') →
  (∃ ctx route, t = T_Assembly ctx (A_Generation route) ∧ s' = (spawn_workers ctx route s).1 ∧
     t' = T_Assembly ctx (spawn_workers ctx route s).2) ∨ loss_moves s s' t t'.
Proof.
  intros Hinv Hi Hstep.
  destruct t as [ctx pc|td pc|g q pc]; simpl in Hstep; apply bind_Some in Hstep as ([s1 x] & Hstep & [= <- <-]); simpl in *.
  - assert ((∃ route, pc = A_Generation route) ∨ ∀ route, pc ≠ A_Generation route) as [[route ->]|Hpc]
      by (destruct pc; eauto).
    + left. destruct reply; try done. injection Hstep as <- <-. by exists ctx, route.
    + right. eapply assembly_losses; [exact Hstep|naive_solver|].
      intros d c ->. assert (holds (T_Assembly ctx (A_CleanOld d c)) = true) as Hh by done.
      exact (inv_good _ Hinv i _ (holder_calm i s _ Hinv Hi Hh) Hi Hh).
  - right. by eapply caller_losses.
  - right. destruct x. by eapply sweeper_losses.
Qed.
Lemma loss_run i s s' t t' reply :
  inv s → sy_threads s !! i = Some t → thread_step wintun_dll i t reply s = Some (s', t') →
  length (sy_groups s) ≤ length (sy_groups s') ∧
  (groups_bounded s' → loss_inv s → loss_inv (with_threads (<[i := t']> (sy_threads s')) s')).
Proof.
  intros Hinv Hi Hstep. destruct (thread_losses i s s' t t' reply Hinv Hi Hstep) as [(ctx & route & -> & -> & ->)|Hmv].
  - split; [simpl; rewrite length_app; lia|]. unfold groups_bounded. simpl. rewrite length_app. simpl. intros Hb Hl.
    apply loss_spawn_workers; try done. rewrite <-Nat.add_1_r. exact Hb.
  - split; [|by intros; eapply loss_thread]. by rewrite (Forall2_length _ _ _ (lm_groups _ _ _ _ Hmv)).
Qed.
Lemma loss_step c s s' : sys_step c s = Some s' → inv s →
  length (sy_groups s) ≤ length (sy_groups s') ∧ (groups_bounded s' → loss_inv s → loss_inv s').
Proof.
  intros Hstep Hinv. destruct c as [ctx wall| | | |i reply|i mv]; simpl in Hstep; simplify_eq.
  - split; [|intros _ Hl; by apply loss_start]. unfold start_apply, decide_start_apply, adopt.
    destruct (sy_assembling s), (is_connected s); try done. simpl. destruct (sy_live s) as [l|]; [|done]. simpl.
    destruct (_ && _); [|done]. destruct (lt_threads l); simpl; by rewrite ?length_alter.
  - split; [done|]. intros _ Hl. split; apply Hl.
  - split; [done|]. intros _ Hl. by apply loss_spawn.
  - split; [done|]. intros _ Hl. by apply loss_spawn.
  - apply bind_Some in Hstep as (t & Ht & ([s1 t'] & Hstep & [= <-])%bind_Some).
    destruct (loss_run i s s1 t t' reply Hinv Ht Hstep) as [Hle Hli]. by split.
  - split; [|intros _ Hl; by eapply loss_worker].
    apply bind_Some in Hstep as (g & Hg & Hm). destruct mv, (gr_claimed g) as [[op []]|]; try done; repeat case_match; simplify_eq/=;
      by rewrite length_alter.
Qed.
Lemma loss_runs cs s s' : sys_run wintun_dll cs s = Some s' → inv s →
  length (sy_groups s) ≤ length (sy_groups s') ∧ (groups_bounded s' → loss_inv s → loss_inv s').
Proof.
  revert s. induction cs as [|c cs IH]; simpl; intros s Hrun Hinv; [by simplify_eq|].
  apply bind_Some in Hrun as (s1 & Hstep & Hrun). destruct (loss_step c s s1 Hstep Hinv) as [Hle Hli].
  destruct (IH s1 Hrun) as [Hle' Hli']; [by eapply inv_step|]. split; [lia|]. intros Hb Hl. apply Hli'; [done|].
  apply Hli; [|done]. unfold groups_bounded in *. lia.
Qed.
Lemma loss_new m : loss_inv (runtime_new m).
Proof. split; simpl; try done. intros k [?|(j & t & ? & _)]; done. Qed.
Lemma loss_reachable m s : accounted m [] → reachable (Io:=Io) wintun_dll m s → groups_bounded s → loss_inv s.
Proof.
  intros Hm [cs Hrun] Hb. eapply loss_runs; [exact Hrun|by apply inv_new|done|apply loss_new].
Qed.

Lemma sweeper_keeps i g q pc reply s s' x l k gr : inv s → loss_inv s → sy_threads s !! i = Some (T_Sweeper g q pc) →
  sweeper_step i g q pc reply s = Some (s', x) → sy_live s = Some l → lt_threads l = Some k →
  sy_groups s !! k = Some gr → gr_alive gr = true →
  sy_live s' = Some l ∧ sy_groups s' = sy_groups s ∧ sy_status s' = sy_status s.
Proof.
  intros Hinv Hl Hi Hstep El Ek Hk Halive.
  destruct pc as [|lost|lost|lost|lost c|], reply; try discriminate Hstep; simpl in Hstep.
  - destruct q; [destruct (silent g s)|]; by simplify_eq.
  - destruct (sy_poisoned s); [by simplify_eq|].
    by apply bind_Some in Hstep as (s1 & [Hr ->]%acquire_some & [= <- <-]).
  - destruct (negb _); by simplify_eq.
  - destruct (N.eqb_spec lost (sy_generation s)) as [->|]; simpl in Hstep; [|by simplify_eq].
    exfalso. destruct (li_signals _ Hl i _ (sy_generation s) Hi) as (k' & g' & Hg & Hk' & Hdead); [simpl; set_solver|].
    pose proof (li_last _ Hl k) as Hlast. rewrite (li_generation _ Hl), <-Hlast in Hg; [|left; by rewrite El].
    assert (k' = k) as -> by lia. congruence.
  - exfalso. assert (holds (T_Sweeper g q (S_Clean lost c)) = true) as Hh by done.
    destruct (inv_good _ Hinv i _ (holder_calm i s _ Hinv Hi Hh) Hi Hh) as (? & _). congruence.
Qed.

(** ** What is said of a connection *)

Definition says_connected (e : StatusEvent) : Prop := st_coarse_phase e = Ph_Connected.
#[local] Instance says_connected_dec e : Decision (says_connected e).
Proof. unfold says_connected. apply _. Defined.
(** The announcements of a connection, oldest first. *)
Definition connected_told s : list StatusEvent := filter says_connected (sp_history (sy_status s)).

Lemma publish_told e p : sp_publishing p = None →
  sp_publishing (publish e p) = None ∧ (sp_history (publish e p) = sp_history p ∨ sp_history (publish e p) = sp_history p ++ [e]).
Proof.
  intros Hp. unfold publish, publish_begin, publish_commit. destruct (suppressed _ _); simpl; rewrite ?Hp; auto.
Qed.

(** A step that says nothing of being connected, and does not take a cancellation back. *)
Record modest s s' : Prop := {
  md_cancel : sy_cancel s = true → sy_cancel s' = true;
  md_status : sy_status s' = sy_status s ∨ ∃ e, ¬ says_connected e ∧ sy_status s' = publish e (sy_status s);
}.
Lemma modest_told s s' : modest s s' → sp_publishing (sy_status s) = None →
  sp_publishing (sy_status s') = None ∧ connected_told s' = connected_told s.
Proof.
  intros [_ [E|(e & He & E)]] Hp; unfold connected_told; rewrite E; [done|].
  destruct (publish_told e _ Hp) as [? [-> | ->]]; (split; [done|]); [done|].
  by rewrite filter_app, filter_cons_False, filter_nil, app_nil_r.
Qed.
Lemma modest_same s s' : sy_cancel s' = sy_cancel s → sy_status s' = sy_status s → modest s s'.
Proof. intros E1 E2. split; [congruence|by left]. Qed.
Lemma modest_tell s s' e : sy_status s' = publish e (sy_status s) → sy_cancel s' = sy_cancel s → ¬ says_connected e → modest s s'.
Proof. intros E2 E1 He. split; [congruence|right; eauto]. Qed.

Definition hushed s s' : Prop := sy_cancel s' = sy_cancel s ∧ sy_status s' = sy_status s.
Lemma on_group_hushed i f s s' : hushed s s' → hushed s (on_group i f s').
Proof. by destruct i. Qed.
Lemma drop_hushed io l s s' : hushed s s' → hushed s (drop_tunnel io l s').
Proof.
  intros Hs. pose proof (on_group_hushed (lt_threads l) stop_group s s' Hs) as Hg. unfold drop_tunnel.
  destruct (lt_route l); [|done]. by destruct (tp_clear _ _ _) as [[[m o'] res]|].
Qed.
Lemma put_hushed io l s s' : hushed s s' → hushed s (put_live io l s').
Proof. intros Hs. unfold put_live. destruct (sy_live s') as [old|]; [|done]. exact (drop_hushed io old s s' Hs). Qed.
Lemma clean_hushed io c s s1 r : clean_step io c s = Some (s1, r) → hushed s s1.
Proof.
  destruct c as [l|l]; simpl; intros Hc; simplify_eq; [by apply on_group_hushed|].
  destruct (joinable _ _); [|done]. destruct (lt_route l); simplify_eq/=; [|done].
  destruct (tp_clear _ _ _) as [[[m o'] res]|]; by simplify_eq/=.
Qed.
Lemma retry_hushed s : hushed s (retry_pending_routes s).1.
Proof. unfold retry_pending_routes. by destruct (retry_groups _ _) as [[m pending] ok]. Qed.
Lemma modest_hushed s s' s'' : hushed s s' → (sy_cancel s' = true → sy_cancel s'' = true) → sy_status s'' = sy_status s' → modest s s''.
Proof. intros [E1 E2] F1 F2. split; [rewrite <-E1; done|left; congruence]. Qed.
Lemma cleaning_modest {A} io c s (go : Cleaning → A) done failed panicked s1 a :
  (∀ s0, hushed s s0 → hushed s (done s0).1) → (∀ s0 l f, hushed s s0 → hushed s (failed s0 l f).1) →
  cleaning io c s go done failed panicked = Some (s1, a) → hushed s s1.
Proof.
  intros Hd Hf. unfold cleaning. destruct (clean_step io c s) as [[s0 r]|] eqn:Ec; [|discriminate].
  pose proof (clean_hushed _ _ _ _ _ Ec) as Hh. destruct r as [c'|[[l [[]|f]]|]]; intros [= Hcl].
  - by subst.
  - specialize (Hd s0 Hh). by rewrite Hcl in Hd.
  - specialize (Hf s0 l f Hh). by rewrite Hcl in Hf.
  - by subst.
Qed.

Lemma caller_modest i td pc reply s s' pc' : caller_step i td pc reply s = Some (s', pc') → modest s s'.
Proof.
  intros Hstep. destruct pc, reply; try discriminate Hstep; simpl in Hstep.
  - simplify_eq. split; [done|by left].
  - destruct (sy_poisoned s); simplify_eq; [by apply modest_same|].
    apply bind_Some in Hstep as (s1 & [Hr ->]%acquire_some & [= <- <-]). by apply modest_same.
  - destruct (sy_live s); simplify_eq; (split; [done|by left]).
  - eapply modest_hushed; [|done..]. eapply cleaning_modest; [| |exact Hstep]; simpl; [done|].
    intros s0 l f Hh. exact (put_hushed io l s s0 Hh).
  - pose proof (retry_hushed s) as Hh. destruct (retry_pending_routes s) as [s1 ok]. simpl in Hh.
    destruct ok; simplify_eq; (eapply modest_hushed; [exact Hh|done..]).
  - simplify_eq. by apply modest_same.
Qed.
Lemma sweeper_modest i g q pc reply s s' x : sweeper_step i g q pc reply s = Some (s', x) → modest s s'.
Proof.
  intros Hstep. destruct pc, reply; try discriminate Hstep; simpl in Hstep.
  - destruct q; [destruct (silent g s)|]; simplify_eq; by apply modest_same.
  - destruct (sy_poisoned s); simplify_eq; [by apply modest_same|].
    apply bind_Some in Hstep as (s1 & [Hr ->]%acquire_some & [= <- <-]). by apply modest_same.
  - destruct (negb _); simplify_eq; by apply modest_same.
  - destruct (negb _); simplify_eq; [by apply modest_same|]. destruct (sy_live s); simplify_eq; by apply modest_same.
  - eapply modest_hushed; [|done..]. eapply cleaning_modest; [| |exact Hstep]; simpl; [done|].
    intros s0 l f Hh. exact (put_hushed io l s s0 Hh).
Qed.
(** An assembly says that it is connected when it installs its tunnel, and only then. *)
Lemma assembly_modest i ctx pc reply s s' pc' : assembly_step wintun_dll i ctx pc reply s = Some (s', pc') →
  modest s s' ∨ ∃ l wall io, pc = A_Install l ∧ sy_cancel s = false ∧ group_alive (lt_threads l) s = true ∧
    (s', pc') = install_live ctx wall io l s.
Proof.
  intros Hstep. destruct pc; destruct reply; try discriminate Hstep; simpl in Hstep.
  19: { apply (inj Some) in Hstep. symmetry in Hstep. pose proof Hstep as Hin. unfold install_live in Hin. destruct (sy_cancel s) eqn:Ec; [clear Hstep; simplify_eq; left; by apply modest_same|].
        destruct (group_alive _ _) eqn:Ea; simpl in Hin; [|clear Hstep; simplify_eq; left; by apply modest_same].
        right. by exists l, wall, io. }
  all: left.
  - destruct (sy_cancel s); simplify_eq; by apply modest_same.
  - destruct (sy_poisoned s); simplify_eq; [by apply modest_same|].
    apply bind_Some in Hstep as (s1 & [Hr ->]%acquire_some & [= <- <-]). by apply modest_same.
  - destruct (sy_live s); simplify_eq; by apply modest_same.
  - eapply modest_hushed; [|done..]. eapply cleaning_modest; [| |exact Hstep]; simpl; [done|].
    intros s0 l f Hh. exact (put_hushed io l s s0 Hh).
  - pose proof (retry_hushed s) as Hh. destruct (retry_pending_routes s) as [s1 ok]. simpl in Hh.
    destruct ok; simplify_eq; (eapply modest_hushed; [exact Hh|done..]).
  - destruct (sy_cancel s); simplify_eq; [by apply modest_same|]. unfold preflight in Hstep.
    destruct (sy_nic s); [simplify_eq; by apply modest_same|].
    destruct (EngineService.prepare_from _ _ _); simplify_eq; eapply modest_tell; done.
  - destruct (sy_cancel s); simplify_eq; [by apply modest_same|]. unfold control in Hstep.
    destruct (cr_config c); [|simplify_eq; by apply modest_same].
    destruct (cx_credentials ctx); simpl in Hstep; [|simplify_eq; by apply modest_same].
    destruct (find_physical_nics _) as [[|card cards]|]; [simplify_eq; eapply modest_tell; done| |simplify_eq; eapply modest_tell; done].
    destruct (cr_resolver c); simpl in Hstep; [|simplify_eq; eapply modest_tell; done].
    destruct (cr_gateway c); simplify_eq; eapply modest_tell; done.
  - destruct (sy_cancel s); simplify_eq; by apply modest_same.
  - destruct (sy_cancel s); simplify_eq; by apply modest_same.
  - destruct (sy_cancel s); simplify_eq; by apply modest_same.
  - destruct (sy_poisoned s); simplify_eq; [by apply modest_same|].
    apply bind_Some in Hstep as (s1 & [Hr ->]%acquire_some & [= <- <-]). by apply modest_same.
  - destruct (sy_cancel s); [|destruct (sy_live s)]; simplify_eq; by apply modest_same.
  - eapply modest_hushed; [|done..]. eapply cleaning_modest; [| |exact Hstep]; simpl; [done|].
    intros s0 l f Hh. exact (drop_hushed io l s s0 Hh).
  - unfold ensure_nic in Hstep. simpl in Hstep.
    destruct (sy_nic s); [|destruct (df_prepared d); [destruct (tp_ensure _ _) as [m' [nic|[e|detail]]]|]]; simplify_eq/=; eapply modest_tell; done.
  - unfold apply_offer in Hstep. destruct (sy_nic s) as [nic|]; [|simplify_eq; by apply modest_same].
    unfold apply_failed in Hstep. case_bool_decide; [destruct nic_new; simplify_eq/=; by apply modest_same|].
    destruct (tp_apply _ _ _ _ _ _ _) as [[m [[route facts]|e]]|]; [simplify_eq; by apply modest_same| |simplify_eq; by apply modest_same].
    destruct nic_new, (ae_pending_routes e); simplify_eq/=; by apply modest_same.
  - unfold start_plane in Hstep. destruct (sy_cancel s); [simplify_eq; by apply modest_same|]. simpl in Hstep.
    destruct (sy_nic s); [destruct started|]; simplify_eq; eapply modest_tell; done.
  - eapply modest_hushed; [|done..]. eapply cleaning_modest; [| |exact Hstep]; simpl; [by destruct close_nic|].
    intros s0 l f Hh. exact (put_hushed io l s s0 Hh).
  - unfold spawn_workers in Hstep. simplify_eq. by apply modest_same.
  - simplify_eq. by apply modest_same.
  - simplify_eq. eapply modest_tell; done.
  - simplify_eq. eapply modest_tell; done.
  - simplify_eq. by apply modest_same.
Qed.

(** What a saying of being connected is about: the tunnel in place, alive, of that operation. *)
Definition speaks_true s (e : StatusEvent) : Prop :=
  ∃ l k g, sy_live s = Some l ∧ lt_threads l = Some k ∧ sy_groups s !! k = Some g ∧ gr_alive g = true
           ∧ gr_operation g = st_operation_id e.
Definition honest s s' : Prop :=
  connected_told s' = connected_told s ∨ ∃ e, connected_told s' = connected_told s ++ [e] ∧ speaks_true s' e.

Lemma connected_publish s p wall op : sp_publishing p = None → sy_status s = publish (status_connected wall op) p →
  connected_told s = filter says_connected (sp_history p)
  ∨ connected_told s = filter says_connected (sp_history p) ++ [status_connected wall op].
Proof.
  intros Hp E. unfold connected_told. rewrite E. destruct (publish_told (status_connected wall op) p Hp) as [_ [-> | ->]]; [by left|right].
  by rewrite filter_app, filter_cons_True, filter_nil.
Qed.
Lemma group_alive_some i s : group_alive i s = true → ∃ k g, i = Some k ∧ sy_groups s !! k = Some g ∧ gr_alive g = true.
Proof. unfold group_alive, group_of. destruct i as [k|]; simpl; [|done]. destruct (sy_groups s !! k) eqn:E; naive_solver. Qed.

Lemma honest_adopt ctx wall s s' : sp_publishing (sy_status s) = None → adopt ctx wall s = Some s' → honest s s'.
Proof.
  intros Hp (l & El & Ha)%bind_Some. destruct (bool_decide _ && _) eqn:Eb; [|done]. apply andb_true_iff in Eb as [_ Eb].
  destruct (group_alive_some _ _ Eb) as (k & g & Ek & Hk & Hal). rewrite Ek in Ha. simpl in Ha. injection Ha as <-.
  match goal with |- honest _ ?s' => destruct (connected_publish s' (sy_status s) wall (cx_operation_id ctx) Hp eq_refl) as [E|E] end.
  - left. exact E.
  - right. eexists. split; [exact E|]. exists l, k, (rebind_group (cx_operation_id ctx) g). simpl.
    split_and!; [done..| |done|done]. by rewrite list_lookup_alter_eq, Hk.
Qed.
Lemma honest_install i ctx l wall io s :
  inv s → loss_inv s → sp_publishing (sy_status s) = None → sy_threads s !! i = Some (T_Assembly ctx (A_Install l)) →
  sy_cancel s = false → group_alive (lt_threads l) s = true → honest s (install_live ctx wall io l s).1.
Proof.
  intros Hinv Hl Hp Hi Ec Ea. unfold install_live. rewrite Ec, Ea. simpl.
  assert (holds (T_Assembly ctx (A_Install l)) = true) as Hh by done.
  pose proof (holder_calm i s _ Hinv Hi Hh) as Hpo.
  destruct (inv_good _ Hinv i _ Hpo Hi Hh) as (El & _). rewrite put_live_none by done.
  destruct (group_alive_some _ _ Ea) as (k & g & Ek & Hk & Hal).
  destruct (li_installing _ Hl i _ _ _ Hi eq_refl) as (k' & g' & Ek' & Hk' & Hop). assert (k' = k) as -> by congruence.
  assert (g' = g) as -> by congruence. rewrite Ek. simpl.
  match goal with |- honest _ ?s' => destruct (connected_publish s' (sy_status s) wall (cx_operation_id ctx) Hp eq_refl) as [E|E] end.
  - left. exact E.
  - right. eexists. split; [exact E|]. exists l, k, (activate_group g). simpl.
    split_and!; [done..| |done|done]. by rewrite list_lookup_alter_eq, Hk.
Qed.

(** A step of any thread but an assembly that installs its tunnel is modest. *)
Lemma thread_modest i t reply s s' t' : thread_step wintun_dll i t reply s = Some (s', t') →
  modest s s' ∨ ∃ ctx l wall io, t = T_Assembly ctx (A_Install l) ∧ sy_cancel s = false ∧
    group_alive (lt_threads l) s = true ∧ s' = (install_live ctx wall io l s).1.
Proof.
  destruct t as [ctx pc|td pc|g q pc]; simpl; intros ([s1 x] & Hstep & [= <- <-])%bind_Some; simpl.
  - apply assembly_modest in Hstep as [?|(l & wall & io & -> & ? & ? & E)]; [by left|]. right.
    exists ctx, l, wall, io. split_and!; [done..|]. by rewrite <-E.
  - left. by eapply caller_modest.
  - left. by eapply sweeper_modest.
Qed.
Lemma worker_modest i mv s s' : worker_move i mv s = Some s' → modest s s'.
Proof.
  intros (g & Hg & Hm)%bind_Some. destruct mv, (gr_claimed g) as [[op []]|]; try done; repeat case_match; simplify_eq/=;
    [by apply modest_same..|]. eapply modest_tell; done.
Qed.
Definition is_start (c : Choice (Io:=Io)) : bool := match c with Ch_Start _ _ => true | _ => false end.

Lemma publishing_step c s s' : sys_step c s = Some s' → sp_publishing (sy_status s) = None → sp_publishing (sy_status s') = None.
Proof.
  intros Hstep Hp. destruct c as [ctx wall| | | |i reply|i mv]; simpl in Hstep; simplify_eq; try done.
  - unfold start_apply, decide_start_apply. destruct (sy_assembling s), (is_connected s); try done. simpl.
    destruct (adopt ctx wall s) as [s'|] eqn:Ea; [|done].
    apply bind_Some in Ea as (l & El & Ha). destruct (_ && _); [|done]. injection Ha as <-.
    destruct (lt_threads l); simpl; by apply publish_told.
  - apply bind_Some in Hstep as (t & Ht & ([s1 t'] & Hstep & [= <-])%bind_Some). simpl.
    destruct (thread_modest i t reply s s1 t' Hstep) as [Hm|(ctx & l & wall & io & -> & Ec & Ea & ->)]; [by apply (modest_told s)|].
    unfold install_live. rewrite Ec, Ea. cbn [negb].
    pose proof (put_hushed io l s s (conj eq_refl eq_refl)) as [_ E]. revert E. generalize (put_live io l s). intros s1 E.
    destruct (lt_threads l); simpl; rewrite E; by apply publish_told.
  - by apply (modest_told s), Hp; apply (worker_modest i mv).
Qed.
Lemma publishing_runs cs s s' : sys_run wintun_dll cs s = Some s' → sp_publishing (sy_status s) = None → sp_publishing (sy_status s') = None.
Proof.
  revert s. induction cs as [|c cs IH]; simpl; intros s Hrun Hp; [by simplify_eq|].
  apply bind_Some in Hrun as (s1 & Hstep & Hrun). eauto using publishing_step.
Qed.
Lemma quiet_step c s s' : sys_step c s = Some s' → is_start c = false → sy_cancel s = true → sp_publishing (sy_status s) = None →
  sy_cancel s' = true ∧ connected_told s' = connected_told s.
Proof.
  intros Hstep Hc Hca Hp. destruct c as [ctx wall| | | |i reply|i mv]; simpl in Hstep; simplify_eq/=; try done.
  - apply bind_Some in Hstep as (t & Ht & ([s1 t'] & Hstep & [= <-])%bind_Some).
    destruct (thread_modest i t reply s s1 t' Hstep) as [Hm|(? & ? & ? & ? & _ & ? & _)]; [|congruence].
    split; [by apply (md_cancel _ _ Hm)|]. exact (proj2 (modest_told s s1 Hm Hp)).
  - pose proof (worker_modest i mv s s' Hstep) as Hm. split; [by apply (md_cancel _ _ Hm)|by apply modest_told].
Qed.
Lemma quiet_runs cs s s' : sys_run wintun_dll cs s = Some s' → forallb (negb ∘ is_start) cs = true → sy_cancel s = true →
  sp_publishing (sy_status s) = None → sy_cancel s' = true ∧ connected_told s' = connected_told s.
Proof.
  revert s. induction cs as [|c cs IH]; simpl; intros s Hrun Hcs Hca Hp; [by simplify_eq|].
  apply bind_Some in Hrun as (s1 & Hstep & Hrun). apply andb_true_iff in Hcs as [Hc%negb_true_iff Hcs].
  destruct (quiet_step c s s1 Hstep Hc Hca Hp) as [Hca' E]. pose proof (publishing_step c s s1 Hstep Hp) as Hp'.
  destruct (IH s1 Hrun Hcs Hca' Hp') as [? ->]. done.
Qed.
Lemma honest_step c s s' : sys_step c s = Some s' → inv s → loss_inv s → sp_publishing (sy_status s) = None → honest s s'.
Proof.
  intros Hstep Hinv Hl Hp. destruct c as [ctx wall| | | |i reply|i mv]; simpl in Hstep; simplify_eq; try by left.
  - unfold start_apply, decide_start_apply. destruct (sy_assembling s), (is_connected s); try by left. simpl.
    destruct (adopt ctx wall s) as [s'|] eqn:Ea; [|by left]. by eapply honest_adopt.
  - apply bind_Some in Hstep as (t & Ht & ([s1 t'] & Hstep & [= <-])%bind_Some).
    destruct (thread_modest i t reply s s1 t' Hstep) as [Hm|(ctx & l & wall & io & -> & Ec & Ea & ->)].
    + left. exact (proj2 (modest_told s s1 Hm Hp)).
    + destruct (honest_install i ctx l wall io s Hinv Hl Hp Ht Ec Ea) as [E|(e & E & He)]; [left; exact E|right; exists e; split; [exact E|exact He]].
  - left. apply modest_told; [by eapply worker_modest|done].
Qed.
End Losses.

(** A cancellation, or a step with which a disconnect or teardown begins, or takes what is
    in place. *)
Definition cancels {M Io} `{TunnelPlatform M Io} (s : Sys (M:=M)) (c : Choice (Io:=Io)) : Prop :=
  match c with
  | Ch_Cancel => True
  | Ch_Run i _ => ∃ teardown, sy_threads s !! i = Some (T_Caller teardown D_Begin)
                              ∨ sy_threads s !! i = Some (T_Caller teardown D_Take)
  | _ => False
  end.
Lemma cancels_step {M Io} `{TunnelPlatformLaws M Io} wintun_dll (s s' : Sys (M:=M)) c : cancels s c → sys_step wintun_dll c s = Some s' →
  is_start c = false ∧ sy_cancel s' = true ∧ connected_told s' = connected_told s.
Proof.
  destruct c as [| | | |i reply|]; simpl; try done; [by intros _ [= <-]|].
  intros (td & [Ht|Ht]); rewrite Ht; simpl; destruct reply; simpl; try done; [by intros [= <-]|].
  by destruct (sy_live s); intros [= <-].
Qed.

(** C10: What is said of a connection is true. Whenever anything says that an operation is
    connected, a tunnel is in place at that moment, its workers are alive and report to
    that operation. A cancellation, and the step with which a disconnect or teardown begins
    or takes what is in place, cancels the assembly there is; and from then on, until the
    next connection is asked for, the assembly stays cancelled and nothing says that
    anything is connected, however far an assembly has come and whatever else happens in
    between. All that for fewer than 2^64 groups of workers. *)
Theorem connected_is_true {M Io} `{TunnelPlatformLaws M Io} wintun_dll (m : M) s :
  accounted m [] → reachable (Io:=Io) wintun_dll m s → groups_bounded s →
  (∀ c s', sys_step wintun_dll c s = Some s' → honest s s') ∧
  (sy_cancel s = true → ∀ cs s', forallb (negb ∘ is_start) cs = true → sys_run wintun_dll cs s = Some s' →
     sy_cancel s' = true ∧ connected_told s' = connected_told s) ∧
  (∀ c cs s', cancels s c → forallb (negb ∘ is_start) cs = true → sys_run wintun_dll (c :: cs) s = Some s' →
     sy_cancel s' = true ∧ connected_told s' = connected_told s).
Proof.
  intros Hm Hr Hb. pose proof (inv_reachable wintun_dll m s Hm Hr) as Hinv.
  pose proof (loss_reachable wintun_dll m s Hm Hr Hb) as Hl.
  assert (sp_publishing (sy_status s) = None) as Hp by (destruct Hr as [cs0 Hr]; by eapply publishing_runs).
  split_and!; [intros c s' Hstep; by eapply honest_step|intros Hc cs s' Hcs Hrun; by eapply quiet_runs|].
  intros c cs s' Hc Hcs (s1 & Hstep & Hrun)%bind_Some. destruct (cancels_step _ _ _ _ Hc Hstep) as (Hns & Hc1 & <-).
  by eapply quiet_runs; [exact Hrun|exact Hcs|exact Hc1|eapply publishing_step].
Qed.

(** C13: A sweeper that wakes late spares the connection that was made since: a step of a
    sweeper, whatever signal it carries and however old, leaves a runtime that is connected
    connected, with the same tunnel in place and its workers alive. *)
Theorem sweeper_spares_living {M Io} `{TunnelPlatformLaws M Io} wintun_dll (m : M) s i g q pc reply s' :
  accounted m [] → reachable (Io:=Io) wintun_dll m s → groups_bounded s →
  sy_threads s !! i = Some (T_Sweeper g q pc) → sys_step wintun_dll (Ch_Run i reply) s = Some s' →
  is_connected s = true →
  is_connected s' = true ∧ sy_live s' = sy_live s ∧ sy_groups s' = sy_groups s.
Proof.
  intros Hm Hr Hb Hi Hstep Hc. pose proof (inv_reachable wintun_dll m s Hm Hr) as Hinv.
  pose proof (loss_reachable wintun_dll m s Hm Hr Hb) as Hl.
  unfold is_connected in Hc. destruct (group_alive_some _ _ Hc) as (k & gr & Ek & Hk & Hal).
  destruct (sy_live s) as [l|] eqn:El; [|done]. simpl in Hstep. rewrite Hi in Hstep. simpl in Hstep.
  apply bind_Some in Hstep as ([s1 t'] & Hstep & [= <-]). apply bind_Some in Hstep as ([s2 x] & Hstep & [= <- <-]).
  destruct (sweeper_keeps i g q pc reply s s2 x l k gr Hinv Hl Hi Hstep El Ek Hk Hal) as (E1 & E2 & _).
  split_and!; [|done|done]. unfold is_connected, group_alive, group_of. simpl. rewrite E1, E2. simpl in Ek. simpl.
  rewrite Ek. simpl. by rewrite Hk.
Qed.
