(* ===== verification/EngineRuntimeEnd.v ===== *)
(** * The tunnel runtime comes to rest

    Termination and progress of the transition system of [EngineRuntime]: the threads of
    the runtime can only take so many steps between two calls, whatever the system
    answers and however they interleave; and when there is nothing left that has to
    happen, every assembly and every caller is through, the lock is free, and the loss of
    a connection has been swept. *)

From Stdlib Require Import NArith ZArith Strings.Byte Lia.
From S2P Require Import Prelude Model Text Connector Http Session Offer NativeError IpHelper Routes RouteOwner Adapters Config.
From S2P Require Import EngineStatus EnginePlane EngineRuntime EngineRuntimeSafe EngineRuntimeLoss.

(** ** Ranks *)

Definition clean_rank (c : Cleaning) : nat := match c with C_Stop _ => 1 | C_Join _ => 0 end.
Definition asm_rank (pc : AsmPc) : nat :=
  match pc with
  | A_Entry => 38 | A_LockPrevious => 37 | A_TakePrevious => 36 | A_CleanPrevious c => 34 + clean_rank c
  | A_RetryPending => 33 | A_Preflight => 32 | A_Control _ => 31 | A_Login _ _ _ _ => 30 | A_Session _ _ _ _ _ => 29
  | A_Offered _ => 28 | A_LockResources _ => 27 | A_TakeOld _ => 26 | A_CleanOld _ c => 24 + clean_rank c
  | A_Nic _ => 23 | A_Apply _ _ => 22 | A_Applied _ _ _ => 21 | A_Generation _ => 20
  | A_Install _ => 6 | A_CleanRetain c _ _ => 4 + clean_rank c | A_Unlock _ => 3 | A_Report _ | A_ReportPanic => 2
  | A_Reset => 1 | A_Done => 0
  end.
Definition call_rank (pc : CallPc) : nat :=
  match pc with
  | D_Begin => 7 | D_Lock => 6 | D_Take => 5 | D_Clean c => 3 + clean_rank c | D_Retry => 2 | D_CloseNic => 1
  | D_Done _ | D_Panicked => 0
  end.
Definition sweep_rank (pc : SweepPc) : nat :=
  match pc with
  | S_Wait => 1 | S_Lock _ => 7 | S_Check _ => 6 | S_Take _ => 5 | S_Clean _ c => 3 + clean_rank c | S_Gone => 0
  end.
Definition thread_rank (t : Thread) : nat :=
  match t with
  | T_Assembly _ pc => asm_rank pc
  | T_Caller _ pc => call_rank pc
  | T_Sweeper _ queue pc => 7 * length queue + sweep_rank pc
  end.
(** The sweepers that listen to a group. *)
Definition listens (k : nat) (t : Thread) : nat :=
  match t with T_Sweeper c _ _ => if bool_decide (c = k) then 1 else 0 | _ => 0 end.
Definition listeners (k : nat) (ts : list Thread) : nat := sum_list_with (listens k) ts.
(** What the workers of a group may still do, with what that gives its sweepers to do. *)
Definition group_rank (n : nat) (g : Group) : nat :=
  match gr_claimed g with
  | None => if gr_alive g then 4 + 7 * n else 0
  | Some (_, false) => 3 + 7 * n
  | Some (_, true) => 2
  end.
Definition groups_rank (ts : list Thread) (gs : list Group) : nat :=
  sum_list (imap (λ k g, group_rank (listeners k ts) g) gs).
(** How many steps are left at most. *)
Definition work {M} (s : Sys (M:=M)) : nat :=
  sum_list_with thread_rank (sy_threads s) + groups_rank (sy_threads s) (sy_groups s).

(** A step of a thread of the runtime or of a worker. *)
Definition internal {Io} (c : Choice (Io:=Io)) : bool := match c with Ch_Run _ _ | Ch_Worker _ _ => true | _ => false end.
(** Such a step, which will happen if it can: a worker may live for as long as it likes,
    but tells of the loss it has claimed. *)
Definition due {Io} (c : Choice (Io:=Io)) : bool :=
  match c with Ch_Run _ _ => true | Ch_Worker _ (W_Signal | W_Tell) => true | _ => false end.

(** ** Sums *)

Lemma sum_imap_le {A} (f f' : nat → A → nat) l l' :
  length l = length l' → (∀ k x y, l !! k = Some x → l' !! k = Some y → f k x ≤ f' k y) →
  sum_list (imap f l) ≤ sum_list (imap f' l').
Proof.
  revert f f' l'. induction l as [|x l IH]; intros f f' [|y l'] Hlen Hle; simplify_eq/=; [done|].
  pose proof (Hle 0 x y eq_refl eq_refl). pose proof (IH (f ∘ S) (f' ∘ S) l' Hlen (λ k, Hle (S k))). lia.
Qed.
Lemma sum_imap_lt {A} (f f' : nat → A → nat) l l' d :
  length l = length l' → (∀ k x y, l !! k = Some x → l' !! k = Some y → f k x ≤ f' k y) →
  (∃ k x y, l !! k = Some x ∧ l' !! k = Some y ∧ f k x + d ≤ f' k y) →
  sum_list (imap f l) + d ≤ sum_list (imap f' l').
Proof.
  revert f f' l'. induction l as [|x l IH]; intros f f' [|y l'] Hlen Hle (k & x' & y' & Hx & Hy & Hlt); simplify_eq/=.
  destruct k as [|k]; simplify_eq/=.
  - pose proof (sum_imap_le (f ∘ S) (f' ∘ S) l l' Hlen (λ k, Hle (S k))). lia.
  - pose proof (Hle 0 x y eq_refl eq_refl).
    pose proof (IH (f ∘ S) (f' ∘ S) l' Hlen (λ k, Hle (S k)) (ex_intro _ k (ex_intro _ x' (ex_intro _ y' (conj Hx (conj Hy Hlt)))))). lia.
Qed.
Lemma sum_with_insert {A} (f : A → nat) l i x y :
  l !! i = Some x → sum_list_with f (<[i := y]> l) + f x = sum_list_with f l + f y.
Proof.
  revert i. induction l as [|z l IH]; intros [|i] Hi; simplify_eq/=; [lia|]. pose proof (IH i Hi). lia.
Qed.
Lemma sum_with_app {A} (f : A → nat) l l' : sum_list_with f (l ++ l') = sum_list_with f l + sum_list_with f l'.
Proof. induction l; simpl; lia. Qed.
Lemma sum_with_fmap_le {A} (f : A → nat) (h : A → A) (e : A → nat) l :
  (∀ x, f (h x) ≤ f x + e x) → sum_list_with f (h <$> l) ≤ sum_list_with f l + sum_list_with e l.
Proof. intros Hh. induction l as [|x l IH]; csimpl; [done|]. pose proof (Hh x). lia. Qed.

Section Ending.
Context {M Io : Type} `{TunnelPlatformLaws M Io} (wintun_dll : str).
Abbreviation Sys := (Sys (M:=M)).
Abbreviation sys_step := (sys_step (Io:=Io) wintun_dll).
Implicit Types (s : Sys) (t : Thread).

(** ** Every step of a thread leads on *)

Lemma cleaning_rank {A} io c s (go : Cleaning → A) done failed panicked s1 a (rank : A → nat) n :
  cleaning io c s go done failed panicked = Some (s1, a) →
  (∀ c', rank (go c') = n + clean_rank c') → (∀ s, rank (done s).2 < n) → (∀ s l f, rank (failed s l f).2 < n) →
  rank panicked < n → rank a < n + clean_rank c.
Proof.
  unfold cleaning. intros Hcl Hgo Hdone Hfailed Hpanic. destruct (clean_step io c s) as [[s0 r]|] eqn:Ec; [|done].
  destruct r as [c'|[[l [[]|f]]|]]; simplify_eq.
  - rewrite Hgo. destruct c as [l|l]; simpl in Ec; [simplify_eq; simpl; lia|].
    destruct (joinable _ _); [|done]. destruct (lt_route l); [destruct (tp_clear _ _ _) as [[[]]|]|]; done.
  - pose proof (Hdone s0) as Hd. rewrite Hcl in Hd. simpl in Hd. lia.
  - pose proof (Hfailed s0 l f) as Hd. rewrite Hcl in Hd. simpl in Hd. lia.
  - lia.
Qed.

Lemma caller_rank i s s' td pc pc' reply : caller_step i td pc reply s = Some (s', pc') → call_rank pc' < call_rank pc.
Proof.
  intros Hstep. destruct pc, reply; try discriminate Hstep; simpl in Hstep.
  - simplify_eq/=. lia.
  - destruct (sy_poisoned s); [simplify_eq/=; lia|]. apply bind_Some in Hstep as (s1 & _ & [= <- <-]). simpl. lia.
  - destruct (sy_live s); simplify_eq/=; lia.
  - apply (cleaning_rank _ _ _ _ _ _ _ _ _ call_rank 3 Hstep); intros; simpl; lia.
  - destruct (retry_pending_routes s) as [s1 []], td; simplify_eq/=; lia.
  - simplify_eq/=. lia.
Qed.
Lemma sweeper_rank i s s' g q pc q' pc' reply : sweeper_step i g q pc reply s = Some (s', (q', pc')) →
  thread_rank (T_Sweeper g q' pc') < thread_rank (T_Sweeper g q pc).
Proof.
  intros Hstep. destruct pc, reply; try discriminate Hstep; simpl in Hstep.
  - destruct q; [destruct (silent g s)|]; simplify_eq/=; lia.
  - destruct (sy_poisoned s); [simplify_eq/=; lia|]. apply bind_Some in Hstep as (s1 & _ & [= <- <- <-]). simpl. lia.
  - destruct (negb _); simplify_eq/=; lia.
  - destruct (negb _); [|destruct (sy_live s)]; simplify_eq/=; lia.
  - pose proof (cleaning_rank _ _ _ _ _ _ _ _ _ (λ p, thread_rank (T_Sweeper g p.1 p.2)) (7 * length q + 3) Hstep) as Hr.
    simpl in Hr. simpl. apply Nat.lt_le_trans with (1 := Hr ltac:(intros; simpl; lia) ltac:(intros; simpl; lia)
      ltac:(intros; simpl; lia) ltac:(simpl; lia)). lia.
Qed.
Lemma apply_failed_rank nic_new e s : asm_rank (apply_failed nic_new e s).2 = 3.
Proof. done. Qed.
Lemma assembly_rank i s s' ctx pc pc' reply :
  assembly_step wintun_dll i ctx pc reply s = Some (s', pc') → asm_rank pc' < asm_rank pc.
Proof.
  intros Hstep. destruct pc; destruct reply; try discriminate Hstep; simpl in Hstep.
  - destruct (sy_cancel s); simplify_eq/=; lia.
  - destruct (sy_poisoned s); [simplify_eq/=; lia|]. apply bind_Some in Hstep as (s1 & _ & [= <- <-]). simpl. lia.
  - destruct (sy_live s); simplify_eq/=; lia.
  - apply (cleaning_rank _ _ _ _ _ _ _ _ _ asm_rank 34 Hstep); intros; simpl; lia.
  - destruct (retry_pending_routes s) as [s1 []]; simplify_eq/=; lia.
  - unfold preflight in Hstep. destruct (sy_cancel s); [|destruct (sy_nic s); [|destruct (EngineService.prepare_from _ _ _)]]; simplify_eq/=; lia.
  - unfold control in Hstep. repeat case_match; simplify_eq/=; lia.
  - unfold login in Hstep. repeat case_match; simplify_eq/=; lia.
  - unfold open_session in Hstep. repeat case_match; simplify_eq/=; lia.
  - destruct (sy_cancel s); simplify_eq/=; lia.
  - destruct (sy_poisoned s); [simplify_eq/=; lia|]. apply bind_Some in Hstep as (s1 & _ & [= <- <-]). simpl. lia.
  - destruct (sy_cancel s); [|destruct (sy_live s)]; simplify_eq/=; lia.
  - apply (cleaning_rank _ _ _ _ _ _ _ _ _ asm_rank 24 Hstep); intros; simpl; lia.
  - unfold ensure_nic in Hstep. repeat case_match; simplify_eq/=; lia.
  - unfold apply_offer, apply_failed in Hstep. repeat case_match; simplify_eq/=; lia.
  - unfold start_plane in Hstep. repeat case_match; simplify_eq/=; lia.
  - apply (cleaning_rank _ _ _ _ _ _ _ _ _ asm_rank 4 Hstep); intros; simpl; lia.
  - unfold spawn_workers in Hstep. simplify_eq/=. lia.
  - unfold install_live in Hstep. repeat case_match; simplify_eq/=; lia.
  - destruct e; simplify_eq/=; lia.
  - simplify_eq/=. lia.
  - simplify_eq/=. lia.
  - simplify_eq/=. lia.
Qed.
Lemma thread_ranks i t reply s s' t' : thread_step wintun_dll i t reply s = Some (s', t') → thread_rank t' < thread_rank t.
Proof.
  destruct t as [ctx pc|td pc|g q pc]; cbn [thread_step]; intros ([s1 x] & Hstep & [= <- <-])%bind_Some; cbn [fst snd thread_rank].
  - by eapply assembly_rank.
  - by eapply caller_rank.
  - destruct x as [q' pc']. by eapply sweeper_rank.
Qed.

(** ** Who listens *)

(** Sweepers listen to groups there are. *)
Definition heard s : Prop := ∀ j c q pc, sy_threads s !! j = Some (T_Sweeper c q pc) → c < length (sy_groups s).

Lemma listeners_new s k : heard s → length (sy_groups s) ≤ k → listeners k (sy_threads s) = 0.
Proof.
  unfold heard, listeners. generalize (sy_threads s). intros ts Hh Hk. induction ts as [|t ts IH]; [done|]. simpl.
  rewrite IH by (intros j; apply (Hh (S j))). destruct t as [| |c q pc]; simpl; try done.
  rewrite bool_decide_eq_false_2; [done|]. pose proof (Hh 0 c q pc eq_refl). lia.
Qed.
Lemma thread_listens i t reply s s' t' k : thread_step wintun_dll i t reply s = Some (s', t') → listens k t' = listens k t.
Proof. by destruct t; cbn [thread_step]; intros ([s1 x] & _ & [= <- <-])%bind_Some. Qed.
Lemma listeners_insert i t t' ts k : ts !! i = Some t → listens k t' = listens k t → listeners k (<[i := t']> ts) = listeners k ts.
Proof. intros Hi E. pose proof (sum_with_insert (listens k) ts i t t' Hi). unfold listeners. lia. Qed.
Lemma send_lost_rank k x t : thread_rank (send_lost k x t) ≤ thread_rank t + 7 * listens k t.
Proof.
  destruct t as [| |c q pc]; simpl; try lia. destruct pc; simpl; try lia; case_bool_decide; simpl; rewrite ?length_app; simpl; lia.
Qed.
Lemma send_lost_listens k k' x t : listens k' (send_lost k x t) = listens k' t.
Proof. destruct t as [| |c q []]; simpl; try done; by case_bool_decide. Qed.

Lemma heard_step c s s' : sys_step c s = Some s' → inv s → heard s → heard s'.
Proof.
  intros Hstep Hinv Hh. destruct (loss_step wintun_dll c s s' Hstep Hinv) as [Hlen _].
  destruct c as [ctx wall| | | |i reply|i mv]; simpl in Hstep; simplify_eq.
  - intros j c q pc Hj. apply (Nat.lt_le_trans _ (length (sy_groups s))); [|done]. apply (Hh j c q pc).
    revert Hj. unfold start_apply, decide_start_apply, adopt.
    assert (∀ t s, sy_threads (spawn t s) !! j = Some (T_Sweeper c q pc) → (∀ c q pc, t ≠ T_Sweeper c q pc) →
            sy_threads s !! j = Some (T_Sweeper c q pc)) as Hsp.
    { intros t s0 [?|[_ [_ Ht]%list_lookup_singleton_Some]]%lookup_app_Some Hno; [done|]. by destruct (Hno c q pc). }
    destruct (sy_assembling s), (is_connected s); try done; simpl; [destruct (sy_live s) as [l|]; simpl; [destruct (_ && _)|]|];
      try (intros Hj; by apply (Hsp _ _ Hj)). by destruct (lt_threads l).
  - done.
  - intros j c q pc [?|[_ [_ Ht]%list_lookup_singleton_Some]]%lookup_app_Some; [by eapply Hh|done].
  - intros j c q pc [?|[_ [_ Ht]%list_lookup_singleton_Some]]%lookup_app_Some; [by eapply Hh|done].
  - apply bind_Some in Hstep as (t & Ht & ([s1 t'] & Hstep & [= <-])%bind_Some). simpl in Hlen.
    intros j c q pc. simpl. intros Hj.
    assert (∀ c q pc, t' = T_Sweeper c q pc → c < length (sy_groups s)) as Hown.
    { destruct t as [|? pc0|c0 q0 pc0]; cbn [thread_step] in Hstep; apply bind_Some in Hstep as ([s2 x] & _ & [= _ <-]); try done.
      intros c1 q1 pc1 [= <- _ _]. by eapply Hh. }
    destruct (thread_losses wintun_dll i s s1 t t' reply Hinv Ht Hstep) as [(ctx & route & -> & -> & ->)|Hmv].
    + destruct (after_lookup i s (spawn_workers ctx route s).1 _ [T_Sweeper (length (sy_groups s)) [] S_Wait] j _ eq_refl ltac:(eauto) Hj) as [[-> ?]|[[_ Hu]|(_ & _ & Hu)]]; [done| |].
      * pose proof (Hh j c q pc Hu). simpl. rewrite length_app. simpl. lia.
      * apply list_elem_of_singleton in Hu as [= -> _ _]. simpl. rewrite length_app. simpl. lia.
    + rewrite (lm_threads _ _ _ _ Hmv) in Hj. apply list_lookup_insert_Some in Hj as [(-> & -> & _)|[_ Hj]].
      * pose proof (Hown c q pc eq_refl). lia.
      * pose proof (Hh j c q pc Hj). lia.
  - intros j c q pc Hj. apply (Nat.lt_le_trans _ (length (sy_groups s))); [|done].
    apply bind_Some in Hstep as (g & Hg & Hm). destruct mv, (gr_claimed g) as [[op []]|]; try done;
      repeat case_match; simplify_eq/=; try (by eapply Hh).
    rewrite list_lookup_fmap in Hj. apply fmap_Some in Hj as ([| |c0 q0 pc0] & Hu & E); try done.
    pose proof (send_lost_listens i c0 (gr_generation g) (T_Sweeper c0 q0 pc0)) as El. rewrite <-E in El. simpl in El.
    rewrite (bool_decide_eq_true_2 (c0 = c0)) in El by done. case_bool_decide; simplify_eq. by eapply Hh.
Qed.

(** ** Termination *)

Lemma groups_rank_le ts ts' gs gs' d :
  (∀ k, k < length gs' → listeners k ts = listeners k ts') → length gs = length gs' →
  (∀ k g g', gs !! k = Some g → gs' !! k = Some g' → group_rank (listeners k ts') g ≤ group_rank (listeners k ts') g') →
  (d = 0 ∨ ∃ k g g', gs !! k = Some g ∧ gs' !! k = Some g' ∧ group_rank (listeners k ts') g + d ≤ group_rank (listeners k ts') g') →
  groups_rank ts gs + d ≤ groups_rank ts' gs'.
Proof.
  intros Hls Hlen Hle Hd. unfold groups_rank.
  assert (∀ k x y, gs !! k = Some x → gs' !! k = Some y →
            group_rank (listeners k ts) x ≤ group_rank (listeners k ts') y) as Hle'.
  { intros k x y Hx Hy. rewrite Hls by (by eapply lookup_lt_Some). by apply Hle. }
  destruct Hd as [->|(k & g & g' & Hk & Hk' & Hlt)].
  - pose proof (sum_imap_le _ _ gs gs' Hlen Hle'). lia.
  - apply sum_imap_lt; [done..|]. exists k, g, g'. rewrite Hls by (by eapply lookup_lt_Some). done.
Qed.

Lemma groups_rank_snoc ts gs g : groups_rank ts (gs ++ [g]) = groups_rank ts gs + group_rank (listeners (length gs) ts) g.
Proof. unfold groups_rank. rewrite imap_app, sum_list_with_app. simpl. by rewrite !Nat.add_0_r. Qed.
Lemma work_spawn i s ctx route : heard s → sy_threads s !! i = Some (T_Assembly ctx (A_Generation route)) →
  let out := spawn_workers ctx route s in
  work (with_threads (<[i := T_Assembly ctx out.2]> (sy_threads out.1)) out.1) < work s.
Proof.
  intros Hh Hi out. unfold work, out, spawn_workers. simpl. set (u := T_Assembly ctx (A_Install _)).
  set (v := T_Sweeper _ _ _). rewrite insert_app_l by (by eapply lookup_lt_Some). rewrite sum_with_app, groups_rank_snoc.
  pose proof (sum_with_insert thread_rank (sy_threads s) i _ u Hi) as Hsum. simpl in Hsum.
  assert (∀ k, listeners k (<[i := u]> (sy_threads s) ++ [v]) =
               listeners k (sy_threads s) + if bool_decide (length (sy_groups s) = k) then 1 else 0) as Hls.
  { intros k. unfold listeners. rewrite sum_with_app. simpl.
    pose proof (sum_with_insert (listens k) (sy_threads s) i _ u Hi). simpl in *. lia. }
  rewrite Hls, bool_decide_eq_true_2, (listeners_new s) by (done || lia).
  pose proof (groups_rank_le (<[i := u]> (sy_threads s) ++ [v]) (sy_threads s) (sy_groups s) (sy_groups s) 0) as Hg.
  assert (groups_rank (<[i := u]> (sy_threads s) ++ [v]) (sy_groups s) + 0 ≤ groups_rank (sy_threads s) (sy_groups s)) as Hg'.
  { apply Hg; [|done| |by left].
    - intros k Hk. rewrite Hls, bool_decide_eq_false_2; lia.
    - intros k g g' Hk Hk'. by simplify_eq. }
  unfold group_rank. simpl. lia.
Qed.
Lemma work_thread i t reply s s' t' : inv s → heard s → sy_threads s !! i = Some t →
  thread_step wintun_dll i t reply s = Some (s', t') → work (with_threads (<[i := t']> (sy_threads s')) s') < work s.
Proof.
  intros Hinv Hh Hi Hstep. pose proof (thread_ranks i t reply s s' t' Hstep) as Hrank.
  destruct (thread_losses wintun_dll i s s' t t' reply Hinv Hi Hstep) as [(ctx & route & -> & -> & ->)|Hmv];
    [by apply work_spawn|].
  unfold work. simpl. rewrite (lm_threads _ _ _ _ Hmv).
  pose proof (sum_with_insert thread_rank (sy_threads s) i t t' Hi).
  pose proof (groups_rank_le (<[i := t']> (sy_threads s)) (sy_threads s) (sy_groups s') (sy_groups s) 0) as Hg.
  assert (groups_rank (<[i := t']> (sy_threads s)) (sy_groups s') + 0 ≤ groups_rank (sy_threads s) (sy_groups s)); [|lia].
  pose proof (lm_groups _ _ _ _ Hmv) as Hgs. apply Hg; [|by rewrite (Forall2_length _ _ _ Hgs)| |by left].
  - intros k Hk. apply (listeners_insert i t t'); [done|]. by eapply thread_listens.
  - intros k g' g Hk' Hk. destruct (groups_le_lookup _ _ _ _ Hgs Hk') as (g0 & Hk0 & (_ & Ha & _)). simplify_eq.
    destruct (operation_kept s s' k g (lm_operations _ _ _ _ Hmv) Hk) as (g0 & ? & _ & Ec). simplify_eq.
    unfold group_rank. rewrite Ec. destruct (gr_claimed g) as [[? []]|]; try done.
    destruct (gr_alive g'); [by rewrite Ha|lia].
Qed.
Lemma work_worker i mv s s' : worker_move i mv s = Some s' → work s' < work s.
Proof.
  intros (g & Hg & Hm)%bind_Some. unfold work.
  assert (∀ h ts, (∀ k, listeners k ts = listeners k (sy_threads s)) → ∀ d,
            group_rank (listeners i (sy_threads s)) (h g) + d ≤ group_rank (listeners i (sy_threads s)) g →
            groups_rank ts (alter h i (sy_groups s)) + d ≤ groups_rank (sy_threads s) (sy_groups s)) as Hal.
  { intros h ts Hts d Hd. apply groups_rank_le; [done|by rewrite length_alter| |right].
    - intros k g' g0 Hk' Hk. destruct (decide (i = k)) as [->|Hne].
      + rewrite list_lookup_alter_eq, Hk in Hk'. simplify_eq/=. lia.
      + rewrite list_lookup_alter_ne in Hk' by done. by simplify_eq.
    - exists i, (h g), g. rewrite list_lookup_alter_eq, Hg. done. }
  destruct mv, (gr_claimed g) as [[op []]|] eqn:Ec; try done.
  - destruct (gr_alive g) eqn:Ea; [|done]. destruct (negb _); simplify_eq/=.
    pose proof (Hal stop_group (sy_threads s) (λ _, eq_refl) 1) as Hr. unfold group_rank in Hr. simpl in Hr. rewrite Ec, Ea in Hr. lia.
  - destruct (gr_alive g) eqn:Ea; [|done]. destruct (gr_activated _); simplify_eq/=.
    pose proof (Hal (set_claimed (Some (gr_operation g, false))) (sy_threads s) (λ _, eq_refl) 1) as Hr.
    unfold group_rank in Hr. simpl in Hr. rewrite Ec, Ea in Hr. lia.
  - simplify_eq/=. set (h := send_lost i (gr_generation g)).
    pose proof (Hal (set_claimed (Some (op, true))) (h <$> sy_threads s)) as Hr. unfold group_rank in Hr. simpl in Hr. rewrite Ec in Hr.
    pose proof (sum_with_fmap_le thread_rank h (λ t, 7 * listens i t) (sy_threads s) (send_lost_rank i (gr_generation g))) as Hs.
    assert (∀ ts, sum_list_with (λ t, 7 * listens i t) ts = 7 * listeners i ts) as Hm.
    { unfold listeners. induction ts as [|t ts IH]; [done|]. simpl. simpl in IH. lia. }
    rewrite Hm in Hs. assert (∀ k, listeners k (h <$> sy_threads s) = listeners k (sy_threads s)) as Hls.
    { intros k. unfold listeners. clear. generalize (sy_threads s). intros ts. induction ts as [|t ts IH]; csimpl; [done|]. rewrite IH. f_equal. apply send_lost_listens. }
    specialize (Hr Hls (1 + 7 * listeners i (sy_threads s)) ltac:(lia)). lia.
  - simplify_eq/=. pose proof (Hal (set_claimed None) (sy_threads s) (λ _, eq_refl) 2) as Hr.
    unfold group_rank in Hr. simpl in Hr. rewrite Ec in Hr. lia.
Qed.
Lemma work_step c s s' : sys_step c s = Some s' → internal c = true → inv s → heard s → work s' < work s.
Proof.
  intros Hstep Hc Hinv Hh. destruct c as [| | | |i reply|i mv]; try done; simpl in Hstep.
  - apply bind_Some in Hstep as (t & Ht & ([s1 t'] & Hstep & [= <-])%bind_Some). by apply (work_thread i t reply).
  - by eapply work_worker.
Qed.
Lemma work_runs cs s s' : sys_run wintun_dll cs s = Some s' → forallb internal cs = true → inv s → heard s →
  length cs + work s' ≤ work s.
Proof.
  revert s. induction cs as [|c cs IH]; simpl; intros s Hrun Hcs Hinv Hh; [by simplify_eq|].
  apply bind_Some in Hrun as (s1 & Hstep & Hrun). apply andb_true_iff in Hcs as [Hc Hcs].
  pose proof (work_step c s s1 Hstep Hc Hinv Hh).
  pose proof (IH s1 Hrun Hcs (inv_step wintun_dll c s s1 Hstep Hinv) (heard_step c s s1 Hstep Hinv Hh)). lia.
Qed.
Lemma heard_runs cs s s' : sys_run wintun_dll cs s = Some s' → inv s → heard s → heard s'.
Proof.
  revert s. induction cs as [|c cs IH]; simpl; intros s Hrun Hinv Hh; [by simplify_eq|].
  apply bind_Some in Hrun as (s1 & Hstep & Hrun). eauto using inv_step, heard_step.
Qed.

(** ** Progress *)

(** An assembly is under way when the runtime says so. *)
Definition busy s : Prop := sy_assembling s = true → ∃ i t, sy_threads s !! i = Some t ∧ active t = true.

Lemma cleaning_to {A} io c s (go : Cleaning → A) done failed panicked s1 a (P : A → Prop) :
  cleaning io c s go done failed panicked = Some (s1, a) →
  (∀ c', P (go c')) → (∀ s, P (done s).2) → (∀ s l f, P (failed s l f).2) → P panicked → P a.
Proof.
  unfold cleaning. intros Hcl Hgo Hdone Hfailed Hpanic. destruct (clean_step io c s) as [[s0 [c'|[[l [[]|f]]|]]]|]; simplify_eq; try done.
  - pose proof (Hdone s0) as Hd. by rewrite Hcl in Hd.
  - pose proof (Hfailed s0 l f) as Hd. by rewrite Hcl in Hd.
Qed.
Lemma assembly_done i ctx pc reply s s' : assembly_step wintun_dll i ctx pc reply s = Some (s', A_Done) → sy_assembling s' = false.
Proof.
  intros Hstep. destruct pc; destruct reply; try discriminate Hstep; simpl in Hstep;
    try (by exfalso; revert Hstep; intros Hstep; apply (cleaning_to _ _ _ _ _ _ _ _ _ (λ pc, pc ≠ A_Done)) in Hstep).
  all: unfold preflight, control, login, open_session, ensure_nic, apply_offer, apply_failed, start_plane, install_live in Hstep.
  all: repeat case_match; simplify_eq/=; try done.
  all: try (by apply bind_Some in Hstep as (? & ? & ?)).
Qed.
Lemma busy_step c s s' : sys_step c s = Some s' → inv s → busy s → busy s'.
Proof.
  intros Hstep Hinv Hb. destruct c as [ctx wall| | | |i reply|i mv]; simpl in Hstep; simplify_eq.
  - assert (busy (start_assembly ctx s)) as Hnew.
    { intros _. exists (length (sy_threads s)), (T_Assembly ctx A_Entry). split; [|done]. simpl. by apply list_lookup_middle. }
    unfold start_apply, decide_start_apply, adopt. destruct (sy_assembling s) eqn:Ea; [exact Hb|].
    destruct (is_connected s); [|exact Hnew]. simpl. destruct (sy_live s) as [l|]; [|done]. simpl. destruct (_ && _); [|done].
    destruct (lt_threads l); intros Hs; simpl in Hs; congruence.
  - exact Hb.
  - intros Ha. destruct (Hb Ha) as (j & u & Hu & Hau). exists j, u. split; [|done]. by apply lookup_app_l_Some.
  - intros Ha. destruct (Hb Ha) as (j & u & Hu & Hau). exists j, u. split; [|done]. by apply lookup_app_l_Some.
  - apply bind_Some in Hstep as (t & Ht & ([s1 t'] & Hstep & [= <-])%bind_Some). intros Ha. simpl in Ha.
    pose proof (thread_moves wintun_dll i s s1 t t' reply Hinv Ht Hstep) as Hmv.
    destruct (mv_threads _ _ _ _ _ Hmv) as (more & Hts & _).
    assert (Has : sy_assembling s = true) by (destruct (mv_assembling _ _ _ _ _ Hmv) as [<-|(_ & _ & ?)]; [done|congruence]).
    destruct (Hb Has) as (j & u & Hu & Hau). simpl. rewrite Hts. destruct (decide (j = i)) as [->|Hne].
    + assert (u = t) as -> by congruence. exists i, t'.
      rewrite list_lookup_insert_eq by (rewrite length_app; apply lookup_lt_Some in Ht; lia). split; [done|].
      destruct t as [ctx pc| |]; try done. cbn [thread_step] in Hstep. apply bind_Some in Hstep as ([s2 pc'] & Hstep & [= -> <-]).
      destruct pc'; try done. apply assembly_done in Hstep. simpl in Hstep. congruence.
    + exists j, u. split; [|done]. rewrite list_lookup_insert_ne by done. by apply lookup_app_l_Some.
  - apply bind_Some in Hstep as (g & Hg & Hm). destruct mv, (gr_claimed g) as [[op []]|]; try done;
      repeat case_match; simplify_eq/=; try exact Hb.
    intros Ha. destruct (Hb Ha) as (j & u & Hu & Hau). exists j, (send_lost i (gr_generation g) u). simpl.
    rewrite list_lookup_fmap, Hu. split; [done|]. by rewrite (proj1 (proj2 (send_lost_stands _ _ _))).
Qed.
Lemma busy_runs cs s s' : sys_run wintun_dll cs s = Some s' → inv s → busy s → busy s'.
Proof.
  revert s. induction cs as [|c cs IH]; simpl; intros s Hrun Hinv Hb; [by simplify_eq|].
  apply bind_Some in Hrun as (s1 & Hstep & Hrun). eauto using inv_step, busy_step.
Qed.

(** What a thread that cannot go on waits for: the lock, workers that tell of a loss, the
    loss of its connection, or nothing any more. *)
Definition wants_lock t : bool :=
  match t with
  | T_Assembly _ A_LockPrevious | T_Assembly _ (A_LockResources _) | T_Caller _ D_Lock | T_Sweeper _ _ (S_Lock _) => true
  | _ => false
  end.
Definition joins t : option LiveTunnel :=
  match t with
  | T_Assembly _ (A_CleanPrevious (C_Join l)) | T_Assembly _ (A_CleanOld _ (C_Join l))
  | T_Assembly _ (A_CleanRetain (C_Join l) _ _) | T_Caller _ (D_Clean (C_Join l)) | T_Sweeper _ _ (S_Clean _ (C_Join l)) => Some l
  | _ => None
  end.
Definition over s t : bool :=
  match t with
  | T_Assembly _ A_Done | T_Caller _ (D_Done _ | D_Panicked) | T_Sweeper _ _ S_Gone => true
  | T_Sweeper k [] S_Wait => negb (silent k s)
  | _ => false
  end.
Definition waits s t : Prop :=
  (wants_lock t = true ∧ is_Some (sy_resources s)) ∨ (∃ l, joins t = Some l ∧ joinable (lt_threads l) s = false) ∨ over s t = true.

Lemma cleaning_goes {A} io c s (go : Cleaning → A) done failed panicked :
  (∀ l, c = C_Join l → joinable (lt_threads l) s = true) → ∃ p, cleaning io c s go done failed panicked = Some p.
Proof.
  intros Hj. unfold cleaning. destruct c as [l|l]; simpl; [eauto|]. rewrite (Hj l eq_refl).
  destruct (lt_route l); [|eauto]. destruct (tp_clear _ _ _) as [[[m o] [[]|f]]|]; eauto.
Qed.
(** An answer every point can go on with. *)
Definition answer (io : Io) t : Reply :=
  match t with
  | T_Assembly _ (A_CleanPrevious _ | A_CleanOld _ _ | A_Apply _ _ | A_CleanRetain _ _ _) => Rp_Io io
  | T_Assembly _ A_Preflight => Rp_Load [] (λ _, Ok ())
  | T_Assembly _ (A_Control _) => Rp_Control (MkControlReply None (MkAnswers 0 0 []) true None)
  | T_Assembly _ (A_Login _ _ _ _) => Rp_Login (Ok ())
  | T_Assembly _ (A_Session _ _ _ _ _) => Rp_Session (Err Session_WriteFailed)
  | T_Assembly _ (A_Nic _) => Rp_Nic (Err (NativeError_from_win32 5 ""))
  | T_Assembly _ (A_Applied _ _ _) => Rp_Plane false
  | T_Assembly _ (A_Install _) => Rp_Commit None io
  | T_Caller _ (D_Clean _) | T_Sweeper _ _ (S_Clean _ _) => Rp_Io io
  | _ => Rp_Go
  end.
Lemma step_some {A B} (o : option A) (f : A → B) : (∃ p, o = Some p) → ∃ q, (p ← o; Some (f p)) = Some q.
Proof. intros [p ->]. by exists (f p). Qed.
Lemma acquire_goes {A} i s (f : Sys → A) : sy_resources s = None → ∃ p, (s ← acquire i s; Some (f s)) = Some p.
Proof. unfold acquire. intros ->. by eexists. Qed.
Lemma goes (io : Io) i s t : inv s → ¬ waits s t → ∃ p, thread_step wintun_dll i t (answer io t) s = Some p.
Proof.
  intros Hinv Hw.
  assert (Hlock : wants_lock t = true → sy_resources s = None).
  { intros Hl. destruct (sy_resources s) eqn:Er; [|done]. destruct Hw. left. by rewrite Er. }
  assert (Hj : ∀ l, joins t = Some l → joinable (lt_threads l) s = true).
  { intros l Hl. destruct (joinable (lt_threads l) s) eqn:Ej; [done|]. destruct Hw. right; left. eauto. }
  assert (Ho : over s t = false) by (destruct (over s t) eqn:Eo; [destruct Hw; by right; right|done]).
  destruct t as [ctx pc|td pc|g q pc]; cbn [thread_step]; apply step_some.
  - destruct pc; simpl; try done; try by eexists.
    all: try (apply cleaning_goes; intros l ->; by apply Hj).
    all: try (destruct (sy_poisoned s); [by eexists|by apply acquire_goes, Hlock]).
    destruct (retry_pending_routes s). by eexists.
  - destruct pc; simpl; try done; try by eexists.
    all: try (apply cleaning_goes; intros l ->; by apply Hj).
    all: try (destruct (sy_poisoned s); [by eexists|by apply acquire_goes, Hlock]).
    destruct (retry_pending_routes s). by eexists.
  - destruct pc; simpl; try done; try by eexists.
    all: try (apply cleaning_goes; intros l ->; by apply Hj).
    all: try (destruct (sy_poisoned s); [by eexists|by apply acquire_goes, Hlock]).
    2: by destruct q.
    destruct q; [|by eexists]. simpl in Ho. apply negb_false_iff in Ho. rewrite Ho. by eexists.
Qed.

(** Nothing is left that has to happen. *)
Definition at_rest s : Prop := ∀ c, due c = true → sys_step c s = None.
Definition settled s : Prop :=
  sy_resources s = None ∧ is_assembling s = false ∧ (∀ i t, sy_threads s !! i = Some t → over s t = true) ∧
  ∀ k g, sy_groups s !! k = Some g → gr_claimed g = None.

Lemma rest_waits `{!Inhabited Io} s i t : inv s → at_rest s → sy_threads s !! i = Some t → waits s t.
Proof.
  intros Hinv Hr Hi. assert (¬ ¬ waits s t) as Hnn.
  { intros Hw. destruct (goes inhabitant i s t Hinv Hw) as [p Hp].
    pose proof (Hr (Ch_Run i (answer inhabitant t)) eq_refl) as Hn. simpl in Hn. rewrite Hi in Hn. simpl in Hn. by rewrite Hp in Hn. }
  unfold waits in *. destruct (sy_resources s) as [r|] eqn:Er, (wants_lock t) eqn:Ew, (over s t) eqn:Eo; auto.
  all: try (left; split; eauto; done).
  all: right; left; destruct (joins t) as [l|] eqn:Ej; [destruct (joinable (lt_threads l) s) eqn:Ea; [|by eauto]|];
    destruct Hnn; intros [[? ?]|[(l' & ? & ?)|?]]; simplify_eq; try congruence; destruct (is_Some_None (A:=nat)); eauto.
Qed.
Lemma rest_unclaimed s k g : at_rest s → sy_groups s !! k = Some g → gr_claimed g = None.
Proof.
  intros Hr Hk. destruct (gr_claimed g) as [[op []]|] eqn:Ec; [| |done].
  - pose proof (Hr (Ch_Worker k W_Tell) eq_refl) as Hn. simpl in Hn. unfold worker_move in Hn. rewrite Hk in Hn. simpl in Hn. by rewrite Ec in Hn.
  - pose proof (Hr (Ch_Worker k W_Signal) eq_refl) as Hn. simpl in Hn. unfold worker_move in Hn. rewrite Hk in Hn. simpl in Hn. by rewrite Ec in Hn.
Qed.
(** Conversely, when every thread is through and no loss is being told of, nothing more has to
    happen. *)
Lemma over_stuck i t reply s : over s t = true → thread_step wintun_dll i t reply s = None.
Proof.
  destruct t as [ctx []|td []|k [] []]; try done; destruct reply; try done. simpl. intros Hs%negb_true_iff. by rewrite Hs.
Qed.
Definition quiescent s : bool :=
  forallb (over s) (sy_threads s) && forallb (λ g, bool_decide (gr_claimed g = None)) (sy_groups s).
Lemma quiescent_rest s : quiescent s = true → at_rest s.
Proof.
  intros [Ht Hg]%andb_true_iff c Hc. rewrite forallb_forall in Ht, Hg. destruct c as [| | | |i reply|i mv]; try done; simpl.
  - destruct (sy_threads s !! i) as [t|] eqn:Hi; [|done]. simpl.
    rewrite over_stuck; [done|]. apply Ht, list_elem_of_In. by eapply list_elem_of_lookup_2.
  - unfold worker_move. destruct (sy_groups s !! i) as [g|] eqn:Hi; [|done]. simpl.
    assert (gr_claimed g = None) as ->; [|by destruct mv].
    apply (bool_decide_eq_true (gr_claimed g = None)), Hg, list_elem_of_In. by eapply list_elem_of_lookup_2.
Qed.
Lemma rest_settled `{!Inhabited Io} s : inv s → busy s → at_rest s → settled s.
Proof.
  intros Hinv Hb Hr. pose proof (rest_unclaimed s) as Hcl.
  assert (Hjoin : ∀ l, joinable (lt_threads l) s = true).
  { intros l. unfold joinable, group_of. destruct (lt_threads l) as [k|]; [|done]. simpl. destruct (sy_groups s !! k) eqn:Hk; [|done].
    by rewrite (Hcl k g Hr Hk). }
  assert (Hfree : sy_resources s = None).
  { destruct (sy_resources s) as [i|] eqn:Er; [|done]. destruct (inv_holder _ Hinv i Er) as [t Hi].
    pose proof (proj2 (inv_lock _ Hinv i t Hi) Er) as Hh.
    destruct (rest_waits s i t Hinv Hr Hi) as [[Hw _]|[(l & _ & Hj)|Ho]]; [| |].
    - by destruct t as [? []|? []|? [] []].
    - by rewrite Hjoin in Hj.
    - by destruct t as [? []|? []|? [] []]. }
  assert (Hover : ∀ i t, sy_threads s !! i = Some t → over s t = true).
  { intros i t Hi. destruct (rest_waits s i t Hinv Hr Hi) as [[_ [? Hw]]|[(l & _ & Hj)|Ho]]; [congruence| |done].
    by rewrite Hjoin in Hj. }
  split_and!; [done| |done|eauto]. unfold is_assembling. destruct (sy_assembling s) eqn:Ea; [|done].
  destruct (Hb Ea) as (i & t & Hi & Ha). specialize (Hover i t Hi). by destruct t as [? []| |].
Qed.

(** ** A loss is swept *)

(** A sweeper of the group is there, and a loss is on its way to it. *)
Definition watched s (k : nat) (g : Group) : Prop :=
  ∃ j q pc, sy_threads s !! j = Some (T_Sweeper k q pc) ∧ pc ≠ S_Gone ∧
    (gr_alive g = false → (∃ op, gr_claimed g = Some (op, false)) ∨ N.of_nat (S k) ∈ signals (T_Sweeper k q pc)).
Definition installs s (k : nat) : Prop := ∃ j t op, sy_threads s !! j = Some t ∧ installing t = Some (Some k, op).
Definition swept s : Prop :=
  sy_poisoned s = false → ∀ k g, sy_groups s !! k = Some g →
    (threads_of (sy_live s) = Some k → gr_activated g = true ∧ watched s k g) ∧
    (installs s k → gr_alive g = true → watched s k g).

Lemma cleaning_lives {A} io c s (go : Cleaning → A) done failed panicked s1 a :
  cleaning io c s go done failed panicked = Some (s1, a) → sy_live s = None →
  (∀ s0, sy_live (done s0).1 = sy_live s0) →
  (∀ s0 l f, lt_threads l = None → threads_of (sy_live (failed s0 l f).1) = None) → threads_of (sy_live s1) = None.
Proof.
  unfold cleaning. intros Hcl El Hdone Hfailed. destruct (clean_step io c s) as [[s0 r]|] eqn:Ec; [|done].
  destruct (clean_losses _ _ _ _ _ Ec) as (_ & El0 & Hr). rewrite El in El0.
  destruct r as [c'|[[l [[]|f]]|]]; simplify_eq/=.
  - by rewrite El0.
  - pose proof (Hdone s0) as Hd. rewrite Hcl in Hd. simpl in Hd. by rewrite Hd, El0.
  - pose proof (Hfailed s0 l f Hr) as Hd. by rewrite Hcl in Hd.
  - by rewrite El0.
Qed.

(** A tunnel with threads is in place because it was, or because it is being installed. *)
Lemma caller_lives i s s' td pc pc' reply k : caller_step i td pc reply s = Some (s', pc') →
  (∀ l, kind (T_Caller td pc) = K_Carry l → sy_live s = None) →
  threads_of (sy_live s') = Some k → threads_of (sy_live s) = Some k ∧ sy_groups s' = sy_groups s.
Proof.
  intros Hstep Hc. destruct pc, reply; try discriminate Hstep; simpl in Hstep.
  - by simplify_eq/=.
  - destruct (sy_poisoned s); [by simplify_eq|]. by apply bind_Some in Hstep as (s1 & [_ ->]%acquire_some & [= <- <-]).
  - destruct (sy_live s) eqn:El; simplify_eq/=; [done|]. by rewrite El.
  - intros Hk. assert (threads_of (sy_live s') = None); [|congruence].
    eapply cleaning_lives; [exact Hstep|by eapply Hc|done|done].
  - unfold retry_pending_routes in Hstep. destruct (retry_groups _ _) as [[m pending] []], td; by simplify_eq/=.
  - by simplify_eq/=.
Qed.
Lemma sweeper_lives i s s' g q pc q' pc' reply k : sweeper_step i g q pc reply s = Some (s', (q', pc')) →
  (∀ l, kind (T_Sweeper g q pc) = K_Carry l → sy_live s = None) →
  threads_of (sy_live s') = Some k → threads_of (sy_live s) = Some k ∧ sy_groups s' = sy_groups s.
Proof.
  intros Hstep Hc. destruct pc, reply; try discriminate Hstep; simpl in Hstep.
  - destruct q; [destruct (silent g s)|]; by simplify_eq/=.
  - destruct (sy_poisoned s); [by simplify_eq|]. by apply bind_Some in Hstep as (s1 & [_ ->]%acquire_some & [= <- <- <-]).
  - destruct (negb _); by simplify_eq/=.
  - destruct (negb _); [by simplify_eq|]. destruct (sy_live s) eqn:El; simplify_eq/=; [done|]. by rewrite El.
  - intros Hk. assert (threads_of (sy_live s') = None); [|congruence].
    eapply cleaning_lives; [exact Hstep|by eapply Hc|done|done].
Qed.
Lemma assembly_lives i s s' ctx pc pc' reply k : assembly_step wintun_dll i ctx pc reply s = Some (s', pc') →
  (∀ l, kind (T_Assembly ctx pc) = K_Carry l → sy_live s = None) → (∀ d c, pc ≠ A_CleanOld d c) →
  threads_of (sy_live s') = Some k →
  (threads_of (sy_live s) = Some k ∧ sy_groups s' = sy_groups s) ∨
  ∃ l g, pc = A_Install l ∧ lt_threads l = Some k ∧ sy_groups s !! k = Some g ∧ gr_alive g = true ∧
    sy_groups s' = alter activate_group k (sy_groups s) ∧ sy_threads s' = sy_threads s.
Proof.
  intros Hstep Hc Hold Hk. destruct pc; destruct reply; try discriminate Hstep; simpl in Hstep.
  19: { unfold install_live in Hstep. destruct (sy_cancel s); [simplify_eq; by left|].
        destruct (group_alive (lt_threads l) s) eqn:Ea; simpl in Hstep; [|simplify_eq; by left].
        rewrite put_live_none in Hstep by (by eapply Hc). injection Hstep as <- <-. right.
        destruct (group_alive_some _ _ Ea) as (k' & g & Ek & Hg & Hal). rewrite Ek in Hk |- *. simpl in Hk.
        assert (k' = k) as -> by congruence. by exists l, g. }
  13: { by destruct (Hold d c). }
  all: left.
  all: try (assert (threads_of (sy_live s') = None); [|congruence]; eapply cleaning_lives;
            [exact Hstep|by eapply Hc|by try destruct close_nic|done]).
  15: { unfold spawn_workers in Hstep. simplify_eq/=. by rewrite (Hc _ eq_refl) in Hk. }
  all: unfold retry_pending_routes, preflight, control, ensure_nic, apply_offer, apply_failed, start_plane, acquire in Hstep.
  all: repeat case_match; simplify_eq/=; try done.
  all: match goal with E : sy_live _ = None |- _ => by rewrite E in Hk end.
Qed.
Lemma carry_live i s t l : inv s → sy_threads s !! i = Some t → kind t = K_Carry l → sy_live s = None.
Proof.
  intros Hinv Hi Hk. destruct (carry_of t l Hk) as [_ Hh]. pose proof (holder_calm i s t Hinv Hi Hh) as Hp.
  pose proof (inv_good _ Hinv i t Hp Hi Hh) as Hg. rewrite Hk in Hg. by destruct Hg.
Qed.
Lemma thread_lives i s s' t t' reply k : inv s → sy_threads s !! i = Some t →
  thread_step wintun_dll i t reply s = Some (s', t') → threads_of (sy_live s') = Some k →
  (threads_of (sy_live s) = Some k ∧ sy_groups s' = sy_groups s) ∨
  ∃ g op, installing t = Some (Some k, op) ∧ sy_groups s !! k = Some g ∧ gr_alive g = true ∧
    sy_groups s' = alter activate_group k (sy_groups s) ∧ sy_threads s' = sy_threads s.
Proof.
  intros Hinv Hi Hstep Hk. pose proof (carry_live i s t) as Hc.
  destruct t as [ctx pc|td pc|g q pc]; cbn [thread_step] in Hstep; apply bind_Some in Hstep as ([s1 x] & Hstep & [= <- <-]); simpl in Hk.
  - destruct (assembly_lives i s s1 ctx pc x reply k Hstep) as [?|(l & g & -> & El & Hg & Ha & E & Et)]; [by intros l; apply Hc| |done|by left|].
    + intros d c ->. assert (holds (T_Assembly ctx (A_CleanOld d c)) = true) as Hh by done.
      exact (inv_good _ Hinv i _ (holder_calm i s _ Hinv Hi Hh) Hi Hh).
    + right. exists g, (cx_operation_id ctx). simpl. by rewrite El.
  - left. eapply caller_lives; [exact Hstep|by intros l; apply Hc|done].
  - left. destruct x as [q1 pc1]. eapply sweeper_lives; [exact Hstep|by intros l; apply Hc|done].
Qed.

(** A sweeper drops a signal only when it is about another connection. *)
Lemma sweeper_watches i s s' k q pc q' pc' reply :
  sweeper_step i k q pc reply s = Some (s', (q', pc')) → sy_poisoned s' = false → pc ≠ S_Gone →
  sy_generation s = N.of_nat (S k) → threads_of (sy_live s) = Some k ∨ holds (T_Sweeper k q pc) = false →
  (∀ l, kind (T_Sweeper k q pc) = K_Carry l → sy_live s = None) → threads_of (sy_live s) = threads_of (sy_live s') →
  (pc' = S_Gone → q = [] ∧ pc = S_Wait ∧ silent k s = true) ∧
  (N.of_nat (S k) ∈ signals (T_Sweeper k q pc) → N.of_nat (S k) ∈ signals (T_Sweeper k q' pc')).
Proof.
  intros Hstep Hp Hpc Hgen Hlive Hc Hl. destruct pc as [|lost|lost|lost|lost c|], reply; try discriminate Hstep; simpl in Hstep.
  - destruct q as [|x q]; [destruct (silent k s) eqn:Es|]; simplify_eq/=; [done|]. split; [done|set_solver].
  - destruct (sy_poisoned s) eqn:Ep; [simplify_eq; congruence|].
    apply bind_Some in Hstep as (s1 & [_ ->]%acquire_some & [= <- <- <-]). done.
  - destruct (N.eqb_spec lost (sy_generation s)); simpl in Hstep; simplify_eq/=; [done|]. split; [done|]. set_solver.
  - destruct Hlive as [Hlive|?]; [|done].
    destruct (N.eqb_spec lost (sy_generation s)); simpl in Hstep; [|simplify_eq/=; split; [done|set_solver]].
    destruct (sy_live s) as [l|] eqn:El; simplify_eq/=.
  - destruct Hlive as [Hlive|?]; [|done]. by rewrite (Hc _ eq_refl) in Hlive.
Qed.
Lemma watched_thread i s s' t t' reply k g g' :
  inv s → loss_inv s → sy_threads s !! i = Some t → thread_step wintun_dll i t reply s = Some (s', t') →
  sy_threads s' = sy_threads s → sy_poisoned s' = false → S k = length (sy_groups s) → sy_groups s !! k = Some g →
  (∀ q pc, t = T_Sweeper k q pc → threads_of (sy_live s) = threads_of (sy_live s') ∧
     (threads_of (sy_live s) = Some k ∨ holds t = false)) →
  gr_alive g' = gr_alive g → gr_claimed g' = gr_claimed g → watched s k g →
  watched (with_threads (<[i := t']> (sy_threads s')) s') k g'.
Proof.
  intros Hinv Hl Hi Hstep Ets Hp Hlast Hk Hlive Ea Ec (j & q & pc & Hj & Hpc & Hs). unfold watched. simpl. rewrite Ea, Ec, Ets.
  destruct (decide (j = i)) as [->|Hne].
  2:{ exists j, q, pc. by rewrite list_lookup_insert_ne. }
  assert (t = T_Sweeper k q pc) as -> by congruence. destruct (Hlive q pc eq_refl) as [El Hk'].
  cbn [thread_step] in Hstep. apply bind_Some in Hstep as ([s1 [q' pc']] & Hstep & [= -> <-]). cbn [fst snd].
  destruct (sweeper_watches i s s' k q pc q' pc' reply Hstep Hp Hpc) as [Hg Hsig]; [|done|by intros l; apply (carry_live i s _ l)|done|].
  { by rewrite (li_generation _ Hl), <-Hlast. }
  exists i, q', pc'. rewrite list_lookup_insert_eq by (by eapply lookup_lt_Some). split_and!; [done| |].
  - intros ->. destruct (Hg eq_refl) as (-> & -> & Hsil). unfold silent in Hsil. rewrite Hk in Hsil.
    apply andb_true_iff in Hsil as [Hd%negb_true_iff Hcl%bool_decide_eq_true].
    destruct (Hs Hd) as [[op ?]|Hin]; [congruence|]. by apply not_elem_of_nil in Hin.
  - intros Hd. destruct (Hs Hd); auto.
Qed.
Lemma installs_holds s j t k op : sy_threads s !! j = Some t → installing t = Some (k, op) → holds t = true ∧ ∀ c q pc, t ≠ T_Sweeper c q pc.
Proof. intros Hj Hin. by destruct t as [? []| |]. Qed.
Lemma installs_tunnel s k : installs s k → tunnel_of s k.
Proof.
  intros (j & t & op & Hj & Hin). right. exists j, t. split; [done|]. destruct t as [? []| |]; try done. by simplify_eq/=.
Qed.

Lemma swept_spawn i s ctx route : inv s → sy_threads s !! i = Some (T_Assembly ctx (A_Generation route)) →
  let out := spawn_workers ctx route s in
  swept (with_threads (<[i := T_Assembly ctx out.2]> (sy_threads out.1)) out.1).
Proof.
  intros Hinv Hi out _ k g Hk. pose proof (carry_live i s _ _ Hinv Hi eq_refl) as El. split; simpl; [by rewrite El|].
  intros (j & u & op & Hj & Hin) Hal. simpl in Hj. set (v := T_Sweeper (length (sy_groups s)) [] S_Wait).
  assert (k = length (sy_groups s)) as ->.
  { destruct (after_lookup i s out.1 _ [v] j u eq_refl ltac:(eauto) Hj) as [[-> ->]|[[Hne Hu]|(_ & _ & Hu)]].
    - by simplify_eq/=.
    - destruct Hne. apply (inv_single _ Hinv j i u _ Hu Hi); [|done]. by destruct u as [? []| |].
    - by apply list_elem_of_singleton in Hu as ->. }
  exists (length (sy_threads s)), [], S_Wait. split_and!; [|done|congruence]. simpl.
  pose proof (lookup_lt_Some _ _ _ Hi). rewrite list_lookup_insert_ne by lia. by apply list_lookup_middle.
Qed.
Lemma swept_thread i s s' t t' reply :
  inv s → loss_inv s → swept s → sy_threads s !! i = Some t → thread_step wintun_dll i t reply s = Some (s', t') →
  swept (with_threads (<[i := t']> (sy_threads s')) s').
Proof.
  intros Hinv Hl Hsw Hi Hstep Hp k g' Hk'. simpl in Hp, Hk'.
  pose proof (thread_moves wintun_dll i s s' t t' reply Hinv Hi Hstep) as Hmv.
  assert (Hp0 : sy_poisoned s = false) by (destruct (sy_poisoned s) eqn:E; [by rewrite (mv_poison _ _ _ _ _ Hmv) in Hp|done]).
  destruct (thread_losses wintun_dll i s s' t t' reply Hinv Hi Hstep) as [(ctx & route & -> & -> & ->)|Hlm].
  - by apply swept_spawn.
  - destruct (groups_le_lookup _ _ _ _ (lm_groups _ _ _ _ Hlm) Hk') as (g & Hk & (_ & Ha & _ & Hact)).
    destruct (operation_kept s s' k g (lm_operations _ _ _ _ Hlm) Hk) as (g0 & Hk0 & _ & Ec). assert (g0 = g') as -> by congruence.
    pose proof (lm_threads _ _ _ _ Hlm) as Ets. destruct (Hsw Hp0 k g Hk) as [Hlive Hinst]. split; simpl.
    + intros Hk2. destruct (thread_lives i s s' t t' reply k Hinv Hi Hstep Hk2) as [[Hk1 Eg]|(g1 & op & Hin & Hg1 & Hal & Eg & _)].
      * destruct (Hlive Hk1) as [Hac Hw]. split; [auto|]. assert (g' = g) as -> by congruence.
        eapply (watched_thread i s s'); [done..| |exact Hk| |done|done|exact Hw].
        -- apply (li_last _ Hl). by left.
        -- intros q pc _. split; [congruence|by left].
      * assert (g1 = g) as -> by congruence. rewrite Eg, list_lookup_alter_eq, Hk in Hk'. simplify_eq/=. split; [done|].
        assert (installs s k) as Hi2 by (exists i, t, op; done).
        eapply (watched_thread i s s'); [done..| |exact Hk| |done|done|by apply Hinst].
        -- by apply (li_last _ Hl), installs_tunnel.
        -- intros q pc ->. done.
    + intros (j & u & op & Hj & Hin) Hal. pose proof (Ha Hal) as Hal0. simpl in Hj. rewrite Ets in Hj.
      assert (∃ v, sy_threads s !! j = Some v ∧ installing v = Some (Some k, op)) as (v & Hv & Hvi).
      { apply list_lookup_insert_Some in Hj as [(-> & -> & _)|[_ Hj]]; [|eauto]. exists t. split; [done|].
        by destruct (lm_installing _ _ _ _ Hlm) as [E|E]; rewrite E in Hin. }
      assert (installs s k) as Hi2 by (exists j, v, op; done).
      eapply (watched_thread i s s'); [done..| |exact Hk| |congruence|done|by apply Hinst].
      * by apply (li_last _ Hl), installs_tunnel.
      * intros q pc ->. destruct (installs_holds s j v _ op Hv Hvi) as [Hh Hno].
        assert (holds (T_Sweeper k q pc) = false) as Hnh.
        { destruct (holds (T_Sweeper k q pc)) eqn:Ht; [|done]. apply (inv_lock _ Hinv i _ Hi) in Ht.
          apply (inv_lock _ Hinv j v Hv) in Hh. assert (i = j) as -> by congruence. by destruct (Hno k q pc); congruence. }
        split; [|by right]. pose proof (mv_resources _ _ _ _ _ Hmv Hp) as Hr. unfold resource_move in Hr. rewrite Hnh in Hr.
        destruct Hr as [Er _]. by rewrite Er.
Qed.

(** What happens beside the threads. *)
Lemma swept_beside s s' (f : Thread → Thread) more :
  sy_threads s' = (f <$> sy_threads s) ++ more → (∀ t, installing (f t) = installing t) →
  Forall (λ t, installing t = None) more →
  (∀ c q pc, pc ≠ S_Gone → ∃ q', f (T_Sweeper c q pc) = T_Sweeper c q' pc) →
  sy_live s' = sy_live s → sy_poisoned s' = sy_poisoned s →
  (∀ k g', sy_groups s' !! k = Some g' → ∃ g, sy_groups s !! k = Some g ∧ group_le g g' ∧
     (gr_activated g = true ∨ gr_alive g' = true → ∀ q pc,
        (gr_alive g = false → (∃ op, gr_claimed g = Some (op, false)) ∨ N.of_nat (S k) ∈ signals (T_Sweeper k q pc)) →
        pc ≠ S_Gone → gr_alive g' = false → (∃ op, gr_claimed g' = Some (op, false)) ∨ N.of_nat (S k) ∈ signals (f (T_Sweeper k q pc)))) →
  swept s → swept s'.
Proof.
  intros Ets Hf Hmore Hsw El Ep Hg Hs Hp k g' Hk'. rewrite Ep in Hp. destruct (Hg k g' Hk') as (g & Hk & (_ & Ha & _ & Hact) & Hsig).
  destruct (Hs Hp k g Hk) as [Hlive Hinst].
  assert (Hw : gr_activated g = true ∨ gr_alive g' = true → watched s k g → watched s' k g').
  { intros Hor (j & q & pc & Hj & Hpc & Hw). destruct (Hsw k q pc Hpc) as (q' & E). exists j, q', pc.
    split_and!; [|done|rewrite <-E; by apply Hsig].
    rewrite Ets, lookup_app_l, list_lookup_fmap, Hj by (rewrite length_fmap; by eapply lookup_lt_Some). simpl. by rewrite E. }
  split.
  - rewrite El. intros Hk2. destruct (Hlive Hk2) as [Hac Hwk]. split; [auto|]. apply Hw; auto.
  - intros (j & u & op & Hj & Hin) Hal. apply Hw; [by right|]. apply Hinst; [|auto].
    rewrite Ets in Hj. apply lookup_app_Some in Hj as [Hj|[_ Hj]].
    + rewrite list_lookup_fmap in Hj. apply fmap_Some in Hj as (v & Hv & ->). exists j, v, op. by rewrite <-(Hf v).
    + pose proof (proj1 (Forall_lookup _ _) Hmore _ _ Hj) as Hn. simpl in Hn. congruence.
Qed.
Lemma swept_same s s' more : sy_threads s' = sy_threads s ++ more → Forall (λ t, installing t = None) more →
  sy_live s' = sy_live s → sy_poisoned s' = sy_poisoned s → sy_groups s' = sy_groups s → swept s → swept s'.
Proof.
  intros Ets Hm El Ep Eg. apply (swept_beside s s' id more); try done; [by rewrite list_fmap_id|eauto|].
  intros k g' Hk. rewrite Eg in Hk. exists g'. split_and!; [done|done|auto].
Qed.
Lemma send_lost_keeps k x c q pc : pc ≠ S_Gone → ∃ q', send_lost k x (T_Sweeper c q pc) = T_Sweeper c q' pc ∧
  (∀ y, y ∈ signals (T_Sweeper c q pc) → y ∈ signals (T_Sweeper c q' pc)) ∧ (c = k → x ∈ signals (T_Sweeper c q' pc)).
Proof.
  intros Hpc. exists (if bool_decide (c = k) then q ++ [x] else q). split_and!.
  - destruct pc; try done; simpl; by case_bool_decide.
  - intros y. simpl. case_bool_decide; [|done]. set_solver.
  - intros ->. simpl. rewrite bool_decide_eq_true_2 by done. set_solver.
Qed.
Lemma swept_worker i mv s s' : worker_move i mv s = Some s' → loss_inv s → swept s → swept s'.
Proof.
  intros (g & Hg & Hm)%bind_Some Hl Hs. pose proof (li_groups _ Hl i g Hg) as Hgen. pose proof (li_claimed _ Hl i g Hg) as Hcl.
  assert (Hal : ∀ h f s', sy_threads s' = f <$> sy_threads s → sy_groups s' = alter h i (sy_groups s) →
    sy_live s' = sy_live s → sy_poisoned s' = sy_poisoned s →
    (∀ c q pc, pc ≠ S_Gone → ∃ q', f (T_Sweeper c q pc) = T_Sweeper c q' pc ∧
       ∀ y, y ∈ signals (T_Sweeper c q pc) → y ∈ signals (T_Sweeper c q' pc)) →
    (∀ t, installing (f t) = installing t) → group_le g (h g) →
    (gr_activated g = true ∨ gr_alive (h g) = true → ∀ q pc,
        (gr_alive g = false → (∃ op, gr_claimed g = Some (op, false)) ∨ gr_generation g ∈ signals (T_Sweeper i q pc)) →
        pc ≠ S_Gone → (∃ op, gr_claimed (h g) = Some (op, false)) ∨ gr_generation g ∈ signals (f (T_Sweeper i q pc))) → swept s').
  { intros h f s1 Et Eg El Ep Hkeep Hinst Hle Hown. apply (swept_beside s s1 f []); try done; [by rewrite app_nil_r| |].
    - intros c q pc Hpc. destruct (Hkeep c q pc Hpc) as (q' & ? & _). eauto.
    - intros k g' Hk. rewrite Eg in Hk. destruct (decide (i = k)) as [->|Hne].
      + rewrite list_lookup_alter_eq, Hg in Hk. simplify_eq/=. exists g. rewrite <-Hgen. split_and!; [done..|]. naive_solver.
      + rewrite list_lookup_alter_ne in Hk by done. exists g'. split_and!; [done|done|]. intros _ q pc Hw Hpc Hd.
        destruct (Hw Hd); [by left|right]. destruct (Hkeep k q pc Hpc) as (q' & -> & Hsub). auto. }
  assert (Hid : sy_threads s = id <$> sy_threads s) by (by rewrite list_fmap_id).
  destruct mv, (gr_claimed g) as [[op []]|] eqn:Ec; try done.
  - destruct (gr_alive g) eqn:Ea; [|done]. destruct (gr_activated g) eqn:Eac; simplify_eq/=.
    apply (Hal stop_group id); try done; [eauto|]. by intros [?|?].
  - destruct (gr_alive g) eqn:Ea; [|done]. destruct (gr_activated g) eqn:Eac; simplify_eq/=.
    apply (Hal (set_claimed (Some (gr_operation g, false))) id); try done; [eauto| |intros; left; eauto].
    split_and!; [done|done|by left|done].
  - simplify_eq/=. apply (Hal (set_claimed (Some (op, true))) (send_lost i (gr_generation g))); try done.
    + intros c q pc Hpc. destruct (send_lost_keeps i (gr_generation g) c q pc Hpc) as (q' & ? & ? & _). eauto.
    + intros t. by apply send_lost_carries.
    + split_and!; [done|done|by left|done].
    + intros _ q pc _ Hpc. right. destruct (send_lost_keeps i (gr_generation g) i q pc Hpc) as (q' & -> & _ & Hx). auto.
  - simplify_eq/=. apply (Hal (set_claimed None) id); try done; [eauto|].
    intros _ q pc Hw Hpc. destruct (Hw (Hcl ltac:(done))) as [[? ?]|?]; [done|by right].
Qed.
Lemma swept_step c s s' : sys_step c s = Some s' → inv s → loss_inv s → swept s → swept s'.
Proof.
  intros Hstep Hinv Hl Hs. destruct c as [ctx wall| | | |i reply|i mv]; simpl in Hstep; simplify_eq.
  - assert (swept (start_assembly ctx s)) as Hnew by (by apply (swept_same s _ [T_Assembly ctx A_Entry]); try done; apply Forall_singleton).
    unfold start_apply, decide_start_apply, adopt. destruct (sy_assembling s); [done|].
    destruct (is_connected s); [|done]. simpl. destruct (sy_live s) as [l|] eqn:El; [|done]. simpl. destruct (_ && _); [|done].
    destruct (lt_threads l) as [k|]; [|by apply (swept_same s _ []); rewrite ?app_nil_r].
    apply (swept_beside s _ id []); simpl; try done; [by rewrite list_fmap_id, app_nil_r|eauto|].
    intros j g' Hj. destruct (decide (k = j)) as [->|Hne].
    + rewrite list_lookup_alter_eq in Hj. apply fmap_Some in Hj as (g & Hg & ->). exists g. split_and!; [done| |auto].
      split_and!; [done|done|by right|done].
    + rewrite list_lookup_alter_ne in Hj by done. exists g'. split_and!; [done|done|auto].
  - by apply (swept_same s _ []); rewrite ?app_nil_r.
  - by apply (swept_same s _ [T_Caller false D_Begin]); try done; apply Forall_singleton.
  - by apply (swept_same s _ [T_Caller true D_Begin]); try done; apply Forall_singleton.
  - apply bind_Some in Hstep as (t & Ht & ([s1 t'] & Hstep & [= <-])%bind_Some). by apply (swept_thread i s s1 t t' reply).
  - by eapply swept_worker.
Qed.
Lemma swept_runs cs s s' : sys_run wintun_dll cs s = Some s' → inv s → loss_inv s → groups_bounded s' → swept s → swept s'.
Proof.
  revert s. induction cs as [|c cs IH]; simpl; intros s Hrun Hinv Hl Hb Hs; [by simplify_eq|].
  apply bind_Some in Hrun as (s1 & Hstep & Hrun).
  pose proof (inv_step wintun_dll c s s1 Hstep Hinv) as Hinv1. destruct (loss_step wintun_dll c s s1 Hstep Hinv) as [_ Hl1].
  destruct (loss_runs wintun_dll cs s1 s' Hrun Hinv1) as [Hle _].
  assert (groups_bounded s1) as Hb1 by (unfold groups_bounded in *; lia). eauto using swept_step.
Qed.
End Ending.

(** C11: The runtime comes to rest. From any state an engine can be in, its threads and
    workers can take only so many steps before the next call, whatever the system answers
    and however they interleave; and once nothing is left that has to happen, the lock over
    the resources is free, no assembly is under way, every assembly and every caller has
    come to its end, and every sweeper waits for the loss of a connection or is gone. *)
Theorem runtime_settles {M Io} `{TunnelPlatformLaws M Io} `{!Inhabited Io} wintun_dll (m : M) s :
  accounted m [] → reachable (Io:=Io) wintun_dll m s →
  (∀ cs s', forallb internal cs = true → sys_run wintun_dll cs s = Some s' → length cs + work s' ≤ work s) ∧
  (at_rest (Io:=Io) wintun_dll s → settled s).
Proof.
  intros Hm Hr. pose proof (inv_reachable wintun_dll m s Hm Hr) as Hinv. destruct Hr as [cs0 Hr].
  pose proof (inv_new m Hm) as Hnew. split.
  - intros cs s' Hcs Hrun. apply (work_runs wintun_dll cs s s' Hrun Hcs Hinv). by eapply heard_runs.
  - intros Hrest. apply (rest_settled wintun_dll); [done| |done]. by eapply busy_runs.
Qed.

(** C12: No loss goes unnoticed, as long as no thread panicked with the lock and fewer than
    2^64 groups of workers were started. Once nothing is left that has to happen, a tunnel
    that is installed is connected, or it has no threads any more and only its settings are
    left; a connection whose workers died has been taken down by its sweeper, however its
    loss fell between other connections, disconnects and losses. A teardown that closes the
    adapter under a connection being made lets a thread panic with the lock
    ([teardown_poisons]); nothing is claimed from then on. *)
Theorem loss_is_swept {M Io} `{TunnelPlatformLaws M Io} `{!Inhabited Io} wintun_dll (m : M) s l :
  accounted m [] → reachable (Io:=Io) wintun_dll m s → groups_bounded s → at_rest (Io:=Io) wintun_dll s →
  sy_poisoned s = false → sy_live s = Some l → lt_threads l = None ∨ is_connected s = true.
Proof.
  intros Hm Hr Hb Hrest Hp El. pose proof (inv_reachable wintun_dll m s Hm Hr) as Hinv.
  pose proof (loss_reachable wintun_dll m s Hm Hr Hb) as Hl. destruct Hr as [cs0 Hr]. pose proof (inv_new m Hm) as Hnew.
  destruct (rest_settled wintun_dll s Hinv (busy_runs wintun_dll cs0 _ s Hr Hnew ltac:(done)) Hrest) as (_ & _ & Hover & Hcl).
  assert (swept s) as Hsw by (eapply swept_runs; [exact Hr|exact Hnew|apply loss_new|exact Hb|done]).
  destruct (lt_threads l) as [k|] eqn:Ek; [right|by left].
  assert (threads_of (sy_live s) = Some k) as Hk by (by rewrite El).
  assert (k < length (sy_groups s)) as [g Hg]%lookup_lt_is_Some by (rewrite <-(li_last _ Hl k (or_introl Hk)); lia).
  destruct (Hsw Hp k g Hg) as [Hlive _]. destruct (Hlive Hk) as (_ & j & q & pc & Hj & Hpc & Hd).
  unfold is_connected, group_alive, group_of. rewrite El. simpl. rewrite Ek. simpl. rewrite Hg.
  destruct (gr_alive g); [done|]. exfalso. specialize (Hover j _ Hj). rewrite (Hcl k g Hg) in Hd.
  destruct (Hd eq_refl) as [[? ?]|Hin]; [done|]. destruct q as [|x q], pc; try done. by apply not_elem_of_nil in Hin.
Qed.
