(* ===== verification/EngineRuntimeNet.v ===== *)
(** * The network settings the tunnel runtime is run on

    What [RouteOwner] makes of the class [TunnelPlatform] of [EngineRuntime], and that it
    keeps what the class promises; with runs of the runtime on it, and on the simulated
    network of [IpHelper]. *)

From Stdlib Require Import NArith ZArith Strings.Byte Strings.String Lia.
From S2P Require Import Prelude Model Text Offer NativeError Registry IpHelper Routes NetSettings.
From S2P Require Import Journal WinJournal SystemProxy ProxyFamily Pac ProxyExec ProxyJournal RouteOwner.
From S2P Require Import Connector Http WebVpnLogin Session Adapters Config EngineStatus EnginePlane EngineRuntime.
From S2P Require Import EngineRuntimeSafe EngineRuntimeLoss EngineRuntimeEnd.

(** ** The settings as the runtime sees them *)

(** The network, the registry and the ledger of the proxy settings. *)
Record Machine (W R : Type) := MkMachine { mc_net : W; mc_registry : R; mc_ledger : Ledger }.
Arguments MkMachine {W R}.
Arguments mc_net {W R}.
Arguments mc_registry {W R}.
Arguments mc_ledger {W R}.
(** What the settings read from outside while they are changed. *)
Record NetIo := MkNetIo { ni_env : PacEnv; ni_user : option str; ni_apply : ApplyIo; ni_clear : LedgerIo }.

#[export] Instance owned_shape_dec r : Decision (owned_shape r).
Proof. unfold owned_shape. apply _. Defined.

Section Net.
Context {W : Type} `{IpHelperLaws W} {R : Type} `{Win32Registry R}.
Variable sha256 : list byte → array 32.

(** win32-engine/platform_tunnel.rs:500-518 [NicOwner::ensure_with_library]: the settings of a
    new adapter; the adapter and its identities come from the library, and the detail is
    without what is formatted into it. *)
Definition ensure_with_library (created : result NativeError Nic) (w : W) : W * result NicInitializationError Nic :=
  match created with
  | Err e => (w, Err (NicErr_Native e))
  | Ok nic =>
      match disable_ipv4_dad w (nic_luid nic) with
      | (w, Err code) => (w, Err (NicErr_Configuration "IpInterfaceEntry (dad)"))
      | (w, Ok _) => (fst (enable_interface_best_effort w (nic_ifindex nic)), Ok nic)
      end
  end.

(** win32-engine/platform_tunnel.rs:590-610 [NicOwner::apply_offer] *)
Definition nic_apply_offer (io : NetIo) (m : Machine W R) (nic : Nic) (offer : TunnelOffer) (campus_routes : list str)
    (bypass : option RouteRow) : option (Machine W R * result RouteApplyError (RouteOwner * PlatformFacts)) :=
  let w := fst (enable_interface_best_effort (mc_net m) (nic_ifindex nic)) in
  q ← owner_apply sha256 (ni_env io) w (mc_registry m) (mc_ledger m) (nic_luid nic) (nic_ifindex nic) offer campus_routes
        bypass (ni_user io) (ni_apply io);
  let '(w, r, l, res) := q in
  Some (MkMachine w r l, res).
Definition net_clear (io : NetIo) (m : Machine W R) (o : RouteOwner) : option (Machine W R * RouteOwner * result Fault ()) :=
  q ← owner_clear sha256 (mc_net m) (mc_registry m) (mc_ledger m) o (ni_clear io);
  let '(w, r, l, o, res) := q in
  Some (MkMachine w r l, o, res).
Definition net_retry (m : Machine W R) (routes : list OwnedRoute) : Machine W R * list OwnedRoute * result Fault () :=
  let '(w, routes, res) := retry_clear (mc_net m) routes in
  (MkMachine w (mc_registry m) (mc_ledger m), routes, res).
(** The adapter has an identity, and the row for the gateway is one of another card through
    a next hop that is not the machine itself. *)
Definition net_ready (m : Machine W R) (luid : N) (row : RouteRow) : bool :=
  bool_decide (luid ≠ 0%N) && bool_decide (bypass_ok (mc_net m) luid (Some row)).

#[export] Instance net_platform : TunnelPlatform (Machine W R) NetIo := {
  tp_ensure m created :=
    let '(w, r) := ensure_with_library created (mc_net m) in (MkMachine w (mc_registry m) (mc_ledger m), r);
  tp_apply io m luid ifindex offer campus row := nic_apply_offer io m (MkNic luid ifindex) offer campus (Some row);
  tp_clear := net_clear;
  tp_retry := net_retry;
  tp_egress m := observe_gateway_egress (mc_net m);
  tp_ready := net_ready;
}.

Lemma ensure_same created w : same_managed w (fst (ensure_with_library created w)).
Proof.
  unfold ensure_with_library. destruct created as [nic|e]; [|done]. unfold disable_ipv4_dad.
  destruct (get_interface w FamV4 (nic_luid nic)) as [rc row]. destruct (negb _); [done|].
  pose proof (interface_frame w FamV4 (nic_luid nic) (MkIfRow 0 (if_nl_mtu row) 0)) as (Hf & _).
  destruct (set_interface _ _ _ _) as [rc' w']. simpl in Hf. destruct (negb _); [done|]. simpl.
  etrans; [exact Hf|]. apply enable_same.
Qed.

Lemma net_ready_spec (m : Machine W R) luid row : net_ready m luid row = true → luid ≠ 0%N ∧ bypass_ok (mc_net m) luid (Some row).
Proof. unfold net_ready. by rewrite andb_true_iff, !bool_decide_eq_true. Qed.
Lemma net_apply_owns w0 io (m : Machine W R) luid ifindex offer campus row m' res :
  owns w0 (mc_net m) [] → net_ready m luid row = true →
  nic_apply_offer io m (MkNic luid ifindex) offer campus (Some row) = Some (m', res) →
  owns w0 (mc_net m') (match res with Ok (o, _) => ro_installed_routes o | Err e => ae_pending_routes e end).
Proof.
  intros Ho [Hl Hb]%net_ready_spec ([[[w r] l] rs] & Ha & [= <- <-])%bind_Some. simpl in *.
  destruct (enable_same (mc_net m) ifindex) as (E1 & E2 & _).
  pose proof (bypass_ok_frame (mc_net m) (fst (enable_interface_best_effort (mc_net m) ifindex)) luid (Some row)
                (λ j _, E2 j) Hb) as Hb'.
  destruct (apply_owns sha256 _ _ _ _ _ _ _ _ _ _ _ _ _ _ _ Hl Hb' Ha) as [Hw _].
  eapply owns_before; [|exact Hw]. symmetry. etrans; [by apply owns_none|exact E1].
Qed.

Lemma net_ensure_owns w0 (m : Machine W R) created m' res routes :
  owns w0 (mc_net m) routes → tp_ensure (Io:=NetIo) m created = (m', res) → owns w0 (mc_net m') routes.
Proof.
  intros Ho He. simpl in He. pose proof (ensure_same created (mc_net m)) as Hs.
  destruct (ensure_with_library created (mc_net m)) as [w1 r1]. simplify_eq/=. by eapply owns_frame.
Qed.
Lemma net_clear_owns w0 io (m : Machine W R) o m' o' res :
  owns w0 (mc_net m) (ro_installed_routes o) → net_clear io m o = Some (m', o', res) →
  owns w0 (mc_net m') (ro_installed_routes o').
Proof. intros Ho ([[[[w r] l] o1] rs] & Hc & [= <- <- <-])%bind_Some. by eapply clear_owns. Qed.
Lemma net_clear_nothing io (m : Machine W R) o m' o' : net_clear io m o = Some (m', o', Ok ()) → ro_installed_routes o' = [].
Proof. intros ([[[[w r] l] o1] rs] & Hc & [= <- <- ->])%bind_Some. by eapply clear_ok_nothing. Qed.
Lemma net_retry_owns w0 (m : Machine W R) routes m' routes' res :
  owns w0 (mc_net m) routes → net_retry m routes = (m', routes', res) →
  owns w0 (mc_net m') routes' ∧ (is_ok res = true → routes' = []).
Proof.
  intros Ho. unfold net_retry, retry_clear. destruct (retry_owned_routes_owns w0 (mc_net m) routes Ho) as (_ & Hw & Hok).
  destruct (retry_owned_routes (mc_net m) routes) as [[w1 rs] res1]. intros. by simplify_eq/=.
Qed.
Lemma net_retry_nothing (m : Machine W R) routes m' routes' : net_retry m routes = (m', routes', Ok ()) → routes' = [].
Proof.
  unfold net_retry, retry_clear. pose proof (retry_clear_ok (mc_net m) routes) as Hok.
  destruct (retry_owned_routes (mc_net m) routes) as [[w1 rs] res1]. intros. simplify_eq/=. by apply Hok.
Qed.

(** The routes of management programs beyond those of [w0] are the owned ones. *)
#[export] Instance net_laws (w0 : W) : TunnelPlatformLaws (Machine W R) NetIo := {
  accounted m routes := owns w0 (mc_net m) routes;
  law_ensure := net_ensure_owns w0;
  law_apply := net_apply_owns w0;
  law_clear := net_clear_owns w0;
  law_clear_ok := net_clear_nothing;
  law_retry m routes m' routes' res Ho Hr := proj1 (net_retry_owns w0 m routes m' routes' res Ho Hr);
  law_retry_ok := net_retry_nothing;
}.
End Net.

(** ** Runs *)

Definition sample_machine : Machine SimNet SimRegistry := MkMachine tunnel_net sample_registry sample_ledger.
Definition sample_netio : NetIo := MkNetIo sample_env (Some sample_sid) sample_io io_ok.
#[export] Instance netio_inhabited : Inhabited NetIo := populate sample_netio.
#[local] Instance sample_platform : TunnelPlatform (Machine SimNet SimRegistry) NetIo := net_platform toy_sha256.
#[local] Instance sample_laws : TunnelPlatformLaws (Machine SimNet SimRegistry) NetIo := net_laws toy_sha256 tunnel_net.
Abbreviation Calls := (list (Choice (Io:=NetIo))).
Definition sample_card : Adapter :=
  MkAdapter IF_TYPE_ETHERNET_CSMACD true (lit "Ethernet") [] [Some (to_sockaddr (ip 192 168 1 5))]
    [Some (to_sockaddr (ip 192 168 1 1))] 4 3 25.
Definition sample_ctx (b : byte) : ApplyContext := MkApplyContext Standard true [b].
Definition go (i : nat) : Choice (Io:=NetIo) := Ch_Run i Rp_Go.
Definition io_at (i : nat) : Choice (Io:=NetIo) := Ch_Run i (Rp_Io sample_netio).
(** Thread [i] negotiates a connection and makes its adapter, if there is none. *)
Definition negotiate (i : nat) : Calls :=
  [Ch_Run i (Rp_Load [] (λ _, Ok ()));
   Ch_Run i (Rp_Control (MkControlReply (Some sample_routes) (MkAnswers 0 0 [sample_card]) true (Some (V4 (ip 59 78 1 2) 443))));
   Ch_Run i (Rp_Login (Ok ())); Ch_Run i (Rp_Session (Ok (campus_offer, None))); go i].
Definition settings (i : nat) : Calls := [go i; go i; Ch_Run i (Rp_Nic (Ok (MkNic 7 12))); io_at i; Ch_Run i (Rp_Plane true); go i].
Definition commit (i : nat) : Calls := [Ch_Run i (Rp_Commit None sample_netio); go i; go i].
Definition connect (i : nat) : Calls := [go i; go i; go i; go i] ++ negotiate i ++ settings i ++ commit i.
Definition sample_run (cs : Calls) := sys_run [] (Ch_Start (sample_ctx x01) None :: cs) (runtime_new sample_machine).
Example connect_connects : match sample_run (connect 0) with Some s => is_connected s && negb (is_assembling s) | None => false end = true.
Proof. vm_compute. reflexivity. Qed.
Lemma sample_reachable cs s : sample_run cs = Some s → reachable [] sample_machine s.
Proof. intros Hr. eexists. exact Hr. Qed.
Lemma sample_accounted : accounted sample_machine [].
Proof. apply owns_nil. Qed.

(** The connection of thread 0 is lost, its sweeper, thread 1, is slow to take the lock, and
    meanwhile thread 2 makes another connection, whose sweeper is thread 3. *)
Definition lost (k : nat) : Calls := [Ch_Worker k W_Claim; Ch_Worker k W_Signal; Ch_Worker k W_Tell].
Definition reconnect (i : nat) : Calls :=
  [go i; go i; go i; io_at i; io_at i; go i] ++ negotiate i ++ settings i ++ commit i.
Definition late_sweeper : Calls :=
  connect 0 ++ lost 0 ++ [go 1; Ch_Start (sample_ctx x02) None] ++ reconnect 2 ++ [go 1].
Example late_sweeper_waits : match sample_run late_sweeper with
  | Some s => is_connected s && bool_decide (length (sy_groups s) = 2) && negb (bool_decide (sy_resources s = None))
  | None => false end = true.
Proof. vm_compute. reflexivity. Qed.

(** In the middle of a connection: the routes are the assembly's, which has no tunnel yet. *)
Lemma runtime_accounts_witness :
  ∃ s, sample_run ([go 0; go 0; go 0; go 0] ++ negotiate 0 ++ settings 0) = Some s ∧
    length (held_routes s) = 4 ∧ sy_live s = None ∧
    (sy_poisoned s = false → sy_odd s = false → accounted (sy_machine s) (held_routes s)) ∧
    (∀ i j t u, sy_threads s !! i = Some t → sy_threads s !! j = Some u → active t = true → active u = true →
       i = j ∧ is_assembling s = true) ∧
    (sy_poisoned s = false → ∀ i ctx d c, sy_threads s !! i ≠ Some (T_Assembly ctx (A_CleanOld d c))).
Proof.
  assert (match sample_run ([go 0; go 0; go 0; go 0] ++ negotiate 0 ++ settings 0) with
          | Some s => Some (length (held_routes s), bool_decide (is_Some (sy_live s)))
          | None => None
          end = Some (4, false)) as Hm by (vm_compute; reflexivity).
  destruct (sample_run _) as [s|] eqn:Hs; [|discriminate Hm]. injection Hm as Hn Hl.
  exists s. split; [reflexivity|]. split; [exact Hn|]. split; [destruct (sy_live s); [discriminate Hl|reflexivity]|].
  exact (runtime_accounts [] sample_machine s sample_accounted (sample_reachable _ s Hs)).
Defined.

(** A disconnect begins just before the tunnel is installed. *)
Lemma connected_is_true_witness :
  ∃ s s', sample_run ([go 0; go 0; go 0; go 0] ++ negotiate 0 ++ settings 0 ++ [Ch_Disconnect]) = Some s ∧
    sy_cancel s = false ∧ sys_run (Io:=NetIo) [] [go 2; Ch_Run 0 (Rp_Commit None sample_netio)] s = Some s' ∧
    sy_cancel s' = true ∧ connected_told s' = connected_told s.
Proof.
  assert (match sample_run ([go 0; go 0; go 0; go 0] ++ negotiate 0 ++ settings 0 ++ [Ch_Disconnect]) with
          | Some s => (length (sy_groups s), sy_cancel s, bool_decide (is_Some (sys_run (Io:=NetIo) [] [go 2; Ch_Run 0 (Rp_Commit None sample_netio)] s)),
                       match sy_threads s !! 2 with Some (T_Caller false D_Begin) => true | _ => false end)
          | None => (0, true, false, false)
          end = (1, false, true, true)) as Hm by (vm_compute; reflexivity).
  destruct (sample_run _) as [s|] eqn:Hs; [|discriminate Hm]. injection Hm as Hn Hc Hrun Ht.
  destruct (bool_decide_eq_true_1 _ Hrun) as [s' Hs']. exists s, s'.
  split; [reflexivity|]. split; [exact Hc|]. split; [exact Hs'|].
  assert (groups_bounded s) as Hb by (unfold groups_bounded; rewrite Hn; reflexivity).
  apply (proj2 (proj2 (connected_is_true [] sample_machine s sample_accounted (sample_reachable _ s Hs) Hb)) (go 2) [Ch_Run 0 (Rp_Commit None sample_netio)] s');
    [|reflexivity|exact Hs'].
  exists false. left. destruct (sy_threads s !! 2) as [[| [] []|]|]; try discriminate Ht. reflexivity.
Defined.

Lemma sweeper_spares_living_witness :
  ∃ s s' q, sample_run late_sweeper = Some s ∧ sy_threads s !! 1 = Some (T_Sweeper 0 q (S_Check 1)) ∧
    sys_step (Io:=NetIo) [] (go 1) s = Some s' ∧
    is_connected s' = true ∧ sy_live s' = sy_live s ∧ sy_groups s' = sy_groups s.
Proof.
  assert (match sample_run late_sweeper with
          | Some s => match sys_step (Io:=NetIo) [] (go 1) s with
                      | Some _ => Some (length (sy_groups s), is_connected s, match sy_threads s !! 1 with Some (T_Sweeper 0 [] (S_Check 1)) => true | _ => false end)
                      | None => None
                      end
          | None => None
          end = Some (2, true, true)) as Hm by (vm_compute; reflexivity).
  destruct (sample_run late_sweeper) as [s|] eqn:Hs; [|discriminate Hm].
  destruct (sys_step [] (go 1) s) as [s'|] eqn:Hstep; [|discriminate Hm].
  injection Hm as Hn Hc Ht. destruct (sy_threads s !! 1) as [[?|?|[|] [|] [|?|[|[ | |]]|?|? ?|]]|] eqn:Hi; try discriminate Ht.
  exists s, s', []. split; [reflexivity|]. split; [exact Hi|]. split; [exact Hstep|].
  apply (sweeper_spares_living [] sample_machine s 1 0 [] (S_Check 1) Rp_Go s' sample_accounted (sample_reachable _ s Hs)); auto.
  unfold groups_bounded. rewrite Hn. reflexivity.
Defined.

(** The late sweeper goes back to waiting, sees that its connection is over, and is gone. *)
Definition all_quiet : Calls := late_sweeper ++ [go 1; go 1].
Lemma runtime_settles_witness :
  ∃ s, sample_run all_quiet = Some s ∧ work s = 12 ∧
    (∀ cs s', forallb (internal (Io:=NetIo)) cs = true → sys_run [] cs s = Some s' → length cs + work s' ≤ work s) ∧
    at_rest (Io:=NetIo) [] s ∧ settled s.
Proof.
  assert (match sample_run all_quiet with
          | Some s => Some (work s, quiescent s)
          | None => None
          end = Some (12, true)) as Hm by (vm_compute; reflexivity).
  destruct (sample_run all_quiet) as [s|] eqn:Hs; [|discriminate Hm]. injection Hm as Hn Hq.
  assert (at_rest (Io:=NetIo) [] s) as Hr by (apply quiescent_rest; exact Hq).
  exists s. split; [reflexivity|]. split; [exact Hn|].
  destruct (runtime_settles [] sample_machine s sample_accounted (sample_reachable _ s Hs)) as [Hb Hset].
  split; [exact Hb|]. split; [exact Hr|]. exact (Hset Hr).
Defined.
Lemma loss_is_swept_witness :
  ∃ s l, sample_run all_quiet = Some s ∧ sy_live s = Some l ∧ lt_threads l = Some 1 ∧
    (lt_threads l = None ∨ is_connected s = true).
Proof.
  assert (match sample_run all_quiet with
          | Some s => Some (length (sy_groups s), quiescent s, sy_poisoned s, sy_live s ≫= lt_threads)
          | None => None
          end = Some (2, true, false, Some 1)) as Hm by (vm_compute; reflexivity).
  destruct (sample_run all_quiet) as [s|] eqn:Hs; [|discriminate Hm]. injection Hm as Hn Hq Hp Hk.
  destruct (sy_live s) as [l|] eqn:Hl; [|discriminate Hk]. exists s, l. split; [reflexivity|]. split; [exact Hl|]. split; [exact Hk|].
  apply (loss_is_swept [] sample_machine s l sample_accounted (sample_reachable _ s Hs)).
  - unfold groups_bounded. rewrite Hn. reflexivity.
  - apply quiescent_rest. exact Hq.
  - exact Hp.
  - exact Hl.
Defined.

(** ** Deviations *)

(** A teardown closes the adapter after it has given up the lock; a connection that was
    asked for in between finds the adapter gone where it relies on it, panics with the lock,
    and nothing can be connected or disconnected from then on. *)
Definition teardown_race : Calls :=
  connect 0 ++ [Ch_Teardown; go 2; go 2; go 2; io_at 2; io_at 2; go 2] ++
  [Ch_Start (sample_ctx x02) None; go 3; go 3; go 3; go 3] ++ negotiate 3 ++
  [go 3; go 3; Ch_Run 3 (Rp_Nic (Ok (MkNic 7 12))); go 2; io_at 3; go 3; go 3].
Example teardown_poisons :
  match sample_run teardown_race with
  | Some s => (sy_poisoned s, match sy_nic s with Some _ => true | None => false end, is_assembling s)
  | None => (false, true, true)
  end = (true, false, false).
Proof. vm_compute. reflexivity. Qed.
(** The same later: the adapter is closed under a connection that is up. *)
Definition teardown_under : Calls :=
  connect 0 ++ [Ch_Teardown; go 2; go 2; go 2; io_at 2; io_at 2; go 2] ++
  [Ch_Start (sample_ctx x02) None; go 3; go 3; go 3; go 3] ++ negotiate 3 ++ settings 3 ++ commit 3 ++ [go 2].
Example teardown_closes_under :
  match sample_run teardown_under with
  | Some s => (is_connected s, match sy_nic s with Some _ => true | None => false end)
  | None => (false, true)
  end = (true, false).
Proof. vm_compute. reflexivity. Qed.
(** The network of a prefix of no bits is the address itself. *)
Example network_base_whole : network_base (ip 10 9 0 4) 0 = ip 10 9 0 4 ∧ network_base (ip 10 9 3 4) 24 = ip 10 9 3 0.
Proof. vm_compute. done. Qed.
