(* ===== verification/EngineOwner.v ===== *)
(** * Ownership of the Windows engine

    What the engine keeps about the process that owns it: the slot its ownership token is
    delivered through (token_slot.rs), the lease held with it (owner_lease.rs), the gate
    that lets a mutation in only once its admission is durable (mutation_ingress.rs), the
    heartbeat that bounds its absence (heartbeat.rs), and the one-shot credentials it sends
    (secret_payload.rs). The codec of admission records is the class [RecordCodec]; the
    JSON text of the credentials and the zeroizing of a buffer are parameters. *)

From Stdlib Require Import NArith ZArith Strings.Byte Strings.String Lia.
From S2P Require Import Prelude Identity Model Samples Admission Authority Delivery Text.

(** ** The token slot *)

(** win32-engine/token_slot.rs:16-21 [TokenSlot] *)
Record TokenSlot := MkTokenSlot { ts_inner : OwnershipTokenDelivery }.
(** win32-engine/token_slot.rs:23-30 [TokenSlot::new] *)
Definition TokenSlot_new : TokenSlot := MkTokenSlot delivery_new.
(** win32-engine/token_slot.rs:32-53 [TokenSlot::put] *)
Definition slot_put (s : TokenSlot) (connection : ConnectionBinding) (key : OperationLookupKey)
    (request_digest : RequestDigest) (ownership_version : OwnershipVersion) (token : TokenDigest) : TokenSlot * DeliveryOutcome :=
  let '(d, out) := deliver (ts_inner s) (MkTokenDeliveryRequest connection key request_digest ownership_version token) in
  (MkTokenSlot d, out).
(** win32-engine/token_slot.rs:55-71 [TokenSlot::ack] *)
Definition slot_ack (s : TokenSlot) (connection : ConnectionBinding) (key : OperationLookupKey)
    (request_digest : RequestDigest) (ownership_version : OwnershipVersion) (token : TokenDigest) : TokenSlot * AckOutcome :=
  let '(d, out) := ack (ts_inner s) (MkOwnershipTokenAck connection key request_digest ownership_version token) in
  (MkTokenSlot d, out).
(** win32-engine/token_slot.rs:73-76 [TokenSlot::clear] *)
Definition slot_clear (s : TokenSlot) (connection : ConnectionBinding) : TokenSlot * TerminateOutcome :=
  let '(d, out) := terminate_connection (ts_inner s) connection in
  (MkTokenSlot d, out).

(** ** The lease *)

(** win32-engine/owner_lease.rs:18-32 [OwnerLease] *)
Record OwnerLease := MkOwnerLease {
  ol_connection : ConnectionBinding;
  ol_key : OperationLookupKey;
  ol_request_digest : RequestDigest;
  ol_ownership_version : OwnershipVersion;
  ol_token_digest : TokenDigest;
  ol_expiry_deadline : MonotonicTick;
}.
(** win32-engine/owner_lease.rs:34-43 [LeaseIssue] *)
Inductive LeaseIssue := LI_Issued (token_digest : TokenDigest) | LI_SameTokenReplayed (token_digest : TokenDigest) | LI_Refused.
(** win32-engine/owner_lease.rs:45-47 [LEASE_EXPIRY_TICK] *)
Definition LEASE_EXPIRY_TICK : N := 1000000.
(** win32-engine/owner_lease.rs:49-54 [default_deadline] *)
Definition default_deadline : MonotonicTick := MkMonotonicTick LEASE_EXPIRY_TICK.
(** win32-engine/owner_lease.rs:56-63 [OwnerLeaseManager] *)
Record OwnerLeaseManager := MkOwnerLeaseManager {
  lm_slot : TokenSlot;
  lm_leases : gmap ConnectionBinding OwnerLease;
}.
(** win32-engine/owner_lease.rs:65-73 [OwnerLeaseManager::new] *)
Definition OwnerLeaseManager_new : OwnerLeaseManager := MkOwnerLeaseManager TokenSlot_new ∅.
(** win32-engine/owner_lease.rs:75-118 [OwnerLeaseManager::issue] *)
Definition lease_issue (m : OwnerLeaseManager) (connection : ConnectionBinding) (key : OperationLookupKey)
    (request_digest : RequestDigest) (ownership_version : OwnershipVersion) (candidate : TokenDigest) :
    OwnerLeaseManager * LeaseIssue :=
  let '(slot, outcome) := slot_put (lm_slot m) connection key request_digest ownership_version candidate in
  match outcome with
  | Issued token =>
      (MkOwnerLeaseManager slot
         (<[connection := MkOwnerLease connection key request_digest ownership_version token default_deadline]> (lm_leases m)),
       LI_Issued token)
  | Replayed token => (MkOwnerLeaseManager slot (lm_leases m), LI_SameTokenReplayed token)
  | _ => (MkOwnerLeaseManager slot (lm_leases m), LI_Refused)
  end.
(** win32-engine/owner_lease.rs:120-136 [OwnerLeaseManager::ack] *)
Definition lease_ack (m : OwnerLeaseManager) (connection : ConnectionBinding) (key : OperationLookupKey)
    (request_digest : RequestDigest) (ownership_version : OwnershipVersion) (token : TokenDigest) :
    OwnerLeaseManager * AckOutcome :=
  let '(slot, outcome) := slot_ack (lm_slot m) connection key request_digest ownership_version token in
  (MkOwnerLeaseManager slot (match outcome with Cleared => delete connection (lm_leases m) | _ => lm_leases m end), outcome).
(** win32-engine/owner_lease.rs:138-145 [OwnerLeaseManager::terminate_connection] *)
Definition lease_terminate (m : OwnerLeaseManager) (connection : ConnectionBinding) : OwnerLeaseManager * TerminateOutcome :=
  let '(slot, outcome) := slot_clear (lm_slot m) connection in
  (MkOwnerLeaseManager slot (match outcome with Invalidated _ _ => delete connection (lm_leases m) | _ => lm_leases m end), outcome).
(** win32-engine/owner_lease.rs:147-151 [OwnerLeaseManager::lease] *)
Definition lease_of (m : OwnerLeaseManager) (connection : ConnectionBinding) : option OwnerLease := lm_leases m !! connection.
(** win32-engine/owner_lease.rs:153-159 [OwnerLeaseManager::expiry_deadline] *)
Definition lease_expiry (m : OwnerLeaseManager) (connection : ConnectionBinding) : option MonotonicTick :=
  ol_expiry_deadline <$> lease_of m connection.

(** ** The gate of mutations *)

#[export] Instance PrincipalDigest_countable : Countable PrincipalDigest.
Proof. refine (inj_countable' PrincipalDigest_0 MkPrincipalDigest _). by intros []. Defined.
#[export] Instance RuntimeEpoch_countable : Countable RuntimeEpoch.
Proof. refine (inj_countable' RuntimeEpoch_0 MkRuntimeEpoch _). by intros []. Defined.
#[export] Instance OperationId_countable : Countable OperationId.
Proof. refine (inj_countable' OperationId_0 MkOperationId _). by intros []. Defined.
#[export] Instance OperationMethod_countable : Countable OperationMethod.
Proof.
  refine (inj_countable' (λ m, Byte.to_N (method_byte m))
            (λ n, nth (N.to_nat n) [Method_Connect; Method_RespondInteraction; Method_Stop; Method_Reconcile;
               Method_AcquireLease; Method_ApplyTunnel; Method_StopTunnel; Method_ReleaseLease] Method_Connect) _).
  by intros [].
Defined.
#[export] Instance OperationLookupKey_countable : Countable OperationLookupKey.
Proof.
  refine (inj_countable' (λ k, (olk_principal_digest k, olk_method k, olk_runtime_epoch k, olk_operation_id k))
            (λ '(p, m, e, i), MkOperationLookupKey p m e i) _).
  by intros [].
Defined.

(** win32-engine/mutation_ingress.rs:20-25 [MutationIngress] *)
Record MutationIngress := MkMutationIngress { mi_durable : gmap OperationLookupKey MutationAdmitted }.
(** win32-engine/mutation_ingress.rs:27-34 [MutationIngress::new] *)
Definition MutationIngress_new : MutationIngress := MkMutationIngress ∅.

Section gate.
Context `{!RecordCodec}.

(** win32-engine/mutation_ingress.rs:36-54 [MutationIngress::admit] *)
Definition ingress_admit (i : MutationIngress) (_lease : OwnerLease) (key : OperationLookupKey)
    (_request_digest : RequestDigest) : result string MutationAdmitted :=
  ok_or (mi_durable i !! key) "mutation admission not durable".
(** win32-engine/mutation_ingress.rs:56-75 [MutationIngress::durable_before_reply] *)
Definition durable_before_reply (i : MutationIngress) (admitted : MutationAdmitted) : MutationIngress * bool :=
  match codec_decode (codec_encode (AR_Admitted admitted)) with
  | Ok (AR_Admitted _) =>
      match ma_journal_operation_identity admitted with
      | JOI_External key => (MkMutationIngress (<[key := admitted]> (mi_durable i)), true)
      | JOI_Retirement _ => (i, false)
      end
  | _ => (i, false)
  end.
End gate.

(** ** The heartbeat *)

(** win32-engine/heartbeat.rs:9-12 [HEARTBEAT_PERIOD_MS, HEARTBEAT_TIMEOUT_MS] *)
Definition HEARTBEAT_PERIOD_MS : N := 10000.
Definition HEARTBEAT_TIMEOUT_MS : N := 15000.
(** win32-engine/heartbeat.rs:14-16 [ASSEMBLY_CANCEL_WAIT, ASSEMBLY_CANCEL_POLL], in milliseconds. *)
Definition ASSEMBLY_CANCEL_WAIT : N := 5000.
Definition ASSEMBLY_CANCEL_POLL : N := 50.

(** win32-engine/heartbeat.rs:18-28 [HeartbeatWatch]; each reading of the clock is the
    milliseconds since the start, as the 128-bit number the library gives. *)
Record HeartbeatWatch := MkHeartbeatWatch { hb_last_ms : N }.
(** win32-engine/heartbeat.rs:31-38 [HeartbeatWatch::new] *)
Definition HeartbeatWatch_new : HeartbeatWatch := MkHeartbeatWatch 0.
(** win32-engine/heartbeat.rs:40-44 [HeartbeatWatch::now_ms] *)
Definition now_ms (elapsed : N) : N := if (elapsed <? two64)%N then elapsed else (two64 - 1)%N.
(** win32-engine/heartbeat.rs:46-49 [HeartbeatWatch::touch] *)
Definition touch (elapsed : N) (_ : HeartbeatWatch) : HeartbeatWatch := MkHeartbeatWatch (now_ms elapsed).
(** win32-engine/heartbeat.rs:51-55 [HeartbeatWatch::elapsed_ms] *)
Definition elapsed_ms (elapsed : N) (h : HeartbeatWatch) : N := (now_ms elapsed - hb_last_ms h)%N.
(** win32-engine/heartbeat.rs:57-61 [HeartbeatWatch::elapsed_exceeds] *)
Definition elapsed_exceeds (timeout_ms elapsed : N) (h : HeartbeatWatch) : bool := (timeout_ms <? elapsed_ms elapsed h)%N.
(** win32-engine/heartbeat.rs:63-67 [HeartbeatWatch::timed_out] *)
Definition timed_out (elapsed : N) (h : HeartbeatWatch) : bool := elapsed_exceeds HEARTBEAT_TIMEOUT_MS elapsed h.

(** What happens to the watch, at which reading of the clock: a heartbeat of the owner's
    process, or the watcher waking up. *)
Inductive Beat := Touch (at_ms : N) | Check (at_ms : N).
Definition beat_at (b : Beat) : N := match b with Touch t | Check t => t end.
(** win32-engine/heartbeat.rs:76-95 [heartbeat_timeout_watcher]: the reading at which it
    resolves, if it does. *)
Fixpoint heartbeat_timeout_watcher (timeout_ms : N) (beats : list Beat) (h : HeartbeatWatch) : option N :=
  match beats with
  | [] => None
  | Touch t :: beats => heartbeat_timeout_watcher timeout_ms beats (touch t h)
  | Check t :: beats =>
      if (timeout_ms <? elapsed_ms t h)%N then Some t else heartbeat_timeout_watcher timeout_ms beats h
  end.

(** ** The credentials *)

(** win32-engine/secret_payload.rs:29-31 [SECRET_PAYLOAD_VERSION] *)
Definition SECRET_PAYLOAD_VERSION : N := 1.
(** win32-engine/secret_payload.rs:33-40 [SecretPayloadError] *)
Inductive SecretPayloadError := SPE_UnsupportedVersion (v : N) | SPE_Decode (e : str).
(** win32-engine/secret_payload.rs:53-66 [EngineCredentialPackage] *)
Record EngineCredentialPackage := MkEngineCredentialPackage { ecp_version : N; ecp_username : str; ecp_password : str }.
(** win32-engine/secret_payload.rs:118-127 [EngineCredentials] *)
Record EngineCredentials := MkEngineCredentials { ec_username : str; ec_password : str }.

Section secrets.
(** The JSON decoder of the package and the zeroizing of a byte vector, which leaves what
    the caller sees of it. *)
Context (from_slice : list byte → result str EngineCredentialPackage) (zeroize : list byte → list byte).

(** win32-engine/secret_payload.rs:91-105 [parse_secret_payload] *)
Definition parse_secret_payload (bytes : list byte) : result SecretPayloadError EngineCredentialPackage :=
  package ← map_err SPE_Decode (from_slice bytes);
  if negb (ecp_version package =? SECRET_PAYLOAD_VERSION)%N
  then Err (SPE_UnsupportedVersion (ecp_version package)) else Ok package.
(** win32-engine/secret_payload.rs:131-140 [EngineCredentials::from_package], with what is
    left of the package. *)
Definition from_package (package : EngineCredentialPackage) : EngineCredentials * EngineCredentialPackage :=
  (MkEngineCredentials (ecp_username package) (ecp_password package), MkEngineCredentialPackage (ecp_version package) [] []).
End secrets.

(** ** The lease is the token *)

(** A connection has a lease exactly while its slot holds an unacknowledged token, and the
    lease says what the slot does. *)
Definition lease_inv (m : OwnerLeaseManager) : Prop :=
  ∀ c, match slots (ts_inner (lm_slot m)) !! c with
       | Some (Holding slot) =>
           lm_leases m !! c = Some (MkOwnerLease c (ots_key slot) (ots_request_digest slot) (ots_ownership_version slot)
                                      (ots_token slot) default_deadline)
       | _ => lm_leases m !! c = None
       end.

Lemma lease_inv_new : lease_inv OwnerLeaseManager_new.
Proof. intros c. simpl. rewrite lookup_empty. done. Qed.

Lemma lease_inv_issue m c k d v t : lease_inv m → lease_inv (lease_issue m c k d v t).1.
Proof.
  intros Hm. pose proof (Hm c) as Hc. unfold lease_issue, slot_put, deliver. simpl.
  destruct (slots _ !! c) as [[slot|]|] eqn:E; simpl; repeat case_bool_decide; simpl; try exact Hm.
  intros c'. simpl. destruct (decide (c = c')) as [<-|Hne].
  - rewrite !lookup_insert_eq. done.
  - rewrite !lookup_insert_ne by done. apply Hm.
Qed.
Lemma lease_inv_resolve m c slot :
  lease_inv m →
  lease_inv (MkOwnerLeaseManager
    (MkTokenSlot (MkOwnershipTokenDelivery (<[c := Resolved (ots_key slot) (ots_ownership_version slot)]>
                                              (slots (ts_inner (lm_slot m))))))
    (delete c (lm_leases m))).
Proof.
  intros Hm c'. simpl. destruct (decide (c = c')) as [<-|Hne].
  - rewrite lookup_insert_eq. apply lookup_delete_eq.
  - rewrite lookup_insert_ne, lookup_delete_ne by done. apply Hm.
Qed.
Lemma lease_inv_ack m c k d v t : lease_inv m → lease_inv (lease_ack m c k d v t).1.
Proof.
  intros Hm. pose proof (Hm c) as Hc. unfold lease_ack, slot_ack, ack. simpl.
  destruct (slots _ !! c) as [[slot|]|] eqn:E; simpl; [|exact Hm..].
  destruct (_ && _); simpl; [by apply lease_inv_resolve|exact Hm].
Qed.
Lemma lease_inv_terminate m c : lease_inv m → lease_inv (lease_terminate m c).1.
Proof.
  intros Hm. pose proof (Hm c) as Hc. unfold lease_terminate, slot_clear, terminate_connection. simpl.
  destruct (slots _ !! c) as [[slot|]|] eqn:E; simpl; [by apply lease_inv_resolve|exact Hm..].
Qed.

(** Terminating a connection ends its lease and touches no other. *)
Lemma lease_of_terminate m c c' : lease_inv m → lease_of (lease_terminate m c).1 c' = if decide (c = c') then None else lease_of m c'.
Proof.
  intros Hm. pose proof (Hm c) as Hc. unfold lease_of, lease_terminate, slot_clear, terminate_connection. simpl.
  destruct (slots _ !! c) as [[slot|]|] eqn:E; simpl; destruct (decide (c = c')) as [<-|Hne]; try done.
  - apply lookup_delete_eq.
  - by apply lookup_delete_ne.
Qed.
(** Issuing leaves the connection with a lease of the version, or is refused. *)
Lemma lease_of_issue m c k d v t :
  lease_inv m → (lease_issue m c k d v t).2 ≠ LI_Refused →
  ∃ l, lease_of (lease_issue m c k d v t).1 c = Some l ∧ ol_ownership_version l = v ∧ ol_key l = k
    ∧ (∀ c', c' ≠ c → lease_of (lease_issue m c k d v t).1 c' = lease_of m c').
Proof.
  intros Hm. pose proof (Hm c) as Hc. unfold lease_of, lease_issue, slot_put, deliver. simpl.
  destruct (slots _ !! c) as [[slot|]|] eqn:E; simpl; repeat case_bool_decide; simpl; try done; intros _.
  - eexists. split; [exact Hc|]. simpl. split_and!; [congruence..|done].
  - eexists. split; [apply lookup_insert_eq|]. simpl. split_and!; [done..|]. intros c' Hne. by rewrite lookup_insert_ne.
Qed.
(** A refused request leaves the leases alone. *)
Lemma lease_issue_refused m c k d v t : (lease_issue m c k d v t).2 = LI_Refused → lm_leases (lease_issue m c k d v t).1 = lm_leases m.
Proof.
  unfold lease_issue, slot_put, deliver. simpl.
  destruct (slots _ !! c) as [[slot|]|] eqn:E; simpl; repeat case_bool_decide; simpl; done.
Qed.
(** An acknowledgement ends the lease of its connection, or changes nothing. *)
Lemma lease_of_ack m c k d v t c' :
  lease_of (lease_ack m c k d v t).1 c' = lease_of m c' ∨ (c' = c ∧ lease_of (lease_ack m c k d v t).1 c' = None).
Proof.
  unfold lease_of, lease_ack, slot_ack, ack. simpl.
  destruct (slots _ !! c) as [[slot|]|] eqn:E; simpl; [|by left..].
  destruct (_ && _); simpl; [|by left]. destruct (decide (c' = c)) as [->|Hne].
  - right. split; [done|]. apply lookup_delete_eq.
  - left. by apply lookup_delete_ne.
Qed.

(** ** A durable admission is let in *)

Lemma durable_then_admit `{!RecordCodec} i a key l d :
  ma_journal_operation_identity a = JOI_External key → (durable_before_reply i a).2 = true →
  ingress_admit (durable_before_reply i a).1 l key d = Ok a.
Proof.
  intros Hk. unfold durable_before_reply. destruct (codec_decode _) as [[]|]; try done. rewrite Hk. simpl. intros _.
  unfold ingress_admit. simpl. by rewrite lookup_insert_eq.
Qed.

(** ** The heartbeat's bounds *)

(** The beats come in the order of time from [t] on, and the watcher wakes at most every
    [period] from [last] on. *)
Fixpoint in_order (t : N) (beats : list Beat) : Prop :=
  match beats with [] => True | b :: beats => (t ≤ beat_at b)%N ∧ in_order (beat_at b) beats end.
Fixpoint checked_every (period last : N) (beats : list Beat) : Prop :=
  match beats with
  | [] => True
  | b :: beats =>
      (beat_at b ≤ last + period)%N ∧ checked_every period (match b with Check t => t | Touch _ => last end) beats
  end.
(** The newest heartbeat. *)
Definition newest (t : N) (beats : list Beat) : N := foldl (λ t b, match b with Touch t' => t' | Check _ => t end) t beats.

Lemma watch_bounds timeout period beats : ∀ now last h,
  in_order now beats → checked_every period last beats → Forall (λ b, (beat_at b < two64)%N) beats →
  (hb_last_ms h ≤ now)%N → (last ≤ now)%N → (last ≤ hb_last_ms h + timeout)%N →
  match heartbeat_timeout_watcher timeout beats h with
  | Some t => ∃ pre post, beats = pre ++ Check t :: post ∧
      let l := newest (hb_last_ms h) pre in (l + timeout < t ≤ l + timeout + period)%N
  | None => ∀ pre b post, beats = pre ++ b :: post → (beat_at b ≤ newest (hb_last_ms h) pre + timeout + period)%N
  end.
Proof.
  induction beats as [|b beats IH]; intros now last h Ho Hc Hf Hh Hl Hlt; simpl; [by intros [|? ?] ? ?|].
  destruct Ho as [Hb Ho], Hc as [Hp Hc]. apply Forall_cons in Hf as [Hs Hf].
  assert (Hnow : now_ms (beat_at b) = beat_at b) by (unfold now_ms; destruct (N.ltb_spec (beat_at b) two64); [done|lia]).
  destruct b as [t|t]; simpl in *.
  - specialize (IH t last (touch t h) Ho Hc Hf). unfold touch in IH |- *. rewrite Hnow in IH |- *. simpl in IH.
    specialize (IH ltac:(lia) ltac:(lia) ltac:(lia)). destruct (heartbeat_timeout_watcher _ _ _) as [u|].
    + destruct IH as (pre & post & -> & Hu). exists (Touch t :: pre), post. done.
    + intros [|b' pre] b post E; injection E as <- E; simpl; [lia|]. by eapply IH.
  - unfold elapsed_ms. rewrite Hnow. destruct (N.ltb_spec timeout (t - hb_last_ms h)) as [Hx|Hx].
    + exists [], beats. split; [done|]. simpl. lia.
    + specialize (IH t t h Ho Hc Hf ltac:(lia) ltac:(lia) ltac:(lia)).
      destruct (heartbeat_timeout_watcher _ _ _) as [u|].
      * destruct IH as (pre & post & -> & Hu). exists (Check t :: pre), post. done.
      * intros [|b' pre] b post E; injection E as <- E; simpl; [lia|]. by eapply IH.
Qed.

(** C8: The engine outlives a silent owner by a bounded time, and never a talking one. However
    heartbeats and wake-ups interleave, the watcher resolves only when the newest heartbeat,
    or the start of the engine before any, is older than the timeout, and then by no more
    than one period between two wake-ups; as long as it has not resolved, nothing happens
    later than that after the newest heartbeat. *)
Theorem heartbeat_bound timeout period beats :
  in_order 0 beats → checked_every period 0 beats → Forall (λ b, (beat_at b < two64)%N) beats →
  match heartbeat_timeout_watcher timeout beats HeartbeatWatch_new with
  | Some t => ∃ pre post, beats = pre ++ Check t :: post ∧
      let l := newest 0 pre in (l + timeout < t ≤ l + timeout + period)%N
  | None => ∀ pre b post, beats = pre ++ b :: post → (beat_at b ≤ newest 0 pre + timeout + period)%N
  end.
Proof. intros Ho Hc Hf. apply (watch_bounds timeout period beats 0 0 HeartbeatWatch_new Ho Hc Hf); simpl; lia. Qed.

Lemma heartbeat_bound_witness :
  let beats := [Check 500; Touch 700; Check 1000; Check 1500; Check 2000; Check 2500]%N in
  match heartbeat_timeout_watcher 1000 beats HeartbeatWatch_new with
  | Some t => ∃ pre post, beats = pre ++ Check t :: post ∧
      let l := newest 0 pre in (l + 1000 < t ≤ l + 1000 + 500)%N
  | None => ∀ pre b post, beats = pre ++ b :: post → (beat_at b ≤ newest 0 pre + 1000 + 500)%N
  end.
Proof.
  apply (heartbeat_bound 1000 500 [Check 500; Touch 700; Check 1000; Check 1500; Check 2000; Check 2500]%N).
  - simpl. lia.
  - simpl. lia.
  - by repeat constructor.
Defined.
