(* ===== verification/EngineControl.v ===== *)
(** * The control service of the Windows engine

    [grpc_server.rs] of the Windows engine crate: the gRPC endpoint through which the owner's
    process drives the engine. It keeps who owns the engine, with the lease of that owner;
    admits each mutation once, through the durable record of the admission sequencer; starts
    and stops the tunnel; and answers how an operation ended.

    A handler is a function of the state behind the endpoint's lock, one for each time it
    holds the lock. [EngineControlSys] composes them with the runtime. What a request carries
    besides its message is the verified peer of its connection; the clock and the fresh
    identifiers are arguments. SHA-256, the hash of lookup keys and the encoding of messages
    are parameters; a reply is the message it carries. Log output is left out, and the
    endpoint's lock is not poisoned: no handler panics while it holds it. *)

From Stdlib Require Import NArith ZArith Strings.Byte Strings.String Lia.
From S2P Require Import Prelude Identity Model Admission AdmissionIndex Authority Delivery Text Wire Config.
From S2P Require Import Channel EngineStatus EngineLog EngineRuntime EngineOwner.

(** ** Requests and answers *)

(** The error of a request: its code and its text. *)
Inductive StatusCode := Unauthenticated | FailedPrecondition | InvalidArgument | Internal.
Record Status := MkStatus { status_code : StatusCode; status_message : str }.
Definition unauthenticated (m : string) : Status := MkStatus Unauthenticated (lit m).
Definition failed_precondition (m : string) : Status := MkStatus FailedPrecondition (lit m).
Definition invalid_argument (m : string) : Status := MkStatus InvalidArgument (lit m).
Definition internal_error (m : string) : Status := MkStatus Internal (lit m).

(** win32-engine/grpc_transport.rs:34-55 [TransportPeerInfo, NamedPipeConnectInfo]: what the
    transport attaches to the requests of a connection. *)
Record NamedPipeConnectInfo := MkNamedPipeConnectInfo {
  ci_verified : bool;
  ci_process_id : N;
  ci_user_sid : str;
  ci_account_name : str;
  ci_principal : PrincipalDigest;
  ci_connection_digest : ConnectionBindingDigest;
}.

(** proto/common.proto:326-332 [AuthorityFence] *)
Record WireAuthorityFence := MkWireAuthorityFence {
  wf_authority_epoch : N;
  wf_platform_authority_instance_id : list byte;
  wf_admission_watermark : N;
  wf_journal_revision : N;
}.
(** proto/common.proto:344-352 [MutationReceipt], of an external operation. *)
Record WireMutationReceipt := MkWireMutationReceipt {
  wr_identity : WireOperationLookupKey;
  wr_canonical_input_digest : list byte;
  wr_effect_id : list byte;
  wr_authority_fence : WireAuthorityFence;
  wr_ownership_version : N;
  wr_certainty : Z;
}.
(** proto/common.proto:355-369 [OperationFailed, OperationTerminal] *)
Inductive WireOperationTerminal :=
  | WT_Succeeded (receipt : WireMutationReceipt)
  | WT_Failed (receipt : WireMutationReceipt) (error : WireVpnError).
Definition terminal_receipt (t : WireOperationTerminal) : WireMutationReceipt :=
  match t with WT_Succeeded r | WT_Failed r _ => r end.
(** proto/common.proto:376-402 [RejectedNoEffect, AbsentNoEffect, OperationState] *)
Inductive WireOperationState :=
  | WO_Pending
  | WO_Terminal (t : WireOperationTerminal)
  | WO_Rejected (error : WireVpnError) (fence : WireAuthorityFence)
  | WO_Absent (lookup_key_digest : list byte) (authority_epoch admission_watermark : N)
  | WO_Unknown.

(** proto/helper_control.proto:125-177 [HostLeaseMessage, LeaseHandshake, LeaseKeepalive] and
    proto/helper_control.proto:189-194 [OwnershipTokenReceived] *)
Inductive HostMessage :=
  | HM_Handshake (principal_digest capability_digest channel_identity_digest : list byte)
  | HM_Keepalive (monotonic_tick : N)
  | HM_OwnershipTokenReceived (ownership_token ownership_token_digest : list byte).
Record HostLeaseMessage := MkHostLeaseMessage { hl_runtime_epoch : list byte; hl_message : option HostMessage }.
(** proto/helper_control.proto:141-155 [HelperLeaseMessage] *)
Inductive HelperMessage :=
  | HE_HandshakeAccepted (authority_fence : WireAuthorityFence)
  | HE_KeepaliveAck (monotonic_tick : N)
  | HE_OwnerLost (error : WireVpnError).
Record HelperLeaseMessage := MkHelperLeaseMessage {
  he_owner_lease_id : list byte; he_runtime_epoch : list byte; he_message : HelperMessage }.

(** proto/helper_control.proto:265-273 [ApplyTunnelRequest] *)
Record ApplyTunnelRequest := MkApplyTunnelRequest {
  aq_lookup_key : option WireOperationLookupKey;
  aq_plan : option WireTunnelPlan;
  aq_request_digest : list byte;
  aq_secret_payload : list byte;
  aq_windows_connection_mode : Z;
}.

(** ** Constants and clock *)

(** win32-engine/grpc_server.rs:48-49 [CAPABILITY_TTL_MS] *)
Definition CAPABILITY_TTL_MS : N := 30000.
(** win32-engine/grpc_server.rs:60-75 [windows_connection_mode_from_wire] *)
Definition windows_connection_mode_from_wire (value : Z) : result Status ConnectionMode :=
  if ((value =? 0) || (value =? 1))%Z then Ok Standard
  else if (value =? 2)%Z then Ok Compatibility
  else Err (invalid_argument "apply: unsupported Windows connection mode").
(** win32-engine/grpc_server.rs:79-88 [ConnectionMode]: how the engine serves its clients. *)
Inductive ServingMode := Oneshot | Service.
#[export] Instance ServingMode_eq_dec : EqDecision ServingMode. Proof. solve_decision. Defined.
(** win32-engine/grpc_server.rs:90-97 [EFFECT_CERTAINTY_APPLIED, ERROR_CODE_UNAUTHORIZED, ERROR_STAGE_INGRESS, RETRY_ADVICE_DO_NOT_RETRY] *)
Definition EFFECT_CERTAINTY_APPLIED : Z := 2.
Definition ERROR_CODE_UNAUTHORIZED : N := 15.
Definition ERROR_STAGE_INGRESS : N := 1.
Definition RETRY_ADVICE_DO_NOT_RETRY : N := 1.
(** win32-engine/grpc_server.rs:114-119 [MonotonicClock::now]; each reading is the milliseconds
    since the start, as the 128-bit number the library gives. *)
Definition clock_now (elapsed : N) : MonotonicTick := MkMonotonicTick (now_ms elapsed).
(** win32-engine/grpc_server.rs:121-126 [MonotonicClock::later_by] *)
Definition later_by (elapsed ms : N) : MonotonicTick := MkMonotonicTick (sat64 (now_ms elapsed) ms).

(** ** The state *)

(** win32-engine/grpc_server.rs:129-135 [OwnerSession] *)
Record OwnerSession := MkOwnerSession { os_peer : PeerContext; os_connection : ConnectionBinding }.
(** win32-engine/grpc_server.rs:169-180 [PendingApply] *)
Record PendingApply := MkPendingApply {
  pa_key : OperationLookupKey;
  pa_wire_key : WireOperationLookupKey;
  pa_canonical_input_digest : Digest;
  pa_effect_uuid : Uuid;
}.
(** win32-engine/grpc_server.rs:137-167 [HelperControlCore] *)
Record HelperControlCore := MkCore {
  co_leases : OwnerLeaseManager;
  co_ingress : MutationIngress;
  co_admissions : AdmissionIndex;
  co_authority_epoch : N;
  co_authority_instance : Uuid;
  co_watermark : N;
  co_journal_revision : N;
  co_ownership_version : N;
  co_owner : option OwnerSession;
  co_applied_tunnel : option TunnelPlan;
  co_pending_apply : gmap (list byte) PendingApply;
  co_terminals : gmap OperationLookupKeyDigest WireOperationTerminal;
}.
Definition set_leases x (c : HelperControlCore) : HelperControlCore :=
  MkCore x (co_ingress c) (co_admissions c) (co_authority_epoch c) (co_authority_instance c) (co_watermark c) (co_journal_revision c) (co_ownership_version c) (co_owner c) (co_applied_tunnel c) (co_pending_apply c) (co_terminals c).
Definition set_ingress x (c : HelperControlCore) : HelperControlCore :=
  MkCore (co_leases c) x (co_admissions c) (co_authority_epoch c) (co_authority_instance c) (co_watermark c) (co_journal_revision c) (co_ownership_version c) (co_owner c) (co_applied_tunnel c) (co_pending_apply c) (co_terminals c).
Definition set_admissions x (c : HelperControlCore) : HelperControlCore :=
  MkCore (co_leases c) (co_ingress c) x (co_authority_epoch c) (co_authority_instance c) (co_watermark c) (co_journal_revision c) (co_ownership_version c) (co_owner c) (co_applied_tunnel c) (co_pending_apply c) (co_terminals c).
Definition set_watermark x (c : HelperControlCore) : HelperControlCore :=
  MkCore (co_leases c) (co_ingress c) (co_admissions c) (co_authority_epoch c) (co_authority_instance c) x (co_journal_revision c) (co_ownership_version c) (co_owner c) (co_applied_tunnel c) (co_pending_apply c) (co_terminals c).
Definition set_ownership_version x (c : HelperControlCore) : HelperControlCore :=
  MkCore (co_leases c) (co_ingress c) (co_admissions c) (co_authority_epoch c) (co_authority_instance c) (co_watermark c) (co_journal_revision c) x (co_owner c) (co_applied_tunnel c) (co_pending_apply c) (co_terminals c).
Definition set_owner x (c : HelperControlCore) : HelperControlCore :=
  MkCore (co_leases c) (co_ingress c) (co_admissions c) (co_authority_epoch c) (co_authority_instance c) (co_watermark c) (co_journal_revision c) (co_ownership_version c) x (co_applied_tunnel c) (co_pending_apply c) (co_terminals c).
Definition set_applied_tunnel x (c : HelperControlCore) : HelperControlCore :=
  MkCore (co_leases c) (co_ingress c) (co_admissions c) (co_authority_epoch c) (co_authority_instance c) (co_watermark c) (co_journal_revision c) (co_ownership_version c) (co_owner c) x (co_pending_apply c) (co_terminals c).
Definition set_pending_apply x (c : HelperControlCore) : HelperControlCore :=
  MkCore (co_leases c) (co_ingress c) (co_admissions c) (co_authority_epoch c) (co_authority_instance c) (co_watermark c) (co_journal_revision c) (co_ownership_version c) (co_owner c) (co_applied_tunnel c) x (co_terminals c).
Definition set_terminals x (c : HelperControlCore) : HelperControlCore :=
  MkCore (co_leases c) (co_ingress c) (co_admissions c) (co_authority_epoch c) (co_authority_instance c) (co_watermark c) (co_journal_revision c) (co_ownership_version c) (co_owner c) (co_applied_tunnel c) (co_pending_apply c) x.

(** win32-engine/grpc_server.rs:458-480 [HelperControlService::with_tunnel_runtime]: the state
    an endpoint starts with; the identifiers are drawn by the library. *)
Definition core_new (authority_instance : Uuid) : HelperControlCore :=
  MkCore OwnerLeaseManager_new MutationIngress_new
    (AdmissionIndex_new (MkAuthorityFence (MkAuthorityEpoch 1) (MkPlatformAuthorityInstanceId authority_instance)
                           (MkAdmissionWatermark 0) (MkJournalRevision 0)))
    1 authority_instance 0 0 1 None None ∅ ∅.

(** win32-engine/grpc_server.rs:204-244 [HelperControlService]: what of it never changes. *)
Record HelperControlService := MkService {
  hs_authority_epoch : N;
  hs_runtime_epoch : RuntimeEpoch;
  hs_connection_mode : ServingMode;
  hs_psk_present : bool;
  hs_shutdown_signal : bool;
}.

(** win32-engine/grpc_server.rs:261-269 [wire_fence] *)
Definition wire_fence (c : HelperControlCore) : WireAuthorityFence :=
  MkWireAuthorityFence (co_authority_epoch c) (arr_bytes (co_authority_instance c)) (co_watermark c) (co_journal_revision c).
(** win32-engine/grpc_server.rs:271-284 [wire_error_no_subject] *)
Definition wire_error_no_subject : WireVpnError :=
  MkWireVpnError ERROR_CODE_UNAUTHORIZED ERROR_STAGE_INGRESS 0 RETRY_ADVICE_DO_NOT_RETRY None None None.
(** win32-engine/grpc_server.rs:253-259 [tagged] *)
Definition tagged (tag : string) (body : list byte) : list byte := String.list_byte_of_string tag ++ body.
(** win32-engine/grpc_server.rs:763-783 [build_wire_receipt] *)
Definition build_wire_receipt (c : HelperControlCore) (wire_key : WireOperationLookupKey)
    (canonical_input_digest : Digest) (effect_id : Uuid) : WireMutationReceipt :=
  MkWireMutationReceipt wire_key (arr_bytes canonical_input_digest) (arr_bytes effect_id) (wire_fence c)
    (co_ownership_version c) EFFECT_CERTAINTY_APPLIED.

(** ** Who asks *)

(** win32-engine/grpc_server.rs:626-649 [HelperControlService::transport_peer] *)
Definition transport_peer (extensions : option NamedPipeConnectInfo) :
    result Status (PeerContext * ConnectionBinding) :=
  info ← ok_or extensions (unauthenticated "transport peer not verified");
  if negb (ci_verified info) then Err (unauthenticated "transport peer not verified")
  else
    metadata ← map_err (λ _, unauthenticated "invalid transport identity")
                 (VerifiedConnectionMetadata_try_from (ci_principal info) (ci_connection_digest info));
    peer ← map_err (λ _, unauthenticated "invalid peer context") (PeerContext_try_from metadata);
    connection ← map_err (λ _, unauthenticated "invalid connection binding")
                   (ConnectionBinding_try_from (ci_connection_digest info));
    Ok (peer, connection).

(** win32-engine/grpc_server.rs:686-690 [HelperControlService::authority] *)
Definition authority (sv : HelperControlService) : AuthorityEpoch := MkAuthorityEpoch (hs_authority_epoch sv).

(** win32-engine/grpc_server.rs:651-684 [HelperControlService::bind_mutation]; the clock is read
    twice. *)
Definition bind_mutation (sv : HelperControlService) (extensions : option NamedPipeConnectInfo)
    (c : HelperControlCore) (wire_key : WireOperationLookupKey) (request_digest : list byte)
    (method : OperationMethod) (first second : N) : result Status (PeerContext * OperationLookupKey * RequestDigest) :=
  '(peer, _) ← transport_peer extensions;
  owner ← ok_or (co_owner c) (failed_precondition "no owner lease established");
  if negb (bool_decide (os_peer owner = peer)) then Err (unauthenticated "owner peer mismatch")
  else
    capability ← map_err (λ e, invalid_argument ("capability: " ++ e))
                   (bind_capability peer method (authority sv) (later_by first CAPABILITY_TTL_MS));
    bound ← map_err (λ e, invalid_argument ("operation binding: " ++ e))
              (kernel_request_to_operation (KernelRequest_new wire_key request_digest method) peer capability
                 (authority sv) (clock_now second));
    Ok (peer, bko_lookup_key bound, bko_request_digest bound).

Section Control.
Context `{!RecordCodec} (sha256 : list byte → Digest) (hash64 : N → list byte → N).
(** The encodings of a lookup key as a message, and of the error subject that names it. *)
Context (encode_key encode_subject : WireOperationLookupKey → list byte).

(** win32-engine/grpc_server.rs:286-303 [wire_error] *)
Definition wire_error (key : WireOperationLookupKey) (code : N) : WireVpnError :=
  MkWireVpnError code ERROR_STAGE_INGRESS 0 RETRY_ADVICE_DO_NOT_RETRY (Some (encode_subject key)) None None.

(** ** Admission *)

(** win32-engine/grpc_server.rs:323-352 [admit_and_gate]: what is asked of the sequencer. *)
Definition admission_input (c : HelperControlCore) (peer : PeerContext) (wire_key_bytes request_digest_raw : list byte)
    (key : OperationLookupKey) (request_digest : RequestDigest) (method : OperationMethod)
    (subject : AuthorizationSubject) (effect_id : EffectId) : MutationAdmissionInput :=
  MkMutationAdmissionInput key request_digest effect_id (pc_principal peer)
    (MkCanonicalInputDigest (sha256 request_digest_raw)) (MK_External method)
    (MkOwnershipVersion (co_ownership_version c)) subject
    (MkResourceIdentityDigest (sha256 (tagged "resource" wire_key_bytes)))
    (MkAppliedFingerprint (sha256 (tagged "pre" wire_key_bytes)))
    (MkAppliedFingerprint (sha256 (tagged "post" wire_key_bytes)))
    (MkObligationSeed (sha256 (tagged "obligation" wire_key_bytes))).

(** win32-engine/grpc_server.rs:305-384 [admit_and_gate] *)
Definition admit_and_gate (c : HelperControlCore) (peer : PeerContext) (wire_key_bytes request_digest_raw : list byte)
    (key : OperationLookupKey) (request_digest : RequestDigest) (method : OperationMethod)
    (subject : AuthorizationSubject) (effect_id : EffectId) : HelperControlCore * result Status MutationAdmitted :=
  let input := admission_input c peer wire_key_bytes request_digest_raw key request_digest method subject effect_id in
  let '(admissions, outcome) := index_admit hash64 (co_admissions c) input in
  let c := set_admissions admissions c in
  match outcome with
  | AO_RejectedNoEffect _ => (c, Err (failed_precondition "mutation previously rejected"))
  | AO_ClosedByAbsenceProof => (c, Err (failed_precondition "mutation closed by absence proof"))
  | AO_IdempotencyConflict => (c, Err (failed_precondition "idempotency conflict"))
  | AO_Admitted record =>
      let '(ingress, durable) := durable_before_reply (co_ingress c) record in
      let c := set_ingress ingress c in
      if negb durable then (c, Err (internal_error "mutation admission not durable"))
      else
        match co_owner c ≫= λ owner, lease_of (co_leases c) (os_connection owner) with
        | None => (c, Err (failed_precondition "no owner lease for gate"))
        | Some gate =>
            match ingress_admit (co_ingress c) gate key request_digest with
            | Err e => (c, Err (internal_error ("mutation ingress: " ++ e)))
            | Ok _ => (set_watermark (sat64 (co_watermark c) 1) c, Ok record)
            end
        end
  end.

(** win32-engine/grpc_server.rs:700-708 [HelperControlService::record_terminal] *)
Definition record_terminal (key : OperationLookupKey) (terminal : WireOperationTerminal) (c : HelperControlCore) : HelperControlCore :=
  set_terminals (<[canonical_lookup_digest hash64 key := terminal]> (co_terminals c)) c.
(** win32-engine/grpc_server.rs:710-722 [HelperControlService::owned_token_subject] *)
Definition owned_token_subject (c : HelperControlCore) (fallback_raw : list byte) : AuthorizationSubject :=
  LiveOwnershipTokenDigest
    match co_owner c ≫= λ owner, lease_of (co_leases c) (os_connection owner) with
    | Some lease => ol_token_digest lease
    | None => MkTokenDigest (sha256 fallback_raw)
    end.

(** ** The lease *)

(** win32-engine/grpc_server.rs:1062-1159 [HelperControlService::acquire_lease]: the reply tells
    whether the lease was acquired. *)
Definition acquire_lease (sv : HelperControlService) (extensions : option NamedPipeConnectInfo)
    (lookup_key : option WireOperationLookupKey) (request_digest : list byte) (first second : N) (effect_uuid : Uuid)
    (c : HelperControlCore) : HelperControlCore * result Status WireOperationTerminal :=
  match lookup_key with
  | None => (c, Err (invalid_argument "acquire: missing lookup key"))
  | Some wire_key =>
      match bind_mutation sv extensions c wire_key request_digest Method_AcquireLease first second with
      | Err e => (c, Err e)
      | Ok (peer, key, digest) =>
          let candidate := MkTokenDigest (sha256 request_digest) in
          match co_owner c with
          | None => (c, Err (failed_precondition "no owner lease"))
          | Some owner =>
              let '(leases, issue) := lease_issue (co_leases c) (os_connection owner) key digest
                                        (MkOwnershipVersion (co_ownership_version c)) candidate in
              let c := set_leases leases c in
              match issue with
              | LI_Refused =>
                  let failed := WT_Failed (build_wire_receipt c wire_key (sha256 request_digest) effect_uuid)
                                  (wire_error wire_key ERROR_CODE_UNAUTHORIZED) in
                  (record_terminal key failed c, Ok failed)
              | _ =>
                  let '(c, admitted) := admit_and_gate c peer (encode_key wire_key) request_digest key digest
                                          Method_AcquireLease (LiveOwnershipTokenDigest candidate) (MkEffectId effect_uuid) in
                  match admitted with
                  | Err e => (c, Err e)
                  | Ok _ =>
                      let acquired := WT_Succeeded (build_wire_receipt c wire_key (sha256 request_digest) effect_uuid) in
                      (record_terminal key acquired c, Ok acquired)
                  end
              end
          end
      end
  end.

(** win32-engine/grpc_server.rs:1485-1552 [HelperControlService::release_lease] *)
Definition release_lease (sv : HelperControlService) (extensions : option NamedPipeConnectInfo)
    (lookup_key : option WireOperationLookupKey) (request_digest : list byte) (first second : N) (effect_uuid : Uuid)
    (c : HelperControlCore) : HelperControlCore * result Status WireOperationTerminal :=
  match lookup_key with
  | None => (c, Err (invalid_argument "release: missing lookup key"))
  | Some wire_key =>
      match bind_mutation sv extensions c wire_key request_digest Method_ReleaseLease first second with
      | Err e => (c, Err e)
      | Ok (peer, key, digest) =>
          let '(c, admitted) := admit_and_gate c peer (encode_key wire_key) request_digest key digest
                                  Method_ReleaseLease (owned_token_subject c request_digest) (MkEffectId effect_uuid) in
          match admitted, co_owner c with
          | Err e, _ => (c, Err e)
          | Ok _, None => (c, Err (failed_precondition "no owner lease"))
          | Ok _, Some owner =>
              let c := set_leases (lease_terminate (co_leases c) (os_connection owner)).1 c in
              let c := set_pending_apply ∅ (set_applied_tunnel None c) in
              let c := set_ownership_version (sat64 (co_ownership_version c) 1) (set_owner None c) in
              let released := WT_Succeeded (build_wire_receipt c wire_key (sha256 request_digest) effect_uuid) in
              (record_terminal key released c, Ok released)
          end
      end
  end.

(** ** The tunnel *)

Section secrets.
Context (from_slice : list byte → result str EngineCredentialPackage) (zeroize : list byte → list byte).

(** win32-engine/grpc_server.rs:736-761 [HelperControlService::parse_secret_payload]: what is left
    of the request's copy, and the credentials. *)
Definition parse_request_secret (payload_bytes : list byte) : list byte * result Status (option EngineCredentials) :=
  match payload_bytes with
  | [] => ([], Ok None)
  | _ =>
      (zeroize payload_bytes,
       match parse_secret_payload from_slice payload_bytes with
       | Ok package => Ok (Some (from_package package).1)
       | Err (SPE_UnsupportedVersion v) =>
           Err (MkStatus InvalidArgument (lit "secret payload unsupported version " ++ to_dec v ++ lit " (expected "
                                            ++ to_dec SECRET_PAYLOAD_VERSION ++ lit ")"))
       | Err (SPE_Decode d) => Err (MkStatus InvalidArgument (lit "secret payload decode failed: " ++ d))
       end)
  end.

(** win32-engine/grpc_server.rs:1161-1256 [HelperControlService::apply_tunnel]: the request's admission,
    with what is left of its credentials and what the runtime is given. *)
Definition apply_admit (sv : HelperControlService) (extensions : option NamedPipeConnectInfo)
    (request : ApplyTunnelRequest) (first second : N) (effect_uuid : Uuid)
    (c : HelperControlCore) : HelperControlCore * list byte * result Status ApplyContext :=
  let secret_payload := aq_secret_payload request in
  let request_digest := aq_request_digest request in
  match aq_lookup_key request, aq_plan request with
  | None, _ => (c, secret_payload, Err (invalid_argument "apply: missing lookup key"))
  | Some _, None => (c, secret_payload, Err (invalid_argument "apply: missing tunnel plan"))
  | Some wire_key, Some wire_plan =>
      match bind_mutation sv extensions c wire_key request_digest Method_ApplyTunnel first second with
      | Err e => (c, secret_payload, Err e)
      | Ok (peer, key, digest) =>
          match tunnel_plan_from_wire wire_plan with
          | Err e => (c, secret_payload, Err (invalid_argument ("apply: " ++ e)))
          | Ok plan =>
              let '(secret_payload, parsed) := parse_request_secret secret_payload in
              match parsed, windows_connection_mode_from_wire (aq_windows_connection_mode request) with
              | Err e, _ => (c, secret_payload, Err e)
              | Ok _, Err e => (c, secret_payload, Err e)
              | Ok credentials, Ok connection_mode =>
                  let '(c, admitted) := admit_and_gate c peer (encode_key wire_key) request_digest key digest
                                          Method_ApplyTunnel (owned_token_subject c request_digest) (MkEffectId effect_uuid) in
                  match admitted with
                  | Err e => (c, secret_payload, Err e)
                  | Ok _ =>
                      let operation_id := wk_operation_id wire_key in
                      let c := set_applied_tunnel (Some plan) c in
                      let c := set_pending_apply
                                 (<[operation_id := MkPendingApply key wire_key (sha256 request_digest) effect_uuid]>
                                    (co_pending_apply c)) c in
                      (c, secret_payload,
                       Ok (MkApplyContext connection_mode (bool_decide (is_Some credentials)) operation_id))
                  end
              end
          end
      end
  end.
End secrets.

(** win32-engine/grpc_server.rs:1304-1341 [HelperControlService::stop_tunnel]: the request's admission. *)
Definition stop_admit (sv : HelperControlService) (extensions : option NamedPipeConnectInfo)
    (lookup_key : option WireOperationLookupKey) (request_digest : list byte) (first second : N) (effect_uuid : Uuid)
    (c : HelperControlCore) : HelperControlCore * result Status (WireOperationLookupKey * OperationLookupKey) :=
  match lookup_key with
  | None => (c, Err (invalid_argument "stop: missing lookup key"))
  | Some wire_key =>
      match bind_mutation sv extensions c wire_key request_digest Method_StopTunnel first second with
      | Err e => (c, Err e)
      | Ok (peer, key, digest) =>
          let '(c, admitted) := admit_and_gate c peer (encode_key wire_key) request_digest key digest
                                  Method_StopTunnel (owned_token_subject c request_digest) (MkEffectId effect_uuid) in
          (c, _ ← admitted; Ok (wire_key, key))
      end
  end.
(** win32-engine/grpc_server.rs:1367-1389 [HelperControlService::stop_tunnel]: the tunnel is forgotten
    and the operation ends, whether the disconnect succeeded or not. *)
Definition stop_finish (wire_key : WireOperationLookupKey) (key : OperationLookupKey) (request_digest : list byte)
    (effect_uuid : Uuid) (c : HelperControlCore) : HelperControlCore * WireMutationReceipt :=
  let c := set_pending_apply ∅ (set_applied_tunnel None c) in
  let receipt := build_wire_receipt c wire_key (sha256 request_digest) effect_uuid in
  (record_terminal key (WT_Succeeded receipt) c, receipt).

(** win32-engine/grpc_server.rs:495-531 [HelperControlService::with_tunnel_runtime]: the observer of the
    connection's status, which ends the operation that waits for it. *)
Definition terminal_observer (c : HelperControlCore) (event : StatusEvent) : HelperControlCore :=
  let ended (terminal : PendingApply → HelperControlCore → WireOperationTerminal) :=
    match co_pending_apply c !! st_operation_id event with
    | None => c
    | Some pending =>
        let c := set_pending_apply (delete (st_operation_id event) (co_pending_apply c)) c in
        record_terminal (pa_key pending) (terminal pending c) c
    end in
  let receipt p c := build_wire_receipt c (pa_wire_key p) (pa_canonical_input_digest p) (pa_effect_uuid p) in
  match st_coarse_phase event with
  | Ph_Connected => ended (λ p c, WT_Succeeded (receipt p c))
  | Ph_Failed =>
      ended (λ p c, WT_Failed (receipt p c) (default (wire_error (pa_wire_key p) ERROR_CODE_UNAUTHORIZED) (st_error event)))
  | _ => c
  end.

(** ** Questions *)

(** win32-engine/grpc_server.rs:1412-1482 [HelperControlService::get_operation] *)
Definition get_operation_state (extensions : option NamedPipeConnectInfo) (lookup_key : option WireOperationLookupKey)
    (c : HelperControlCore) : result Status WireOperationState :=
  '(peer, _) ← transport_peer extensions;
  wire_key ← ok_or lookup_key (invalid_argument "get_operation: missing lookup key");
  key ← map_err (λ e, invalid_argument ("get_operation: " ++ e)) (lookup_key_from_wire wire_key (pc_principal peer));
  Ok match co_terminals c !! canonical_lookup_digest hash64 key with
     | Some terminal => WO_Terminal terminal
     | None =>
         match get_operation hash64 (co_admissions c) key (MkRequestDigest (array_fill 32 x00)) with
         | OpState_Pending => WO_Pending
         | OpState_Unknown => WO_Unknown
         | OpState_AbsentNoEffect _ _ _ =>
             WO_Absent (arr_bytes (sha256 (wk_operation_id wire_key))) (co_authority_epoch c) (co_watermark c)
         | OpState_RejectedNoEffect _ => WO_Rejected (wire_error wire_key ERROR_CODE_UNAUTHORIZED) (wire_fence c)
         | OpState_Terminal _ => WO_Unknown
         end
     end.

(** proto/common.proto:635-722 [IdleState, ConnectingState, ConnectedState, FailedDirtyState, RuntimeSnapshot]:
    what the engine fills in of a snapshot. *)
Inductive ObservedState :=
  | Ob_Idle
  | Ob_Connecting (phase : N)
  | Ob_Connected (session_established_at_ms : N)
  | Ob_FailedDirty (last_error : option WireVpnError).
(** win32-engine/grpc_server.rs:1026-1060 [HelperControlService::observe_owned_state] *)
Definition observe_owned_state (extensions : option NamedPipeConnectInfo) (lookup_key : option WireOperationLookupKey)
    (latest : option StatusEvent) (c : HelperControlCore) : result Status (ObservedState * list byte * WireAuthorityFence) :=
  '(peer, _) ← transport_peer extensions;
  _ ← match lookup_key with
      | Some wire_key =>
          _ ← map_err (λ e, invalid_argument ("observe: " ++ e)) (lookup_key_from_wire wire_key (pc_principal peer)); Ok ()
      | None => Ok ()
      end;
  let state := match latest with
               | Some e =>
                   match st_coarse_phase e with
                   | Ph_Connected => Ob_Connected (st_session_established_at_ms e)
                   | Ph_Connecting => Ob_Connecting (connect_phase_value (st_connect_phase e))
                   | Ph_Failed => Ob_FailedDirty (st_error e)
                   | _ => Ob_Idle
                   end
               | None => Ob_Idle
               end in
  Ok (state, match latest with Some e => st_operation_id e | None => [] end, wire_fence c).

(** proto/helper_control.proto:528-542 [ServiceSelfReport] *)
Record ServiceSelfReport := MkServiceSelfReport {
  ss_control_plane_ready : bool;
  ss_psk_present : bool;
  ss_connection_mode : string;
  ss_runtime_epoch : list byte;
  ss_authority_fence : WireAuthorityFence;
  ss_supported_windows_connection_modes : list Z;
}.
(** win32-engine/grpc_server.rs:1647-1693 [HelperControlService::service_manage]; [query] tells
    whether the action of the request is the query. *)
Definition service_manage (sv : HelperControlService) (extensions : option NamedPipeConnectInfo) (query : bool)
    (control_plane_ready : bool) (c : HelperControlCore) : result Status ServiceSelfReport :=
  _ ← transport_peer extensions;
  if negb query then Err (invalid_argument "ServiceManage: only the query action is supported")
  else
    Ok (MkServiceSelfReport control_plane_ready (hs_psk_present sv)
          (match hs_connection_mode sv with Service => "service" | Oneshot => "oneshot" end)
          (arr_bytes (RuntimeEpoch_0 (hs_runtime_epoch sv))) (wire_fence c) [1; 2]%Z).

(** ** Streams *)

(** win32-engine/grpc_server.rs:1554-1576 [HelperControlService::stream_logs] *)
Definition stream_logs (extensions : option NamedPipeConnectInfo) (resume_tick : N) (log : LogSink) : LogSink * result Status () :=
  match transport_peer extensions with
  | Err e => (log, Err e)
  | Ok _ => (open_log_stream resume_tick log, Ok ())
  end.
(** win32-engine/grpc_server.rs:1578-1601 [HelperControlService::stream_stats]: the interval of the
    sampler that is started. *)
Definition stream_stats (extensions : option NamedPipeConnectInfo) (sample_interval_ms : N) : result Status N :=
  _ ← transport_peer extensions; Ok (sample_interval sample_interval_ms).
(** win32-engine/grpc_server.rs:1603-1626 [HelperControlService::stream_connect_status] *)
Definition stream_connect_status (extensions : option NamedPipeConnectInfo) (status : StatusPublisher) :
    StatusPublisher * result Status () :=
  match transport_peer extensions with
  | Err e => (status, Err e)
  | Ok _ => (open_stream status, Ok ())
  end.

(** ** Liveness and shutdown *)

(** win32-engine/grpc_server.rs:1628-1645 [HelperControlService::keep_alive] *)
Definition keep_alive (extensions : option NamedPipeConnectInfo) (monotonic_tick elapsed : N) (h : HeartbeatWatch) :
    HeartbeatWatch * result Status N :=
  match transport_peer extensions with
  | Err e => (h, Err e)
  | Ok _ => (touch elapsed h, Ok monotonic_tick)
  end.

(** proto/helper_control.proto:567-572 [ShutdownOutcome] *)
Inductive ShutdownOutcome := SO_Accepted | SO_AlreadyStopping | SO_NotApplicable.
(** win32-engine/grpc_server.rs:1695-1758 [HelperControlService::shutdown]; an accepted request starts
    the task that gives the stop signal after [SHUTDOWN_TRIGGER_DELAY]. *)
Definition shutdown (sv : HelperControlService) (extensions : option NamedPipeConnectInfo) (armed : bool) :
    bool * result Status ShutdownOutcome :=
  match transport_peer extensions with
  | Err e => (armed, Err e)
  | Ok _ =>
      if negb (hs_shutdown_signal sv) then (armed, Ok SO_NotApplicable)
      else if negb (bool_decide (hs_connection_mode sv = Service)) then (armed, Ok SO_NotApplicable)
      else if armed then (true, Ok SO_AlreadyStopping)
      else (true, Ok SO_Accepted)
  end.

(** ** The owner's stream *)

(** win32-engine/grpc_server.rs:807-822 [HelperControlService::maintain_owner_lease]: the stream's task. *)
Record LeaseStream := MkLeaseStream {
  ls_peer : PeerContext;
  ls_connection : ConnectionBinding;
  ls_established : bool;
  ls_lease_id : Uuid;
  ls_reading : bool;
}.
Definition end_reading (st : LeaseStream) : LeaseStream :=
  MkLeaseStream (ls_peer st) (ls_connection st) (ls_established st) (ls_lease_id st) false.

(** win32-engine/grpc_server.rs:803-820 [HelperControlService::maintain_owner_lease] *)
Definition maintain_owner_lease (extensions : option NamedPipeConnectInfo) : result Status LeaseStream :=
  '(peer, connection) ← transport_peer extensions;
  Ok (MkLeaseStream peer connection false Uuid_nil true).

(** win32-engine/grpc_server.rs:835-844 [HelperControlService::maintain_owner_lease]: the echo of the
    runtime epoch. *)
Definition epoch_echoed (sv : HelperControlService) (bytes : list byte) : bool :=
  match to_array 16 bytes with
  | Some uuid => match RuntimeEpoch_try_from uuid with
                 | Ok epoch => bool_decide (epoch = hs_runtime_epoch sv)
                 | Err _ => false
                 end
  | None => false
  end.
(** win32-engine/grpc_server.rs:849-855 [HelperControlService::maintain_owner_lease]: what a handshake
    has to declare. *)
Definition handshake_ok (st : LeaseStream) (principal_digest capability_digest channel_identity_digest : list byte) : bool :=
  match to_array 32 principal_digest with
  | Some d => match digest_try_from MkPrincipalDigest d with
              | Ok p => bool_decide (p = pc_principal (ls_peer st))
              | Err _ => false
              end
  | None => false
  end && bool_decide (length capability_digest = 32) && bool_decide (length channel_identity_digest = 32).

(** win32-engine/grpc_server.rs:951-990 [HelperControlService::maintain_owner_lease]: the owner confirms
    its token. *)
Definition token_received (token_digest : list byte) (c : HelperControlCore) : HelperControlCore :=
  let ack_input :=
    owner ← co_owner c;
    digest ← to_array 32 token_digest;
    lease ← lease_of (co_leases c) (os_connection owner);
    Some (os_connection owner, lease, MkTokenDigest digest) in
  match ack_input with
  | Some (connection, lease, token) =>
      set_leases (lease_ack (co_leases c) connection (ol_key lease) (ol_request_digest lease) (ol_ownership_version lease) token).1 c
  | None => c
  end.

(** win32-engine/grpc_server.rs:824-996 [HelperControlService::maintain_owner_lease]: one message of the
    owner; [sent] tells whether the answer could be sent. *)
Definition lease_message (sv : HelperControlService) (fresh : Uuid) (sent : bool) (m : HostLeaseMessage)
    (st : LeaseStream) (c : HelperControlCore) : HelperControlCore * LeaseStream * option HelperLeaseMessage :=
  let is_handshake := match hl_message m with Some (HM_Handshake _ _ _) => true | _ => false end in
  let answer id body := MkHelperLeaseMessage (arr_bytes id) (arr_bytes (RuntimeEpoch_0 (hs_runtime_epoch sv))) body in
  let after st := if sent then st else end_reading st in
  if negb (ls_established st) && negb is_handshake then (c, end_reading st, None)
  else if ls_established st && negb is_handshake && negb (epoch_echoed sv (hl_runtime_epoch m)) then (c, end_reading st, None)
  else
    match hl_message m with
    | Some (HM_Handshake principal_digest capability_digest channel_identity_digest) =>
        if negb (handshake_ok st principal_digest capability_digest channel_identity_digest) then
          (c, end_reading st, Some (answer (ls_lease_id st) (HE_OwnerLost wire_error_no_subject)))
        else if match co_owner c with Some existing => negb (bool_decide (os_peer existing = ls_peer st)) | None => false end
        then (c, end_reading st, None)
        else
          let c := set_owner (Some (MkOwnerSession (ls_peer st) (ls_connection st))) c in
          let st := MkLeaseStream (ls_peer st) (ls_connection st) true fresh (ls_reading st) in
          (c, after st, Some (answer fresh (HE_HandshakeAccepted (wire_fence c))))
    | Some (HM_Keepalive monotonic_tick) =>
        if negb (ls_established st) then (c, end_reading st, None)
        else (c, after st, Some (answer (ls_lease_id st) (HE_KeepaliveAck monotonic_tick)))
    | Some (HM_OwnershipTokenReceived _ token_digest) => (token_received token_digest c, st, None)
    | None => (c, st, None)
    end.

(** win32-engine/grpc_server.rs:998-1021 [HelperControlService::maintain_owner_lease]: the end of the
    stream; a service gives up the owner of the connection. *)
Definition lease_stream_end (sv : HelperControlService) (st : LeaseStream) (c : HelperControlCore) : HelperControlCore :=
  match hs_connection_mode sv with
  | Oneshot => c
  | Service =>
      match co_owner c with
      | Some owner =>
          if bool_decide (os_connection owner = ls_connection st) then
            let c := set_leases (lease_terminate (co_leases c) (os_connection owner)).1 c in
            set_ownership_version (sat64 (co_ownership_version c) 1) (set_owner None c)
          else c
      | None => c
      end
  end.

End Control.
