(* ===== verification/EngineControlSafe.v ===== *)
(** * What the control service keeps

    Invariants of the state behind the endpoint of [EngineControl], handler by handler: there
    is a lease only for the owner, of the current version; what is recorded as admitted is
    what the sequencer admitted, one operation for each identity; an operation that waits for
    its end was admitted; and an operation has ended only if its end was told. *)

From Stdlib Require Import NArith ZArith Strings.Byte Strings.String Lia.
From S2P Require Import Prelude Identity Model Admission AdmissionIndex Authority Delivery Text Wire Config.
From S2P Require Import Channel EngineStatus EngineLog EngineRuntime EngineOwner EngineControl.

Section Safe.
Context `{!RecordCodec} (sha256 : list byte → Digest) (hash64 : N → list byte → N).
Context (encode_key encode_subject : WireOperationLookupKey → list byte).

#[local] Abbreviation digest_of := (canonical_lookup_digest hash64).
#[local] Abbreviation admit_and_gate := (admit_and_gate sha256 hash64).
#[local] Abbreviation acquire_lease := (acquire_lease sha256 hash64 encode_key encode_subject).
#[local] Abbreviation release_lease := (release_lease sha256 hash64 encode_key).
#[local] Abbreviation apply_admit := (apply_admit sha256 hash64 encode_key).
#[local] Abbreviation stop_admit := (stop_admit sha256 hash64 encode_key).
#[local] Abbreviation stop_finish := (stop_finish sha256 hash64).
#[local] Abbreviation terminal_observer := (terminal_observer hash64 encode_subject).

(** ** Who owns *)

(** Only the owner has a lease, of the current version. *)
Record owner_inv (c : HelperControlCore) : Prop := {
  ow_lease : lease_inv (co_leases c);
  ow_owned k l : lease_of (co_leases c) k = Some l →
    ∃ o, co_owner c = Some o ∧ os_connection o = k ∧ OwnershipVersion_0 (ol_ownership_version l) = co_ownership_version c;
  ow_peer o : co_owner c = Some o → os_connection o = pc_connection (os_peer o);
  ow_version : (0 < co_ownership_version c < two64)%N;
}.

Lemma owner_inv_same c c' :
  co_leases c' = co_leases c → co_owner c' = co_owner c → co_ownership_version c' = co_ownership_version c →
  owner_inv c → owner_inv c'.
Proof. intros El Eo Ev [? Hl ? ?]. split; rewrite ?El, ?Eo, ?Ev; auto. Qed.

(** The owner is given up: its lease ends, and the version moves on. *)
Lemma owner_inv_retire c c' o :
  co_owner c = Some o → co_leases c' = (lease_terminate (co_leases c) (os_connection o)).1 → co_owner c' = None →
  co_ownership_version c' = sat64 (co_ownership_version c) 1 → owner_inv c → owner_inv c'.
Proof.
  intros Ho El Eo Ev [Hi Hl Hp Hv]. split; rewrite ?El, ?Eo, ?Ev; [by apply lease_inv_terminate| |done|unfold sat64; lia].
  intros k l. rewrite (lease_of_terminate _ _ _ Hi). destruct (decide _) as [|Hne]; [done|].
  intros (o' & Ho' & <- & _)%Hl. congruence.
Qed.

Lemma owner_inv_issue c k d t o :
  co_owner c = Some o → owner_inv c →
  owner_inv (set_leases (lease_issue (co_leases c) (os_connection o) k d (MkOwnershipVersion (co_ownership_version c)) t).1 c).
Proof.
  intros Ho [Hi Hl Hp Hv]. split; simpl; [by apply lease_inv_issue| |done|done]. intros k' l Hk'.
  destruct (lease_issue (co_leases c) (os_connection o) k d (MkOwnershipVersion (co_ownership_version c)) t).2 eqn:E.
  1,2: destruct (lease_of_issue _ (os_connection o) k d (MkOwnershipVersion (co_ownership_version c)) t Hi ltac:(by rewrite E))
         as (l' & Hl' & Hv' & _ & Hother);
       (destruct (decide (k' = os_connection o)) as [->|Hne]; [|apply Hl; by rewrite <-Hother]);
       (assert (l = l') as -> by congruence); exists o; by rewrite Hv'.
  apply Hl. unfold lease_of in *. by rewrite <-(lease_issue_refused _ _ _ _ _ _ E).
Qed.

Lemma owner_inv_token c token_digest : owner_inv c → owner_inv (token_received token_digest c).
Proof.
  intros Hinv. unfold token_received. destruct (co_owner c) as [o|] eqn:Ho; simpl; [|done].
  destruct (to_array 32 token_digest) as [d|]; simpl; [|done].
  destruct (lease_of (co_leases c) (os_connection o)) as [l|] eqn:El; simpl; [|done].
  destruct Hinv as [Hi Hl Hp Hv]. split; simpl; [by apply lease_inv_ack| |exact Hp|done].
  intros k l'. match goal with |- lease_of (lease_ack ?m ?c ?k ?d ?v ?t).1 ?c' = _ → _ => destruct (lease_of_ack m c k d v t c') as [->|[-> ->]] end; [apply Hl|done].
Qed.

Lemma owner_inv_take c peer connection :
  (∀ existing, co_owner c = Some existing → os_peer existing = peer) → connection = pc_connection peer →
  owner_inv c → owner_inv (set_owner (Some (MkOwnerSession peer connection)) c).
Proof.
  intros Hsame -> [Hi Hl Hp Hv]. split; simpl; [done| |by intros o [= <-]|done].
  intros k l (o & Ho & <- & Hver)%Hl. eexists. split; [done|]. simpl. split; [|done].
  rewrite (Hp o Ho). by rewrite (Hsame o Ho).
Qed.

Lemma owner_inv_message sv fresh sent m st c :
  ls_connection st = pc_connection (ls_peer st) → owner_inv c → owner_inv (lease_message sv fresh sent m st c).1.1.
Proof.
  intros Hst Hc. unfold lease_message. repeat (case_match; simpl; try done).
  all: try by apply owner_inv_token.
  all: apply owner_inv_take; [|done|done]; intros existing He.
  all: simplify_eq; match goal with H : negb _ = false |- _ => by apply negb_false_iff, bool_decide_eq_true in H end.
Qed.
Lemma owner_inv_end sv st c : owner_inv c → owner_inv (lease_stream_end sv st c).
Proof.
  intros Hc. unfold lease_stream_end. destruct (hs_connection_mode sv); [done|].
  destruct (co_owner c) as [o|] eqn:Ho; [|done]. case_bool_decide; [|done].
  eapply owner_inv_retire; [exact Ho|reflexivity..|exact Hc].
Qed.

(** ** What was admitted *)

(** Whether the operation was admitted and recorded. *)
Definition admitted (c : HelperControlCore) (key : OperationLookupKey) : Prop := is_Some (mi_durable (co_ingress c) !! key).

(** The sequencer only ever admits here, under the identity of its record, and what is
    recorded is what it admitted. *)
Record admit_inv (c : HelperControlCore) : Prop := {
  am_entries d e : ai_entries (co_admissions c) !! d = Some e →
    ∃ rd r key, e = IE_Admitted rd r ∧ ma_journal_operation_identity r = JOI_External key ∧ digest_of key = d;
  am_durable key r : mi_durable (co_ingress c) !! key = Some r →
    ma_journal_operation_identity r = JOI_External key ∧
    ∃ rd, ai_entries (co_admissions c) !! digest_of key = Some (IE_Admitted rd r);
}.

(** What an admission can change: it adds records. *)
Record grown (c c' : HelperControlCore) : Prop := {
  gr_leases : co_leases c' = co_leases c;
  gr_owner : co_owner c' = co_owner c;
  gr_version : co_ownership_version c' = co_ownership_version c;
  gr_applied : co_applied_tunnel c' = co_applied_tunnel c;
  gr_pending : co_pending_apply c' = co_pending_apply c;
  gr_terminals : co_terminals c' = co_terminals c;
  gr_durable : mi_durable (co_ingress c) ⊆ mi_durable (co_ingress c');
}.

(** The identity of an operation is recorded once. *)
Lemma admitted_once c key key' : admit_inv c → admitted c key → admitted c key' → digest_of key = digest_of key' → key = key'.
Proof.
  intros [_ Hd] [r Hr] [r' Hr'] E. destruct (Hd _ _ Hr) as (Hk & rd & He), (Hd _ _ Hr') as (Hk' & rd' & He').
  rewrite E, He' in He. congruence.
Qed.

Lemma admit_inv_index c input :
  admit_inv c →
  admit_inv (set_admissions (index_admit hash64 (co_admissions c) input).1 c) ∧
  (∀ r, (index_admit hash64 (co_admissions c) input).2 = AO_Admitted r →
     ∃ rd kr, ai_entries (index_admit hash64 (co_admissions c) input).1 !! digest_of (mai_key input) = Some (IE_Admitted rd r) ∧
       ma_journal_operation_identity r = JOI_External kr ∧ digest_of kr = digest_of (mai_key input)).
Proof.
  intros [He Hd]. unfold index_admit. destruct (ai_entries _ !! digest_of (mai_key input)) as [e|] eqn:E.
  - destruct (He _ _ E) as (rd & r & kr & -> & Hk & Hkd). simpl. split; [by split|].
    intros r' Hr'. case_bool_decide; [injection Hr' as <-|discriminate Hr']. exists rd, kr. done.
  - simpl. split.
    + split; simpl.
      * intros d e. rewrite lookup_insert_Some. intros [[<- <-]|[_ Hin]]; [|eauto]. eexists _, _, _. by split_and!.
      * intros key r Hr. destruct (Hd key r Hr) as (Hk & rd & Hin). split; [done|]. exists rd.
        rewrite lookup_insert_ne; [done|congruence].
    + intros r [= <-]. rewrite lookup_insert_eq. eauto.
Qed.

Lemma admit_inv_durable c r kr rd :
  admit_inv c → ma_journal_operation_identity r = JOI_External kr →
  ai_entries (co_admissions c) !! digest_of kr = Some (IE_Admitted rd r) →
  admit_inv (set_ingress (durable_before_reply (co_ingress c) r).1 c) ∧
  mi_durable (co_ingress c) ⊆ mi_durable (durable_before_reply (co_ingress c) r).1.
Proof.
  intros [He Hd] Hk Hr. unfold durable_before_reply. destruct (codec_decode _) as [[]|]; try (split; [by split|done]). rewrite Hk. simpl. split.
  - split; simpl; [done|]. intros key r'. rewrite lookup_insert_Some. intros [[<- <-]|[_ Hin]]; eauto.
  - apply map_subseteq_spec. intros key r' Hin. rewrite lookup_insert_Some. destruct (decide (kr = key)) as [<-|]; [|by right].
    left. split; [done|]. destruct (Hd _ _ Hin) as (_ & rd' & Hin'). rewrite Hr in Hin'. congruence.
Qed.

(** What [admit_and_gate] does: it records at most one operation, and lets it through only
    with the lease of the owner. *)
Lemma admit_gate_spec c peer wb rq key d method subject effect :
  admit_inv c →
  admit_inv (admit_and_gate c peer wb rq key d method subject effect).1 ∧
  grown c (admit_and_gate c peer wb rq key d method subject effect).1 ∧
  (∀ r, (admit_and_gate c peer wb rq key d method subject effect).2 = Ok r →
     admitted (admit_and_gate c peer wb rq key d method subject effect).1 key ∧
     ∃ o l, co_owner c = Some o ∧ lease_of (co_leases c) (os_connection o) = Some l).
Proof.
  intros Hinv. unfold EngineControl.admit_and_gate.
  set (input := admission_input _ _ _ _ _ _ _ _ _ _). pose proof (admit_inv_index c input Hinv) as [Ha Hr].
  destruct (index_admit hash64 (co_admissions c) input) as [admissions outcome]. simpl in Ha, Hr.
  destruct outcome as [r| | |]; try (split; [exact Ha|split; [by split|by intros]]).
  destruct (Hr r eq_refl) as (rd & kr & He & Hk & Hkd). rewrite <-Hkd in He.
  destruct (admit_inv_durable _ r kr rd Ha Hk He) as [Hb Hsub]. simpl in Hb, Hsub.
  simpl. destruct (durable_before_reply (co_ingress c) r) as [ingress durable]. simpl in Hb, Hsub |- *.
  destruct durable; simpl; [|split; [exact Hb|split; [by split|by intros]]].
  destruct (co_owner c) as [o|] eqn:Ho; simpl; [|split; [exact Hb|split; [by split; simpl; rewrite ?Ho|by intros]]].
  destruct (lease_of (co_leases c) (os_connection o)) as [l|] eqn:El; simpl;
    [|split; [exact Hb|split; [by split; simpl; rewrite ?Ho|by intros]]].
  unfold ingress_admit. simpl. destruct (mi_durable ingress !! key) as [r'|] eqn:Ei; simpl;
    (split; [by destruct Hb; split|split; [by split; simpl; rewrite ?Ho|]]); [|by intros].
  intros r0 _. split; [by exists r'|by exists o, l].
Qed.

Lemma admitted_grown c c' key : grown c c' → admitted c key → admitted c' key.
Proof. intros [? ? ? ? ? ? Hd] [r Hr]. exists r. by eapply lookup_weaken. Qed.

(** ** Who may ask *)

Definition op_of (key : OperationLookupKey) : list byte := arr_bytes (OperationId_0 (olk_operation_id key)).
Definition names (w : WireOperationLookupKey) (key : OperationLookupKey) : Prop := ∃ reported, w = key_to_wire reported key.

Lemma transport_peer_spec ext peer connection :
  transport_peer ext = Ok (peer, connection) → connection = pc_connection peer ∧ ∃ info, ext = Some info ∧ ci_verified info = true
    ∧ pc_principal peer = ci_principal info ∧ connection = MkConnectionBinding (ci_connection_digest info).
Proof.
  destruct ext as [info|]; [|done]. unfold transport_peer. simpl. destruct (ci_verified info) eqn:E; [|done].
  simpl. intros [= <- <-]. simpl. eauto 10.
Qed.

(** A mutation is bound only for the owner, over its own verified connection, and names an
    operation of the owner's. *)
Lemma bind_mutation_spec sv ext c wk rd method t1 t2 peer key d :
  bind_mutation sv ext c wk rd method t1 t2 = Ok (peer, key, d) →
  (∃ connection, transport_peer ext = Ok (peer, connection)) ∧
  (∃ o, co_owner c = Some o ∧ os_peer o = peer) ∧
  olk_principal_digest key = pc_principal peer ∧ olk_method key = method ∧ names wk key ∧ wk_operation_id wk = op_of key.
Proof.
  unfold bind_mutation. intros Hm0. apply bind_Ok in Hm0 as ([peer' connection] & Ht & Hm0). apply bind_Ok in Hm0 as (o & Ho%ok_or_Ok & Hm0).
  case_bool_decide as Hp; simpl in Hm0; [|done]. apply bind_Ok in Hm0 as (b & Hb & Hm0).
  destruct (kernel_request_to_operation _ _ _ _ _) as [b'|] eqn:Ek; simpl in Hb; [|done]. injection Hb as ->.
  injection Hm0 as -> <- <-. apply kernel_request_bound in Ek as (_ & Hpr & _ & [r Hr] & Hm & _). simpl in Hr, Hm.
  split_and!; [by exists connection|by exists o|done|done|by exists r|by rewrite Hr].
Qed.

(** ** How operations end *)

Section history.
(** The statuses the observer was told. *)
Variable h : list StatusEvent.

(** The operation ended as [t] says: a success was admitted, and a connection ended as its
    status was told. *)
Definition told (c : HelperControlCore) (d : OperationLookupKeyDigest) (t : WireOperationTerminal) : Prop :=
  ∃ key, names (wr_identity (terminal_receipt t)) key ∧ digest_of key = d ∧
    match t with
    | WT_Succeeded _ =>
        admitted c key ∧
        (olk_method key = Method_ApplyTunnel → ∃ e, e ∈ h ∧ st_operation_id e = op_of key ∧ st_coarse_phase e = Ph_Connected)
    | WT_Failed _ error =>
        olk_method key = Method_AcquireLease ∨
        admitted c key ∧ olk_method key = Method_ApplyTunnel ∧
        ∃ e, e ∈ h ∧ st_operation_id e = op_of key ∧ st_coarse_phase e = Ph_Failed
             ∧ (is_Some (st_error e) → st_error e = Some error)
    end.
Record ended_inv (c : HelperControlCore) : Prop := {
  en_pending op p : co_pending_apply c !! op = Some p →
    names (pa_wire_key p) (pa_key p) ∧ op_of (pa_key p) = op ∧ olk_method (pa_key p) = Method_ApplyTunnel ∧ admitted c (pa_key p);
  en_terminals d t : co_terminals c !! d = Some t → told c d t;
}.

Record core_inv (c : HelperControlCore) : Prop := {
  ci_owner_inv : owner_inv c;
  ci_admit_inv : admit_inv c;
  ci_ended_inv : ended_inv c;
}.

Lemma told_mono c c' d t : (∀ key, admitted c key → admitted c' key) → told c d t → told c' d t.
Proof. intros Hm (key & ? & ? & Ht). exists key. split_and!; [done..|]. destruct t; naive_solver. Qed.

Lemma ended_inv_mono c c' :
  (∀ key, admitted c key → admitted c' key) → co_pending_apply c' ⊆ co_pending_apply c → co_terminals c' = co_terminals c →
  ended_inv c → ended_inv c'.
Proof.
  intros Hm Hp Et [Hpend Hterm]. split.
  - intros op p Hin. destruct (Hpend op p) as (? & ? & ? & ?); [by eapply lookup_weaken|]. auto.
  - intros d t. rewrite Et. intros Hin. eapply told_mono; eauto.
Qed.

Lemma core_inv_grown c c' : grown c c' → admit_inv c' → core_inv c → core_inv c'.
Proof.
  intros Hg Ha [Ho _ He]. split; [|done|].
  - by eapply owner_inv_same; [apply Hg..|].
  - eapply ended_inv_mono; [|by rewrite (gr_pending _ _ Hg)|apply Hg|done]. intros key. by apply admitted_grown.
Qed.

Lemma core_inv_gate c peer wb rq key d method subject effect :
  core_inv c → core_inv (admit_and_gate c peer wb rq key d method subject effect).1.
Proof.
  intros Hc. destruct (admit_gate_spec c peer wb rq key d method subject effect (ci_admit_inv _ Hc)) as (Ha & Hg & _).
  by eapply core_inv_grown.
Qed.

(** Only who owns, and the lease, changed. *)
Lemma core_inv_owner c c' :
  co_ingress c' = co_ingress c → co_admissions c' = co_admissions c → co_pending_apply c' ⊆ co_pending_apply c →
  co_terminals c' = co_terminals c → owner_inv c' → core_inv c → core_inv c'.
Proof.
  intros Ei Ea Ep Et Ho [_ [He Hd] Hn]. split; [done|split; rewrite ?Ei, Ea; auto|].
  eapply ended_inv_mono; [|exact Ep|exact Et|exact Hn]. intros key. unfold admitted. by rewrite Ei.
Qed.

Lemma core_inv_record c key t :
  names (wr_identity (terminal_receipt t)) key → told c (digest_of key) t → core_inv c → core_inv (record_terminal hash64 key t c).
Proof.
  intros Hn Ht [Ho [He Hd] [Hp Hterm]]. split; [by eapply owner_inv_same; [..|exact Ho]|by split|]. split; [exact Hp|].
  intros d t'. simpl. rewrite lookup_insert_Some. intros [[<- <-]|[_ Hin]]; [|apply Hterm in Hin].
  all: by eapply told_mono; [|eassumption].
Qed.

(** ** The handlers *)

Lemma core_inv_issue c k d t o :
  co_owner c = Some o → core_inv c →
  core_inv (set_leases (lease_issue (co_leases c) (os_connection o) k d (MkOwnershipVersion (co_ownership_version c)) t).1 c).
Proof. intros Ho Hc. apply (core_inv_owner c); [reflexivity..| |exact Hc]. by apply owner_inv_issue, Hc. Qed.

(** A mutation other than a connection ends when it was admitted. *)
Lemma core_inv_succeed c peer wb rq key d method subject effect wk receipt :
  core_inv c → names wk key → olk_method key ≠ Method_ApplyTunnel → wr_identity receipt = wk →
  is_ok (admit_and_gate c peer wb rq key d method subject effect).2 = true →
  core_inv (record_terminal hash64 key (WT_Succeeded receipt) (admit_and_gate c peer wb rq key d method subject effect).1).
Proof.
  intros Hc Hn Hm Hr Hok. destruct (admit_gate_spec c peer wb rq key d method subject effect (ci_admit_inv _ Hc)) as (_ & _ & Had).
  destruct (admit_and_gate c peer wb rq key d method subject effect).2 as [r|] eqn:E; [|done].
  destruct (Had r eq_refl) as [Hadm _]. apply core_inv_record; [by rewrite <-Hr in Hn| |by apply core_inv_gate].
  exists key. rewrite <-Hr in Hn. by split_and!.
Qed.

Lemma core_inv_acquire sv ext lk rd t1 t2 eff c : core_inv c → core_inv (acquire_lease sv ext lk rd t1 t2 eff c).1.
Proof.
  intros Hc. unfold EngineControl.acquire_lease. destruct lk as [wk|]; [|done].
  destruct (bind_mutation _ _ _ _ _ _ _ _) as [[[peer key] d]|] eqn:Eb; [|done].
  apply bind_mutation_spec in Eb as (_ & _ & _ & Hm & Hn & _). destruct (co_owner c) as [o|] eqn:Ho; [|done].
  pose proof (core_inv_issue c key d (MkTokenDigest (sha256 rd)) o Ho Hc) as Hi.
  destruct (lease_issue _ _ _ _ _ _) as [leases issue]. simpl in Hi. set (c1 := set_leases leases c) in *.
  destruct issue; cycle 2.
  { apply core_inv_record; [done| |done]. exists key. split_and!; [done..|by left]. }
  all: match goal with |- context [EngineControl.admit_and_gate _ _ ?c1 ?p ?wb ?rq ?k ?d ?m ?s ?e] =>
         pose proof (core_inv_gate c1 p wb rq k d m s e Hi) as Hg;
         pose proof (λ rc, core_inv_succeed c1 p wb rq k d m s e (wr_identity rc) rc Hi) as Hs;
         destruct (admit_and_gate c1 p wb rq k d m s e) as [c2 adm] end.
  all: destruct adm; [apply Hs; [exact Hn|by rewrite Hm|reflexivity|reflexivity]|exact Hg].
Qed.

Lemma core_inv_release sv ext lk rd t1 t2 eff c : core_inv c → core_inv (release_lease sv ext lk rd t1 t2 eff c).1.
Proof.
  intros Hc. unfold EngineControl.release_lease. destruct lk as [wk|]; [|done].
  destruct (bind_mutation _ _ _ _ _ _ _ _) as [[[peer key] d]|] eqn:Eb; [|done].
  apply bind_mutation_spec in Eb as (_ & _ & _ & Hm & Hn & _).
  match goal with |- context [EngineControl.admit_and_gate _ _ c ?p ?wb ?rq ?k ?d ?m ?s ?e] =>
    pose proof (core_inv_gate c p wb rq k d m s e Hc) as Hg;
    pose proof (admit_gate_spec c p wb rq k d m s e (ci_admit_inv _ Hc)) as (_ & _ & Had);
    destruct (admit_and_gate c p wb rq k d m s e) as [c2 adm] end.
  destruct adm as [r|]; [|exact Hg]. destruct (Had r eq_refl) as [Hadm _]. simpl in Hadm, Hg |- *.
  destruct (co_owner c2) as [o|] eqn:Ho; [|exact Hg]. apply core_inv_record; [done| |].
  - exists key. split_and!; [done|done|done|]. by rewrite Hm.
  - apply (core_inv_owner c2); [reflexivity|reflexivity|apply map_empty_subseteq|reflexivity| |exact Hg].
    eapply owner_inv_retire; [exact Ho|reflexivity..|apply Hg].
Qed.

Lemma core_inv_stop_admit sv ext lk rd t1 t2 eff c : core_inv c → core_inv (stop_admit sv ext lk rd t1 t2 eff c).1.
Proof.
  intros Hc. unfold EngineControl.stop_admit. destruct lk as [wk|]; [|done].
  destruct (bind_mutation _ _ _ _ _ _ _ _) as [[[peer key] d]|] eqn:Eb; [|done].
  match goal with |- context [EngineControl.admit_and_gate _ _ c ?p ?wb ?rq ?k ?d ?m ?s ?e] =>
    pose proof (core_inv_gate c p wb rq k d m s e Hc) as Hg; by destruct (admit_and_gate c p wb rq k d m s e) as [c2 adm] end.
Qed.
Lemma stop_admitted sv ext lk rd t1 t2 eff c wk key :
  core_inv c → (stop_admit sv ext lk rd t1 t2 eff c).2 = Ok (wk, key) →
  names wk key ∧ olk_method key = Method_StopTunnel ∧ admitted (stop_admit sv ext lk rd t1 t2 eff c).1 key.
Proof.
  intros Hc. unfold EngineControl.stop_admit. destruct lk as [wk'|]; [|done].
  destruct (bind_mutation _ _ _ _ _ _ _ _) as [[[peer key'] d]|] eqn:Eb; [|done].
  apply bind_mutation_spec in Eb as (_ & _ & _ & Hm & Hn & _).
  match goal with |- context [EngineControl.admit_and_gate _ _ c ?p ?wb ?rq ?k ?d ?m ?s ?e] =>
    pose proof (admit_gate_spec c p wb rq k d m s e (ci_admit_inv _ Hc)) as (_ & _ & Had);
    destruct (admit_and_gate c p wb rq k d m s e) as [c2 [r|]] end; [|done].
  destruct (Had r eq_refl) as [Hadm _]. simpl. by intros [= <- <-].
Qed.
Lemma core_inv_stop_finish wk key rd eff c :
  names wk key → olk_method key = Method_StopTunnel → admitted c key → core_inv c → core_inv (stop_finish wk key rd eff c).1.
Proof.
  intros Hn Hm Had Hc. unfold EngineControl.stop_finish. simpl. apply core_inv_record; [done| |].
  - exists key. split_and!; [done|done|exact Had|by rewrite Hm].
  - apply (core_inv_owner c); [reflexivity|reflexivity|apply map_empty_subseteq|reflexivity| |exact Hc].
    by eapply owner_inv_same; [..|apply Hc].
Qed.

Lemma core_inv_message sv fresh sent m st c :
  ls_connection st = pc_connection (ls_peer st) → core_inv c → core_inv (lease_message sv fresh sent m st c).1.1.
Proof.
  intros Hst Hc. assert (owner_inv (lease_message sv fresh sent m st c).1.1) as Ho by (by apply owner_inv_message, Hc).
  revert Ho. unfold lease_message, token_received. repeat (case_match; simpl; try done).
  all: intros Ho; (apply (core_inv_owner c); [reflexivity..|exact Ho|exact Hc]).
Qed.
Lemma core_inv_end sv st c : core_inv c → core_inv (lease_stream_end sv st c).
Proof.
  intros Hc. assert (owner_inv (lease_stream_end sv st c)) as Ho by (by apply owner_inv_end, Hc).
  revert Ho. unfold lease_stream_end. repeat (case_match; simpl; try done).
  intros Ho. (apply (core_inv_owner c); [reflexivity..|exact Ho|exact Hc]).
Qed.

Lemma core_inv_apply from_slice zeroize sv ext rq t1 t2 eff c :
  core_inv c → core_inv (apply_admit from_slice zeroize sv ext rq t1 t2 eff c).1.1.
Proof.
  intros Hc. unfold EngineControl.apply_admit. destruct (aq_lookup_key rq) as [wk|], (aq_plan rq) as [wp|]; try exact Hc.
  destruct (bind_mutation _ _ _ _ _ _ _ _) as [[[peer key] d]|] eqn:Eb; [|exact Hc].
  apply bind_mutation_spec in Eb as (_ & _ & _ & Hm & Hn & Hop). destruct (tunnel_plan_from_wire wp); [|exact Hc].
  destruct (parse_request_secret _ _ _) as [payload [cred|]]; [|exact Hc].
  destruct (windows_connection_mode_from_wire _); [|exact Hc].
  match goal with |- context [EngineControl.admit_and_gate _ _ c ?p ?wb ?rq ?k ?d ?m ?s ?e] =>
    pose proof (core_inv_gate c p wb rq k d m s e Hc) as Hg;
    pose proof (admit_gate_spec c p wb rq k d m s e (ci_admit_inv _ Hc)) as (_ & _ & Had);
    destruct (admit_and_gate c p wb rq k d m s e) as [c2 [r|]] end; [|exact Hg].
  destruct (Had r eq_refl) as [Hadm _]. simpl in Hg, Hadm |- *. destruct Hg as [Ho [He Hd] [Hp Hterm]].
  split; [by eapply owner_inv_same; [..|exact Ho]|by split|]. split; simpl; [|exact Hterm].
  intros op p. rewrite lookup_insert_Some. intros [[<- <-]|[_ Hin]]; [|by apply Hp]. by split_and!.
Qed.
(** What the runtime is given was admitted, as a connection of that operation. *)
Lemma apply_admitted from_slice zeroize sv ext rq t1 t2 eff c ctx :
  core_inv c → (apply_admit from_slice zeroize sv ext rq t1 t2 eff c).2 = Ok ctx →
  ∃ key, olk_method key = Method_ApplyTunnel ∧ op_of key = cx_operation_id ctx ∧
    admitted (apply_admit from_slice zeroize sv ext rq t1 t2 eff c).1.1 key.
Proof.
  intros Hc. unfold EngineControl.apply_admit. destruct (aq_lookup_key rq) as [wk|], (aq_plan rq) as [wp|]; try done.
  destruct (bind_mutation _ _ _ _ _ _ _ _) as [[[peer key] d]|] eqn:Eb; [|done].
  apply bind_mutation_spec in Eb as (_ & _ & _ & Hm & Hn & Hop). destruct (tunnel_plan_from_wire wp); [|done].
  destruct (parse_request_secret _ _ _) as [payload [cred|]]; [|done].
  destruct (windows_connection_mode_from_wire _); [|done].
  match goal with |- context [EngineControl.admit_and_gate _ _ c ?p ?wb ?rq ?k ?d ?m ?s ?e] =>
    pose proof (admit_gate_spec c p wb rq k d m s e (ci_admit_inv _ Hc)) as (_ & _ & Had);
    destruct (admit_and_gate c p wb rq k d m s e) as [c2 [r|]] end; [|done].
  destruct (Had r eq_refl) as [Hadm _]. simpl. intros [= <-]. by exists key.
Qed.
End history.

Lemma core_inv_more h h' c : h ⊆ h' → core_inv h c → core_inv h' c.
Proof.
  intros Hsub [Ho Ha [Hp Ht]]. split; [done|done|]. split; [done|]. intros d t (key & ? & ? & Htold)%Ht. exists key.
  split_and!; [done..|]. destruct t; [|destruct Htold as [|(? & ? & e & ? & ?)]; [by left|right; split_and!; [done..|exists e; auto]]].
  destruct Htold as [Had Hc]. split; [done|]. intros Hm. destruct (Hc Hm) as (e & ? & ?). exists e. auto.
Qed.

(** The observer ends the operation that a status names, if it still waits. *)
Lemma core_inv_observer h c e : core_inv h c → core_inv (h ++ [e]) (terminal_observer c e).
Proof.
  intros Hc. assert (core_inv (h ++ [e]) c) as Hc' by (eapply core_inv_more; [|exact Hc]; set_solver).
  unfold EngineControl.terminal_observer. destruct (st_coarse_phase e) eqn:Eph; try exact Hc'.
  all: destruct (co_pending_apply c !! st_operation_id e) as [p|] eqn:Ep; [|exact Hc'].
  all: destruct (en_pending _ _ (ci_ended_inv _ _ Hc') _ _ Ep) as (Hn & Hop & Hm & Had).
  all: assert (core_inv (h ++ [e]) (set_pending_apply (delete (st_operation_id e) (co_pending_apply c)) c)) as Hdel
    by (apply (core_inv_owner _ c);
        [reflexivity|reflexivity|apply delete_subseteq|reflexivity|by eapply owner_inv_same; [..|apply Hc']|exact Hc']).
  all: apply core_inv_record; [exact Hn| |exact Hdel].
  all: exists (pa_key p); split; [exact Hn|]; split; [done|].
  - split; [done|]. intros _. exists e. split_and!; [set_solver|done|done].
  - right. split_and!; [done|done|]. exists e. split_and!; [set_solver|done|done|]. intros [x Hx]. by rewrite Hx.
Qed.
Lemma core_inv_observers h es : ∀ c, core_inv h c → core_inv (h ++ es) (foldl terminal_observer c es).
Proof.
  revert h. induction es as [|e es IH]; intros h c Hc; simpl; [by rewrite app_nil_r|].
  rewrite (cons_middle e h es), app_assoc. by apply IH, core_inv_observer.
Qed.

Lemma core_inv_new uuid : core_inv [] (core_new uuid).
Proof.
  split; [split| |split]; simpl; done.
Qed.

(** ** Nothing that was admitted is forgotten *)

Definition keeps (c c' : HelperControlCore) : Prop := ∀ key, admitted c key → admitted c' key.

Lemma keeps_same c c' : co_ingress c' = co_ingress c → keeps c c'.
Proof. intros E key. unfold admitted. by rewrite E. Qed.
Lemma keeps_after c c' c'' : co_ingress c'' = co_ingress c' → keeps c c' → keeps c c''.
Proof. intros E Hk key Ha. unfold admitted. rewrite E. by apply Hk. Qed.
Lemma keeps_gate c peer wb rq key d method subject effect :
  admit_inv c → keeps c (admit_and_gate c peer wb rq key d method subject effect).1.
Proof. intros Hc k. apply admitted_grown. by apply admit_gate_spec. Qed.
(** What a handler does after its admission leaves the record alone. *)
#[local] Ltac keeps_through Hc :=
  match goal with E : EngineControl.admit_and_gate _ _ ?c1 ?p ?wb ?rq ?k ?d ?m ?s ?e = (?c2, _) |- _ =>
    let Hk := fresh in
    pose proof (keeps_gate c1 p wb rq k d m s e ltac:(by destruct Hc; split)) as Hk; rewrite E in Hk; simpl in Hk;
    by eapply keeps_after; [|exact Hk]
  end.
Lemma keeps_acquire sv ext lk rd t1 t2 eff c : admit_inv c → keeps c (acquire_lease sv ext lk rd t1 t2 eff c).1.
Proof.
  intros Hc. unfold EngineControl.acquire_lease. repeat (case_match; simpl; try by apply keeps_same); simplify_eq/=.
  all: keeps_through Hc.
Qed.
Lemma keeps_release sv ext lk rd t1 t2 eff c : admit_inv c → keeps c (release_lease sv ext lk rd t1 t2 eff c).1.
Proof.
  intros Hc. unfold EngineControl.release_lease. repeat (case_match; simpl; try by apply keeps_same); simplify_eq/=.
  all: keeps_through Hc.
Qed.
Lemma keeps_apply from_slice zeroize sv ext rq t1 t2 eff c : admit_inv c → keeps c (apply_admit from_slice zeroize sv ext rq t1 t2 eff c).1.1.
Proof.
  intros Hc. unfold EngineControl.apply_admit. repeat (case_match; simpl; try by apply keeps_same); simplify_eq/=.
  all: keeps_through Hc.
Qed.
Lemma keeps_stop sv ext lk rd t1 t2 eff c : admit_inv c → keeps c (stop_admit sv ext lk rd t1 t2 eff c).1.
Proof.
  intros Hc. unfold EngineControl.stop_admit. repeat (case_match; simpl; try by apply keeps_same); simplify_eq/=.
  all: keeps_through Hc.
Qed.
Lemma keeps_message sv fresh sent m st c : keeps c (lease_message sv fresh sent m st c).1.1.
Proof. apply keeps_same. unfold lease_message, token_received. by repeat (case_match; simpl). Qed.
Lemma keeps_end sv st c : keeps c (lease_stream_end sv st c).
Proof. apply keeps_same. unfold lease_stream_end. by repeat (case_match; simpl). Qed.
Lemma keeps_observers es : ∀ c, keeps c (foldl terminal_observer c es).
Proof.
  induction es as [|e es IH]; intros c key Ha; simpl; [done|]. apply IH. revert Ha. apply keeps_same.
  unfold EngineControl.terminal_observer. by repeat (case_match; simpl).
Qed.
End Safe.
