(* ===== verification/EngineControlSys.v ===== *)
(** * The engine: its control service over its tunnel runtime

    The endpoint of [EngineControl] composed with the runtime of [EngineRuntime]: requests
    and the tasks they start, the owners' streams, the runtime's own threads and workers, and
    the end of the process, interleaved in any order. A step is one stretch of a request or a
    task in which it holds the endpoint's lock, or one call of the runtime, or one step of the
    runtime. The observer of the connection's status runs within the step that publishes it.
    The requests that only read are left to [EngineControl]; the end of the process is
    [heartbeat_shutdown] of heartbeat.rs, which main.rs starts once in either form. *)

From Stdlib Require Import NArith ZArith Strings.Byte Strings.String Lia.
From S2P Require Import Prelude Identity Model Admission AdmissionIndex Authority Delivery Text Wire Config NativeError.
From S2P Require Import Offer Session RouteOwner Routes Channel EngineStatus EngineLog EnginePlane EngineService EngineRuntime EngineOwner EngineControl EngineControlSafe.

Section Sys.
Context {M Io : Type} `{TunnelPlatform M Io} (wintun_dll : str).
Context `{!RecordCodec} (sha256 : list byte → Digest) (hash64 : N → list byte → N).
Context (encode_key encode_subject : WireOperationLookupKey → list byte).
Context (from_slice : list byte → result str EngineCredentialPackage) (zeroize : list byte → list byte).
Context (sv : HelperControlService).

#[local] Abbreviation Sys := (Sys (M:=M)).

(** ** Tasks *)

(** win32-engine/grpc_server.rs:1350-1366 [HelperControlService::stop_tunnel] and
    win32-engine/heartbeat.rs:103-119 [heartbeat_shutdown]: the assembly is cancelled, waited for
    at most a hundred times, then the tunnel is disconnected or torn down and that awaited;
    [Q_Joined None] is a panic. *)
Inductive Quiesce := Q_Cancel | Q_Poll (n : nat) | Q_Join (i : nat) | Q_Joined (r : option (result Fault ())).
Definition POLLS : nat := 100.
Definition quiesce_step (teardown : bool) (q : Quiesce) (s : Sys) : option (Sys * Quiesce) :=
  match q with
  | Q_Cancel => Some (cancel s, Q_Poll 0)
  | Q_Poll n =>
      if bool_decide (n < POLLS) && is_assembling s then Some (s, Q_Poll (S n))
      else Some (spawn (T_Caller teardown D_Begin) s, Q_Join (length (sy_threads s)))
  | Q_Join i =>
      match sy_threads s !! i with
      | Some (T_Caller _ (D_Done r)) => Some (s, Q_Joined (Some r))
      | Some (T_Caller _ D_Panicked) => Some (s, Q_Joined None)
      | _ => None
      end
  | Q_Joined _ => None
  end.

(** How a task ended. *)
Inductive Answer :=
  | An_Nothing
  | An_Error (e : Status)
  | An_Pending (operation_id : list byte) (authority_fence : WireAuthorityFence)
  | An_Stopped (receipt : WireMutationReceipt).
(** win32-engine/grpc_server.rs:1257-1302 [HelperControlService::apply_tunnel]: after the admission. *)
Inductive ApplyPc := P_Start | P_Refused (e : TunnelError) | P_Reply.
Inductive Task :=
  | K_Lease (st : LeaseStream)
  | K_Apply (ctx : ApplyContext) (pc : ApplyPc)
  | K_Stop (wire_key : WireOperationLookupKey) (key : OperationLookupKey) (request_digest : list byte) (effect_uuid : Uuid) (q : Quiesce)
  | K_Stopped (wire_key : WireOperationLookupKey) (receipt : WireMutationReceipt)
  | K_Trigger
  | K_Exit (q : Quiesce)
  | K_Done (a : Answer).

(** The endpoint's state, the runtime, the watch of the heartbeat, whether a shutdown was
    accepted, whether the stop signal was given, whether the process is ending, and the
    tasks started so far. *)
Record Engine := MkEngine {
  en_core : HelperControlCore;
  en_sys : Sys;
  en_heartbeat : HeartbeatWatch;
  en_armed : bool;
  en_stop : bool;
  en_exiting : bool;
  en_tasks : list Task;
}.
Definition with_core x (e : Engine) : Engine :=
  MkEngine x (en_sys e) (en_heartbeat e) (en_armed e) (en_stop e) (en_exiting e) (en_tasks e).
Definition start_task (t : Task) (e : Engine) : Engine :=
  MkEngine (en_core e) (en_sys e) (en_heartbeat e) (en_armed e) (en_stop e) (en_exiting e) (en_tasks e ++ [t]).
Definition put_task (i : nat) (t : Task) (e : Engine) : Engine :=
  MkEngine (en_core e) (en_sys e) (en_heartbeat e) (en_armed e) (en_stop e) (en_exiting e) (<[i := t]> (en_tasks e)).

(** What the observer is told by a change of the publisher. *)
Definition told_by (p p' : StatusPublisher) : list StatusEvent := snd <$> drop (length (sp_observed p)) (sp_observed p').
(** The runtime moves on, and the observer hears what is published. *)
Definition with_sys (s : Sys) (e : Engine) : Engine :=
  MkEngine (foldl (terminal_observer hash64 encode_subject) (en_core e) (told_by (sy_status (en_sys e)) (sy_status s)))
    s (en_heartbeat e) (en_armed e) (en_stop e) (en_exiting e) (en_tasks e).

(** win32-engine/grpc_server.rs:458-546 [HelperControlService::with_tunnel_runtime]: the engine at its
    start. *)
Definition engine_new (authority_instance : Uuid) (m : M) : Engine :=
  MkEngine (core_new authority_instance) (with_status (set_terminal_observer 0 StatusPublisher_new) (runtime_new m))
    HeartbeatWatch_new false false false [].

(** ** Requests *)

Inductive Request :=
  | R_Maintain (ext : option NamedPipeConnectInfo)
  | R_Acquire (ext : option NamedPipeConnectInfo) (key : option WireOperationLookupKey) (digest : list byte) (t1 t2 : N) (effect : Uuid)
  | R_Apply (ext : option NamedPipeConnectInfo) (request : ApplyTunnelRequest) (t1 t2 : N) (effect : Uuid)
  | R_Stop (ext : option NamedPipeConnectInfo) (key : option WireOperationLookupKey) (digest : list byte) (t1 t2 : N) (effect : Uuid)
  | R_Release (ext : option NamedPipeConnectInfo) (key : option WireOperationLookupKey) (digest : list byte) (t1 t2 : N) (effect : Uuid)
  | R_Status (ext : option NamedPipeConnectInfo)
  | R_KeepAlive (ext : option NamedPipeConnectInfo) (tick elapsed : N)
  | R_Shutdown (ext : option NamedPipeConnectInfo).
Definition request_ext (r : Request) : option NamedPipeConnectInfo :=
  match r with
  | R_Maintain ext | R_Acquire ext _ _ _ _ _ | R_Apply ext _ _ _ _ | R_Stop ext _ _ _ _ _ | R_Release ext _ _ _ _ _
  | R_Status ext | R_KeepAlive ext _ _ | R_Shutdown ext => ext
  end.

(** What a request does at once. *)
Definition request_step (r : Request) (e : Engine) : Engine :=
  match r with
  | R_Maintain ext => match maintain_owner_lease ext with Ok st => start_task (K_Lease st) e | Err _ => e end
  | R_Acquire ext key digest t1 t2 effect =>
      with_core (acquire_lease sha256 hash64 encode_key encode_subject sv ext key digest t1 t2 effect (en_core e)).1 e
  | R_Apply ext request t1 t2 effect =>
      let '(c, _, admitted) := apply_admit sha256 hash64 encode_key from_slice zeroize sv ext request t1 t2 effect (en_core e) in
      let e := with_core c e in
      match admitted with Ok ctx => start_task (K_Apply ctx P_Start) e | Err _ => e end
  | R_Stop ext key digest t1 t2 effect =>
      let '(c, admitted) := stop_admit sha256 hash64 encode_key sv ext key digest t1 t2 effect (en_core e) in
      let e := with_core c e in
      match admitted with Ok (wk, k) => start_task (K_Stop wk k digest effect Q_Cancel) e | Err _ => e end
  | R_Release ext key digest t1 t2 effect =>
      let '(c, released) := release_lease sha256 hash64 encode_key sv ext key digest t1 t2 effect (en_core e) in
      let e := with_core c e in
      if is_ok released then with_sys (tell_phase Ph_Idle (en_sys e)) e else e
  | R_Status ext => with_sys (with_status (stream_connect_status ext (sy_status (en_sys e))).1 (en_sys e)) e
  | R_KeepAlive ext tick elapsed =>
      MkEngine (en_core e) (en_sys e) (keep_alive ext tick elapsed (en_heartbeat e)).1 (en_armed e) (en_stop e) (en_exiting e) (en_tasks e)
  | R_Shutdown ext =>
      let '(armed, outcome) := shutdown sv ext (en_armed e) in
      let e := MkEngine (en_core e) (en_sys e) (en_heartbeat e) armed (en_stop e) (en_exiting e) (en_tasks e) in
      match outcome with Ok SO_Accepted => start_task K_Trigger e | _ => e end
  end.

(** ** Steps of tasks *)

(** What a task is given: nothing, a message of the owner and whether it can be answered, the
    end of its stream, or the wall clock. *)
Inductive Input := In_Go | In_Message (fresh : Uuid) (sent : bool) (m : HostLeaseMessage) | In_Eof | In_Wall (wall : option N).

(** win32-engine/grpc_server.rs:1257-1302 [HelperControlService::apply_tunnel] *)
Definition apply_step (ctx : ApplyContext) (pc : ApplyPc) (input : Input) (e : Engine) : option (Engine * Task) :=
  match pc, input with
  | P_Start, In_Wall wall =>
      let '(s, outcome) := start_apply ctx wall (en_sys e) in
      Some (with_sys s e, K_Apply ctx match outcome with Ok _ => P_Reply | Err err => P_Refused err end)
  | P_Refused err, In_Go =>
      let s := tell_phase Ph_Failed (en_sys e) in
      let s := tell (status_failed (cx_operation_id ctx) (Some (te_connect_phase err)) (tunnel_error_to_wire err)) s in
      Some (with_sys s e, K_Apply ctx P_Reply)
  | P_Reply, In_Go => Some (e, K_Done (An_Pending (cx_operation_id ctx) (wire_fence (en_core e))))
  | _, _ => None
  end.
(** win32-engine/grpc_server.rs:1342-1389 [HelperControlService::stop_tunnel] *)
Definition stop_step (wire_key : WireOperationLookupKey) (key : OperationLookupKey) (request_digest : list byte)
    (effect_uuid : Uuid) (q : Quiesce) (e : Engine) : option (Engine * Task) :=
  match q with
  | Q_Joined None => Some (e, K_Done (An_Error (internal_error "stop: disconnect join")))
  | Q_Joined (Some _) =>
      let '(c, receipt) := stop_finish sha256 hash64 wire_key key request_digest effect_uuid (en_core e) in
      let e := with_core c e in
      Some (with_sys (tell_phase Ph_Idle (en_sys e)) e, K_Stopped wire_key receipt)
  | _ => '(s, q) ← quiesce_step false q (en_sys e); Some (with_sys s e, K_Stop wire_key key request_digest effect_uuid q)
  end.
(** win32-engine/heartbeat.rs:97-123 [heartbeat_shutdown] *)
Definition exit_step (q : Quiesce) (e : Engine) : option (Engine * Task) :=
  match q with
  | Q_Joined _ => Some (with_sys (tell (status_idle []) (en_sys e)) e, K_Done An_Nothing)
  | _ => '(s, q) ← quiesce_step true q (en_sys e); Some (with_sys s e, K_Exit q)
  end.
Definition task_step (t : Task) (input : Input) (e : Engine) : option (Engine * Task) :=
  match t, input with
  | K_Lease st, In_Message fresh sent m =>
      if ls_reading st then
        let '(c, st, _) := lease_message sv fresh sent m st (en_core e) in Some (with_core c e, K_Lease st)
      else None
  | K_Lease st, In_Eof => Some (with_core (lease_stream_end sv st (en_core e)) e, K_Done An_Nothing)
  | K_Apply ctx pc, input => apply_step ctx pc input e
  | K_Stop wk k d eff q, In_Go => stop_step wk k d eff q e
  | K_Stopped wk receipt, In_Go =>
      Some (with_sys (tell (status_idle (wk_operation_id wk)) (en_sys e)) e, K_Done (An_Stopped receipt))
  | K_Trigger, In_Go =>
      Some (MkEngine (en_core e) (en_sys e) (en_heartbeat e) (en_armed e) true (en_exiting e) (en_tasks e), K_Done An_Nothing)
  | K_Exit q, In_Go => exit_step q e
  | _, _ => None
  end.

(** Why the process ends: its owner's process is gone or silent, or the service stops.
    win32-engine/main.rs:710-718 [await_core_process_exit] *)
Inductive ExitTrigger := X_CoreProcessExited | X_HeartbeatTimeout (elapsed : N) | X_ServiceStops.
Definition exit_allowed (x : ExitTrigger) (e : Engine) : bool :=
  match x, hs_connection_mode sv with
  | X_CoreProcessExited, Oneshot => true
  | X_HeartbeatTimeout elapsed, Oneshot => timed_out elapsed (en_heartbeat e)
  | X_ServiceStops, Service => true
  | _, _ => false
  end.

(** What happens next. *)
Inductive Event :=
  | E_Request (r : Request)
  | E_Task (i : nat) (input : Input)
  | E_Runtime (i : nat) (reply : Reply (Io:=Io))
  | E_Worker (i : nat) (mv : Move)
  | E_Exit (x : ExitTrigger).
Definition engine_step (ev : Event) (e : Engine) : option Engine :=
  match ev with
  | E_Request r => Some (request_step r e)
  | E_Task i input => t ← en_tasks e !! i; '(e, t) ← task_step t input e; Some (put_task i t e)
  | E_Runtime i reply => s ← sys_step wintun_dll (Ch_Run i reply) (en_sys e); Some (with_sys s e)
  | E_Worker i mv => s ← sys_step (Io:=Io) wintun_dll (Ch_Worker i mv) (en_sys e); Some (with_sys s e)
  | E_Exit x =>
      if negb (en_exiting e) && exit_allowed x e then
        Some (start_task (K_Exit Q_Cancel)
                (MkEngine (en_core e) (en_sys e) (en_heartbeat e) (en_armed e) (en_stop e) true (en_tasks e)))
      else None
  end.
Fixpoint engine_run (evs : list Event) (e : Engine) : option Engine :=
  match evs with
  | [] => Some e
  | ev :: evs => e ← engine_step ev e; engine_run evs e
  end.
(** The states an engine can be in that was started on [m]. *)
Definition engine_reachable (authority_instance : Uuid) (m : M) (e : Engine) : Prop :=
  ∃ evs, engine_run evs (engine_new authority_instance m) = Some e.
End Sys.
