(* ===== verification/EngineControlInv.v ===== *)
(** * What holds of the running engine

    Invariants of the transition system of [EngineControlSys], over every interleaving of
    requests, tasks, the runtime's threads and workers, and the end of the process: nothing
    runs that was not admitted for an owner; what an operation is said to have come to is
    true; and the runtime's own invariants hold under the control service. *)

From Stdlib Require Import NArith ZArith Strings.Byte Strings.String Lia.
From S2P Require Import Prelude Identity Model Admission AdmissionIndex Authority Delivery Text Wire Config NativeError.
From S2P Require Import Offer Session IpHelper Routes RouteOwner Channel EngineStatus EngineLog EnginePlane EngineService.
From S2P Require Import EngineRuntime EngineRuntimeSafe EngineRuntimeLoss EngineRuntimeEnd.
From S2P Require Import EngineOwner EngineControl EngineControlSafe EngineControlSys.

(** ** What the publishers are told *)

(** A publisher that goes on: its observer is the same, and has been told more. *)
Record goes_on (p p' : StatusPublisher) : Prop := {
  go_observer : sp_observer p' = sp_observer p;
  go_observed : ∃ es, sp_observed p' = sp_observed p ++ es;
  go_publishing : sp_publishing p = None → sp_publishing p' = None;
}.
Lemma goes_on_publish e p : goes_on p (publish e p).
Proof.
  unfold publish, publish_begin, publish_commit. destruct (suppressed _ _).
  - destruct (sp_publishing p) eqn:E; split; simpl; rewrite ?E; try done; exists []; by rewrite app_nil_r.
  - split; simpl; [done|by eexists|done].
Qed.
Lemma goes_on_same p p' : sp_observer p' = sp_observer p → sp_observed p' = sp_observed p → sp_publishing p' = sp_publishing p → goes_on p p'.
Proof. intros E1 E2 E3. split; [done|exists []; by rewrite app_nil_r|congruence]. Qed.
Lemma told_by_goes p p' : goes_on p p' → snd <$> sp_observed p' = (snd <$> sp_observed p) ++ told_by p p'.
Proof. intros [_ [es E] _]. unfold told_by. by rewrite E, drop_app_length, fmap_app. Qed.

Section Inv.
Context {M Io : Type} `{TunnelPlatformLaws M Io} (wintun_dll : str).
#[local] Abbreviation Sys := (Sys (M:=M)).
#[local] Abbreviation sys_step := (sys_step (Io:=Io) wintun_dll).

(** ** What the endpoint does to the runtime *)

(** The publishers change, and nothing is said of being connected. *)
Inductive quiet (p p' : StatusPublisher) : Prop :=
  | quiet_same : sp_observer p' = sp_observer p → sp_observed p' = sp_observed p → sp_publishing p' = sp_publishing p →
      sp_history p' = sp_history p → quiet p p'
  | quiet_publish e : ¬ says_connected e → p' = publish e p → quiet p p'.
(** The runtime takes a step, is called, or only its publishers change. *)
Inductive runs_on (s s' : Sys) : Prop :=
  | runs_step c : sys_step c s = Some s' → runs_on s s'
  | runs_quiet p r : s' = with_stats r (with_status p s) → quiet (sy_status s) p → runs_on s s'.

Lemma goes_on_quiet p p' : quiet p p' → goes_on p p'.
Proof. intros [? ? ? ?|e _ ->]; [by apply goes_on_same|apply goes_on_publish]. Qed.

(** A step of the runtime publishes at most one status. *)
Definition speaks (s s' : Sys) : Prop := sy_status s' = sy_status s ∨ ∃ e, sy_status s' = publish e (sy_status s).
Lemma speaks_modest s s' : modest s s' → speaks s s'.
Proof. intros [_ [?|(e & _ & ?)]]; [by left|right; by exists e]. Qed.
Lemma speaks_step c s s' : sys_step c s = Some s' → speaks s s'.
Proof.
  intros Hstep. destruct c as [ctx wall| | | |i reply|i mv]; simpl in Hstep; simplify_eq; try by left.
  - unfold start_apply, decide_start_apply. destruct (sy_assembling s), (is_connected s); try by left. simpl.
    destruct (adopt ctx wall s) as [s'|] eqn:Ea; [|by left].
    apply bind_Some in Ea as (l & El & Ha). destruct (_ && _); [|done]. injection Ha as <-.
    right. eexists. by destruct (lt_threads l).
  - apply bind_Some in Hstep as (t & Ht & ([s1 t'] & Hstep & [= <-])%bind_Some).
    destruct (thread_modest wintun_dll i t reply s s1 t' Hstep) as [Hm|(ctx & l & wall & io & -> & Ec & Ea & ->)].
    + apply speaks_modest in Hm. exact Hm.
    + right. unfold install_live. rewrite Ec, Ea. cbn [negb].
      pose proof (put_hushed io l s s (conj eq_refl eq_refl)) as [_ E]. revert E. generalize (put_live io l s). intros s1 E.
      eexists. destruct (lt_threads l); simpl; by rewrite E.
  - apply speaks_modest. by apply (worker_modest i mv).
Qed.
Lemma goes_on_runs s s' : runs_on s s' → goes_on (sy_status s) (sy_status s').
Proof.
  intros [c Hs|p r -> Hq]; [|by apply goes_on_quiet].
  destruct (speaks_step c s s' Hs) as [->|[e ->]]; [by apply goes_on_same|apply goes_on_publish].
Qed.

(** Only a step of the runtime changes anything but the publishers. *)
Lemma inv_quiet p r s : inv s → inv (with_stats r (with_status p s)).
Proof. intros []. by split. Qed.
Lemma inv_runs_on s s' : runs_on s s' → inv s → inv s'.
Proof. intros [c Hs|p r -> _] Hi; [by eapply inv_step|by apply inv_quiet]. Qed.
Lemma busy_runs_on s s' : runs_on s s' → inv s → busy s → busy s'.
Proof. intros [c Hs|p r -> _] Hi Hb; [by eapply busy_step|done]. Qed.
Lemma heard_runs_on s s' : runs_on s s' → inv s → heard s → heard s'.
Proof. intros [c Hs|p r -> _] Hi Hb; [by eapply heard_step|done]. Qed.
Lemma loss_runs_on s s' : runs_on s s' → inv s →
  length (sy_groups s) ≤ length (sy_groups s') ∧ (groups_bounded s' → loss_inv s → loss_inv s').
Proof. intros [c Hs|p r -> _] Hi; [by eapply loss_step|]. split; [done|]. intros _ Hl. split; apply Hl. Qed.

(** The threads of the runtime are the ones that were called for. *)
Definition call_of (t : Thread) : option (ApplyContext + bool) :=
  match t with T_Assembly ctx _ => Some (inl ctx) | T_Caller td _ => Some (inr td) | T_Sweeper _ _ _ => None end.
Lemma thread_call i t reply s s' t' : thread_step wintun_dll i t reply s = Some (s', t') → call_of t' = call_of t.
Proof. destruct t as [ctx pc|td pc|g q pc]; simpl; by intros ([s1 x] & _ & [= <- <-])%bind_Some. Qed.
Lemma run_calls i reply s s' j t' call : inv s → sys_step (Ch_Run i reply) s = Some s' →
  sy_threads s' !! j = Some t' → call_of t' = Some call → ∃ t, sy_threads s !! j = Some t ∧ call_of t = Some call.
Proof.
  intros Hinv (t & Ht & ([s1 t1] & Hstep & [= <-])%bind_Some)%bind_Some Hj Hc. simpl in Hj.
  pose proof (thread_call i t reply s s1 t1 Hstep) as Hcall.
  assert (sy_threads s1 = sy_threads s ∨ ∃ g q, sy_threads s1 = sy_threads s ++ [T_Sweeper g q S_Wait]) as Hts.
  { destruct (thread_losses wintun_dll i s s1 t t1 reply Hinv Ht Hstep) as [(ctx & route & -> & -> & ->)|Hmv].
    - right. eexists _, _. reflexivity.
    - left. apply Hmv. }
  destruct (decide (j = i)) as [->|Hne].
  - exists t. split; [done|]. rewrite list_lookup_insert_eq in Hj; [congruence|].
    apply lookup_lt_Some in Ht. destruct Hts as [-> |(g & q & ->)]; [done|]. rewrite length_app. lia.
  - rewrite list_lookup_insert_ne in Hj by done. destruct Hts as [E|(g & q & E)]; rewrite E in Hj; [by eexists|].
    apply lookup_app_Some in Hj as [Hj|[_ Hj]]; [by eexists|].
    destruct (j - length (sy_threads s)) as [|[]]; simplify_eq/=; done.
Qed.
Lemma worker_calls i mv s s' j t' call : sys_step (Ch_Worker i mv) s = Some s' →
  sy_threads s' !! j = Some t' → call_of t' = Some call → ∃ t, sy_threads s !! j = Some t ∧ call_of t = Some call.
Proof.
  intros (g & Hg & Hm)%bind_Some Hj Hc. destruct mv, (gr_claimed g) as [[op []]|]; try done; repeat case_match; simplify_eq/=.
  all: try by eexists.
  rewrite list_lookup_fmap in Hj. apply fmap_Some in Hj as (t & Ht & ->). exists t. split; [done|].
  destruct t as [| |c q []]; simpl in *; try done; by case_bool_decide.
Qed.

(** ** The invariant *)

Context `{!RecordCodec} (sha256 : list byte → Digest) (hash64 : N → list byte → N).
Context (encode_key encode_subject : WireOperationLookupKey → list byte).
Context (from_slice : list byte → result str EngineCredentialPackage) (zeroize : list byte → list byte).
Context (sv : HelperControlService).
#[local] Abbreviation Engine := (Engine (M:=M)).
#[local] Abbreviation engine_step := (engine_step (Io:=Io) wintun_dll sha256 hash64 encode_key encode_subject from_slice zeroize sv).
#[local] Abbreviation engine_run := (engine_run (Io:=Io) wintun_dll sha256 hash64 encode_key encode_subject from_slice zeroize sv).
#[local] Abbreviation request_step := (request_step (M:=M) sha256 hash64 encode_key encode_subject from_slice zeroize sv).
#[local] Abbreviation task_step := (task_step (M:=M) sha256 hash64 encode_subject sv).
#[local] Abbreviation with_sys := (with_sys (M:=M) hash64 encode_subject).
Implicit Types (e : Engine) (c : HelperControlCore).

(** What the observer was told. *)
Definition history e : list StatusEvent := snd <$> sp_observed (sy_status (en_sys e)).
(** A connection, or a stop, was admitted. *)
Definition connects c (op : list byte) : Prop := ∃ key, olk_method key = Method_ApplyTunnel ∧ op_of key = op ∧ admitted c key.
Definition stops c : Prop := ∃ key, olk_method key = Method_StopTunnel ∧ admitted c key.
Definition task_ok c (exiting armed : bool) (t : Task) : Prop :=
  match t with
  | K_Lease st => ls_connection st = pc_connection (ls_peer st)
  | K_Apply ctx _ => connects c (cx_operation_id ctx)
  | K_Stop wk key _ _ _ => names wk key ∧ olk_method key = Method_StopTunnel ∧ admitted c key
  | K_Exit _ => exiting = true
  | K_Trigger => armed = true ∧ hs_connection_mode sv = Service
  | K_Stopped _ _ | K_Done _ => True
  end.
Definition call_ok c (exiting : bool) (call : ApplyContext + bool) : Prop :=
  match call with inl ctx => connects c (cx_operation_id ctx) | inr false => stops c | inr true => exiting = true end.

Record engine_inv e : Prop := {
  ei_core : core_inv hash64 (history e) (en_core e);
  ei_runtime : inv (en_sys e);
  ei_busy : busy (en_sys e);
  ei_heard : heard (en_sys e);
  ei_publishing : sp_publishing (sy_status (en_sys e)) = None;
  ei_tasks i t : en_tasks e !! i = Some t → task_ok (en_core e) (en_exiting e) (en_armed e) t;
  ei_calls i t call : sy_threads (en_sys e) !! i = Some t → call_of t = Some call → call_ok (en_core e) (en_exiting e) call;
  ei_stop : en_stop e = true → en_armed e = true ∧ hs_connection_mode sv = Service;
}.

Lemma connects_keeps c c' op : keeps c c' → connects c op → connects c' op.
Proof. intros Hk (key & ? & ? & ?). exists key. auto. Qed.
Lemma task_ok_keeps c c' x x' a a' t : keeps c c' → (x = true → x' = true) → (a = true → a' = true) → task_ok c x a t → task_ok c' x' a' t.
Proof. intros Hk Hx Ha. destruct t; simpl; naive_solver eauto using connects_keeps. Qed.
Lemma call_ok_keeps c c' x call : keeps c c' → call_ok c x call → call_ok c' x call.
Proof. intros Hk. destruct call as [ctx|[]]; simpl; [by apply connects_keeps|done|]. intros (key & ? & ?). exists key. auto. Qed.

Lemma inv_with_core e c : engine_inv e → core_inv hash64 (history e) c → keeps (en_core e) c → engine_inv (with_core c e).
Proof.
  intros Hi Hc Hk. split; simpl; try apply Hi; try done.
  - intros i t Ht. eapply task_ok_keeps; [exact Hk|done|done|by eapply ei_tasks].
  - intros i t call Ht Hcall. eapply call_ok_keeps; [exact Hk|by eapply ei_calls].
Qed.
Lemma inv_with_sys e s : engine_inv e → runs_on (en_sys e) s →
  (∀ i t call, sy_threads s !! i = Some t → call_of t = Some call →
     (∃ t0, sy_threads (en_sys e) !! i = Some t0 ∧ call_of t0 = Some call) ∨ call_ok (en_core e) (en_exiting e) call) →
  engine_inv (with_sys s e).
Proof.
  intros Hi Hr Hcalls. pose proof (goes_on_runs _ _ Hr) as Hg.
  set (es := told_by (sy_status (en_sys e)) (sy_status s)).
  pose proof (keeps_observers hash64 encode_subject es (en_core e)) as Hk. split; simpl.
  - unfold history. simpl. rewrite (told_by_goes _ _ Hg). apply core_inv_observers, Hi.
  - by eapply inv_runs_on, Hi.
  - eapply busy_runs_on; [exact Hr|apply Hi..].
  - eapply heard_runs_on; [exact Hr|apply Hi..].
  - apply (go_publishing _ _ Hg), Hi.
  - intros i t Ht. eapply task_ok_keeps; [exact Hk|done|done|by eapply ei_tasks].
  - intros i t call Ht Hcall. eapply call_ok_keeps; [exact Hk|].
    destruct (Hcalls i t call Ht Hcall) as [(t0 & Ht0 & Hc0)|?]; [by eapply ei_calls|done].
  - apply Hi.
Qed.
Lemma inv_with_pubs e p r : engine_inv e → quiet (sy_status (en_sys e)) p → engine_inv (with_sys (with_stats r (with_status p (en_sys e))) e).
Proof. intros Hi Hq. apply inv_with_sys; [done|by eapply runs_quiet|]. intros i t call Ht Hc. left. by exists t. Qed.
Lemma inv_start_task e t : engine_inv e → task_ok (en_core e) (en_exiting e) (en_armed e) t → engine_inv (start_task t e).
Proof.
  intros Hi Hok. split; simpl; try apply Hi.
  intros i t' [Ht|[_ Ht]]%lookup_app_Some; [by eapply ei_tasks|]. by apply list_lookup_singleton_Some in Ht as [_ <-].
Qed.
Lemma inv_put_task e i t : engine_inv e → task_ok (en_core e) (en_exiting e) (en_armed e) t → engine_inv (put_task i t e).
Proof.
  intros Hi Hok. split; simpl; try apply Hi.
  intros j t' [(<- & <- & _)|[_ Ht]]%list_lookup_insert_Some; [done|by eapply ei_tasks].
Qed.

(** The runtime is called by a task that may call it. *)
Lemma inv_call e s (ch : Choice (Io:=Io)) : engine_inv e → sys_step ch (en_sys e) = Some s →
  match ch with
  | Ch_Start ctx _ => connects (en_core e) (cx_operation_id ctx)
  | Ch_Disconnect => stops (en_core e)
  | Ch_Teardown => en_exiting e = true
  | _ => True
  end → engine_inv (with_sys s e).
Proof.
  intros Hi Hs Hc. apply inv_with_sys; [done|by eapply runs_step|]. intros j t call Hj Hcall.
  assert (Hsp : ∀ u, sy_threads s = sy_threads (en_sys e) ++ [u] →
    sy_threads (en_sys e) !! j = Some t ∨ t = u).
  { intros u E. rewrite E in Hj. apply lookup_app_Some in Hj as [?|[_ Hu]]; [by left|right].
    by apply list_lookup_singleton_Some in Hu as [_ <-]. }
  destruct ch as [ctx wall| | | |i reply|i mv].
  - simpl in Hs. injection Hs as Hs. assert (sy_threads s = sy_threads (en_sys e) ∨ sy_threads s = sy_threads (en_sys e) ++ [T_Assembly ctx A_Entry]) as [E|E].
    { rewrite <-Hs. unfold start_apply, decide_start_apply. destruct (sy_assembling _), (is_connected (en_sys e)); simpl; try by (left + right).
      destruct (adopt ctx wall (en_sys e)) as [s'|] eqn:Ea; [|by right]. left.
      apply bind_Some in Ea as (l & El & Ha). destruct (_ && _); [|done]. injection Ha as <-. by destruct (lt_threads l). }
    + left. exists t. by rewrite <-E.
    + destruct (Hsp _ E) as [?| ->]; [left; by exists t|right]. simpl in Hcall. by injection Hcall as <-.
  - injection Hs as <-. left. by exists t.
  - injection Hs as <-. destruct (Hsp _ eq_refl) as [?| ->]; [left; by exists t|right]. by injection Hcall as <-.
  - injection Hs as <-. destruct (Hsp _ eq_refl) as [?| ->]; [left; by exists t|right]. by injection Hcall as <-.
  - left. by eapply (run_calls i reply); [apply Hi|..].
  - left. by eapply (worker_calls i mv).
Qed.

Lemma inv_quiesce e td q s q' : engine_inv e → quiesce_step td q (en_sys e) = Some (s, q') →
  (if td then en_exiting e = true else stops (en_core e)) → engine_inv (with_sys s e).
Proof.
  intros Hi Hq Hok. assert (engine_inv (with_sys (en_sys e) e)) as Hsame.
  { apply inv_with_sys; [done| |intros i t call Ht Hc; left; by exists t].
    apply (runs_quiet _ _ (sy_status (en_sys e)) (sy_stats (en_sys e))); [by destruct (en_sys e)|by apply quiet_same]. }
  destruct q as [|n|i|]; simpl in Hq.
  - injection Hq as <- <-. by apply (inv_call e _ Ch_Cancel).
  - destruct (_ && _); injection Hq as <- <-; [done|].
    destruct td; [by apply (inv_call e _ Ch_Teardown)|by apply (inv_call e _ Ch_Disconnect)].
  - repeat case_match; simplify_eq; done.
  - done.
Qed.

Lemma core_of_with_sys s e : keeps (en_core e) (en_core (with_sys s e)).
Proof. apply keeps_observers. Qed.

Lemma quiet_tell st (ev : StatusEvent) : ¬ says_connected ev → quiet st (publish ev st).
Proof. intros He. by eapply quiet_publish. Qed.
Lemma quiet_refl st : quiet st st.
Proof. by apply quiet_same. Qed.

Lemma inv_task e i t input e1 t1 : engine_inv e → en_tasks e !! i = Some t → task_step t input e = Some (e1, t1) →
  engine_inv (put_task i t1 e1).
Proof.
  intros Hi Ht Hstep. pose proof (ei_tasks _ Hi i t Ht) as Hok. unfold EngineControlSys.task_step in Hstep.
  destruct t as [st|ctx pc|wk key rd eff q|wk receipt| |q|a]; simpl in Hok.
  - destruct input as [|fresh sent m| |]; try done.
    + destruct (ls_reading st); [|done].
      pose proof (core_inv_message hash64 (history e) sv fresh sent m st (en_core e) Hok (ei_core _ Hi)) as Hc.
      pose proof (keeps_message sv fresh sent m st (en_core e)) as Hk.
      assert (ls_connection (lease_message sv fresh sent m st (en_core e)).1.2 = pc_connection (ls_peer (lease_message sv fresh sent m st (en_core e)).1.2)) as Hst.
      { unfold lease_message. by repeat (case_match; simpl). }
      destruct (lease_message sv fresh sent m st (en_core e)) as [[c st'] out]. injection Hstep as <- <-.
      apply inv_put_task; [by apply inv_with_core|exact Hst].
    + injection Hstep as <- <-. apply inv_put_task; [|done].
      apply inv_with_core; [done|apply core_inv_end, Hi|apply keeps_end].
  - destruct pc, input as [| | |wall]; try done; simpl in Hstep.
    + destruct (start_apply ctx wall (en_sys e)) as [s outcome] eqn:Es. injection Hstep as <- <-.
      apply inv_put_task; [apply (inv_call e s (Ch_Start ctx wall)); [done|by simpl; rewrite Es|done]|].
      simpl. eapply connects_keeps; [apply core_of_with_sys|exact Hok].
    + injection Hstep as <- <-. apply inv_put_task; [|eapply connects_keeps; [apply core_of_with_sys|exact Hok]].
      eapply (inv_with_pubs e); [done|by apply quiet_tell].
    + injection Hstep as <- <-. by apply inv_put_task.
  - destruct input; try done. unfold stop_step in Hstep. destruct q as [|n|j|r].
    4:{ destruct r as [r|]; [|injection Hstep as <- <-; by apply inv_put_task].
        destruct Hok as (Hn & Hm & Ha).
        pose proof (core_inv_stop_finish sha256 hash64 (history e) wk key rd eff (en_core e) Hn Hm Ha (ei_core _ Hi)) as Hc.
        pose proof (keeps_same (en_core e) (stop_finish sha256 hash64 wk key rd eff (en_core e)).1 eq_refl) as Hk.
        destruct (stop_finish _ _ _ _ _ _ _) as [c receipt]. injection Hstep as <- <-.
        apply inv_put_task; [|done]. eapply (inv_with_pubs (with_core c e) (sy_status (en_sys e))); [by apply inv_with_core|apply quiet_refl]. }
    all: apply bind_Some in Hstep as ([s q'] & Hq & [= <- <-]); apply inv_put_task;
      [by eapply inv_quiesce; [done|exact Hq|exists key; naive_solver]
      |destruct Hok as (? & ? & ?); split_and!; [done|done|by apply core_of_with_sys]].
  - destruct input; try done. injection Hstep as <- <-. apply inv_put_task; [|done].
    eapply (inv_with_pubs e _ (sy_stats (en_sys e))); [done|by apply quiet_tell].
  - destruct input; try done. injection Hstep as <- <-. destruct Hi as [? ? ? ? ? Htasks ? ?]. split; simpl; try done.
    intros j t' [(<- & <- & _)|[_ Hj]]%list_lookup_insert_Some; [done|by apply (Htasks j)].
  - destruct input; try done. unfold exit_step in Hstep. destruct q as [|n|j|r].
    4:{ injection Hstep as <- <-. apply inv_put_task; [|done].
        eapply (inv_with_pubs e _ (sy_stats (en_sys e))); [done|by apply quiet_tell]. }
    all: apply bind_Some in Hstep as ([s q'] & Hq & [= <- <-]); apply inv_put_task; [by eapply inv_quiesce|exact Hok].
  - done.
Qed.

Lemma shutdown_spec ext armed armed' outcome : shutdown sv ext armed = (armed', outcome) →
  (armed' = armed ∧ outcome ≠ Ok SO_Accepted) ∨
  (armed = false ∧ armed' = true ∧ outcome = Ok SO_Accepted ∧ hs_connection_mode sv = Service ∧ is_ok (transport_peer ext) = true).
Proof.
  unfold shutdown. destruct (transport_peer ext) as [p|]; [|intros [= <- <-]; by left].
  destruct (hs_shutdown_signal sv); simpl; [|intros [= <- <-]; by left].
  case_bool_decide; simpl; [|intros [= <- <-]; by left]. destruct armed; intros [= <- <-]; [by left|by right].
Qed.

Lemma inv_request r e : engine_inv e → engine_inv (request_step r e).
Proof.
  intros Hi. pose proof (ci_admit_inv _ _ _ (ei_core _ Hi)) as Ha.
  destruct r as [ext|ext key d t1 t2 eff|ext rq t1 t2 eff|ext key d t1 t2 eff|ext key d t1 t2 eff|ext|ext tick el|ext]; simpl.
  - unfold maintain_owner_lease. destruct (transport_peer ext) as [[peer connection]|] eqn:Et; [|done].
    apply inv_start_task; [done|]. simpl. by apply transport_peer_spec in Et as [-> _].
  - apply inv_with_core; [done|apply core_inv_acquire, Hi|by apply keeps_acquire].
  - pose proof (core_inv_apply sha256 hash64 encode_key (history e) from_slice zeroize sv ext rq t1 t2 eff (en_core e) (ei_core _ Hi)) as Hc.
    pose proof (keeps_apply sha256 hash64 encode_key from_slice zeroize sv ext rq t1 t2 eff (en_core e) Ha) as Hk.
    pose proof (apply_admitted sha256 hash64 encode_key (history e) from_slice zeroize sv ext rq t1 t2 eff (en_core e)) as Had.
    destruct (apply_admit _ _ _ _ _ _ _ _ _ _ _ _) as [[c payload] adm]. simpl in *.
    pose proof (inv_with_core e c Hi Hc Hk) as Hi'. destruct adm as [ctx|]; [|done]. apply inv_start_task; [done|].
    by apply (Had ctx (ei_core _ Hi)).
  - pose proof (core_inv_stop_admit sha256 hash64 encode_key (history e) sv ext key d t1 t2 eff (en_core e) (ei_core _ Hi)) as Hc.
    pose proof (keeps_stop sha256 hash64 encode_key sv ext key d t1 t2 eff (en_core e) Ha) as Hk.
    pose proof (λ wk k, stop_admitted sha256 hash64 encode_key (history e) sv ext key d t1 t2 eff (en_core e) wk k (ei_core _ Hi)) as Had.
    destruct (stop_admit _ _ _ _ _ _ _ _ _ _ _) as [c adm]. simpl in *.
    pose proof (inv_with_core e c Hi Hc Hk) as Hi'. destruct adm as [[wk k]|]; [|done]. apply inv_start_task; [done|].
    by apply Had.
  - pose proof (core_inv_release sha256 hash64 encode_key (history e) sv ext key d t1 t2 eff (en_core e) (ei_core _ Hi)) as Hc.
    pose proof (keeps_release sha256 hash64 encode_key sv ext key d t1 t2 eff (en_core e) Ha) as Hk.
    destruct (release_lease _ _ _ _ _ _ _ _ _ _ _) as [c rel]. simpl in *.
    pose proof (inv_with_core e c Hi Hc Hk) as Hi'. destruct (is_ok rel); [|done].
    eapply (inv_with_pubs (with_core c e) (sy_status (en_sys e))); [done|apply quiet_refl].
  - apply (inv_with_pubs e _ (sy_stats (en_sys e))); [done|]. unfold stream_connect_status.
    destruct (transport_peer ext); by apply quiet_same.
  - by destruct Hi; split.
  - destruct (shutdown sv ext (en_armed e)) as [armed outcome] eqn:Es.
    destruct (shutdown_spec ext _ _ _ Es) as [[-> Hne]|(Ea & -> & -> & Hm & _)].
    + assert (engine_inv (MkEngine (en_core e) (en_sys e) (en_heartbeat e) (en_armed e) (en_stop e) (en_exiting e) (en_tasks e))) as Hi'
        by (by destruct e). by destruct outcome as [[]|].
    + apply inv_start_task; [|done]. destruct Hi as [? ? ? ? ? Htasks ? Hstop]. split; simpl; try done.
      intros i t Ht. apply (task_ok_keeps (en_core e) (en_core e) (en_exiting e) (en_exiting e) (en_armed e) true); [by intros ?|done|done|by apply (Htasks i)].
Qed.

Lemma inv_engine_step ev e e' : engine_step ev e = Some e' → engine_inv e → engine_inv e'.
Proof.
  intros Hstep Hi. destruct ev as [r|i input|i reply|i mv|x]; simpl in Hstep.
  - injection Hstep as <-. by apply inv_request.
  - apply bind_Some in Hstep as (t & Ht & ([e1 t1] & Hstep & [= <-])%bind_Some). by eapply inv_task.
  - apply bind_Some in Hstep as (s & Hs & [= <-]). by apply (inv_call e s (Ch_Run i reply)).
  - apply bind_Some in Hstep as (s & Hs & [= <-]). by apply (inv_call e s (Ch_Worker i mv)).
  - destruct (negb _ && _); [|done]. injection Hstep as <-. apply inv_start_task; [|done].
    destruct Hi as [? ? ? ? ? Htasks Hcalls ?]. split; simpl; try done.
    + intros i t Ht. apply (task_ok_keeps (en_core e) (en_core e) (en_exiting e) true (en_armed e) (en_armed e)); [by intros ?|done|done|by apply (Htasks i)].
    + intros i t call Ht Hc. pose proof (Hcalls i t call Ht Hc) as Hok. by destruct call as [|[]].
Qed.
Lemma inv_engine_new uuid m : accounted m [] → engine_inv (engine_new uuid m).
Proof.
  intros Hm. split; simpl; try done. apply (inv_quiet (set_terminal_observer 0 StatusPublisher_new) StatsRegistry_new). by apply inv_new.
Qed.
Lemma inv_engine_runs evs e e' : engine_run evs e = Some e' → engine_inv e → engine_inv e'.
Proof.
  revert e. induction evs as [|ev evs IH]; simpl; intros e Hrun Hi; [by simplify_eq|].
  apply bind_Some in Hrun as (e1 & Hstep & Hrun). eauto using inv_engine_step.
Qed.
End Inv.
