(* ===== verification/EngineControlTrue.v ===== *)
(** * What the engine promises its owner

    The theorems about the running engine of [EngineControlSys], from the invariants of
    [EngineControlInv]: who can make it act by a request, and who owns it. How operations end
    is in [EngineControlEnds], that they do in [EngineControlLive]. *)

From Stdlib Require Import NArith ZArith Strings.Byte Strings.String Lia.
From S2P Require Import Prelude Identity Model Admission AdmissionIndex Authority Delivery Text Wire Config NativeError.
From S2P Require Import Offer Session IpHelper Routes RouteOwner Channel EngineStatus EngineLog EnginePlane EngineService.
From S2P Require Import EngineRuntime EngineRuntimeSafe EngineRuntimeLoss EngineRuntimeEnd.
From S2P Require Import EngineOwner EngineControl EngineControlSafe EngineControlSys EngineControlInv.

Section True.
Context {M Io : Type} `{TunnelPlatformLaws M Io} (wintun_dll : str).
Context `{!RecordCodec} (sha256 : list byte → Digest) (hash64 : N → list byte → N).
Context (encode_key encode_subject : WireOperationLookupKey → list byte).
Context (from_slice : list byte → result str EngineCredentialPackage) (zeroize : list byte → list byte).
Context (sv : HelperControlService).
#[local] Abbreviation Sys := (Sys (M:=M)).
#[local] Abbreviation Engine := (Engine (M:=M)).
#[local] Abbreviation sys_step := (sys_step (Io:=Io) wintun_dll).
#[local] Abbreviation engine_step := (engine_step (Io:=Io) wintun_dll sha256 hash64 encode_key encode_subject from_slice zeroize sv).
#[local] Abbreviation engine_run := (engine_run (Io:=Io) wintun_dll sha256 hash64 encode_key encode_subject from_slice zeroize sv).
#[local] Abbreviation engine_reachable := (engine_reachable (Io:=Io) wintun_dll sha256 hash64 encode_key encode_subject from_slice zeroize sv).
#[local] Abbreviation request_step := (request_step (M:=M) sha256 hash64 encode_key encode_subject from_slice zeroize sv).
#[local] Abbreviation task_step := (task_step (M:=M) sha256 hash64 encode_subject sv).
#[local] Abbreviation with_sys := (with_sys (M:=M) hash64 encode_subject).
#[local] Abbreviation engine_inv := (engine_inv (Io:=Io) hash64 sv).
Implicit Types (e : Engine) (c : HelperControlCore).

Lemma inv_of_reachable uuid m e : accounted m [] → engine_reachable uuid m e → engine_inv e.
Proof. intros Hm [evs Hrun]. eapply inv_engine_runs; [exact Hrun|by apply inv_engine_new]. Qed.

(** ** Who can make it act *)

(** Who is at the other end of a connection whose identity was verified. *)
Definition verified_peer (ext : option NamedPipeConnectInfo) : option PeerContext :=
  match ext with
  | Some info => if ci_verified info
                 then Some (MkPeerContext (ci_principal info) (MkConnectionBinding (ci_connection_digest info)))
                 else None
  | None => None
  end.
(** The request comes over a verified connection, from the peer that owns the engine. *)
Definition asks e (ext : option NamedPipeConnectInfo) : Prop :=
  ∃ o, co_owner (en_core e) = Some o ∧ verified_peer ext = Some (os_peer o).
(** The owner holds a lease of the current version. *)
Definition leased e : Prop :=
  ∃ o l, co_owner (en_core e) = Some o ∧ lease_of (co_leases (en_core e)) (os_connection o) = Some l
         ∧ OwnershipVersion_0 (ol_ownership_version l) = co_ownership_version (en_core e).

Lemma transport_verified ext : transport_peer ext =
  match verified_peer ext with
  | Some peer => Ok (peer, pc_connection peer)
  | None => Err (unauthenticated "transport peer not verified")
  end.
Proof. destruct ext as [info|]; [|done]. unfold transport_peer. simpl. by destruct (ci_verified info). Qed.
Lemma bind_verified ext c wk rd method t1 t2 : verified_peer ext = None → is_ok (bind_mutation sv ext c wk rd method t1 t2) = false.
Proof. intros Hn. unfold bind_mutation. by rewrite transport_verified, Hn. Qed.

Lemma asks_bind e ext wk rd method t1 t2 x : bind_mutation sv ext (en_core e) wk rd method t1 t2 = Ok x → asks e ext.
Proof.
  destruct x as [[peer key] d]. intros ([connection Ht] & (o & Ho & Hp) & _)%bind_mutation_spec. exists o. split; [done|].
  rewrite transport_verified in Ht. destruct (verified_peer ext); simplify_eq. done.
Qed.
Lemma core_stats p c e : en_core (with_sys (tell_phase p (en_sys e)) (with_core c e)) = c.
Proof. unfold EngineControlSys.with_sys. simpl. unfold told_by. simpl. by rewrite drop_all. Qed.

(** A request changes the endpoint only for the owner. *)
Lemma request_asks r e : en_core (request_step r e) ≠ en_core e → asks e (request_ext r).
Proof.
  destruct r as [ext|ext [wk|] d t1 t2 eff|ext rq t1 t2 eff|ext [wk|] d t1 t2 eff|ext [wk|] d t1 t2 eff|ext|ext tick el|ext]; simpl; try done.
  - unfold maintain_owner_lease. by destruct (transport_peer ext) as [[]|].
  - unfold acquire_lease. destruct (bind_mutation _ _ _ _ _ _ _ _) eqn:Eb; [|done]. intros _. by eapply asks_bind.
  - unfold apply_admit. destruct (aq_lookup_key rq) as [wk|], (aq_plan rq); try done.
    destruct (bind_mutation _ _ _ _ _ _ _ _) eqn:Eb; [|done]. intros _. by eapply asks_bind.
  - unfold stop_admit. destruct (bind_mutation _ _ _ _ _ _ _ _) eqn:Eb; [|done]. intros _. by eapply asks_bind.
  - unfold release_lease. destruct (bind_mutation _ _ _ _ _ _ _ _) eqn:Eb; [|done]. intros _. by eapply asks_bind.
  - unfold stream_connect_status, told_by. destruct (transport_peer ext); simpl; by rewrite drop_all.
  - destruct (shutdown sv ext (en_armed e)) as [armed outcome] eqn:Es. by destruct outcome as [[]|].
Qed.
(** Nothing comes of a request over a connection that was not verified. *)
Lemma request_unverified r e : verified_peer (request_ext r) = None → request_step r e = e.
Proof.
  intros Hn. assert (Hb := bind_verified (request_ext r) (en_core e)).
  destruct e as [c [] h armed stop exiting tasks], r as [ext|ext [wk|] d t1 t2 eff|ext rq t1 t2 eff|ext [wk|] d t1 t2 eff|ext [wk|] d t1 t2 eff|ext|ext tick el|ext]; simpl in Hn, Hb |- *; try done.
  - unfold maintain_owner_lease. by rewrite transport_verified, Hn.
  - unfold acquire_lease. simpl. specialize (Hb wk d Method_AcquireLease t1 t2 Hn). by destruct (bind_mutation _ _ _ _ _ _ _ _).
  - unfold apply_admit. destruct (aq_lookup_key rq) as [wk|], (aq_plan rq); try done. simpl.
    specialize (Hb wk (aq_request_digest rq) Method_ApplyTunnel t1 t2 Hn). by destruct (bind_mutation _ _ _ _ _ _ _ _).
  - unfold stop_admit. simpl. specialize (Hb wk d Method_StopTunnel t1 t2 Hn). by destruct (bind_mutation _ _ _ _ _ _ _ _).
  - unfold release_lease. simpl. specialize (Hb wk d Method_ReleaseLease t1 t2 Hn). by destruct (bind_mutation _ _ _ _ _ _ _ _).
  - unfold stream_connect_status. rewrite transport_verified, Hn. simpl. unfold EngineControlSys.with_sys, told_by. simpl. by rewrite drop_all.
  - unfold keep_alive. by rewrite transport_verified, Hn.
  - unfold shutdown. by rewrite transport_verified, Hn.
Qed.
(** Nor does the runtime change, but for a stream of its statuses, unless the owner asks. *)
Lemma request_runtime r e : with_status (sy_status (en_sys e)) (en_sys (request_step r e)) ≠ en_sys e → asks e (request_ext r).
Proof.
  assert (Heta : ∀ s : Sys, with_status (sy_status s) s = s) by (by intros []). intros Hne.
  destruct r as [ext|ext [wk|] d t1 t2 eff|ext rq t1 t2 eff|ext [wk|] d t1 t2 eff|ext [wk|] d t1 t2 eff|ext|ext tick el|ext]; simpl in Hne.
  7:{ revert Hne. unfold release_lease. destruct (bind_mutation _ _ _ _ _ _ _ _) eqn:Eb; [|intros Hne; destruct Hne; apply Heta].
      intros _. by eapply asks_bind. }
  all: destruct Hne; unfold maintain_owner_lease, apply_admit, stop_admit, release_lease, shutdown;
    repeat (case_match; simpl; simplify_eq/=; try apply Heta); by destruct (en_sys e).
Qed.
(** A connection or a stop starts only under the owner's lease. *)
Lemma request_leased r e i t : engine_inv e → en_tasks (request_step r e) !! i = Some t → en_tasks e !! i = None →
  match t with
  | K_Apply _ _ | K_Stop _ _ _ _ _ => asks e (request_ext r) ∧ leased e
  | K_Lease st => verified_peer (request_ext r) = Some (ls_peer st)
  | K_Trigger => hs_shutdown_signal sv = true ∧ hs_connection_mode sv = Service ∧ en_armed e = false ∧ en_armed (request_step r e) = true
  | _ => False
  end.
Proof.
  intros Hi Ht Hn. pose proof (ei_core _ _ _ Hi) as [Ho Ha _].
  assert (Hlease : ∀ peer wb rq key d method subject eff r, (admit_and_gate sha256 hash64 (en_core e) peer wb rq key d method subject eff).2 = Ok r → leased e).
  { intros peer wb rq key d method subject eff r0 Hr.
    destruct (admit_gate_spec sha256 hash64 (en_core e) peer wb rq key d method subject eff Ha) as (_ & _ & Had).
    destruct (Had r0 Hr) as (_ & o & l & Hown & Hl). destruct (ow_owned _ Ho _ _ Hl) as (o' & Ho' & _ & Hv).
    exists o, l. by split_and!. }
  destruct r as [ext|ext key d t1 t2 eff|ext rq t1 t2 eff|ext key d t1 t2 eff|ext key d t1 t2 eff|ext|ext tick el|ext]; simpl in Ht |- *.
  - unfold maintain_owner_lease in Ht. rewrite transport_verified in Ht. destruct (verified_peer ext) as [peer|]; simpl in Ht; [|congruence].
    apply lookup_app_Some in Ht as [|[_ Ht]]; [congruence|]. by apply list_lookup_singleton_Some in Ht as [_ <-].
  - congruence.
  - unfold apply_admit in Ht. destruct (aq_lookup_key rq) as [wk|], (aq_plan rq) as [wp|]; simpl in Ht; try congruence.
    destruct (bind_mutation _ _ _ _ _ _ _ _) as [[[peer key] d]|] eqn:Eb; simpl in Ht; [|congruence].
    destruct (tunnel_plan_from_wire wp); simpl in Ht; [|congruence].
    destruct (parse_request_secret _ _ _) as [payload [cred|]]; simpl in Ht; [|congruence].
    destruct (windows_connection_mode_from_wire _); simpl in Ht; [|congruence].
    match type of Ht with context [admit_and_gate ?a ?b ?c ?p ?wb ?rq ?k ?d ?m ?s ?e] =>
      pose proof (Hlease p wb rq k d m s e) as Hl; destruct (admit_and_gate a b c p wb rq k d m s e) as [c2 [r0|]] end; simpl in Ht; [|congruence].
    apply lookup_app_Some in Ht as [|[_ Ht]]; [congruence|]. apply list_lookup_singleton_Some in Ht as [_ <-].
    split; [by eapply asks_bind|by eapply Hl].
  - unfold stop_admit in Ht. destruct key as [wk|]; simpl in Ht; [|congruence].
    destruct (bind_mutation _ _ _ _ _ _ _ _) as [[[peer key] dg]|] eqn:Eb; simpl in Ht; [|congruence].
    match type of Ht with context [admit_and_gate ?a ?b ?c ?p ?wb ?rq ?k ?d ?m ?s ?e] =>
      pose proof (Hlease p wb rq k d m s e) as Hl; destruct (admit_and_gate a b c p wb rq k d m s e) as [c2 [r0|]] end; simpl in Ht; [|congruence].
    apply lookup_app_Some in Ht as [|[_ Ht]]; [congruence|]. apply list_lookup_singleton_Some in Ht as [_ <-].
    split; [by eapply asks_bind|by eapply Hl].
  - destruct (release_lease _ _ _ _ _ _ _ _ _ _ _) as [c rel]. destruct (is_ok rel); simpl in Ht; congruence.
  - congruence.
  - congruence.
  - destruct (shutdown sv ext (en_armed e)) as [armed outcome] eqn:Es. destruct outcome as [[]|]; simpl in Ht; try congruence.
    apply lookup_app_Some in Ht as [|[_ Ht]]; [congruence|]. apply list_lookup_singleton_Some in Ht as [_ <-].
    unfold shutdown in Es. destruct (transport_peer ext), (hs_shutdown_signal sv), (bool_decide (hs_connection_mode sv = Service)) eqn:Em, (en_armed e);
      simplify_eq/=. by apply bool_decide_eq_true in Em.
Qed.

(** ** Who owns it *)

(** Who owns the engine, and the version of that ownership. *)
Definition ownership c : option OwnerSession * N := (co_owner c, co_ownership_version c).
(** The owner is given up: no lease is left, and the version moves on. *)
Definition given_up c c' : Prop :=
  is_Some (co_owner c) ∧ co_owner c' = None ∧ co_ownership_version c' = sat64 (co_ownership_version c) 1
  ∧ ∀ k, lease_of (co_leases c') k = None.
(** How a step may change who owns the engine: not at all, a peer takes what nobody owns over
    its own verified stream, or the owner is given up. *)
Definition owns_on e e' : Prop :=
  ownership (en_core e') = ownership (en_core e) ∨
  (co_owner (en_core e) = None ∧ co_ownership_version (en_core e') = co_ownership_version (en_core e) ∧
   ∃ i st, en_tasks e !! i = Some (K_Lease st) ∧ co_owner (en_core e') = Some (MkOwnerSession (ls_peer st) (ls_connection st))) ∨
  given_up (en_core e) (en_core e').

Lemma ownership_gate c peer wb rq key d method subject eff :
  admit_inv hash64 c → ownership (admit_and_gate sha256 hash64 c peer wb rq key d method subject eff).1 = ownership c.
Proof.
  intros Ha. destruct (admit_gate_spec sha256 hash64 c peer wb rq key d method subject eff Ha) as (_ & [_ Ho Hv _ _ _ _] & _).
  unfold ownership. by rewrite Ho, Hv.
Qed.
Lemma ownership_observers es : ∀ c, ownership (foldl (terminal_observer hash64 encode_subject) c es) = ownership c.
Proof.
  induction es as [|ev es IH]; intros c; simpl; [done|]. rewrite IH. unfold terminal_observer. by repeat (case_match; simpl).
Qed.
(** Without an owner there is no lease. *)
Lemma no_owner_no_lease c k : owner_inv c → co_owner c = None → lease_of (co_leases c) k = None.
Proof. intros Hi Ho. destruct (lease_of _ k) as [l|] eqn:El; [|done]. destruct (ow_owned _ Hi k l El) as (o & ? & _). congruence. Qed.

Lemma ownership_acquire ext key d t1 t2 eff c : admit_inv hash64 c →
  ownership (acquire_lease sha256 hash64 encode_key encode_subject sv ext key d t1 t2 eff c).1 = ownership c.
Proof.
  intros Ha. unfold acquire_lease.
  repeat (case_match; simpl; try done); simplify_eq/=.
  all: match goal with E : admit_and_gate _ _ ?c1 ?p ?wb ?rq ?k ?d ?m ?s ?e = _ |- _ =>
    pose proof (ownership_gate c1 p wb rq k d m s e ltac:(by destruct Ha; split)) as Ho; rewrite E in Ho; exact Ho end.
Qed.
Lemma ownership_apply ext rq t1 t2 eff c : admit_inv hash64 c →
  ownership (apply_admit sha256 hash64 encode_key from_slice zeroize sv ext rq t1 t2 eff c).1.1 = ownership c.
Proof.
  intros Ha. unfold apply_admit. repeat (case_match; simpl; try done); simplify_eq/=.
  all: match goal with E : admit_and_gate _ _ ?c1 ?p ?wb ?rq ?k ?d ?m ?s ?e = _ |- _ =>
    pose proof (ownership_gate c1 p wb rq k d m s e Ha) as Ho; rewrite E in Ho; exact Ho end.
Qed.
Lemma ownership_stop ext key d t1 t2 eff c : admit_inv hash64 c →
  ownership (stop_admit sha256 hash64 encode_key sv ext key d t1 t2 eff c).1 = ownership c.
Proof.
  intros Ha. unfold stop_admit. repeat (case_match; simpl; try done); simplify_eq/=.
  all: match goal with E : admit_and_gate _ _ ?c1 ?p ?wb ?rq ?k ?d ?m ?s ?e = _ |- _ =>
    pose proof (ownership_gate c1 p wb rq k d m s e Ha) as Ho; rewrite E in Ho; exact Ho end.
Qed.
Lemma ownership_release ext key d t1 t2 eff c :
  admit_inv hash64 c →
  let c' := (release_lease sha256 hash64 encode_key sv ext key d t1 t2 eff c).1 in
  owner_inv c' → ownership c' = ownership c ∨ given_up c c'.
Proof.
  intros Ha c' Hc'. subst c'. revert Hc'. unfold release_lease.
  destruct key as [wk|]; simpl; [|by left]. destruct (bind_mutation _ _ _ _ _ _ _ _) as [[[peer key] dg]|]; simpl; [|by left].
  match goal with |- context [admit_and_gate ?a ?b ?c ?p ?wb ?rq ?k ?d ?m ?s ?e] =>
    pose proof (ownership_gate c p wb rq k d m s e Ha) as Ho; destruct (admit_and_gate a b c p wb rq k d m s e) as [c2 [r0|]] end;
    simpl in Ho |- *; [|by left].
  destruct (co_owner c2) as [o|] eqn:Eo; simpl; [|by left]. intros Hc'. right. injection Ho as Ho Hv.
  split_and!; [rewrite <-Ho, Eo; by eexists|done|by rewrite Hv|]. intros k. by apply (no_owner_no_lease _ k Hc').
Qed.
Lemma ownership_message fresh sent m st c : let c' := (lease_message sv fresh sent m st c).1.1 in
  owner_inv c → ls_connection st = pc_connection (ls_peer st) →
  ownership c' = ownership c ∨
  (co_owner c = None ∧ co_ownership_version c' = co_ownership_version c ∧ co_owner c' = Some (MkOwnerSession (ls_peer st) (ls_connection st))).
Proof.
  intros c' Hi Hst. subst c'. unfold lease_message, token_received, ownership.
  repeat (case_match; simpl; try by left); simplify_eq/=.
  all: try by (left; by repeat (case_match; simpl)).
  all: try by right.
  all: left; match goal with E : co_owner _ = Some ?o, Hb : negb _ = false |- _ =>
    apply negb_false_iff, bool_decide_eq_true in Hb; pose proof (ow_peer _ Hi o E) as Hp; destruct o as [p k]; simpl in * end; by rewrite Hst; subst.
Qed.
Lemma ownership_end st c : owner_inv c → let c' := lease_stream_end sv st c in ownership c' = ownership c ∨ given_up c c'.
Proof.
  intros Hi c'. pose proof (owner_inv_end sv st c Hi) as Hc'. subst c'. revert Hc'. unfold lease_stream_end.
  destruct (hs_connection_mode sv); [by left|]. destruct (co_owner c) as [o|] eqn:Eo; [|by left].
  case_bool_decide; [|by left]. intros Hc'. right. split_and!; [rewrite Eo; by eexists|done|done|].
  intros k. by apply (no_owner_no_lease _ k Hc').
Qed.
Lemma ownership_told s e : ownership (en_core (with_sys s e)) = ownership (en_core e).
Proof. apply ownership_observers. Qed.
Lemma owns_task e i t input e1 t1 : engine_inv e → en_tasks e !! i = Some t → task_step t input e = Some (e1, t1) → owns_on e e1.
Proof.
  intros Hi Ht Hstep. pose proof (ei_tasks _ _ _ Hi i t Ht) as Hok. pose proof (ci_owner_inv _ _ _ (ei_core _ _ _ Hi)) as Ho.
  unfold EngineControlSys.task_step in Hstep. destruct t as [st|ctx pc|wk key d eff q|wk rc| |q|a], input as [|fresh sent m| |wall]; simpl in Hok; try done.
  - destruct (ls_reading st); [|done].
    destruct (ownership_message fresh sent m st (en_core e) Ho Hok) as [E|(E & Ev & En)];
      destruct (lease_message _ _ _ _ _ _) as [[c st'] x]; injection Hstep as <- <-; [by left|].
    right; left. split_and!; [done..|]. by exists i, st.
  - injection Hstep as <- <-. destruct (ownership_end st (en_core e) Ho); [by left|by right; right].
  - destruct pc; simpl in Hstep; try done; simplify_eq; left; [apply ownership_told|done].
  - destruct pc; simpl in Hstep; try done.
  - destruct pc; simpl in Hstep; try done.
  - left. destruct pc; simpl in Hstep; try done. destruct (start_apply ctx wall (en_sys e)); simplify_eq. apply ownership_told.
  - left. destruct q as [| | |[r|]]; simpl in Hstep;
      try (simplify_eq; solve [done | etransitivity; [apply ownership_told|done]]).
    all: by apply bind_Some in Hstep as ([s q'] & Hq & [= <- <-]); apply ownership_told.
  - left. simplify_eq. apply ownership_told.
  - left. by simplify_eq.
  - left. destruct q; simpl in Hstep; try (by simplify_eq; apply ownership_told).
    all: by apply bind_Some in Hstep as ([s q'] & Hq & [= <- <-]); apply ownership_told.
Qed.
Lemma owns_request r e : engine_inv e → owns_on e (request_step r e).
Proof.
  intros Hi. pose proof (ci_admit_inv _ _ _ (ei_core _ _ _ Hi)) as Ha.
  destruct r as [ext|ext key d t1 t2 eff|ext rq t1 t2 eff|ext key d t1 t2 eff|ext key d t1 t2 eff|ext|ext tick el|ext]; simpl.
  - left. unfold maintain_owner_lease. by destruct (transport_peer ext) as [[]|].
  - left. by apply ownership_acquire.
  - left. pose proof (ownership_apply ext rq t1 t2 eff (en_core e) Ha) as E.
    destruct (apply_admit _ _ _ _ _ _ _ _ _ _ _ _) as [[c payload] [ctx|]]; exact E.
  - left. pose proof (ownership_stop ext key d t1 t2 eff (en_core e) Ha) as E.
    destruct (stop_admit _ _ _ _ _ _ _ _ _ _ _) as [c [[wk k]|]]; exact E.
  - pose proof (core_inv_release sha256 hash64 encode_key _ sv ext key d t1 t2 eff (en_core e) (ei_core _ _ _ Hi)) as [Hc _ _].
    destruct (ownership_release ext key d t1 t2 eff (en_core e) Ha Hc) as [E|E];
      destruct (release_lease _ _ _ _ _ _ _ _ _ _ _) as [c rel]; simpl in *; [left|right; right].
    + destruct (is_ok rel); [|done]. by etransitivity; [apply ownership_told|].
    + destruct (is_ok rel); [|done]. by rewrite core_stats.
  - left. apply ownership_told.
  - by left.
  - left. destruct (shutdown sv ext (en_armed e)) as [armed outcome]. by destruct outcome as [[]|].
Qed.
Lemma owns_step ev e e' : engine_inv e → engine_step ev e = Some e' → owns_on e e'.
Proof.
  intros Hi Hstep. destruct ev as [r|i input|i reply|i mv|x]; simpl in Hstep.
  - injection Hstep as <-. by apply owns_request.
  - apply bind_Some in Hstep as (t & Ht & ([e1 t1] & Hstep & [= <-])%bind_Some). exact (owns_task e i t input e1 t1 Hi Ht Hstep).
  - apply bind_Some in Hstep as (s & Hs & [= <-]). left. apply ownership_told.
  - apply bind_Some in Hstep as (s & Hs & [= <-]). left. apply ownership_told.
  - destruct (negb _ && _); [|done]. injection Hstep as <-. by left.
Qed.
End True.

(** C3: Only its owner can make the engine connect or disconnect by a request, or change the
    state of its endpoint. However requests, tasks and the runtime interleave, every
    connection the runtime assembles, and every disconnect it runs for a request, is one the
    endpoint admitted, under an operation of that kind. A request over a connection whose
    identity was not verified changes nothing at all. Only one of the peer that owns the
    engine, by principal and by connection, changes the endpoint's state, or anything of the
    runtime but who listens to its statuses; and a connection or a stop starts only while
    that owner holds a lease of the current version of the ownership. What any verified peer
    may start besides is its own lease stream, and, once, of an engine that serves and takes
    requests to end, the stop signal; the end of the process then disconnects too. *)
Theorem only_owner_acts {M Io} `{TunnelPlatformLaws M Io} wintun_dll `{!RecordCodec} sha256 hash64 encode_key encode_subject
    from_slice zeroize sv uuid (m : M) e :
  accounted m [] →
  engine_reachable (Io:=Io) wintun_dll sha256 hash64 encode_key encode_subject from_slice zeroize sv uuid m e →
  (∀ i ctx pc, sy_threads (en_sys e) !! i = Some (T_Assembly ctx pc) → connects (en_core e) (cx_operation_id ctx)) ∧
  (∀ i pc, sy_threads (en_sys e) !! i = Some (T_Caller false pc) → stops (en_core e)) ∧
  ∀ r, let e' := request_step sha256 hash64 encode_key encode_subject from_slice zeroize sv r e in
    (en_core e' ≠ en_core e → asks e (request_ext r)) ∧
    (∀ i t, en_tasks e' !! i = Some t → en_tasks e !! i = None →
       match t with
       | K_Apply _ _ | K_Stop _ _ _ _ _ => asks e (request_ext r) ∧ leased e
       | K_Lease st => verified_peer (request_ext r) = Some (ls_peer st)
       | K_Trigger => hs_shutdown_signal sv = true ∧ hs_connection_mode sv = Service ∧ en_armed e = false ∧ en_armed e' = true
       | _ => False
       end) ∧
    (verified_peer (request_ext r) = None → e' = e) ∧
    (with_status (sy_status (en_sys e)) (en_sys e') ≠ en_sys e → asks e (request_ext r)).
Proof.
  intros Hm Hr. eapply inv_of_reachable in Hr as Hi; [|exact Hm]. split_and!.
  - intros i ctx pc Ht. exact (ei_calls _ _ _ Hi i _ (inl ctx) Ht eq_refl).
  - intros i pc Ht. exact (ei_calls _ _ _ Hi i _ (inr false) Ht eq_refl).
  - intros r. cbv zeta. split_and!; [apply request_asks| |apply request_unverified|apply request_runtime].
    intros i t. by apply request_leased.
Qed.

(** C4: The engine has one owner at a time, and no right outlives its ownership. Every lease
    is its owner's, of the current version of the ownership; and whatever step is taken, the
    owner and the version stay what they were, or the peer of a verified stream takes the
    engine nobody owned, or the owner is given up together with every lease, and the version
    moves on. *)
Theorem ownership_changes {M Io} `{TunnelPlatformLaws M Io} wintun_dll `{!RecordCodec} sha256 hash64 encode_key encode_subject
    from_slice zeroize sv uuid (m : M) e :
  accounted m [] →
  engine_reachable (Io:=Io) wintun_dll sha256 hash64 encode_key encode_subject from_slice zeroize sv uuid m e →
  (∀ k l, lease_of (co_leases (en_core e)) k = Some l →
     ∃ o, co_owner (en_core e) = Some o ∧ os_connection o = k ∧ pc_connection (os_peer o) = k ∧
          OwnershipVersion_0 (ol_ownership_version l) = co_ownership_version (en_core e)) ∧
  (0 < co_ownership_version (en_core e) < two64)%N ∧
  ∀ ev e', engine_step (Io:=Io) wintun_dll sha256 hash64 encode_key encode_subject from_slice zeroize sv ev e = Some e' → owns_on e e'.
Proof.
  intros Hm Hr. eapply inv_of_reachable in Hr as Hi; [|exact Hm]. destruct (ci_owner_inv _ _ _ (ei_core _ _ _ Hi)) as [_ Hl Hp Hv].
  split_and!; [|by apply Hv..|].
  - intros k l Hk. destruct (Hl k l Hk) as (o & Ho & <- & ?). exists o. split_and!; [done|done|by rewrite (Hp o Ho)|done].
  - intros ev e' Hstep. by eapply owns_step.
Qed.
