(* ===== verification/EngineControlEnds.v ===== *)
(** * What the engine says of an operation's end

    Every step of the engine of [EngineControlSys] seen from both of its sides: what it does
    to the runtime, and which operations it lets end. An operation that is recorded
    as a success was admitted, and a connection that is recorded as ended was published as
    such; a connection is up at the moment it is recorded as a success; and after a stop the
    engine says nothing of a connection until the next one is started. *)

From Stdlib Require Import NArith ZArith Strings.Byte Strings.String Lia.
From S2P Require Import Prelude Identity Model Admission AdmissionIndex Authority Delivery Text Wire Config NativeError.
From S2P Require Import Offer Session IpHelper Routes RouteOwner Channel EngineStatus EngineLog EnginePlane EngineService.
From S2P Require Import EngineRuntime EngineRuntimeSafe EngineRuntimeLoss EngineRuntimeEnd.
From S2P Require Import EngineOwner EngineControl EngineControlSafe EngineControlSys EngineControlInv EngineControlTrue.

Section Ends.
Context {M Io : Type} `{TunnelPlatformLaws M Io} (wintun_dll : str).
Context `{!RecordCodec} (sha256 : list byte → Digest) (hash64 : N → list byte → N).
Context (encode_key encode_subject : WireOperationLookupKey → list byte).
Context (from_slice : list byte → result str EngineCredentialPackage) (zeroize : list byte → list byte).
Context (sv : HelperControlService).
#[local] Abbreviation Sys := (Sys (M:=M)).
#[local] Abbreviation Engine := (Engine (M:=M)).
#[local] Abbreviation sys_step := (sys_step (Io:=Io) wintun_dll).
#[local] Abbreviation engine_step := (engine_step (Io:=Io) wintun_dll sha256 hash64 encode_key encode_subject from_slice zeroize sv).
#[local] Abbreviation engine_run := (engine_run (Io:=Io) wintun_dll sha256 hash64 encode_key encode_subject from_slice zeroize sv).
#[local] Abbreviation engine_reachable := (engine_reachable (Io:=Io) wintun_dll sha256 hash64 encode_key encode_subject from_slice zeroize sv).
#[local] Abbreviation request_step := (request_step (M:=M) sha256 hash64 encode_key encode_subject from_slice zeroize sv).
#[local] Abbreviation task_step := (task_step (M:=M) sha256 hash64 encode_subject sv).
#[local] Abbreviation with_sys := (with_sys (M:=M) hash64 encode_subject).
#[local] Abbreviation engine_inv := (engine_inv (Io:=Io) hash64 sv).
#[local] Abbreviation observe := (foldl (terminal_observer hash64 encode_subject)).
Implicit Types (e : Engine) (c : HelperControlCore).

(** ** What a step does to the runtime *)

(** The step starts a connection. *)
Definition starts (ev : Event (Io:=Io)) : bool := match ev with E_Task _ (In_Wall _) => true | _ => false end.
(** The runtime takes a step, which starts a connection only if [b], or its publishers are
    told something else than a connection. *)
Definition runs_by (b : bool) (s s' : Sys) : Prop :=
  (∃ ch, sys_step ch s = Some s' ∧ (is_start ch = true → b = true)) ∨
  (∃ p r, s' = with_stats r (with_status p s) ∧ quiet (sy_status s) p).
Lemma runs_by_on b s s' : runs_by b s s' → runs_on (Io:=Io) wintun_dll s s'.
Proof. intros [(ch & ? & _)|(p & r & ? & ?)]; [by eapply runs_step|by eapply runs_quiet]. Qed.
Lemma runs_by_same b s : runs_by b s s.
Proof. right. exists (sy_status s), (sy_stats s). split; [by destruct s|by apply quiet_same]. Qed.
Lemma runs_by_tell b s ev : ¬ says_connected ev → runs_by b s (tell ev s).
Proof. intros Hev. right. exists (publish ev (sy_status s)), (sy_stats s). split; [by destruct s|by eapply quiet_publish]. Qed.
Lemma runs_by_phase b s p : runs_by b s (tell_phase p s).
Proof. right. exists (sy_status s), (set_phase p (sy_stats s)). split; [by destruct s|by apply quiet_same]. Qed.

Lemma quiesce_runs b td q s s' q' : quiesce_step td q s = Some (s', q') → runs_by b s s'.
Proof.
  intros Hq. destruct q as [|n|i|]; simpl in Hq; [| | |done].
  - injection Hq as <- <-. left. by exists Ch_Cancel.
  - destruct (_ && _); injection Hq as <- <-; [apply runs_by_same|].
    left. by destruct td; [exists Ch_Teardown|exists Ch_Disconnect].
  - repeat case_match; simplify_eq; apply runs_by_same.
Qed.

(** ** Which operations end *)

(** Operations other than connections may end. *)
Definition other_ends c c' : Prop :=
  ∀ d t, co_terminals c' !! d = Some t → co_terminals c !! d = Some t ∨
    ∃ key, names (wr_identity (terminal_receipt t)) key ∧ olk_method key ≠ Method_ApplyTunnel.
Lemma other_refl c c' : co_terminals c' = co_terminals c → other_ends c c'.
Proof. intros E d t. rewrite E. by left. Qed.
Lemma other_record c c' key t : co_terminals c' = co_terminals c →
  names (wr_identity (terminal_receipt t)) key → olk_method key ≠ Method_ApplyTunnel → other_ends c (record_terminal hash64 key t c').
Proof.
  intros E Hn Hm d t'. simpl. rewrite E, lookup_insert_Some. intros [[_ <-]|[_ ?]]; [right; by exists key|by left].
Qed.
Lemma gate_ends c peer wb rq key d method subject eff : admit_inv hash64 c →
  co_terminals (admit_and_gate sha256 hash64 c peer wb rq key d method subject eff).1 = co_terminals c.
Proof. intros Ha. by destruct (admit_gate_spec sha256 hash64 c peer wb rq key d method subject eff Ha) as (_ & [] & _). Qed.

Lemma acquire_ends ext key d t1 t2 eff c : admit_inv hash64 c →
  other_ends c (acquire_lease sha256 hash64 encode_key encode_subject sv ext key d t1 t2 eff c).1.
Proof.
  intros Ha. unfold acquire_lease. destruct key as [wk|]; [|by apply other_refl].
  destruct (bind_mutation _ _ _ _ _ _ _ _) as [[[peer key] dg]|] eqn:Eb; [|by apply other_refl].
  apply bind_mutation_spec in Eb as (_ & _ & _ & Hm & Hn & _). destruct (co_owner c) as [o|]; [|by apply other_refl].
  destruct (lease_issue _ _ _ _ _ _) as [leases issue].
  assert (admit_inv hash64 (set_leases leases c)) as Ha' by (by destruct Ha).
  destruct issue; cycle 2; [by eapply other_record; [..|by rewrite Hm]|..].
  all: match goal with |- context [admit_and_gate _ _ ?c1 ?p ?wb ?rq ?k ?d ?m ?s ?e] =>
         pose proof (gate_ends c1 p wb rq k d m s e Ha') as Hg; destruct (admit_and_gate _ _ c1 p wb rq k d m s e) as [c2 [r|]] end.
  all: solve [by apply other_refl | by eapply other_record; [..|by rewrite Hm]].
Qed.
Lemma release_ends ext key d t1 t2 eff c : admit_inv hash64 c →
  other_ends c (release_lease sha256 hash64 encode_key sv ext key d t1 t2 eff c).1.
Proof.
  intros Ha. unfold release_lease. destruct key as [wk|]; [|by apply other_refl].
  destruct (bind_mutation _ _ _ _ _ _ _ _) as [[[peer key] dg]|] eqn:Eb; [|by apply other_refl].
  apply bind_mutation_spec in Eb as (_ & _ & _ & Hm & Hn & _).
  match goal with |- context [admit_and_gate _ _ ?c1 ?p ?wb ?rq ?k ?d ?m ?s ?e] =>
    pose proof (gate_ends c1 p wb rq k d m s e Ha) as Hg; destruct (admit_and_gate _ _ c1 p wb rq k d m s e) as [c2 [r|]] end;
    [|by apply other_refl].
  simpl in Hg |- *. destruct (co_owner c2) as [o|]; [|by apply other_refl].
  by eapply other_record; [..|by rewrite Hm].
Qed.
Lemma apply_ends ext rq t1 t2 eff c : admit_inv hash64 c →
  other_ends c (apply_admit sha256 hash64 encode_key from_slice zeroize sv ext rq t1 t2 eff c).1.1.
Proof.
  intros Ha. apply other_refl. unfold apply_admit. repeat (case_match; simpl; try done); simplify_eq/=.
  all: match goal with E : admit_and_gate _ _ ?c1 ?p ?wb ?rq ?k ?d ?m ?s ?e = _ |- _ =>
    pose proof (gate_ends c1 p wb rq k d m s e Ha) as Ho; rewrite E in Ho; exact Ho end.
Qed.
Lemma stop_admit_ends ext key d t1 t2 eff c : admit_inv hash64 c →
  other_ends c (stop_admit sha256 hash64 encode_key sv ext key d t1 t2 eff c).1.
Proof.
  intros Ha. apply other_refl. unfold stop_admit. repeat (case_match; simpl; try done); simplify_eq/=.
  all: match goal with E : admit_and_gate _ _ ?c1 ?p ?wb ?rq ?k ?d ?m ?s ?e = _ |- _ =>
    pose proof (gate_ends c1 p wb rq k d m s e Ha) as Ho; rewrite E in Ho; exact Ho end.
Qed.
Lemma finish_ends wk key d eff c : names wk key → olk_method key = Method_StopTunnel →
  other_ends c (stop_finish sha256 hash64 wk key d eff c).1.
Proof. intros Hn Hm. unfold stop_finish. simpl. by eapply other_record; [..|by rewrite Hm]. Qed.
Lemma message_ends fresh sent m st c : other_ends c (lease_message sv fresh sent m st c).1.1.
Proof. apply other_refl. unfold lease_message, token_received. by repeat (case_match; simpl; try done). Qed.
Lemma stream_ends st c : other_ends c (lease_stream_end sv st c).
Proof. apply other_refl. unfold lease_stream_end. by repeat (case_match; simpl; try done). Qed.
(** ** Steps *)

(** A step of the engine: one of the runtime, and operations that end without it or as it
    tells; [b] tells whether a connection is started. *)
Record stepped (b : bool) e e' : Prop := {
  sd_runs : runs_by b (en_sys e) (en_sys e');
  sd_ends : ∃ c, other_ends (en_core e) c
              ∧ en_core e' = observe c (told_by (sy_status (en_sys e)) (sy_status (en_sys e')))
              ∧ (c = en_core e ∨ told_by (sy_status (en_sys e)) (sy_status (en_sys e')) = []);
}.
Lemma told_by_same p : told_by p p = [].
Proof. unfold told_by. by rewrite drop_all. Qed.
Lemma stepped_core b e e' : en_sys e' = en_sys e → other_ends (en_core e) (en_core e') → stepped b e e'.
Proof. intros E Ho. split; rewrite E; [apply runs_by_same|]. exists (en_core e'). rewrite told_by_same. auto. Qed.
Lemma stepped_same b e e' : en_sys e' = en_sys e → en_core e' = en_core e → stepped b e e'.
Proof. intros E Ec. apply stepped_core; [done|]. rewrite Ec. by apply other_refl. Qed.
Lemma stepped_sys b e e' s : runs_by b (en_sys e) s → en_sys e' = s → en_core e' = en_core (with_sys s e) → stepped b e e'.
Proof. intros Hr <- E. split; [done|]. exists (en_core e). split_and!; [by apply other_refl|by rewrite E|by left]. Qed.
(** Operations end without the runtime, whose phase is told. *)
Lemma stepped_phase b e e' p : en_sys e' = tell_phase p (en_sys e) → other_ends (en_core e) (en_core e') → stepped b e e'.
Proof.
  intros E Ho. split; rewrite E; [apply runs_by_phase|]. exists (en_core e'). simpl. rewrite told_by_same. auto.
Qed.

Lemma request_stepped b r e : engine_inv e → stepped b e (request_step r e).
Proof.
  intros Hi. pose proof (ci_admit_inv _ _ _ (ei_core _ _ _ Hi)) as Ha.
  destruct r as [ext|ext key d t1 t2 eff|ext rq t1 t2 eff|ext key d t1 t2 eff|ext key d t1 t2 eff|ext|ext tick el|ext]; simpl.
  - unfold maintain_owner_lease. destruct (transport_peer ext) as [[]|]; by apply stepped_same.
  - apply stepped_core; [done|by apply acquire_ends].
  - pose proof (apply_ends ext rq t1 t2 eff (en_core e) Ha) as E.
    destruct (apply_admit _ _ _ _ _ _ _ _ _ _ _ _) as [[c payload] [ctx|]]; by apply stepped_core.
  - pose proof (stop_admit_ends ext key d t1 t2 eff (en_core e) Ha) as E.
    destruct (stop_admit _ _ _ _ _ _ _ _ _ _ _) as [c [[wk k]|]]; by apply stepped_core.
  - pose proof (release_ends ext key d t1 t2 eff (en_core e) Ha) as E.
    destruct (release_lease _ _ _ _ _ _ _ _ _ _ _) as [c rel]. destruct (is_ok rel); [|by apply stepped_core].
    eapply stepped_phase; [done|]. simpl. by rewrite told_by_same.
  - eapply stepped_sys; [|done|done]. right. exists (stream_connect_status ext (sy_status (en_sys e))).1, (sy_stats (en_sys e)).
    split; [by destruct (en_sys e)|]. unfold stream_connect_status. destruct (transport_peer ext); by apply quiet_same.
  - by apply stepped_same.
  - destruct (shutdown sv ext (en_armed e)) as [armed outcome]. destruct outcome as [[]|]; by apply stepped_same.
Qed.
Lemma apply_stepped ctx pc input e e1 t1 : apply_step hash64 encode_subject ctx pc input e = Some (e1, t1) →
  stepped (match input with In_Wall _ => true | _ => false end) e e1.
Proof.
  intros Hstep. destruct pc, input as [| | |wall]; simpl in Hstep; simplify_eq.
  - destruct (start_apply ctx wall (en_sys e)) as [s out] eqn:Es. simplify_eq. eapply stepped_sys; [|done|done].
    left. exists (Ch_Start ctx wall). simpl. by rewrite Es.
  - eapply stepped_sys; [|done|done]. right. eexists _, _. split; [reflexivity|]. eapply quiet_publish; [|reflexivity]. done.
  - by apply stepped_same.
Qed.
Lemma task_stepped i t input e e1 t1 : engine_inv e → en_tasks e !! i = Some t → task_step t input e = Some (e1, t1) →
  stepped (match input with In_Wall _ => true | _ => false end) e e1.
Proof.
  intros Hi Ht Hstep. pose proof (ei_tasks _ _ _ Hi i t Ht) as Hok. unfold EngineControlSys.task_step in Hstep.
  destruct t as [st|ctx pc|wk key d eff q|wk rc| |q|a], input as [|fresh sent m| |wall]; simpl in Hok; try done.
  all: cbv beta iota in Hstep; try match type of Hstep with apply_step _ _ _ _ _ _ = _ => exact (apply_stepped _ _ _ _ _ _ Hstep) end.
  - destruct (ls_reading st); [|done]. pose proof (message_ends fresh sent m st (en_core e)) as Hm.
    destruct (lease_message _ _ _ _ _ _) as [[c st'] x]. injection Hstep as <- <-. by apply stepped_core.
  - injection Hstep as <- <-. apply stepped_core; [done|apply stream_ends].
  - destruct Hok as (Hn & Hm & _). unfold stop_step in Hstep. destruct q as [| | |[r|]].
    4: { injection Hstep as <- <-. eapply stepped_phase; [done|]. simpl. rewrite told_by_same.
         exact (finish_ends wk key d eff (en_core e) Hn Hm). }
    4: { injection Hstep as <- <-. by apply stepped_same. }
    all: apply bind_Some in Hstep as ([s q'] & Hq & [= <- <-]); eapply stepped_sys; [by eapply quiesce_runs|done|done].
  - injection Hstep as <- <-. eapply (stepped_sys _ _ _ (tell _ _)); [|reflexivity|done]; by apply runs_by_tell.
  - injection Hstep as <- <-. by apply stepped_same.
  - unfold exit_step in Hstep. destruct q as [| | |r].
    4: { injection Hstep as <- <-. eapply (stepped_sys _ _ _ (tell _ _)); [|reflexivity|done]; by apply runs_by_tell. }
    all: apply bind_Some in Hstep as ([s q'] & Hq & [= <- <-]); eapply stepped_sys; [by eapply quiesce_runs|done|done].
Qed.
Lemma engine_stepped ev e e' : engine_inv e → engine_step ev e = Some e' → stepped (starts ev) e e'.
Proof.
  intros Hi Hstep. destruct ev as [r|i input|i reply|i mv|x]; simpl in Hstep |- *.
  - injection Hstep as <-. by apply request_stepped.
  - apply bind_Some in Hstep as (t & Ht & ([e1 t1] & Hstep & [= <-])%bind_Some).
    destruct (task_stepped i t input e e1 t1 Hi Ht Hstep) as [Hr He]. by split.
  - apply bind_Some in Hstep as (s & Hs & [= <-]). eapply stepped_sys; [|done|done]. left. by exists (Ch_Run i reply).
  - apply bind_Some in Hstep as (s & Hs & [= <-]). eapply stepped_sys; [|done|done]. left. by exists (Ch_Worker i mv).
  - destruct (negb _ && _); [|done]. injection Hstep as <-. by apply stepped_same.
Qed.
(** ** What is said is true *)

Lemma publish_heard ev p : sp_publishing p = None →
  told_by p (publish ev p) = [] ∨ told_by p (publish ev p) = [ev] ∧ sp_history (publish ev p) = sp_history p ++ [ev].
Proof.
  intros Hp. unfold publish, publish_begin, publish_commit. destruct (suppressed _ _); rewrite ?Hp; [left; apply told_by_same|].
  unfold told_by. simpl. rewrite drop_app_length. destruct (sp_observer p); [by right|by left].
Qed.
Lemma runs_true b s s' ev : runs_by b s s' → inv s → loss_inv s → sp_publishing (sy_status s) = None →
  ev ∈ told_by (sy_status s) (sy_status s') → says_connected ev → speaks_true s' ev.
Proof.
  intros [(ch & Hs & _)|(p & r & -> & [_ E _ _|e0 He0 ->])] Hinv Hl Hp Hin Hev; simpl in *.
  - pose proof (honest_step wintun_dll ch s s' Hs Hinv Hl Hp) as Hh. unfold honest, connected_told in Hh.
    destruct (speaks_step wintun_dll ch s s' Hs) as [E|[e0 E]]; rewrite E in Hin, Hh; [by rewrite told_by_same in Hin; apply elem_of_nil in Hin|].
    destruct (publish_heard e0 _ Hp) as [E0|[E0 Eh]]; rewrite E0 in Hin; [by apply elem_of_nil in Hin|].
    apply list_elem_of_singleton in Hin as ->. rewrite Eh, filter_app, filter_cons_True, filter_nil in Hh by done.
    destruct Hh as [Hh|(e1 & Hh & Ht)]; [apply (f_equal length) in Hh; rewrite length_app in Hh; simpl in Hh; lia|].
    apply app_inj_2 in Hh as [_ [= ->]]; [exact Ht|done].
  - unfold told_by in Hin. rewrite E, drop_all in Hin. by apply elem_of_nil in Hin.
  - destruct (publish_heard e0 _ Hp) as [E0|[E0 _]]; rewrite E0 in Hin; [by apply elem_of_nil in Hin|].
    by apply list_elem_of_singleton in Hin as ->.
Qed.

Lemma observer_pending c ev : co_pending_apply (terminal_observer hash64 encode_subject c ev) ⊆ co_pending_apply c.
Proof. unfold terminal_observer. repeat (case_match; simpl; try done); apply delete_subseteq. Qed.
(** An operation ends as it is told, if it was waited for. *)
Lemma observe_ends es : ∀ c d t, co_terminals (observe c es) !! d = Some t →
  co_terminals c !! d = Some t ∨
  ∃ ev p, ev ∈ es ∧ co_pending_apply c !! st_operation_id ev = Some p ∧ wr_identity (terminal_receipt t) = pa_wire_key p
    ∧ (∀ r, t = WT_Succeeded r → says_connected ev).
Proof.
  induction es as [|ev es IH]; simpl; intros c d t Hd; [by left|].
  apply IH in Hd as [Hd|(ev' & p & Hin & Hp & Hr)]; cycle 1.
  { right. exists ev', p. split; [by right|]. split; [eapply lookup_weaken; [exact Hp|apply observer_pending]|done]. }
  unfold terminal_observer in Hd. destruct (st_coarse_phase ev) eqn:Ep; try by left.
  all: destruct (co_pending_apply c !! st_operation_id ev) as [p|] eqn:El; [|by left].
  all: simpl in Hd; apply lookup_insert_Some in Hd as [[_ <-]|[_ ?]]; [|by left].
  all: right; exists ev, p; split_and!; [by left|done|done|by intros].
Qed.
Lemma names_same w k1 k2 : names w k1 → names w k2 → olk_method k1 = olk_method k2 ∧ op_of k1 = op_of k2.
Proof.
  intros [r1 ->] [r2 E]. unfold key_to_wire in E. injection E as _ Hm _ Ho. split; [by destruct (olk_method k1), (olk_method k2)|exact Ho].
Qed.

(** A connection that ends well is told to be up. *)
Lemma success_told b e e' d r key : engine_inv e → stepped b e e' →
  co_terminals (en_core e') !! d = Some (WT_Succeeded r) → names (wr_identity r) key → olk_method key = Method_ApplyTunnel →
  co_terminals (en_core e) !! d = Some (WT_Succeeded r) ∨
  ∃ ev, ev ∈ told_by (sy_status (en_sys e)) (sy_status (en_sys e')) ∧ says_connected ev ∧ st_operation_id ev = op_of key.
Proof.
  intros Hi [Hr (c & Ho & Ec & Hc)] Hd Hn Hm. rewrite Ec in Hd.
  apply observe_ends in Hd as [Hd|(ev & p & Hin & Hp & Ew & Hs)].
  - destruct (Ho _ _ Hd) as [?|(key' & Hn' & Hm')]; [by left|]. by destruct (names_same _ _ _ Hn Hn') as [Em _]; rewrite <-Em in Hm'.
  - destruct Hc as [->|E]; [|rewrite E in Hin; by apply elem_of_nil in Hin]. specialize (Hs r eq_refl). simpl in Ew.
    destruct (en_pending _ _ _ (ci_ended_inv _ _ _ (ei_core _ _ _ Hi)) _ _ Hp) as (Hn' & Hop & _).
    rewrite Ew in Hn. destruct (names_same _ _ _ Hn Hn') as [_ Eop]. right. exists ev. by rewrite Eop.
Qed.

(** The runtime under the control service. *)
Lemma loss_engine_runs evs : ∀ e e', engine_run evs e = Some e' → engine_inv e →
  length (sy_groups (en_sys e)) ≤ length (sy_groups (en_sys e')) ∧
  (groups_bounded (en_sys e') → loss_inv (en_sys e) → loss_inv (en_sys e')).
Proof.
  induction evs as [|ev evs IH]; simpl; intros e e' Hrun Hi; [by simplify_eq|].
  apply bind_Some in Hrun as (e1 & Hstep & Hrun). pose proof (inv_engine_step _ _ _ _ _ _ _ _ _ _ _ Hstep Hi) as Hi1.
  destruct (IH e1 e' Hrun Hi1) as [Hle Hl]. pose proof (sd_runs _ _ _ (engine_stepped _ _ _ Hi Hstep)) as Hr.
  destruct (loss_runs_on wintun_dll _ _ (runs_by_on _ _ _ Hr) (ei_runtime _ _ _ Hi)) as [Hle1 Hl1].
  split; [lia|]. intros Hb Hl0. apply Hl; [done|]. apply Hl1; [|done]. unfold groups_bounded in *. lia.
Qed.
Lemma loss_engine uuid m e : accounted m [] → engine_reachable uuid m e → groups_bounded (en_sys e) → loss_inv (en_sys e).
Proof.
  intros Hm [evs Hrun] Hb. eapply (loss_engine_runs evs); [exact Hrun|by apply inv_engine_new|done|].
  simpl. destruct (loss_new m). by split.
Qed.

(** ** After a stop *)

Lemma quiet_told p p' : quiet p p' → sp_publishing p = None → filter says_connected (sp_history p') = filter says_connected (sp_history p).
Proof.
  intros [_ _ _ ->|ev Hev ->] Hp; [done|]. destruct (publish_told ev p Hp) as [_ [->| ->]]; [done|].
  by rewrite filter_app, filter_cons_False, filter_nil, app_nil_r.
Qed.
Lemma silent_step ev e e' : engine_step ev e = Some e' → engine_inv e → starts ev = false → sy_cancel (en_sys e) = true →
  sy_cancel (en_sys e') = true ∧ connected_told (en_sys e') = connected_told (en_sys e).
Proof.
  intros Hstep Hi Hns Hc. pose proof (ei_publishing _ _ _ Hi) as Hp.
  destruct (sd_runs _ _ _ (engine_stepped _ _ _ Hi Hstep)) as [(ch & Hs & Hb)|(p & r & -> & Hq)].
  - apply (quiet_step wintun_dll ch); try done. destruct (is_start ch); [|done]. rewrite Hb in Hns; done.
  - split; [done|]. by apply quiet_told.
Qed.
Lemma silent_told ev e e' x : engine_step ev e = Some e' → engine_inv e → starts ev = false → sy_cancel (en_sys e) = true →
  x ∈ told_by (sy_status (en_sys e)) (sy_status (en_sys e')) → ¬ says_connected x.
Proof.
  intros Hstep Hi Hns Hc Hin Hx. pose proof (ei_publishing _ _ _ Hi) as Hp.
  destruct (silent_step _ _ _ Hstep Hi Hns Hc) as [_ E]. unfold connected_told in E.
  assert (∀ y, sy_status (en_sys e') = publish y (sy_status (en_sys e)) → False) as Hy.
  { intros y Ey. rewrite Ey in Hin, E. destruct (publish_heard y _ Hp) as [E0|[E0 Eh]]; rewrite E0 in Hin; [by apply elem_of_nil in Hin|].
    apply list_elem_of_singleton in Hin as ->. rewrite Eh, filter_app, filter_cons_True in E by done.
    apply (f_equal length) in E. rewrite length_app in E. simpl in E. lia. }
  destruct (sd_runs _ _ _ (engine_stepped _ _ _ Hi Hstep)) as [(ch & Hs & _)|(p & r & Es & [_ Eo _ _|y _ Ep])].
  - destruct (speaks_step wintun_dll ch _ _ Hs) as [Es|[y Ey]]; [|by eapply Hy].
    rewrite Es, told_by_same in Hin. by apply elem_of_nil in Hin.
  - rewrite Es in Hin. simpl in Hin. unfold told_by in Hin. rewrite Eo, drop_all in Hin. by apply elem_of_nil in Hin.
  - apply (Hy y). by rewrite Es.
Qed.
(** A stop is under way: nothing was started since. *)
Record silent e e' : Prop := {
  si_cancel : sy_cancel (en_sys e') = true;
  si_told : connected_told (en_sys e') = connected_told (en_sys e);
  si_ends d r key : names (wr_identity r) key → olk_method key = Method_ApplyTunnel →
    co_terminals (en_core e') !! d = Some (WT_Succeeded r) → co_terminals (en_core e) !! d = Some (WT_Succeeded r);
}.
Lemma silent_more ev e0 e e' : silent e0 e → engine_step ev e = Some e' → engine_inv e → starts ev = false → silent e0 e'.
Proof.
  intros [Hc Ht He] Hstep Hi Hns. destruct (silent_step _ _ _ Hstep Hi Hns Hc) as [Hc' E]. split; [done|by rewrite E|].
  intros d r key Hn Hm Hd.
  destruct (success_told _ _ _ _ _ _ Hi (engine_stepped _ _ _ Hi Hstep) Hd Hn Hm) as [?|(x & Hin & Hx & _)]; [by eapply He|].
  by destruct (silent_told _ _ _ x Hstep Hi Hns Hc Hin).
Qed.
Lemma silent_runs evs : ∀ e0 e e', engine_run evs e = Some e' → engine_inv e → forallb (negb ∘ starts) evs = true →
  silent e0 e → silent e0 e'.
Proof.
  induction evs as [|ev evs IH]; simpl; intros e0 e e' Hrun Hi Hns Hs; [by simplify_eq|].
  apply andb_true_iff in Hns as [Hn%negb_true_iff Hns]. apply bind_Some in Hrun as (e1 & Hstep & Hrun).
  eapply IH; [exact Hrun|by eapply inv_engine_step|done|by eapply silent_more].
Qed.
(** A stop, or the end of the process, begins with a cancellation. *)
Definition begins_stop (t : Task) : bool :=
  match t with K_Stop _ _ _ _ Q_Cancel | K_Exit Q_Cancel => true | _ => false end.
Lemma silent_begins i t e e1 : en_tasks e !! i = Some t → begins_stop t = true → engine_step (E_Task i In_Go) e = Some e1 → silent e e1.
Proof.
  intros Ht Hb Hstep. simpl in Hstep. rewrite Ht in Hstep.
  destruct t as [|ctx pc|wk key d eff [| | |]|wk rc| |[| | |]|a]; try done; simpl in Hstep; injection Hstep as <-.
  all: split; [done|done|]; intros d' r key' _ _; simpl; by rewrite told_by_same.
Qed.
End Ends.

(** C5: The ends the engine records are ends it was told of, and a recorded success is true.
    Every record is about the operation its receipt names: a success was admitted, and if it
    is of a connection the runtime published it as connected; a failure is of a request for
    a lease, or of an admitted connection for which a failure was published, with the error
    published. And at the moment a connection is recorded as a success, by whatever step, the
    tunnel in place is of that operation and its workers are alive, as long as fewer than
    2^64 groups of workers were started in the life of the process. A published failure need
    not be the connection's own: a repeated request publishes one of the connection that is
    being assembled, and its success is then not recorded ([retry_hides_connection]); and a
    query finds a record by a digest that leaves the number of the operation out, so it may
    be the record of a later request ([acquire_overwrites]). *)
Theorem ends_are_true {M Io} `{TunnelPlatformLaws M Io} wintun_dll `{!RecordCodec} sha256 hash64 encode_key encode_subject
    from_slice zeroize sv uuid (m : M) e :
  accounted m [] →
  engine_reachable (Io:=Io) wintun_dll sha256 hash64 encode_key encode_subject from_slice zeroize sv uuid m e →
  groups_bounded (en_sys e) →
  (∀ d t, co_terminals (en_core e) !! d = Some t → told hash64 (history e) (en_core e) d t) ∧
  ∀ ev e' d r key,
    engine_step (Io:=Io) wintun_dll sha256 hash64 encode_key encode_subject from_slice zeroize sv ev e = Some e' →
    co_terminals (en_core e') !! d = Some (WT_Succeeded r) → co_terminals (en_core e) !! d ≠ Some (WT_Succeeded r) →
    names (wr_identity r) key → olk_method key = Method_ApplyTunnel →
    ∃ l k g, sy_live (en_sys e') = Some l ∧ lt_threads l = Some k ∧ sy_groups (en_sys e') !! k = Some g ∧ gr_alive g = true
      ∧ gr_operation g = op_of key.
Proof.
  intros Hm Hr Hb. eapply inv_of_reachable in Hr as Hi; [|exact Hm]. eapply loss_engine in Hr as Hl; [|exact Hm|exact Hb].
  split; [apply Hi|]. intros ev e' d r key Hstep Hd Hnew Hn Hk.
  eapply engine_stepped in Hstep as Hst; [|exact Hi].
  destruct (success_told _ _ _ _ _ _ _ _ _ _ Hi Hst Hd Hn Hk) as [?|(x & Hin & Hx & Ex)]; [done|].
  destruct (runs_true _ _ _ _ _ (sd_runs _ _ _ _ _ _ Hst) (ei_runtime _ _ _ Hi) Hl (ei_publishing _ _ _ Hi) Hin Hx)
    as (l & k & g & ? & ? & ? & ? & Eg).
  exists l, k, g. split_and!; [done..|]. by rewrite Eg, Ex.
Qed.

(** C6: A stop is final. From the step with which a stop, or the end of the process, begins
    and until the next connection is started, whatever requests, tasks, threads and workers
    do in between and however far an assembly has come: the assembly stays cancelled, nothing
    is told to be connected, and no connection is recorded as a success that was not before. *)
Theorem engine_stop_final {M Io} `{TunnelPlatformLaws M Io} wintun_dll `{!RecordCodec} sha256 hash64 encode_key encode_subject
    from_slice zeroize sv uuid (m : M) e i t evs e' :
  accounted m [] →
  engine_reachable (Io:=Io) wintun_dll sha256 hash64 encode_key encode_subject from_slice zeroize sv uuid m e →
  en_tasks e !! i = Some t → begins_stop t = true → forallb (negb ∘ starts) evs = true →
  engine_run (Io:=Io) wintun_dll sha256 hash64 encode_key encode_subject from_slice zeroize sv (E_Task i In_Go :: evs) e = Some e' →
  silent e e'.
Proof.
  intros Hm Hr Ht Hb Hns Hrun. eapply inv_of_reachable in Hr as Hi; [|exact Hm]. cbn [EngineControlSys.engine_run] in Hrun.
  apply bind_Some in Hrun as (e1 & Hstep & Hrun).
  eapply silent_runs; [exact Hrun| |exact Hns|]; [by eapply inv_engine_step|by eapply silent_begins].
Qed.
