(* ===== verification/EngineControlLive.v ===== *)
(** * Every request comes to its end

    The tasks of the engine of [EngineControlSys] take boundedly many steps, and are never
    stuck once the runtime under them has come to rest: a stop that was admitted is finished
    and answered, and so is the end of the process. *)

From Stdlib Require Import NArith ZArith Strings.Byte Strings.String Lia.
From S2P Require Import Prelude Identity Model Admission AdmissionIndex Authority Delivery Text Wire Config NativeError.
From S2P Require Import Offer Session IpHelper Routes RouteOwner Channel EngineStatus EngineLog EnginePlane EngineService.
From S2P Require Import EngineRuntime EngineRuntimeSafe EngineRuntimeLoss EngineRuntimeEnd.
From S2P Require Import EngineOwner EngineControl EngineControlSafe EngineControlSys EngineControlInv EngineControlTrue EngineControlEnds.

Section Live.
Context {M Io : Type} `{TunnelPlatformLaws M Io} (wintun_dll : str).
Context `{!RecordCodec} (sha256 : list byte → Digest) (hash64 : N → list byte → N).
Context (encode_key encode_subject : WireOperationLookupKey → list byte).
Context (from_slice : list byte → result str EngineCredentialPackage) (zeroize : list byte → list byte).
Context (sv : HelperControlService).
#[local] Abbreviation Sys := (Sys (M:=M)).
#[local] Abbreviation Engine := (Engine (M:=M)).
#[local] Abbreviation sys_step := (sys_step (Io:=Io) wintun_dll).
#[local] Abbreviation engine_step := (engine_step (Io:=Io) wintun_dll sha256 hash64 encode_key encode_subject from_slice zeroize sv).
#[local] Abbreviation engine_run := (engine_run (Io:=Io) wintun_dll sha256 hash64 encode_key encode_subject from_slice zeroize sv).
#[local] Abbreviation engine_reachable := (engine_reachable (Io:=Io) wintun_dll sha256 hash64 encode_key encode_subject from_slice zeroize sv).
#[local] Abbreviation request_step := (request_step (M:=M) sha256 hash64 encode_key encode_subject from_slice zeroize sv).
#[local] Abbreviation task_step := (task_step (M:=M) sha256 hash64 encode_subject sv).
#[local] Abbreviation with_sys := (with_sys (M:=M) hash64 encode_subject).
#[local] Abbreviation engine_inv := (engine_inv (Io:=Io) hash64 sv).
#[local] Abbreviation observe := (foldl (terminal_observer hash64 encode_subject)).
Implicit Types (e : Engine) (c : HelperControlCore).


(** ** Who is waited for *)

(** The task waits for a call of the runtime, which is one of its threads. *)
Definition caller_at (j : nat) (s : Sys) : Prop := ∃ td pc, sy_threads s !! j = Some (T_Caller td pc).
Definition quiesce_of (t : Task) : option Quiesce :=
  match t with K_Stop _ _ _ _ q | K_Exit q => Some q | _ => None end.
Definition waits_right (s : Sys) (t : Task) : Prop :=
  match quiesce_of t with Some (Q_Join j) => caller_at j s | _ => True end.

Lemma caller_more j s s' us : sy_threads s' = sy_threads s ++ us → caller_at j s → caller_at j s'.
Proof. intros E (td & pc & Hj). exists td, pc. rewrite E. by apply lookup_app_l_Some. Qed.
Lemma caller_same j s s' : sy_threads s' = sy_threads s → caller_at j s → caller_at j s'.
Proof. intros E. apply (caller_more _ _ _ []). by rewrite app_nil_r. Qed.
Lemma caller_step ch j s s' : sys_step ch s = Some s' → inv s → caller_at j s → caller_at j s'.
Proof.
  intros Hs Hinv Hc. destruct ch as [ctx wall| | | |i reply|i mv]; simpl in Hs.
  - injection Hs as <-. unfold start_apply, decide_start_apply. destruct (sy_assembling _), (is_connected s); simpl; try done.
    + destruct (adopt ctx wall s) as [s'|] eqn:Ea; [|by eapply caller_more].
      apply bind_Some in Ea as (l & El & Ha). destruct (_ && _); [|done]. injection Ha as <-.
      by destruct (lt_threads l); (eapply caller_same; [|exact Hc]).
    + by eapply caller_more.
  - by injection Hs as <-.
  - injection Hs as <-. by eapply caller_more.
  - injection Hs as <-. by eapply caller_more.
  - apply bind_Some in Hs as (t & Ht & ([s1 t1] & Hstep & [= <-])%bind_Some).
    assert (caller_at j s1) as (td & pc & Hj).
    { destruct (thread_losses wintun_dll i s s1 t t1 reply Hinv Ht Hstep) as [(ctx & route & -> & -> & ->)|Hmv].
      - by eapply caller_more.
      - eapply caller_same; [apply Hmv|done]. }
    unfold caller_at. simpl. destruct (decide (i = j)) as [->|Hne].
    + pose proof (thread_call wintun_dll j t reply s s1 t1 Hstep) as Hcall. destruct Hc as (td0 & pc0 & Hj0).
      assert (t = T_Caller td0 pc0) as -> by congruence. rewrite list_lookup_insert_eq by (by eapply lookup_lt_Some).
      destruct t1 as [|td1 pc1|]; try done. by exists td1, pc1.
    + rewrite list_lookup_insert_ne by done. by exists td, pc.
  - apply bind_Some in Hs as (g & Hg & Hm). destruct mv, (gr_claimed g) as [[op []]|]; try done; repeat case_match; simplify_eq/=; try done.
    destruct Hc as (td & pc & Hj). exists td, pc. simpl. by rewrite list_lookup_fmap, Hj.
Qed.
Lemma caller_runs b j s s' : runs_by wintun_dll b s s' → inv s → caller_at j s → caller_at j s'.
Proof. intros [(ch & Hs & _)|(p & r & -> & _)] Hinv; [by eapply caller_step|done]. Qed.
Lemma waits_runs b s s' t : runs_by wintun_dll b s s' → inv s → waits_right s t → waits_right s' t.
Proof. intros Hr Hinv. unfold waits_right. destruct (quiesce_of t) as [[]|]; try done. by eapply caller_runs. Qed.

Definition joined e : Prop := ∀ i t, en_tasks e !! i = Some t → waits_right (en_sys e) t.

Lemma quiesce_waits td q s s' q' : quiesce_step td q s = Some (s', q') → match q' with Q_Join j => caller_at j s' | _ => True end.
Proof.
  destruct q as [|n|i|]; simpl; [by intros [= <- <-]| | |done].
  - destruct (_ && _); intros [= <- <-]; [done|]. exists td, D_Begin. simpl. by rewrite list_lookup_middle.
  - repeat case_match; intros; by simplify_eq.
Qed.
Lemma task_waits t input e e1 t1 : task_step t input e = Some (e1, t1) → waits_right (en_sys e1) t1.
Proof.
  unfold EngineControlSys.task_step. destruct t as [st|ctx pc|wk key d eff q|wk rc| |q|a], input as [|fresh sent m| |wall]; intros Hs; try done.
  - destruct (ls_reading st); [|done]. destruct (lease_message _ _ _ _ _ _) as [[c st'] x]. by injection Hs as <- <-.
  - by injection Hs as <- <-.
  - by destruct pc; simpl in Hs; simplify_eq.
  - by destruct pc.
  - by destruct pc.
  - destruct pc; simpl in Hs; try done. destruct (start_apply ctx wall (en_sys e)). by simplify_eq.
  - unfold stop_step in Hs. destruct q as [| | |[r|]]; try (by simpl in Hs; simplify_eq).
    all: apply bind_Some in Hs as ([s q'] & Hq & [= <- <-]); exact (quiesce_waits _ _ _ _ _ Hq).
  - by simplify_eq.
  - by simplify_eq.
  - unfold exit_step in Hs. destruct q as [| | |r]; try (by simpl in Hs; simplify_eq).
    all: apply bind_Some in Hs as ([s q'] & Hq & [= <- <-]); exact (quiesce_waits _ _ _ _ _ Hq).
Qed.
(** The tasks a request starts wait for nothing. *)
Lemma request_waits r e i t s : en_tasks (request_step r e) !! i = Some t → en_tasks e !! i = Some t ∨ waits_right s t.
Proof.
  destruct r as [ext|ext key d t1 t2 eff|ext rq t1 t2 eff|ext key d t1 t2 eff|ext key d t1 t2 eff|ext|ext tick el|ext]; simpl; try by left.
  - unfold maintain_owner_lease. destruct (transport_peer ext) as [[]|]; simpl; [|by left].
    intros [|[_ [_ <-]%list_lookup_singleton_Some]]%lookup_app_Some; [by left|by right].
  - destruct (apply_admit _ _ _ _ _ _ _ _ _ _ _ _) as [[c payload] [ctx|]]; simpl; [|by left].
    intros [|[_ [_ <-]%list_lookup_singleton_Some]]%lookup_app_Some; [by left|by right].
  - destruct (stop_admit _ _ _ _ _ _ _ _ _ _ _) as [c [[wk k]|]]; simpl; [|by left].
    intros [|[_ [_ <-]%list_lookup_singleton_Some]]%lookup_app_Some; [by left|by right].
  - destruct (release_lease _ _ _ _ _ _ _ _ _ _ _) as [c rel]. destruct (is_ok rel); by left.
  - destruct (shutdown sv ext (en_armed e)) as [armed [[]|]]; simpl; try by left.
    intros [|[_ [_ <-]%list_lookup_singleton_Some]]%lookup_app_Some; [by left|by right].
Qed.
Lemma task_keeps_tasks t input e e1 t1 : task_step t input e = Some (e1, t1) → en_tasks e1 = en_tasks e.
Proof.
  unfold EngineControlSys.task_step, apply_step, stop_step, exit_step.
  intros Hs. repeat (case_match; simplify_eq/=; try done).
  all: by apply bind_Some in Hs as ([s q'] & Hq & [= <- <-]).
Qed.
Lemma joined_step ev e e' : engine_step ev e = Some e' → engine_inv e → joined e → joined e'.
Proof.
  intros Hstep Hi Hj i t Ht. pose proof (sd_runs _ _ _ _ _ _ (engine_stepped _ _ _ _ _ _ _ _ _ _ _ Hi Hstep)) as Hr.
  assert (Hold : en_tasks e !! i = Some t → waits_right (en_sys e') t) by (intros; eapply waits_runs; [exact Hr|apply Hi|by eapply Hj]).
  destruct ev as [r|k input|k reply|k mv|x]; simpl in Hstep.
  - injection Hstep as <-. destruct (request_waits r e i t (en_sys (request_step r e)) Ht); auto.
  - apply bind_Some in Hstep as (u & Hu & ([e1 u1] & Hstep & [= <-])%bind_Some). simpl in *.
    apply list_lookup_insert_Some in Ht as [(-> & -> & _)|[_ Ht]]; [by eapply task_waits|].
    rewrite (task_keeps_tasks _ _ _ _ _ Hstep) in Ht. auto.
  - apply bind_Some in Hstep as (s & Hs & [= <-]). auto.
  - apply bind_Some in Hstep as (s & Hs & [= <-]). auto.
  - destruct (negb _ && _); [|done]. injection Hstep as <-. simpl in *.
    apply lookup_app_Some in Ht as [|[_ [_ <-]%list_lookup_singleton_Some]]; [auto|done].
Qed.
Lemma joined_runs evs : ∀ e e', engine_run evs e = Some e' → engine_inv e → joined e → joined e'.
Proof.
  induction evs as [|ev evs IH]; simpl; intros e e' Hrun Hi Hj; [by simplify_eq|].
  apply bind_Some in Hrun as (e1 & Hstep & Hrun). eapply IH; [exact Hrun|by eapply inv_engine_step|by eapply joined_step].
Qed.
(** ** How long a task takes *)

Definition quiesce_rank (q : Quiesce) : nat :=
  match q with Q_Cancel => POLLS + 4 | Q_Poll n => (POLLS - n) + 3 | Q_Join _ => 2 | Q_Joined _ => 1 end.
(** How many steps are left at most; an owner's stream goes on for as long as its owner wants. *)
Definition task_rank (t : Task) : nat :=
  match t with
  | K_Lease _ => 0
  | K_Apply _ P_Start => 3 | K_Apply _ (P_Refused _) => 2 | K_Apply _ P_Reply => 1
  | K_Stop _ _ _ _ q => quiesce_rank q + 1
  | K_Stopped _ _ | K_Trigger => 1
  | K_Exit q => quiesce_rank q
  | K_Done _ => 0
  end.
Definition is_lease (t : Task) : bool := match t with K_Lease _ => true | _ => false end.

(** No task takes longer than a stop. *)
Lemma task_rank_bound t : task_rank t ≤ 105.
Proof. destruct t as [st|ctx []|wk key d eff []|wk rc| |[]|a]; unfold task_rank, quiesce_rank, POLLS; lia. Qed.

Lemma quiesce_ranks td q (s : Sys) s' q' : quiesce_step td q s = Some (s', q') → quiesce_rank q' < quiesce_rank q.
Proof.
  destruct q as [|n|i|]; simpl; [by intros [= <- <-]; simpl; lia| | |done].
  - destruct (bool_decide _ && _) eqn:Eb; intros [= <- <-]; simpl; [|lia].
    apply andb_true_iff in Eb as [Hn%bool_decide_eq_true _]. unfold POLLS in *. lia.
  - intros Hs. repeat case_match; simplify_eq; simpl; lia.
Qed.
Lemma task_ranks t input e e1 t1 : task_step t input e = Some (e1, t1) → is_lease t = false →
  task_rank t1 < task_rank t ∧ is_lease t1 = false.
Proof.
  unfold EngineControlSys.task_step. destruct t as [st|ctx pc|wk key d eff q|wk rc| |q|a], input as [|fresh sent m| |wall]; intros Hs Hl; try done.
  - destruct pc; simpl in Hs; simplify_eq; simpl; split; (done || lia).
  - by destruct pc.
  - by destruct pc.
  - destruct pc; simpl in Hs; try done. destruct (start_apply ctx wall (en_sys e)) as [s [|]]; simplify_eq; simpl; split; (done || lia).
  - unfold stop_step in Hs. destruct q as [| | |[r|]]; try (simpl in Hs; simplify_eq; simpl; split; (done || lia)).
    all: apply bind_Some in Hs as ([s q'] & Hq & [= <- <-]); pose proof (quiesce_ranks _ _ _ _ _ Hq); simpl in *; split; (done || lia).
  - simplify_eq. simpl. split; (done || lia).
  - simplify_eq. simpl. split; (done || lia).
  - unfold exit_step in Hs. destruct q as [| | |r]; try (simpl in Hs; simplify_eq; simpl; split; (done || lia)).
    all: apply bind_Some in Hs as ([s q'] & Hq & [= <- <-]); pose proof (quiesce_ranks _ _ _ _ _ Hq); simpl in *; split; (done || lia).
Qed.

(** How often task [i] is run. *)
Definition of_task (i : nat) (ev : Event (Io:=Io)) : bool := match ev with E_Task j _ => bool_decide (i = j) | _ => false end.
Definition turns (i : nat) (evs : list (Event (Io:=Io))) : nat := sum_list_with (λ ev, if of_task i ev then 1 else 0) evs.

Lemma request_old r e i t : en_tasks e !! i = Some t → en_tasks (request_step r e) !! i = Some t.
Proof.
  intros Ht. destruct r as [ext|ext key d t1 t2 eff|ext rq t1 t2 eff|ext key d t1 t2 eff|ext key d t1 t2 eff|ext|ext tick el|ext]; simpl; try done.
  - unfold maintain_owner_lease. destruct (transport_peer ext) as [[]|]; simpl; [by apply lookup_app_l_Some|done].
  - destruct (apply_admit _ _ _ _ _ _ _ _ _ _ _ _) as [[c payload] [ctx|]]; simpl; [by apply lookup_app_l_Some|done].
  - destruct (stop_admit _ _ _ _ _ _ _ _ _ _ _) as [c [[wk k]|]]; simpl; [by apply lookup_app_l_Some|done].
  - destruct (release_lease _ _ _ _ _ _ _ _ _ _ _) as [c rel]. by destruct (is_ok rel).
  - destruct (shutdown sv ext (en_armed e)) as [armed [[]|]]; simpl; try done. by apply lookup_app_l_Some.
Qed.
Lemma turn_step ev i t e e' : engine_step ev e = Some e' → en_tasks e !! i = Some t → is_lease t = false →
  ∃ t', en_tasks e' !! i = Some t' ∧ is_lease t' = false ∧ (if of_task i ev then 1 else 0) + task_rank t' ≤ task_rank t.
Proof.
  intros Hstep Ht Hl. destruct ev as [r|k input|k reply|k mv|x]; simpl in Hstep |- *.
  - injection Hstep as <-. exists t. split_and!; [by apply request_old|done|lia].
  - apply bind_Some in Hstep as (u & Hu & ([e1 u1] & Hs & [= <-])%bind_Some). simpl. rewrite (task_keeps_tasks _ _ _ _ _ Hs).
    case_bool_decide as Hk.
    + subst k. assert (u = t) as -> by congruence. destruct (task_ranks _ _ _ _ _ Hs Hl). exists u1.
      rewrite list_lookup_insert_eq by (by eapply lookup_lt_Some). split_and!; [done|done|lia].
    + exists t. rewrite list_lookup_insert_ne by congruence. split_and!; [done|done|lia].
  - apply bind_Some in Hstep as (s & Hs & [= <-]). exists t. split_and!; [done|done|lia].
  - apply bind_Some in Hstep as (s & Hs & [= <-]). exists t. split_and!; [done|done|lia].
  - destruct (negb _ && _); [|done]. injection Hstep as <-. exists t. simpl.
    split_and!; [by apply lookup_app_l_Some|done|lia].
Qed.
Lemma turn_runs evs i : ∀ e e' t, engine_run evs e = Some e' → en_tasks e !! i = Some t → is_lease t = false →
  ∃ t', en_tasks e' !! i = Some t' ∧ turns i evs + task_rank t' ≤ task_rank t.
Proof.
  induction evs as [|ev evs IH]; simpl; intros e e' t Hrun Ht Hl; [simplify_eq; by exists t|].
  apply bind_Some in Hrun as (e1 & Hstep & Hrun). destruct (turn_step _ _ _ _ _ Hstep Ht Hl) as (t1 & Ht1 & Hl1 & ?).
  destruct (IH e1 e' t1 Hrun Ht1 Hl1) as (t' & ? & ?). exists t'. split; [done|]. unfold turns in *. lia.
Qed.

(** ** No task is stuck *)

Lemma quiesce_goes td q (s : Sys) : (∀ r, q ≠ Q_Joined r) → (∀ j, q = Q_Join j → ∃ t, sy_threads s !! j = Some t ∧ over s t = true ∧ caller_at j s) →
  is_Some (quiesce_step td q s).
Proof.
  intros Hne Hj. destruct q as [|n|j|r]; simpl; [done|by destruct (_ && _)| |by destruct (Hne r)].
  destruct (Hj j eq_refl) as (t & Ht & Ho & td' & pc & Hc). rewrite Ht in Hc. injection Hc as ->. rewrite Ht. by destruct pc.
Qed.
Lemma task_goes `{!Inhabited Io} e i t : engine_inv e → joined e → at_rest (Io:=Io) wintun_dll (en_sys e) →
  en_tasks e !! i = Some t → is_lease t = false → (∃ a, t = K_Done a) ∨ ∃ input, is_Some (engine_step (E_Task i input) e).
Proof.
  intros Hi Hj Hr Ht Hl. destruct (rest_settled wintun_dll _ (ei_runtime _ _ _ Hi) (ei_busy _ _ _ Hi) Hr) as (_ & _ & Hover & _).
  assert (Hq : ∀ td q, quiesce_of t = Some q → (∀ r, q ≠ Q_Joined r) → is_Some (quiesce_step td q (en_sys e))).
  { intros td q Eq Hne. apply quiesce_goes; [done|]. intros j ->. pose proof (Hj i t Ht) as Hw. unfold waits_right in Hw. rewrite Eq in Hw.
    destruct Hw as (td' & pc & Hc). exists (T_Caller td' pc). split_and!; [done|by eapply Hover|by exists td', pc]. }
  assert (Hgo : ∀ input, is_Some (task_step t input e) → (∃ a, t = K_Done a) ∨ ∃ input, is_Some (engine_step (E_Task i input) e)).
  { intros input [[e1 t1] Hs]. right. exists input. simpl. rewrite Ht. simpl. rewrite Hs. by eexists. }
  destruct t as [st|ctx pc|wk key d eff q|wk rc| |q|a]; [done| | | | | |by left; exists a].
  - destruct pc; [|by apply (Hgo In_Go); eexists..]. apply (Hgo (In_Wall None)). simpl. by destruct (start_apply ctx None (en_sys e)).
  - apply (Hgo In_Go). simpl. destruct q as [|n|j|[r|]]; [| | |by eexists..].
    all: by destruct (Hq false _ eq_refl ltac:(done)) as [[s' q'] E]; simpl in E |- *; rewrite ?E; eexists.
  - apply (Hgo In_Go). by eexists.
  - apply (Hgo In_Go). by eexists.
  - apply (Hgo In_Go). simpl. destruct q as [|n|j|r]; [| | |by eexists].
    all: by destruct (Hq true _ eq_refl ltac:(done)) as [[s' q'] E]; simpl in E |- *; rewrite ?E; eexists.
Qed.

(** The runtime, left alone, comes to rest under the engine too. *)
Definition runs_alone (ev : Event (Io:=Io)) : bool := match ev with E_Runtime _ _ | E_Worker _ _ => true | _ => false end.
Lemma alone_runs evs : ∀ e e', engine_run evs e = Some e' → engine_inv e → forallb runs_alone evs = true →
  length evs + work (en_sys e') ≤ work (en_sys e).
Proof.
  induction evs as [|ev evs IH]; simpl; intros e e' Hrun Hi Ha; [by simplify_eq|].
  apply andb_true_iff in Ha as [Ha Has]. apply bind_Some in Hrun as (e1 & Hstep & Hrun).
  pose proof (IH e1 e' Hrun (inv_engine_step _ _ _ _ _ _ _ _ _ _ _ Hstep Hi) Has).
  assert (work (en_sys e1) < work (en_sys e)); [|lia].
  destruct ev as [|?|i reply|i mv|]; try done; simpl in Hstep; apply bind_Some in Hstep as (s & Hs & [= <-]).
  - by apply (work_step wintun_dll (Ch_Run i reply)); [| |apply Hi..].
  - by apply (work_step wintun_dll (Ch_Worker i mv)); [| |apply Hi..].
Qed.
End Live.

(** C7: Every request comes to its end. However requests, tasks and the runtime interleave,
    a task takes at most as many steps as its rank says, which is never more than a hundred
    and five, that of a stop at its start: the hundred waits for the assembly and five more;
    left alone, the runtime under it takes only so many steps; and once the runtime has come
    to rest, no task but an owner's stream is stuck: it is over, or it can take its next
    step. *)
Theorem requests_end {M Io} `{TunnelPlatformLaws M Io} `{!Inhabited Io} wintun_dll `{!RecordCodec} sha256 hash64 encode_key encode_subject
    from_slice zeroize sv uuid (m : M) e :
  accounted m [] →
  engine_reachable (Io:=Io) wintun_dll sha256 hash64 encode_key encode_subject from_slice zeroize sv uuid m e →
  (∀ evs e' i t, engine_run (Io:=Io) wintun_dll sha256 hash64 encode_key encode_subject from_slice zeroize sv evs e = Some e' →
     (forallb runs_alone evs = true → length evs + work (en_sys e') ≤ work (en_sys e)) ∧
     (en_tasks e !! i = Some t → is_lease t = false →
        ∃ t', en_tasks e' !! i = Some t' ∧ turns i evs + task_rank t' ≤ task_rank t ∧ turns i evs ≤ 105)) ∧
  (at_rest (Io:=Io) wintun_dll (en_sys e) → ∀ i t, en_tasks e !! i = Some t → is_lease t = false →
     (∃ a, t = K_Done a) ∨
     ∃ input, is_Some (engine_step (Io:=Io) wintun_dll sha256 hash64 encode_key encode_subject from_slice zeroize sv (E_Task i input) e)).
Proof.
  intros Hm Hr. eapply inv_of_reachable in Hr as Hi; [|exact Hm]. split.
  - intros evs e' i t Hrun. split; [intros Ha; by eapply alone_runs|intros Ht Hl].
    eapply turn_runs in Hrun as (t' & Ht' & Hle); [|exact Ht|exact Hl].
    exists t'. pose proof (task_rank_bound t). split_and!; [done..|lia].
  - intros Hrest i t Ht Hl. eapply task_goes; [apply _|exact Hi| |exact Hrest|exact Ht|exact Hl].
    destruct Hr as [evs Hrun]. by eapply joined_runs; [exact Hrun|by apply inv_engine_new|].
Qed.
