(* ===== verification/EngineControlRun.v ===== *)
(** * Runs of the engine

    The engine of [EngineControlSys] on the simulated network of [EngineRuntimeNet]: an owner
    connects, acquires the lease and asks for connections and stops. The runs instantiate the
    theorems of [EngineControlTrue], [EngineControlEnds] and [EngineControlLive], and show where the engine does
    otherwise than its documentation says. *)

From Stdlib Require Import NArith ZArith Strings.Byte Strings.String Lia.
From S2P Require Import Prelude Identity Model Text Samples Admission AdmissionIndex Authority Delivery Wire Config NativeError.
From S2P Require Import Journal Retirement Offer Session Registry IpHelper Routes RouteOwner Channel EngineStatus EngineLog EnginePlane EngineService.
From S2P Require Import EngineRuntime EngineRuntimeSafe EngineRuntimeLoss EngineRuntimeEnd EngineRuntimeNet.
From S2P Require Import EngineOwner EngineControl EngineControlSafe EngineControlSys EngineControlInv EngineControlTrue EngineControlEnds EngineControlLive.

#[local] Instance run_platform : TunnelPlatform (Machine SimNet SimRegistry) NetIo := net_platform toy_sha256.
#[local] Instance run_laws : TunnelPlatformLaws (Machine SimNet SimRegistry) NetIo := net_laws toy_sha256 tunnel_net.
(** A codec that can hold any admission. *)
#[local] Instance run_codec : RecordCodec :=
  {| codec_encode := λ _, [ADMISSION_RECORD_VERSION]; codec_decode := λ _, Ok sample_sealed |}.

Abbreviation Run := (list (Event (Io:=NetIo))).
Definition wk_bytes (k : WireOperationLookupKey) : list byte := wk_operation_id k ++ [x00].
Definition no_package (bytes : list byte) : result str EngineCredentialPackage := Ok (MkEngineCredentialPackage 1 (lit "user") (lit "secret")).
Definition wiped (bytes : list byte) : list byte := (λ _, x00) <$> bytes.
Definition serving (mode : ServingMode) : HelperControlService := MkService 1 sample_epoch mode true true.
Definition owner_info : option NamedPipeConnectInfo :=
  Some (MkNamedPipeConnectInfo true 4 [] [] (MkPrincipalDigest (dg x09)) (MkConnectionBindingDigest (dg x0a))).
Definition other_info : option NamedPipeConnectInfo :=
  Some (MkNamedPipeConnectInfo true 5 [] [] (MkPrincipalDigest (dg x0b)) (MkConnectionBindingDigest (dg x0c))).
Definition wire_op (m : OperationMethod) (op : byte) : option WireOperationLookupKey := Some (key_to_wire (dg x09) (sample_key m op)).
Definition plan_wire : WireTunnelPlan :=
  MkWireTunnelPlan ([x0a; x00; x00; x02]) 24 1400 [] [] [] (Some (MkWireTunnelIntentRef (arr_bytes (dg x07)))) [].
Definition engine_runs (evs : Run) :=
  engine_run [] toy_sha256 toy_hash64 wk_bytes wk_bytes no_package wiped (serving Service) evs (engine_new (uu x44) sample_machine).

(** The owner's stream is task [0]; it opens and shakes hands. *)
Definition opening : Run :=
  [E_Request (R_Maintain owner_info);
   E_Task 0 (In_Message (uu x45) true
     (MkHostLeaseMessage [] (Some (HM_Handshake (arr_bytes (dg x09)) (arr_bytes (dg x01)) (arr_bytes (dg x02))))))].
Definition acquire (op digest : byte) : Event (Io:=NetIo) :=
  E_Request (R_Acquire owner_info (wire_op Method_AcquireLease op) (arr_bytes (dg digest)) 10 11 (uu op)).
Definition apply_for (op : byte) : Event (Io:=NetIo) :=
  E_Request (R_Apply owner_info (MkApplyTunnelRequest (wire_op Method_ApplyTunnel op) (Some plan_wire) (arr_bytes (dg op)) [x01] 1) 20 21 (uu op)).
Definition stop_for (op : byte) : Event (Io:=NetIo) :=
  E_Request (R_Stop owner_info (wire_op Method_StopTunnel op) (arr_bytes (dg op)) 30 31 (uu op)).
Definition release_for (op : byte) : Event (Io:=NetIo) :=
  E_Request (R_Release owner_info (wire_op Method_ReleaseLease op) (arr_bytes (dg op)) 40 41 (uu op)).
Definition run_task (i : nat) : Event (Io:=NetIo) := E_Task i In_Go.
Definition begins (i : nat) : Run := [E_Task i (In_Wall None); run_task i].
Definition calls (cs : Calls) : Run :=
  (λ ch, match ch with Ch_Run i r => E_Runtime i r | Ch_Worker i mv => E_Worker i mv | _ => E_Runtime 0 Rp_Go end) <$> cs.

(** An owner with its lease asks for a connection, task [1], which thread [0] assembles. *)
Definition asked : Run := opening ++ [acquire x21 x21; apply_for x22].
Definition connected_run : Run := asked ++ begins 1 ++ calls (connect 0).
Example connected_run_connects :
  match engine_runs connected_run with
  | Some e => (is_connected (en_sys e), bool_decide (is_Some (co_owner (en_core e))), size (co_terminals (en_core e)), size (co_pending_apply (en_core e)))
  | None => (false, false, 0, 0)
  end = (true, true, 2, 0).
Proof. vm_compute. reflexivity. Qed.

Lemma run_accounted : accounted sample_machine [].
Proof. apply owns_nil. Qed.
Lemma run_reachable evs e : engine_runs evs = Some e →
  engine_reachable [] toy_sha256 toy_hash64 wk_bytes wk_bytes no_package wiped (serving Service) (uu x44) sample_machine e.
Proof. intros Hr. eexists. exact Hr. Qed.
Abbreviation step_on := (engine_step (Io:=NetIo) [] toy_sha256 toy_hash64 wk_bytes wk_bytes no_package wiped (serving Service)).
Abbreviation ask := (request_step toy_sha256 toy_hash64 wk_bytes wk_bytes no_package wiped (serving Service)).

(** ** Who acts *)

(** An assembly is under way; a request is made by another peer. *)
Lemma only_owner_acts_witness :
  ∃ e ctx pc, engine_runs (asked ++ begins 1) = Some e ∧ sy_threads (en_sys e) !! 0 = Some (T_Assembly ctx pc) ∧
    connects (en_core e) (cx_operation_id ctx) ∧
    (en_core (ask (R_Stop other_info (wire_op Method_StopTunnel x23) (arr_bytes (dg x23)) 30 31 (uu x23)) e) ≠ en_core e →
     asks e other_info).
Proof.
  assert (match engine_runs (asked ++ begins 1) with
          | Some e => match sy_threads (en_sys e) !! 0 with Some (T_Assembly _ _) => true | _ => false end
          | None => false
          end = true) as Hm by (vm_compute; reflexivity).
  destruct (engine_runs _) as [e|] eqn:He; [|discriminate Hm].
  destruct (sy_threads (en_sys e) !! 0) as [[ctx pc|?|?]|] eqn:Ht; try discriminate Hm. exists e, ctx, pc.
  destruct (only_owner_acts [] toy_sha256 toy_hash64 wk_bytes wk_bytes no_package wiped (serving Service) (uu x44) sample_machine e
              run_accounted (run_reachable _ e He)) as (Hc & _ & Hask).
  split; [reflexivity|]. split; [exact Ht|]. split; [exact (Hc 0 ctx pc Ht)|]. exact (proj1 (Hask _)).
Defined.

(** The owner's stream ends: its lease and its ownership end with it. *)
Lemma ownership_changes_witness :
  ∃ e e', engine_runs (opening ++ [acquire x21 x21]) = Some e ∧ step_on (E_Task 0 In_Eof) e = Some e' ∧
    is_Some (co_owner (en_core e)) ∧ co_owner (en_core e') = None ∧ owns_on e e'.
Proof.
  assert (match engine_runs (opening ++ [acquire x21 x21]) with
          | Some e => match step_on (E_Task 0 In_Eof) e with
                      | Some e' => (bool_decide (is_Some (co_owner (en_core e))), bool_decide (co_owner (en_core e') = None))
                      | None => (false, false)
                      end
          | None => (false, false)
          end = (true, true)) as Hm by (vm_compute; reflexivity).
  destruct (engine_runs _) as [e|] eqn:He; [|discriminate Hm].
  destruct (step_on (E_Task 0 In_Eof) e) as [e'|] eqn:Hs; [|discriminate Hm]. injection Hm as H1 H2.
  exists e, e'. split; [reflexivity|]. split; [exact Hs|].
  split; [exact (bool_decide_eq_true_1 _ H1)|]. split; [exact (bool_decide_eq_true_1 _ H2)|].
  exact (proj2 (proj2 (ownership_changes [] toy_sha256 toy_hash64 wk_bytes wk_bytes no_package wiped (serving Service) (uu x44)
                  sample_machine e run_accounted (run_reachable _ e He))) _ _ Hs).
Defined.

(** ** What is said of the end *)

#[local] Instance wire_key_eq_dec : EqDecision WireOperationLookupKey. Proof. solve_decision. Defined.
Definition apply_key : OperationLookupKey := sample_key Method_ApplyTunnel x22.
Definition apply_ended (e : Engine (M:=Machine SimNet SimRegistry)) : option WireMutationReceipt :=
  match co_terminals (en_core e) !! canonical_lookup_digest toy_hash64 apply_key with Some (WT_Succeeded r) => Some r | _ => None end.
Lemma ended_new e e' d r :
  match co_terminals (en_core e) !! d with Some (WT_Succeeded r) => Some r | _ => None end = None →
  match co_terminals (en_core e') !! d with Some (WT_Succeeded r) => Some r | _ => None end = Some r →
  ∃ d, co_terminals (en_core (M:=Machine SimNet SimRegistry) e') !! d = Some (WT_Succeeded r)
     ∧ co_terminals (en_core (M:=Machine SimNet SimRegistry) e) !! d ≠ Some (WT_Succeeded r).
Proof.
  intros He He'. exists d. destruct (co_terminals (en_core e') !! d) as [[r'|]|]; try discriminate He'. injection He' as ->.
  split; [reflexivity|]. intros E. rewrite E in He. discriminate He.
Qed.
Definition committing : Run := asked ++ begins 1 ++ calls ([go 0; go 0; go 0; go 0] ++ negotiate 0 ++ settings 0).

(** The commit of the connection, at which its operation ends. *)
Lemma ends_are_true_witness :
  ∃ e e' r, engine_runs committing = Some e ∧ step_on (E_Runtime 0 (Rp_Commit None sample_netio)) e = Some e' ∧
    apply_ended e = None ∧ apply_ended e' = Some r ∧
    ∃ l k g, sy_live (en_sys e') = Some l ∧ lt_threads l = Some k ∧ sy_groups (en_sys e') !! k = Some g ∧ gr_alive g = true
      ∧ gr_operation g = op_of apply_key.
Proof.
  assert (match engine_runs committing with
          | Some e => match step_on (E_Runtime 0 (Rp_Commit None sample_netio)) e with
                      | Some e' => Some (length (sy_groups (en_sys e)), bool_decide (is_Some (apply_ended e)),
                                         match apply_ended e' with Some r => bool_decide (wr_identity r = key_to_wire (dg x09) apply_key) | None => false end)
                      | None => None
                      end
          | None => None
          end = Some (1, false, true)) as Hm by (vm_compute; reflexivity).
  destruct (engine_runs committing) as [e|] eqn:He; [|discriminate Hm].
  destruct (step_on (E_Runtime 0 (Rp_Commit None sample_netio)) e) as [e'|] eqn:Hs; [|discriminate Hm]. injection Hm as Hn H1 H2.
  destruct (apply_ended e') as [r|] eqn:Hr; [|discriminate H2]. exists e, e', r. split; [reflexivity|]. split; [exact Hs|].
  assert (apply_ended e = None) as Hno by (destruct (apply_ended e); [discriminate H1|reflexivity]).
  split; [exact Hno|]. split; [exact Hr|].
  assert (∃ d, co_terminals (en_core e') !! d = Some (WT_Succeeded r) ∧ co_terminals (en_core e) !! d ≠ Some (WT_Succeeded r))
    as (d & Hd & Hnew).
  { exact (ended_new _ e' _ r Hno Hr). }
  assert (groups_bounded (en_sys e)) as Hb by (unfold groups_bounded; rewrite Hn; reflexivity).
  destruct (ends_are_true [] toy_sha256 toy_hash64 wk_bytes wk_bytes no_package wiped (serving Service) (uu x44) sample_machine e
              run_accounted (run_reachable _ e He) Hb) as [_ Ht].
  apply (Ht _ e' d r apply_key Hs Hd Hnew); [|reflexivity]. exists (dg x09). exact (bool_decide_eq_true_1 _ H2).
Defined.

(** A stop begins when a connection is about to be committed: the assembly, which has all
    its routes, takes them back. *)
Definition stopping : Run := committing ++ [stop_for x23].
Definition overtaken : Run := calls [Ch_Run 0 (Rp_Commit None sample_netio); io_at 0; io_at 0; go 0; go 0; go 0].
Lemma engine_stop_final_witness :
  ∃ e e', engine_runs stopping = Some e ∧ is_assembling (en_sys e') = false ∧ is_connected (en_sys e') = false ∧ silent e e'.
Proof.
  assert (match engine_runs stopping with
          | Some e => (match en_tasks e !! 2 with Some (K_Stop _ _ _ _ Q_Cancel) => true | _ => false end,
                       match engine_run [] toy_sha256 toy_hash64 wk_bytes wk_bytes no_package wiped (serving Service) (run_task 2 :: overtaken) e with
                       | Some e' => Some (is_assembling (en_sys e'), is_connected (en_sys e'))
                       | None => None
                       end)
          | None => (false, None)
          end = (true, Some (false, false))) as Hm by (vm_compute; reflexivity).
  destruct (engine_runs stopping) as [e|] eqn:He; [|discriminate Hm].
  destruct (engine_run _ _ _ _ _ _ _ _ (run_task 2 :: overtaken) e) as [e'|] eqn:Hs; [|discriminate (f_equal snd Hm)].
  injection Hm as Ht Ha Hc. destruct (en_tasks e !! 2) as [t|] eqn:Et; [|discriminate Ht].
  exists e, e'. split; [reflexivity|]. split; [exact Ha|]. split; [exact Hc|].
  apply (engine_stop_final [] toy_sha256 toy_hash64 wk_bytes wk_bytes no_package wiped (serving Service) (uu x44) sample_machine e 2 t overtaken e'
           run_accounted (run_reachable _ e He) Et).
  - destruct t as [| |? ? ? ? [| | |]| | | |]; try discriminate Ht. reflexivity.
  - reflexivity.
  - exact Hs.
Defined.

(** A stop of a connection waits for the disconnect, which is over: it goes on. *)
Definition disconnected : Run :=
  connected_run ++ [stop_for x23; run_task 2; run_task 2] ++ calls [go 2; go 2; go 2; io_at 2; io_at 2; go 2; go 1].
Lemma requests_end_witness :
  ∃ e t, engine_runs disconnected = Some e ∧ en_tasks e !! 2 = Some t ∧ quiesce_of t = Some (Q_Join 2) ∧
    ∃ input, is_Some (step_on (E_Task 2 input) e).
Proof.
  assert (match engine_runs disconnected with
          | Some e => (quiescent (en_sys e), match en_tasks e !! 2 with Some (K_Stop _ _ _ _ (Q_Join 2)) => true | _ => false end)
          | None => (false, false)
          end = (true, true)) as Hm by (vm_compute; reflexivity).
  destruct (engine_runs disconnected) as [e|] eqn:He; [|discriminate Hm]. injection Hm as Hq Ht.
  destruct (en_tasks e !! 2) as [t|] eqn:Et; [|discriminate Ht]. exists e, t. split; [reflexivity|]. split; [exact Et|].
  destruct t as [| |wk key d eff [| |[|[|[|]]]|]| | | |]; try discriminate Ht. split; [reflexivity|].
  destruct (requests_end [] toy_sha256 toy_hash64 wk_bytes wk_bytes no_package wiped (serving Service) (uu x44) sample_machine e
              run_accounted (run_reachable _ e He)) as [_ Hgo].
  destruct (Hgo (quiescent_rest _ _ Hq) 2 _ Et eq_refl) as [[a Ha]|Hs]; [discriminate Ha|exact Hs].
Defined.

(** ** Deviations *)

Definition ends_of (m : OperationMethod) (op : byte) (e : Engine (M:=Machine SimNet SimRegistry)) : result Status WireOperationState :=
  get_operation_state toy_sha256 toy_hash64 wk_bytes owner_info (wire_op m op) (en_core e).
Definition kind_of (r : result Status WireOperationState) : option bool :=
  match r with Ok (WO_Terminal (WT_Succeeded _)) => Some true | Ok (WO_Terminal (WT_Failed _ _)) => Some false | _ => None end.
Definition pending_of (r : result Status WireOperationState) : bool := match r with Ok WO_Pending => true | _ => false end.

(** The same request for a connection, made again while it is assembled, fails the operation
    that is running, and what is told of its success later is held back. *)
Definition retried : Run :=
  asked ++ begins 1 ++ [apply_for x22] ++ begins 2 ++ [run_task 2] ++ calls (connect 0).
Example retry_hides_connection :
  match engine_runs retried with
  | Some e => (is_connected (en_sys e), kind_of (ends_of Method_ApplyTunnel x22 e))
  | None => (false, None)
  end = (true, Some false).
Proof. vm_compute. reflexivity. Qed.
(** A second acquisition is refused, and says that the first has failed, which had been
    acquired. *)
Example acquire_overwrites :
  match engine_runs (opening ++ [acquire x21 x21]), engine_runs (opening ++ [acquire x21 x21; acquire x24 x24]) with
  | Some e, Some e' => (kind_of (ends_of Method_AcquireLease x21 e), kind_of (ends_of Method_AcquireLease x21 e'))
  | _, _ => (None, None)
  end = (Some true, Some false).
Proof. vm_compute. reflexivity. Qed.
(** Releasing the lease leaves the tunnel up. *)
Example release_leaves_tunnel :
  match engine_runs (connected_run ++ [release_for x25]) with
  | Some e => (is_connected (en_sys e), bool_decide (co_owner (en_core e) = None), bool_decide (co_applied_tunnel (en_core e) = None))
  | None => (false, false, false)
  end = (true, true, true).
Proof. vm_compute. reflexivity. Qed.
(** An owner that confirms its token has no lease any more: what it asks for then is recorded
    as admitted, refused, and pending for good. *)
Definition confirmed : Run :=
  opening ++ [acquire x21 x21;
    E_Task 0 (In_Message (uu x46) true
      (MkHostLeaseMessage (arr_bytes (uu x01))
         (Some (HM_OwnershipTokenReceived [] (arr_bytes (toy_sha256 (arr_bytes (dg x21))))))))].
Example confirmed_token_ends_lease :
  match engine_runs (confirmed ++ [apply_for x22]) with
  | Some e => (bool_decide (is_Some (co_owner (en_core e))), length (en_tasks e), pending_of (ends_of Method_ApplyTunnel x22 e))
  | None => (false, 0, false)
  end = (true, 1, true).
Proof. vm_compute. reflexivity. Qed.
(** The credentials of a request that is refused before they are read are left as they are;
    the ones that are read are wiped. *)
Definition secret_left (ext : option NamedPipeConnectInfo) : option (list byte) :=
  e ← engine_runs (opening ++ [acquire x21 x21]);
  Some (apply_admit toy_sha256 toy_hash64 wk_bytes no_package wiped (serving Service) ext
          (MkApplyTunnelRequest (wire_op Method_ApplyTunnel x22) (Some plan_wire) (arr_bytes (dg x22)) [x73] 1) 20 21 (uu x22) (en_core e)).1.2.
Example apply_refused_leaves_secret : (secret_left owner_info, secret_left other_info) = (Some [x00], Some [x73]).
Proof. vm_compute. reflexivity. Qed.
